(* ===== verification/_CoqProject ===== *)
-Q . S2P
Prelude.v
Memory.v
BinaryWriter.v
BinaryReader.v
Serializable.v
Crypto.v
Hex.v
Ripemd160.v
Base58.v
Base64.v
Hashes.v
Bytes.v
PointerArray.v
StringUtils.v
ByteObject.v
ByteArray.v
Uri.v
Config.v
Cjson.v
Json.v
Decode.v
ParameterType.v
Nep6.v
Nep6Struct.v
NefFile.v
Bip39Words.v
Bip39.v
Interop.v
Opcode.v
NeoVM.v
ScriptBuilder.v
SmartContract.v
EcKey.v
VerificationScript.v
ScriptHelper.v
InvocationScript.v
ScriptReader.v
Signature.v
KeyPair.v
Bip32.v
EcPoint.v
Wif.v
Nep2.v
Nep6Wallet.v
Sign.v
MultiSig.v
WitnessRule.v
WitnessJson.v
Witness.v
Signer.v
Transaction.v
Account.v
Bip39Account.v
Wallet.v
AccountNep6.v
TransactionBuilder.v
SpecialSigner.v
StackItem.v
Manifest.v
NativeContracts.v
