(* ===== verification/Prelude.v ===== *)
(** * NeoC in Rocq

    A verification development for NeoC, a C SDK for the Neo N3 blockchain.  The
    library turns keys, hashes and contract parameters into the byte strings the
    network understands, keeps accounts and wallets, and reads such byte strings
    and JSON documents back.  The development models these layers from the C
    sources under src/ and proves what makes them correct.

    ** The program and the files that model it

    Each file opens with the C files it models; a definition has the name of the
    C function it models.  The order below is that of the layers; a file requires
    the files of the components its C code calls.

    - This file: machine integers, bytes, error codes, the state and error monad,
      the heap, buffers, and the automation shared by all files.  [Memory]:
      neoc_memory.c, the allocation functions with their statistics.
    - Byte streams (src/serialization/).  [BinaryWriter]: the growable write
      buffer of binary_writer.c.  [BinaryReader]: the cursor of binary_reader.c.
      [Serializable]: the vtable of neo_serializable.c, and the class [Codec] of
      what a concrete type promises to the generic array operations.
    - Text codecs (src/utils/).  [Hex], [Base58] (with Base58Check), [Base64]
      (with the URL-safe variant): neoc_hex.c, neoc_base58.c, neoc_base64.c.
    - Hashes (src/crypto/neoc_hash.c, src/types/).  [Crypto]: the wrappers around
      OpenSSL's digests.  [Ripemd160]: the library's own digest function,
      crypto/helpers/ripemd160.c.  [Hashes]: neoc_hash160.c and neoc_hash256.c, with hex
      text, addresses, byte orders, comparison and streams.
    - Utilities (src/utils/, src/types/).  [Bytes]: neoc_bytes.c and numeric.c.
      [PointerArray]: the arrays of pointers of array.c.  [StringUtils]: string.c.
      [ByteObject]: neoc_types.c and neoc_bytes_utils.c.  [ByteArray]: the byte
      arrays of array.c and bytes.c.
    - Configuration (src/protocol/neo_c_config.c).  [Config]: the request counter
      that threads share, as the steps of the threads, the global state, and the
      configuration objects.
    - JSON.  [Cjson]: the bundled parser and printer (third_party/cjson/).
      [Json]: the layer of utils/json.c.  [Decode]: utils/decode.c, numbers and
      booleans of texts and of JSON fields.  [ParameterType]:
      contract_parameter_type.c.
    - Scripts (src/script/).  [Interop]: the table of system calls of
      interop_service.c.  [Opcode]: the opcode table.  [ScriptBuilder]:
      script_builder.c and script_builder_full.c.  [EcKey]: the encodings of
      public keys.  [VerificationScript]: verification_script.c.
      [InvocationScript]: invocation_script.c.  [ScriptReader]: the disassembler
      script_reader.c.  [ScriptHelper]: script_helper.c and the account hashes of
      neoc_hash160.c.  [NeoVM] models no code of the library: it is the
      specification of the virtual machine instructions the builders emit,
      against which the scripts are proved correct.
    - Keys (src/crypto/).  [KeyPair]: ec_key_pair.c.  [EcPoint]: ecpoint.c.
      [Signature]: ecdsasignature.c.  [Sign]: sign.c.  [Wif]: wif.c.  [Nep2]:
      nep2.c.  [Bip39Words] and [Bip39]: bip39.c.  [Bip32]: bip32.c.
    - Transactions (src/transaction/, src/protocol/core/witnessrule/).
      [WitnessRule] and [WitnessJson]: conditions, actions and rules, as bytes
      and as JSON.  [Witness]: witness.c.  [Signer]: signer.c and
      witness_scope.c.  [Transaction]: transaction.c.  [TransactionBuilder]:
      transaction_builder.c and the signing functions of transaction.c.
      [SpecialSigner]: account_signer.c, contract_signer.c,
      contract_parameters_context.c and types/contract_parameter.c.  [StackItem]:
      the results of an invocation, src/protocol/stack_item.c.
    - Wallets (src/wallet/).  [MultiSig]: multi_sig.c.  [Account]: account.c.
      [Bip39Account]: bip39_account.c.  [Wallet]: wallet.c.  [Nep6], [Nep6Struct]
      and [Nep6Wallet]: the three spellings of NEP-6 objects, nep6/nep6_contract.c
      and nep6_account.c, nep6/nep6_wallet.c, nep6.c.  [AccountNep6]: the
      conversions between them and the accounts.
    - Contracts (src/contract/).  [NefFile]: nef_file.c.  [SmartContract]:
      contract_parameter.c and smart_contract.c.  [Manifest]:
      contract_manifest.c.  [Uri]: neoc_uri.c and nns_name.c.  [NativeContracts]: the tokens and native contracts.

    Where a component relies on another only through a promise, the promise is a
    class: [Codec] (Serializable), [Interop] (the hash of a service, discharged by
    the table in [interop_static]), and, for code that is not in the repository,
    [Allocator] (the heap), [Crypto] (digests), [Curve], [Ecdsa], [PointArith],
    [HdCurve], [Recovery] (the arithmetic of secp256r1), [Der] (DER encoding),
    [Nep2Crypto] (scrypt and AES) and [Double] (conversions of floating-point
    numbers).

    ** How the code is modelled

    - A w-bit integer is a [Z]; where C reduces it, [wrap w] (unsigned) or
      [swrap w] (cast to a signed type) is written out.  [size_t] and [uint64_t]
      have 64 bits, [int] 32, pointers 8 bytes, integers are little endian in
      memory (LP64).
    - Bytes are the standard library's [byte]; a C string is the list of its
      bytes without the NUL; a pointer to data that may be NULL is an [option].
      Handles (writers, readers, builders, structs passed by address) are not
      NULL: the NULL checks on them are the only guards left out.
    - A call returns [Ok], [Err] with the code it returns, or [Fault], which
      stands for every undefined behaviour: an access outside a buffer, a NULL
      dereference, a loop that does not end.  A function with an object or a
      caller's buffer as in-out argument is a computation in the monad [M] over
      that object, which is returned for every outcome, so that what an error
      leaves behind is part of the model.  A function that returns a pointer is
      [Err e] when it returns NULL with the error [e] recorded.
    - Whether an allocation succeeds is decided by an [Allocator] the theorems
      quantify over ([heap_serves n]: requests up to [n] bytes succeed), by the size
      of the request: of two requests of one size in one call both succeed or both
      fail, so that a branch where only the second fails, as in
      [neoc_signer_add_allowed_group], is not taken.  The content of fresh heap
      memory is a parameter [junk] where it can be seen.  In [Memory] and
      [PointerArray] every request has its own answer.
    - The text of error messages has no model.  Freeing memory has one where the
      code shares or loses blocks: [Memory], [Signer], [Wallet],
      [TransactionBuilder], [PointerArray], [StackItem] (reference counts in a
      store of items); elsewhere a value that is freed is dropped.
    - Loops are structural recursion on the data they consume, or recursion with
      fuel: the doubling loop of the writer has 65 rounds, enough for any 64-bit
      size ([grow_spec]); the key loops of [VerificationScript] have one round
      more than the script has bytes and use one per 35 bytes
      ([scan_keys_sound]); the reader of nested conditions has four levels, the
      last of which only reports the error ([deserialize_internal_safe]); the
      JSON parser has 1025 levels, the nesting limit of the source, and one round
      for each character at each level, and so has the scan over the words of a text
      that states when it is safe ([words_ok_enough]); numbers are printed with at most 20 decimal digits,
      enough for 64 bits; the swapping loop of [Bytes] has one round for each
      byte and uses half of them ([reverse_loop_ok]); releasing and comparing
      stack items have one level more than the store has items, enough without
      cycles ([unref_releases], [equals_total]); the query of a URI has a round
      for each character ([query_total]), and the loop over the blocks of a digest
      one round more than there are blocks ([compress_blocks_ok]).  Running out of fuel is
      [Fault], and the theorems show that it does not happen.
    - Each hypothesis on code that is not in the repository ([crypto_works],
      [curve_works] and the like) states its documented behaviour: sizes of
      digests, round trips of point encodings, group laws, that decryption
      inverts encryption.  [toy_crypto], [toy_curve] and the like are instances
      that satisfy them, for the witnesses.

    ** What the theorems show

    - Memory and streams: the statistics of the allocator count the live blocks
      when every list entry finds memory, and never fewer ([memory_accounting]); any sequence of writes is the concatenation of the
      encodings, and typed reads give the values back ([writer_refines_append],
      [stream_roundtrip], [serializable_array_roundtrip]); whatever the data and
      the heap do, neither side leaves its buffer, and only [read_push_int] on
      INT32_MIN is undefined ([writer_safe], [reader_session_safe]).
    - Codecs: decoding inverts encoding for hex, Base58, Base58Check, Base64 and
      addresses; decoders of untrusted text accept exactly the canonical texts
      and stay inside their buffers ([base58_text_canonical],
      [base58_check_decode_verifies], [address_canonical], [hex_decode_iff_valid],
      [base64_decode_untrusted]).
    - The portable digest is the published one, with the message in any pieces,
      and agrees with the wrapper around OpenSSL ([ripemd160_published],
      [ripemd160_functions_agree]).
    - The shared counter: every interleaving is a sequential history, numbers are
      never given twice, and threads do not block each other for good
      ([counter_linearizable], [request_numbers_unique], [counter_never_stuck]);
      the life of the global state and the guards of configurations
      ([global_config_lifecycle], [config_stays_valid]).
    - Utilities: the size codecs agree and round trip ([var_size_encoders_agree],
      [var_size_roundtrip]); arrays of pointers are lists and free each block once
      ([array_refines_list]); byte objects are byte strings, with their order
      ([bytes_append_refines], [bytes_compare_lex], [byte_array_append_refines],
      [byte_array_combinations]); splitting, trimming and texts
      ([string_split_join], [string_trim_spec], [bytes_object_hex]); numbers and
      booleans are read from exactly the texts that spell them, and from JSON
      fields ([decode_number_iff], [decode_bool_iff], [decode_text_roundtrip],
      [decode_json_fields]); payment URIs are read back ([uri_roundtrip],
      [uri_parse_total]).
    - JSON: printing and parsing give a tree without quotes in its strings back;
      a quote is printed as a lone backslash and lost ([json_roundtrip],
      [quote_is_lost]); the parser is safe on every text whose escapes are complete
      and whose numbers fit an int ([json_parse_safe]).  The NEP-6 objects and
      witness rules on top of it round trip ([nep6_account_roundtrip],
      [nep6_struct_roundtrip], [witness_rule_json_roundtrip]).
    - Scripts: what the builders emit evaluates, on the machine of [NeoVM], to
      the values asked for, with arrays and maps reversed and empty bytes as 0, and
      calls arrive at their system call with their four arguments
      ([push_param_evaluates], [contract_call_reaches_syscall],
      [neo_transfer_calls], [nns_calls]); signature scripts are recognised and
      read back, do not depend on the order of keys, and every accepted script
      is an m-of-n script ([multi_sig_roundtrip], [multi_sig_order_independent],
      [multi_sig_accepts_only_multi_sig], [invocation_roundtrip]); the
      disassembler ends on every script and lists well-formed ones
      ([disassembly_total], [disassembly_lists]); contract files round trip
      ([nef_roundtrip], [nef_untrusted]); manifests keep their methods and are
      written into their block or behind it ([manifest_methods_kept],
      [manifest_text_fits]).
    - Keys: texts and encodings of keys and signatures round trip
      ([signature_roundtrip], [wif_roundtrip_canonical], [nep2_roundtrip],
      [extended_key_roundtrip], [ec_point_hex_roundtrip]); recoverable signatures
      ([sign_message_recoverable]); phrases are those of their entropy
      ([mnemonic_roundtrip], [mnemonic_accepted_iff]); derivation commutes with
      publication and gives valid keys ([public_derivation_commutes],
      [path_derivation_valid]).
    - Transactions: conditions and rules satisfy their invariant however they are
      built or read, round trip when nested at most two levels deep (deeper ones are
      refused by the serializer), and are safe to read from untrusted bytes
      ([condition_invariant], [witness_rule_roundtrip], [witness_rule_untrusted]);
      the state of signers, transactions and builders after any history of calls,
      for builders up to a call that is undefined ([signer_history], [transaction_signers_distinct], [tx_builder_session]);
      the encoding determines the transaction, so that its hash commits to it
      ([transaction_hash_commits]); witnesses, clones and signing
      ([witness_roundtrip], [transaction_clone_equal],
      [transaction_sign_multi_signs]); signers of accounts and contracts
      ([account_signers_made], [contract_signer_keeps]).
    - Stack items: every history of a client that releases what it holds and sets
      members of maps to items it holds itself counts references right and frees
      everything ([stack_items_counted]); equality and
      integers ([stack_equals_decides], [stack_integer_roundtrip]).
    - Wallets: the ways to make an account agree, its witness verifies, any
      script is digested without fault ([account_sources_agree],
      [account_witness_verifies], [account_from_any_script]); wallets refine a
      map of accounts, NEP-6 wallets when they were not loaded from text
      ([wallet_refines], [wallet_default_invariant], [nep6_wallet_refines_map]);
      export and import, with what they lose ([wallet_nep6_roundtrip],
      [account_nep6_roundtrip]).
    - Where the code differs from what it means to do, a theorem states what it
      does, among them [interop_early_use_sticks], [script_address_reverses],
      [skip_wraps_backwards], [hex_equal_odd_length], [transaction_hash_sticks],
      [signer_group_failure_dangles], [calculate_fees_consumes],
      [high_priority_shares_data], [priority_double_free], [dropped_entry_leaks],
      [threshold_shift_undefined], [quote_ends_nothing], [nep6_loaded_add_overruns],
      [wallet_unlock_any_passphrase], [account_decrypt_takes_any_key],
      [invocation_script_runs], [nft_scripts_stuck], [designate_calls],
      [var_size_decoders], [array_insert_failure_double_free],
      [string_address_checksum], [bytes_object_address],
      [byte_array_from_hex_empty], [byte_array_pad_empty],
      [context_never_completes], [context_create_faults],
      [map_set_same_value_faults], [features_unseen], [nns_parent_is_front],
      [uri_asset_sets_amount], [custom_unchecked].

    ** Not modelled

    The network layer (src/protocol/, except witness rules, stack items and the
    configuration, and src/utils/url_session.c): requests to a node over HTTP and
    the records its answers are copied into; most of the response files are
    excluded from the build, and so is the second transaction object
    (neo_transaction.c).  The second spellings of digests and arrays
    (crypto/hash.c, utils/neoc_array.c).  Tables of names of enumerations
    (utils/enum.c, types/).  The record of the last error (neoc_error.c) and the
    texts of errors.  Tests, examples and the programs under tools/.  Threads:
    except for the request counter, whose mutex is modelled, the library is
    modelled for one thread. *)

From stdpp Require Export base tactics list numbers option.
From stdpp Require Export strings.
From Stdlib Require Export ZArith Lia.
From Stdlib Require Strings.Byte Strings.String.

Abbreviation byte := Corelib.Init.Byte.byte.

#[global] Open Scope Z_scope.

(** ** Machine integers

    [size_t] and [uint64_t] are 64 bits wide (LP64).  A w-bit unsigned value is
    a [Z]; the places where C reduces modulo 2^w apply [wrap w], and a cast to a
    signed type applies [swrap w]. *)

Definition wrap (w z : Z) : Z := z mod 2 ^ w.

Definition swrap (w z : Z) : Z :=
  let u := wrap w z in if u <? 2 ^ (w - 1) then u else u - 2 ^ w.

Definition SIZE_MAX : Z := 2 ^ 64 - 1.

(** ** Bytes

    [uint8_t] is the standard library's [byte]; [byte_of_Z] is the cast
    [(uint8_t)z] and [Z_of_byte] the integer promotion of a byte. *)

Definition Z_of_byte (b : byte) : Z := Z.of_N (Byte.to_N b).

Definition byte_of_Z (z : Z) : byte :=
  match Byte.of_N (Z.to_N (wrap 8 z)) with
  | Some b => b
  | None => Byte.x00
  end.

#[global] Instance byte_eq_dec : EqDecision byte := Byte.byte_eq_dec.

(** A C string is the list of its bytes without the terminating NUL. *)
Definition str (s : String.string) : list byte := String.list_byte_of_string s.

(** Little-endian images of integers. *)
Fixpoint le_bytes (n : nat) (v : Z) : list byte :=
  match n with
  | O => []
  | S n => byte_of_Z v :: le_bytes n (v / 256)
  end.

Fixpoint le_val (bs : list byte) : Z :=
  match bs with
  | [] => 0
  | b :: bs => Z_of_byte b + 256 * le_val bs
  end.

(** [zlen l] is the length of a buffer as a [size_t]. *)
Definition zlen {A} (l : list A) : Z := Z.of_nat (length l).

(** ** Error codes (include/neoc/neoc_error.h)

    The enumerators that share a value in the header are one constructor here;
    the aliases are notations. *)

Inductive neoc_error_t : Set :=
| NEOC_ERROR_NULL_POINTER | NEOC_ERROR_INVALID_ARGUMENT
| NEOC_ERROR_OUT_OF_MEMORY | NEOC_ERROR_BUFFER_TOO_SMALL
| NEOC_ERROR_INVALID_STATE | NEOC_ERROR_NOT_IMPLEMENTED
| NEOC_ERROR_INVALID_LENGTH | NEOC_ERROR_END_OF_STREAM
| NEOC_ERROR_BUFFER_OVERFLOW | NEOC_ERROR_INVALID_FORMAT
| NEOC_ERROR_INVALID_HEX | NEOC_ERROR_INVALID_BASE58
| NEOC_ERROR_INVALID_BASE64 | NEOC_ERROR_DESERIALIZE
| NEOC_ERROR_SERIALIZE | NEOC_ERROR_OUT_OF_BOUNDS
| NEOC_ERROR_NOT_FOUND | NEOC_ERROR_INVALID_SIZE
| NEOC_ERROR_INVALID_PASSWORD | NEOC_ERROR_NOT_SUPPORTED
| NEOC_ERROR_CRYPTO | NEOC_ERROR_CRYPTO_INIT
| NEOC_ERROR_CRYPTO_INVALID_KEY | NEOC_ERROR_CRYPTO_SIGN
| NEOC_ERROR_CRYPTO_VERIFY | NEOC_ERROR_CRYPTO_HASH
| NEOC_ERROR_CRYPTO_RANDOM | NEOC_ERROR_NETWORK | NEOC_ERROR_PROTOCOL
| NEOC_ERROR_RPC | NEOC_ERROR_HTTP | NEOC_ERROR_TX_INVALID | NEOC_ERROR_TX_SIZE
| NEOC_ERROR_TX_SCRIPT | NEOC_ERROR_TX_WITNESS | NEOC_ERROR_CONTRACT_INVALID
| NEOC_ERROR_CONTRACT_INVOKE | NEOC_ERROR_CONTRACT_MANIFEST
| NEOC_ERROR_WALLET_INVALID | NEOC_ERROR_WALLET_LOCKED
| NEOC_ERROR_WALLET_DECRYPT | NEOC_ERROR_WALLET_ACCOUNT | NEOC_ERROR_SYSTEM
| NEOC_ERROR_IO | NEOC_ERROR_TIMEOUT | NEOC_ERROR_CANCELLED | NEOC_ERROR_FILE
| NEOC_ERROR_FILE_NOT_FOUND | NEOC_ERROR_INTERNAL.

Abbreviation NEOC_ERROR_MEMORY := NEOC_ERROR_OUT_OF_MEMORY.
Abbreviation NEOC_ERROR_INVALID_PARAM := NEOC_ERROR_INVALID_ARGUMENT.
Abbreviation NEOC_ERROR_INVALID_DATA := NEOC_ERROR_INVALID_FORMAT.
Abbreviation NEOC_ERROR_INVALID_TYPE := NEOC_ERROR_INVALID_FORMAT.
Abbreviation NEOC_ERROR_OVERFLOW := NEOC_ERROR_BUFFER_OVERFLOW.

#[global] Instance neoc_error_eq_dec : EqDecision neoc_error_t.
Proof. solve_decision. Defined.

(** ** Outcomes and the state monad

    A C call either returns a value with [NEOC_SUCCESS], returns an error code,
    or does not return normally ([Fault]): an access outside a buffer, a loop
    that never ends, or another undefined behaviour.  The theorems that say a
    function is safe prove that its outcome is not [Fault]. *)

Inductive res (A : Type) : Type :=
| Ok (a : A)
| Err (e : neoc_error_t)
| Fault.
Arguments Ok {A} a.
Arguments Err {A} e.
Arguments Fault {A}.

(** A call that works on an object through a pointer: the object after the call
    is returned for every outcome, since an error can leave it changed. *)
Definition M (S A : Type) : Type := S -> res A * S.

Definition ret {S A} (a : A) : M S A := fun s => (Ok a, s).
Definition fail {S A} (e : neoc_error_t) : M S A := fun s => (Err e, s).
Definition fault {S A} : M S A := fun s => (Fault, s).
Definition get {S} : M S S := fun s => (Ok s, s).
Definition put {S} (s' : S) : M S unit := fun _ => (Ok tt, s').

Definition bind {S A B} (m : M S A) (k : A -> M S B) : M S B := fun s =>
  match m s with
  | (Ok a, s') => k a s'
  | (Err e, s') => (Err e, s')
  | (Fault, s') => (Fault, s')
  end.

Definition rbind {A B} (m : res A) (k : A -> res B) : res B :=
  match m with
  | Ok a => k a
  | Err e => Err e
  | Fault => Fault
  end.

Declare Scope neoc_scope.
Delimit Scope neoc_scope with neoc.
#[global] Open Scope neoc_scope.

Notation "'let!' x ':=' m 'in' k" := (bind m (fun x => k))
  (at level 10, x name, m at level 100, k at level 200,
   format "'[v' 'let!'  x  ':='  m  'in' '/' k ']'") : neoc_scope.
Notation "'let!' ' p ':=' m 'in' k" := (bind m (fun p => k))
  (at level 10, p pattern, m at level 100, k at level 200) : neoc_scope.
Notation "'do!' m 'in' k" := (bind m (fun _ => k))
  (at level 10, m at level 100, k at level 200,
   format "'[v' 'do!'  m  'in' '/' k ']'") : neoc_scope.
Notation "'let?' x ':=' m 'in' k" := (rbind m (fun x => k))
  (at level 10, x name, m at level 100, k at level 200) : neoc_scope.
Notation "'let?' ' p ':=' m 'in' k" := (rbind m (fun p => k))
  (at level 10, p pattern, m at level 100, k at level 200) : neoc_scope.

(** Run the steps of a loop over a list, stopping at the first error. *)
Fixpoint for_each {S A} (f : A -> M S unit) (l : list A) : M S unit :=
  match l with
  | [] => ret tt
  | x :: l => do! f x in for_each f l
  end.

(** Lift a computation that does not touch the state. *)
Definition lift {S A} (r : res A) : M S A := fun s => (r, s).

Definition is_ok {A} (r : res A) : bool :=
  match r with Ok _ => true | _ => false end.

(** ** The heap

    Whether [malloc n] (or [calloc], [realloc]) succeeds is decided by an
    allocator the theorems quantify over.  [neoc_malloc] (src/neoc_memory.c)
    refuses a request for zero bytes and otherwise asks the allocator. *)

Class Allocator := malloc_ok : Z -> bool.

Definition neoc_malloc_ok `{Allocator} (n : Z) : bool :=
  if n =? 0 then false else malloc_ok n.

(** A copy of a string, and the error the caller returns when there is none. *)
Definition neoc_strdup `{Allocator} (str : list byte) (on_failure : neoc_error_t) : res (list byte) :=
  if negb (neoc_malloc_ok (zlen str + 1)) then Err on_failure else Ok str.

(** [heap_serves n]: every request of at most [n] bytes succeeds. *)
Definition heap_serves `{Allocator} (n : Z) : Prop :=
  forall m, 0 <= m <= n -> malloc_ok m = true.

(** [malloc] never returns an object larger than [PTRDIFF_MAX] bytes. *)
Definition heap_bounded `{Allocator} : Prop :=
  forall m, malloc_ok m = true -> m < 2 ^ 63.

(** ** Buffers *)

(** [memcpy(buf + i, bs, length bs)] and the single store [buf[i] = b], with
    the bounds of the destination checked. *)
Definition buf_copy {A} (buf : list A) (i : Z) (bs : list A) : option (list A) :=
  if (0 <=? i) && (i + zlen bs <=? zlen buf)
  then Some (take (Z.to_nat i) buf ++ bs ++ drop (Z.to_nat i + length bs) buf)
  else None.

Definition buf_get {A} (buf : list A) (i : Z) : option A :=
  if 0 <=? i then buf !! Z.to_nat i else None.

(** [len] bytes of [buf] from [i] on, [None] when they are not all inside. *)
Definition buf_slice {A} (buf : list A) (i len : Z) : option (list A) :=
  if (0 <=? i) && (0 <=? len) && (i + len <=? zlen buf)
  then Some (take (Z.to_nat len) (drop (Z.to_nat i) buf))
  else None.

(** An array on the heap: no array, an array, or one that was freed. *)
Inductive block (A : Type) : Type :=
| Null
| Live (l : list A)
| Freed.
Arguments Null {A}.
Arguments Live {A} l.
Arguments Freed {A}.

(** The items of an array that is reallocated; a freed one cannot be. *)
Definition block_items {A} (b : block A) : option (list A) :=
  match b with Null => Some [] | Live l => Some l | Freed => None end.

(** The first [count] entries of an array that a loop reads. *)
Definition block_read {A} (b : block A) (count : Z) : res (list A) :=
  if count <=? 0 then Ok []
  else
    match b with
    | Live l => match buf_slice l 0 count with Some l => Ok l | None => Fault end
    | _ => Fault
    end.

(** A routine that fills a caller's buffer works on the buffer as its state;
    [store i bs] puts [bs] at offset [i] and faults outside the buffer. *)
Definition store {A} (i : Z) (bs : list A) : M (list A) unit := fun buf =>
  match buf_copy buf i bs with
  | Some buf' => (Ok tt, buf')
  | None => (Fault, buf)
  end.

(** [memcpy(dst, data, n)] out of a caller's array. *)
Definition memcpy_from (data : list byte) (n : Z) : res (list byte) :=
  match buf_slice data 0 n with Some d => Ok d | None => Fault end.

(** A local array of [n] bytes that a call fills in. *)
Definition local_buffer (n : nat) (m : M (list byte) unit) : res (list byte) :=
  match m (replicate n Byte.x00) with
  | (Ok _, buf) => Ok buf
  | (Err e, _) => Err e
  | (Fault, _) => Fault
  end.

(** The loop that reverses a buffer in place, [n] swaps from index [i] on:
    [t = buf[i]; buf[i] = buf[len-1-i]; buf[len-1-i] = t]. *)
Fixpoint swap_loop {A} (n i : nat) (buf : list A) : list A :=
  match n with
  | O => buf
  | S n =>
      let j := (length buf - 1 - i)%nat in
      match buf !! i, buf !! j with
      | Some x, Some y => swap_loop n (S i) (<[j := x]> (<[i := y]> buf))
      | _, _ => buf
      end
  end.

Definition reverse_in_place {A} (buf : list A) : list A :=
  swap_loop (length buf / 2) 0 buf.

(** The C string at the start of a buffer: its bytes before the first NUL. *)
Fixpoint cstring (buf : list byte) : list byte :=
  match buf with
  | [] => []
  | b :: buf => if Z_of_byte b =? 0 then [] else b :: cstring buf
  end.

(** [strlen] of a character array. *)
Definition array_strlen (a : list byte) : res Z :=
  if existsb (fun b => Z_of_byte b =? 0) a then Ok (zlen (cstring a)) else Fault.

(** [strcat] of a string to the one in a character array. *)
Definition strcat (s : list byte) : M (list byte) unit := fun buf =>
  match array_strlen buf with
  | Ok n => store n (s ++ [Byte.x00]) buf
  | Err e => (Err e, buf)
  | Fault => (Fault, buf)
  end.

(** A call of which an error is ignored. *)
Definition attempt {S A} (m : M S A) : M S (option A) := fun s =>
  match m s with
  | (Ok a, s) => (Ok (Some a), s)
  | (Err _, s) => (Ok None, s)
  | (Fault, s) => (Fault, s)
  end.

(** ["%zu"]: the decimal digits of a number of at most [fuel] digits. *)
Fixpoint decimal_digits (fuel : nat) (v : Z) : list byte :=
  match fuel with
  | O => []
  | S fuel => (if v <? 10 then [] else decimal_digits fuel (v / 10)) ++ [byte_of_Z (48 + v mod 10)]
  end.

Definition print_decimal (v : Z) : list byte := decimal_digits 20 v.

(** [isspace], [isdigit], and the digits in front of a text. *)
Definition is_space (c : byte) : bool := (Z_of_byte c =? 32) || ((9 <=? Z_of_byte c) && (Z_of_byte c <=? 13)).
Definition is_digit (c : byte) : bool := (48 <=? Z_of_byte c) && (Z_of_byte c <=? 57).

Fixpoint skip_spaces (s : list byte) : list byte :=
  match s with c :: t => if is_space c then skip_spaces t else s | [] => [] end.

(** The digits in front and what follows them. *)
Fixpoint digits_of (s : list byte) : list byte * list byte :=
  match s with
  | c :: t => if is_digit c then let '(d, r) := digits_of t in (c :: d, r) else ([], s)
  | [] => ([], [])
  end.

Definition digits_value (ds : list byte) : Z := fold_left (fun v c => 10 * v + (Z_of_byte c - 48)) ds 0.

(** [strtoul(s, &endptr, 10)]: the number and the text [endptr] points to. *)
Definition strtoul (s : list byte) : Z * list byte :=
  let t := skip_spaces s in
  let '(negative, t) :=
    match t with
    | c :: u => if Z_of_byte c =? 45 then (true, u) else if Z_of_byte c =? 43 then (false, u) else (false, t)
    | [] => (false, [])
    end in
  let '(ds, rest) := digits_of t in
  match ds with
  | [] => (0, s)
  | _ =>
      let v := digits_value ds in
      (if 2 ^ 64 - 1 <? v then 2 ^ 64 - 1 else if negative then wrap 64 (- v) else v, rest)
  end.

(** ** Automation *)

Create HintDb neoc.

(** Split every boolean comparison of the goal and of the hypotheses into the
    arithmetic fact it decides. *)
Ltac bdestruct :=
  repeat match goal with
  | H : (_ && _) = true |- _ => apply andb_true_iff in H; destruct H
  | H : (_ || _) = false |- _ => apply orb_false_iff in H; destruct H
  | H : (_ =? _) = true |- _ => apply Z.eqb_eq in H
  | H : (_ =? _) = false |- _ => apply Z.eqb_neq in H
  | H : (_ <? _) = true |- _ => apply Z.ltb_lt in H
  | H : (_ <? _) = false |- _ => apply Z.ltb_ge in H
  | H : (_ <=? _) = true |- _ => apply Z.leb_le in H
  | H : (_ <=? _) = false |- _ => apply Z.leb_gt in H
  | H : bool_decide _ = true |- _ => apply bool_decide_eq_true in H
  | H : bool_decide _ = false |- _ => apply bool_decide_eq_false in H
  | H : negb _ = true |- _ => apply negb_true_iff in H
  | H : negb _ = false |- _ => apply negb_false_iff in H
  end.

(** Case on the scrutinee of the first [if] or [match] of the goal, keeping its
    equation, and clean up. *)
Ltac step :=
  match goal with
  | |- context [if ?b then _ else _] =>
      match type of b with bool => destruct b eqn:? end
  | |- context [match ?x with _ => _ end] => destruct x eqn:?
  end; bdestruct; simplify_eq/=.

(** Decide a boolean comparison of the goal by [lia]. *)
Ltac cmp_true c := replace c with true by (symmetry; lia).
Ltac cmp_false c := replace c with false by (symmetry; lia).

Ltac cmps :=
  repeat match goal with
  | |- context [?a =? ?b] => first [cmp_true (a =? b) | cmp_false (a =? b)]
  | |- context [?a <? ?b] => first [cmp_true (a <? b) | cmp_false (a <? b)]
  | |- context [?a <=? ?b] => first [cmp_true (a <=? b) | cmp_false (a <=? b)]
  end; cbn [andb orb negb].

(** Linear arithmetic with [/] and [mod] by constants; powers of constants are
    evaluated first. *)
Ltac eval_pows :=
  repeat match goal with
  | |- context [Z.pow ?a ?b] =>
      let v := eval vm_compute in (Z.pow a b) in
      lazymatch isZcst v with true => change (Z.pow a b) with v end
  | H : context [Z.pow ?a ?b] |- _ =>
      let v := eval vm_compute in (Z.pow a b) in
      lazymatch isZcst v with true => change (Z.pow a b) with v in H end
  end.

Ltac dlia := eval_pows; Z.div_mod_to_equations; lia.

(** ** Words *)

Lemma wrap_range w z : 0 <= w -> 0 <= wrap w z < 2 ^ w.
Proof. intros. apply Z.mod_pos_bound. lia. Qed.

Lemma wrap_small w z : 0 <= z < 2 ^ w -> wrap w z = z.
Proof. apply Z.mod_small. Qed.

Lemma swrap_small w z :
  0 < w -> - 2 ^ (w - 1) <= z < 2 ^ (w - 1) -> swrap w z = z.
Proof.
  intros Hw Hz. unfold swrap, wrap.
  assert (2 ^ w = 2 * 2 ^ (w - 1)) as Hp.
  { rewrite <- Z.pow_succ_r by lia. f_equal. lia. }
  destruct (Z_le_gt_dec 0 z).
  - rewrite Z.mod_small by lia. cmps. done.
  - replace (z mod 2 ^ w) with (z + 2 ^ w).
    2: { replace (z + 2 ^ w) with ((z + 2 ^ w) mod 2 ^ w)
           by (apply Z.mod_small; lia).
         rewrite Z.add_mod, Z.mod_same, Z.add_0_r, Z.mod_mod by lia. done. }
    cmps. lia.
Qed.

Lemma swrap_wrap w z : 0 <= w -> swrap w (wrap w z) = swrap w z.
Proof.
  intros. unfold swrap, wrap. rewrite Z.mod_mod by lia. done.
Qed.

Lemma swrap_range w z : 0 < w -> - 2 ^ (w - 1) <= swrap w z < 2 ^ (w - 1).
Proof.
  intros Hw. pose proof (wrap_range w z ltac:(lia)). unfold swrap.
  assert (2 ^ w = 2 * 2 ^ (w - 1)) as Hp.
  { rewrite <- Z.pow_succ_r by lia. f_equal. lia. }
  destruct (_ <? _) eqn:E; bdestruct; lia.
Qed.

(** ** Byte lemmas *)

Lemma Z_of_byte_range b : 0 <= Z_of_byte b < 256.
Proof.
  unfold Z_of_byte. pose proof (Byte.to_N_bounded b). lia.
Qed.

Lemma Z_of_byte_of_Z z : Z_of_byte (byte_of_Z z) = z mod 256.
Proof.
  unfold Z_of_byte, byte_of_Z.
  pose proof (wrap_range 8 z ltac:(lia)) as Hr. change (2 ^ 8) with 256 in Hr.
  destruct (Byte.of_N _) as [b|] eqn:E.
  - apply Byte.to_of_N in E. rewrite E. unfold wrap in *.
    change (2 ^ 8) with 256 in *. lia.
  - apply Byte.of_N_None_iff in E. lia.
Qed.

Lemma Z_of_byte_small z : 0 <= z < 256 -> Z_of_byte (byte_of_Z z) = z.
Proof. intros. rewrite Z_of_byte_of_Z. apply Z.mod_small. done. Qed.

Lemma byte_of_Z_of_byte b : byte_of_Z (Z_of_byte b) = b.
Proof.
  unfold byte_of_Z. rewrite wrap_small by apply Z_of_byte_range.
  unfold Z_of_byte. rewrite N2Z.id, Byte.of_to_N. done.
Qed.

Lemma Z_of_byte_inj b c : Z_of_byte b = Z_of_byte c -> b = c.
Proof.
  intros E. rewrite <- (byte_of_Z_of_byte b), <- (byte_of_Z_of_byte c).
  congruence.
Qed.

Lemma byte_of_Z_mod z : byte_of_Z (z mod 256) = byte_of_Z z.
Proof.
  apply Z_of_byte_inj. rewrite !Z_of_byte_of_Z, Z.mod_mod by lia. done.
Qed.

Lemma byte_of_Z_inj a b :
  0 <= a < 256 -> 0 <= b < 256 -> byte_of_Z a = byte_of_Z b -> a = b.
Proof.
  intros Ha Hb E. apply (f_equal Z_of_byte) in E.
  rewrite !Z_of_byte_small in E by done. done.
Qed.

(** A statement about every byte, decided by evaluation. *)
Lemma byte_forall (P : Z -> bool) :
  forallb (fun n => P (Z.of_nat n)) (seq 0 256) = true ->
  forall b, P (Z_of_byte b) = true.
Proof.
  intros H b. rewrite forallb_forall in H.
  pose proof (Z_of_byte_range b).
  specialize (H (Z.to_nat (Z_of_byte b))). rewrite Z2Nat.id in H by lia.
  apply H. apply in_seq. lia.
Qed.

Definition all_bytes : list byte := map (fun n => byte_of_Z (Z.of_nat n)) (seq 0 256).

Lemma byte_all (P : byte -> bool) : forallb P all_bytes = true -> forall b, P b = true.
Proof.
  intros H b. rewrite forallb_forall in H. apply H. unfold all_bytes.
  apply in_map_iff. pose proof (Z_of_byte_range b). exists (Z.to_nat (Z_of_byte b)).
  rewrite Z2Nat.id by lia. split; [apply byte_of_Z_of_byte|apply in_seq; lia].
Qed.

Lemma forall_byte (p : Z -> bool) :
  forallb (fun b => p (Z_of_byte b)) all_bytes = true -> forall v, 0 <= v < 256 -> p v = true.
Proof. intros Hp v Hv. rewrite <- (Z_of_byte_small v Hv). exact (byte_all (fun b => p (Z_of_byte b)) Hp (byte_of_Z v)). Qed.

Lemma land_255 z : Z.land z 255 = z mod 256.
Proof. change 255 with (Z.ones 8). rewrite Z.land_ones by lia. done. Qed.

(** A disjoint [or] of a low part and a shifted high part is a sum. *)
Lemma lor_shiftl_add a b k :
  0 <= k -> 0 <= a < 2 ^ k -> Z.lor a (Z.shiftl b k) = a + b * 2 ^ k.
Proof.
  intros Hk Ha. rewrite Z.shiftl_mul_pow2 by lia. symmetry.
  apply Z.add_nocarry_lor. apply Z.bits_inj'. intros n Hn.
  rewrite Z.land_spec, Z.bits_0. destruct (Z_lt_le_dec n k).
  - rewrite Z.mul_pow2_bits_low by lia. apply andb_false_r.
  - replace a with (a mod 2 ^ k) by (apply Z.mod_small; lia).
    rewrite Z.mod_pow2_bits_high by lia. done.
Qed.

(** ** Little-endian images *)

Lemma length_le_bytes n v : length (le_bytes n v) = n.
Proof. revert v. induction n; intros; cbn; auto. Qed.

Lemma le_val_range bs : 0 <= le_val bs < 256 ^ zlen bs.
Proof.
  unfold zlen. induction bs as [|b bs IH]; cbn [le_val length]; [lia|].
  pose proof (Z_of_byte_range b).
  rewrite Nat2Z.inj_succ, Z.pow_succ_r by lia. nia.
Qed.

Lemma le_val_le_bytes n v : le_val (le_bytes n v) = v mod 256 ^ Z.of_nat n.
Proof.
  revert v. induction n as [|n IH]; intros v; cbn [le_val le_bytes].
  - rewrite Z.mod_1_r. done.
  - rewrite IH, Z_of_byte_of_Z, Nat2Z.inj_succ, Z.pow_succ_r by lia.
    rewrite Z.rem_mul_r by lia. done.
Qed.

Lemma le_val_le_bytes_small n v :
  0 <= v < 256 ^ Z.of_nat n -> le_val (le_bytes n v) = v.
Proof. intros. rewrite le_val_le_bytes. apply Z.mod_small. done. Qed.

Lemma le_bytes_le_val bs : le_bytes (length bs) (le_val bs) = bs.
Proof.
  induction bs as [|b bs IH]; cbn [le_bytes le_val length]; [done|].
  pose proof (Z_of_byte_range b). f_equal.
  - rewrite <- byte_of_Z_mod, Z.mul_comm, Z.mod_add by lia.
    rewrite byte_of_Z_mod. apply byte_of_Z_of_byte.
  - rewrite Z.mul_comm, Z.div_add, Z.div_small by lia. done.
Qed.

Lemma le_val_app a b : le_val (a ++ b) = le_val a + 256 ^ zlen a * le_val b.
Proof.
  unfold zlen. induction a as [|x a IH]; cbn [app le_val length].
  - rewrite Z.pow_0_r. lia.
  - rewrite IH, Nat2Z.inj_succ, Z.pow_succ_r by lia. lia.
Qed.

(** The byte [(uint8_t)((value >> 8k) & 0xFF)] the code stores. *)
Lemma byte_shift v k :
  0 <= k ->
  byte_of_Z (Z.land (Z.shiftr v (8 * k)) 255) = byte_of_Z (v / 256 ^ k).
Proof.
  intros. rewrite land_255, byte_of_Z_mod, Z.shiftr_div_pow2 by lia.
  rewrite Z.pow_mul_r by lia. done.
Qed.

Lemma le_bytes_mod n v : le_bytes n (v mod 256 ^ Z.of_nat n) = le_bytes n v.
Proof.
  rewrite <- (le_bytes_le_val (le_bytes n v)), length_le_bytes.
  rewrite le_val_le_bytes. done.
Qed.

(** ** Buffers *)

Lemma zlen_nonneg {A} (l : list A) : 0 <= zlen l.
Proof. unfold zlen. lia. Qed.

Lemma zlen_app {A} (l k : list A) : zlen (l ++ k) = zlen l + zlen k.
Proof. unfold zlen. rewrite length_app. lia. Qed.

Lemma zlen_cons {A} (x : A) l : zlen (x :: l) = 1 + zlen l.
Proof. unfold zlen. cbn [length]. lia. Qed.

Lemma zlen_nil {A} : zlen ([] : list A) = 0.
Proof. done. Qed.

Lemma zlen_zero {A} (l : list A) : zlen l = 0 -> l = [].
Proof. destruct l; [done|]. rewrite zlen_cons. pose proof (zlen_nonneg l). lia. Qed.

Lemma zlen_pos {A} (l : list A) : l <> [] -> 0 < zlen l.
Proof. destruct l; [done|]. intros _. rewrite zlen_cons. pose proof (zlen_nonneg l). lia. Qed.

Lemma zlen_reverse {A} (l : list A) : zlen (reverse l) = zlen l.
Proof. unfold zlen. rewrite length_reverse. done. Qed.
Lemma zlen_map {A B} (f : A -> B) l : zlen (map f l) = zlen l.
Proof. unfold zlen. rewrite length_map. done. Qed.
Lemma zlen_replicate {A} n (x : A) : zlen (replicate n x) = Z.of_nat n.
Proof. unfold zlen. rewrite length_replicate. done. Qed.
Lemma zlen_drop {A} n (l : list A) : (n <= length l)%nat -> zlen (drop n l) = zlen l - Z.of_nat n.
Proof. intros. unfold zlen. rewrite length_drop. lia. Qed.

(** Linear arithmetic over buffer lengths. *)
Ltac note_zlen :=
  repeat match goal with
  | |- context [zlen ?l] =>
      lazymatch goal with
      | _ : 0 <= zlen l |- _ => fail
      | _ => pose proof (zlen_nonneg l)
      end
  | _ : context [zlen ?l] |- _ =>
      lazymatch goal with
      | _ : 0 <= zlen l |- _ => fail
      | _ => pose proof (zlen_nonneg l)
      end
  end.

Ltac zlen_nils :=
  repeat match goal with
  | |- context [@zlen ?A (@nil ?B)] => change (@zlen A (@nil B)) with 0
  | H : context [@zlen ?A (@nil ?B)] |- _ => change (@zlen A (@nil B)) with 0 in H
  end.

Ltac zlia :=
  rewrite ?zlen_app, ?zlen_cons in *; zlen_nils; note_zlen; lia.

Lemma buf_copy_spec {A} (buf : list A) i bs :
  0 <= i -> i + zlen bs <= zlen buf ->
  exists buf', buf_copy buf i bs = Some buf' /\
    zlen buf' = zlen buf /\
    take (Z.to_nat (i + zlen bs)) buf' = take (Z.to_nat i) buf ++ bs.
Proof.
  intros Hi Hl. unfold buf_copy. cmps. eexists; split; [done|].
  unfold zlen in *. split.
  - rewrite !length_app, length_take, length_drop. lia.
  - rewrite app_assoc, take_app_le.
    + apply take_ge. rewrite length_app, length_take. lia.
    + rewrite length_app, length_take. lia.
Qed.

Lemma buf_slice_app {A} (a b c : list A) :
  buf_slice (a ++ b ++ c) (zlen a) (zlen b) = Some b.
Proof.
  unfold buf_slice. rewrite !zlen_app.
  pose proof (zlen_nonneg a); pose proof (zlen_nonneg b); pose proof (zlen_nonneg c).
  cmps. unfold zlen. rewrite !Nat2Z.id, drop_app_length, take_app_length. done.
Qed.

Lemma buf_slice_all {A} (l : list A) : buf_slice l 0 (zlen l) = Some l.
Proof.
  pose proof (buf_slice_app [] l []) as Hb. rewrite app_nil_r in Hb. exact Hb.
Qed.

Lemma memcpy_from_all d n : zlen d = n -> memcpy_from d n = Ok d.
Proof. intros <-. unfold memcpy_from. rewrite buf_slice_all. done. Qed.

(** Reads inside a buffer succeed. *)
Lemma buf_get_some {A} (buf : list A) i : 0 <= i < zlen buf -> exists x, buf_get buf i = Some x.
Proof.
  unfold buf_get, zlen. intros Hi. cmps. destruct (lookup_lt_is_Some_2 buf (Z.to_nat i)) as [x E]; [lia|by exists x].
Qed.

Lemma buf_slice_length {A} (buf : list A) i n bs :
  buf_slice buf i n = Some bs -> zlen bs = n.
Proof.
  unfold buf_slice, zlen. destruct (_ && _) eqn:E; [|done].
  intros [= <-]. bdestruct. rewrite length_take, length_drop. lia.
Qed.

Lemma buf_slice_some {A} (buf : list A) i n :
  0 <= i -> 0 <= n -> i + n <= zlen buf -> exists bs, buf_slice buf i n = Some bs /\ zlen bs = n.
Proof.
  intros Hi Hn Hin. assert (exists bs, buf_slice buf i n = Some bs) as [bs E] by (unfold buf_slice; cmps; eauto).
  exists bs. split; [done|by eapply buf_slice_length].
Qed.

Lemma swap_loop_lookup {A} n i (buf : list A) :
  (2 * (i + n) <= length buf)%nat ->
  length (swap_loop n i buf) = length buf /\
  forall j, (j < length buf)%nat ->
  swap_loop n i buf !! j =
  if decide (i <= j < i + n \/ length buf - i - n <= j < length buf - i)%nat
  then buf !! (length buf - 1 - j)%nat else buf !! j.
Proof.
  revert i buf. induction n as [|n IH]; intros i buf Hl; cbn [swap_loop].
  { split; [done|]. intros j Hj. rewrite decide_False by lia. done. }
  destruct (lookup_lt_is_Some_2 buf i ltac:(lia)) as [x Hx].
  destruct (lookup_lt_is_Some_2 buf (length buf - 1 - i) ltac:(lia)) as [y Hy].
  rewrite Hx, Hy.
  set (buf' := <[(length buf - 1 - i)%nat := x]> (<[i := y]> buf)).
  assert (length buf' = length buf) as Hb by (unfold buf'; rewrite !length_insert; done).
  destruct (IH (S i) buf') as [H1 H2]; [lia|]. rewrite Hb in H1, H2.
  split; [done|]. intros j Hj. rewrite H2 by done. clear IH H1 H2.
  assert (forall k, k <> i -> k <> (length buf - 1 - i)%nat -> buf' !! k = buf !! k) as Hk.
  { intros k ? ?. unfold buf'. rewrite !list_lookup_insert_ne by lia. done. }
  destruct (decide (j = i)) as [->|Hi].
  { rewrite (decide_False (P := (S i <= i < _ \/ _)%nat)) by lia.
    rewrite decide_True by lia. rewrite Hy. unfold buf'.
    rewrite list_lookup_insert_ne by lia. apply list_lookup_insert_eq. lia. }
  destruct (decide (j = length buf - 1 - i)%nat) as [->|Hi'].
  { rewrite (decide_False (P := (S i <= _ < _ \/ _)%nat)) by lia.
    rewrite decide_True by lia.
    replace (length buf - 1 - (length buf - 1 - i))%nat with i by lia. rewrite Hx.
    apply list_lookup_insert_eq. rewrite length_insert. lia. }
  repeat case_decide; try lia; apply Hk; lia.
Qed.

Lemma reverse_in_place_eq {A} (buf : list A) : reverse_in_place buf = reverse buf.
Proof.
  unfold reverse_in_place. pose proof (Nat.div_mod_eq (length buf) 2).
  pose proof (Nat.mod_upper_bound (length buf) 2 ltac:(lia)).
  destruct (swap_loop_lookup (length buf / 2) 0 buf) as [Hl Hj]; [lia|].
  apply list_eq. intros j.
  destruct (decide (j < length buf)%nat).
  - rewrite Hj by done. rewrite reverse_lookup by done. case_decide; f_equal; lia.
  - rewrite !lookup_ge_None_2; [done| |]; rewrite ?length_reverse; lia.
Qed.

(** A store right behind what is already filled in. *)
Lemma store_next {A} (done_ bs rest : list A) :
  zlen bs <= zlen rest ->
  store (zlen done_) bs (done_ ++ rest) =
  (Ok tt, (done_ ++ bs) ++ drop (length bs) rest).
Proof.
  intros Hl. unfold store, buf_copy. rewrite zlen_app.
  pose proof (zlen_nonneg done_); pose proof (zlen_nonneg rest). cmps.
  unfold zlen. rewrite Nat2Z.id, take_app_length, <- app_assoc.
  rewrite <- drop_drop, drop_app_length. done.
Qed.

Lemma store_first {A} (bs buf : list A) :
  zlen bs <= zlen buf -> store 0 bs buf = (Ok tt, bs ++ drop (length bs) buf).
Proof. intros. apply (store_next [] bs buf). done. Qed.

Lemma local_buffer_store n bs :
  zlen bs = Z.of_nat n -> local_buffer n (store 0 bs) = Ok bs.
Proof.
  intros Hl. unfold local_buffer. rewrite store_first by (rewrite zlen_replicate; lia).
  rewrite drop_ge; [by rewrite app_nil_r|].
  rewrite length_replicate. unfold zlen in Hl. lia.
Qed.

Lemma cstring_app s rest :
  Forall (fun b => b <> Byte.x00) s -> cstring (s ++ Byte.x00 :: rest) = s.
Proof.
  induction 1 as [|b s Hb _ IH]; [done|]. cbn [app cstring].
  destruct (Z_of_byte b =? 0) eqn:E; bdestruct; [|by rewrite IH].
  destruct Hb. apply Z_of_byte_inj. done.
Qed.

Lemma array_strlen_app s rest :
  Forall (fun b => b <> Byte.x00) s -> array_strlen (s ++ Byte.x00 :: rest) = Ok (zlen s).
Proof.
  intros Hs. unfold array_strlen. rewrite cstring_app by done. rewrite existsb_app. cbn [existsb].
  change (Z_of_byte Byte.x00 =? 0) with true. by rewrite orb_true_r.
Qed.

Lemma strcat_app s t rest :
  Forall (fun b => b <> Byte.x00) s -> zlen t <= zlen rest ->
  strcat t (s ++ Byte.x00 :: rest) = (Ok tt, s ++ t ++ Byte.x00 :: drop (length t) rest).
Proof.
  intros Hs Hl. unfold strcat. rewrite array_strlen_app by done. rewrite store_next.
  2: { unfold zlen in *. rewrite length_app. cbn [length]. lia. }
  rewrite length_app, Nat.add_comm, <- !app_assoc. done.
Qed.

Lemma decimal_digits_length fuel v : (length (decimal_digits fuel v) <= fuel)%nat.
Proof.
  revert v. induction fuel as [|fuel IH]; intros v; [done|]. cbn [decimal_digits].
  rewrite length_app. cbn [length]. destruct (v <? 10); cbn [length]; [lia|]. specialize (IH (v / 10)). lia.
Qed.

Lemma decimal_digits_chars fuel v : Forall (fun b => 48 <= Z_of_byte b < 58) (decimal_digits fuel v).
Proof.
  revert v. induction fuel as [|fuel IH]; intros v; [done|]. cbn [decimal_digits].
  apply Forall_app. split; [by destruct (v <? 10)|]. constructor; [|done].
  pose proof (Z.mod_pos_bound v 10 ltac:(lia)). rewrite Z_of_byte_small; lia.
Qed.

Lemma digits_value_snoc ds c : digits_value (ds ++ [c]) = 10 * digits_value ds + (Z_of_byte c - 48).
Proof. unfold digits_value. by rewrite fold_left_app. Qed.

Lemma decimal_digits_S fuel v : decimal_digits (S fuel) v =
  (if v <? 10 then [] else decimal_digits fuel (v / 10)) ++ [byte_of_Z (48 + v mod 10)].
Proof. done. Qed.

Lemma decimal_digits_value fuel v :
  0 <= v < 10 ^ Z.of_nat (S fuel) -> digits_value (decimal_digits (S fuel) v) = v.
Proof.
  revert v. induction fuel as [|fuel IH]; intros v Hv; rewrite decimal_digits_S, digits_value_snoc;
    pose proof (Z.mod_pos_bound v 10 ltac:(lia)); rewrite Z_of_byte_small by lia.
  - cbn in Hv. destruct (Z.ltb_spec v 10); [|lia]. rewrite Z.mod_small by lia. unfold digits_value. cbn. lia.
  - destruct (Z.ltb_spec v 10).
    + rewrite Z.mod_small by lia. unfold digits_value. cbn. lia.
    + rewrite IH; [pose proof (Z.div_mod v 10); lia|].
      split; [apply Z.div_pos; lia|]. apply Z.div_lt_upper_bound; [lia|].
      rewrite <- Z.pow_succ_r by lia. rewrite <- Nat2Z.inj_succ. lia.
Qed.

Lemma digits_of_all ds : Forall (fun b => 48 <= Z_of_byte b < 58) ds -> digits_of ds = (ds, []).
Proof.
  induction 1 as [|c ds Hc _ IH]; [done|]. cbn [digits_of]. unfold is_digit. cmps. by rewrite IH.
Qed.

Lemma print_decimal_nonempty v : print_decimal v <> [].
Proof. unfold print_decimal. cbn [decimal_digits]. by destruct (if v <? 10 then _ else _). Qed.

(** A printed number is read back. *)
Lemma strtoul_decimal v : 0 <= v < 2 ^ 64 -> strtoul (print_decimal v) = (v, []).
Proof.
  intros Hv. pose proof (decimal_digits_chars 20 v) as Hc. fold (print_decimal v) in Hc.
  assert (digits_value (print_decimal v) = v) as Hd by (apply (decimal_digits_value 19); eval_pows; lia).
  pose proof (digits_of_all _ Hc) as Hds. pose proof (print_decimal_nonempty v) as Hne.
  destruct (print_decimal v) as [|c ds]; [done|]. inversion_clear Hc as [|? ? Hc1 _].
  unfold strtoul. cbn [skip_spaces]. unfold is_space. cmps. cmps. rewrite Hds, Hd. cmps. done.
Qed.

(** ** The monad *)

Lemma bind_ok {S A B} (m : M S A) (k : A -> M S B) s a s' :
  m s = (Ok a, s') -> bind m k s = k a s'.
Proof. unfold bind. intros ->. done. Qed.

Lemma bind_err {S A B} (m : M S A) (k : A -> M S B) s e s' :
  m s = (Err e, s') -> bind m k s = (Err e, s').
Proof. unfold bind. intros ->. done. Qed.

Lemma bind_lift {S A B} (a : A) (k : A -> M S B) s : bind (lift (Ok a)) k s = k a s.
Proof. done. Qed.

Lemma bind_lift_err {S A B} e (k : A -> M S B) s : bind (lift (Err e)) k s = (Err e, s).
Proof. done. Qed.

Lemma bind_assoc {S A B C} (m : M S A) (k : A -> M S B) (h : B -> M S C) s :
  bind (bind m k) h s = bind m (fun a => bind (k a) h) s.
Proof. unfold bind. destruct (m s) as [[a|e|] s']; done. Qed.

Lemma for_each_map {S A B} (f : B -> M S unit) (g : A -> B) l s :
  for_each (fun x => f (g x)) l s = for_each f (map g l) s.
Proof.
  revert s. induction l as [|x l IH]; intros s; [done|].
  cbn [for_each map]. unfold bind. destruct (f (g x) s) as [[[]|e|] s']; auto.
Qed.

(** A loop invariant of [for_each]: kept by every step, whatever its outcome. *)
Lemma for_each_inv {S A} (P : S -> Prop) (f : A -> M S unit) l s :
  P s -> (forall x s, In x l -> P s -> P (f x s).2) -> P (for_each f l s).2.
Proof.
  revert s. induction l as [|x l IH]; intros s Hs Hf; [done|].
  cbn [for_each]. unfold bind. pose proof (Hf x s ltac:(left; done) Hs) as H1.
  destruct (f x s) as [[a|e|] s']; try done.
  apply IH; [done|]. intros. apply Hf; [right|]; done.
Qed.

(** ** Heaps *)

Lemma heap_serves_mono `{Allocator} a b : heap_serves a -> b <= a -> heap_serves b.
Proof. intros Ha Hb m Hm. apply Ha. lia. Qed.

(** A heap that serves every request of up to 2^20 bytes, for the witnesses. *)
Definition mib_heap : Allocator := fun n => n <=? 2 ^ 20.

Lemma mib_heap_serves n : n <= 2 ^ 20 -> @heap_serves mib_heap n.
Proof. intros Hn m Hm. unfold malloc_ok, mib_heap. lia. Qed.
