(* ===== verification/Memory.v ===== *)
(** * Memory accounting (src/neoc_memory.c)

    The allocation functions of the library with their statistics and their list of tracked
    blocks, for one thread.  The system's heap is a map from the addresses of live blocks
    to their sizes; what the system or an installed allocator answers to a request, and
    whether there is memory for a list entry, are arguments.  Releasing or resizing a
    block that is not live is a [Fault].  The other files use only whether a request is
    served ([malloc_ok]). *)

From S2P Require Import Prelude.
From stdpp Require Import gmap.
#[local] Open Scope Z_scope.

Abbreviation address := positive.

(** The counters are [size_t]. *)
Record memory_stats_t := mk_stats {
  total_allocated : Z;
  total_freed : Z;
  current_usage : Z;
  peak_usage : Z;
  allocation_count : Z;
  free_count : Z
}.

(** Which functions of a custom allocator are installed. *)
Record neoc_allocator_t := mk_allocator {
  has_malloc_func : bool;
  has_realloc_func : bool;
  has_free_func : bool
}.

(** An entry of the list is a block and its size. *)
Record memory := mk_memory {
  m_stats : memory_stats_t;
  m_custom : neoc_allocator_t;
  m_entries : list (address * Z);
  m_blocks : gmap address Z
}.

Abbreviation Mem := (M memory).

Definition using_custom_allocator (m : memory) : bool :=
  has_malloc_func (m_custom m) || has_realloc_func (m_custom m) || has_free_func (m_custom m).

Definition set_stats (st : memory_stats_t) (m : memory) : memory :=
  mk_memory st (m_custom m) (m_entries m) (m_blocks m).
Definition set_entries (entries : list (address * Z)) (m : memory) : memory :=
  mk_memory (m_stats m) (m_custom m) entries (m_blocks m).
Definition set_blocks (blocks : gmap address Z) (m : memory) : memory :=
  mk_memory (m_stats m) (m_custom m) (m_entries m) blocks.

(** A new entry at the head of the list, if there is memory for it. *)
Definition track_allocation (entry_ok : bool) (ptr : address) (size : Z) (m : memory) : memory :=
  if entry_ok then set_entries ((ptr, size) :: m_entries m) m else m.

(** The first entry of a block is unlinked and its size returned. *)
Fixpoint unlink (ptr : address) (entries : list (address * Z)) : option (Z * list (address * Z)) :=
  match entries with
  | [] => None
  | (p, size) :: entries =>
      if bool_decide (p = ptr) then Some (size, entries)
      else match unlink ptr entries with
           | Some (s, rest) => Some (s, (p, size) :: rest)
           | None => None
           end
  end.

Definition untrack_allocation (ptr : address) (m : memory) : option Z * memory :=
  match unlink ptr (m_entries m) with
  | Some (size, entries) => (Some size, set_entries entries m)
  | None => (None, m)
  end.

(** The counters after an allocation of [size] bytes; the peak is updated by the callers. *)
Definition count_allocation (size : Z) (st : memory_stats_t) : memory_stats_t :=
  mk_stats (wrap 64 (total_allocated st + size)) (total_freed st)
    (wrap 64 (current_usage st + size)) (peak_usage st)
    (wrap 64 (allocation_count st + 1)) (free_count st).

Definition raise_peak (st : memory_stats_t) : memory_stats_t :=
  mk_stats (total_allocated st) (total_freed st) (current_usage st)
    (if peak_usage st <? current_usage st then current_usage st else peak_usage st)
    (allocation_count st) (free_count st).

Definition count_free (size : option Z) (st : memory_stats_t) : memory_stats_t :=
  match size with
  | Some size =>
      mk_stats (total_allocated st) (wrap 64 (total_freed st + size))
        (wrap 64 (current_usage st - size)) (peak_usage st) (allocation_count st)
        (wrap 64 (free_count st + 1))
  | None =>
      mk_stats (total_allocated st) (total_freed st) (current_usage st) (peak_usage st)
        (allocation_count st) (wrap 64 (free_count st + 1))
  end.

(** A new block of the heap. *)
Definition give_block (answer : option address) (size : Z) : Mem (option address) := fun m =>
  match answer with
  | None => (Ok None, m)
  | Some p => (Ok (Some p), set_blocks (<[p := size]> (m_blocks m)) m)
  end.

Definition neoc_malloc (answer : option address) (entry_ok : bool) (size : Z)
  : Mem (option address) :=
  if size =? 0 then ret None
  else
    let! ptr := give_block answer size in fun m =>
    match ptr with
    | None => (Ok None, m)
    | Some p =>
        if using_custom_allocator m then (Ok (Some p), m)
        else
          let m := track_allocation entry_ok p size m in
          (Ok (Some p), set_stats (raise_peak (count_allocation size (m_stats m))) m)
    end.

(** The product wraps; the system's [calloc] sees the two factors and fails then, an
    installed [malloc] is asked for the wrapped size. *)
Definition neoc_calloc (answer : option address) (entry_ok : bool) (count size : Z)
  : Mem (option address) :=
  if (count =? 0) || (size =? 0) then ret None
  else
    let total := wrap 64 (count * size) in fun m =>
    (let! ptr :=
       (if has_malloc_func (m_custom m) then give_block answer total
        else if 2 ^ 64 <=? count * size then ret None
        else give_block answer total) in fun m =>
     match ptr with
     | None => (Ok None, m)
     | Some p =>
         if using_custom_allocator m then (Ok (Some p), m)
         else
           let m := track_allocation entry_ok p total m in
           (Ok (Some p), set_stats (raise_peak (count_allocation total (m_stats m))) m)
     end) m.

(** The block is gone from the heap. *)
Definition take_block (ptr : address) : Mem unit := fun m =>
  match m_blocks m !! ptr with
  | Some _ => (Ok tt, set_blocks (delete ptr (m_blocks m)) m)
  | None => (Fault, m)
  end.

Definition neoc_free (ptr : option address) : Mem unit :=
  match ptr with
  | None => ret tt
  | Some p => fun m =>
      let custom := using_custom_allocator m in
      if has_free_func (m_custom m) then
        (do! take_block p in fun m =>
         (Ok tt, if custom then m else set_stats (count_free None (m_stats m)) m)) m
      else
        let '(size, m) := untrack_allocation p m in
        (do! take_block p in fun m =>
         (Ok tt, if custom then m else set_stats (count_free size (m_stats m)) m)) m
  end.

(** A resized block may keep its place ([answer = ptr]) or move. *)
Definition resize_block (ptr : address) (answer : option address) (size : Z)
  : Mem (option address) := fun m =>
  match m_blocks m !! ptr with
  | None => (Fault, m)
  | Some _ =>
      match answer with
      | None => (Ok None, m)
      | Some p => (Ok (Some p), set_blocks (<[p := size]> (delete ptr (m_blocks m))) m)
      end
  end.

Definition neoc_realloc (answer : option address) (entry_ok : bool) (ptr : option address) (size : Z)
  : Mem (option address) :=
  match ptr with
  | None => neoc_malloc answer entry_ok size
  | Some p =>
      if size =? 0 then do! neoc_free (Some p) in ret None
      else fun m =>
        let custom := using_custom_allocator m in
        let '(old_size, m) := if custom then (None, m) else untrack_allocation p m in
        (let! new_ptr := resize_block p answer size in fun m =>
         match new_ptr with
         | None =>
             (Ok None, match old_size with
                       | Some old_size => track_allocation entry_ok p old_size m
                       | None => m
                       end)
         | Some q =>
             if custom then (Ok (Some q), m)
             else
               let m := track_allocation entry_ok q size m in
               let st := count_allocation size (m_stats m) in
               (Ok (Some q),
                set_stats (match old_size with
                           | Some old_size => if 0 <? old_size then count_free (Some old_size) st else st
                           | None => st
                           end) m)
         end) m
  end.

Definition neoc_set_allocator (allocator : option neoc_allocator_t) : Mem unit := fun m =>
  match allocator with
  | None => (Err NEOC_ERROR_INVALID_ARGUMENT, m)
  | Some a => (Ok tt, mk_memory (m_stats m) a (m_entries m) (m_blocks m))
  end.

Definition neoc_get_allocator : Mem neoc_allocator_t := fun m => (Ok (m_custom m), m).

Definition neoc_reset_allocator : Mem unit := fun m =>
  (Ok tt, mk_memory (m_stats m) (mk_allocator false false false) (m_entries m) (m_blocks m)).

(** The blocks that are reported as not released. *)
Definition neoc_get_allocation_count : Mem Z := fun m =>
  let allocs := allocation_count (m_stats m) in
  let frees := free_count (m_stats m) in
  (Ok (if frees <? allocs then allocs - frees else 0), m).

(** [total_allocated], [current_allocated], [allocation_count], [free_count] *)
Definition neoc_get_memory_stats : Mem (Z * Z * Z * Z) := fun m =>
  let st := m_stats m in
  (Ok (total_allocated st, current_usage st, allocation_count st, free_count st), m).

(** ** Byte helpers *)

Section Bytes.
Context `{Allocator}.

(** At most [n] characters of a string. *)
Definition neoc_strndup (str : option (list byte)) (n : Z) : option (list byte) :=
  match str with
  | None => None
  | Some str =>
      let len := if n <? zlen str then n else zlen str in
      if malloc_ok (len + 1) then Some (take (Z.to_nat len) str) else None
  end.

Definition neoc_memdup (data : option (list byte)) (size : Z) : res (option (list byte)) :=
  match data with
  | None => Ok None
  | Some data =>
      if size =? 0 then Ok None
      else if negb (malloc_ok size) then Ok None
      else match buf_slice data 0 size with Some d => Ok (Some d) | None => Fault end
  end.

End Bytes.

(** [while (size--) *p++ = 0] *)
Definition neoc_secure_memzero (size : Z) : M (list byte) unit :=
  if 0 <? size then store 0 (replicate (Z.to_nat size) Byte.x00) else ret tt.

(** [result |= pa[i] ^ pb[i]] over [size] bytes; the result of the comparison. *)
Fixpoint memcmp_bits (a b : list byte) (size : nat) (result : Z) {struct size} : res Z :=
  match size with
  | O => Ok result
  | S size =>
      match a, b with
      | x :: a, y :: b =>
          memcmp_bits a b size (Z.lor result (Z.lxor (Z_of_byte x) (Z_of_byte y)))
      | _, _ => Fault
      end
  end.

Definition neoc_secure_memcmp (a b : option (list byte)) (size : Z) : res Z :=
  match a, b with
  | Some a, Some b =>
      let? result := memcmp_bits a b (Z.to_nat size) 0 in
      Ok (if negb (result =? 0) then 1 else 0)
  | _, _ => Ok (-1)
  end.

(** ** Accounting *)

(** The calls of a session, with what the system answers and whether there is memory for the
    entry of the list: [track_allocation] drops the entry silently when there is none. *)
Inductive memory_op : Type :=
| OpMalloc (answer : option address) (entry_ok : bool) (size : Z)
| OpCalloc (answer : option address) (entry_ok : bool) (count size : Z)
| OpRealloc (answer : option address) (entry_ok : bool) (ptr : option address) (size : Z)
| OpFree (ptr : option address).

Definition exec_memory_op (op : memory_op) : Mem (option address) :=
  match op with
  | OpMalloc answer entry_ok size => neoc_malloc answer entry_ok size
  | OpCalloc answer entry_ok count size => neoc_calloc answer entry_ok count size
  | OpRealloc answer entry_ok ptr size => neoc_realloc answer entry_ok ptr size
  | OpFree ptr => do! neoc_free ptr in ret None
  end.

Definition entry_served (op : memory_op) : bool :=
  match op with
  | OpMalloc _ entry_ok _ | OpCalloc _ entry_ok _ _ | OpRealloc _ entry_ok _ _ => entry_ok
  | OpFree _ => true
  end.

Definition fresh_answer (answer : option address) (m : memory) : Prop :=
  forall p, answer = Some p -> m_blocks m !! p = None.

Definition live (ptr : option address) (m : memory) : Prop :=
  forall p, ptr = Some p -> is_Some (m_blocks m !! p).

(** The system gives out free places, and the client uses sizes of [size_t] and pointers
    to live blocks. *)
Definition memory_allowed (op : memory_op) (m : memory) : Prop :=
  match op with
  | OpMalloc answer _ size => fresh_answer answer m /\ 0 <= size < 2 ^ 64
  | OpCalloc answer _ count size => fresh_answer answer m /\ 0 <= count < 2 ^ 64 /\ 0 <= size < 2 ^ 64
  | OpRealloc answer _ ptr size =>
      (fresh_answer answer m \/ (answer = ptr /\ is_Some ptr)) /\ live ptr m /\ 0 <= size < 2 ^ 64
  | OpFree ptr => live ptr m
  end.

Definition sum_sizes (entries : list (address * Z)) : Z := foldr (fun e s => snd e + s) 0 entries.

Lemma sum_sizes_perm e1 e2 : e1 ≡ₚ e2 -> sum_sizes e1 = sum_sizes e2.
Proof. unfold sum_sizes. induction 1; cbn [foldr]; lia. Qed.

(** After at most [n] calls: the list is the heap, the usage is the size of the heap, and
    the counters differ by the number of blocks. *)
Record balanced (n : Z) (m : memory) : Prop := {
  bal_system : using_custom_allocator m = false;
  bal_entries : m_entries m ≡ₚ map_to_list (m_blocks m);
  bal_sizes p size : m_blocks m !! p = Some size -> 0 < size < 2 ^ 64;
  bal_usage : current_usage (m_stats m) = wrap 64 (sum_sizes (m_entries m));
  bal_total : wrap 64 (total_allocated (m_stats m) - total_freed (m_stats m))
              = wrap 64 (sum_sizes (m_entries m));
  bal_count : allocation_count (m_stats m) = free_count (m_stats m) + zlen (m_entries m);
  bal_frees : 0 <= free_count (m_stats m);
  bal_allocs : allocation_count (m_stats m) <= n
}.

Lemma wrap_idem k v : 0 <= k -> wrap k (wrap k v) = wrap k v.
Proof. intros Hk. unfold wrap. apply Z.mod_mod. pose proof (Z.pow_pos_nonneg 2 k). lia. Qed.

Lemma wrap_add_l k a b : 0 <= k -> wrap k (wrap k a + b) = wrap k (a + b).
Proof. intros Hk. unfold wrap. apply Zplus_mod_idemp_l. Qed.

Lemma wrap_sub_l k a b : 0 <= k -> wrap k (wrap k a - b) = wrap k (a - b).
Proof. intros Hk. unfold wrap. apply Zminus_mod_idemp_l. Qed.

Lemma wrap_sub_r k a b : 0 <= k -> wrap k (a - wrap k b) = wrap k (a - b).
Proof. intros Hk. unfold wrap. apply Zminus_mod_idemp_r. Qed.

(** The entry of a live block is found and unlinked. *)
Lemma unlink_ok p size entries :
  NoDup (map fst entries) -> (p, size) ∈ entries ->
  exists rest, unlink p entries = Some (size, rest) /\ entries ≡ₚ (p, size) :: rest.
Proof.
  induction entries as [|[q s] entries IH]; [intros _ Hi; by apply not_elem_of_nil in Hi|].
  cbn [map fst unlink]. intros [Hq Hn]%NoDup_cons [E|Hi]%elem_of_cons.
  - injection E as -> ->. rewrite bool_decide_eq_true_2 by done. by exists entries.
  - assert (q <> p) as Hne.
    { intros ->. apply Hq. by apply (list_elem_of_fmap_2 fst) in Hi. }
    rewrite bool_decide_eq_false_2 by done. destruct (IH Hn Hi) as (rest & -> & Hp).
    exists ((q, s) :: rest). split; [done|]. rewrite Hp. apply Permutation_swap.
Qed.

Lemma untrack_live n m p :
  balanced n m -> is_Some (m_blocks m !! p) ->
  exists size rest, untrack_allocation p m = (Some size, set_entries rest m) /\
    m_blocks m !! p = Some size /\ m_entries m ≡ₚ (p, size) :: rest /\
    rest ≡ₚ map_to_list (delete p (m_blocks m)).
Proof.
  intros B [size E]. unfold untrack_allocation.
  destruct (unlink_ok p size (m_entries m)) as (rest & Eu & Hp).
  - rewrite (bal_entries _ _ B). apply NoDup_fst_map_to_list.
  - rewrite (bal_entries _ _ B). by apply elem_of_map_to_list.
  - exists size, rest. rewrite Eu. split_and!; [done|done|done|].
    apply (Permutation_cons_inv (a := (p, size))). rewrite <- Hp, (bal_entries _ _ B).
    symmetry. by apply map_to_list_delete.
Qed.

Lemma bal_alloc n m p size st :
  balanced n m -> m_blocks m !! p = None -> 0 < size < 2 ^ 64 -> n + 1 < 2 ^ 64 ->
  st = count_allocation size (m_stats m) \/ st = raise_peak (count_allocation size (m_stats m)) ->
  balanced (n + 1)
    (mk_memory st (m_custom m) ((p, size) :: m_entries m) (<[p := size]> (m_blocks m))).
Proof.
  intros [Bs Be Bz Bu Bt Bc Bf Ba] Hp Hs Hn Hst.
  pose proof (zlen_nonneg (m_entries m)).
  assert (wrap 64 (allocation_count (m_stats m) + 1) = allocation_count (m_stats m) + 1) as Ew
    by (apply wrap_small; lia).
  assert (forall t, t = count_allocation size (m_stats m) ->
    current_usage t = wrap 64 (sum_sizes ((p, size) :: m_entries m)) /\
    wrap 64 (total_allocated t - total_freed t) = wrap 64 (sum_sizes ((p, size) :: m_entries m)) /\
    allocation_count t = free_count t + zlen ((p, size) :: m_entries m) /\ 0 <= free_count t /\
    allocation_count t <= n + 1) as Hall.
  { intros t ->. cbn [count_allocation current_usage total_allocated total_freed allocation_count free_count].
    rewrite Ew, zlen_cons. cbn [sum_sizes foldr snd]. fold (sum_sizes (m_entries m)).
    split_and!; [| |lia|lia|lia].
    - rewrite Bu, wrap_add_l by lia. f_equal. lia.
    - rewrite wrap_sub_l by lia.
      replace (total_allocated (m_stats m) + size - total_freed (m_stats m))
        with (total_allocated (m_stats m) - total_freed (m_stats m) + size) by lia.
      rewrite <- wrap_add_l, Bt, wrap_add_l by lia. f_equal. lia. }
  destruct (Hall _ eq_refl) as (A1 & A2 & A3 & A4 & A5).
  destruct Hst as [-> | ->]; constructor; try done.
  all: cbn [m_entries m_blocks]; try (rewrite map_to_list_insert by done; by rewrite Be).
  all: intros q sz [[<- <-]|[_ E]]%lookup_insert_Some; [done|by eapply Bz].
Qed.

Lemma bal_free n m p size rest :
  balanced n m -> m_blocks m !! p = Some size -> m_entries m ≡ₚ (p, size) :: rest ->
  rest ≡ₚ map_to_list (delete p (m_blocks m)) -> n < 2 ^ 64 ->
  balanced n
    (mk_memory (count_free (Some size) (m_stats m)) (m_custom m) rest (delete p (m_blocks m))).
Proof.
  intros [Bs Be Bz Bu Bt Bc Bf Ba] Hp Hperm Hrest Hn.
  rewrite (sum_sizes_perm _ _ Hperm) in Bu, Bt. cbn [sum_sizes foldr snd] in Bu, Bt.
  fold (sum_sizes rest) in Bu, Bt.
  assert (zlen (m_entries m) = 1 + zlen rest) as Hl by (unfold zlen; rewrite Hperm; cbn; lia).
  pose proof (zlen_nonneg rest).
  assert (wrap 64 (free_count (m_stats m) + 1) = free_count (m_stats m) + 1) as Ew
    by (apply wrap_small; lia).
  constructor; cbn [m_entries m_blocks m_stats count_free current_usage total_allocated total_freed
    allocation_count free_count]; try done.
  - intros q sz [_ E]%lookup_delete_Some. by eapply Bz.
  - rewrite Bu, wrap_sub_l by lia. f_equal. lia.
  - rewrite wrap_sub_r by lia.
    replace (total_allocated (m_stats m) - (total_freed (m_stats m) + size))
      with (total_allocated (m_stats m) - total_freed (m_stats m) - size) by lia.
    rewrite <- wrap_sub_l, Bt, wrap_sub_l by lia. f_equal. lia.
  - rewrite Ew. lia.
  - rewrite Ew. lia.
Qed.

Lemma bal_mono n k m : balanced n m -> n <= k -> balanced k m.
Proof. intros [] Hle. constructor; try done. lia. Qed.

(** In a reallocation the new block is counted before the old one is. *)
Lemma count_commutes old size st :
  count_free (Some old) (count_allocation size st) = count_allocation size (count_free (Some old) st).
Proof.
  unfold count_free, count_allocation.
  cbn [current_usage total_allocated total_freed peak_usage allocation_count free_count].
  f_equal. rewrite wrap_sub_l, wrap_add_l by lia. f_equal. lia.
Qed.

Lemma malloc_step n m answer size :
  balanced n m -> fresh_answer answer m -> 0 <= size < 2 ^ 64 -> n + 1 < 2 ^ 64 ->
  exists r m', neoc_malloc answer true size m = (Ok r, m') /\ balanced (n + 1) m'.
Proof.
  intros B Hf Hs Hn. unfold neoc_malloc. destruct (size =? 0) eqn:E0; bdestruct.
  { exists None, m. split; [done|]. eapply bal_mono; [done|lia]. }
  unfold bind, give_block. destruct answer as [p|]; [|exists None, m; split; [done|]; eapply bal_mono; [done|lia]].
  assert (using_custom_allocator (set_blocks (<[p := size]> (m_blocks m)) m) = false) as -> by apply B.
  eexists _, _. split; [done|]. apply (bal_alloc n m p size); [done|by apply Hf|lia|done|by right].
Qed.

Lemma calloc_step n m answer count size :
  balanced n m -> fresh_answer answer m -> 0 <= count < 2 ^ 64 -> 0 <= size < 2 ^ 64 -> n + 1 < 2 ^ 64 ->
  exists r m', neoc_calloc answer true count size m = (Ok r, m') /\ balanced (n + 1) m'.
Proof.
  intros B Hf Hc Hs Hn. assert (balanced (n + 1) m) as B1 by (eapply bal_mono; [done|lia]).
  unfold neoc_calloc. destruct ((count =? 0) || (size =? 0)) eqn:E0; [by exists None, m|]. bdestruct.
  pose proof (bal_system _ _ B) as Bs. unfold using_custom_allocator in Bs.
  apply orb_false_iff in Bs as [Bs Bs3]. apply orb_false_iff in Bs as [Bs1 Bs2]. rewrite Bs1.
  destruct (2 ^ 64 <=? count * size) eqn:E; bdestruct; [by exists None, m|].
  rewrite (wrap_small 64 (count * size)) by nia.
  unfold bind, give_block. destruct answer as [p|]; [|by exists None, m].
  assert (using_custom_allocator (set_blocks (<[p := count * size]> (m_blocks m)) m) = false) as -> by apply B.
  eexists _, _. split; [done|]. apply (bal_alloc n m p (count * size)); [done|by apply Hf|nia|done|by right].
Qed.

Lemma free_step n m ptr :
  balanced n m -> live ptr m -> n < 2 ^ 64 ->
  exists m', neoc_free ptr m = (Ok tt, m') /\ balanced n m'.
Proof.
  intros B Hl Hn. destruct ptr as [p|]; [|by exists m]. cbn [neoc_free].
  pose proof (bal_system _ _ B) as Bs. rewrite Bs. unfold using_custom_allocator in Bs.
  apply orb_false_iff in Bs as [_ Bs3]. rewrite Bs3.
  destruct (untrack_live n m p B (Hl p eq_refl)) as (size & rest & -> & E & Hp & Hr).
  unfold bind, take_block. cbn [set_entries m_blocks]. rewrite E. eexists. split; [done|].
  by apply (bal_free n m p size rest).
Qed.

Lemma realloc_step n m answer ptr size :
  balanced n m -> (fresh_answer answer m \/ (answer = ptr /\ is_Some ptr)) -> live ptr m ->
  0 <= size < 2 ^ 64 -> n + 1 < 2 ^ 64 ->
  exists r m', neoc_realloc answer true ptr size m = (Ok r, m') /\ balanced (n + 1) m'.
Proof.
  intros B Hf Hl Hs Hn. destruct ptr as [p|]; cbn [neoc_realloc].
  2: { apply malloc_step; try done. destruct Hf as [Hf|[_ [? F]]]; done. }
  destruct (size =? 0) eqn:E0; bdestruct.
  { destruct (free_step n m (Some p) B Hl ltac:(lia)) as (m' & E & B'). exists None, m'.
    unfold bind. rewrite E. split; [done|]. eapply bal_mono; [done|lia]. }
  rewrite (bal_system _ _ B).
  destruct (untrack_live n m p B (Hl p eq_refl)) as (old & rest & -> & E & Hp & Hr).
  unfold bind, resize_block. cbn [set_entries m_blocks]. rewrite E. destruct answer as [q|].
  - pose proof (bal_free n m p old rest B E Hp Hr ltac:(lia)) as B1.
    pose proof (bal_sizes _ _ B p old E). cmps. eexists _, _. split; [reflexivity|].
    rewrite count_commutes.
    apply (bal_alloc n (mk_memory (count_free (Some old) (m_stats m)) (m_custom m) rest
             (delete p (m_blocks m))) q size _ B1); [|lia|done|by left].
    cbn [m_blocks]. destruct Hf as [Hf|[[= ->] _]]; [|by rewrite lookup_delete_eq].
    apply lookup_delete_None. right. by apply Hf.
  - eexists _, _. split; [reflexivity|]. apply (bal_mono n); [|lia]. destruct B as [Bs Be Bz Bu Bt Bc Bf Ba].
    constructor; cbn [set_entries track_allocation m_entries m_blocks m_stats]; try done.
    + by rewrite <- Hp.
    + by rewrite <- (sum_sizes_perm _ _ Hp).
    + by rewrite <- (sum_sizes_perm _ _ Hp).
    + rewrite Bc. unfold zlen. by rewrite Hp.
Qed.

Fixpoint exec_memory_ops (ops : list memory_op) (m : memory) : res unit * memory :=
  match ops with
  | [] => (Ok tt, m)
  | op :: ops => (do! exec_memory_op op in exec_memory_ops ops) m
  end.

Fixpoint memory_session (ops : list memory_op) (m : memory) : Prop :=
  match ops with
  | [] => True
  | op :: ops => memory_allowed op m /\ memory_session ops (snd (exec_memory_op op m))
  end.

(** No allocator installed, nothing allocated, all counters zero. *)
Definition initial_memory : memory :=
  mk_memory (mk_stats 0 0 0 0 0 0) (mk_allocator false false false) [] ∅.

(** *** Any session *)

(** The list has live blocks only, with their sizes and each once. *)
Definition entries_live (entries : list (address * Z)) (blocks : gmap address Z) : Prop :=
  NoDup (map fst entries) /\ Forall (fun e => blocks !! fst e = Some (snd e)) entries.

(** After at most [n] calls, whether entries were dropped or not. *)
Record sound (n : Z) (m : memory) : Prop := {
  snd_system : using_custom_allocator m = false;
  snd_entries : entries_live (m_entries m) (m_blocks m);
  snd_frees : 0 <= free_count (m_stats m);
  snd_count : free_count (m_stats m) + Z.of_nat (size (m_blocks m)) <= allocation_count (m_stats m) <= n
}.

Lemma sound_mono n k m : sound n m -> n <= k -> sound k m.
Proof. intros [] Hle. constructor; try done. lia. Qed.

Lemma unlink_spec p entries : NoDup (map fst entries) ->
  match unlink p entries with
  | Some (old, rest) => entries ≡ₚ (p, old) :: rest
  | None => p ∉ map fst entries
  end.
Proof.
  induction entries as [|[q sz] entries IH]; [intros _; apply not_elem_of_nil|]. cbn [map fst unlink].
  intros [Hq Hn]%NoDup_cons. case_bool_decide as E; [by rewrite E|]. specialize (IH Hn).
  destruct (unlink p entries) as [[old rest]|].
  - rewrite IH. apply Permutation_swap.
  - rewrite not_elem_of_cons. by split; [apply not_eq_sym|].
Qed.

(** Without its entry, if it had one, a block does not occur in the list. *)
Lemma untrack_sound p m : entries_live (m_entries m) (m_blocks m) ->
  exists old rest, untrack_allocation p m = (old, set_entries rest m) /\ NoDup (map fst rest) /\
    (p ∉ map fst rest) /\ Forall (fun e => m_blocks m !! fst e = Some (snd e)) rest /\
    (forall size, old = Some size -> m_blocks m !! p = Some size).
Proof.
  intros [Hn Hl]. unfold untrack_allocation. pose proof (unlink_spec p _ Hn) as Hu.
  destruct (unlink p (m_entries m)) as [[old rest]|].
  - exists (Some old), rest. rewrite Hu in Hn, Hl. cbn in Hn. apply NoDup_cons in Hn as [Hp Hn].
    inversion_clear Hl. split_and!; [done|done|done|done|]. by intros ? [= <-].
  - exists None, (m_entries m). split_and!; [by destruct m|done|done|done|done].
Qed.

Lemma live_not_elem p entries blocks : Forall (fun e : address * Z => blocks !! fst e = Some (snd e)) entries ->
  (blocks : gmap address Z) !! p = None -> p ∉ map fst entries.
Proof.
  intros Hl Hp Hi. apply list_elem_of_fmap in Hi as ([q sz] & -> & Hi). rewrite Forall_forall in Hl.
  specialize (Hl _ Hi). cbn in *. congruence.
Qed.

(** The list after a block has been added to the heap. *)
Lemma track_sound entry_ok p size rest m blocks : NoDup (map fst rest) -> p ∉ map fst rest ->
  Forall (fun e => blocks !! fst e = Some (snd e)) rest ->
  m_entries m = rest -> entries_live (m_entries (track_allocation entry_ok p size m)) (<[p := size]> blocks).
Proof.
  intros Hn Hp Hl E. assert (Forall (fun e => <[p := size]> blocks !! fst e = Some (snd e)) rest) as Hl'.
  { rewrite Forall_forall in Hl |- *. intros [q sz] Hi. cbn. rewrite lookup_insert_ne; [by apply Hl in Hi|].
    intros ->. apply Hp. by apply (list_elem_of_fmap_2 fst) in Hi. }
  unfold track_allocation, entries_live. destruct entry_ok; cbn; rewrite E; [|done]. cbn. split.
  - by apply NoDup_cons.
  - constructor; [by rewrite lookup_insert_eq|done].
Qed.

(** A new block that is counted. *)
Lemma sound_alloc n m p sz entry_ok st :
  sound n m -> m_blocks m !! p = None -> n + 1 < 2 ^ 64 ->
  st = raise_peak (count_allocation sz (m_stats m)) ->
  sound (n + 1) (set_stats st (track_allocation entry_ok p sz (set_blocks (<[p := sz]> (m_blocks m)) m))).
Proof.
  intros [Ss [Hn Hl] Sf Sc] Hp Hb ->.
  assert (m_blocks (track_allocation entry_ok p sz (set_blocks (<[p := sz]> (m_blocks m)) m)) = <[p := sz]> (m_blocks m))
    as Eb by (by destruct entry_ok).
  assert (m_custom (track_allocation entry_ok p sz (set_blocks (<[p := sz]> (m_blocks m)) m)) = m_custom m)
    as Ecu by (by destruct entry_ok).
  constructor; unfold set_stats; cbn [m_entries m_blocks m_stats raise_peak count_allocation free_count allocation_count].
  - unfold using_custom_allocator in *. cbn [m_custom]. by rewrite Ecu.
  - rewrite Eb. apply (track_sound _ _ _ (m_entries m)); [done| |done|done]. by eapply live_not_elem.
  - done.
  - rewrite Eb, map_size_insert_None, wrap_small by (done || lia). lia.
Qed.

Lemma sound_free n m p : sound n m -> n < 2 ^ 64 -> is_Some (m_blocks m !! p) ->
  exists m', neoc_free (Some p) m = (Ok tt, m') /\ sound n m'.
Proof.
  intros S Hn [sz Ep]. destruct S as [Ss Se Sf Sc]. cbn [neoc_free]. rewrite Ss.
  assert (has_free_func (m_custom m) = false) as -> by (by apply orb_false_iff in Ss as [_ ?]).
  destruct (untrack_sound p m Se) as (old & rest & -> & Hnd & Hp & Hl & _).
  unfold bind, take_block. cbn [set_entries m_blocks]. rewrite Ep. eexists. split; [done|].
  assert (Z.of_nat (size (m_blocks m)) = Z.of_nat (size (delete p (m_blocks m))) + 1) as Esz.
  { rewrite map_size_delete_Some by (by eexists). enough (size (m_blocks m) <> 0%nat) by lia.
    intros E0. apply map_size_empty_inv in E0. rewrite E0 in Ep. by rewrite lookup_empty in Ep. }
  assert (forall st, free_count st = wrap 64 (free_count (m_stats m) + 1) -> allocation_count st = allocation_count (m_stats m) ->
    sound n (mk_memory st (m_custom m) rest (delete p (m_blocks m)))) as Hs.
  { intros st E1 E2. rewrite wrap_small in E1 by lia. constructor; [done| |cbn; lia|cbn [m_stats m_blocks]; lia].
    split; [done|]. rewrite Forall_forall in Hl |- *. intros [q z] Hi. cbn. rewrite lookup_delete_ne; [by apply Hl in Hi|].
    intros ->. apply Hp. by apply (list_elem_of_fmap_2 fst) in Hi. }
  destruct old as [o|]; by apply Hs.
Qed.

Lemma sound_malloc n m answer entry_ok sz :
  sound n m -> fresh_answer answer m -> n + 1 < 2 ^ 64 ->
  exists r m', neoc_malloc answer entry_ok sz m = (Ok r, m') /\ sound (n + 1) m'.
Proof.
  intros S Hf Hn. assert (sound (n + 1) m) as S1 by (eapply sound_mono; [done|lia]).
  unfold neoc_malloc. destruct (sz =? 0); [by exists None, m|]. unfold bind, give_block.
  destruct answer as [p|]; [|by exists None, m].
  assert (using_custom_allocator (set_blocks (<[p := sz]> (m_blocks m)) m) = false) as -> by apply S.
  eexists _, _. split; [done|]. apply sound_alloc; [done|by apply Hf|done|by destruct entry_ok].
Qed.

Lemma sound_calloc n m answer entry_ok count sz :
  sound n m -> fresh_answer answer m -> n + 1 < 2 ^ 64 ->
  exists r m', neoc_calloc answer entry_ok count sz m = (Ok r, m') /\ sound (n + 1) m'.
Proof.
  intros S Hf Hn. assert (sound (n + 1) m) as S1 by (eapply sound_mono; [done|lia]).
  unfold neoc_calloc. destruct (_ || _); [by exists None, m|].
  assert (has_malloc_func (m_custom m) = false) as ->.
  { pose proof (snd_system _ _ S) as Ss. unfold using_custom_allocator in Ss.
    apply orb_false_iff in Ss as [Ss _]. by apply orb_false_iff in Ss as [Ss _]. }
  destruct (2 ^ 64 <=? count * sz); [by exists None, m|]. unfold bind, give_block.
  destruct answer as [p|]; [|by exists None, m]. set (total := wrap 64 (count * sz)).
  assert (using_custom_allocator (set_blocks (<[p := total]> (m_blocks m)) m) = false) as -> by apply S.
  eexists _, _. split; [done|]. apply sound_alloc; [done|by apply Hf|done|by destruct entry_ok].
Qed.

Lemma sound_realloc n m answer entry_ok ptr sz :
  sound n m -> (fresh_answer answer m \/ (answer = ptr /\ is_Some ptr)) -> live ptr m -> n + 1 < 2 ^ 64 ->
  exists r m', neoc_realloc answer entry_ok ptr sz m = (Ok r, m') /\ sound (n + 1) m'.
Proof.
  intros S Hf Hlv Hn. destruct ptr as [p|]; cbn [neoc_realloc].
  2: { apply sound_malloc; try done. destruct Hf as [Hf|[_ [? F]]]; done. }
  destruct (sz =? 0).
  { destruct (sound_free n m p S ltac:(lia) (Hlv p eq_refl)) as (m' & E & S'). exists None, m'.
    unfold bind. rewrite E. split; [done|]. eapply sound_mono; [done|lia]. }
  destruct S as [Ss Se Sf Sc]. rewrite Ss. destruct (Hlv p eq_refl) as [psz Ep].
  destruct (untrack_sound p m Se) as (old & rest & -> & Hnd & Hp & Hl & Hold).
  unfold bind, resize_block. cbn [set_entries m_blocks]. rewrite Ep. destruct answer as [q|].
  - eexists _, _. split; [reflexivity|].
    assert (Forall (fun e => delete p (m_blocks m) !! fst e = Some (snd e)) rest) as Hl'.
    { rewrite Forall_forall in Hl |- *. intros [a z] Hi. cbn. rewrite lookup_delete_ne; [by apply Hl in Hi|].
      intros ->. apply Hp. by apply (list_elem_of_fmap_2 fst) in Hi. }
    assert (delete p (m_blocks m) !! q = None) as Hq.
    { destruct Hf as [Hf|[[= ->] _]]; [|by rewrite lookup_delete_eq]. apply lookup_delete_None. right. by apply Hf. }
    set (m2 := set_blocks _ _).
    assert (m_entries m2 = rest) as Er by done.
    pose proof (track_sound entry_ok q sz rest m2 _ Hnd (live_not_elem q rest _ Hl' Hq) Hl' Er) as Ht.
    assert (Z.of_nat (size (<[q := sz]> (delete p (m_blocks m)))) = Z.of_nat (size (m_blocks m))) as Esz.
    { rewrite map_size_insert_None, map_size_delete_Some by (done || by eexists).
      enough (size (m_blocks m) <> 0%nat) by lia. intros E0. apply map_size_empty_inv in E0. rewrite E0 in Ep.
      by rewrite lookup_empty in Ep. }
    assert (forall st, free_count st <= free_count (m_stats m) + 1 -> 0 <= free_count st ->
      allocation_count st = wrap 64 (allocation_count (m_stats m) + 1) ->
      sound (n + 1) (set_stats st (track_allocation entry_ok q sz m2))) as Hs.
    { intros st E1 E2 E3. rewrite wrap_small in E3 by lia.
      constructor; destruct entry_ok; cbn [set_stats track_allocation set_entries m_custom m_stats m_blocks m_entries m2 set_blocks];
        try done; lia. }
    assert (free_count (m_stats (track_allocation entry_ok q sz m2)) = free_count (m_stats m) /\
      allocation_count (m_stats (track_allocation entry_ok q sz m2)) = allocation_count (m_stats m)) as [Ef Ea]
      by (by destruct entry_ok).
    assert (0 < Z.of_nat (size (m_blocks m))) as Hpos.
    { enough (size (m_blocks m) <> 0%nat) by lia. intros E0. apply map_size_empty_inv in E0. rewrite E0 in Ep.
      by rewrite lookup_empty in Ep. }
    apply Hs; destruct old as [o|]; try destruct (0 <? o); cbn; rewrite ?Ef, ?Ea, ?(wrap_small 64 (free_count _ + 1)); lia || done.
  - eexists _, _. split; [reflexivity|]. apply (sound_mono n); [|lia]. destruct old as [o|].
    + specialize (Hold o eq_refl). destruct entry_ok; constructor;
        cbn [track_allocation set_entries m_custom m_stats m_blocks m_entries]; try done; split; try done; cbn.
      * by apply NoDup_cons.
      * by constructor.
    + constructor; cbn [set_entries m_custom m_stats m_blocks m_entries]; done.
Qed.

Lemma ops_sound ops : forall n m,
  sound n m -> 0 <= n -> n + zlen ops < 2 ^ 64 -> memory_session ops m ->
  exists m', exec_memory_ops ops m = (Ok tt, m') /\ sound (n + zlen ops) m'.
Proof.
  induction ops as [|op ops IH]; intros n m S Hn Hb Ha.
  - exists m. change (zlen []) with 0. by rewrite Z.add_0_r.
  - rewrite zlen_cons in *. pose proof (zlen_nonneg ops). destruct Ha as [Ha1 Ha2].
    assert (exists r m1, exec_memory_op op m = (Ok r, m1) /\ sound (n + 1) m1) as (r & m1 & E & S1).
    { destruct op as [answer eo sz|answer eo count sz|answer eo ptr sz|ptr]; cbn [exec_memory_op memory_allowed] in *.
      - destruct Ha1. apply sound_malloc; [done|done|lia].
      - destruct Ha1 as (? & ? & ?). apply sound_calloc; [done|done|lia].
      - destruct Ha1 as (? & ? & ?). apply sound_realloc; [done|done|done|lia].
      - assert (sound (n + 1) m) as S1 by (eapply sound_mono; [done|lia]). destruct ptr as [p|]; [|by exists None, m].
        destruct (sound_free n m p S ltac:(lia) (Ha1 p eq_refl)) as (m1 & E & S'). exists None, m1.
        rewrite (bind_ok _ _ _ _ _ E). split; [done|]. eapply sound_mono; [done|lia]. }
    rewrite E in Ha2. destruct (IH (n + 1) m1 S1) as (m' & E' & S'); [lia|lia|done|].
    exists m'. cbn [exec_memory_ops]. rewrite (bind_ok _ _ _ _ _ E), E'. split; [done|].
    by replace (n + (1 + zlen ops)) with (n + 1 + zlen ops) by lia.
Qed.

(** *** Sessions in which every entry finds memory *)

Lemma ops_balanced ops : forall n m,
  balanced n m -> 0 <= n -> n + zlen ops < 2 ^ 64 -> memory_session ops m -> forallb entry_served ops = true ->
  exists m', exec_memory_ops ops m = (Ok tt, m') /\ balanced (n + zlen ops) m'.
Proof.
  induction ops as [|op ops IH]; intros n m B Hn Hb Ha He.
  - exists m. change (zlen []) with 0. by rewrite Z.add_0_r.
  - rewrite zlen_cons in *. pose proof (zlen_nonneg ops). destruct Ha as [Ha1 Ha2].
    cbn [forallb] in He. apply andb_prop in He as [He1 He2].
    assert (exists r m1, exec_memory_op op m = (Ok r, m1) /\ balanced (n + 1) m1) as (r & m1 & E & B1).
    { destruct op as [answer eo sz|answer eo count sz|answer eo ptr sz|ptr]; cbn [exec_memory_op memory_allowed entry_served] in *;
        try subst eo.
      - destruct Ha1. apply malloc_step; [done|done|done|lia].
      - destruct Ha1 as (? & ? & ?). apply calloc_step; [done|done|done|done|lia].
      - destruct Ha1 as (? & ? & ?). apply realloc_step; [done|done|done|done|lia].
      - destruct (free_step n m ptr B Ha1 ltac:(lia)) as (m1 & E & B1). exists None, m1.
        rewrite (bind_ok _ _ _ _ _ E). split; [done|]. eapply bal_mono; [done|lia]. }
    rewrite E in Ha2. destruct (IH (n + 1) m1 B1) as (m' & E' & B'); [lia|lia|done|done|].
    exists m'. cbn [exec_memory_ops]. rewrite (bind_ok _ _ _ _ _ E), E'. split; [done|].
    by replace (n + (1 + zlen ops)) with (n + 1 + zlen ops) by lia.
Qed.

(** C17.  Accounting: a session of allocations, resizings and releases with the system's
    allocator by a client that passes pointers to live blocks never fails; every block on the
    list is live, with its size and once, and the number of outstanding blocks that is reported
    as leaked is at least the number of live blocks.  When there was memory for every entry of
    the list, the list is exactly the set of live blocks with their sizes, the reported usage is
    the sum of the sizes (as a 64-bit number), and the number of outstanding blocks is the number
    of live blocks; when an entry was dropped, usage and number can stay too high for good
    ([dropped_entry_leaks]). *)
Theorem memory_accounting (ops : list memory_op) :
  memory_session ops initial_memory -> zlen ops < 2 ^ 64 ->
  exists m outstanding, exec_memory_ops ops initial_memory = (Ok tt, m) /\
    entries_live (m_entries m) (m_blocks m) /\
    neoc_get_allocation_count m = (Ok outstanding, m) /\ Z.of_nat (size (m_blocks m)) <= outstanding /\
    (forallb entry_served ops = true ->
     m_entries m ≡ₚ map_to_list (m_blocks m) /\
     current_usage (m_stats m) = wrap 64 (sum_sizes (map_to_list (m_blocks m))) /\
     outstanding = Z.of_nat (size (m_blocks m))).
Proof.
  intros Ha Hb. destruct (ops_sound ops 0 initial_memory) as (m & E & S); [|lia|lia|done|].
  { constructor; try done. split; [constructor|constructor]. }
  exists m, (allocation_count (m_stats m) - free_count (m_stats m)). pose proof (snd_count _ _ S) as Hc.
  split_and!; [done|apply S| |lia|].
  - unfold neoc_get_allocation_count. do 2 f_equal. destruct (Z.ltb_spec (free_count (m_stats m)) (allocation_count (m_stats m))); lia.
  - intros He. destruct (ops_balanced ops 0 initial_memory) as (m' & E' & B); [by constructor|lia|lia|done|done|].
    rewrite E in E'. injection E' as <-. split_and!; [apply B| |].
    + rewrite (bal_usage _ _ B). by rewrite (sum_sizes_perm _ _ (bal_entries _ _ B)).
    + rewrite (bal_count _ _ B). unfold zlen. rewrite (bal_entries _ _ B), length_map_to_list. lia.
Qed.

(** A block without an entry is resized and released: the usage keeps its first and its second
    size and a block is reported as leaked. *)
Example dropped_entry_leaks :
  exists m, exec_memory_ops [OpMalloc (Some 1%positive) false 10; OpRealloc (Some 1%positive) false (Some 1%positive) 30;
      OpFree (Some 1%positive)] initial_memory = (Ok tt, m) /\
    m_blocks m = ∅ /\ current_usage (m_stats m) = 40 /\ neoc_get_allocation_count m = (Ok 1, m).
Proof. eexists. split; [vm_compute; reflexivity|]. split_and!; vm_compute; reflexivity. Qed.

(** The peak is not raised by a reallocation: after growing a block the usage can be above
    the recorded peak. *)
Lemma realloc_forgets_peak :
  exists m, exec_memory_ops [OpMalloc (Some 1%positive) true 10; OpRealloc (Some 1%positive) true (Some 1%positive) 1000]
    initial_memory = (Ok tt, m) /\
    current_usage (m_stats m) = 1000 /\ peak_usage (m_stats m) = 10.
Proof. eexists. split; [vm_compute; reflexivity|]. done. Qed.

(** With an installed allocator, an array request whose size in bytes does not fit
    into 64 bits is granted with a smaller block: the product wraps before the allocator is
    asked, where the system's own function would refuse. *)
Theorem calloc_overflow_custom (answer : address) (count size : Z) (m : memory) :
  0 < count < 2 ^ 64 -> 0 < size < 2 ^ 64 -> 2 ^ 64 <= count * size ->
  (has_malloc_func (m_custom m) = true ->
   neoc_calloc (Some answer) true count size m
   = (Ok (Some answer), set_blocks (<[answer := wrap 64 (count * size)]> (m_blocks m)) m) /\
   wrap 64 (count * size) < count * size) /\
  (using_custom_allocator m = false -> neoc_calloc (Some answer) true count size m = (Ok None, m)).
Proof.
  intros Hc Hs Ho. unfold neoc_calloc. cmps. split.
  - intros Hm. rewrite Hm. unfold bind, give_block, using_custom_allocator.
    cbn [set_blocks m_custom]. rewrite Hm. split; [done|].
    unfold wrap. pose proof (Z.mod_pos_bound (count * size) (2 ^ 64)). lia.
  - unfold using_custom_allocator. intros Hn. apply orb_false_iff in Hn as [Hn _].
    apply orb_false_iff in Hn as [Hn _]. rewrite Hn. by cmps.
Qed.

Lemma memcmp_bits_spec a : forall b r,
  length a = length b -> 0 <= r ->
  exists v, memcmp_bits a b (length a) r = Ok v /\ 0 <= v /\ (v = 0 <-> r = 0 /\ a = b).
Proof.
  induction a as [|x a IH]; intros [|y b] r Hl Hr; try done.
  - exists r. split_and!; [done|done|]. split; [by intros ->|by intros [? _]].
  - cbn [memcmp_bits length]. pose proof (Z_of_byte_range x). pose proof (Z_of_byte_range y).
    destruct (IH b (Z.lor r (Z.lxor (Z_of_byte x) (Z_of_byte y)))) as (v & E & Hv & Hiff).
    { by injection Hl. }
    { apply Z.lor_nonneg. split; [done|]. apply Z.lxor_nonneg. lia. }
    exists v. split_and!; [done|done|]. rewrite Hiff, Z.lor_eq_0_iff, Z.lxor_eq_0_iff. split.
    + intros [[-> Hxy%Z_of_byte_inj] ->]. by rewrite Hxy.
    + intros [-> [= -> ->]]. done.
Qed.

(** The comparison in constant time tells exactly whether the bytes are the same. *)
Lemma secure_memcmp_spec a b ra rb :
  length a = length b ->
  neoc_secure_memcmp (Some (a ++ ra)) (Some (b ++ rb)) (zlen a) = Ok (if bool_decide (a = b) then 0 else 1).
Proof.
  intros Hl. assert (forall r, memcmp_bits (a ++ ra) (b ++ rb) (length a) r = memcmp_bits a b (length a) r) as Hp.
  { revert b Hl. induction a as [|x a IH]; intros [|y b] Hl r; try done.
    cbn [memcmp_bits length app]. apply IH. by injection Hl. }
  unfold neoc_secure_memcmp, zlen. rewrite Nat2Z.id, Hp.
  destruct (memcmp_bits_spec a b 0 Hl) as (v & -> & _ & Hiff); [done|]. cbn [rbind].
  destruct (v =? 0) eqn:E; bdestruct; cbn [negb]; f_equal.
  - rewrite bool_decide_eq_true_2; [done|]. by apply Hiff.
  - rewrite bool_decide_eq_false_2; [done|]. intros ->. by apply E, Hiff.
Qed.

Section Samples.

Definition sample_ops : list memory_op :=
  [OpMalloc (Some 1%positive) true 10; OpCalloc (Some 2%positive) true 4 8; OpMalloc None true 100;
   OpRealloc (Some 3%positive) true (Some 1%positive) 20; OpFree (Some 2%positive)].

Lemma memory_accounting_witness :
  exists m, exec_memory_ops sample_ops initial_memory = (Ok tt, m) /\
    neoc_get_allocation_count m = (Ok (Z.of_nat (size (m_blocks m))), m).
Proof.
  destruct (memory_accounting sample_ops) as (m & k & E & _ & C & _ & Hx).
  - cbn [sample_ops memory_session memory_allowed].
    split_and!; try done; try (intros p Hp; simplify_eq; vm_compute; by try eexists).
    left. intros p Hp. simplify_eq. by vm_compute.
  - by vm_compute.
  - exists m. destruct (Hx eq_refl) as (_ & _ & <-). exact (conj E C).
Defined.

Lemma calloc_overflow_custom_witness :
  let m := mk_memory (mk_stats 0 0 0 0 0 0) (mk_allocator true true true) [] ∅ in
  neoc_calloc (Some 1%positive) true (2 ^ 32) (2 ^ 32 + 1) m
  = (Ok (Some 1%positive), set_blocks (<[1%positive := wrap 64 (2 ^ 32 * (2 ^ 32 + 1))]> ∅) m).
Proof.
  apply (calloc_overflow_custom 1 (2 ^ 32) (2 ^ 32 + 1)); try (split; by vm_compute); by vm_compute.
Defined.
End Samples.
