(* ===== verification/BinaryWriter.v ===== *)
(** * The binary writer (src/serialization/binary_writer.c)

    A growable byte buffer with a write position.  [neoc_binary_writer_t] is the
    C struct; each [neoc_binary_writer_write_*] is the C function of that name as
    a computation over the struct.  The specification of every writing operation
    is the predicate [writes m bs]: [m] appends exactly [bs], or it stops with
    [NEOC_ERROR_BUFFER_OVERFLOW] (fixed buffer, not enough room) or
    [NEOC_ERROR_MEMORY] (growing buffer, heap exhausted) after appending a prefix
    of [bs]; it never leaves the buffer. *)

From S2P Require Import Prelude.

(** ** Data and operations *)

Record neoc_binary_writer_t := mk_writer {
  w_data : list byte;
  w_capacity : Z;
  w_position : Z;
  w_auto_grow : bool
}.

Definition MIN_CAPACITY : Z := 16.
Definition GROWTH_FACTOR : Z := 2.

(** [sizeof(neoc_binary_writer_t)] *)
Definition writer_struct_size : Z := 32.

Abbreviation Wr := (M neoc_binary_writer_t).

(** The doubling loop of [ensure_capacity]; [None] when [fuel] doublings do not
    reach [need].  65 rounds are enough for any 64-bit [need] (see [grow_spec]);
    beyond that the wrapped capacity is zero and the C loop spins for ever. *)
Fixpoint grow (fuel : nat) (new_capacity need : Z) : option Z :=
  match fuel with
  | O => None
  | S fuel =>
      if new_capacity <? need
      then grow fuel (wrap 64 (new_capacity * GROWTH_FACTOR)) need
      else Some new_capacity
  end.

Definition grow_fuel : nat := 65.

Section Operations.
Context `{Allocator}.

(** [realloc] keeps the old bytes; the value of the new ones is indeterminate in
    C and 0 here (no operation reads past [w_position]). *)
Definition ensure_capacity (required : Z) : Wr unit := fun w =>
  let need := wrap 64 (w_position w + required) in
  if need <=? w_capacity w then (Ok tt, w)
  else if negb (w_auto_grow w) then (Err NEOC_ERROR_BUFFER_OVERFLOW, w)
  else
    match grow grow_fuel (wrap 64 (w_capacity w * GROWTH_FACTOR)) need with
    | None => (Fault, w)
    | Some new_capacity =>
        if malloc_ok new_capacity then
          (Ok tt, mk_writer (resize (Z.to_nat new_capacity) Byte.x00 (w_data w))
                            new_capacity (w_position w) (w_auto_grow w))
        else (Err NEOC_ERROR_MEMORY, w)
    end.

Definition neoc_binary_writer_create (initial_capacity : Z) (auto_grow : bool)
  : res neoc_binary_writer_t :=
  if negb (malloc_ok writer_struct_size) then Err NEOC_ERROR_MEMORY
  else
    let capacity :=
      if MIN_CAPACITY <? initial_capacity then initial_capacity else MIN_CAPACITY in
    if negb (malloc_ok capacity) then Err NEOC_ERROR_MEMORY
    else Ok (mk_writer (replicate (Z.to_nat capacity) Byte.x00) capacity 0 auto_grow).

(** [memcpy(writer->data + writer->position, bs, n); writer->position += n] *)
Definition put_bytes (bs : list byte) : Wr unit := fun w =>
  match buf_copy (w_data w) (w_position w) bs with
  | Some d =>
      (Ok tt, mk_writer d (w_capacity w) (wrap 64 (w_position w + zlen bs))
                        (w_auto_grow w))
  | None => (Fault, w)
  end.

(** [writer->data[writer->position++] = value] *)
Definition put_byte (v : byte) : Wr unit := put_bytes [v].

Definition neoc_binary_writer_write_byte (value : byte) : Wr unit :=
  do! ensure_capacity 1 in put_byte value.

(** [data] is the pointer ([None] is NULL) with the bytes it points to. *)
Definition neoc_binary_writer_write_bytes (data : option (list byte)) (len : Z)
  : Wr unit :=
  match data with
  | None => fail NEOC_ERROR_INVALID_ARGUMENT
  | Some data =>
      if len =? 0 then ret tt
      else
        do! ensure_capacity len in
        match buf_slice data 0 len with
        | Some bs => put_bytes bs
        | None => fault
        end
  end.

Definition neoc_binary_writer_write_bool (value : bool) : Wr unit :=
  neoc_binary_writer_write_byte (if value then Byte.x01 else Byte.x00).

Definition neoc_binary_writer_write_uint16 (value : Z) : Wr unit :=
  do! ensure_capacity 2 in
  do! put_byte (byte_of_Z (Z.land value 255)) in
  put_byte (byte_of_Z (Z.land (Z.shiftr value 8) 255)).

Definition neoc_binary_writer_write_uint32 (value : Z) : Wr unit :=
  do! ensure_capacity 4 in
  do! put_byte (byte_of_Z (Z.land value 255)) in
  do! put_byte (byte_of_Z (Z.land (Z.shiftr value 8) 255)) in
  do! put_byte (byte_of_Z (Z.land (Z.shiftr value 16) 255)) in
  put_byte (byte_of_Z (Z.land (Z.shiftr value 24) 255)).

Definition neoc_binary_writer_write_uint64 (value : Z) : Wr unit :=
  do! ensure_capacity 8 in
  for_each (fun i => put_byte (byte_of_Z (Z.land (Z.shiftr value (i * 8)) 255)))
           [0; 1; 2; 3; 4; 5; 6; 7].

Definition neoc_binary_writer_write_int16 (value : Z) : Wr unit :=
  neoc_binary_writer_write_uint16 (wrap 16 value).
Definition neoc_binary_writer_write_int32 (value : Z) : Wr unit :=
  neoc_binary_writer_write_uint32 (wrap 32 value).
Definition neoc_binary_writer_write_int64 (value : Z) : Wr unit :=
  neoc_binary_writer_write_uint64 (wrap 64 value).

Definition neoc_binary_writer_write_var_int (value : Z) : Wr unit :=
  if value <? 0xFD then neoc_binary_writer_write_byte (byte_of_Z value)
  else if value <=? 0xFFFF then
    do! neoc_binary_writer_write_byte Byte.xfd in
    neoc_binary_writer_write_uint16 (wrap 16 value)
  else if value <=? 0xFFFFFFFF then
    do! neoc_binary_writer_write_byte Byte.xfe in
    neoc_binary_writer_write_uint32 (wrap 32 value)
  else
    do! neoc_binary_writer_write_byte Byte.xff in
    neoc_binary_writer_write_uint64 value.

Definition neoc_binary_writer_write_var_bytes (data : option (list byte)) (len : Z)
  : Wr unit :=
  do! neoc_binary_writer_write_var_int len in
  match data with
  | Some _ =>
      if 0 <? len then neoc_binary_writer_write_bytes data len else ret tt
  | None => ret tt
  end.

Definition neoc_binary_writer_write_var_string (s : option (list byte)) : Wr unit :=
  match s with
  | None => neoc_binary_writer_write_var_int 0
  | Some s => neoc_binary_writer_write_var_bytes (Some s) (zlen s)
  end.

Definition neoc_binary_writer_get_position : Wr Z := fun w => (Ok (w_position w), w).

(** The pointer to the buffer and the number of bytes written. *)
Definition neoc_binary_writer_get_data : Wr (list byte * Z) := fun w =>
  (Ok (w_data w, w_position w), w).

Definition neoc_binary_writer_to_array : Wr (list byte) := fun w =>
  if negb (malloc_ok (w_position w)) then (Err NEOC_ERROR_MEMORY, w)
  else
    match buf_slice (w_data w) 0 (w_position w) with
    | Some bs => (Ok bs, w)
    | None => (Fault, w)
    end.

Definition neoc_binary_writer_reset : Wr unit := fun w =>
  (Ok tt, mk_writer (w_data w) (w_capacity w) 0 (w_auto_grow w)).

(** The pattern every serializer of the library follows: create a growing
    writer, run the writes, copy the bytes out, free the writer. *)
Definition serialize_with (initial_capacity : Z) (m : Wr unit) : res (list byte) :=
  let? w := neoc_binary_writer_create initial_capacity true in
  fst ((do! m in neoc_binary_writer_to_array) w).

End Operations.

(** ** Specification *)

(** The bytes written so far. *)
Definition contents (w : neoc_binary_writer_t) : list byte :=
  take (Z.to_nat (w_position w)) (w_data w).

(** The representation invariant of a writer made by
    [neoc_binary_writer_create]. *)
Record writer_ok (w : neoc_binary_writer_t) : Prop := {
  writer_ok_capacity : zlen (w_data w) = w_capacity w;
  writer_ok_position : 0 <= w_position w <= w_capacity w;
  writer_ok_min : MIN_CAPACITY <= w_capacity w < 2 ^ 63
}.

(** The largest stream the specifications speak about: with at most 2^62 bytes
    none of the [size_t] computations of the growth policy wraps. *)
Definition stream_max : Z := 2 ^ 62.

(** Why a write may stop early: the buffer is fixed and too small, or the heap
    cannot serve twice the final size. *)
Definition write_error `{Allocator} (w : neoc_binary_writer_t) (n : Z)
    (e : neoc_error_t) : Prop :=
  (e = NEOC_ERROR_BUFFER_OVERFLOW /\ w_auto_grow w = false /\
   w_capacity w < w_position w + n) \/
  (e = NEOC_ERROR_MEMORY /\ w_auto_grow w = true /\
   ~ heap_serves (2 * (w_position w + n))).

(** [w'] is a legal successor of [w] that has [bs] appended. *)
Record extends (w w' : neoc_binary_writer_t) (bs : list byte) : Prop := {
  extends_ok : writer_ok w';
  extends_grow : w_auto_grow w' = w_auto_grow w;
  extends_fixed : w_auto_grow w = false -> w_capacity w' = w_capacity w;
  extends_position : w_position w' = w_position w + zlen bs;
  extends_contents : contents w' = contents w ++ bs
}.

Definition writes `{Allocator} (m : Wr unit) (bs : list byte) : Prop :=
  forall w, writer_ok w -> w_position w + zlen bs <= stream_max ->
  exists w',
    (m w = (Ok tt, w') /\ extends w w' bs) \/
    (exists e pre, m w = (Err e, w') /\ pre `prefix_of` bs /\
                   extends w w' pre /\ write_error w (zlen bs) e).

(** The wire format of the variable-length encodings. *)
Definition var_int_bytes (v : Z) : list byte :=
  if v <? 0xFD then [byte_of_Z v]
  else if v <=? 0xFFFF then Byte.xfd :: le_bytes 2 v
  else if v <=? 0xFFFFFFFF then Byte.xfe :: le_bytes 4 v
  else Byte.xff :: le_bytes 8 v.

Definition var_bytes (bs : list byte) : list byte := var_int_bytes (zlen bs) ++ bs.

(** ** Growth *)

Lemma grow_enough fuel c need :
  1 <= c -> need <= 2 ^ 63 -> need <= c * 2 ^ Z.of_nat fuel ->
  exists nc, grow (S fuel) c need = Some nc /\ need <= nc /\ c <= nc /\
             (nc = c \/ nc < 2 * need).
Proof.
  revert c. induction fuel as [|fuel IH]; intros c Hc Hn Hb.
  - exists c. cbn. cmps. split; [done|lia].
  - change (grow (S (S fuel)) c need) with
      (if c <? need then grow (S fuel) (wrap 64 (c * GROWTH_FACTOR)) need
       else Some c).
    unfold GROWTH_FACTOR. destruct (c <? need) eqn:E; bdestruct.
    2: { exists c. split; [done|lia]. }
    rewrite wrap_small by lia.
    rewrite Nat2Z.inj_succ, Z.pow_succ_r in Hb by lia.
    destruct (IH (c * 2)) as (nc & -> & ? & ? & ?); [lia..|].
    exists nc. split; [done|lia].
Qed.

(** 65 rounds of doubling reach every request of at most 2^63 bytes. *)
Lemma grow_spec c need :
  1 <= c -> need <= 2 ^ 63 ->
  exists nc, grow grow_fuel c need = Some nc /\ need <= nc /\ c <= nc /\
             (nc = c \/ nc < 2 * need).
Proof.
  intros. apply (grow_enough 64); [done..|].
  change (2 ^ Z.of_nat 64) with (2 * 2 ^ 63). nia.
Qed.

(** ** The basic steps *)

Section Proofs.
Context `{Allocator}.

Lemma extends_nil w : writer_ok w -> extends w w [].
Proof.
  split; try done.
  - rewrite zlen_nil. lia.
  - rewrite app_nil_r. done.
Qed.

Lemma extends_trans w1 w2 w3 a b :
  extends w1 w2 a -> extends w2 w3 b -> extends w1 w3 (a ++ b).
Proof.
  intros [? G1 F1 P1 C1] [? G2 F2 P2 C2]. split.
  - done.
  - congruence.
  - intros E. rewrite F2, F1 by congruence. done.
  - rewrite zlen_app. lia.
  - rewrite C2, C1, app_assoc. done.
Qed.

Lemma ensure_capacity_spec n w :
  writer_ok w -> 0 <= n -> w_position w + n <= stream_max ->
  exists w', extends w w' [] /\
    ((ensure_capacity n w = (Ok tt, w') /\ w_position w + n <= w_capacity w') \/
     (exists e, ensure_capacity n w = (Err e, w') /\ write_error w n e)).
Proof.
  unfold stream_max, ensure_capacity. intros Hok Hn Hs.
  pose proof (extends_nil w Hok) as Hw.
  destruct Hok as [Hc [Hp0 Hp] [Hm HM]]. unfold MIN_CAPACITY in *.
  rewrite wrap_small by lia.
  destruct (_ <=? _) eqn:E; bdestruct; [eauto|].
  destruct (w_auto_grow w) eqn:G; cbn [negb].
  2: { exists w. split; [done|]. right. eexists; split; [done|]. left. done. }
  unfold GROWTH_FACTOR. rewrite wrap_small by lia.
  destruct (grow_spec (w_capacity w * 2) (w_position w + n))
    as (nc & -> & ? & ? & ?); [lia..|].
  destruct (malloc_ok nc) eqn:A.
  - eexists; split; [|left; split; [done|]; cbn; lia].
    split; cbn; try congruence.
    + split; cbn; unfold MIN_CAPACITY, zlen; try lia.
      rewrite length_resize. lia.
    + zlia.
    + unfold contents; cbn. unfold zlen in Hc.
      rewrite app_nil_r, take_resize_le, resize_le by lia. done.
  - exists w. split; [done|]. right. eexists; split; [done|]. right.
    split_and!; try done. intros Hh. rewrite (Hh nc) in A; [done|lia].
Qed.

Lemma put_bytes_spec bs w :
  writer_ok w -> w_position w + zlen bs <= w_capacity w ->
  exists w', put_bytes bs w = (Ok tt, w') /\ extends w w' bs /\
             w_capacity w' = w_capacity w.
Proof.
  intros [Hc [Hp0 Hp] [Hm HM]] Hs. pose proof (zlen_nonneg bs). unfold put_bytes.
  destruct (buf_copy_spec (w_data w) (w_position w) bs) as (d & -> & Hd & Ht);
    [lia..|].
  rewrite wrap_small by lia.
  eexists; split; [done|]. split; [|done]. split; cbn; try done.
  split; cbn; lia.
Qed.

(** ** Composition *)

Lemma writes_ret : writes (ret tt) [].
Proof. intros w Hw _. exists w. left. split; [done|]. by apply extends_nil. Qed.

Lemma writes_bind m1 b1 (k : unit -> Wr unit) b2 :
  writes m1 b1 -> writes (k tt) b2 -> writes (bind m1 k) (b1 ++ b2).
Proof.
  intros H1 H2 w Hw Hs. rewrite zlen_app in *.
  pose proof (zlen_nonneg b1); pose proof (zlen_nonneg b2).
  destruct (H1 w) as (w1 & [[E1 X1] | (e & pre & E1 & Hp & X1 & He)]); [done|lia|..].
  2: { exists w1. right. exists e, pre. rewrite (bind_err _ _ _ _ _ E1).
       split_and!; [done|by apply prefix_app_r|done|].
       destruct He as [(-> & ? & ?)|(-> & ? & Hn)]; [left|right];
         split_and!; try done; [lia|].
       intros Hh. apply Hn. eapply heap_serves_mono; [done|lia]. }
  rewrite (bind_ok _ _ _ _ _ E1). destruct X1 as [Hw1 G1 F1 P1 C1].
  assert (extends w w1 b1) as X1 by done.
  destruct (H2 w1) as (w2 & [[E2 X2] | (e & pre & E2 & Hp & X2 & He)]);
    [done|lia|..]; exists w2.
  - left. split; [done|]. by eapply extends_trans.
  - right. exists e, (b1 ++ pre). split_and!; [done|by apply prefix_app| |].
    + by eapply extends_trans.
    + destruct He as [(-> & ? & ?)|(-> & ? & Hn)]; [left|right];
        split_and!; try congruence.
      * rewrite <- F1 by congruence. lia.
      * rewrite P1 in Hn. by rewrite Z.add_assoc.
Qed.

Lemma writes_for_each {A} (f : A -> Wr unit) (enc : A -> list byte) l :
  (forall x, In x l -> writes (f x) (enc x)) ->
  writes (for_each f l) (concat (map enc l)).
Proof.
  induction l as [|x l IH]; intros Hf; cbn; [apply writes_ret|].
  apply writes_bind; [apply Hf; by left|]. apply IH. intros. apply Hf. by right.
Qed.

(** Room for [bs] once, then stores that fill exactly that room. *)
Lemma writes_reserve (m : Wr unit) bs :
  (forall w, writer_ok w -> w_position w + zlen bs <= w_capacity w ->
   exists w', m w = (Ok tt, w') /\ extends w w' bs /\
              w_capacity w' = w_capacity w) ->
  writes (do! ensure_capacity (zlen bs) in m) bs.
Proof.
  intros Hm w Hw Hs.
  destruct (ensure_capacity_spec (zlen bs) w) as (w1 & X1 & [[E1 R]|(e & E1 & He)]);
    [done|apply zlen_nonneg|done|..].
  - rewrite (bind_ok _ _ _ _ _ E1). pose proof (extends_position _ _ _ X1) as P1.
    rewrite zlen_nil in P1.
    destruct (Hm w1) as (w2 & E2 & X2 & _); [apply X1|lia|].
    exists w2. left. split; [done|]. by apply (extends_trans _ _ _ [] bs X1).
  - rewrite (bind_err _ _ _ _ _ E1). exists w1. right. exists e, [].
    split_and!; try done. apply prefix_nil.
Qed.

(** Stores in sequence. *)
Lemma put_seq b bs (m : Wr unit) w :
  (forall w, writer_ok w -> w_position w + zlen bs <= w_capacity w ->
   exists w', m w = (Ok tt, w') /\ extends w w' bs /\
              w_capacity w' = w_capacity w) ->
  writer_ok w -> w_position w + zlen (b :: bs) <= w_capacity w ->
  exists w', (do! put_byte b in m) w = (Ok tt, w') /\ extends w w' (b :: bs) /\
             w_capacity w' = w_capacity w.
Proof.
  intros Hm Hw Hs. rewrite zlen_cons in Hs. pose proof (zlen_nonneg bs).
  destruct (put_bytes_spec [b] w) as (w1 & E1 & X1 & C1); [done|zlia|].
  unfold put_byte. rewrite (bind_ok _ _ _ _ _ E1).
  pose proof (extends_position _ _ _ X1) as P1.
  destruct (Hm w1) as (w2 & E2 & X2 & C2); [apply X1|zlia|].
  exists w2. split_and!; [done| |congruence].
  by apply (extends_trans _ _ _ [b] bs X1).
Qed.

Lemma put_last b w :
  writer_ok w -> w_position w + zlen [b] <= w_capacity w ->
  exists w', put_byte b w = (Ok tt, w') /\ extends w w' [b] /\
             w_capacity w' = w_capacity w.
Proof. apply put_bytes_spec. Qed.

Lemma put_all bs w :
  writer_ok w -> w_position w + zlen bs <= w_capacity w ->
  exists w', for_each put_byte bs w = (Ok tt, w') /\ extends w w' bs /\
             w_capacity w' = w_capacity w.
Proof.
  revert w. induction bs as [|b bs IH]; intros w Hw Hs.
  - exists w. split_and!; [done|by apply extends_nil|done].
  - cbn [for_each]. apply put_seq; [|done..]. apply IH.
Qed.

(** ** Each operation *)

Lemma writes_lift {A} (a : A) (k : A -> Wr unit) bs :
  writes (k a) bs -> writes (bind (lift (Ok a)) k) bs.
Proof. intros H1 w. apply (H1 w). Qed.

Lemma write_byte_writes b : writes (neoc_binary_writer_write_byte b) [b].
Proof. apply (writes_reserve _ [b]). intros. by apply put_last. Qed.

Lemma writes_cons b m bs :
  writes m bs -> writes (do! neoc_binary_writer_write_byte b in m) (b :: bs).
Proof. intros. apply (writes_bind _ [b]); [apply write_byte_writes|done]. Qed.

Lemma write_bytes_writes bs :
  writes (neoc_binary_writer_write_bytes (Some bs) (zlen bs)) bs.
Proof.
  unfold neoc_binary_writer_write_bytes. destruct (zlen bs =? 0) eqn:E; bdestruct.
  - rewrite (zlen_zero bs) by done. apply writes_ret.
  - apply writes_reserve. intros w Hw Hs.
    pose proof (buf_slice_app [] bs []) as Hb. rewrite app_nil_r in Hb.
    change ([] ++ bs) with bs in Hb. change (zlen []) with 0 in Hb.
    rewrite Hb. by apply put_bytes_spec.
Qed.

Lemma write_bool_writes (v : bool) :
  writes (neoc_binary_writer_write_bool v) [if v then Byte.x01 else Byte.x00].
Proof. apply write_byte_writes. Qed.

(** The stored bytes are the little-endian image. *)
Lemma store_image v ks :
  Forall (fun k => 0 <= k) ks ->
  map (fun k => byte_of_Z (Z.land (Z.shiftr v (8 * k)) 255)) ks =
  map (fun k => byte_of_Z (v / 256 ^ k)) ks.
Proof.
  induction 1; cbn [map]; [done|]. rewrite byte_shift by done. by f_equal.
Qed.

Lemma write_uint16_writes v : writes (neoc_binary_writer_write_uint16 v) (le_bytes 2 v).
Proof.
  replace (le_bytes 2 v) with
    [byte_of_Z (Z.land v 255); byte_of_Z (Z.land (Z.shiftr v 8) 255)].
  - apply (writes_reserve _ [_; _]). intros.
    apply put_seq; [|done..]. intros. by apply put_last.
  - change (Z.land v 255) with (Z.land (Z.shiftr v (8 * 0)) 255).
    change 8 with (8 * 1) at 2. rewrite !byte_shift by lia.
    cbn [le_bytes]. rewrite Z.pow_0_r, Z.pow_1_r, Z.div_1_r. done.
Qed.

Lemma write_uint32_writes v : writes (neoc_binary_writer_write_uint32 v) (le_bytes 4 v).
Proof.
  replace (le_bytes 4 v) with
    [byte_of_Z (Z.land v 255); byte_of_Z (Z.land (Z.shiftr v 8) 255);
     byte_of_Z (Z.land (Z.shiftr v 16) 255);
     byte_of_Z (Z.land (Z.shiftr v 24) 255)].
  - apply (writes_reserve _ [_; _; _; _]). intros.
    do 3 (apply put_seq; [|done..]; intros). by apply put_last.
  - change (Z.land v 255) with (Z.land (Z.shiftr v (8 * 0)) 255).
    change 24 with (8 * 3). change 16 with (8 * 2). change 8 with (8 * 1) at 2.
    rewrite !byte_shift by lia. cbn [le_bytes].
    rewrite !Z.div_div by lia. rewrite Z.pow_0_r, Z.div_1_r. done.
Qed.

Lemma write_uint64_writes v : writes (neoc_binary_writer_write_uint64 v) (le_bytes 8 v).
Proof.
  set (g i := byte_of_Z (Z.land (Z.shiftr v (i * 8)) 255)).
  replace (le_bytes 8 v) with (map g [0; 1; 2; 3; 4; 5; 6; 7]).
  - apply (writes_reserve _ (map g [0; 1; 2; 3; 4; 5; 6; 7])). intros w Hw Hs.
    rewrite (for_each_map put_byte g). by apply put_all.
  - subst g. cbn [map]. rewrite !(Z.mul_comm _ 8), !byte_shift by lia.
    cbn [le_bytes]. rewrite !Z.div_div by lia. rewrite Z.pow_0_r, Z.div_1_r. done.
Qed.

Lemma write_int16_writes v : writes (neoc_binary_writer_write_int16 v) (le_bytes 2 v).
Proof. rewrite <- (le_bytes_mod 2). apply write_uint16_writes. Qed.
Lemma write_int32_writes v : writes (neoc_binary_writer_write_int32 v) (le_bytes 4 v).
Proof. rewrite <- (le_bytes_mod 4). apply write_uint32_writes. Qed.
Lemma write_int64_writes v : writes (neoc_binary_writer_write_int64 v) (le_bytes 8 v).
Proof. rewrite <- (le_bytes_mod 8). apply write_uint64_writes. Qed.

Lemma write_var_int_writes v :
  writes (neoc_binary_writer_write_var_int v) (var_int_bytes v).
Proof.
  unfold neoc_binary_writer_write_var_int, var_int_bytes.
  destruct (v <? 0xFD); [apply write_byte_writes|].
  destruct (v <=? 0xFFFF); [|destruct (v <=? 0xFFFFFFFF)]; apply writes_cons.
  - rewrite <- (le_bytes_mod 2). apply write_uint16_writes.
  - rewrite <- (le_bytes_mod 4). apply write_uint32_writes.
  - apply write_uint64_writes.
Qed.

Lemma write_var_bytes_writes bs :
  writes (neoc_binary_writer_write_var_bytes (Some bs) (zlen bs)) (var_bytes bs).
Proof.
  apply writes_bind; [apply write_var_int_writes|].
  destruct (0 <? zlen bs) eqn:E; bdestruct; [apply write_bytes_writes|].
  rewrite (zlen_zero bs) by zlia. apply writes_ret.
Qed.

Lemma write_var_bytes_null_writes :
  writes (neoc_binary_writer_write_var_bytes None 0) (var_bytes []).
Proof. apply writes_bind; [apply write_var_int_writes|]. apply writes_ret. Qed.

Lemma write_var_string_writes s :
  writes (neoc_binary_writer_write_var_string s) (var_bytes (default [] s)).
Proof.
  destruct s as [s|]; [apply write_var_bytes_writes|].
  change (var_bytes _) with (var_int_bytes 0). apply write_var_int_writes.
Qed.

(** ** Creating a writer and reading the bytes back *)

Lemma writer_create_ok c g w :
  c < 2 ^ 63 -> neoc_binary_writer_create c g = Ok w ->
  writer_ok w /\ contents w = [] /\ w_position w = 0 /\ w_auto_grow w = g /\
  w_capacity w = Z.max c MIN_CAPACITY.
Proof.
  unfold neoc_binary_writer_create, MIN_CAPACITY. intros Hc.
  destruct (negb _); [done|]. destruct (negb _); [done|]. intros [= <-]. cbn.
  split_and!; try done.
  - split; cbn; unfold MIN_CAPACITY, zlen; try rewrite length_replicate;
      destruct (16 <? c) eqn:E; bdestruct; lia.
  - destruct (16 <? c) eqn:E; bdestruct; lia.
Qed.

Lemma writer_create_succeeds c g n :
  heap_serves n -> writer_struct_size <= n -> c <= n ->
  exists w, neoc_binary_writer_create c g = Ok w.
Proof.
  unfold neoc_binary_writer_create, writer_struct_size, MIN_CAPACITY. intros Hh Hn Hc.
  rewrite !Hh; [eauto|destruct (16 <? c) eqn:E; bdestruct; lia|lia].
Qed.

Lemma to_array_contents w :
  writer_ok w -> malloc_ok (w_position w) = true ->
  neoc_binary_writer_to_array w = (Ok (contents w), w).
Proof.
  intros [Hc [Hp0 Hp] _] Hm. unfold neoc_binary_writer_to_array.
  rewrite Hm. cbn [negb]. unfold buf_slice, contents. rewrite Hc. cmps.
  rewrite drop_0. done.
Qed.

(** A growing writer with enough heap performs every write. *)
Lemma writes_run m bs w :
  writes m bs -> writer_ok w -> w_auto_grow w = true ->
  w_position w + zlen bs <= stream_max ->
  heap_serves (2 * (w_position w + zlen bs)) ->
  exists w', m w = (Ok tt, w') /\ extends w w' bs.
Proof.
  intros Hm Hw Hg Hs Hh.
  destruct (Hm w Hw Hs) as (w' & [[E X]|(e & pre & _ & _ & _ & He)]); [eauto|].
  destruct He as [(_ & ? & _)|(_ & _ & Hn)]; [congruence|contradiction].
Qed.

Lemma serialize_with_ok c m bs :
  writes m bs -> c <= Z.max 1024 (zlen bs) -> zlen bs <= stream_max ->
  heap_serves (Z.max 1024 (2 * zlen bs)) ->
  serialize_with c m = Ok bs.
Proof.
  intros Hm Hc Hs Hh. unfold serialize_with. unfold stream_max in Hs.
  pose proof (zlen_nonneg bs).
  destruct (writer_create_succeeds c true _ Hh) as [w Ew];
    [unfold writer_struct_size; lia|lia|].
  rewrite Ew. cbn [rbind].
  apply writer_create_ok in Ew as (Hw & C0 & P0 & G0 & _); [|lia].
  destruct (writes_run m bs w Hm Hw G0) as (w' & E & X); [unfold stream_max; lia| |].
  { eapply heap_serves_mono; [done|lia]. }
  rewrite (bind_ok _ _ _ _ _ E). destruct X as [Hw' _ _ P1 C1].
  rewrite to_array_contents; [|done|].
  - rewrite C1, C0. done.
  - apply Hh. zlia.
Qed.

(** A fault after some writes that succeed. *)
Lemma serialize_faults c m bs k :
  writes m bs -> c <= Z.max 1024 (zlen bs) -> zlen bs <= stream_max ->
  heap_serves (Z.max 1024 (2 * zlen bs)) -> (forall w, fst (k w) = Fault) ->
  serialize_with c (do! m in k) = Fault.
Proof.
  intros Hm Hc Hs Hh Hk. unfold serialize_with. unfold stream_max in Hs.
  pose proof (zlen_nonneg bs).
  destruct (writer_create_succeeds c true _ Hh) as [w Ew];
    [unfold writer_struct_size; lia|lia|].
  rewrite Ew. cbn [rbind].
  apply writer_create_ok in Ew as (Hw & C0 & P0 & G0 & _); [|lia].
  destruct (writes_run m bs w Hm Hw G0) as (w' & E & X); [unfold stream_max; lia| |].
  { eapply heap_serves_mono; [done|lia]. }
  unfold bind. rewrite E. specialize (Hk w'). destruct (k w') as [x w'']. cbn in Hk. by subst x.
Qed.

(** Whatever the heap, serializing does not fault. *)
Lemma serialize_with_safe c m bs :
  writes m bs -> c < 2 ^ 63 -> zlen bs <= stream_max -> serialize_with c m <> Fault.
Proof.
  intros Hm Hc Hs. unfold serialize_with. destruct (neoc_binary_writer_create c true) as [w| |] eqn:Ew; [|done|].
  2: { revert Ew. unfold neoc_binary_writer_create. by repeat destruct (negb _). }
  cbn [rbind]. apply writer_create_ok in Ew as (Hw & _ & P0 & _); [|done].
  destruct (Hm w Hw) as (w' & [[E X]|(e & pre & E & _)]); [unfold stream_max in *; lia| |].
  - rewrite (bind_ok _ _ _ _ _ E). destruct (malloc_ok (w_position w')) eqn:Em.
    + rewrite to_array_contents; [done|by apply X|done].
    + unfold neoc_binary_writer_to_array. by rewrite Em.
  - unfold bind. by rewrite E.
Qed.

End Proofs.

#[export] Hint Resolve write_byte_writes write_bytes_writes write_bool_writes
  write_uint16_writes write_uint32_writes write_uint64_writes
  write_int16_writes write_int32_writes write_int64_writes
  write_var_int_writes write_var_bytes_writes write_var_bytes_null_writes
  write_var_string_writes writes_ret writes_bind : neoc.

(** ** The writer as a sequence of operations *)

Inductive write_op : Type :=
| OpByte (b : byte)
| OpBytes (bs : list byte)
| OpBool (v : bool)
| OpUint16 (v : Z) | OpUint32 (v : Z) | OpUint64 (v : Z)
| OpInt16 (v : Z) | OpInt32 (v : Z) | OpInt64 (v : Z)
| OpVarInt (v : Z)
| OpVarBytes (bs : list byte)
| OpVarString (s : option (list byte)).

Definition exec_op `{Allocator} (op : write_op) : Wr unit :=
  match op with
  | OpByte b => neoc_binary_writer_write_byte b
  | OpBytes bs => neoc_binary_writer_write_bytes (Some bs) (zlen bs)
  | OpBool v => neoc_binary_writer_write_bool v
  | OpUint16 v => neoc_binary_writer_write_uint16 v
  | OpUint32 v => neoc_binary_writer_write_uint32 v
  | OpUint64 v => neoc_binary_writer_write_uint64 v
  | OpInt16 v => neoc_binary_writer_write_int16 v
  | OpInt32 v => neoc_binary_writer_write_int32 v
  | OpInt64 v => neoc_binary_writer_write_int64 v
  | OpVarInt v => neoc_binary_writer_write_var_int v
  | OpVarBytes bs => neoc_binary_writer_write_var_bytes (Some bs) (zlen bs)
  | OpVarString s => neoc_binary_writer_write_var_string s
  end.

(** The abstract meaning of an operation: the bytes it adds to the stream. *)
Definition op_bytes (op : write_op) : list byte :=
  match op with
  | OpByte b => [b]
  | OpBytes bs => bs
  | OpBool v => [if v then Byte.x01 else Byte.x00]
  | OpUint16 v | OpInt16 v => le_bytes 2 v
  | OpUint32 v | OpInt32 v => le_bytes 4 v
  | OpUint64 v | OpInt64 v => le_bytes 8 v
  | OpVarInt v => var_int_bytes v
  | OpVarBytes bs => var_bytes bs
  | OpVarString s => var_bytes (default [] s)
  end.

Lemma exec_op_writes `{Allocator} op : writes (exec_op op) (op_bytes op).
Proof. destruct op; cbn [exec_op op_bytes]; auto with neoc. Qed.

Lemma exec_ops_writes `{Allocator} ops :
  writes (for_each exec_op ops) (concat (map op_bytes ops)).
Proof. apply writes_for_each. intros. apply exec_op_writes. Qed.

(** C1.  Refinement of the append-only byte stream: whatever sequence of write
    operations is performed on a fresh growing writer, the array read back from
    it is the concatenation of the encodings of the operations, as long as the
    heap serves twice that many bytes (and the first kilobyte). *)
Theorem writer_refines_append `{Allocator} (capacity : Z) (ops : list write_op) :
  capacity <= 1024 ->
  zlen (concat (map op_bytes ops)) <= stream_max ->
  heap_serves (Z.max 1024 (2 * zlen (concat (map op_bytes ops)))) ->
  serialize_with capacity (for_each exec_op ops) = Ok (concat (map op_bytes ops)).
Proof. intros. apply serialize_with_ok; [apply exec_ops_writes|lia|done..]. Qed.

Lemma writer_refines_append_witness :
  @serialize_with mib_heap 0
    (for_each (@exec_op mib_heap) [OpUint16 0x1234; OpVarBytes (repeat Byte.xaa 40)])
  = Ok (Byte.x34 :: Byte.x12 :: Byte.x28 :: repeat Byte.xaa 40).
Proof.
  apply (@writer_refines_append mib_heap 0
           [OpUint16 0x1234; OpVarBytes (repeat Byte.xaa 40)]).
  - lia.
  - vm_compute. discriminate.
  - apply mib_heap_serves. vm_compute. discriminate.
Defined.

(** C13.  Safety for every allocator and every writer in a legal state, fixed or
    growing: a sequence of writes never leaves the buffer and never hangs, keeps
    the representation invariant, and whatever its outcome the bytes written
    before the call are kept and followed by a prefix of the new ones; it can
    only stop because a fixed buffer is full or the heap is exhausted. *)
Theorem writer_safe `{Allocator} (ops : list write_op) (w : neoc_binary_writer_t) :
  writer_ok w ->
  w_position w + zlen (concat (map op_bytes ops)) <= stream_max ->
  let '(r, w') := for_each exec_op ops w in
  writer_ok w' /\
  match r with
  | Ok _ => contents w' = contents w ++ concat (map op_bytes ops)
  | Err e =>
      (exists pre, pre `prefix_of` concat (map op_bytes ops) /\
                   contents w' = contents w ++ pre) /\
      write_error w (zlen (concat (map op_bytes ops))) e
  | Fault => False
  end.
Proof.
  intros Hw Hs.
  destruct (exec_ops_writes ops w Hw Hs)
    as (w' & [[-> X]|(e & pre & -> & Hp & X & He)]).
  - split; [apply X|]. apply X.
  - split; [apply X|]. split; [|done]. exists pre. split; [done|]. apply X.
Qed.

(** A writer with a fixed buffer of 16 bytes. *)
Definition fixed16 : neoc_binary_writer_t :=
  mk_writer (replicate 16 Byte.x00) 16 0 false.

Lemma fixed16_ok : writer_ok fixed16.
Proof. split; vm_compute; intuition discriminate. Qed.

Lemma writer_safe_witness :
  let '(r, w') :=
    for_each (@exec_op mib_heap) [OpUint64 1; OpUint64 2; OpByte Byte.x03] fixed16 in
  writer_ok w' /\ r = Err NEOC_ERROR_BUFFER_OVERFLOW.
Proof.
  pose proof (@writer_safe mib_heap [OpUint64 1; OpUint64 2; OpByte Byte.x03] fixed16
    fixed16_ok ltac:(vm_compute; discriminate)) as Hs.
  destruct (for_each _ _ _) as [r w'] eqn:E. split; [apply Hs|].
  vm_compute in E. injection E as <- <-. reflexivity.
Defined.

(** A fixed buffer accepts a sequence of writes exactly when it fits in the
    remaining capacity, and otherwise reports [NEOC_ERROR_BUFFER_OVERFLOW]. *)
Theorem fixed_writer_accepts_iff_fits `{Allocator} (ops : list write_op)
    (w : neoc_binary_writer_t) :
  writer_ok w -> w_auto_grow w = false ->
  w_position w + zlen (concat (map op_bytes ops)) <= stream_max ->
  fst (for_each exec_op ops w) =
  if w_position w + zlen (concat (map op_bytes ops)) <=? w_capacity w
  then Ok tt else Err NEOC_ERROR_BUFFER_OVERFLOW.
Proof.
  intros Hw Hg Hs.
  destruct (exec_ops_writes ops w Hw Hs)
    as (w' & [[-> X]|(e & pre & -> & Hp & X & He)]); cbn [fst].
  - destruct X as [[_ [_ Hp] _] _ Hf Hpos _]. rewrite Hf in Hp by done. cmps. done.
  - destruct He as [(-> & _ & Hlt)|(_ & Hg' & _)]; [cmps; done|congruence].
Qed.

Lemma fixed_writer_accepts_iff_fits_witness :
  fst (for_each (@exec_op mib_heap) [OpUint64 1; OpUint64 2] fixed16) = Ok tt.
Proof.
  apply (@fixed_writer_accepts_iff_fits mib_heap [OpUint64 1; OpUint64 2] fixed16).
  - apply fixed16_ok.
  - reflexivity.
  - vm_compute. discriminate.
Defined.
