(* ===== verification/BinaryReader.v ===== *)
(** * The binary reader (src/serialization/binary_reader.c)

    A cursor over an owned copy of a byte array, with a mark to return to.
    [reads m bs a] specifies a reading operation: at a position where the data
    continues with [bs], [m] returns [a] and moves past [bs]; [reader_safe m] says
    that [m] never reads outside the data, whatever the data holds. *)

From stdpp Require Import relations.
From S2P Require Import Prelude BinaryWriter.

(** ** Data and operations *)

(** [owned_data] of the C struct is the same buffer as [data]. *)
Record neoc_binary_reader_t := mk_reader {
  r_data : list byte;
  r_size : Z;
  r_position : Z;
  r_marker : Z
}.

Definition reader_struct_size : Z := 40.

Abbreviation Rd := (M neoc_binary_reader_t).

Definition set_position (p : Z) : Rd unit := fun r =>
  (Ok tt, mk_reader (r_data r) (r_size r) p (r_marker r)).

(** [reader->position += n] *)
Definition advance (n : Z) : Rd unit := fun r =>
  set_position (wrap 64 (r_position r + n)) r.

(** [reader->data[reader->position + i]], promoted. *)
Definition peek (i : Z) : Rd Z := fun r =>
  match buf_get (r_data r) (r_position r + i) with
  | Some b => (Ok (Z_of_byte b), r)
  | None => (Fault, r)
  end.

(** [if (reader->position + n > reader->size) return NEOC_ERROR_END_OF_STREAM;] *)
Definition require (n : Z) : Rd unit := fun r =>
  if r_size r <? wrap 64 (r_position r + n)
  then (Err NEOC_ERROR_END_OF_STREAM, r) else (Ok tt, r).

Section Operations.
Context `{Allocator}.

Definition neoc_binary_reader_create (data : option (list byte)) (size : Z)
  : res neoc_binary_reader_t :=
  match data with
  | None => Err NEOC_ERROR_INVALID_ARGUMENT
  | Some data =>
      if negb (malloc_ok reader_struct_size) then Err NEOC_ERROR_MEMORY
      else if negb (malloc_ok size) then Err NEOC_ERROR_MEMORY
      else
        match buf_slice data 0 size with
        | Some copy => Ok (mk_reader copy size 0 SIZE_MAX)
        | None => Fault
        end
  end.

Definition neoc_binary_reader_read_byte : Rd byte := fun r =>
  if r_size r <=? r_position r then (Err NEOC_ERROR_END_OF_STREAM, r)
  else (let! v := peek 0 in do! advance 1 in ret (byte_of_Z v)) r.

(** The bytes copied into the caller's buffer of [len] bytes. *)
Definition neoc_binary_reader_read_bytes (len : Z) : Rd (list byte) := fun r =>
  if len =? 0 then (Ok [], r)
  else
    (do! require len in
     let! r := get in
     match buf_slice (r_data r) (r_position r) len with
     | Some bs => do! advance len in ret bs
     | None => fault
     end) r.

Definition neoc_binary_reader_read_bool : Rd bool :=
  let! b := neoc_binary_reader_read_byte in
  ret (negb (Z_of_byte b =? 0)).

Definition neoc_binary_reader_read_uint16 : Rd Z :=
  do! require 2 in
  let! b0 := peek 0 in
  let! b1 := peek 1 in
  do! advance 2 in
  ret (Z.lor b0 (Z.shiftl b1 8)).

Definition neoc_binary_reader_read_uint32 : Rd Z :=
  do! require 4 in
  let! b0 := peek 0 in
  let! b1 := peek 1 in
  let! b2 := peek 2 in
  let! b3 := peek 3 in
  do! advance 4 in
  ret (Z.lor (Z.lor (Z.lor b0 (Z.shiftl b1 8)) (Z.shiftl b2 16)) (Z.shiftl b3 24)).

(** [for (i = 0; i < n; i++) *value |= (uint64_t)data[position + i] << (i * 8)] *)
Fixpoint or_bytes (idx : list Z) (value : Z) : Rd Z :=
  match idx with
  | [] => ret value
  | i :: idx =>
      let! b := peek i in or_bytes idx (Z.lor value (Z.shiftl b (i * 8)))
  end.

Definition neoc_binary_reader_read_uint64 : Rd Z :=
  do! require 8 in
  let! v := or_bytes [0; 1; 2; 3; 4; 5; 6; 7] 0 in
  do! advance 8 in
  ret v.

(** The signed readers store through a cast pointer: two's complement. *)
Definition neoc_binary_reader_read_int16 : Rd Z :=
  let! v := neoc_binary_reader_read_uint16 in ret (swrap 16 v).
Definition neoc_binary_reader_read_int32 : Rd Z :=
  let! v := neoc_binary_reader_read_uint32 in ret (swrap 32 v).
Definition neoc_binary_reader_read_int64 : Rd Z :=
  let! v := neoc_binary_reader_read_uint64 in ret (swrap 64 v).

Definition neoc_binary_reader_read_var_int : Rd Z :=
  let! prefix := neoc_binary_reader_read_byte in
  if Z_of_byte prefix <? 0xFD then ret (Z_of_byte prefix)
  else if Z_of_byte prefix =? 0xFD then neoc_binary_reader_read_uint16
  else if Z_of_byte prefix =? 0xFE then neoc_binary_reader_read_uint32
  else neoc_binary_reader_read_uint64.

(** The allocated copy and its length ([None] is NULL, with length 0). *)
Definition neoc_binary_reader_read_var_bytes : Rd (option (list byte)) :=
  let! length := neoc_binary_reader_read_var_int in
  if SIZE_MAX <? length then fail NEOC_ERROR_INVALID_FORMAT
  else if length =? 0 then ret None
  else if negb (malloc_ok length) then fail NEOC_ERROR_MEMORY
  else let! bs := neoc_binary_reader_read_bytes length in ret (Some bs).

(** The bytes of the allocated string before its terminator. *)
Definition neoc_binary_reader_read_var_string : Rd (list byte) :=
  let! data := neoc_binary_reader_read_var_bytes in
  match data with
  | None => if malloc_ok 1 then ret [] else fail NEOC_ERROR_MEMORY
  | Some bs =>
      if malloc_ok (wrap 64 (zlen bs + 1)) then ret bs else fail NEOC_ERROR_MEMORY
  end.

Definition neoc_binary_reader_get_position : Rd Z := fun r => (Ok (r_position r), r).

Definition neoc_binary_reader_get_remaining : Rd Z := fun r =>
  (Ok (if r_size r <=? r_position r then 0 else r_size r - r_position r), r).

Definition neoc_binary_reader_is_at_end : Rd bool := fun r =>
  (Ok (r_size r <=? r_position r), r).

Definition neoc_binary_reader_seek (position : Z) : Rd unit := fun r =>
  if r_size r <? position then (Err NEOC_ERROR_INVALID_ARGUMENT, r)
  else set_position position r.

Definition neoc_binary_reader_skip (count : Z) : Rd unit :=
  do! require count in advance count.

Definition neoc_binary_reader_mark : Rd unit := fun r =>
  (Ok tt, mk_reader (r_data r) (r_size r) (r_position r) (r_position r)).

Definition neoc_binary_reader_reset : Rd unit := fun r =>
  if r_marker r =? SIZE_MAX then (Err NEOC_ERROR_INVALID_STATE, r)
  else set_position (r_marker r) r.

Definition neoc_binary_reader_read_encoded_ec_point : Rd (list byte) :=
  let! b := neoc_binary_reader_read_byte in
  if (Z_of_byte b =? 0x02) || (Z_of_byte b =? 0x03) then
    if malloc_ok 33 then
      let! rest := neoc_binary_reader_read_bytes 32 in ret (b :: rest)
    else fail NEOC_ERROR_MEMORY
  else fail NEOC_ERROR_INVALID_DATA.

Definition neoc_binary_reader_read_push_data : Rd (list byte) :=
  let! b := neoc_binary_reader_read_byte in
  let! size :=
    (if Z_of_byte b =? 0x0C then
       let! size8 := neoc_binary_reader_read_byte in ret (Z_of_byte size8)
     else if Z_of_byte b =? 0x0D then neoc_binary_reader_read_uint16
     else if Z_of_byte b =? 0x0E then neoc_binary_reader_read_uint32
     else fail NEOC_ERROR_INVALID_DATA) in
  if size =? 0 then
    if malloc_ok 1 then ret [] else fail NEOC_ERROR_MEMORY
  else if negb (malloc_ok size) then fail NEOC_ERROR_MEMORY
  else neoc_binary_reader_read_bytes size.

Definition neoc_binary_reader_read_var_bytes_max (max_length : Z) : Rd (list byte) :=
  let! length := neoc_binary_reader_read_var_int in
  if max_length <? length then fail NEOC_ERROR_INVALID_DATA
  else if length =? 0 then
    if malloc_ok 1 then ret [] else fail NEOC_ERROR_MEMORY
  else if negb (malloc_ok length) then fail NEOC_ERROR_MEMORY
  else neoc_binary_reader_read_bytes length.

Definition neoc_binary_reader_read_var_int_max (max_value : Z) : Rd Z :=
  let! value := neoc_binary_reader_read_var_int in
  if max_value <? value then fail NEOC_ERROR_INVALID_DATA else ret value.

Definition neoc_binary_reader_read_push_string : Rd (list byte) :=
  let! data := neoc_binary_reader_read_push_data in
  if malloc_ok (wrap 64 (zlen data + 1)) then ret data else fail NEOC_ERROR_MEMORY.

(** The operand bytes (none for PUSH0) and the sign flag. *)
Definition neoc_binary_reader_read_push_big_int : Rd (list byte * bool) :=
  let! b := neoc_binary_reader_read_byte in
  let op := Z_of_byte b in
  if op =? 0x10 then ret ([], false)
  else if (0x11 <=? op) && (op <=? 0x20) then
    if malloc_ok 4 then ret (le_bytes 4 (op - 0x11 + 1), false)
    else fail NEOC_ERROR_MEMORY
  else if op =? 0x0F then
    if malloc_ok 4 then ret (le_bytes 4 1, true) else fail NEOC_ERROR_MEMORY
  else
    let! count :=
      (if op =? 0x00 then ret 1
       else if op =? 0x01 then ret 2
       else if op =? 0x02 then ret 4
       else if op =? 0x03 then ret 8
       else if op =? 0x04 then ret 16
       else if op =? 0x05 then ret 32
       else fail NEOC_ERROR_INVALID_DATA) in
    if negb (malloc_ok count) then fail NEOC_ERROR_MEMORY
    else
      let! data := neoc_binary_reader_read_bytes count in
      match buf_get data (count - 1) with
      | Some top => ret (data, negb (Z.land (Z_of_byte top) 0x80 =? 0))
      | None => fault
      end.

(** [result |= (uint32_t)data[i] << (i * 8)] over the operand *)
Fixpoint or_data (i : Z) (data : list byte) (result : Z) : Z :=
  match data with
  | [] => result
  | b :: data =>
      or_data (i + 1) data (Z.lor result (wrap 32 (Z.shiftl (Z_of_byte b) (i * 8))))
  end.

(** [-(int32_t)result] overflows on [INT32_MIN]. *)
Definition neoc_binary_reader_read_push_int : Rd Z :=
  let! '(data, is_negative) := neoc_binary_reader_read_push_big_int in
  if 4 <? zlen data then fail NEOC_ERROR_INVALID_DATA
  else
    let v := swrap 32 (or_data 0 data 0) in
    if is_negative then
      if v =? - 2 ^ 31 then fault else ret (- v)
    else ret v.

End Operations.

(** [n] readings in a row. *)
Fixpoint read_n {A} (n : nat) (m : Rd A) : Rd (list A) :=
  match n with
  | O => ret []
  | S n => let! x := m in let! l := read_n n m in ret (x :: l)
  end.

(** ** Specification *)

(** The representation invariant: the cursor and a set mark are inside the data. *)
Record reader_ok (r : neoc_binary_reader_t) : Prop := {
  reader_ok_size : r_size r = zlen (r_data r);
  reader_ok_position : 0 <= r_position r <= r_size r;
  reader_ok_marker : r_marker r = SIZE_MAX \/ 0 <= r_marker r <= r_size r;
  reader_ok_bound : r_size r < 2 ^ 63
}.

(** The reader after [n] bytes were consumed. *)
Definition moved (r : neoc_binary_reader_t) (n : Z) : neoc_binary_reader_t :=
  mk_reader (r_data r) (r_size r) (r_position r + n) (r_marker r).

(** [r] stands in front of [bs]. *)
Definition at_bytes (r : neoc_binary_reader_t) (bs : list byte) : Prop :=
  exists pre post, r_data r = pre ++ bs ++ post /\ r_position r = zlen pre.

Definition reads {A} (m : Rd A) (bs : list byte) (a : A) : Prop :=
  forall r, reader_ok r -> at_bytes r bs -> m r = (Ok a, moved r (zlen bs)).

(** Whatever the data, the operation does not fault, keeps the invariant, does not
    change the data or the mark, never moves backwards, and the value it returns
    satisfies [P]. *)
Definition safe_at {A} (m : Rd A) (P : A -> Prop) (r : neoc_binary_reader_t) : Prop :=
  let '(x, r') := m r in
  match x with Ok a => P a | Err _ => True | Fault => False end /\
  reader_ok r' /\ r_data r' = r_data r /\ r_position r <= r_position r' /\
  r_marker r' = r_marker r.

Definition reader_safe {A} (m : Rd A) (P : A -> Prop) : Prop :=
  forall r, reader_ok r -> safe_at m P r.

(** ** Lemmas on the cursor *)

Lemma moved_0 r : moved r 0 = r.
Proof. destruct r. unfold moved; cbn. rewrite Z.add_0_r. done. Qed.

Lemma moved_moved r a b : moved (moved r a) b = moved r (a + b).
Proof. unfold moved; cbn. rewrite Z.add_assoc. done. Qed.

Lemma at_bytes_room r bs :
  reader_ok r -> at_bytes r bs -> r_position r + zlen bs <= r_size r.
Proof.
  intros Hr (pre & post & E & P). rewrite (reader_ok_size r Hr), E, P. zlia.
Qed.

Lemma at_bytes_app_l r a b : at_bytes r (a ++ b) -> at_bytes r a.
Proof.
  intros (pre & post & E & P). exists pre, (b ++ post).
  rewrite <- !app_assoc in E. done.
Qed.

Lemma at_bytes_app_r r a b : at_bytes r (a ++ b) -> at_bytes (moved r (zlen a)) b.
Proof.
  intros (pre & post & E & P). exists (pre ++ a), post. cbn.
  rewrite E, P, <- !app_assoc, zlen_app. done.
Qed.

Lemma reader_ok_moved r n :
  reader_ok r -> 0 <= r_position r + n <= r_size r -> reader_ok (moved r n).
Proof. intros [] ?. split; done. Qed.

Lemma advance_moved r n :
  reader_ok r -> 0 <= r_position r + n <= r_size r -> advance n r = (Ok tt, moved r n).
Proof.
  intros [] ?. unfold advance, set_position. rewrite wrap_small by lia. done.
Qed.

Lemma require_ok r n :
  reader_ok r -> 0 <= n -> r_position r + n <= r_size r -> require n r = (Ok tt, r).
Proof. intros [] ? ?. unfold require. rewrite wrap_small by lia. cmps. done. Qed.

Lemma peek_at r i bs b :
  at_bytes r bs -> bs !! Z.to_nat i = Some b -> 0 <= i -> peek i r = (Ok (Z_of_byte b), r).
Proof.
  intros (pre & post & E & P) Hb Hi. unfold peek, buf_get.
  pose proof (zlen_nonneg pre). rewrite E, P. cmps.
  assert (Hl := lookup_lt_Some _ _ _ Hb). unfold zlen.
  rewrite lookup_app_r by lia. rewrite lookup_app_l by lia.
  replace (Z.to_nat _ - _)%nat with (Z.to_nat i) by lia. rewrite Hb. done.
Qed.

(** ** Composition *)

Lemma reads_ret {A} (a : A) : reads (ret a) [] a.
Proof. intros r _ _. rewrite zlen_nil, moved_0. done. Qed.

Lemma reads_bind {A B} (m : Rd A) (k : A -> Rd B) b1 b2 a b :
  reads m b1 a -> reads (k a) b2 b -> reads (bind m k) (b1 ++ b2) b.
Proof.
  intros H1 H2 r Hr Ha. pose proof (at_bytes_room _ _ Hr Ha) as Hroom.
  assert (reader_ok (moved r (zlen b1))) as Hr1.
  { apply reader_ok_moved; [done|]. destruct Hr. zlia. }
  rewrite (bind_ok _ _ _ _ _ (H1 r Hr (at_bytes_app_l _ _ _ Ha))).
  rewrite (H2 _ Hr1 (at_bytes_app_r _ _ _ Ha)), moved_moved, zlen_app. done.
Qed.

Lemma reads_lift {A B} (a : A) (k : A -> Rd B) bs b :
  reads (k a) bs b -> reads (bind (lift (Ok a)) k) bs b.
Proof. intros Hk r. apply (Hk r). Qed.

(** [m] fails with [err] at the bytes [bs]. *)
Definition read_fails {A} (m : Rd A) (bs : list byte) (err : neoc_error_t) : Prop :=
  forall r, reader_ok r -> at_bytes r bs -> fst (m r) = Err err.

Lemma fails_bind {A B} (m : Rd A) (k : A -> Rd B) b1 b2 a err :
  reads m b1 a -> read_fails (k a) b2 err -> read_fails (bind m k) (b1 ++ b2) err.
Proof.
  intros H1 H2 r Hr Ha. pose proof (at_bytes_room _ _ Hr Ha) as Hroom.
  assert (reader_ok (moved r (zlen b1))) as Hr1.
  { apply reader_ok_moved; [done|]. destruct Hr. zlia. }
  rewrite (bind_ok _ _ _ _ _ (H1 r Hr (at_bytes_app_l _ _ _ Ha))).
  apply (H2 _ Hr1 (at_bytes_app_r _ _ _ Ha)).
Qed.

Lemma reads_ret_bind {A B} (m : Rd A) (k : A -> Rd B) bs a b :
  reads m bs a -> k a = ret b -> reads (bind m k) bs b.
Proof.
  intros Hm Hk. rewrite <- (app_nil_r bs). eapply reads_bind; [done|].
  rewrite Hk. apply reads_ret.
Qed.

(** ** Each operation reads what the writer writes *)

Section Proofs.
Context `{Allocator}.

Lemma read_byte_reads b : reads neoc_binary_reader_read_byte [b] b.
Proof.
  intros r Hr Ha. pose proof (at_bytes_room _ _ Hr Ha) as Hroom.
  rewrite zlen_cons, zlen_nil in Hroom. unfold neoc_binary_reader_read_byte.
  pose proof (reader_ok_position _ Hr). cmps.
  rewrite (bind_ok _ _ _ _ _ (peek_at r 0 [b] b Ha eq_refl ltac:(lia))).
  rewrite (bind_ok _ _ _ _ _ (advance_moved r 1 Hr ltac:(lia))).
  unfold ret. rewrite byte_of_Z_of_byte. done.
Qed.

Lemma read_bytes_reads bs : reads (neoc_binary_reader_read_bytes (zlen bs)) bs bs.
Proof.
  intros r Hr Ha. pose proof (at_bytes_room _ _ Hr Ha) as Hroom.
  unfold neoc_binary_reader_read_bytes. destruct (_ =? 0) eqn:E; bdestruct.
  { rewrite (zlen_zero bs), zlen_nil, moved_0 by done. done. }
  pose proof (zlen_nonneg bs). pose proof (reader_ok_position _ Hr).
  rewrite (bind_ok _ _ _ _ _ (require_ok r (zlen bs) Hr ltac:(lia) Hroom)).
  unfold get at 1, bind at 1.
  destruct Ha as (pre & post & E1 & P). rewrite E1, P, buf_slice_app.
  rewrite (bind_ok _ _ _ _ _ (advance_moved r (zlen bs) Hr ltac:(lia))). done.
Qed.

Lemma read_bool_reads v :
  reads neoc_binary_reader_read_bool [if v : bool then Byte.x01 else Byte.x00] v.
Proof. eapply reads_ret_bind; [apply read_byte_reads|]. destruct v; done. Qed.

(** A fixed-size read: room, then the bytes, then the cursor. *)
Lemma reads_fixed {A} n (m : Rd A) bs a :
  zlen bs = n ->
  (forall r, at_bytes r bs -> m r = (do! advance n in ret a) r) ->
  reads (do! require n in m) bs a.
Proof.
  intros Hn Hb r Hr Ha. pose proof (at_bytes_room _ _ Hr Ha) as Hroom.
  pose proof (reader_ok_position _ Hr). pose proof (zlen_nonneg bs).
  rewrite (bind_ok _ _ _ _ _ (require_ok r n Hr ltac:(lia) ltac:(lia))).
  rewrite (Hb r Ha).
  rewrite (bind_ok _ _ _ _ _ (advance_moved r n Hr ltac:(lia))).
  rewrite Hn. done.
Qed.

(** The value assembled from bytes with shifts and [or]s. *)
Lemma lor_bytes a b k :
  0 <= k -> 0 <= a < 256 ^ k -> Z.lor a (Z.shiftl b (8 * k)) = a + 256 ^ k * b.
Proof.
  intros Hk Ha. assert (2 ^ (8 * k) = 256 ^ k) as E by (rewrite Z.pow_mul_r; done).
  rewrite lor_shiftl_add by (rewrite ?E; lia). rewrite E. lia.
Qed.

Ltac peeks Ha :=
  repeat match goal with
  | |- bind (peek ?i) _ _ = _ =>
      rewrite (bind_ok _ _ _ _ _ (peek_at _ i _ _ Ha eq_refl ltac:(lia)))
  end.

Lemma le_val_2 b0 b1 :
  Z.lor (Z_of_byte b0) (Z.shiftl (Z_of_byte b1) 8) = le_val [b0; b1].
Proof.
  pose proof (Z_of_byte_range b0). rewrite (lor_bytes _ _ 1) by lia.
  cbn [le_val]. lia.
Qed.

Lemma le_val_4 b0 b1 b2 b3 :
  Z.lor (Z.lor (Z.lor (Z_of_byte b0) (Z.shiftl (Z_of_byte b1) 8))
               (Z.shiftl (Z_of_byte b2) 16)) (Z.shiftl (Z_of_byte b3) 24)
  = le_val [b0; b1; b2; b3].
Proof.
  pose proof (Z_of_byte_range b0). pose proof (Z_of_byte_range b1).
  pose proof (Z_of_byte_range b2).
  rewrite (lor_bytes _ _ 1), (lor_bytes _ _ 2), (lor_bytes _ _ 3) by lia.
  cbn [le_val]. lia.
Qed.

Lemma read_uint16_raw b0 b1 :
  reads neoc_binary_reader_read_uint16 [b0; b1] (le_val [b0; b1]).
Proof.
  apply reads_fixed; [done|]. intros r Ha. peeks Ha. rewrite le_val_2. done.
Qed.

Lemma read_uint32_raw b0 b1 b2 b3 :
  reads neoc_binary_reader_read_uint32 [b0; b1; b2; b3] (le_val [b0; b1; b2; b3]).
Proof.
  apply reads_fixed; [done|]. intros r Ha. peeks Ha. rewrite le_val_4. done.
Qed.

(** The [or]-loop over consecutive bytes, starting at byte [k]. *)
Lemma or_bytes_spec r pre bs v k :
  at_bytes r (pre ++ bs) -> zlen pre = k -> 0 <= v < 256 ^ k ->
  or_bytes (map (fun i => k + Z.of_nat i) (seq 0 (length bs))) v r
  = (Ok (v + 256 ^ k * le_val bs), r).
Proof.
  revert pre v k. induction bs as [|b bs IH]; intros pre v k Ha Hk Hv.
  - cbn. unfold ret. do 2 f_equal. lia.
  - cbn [length seq map or_bytes]. rewrite Z.add_0_r.
    assert (peek k r = (Ok (Z_of_byte b), r)) as Hp.
    { eapply peek_at; [done| |subst; apply zlen_nonneg].
      subst. unfold zlen. rewrite Nat2Z.id, lookup_app_r, Nat.sub_diag by lia. done. }
    rewrite (bind_ok _ _ _ _ _ Hp), (Z.mul_comm k 8), lor_bytes
      by (subst; zlia || apply zlen_nonneg).
    pose proof (Z_of_byte_range b). pose proof (zlen_nonneg pre).
    rewrite <- seq_shift, map_map.
    replace (map _ (seq 0 (length bs)))
      with (map (fun i => (k + 1) + Z.of_nat i) (seq 0 (length bs)))
      by (apply map_ext; intros; lia).
    rewrite (IH (pre ++ [b])).
    + cbn [le_val]. rewrite Z.pow_add_r, Z.pow_1_r by lia. do 2 f_equal. lia.
    + rewrite <- app_assoc. done.
    + zlia.
    + rewrite Z.pow_add_r, Z.pow_1_r by lia. nia.
Qed.

Lemma read_uint64_raw bs :
  length bs = 8%nat -> reads neoc_binary_reader_read_uint64 bs (le_val bs).
Proof.
  intros Hl. apply reads_fixed; [unfold zlen; lia|]. intros r Ha.
  pose proof (or_bytes_spec r [] bs 0 0 Ha eq_refl ltac:(lia)) as Ho.
  rewrite Hl in Ho. cbn [seq map] in Ho.
  rewrite (bind_ok _ _ _ _ _ Ho), Z.pow_0_r, Z.mul_1_l, Z.add_0_l. done.
Qed.

(** Round trips with the fixed-size writers. *)
Lemma read_uint16_reads v :
  reads neoc_binary_reader_read_uint16 (le_bytes 2 v) (wrap 16 v).
Proof.
  replace (wrap 16 v) with (le_val (le_bytes 2 v)) by apply le_val_le_bytes.
  apply read_uint16_raw.
Qed.

Lemma read_uint32_reads v :
  reads neoc_binary_reader_read_uint32 (le_bytes 4 v) (wrap 32 v).
Proof.
  replace (wrap 32 v) with (le_val (le_bytes 4 v)) by apply le_val_le_bytes.
  apply read_uint32_raw.
Qed.

Lemma read_uint64_reads v :
  reads neoc_binary_reader_read_uint64 (le_bytes 8 v) (wrap 64 v).
Proof.
  replace (wrap 64 v) with (le_val (le_bytes 8 v)) by apply le_val_le_bytes.
  apply read_uint64_raw. apply length_le_bytes.
Qed.

Lemma read_int16_reads v :
  reads neoc_binary_reader_read_int16 (le_bytes 2 v) (swrap 16 v).
Proof.
  eapply reads_ret_bind; [apply read_uint16_reads|]. rewrite swrap_wrap by lia. done.
Qed.
Lemma read_int32_reads v :
  reads neoc_binary_reader_read_int32 (le_bytes 4 v) (swrap 32 v).
Proof.
  eapply reads_ret_bind; [apply read_uint32_reads|]. rewrite swrap_wrap by lia. done.
Qed.
Lemma read_int64_reads v :
  reads neoc_binary_reader_read_int64 (le_bytes 8 v) (swrap 64 v).
Proof.
  eapply reads_ret_bind; [apply read_uint64_reads|]. rewrite swrap_wrap by lia. done.
Qed.

Lemma read_var_int_reads v :
  0 <= v < 2 ^ 64 -> reads neoc_binary_reader_read_var_int (var_int_bytes v) v.
Proof.
  intros Hv. unfold var_int_bytes, neoc_binary_reader_read_var_int.
  destruct (v <? 0xFD) eqn:E1; bdestruct.
  { eapply reads_ret_bind; [apply read_byte_reads|].
    rewrite Z_of_byte_small by lia. cmps. done. }
  destruct (v <=? 0xFFFF) eqn:E2; bdestruct;
    [|destruct (v <=? 0xFFFFFFFF) eqn:E3; bdestruct];
    (eapply (reads_bind _ _ [_]); [apply read_byte_reads|]).
  - rewrite <- (wrap_small 16 v) at 2 by lia. apply read_uint16_reads.
  - rewrite <- (wrap_small 32 v) at 2 by lia. apply read_uint32_reads.
  - rewrite <- (wrap_small 64 v) at 2 by lia. apply read_uint64_reads.
Qed.

(** Reading back what [read_var_bytes] allocates: NULL for the empty string. *)
Definition as_pointer (bs : list byte) : option (list byte) :=
  match bs with [] => None | _ => Some bs end.

Lemma read_var_bytes_reads bs :
  zlen bs < 2 ^ 64 -> malloc_ok (zlen bs) = true ->
  reads neoc_binary_reader_read_var_bytes (var_bytes bs) (as_pointer bs).
Proof.
  intros Hl Hm. pose proof (zlen_nonneg bs).
  eapply reads_bind; [apply read_var_int_reads; lia|].
  unfold SIZE_MAX. cmp_false (2 ^ 64 - 1 <? zlen bs).
  destruct bs as [|b bs]; [apply reads_ret|].
  assert ((zlen (b :: bs) =? 0) = false) as -> by zlia. rewrite Hm. cbn [negb].
  eapply reads_ret_bind; [apply read_bytes_reads|]. done.
Qed.


Lemma read_var_string_reads bs :
  zlen bs < 2 ^ 63 -> malloc_ok (zlen bs) = true -> malloc_ok (zlen bs + 1) = true ->
  reads neoc_binary_reader_read_var_string (var_bytes bs) bs.
Proof.
  intros Hl Hm Hm1. eapply reads_ret_bind; [apply read_var_bytes_reads; [lia|done]|].
  destruct bs as [|b bs]; cbn [as_pointer].
  - rewrite zlen_nil in Hm1. change (0 + 1) with 1 in Hm1. rewrite Hm1. done.
  - rewrite wrap_small by zlia. rewrite Hm1. done.
Qed.

(** ** Safety *)

Lemma safe_weaken {A} (m : Rd A) (P Q : A -> Prop) :
  reader_safe m P -> (forall a, P a -> Q a) -> reader_safe m Q.
Proof.
  intros Hm HPQ r Hr. specialize (Hm r Hr). unfold safe_at in *.
  destruct (m r) as [[a|e|] r'], Hm as (? & ? & ? & ? & ?); split_and!; auto.
Qed.

(** A call that returns an error without touching the reader. *)
Lemma safe_err {A} (m : Rd A) P r e : reader_ok r -> m r = (Err e, r) -> safe_at m P r.
Proof. intros Hr E. unfold safe_at. rewrite E. split_and!; done || lia. Qed.

Lemma safe_ret {A} (a : A) (P : A -> Prop) : P a -> reader_safe (ret a) P.
Proof. intros Ha r Hr. unfold safe_at, ret. split_and!; done || lia. Qed.

Lemma safe_fail {A} e (P : A -> Prop) : reader_safe (fail e) P.
Proof. intros r Hr. unfold safe_at, fail. split_and!; done || lia. Qed.

Lemma safe_bind {A B} (m : Rd A) (k : A -> Rd B) P Q :
  reader_safe m P -> (forall a, P a -> reader_safe (k a) Q) -> reader_safe (bind m k) Q.
Proof.
  intros Hm Hk r Hr. specialize (Hm r Hr). unfold safe_at, bind in *.
  destruct (m r) as [[a|e|] r1]; destruct Hm as (Ha & Hr1 & D1 & P1 & M1); try done.
  specialize (Hk a Ha r1 Hr1). unfold safe_at in Hk. destruct (k a r1) as [x r2].
  destruct Hk as (? & ? & ? & ? & ?). split_and!; [done|done|congruence|lia|congruence].
Qed.

Lemma lift_safe {A} (x : res A) (P : A -> Prop) :
  match x with Ok a => P a | Err _ => True | Fault => False end -> reader_safe (lift x) P.
Proof. intros Hx r Hr. unfold safe_at, lift. split_and!; done || lia. Qed.

Lemma safe_then_ret {A B} (m : Rd A) (f : A -> B) (P : A -> Prop) (Q : B -> Prop) :
  reader_safe m P -> (forall a, P a -> Q (f a)) -> reader_safe (let! a := m in ret (f a)) Q.
Proof. intros Hm Hf. eapply safe_bind; [done|]. intros a Ha. apply safe_ret. auto. Qed.

(** One step of a reading session, for a property of the outcome that holds of
    every error. *)
Lemma safe_step {A B} (m : Rd A) (k : A -> Rd B) (P : A -> Prop)
    (post : res B * neoc_binary_reader_t -> Prop) r :
  reader_safe m P -> reader_ok r -> (forall e r', post (Err e, r')) ->
  (forall a r', P a -> reader_ok r' -> r_data r' = r_data r -> post (k a r')) ->
  post (bind m k r).
Proof.
  intros Hm Hr He Hk. specialize (Hm r Hr). unfold safe_at, bind in *.
  destruct (m r) as [[a|e|] r1]; destruct Hm as (? & ? & ? & _); [auto|auto|done].
Qed.

(** Enough room: the cursor stands in front of [n] bytes. *)
Lemma at_room r n :
  reader_ok r -> 0 <= n -> r_position r + n <= r_size r ->
  exists bs, zlen bs = n /\ at_bytes r bs.
Proof.
  intros [Hs [Hp0 Hp] _ _] Hn Hroom.
  exists (take (Z.to_nat n) (drop (Z.to_nat (r_position r)) (r_data r))).
  unfold zlen in *. split.
  - rewrite length_take, length_drop. lia.
  - exists (take (Z.to_nat (r_position r)) (r_data r)).
    exists (drop (Z.to_nat n) (drop (Z.to_nat (r_position r)) (r_data r))).
    rewrite !take_drop. split; [done|]. unfold zlen. rewrite length_take. lia.
Qed.

(** An operation that reads any [n] bytes is safe once there is room for them. *)
Lemma safe_reads {A} n (m : Rd A) (f : list byte -> A) (P : A -> Prop) r :
  0 <= n -> (forall bs, zlen bs = n -> reads m bs (f bs) /\ P (f bs)) ->
  reader_ok r -> r_position r + n <= r_size r -> safe_at m P r.
Proof.
  intros Hn Hm Hr Hroom. destruct (at_room r n Hr Hn Hroom) as (bs & Hl & Ha).
  destruct (Hm bs Hl) as [Hread HP]. unfold safe_at. rewrite (Hread r Hr Ha).
  split_and!; [done| |done|cbn; lia|done].
  apply reader_ok_moved; [done|]. pose proof (reader_ok_position _ Hr). lia.
Qed.

Lemma read_byte_safe : reader_safe neoc_binary_reader_read_byte (fun _ => True).
Proof.
  intros r Hr. pose proof (reader_ok_position _ Hr).
  destruct (Z_lt_le_dec (r_position r) (r_size r)).
  - apply (safe_reads 1 _ (fun bs => default Byte.x00 (bs !! 0%nat))); [done| |done|lia].
    intros [|b [|]] Hb; try (unfold zlen in Hb; cbn in Hb; lia).
    split; [apply read_byte_reads|done].
  - eapply safe_err; [done|]. unfold neoc_binary_reader_read_byte. cmps. done.
Qed.

(** A fixed-size read either has room and reads, or reports the end. *)
Lemma safe_require {A} n (m : Rd A) (f : list byte -> A) (P : A -> Prop) :
  0 <= n < 2 ^ 63 ->
  (forall bs, zlen bs = n -> reads (do! require n in m) bs (f bs) /\ P (f bs)) ->
  reader_safe (do! require n in m) P.
Proof.
  intros Hn Hm r Hr. destruct (Z_le_gt_dec (r_position r + n) (r_size r)).
  - apply (safe_reads n _ f); [lia|done..].
  - eapply safe_err; [done|]. unfold bind, require.
    pose proof (reader_ok_position _ Hr). pose proof (reader_ok_bound _ Hr).
    rewrite wrap_small by lia. cmps. done.
Qed.

Lemma le_val_range_n bs n : zlen bs = n -> 0 <= le_val bs < 256 ^ n.
Proof. intros <-. apply le_val_range. Qed.

Lemma read_uint16_safe :
  reader_safe neoc_binary_reader_read_uint16 (fun v => 0 <= v < 2 ^ 16).
Proof.
  apply (safe_require _ _ le_val); [lia|]. intros bs Hb.
  split; [|apply (le_val_range_n bs 2 Hb)].
  destruct bs as [|b0 [|b1 [|]]]; try (unfold zlen in Hb; cbn in Hb; lia).
  apply read_uint16_raw.
Qed.

Lemma read_uint32_safe :
  reader_safe neoc_binary_reader_read_uint32 (fun v => 0 <= v < 2 ^ 32).
Proof.
  apply (safe_require _ _ le_val); [lia|]. intros bs Hb.
  split; [|apply (le_val_range_n bs 4 Hb)].
  destruct bs as [|b0 [|b1 [|b2 [|b3 [|]]]]]; try (unfold zlen in Hb; cbn in Hb; lia).
  apply read_uint32_raw.
Qed.

Lemma read_uint64_safe :
  reader_safe neoc_binary_reader_read_uint64 (fun v => 0 <= v < 2 ^ 64).
Proof.
  apply (safe_require _ _ le_val); [lia|]. intros bs Hb.
  split; [|apply (le_val_range_n bs 8 Hb)].
  apply read_uint64_raw. unfold zlen in Hb. lia.
Qed.

Lemma read_int16_safe : reader_safe neoc_binary_reader_read_int16 (fun _ => True).
Proof. eapply safe_then_ret; [apply read_uint16_safe|done]. Qed.

Lemma read_int32_safe : reader_safe neoc_binary_reader_read_int32 (fun _ => True).
Proof. eapply safe_then_ret; [apply read_uint32_safe|done]. Qed.

Lemma read_int64_safe : reader_safe neoc_binary_reader_read_int64 (fun _ => True).
Proof. eapply safe_then_ret; [apply read_uint64_safe|done]. Qed.

Lemma read_bytes_safe len :
  0 <= len < 2 ^ 63 ->
  reader_safe (neoc_binary_reader_read_bytes len) (fun bs => zlen bs = len).
Proof.
  intros Hl r Hr. destruct (len =? 0) eqn:E; bdestruct.
  { subst. unfold safe_at, neoc_binary_reader_read_bytes. split_and!; done || lia. }
  destruct (Z_le_gt_dec (r_position r + len) (r_size r)).
  - apply (safe_reads len _ (fun bs => bs)); [lia| |done..].
    intros bs <-. split; [apply read_bytes_reads|done].
  - eapply safe_err; [done|]. unfold neoc_binary_reader_read_bytes, bind, require.
    pose proof (reader_ok_position _ Hr). pose proof (reader_ok_bound _ Hr).
    rewrite wrap_small by lia. cmps. done.
Qed.

Lemma read_var_int_safe :
  reader_safe neoc_binary_reader_read_var_int (fun v => 0 <= v < 2 ^ 64).
Proof.
  eapply safe_bind; [apply read_byte_safe|]. intros b _.
  pose proof (Z_of_byte_range b). destruct (_ <? _); [apply safe_ret; lia|].
  destruct (_ =? _).
  { eapply safe_weaken; [apply read_uint16_safe|]. cbn. lia. }
  destruct (_ =? _); [|apply read_uint64_safe].
  eapply safe_weaken; [apply read_uint32_safe|]. cbn. lia.
Qed.

Lemma read_bool_safe : reader_safe neoc_binary_reader_read_bool (fun _ => True).
Proof. eapply safe_bind; [apply read_byte_safe|]. intros. by apply safe_ret. Qed.

Lemma safe_map {A B} (m : Rd A) (f : A -> B) P :
  reader_safe m P -> reader_safe (let! v := m in ret (f v)) (fun _ => True).
Proof. intros. eapply safe_bind; [done|]. intros. by apply safe_ret. Qed.

(** [malloc] of a length read from the stream bounds the length. *)
Lemma safe_alloc {A} n (m : Rd A) P :
  heap_bounded -> (n < 2 ^ 63 -> reader_safe m P) ->
  reader_safe (if negb (malloc_ok n) then fail NEOC_ERROR_MEMORY else m) P.
Proof.
  intros Hb Hm. destruct (malloc_ok n) eqn:E; [|apply safe_fail].
  apply Hm. by apply Hb.
Qed.

Lemma safe_guard {A} (b : bool) (m : Rd A) e P :
  reader_safe m P -> reader_safe (if b then m else fail e) P.
Proof. intros. destruct b; [done|apply safe_fail]. Qed.

Hypothesis Hheap : heap_bounded.

(** The bytes that are read have been allocated before. *)
Lemma read_var_bytes_granted :
  reader_safe neoc_binary_reader_read_var_bytes
    (fun o => match o with Some s => 0 < zlen s /\ malloc_ok (zlen s) = true | None => True end).
Proof.
  eapply safe_bind; [apply read_var_int_safe|]. cbn. intros n Hn.
  destruct (_ <? _); [apply safe_fail|].
  destruct (_ =? _) eqn:E0; bdestruct; [by apply safe_ret|].
  destruct (malloc_ok n) eqn:Em; [|apply safe_fail]. cbn [negb]. pose proof (Hheap n Em).
  eapply safe_bind; [apply read_bytes_safe; lia|]. cbn. intros bs <-. apply safe_ret. split; [lia|done].
Qed.

Lemma read_var_bytes_safe :
  reader_safe neoc_binary_reader_read_var_bytes (fun _ => True).
Proof. eapply safe_weaken; [apply read_var_bytes_granted|done]. Qed.

Lemma read_var_string_safe :
  reader_safe neoc_binary_reader_read_var_string (fun _ => True).
Proof.
  eapply safe_bind; [apply read_var_bytes_safe|]. cbn. intros [bs|] _;
    apply safe_guard; by apply safe_ret.
Qed.

Lemma read_encoded_ec_point_safe :
  reader_safe neoc_binary_reader_read_encoded_ec_point (fun bs => zlen bs = 33).
Proof.
  eapply safe_bind; [apply read_byte_safe|]. intros b _.
  apply safe_guard, safe_guard. eapply safe_bind; [apply read_bytes_safe; lia|].
  cbn. intros bs Hb. apply safe_ret. zlia.
Qed.

Lemma read_push_data_safe :
  reader_safe neoc_binary_reader_read_push_data (fun _ => True).
Proof.
  eapply safe_bind; [apply read_byte_safe|]. intros b _.
  apply (safe_bind _ _ (fun v => 0 <= v < 2 ^ 32)).
  - destruct (_ =? _).
    { eapply safe_bind; [apply read_byte_safe|]. intros c _. apply safe_ret.
      pose proof (Z_of_byte_range c). lia. }
    destruct (_ =? _).
    { eapply safe_weaken; [apply read_uint16_safe|]. cbn. lia. }
    apply safe_guard. apply read_uint32_safe.
  - intros n Hn. destruct (_ =? _); [apply safe_guard; by apply safe_ret|].
    apply safe_alloc; [done|]. intros.
    eapply safe_weaken; [apply read_bytes_safe; lia|done].
Qed.

Lemma read_var_bytes_max_safe n :
  reader_safe (neoc_binary_reader_read_var_bytes_max n) (fun bs => zlen bs <= n).
Proof.
  eapply safe_bind; [apply read_var_int_safe|]. cbn. intros v Hv.
  destruct (_ <? _) eqn:E; bdestruct; [apply safe_fail|].
  destruct (_ =? _); [apply safe_guard, safe_ret; zlia|].
  apply safe_alloc; [done|]. intros.
  eapply safe_weaken; [apply read_bytes_safe; lia|]. cbn. lia.
Qed.

Lemma read_var_int_max_safe n :
  reader_safe (neoc_binary_reader_read_var_int_max n) (fun v => 0 <= v <= n).
Proof.
  eapply safe_bind; [apply read_var_int_safe|]. cbn. intros v Hv.
  destruct (_ <? _) eqn:E; bdestruct; [apply safe_fail|apply safe_ret; lia].
Qed.

Lemma read_push_string_safe :
  reader_safe neoc_binary_reader_read_push_string (fun _ => True).
Proof.
  eapply safe_bind; [apply read_push_data_safe|]. intros. apply safe_guard.
  by apply safe_ret.
Qed.

Lemma read_push_big_int_safe :
  reader_safe neoc_binary_reader_read_push_big_int (fun _ => True).
Proof.
  eapply safe_bind; [apply read_byte_safe|]. intros b _. cbv zeta.
  destruct (_ =? _); [by apply safe_ret|].
  destruct (andb _ _); [apply safe_guard; by apply safe_ret|].
  destruct (_ =? _); [apply safe_guard; by apply safe_ret|].
  apply (safe_bind _ _ (fun v => 1 <= v <= 32)).
  - repeat (destruct (_ =? _); [apply safe_ret; lia|]). apply safe_fail.
  - intros n Hn. apply safe_alloc; [done|]. intros.
    eapply safe_bind; [apply read_bytes_safe; lia|]. cbn. intros bs Hb.
    unfold buf_get. cmps. destruct (bs !! _) eqn:E; [by apply safe_ret|].
    apply lookup_ge_None in E. unfold zlen in Hb. lia.
Qed.
End Proofs.

#[export] Hint Resolve read_byte_reads read_bytes_reads read_bool_reads
  read_uint16_reads read_uint32_reads read_uint64_reads
  read_int16_reads read_int32_reads read_int64_reads read_var_int_reads
  read_var_bytes_reads read_var_string_reads reads_ret reads_bind : neoc.

Lemma reader_create_ok `{Allocator} data :
  zlen data < 2 ^ 63 -> malloc_ok reader_struct_size = true ->
  malloc_ok (zlen data) = true ->
  exists r, neoc_binary_reader_create (Some data) (zlen data) = Ok r /\
            reader_ok r /\ r_data r = data /\ r_position r = 0.
Proof.
  intros Hl Hs Hm. unfold neoc_binary_reader_create. rewrite Hs, Hm. cbn [negb].
  pose proof (buf_slice_app [] data []) as Hb. rewrite app_nil_r in Hb.
  change ([] ++ data) with data in Hb. change (zlen []) with 0 in Hb. rewrite Hb.
  eexists; split_and!; [done| |done..].
  pose proof (zlen_nonneg data). split; cbn; try done; lia || (left; done).
Qed.

Lemma write_pointer_writes `{Allocator} bs :
  writes (neoc_binary_writer_write_var_bytes (as_pointer bs) (zlen bs)) (var_bytes bs).
Proof. destruct bs; [apply write_var_bytes_null_writes|apply write_var_bytes_writes]. Qed.

(** ** Readings in a row *)

Lemma read_n_reads_map {A B} (m : Rd B) (enc : A -> list byte) (g : A -> B) l :
  Forall (fun x => reads m (enc x) (g x)) l ->
  reads (read_n (length l) m) (concat (map enc l)) (map g l).
Proof.
  induction 1 as [|x l Hx _ IH]; cbn; [apply reads_ret|].
  eapply reads_bind; [done|]. by eapply reads_ret_bind.
Qed.

Lemma read_n_reads {A} (m : Rd A) (enc : A -> list byte) l :
  Forall (fun x => reads m (enc x) x) l -> reads (read_n (length l) m) (concat (map enc l)) l.
Proof. intros Hl. rewrite <- (map_id l) at 3. by apply read_n_reads_map. Qed.

Lemma read_n_safe {A} n (m : Rd A) P :
  reader_safe m P -> reader_safe (read_n n m) (fun l => zlen l = Z.of_nat n /\ Forall P l).
Proof.
  intros Hm. induction n as [|n IH]; cbn [read_n];
    [apply safe_ret; by split|].
  eapply safe_bind; [exact Hm|]. intros a Ha. eapply safe_bind; [exact IH|]. intros l [Hl HP].
  apply safe_ret. rewrite zlen_cons. split; [lia|by constructor].
Qed.

(** ** Round trip of a stream of operations *)

(** The values the C types can hold. *)
Definition op_in_range (op : write_op) : Prop :=
  match op with
  | OpUint16 v => 0 <= v < 2 ^ 16
  | OpUint32 v => 0 <= v < 2 ^ 32
  | OpUint64 v | OpVarInt v => 0 <= v < 2 ^ 64
  | OpInt16 v => - 2 ^ 15 <= v < 2 ^ 15
  | OpInt32 v => - 2 ^ 31 <= v < 2 ^ 31
  | OpInt64 v => - 2 ^ 63 <= v < 2 ^ 63
  | OpVarString None => False
  | _ => True
  end.

(** The read that corresponds to a write; only the kind of [op] (and the length
    of a raw block) is used. *)
Definition read_op `{Allocator} (op : write_op) : Rd write_op :=
  match op with
  | OpByte _ => let! b := neoc_binary_reader_read_byte in ret (OpByte b)
  | OpBytes bs =>
      let! x := neoc_binary_reader_read_bytes (zlen bs) in ret (OpBytes x)
  | OpBool _ => let! v := neoc_binary_reader_read_bool in ret (OpBool v)
  | OpUint16 _ => let! v := neoc_binary_reader_read_uint16 in ret (OpUint16 v)
  | OpUint32 _ => let! v := neoc_binary_reader_read_uint32 in ret (OpUint32 v)
  | OpUint64 _ => let! v := neoc_binary_reader_read_uint64 in ret (OpUint64 v)
  | OpInt16 _ => let! v := neoc_binary_reader_read_int16 in ret (OpInt16 v)
  | OpInt32 _ => let! v := neoc_binary_reader_read_int32 in ret (OpInt32 v)
  | OpInt64 _ => let! v := neoc_binary_reader_read_int64 in ret (OpInt64 v)
  | OpVarInt _ => let! v := neoc_binary_reader_read_var_int in ret (OpVarInt v)
  | OpVarBytes _ =>
      let! x := neoc_binary_reader_read_var_bytes in ret (OpVarBytes (default [] x))
  | OpVarString _ =>
      let! x := neoc_binary_reader_read_var_string in ret (OpVarString (Some x))
  end.

Fixpoint read_ops `{Allocator} (ops : list write_op) : Rd (list write_op) :=
  match ops with
  | [] => ret []
  | op :: ops => let! x := read_op op in let! xs := read_ops ops in ret (x :: xs)
  end.

Section Streams.
Context `{Allocator}.

Lemma read_op_reads op :
  op_in_range op -> zlen (op_bytes op) < 2 ^ 63 ->
  heap_serves (zlen (op_bytes op)) -> reads (read_op op) (op_bytes op) op.
Proof.
  intros Hr Hl Hh. unfold heap_serves in Hh.
  destruct op; cbn [read_op op_bytes op_in_range] in *;
    try (eapply reads_ret_bind; [eauto with neoc; fail|done]);
    try (eapply reads_ret_bind;
         [eauto with neoc|rewrite ?wrap_small, ?swrap_small by lia; done]).
  - assert (zlen bs <= zlen (var_bytes bs)) by (unfold var_bytes; zlia).
    eapply reads_ret_bind;
      [apply read_var_bytes_reads; [lia|apply Hh; note_zlen; lia]|].
    destruct bs; done.
  - destruct s as [s|]; [cbn [default id] in *; unfold id in *|done].
    assert (zlen s + 1 <= zlen (var_bytes s)).
    { unfold var_bytes. rewrite zlen_app. unfold var_int_bytes.
      repeat destruct (_ <? _); repeat destruct (_ <=? _); zlia. }
    eapply reads_ret_bind; [|done].
    apply read_var_string_reads; [lia|apply Hh; note_zlen; lia..].
Qed.

Lemma read_ops_reads ops :
  Forall op_in_range ops -> zlen (concat (map op_bytes ops)) < 2 ^ 63 ->
  heap_serves (zlen (concat (map op_bytes ops))) ->
  reads (read_ops ops) (concat (map op_bytes ops)) ops.
Proof.
  induction 1 as [|op ops Ho _ IH]; cbn [map concat read_ops]; intros Hl Hh;
    [apply reads_ret|]. rewrite zlen_app in *. note_zlen.
  eapply reads_bind; [apply read_op_reads; [done|lia|]|].
  - intros m Hm. apply Hh. lia.
  - eapply reads_ret_bind; [apply IH; [lia|]|done]. intros m Hm. apply Hh. lia.
Qed.

(** C6.  Round trip of the whole wire format: any sequence of typed writes, read
    back with the matching typed reads from the array the writer returns, yields
    the values that were written, in order, for every value the C types can
    hold. *)
Theorem stream_roundtrip capacity (ops : list write_op) :
  Forall op_in_range ops ->
  capacity <= 1024 -> zlen (concat (map op_bytes ops)) <= stream_max ->
  heap_serves (Z.max 1024 (2 * zlen (concat (map op_bytes ops)))) ->
  (let? data := serialize_with capacity (for_each exec_op ops) in
   let? r := neoc_binary_reader_create (Some data) (zlen data) in
   fst (read_ops ops r)) = Ok ops.
Proof.
  intros Hops Hc Hs Hh. unfold stream_max in Hs. set (bs := concat _) in *.
  pose proof (zlen_nonneg bs).
  rewrite (serialize_with_ok capacity _ bs (exec_ops_writes ops)) by (done || lia).
  cbn [rbind].
  destruct (reader_create_ok bs) as (r & -> & Hr & Hd & Hp);
    [lia|apply Hh; unfold reader_struct_size; lia|apply Hh; lia|].
  cbn [rbind]. rewrite (read_ops_reads ops); [done|done|fold bs; lia| |done|].
  - eapply heap_serves_mono; [done|]. fold bs. lia.
  - exists [], []. rewrite Hd, Hp, app_nil_r. done.
Qed.
End Streams.

Lemma stream_roundtrip_witness :
  let ops := [OpInt32 (-5); OpVarInt 70000; OpVarString (Some (str "neo"%string))] in
  (let? data := @serialize_with mib_heap 8 (for_each (@exec_op mib_heap) ops) in
   let? r := @neoc_binary_reader_create mib_heap (Some data) (zlen data) in
   fst (@read_ops mib_heap ops r)) = Ok ops.
Proof.
  apply (@stream_roundtrip mib_heap 8
           [OpInt32 (-5); OpVarInt 70000; OpVarString (Some (str "neo"%string))]).
  - repeat constructor; vm_compute; discriminate.
  - lia.
  - vm_compute. discriminate.
  - apply mib_heap_serves. vm_compute. discriminate.
Defined.

(** ** The operand of an integer *)

Section PushOperand.
Context `{Allocator}.

Lemma or_data_spec i data acc :
  0 <= i -> i + zlen data <= 4 -> 0 <= acc < 256 ^ i ->
  or_data i data acc = acc + 256 ^ i * le_val data.
Proof.
  revert i acc. induction data as [|b data IH]; intros i acc Hi Hl Ha;
    cbn [or_data le_val]; [lia|].
  rewrite zlen_cons in Hl. pose proof (Z_of_byte_range b). pose proof (zlen_nonneg data).
  assert (256 ^ (i + 1) = 256 * 256 ^ i) as Hp by (rewrite <- Z.pow_succ_r; [f_equal|]; lia).
  assert (256 * 256 ^ i <= 2 ^ 32) as Hm.
  { rewrite <- Hp. change (2 ^ 32) with (256 ^ 4). apply Z.pow_le_mono_r; lia. }
  assert (2 ^ (i * 8) = 256 ^ i) as Hq by (rewrite Z.mul_comm, Z.pow_mul_r; done).
  rewrite wrap_small by (rewrite Z.shiftl_mul_pow2, Hq by lia; nia).
  rewrite (Z.mul_comm i 8), lor_bytes by lia. rewrite IH; [|lia|lia|rewrite Hp; nia].
  rewrite Hp. lia.
Qed.

Lemma at_bytes_join r a b : at_bytes r a -> at_bytes (moved r (zlen a)) b -> at_bytes r (a ++ b).
Proof.
  intros (pre & post & E & P) (pre' & post' & E' & P'). cbn in E', P'. rewrite E, P in *.
  rewrite app_assoc in E'. apply app_inj_1 in E' as [<- ->]; [|unfold zlen in *; rewrite length_app; lia].
  exists pre, post'. by rewrite <- app_assoc.
Qed.

(** What [read_bytes] returns stood at the cursor. *)
Lemma read_bytes_position n r d r1 :
  reader_ok r -> 0 < n < 2 ^ 63 -> neoc_binary_reader_read_bytes n r = (Ok d, r1) -> at_bytes r d /\ zlen d = n.
Proof.
  intros Hr Hn E. pose proof (reader_ok_position _ Hr). pose proof (reader_ok_bound _ Hr).
  destruct (Z_le_gt_dec (r_position r + n) (r_size r)) as [Hroom|Hroom].
  - destruct (at_room r n Hr ltac:(lia) Hroom) as (bs & Hl & Ha). pose proof (read_bytes_reads bs r Hr Ha) as Hb.
    rewrite Hl, E in Hb. injection Hb as -> _. done.
  - unfold neoc_binary_reader_read_bytes, bind, require in E. rewrite wrap_small in E by lia.
    replace (n =? 0) with false in E by lia. by replace (r_size r <? r_position r + n) with true in E by lia.
Qed.

(** The only operand of four bytes that is read from the data is that of PUSHINT32. *)
Lemma push_big_int_operand r data neg r1 :
  reader_ok r -> neoc_binary_reader_read_push_big_int r = (Ok (data, neg), r1) -> zlen data = 4 ->
  (exists k, 1 <= k <= 16 /\ data = le_bytes 4 k) \/ at_bytes r (Byte.x02 :: data).
Proof.
  intros Hr E Hd. pose proof (reader_ok_position _ Hr). unfold neoc_binary_reader_read_push_big_int in E.
  destruct (Z_lt_le_dec (r_position r) (r_size r)) as [Hroom|Hroom].
  2: { unfold neoc_binary_reader_read_byte, bind in E. by replace (r_size r <=? r_position r) with true in E by lia. }
  destruct (at_room r 1 Hr ltac:(lia) ltac:(lia)) as ([|b [|? ?]] & Hl & Ha);
    [done| |unfold zlen in Hl; cbn in Hl; lia].
  rewrite (bind_ok _ _ _ _ _ (read_byte_reads b r Hr Ha)) in E. cbv zeta in E.
  assert (reader_ok (moved r (zlen [b]))) as Hr1 by (apply reader_ok_moved; [done|]; rewrite Hl; lia).
  destruct (Z_of_byte b =? 16) in E; [by injection E as <- _ _|].
  destruct ((17 <=? Z_of_byte b) && (Z_of_byte b <=? 32)) eqn:E17 in E.
  { destruct (malloc_ok 4); [|done]. injection E as <- _ _. left. eexists. split; [|done]. lia. }
  destruct (Z_of_byte b =? 15) in E.
  { destruct (malloc_ok 4); [|done]. injection E as <- _ _. left. by exists 1. }
  assert (forall n, 0 < n < 2 ^ 63 ->
    (if negb (malloc_ok n) then fail NEOC_ERROR_MEMORY
     else let! data := neoc_binary_reader_read_bytes n in
          match buf_get data (n - 1) with
          | Some top => ret (data, negb (Z.land (Z_of_byte top) 0x80 =? 0))
          | None => fault
          end) (moved r (zlen [b])) = (Ok (data, neg), r1) -> n = 4 /\ at_bytes (moved r (zlen [b])) data) as Hcount.
  { intros n Hn. destruct (malloc_ok n); [|done]. cbn [negb]. unfold bind.
    destruct (neoc_binary_reader_read_bytes n _) as [[d|e|] r2] eqn:Eb; [|done|done].
    apply read_bytes_position in Eb as [Hat Hdl]; [|done|done]. destruct (buf_get d (n - 1)); [|done].
    intros [= -> _ _]. split; [lia|done]. }
  destruct (Z_of_byte b =? 0) in E; [apply Hcount in E; [lia|lia]|].
  destruct (Z_of_byte b =? 1) in E; [apply Hcount in E; [lia|lia]|].
  destruct (Z.eqb_spec (Z_of_byte b) 2) as [Eb|_] in E.
  { apply Hcount in E as [_ Hat]; [|lia]. right. apply (at_bytes_join r [b] data) in Hat; [|done].
    by replace Byte.x02 with b by (by apply Z_of_byte_inj). }
  destruct (Z_of_byte b =? 3) in E; [apply Hcount in E; [lia|lia]|].
  destruct (Z_of_byte b =? 4) in E; [apply Hcount in E; [lia|lia]|].
  destruct (Z_of_byte b =? 5) in E; [apply Hcount in E; [lia|lia]|done].
Qed.

(** PUSHINT32 of [INT32_MIN]. *)
Definition int_min_push : list byte := [Byte.x02; Byte.x00; Byte.x00; Byte.x00; Byte.x80].

Lemma read_push_int_safe r : heap_bounded -> reader_ok r ->
  let '(x, r') := neoc_binary_reader_read_push_int r in
  (x = Fault -> at_bytes r int_min_push) /\ reader_ok r' /\ r_data r' = r_data r /\ r_marker r' = r_marker r.
Proof.
  intros Hheap Hr. pose proof (read_push_big_int_safe Hheap r Hr) as Hs. unfold safe_at, neoc_binary_reader_read_push_int, bind in *.
  destruct (neoc_binary_reader_read_push_big_int r) as [[[data neg]|e|] r1] eqn:E; destruct Hs as (Hx & Hr1 & Hd & _ & Hm);
    [|done|done].
  destruct (Z.ltb_spec 4 (zlen data)) as [|Hl]; [done|]. cbv zeta. destruct neg; [|done].
  destruct (Z.eqb_spec (swrap 32 (or_data 0 data 0)) (- 2 ^ 31)) as [Ev|_]; [|done].
  split; [intros _|done]. pose proof (zlen_nonneg data). rewrite or_data_spec in Ev by lia.
  rewrite Z.mul_1_l, Z.add_0_l in Ev. pose proof (le_val_range data) as Hv.
  assert (256 ^ zlen data <= 2 ^ 32) as Hle by (change (2 ^ 32) with (256 ^ 4); apply Z.pow_le_mono_r; lia).
  assert (le_val data = 2 ^ 31) as Hval.
  { unfold swrap, wrap in Ev. rewrite Z.mod_small in Ev by lia. change (32 - 1) with 31 in Ev.
    destruct (Z.ltb_spec (le_val data) (2 ^ 31)); lia. }
  assert (zlen data = 4) as H4.
  { destruct (Z_lt_le_dec (zlen data) 4) as [Hlt|]; [|lia].
    assert (256 ^ zlen data <= 256 ^ 3) as Hp by (apply Z.pow_le_mono_r; lia). change (256 ^ 3) with (2 ^ 24) in Hp. lia. }
  assert (data = [Byte.x00; Byte.x00; Byte.x00; Byte.x80]) as Ed.
  { rewrite <- (le_bytes_le_val data), Hval. unfold zlen in H4. by replace (length data) with 4%nat by lia. }
  destruct (push_big_int_operand r data true r1 Hr E H4) as [(k & Hk & Ek)|Ha]; [|by rewrite Ed in Ha].
  rewrite Ek, le_val_le_bytes in Hval. change (256 ^ Z.of_nat 4) with (2 ^ 32) in Hval.
  rewrite Z.mod_small in Hval by lia. lia.
Qed.
End PushOperand.

(** ** Safety of arbitrary sessions *)

(** A request of a client, its result dropped: the session goes on after an
    error, as the callers of the C API may do. *)
Inductive read_request : Type :=
| ReqByte | ReqBytes (n : Z) | ReqBool | ReqUint16 | ReqUint32 | ReqUint64
| ReqVarInt | ReqVarIntMax (n : Z) | ReqVarBytes | ReqVarBytesMax (n : Z)
| ReqInt16 | ReqInt32 | ReqInt64
| ReqVarString | ReqECPoint | ReqPushData | ReqPushString | ReqPushBigInt | ReqPushInt
| ReqSkip (n : Z) | ReqSeek (n : Z) | ReqMark | ReqReset.

(** Counts and positions are [size_t]; no object, hence no buffer to fill, exceeds
    PTRDIFF_MAX. *)
Definition request_ok (q : read_request) : Prop :=
  match q with
  | ReqBytes n => 0 <= n < 2 ^ 63
  | ReqSkip n | ReqSeek n => 0 <= n < 2 ^ 64
  | _ => True
  end.

(** The requests that leave the mark alone. *)
Definition forward (q : read_request) : bool :=
  match q with ReqMark => false | _ => true end.

(** The requests that are defined whatever the data. *)
Definition always_defined (q : read_request) : bool :=
  match q with ReqPushInt => false | _ => true end.

Definition drop_value {S A} (m : M S A) : M S unit := let! _x := m in ret tt.

Definition serve `{Allocator} (q : read_request) : Rd unit :=
  match q with
  | ReqByte => drop_value neoc_binary_reader_read_byte
  | ReqBytes n => drop_value (neoc_binary_reader_read_bytes n)
  | ReqBool => drop_value neoc_binary_reader_read_bool
  | ReqUint16 => drop_value neoc_binary_reader_read_uint16
  | ReqUint32 => drop_value neoc_binary_reader_read_uint32
  | ReqUint64 => drop_value neoc_binary_reader_read_uint64
  | ReqVarInt => drop_value neoc_binary_reader_read_var_int
  | ReqVarIntMax n => drop_value (neoc_binary_reader_read_var_int_max n)
  | ReqVarBytes => drop_value neoc_binary_reader_read_var_bytes
  | ReqVarBytesMax n => drop_value (neoc_binary_reader_read_var_bytes_max n)
  | ReqVarString => drop_value neoc_binary_reader_read_var_string
  | ReqECPoint => drop_value neoc_binary_reader_read_encoded_ec_point
  | ReqPushData => drop_value neoc_binary_reader_read_push_data
  | ReqPushString => drop_value neoc_binary_reader_read_push_string
  | ReqPushBigInt => drop_value neoc_binary_reader_read_push_big_int
  | ReqPushInt => drop_value neoc_binary_reader_read_push_int
  | ReqInt16 => drop_value neoc_binary_reader_read_int16
  | ReqInt32 => drop_value neoc_binary_reader_read_int32
  | ReqInt64 => drop_value neoc_binary_reader_read_int64
  | ReqSkip n => neoc_binary_reader_skip n
  | ReqSeek n => neoc_binary_reader_seek n
  | ReqMark => neoc_binary_reader_mark
  | ReqReset => neoc_binary_reader_reset
  end.

(** One step of a session: the reader after a request that did not fault. *)
Inductive reader_step `{Allocator} : neoc_binary_reader_t -> neoc_binary_reader_t -> Prop :=
| reader_step_serve q r x r' :
    request_ok q -> serve q r = (x, r') -> x <> Fault -> reader_step r r'.

Section Sessions.
Context `{Allocator}.
Hypothesis Hheap : heap_bounded.

Definition request_safe (q : read_request) : Prop :=
  forall r, reader_ok r ->
  let '(x, r') := serve q r in
  (x = Fault -> q = ReqPushInt /\ at_bytes r int_min_push) /\ reader_ok r' /\ r_data r' = r_data r /\
  (forward q = true -> r_marker r' = r_marker r).

Lemma drop_value_safe {A} (m : Rd A) P r :
  reader_safe m P -> reader_ok r ->
  forall Q : Prop,
  let '(x, r') := drop_value m r in
  (x = Fault -> Q) /\ reader_ok r' /\ r_data r' = r_data r /\
  (true = true -> r_marker r' = r_marker r).
Proof.
  intros Hm Hr Q. pose proof (safe_map m (fun _ => tt) P Hm r Hr) as Hs.
  unfold safe_at, drop_value in *. destruct (bind _ _ r) as [[[]|e|] r'];
    destruct Hs as (? & ? & ? & _ & ?); done.
Qed.

(** The sum may wrap around: then the cursor moves backwards, and stays inside the data. *)
Lemma skip_safe n : 0 <= n < 2 ^ 64 -> request_safe (ReqSkip n).
Proof.
  intros Hn r Hr. pose proof (reader_ok_position _ Hr). pose proof (reader_ok_bound _ Hr).
  cbn [serve]. unfold neoc_binary_reader_skip, bind, require.
  destruct (_ <? _) eqn:E; bdestruct; [done|]. unfold advance, set_position.
  pose proof (wrap_range 64 (r_position r + n) ltac:(lia)). split_and!; [done| |done..].
  destruct Hr. split; cbn; auto; lia.
Qed.

Lemma serve_safe q : request_ok q -> request_safe q.
Proof.
  destruct q; cbn [request_ok]; intros Hq; try (by apply skip_safe); intros r Hr;
    cbn [serve];
    try (eapply drop_value_safe; [|done];
         first [ apply read_byte_safe | by apply read_bytes_safe | apply read_bool_safe
               | apply read_uint16_safe | apply read_uint32_safe | apply read_uint64_safe
               | apply read_var_int_safe | apply read_var_int_max_safe
               | by apply read_var_bytes_safe | by apply read_var_bytes_max_safe
               | by apply read_var_string_safe | by apply read_encoded_ec_point_safe
               | by apply read_push_data_safe | by apply read_push_string_safe
               | by apply read_push_big_int_safe
               | apply read_int16_safe | apply read_int32_safe | apply read_int64_safe ]).
  - pose proof (read_push_int_safe r Hheap Hr) as Hs. unfold drop_value, bind.
    destruct (neoc_binary_reader_read_push_int r) as [[v|e|] r'], Hs as (Hf & ? & ? & ?);
      cbn [ret]; (split; [intros Hx; first [discriminate Hx|split; [done|by apply Hf]]|]); split_and!; auto.
  - unfold neoc_binary_reader_seek. destruct (_ <? _) eqn:E; bdestruct; [done|].
    cbn. split_and!; [done| |done..]. destruct Hr. split; cbn; auto; lia.
  - cbn. split_and!; [done| |done..]. destruct Hr. split; cbn; auto.
  - unfold neoc_binary_reader_reset. destruct (_ =? _) eqn:E; bdestruct; [done|].
    cbn. split_and!; [done| |done..]. destruct Hr as [? ? [?|?] ?]; split; cbn; auto.
    done.
Qed.

(** C12.  Memory safety on untrusted input: in every state reachable from a fresh
    reader by any sequence of read, skip, seek, mark and reset requests, with or
    without errors in between, the cursor and the mark are inside the data, the
    data is unchanged, and the next request stays inside the buffer.  The one request that is
    not defined on all data is [read_push_int], which negates [INT32_MIN] when it stands at a
    PUSHINT32 with that operand.  A skip whose sum wraps around moves the cursor backwards and
    stays inside; a caller's buffer has less than 2^63 bytes. *)
Theorem reader_session_safe (data : list byte) (r0 r : neoc_binary_reader_t)
    (q : read_request) :
  neoc_binary_reader_create (Some data) (zlen data) = Ok r0 ->
  rtc reader_step r0 r -> request_ok q ->
  reader_ok r /\ r_data r = data /\
  (fst (serve q r) = Fault -> q = ReqPushInt /\ at_bytes r int_min_push).
Proof.
  intros E Hsteps Hq.
  assert (reader_ok r0 /\ r_data r0 = data) as H0.
  { unfold neoc_binary_reader_create in E.
    destruct (malloc_ok reader_struct_size) eqn:E1; [|done].
    destruct (malloc_ok (zlen data)) eqn:E2; [|done].
    destruct (reader_create_ok data) as (r1 & E3 & ? & ? & _); [by apply Hheap|done..|].
    unfold neoc_binary_reader_create in E3. rewrite E1, E2 in E3.
    rewrite E in E3. injection E3 as <-. done. }
  assert (reader_ok r /\ r_data r = data) as [Hr Hd].
  { clear E. induction Hsteps as [|r0 r1 r2 Hstep _ IH]; [done|]. apply IH.
    destruct Hstep as [q' r x r' Hq' Es _]. destruct H0 as [Hr Hd].
    pose proof (serve_safe q' Hq' r Hr) as Hsafe. rewrite Es in Hsafe.
    destruct Hsafe as (_ & ? & ? & _). split; [done|congruence]. }
  split_and!; [done|done|]. pose proof (serve_safe q Hq r Hr) as Hsafe.
  destruct (serve q r) as [x r']. apply Hsafe.
Qed.

(** The reader after a list of requests, errors ignored. *)
Definition session (qs : list read_request) (r : neoc_binary_reader_t)
  : neoc_binary_reader_t := fold_left (fun r q => snd (serve q r)) qs r.

Lemma session_keeps qs r :
  reader_ok r -> Forall request_ok qs -> Forall (fun q => forward q = true) qs ->
  reader_ok (session qs r) /\ r_data (session qs r) = r_data r /\
  r_marker (session qs r) = r_marker r.
Proof.
  unfold session. intros Hr Hq. revert r Hr.
  induction Hq as [|q qs Hq _ IH]; intros r Hr Hf; cbn [fold_left]; [done|].
  inversion Hf as [|? ? Hf1 Hf2]; subst.
  pose proof (serve_safe q Hq r Hr) as Hs. destruct (serve q r) as [x r'].
  destruct Hs as (_ & Hr' & Hd & Hm). cbn [snd].
  destruct (IH r' Hr' Hf2) as (? & Hd' & Hm'). rewrite Hd', Hm'. auto.
Qed.

(** A mark is a bookmark: after [mark] and any sequence of further requests
    (reads, skips, seeks and resets, failing or not), [reset] succeeds and puts the
    cursor back exactly where it was when the mark was set. *)
Theorem mark_reset_returns (qs : list read_request) (r : neoc_binary_reader_t) :
  reader_ok r -> Forall request_ok qs -> Forall (fun q => forward q = true) qs ->
  Forall (fun q => always_defined q = true) qs ->
  neoc_binary_reader_reset (session qs (snd (neoc_binary_reader_mark r))) =
  (Ok tt, mk_reader (r_data r) (r_size r) (r_position r) (r_position r)).
Proof.
  intros Hr Hq Hf _. pose proof Hr as [Hs [Hp0 Hp] _ Hb].
  assert (reader_ok (snd (neoc_binary_reader_mark r))) as Hr1.
  { destruct Hr. split; cbn; auto. }
  destruct (session_keeps qs _ Hr1 Hq Hf) as ([Hs2 _ _ _] & Hd & Hm).
  cbn [neoc_binary_reader_mark snd r_data r_marker] in *.
  unfold neoc_binary_reader_reset, set_position, SIZE_MAX. rewrite Hm.
  assert ((r_position r =? 2 ^ 64 - 1) = false) as -> by lia.
  rewrite Hs2, Hd, Hs. done.
Qed.
End Sessions.

Lemma mib_heap_bounded : @heap_bounded mib_heap.
Proof. intros m Hm. unfold malloc_ok, mib_heap in Hm. lia. Qed.

Lemma reader_session_safe_witness :
  let r0 := mk_reader [Byte.xfd; Byte.x01; Byte.x02] 3 0 SIZE_MAX in
  reader_ok r0 /\ fst (@serve mib_heap ReqVarBytes r0) = Err NEOC_ERROR_END_OF_STREAM.
Proof.
  pose proof (@reader_session_safe mib_heap mib_heap_bounded
    [Byte.xfd; Byte.x01; Byte.x02]
    (mk_reader [Byte.xfd; Byte.x01; Byte.x02] 3 0 SIZE_MAX)
    (mk_reader [Byte.xfd; Byte.x01; Byte.x02] 3 0 SIZE_MAX) ReqVarBytes
    eq_refl (rtc_refl _ _) I) as [Hr _].
  split; [exact Hr|vm_compute; reflexivity].
Defined.


Example int_min_push_faults :
  fst (@serve mib_heap ReqPushInt (mk_reader int_min_push 5 0 SIZE_MAX)) = Fault.
Proof. by vm_compute. Qed.

Lemma mark_reset_returns_witness :
  let r := mk_reader [Byte.x05; Byte.x01; Byte.x02] 3 1 SIZE_MAX in
  @neoc_binary_reader_reset
    (@session mib_heap [ReqByte; ReqUint16; ReqSkip 1] (snd (neoc_binary_reader_mark r)))
  = (Ok tt, mk_reader [Byte.x05; Byte.x01; Byte.x02] 3 1 1).
Proof.
  apply (@mark_reset_returns mib_heap mib_heap_bounded [ReqByte; ReqUint16; ReqSkip 1]
           (mk_reader [Byte.x05; Byte.x01; Byte.x02] 3 1 SIZE_MAX)).
  - split; vm_compute; intuition discriminate || (left; reflexivity).
  - repeat constructor; vm_compute; discriminate.
  - repeat constructor.
  - repeat constructor.
Defined.

(** ** Integers pushed by a script, read back *)

Section PushInt.
Context `{Allocator}.

(** The sign bit of the operand's last byte. *)
Lemma high_bit b : negb (Z.land (Z_of_byte b) 0x80 =? 0) = (128 <=? Z_of_byte b).
Proof.
  apply eqb_prop. revert b.
  apply (byte_forall (fun z => Bool.eqb (negb (Z.land z 0x80 =? 0)) (128 <=? z))).
  vm_compute. done.
Qed.

(** PUSHINT8, PUSHINT16 and PUSHINT32 are the opcodes 0, 1 and 2, with operands of
    1, 2 and 4 bytes. *)
Definition push_width (k : nat) : nat := (2 ^ k)%nat.

Lemma read_push_big_int_reads k bs top :
  (k <= 2)%nat -> length bs = push_width k -> last bs = Some top ->
  malloc_ok (Z.of_nat (push_width k)) = true ->
  reads neoc_binary_reader_read_push_big_int (byte_of_Z (Z.of_nat k) :: bs)
        (bs, 128 <=? Z_of_byte top).
Proof.
  intros Hk Hl Ht Hm. apply (reads_bind _ _ [_] bs (byte_of_Z (Z.of_nat k)));
    [apply read_byte_reads|].
  rewrite last_lookup, Hl in Ht. rewrite Z_of_byte_small by lia. intros r Hr Ha.
  pose proof (read_bytes_reads bs r Hr Ha) as Hread. unfold zlen in Hread.
  rewrite Hl in Hread at 1. cbv zeta.
  set (n := Z.of_nat (push_width k)) in *.
  assert (1 <= n) by (unfold n; destruct k as [|[|[|]]]; [..|lia]; vm_compute; done).
  cmps. match goal with |- (let! _c := ?m in _) r = _ => assert (m = ret n) as -> end.
  { unfold n. destruct k as [|[|[|]]]; [reflexivity..|lia]. }
  unfold bind at 1. cbn [ret]. rewrite Hm. cbn [negb].
  rewrite (bind_ok _ _ _ _ _ Hread). unfold buf_get. cmps.
  replace (Z.to_nat (n - 1)) with (Nat.pred (push_width k)) by lia.
  rewrite Ht, high_bit. done.
Qed.

Lemma last_le_bytes n v :
  last (le_bytes (S n) v) = Some (byte_of_Z (v / 256 ^ Z.of_nat n)).
Proof.
  revert v. induction n as [|n IH]; intros v.
  - cbn. rewrite Z.div_1_r. done.
  - change (le_bytes (S (S n)) v) with (byte_of_Z v :: le_bytes (S n) (v / 256)).
    rewrite last_cons, IH, Z.div_div by lia.
    rewrite Nat2Z.inj_succ, Z.pow_succ_r by lia. done.
Qed.

(** The value the code computes for the operand [v] of [n] bytes. *)
Definition push_int_result (n : nat) (v : Z) : res Z :=
  if 0 <=? v then Ok v
  else if (n <? 4)%nat then Ok (- (v + 2 ^ (8 * Z.of_nat n)))
  else if v =? - 2 ^ 31 then Fault
  else Ok (- v).

(** What [read_push_int] returns for PUSHINT8/16/32 with operand [v]: [v]
    itself when it is not negative.  A negative operand comes back as
    [-(v + 2^w)] for the one- and two-byte forms and as [-v] for the four-byte
    form, and negating [INT32_MIN] overflows: the operand is already in two's
    complement and the code negates it once more. *)
Theorem read_push_int_operand (k : nat) (v : Z) (r : neoc_binary_reader_t) :
  (k <= 2)%nat ->
  - 2 ^ (8 * Z.of_nat (push_width k) - 1) <= v < 2 ^ (8 * Z.of_nat (push_width k) - 1) ->
  reader_ok r -> heap_serves 4 ->
  at_bytes r (byte_of_Z (Z.of_nat k) :: le_bytes (push_width k) v) ->
  fst (neoc_binary_reader_read_push_int r) = push_int_result (push_width k) v.
Proof.
  intros Hk Hv Hr Hh Ha. unfold neoc_binary_reader_read_push_int.
  pose proof (le_val_le_bytes (push_width k) v) as Hle.
  assert (exists n, push_width k = S n /\ (S n <= 4)%nat) as (n & En & Hn).
  { exists (Nat.pred (push_width k)). destruct k as [|[|[|]]]; [..|lia]; cbn; lia. }
  rewrite (bind_ok _ _ _ _ _ (read_push_big_int_reads k _ _ Hk (length_le_bytes _ v)
    ltac:(rewrite En; apply last_le_bytes) (Hh (Z.of_nat (push_width k)) ltac:(lia)) r Hr Ha)).
  rewrite or_data_spec by (unfold zlen; rewrite ?length_le_bytes; lia).
  unfold zlen. rewrite length_le_bytes. cmps. rewrite Hle, Z.pow_0_r, Z.mul_1_l, Z.add_0_l.
  rewrite Z_of_byte_of_Z. unfold push_int_result, swrap, wrap.
  clear - Hk Hv Hn En. destruct k as [|[|[|]]]; [..|lia];
    cbn [push_width Nat.pow Nat.mul Nat.add] in *; injection En as <-;
    cbn [Nat.ltb Nat.leb];
    change (Z.of_nat 4) with 4 in *; change (Z.of_nat 3) with 3 in *;
    change (Z.of_nat 2) with 2 in *; change (Z.of_nat 1) with 1 in *;
    change (Z.of_nat 0) with 0 in *;
    repeat match goal with
           | |- context [?a <? ?b] => destruct (a <? b) eqn:?
           | |- context [?a <=? ?b] => destruct (a <=? b) eqn:?
           | |- context [?a =? ?b] => destruct (a =? b) eqn:?
           end; bdestruct; cbn [fst ret fault]; first [reflexivity | f_equal; dlia | exfalso; dlia].
Qed.

(** [skip] with a count so large that the [size_t] sum wraps around does not
    report the end of the stream: it succeeds and moves the cursor backwards. *)
Theorem skip_wraps_backwards (count : Z) (r : neoc_binary_reader_t) :
  reader_ok r -> 2 ^ 64 - r_position r <= count < 2 ^ 64 ->
  neoc_binary_reader_skip count r = (Ok tt, moved r (count - 2 ^ 64)).
Proof.
  intros [Hs Hp Hm Hb] Hc. unfold neoc_binary_reader_skip, require, advance, set_position.
  assert (wrap 64 (r_position r + count) = r_position r + (count - 2 ^ 64)) as Hw.
  { unfold wrap. rewrite <- (Z.mod_add _ (-1)) by lia. rewrite Z.mod_small; lia. }
  unfold bind. rewrite Hw. cmps. rewrite Hw. done.
Qed.
End PushInt.

Lemma read_push_int_operand_witness :
  let r := mk_reader [Byte.x00; Byte.xfb] 2 0 SIZE_MAX in
  fst (@neoc_binary_reader_read_push_int mib_heap r) = Ok (-251).
Proof.
  apply (@read_push_int_operand mib_heap 0 (-5) (mk_reader [Byte.x00; Byte.xfb] 2 0 SIZE_MAX)).
  - lia.
  - vm_compute. split; discriminate || reflexivity.
  - split; vm_compute; intuition discriminate || (left; reflexivity).
  - apply mib_heap_serves. lia.
  - exists [], []. split; reflexivity.
Defined.

Lemma skip_wraps_backwards_witness :
  let r := mk_reader [Byte.x00; Byte.xfb] 2 2 SIZE_MAX in
  neoc_binary_reader_skip (2 ^ 64 - 1) r = (Ok tt, moved r (-1)).
Proof.
  apply (skip_wraps_backwards (2 ^ 64 - 1) (mk_reader [Byte.x00; Byte.xfb] 2 2 SIZE_MAX)).
  - split; vm_compute; intuition discriminate || (left; reflexivity).
  - vm_compute. split; discriminate || reflexivity.
Defined.
