(* ===== verification/Serializable.v ===== *)
(** * The serialization protocol (src/serialization/neo_serializable.c)

    The C interface is a struct of function pointers at the head of every
    serializable object.  [neoc_serializable_t A] is that struct together with
    the object it heads; the generic operations work through the pointers.
    The class [Codec] states what an implementation promises to those operations:
    its bytes, that [serialize] writes them, that [get_size] counts them and that
    the deserializer reads them back. *)

From S2P Require Import Prelude BinaryWriter BinaryReader.

(** ** Data and operations *)

(** A pointer that may be NULL is an [option].  [s_free] records only whether the
    pointer is set: releasing memory has no result. *)
Record neoc_serializable_t (A : Type) := mk_serializable {
  s_object : A;
  s_serialize : option (A -> Wr unit);
  s_deserialize : option (Rd A);
  s_get_size : option (A -> res Z);
  s_free : bool;
  s_clone : option (A -> res A)
}.
Arguments mk_serializable {A}.
Arguments s_object {A}.
Arguments s_serialize {A}.
Arguments s_deserialize {A}.
Arguments s_get_size {A}.
Arguments s_free {A}.
Arguments s_clone {A}.

Definition is_set {A} (p : option A) : bool :=
  match p with Some _ => true | None => false end.

Section Operations.
Context `{Allocator} {A : Type}.
Implicit Types obj : neoc_serializable_t A.

Definition neoc_serializable_validate (obj : option (neoc_serializable_t A)) : res unit :=
  match obj with
  | None => Err NEOC_ERROR_INVALID_ARGUMENT
  | Some o =>
      if negb (is_set (s_serialize o)) || negb (is_set (s_deserialize o))
         || negb (is_set (s_get_size o)) || negb (s_free o)
      then Err NEOC_ERROR_INVALID_ARGUMENT
      else Ok tt
  end.

(** A call through a function pointer; a NULL pointer faults. *)
Definition call_get_size obj : res Z :=
  match s_get_size obj with Some f => f (s_object obj) | None => Fault end.
Definition call_serialize obj : Wr unit :=
  match s_serialize obj with Some f => f (s_object obj) | None => fault end.

Definition neoc_serializable_get_size (obj : option (neoc_serializable_t A)) : res Z :=
  match obj with
  | None => Err NEOC_ERROR_INVALID_ARGUMENT
  | Some o => let? _v := neoc_serializable_validate obj in call_get_size o
  end.

Definition neoc_serializable_serialize (obj : option (neoc_serializable_t A)) : Wr unit :=
  match obj with
  | None => fail NEOC_ERROR_INVALID_ARGUMENT
  | Some o => do! lift (neoc_serializable_validate obj) in call_serialize o
  end.

Definition neoc_serializable_to_array (obj : option (neoc_serializable_t A))
  : res (list byte) :=
  match obj with
  | None => Err NEOC_ERROR_INVALID_ARGUMENT
  | Some o =>
      let? _v := neoc_serializable_validate obj in
      let? size := call_get_size o in
      serialize_with size (call_serialize o)
  end.

Definition neoc_serializable_from_array (data : option (list byte)) (len : Z)
    (deserialize_func : option (Rd (neoc_serializable_t A)))
  : res (neoc_serializable_t A) :=
  match data, deserialize_func with
  | Some _, Some f =>
      if len =? 0 then Err NEOC_ERROR_INVALID_DATA
      else
        let? reader := neoc_binary_reader_create data len in
        fst (f reader)
  | _, _ => Err NEOC_ERROR_INVALID_ARGUMENT
  end.

Definition neoc_serializable_clone (obj : option (neoc_serializable_t A)) : res A :=
  match obj with
  | None => Err NEOC_ERROR_INVALID_ARGUMENT
  | Some o =>
      let? _v := neoc_serializable_validate obj in
      match s_clone o with
      | None => Err NEOC_ERROR_NOT_SUPPORTED
      | Some f => f (s_object o)
      end
  end.

(** [objects] is the pointer array ([None] is NULL) and [count] its length as the
    caller gives it; reading past the array faults. *)
Fixpoint serialize_objects (n : nat) (objects : list (option (neoc_serializable_t A)))
  : Wr unit :=
  match n, objects with
  | O, _ => ret tt
  | S _, [] => fault
  | S n, o :: objects =>
      match o with
      | None => fail NEOC_ERROR_INVALID_ARGUMENT
      | Some _ => do! neoc_serializable_serialize o in serialize_objects n objects
      end
  end.

Definition neoc_serializable_array_serialize
    (objects : option (list (option (neoc_serializable_t A)))) (count : Z) : Wr unit :=
  if (0 <? count) && negb (is_set objects) then fail NEOC_ERROR_INVALID_ARGUMENT
  else
    do! neoc_binary_writer_write_var_int count in
    serialize_objects (Z.to_nat count) (default [] objects).

Definition object_pointer_size : Z := 8.

Fixpoint deserialize_objects (n : nat) (f : Rd (neoc_serializable_t A))
  : Rd (list (neoc_serializable_t A)) :=
  match n with
  | O => ret []
  | S n =>
      let! o := f in
      let! rest := deserialize_objects n f in
      ret (o :: rest)
  end.

Definition neoc_serializable_array_deserialize
    (deserialize_func : option (Rd (neoc_serializable_t A))) (max_count : Z)
  : Rd (list (neoc_serializable_t A)) :=
  match deserialize_func with
  | None => fail NEOC_ERROR_INVALID_ARGUMENT
  | Some f =>
      let! array_count := neoc_binary_reader_read_var_int in
      if (0 <? max_count) && (max_count <? array_count) then fail NEOC_ERROR_INVALID_DATA
      else if array_count =? 0 then ret []
      else if 1000000 <? array_count then fail NEOC_ERROR_INVALID_DATA
      else if negb (neoc_malloc_ok (wrap 64 (object_pointer_size * array_count)))
      then fail NEOC_ERROR_OUT_OF_MEMORY
      else deserialize_objects (Z.to_nat array_count) f
  end.

Fixpoint objects_size (n : nat) (objects : list (option (neoc_serializable_t A)))
    (total_size : Z) : res Z :=
  match n, objects with
  | O, _ => Ok total_size
  | S _, [] => Fault
  | S n, o :: objects =>
      match o with
      | None => Err NEOC_ERROR_INVALID_ARGUMENT
      | Some _ =>
          let? obj_size := neoc_serializable_get_size o in
          objects_size n objects (wrap 64 (total_size + obj_size))
      end
  end.

Definition neoc_serializable_array_get_size
    (objects : option (list (option (neoc_serializable_t A)))) (count : Z) : res Z :=
  if (0 <? count) && negb (is_set objects) then Err NEOC_ERROR_INVALID_ARGUMENT
  else
    let count_size :=
      if count <? 0xFD then 1
      else if count <=? 0xFFFF then 3
      else if count <=? 0xFFFFFFFF then 5
      else 9 in
    objects_size (Z.to_nat count) (default [] objects) count_size.

End Operations.

(** ** The contract of an implementation *)

(** [object a] is the struct of the value [a], [decode] the deserializer, and
    [encode a] the bytes that represent [a] on the wire; [admissible a] says that
    the object can be read back (its fields are in range and the heap serves it). *)
Class Codec `{Allocator} (A : Type) := {
  object : A -> neoc_serializable_t A;
  decode : Rd (neoc_serializable_t A);
  encode : A -> list byte;
  admissible : A -> Prop;
  object_valid a : neoc_serializable_validate (Some (object a)) = Ok tt;
  object_payload a : s_object (object a) = a;
  serialize_writes a : writes (call_serialize (object a)) (encode a);
  get_size_exact a : call_get_size (object a) = Ok (zlen (encode a));
  decode_reads a : admissible a -> reads decode (encode a) (object a)
}.

(** The wire format of an array of objects. *)
Definition array_bytes `{Codec A} (xs : list A) : list byte :=
  var_int_bytes (zlen xs) ++ concat (map encode xs).

Definition pointers `{Codec A} (xs : list A) : list (option (neoc_serializable_t A)) :=
  map (fun a => Some (object a)) xs.

Section Proofs.
Context `{Codec A}.

Lemma neoc_serialize_writes (a : A) :
  writes (neoc_serializable_serialize (Some (object a))) (encode a).
Proof.
  unfold neoc_serializable_serialize. rewrite object_valid.
  apply (writes_bind _ [] _ (encode a)); [apply writes_ret|apply serialize_writes].
Qed.

Lemma serialize_objects_writes (xs : list A) :
  writes (serialize_objects (length xs) (pointers xs)) (concat (map encode xs)).
Proof.
  induction xs as [|a xs IH]; cbn; [apply writes_ret|].
  apply writes_bind; [apply neoc_serialize_writes|done].
Qed.

Lemma array_serialize_writes (xs : list A) :
  writes (neoc_serializable_array_serialize (Some (pointers xs)) (zlen xs))
         (array_bytes xs).
Proof.
  unfold neoc_serializable_array_serialize, zlen. rewrite andb_false_r, Nat2Z.id.
  apply writes_bind; [apply write_var_int_writes|apply serialize_objects_writes].
Qed.

Lemma deserialize_objects_reads (xs : list A) :
  Forall admissible xs ->
  reads (deserialize_objects (length xs) decode) (concat (map encode xs)) (map object xs).
Proof.
  induction 1 as [|a xs Ha _ IH]; cbn; [apply reads_ret|].
  eapply reads_bind; [by apply decode_reads|]. eapply reads_ret_bind; done.
Qed.

Lemma array_deserialize_reads (xs : list A) (max_count : Z) :
  Forall admissible xs -> zlen xs <= 1000000 -> (0 < max_count -> zlen xs <= max_count) ->
  heap_serves (8 * zlen xs) ->
  reads (neoc_serializable_array_deserialize (Some decode) max_count) (array_bytes xs)
        (map object xs).
Proof.
  intros Ha Hl Hm Hh. pose proof (zlen_nonneg xs). unfold object_pointer_size.
  eapply reads_bind; [apply read_var_int_reads; lia|]. cbn beta.
  assert ((0 <? max_count) && (max_count <? zlen xs) = false) as -> by lia.
  destruct (zlen xs =? 0) eqn:E; bdestruct.
  { rewrite (zlen_zero xs) by done. apply reads_ret. }
  unfold object_pointer_size, neoc_malloc_ok. rewrite wrap_small by lia. cmps.
  rewrite Hh by lia. cbn [negb]. unfold zlen. rewrite Nat2Z.id.
  by apply deserialize_objects_reads.
Qed.

Lemma var_int_bytes_size v :
  0 <= v ->
  zlen (var_int_bytes v) =
  if v <? 0xFD then 1 else if v <=? 0xFFFF then 3 else if v <=? 0xFFFFFFFF then 5 else 9.
Proof.
  intros. unfold var_int_bytes. destruct (_ <? _); [done|].
  destruct (_ <=? _); [|destruct (_ <=? _)]; done.
Qed.

Lemma objects_size_exact (xs : list A) (total : Z) :
  0 <= total -> total + zlen (concat (map encode xs)) < 2 ^ 64 ->
  objects_size (length xs) (pointers xs) total = Ok (total + zlen (concat (map encode xs))).
Proof.
  revert total. induction xs as [|a xs IH]; intros total Ht Hl.
  - cbn. rewrite Z.add_0_r. done.
  - change (pointers (a :: xs)) with (Some (object a) :: pointers xs).
    cbn [length objects_size map concat]. unfold neoc_serializable_get_size. rewrite object_valid. cbn [rbind].
    rewrite get_size_exact. cbn [rbind]. cbn in Hl. rewrite zlen_app in *.
    pose proof (zlen_nonneg (encode a)).
    pose proof (zlen_nonneg (concat (map encode xs))).
    rewrite wrap_small by lia. rewrite IH by lia. f_equal. lia.
Qed.

(** Array round trip through the protocol: serializing any array of objects of
    any conforming type and reading the bytes back with the array deserializer gives
    the same objects in the same order, for arrays of up to the million objects the
    reader accepts and within the caller's maximum. *)
Theorem serializable_array_roundtrip (capacity : Z) (xs : list A) (max_count : Z) :
  Forall admissible xs -> zlen xs <= 1000000 -> (0 < max_count -> zlen xs <= max_count) ->
  capacity <= 1024 -> zlen (array_bytes xs) <= stream_max ->
  heap_serves (Z.max 1024 (2 * zlen (array_bytes xs) + 8 * zlen xs)) ->
  (let? data := serialize_with capacity
                  (neoc_serializable_array_serialize (Some (pointers xs)) (zlen xs)) in
   let? r := neoc_binary_reader_create (Some data) (zlen data) in
   fst (neoc_serializable_array_deserialize (Some decode) max_count r))
  = Ok (map object xs).
Proof.
  intros Ha Hn Hm Hc Hs Hh. unfold stream_max in Hs.
  pose proof (zlen_nonneg xs). pose proof (zlen_nonneg (array_bytes xs)).
  rewrite (serialize_with_ok capacity _ (array_bytes xs)).
  2: apply array_serialize_writes. 2: lia. 2: done.
  2: eapply heap_serves_mono; [done|lia].
  cbn [rbind]. destruct (reader_create_ok (array_bytes xs)) as (r & -> & Hr & Hd & Hp);
    [lia|apply Hh; unfold reader_struct_size; lia|apply Hh; lia|].
  cbn [rbind]. rewrite (array_deserialize_reads xs max_count); [done|done|done|done| |done|].
  - eapply heap_serves_mono; [done|lia].
  - exists [], []. rewrite Hd, Hp, app_nil_r. done.
Qed.

(** The size the protocol reports is the size it writes: for any array of
    conforming objects [array_get_size] returns exactly the number of bytes
    [array_serialize] produces. *)
Theorem array_get_size_is_length (capacity : Z) (xs : list A) :
  capacity <= 1024 -> zlen (array_bytes xs) <= stream_max ->
  heap_serves (Z.max 1024 (2 * zlen (array_bytes xs))) ->
  exists data,
    serialize_with capacity
      (neoc_serializable_array_serialize (Some (pointers xs)) (zlen xs)) = Ok data /\
    neoc_serializable_array_get_size (Some (pointers xs)) (zlen xs) = Ok (zlen data).
Proof.
  intros Hc Hs Hh. exists (array_bytes xs). split.
  - apply serialize_with_ok; [apply array_serialize_writes|lia|done|done].
  - unfold neoc_serializable_array_get_size, stream_max, array_bytes in *.
    rewrite andb_false_r. cbv zeta. rewrite zlen_app in *.
    pose proof (zlen_nonneg xs). pose proof (zlen_nonneg (concat (map encode xs))).
    rewrite var_int_bytes_size in * by lia.
    replace (Z.to_nat (zlen xs)) with (length xs) by (unfold zlen; lia).
    cbn [default]. rewrite objects_size_exact; [done| |lia].
    repeat (destruct (_ <? _) || destruct (_ <=? _)); lia.
Qed.

(** Object round trip: [to_array] produces the object's encoding and
    [from_array] rebuilds the object from it, for every conforming object whose
    encoding is not empty ([from_array] refuses an empty array). *)
Theorem serializable_roundtrip (a : A) :
  admissible a -> encode a <> [] -> zlen (encode a) <= stream_max ->
  heap_serves (Z.max 1024 (2 * zlen (encode a))) ->
  (let? data := neoc_serializable_to_array (Some (object a)) in
   neoc_serializable_from_array (Some data) (zlen data) (Some decode)) = Ok (object a).
Proof.
  intros Ha Hne Hs Hh. unfold neoc_serializable_to_array. unfold stream_max in Hs.
  pose proof (zlen_nonneg (encode a)).
  rewrite object_valid. cbn [rbind]. rewrite get_size_exact. cbn [rbind].
  rewrite (serialize_with_ok _ _ (encode a)); [|apply serialize_writes|lia|done..].
  cbn [rbind]. unfold neoc_serializable_from_array.
  destruct (zlen (encode a) =? 0) eqn:E; bdestruct; [by apply zlen_zero in E|].
  destruct (reader_create_ok (encode a)) as (r & -> & Hr & Hd & Hp);
    [lia|apply Hh; unfold reader_struct_size; lia|apply Hh; lia|].
  cbn [rbind]. rewrite (decode_reads a); [done|done|done|].
  exists [], []. rewrite Hd, Hp, app_nil_r. done.
Qed.
End Proofs.

(** ** An implementation: an object that holds one [uint32_t] *)

Definition uint32_object `{Allocator} (v : Z) : neoc_serializable_t Z :=
  mk_serializable v (Some neoc_binary_writer_write_uint32)
    (Some neoc_binary_reader_read_uint32) (Some (fun _ => Ok 4)) true (Some Ok).

#[export, refine] Instance uint32_codec `{Allocator} : Codec Z := {
  object := uint32_object;
  decode := let! v := neoc_binary_reader_read_uint32 in ret (uint32_object v);
  encode := le_bytes 4;
  admissible v := 0 <= v < 2 ^ 32;
  object_valid := _; object_payload := _; serialize_writes := _; get_size_exact := _;
  decode_reads := _
}.
Proof.
  - done.
  - done.
  - intros. apply write_uint32_writes.
  - intros. unfold zlen. rewrite length_le_bytes. done.
  - intros v Hv. eapply reads_ret_bind; [apply read_uint32_reads|].
    rewrite wrap_small by done. done.
Defined.

#[local] Existing Instance mib_heap.

Lemma serializable_array_roundtrip_witness :
  (let? data := serialize_with 0
      (neoc_serializable_array_serialize (Some (pointers [7; 70000])) (zlen [7; 70000])) in
   let? r := neoc_binary_reader_create (Some data) (zlen data) in
   fst (neoc_serializable_array_deserialize (Some decode) 10 r))
  = Ok (map object [7; 70000]).
Proof.
  apply (serializable_array_roundtrip 0 [7; 70000] 10).
  - repeat constructor; vm_compute; discriminate || (split; discriminate).
  - vm_compute. discriminate.
  - intros _. vm_compute. discriminate.
  - lia.
  - vm_compute. discriminate.
  - apply mib_heap_serves. vm_compute. discriminate.
Defined.

Lemma array_get_size_is_length_witness :
  exists data,
    serialize_with 0
      (neoc_serializable_array_serialize (Some (pointers [7; 70000])) (zlen [7; 70000])) = Ok data /\
    neoc_serializable_array_get_size (Some (pointers [7; 70000])) (zlen [7; 70000])
      = Ok (zlen data).
Proof.
  apply (array_get_size_is_length 0 [7; 70000]).
  - lia.
  - vm_compute. discriminate.
  - apply mib_heap_serves. vm_compute. discriminate.
Defined.

Lemma serializable_roundtrip_witness :
  (let? data := neoc_serializable_to_array (Some (object 9)) in
   neoc_serializable_from_array (Some data) (zlen data) (Some decode))
  = Ok (object 9).
Proof.
  apply (serializable_roundtrip 9).
  - vm_compute. split; [discriminate|reflexivity].
  - discriminate.
  - vm_compute. discriminate.
  - apply mib_heap_serves. vm_compute. discriminate.
Defined.
