(* ===== verification/Crypto.v ===== *)
(** * Digests (src/crypto/neoc_hash.c)

    The digest functions are OpenSSL's: the class [Crypto] has them as parameters
    ([None] when the library reports a failure) together with the module's
    initialisation flag, and [crypto_works] is what the code relies on.  The
    functions of the file are wrappers that check their arguments and the flag. *)

From S2P Require Import Prelude.

Class Crypto := {
  crypto_initialized : bool;
  SHA256 : list byte -> option (list byte);
  RIPEMD160 : list byte -> option (list byte)
}.

(** The module is initialised and OpenSSL computes digests of the documented size. *)
Record crypto_works `{Crypto} : Prop := {
  works_initialized : crypto_initialized = true;
  works_sha256 d : exists h, SHA256 d = Some h /\ length h = 32%nat;
  works_ripemd160 d : exists h, RIPEMD160 d = Some h /\ length h = 20%nat
}.

Section Operations.
Context `{Crypto}.

(** [SHA256_Init], [SHA256_Update] over [len] bytes of [data], [SHA256_Final]. *)
Definition openssl_digest (f : list byte -> option (list byte)) (data : list byte)
    (len : Z) : res (list byte) :=
  match buf_slice data 0 len with
  | None => Fault
  | Some d => match f d with Some h => Ok h | None => Err NEOC_ERROR_CRYPTO_HASH end
  end.

Definition neoc_sha256 (data : option (list byte)) (data_length : Z) : res (list byte) :=
  match data with
  | None => Err NEOC_ERROR_NULL_POINTER
  | Some data =>
      if negb crypto_initialized then Err NEOC_ERROR_CRYPTO_INIT
      else openssl_digest SHA256 data data_length
  end.

Definition neoc_sha256_double (data : option (list byte)) (data_length : Z)
  : res (list byte) :=
  match data with
  | None => Err NEOC_ERROR_NULL_POINTER
  | Some _ =>
      let? first_hash := neoc_sha256 data data_length in
      neoc_sha256 (Some first_hash) 32
  end.

(** A NULL pointer is accepted with length 0 (and then not read). *)
Definition neoc_ripemd160 (data : option (list byte)) (data_length : Z)
  : res (list byte) :=
  match data with
  | None =>
      if 0 <? data_length then Err NEOC_ERROR_NULL_POINTER
      else if negb crypto_initialized then Err NEOC_ERROR_CRYPTO_INIT
      else openssl_digest RIPEMD160 [] 0
  | Some data =>
      if negb crypto_initialized then Err NEOC_ERROR_CRYPTO_INIT
      else openssl_digest RIPEMD160 data data_length
  end.

Definition neoc_hash160 (data : option (list byte)) (data_length : Z)
  : res (list byte) :=
  match data with
  | None => Err NEOC_ERROR_NULL_POINTER
  | Some _ =>
      let? sha256_hash := neoc_sha256 data data_length in
      neoc_ripemd160 (Some sha256_hash) 32
  end.

Definition neoc_hash256 (data : option (list byte)) (data_length : Z)
  : res (list byte) := neoc_sha256 data data_length.

End Operations.

(** Only the first [data_length] bytes of the buffer matter. *)
Lemma sha256_double_prefix `{Crypto} d rest :
  neoc_sha256_double (Some (d ++ rest)) (zlen d) = neoc_sha256_double (Some d) (zlen d).
Proof.
  unfold neoc_sha256_double, neoc_sha256, openssl_digest.
  pose proof (buf_slice_app [] d rest) as E. change (zlen []) with 0 in E. cbn [app] in E.
  rewrite E, buf_slice_all. done.
Qed.

(** ** The digests of a working library *)

Section Working.
Context `{Crypto}.
Hypothesis Hw : crypto_works.

Lemma sha256_ok d :
  exists h, neoc_sha256 (Some d) (zlen d) = Ok h /\ length h = 32%nat.
Proof.
  unfold neoc_sha256, openssl_digest. rewrite (works_initialized Hw), buf_slice_all.
  destruct (works_sha256 Hw d) as (h & -> & Hh). eauto.
Qed.

Lemma sha256_double_ok d :
  exists h, neoc_sha256_double (Some d) (zlen d) = Ok h /\ length h = 32%nat.
Proof.
  unfold neoc_sha256_double. destruct (sha256_ok d) as (h & -> & Hh). cbn [rbind].
  destruct (sha256_ok h) as (h2 & E & Hh2). unfold zlen in E. rewrite Hh in E.
  exists h2. done.
Qed.

Lemma hash160_digest d :
  exists h, neoc_hash160 (Some d) (zlen d) = Ok h /\ length h = 20%nat.
Proof.
  unfold neoc_hash160. destruct (sha256_ok d) as (h & -> & Hh). cbn [rbind].
  unfold neoc_ripemd160, openssl_digest. rewrite (works_initialized Hw).
  pose proof (buf_slice_all h) as Hs. unfold zlen in Hs. rewrite Hh in Hs.
  change (Z.of_nat 32) with 32 in Hs. rewrite Hs.
  destruct (works_ripemd160 Hw h) as (h2 & -> & Hh2). eauto.
Qed.
End Working.

(** ** A library to run the model with: digests of the right size that depend on
    every byte *)

Definition toy_mix (d : list byte) : Z :=
  foldl (fun acc b => (acc * 257 + Z_of_byte b + 1) mod (2 ^ 127 - 1)) 1 d.

Definition toy_crypto : Crypto := {|
  crypto_initialized := true;
  SHA256 d := Some (le_bytes 32 (toy_mix d ^ 2));
  RIPEMD160 d := Some (le_bytes 20 (toy_mix d + 7))
|}.

Lemma toy_crypto_works : @crypto_works toy_crypto.
Proof. split; [done|..]; intros d; eexists; (split; [done|apply length_le_bytes]). Qed.
