(* ===== verification/Hex.v ===== *)
(** * Hexadecimal text (src/utils/neoc_hex.c)

    Encoding into and decoding from a caller's buffer, the allocating variants, the
    validity test, normalisation and comparison.  Buffers are the state of the
    routines that fill them, so a store outside the caller's buffer is a [Fault].
    Reference definitions: [hex_of] (bytes to digits) and [of_hex] (digits to
    bytes). *)

From S2P Require Import Prelude BinaryWriter.

(** ** The C library calls the code uses *)

(** The digit of a nibble, as printed by ["%x"] and ["%X"]. *)
Definition hex_digit (uppercase : bool) (v : Z) : byte :=
  byte_of_Z (if v <? 10 then 48 + v else if uppercase then 65 + v - 10 else 97 + v - 10).

(** [sprintf(p, "%02x", b)]: two digits and a terminator. *)
Definition sprintf_02x (uppercase : bool) (b : byte) : list byte :=
  [hex_digit uppercase (Z_of_byte b / 16); hex_digit uppercase (Z_of_byte b mod 16);
   Byte.x00].

Definition tolower (c : byte) : byte :=
  let z := Z_of_byte c in
  if (65 <=? z) && (z <=? 90) then byte_of_Z (z + 32) else c.
Definition toupper (c : byte) : byte :=
  let z := Z_of_byte c in
  if (97 <=? z) && (z <=? 122) then byte_of_Z (z - 32) else c.

(** ** Operations *)

Definition has_0x (s : list byte) : bool :=
  match s with
  | c0 :: c1 :: _ =>
      (Z_of_byte c0 =? 48) && ((Z_of_byte c1 =? 120) || (Z_of_byte c1 =? 88))
  | _ => false
  end.

(** [strlen(hex) >= 2 && hex[0] == '0' && (hex[1] == 'x' || hex[1] == 'X')] *)
Definition neoc_hex_skip_prefix (s : list byte) : list byte :=
  if has_0x s then drop 2 s else s.

Definition neoc_hex_is_valid_char (c : byte) : bool :=
  let c := Z_of_byte c in
  ((48 <=? c) && (c <=? 57)) || ((97 <=? c) && (c <=? 102)) || ((65 <=? c) && (c <=? 70)).

Definition neoc_hex_char_to_value (c : byte) : Z :=
  let c := Z_of_byte c in
  if (48 <=? c) && (c <=? 57) then c - 48
  else if (97 <=? c) && (c <=? 102) then c - 97 + 10
  else if (65 <=? c) && (c <=? 70) then c - 65 + 10
  else -1.

Definition neoc_hex_value_to_char (value : Z) (uppercase : bool) : byte :=
  if (value <? 0) || (15 <? value) then Byte.x00
  else if value <? 10 then byte_of_Z (48 + value)
  else if uppercase then byte_of_Z (65 + value - 10)
  else byte_of_Z (97 + value - 10).

Definition neoc_hex_is_valid_string (s : option (list byte)) (allow_0x_prefix : bool)
  : bool :=
  match s with
  | None => false
  | Some s =>
      if zlen s =? 0 then false
      else
        let s := if allow_0x_prefix && has_0x s then drop 2 s else s in
        if zlen s =? 0 then false
        else if negb (zlen s mod 2 =? 0) then false
        else forallb neoc_hex_is_valid_char s
  end.

Definition neoc_hex_encode_buffer_size (data_length : Z) (include_prefix : bool) : Z :=
  wrap 64 ((if include_prefix then 2 else 0) + data_length * 2 + 1).

Definition neoc_hex_decode_buffer_size (s : option (list byte)) : Z :=
  match s with
  | None => 0
  | Some s => (if has_0x s then zlen s - 2 else zlen s) / 2
  end.

(** The loop of [neoc_hex_encode]: each [sprintf] also writes a terminator, which
    the next one overwrites. *)
Fixpoint encode_loop (uppercase : bool) (offset : Z) (data : list byte)
  : M (list byte) unit :=
  match data with
  | [] => ret tt
  | b :: data =>
      do! store offset (sprintf_02x uppercase b) in
      encode_loop uppercase (offset + 2) data
  end.

Definition neoc_hex_encode (data : option (list byte)) (data_length buffer_size : Z)
    (uppercase include_prefix : bool) : M (list byte) unit :=
  match data with
  | None => fail NEOC_ERROR_INVALID_ARGUMENT
  | Some data =>
      let prefix_len := if include_prefix then 2 else 0 in
      let required_size := wrap 64 (prefix_len + data_length * 2 + 1) in
      if buffer_size <? required_size then fail NEOC_ERROR_BUFFER_TOO_SMALL
      else
        do! (if include_prefix
             then do! store 0 [Byte.x30] in store 1 [Byte.x78]
             else ret tt) in
        match buf_slice data 0 data_length with
        | None => fault
        | Some data =>
            do! encode_loop uppercase prefix_len data in
            store (prefix_len + data_length * 2) [Byte.x00]
        end
  end.

(** The loop of [neoc_hex_decode]. *)
Fixpoint decode_loop (i : Z) (hex : list byte) : M (list byte) unit :=
  match hex with
  | high :: low :: hex =>
      let high_val := neoc_hex_char_to_value high in
      let low_val := neoc_hex_char_to_value low in
      if (high_val =? -1) || (low_val =? -1) then fail NEOC_ERROR_INVALID_FORMAT
      else
        do! store i [byte_of_Z (Z.lor (Z.shiftl high_val 4) low_val)] in
        decode_loop (i + 1) hex
  | _ => ret tt
  end.

(** The number of bytes decoded into the buffer. *)
Definition neoc_hex_decode (s : option (list byte)) (buffer_size : Z) : M (list byte) Z :=
  match s with
  | None => fail NEOC_ERROR_INVALID_ARGUMENT
  | Some s =>
      let hex := neoc_hex_skip_prefix s in
      let hex_len := zlen hex in
      if negb (hex_len mod 2 =? 0) then fail NEOC_ERROR_INVALID_FORMAT
      else
        let output_len := hex_len / 2 in
        if buffer_size <? output_len then fail NEOC_ERROR_BUFFER_TOO_SMALL
        else do! decode_loop 0 hex in ret output_len
  end.

Section Allocating.
Context `{Allocator}.

(** What an uninitialised byte of the heap holds. *)
Variable junk : byte.

(** A routine that returns a pointer: [Err e] stands for NULL with [e] recorded as
    the thread's last error. *)
Definition neoc_hex_encode_alloc (data : option (list byte)) (data_length : Z)
    (uppercase include_prefix : bool) : res (list byte) :=
  if negb (match data with Some _ => true | None => false end) && (0 <? data_length)
  then Err NEOC_ERROR_INVALID_ARGUMENT
  else
    let buffer_size := neoc_hex_encode_buffer_size data_length include_prefix in
    if negb (neoc_malloc_ok buffer_size) then Err NEOC_ERROR_MEMORY
    else
      match neoc_hex_encode data data_length buffer_size uppercase include_prefix
              (replicate (Z.to_nat buffer_size) junk) with
      | (Ok _, buffer) => Ok (cstring buffer)
      | (Err e, _) => Err e
      | (Fault, _) => Fault
      end.

Definition neoc_hex_decode_alloc (s : option (list byte)) : res (list byte) :=
  match s with
  | None => Err NEOC_ERROR_INVALID_ARGUMENT
  | Some _ =>
      let buffer_size := neoc_hex_decode_buffer_size s in
      if buffer_size =? 0 then Err NEOC_ERROR_INVALID_FORMAT
      else if negb (neoc_malloc_ok buffer_size) then Err NEOC_ERROR_MEMORY
      else
        match neoc_hex_decode s buffer_size (replicate (Z.to_nat buffer_size) junk) with
        | (Ok n, buffer) => Ok (take (Z.to_nat n) buffer)
        | (Err e, _) => Err e
        | (Fault, _) => Fault
        end
  end.

Definition neoc_hex_encode_reverse (data : option (list byte)) (data_len : Z)
  : res (list byte) :=
  match data with
  | None => Err NEOC_ERROR_INVALID_ARGUMENT
  | Some data =>
      let buffer_size := wrap 64 (data_len * 2 + 1) in
      if negb (neoc_malloc_ok buffer_size) then Err NEOC_ERROR_MEMORY
      else if negb (neoc_malloc_ok data_len) then Err NEOC_ERROR_MEMORY
      else
        match buf_slice data 0 data_len with
        | None => Fault
        | Some data =>
            match neoc_hex_encode (Some (reverse data)) data_len buffer_size false false
                    (replicate (Z.to_nat buffer_size) junk) with
            | (Ok _, buffer) => Ok (cstring buffer)
            | (Err e, _) => Err e
            | (Fault, _) => Fault
            end
        end
  end.

(** The length handed back is computed from the whole string, prefix included; the
    number of bytes [neoc_hex_decode] stored is ignored. *)
Definition neoc_hex_decode_reverse (s : option (list byte)) : res (list byte) :=
  match s with
  | None => Err NEOC_ERROR_INVALID_ARGUMENT
  | Some hex =>
      let hex_len := zlen hex in
      if negb (hex_len mod 2 =? 0) then Err NEOC_ERROR_INVALID_FORMAT
      else
        let data_len := hex_len / 2 in
        if negb (neoc_malloc_ok data_len) then Err NEOC_ERROR_MEMORY
        else
          match neoc_hex_decode s data_len (replicate (Z.to_nat data_len) junk) with
          | (Ok _, data) => Ok (reverse_in_place data)
          | (Err e, _) => Err e
          | (Fault, _) => Fault
          end
  end.
End Allocating.

(** The loop of [neoc_hex_normalize]. *)
Fixpoint normalize_loop (uppercase : bool) (i : Z) (s : list byte) : M (list byte) unit :=
  match s with
  | [] => ret tt
  | c :: s =>
      if negb (neoc_hex_is_valid_char c) then fail NEOC_ERROR_INVALID_FORMAT
      else
        do! store i [if uppercase then toupper c else tolower c] in
        normalize_loop uppercase (i + 1) s
  end.

Definition neoc_hex_normalize (s : option (list byte)) (buffer_size : Z)
    (uppercase : bool) : M (list byte) unit :=
  match s with
  | None => fail NEOC_ERROR_INVALID_ARGUMENT
  | Some s =>
      let trimmed := neoc_hex_skip_prefix s in
      let len := zlen trimmed in
      if negb (len mod 2 =? 0) then fail NEOC_ERROR_INVALID_FORMAT
      else if buffer_size <? wrap 64 (len + 1) then fail NEOC_ERROR_BUFFER_TOO_SMALL
      else
        do! normalize_loop uppercase 0 trimmed in
        store len [Byte.x00]
  end.

(** The comparison loop up to the shorter length, then the lengths. *)
Fixpoint compare_loop (a b : list byte) : Z :=
  match a, b with
  | ca :: a, cb :: b =>
      let ca := Z_of_byte (tolower ca) in
      let cb := Z_of_byte (tolower cb) in
      if negb (ca =? cb) then ca - cb else compare_loop a b
  | [], [] => 0
  | [], _ :: _ => -1
  | _ :: _, [] => 1
  end.

(** Two equal pointers compare equal at once (this matters for two NULLs; equal
    contents compare equal anyway); [strlen] of a single NULL faults. *)
Definition neoc_hex_compare (hex1 hex2 : option (list byte)) : res Z :=
  match hex1, hex2 with
  | None, None => Ok 0
  | Some hex1, Some hex2 =>
      let a := neoc_hex_skip_prefix hex1 in
      let b := neoc_hex_skip_prefix hex2 in
      if negb (zlen a mod 2 =? 0) || negb (zlen b mod 2 =? 0)
      then Ok (swrap 32 (zlen a - zlen b))
      else Ok (compare_loop a b)
  | _, _ => Fault
  end.

Definition neoc_hex_equal (hex1 hex2 : option (list byte)) : res bool :=
  let? c := neoc_hex_compare hex1 hex2 in Ok (c =? 0).

(** ** Reference definitions *)

Definition hex_of (uppercase : bool) (bs : list byte) : list byte :=
  flat_map (fun b => [hex_digit uppercase (Z_of_byte b / 16);
                      hex_digit uppercase (Z_of_byte b mod 16)]) bs.

Fixpoint of_hex (s : list byte) : option (list byte) :=
  match s with
  | [] => Some []
  | [_] => None
  | h :: l :: s =>
      if (neoc_hex_char_to_value h =? -1) || (neoc_hex_char_to_value l =? -1) then None
      else
        match of_hex s with
        | Some bs =>
            Some (byte_of_Z (16 * neoc_hex_char_to_value h + neoc_hex_char_to_value l) :: bs)
        | None => None
        end
  end.

(** ** Digits *)

Lemma nibble_digit up v :
  0 <= v < 16 ->
  neoc_hex_char_to_value (hex_digit up v) = v /\
  neoc_hex_is_valid_char (hex_digit up v) = true /\ hex_digit up v <> Byte.x00 /\
  tolower (hex_digit up v) = hex_digit false v.
Proof.
  intros Hv.
  assert (v = 0 \/ v = 1 \/ v = 2 \/ v = 3 \/ v = 4 \/ v = 5 \/ v = 6 \/ v = 7 \/ v = 8
          \/ v = 9 \/ v = 10 \/ v = 11 \/ v = 12 \/ v = 13 \/ v = 14 \/ v = 15) as Hc by lia.
  destruct up; repeat destruct Hc as [->|Hc]; try subst v; vm_compute;
    split_and!; done.
Qed.

Lemma nibbles b : 0 <= Z_of_byte b / 16 < 16 /\ 0 <= Z_of_byte b mod 16 < 16.
Proof. pose proof (Z_of_byte_range b). dlia. Qed.

(** A byte, by its value: facts about one character are decided on all 256. *)
Ltac by_bytes f :=
  match goal with
  | c : byte |- _ => apply (eqb_prop _ _ (byte_forall f eq_refl c))
  end.

Lemma valid_char_value c :
  neoc_hex_is_valid_char c = negb (neoc_hex_char_to_value c =? -1).
Proof.
  unfold neoc_hex_is_valid_char, neoc_hex_char_to_value. cbv zeta.
  by_bytes (fun z => Bool.eqb
    (((48 <=? z) && (z <=? 57)) || ((97 <=? z) && (z <=? 102)) || ((65 <=? z) && (z <=? 70)))
    (negb ((if (48 <=? z) && (z <=? 57) then z - 48
            else if (97 <=? z) && (z <=? 102) then z - 97 + 10
            else if (65 <=? z) && (z <=? 70) then z - 65 + 10 else -1) =? -1))).
Qed.

Lemma char_value_range c : -1 <= neoc_hex_char_to_value c < 16.
Proof.
  unfold neoc_hex_char_to_value. cbv zeta.
  repeat match goal with |- context [if ?b then _ else _] => destruct b eqn:? end;
    bdestruct; lia.
Qed.

Lemma or_nibbles h l :
  0 <= h < 16 -> 0 <= l < 16 -> Z.lor (Z.shiftl h 4) l = 16 * h + l.
Proof.
  intros. rewrite Z.lor_comm, lor_shiftl_add by (cbn; lia). change (2 ^ 4) with 16. lia.
Qed.

Lemma length_hex_of up bs : zlen (hex_of up bs) = 2 * zlen bs.
Proof. unfold hex_of. induction bs; cbn [flat_map app]; zlia. Qed.

Lemma of_hex_of up bs : of_hex (hex_of up bs) = Some bs.
Proof.
  induction bs as [|b bs IH]; [done|]. destruct (nibbles b) as [Hh Hl].
  change (hex_of up (b :: bs)) with (hex_digit up (Z_of_byte b / 16)
    :: hex_digit up (Z_of_byte b mod 16) :: hex_of up bs).
  cbn [of_hex]. rewrite IH.
  destruct (nibble_digit up _ Hh) as [-> _], (nibble_digit up _ Hl) as [-> _]. cmps.
  rewrite <- Z.div_mod, byte_of_Z_of_byte by lia. done.
Qed.

Lemma hex_of_chars up bs : Forall (fun b => b <> Byte.x00) (hex_of up bs).
Proof.
  unfold hex_of. apply Forall_flat_map. apply Forall_forall. intros b _.
  destruct (nibbles b) as [Hh Hl]. repeat constructor; by apply nibble_digit.
Qed.

Lemma has_0x_hex_of up bs : has_0x (hex_of up bs) = false.
Proof.
  destruct bs as [|b bs]; [done|]. destruct (nibbles b) as [_ Hl].
  destruct (nibble_digit up _ Hl) as (_ & Hv & _).
  cbn [hex_of flat_map app has_0x]. apply andb_false_intro2.
  revert Hv. generalize (hex_digit up (Z_of_byte b mod 16)). intros c.
  unfold neoc_hex_is_valid_char. cbv zeta. intros Hv.
  apply orb_false_iff. split; apply Z.eqb_neq; intros E; rewrite E in Hv; done.
Qed.

Lemma skip_prefix_hex_of up bs : neoc_hex_skip_prefix (hex_of up bs) = hex_of up bs.
Proof. unfold neoc_hex_skip_prefix. rewrite has_0x_hex_of. done. Qed.

(** Induction two characters at a time. *)
Lemma pair_ind {A} (P : list A -> Prop) :
  P [] -> (forall x, P [x]) -> (forall x y l, P l -> P (x :: y :: l)) -> forall l, P l.
Proof.
  intros H0 H1 H2 l. enough (P l /\ forall x, P (x :: l)) by tauto.
  induction l as [|x l [IH1 IH2]]; split; auto.
Qed.

Lemma even_cons2 {A} (x y : A) l : zlen (x :: y :: l) mod 2 = zlen l mod 2.
Proof.
  rewrite !zlen_cons. replace (1 + (1 + zlen l)) with (zlen l + 1 * 2) by lia.
  apply Z.mod_add. lia.
Qed.

Lemma half_cons2 {A} (x y : A) l : zlen (x :: y :: l) / 2 = 1 + zlen l / 2.
Proof.
  rewrite !zlen_cons. replace (1 + (1 + zlen l)) with (1 * 2 + zlen l) by lia.
  apply Z.div_add_l. lia.
Qed.

Lemma of_hex_valid s :
  (exists bs, of_hex s = Some bs) <->
  zlen s mod 2 = 0 /\ forallb neoc_hex_is_valid_char s = true.
Proof.
  induction s as [|c|h l s IH] using pair_ind.
  - split; [done|]. exists []. done.
  - split; [intros [? [=]]|]. intros [? _]. done.
  - rewrite even_cons2. cbn [of_hex forallb]. rewrite !valid_char_value.
    destruct (_ =? -1), (_ =? -1); cbn [negb andb orb];
      try (split; [intros [? [=]]|intros [_ ?]; done]).
    rewrite <- IH. destruct (of_hex s) as [bs|];
      split; intros [? [=]]; eexists; done.
Qed.

Lemma length_of_hex s bs : of_hex s = Some bs -> zlen bs = zlen s / 2.
Proof.
  revert bs. induction s as [|c|h l s IH] using pair_ind; intros bs; cbn [of_hex].
  - intros [= <-]. done.
  - done.
  - destruct (_ || _); [done|]. destruct (of_hex s) as [bs'|]; [|done].
    intros [= <-]. rewrite half_cons2, zlen_cons, (IH bs') by done. done.
Qed.

(** ** The loops *)

Lemma encode_loop_spec up data : forall filled rest,
  2 * zlen data + 1 <= zlen rest ->
  exists rest', encode_loop up (zlen filled) data (filled ++ rest)
                = (Ok tt, (filled ++ hex_of up data) ++ rest') /\
                zlen rest' = zlen rest - 2 * zlen data.
Proof.
  induction data as [|b data IH]; intros filled rest Hl; cbn [encode_loop].
  - exists rest. rewrite app_nil_r. split; [done|zlia].
  - rewrite zlen_cons in Hl. pose proof (zlen_nonneg data).
    unfold sprintf_02x. set (d1 := hex_digit up (Z_of_byte b / 16)).
    set (d2 := hex_digit up (Z_of_byte b mod 16)).
    rewrite (bind_ok _ _ _ _ _ (store_next filled [d1; d2; Byte.x00] rest ltac:(zlia))).
    replace ((filled ++ [d1; d2; Byte.x00]) ++ drop (length [d1; d2; Byte.x00]) rest)
      with ((filled ++ [d1; d2]) ++ Byte.x00 :: drop 3 rest)
      by (rewrite <- !app_assoc; done).
    replace (zlen filled + 2) with (zlen (filled ++ [d1; d2])) by (rewrite zlen_app; done).
    assert (zlen (Byte.x00 :: drop 3 rest) = zlen rest - 2) as Hd.
    { rewrite zlen_cons. unfold zlen in *. rewrite length_drop. lia. }
    destruct (IH (filled ++ [d1; d2]) (Byte.x00 :: drop 3 rest)) as (rest' & -> & Hr); [lia|].
    exists rest'. split; [|rewrite zlen_cons; lia]. f_equal. f_equal.
    rewrite <- app_assoc. done.
Qed.

Definition prefix_0x (include_prefix : bool) : list byte :=
  if include_prefix then [Byte.x30; Byte.x78] else [].

Lemma zlen_prefix pre : zlen (prefix_0x pre) = if pre then 2 else 0.
Proof. destruct pre; done. Qed.

Lemma hex_encode_spec data size up pre buf :
  zlen buf = size -> zlen (prefix_0x pre) + 2 * zlen data + 1 <= size < 2 ^ 64 ->
  exists rest,
    neoc_hex_encode (Some data) (zlen data) size up pre buf
    = (Ok tt, (prefix_0x pre ++ hex_of up data) ++ Byte.x00 :: rest) /\
    zlen rest = size - (zlen (prefix_0x pre) + 2 * zlen data + 1).
Proof.
  intros Hb Hs. unfold neoc_hex_encode. cbv zeta. rewrite <- zlen_prefix.
  pose proof (zlen_nonneg data). pose proof (zlen_nonneg (prefix_0x pre)).
  rewrite wrap_small by lia. cmps. rewrite buf_slice_all.
  assert (exists rest, (if pre then do! store 0 [Byte.x30] in store 1 [Byte.x78]
            else ret tt) buf = (Ok tt, prefix_0x pre ++ rest) /\
            zlen rest = size - zlen (prefix_0x pre)) as (rest & Er & Hr).
  { destruct pre; [|exists buf; split; [done|rewrite zlen_prefix; lia]].
    rewrite zlen_prefix in Hs.
    rewrite (bind_ok _ _ _ _ _ (store_next [] [Byte.x30] buf ltac:(zlia))).
    exists (drop 2 buf). rewrite zlen_prefix. split.
    - rewrite (store_next [Byte.x30] [Byte.x78]); [rewrite drop_drop; done|].
      unfold zlen in *. rewrite length_drop. cbn. lia.
    - unfold zlen in *. rewrite length_drop. lia. }
  rewrite (bind_ok _ _ _ _ _ Er).
  destruct (encode_loop_spec up data (prefix_0x pre) rest) as (rest' & El & Hr'); [lia|].
  rewrite (bind_ok _ _ _ _ _ El).
  replace (zlen (prefix_0x pre) + zlen data * 2)
    with (zlen (prefix_0x pre ++ hex_of up data)) by (rewrite zlen_app, length_hex_of; lia).
  rewrite store_next by zlia. exists (drop 1 rest').
  rewrite <- app_assoc. split; [done|]. unfold zlen in *. rewrite length_drop. lia.
Qed.

Lemma decode_loop_spec hex : forall filled rest,
  zlen hex / 2 <= zlen rest -> zlen hex mod 2 = 0 ->
  exists buf, zlen buf = zlen (filled ++ rest) /\
  match of_hex hex with
  | Some bs =>
      decode_loop (zlen filled) hex (filled ++ rest) = (Ok tt, buf) /\
      buf = (filled ++ bs) ++ drop (length bs) rest
  | None => decode_loop (zlen filled) hex (filled ++ rest) = (Err NEOC_ERROR_INVALID_FORMAT, buf)
  end.
Proof.
  induction hex as [|c|h l hex IH] using pair_ind; intros filled rest Hl He.
  - exists (filled ++ rest). cbn. rewrite app_nil_r. done.
  - done.
  - rewrite half_cons2 in Hl. rewrite even_cons2 in He. cbn [decode_loop of_hex].
    assert (0 <= zlen hex / 2) by (pose proof (zlen_nonneg hex); dlia).
    pose proof (char_value_range h). pose proof (char_value_range l).
    destruct (_ || _) eqn:E; [exists (filled ++ rest); done|]. bdestruct.
    rewrite or_nibbles by lia. set (b := byte_of_Z _).
    rewrite (bind_ok _ _ _ _ _ (store_next filled [b] rest ltac:(zlia))).
    cbn [length]. replace (zlen filled + 1) with (zlen (filled ++ [b])) by (rewrite zlen_app; done).
    assert (zlen (drop 1 rest) = zlen rest - 1) as Hd.
    { unfold zlen in *. rewrite length_drop. lia. }
    destruct (IH (filled ++ [b]) (drop 1 rest)) as (buf & Hb & IH'); [lia|done|].
    exists buf. split; [zlia|]. destruct (of_hex hex) as [bs|]; [|done].
    destruct IH' as [-> ->]. split; [done|]. rewrite drop_drop, <- !app_assoc. done.
Qed.

(** [neoc_hex_decode] computes [of_hex] of the string behind an optional prefix, for
    every string and every buffer that is large enough. *)
Lemma hex_decode_spec s size buf :
  zlen buf = size -> zlen (neoc_hex_skip_prefix s) / 2 <= size ->
  match of_hex (neoc_hex_skip_prefix s) with
  | Some bs => neoc_hex_decode (Some s) size buf = (Ok (zlen bs), bs ++ drop (length bs) buf)
  | None => exists buf', neoc_hex_decode (Some s) size buf
                         = (Err NEOC_ERROR_INVALID_FORMAT, buf') /\ zlen buf' = size
  end.
Proof.
  intros Hb Hs. unfold neoc_hex_decode. cbv zeta. set (hex := neoc_hex_skip_prefix s) in *.
  destruct (zlen hex mod 2 =? 0) eqn:E; cbn [negb]; bdestruct.
  - cmps. destruct (decode_loop_spec hex [] buf) as (buf' & Hl & Hd); [lia|done|].
    destruct (of_hex hex) as [bs|] eqn:Eh.
    + destruct Hd as [Hd ->]. rewrite (bind_ok _ _ _ _ _ Hd).
      rewrite <- (length_of_hex _ _ Eh). done.
    + rewrite (bind_err _ _ _ _ _ Hd). exists buf'. split; [done|]. rewrite Hl. done.
  - destruct (of_hex hex) as [bs|] eqn:Eh; [|eauto].
    destruct (proj1 (of_hex_valid hex)) as [? _]; [by exists bs|lia].
Qed.

Lemma normalize_char up c :
  neoc_hex_is_valid_char c = true ->
  (if up : bool then toupper c else tolower c) = hex_digit up (neoc_hex_char_to_value c).
Proof.
  intros Hv. apply Z_of_byte_inj. revert Hv. rewrite <- (byte_of_Z_of_byte c).
  pose proof (Z_of_byte_range c) as Hr. generalize (Z_of_byte c) Hr. clear c Hr.
  intros z Hz Hv. apply Z.eqb_eq.
  assert (forallb (fun n => let c := byte_of_Z (Z.of_nat n) in
    negb (neoc_hex_is_valid_char c) ||
    (Z_of_byte (if up then toupper c else tolower c) =?
     Z_of_byte (hex_digit up (neoc_hex_char_to_value c)))) (seq 0 256) = true) as Hall
    by (destruct up; vm_compute; done).
  rewrite forallb_forall in Hall. specialize (Hall (Z.to_nat z)).
  cbv zeta in Hall. rewrite Z2Nat.id, Hv in Hall by lia. apply Hall. apply in_seq. lia.
Qed.

Lemma of_hex_digits up s bs :
  of_hex s = Some bs ->
  map (fun c => if up : bool then toupper c else tolower c) s = hex_of up bs.
Proof.
  revert bs. induction s as [|c|h l s IH] using pair_ind; intros bs; cbn [of_hex].
  - intros [= <-]. done.
  - done.
  - destruct (_ || _) eqn:E; [done|]. destruct (of_hex s) as [bs'|]; [|done].
    intros [= <-]. apply orb_false_iff in E as [Eh El].
    cbn [map hex_of flat_map app]. rewrite (IH bs') by done.
    rewrite !normalize_char by (rewrite valid_char_value, ?Eh, ?El; done).
    bdestruct. pose proof (char_value_range h). pose proof (char_value_range l).
    rewrite Z_of_byte_small by lia.
    set (x := neoc_hex_char_to_value h) in *. set (y := neoc_hex_char_to_value l) in *.
    replace ((16 * x + y) / 16) with x by dlia.
    replace ((16 * x + y) mod 16) with y by dlia. done.
Qed.

Lemma normalize_loop_spec up s : forall filled rest,
  zlen s <= zlen rest ->
  exists buf, zlen buf = zlen (filled ++ rest) /\
  if forallb neoc_hex_is_valid_char s then
    normalize_loop up (zlen filled) s (filled ++ rest) = (Ok tt, buf) /\
    buf = (filled ++ map (fun c => if up : bool then toupper c else tolower c) s)
          ++ drop (length s) rest
  else normalize_loop up (zlen filled) s (filled ++ rest)
       = (Err NEOC_ERROR_INVALID_FORMAT, buf).
Proof.
  induction s as [|c s IH]; intros filled rest Hl; cbn [normalize_loop forallb map].
  - exists (filled ++ rest). rewrite app_nil_r. done.
  - rewrite zlen_cons in Hl. pose proof (zlen_nonneg s).
    destruct (neoc_hex_is_valid_char c); cbn [negb andb]; [|exists (filled ++ rest); done].
    set (d := if up then _ else _).
    rewrite (bind_ok _ _ _ _ _ (store_next filled [d] rest ltac:(zlia))).
    cbn [length]. replace (zlen filled + 1) with (zlen (filled ++ [d])) by (rewrite zlen_app; done).
    assert (zlen (drop 1 rest) = zlen rest - 1) as Hd.
    { unfold zlen in *. rewrite length_drop. lia. }
    destruct (IH (filled ++ [d]) (drop 1 rest)) as (buf & Hb & IH'); [lia|].
    exists buf. split; [zlia|]. destruct (forallb _ s); [|done].
    destruct IH' as [-> ->]. split; [done|]. rewrite drop_drop, <- !app_assoc. done.
Qed.

Lemma compare_loop_zero a b :
  compare_loop a b = 0 <-> map tolower a = map tolower b.
Proof.
  revert b. induction a as [|ca a IH]; intros [|cb b]; cbn [compare_loop map]; try done.
  destruct (Z_of_byte (tolower ca) =? _) eqn:E; cbn [negb]; bdestruct.
  - apply Z_of_byte_inj in E. rewrite IH, E. split; [intros ->; done|intros [=]; done].
  - split; [lia|]. intros [= E' _]. rewrite E' in E. done.
Qed.

Lemma hex_of_inj up a b : hex_of up a = hex_of up b -> a = b.
Proof.
  intros E. apply (f_equal of_hex) in E. rewrite !of_hex_of in E. congruence.
Qed.

(** ** Properties *)

(** The text in a block of its own, and back. *)
Lemma hex_encode_alloc_text `{Allocator} (junk : byte) data uppercase prefix :
  data <> [] -> zlen data <= 2 ^ 62 -> heap_serves (2 * zlen data + 3) ->
  neoc_hex_encode_alloc junk (Some data) (zlen data) uppercase prefix = Ok (prefix_0x prefix ++ hex_of uppercase data).
Proof.
  intros Hne Hl Hh. assert (0 < zlen data) as Hp by (by apply zlen_pos).
  unfold neoc_hex_encode_alloc, neoc_hex_encode_buffer_size, neoc_malloc_ok.
  cbn [negb andb]. cbv zeta. rewrite <- zlen_prefix.
  assert (0 <= zlen (prefix_0x prefix) <= 2) by (rewrite zlen_prefix; destruct prefix; lia).
  rewrite wrap_small, Z.mul_comm by lia. cmps. rewrite Hh by lia. cbn [negb].
  set (n := zlen (prefix_0x prefix) + 2 * zlen data + 1).
  destruct (hex_encode_spec data n uppercase prefix (replicate (Z.to_nat n) junk))
    as (rest & -> & _); [unfold zlen at 1; rewrite length_replicate; lia|lia|].
  rewrite cstring_app; [done|]. apply Forall_app. split; [|apply hex_of_chars]. by destruct prefix; repeat constructor.
Qed.

Lemma hex_decode_alloc_text `{Allocator} (junk : byte) data uppercase prefix :
  data <> [] -> zlen data <= 2 ^ 62 -> heap_serves (zlen data) ->
  neoc_hex_decode_alloc junk (Some (prefix_0x prefix ++ hex_of uppercase data)) = Ok data.
Proof.
  intros Hne Hl Hh. assert (0 < zlen data) as Hp by (by apply zlen_pos).
  set (s := prefix_0x prefix ++ hex_of uppercase data).
  unfold neoc_hex_decode_alloc, neoc_hex_decode_buffer_size. cbv zeta.
  assert (neoc_hex_skip_prefix s = hex_of uppercase data) as Hskip.
  { unfold s. destruct prefix; [done|apply skip_prefix_hex_of]. }
  assert ((if has_0x s then zlen s - 2 else zlen s) / 2 = zlen data) as ->.
  { unfold s. destruct prefix; cbn [prefix_0x app]; [|rewrite has_0x_hex_of].
    - change (has_0x _) with true. cbn iota. rewrite !zlen_cons, length_hex_of. dlia.
    - rewrite length_hex_of. dlia. }
  unfold neoc_malloc_ok. cmps. rewrite Hh by lia. cbn [negb].
  pose proof (hex_decode_spec s (zlen data) (replicate (Z.to_nat (zlen data)) junk)) as Hd.
  rewrite Hskip, of_hex_of in Hd. rewrite Hd.
  - unfold zlen. rewrite Nat2Z.id, take_app_length. done.
  - unfold zlen at 1. rewrite length_replicate. lia.
  - rewrite length_hex_of. dlia.
Qed.

(** Text round trip: encoding any non-empty byte array, in either case and with
    or without the [0x] prefix, and decoding the text gives the array back. *)
Theorem hex_roundtrip `{Allocator} (junk : byte) (data : list byte) (uppercase prefix : bool) :
  data <> [] -> zlen data <= 2 ^ 62 -> heap_serves (2 * zlen data + 3) ->
  (let? s := neoc_hex_encode_alloc junk (Some data) (zlen data) uppercase prefix in
   neoc_hex_decode_alloc junk (Some s)) = Ok data.
Proof.
  intros Hne Hl Hh. rewrite hex_encode_alloc_text; [|done|lia|eapply heap_serves_mono; [done|lia]].
  cbn [rbind]. apply hex_decode_alloc_text; [done|lia|]. eapply heap_serves_mono; [done|]. pose proof (zlen_nonneg data). lia.
Qed.

Lemma hex_roundtrip_witness :
  (let? s := @neoc_hex_encode_alloc mib_heap Byte.xcd (Some [Byte.x0f; Byte.xa5]) 2 true true in
   @neoc_hex_decode_alloc mib_heap Byte.xcd (Some s)) = Ok [Byte.x0f; Byte.xa5].
Proof.
  apply (@hex_roundtrip mib_heap Byte.xcd [Byte.x0f; Byte.xa5] true true).
  - discriminate.
  - vm_compute. discriminate.
  - apply mib_heap_serves. vm_compute. discriminate.
Defined.

(** The validity test is the decoder's acceptance condition: for every string
    with something behind the optional prefix and every buffer of half its length,
    [neoc_hex_decode] succeeds exactly when [neoc_hex_is_valid_string] says so, and
    it never writes outside the buffer. *)
Theorem hex_decode_iff_valid (s buf : list byte) :
  neoc_hex_skip_prefix s <> [] -> zlen s / 2 <= zlen buf ->
  is_ok (fst (neoc_hex_decode (Some s) (zlen buf) buf)) = neoc_hex_is_valid_string (Some s) true /\
  fst (neoc_hex_decode (Some s) (zlen buf) buf) <> Fault.
Proof.
  intros Hne Hl. set (hex := neoc_hex_skip_prefix s) in *.
  assert (zlen hex <= zlen s) as Hle.
  { unfold hex, neoc_hex_skip_prefix. destruct (has_0x s); [|done].
    unfold zlen. rewrite length_drop. lia. }
  assert (neoc_hex_is_valid_string (Some s) true = true <-> exists bs, of_hex hex = Some bs) as Hv.
  { rewrite of_hex_valid. unfold neoc_hex_is_valid_string. cbn [andb]. cbv zeta.
    change (if has_0x s then drop 2 s else s) with hex.
    destruct (zlen hex =? 0) eqn:E0; bdestruct; [by apply zlen_zero in E0|].
    pose proof (zlen_nonneg hex). cmps.
    destruct (zlen hex mod 2 =? 0) eqn:E; cbn [negb]; bdestruct; intuition (done || lia). }
  pose proof (hex_decode_spec s (zlen buf) buf eq_refl) as Hd. fold hex in Hd.
  destruct (of_hex hex) as [bs|].
  - rewrite Hd by (etrans; [|apply Hl]; dlia). split; [|done].
    symmetry. apply Hv. eauto.
  - destruct Hd as (buf' & -> & _); [etrans; [|apply Hl]; dlia|]. split; [|done].
    cbn [is_ok fst]. destruct (neoc_hex_is_valid_string _ _); [|done].
    destruct (proj1 Hv eq_refl). congruence.
Qed.

Lemma hex_decode_iff_valid_witness :
  is_ok (fst (neoc_hex_decode (Some (str "0xab1g")) 3 [Byte.x00; Byte.x00; Byte.x00])) = false.
Proof.
  pose proof (hex_decode_iff_valid (str "0xab1g") [Byte.x00; Byte.x00; Byte.x00]
    ltac:(discriminate) ltac:(vm_compute; discriminate)) as [H _].
  exact H.
Defined.

(** Normalisation is canonical: [neoc_hex_normalize] writes the digits of the
    bytes the string denotes, so two strings normalise to the same text exactly when
    they decode to the same bytes, and it refuses exactly what the decoder refuses. *)
Theorem hex_normalize_canonical (s buf : list byte) (uppercase : bool) :
  zlen s + 1 <= zlen buf < 2 ^ 64 ->
  let '(r, buf') := neoc_hex_normalize (Some s) (zlen buf) uppercase buf in
  match of_hex (neoc_hex_skip_prefix s) with
  | Some bs => r = Ok tt /\ cstring buf' = hex_of uppercase bs
  | None => r = Err NEOC_ERROR_INVALID_FORMAT
  end.
Proof.
  intros Hl. unfold neoc_hex_normalize. cbv zeta. set (hex := neoc_hex_skip_prefix s) in *.
  assert (zlen hex <= zlen s) as Hle.
  { unfold hex, neoc_hex_skip_prefix. destruct (has_0x s); [|done].
    unfold zlen. rewrite length_drop. lia. }
  pose proof (zlen_nonneg hex). pose proof (of_hex_valid hex) as Hv.
  destruct (zlen hex mod 2 =? 0) eqn:E; cbn [negb]; bdestruct.
  2: { destruct (of_hex hex); [|done]. destruct (proj1 Hv) as [? _]; [eauto|lia]. }
  rewrite wrap_small by lia. cmps.
  destruct (normalize_loop_spec uppercase hex [] buf) as (buf1 & Hb & Hn); [lia|].
  destruct (forallb _ hex) eqn:Ef.
  - destruct Hn as [Hn ->]. rewrite (bind_ok _ _ _ _ _ Hn). cbn [app].
    destruct (proj2 Hv) as [bs Hbs]; [done|]. rewrite Hbs.
    rewrite (of_hex_digits uppercase _ _ Hbs).
    assert (zlen hex = zlen (hex_of uppercase bs)) as ->.
    { rewrite length_hex_of, (length_of_hex _ _ Hbs). dlia. }
    rewrite store_next.
    2: { assert (zlen (drop (length hex) buf) = zlen buf - zlen hex); [|zlia].
         unfold zlen in *. rewrite length_drop. lia. }
    split; [done|]. rewrite <- app_assoc. apply cstring_app, hex_of_chars.
  - rewrite (bind_err _ _ _ _ _ Hn). destruct (of_hex hex); [|done].
    destruct (proj1 Hv) as [_ ?]; [eauto|done].
Qed.

Lemma hex_normalize_canonical_witness :
  let '(r, buf') := neoc_hex_normalize (Some (str "0xAb")) 5 false (replicate 5 Byte.xcd) in
  r = Ok tt /\ cstring buf' = str "ab".
Proof.
  apply (hex_normalize_canonical (str "0xAb") (replicate 5 Byte.xcd) false).
  vm_compute. split; discriminate || reflexivity.
Defined.

(** Comparison of well-formed text: two strings that decode are equal for
    [neoc_hex_equal] exactly when they denote the same bytes, whatever the case of
    the digits and the presence of the prefix. *)
Theorem hex_equal_iff_same_bytes (a b x y : list byte) :
  of_hex (neoc_hex_skip_prefix a) = Some x -> of_hex (neoc_hex_skip_prefix b) = Some y ->
  neoc_hex_equal (Some a) (Some b) = Ok (bool_decide (x = y)).
Proof.
  intros Ha Hb. unfold neoc_hex_equal, neoc_hex_compare. cbv zeta.
  destruct (proj1 (of_hex_valid _) (ex_intro _ _ Ha)) as [-> _].
  destruct (proj1 (of_hex_valid _) (ex_intro _ _ Hb)) as [-> _].
  cbn [negb orb rbind Z.eqb]. f_equal.
  pose proof (of_hex_digits false _ _ Ha) as Da. pose proof (of_hex_digits false _ _ Hb) as Db.
  change (map (fun c => if false then toupper c else tolower c)) with (map tolower) in Da, Db.
  pose proof (compare_loop_zero (neoc_hex_skip_prefix a)
    (neoc_hex_skip_prefix b)) as Hc. rewrite Da, Db in Hc.
  destruct (_ =? 0) eqn:E; bdestruct; symmetry.
  - apply bool_decide_eq_true. eapply hex_of_inj, Hc, E.
  - apply bool_decide_eq_false. intros ->. apply E, Hc. done.
Qed.

Lemma hex_equal_iff_same_bytes_witness :
  neoc_hex_equal (Some (str "0xAB01")) (Some (str "ab01")) = Ok true.
Proof.
  apply (hex_equal_iff_same_bytes (str "0xAB01") (str "ab01") [Byte.xab; Byte.x01]
           [Byte.xab; Byte.x01]); vm_compute; reflexivity.
Defined.

(** Text of odd length is compared by its length only: any two strings of the
    same odd number of characters are equal for [neoc_hex_equal]. *)
Theorem hex_equal_odd_length (a b : list byte) :
  zlen (neoc_hex_skip_prefix a) mod 2 = 1 ->
  zlen (neoc_hex_skip_prefix b) = zlen (neoc_hex_skip_prefix a) ->
  neoc_hex_equal (Some a) (Some b) = Ok true.
Proof.
  intros Ha Hb. unfold neoc_hex_equal, neoc_hex_compare. cbv zeta.
  rewrite Hb, Ha, Z.sub_diag. done.
Qed.

Lemma hex_equal_odd_length_witness :
  neoc_hex_equal (Some (str "abc")) (Some (str "def")) = Ok true.
Proof. apply hex_equal_odd_length; reflexivity. Defined.

(** [neoc_hex_decode_reverse] of text with a prefix returns one byte too many:
    the bytes come back reversed behind a byte of uninitialised memory.  Without a
    prefix the result is the reversed bytes. *)
Theorem hex_decode_reverse_result `{Allocator} (junk : byte) (data : list byte)
    (uppercase prefix : bool) :
  data <> [] -> heap_serves (zlen data + 1) ->
  neoc_hex_decode_reverse junk (Some (prefix_0x prefix ++ hex_of uppercase data)) =
  Ok (if prefix then junk :: reverse data else reverse data).
Proof.
  intros Hne Hh. assert (0 < zlen data) as Hp by (by apply zlen_pos).
  set (s := prefix_0x prefix ++ hex_of uppercase data).
  set (k := if prefix then 1 else 0).
  assert (zlen s = 2 * (zlen data + k)) as Hs.
  { unfold s, k. rewrite zlen_app, length_hex_of, zlen_prefix. destruct prefix; lia. }
  assert (0 <= k <= 1) by (unfold k; destruct prefix; lia).
  assert (neoc_hex_skip_prefix s = hex_of uppercase data) as Hskip.
  { unfold s. destruct prefix; [done|apply skip_prefix_hex_of]. }
  unfold neoc_hex_decode_reverse. cbv zeta. rewrite Hs.
  replace (2 * (zlen data + k) mod 2) with 0 by (rewrite Z.mul_comm, Z.mod_mul; lia).
  replace (2 * (zlen data + k) / 2) with (zlen data + k) by (rewrite Z.mul_comm, Z.div_mul; lia).
  unfold neoc_malloc_ok. cmps. rewrite Hh by lia. cbn [negb].
  pose proof (hex_decode_spec s (zlen data + k)
    (replicate (Z.to_nat (zlen data + k)) junk)) as Hd.
  rewrite Hskip, of_hex_of in Hd. rewrite Hd.
  - rewrite reverse_in_place_eq, drop_replicate. f_equal.
    replace (Z.to_nat (zlen data + k) - length data)%nat with (Z.to_nat k) by (unfold zlen; lia).
    unfold k. destruct prefix; cbn [Z.to_nat].
    + change (replicate _ junk) with [junk]. rewrite reverse_app. done.
    + change (replicate _ junk) with (@nil byte). rewrite app_nil_r. done.
  - unfold zlen at 1. rewrite length_replicate. lia.
  - rewrite length_hex_of. dlia.
Qed.

Lemma hex_decode_reverse_result_witness :
  @neoc_hex_decode_reverse mib_heap Byte.xcd (Some (str "0x0102"))
  = Ok [Byte.xcd; Byte.x02; Byte.x01].
Proof.
  apply (@hex_decode_reverse_result mib_heap Byte.xcd [Byte.x01; Byte.x02] false true).
  - discriminate.
  - apply mib_heap_serves. vm_compute. discriminate.
Defined.
