(* ===== verification/Ripemd160.v ===== *)
(** * The portable RIPEMD-160 (src/crypto/helpers/ripemd160.c)

    The digest function the library carries itself: 32-bit words with their wrap-around, the compression of a block in one
    loop over two lines of words, and a context that takes the message in pieces of any size.  The specification is the
    published one: the two lines separately, the order of the words by the permutations rho and pi, the constants as roots,
    and the message padded as a whole and cut into blocks. *)

From S2P Require Import Prelude Crypto Hex.
#[local] Open Scope Z_scope.

(** ** The code *)

(** [uint32_t state[5]], and the five words of a line. *)
Record words := mk_words { wa : Z; wb : Z; wc : Z; wd : Z; we : Z }.

Record ripemd160_ctx := mk_ctx { cx_state : words; cx_count : Z; cx_buffer : list byte }.

Definition add32 (x y : Z) : Z := wrap 32 (x + y).
Definition not32 (x : Z) : Z := wrap 32 (Z.lnot x).

Definition rol (x n : Z) : Z := Z.lor (wrap 32 (Z.shiftl x n)) (Z.shiftr x (32 - n)).

Definition initial_state : words := mk_words 0x67452301 0xEFCDAB89 0x98BADCFE 0x10325476 0xC3D2E1F0.

Definition init (buffer : list byte) : ripemd160_ctx := mk_ctx initial_state 0 buffer.

Definition F_ (x y z : Z) : Z := Z.lxor (Z.lxor x y) z.
Definition G_ (x y z : Z) : Z := Z.lor (Z.land x y) (Z.land (not32 x) z).
Definition H_ (x y z : Z) : Z := Z.lxor (Z.lor x (not32 y)) z.
Definition I_ (x y z : Z) : Z := Z.lor (Z.land x z) (Z.land y (not32 z)).
Definition J_ (x y z : Z) : Z := Z.lxor x (Z.lor y (not32 z)).

Definition K1 : list Z := [0x00000000; 0x5A827999; 0x6ED9EBA1; 0x8F1BBCDC; 0xA953FD4E].
Definition K2 : list Z := [0x50A28BE6; 0x5C4DD124; 0x6D703EF3; 0x7A6D76E9; 0x00000000].

Definition r1 : list nat :=
  [0; 1; 2; 3; 4; 5; 6; 7; 8; 9; 10; 11; 12; 13; 14; 15;
   7; 4; 13; 1; 10; 6; 15; 3; 12; 0; 9; 5; 2; 14; 11; 8;
   3; 10; 14; 4; 9; 15; 8; 1; 2; 7; 0; 6; 13; 11; 5; 12;
   1; 9; 11; 10; 0; 8; 12; 4; 13; 3; 7; 15; 14; 5; 6; 2;
   4; 0; 5; 9; 7; 12; 2; 10; 14; 1; 3; 8; 11; 6; 15; 13]%nat.
Definition r2 : list nat :=
  [5; 14; 7; 0; 9; 2; 11; 4; 13; 6; 15; 8; 1; 10; 3; 12;
   6; 11; 3; 7; 0; 13; 5; 10; 14; 15; 8; 12; 4; 9; 1; 2;
   15; 5; 1; 3; 7; 14; 6; 9; 11; 8; 12; 2; 10; 0; 4; 13;
   8; 6; 4; 1; 3; 11; 15; 0; 5; 12; 2; 13; 9; 7; 10; 14;
   12; 15; 10; 4; 1; 5; 8; 7; 6; 2; 13; 14; 0; 3; 9; 11]%nat.
Definition s1 : list Z :=
  [11; 14; 15; 12; 5; 8; 7; 9; 11; 13; 14; 15; 6; 7; 9; 8;
   7; 6; 8; 13; 11; 9; 7; 15; 7; 12; 15; 9; 11; 7; 13; 12;
   11; 13; 6; 7; 14; 9; 13; 15; 14; 8; 13; 6; 5; 12; 7; 5;
   11; 12; 14; 15; 14; 15; 9; 8; 9; 14; 5; 6; 8; 6; 5; 12;
   9; 15; 5; 11; 6; 8; 13; 12; 5; 12; 13; 14; 11; 8; 5; 6].
Definition s2 : list Z :=
  [8; 9; 9; 11; 13; 15; 15; 5; 7; 7; 8; 11; 14; 14; 12; 6;
   9; 13; 15; 7; 12; 8; 9; 11; 7; 7; 12; 7; 6; 15; 13; 11;
   9; 7; 15; 11; 8; 6; 6; 14; 12; 13; 5; 14; 13; 13; 7; 5;
   15; 5; 8; 11; 14; 14; 6; 14; 6; 9; 12; 9; 12; 5; 15; 8;
   8; 5; 12; 9; 12; 5; 14; 6; 8; 13; 6; 5; 15; 13; 11; 11].

(** An entry of a table; every index the code uses is inside ([tables_inside]). *)
Definition table_at (l : list Z) (i : nat) : Z := nth i l 0.

(** [X[i]], the four bytes from [4 * i] on. *)
Definition block_word (block : list byte) (i : nat) : Z :=
  let byte_at j := Z_of_byte (nth (4 * i + j) block Byte.x00) in
  Z.lor (Z.lor (Z.lor (byte_at 0%nat) (Z.shiftl (byte_at 1%nat) 8)) (Z.shiftl (byte_at 2%nat) 16)) (Z.shiftl (byte_at 3%nat) 24).

(** The rotation at the end of a step. *)
Definition line_turn (t s : Z) (w : words) : words :=
  let t := add32 (rol (add32 t (wa w)) s) (we w) in
  mk_words (we w) t (wb w) (rol (wc w) 10) (wd w).

(** One round of the loop: a step of the first line, then one of the second. *)
Definition lines_step (X : list Z) (i : nat) (lines : words * words) : words * words :=
  let '(l1, l2) := lines in
  let t1 := (fun f k => add32 (add32 (f (wb l1) (wc l1) (wd l1)) (table_at X (nth i r1 0%nat))) (table_at K1 k)) in
  let l1' := line_turn (if i <? 16 then t1 F_ 0 else if i <? 32 then t1 G_ 1 else if i <? 48 then t1 H_ 2 else if i <? 64 then t1 I_ 3
                   else t1 J_ 4)%nat (table_at s1 i) l1 in
  let t2 := (fun f k => add32 (add32 (f (wb l2) (wc l2) (wd l2)) (table_at X (nth i r2 0%nat))) (table_at K2 k)) in
  let l2' := line_turn (if i <? 16 then t2 J_ 0 else if i <? 32 then t2 I_ 1 else if i <? 48 then t2 H_ 2 else if i <? 64 then t2 G_ 3
                   else t2 F_ 4)%nat (table_at s2 i) l2 in
  (l1', l2').

Definition compress (state : words) (block : list byte) : words :=
  let X := map (block_word block) (seq 0 16) in
  let '(l1, l2) := fold_left (fun lines i => lines_step X i lines) (seq 0 80) (state, state) in
  mk_words (add32 (add32 (wb state) (wc l1)) (wd l2)) (add32 (add32 (wc state) (wd l1)) (we l2))
    (add32 (add32 (wd state) (we l1)) (wa l2)) (add32 (add32 (we state) (wa l1)) (wb l2)) (add32 (add32 (wa state) (wb l1)) (wc l2)).

Abbreviation Cx := (M ripemd160_ctx).

(** [memcpy(ctx->buffer + idx, data + i, n)] *)
Definition copy_in (idx : Z) (data : list byte) (i n : Z) : Cx unit := fun ctx =>
  match buf_slice data i n with
  | None => (Fault, ctx)
  | Some bs =>
      match store idx bs (cx_buffer ctx) with
      | (Ok _, buffer) => (Ok tt, mk_ctx (cx_state ctx) (cx_count ctx) buffer)
      | (_, _) => (Fault, ctx)
      end
  end.

Definition compress_with (block : list byte) : Cx unit := fun ctx =>
  (Ok tt, mk_ctx (compress (cx_state ctx) block) (cx_count ctx) (cx_buffer ctx)).

(** The loop over the complete blocks of the data; it returns where it stopped. *)
Fixpoint compress_blocks (fuel : nat) (data : list byte) (i len : Z) : Cx Z :=
  match fuel with
  | O => fault
  | S fuel =>
      if wrap 64 (i + 63) <? len then
        let! block := lift (match buf_slice data i 64 with Some b => Ok b | None => Fault end) in
        do! compress_with block in
        compress_blocks fuel data (wrap 64 (i + 64)) len
      else ret i
  end.

Definition update (data : list byte) (len : Z) : Cx unit :=
  let! ctx := get in
  let idx := Z.land (cx_count ctx) 63 in
  do! put (mk_ctx (cx_state ctx) (wrap 64 (cx_count ctx + len)) (cx_buffer ctx)) in
  let part_len := 64 - idx in
  let! '(idx, i) :=
    (if part_len <=? len then
       do! copy_in idx data 0 part_len in
       let! ctx := get in
       do! compress_with (cx_buffer ctx) in
       let! i := compress_blocks (S (Z.to_nat (len / 64))) data part_len len in
       ret (0, i)
     else ret (idx, 0)) in
  copy_in idx data i (len - i).

Definition padding : list byte := Byte.x80 :: replicate 63 Byte.x00.

(** The bytes of a word, the least significant one first. *)
Definition word_bytes (w : Z) : list byte :=
  map (fun k => byte_of_Z (Z.land (Z.shiftr w k) 0xFF)) [0; 8; 16; 24].

Definition final : Cx (list byte) :=
  let! ctx := get in
  let bits := wrap 64 (cx_count ctx * 8) in
  let length_ := map (fun i => byte_of_Z (Z.shiftr bits (8 * Z.of_nat i))) (seq 0 8) in
  let idx := Z.land (cx_count ctx) 63 in
  let pad_len := if idx <? 56 then 56 - idx else 120 - idx in
  do! update padding pad_len in
  do! update length_ 8 in
  let! ctx := get in
  let s := cx_state ctx in
  ret (word_bytes (wa s) ++ word_bytes (wb s) ++ word_bytes (wc s) ++ word_bytes (wd s) ++ word_bytes (we s)).

(** The buffer of the context is a local array; [junk] is what it holds at first. *)
Definition neoc_ripemd160_hash (junk : byte) (data : option (list byte)) (len : Z) : res (list byte) :=
  match data with
  | None => if 0 <? len then Err NEOC_ERROR_INVALID_ARGUMENT else fst (final (init (replicate 64 junk)))
  | Some data => fst ((do! (if 0 <? len then update data len else ret tt) in final) (init (replicate 64 junk)))
  end.

(** ** The published function *)

Module Spec.
Definition rho (i : nat) : nat := nth i [7; 4; 13; 1; 10; 6; 15; 3; 12; 0; 9; 5; 2; 14; 11; 8]%nat 0%nat.
Definition pi (i : nat) : nat := ((9 * i + 5) mod 16)%nat.

(** The word a step takes: in the first line the order of the block, rearranged by [rho] from round to round; in the
    second line [pi] comes first. *)
Definition left_word (i : nat) : nat := Nat.iter (i / 16) rho (i mod 16)%nat.
Definition right_word (i : nat) : nat := Nat.iter (i / 16) rho (pi (i mod 16)).

(** The rotation belongs to the round and the word, in both lines. *)
Definition shifts : list (list Z) :=
  [[11; 14; 15; 12; 5; 8; 7; 9; 11; 13; 14; 15; 6; 7; 9; 8];
   [12; 13; 11; 15; 6; 9; 9; 7; 12; 15; 11; 13; 7; 8; 7; 7];
   [13; 15; 14; 11; 7; 7; 6; 8; 13; 14; 13; 12; 5; 5; 6; 9];
   [14; 11; 12; 14; 8; 6; 5; 5; 15; 12; 15; 14; 9; 9; 8; 6];
   [15; 12; 13; 13; 9; 5; 8; 6; 14; 11; 12; 11; 8; 6; 5; 5]].
Definition shift (round word : nat) : Z := table_at (nth round shifts []) word.

Definition functions : list (Z -> Z -> Z -> Z) := [F_; G_; H_; I_; J_].
Definition function_of (round : nat) : Z -> Z -> Z -> Z := nth round functions F_.

(** The integer cube root of a small number scaled by [2 ^ 90], between known bounds. *)
Definition is_cube_root (k n : Z) : bool := (k ^ 3 <=? n) && (n <? (k + 1) ^ 3).

Definition line_step (f : Z -> Z -> Z -> Z) (k x s : Z) (w : words) : words :=
  line_turn (add32 (add32 (f (wb w) (wc w) (wd w)) x) k) s w.

Definition left_step (X : list Z) (w : words) (i : nat) : words :=
  line_step (function_of (i / 16)) (table_at K1 (i / 16)) (table_at X (left_word i)) (shift (i / 16) (left_word i)) w.
Definition right_step (X : list Z) (w : words) (i : nat) : words :=
  line_step (function_of (4 - i / 16)) (table_at K2 (i / 16)) (table_at X (right_word i)) (shift (i / 16) (right_word i)) w.

Definition block_words (block : list byte) : list Z := map (fun i => le_val (take 4 (drop (4 * i) block))) (seq 0 16).

Definition compression (state : words) (block : list byte) : words :=
  let left := fold_left (left_step (block_words block)) (seq 0 80) state in
  let right := fold_left (right_step (block_words block)) (seq 0 80) state in
  mk_words (add32 (add32 (wb state) (wc left)) (wd right)) (add32 (add32 (wc state) (wd left)) (we right))
    (add32 (add32 (wd state) (we left)) (wa right)) (add32 (add32 (we state) (wa left)) (wb right))
    (add32 (add32 (wa state) (wb left)) (wc right)).

(** A one bit, zeros, and the number of bits of the message as a 64-bit number, up to a multiple of 64 bytes. *)
Definition pad (m : list byte) : list byte :=
  m ++ [Byte.x80] ++ replicate (Z.to_nat ((55 - zlen m) mod 64)) Byte.x00 ++ le_bytes 8 (wrap 64 (8 * zlen m)).

(** [n] blocks of 64 bytes from the front. *)
Fixpoint chunks (n : nat) (l : list byte) : list (list byte) :=
  match n with O => [] | S n => take 64 l :: chunks n (drop 64 l) end.

Definition digest (m : list byte) : list byte :=
  let s := fold_left compression (chunks (length (pad m) / 64) (pad m)) initial_state in
  le_bytes 4 (wa s) ++ le_bytes 4 (wb s) ++ le_bytes 4 (wc s) ++ le_bytes 4 (wd s) ++ le_bytes 4 (we s).
End Spec.
Import Spec.

(** ** The compression *)

(** Every index the code uses is inside its table. *)
Lemma tables_inside :
  Forall (fun i => i < 16)%nat r1 /\ Forall (fun i => i < 16)%nat r2 /\
  length r1 = 80%nat /\ length r2 = 80%nat /\ length s1 = 80%nat /\ length s2 = 80%nat.
Proof. split_and!; try reflexivity; apply (bool_decide_unpack _); by vm_compute. Qed.

(** The constants are the roots of 2, 3, 5 and 7. *)
Lemma constants_are_roots :
  Forall (fun '(j, p) => table_at K1 j = Z.sqrt (2 ^ 60 * p)) [(1%nat, 2); (2%nat, 3); (3%nat, 5); (4%nat, 7)] /\
  Forall (fun '(j, p) => is_cube_root (table_at K2 j) (2 ^ 90 * p) = true) [(0%nat, 2); (1%nat, 3); (2%nat, 5); (3%nat, 7)].
Proof. split; repeat constructor; by vm_compute. Qed.

(** The order of the words and the rotations of the tables are those of the permutations. *)
Lemma tables_agree i : (i < 80)%nat ->
  nth i r1 0%nat = left_word i /\ nth i r2 0%nat = right_word i /\
  table_at s1 i = shift (i / 16) (left_word i) /\ table_at s2 i = shift (i / 16) (right_word i).
Proof.
  intros Hi. pose proof (in_seq 80 0 i) as [_ Hin]. specialize (Hin ltac:(lia)).
  assert (forallb (fun i => (nth i r1 0 =? left_word i)%nat && (nth i r2 0 =? right_word i)%nat &&
    (table_at s1 i =? shift (i / 16) (left_word i)) && (table_at s2 i =? shift (i / 16) (right_word i))) (seq 0 80) = true) as Hall by by vm_compute.
  rewrite forallb_forall in Hall. specialize (Hall i Hin). rewrite !andb_true_iff, !Nat.eqb_eq, !Z.eqb_eq in Hall. tauto.
Qed.

(** A round of the loop is a step of each line. *)
Lemma step_lines X i l1 l2 : (i < 80)%nat -> lines_step X i (l1, l2) = (left_step X l1 i, right_step X l2 i).
Proof.
  intros Hi. destruct (tables_agree i Hi) as (E1 & E2 & E3 & E4).
  unfold lines_step, left_step, right_step, line_step. rewrite E1, E2, E3, E4.
  assert (i / 16 = 0 /\ i < 16 \/ i / 16 = 1 /\ 16 <= i < 32 \/ i / 16 = 2 /\ 32 <= i < 48 \/
    i / 16 = 3 /\ 48 <= i < 64 \/ i / 16 = 4 /\ 64 <= i)%nat as C
    by (pose proof (Nat.div_mod_eq i 16); pose proof (Nat.mod_upper_bound i 16); lia).
  destruct C as [[-> C]|[[-> C]|[[-> C]|[[-> C]|[-> C]]]]];
    destruct (Nat.ltb_spec i 16), (Nat.ltb_spec i 32), (Nat.ltb_spec i 48), (Nat.ltb_spec i 64); try lia; reflexivity.
Qed.

Lemma fold_lines X idxs : forall l1 l2, Forall (fun i => i < 80)%nat idxs ->
  fold_left (fun lines i => lines_step X i lines) idxs (l1, l2) = (fold_left (left_step X) idxs l1, fold_left (right_step X) idxs l2).
Proof.
  induction idxs as [|i idxs IH]; intros l1 l2 Hi; [done|]. apply Forall_cons in Hi as [Hi His].
  cbn [fold_left]. rewrite step_lines by done. by apply IH.
Qed.

(** The words of a block are its little-endian 32-bit numbers. *)
Lemma block_word_le block i : length block = 64%nat -> (i < 16)%nat -> block_word block i = le_val (take 4 (drop (4 * i) block)).
Proof.
  intros Hb Hi. assert (forall j, nth (4 * i + j) block Byte.x00 = nth j (drop (4 * i) block) Byte.x00) as N
    by (intros j; by rewrite nth_skipn).
  assert (4 <= length (drop (4 * i) block))%nat as L by (rewrite length_drop; lia).
  unfold block_word. rewrite !N. clear N. destruct (drop (4 * i) block) as [|a [|b [|c [|d l]]]]; cbn [length] in L; try lia.
  cbn [nth]. change (take 4 (a :: b :: c :: d :: l)) with [a; b; c; d]. cbn [le_val]. destruct (Z_of_byte_range a), (Z_of_byte_range b), (Z_of_byte_range c), (Z_of_byte_range d).
  rewrite (lor_shiftl_add _ _ 8), (lor_shiftl_add _ _ 16), (lor_shiftl_add _ _ 24) by (eval_pows; lia). eval_pows. lia.
Qed.

(** The compression of the code is that of the two lines. *)
Lemma compress_lines state block : length block = 64%nat -> compress state block = compression state block.
Proof.
  intros Hb. unfold compress, compression, block_words.
  rewrite (map_ext_in (block_word block) (fun i => le_val (take 4 (drop (4 * i) block)))).
  - rewrite fold_lines; [done|]. apply Forall_forall. intros i Hi%list_elem_of_In%in_seq. lia.
  - intros i Hi%in_seq. apply block_word_le; [done|lia].
Qed.

(** ** The context *)

#[local] Opaque compress compression.

(** A context after the message [m]: its complete blocks are compressed and the buffer starts with what is left. *)
Definition represents (m : list byte) (ctx : ripemd160_ctx) : Prop :=
  exists bs tail rest, m = concat bs ++ tail /\ Forall (fun b => length b = 64%nat) bs /\ zlen tail < 64 /\
    cx_state ctx = fold_left compress bs initial_state /\ cx_count ctx = wrap 64 (zlen m) /\
    cx_buffer ctx = tail ++ rest /\ zlen (cx_buffer ctx) = 64.

Lemma concat_length64 (bs : list (list byte)) : Forall (fun b => length b = 64%nat) bs -> zlen (concat bs) = 64 * zlen bs.
Proof.
  induction 1 as [|b bs Hb _ IH]; [done|]. cbn [concat]. rewrite zlen_app, IH. unfold zlen. cbn [length]. lia.
Qed.

Lemma count_index bs (tail : list byte) :
  Forall (fun b => length b = 64%nat) bs -> zlen tail < 64 -> Z.land (wrap 64 (zlen (concat bs ++ tail))) 63 = zlen tail.
Proof.
  intros Hb Ht. rewrite zlen_app, concat_length64 by done. change 63 with (Z.ones 6). rewrite Z.land_ones by lia.
  pose proof (zlen_nonneg tail). unfold wrap. dlia.
Qed.

Lemma copy_in_ok idx pre bs post ctx buf' :
  store idx bs (cx_buffer ctx) = (Ok tt, buf') ->
  copy_in idx (pre ++ bs ++ post) (zlen pre) (zlen bs) ctx = (Ok tt, mk_ctx (cx_state ctx) (cx_count ctx) buf').
Proof. intros E. unfold copy_in. by rewrite buf_slice_app, E. Qed.

(** Folding over a first block, for any function. *)
Lemma fold_block {A B} (f : A -> B -> A) b bs a : fold_left f (b :: bs) a = fold_left f bs (f a b).
Proof. reflexivity. Qed.

(** The loop takes the complete blocks of what is left of the data. *)
Lemma compress_blocks_ok fuel : forall pre rest more ctx,
  zlen rest / 64 < Z.of_nat fuel -> zlen pre + zlen rest < 2 ^ 63 ->
  exists bs tail, rest = concat bs ++ tail /\ Forall (fun b => length b = 64%nat) bs /\ zlen tail < 64 /\
    compress_blocks fuel (pre ++ rest ++ more) (zlen pre) (zlen pre + zlen rest) ctx
    = (Ok (zlen pre + zlen (concat bs)), mk_ctx (fold_left compress bs (cx_state ctx)) (cx_count ctx) (cx_buffer ctx)).
Proof.
  induction fuel as [|fuel IH]; intros pre rest more ctx Hf Hl; pose proof (zlen_nonneg pre); pose proof (zlen_nonneg rest).
  { assert (0 <= zlen rest / 64) by (apply Z.div_pos; lia). lia. }
  cbn [compress_blocks]. rewrite wrap_small by lia. destruct (Z.ltb_spec (zlen pre + 63) (zlen pre + zlen rest)) as [Hc|Hc].
  - destruct (Z.le_gt_cases 64 (zlen rest)) as [Hr|Hr]; [|lia].
    assert (length (take 64 rest) = 64%nat) as Hb by (rewrite length_take; unfold zlen in *; lia).
    assert (zlen (take 64 rest) = 64) as Hz by (unfold zlen; lia).
    assert (zlen (drop 64 rest) = zlen rest - 64) as Hd by (unfold zlen in *; rewrite length_drop; lia).
    destruct (IH (pre ++ take 64 rest) (drop 64 rest) more (mk_ctx (compress (cx_state ctx) (take 64 rest)) (cx_count ctx) (cx_buffer ctx)))
      as (bs & tail & E & Hbs & Ht & Hrun); [rewrite Hd; dlia|rewrite zlen_app; lia|].
    exists (take 64 rest :: bs), tail. cbn [concat]. split; [by rewrite <- app_assoc, <- E, take_drop|].
    split; [exact (Forall_cons_2 _ _ _ Hb Hbs)|]. split; [exact Ht|].
    assert (pre ++ rest ++ more = pre ++ take 64 rest ++ drop 64 rest ++ more) as Er
      by (rewrite (app_assoc (take 64 rest) (drop 64 rest) more), (take_drop 64 rest); reflexivity).
    rewrite Er at 1. rewrite <- Hz at 1. rewrite buf_slice_app, bind_lift, (bind_ok _ _ _ _ _ (eq_refl (compress_with _ ctx))).
    rewrite wrap_small by lia. rewrite Er, (app_assoc pre (take 64 rest)). rewrite zlen_app, Hz, Hd in Hrun.
    replace (zlen pre + zlen rest) with (zlen pre + 64 + (zlen rest - 64)) by lia. rewrite Hrun.
    rewrite zlen_app, Hz, Z.add_assoc, fold_block. cbn [cx_state cx_count cx_buffer]. reflexivity.
  - exists [], rest. split; [done|]. split; [constructor|]. split; [lia|]. change (zlen (concat [])) with 0.
    rewrite Z.add_0_r. by destruct ctx.
Qed.

Lemma represents_init buffer : zlen buffer = 64 -> represents [] (init buffer).
Proof. intros Hb. exists [], [], buffer. by split_and!. Qed.

(** Data that fits behind what is left of the message, without filling the buffer. *)
Lemma update_short m data more ctx :
  represents m ctx -> zlen data < 64 - zlen m mod 64 ->
  exists ctx', update (data ++ more) (zlen data) ctx = (Ok tt, ctx') /\ represents (m ++ data) ctx'.
Proof.
  intros (bs & tail & rest & -> & Hbs & Ht & Hs & Hc & Hb & Hz) Hl.
  pose proof (count_index bs tail Hbs Ht) as Hi. pose proof (zlen_nonneg data). pose proof (zlen_nonneg tail).
  assert (zlen (concat bs ++ tail) mod 64 = zlen tail) as Hm by (rewrite zlen_app, concat_length64 by done; dlia).
  rewrite Hm in Hl. rewrite Hb, zlen_app in Hz. eexists. split.
  - unfold update. unfold bind at 1, get at 1. rewrite Hc, Hi. unfold bind at 1, put at 1. unfold bind at 1. cmps. unfold ret at 1.
    rewrite Z.sub_0_r. apply (copy_in_ok _ [] data more). cbn [cx_buffer]. rewrite Hb. apply store_next. lia.
  - exists bs, (tail ++ data), (drop (length data) rest). cbn [cx_state cx_count cx_buffer].
    split; [by rewrite app_assoc|]. split; [exact Hbs|]. split; [rewrite zlen_app; lia|]. split; [exact Hs|]. split.
    + rewrite (zlen_app (concat bs ++ tail)). unfold wrap. apply Zplus_mod_idemp_l.
    + split; [by rewrite <- !app_assoc|]. rewrite !zlen_app. unfold zlen in *. rewrite length_drop. lia.
Qed.

(** Data that fills the buffer: the rest of a block, complete blocks, and a new rest. *)
Lemma update_long m data more ctx :
  represents m ctx -> 64 - zlen m mod 64 <= zlen data -> zlen data < 2 ^ 63 ->
  exists ctx', update (data ++ more) (zlen data) ctx = (Ok tt, ctx') /\ represents (m ++ data) ctx'.
Proof.
  intros (bs & tail & rest & -> & Hbs & Ht & Hs & Hc & Hb & Hz) Hl Hm63.
  pose proof (count_index bs tail Hbs Ht) as Hi. pose proof (zlen_nonneg tail).
  assert (zlen (concat bs ++ tail) mod 64 = zlen tail) as Hm by (rewrite zlen_app, concat_length64 by done; dlia).
  rewrite Hm in Hl. rewrite Hb, zlen_app in Hz.
  assert (exists d1 d2, data = d1 ++ d2 /\ zlen d1 = 64 - zlen tail) as (d1 & d2 & -> & H1).
  { exists (take (64 - length tail) data), (drop (64 - length tail) data). split; [by rewrite take_drop|].
    unfold zlen in *. rewrite length_take. lia. }
  set (count := wrap 64 (wrap 64 (zlen (concat bs ++ tail)) + zlen (d1 ++ d2))).
  destruct (compress_blocks_ok (S (Z.to_nat (zlen (d1 ++ d2) / 64))) d1 d2 more
    (mk_ctx (compress (cx_state ctx) (tail ++ d1)) count (tail ++ d1)))
    as (bs2 & tail2 & E2 & Hbs2 & Ht2 & Hrun).
  { pose proof (zlen_nonneg d1). pose proof (zlen_nonneg d2). rewrite zlen_app. dlia. }
  { by rewrite <- zlen_app. }
  cbn [cx_state cx_count cx_buffer] in Hrun. rewrite <- zlen_app in Hrun.
  assert (store (zlen tail) d1 (cx_buffer ctx) = (Ok tt, tail ++ d1)) as Est.
  { rewrite Hb, store_next by lia. rewrite (drop_ge rest) by (unfold zlen in *; lia). by rewrite app_nil_r. }
  assert (zlen (tail ++ d1) = 64) as H64 by (rewrite zlen_app; lia). eexists. split.
  - unfold update. unfold bind at 1, get at 1. rewrite Hc, Hi. unfold bind at 1, put at 1. rewrite <- H1. fold count.
    cmps. rewrite <- (app_assoc d1 d2 more).
    erewrite bind_ok; [|erewrite bind_ok; [|by apply (copy_in_ok _ [] d1 (d2 ++ more))]; rewrite (bind_ok _ _ _ _ _ (eq_refl (get _))),
      (bind_ok _ _ _ _ _ (eq_refl (compress_with _ _))); cbn [cx_state cx_count cx_buffer]; rewrite (bind_ok _ _ _ _ _ Hrun); reflexivity].
    cbv beta iota. rewrite E2, <- (app_assoc (concat bs2)), (app_assoc d1), <- zlen_app.
    replace (zlen (d1 ++ concat bs2 ++ tail2) - zlen (d1 ++ concat bs2)) with (zlen tail2) by (rewrite !zlen_app; lia).
    apply copy_in_ok. cbn [cx_buffer]. apply store_first. lia.
  - exists (bs ++ (tail ++ d1) :: bs2), tail2, (drop (length tail2) (tail ++ d1)). cbn [cx_state cx_count cx_buffer].
    split; [by rewrite concat_app, <- !app_assoc; cbn [concat]; rewrite E2, <- !app_assoc|].
    split; [apply Forall_app; split; [exact Hbs|constructor; [unfold zlen in *; lia|exact Hbs2]]|]. split; [exact Ht2|].
    split; [by rewrite fold_left_app, fold_block, <- Hs|]. split; [rewrite (zlen_app (concat bs ++ tail)); unfold count, wrap; apply Zplus_mod_idemp_l|].
    split; [reflexivity|]. rewrite zlen_app. unfold zlen in *. rewrite length_drop. lia.
Qed.

(** A context takes its message in pieces of any size. *)
Lemma update_represents m data more ctx :
  represents m ctx -> zlen data < 2 ^ 63 ->
  exists ctx', update (data ++ more) (zlen data) ctx = (Ok tt, ctx') /\ represents (m ++ data) ctx'.
Proof.
  intros Hr Hd. destruct (Z.le_gt_cases (64 - zlen m mod 64) (zlen data)); [by apply update_long|apply update_short; [done|lia]].
Qed.

(** The padding of the code is that of the specification. *)
Lemma pad_code (m : list byte) (idx := zlen m mod 64) (pad_len := if idx <? 56 then 56 - idx else 120 - idx) :
  take (Z.to_nat pad_len) padding = Byte.x80 :: replicate (Z.to_nat ((55 - zlen m) mod 64)) Byte.x00 /\
  zlen (take (Z.to_nat pad_len) padding) = pad_len.
Proof.
  assert (0 <= idx < 64) as Hi by (apply Z.mod_pos_bound; lia).
  assert (pad_len = 1 + (55 - zlen m) mod 64 /\ 0 <= (55 - zlen m) mod 64 < 64) as [-> Hp].
  { subst pad_len idx. destruct (Z.ltb_spec (zlen m mod 64) 56); dlia. }
  set (z := (55 - zlen m) mod 64) in *. rewrite Z2Nat.inj_add, Nat.add_1_l by lia. unfold padding. cbn [take].
  rewrite take_replicate, Nat.min_l by lia. split; [done|]. unfold zlen. cbn [length]. rewrite length_replicate. lia.
Qed.

Lemma length_code bits : map (fun i => byte_of_Z (Z.shiftr bits (8 * Z.of_nat i))) (seq 0 8) = le_bytes 8 bits.
Proof.
  cbn [map seq le_bytes]. rewrite !Z.shiftr_div_pow2, !Z.div_div by lia. rewrite Z.div_1_r. reflexivity.
Qed.

Lemma word_bytes_le w : word_bytes w = le_bytes 4 w.
Proof.
  unfold word_bytes. cbn [map le_bytes]. rewrite !Z.shiftr_div_pow2 by lia. rewrite !land_255.
  assert (forall z, byte_of_Z (z mod 256) = byte_of_Z z) as E by (intros z; unfold byte_of_Z, wrap; by rewrite Z.mod_mod).
  rewrite !E, !Z.div_div by lia. by rewrite Z.div_1_r.
Qed.

Lemma chunks_concat bs : Forall (fun b => length b = 64%nat) bs -> chunks (length bs) (concat bs) = bs.
Proof.
  induction 1 as [|b bs Hb _ IH]; [done|]. cbn [length chunks concat]. by rewrite <- Hb, take_app_length, drop_app_length, IH.
Qed.

Lemma fold_compression bs : Forall (fun b => length b = 64%nat) bs -> forall s, fold_left compress bs s = fold_left compression bs s.
Proof. induction 1 as [|b bs Hb _ IH]; intros s; [cbn [fold_left]; reflexivity|]. rewrite !fold_block, compress_lines by done. apply IH. Qed.

(** The padded message is a whole number of blocks. *)
Lemma pad_length m : zlen (pad m) mod 64 = 0.
Proof.
  unfold pad. rewrite !zlen_app. change (zlen [Byte.x80]) with 1. rewrite zlen_replicate.
  assert (forall v, zlen (le_bytes 8 v) = 8) as -> by (intros v; unfold zlen; by rewrite length_le_bytes).
  assert (0 <= (55 - zlen m) mod 64 < 64) by (apply Z.mod_pos_bound; lia).
  rewrite Z2Nat.id by lia. dlia.
Qed.

Lemma represents_digest m ctx : represents (pad m) ctx ->
  word_bytes (wa (cx_state ctx)) ++ word_bytes (wb (cx_state ctx)) ++ word_bytes (wc (cx_state ctx)) ++
  word_bytes (wd (cx_state ctx)) ++ word_bytes (we (cx_state ctx)) = digest m.
Proof.
  intros (bs & tail & rest & Em & Hbs & Ht & Hs & _). pose proof (pad_length m) as Hp. pose proof (zlen_nonneg tail).
  assert (tail = []) as ->.
  { rewrite Em, zlen_app, concat_length64 in Hp by done. apply zlen_zero. dlia. }
  rewrite app_nil_r in Em. unfold digest. rewrite Em.
  assert (length (concat bs) / 64 = length bs)%nat as -> by (pose proof (concat_length64 bs Hbs) as L; unfold zlen in L; 
    replace (length (concat bs)) with (length bs * 64)%nat by lia; apply Nat.div_mul; lia).
  rewrite chunks_concat, <- fold_compression by done. by rewrite <- Hs, !word_bytes_le.
Qed.

Lemma final_digest m ctx : represents m ctx -> zlen m < 2 ^ 63 -> fst (final ctx) = Ok (digest m).
Proof.
  intros Hr Hm. assert (cx_count ctx = wrap 64 (zlen m)) as Hc by (destruct Hr as (?&?&?&_&_&_&_&E&_); exact E).
  pose proof (zlen_nonneg m). unfold final. unfold bind at 1, get at 1. rewrite length_code, Hc, (wrap_small 64 (zlen m)) by lia.
  assert (Z.land (zlen m) 63 = zlen m mod 64) as -> by (change 63 with (Z.ones 6); by rewrite Z.land_ones by lia).
  destruct (pad_code m) as [Ep Hp]. set (pad_len := if _ <? _ then _ else _) in *.
  destruct (update_represents m (take (Z.to_nat pad_len) padding) (drop (Z.to_nat pad_len) padding) ctx Hr) as (c1 & E1 & R1).
  { rewrite Ep. unfold zlen. cbn [length]. rewrite length_replicate. assert (0 <= (55 - zlen m) mod 64 < 64) by (apply Z.mod_pos_bound; lia).
    unfold zlen in *. lia. }
  rewrite take_drop, Hp in E1. rewrite (bind_ok _ _ _ _ _ E1).
  destruct (update_represents _ (le_bytes 8 (wrap 64 (zlen m * 8))) [] c1 R1) as (c2 & E2 & R2).
  { unfold zlen. by rewrite length_le_bytes. }
  rewrite app_nil_r in E2. assert (zlen (le_bytes 8 (wrap 64 (zlen m * 8))) = 8) as H8 by (unfold zlen; by rewrite length_le_bytes).
  rewrite H8 in E2.
  rewrite (bind_ok _ _ _ _ _ E2). unfold bind, get, ret. cbn [fst]. f_equal. apply represents_digest.
  unfold pad. rewrite Ep, <- app_assoc, (Z.mul_comm (zlen m)) in R2. exact R2.
Qed.

(** A whole message. *)
Lemma hash_digest junk data : zlen data < 2 ^ 63 -> neoc_ripemd160_hash junk (Some data) (zlen data) = Ok (digest data).
Proof.
  intros Hd. unfold neoc_ripemd160_hash. assert (represents [] (init (replicate 64 junk))) as R0 by by apply represents_init.
  pose proof (zlen_nonneg data). destruct (Z.ltb_spec 0 (zlen data)) as [Hz|Hz].
  - destruct (update_represents [] data [] _ R0 Hd) as (c & E & R). rewrite app_nil_r in E. rewrite (bind_ok _ _ _ _ _ E).
    by apply final_digest.
  - assert (data = []) as -> by (apply zlen_zero; lia). rewrite (bind_ok _ _ _ _ _ (eq_refl (ret tt _))). by apply final_digest.
Qed.

(** A message in pieces. *)
Lemma pieces_represents pieces : forall m ctx,
  represents m ctx -> zlen (concat pieces) < 2 ^ 63 ->
  exists ctx', for_each (fun p => update p (zlen p)) pieces ctx = (Ok tt, ctx') /\ represents (m ++ concat pieces) ctx'.
Proof.
  induction pieces as [|p pieces IH]; intros m ctx Hr Hl; cbn [for_each concat] in *; [rewrite app_nil_r; by exists ctx|].
  rewrite zlen_app in Hl. pose proof (zlen_nonneg p). pose proof (zlen_nonneg (concat pieces)).
  destruct (update_represents m p [] ctx Hr ltac:(lia)) as (c & E & R). rewrite app_nil_r in E.
  rewrite (bind_ok _ _ _ _ _ E), app_assoc. apply IH; [exact R|lia].
Qed.

(** C15. The portable RIPEMD-160 is the published function: for every message, whatever the context held before, the
    digest is that of the padded message, with the two lines of the compression computed apart.  The context may take
    the message in any pieces. *)
Theorem ripemd160_published (junk : byte) (data : list byte) (pieces : list (list byte)) :
  zlen data < 2 ^ 63 ->
  neoc_ripemd160_hash junk (Some data) (zlen data) = Ok (digest data) /\ length (digest data) = 20%nat /\
  (concat pieces = data ->
   fst ((do! for_each (fun p => update p (zlen p)) pieces in final) (init (replicate 64 junk))) = Ok (digest data)).
Proof.
  intros Hd. split; [|split].
  - by apply hash_digest.
  - unfold digest. by rewrite !length_app, !length_le_bytes.
  - intros <-. destruct (pieces_represents pieces [] (init (replicate 64 junk))) as (c & E & R); [by apply represents_init|done|].
    rewrite (bind_ok _ _ _ _ _ E). by apply final_digest.
Qed.

(** ** The two functions of the library *)

(** The wrapper around OpenSSL and the portable function agree when OpenSSL computes the published function. *)
Theorem ripemd160_functions_agree `{Crypto} (junk : byte) (data : option (list byte)) :
  crypto_initialized = true -> (forall d, RIPEMD160 d = Some (digest d)) -> zlen (default [] data) < 2 ^ 63 ->
  neoc_ripemd160 data (zlen (default [] data)) = neoc_ripemd160_hash junk data (zlen (default [] data)).
Proof.
  intros Hi Ho Hd. destruct data as [data|].
  - change (default [] (Some data)) with data in *. rewrite (hash_digest junk data Hd).
    unfold neoc_ripemd160, openssl_digest. by rewrite Hi, buf_slice_all, Ho.
  - change (zlen (default [] None)) with 0. unfold neoc_ripemd160, openssl_digest, neoc_ripemd160_hash. cbn [Z.ltb Z.compare].
    rewrite Hi. change (buf_slice [] 0 0) with (Some (@nil byte)). cbn [negb]. rewrite Ho. symmetry. by apply final_digest; [apply represents_init|].
Qed.

(** ** Samples: the test vectors of the library *)

Definition vectors : list (list byte * list byte) :=
  [(str "", str "9c1185a5c5e9fc54612808977ee8f548b2258d31");
   (str "a", str "0bdc9d2d256b3ee9daae347be6f4dc835a467ffe");
   (str "abc", str "8eb208f7e05d987a9b044a8e98c6b087f15a0bfc");
   (str "message digest", str "5d0689ef49d2fae572b881b123a85ffa21595f36");
   (str "abcdefghijklmnopqrstuvwxyz", str "f71c27109c692c1b56bbdceb5b9d2865b3708dbc");
   (str "abcdbcdecdefdefgefghfghighijhijkijkljklmklmnlmnomnopnopq", str "12a053384a9c0c88e405a06c27dcf49ada62eb2b");
   (str "ABCDEFGHIJKLMNOPQRSTUVWXYZabcdefghijklmnopqrstuvwxyz0123456789", str "b0e20b6e3116640286ed3a87a5713079b21f5189");
   (concat (replicate 8 (str "1234567890")), str "9b752e45573d4b39f4dbd3323cab82bf63326bfb")].

Example vectors_hold :
  map (fun '(m, _) => let? h := neoc_ripemd160_hash Byte.xff (Some m) (zlen m) in Ok (hex_of false h)) vectors = map (fun '(_, h) => Ok h) vectors.
Proof. vm_compute. reflexivity. Qed.

Lemma ripemd160_published_witness :
  neoc_ripemd160_hash Byte.xff (Some (str "abc")) 3 = Ok (digest (str "abc")) /\
  fst ((do! for_each (fun p => update p (zlen p)) [str "a"; str ""; str "bc"] in final) (init (replicate 64 Byte.xff))) = Ok (digest (str "abc")).
Proof.
  destruct (ripemd160_published Byte.xff (str "abc") [str "a"; str ""; str "bc"]) as (E & _ & P); [by vm_compute|].
  split; [exact E|by apply P].
Defined.

(** A library whose digest is the published one. *)
Definition published_crypto : Crypto := {|
  crypto_initialized := true;
  SHA256 d := Some (replicate 32 Byte.x00);
  RIPEMD160 d := Some (digest d)
|}.

Lemma ripemd160_functions_agree_witness :
  @neoc_ripemd160 published_crypto (Some (str "abc")) 3 = neoc_ripemd160_hash Byte.xff (Some (str "abc")) 3.
Proof. exact (@ripemd160_functions_agree published_crypto Byte.xff (Some (str "abc")) eq_refl (fun d => eq_refl) ltac:(by vm_compute)). Defined.
