(* ===== verification/Base58.v ===== *)
(** * Base58 and Base58Check (src/utils/neoc_base58.c)

    The encoder and the decoder are the same radix conversion: for each input digit
    the number held in a little-endian digit buffer is multiplied by the input radix
    and the digit added, the carry running through the buffer.  [repr B ds v] says
    that [ds] are the digits of [v] in radix [B] without leading zeros; the buffers
    the code allocates ([len*138/100+1] and [len*733/1000+1] bytes) are proved large
    enough, so that the conversion loops never leave them. *)

From S2P Require Import Prelude BinaryWriter Crypto.

(** ** Operations *)

Definition NEOC_BASE58_ALPHABET : list byte :=
  str "123456789ABCDEFGHJKLMNPQRSTUVWXYZabcdefghijkmnopqrstuvwxyz".

Definition NEOC_BASE58_CHECKSUM_LENGTH : Z := 4.

(** [strchr]: the index of the first occurrence; the terminator counts. *)
Fixpoint strchr_at (i : Z) (s : list byte) (c : byte) : option Z :=
  match s with
  | [] => if Z_of_byte c =? 0 then Some i else None
  | b :: s => if Z_of_byte b =? Z_of_byte c then Some i else strchr_at (i + 1) s c
  end.
Definition strchr (s : list byte) (c : byte) : option Z := strchr_at 0 s c.

Definition neoc_base58_decode_char (c : byte) : Z :=
  match strchr NEOC_BASE58_ALPHABET c with
  | None => -1
  | Some position => position
  end.

Definition neoc_base58_is_valid_char (c : byte) : bool :=
  match strchr NEOC_BASE58_ALPHABET c with Some _ => true | None => false end.

Definition neoc_base58_is_valid_string (s : option (list byte)) : bool :=
  match s with
  | None => false
  | Some s =>
      if negb (forallb neoc_base58_is_valid_char s) then false
      else match s with [] => false | _ => true end
  end.

Definition neoc_base58_encode_buffer_size (data_length : Z) : Z :=
  if data_length =? 0 then 2
  else wrap 64 (wrap 64 (data_length * 138) / 100 + 2).

(** [while (zeros < len && s[zeros] == z) ++zeros;] *)
Fixpoint count_leading (z : byte) (s : list byte) : nat :=
  match s with
  | b :: s => if Z_of_byte b =? Z_of_byte z then S (count_leading z s) else O
  | [] => O
  end.

Definition neoc_base58_decode_buffer_size (s : option (list byte)) : Z :=
  match s with
  | None => 0
  | Some [] => 0
  | Some s =>
      let zeros := Z.of_nat (count_leading Byte.x31 s) in
      wrap 64 (zeros + (wrap 64 ((zlen s - zeros) * 733) / 1000 + 1))
  end.

(** The inner loop [for (; j < length || carry != 0; ++j)]: [buf] is the digit buffer
    from index [j] on; the loop multiplies by [mul] in radix [base].  [None] is an
    access behind the end of the buffer.  The new digits and the new [length]. *)
Fixpoint carry_loop (mul base j length carry : Z) (buf : list byte)
  : option (list byte * Z) :=
  if (j <? length) || negb (carry =? 0) then
    match buf with
    | [] => None
    | d :: buf =>
        let carry := carry + mul * Z_of_byte d in
        let length := if length <=? j then j + 1 else length in
        match carry_loop mul base (j + 1) length (carry / base) buf with
        | Some (buf, length) => Some (byte_of_Z (carry mod base) :: buf, length)
        | None => None
        end
    end
  else Some (buf, length).

(** The outer loop of the encoder, over the input bytes behind the zeros. *)
Fixpoint encode_outer (data : list byte) (buf : list byte) (length : Z)
  : option (list byte * Z) :=
  match data with
  | [] => Some (buf, length)
  | b :: data =>
      match carry_loop 256 58 0 length (Z_of_byte b) buf with
      | Some (buf, length) => encode_outer data buf length
      | None => None
      end
  end.

(** [NEOC_BASE58_ALPHABET[d]] *)
Definition alphabet_at (d : byte) : byte :=
  default Byte.x00 (NEOC_BASE58_ALPHABET !! Z.to_nat (Z_of_byte d)).

Section Operations.
Context `{Allocator}.

Definition neoc_base58_encode (data : option (list byte)) (data_len buffer_size : Z)
  : M (list byte) unit :=
  match data with
  | None => fail NEOC_ERROR_INVALID_ARGUMENT
  | Some data =>
      if data_len =? 0 then
        if buffer_size <? 1 then fail NEOC_ERROR_BUFFER_TOO_SMALL else store 0 [Byte.x00]
      else
        match buf_slice data 0 data_len with
        | None => fault
        | Some data =>
            let zeros := count_leading Byte.x00 data in
            let size := wrap 64 (wrap 64 (data_len * 138) / 100 + 1) in
            if negb (neoc_malloc_ok size) then fail NEOC_ERROR_MEMORY
            else
              match encode_outer (drop zeros data) (replicate (Z.to_nat size) Byte.x00) 0 with
              | None => fault
              | Some (buf, length) =>
                  let result_len := Z.of_nat zeros + length in
                  if buffer_size <? wrap 64 (result_len + 1)
                  then fail NEOC_ERROR_BUFFER_TOO_SMALL
                  else
                    do! store 0 (replicate zeros Byte.x31) in
                    do! store (Z.of_nat zeros)
                          (map alphabet_at (reverse (take (Z.to_nat length) buf))) in
                    store result_len [Byte.x00]
              end
        end
  end.

(** The outer loop of the decoder, which stops at a character outside the alphabet. *)
Fixpoint decode_outer (s : list byte) (buf : list byte) (length : Z)
  : res (list byte * Z) :=
  match s with
  | [] => Ok (buf, length)
  | c :: s =>
      let carry := neoc_base58_decode_char c in
      if carry <? 0 then Err NEOC_ERROR_INVALID_FORMAT
      else
        match carry_loop 58 256 0 length carry buf with
        | Some (buf, length) => decode_outer s buf length
        | None => Fault
        end
  end.

Definition neoc_base58_decode (encoded : option (list byte)) (buffer_size : Z)
  : M (list byte) Z :=
  match encoded with
  | None => fail NEOC_ERROR_INVALID_ARGUMENT
  | Some s =>
      let zeros := count_leading Byte.x31 s in
      let size := wrap 64 (wrap 64 (zlen s * 733) / 1000 + 1) in
      if negb (neoc_malloc_ok size) then fail NEOC_ERROR_MEMORY
      else
        let! '(buf, length) :=
          lift (decode_outer (drop zeros s) (replicate (Z.to_nat size) Byte.x00) 0) in
        let digits := reverse (take (Z.to_nat length) buf) in
        let skip := count_leading Byte.x00 digits in
        let result_len := Z.of_nat zeros + (length - Z.of_nat skip) in
        if buffer_size <? result_len then fail NEOC_ERROR_BUFFER_TOO_SMALL
        else
          do! store 0 (replicate zeros Byte.x00) in
          do! store (Z.of_nat zeros) (take (Z.to_nat (length - Z.of_nat skip)) digits) in
          ret result_len
  end.

(** What uninitialised heap memory holds. *)
Variable junk : byte.

(** The final shrinking [realloc] changes no byte of the string. *)
Definition neoc_base58_encode_alloc (data : option (list byte)) (data_length : Z)
  : res (list byte) :=
  match data with
  | None => Err NEOC_ERROR_INVALID_ARGUMENT
  | Some _ =>
      let buffer_size := neoc_base58_encode_buffer_size data_length in
      if negb (neoc_malloc_ok buffer_size) then Err NEOC_ERROR_MEMORY
      else
        match neoc_base58_encode data data_length buffer_size
                (replicate (Z.to_nat buffer_size) junk) with
        | (Ok _, buffer) => Ok (cstring buffer)
        | (Err e, _) => Err e
        | (Fault, _) => Fault
        end
  end.

Definition neoc_base58_decode_alloc (s : option (list byte)) : res (list byte) :=
  match s with
  | None => Err NEOC_ERROR_INVALID_ARGUMENT
  | Some _ =>
      let buffer_size := neoc_base58_decode_buffer_size s in
      if buffer_size =? 0 then Err NEOC_ERROR_INVALID_ARGUMENT
      else if negb (neoc_malloc_ok buffer_size) then Err NEOC_ERROR_MEMORY
      else
        match neoc_base58_decode s buffer_size (replicate (Z.to_nat buffer_size) junk) with
        | (Ok actual_length, buffer) => Ok (take (Z.to_nat actual_length) buffer)
        | (Err e, _) => Err e
        | (Fault, _) => Fault
        end
  end.

Definition neoc_base58_check_encode_buffer_size (data_length : Z) : Z :=
  neoc_base58_encode_buffer_size (wrap 64 (data_length + NEOC_BASE58_CHECKSUM_LENGTH)).

Definition neoc_base58_check_decode_buffer_size (s : option (list byte)) : Z :=
  let raw_size := neoc_base58_decode_buffer_size s in
  if raw_size <? NEOC_BASE58_CHECKSUM_LENGTH then 0
  else raw_size - NEOC_BASE58_CHECKSUM_LENGTH.

Context `{Crypto}.

Definition neoc_base58_check_encode (data : option (list byte)) (data_len buffer_size : Z)
  : M (list byte) unit :=
  match data with
  | None => fail NEOC_ERROR_INVALID_ARGUMENT
  | Some bytes =>
      let! hash := lift (neoc_sha256_double data data_len) in
      if negb (neoc_malloc_ok (wrap 64 (data_len + 4))) then fail NEOC_ERROR_MEMORY
      else
        match buf_slice bytes 0 data_len, buf_slice hash 0 4 with
        | Some d, Some checksum =>
            neoc_base58_encode (Some (d ++ checksum)) (wrap 64 (data_len + 4)) buffer_size
        | _, _ => fault
        end
  end.

Definition neoc_base58_check_decode (encoded : option (list byte)) (buffer_size : Z)
  : M (list byte) Z :=
  match encoded with
  | None => fail NEOC_ERROR_INVALID_ARGUMENT
  | Some _ =>
      let temp_size := neoc_base58_decode_buffer_size encoded in
      if temp_size =? 0 then fail NEOC_ERROR_INVALID_ARGUMENT
      else if negb (neoc_malloc_ok temp_size) then fail NEOC_ERROR_MEMORY
      else
        let '(r, temp_buffer) :=
          neoc_base58_decode encoded temp_size (replicate (Z.to_nat temp_size) junk) in
        let! temp_len := lift r in
        if temp_len <? 4 then fail NEOC_ERROR_INVALID_SIZE
        else
          let! hash := lift (neoc_sha256_double (Some temp_buffer) (temp_len - 4)) in
          match buf_slice temp_buffer (temp_len - 4) 4, buf_slice hash 0 4 with
          | Some a, Some b =>
              if negb (bool_decide (a = b)) then fail NEOC_ERROR_INVALID_FORMAT
              else
                let result_len := temp_len - 4 in
                if buffer_size <? result_len then fail NEOC_ERROR_BUFFER_TOO_SMALL
                else
                  match buf_slice temp_buffer 0 result_len with
                  | Some d => do! store 0 d in ret result_len
                  | None => fault
                  end
          | _, _ => fault
          end
  end.

Definition neoc_base58_check_encode_alloc (data : option (list byte)) (data_length : Z)
  : res (list byte) :=
  match data with
  | None => Err NEOC_ERROR_INVALID_ARGUMENT
  | Some _ =>
      let buffer_size := neoc_base58_check_encode_buffer_size data_length in
      if negb (neoc_malloc_ok buffer_size) then Err NEOC_ERROR_MEMORY
      else
        match neoc_base58_check_encode data data_length buffer_size
                (replicate (Z.to_nat buffer_size) junk) with
        | (Ok _, buffer) => Ok (cstring buffer)
        | (Err e, _) => Err e
        | (Fault, _) => Fault
        end
  end.

(** The length test here is applied to the payload, behind which the checksum has
    already been removed. *)
Definition neoc_base58_check_decode_alloc (s : option (list byte)) : res (list byte) :=
  match s with
  | None => Err NEOC_ERROR_INVALID_ARGUMENT
  | Some _ =>
      let buffer_size := neoc_base58_decode_buffer_size s in
      if buffer_size =? 0 then Err NEOC_ERROR_INVALID_ARGUMENT
      else if negb (neoc_malloc_ok buffer_size) then Err NEOC_ERROR_MEMORY
      else
        match neoc_base58_check_decode s buffer_size
                (replicate (Z.to_nat buffer_size) junk) with
        | (Ok actual_length, buffer) =>
            if actual_length <? NEOC_BASE58_CHECKSUM_LENGTH then Err NEOC_ERROR_INVALID_FORMAT
            else Ok (take (Z.to_nat actual_length) buffer)
        | (Err e, _) => Err e
        | (Fault, _) => Fault
        end
  end.

End Operations.

(** ** Positional notation *)

(** The number denoted by little-endian digits. *)
Fixpoint val (B : Z) (ds : list byte) : Z :=
  match ds with
  | [] => 0
  | d :: ds => Z_of_byte d + B * val B ds
  end.

Definition below (B : Z) (ds : list byte) : Prop := Forall (fun d => Z_of_byte d < B) ds.
Definition zeroes (ds : list byte) : Prop := Forall (fun d => d = Byte.x00) ds.

(** The digits of [v] without leading zeros. *)
Definition repr (B : Z) (ds : list byte) (v : Z) : Prop :=
  val B ds = v /\ below B ds /\ last ds <> Some Byte.x00.

(** The number of a big-endian digit sequence, as the outer loops accumulate it. *)
Definition be_from (mul v : Z) (ds : list Z) : Z := foldl (fun a d => d + mul * a) v ds.
Definition be_val (mul : Z) (ds : list Z) : Z := be_from mul 0 ds.

Lemma val_range B ds : 1 <= B -> below B ds -> 0 <= val B ds < B ^ zlen ds.
Proof.
  intros HB. induction 1 as [|d ds Hd _ IH]; cbn [val]; [done|].
  pose proof (Z_of_byte_range d). pose proof (zlen_nonneg ds).
  rewrite zlen_cons, Z.add_comm, Z.pow_add_r, Z.pow_1_r by lia. nia.
Qed.

Lemma val_zeroes B ds : zeroes ds -> val B ds = 0.
Proof. induction 1 as [|d ds -> _ IH]; cbn [val]; [done|]. rewrite IH. cbn. lia. Qed.

Lemma val_app B a b : 0 < B -> val B (a ++ b) = val B a + B ^ zlen a * val B b.
Proof.
  intros HB. induction a as [|d a IH]; cbn [app val].
  - change (zlen []) with 0. lia.
  - rewrite IH, zlen_cons, Z.pow_add_r, Z.pow_1_r; try lia. apply zlen_nonneg.
Qed.

(** Digits without leading zeros are determined by the number. *)
Lemma repr_unique B a : forall b v, 2 <= B -> repr B a v -> repr B b v -> a = b.
Proof.
  assert (forall B ds, 2 <= B -> below B ds -> last ds <> Some Byte.x00 ->
          val B ds = 0 -> ds = []) as Hnil.
  { clear. intros B ds HB. induction ds as [|d ds IH]; intros Hb Hl Hv; [done|].
    inversion Hb as [|? ? Hd Hb']; subst. cbn [val] in Hv.
    pose proof (Z_of_byte_range d). pose proof (val_range B ds ltac:(lia) Hb').
    assert (Z_of_byte d = 0 /\ val B ds = 0) as [Hd0 Hds] by nia.
    rewrite last_cons in Hl. rewrite (IH Hb') in Hl; [|by destruct (last ds)|done].
    exfalso. apply Hl. cbn. f_equal. apply Z_of_byte_inj. done. }
  induction a as [|x a IH]; intros [|y b] v HB (Ha & Hab & Hal) (Hb & Hbb & Hbl).
  - done.
  - symmetry. apply (Hnil B); auto. cbn in *. lia.
  - apply (Hnil B); auto. cbn in *. lia.
  - inversion Hab as [|? ? Hx Hab']; subst. inversion Hbb as [|? ? Hy Hbb']; subst.
    cbn [val] in Hb. pose proof (Z_of_byte_range x). pose proof (Z_of_byte_range y).
    assert (Z_of_byte x = Z_of_byte y /\ val B a = val B b) as [Exy Eab].
    { pose proof (val_range B a ltac:(lia) Hab'). pose proof (val_range B b ltac:(lia) Hbb').
      assert (val B a = val B b) by nia. split; [nia|done]. }
    apply Z_of_byte_inj in Exy as ->. f_equal. apply (IH b (val B a) HB).
    + split_and!; [done|done|]. rewrite last_cons in Hal. by destruct (last a).
    + split_and!; [done|done|]. rewrite last_cons in Hbl. by destruct (last b).
Qed.

(** ** The conversion loop *)

Section Convert.
Variables mul B : Z.
Hypothesis Hmul : 1 <= mul <= 256.
Hypothesis HB : 2 <= B <= 256.

(** One round: if the new number fits in the buffer, the loop stays inside it and
    computes it; [length] only grows to positions the number needs. *)
Lemma carry_loop_spec buf : forall j length carry,
  0 <= j -> 0 <= carry -> below B buf -> length <= j + zlen buf ->
  zeroes (drop (Z.to_nat (length - j)) buf) ->
  carry + mul * val B buf < B ^ zlen buf ->
  exists buf' length',
    carry_loop mul B j length carry buf = Some (buf', length') /\
    val B buf' = carry + mul * val B buf /\ zlen buf' = zlen buf /\ below B buf' /\
    length <= length' <= Z.max length (j + zlen buf) /\
    zeroes (drop (Z.to_nat (length' - j)) buf') /\
    (length' = length \/ (j < length' /\ B ^ (length' - 1 - j) <= val B buf')).
Proof.
  induction buf as [|d buf IH]; intros j length carry Hj Hc Hb Hl Hz Hf; cbn [carry_loop].
  - cbn [val] in Hf. change (zlen []) with 0 in *. rewrite Z.pow_0_r in Hf.
    assert ((j <? length) || negb (carry =? 0) = false) as -> by lia.
    exists [], length. split_and!; try done; try lia. cbn. lia.
  - inversion Hb as [|? ? Hd Hb']; subst. rewrite zlen_cons in *.
    pose proof (Z_of_byte_range d). pose proof (zlen_nonneg buf).
    destruct ((j <? length) || negb (carry =? 0)) eqn:E.
    2: { bdestruct. exists (d :: buf), length. rewrite zlen_cons.
         split_and!; try done; try lia.
         replace (Z.to_nat (length - j)) with O in Hz by lia.
         rewrite drop_0 in Hz. rewrite (val_zeroes _ _ Hz). lia. }
    set (length1 := if length <=? j then j + 1 else length).
    set (c := carry + mul * Z_of_byte d).
    assert (0 <= c) by (unfold c; nia).
    cbn [val] in Hf. rewrite Z.pow_add_r, Z.pow_1_r in Hf by lia.
    pose proof (Z.div_mod c B ltac:(lia)). pose proof (Z.mod_pos_bound c B ltac:(lia)).
    destruct (IH (j + 1) length1 (c / B)) as (buf' & length' & -> & Hv & Hz' & Hb'' & Hl' & Hzz & Hmin).
    + lia.
    + apply Z.div_pos; lia.
    + done.
    + unfold length1. destruct (length <=? j) eqn:?; bdestruct; lia.
    + unfold length1. destruct (length <=? j) eqn:El; bdestruct.
      * replace (Z.to_nat (j + 1 - (j + 1))) with O by lia. rewrite drop_0.
        replace (Z.to_nat (length - j)) with O in Hz by lia. rewrite drop_0 in Hz.
        by inversion Hz.
      * replace (Z.to_nat (length - j)) with (S (Z.to_nat (length - (j + 1)))) in Hz by lia.
        done.
    + unfold c in *. nia.
    + exists (byte_of_Z (c mod B) :: buf'), length'. cbn [val]. rewrite !zlen_cons.
      rewrite Z_of_byte_small by lia.
      assert (length <= length1 /\ j + 1 <= length1 /\ (length1 = length \/ length1 = j + 1))
        as (Hl1 & Hl2 & Hl3).
      { unfold length1. destruct (length <=? j) eqn:?; bdestruct; lia. }
      assert (c mod B + B * val B buf' = carry + mul * (Z_of_byte d + B * val B buf)) as Hval.
      { rewrite Hv. unfold c in *. nia. }
      split_and!; try done; try lia.
      * constructor; [rewrite Z_of_byte_small; lia|done].
      * replace (Z.to_nat (length' - j)) with (S (Z.to_nat (length' - (j + 1)))) by lia. done.
      * destruct Hmin as [->|[Hj' Hmin]].
        -- destruct Hl3 as [Hl3|Hl3]; [by left|].
           destruct (Z.eq_dec length1 length) as [->|Hne]; [by left|right].
           split; [lia|]. rewrite Hl3. replace (j + 1 - 1 - j) with 0 by lia.
           rewrite Z.pow_0_r. pose proof (val_range B buf ltac:(lia) Hb'). nia.
        -- right. split; [lia|].
           replace (length' - 1 - j) with (1 + (length' - 1 - (j + 1))) by lia.
           rewrite Z.pow_add_r, Z.pow_1_r by lia. nia.
Qed.

(** The digit buffer between two rounds. *)
Record converted (size : Z) (buf : list byte) (length v : Z) : Prop := {
  converted_val : val B buf = v;
  converted_size : zlen buf = size;
  converted_below : below B buf;
  converted_length : 0 <= length <= size;
  converted_zeroes : zeroes (drop (Z.to_nat length) buf);
  converted_minimal : length = 0 \/ B ^ (length - 1) <= v
}.

Lemma converted_start size :
  0 <= size -> converted size (replicate (Z.to_nat size) Byte.x00) 0 0.
Proof.
  intros Hs. assert (zeroes (replicate (Z.to_nat size) Byte.x00)) as Hz.
  { apply Forall_replicate. done. }
  split; [by apply val_zeroes|unfold zlen; rewrite length_replicate; lia| |lia| |by left].
  - apply Forall_replicate. cbn. lia.
  - rewrite drop_0. done.
Qed.

Lemma converted_round size buf length v c :
  converted size buf length v -> 0 <= c -> c + mul * v < B ^ size ->
  exists buf' length', carry_loop mul B 0 length c buf = Some (buf', length') /\
                       converted size buf' length' (c + mul * v).
Proof.
  intros [Hv Hs Hb Hl Hz Hm] Hc Hf. subst v. rewrite <- Hs in *.
  destruct (carry_loop_spec buf 0 length c) as (buf' & length' & -> & Hv' & Hs' & Hb' & Hl' & Hz' & Hm');
    rewrite ?Z.sub_0_r; [lia|lia|done|lia|done|done|].
  exists buf', length'. split; [done|]. rewrite Z.sub_0_r in Hz'.
  split; [done|done|done|lia|done|].
  pose proof (val_range B buf ltac:(lia) Hb).
  destruct Hm' as [->|[_ Hm']].
  - destruct Hm as [|Hm]; [by left|right]. etrans; [done|]. nia.
  - right. rewrite <- Hv'. replace (length' - 1) with (length' - 1 - 0) by lia. done.
Qed.

(** What the loop leaves in the buffer: the digits of the number. *)
Lemma converted_repr size buf length v :
  converted size buf length v ->
  repr B (take (Z.to_nat length) buf) v /\ zlen (take (Z.to_nat length) buf) = length.
Proof.
  intros [Hv Hs Hb Hl Hz Hm]. set (ds := take (Z.to_nat length) buf).
  assert (zlen ds = length) as Hlen.
  { unfold ds, zlen in *. rewrite length_take. lia. }
  assert (val B ds = v) as Hval.
  { rewrite <- Hv, <- (take_drop (Z.to_nat length) buf), val_app by lia.
    rewrite (val_zeroes B (drop _ _) Hz). fold ds. lia. }
  assert (below B ds) as Hbd by (by apply Forall_take).
  split; [split_and!; [done|done|]|done].
  intros Hlast. apply last_Some in Hlast as [ds' Hds]. rewrite Hds in Hval, Hlen, Hbd.
  rewrite val_app in Hval by lia. rewrite zlen_app in Hlen. change (zlen [_]) with 1 in Hlen.
  apply Forall_app in Hbd as [Hbd _]. pose proof (val_range B ds' ltac:(lia) Hbd).
  pose proof (zlen_nonneg ds').
  destruct Hm as [|Hm]; [lia|]. replace (length - 1) with (zlen ds') in Hm by lia.
  cbn [val] in Hval. change (Z_of_byte Byte.x00) with 0 in Hval. lia.
Qed.

(** Room for the digits still to come. *)
Lemma room_step size v c n :
  0 <= v -> 0 <= c < mul -> (v + 1) * mul ^ (1 + Z.of_nat n) <= B ^ size ->
  c + mul * v < B ^ size /\ (c + mul * v + 1) * mul ^ Z.of_nat n <= B ^ size.
Proof.
  intros Hv Hc Hr. rewrite Z.pow_add_r, Z.pow_1_r in Hr by lia.
  assert (0 < mul ^ Z.of_nat n) by (apply Z.pow_pos_nonneg; lia). nia.
Qed.
End Convert.

Lemma be_from_range mul ds : forall v,
  1 <= mul -> 0 <= v -> Forall (fun d => 0 <= d < mul) ds ->
  0 <= be_from mul v ds < (v + 1) * mul ^ zlen ds.
Proof.
  induction ds as [|d ds IH]; intros v Hm Hv Hd; cbn.
  - change (zlen []) with 0. lia.
  - inversion Hd as [|? ? H1 H2]; subst. destruct (IH (d + mul * v)) as [? Hlt]; [lia|nia|done|].
    split; [done|]. eapply Z.lt_le_trans; [done|].
    rewrite zlen_cons, Z.pow_add_r, Z.pow_1_r by (pose proof (zlen_nonneg ds); lia).
    assert (0 < mul ^ zlen ds) by (apply Z.pow_pos_nonneg; [lia|apply zlen_nonneg]). nia.
Qed.

(** Big-endian accumulation and the little-endian value agree. *)
Lemma be_from_val mul ds : forall v,
  0 < mul ->
  be_from mul v (map Z_of_byte ds) = val mul (reverse ds) + mul ^ zlen ds * v.
Proof.
  induction ds as [|d ds IH]; intros v Hm.
  - cbn. change (zlen []) with 0. lia.
  - change (be_from mul v (map Z_of_byte (d :: ds)))
      with (be_from mul (Z_of_byte d + mul * v) (map Z_of_byte ds)).
    rewrite IH, reverse_cons, val_app by lia.
    assert (zlen (reverse ds) = zlen ds) as -> by (unfold zlen; rewrite length_reverse; done).
    cbn [val]. rewrite zlen_cons, Z.pow_add_r, Z.pow_1_r by (pose proof (zlen_nonneg ds); lia).
    lia.
Qed.

Lemma encode_outer_spec size data : forall buf length v,
  converted 58 size buf length v -> 0 <= v ->
  (v + 1) * 256 ^ zlen data <= 58 ^ size ->
  exists buf' length', encode_outer data buf length = Some (buf', length') /\
    converted 58 size buf' length' (be_from 256 v (map Z_of_byte data)).
Proof.
  induction data as [|b data IH]; intros buf length v Hc Hv Hr; cbn [encode_outer]; [eauto|].
  pose proof (Z_of_byte_range b).
  destruct (room_step 256 58 ltac:(lia) ltac:(lia) size v (Z_of_byte b) (List.length data))
    as [Hf Hr']; [lia|lia|rewrite zlen_cons in Hr; done|].
  destruct (converted_round 256 58 ltac:(lia) ltac:(lia) size buf length v (Z_of_byte b))
    as (buf' & length' & -> & Hc'); [done|lia|done|].
  apply IH; [done|lia|done].
Qed.

(** The digit of a character, for a string all of whose characters are in the
    alphabet. *)
Definition valid58 (s : list byte) : Prop :=
  Forall (fun c => 0 <= neoc_base58_decode_char c < 58) s.

Lemma decode_outer_spec size s : forall buf length v,
  converted 256 size buf length v -> 0 <= v -> valid58 s ->
  (v + 1) * 58 ^ zlen s <= 256 ^ size ->
  exists buf' length', decode_outer s buf length = Ok (buf', length') /\
    converted 256 size buf' length' (be_from 58 v (map neoc_base58_decode_char s)).
Proof.
  induction s as [|c s IH]; intros buf length v Hc Hv Hs Hr; cbn [decode_outer]; [eauto|].
  inversion Hs as [|? ? Hd Hs']; subst. cmps.
  destruct (room_step 58 256 ltac:(lia) ltac:(lia) size v (neoc_base58_decode_char c)
    (List.length s)) as [Hf Hr']; [lia|lia|rewrite zlen_cons in Hr; done|].
  destruct (converted_round 58 256 ltac:(lia) ltac:(lia) size buf length v
    (neoc_base58_decode_char c)) as (buf' & length' & -> & Hc'); [done|lia|done|].
  apply IH; [done|lia|done|done].
Qed.

(** A character outside the alphabet stops the decoder with an error, inside the
    buffer. *)
Lemma decode_outer_invalid size s : forall buf length v,
  converted 256 size buf length v -> 0 <= v ->
  Forall (fun c => neoc_base58_decode_char c < 58) s -> ~ valid58 s ->
  (v + 1) * 58 ^ zlen s <= 256 ^ size ->
  decode_outer s buf length = Err NEOC_ERROR_INVALID_FORMAT.
Proof.
  induction s as [|c s IH]; intros buf length v Hc Hv Hlt Hs Hr; cbn [decode_outer].
  { destruct Hs. constructor. }
  inversion Hlt as [|? ? Hd Hlt']; subst.
  destruct (_ <? 0) eqn:E; bdestruct; [done|].
  destruct (room_step 58 256 ltac:(lia) ltac:(lia) size v (neoc_base58_decode_char c)
    (List.length s)) as [Hf Hr']; [lia|lia|rewrite zlen_cons in Hr; done|].
  destruct (converted_round 58 256 ltac:(lia) ltac:(lia) size buf length v
    (neoc_base58_decode_char c)) as (buf' & length' & -> & Hc'); [done|lia|done|].
  eapply IH; [done|lia|done| |done]. intros Hv'. apply Hs. constructor; [lia|done].
Qed.

(** ** The buffer sizes are large enough *)

Lemma pow_compare a b p q n m :
  1 < a -> 1 < b -> 0 < p -> 0 < q -> 0 <= n -> a ^ p <= b ^ q -> q * n <= p * m ->
  0 <= m -> a ^ n <= b ^ m.
Proof.
  intros Ha Hb Hp Hq Hn Hab Hnm Hm. apply Z.nlt_ge. intros Hlt.
  assert (0 <= b ^ m) as Hb0 by (apply Z.pow_nonneg; lia).
  pose proof (Z.pow_lt_mono_l _ _ p Hp (conj Hb0 Hlt)) as Hlt'.
  revert Hlt'. apply Z.nlt_ge. rewrite <- !Z.pow_mul_r by lia.
  transitivity ((a ^ p) ^ n); [rewrite <- Z.pow_mul_r by lia; apply Z.eq_le_incl; f_equal; lia|].
  transitivity ((b ^ q) ^ n).
  - apply Z.pow_le_mono_l. split; [apply Z.pow_nonneg; lia|done].
  - rewrite <- Z.pow_mul_r by lia. apply Z.pow_le_mono_r; lia.
Qed.

Lemma encode_size_enough n : 0 <= n -> 256 ^ n <= 58 ^ (n * 138 / 100 + 1).
Proof.
  intros Hn. apply (pow_compare 256 58 100 138); try lia;
    first [vm_compute; discriminate | dlia].
Qed.

Lemma decode_size_enough n : 0 <= n -> 58 ^ n <= 256 ^ (n * 733 / 1000 + 1).
Proof.
  intros Hn. apply (pow_compare 58 256 1000 733); try lia;
    first [vm_compute; discriminate | dlia].
Qed.

(** The number of digits a number below [B ^ m] has. *)
Lemma repr_length B ds v m :
  2 <= B -> repr B ds v -> v < B ^ m -> 0 <= m -> zlen ds <= m.
Proof.
  intros HB (Hv & Hb & Hl) Hm Hm0. destruct (last ds) as [d|] eqn:E.
  2: { apply last_None in E as ->. done. }
  apply last_Some in E as [ds' ->]. rewrite val_app in Hv by lia.
  apply Forall_app in Hb as [Hb Hd]. inversion Hd; subst.
  pose proof (val_range B ds' ltac:(lia) Hb). pose proof (zlen_nonneg ds').
  pose proof (Z_of_byte_range d).
  assert (Z_of_byte d <> 0). { intros Hz. apply Hl. f_equal. apply Z_of_byte_inj. done. }
  rewrite zlen_app. change (zlen [d]) with 1. cbn [val] in Hm.
  assert (B ^ zlen ds' < B ^ m) as Hlt by nia.
  apply Z.pow_lt_mono_r_iff in Hlt; lia.
Qed.

(** ** The alphabet *)

Lemma alphabet_digit d :
  Z_of_byte d < 58 ->
  neoc_base58_decode_char (alphabet_at d) = Z_of_byte d /\ alphabet_at d <> Byte.x00 /\
  (alphabet_at d = Byte.x31 -> d = Byte.x00).
Proof.
  intros Hd.
  pose proof (byte_all (fun d => (58 <=? Z_of_byte d) ||
    ((neoc_base58_decode_char (alphabet_at d) =? Z_of_byte d) &&
     bool_decide (alphabet_at d <> Byte.x00) &&
     bool_decide (alphabet_at d = Byte.x31 -> d = Byte.x00))) ltac:(vm_compute; done) d) as H.
  cbn beta in H. apply orb_true_iff in H as [H|H]; bdestruct; [lia|].
  split_and!; done.
Qed.

Lemma char_digit c :
  c <> Byte.x00 ->
  -1 <= neoc_base58_decode_char c < 58 /\
  (0 <= neoc_base58_decode_char c -> alphabet_at (byte_of_Z (neoc_base58_decode_char c)) = c) /\
  (neoc_base58_decode_char c = 0 -> c = Byte.x31).
Proof.
  intros Hc.
  pose proof (byte_all (fun c => bool_decide (c = Byte.x00) ||
    ((-1 <=? neoc_base58_decode_char c) && (neoc_base58_decode_char c <? 58) &&
     ((neoc_base58_decode_char c <? 0) ||
      bool_decide (alphabet_at (byte_of_Z (neoc_base58_decode_char c)) = c)) &&
     (negb (neoc_base58_decode_char c =? 0) || bool_decide (c = Byte.x31))))
    ltac:(vm_compute; done) c) as H.
  cbn beta in H. rewrite bool_decide_eq_false_2 in H by done. cbn [orb] in H. bdestruct.
  split_and!; [lia|lia|..].
  - intros Hp. match goal with H : (_ <? _) || _ = true |- _ =>
      apply orb_true_iff in H as [H|H] end; bdestruct; [lia|done].
  - intros Hp. match goal with H : negb _ || _ = true |- _ =>
      apply orb_true_iff in H as [H|H] end; bdestruct; [lia|done].
Qed.

Lemma count_leading_spec z s :
  take (count_leading z s) s = replicate (count_leading z s) z /\
  head (drop (count_leading z s) s) <> Some z /\ (count_leading z s <= length s)%nat.
Proof.
  induction s as [|b s (IH1 & IH2 & IH3)]; cbn [count_leading]; [done|].
  destruct (_ =? _) eqn:E; bdestruct.
  - apply Z_of_byte_inj in E as ->. cbn. rewrite IH1. split_and!; [done|done|lia].
  - cbn. split_and!; [done| |lia]. intros [= ->]. done.
Qed.

Lemma count_leading_app z n s :
  head s <> Some z -> count_leading z (replicate n z ++ s) = n.
Proof.
  intros Hs. induction n as [|n IH]; cbn [replicate app count_leading].
  - destruct s as [|b s]; [done|]. cbn [count_leading].
    destruct (_ =? _) eqn:E; bdestruct; [|done]. apply Z_of_byte_inj in E as ->. done.
  - rewrite Z.eqb_refl, IH. done.
Qed.

(** [s] is the Base58 text of [data]: a [1] for every leading zero byte, then the
    digits of the number the remaining bytes denote. *)
Definition text_of (data s : list byte) : Prop :=
  exists D, repr 58 D (be_val 256 (map Z_of_byte (drop (count_leading Byte.x00 data) data))) /\
    s = replicate (count_leading Byte.x00 data) Byte.x31 ++ map alphabet_at (reverse D).

(** [data] are the bytes of the Base58 text [s]. *)
Definition bytes_of (s data : list byte) : Prop :=
  exists E, valid58 (drop (count_leading Byte.x31 s) s) /\
    repr 256 E (be_val 58 (map neoc_base58_decode_char (drop (count_leading Byte.x31 s) s))) /\
    data = replicate (count_leading Byte.x31 s) Byte.x00 ++ reverse E.

(** The text fits the buffer the allocating variant provides. *)
Lemma text_length data s :
  data <> [] -> zlen data < 2 ^ 56 -> text_of data s ->
  zlen s + 1 <= neoc_base58_encode_buffer_size (zlen data).
Proof.
  intros Hne Hl (D & HD & ->). pose proof (count_leading_spec Byte.x00 data) as (_ & _ & Hc).
  set (z := count_leading Byte.x00 data) in *. pose proof (zlen_drop z data Hc) as Hd.
  assert (0 < zlen data) by (by apply zlen_pos).
  assert (zlen D <= zlen (drop z data) * 138 / 100 + 1) as HD'.
  { eapply (repr_length 58); [lia|done| |pose proof (zlen_nonneg (drop z data)); dlia].
    eapply Z.lt_le_trans; [|apply encode_size_enough, zlen_nonneg].
    pose proof (be_from_range 256 (map Z_of_byte (drop z data)) 0 ltac:(lia) ltac:(lia)) as Hr.
    rewrite zlen_map, Z.mul_1_l in Hr. apply Hr.
    apply Forall_map, Forall_forall. intros. apply Z_of_byte_range. }
  rewrite zlen_app, zlen_replicate, zlen_map, zlen_reverse.
  unfold neoc_base58_encode_buffer_size. cmps.
  rewrite (wrap_small 64 (zlen data * 138)) by lia. rewrite wrap_small by dlia. dlia.
Qed.

(** The exact length of a text whose bytes start with [b]. *)
Lemma text_length_exact b ds s m :
  b <> Byte.x00 -> text_of (b :: ds) s -> 1 <= m ->
  58 ^ (m - 1) <= Z_of_byte b * 256 ^ zlen ds -> (Z_of_byte b + 1) * 256 ^ zlen ds <= 58 ^ m ->
  zlen s = m.
Proof.
  intros Hb (D & HD & ->) Hm Hlo Hhi. cbn [count_leading] in *.
  assert ((Z_of_byte b =? Z_of_byte Byte.x00) = false) as E
    by (apply Z.eqb_neq; intros E; by apply Hb, Z_of_byte_inj).
  rewrite E in *. cbn [replicate app drop] in *.
  unfold be_val in HD. rewrite be_from_val, reverse_cons, val_app in HD by lia.
  rewrite zlen_reverse in HD. cbn [val] in HD.
  pose proof (val_range 256 (reverse ds) ltac:(lia)) as Hr. rewrite zlen_reverse in Hr.
  assert (below 256 (reverse ds)) as Hbe
    by (apply Forall_forall; intros; apply Z_of_byte_range).
  specialize (Hr Hbe). rewrite zlen_map, zlen_reverse.
  assert (zlen D <= m) as Hup by (eapply (repr_length 58); [lia|exact HD|lia|lia]).
  destruct HD as (Hv & HD & _). pose proof (val_range 58 D ltac:(lia) HD) as Hv2.
  assert (58 ^ (m - 1) < 58 ^ zlen D) as Hlt by lia.
  apply Z.pow_lt_mono_r_iff in Hlt; [lia..|apply zlen_nonneg].
Qed.

Lemma be_val_bytes_range ds : 0 <= be_val 256 (map Z_of_byte ds) < 256 ^ zlen ds.
Proof.
  pose proof (be_from_range 256 (map Z_of_byte ds) 0 ltac:(lia) ltac:(lia)) as Hr.
  rewrite zlen_map, Z.mul_1_l in Hr. apply Hr.
  apply Forall_map, Forall_forall. intros. apply Z_of_byte_range.
Qed.

Lemma be_val_chars_range s :
  valid58 s -> 0 <= be_val 58 (map neoc_base58_decode_char s) < 58 ^ zlen s.
Proof.
  intros Hs. pose proof (be_from_range 58 (map neoc_base58_decode_char s) 0 ltac:(lia) ltac:(lia)) as Hr.
  rewrite zlen_map, Z.mul_1_l in Hr. apply Hr. by apply Forall_map.
Qed.

Lemma bytes_length s data :
  s <> [] -> zlen s < 2 ^ 54 -> bytes_of s data ->
  zlen data <= neoc_base58_decode_buffer_size (Some s).
Proof.
  intros Hne Hl (E & Hv & HE & ->). pose proof (count_leading_spec Byte.x31 s) as (_ & _ & Hc).
  unfold neoc_base58_decode_buffer_size. destruct s as [|c s]; [done|].
  set (t := c :: s) in *. cbv zeta. set (z := count_leading Byte.x31 t) in *.
  pose proof (zlen_drop z t Hc) as Hd.
  pose proof (zlen_nonneg (drop z t)).
  assert (zlen E <= zlen (drop z t) * 733 / 1000 + 1) as HE'.
  { eapply (repr_length 256); [lia|done| |dlia].
    eapply Z.lt_le_trans; [by apply be_val_chars_range|apply decode_size_enough; lia]. }
  rewrite zlen_app, zlen_replicate, zlen_reverse.
  rewrite (wrap_small 64 ((zlen t - Z.of_nat z) * 733)) by lia.
  rewrite wrap_small by dlia. dlia.
Qed.

Section Specs.
Context `{Allocator}.

(** Filling a buffer from its start with two blocks. *)
Lemma store2 {A} (a b : list A) (buf : list A) :
  zlen a + zlen b <= zlen buf ->
  (do! store 0 a in store (zlen a) b) buf =
  (Ok tt, (a ++ b) ++ drop (length (a ++ b)) buf).
Proof.
  intros Hl. rewrite (bind_ok _ _ _ _ _ (store_next [] a buf ltac:(zlia))). cbn [app].
  rewrite store_next.
  - rewrite drop_drop, length_app. done.
  - pose proof (zlen_nonneg b). rewrite zlen_drop by (unfold zlen in *; lia).
    unfold zlen in *. lia.
Qed.

Lemma base58_encode_spec data size buf :
  data <> [] -> zlen data < 2 ^ 56 -> zlen buf = size ->
  neoc_malloc_ok (zlen data * 138 / 100 + 1) = true ->
  exists s, text_of data s /\
    (size < zlen s + 1 ->
     neoc_base58_encode (Some data) (zlen data) size buf = (Err NEOC_ERROR_BUFFER_TOO_SMALL, buf)) /\
    (zlen s + 1 <= size ->
     exists rest, neoc_base58_encode (Some data) (zlen data) size buf
                  = (Ok tt, s ++ Byte.x00 :: rest)).
Proof.
  intros Hne Hl Hb Hm. assert (0 < zlen data) as Hpos by (by apply zlen_pos).
  pose proof (count_leading_spec Byte.x00 data) as (_ & _ & Hc).
  unfold neoc_base58_encode. cmps. rewrite buf_slice_all. cbv zeta.
  set (z := count_leading Byte.x00 data) in *. set (tl := drop z data).
  rewrite (wrap_small 64 (zlen data * 138)) by lia.
  set (n := zlen data * 138 / 100 + 1) in *. assert (0 <= n < 2 ^ 63) by (unfold n; dlia).
  rewrite (wrap_small 64 n), Hm by lia. cbn [negb].
  assert (256 ^ zlen tl <= 58 ^ n) as Hroom.
  { etrans; [|apply encode_size_enough; lia]. apply Z.pow_le_mono_r; [lia|].
    unfold tl. rewrite zlen_drop by done. lia. }
  destruct (encode_outer_spec n tl (replicate (Z.to_nat n) Byte.x00) 0 0)
    as (out & length & -> & Hout); [apply converted_start; lia|lia|lia|].
  destruct (converted_repr 58 ltac:(lia) n out length _ Hout) as [HD Hlen].
  set (D := take (Z.to_nat length) out) in *.
  exists (replicate z Byte.x31 ++ map alphabet_at (reverse D)).
  split; [exists D; done|].
  set (s := _ ++ _). pose proof (zlen_nonneg D).
  assert (zlen s = Z.of_nat z + length) as Hs.
  { unfold s. rewrite zlen_app, zlen_replicate, zlen_map, zlen_reverse. lia. }
  assert (0 <= Z.of_nat z + length < 2 ^ 64 - 1).
  { unfold zlen in *. pose proof (converted_length _ _ _ _ _ Hout). lia. }
  rewrite wrap_small by lia. split; intros Hsz; cmps; [done|].
  exists (drop (S (List.length s)) buf).
  pose proof (store2 (replicate z Byte.x31) (map alphabet_at (reverse D)) buf) as Hst.
  rewrite <- zlen_app, zlen_replicate in Hst. fold s in Hst.
  rewrite <- bind_assoc. rewrite (bind_ok _ _ _ _ _ (Hst ltac:(lia))).
  rewrite <- Hs, store_next.
  - rewrite drop_drop, <- app_assoc. replace (_ + _)%nat with (S (List.length s)); [done|].
    cbn. lia.
  - rewrite zlen_drop by (unfold zlen in *; lia). unfold zlen in *. cbn. lia.
Qed.

Lemma no_leading_zero D v B :
  repr B D v -> count_leading Byte.x00 (reverse D) = O /\ head (reverse D) <> Some Byte.x00.
Proof.
  intros (_ & _ & Hl). assert (head (reverse D) <> Some Byte.x00) as Hh.
  { rewrite head_reverse. done. }
  split; [|done]. apply (count_leading_app _ 0 (reverse D)). done.
Qed.

Lemma base58_decode_spec s size buf :
  Forall (fun c => c <> Byte.x00) s -> zlen s < 2 ^ 54 -> zlen buf = size ->
  neoc_malloc_ok (zlen s * 733 / 1000 + 1) = true ->
  (exists data, bytes_of s data /\
    (size < zlen data ->
     neoc_base58_decode (Some s) size buf = (Err NEOC_ERROR_BUFFER_TOO_SMALL, buf)) /\
    (zlen data <= size ->
     neoc_base58_decode (Some s) size buf
     = (Ok (zlen data), data ++ drop (length data) buf))) \/
  (~ valid58 (drop (count_leading Byte.x31 s) s) /\
   neoc_base58_decode (Some s) size buf = (Err NEOC_ERROR_INVALID_FORMAT, buf)).
Proof.
  intros Hs0 Hl Hb Hm. pose proof (zlen_nonneg s) as Hpos.
  pose proof (count_leading_spec Byte.x31 s) as (_ & _ & Hc).
  unfold neoc_base58_decode. cbv zeta.
  set (z := count_leading Byte.x31 s) in *. set (tl := drop z s).
  rewrite (wrap_small 64 (zlen s * 733)) by lia.
  set (n := zlen s * 733 / 1000 + 1) in *. assert (0 <= n < 2 ^ 63) by (unfold n; dlia).
  rewrite (wrap_small 64 n), Hm by lia. cbn [negb].
  assert ((0 + 1) * 58 ^ zlen tl <= 256 ^ n) as Hroom.
  { rewrite Z.mul_1_l. etrans; [|apply decode_size_enough; lia]. apply Z.pow_le_mono_r; [lia|].
    unfold tl. rewrite zlen_drop by done. lia. }
  pose proof (converted_start 256 ltac:(lia) n ltac:(lia)) as Hstart.
  assert (Forall (fun c => neoc_base58_decode_char c < 58) tl) as Hlt.
  { unfold tl. apply Forall_drop. eapply Forall_impl; [done|]. intros c Hc0.
    pose proof (char_digit c Hc0). lia. }
  destruct (decide (Forall (fun c => 0 <= neoc_base58_decode_char c) tl)) as [Hge|Hge].
  2: { right. assert (~ valid58 tl) as Hnv.
       { intros Hv. apply Hge. eapply Forall_impl; [exact Hv|]. cbn. lia. }
       split; [done|].
       rewrite (decode_outer_invalid n tl _ 0 0 Hstart ltac:(lia) Hlt Hnv Hroom). done. }
  left. assert (valid58 tl) as Hv.
  { apply Forall_forall. intros c Hin. rewrite Forall_forall in Hlt, Hge. auto. }
  destruct (decode_outer_spec n tl _ 0 0 Hstart ltac:(lia) Hv Hroom) as (out & length & -> & Hout).
  destruct (converted_repr 256 ltac:(lia) n out length _ Hout) as [HE Hlen].
  rewrite !bind_lift.
  set (E := take (Z.to_nat length) out) in *.
  destruct (no_leading_zero _ _ _ HE) as [-> _].
  change (Z.of_nat 0) with 0. rewrite Z.sub_0_r.
  exists (replicate z Byte.x00 ++ reverse E). split; [exists E; done|].
  set (data := _ ++ reverse E). pose proof (zlen_nonneg E).
  assert (zlen data = Z.of_nat z + length) as Hd.
  { unfold data. rewrite zlen_app, zlen_replicate, zlen_reverse. lia. }
  rewrite take_ge by (rewrite length_reverse; unfold zlen in *; lia).
  split; intros Hsz; rewrite <- Hd; cmps; [done|].
  pose proof (store2 (replicate z Byte.x00) (reverse E) buf) as Hst.
  rewrite <- zlen_app, zlen_replicate in Hst. fold data in Hst.
  rewrite <- bind_assoc. rewrite (bind_ok _ _ _ _ _ (Hst ltac:(lia))). done.
Qed.
End Specs.

(** ** The two conversions are inverse *)

Lemma valid58_text D : below 58 D -> valid58 (map alphabet_at (reverse D)).
Proof.
  intros HD. apply Forall_map. apply Forall_reverse. eapply Forall_impl; [done|].
  intros d Hd. cbn in Hd |- *. pose proof (Z_of_byte_range d).
  destruct (alphabet_digit d Hd) as [-> _]. lia.
Qed.

Lemma decode_text D :
  below 58 D -> map neoc_base58_decode_char (map alphabet_at (reverse D))
                = map Z_of_byte (reverse D).
Proof.
  intros HD. rewrite map_map. apply map_ext_Forall. apply Forall_reverse.
  eapply Forall_impl; [done|]. intros d Hd. by destruct (alphabet_digit d Hd).
Qed.

Lemma be_val_reverse B D : 0 < B -> be_val B (map Z_of_byte (reverse D)) = val B D.
Proof. intros HB. unfold be_val. rewrite be_from_val, reverse_involutive by done. lia. Qed.

(** The bytes behind the leading zeros are the digits of their number. *)
Lemma repr_tail data :
  repr 256 (reverse (drop (count_leading Byte.x00 data) data))
       (be_val 256 (map Z_of_byte (drop (count_leading Byte.x00 data) data))).
Proof.
  pose proof (count_leading_spec Byte.x00 data) as (_ & Hh & _).
  set (tl := drop _ _) in *. split_and!.
  - unfold be_val. rewrite be_from_val by lia. lia.
  - apply Forall_forall. intros d _. apply Z_of_byte_range.
  - rewrite last_reverse. done.
Qed.

Lemma leading_split z s :
  s = replicate (count_leading z s) z ++ drop (count_leading z s) s.
Proof.
  pose proof (count_leading_spec z s) as (Ht & _ & _). rewrite <- Ht. by rewrite take_drop.
Qed.

Lemma text_leading data s :
  text_of data s -> count_leading Byte.x31 s = count_leading Byte.x00 data /\
  exists D, repr 58 D (be_val 256 (map Z_of_byte (drop (count_leading Byte.x00 data) data))) /\
            drop (count_leading Byte.x31 s) s = map alphabet_at (reverse D).
Proof.
  intros (D & HD & ->).
  assert (head (map alphabet_at (reverse D)) <> Some Byte.x31) as Hh.
  { destruct (no_leading_zero _ _ _ HD) as [_ Hh]. destruct HD as (_ & Hb & _).
    apply Forall_reverse in Hb. destruct (reverse D) as [|d ds]; [done|]. cbn in *.
    intros [= E]. apply Hh. f_equal. inversion Hb; subst. by apply alphabet_digit. }
  rewrite count_leading_app by done. split; [done|]. exists D. split; [done|].
  apply drop_app_length'. rewrite length_replicate. done.
Qed.

Lemma text_bytes data s data' : text_of data s -> bytes_of s data' -> data' = data.
Proof.
  intros Ht (E & Hv & HE & ->). destruct (text_leading _ _ Ht) as (Hz & D & HD & Hd).
  rewrite Hz in *. rewrite Hd in HE. destruct HD as (HDv & HDb & HDl).
  rewrite decode_text, be_val_reverse, HDv in HE by (done || lia).
  rewrite (leading_split Byte.x00 data) at 2. f_equal.
  rewrite (repr_unique 256 _ _ _ ltac:(lia) HE (repr_tail data)).
  apply reverse_involutive.
Qed.

Lemma bytes_text s data s' :
  Forall (fun c => c <> Byte.x00) s -> bytes_of s data -> text_of data s' -> s' = s.
Proof.
  intros Hs (E & Hv & HE & ->) (D & HD & ->).
  destruct (no_leading_zero _ _ _ HE) as [_ Hh]. rewrite count_leading_app in * by done.
  rewrite drop_app_length' in HD by (rewrite length_replicate; done).
  rewrite be_val_reverse in HD by lia. destruct HE as (HEv & HEb & HEl). rewrite HEv in HD.
  pose proof (count_leading_spec Byte.x31 s) as (_ & Hh' & _).
  rewrite (leading_split Byte.x31 s) at 2. f_equal.
  set (tl := drop (count_leading Byte.x31 s) s) in *.
  assert (Forall (fun c => c <> Byte.x00) tl) as Htl by (by apply Forall_drop).
  set (ds := map (fun c => byte_of_Z (neoc_base58_decode_char c)) tl).
  assert (map Z_of_byte ds = map neoc_base58_decode_char tl) as Hds.
  { unfold ds. rewrite map_map. apply map_ext_Forall. eapply Forall_impl; [exact Hv|].
    cbn. intros c Hc. apply Z_of_byte_small. lia. }
  assert (repr 58 (reverse ds) (be_val 58 (map neoc_base58_decode_char tl))) as Hr.
  { split_and!.
    - rewrite <- Hds. unfold be_val. rewrite be_from_val by lia. lia.
    - apply Forall_reverse. unfold ds. apply Forall_map. eapply Forall_impl; [exact Hv|].
      cbn. intros c Hc. rewrite Z_of_byte_small; lia.
    - rewrite last_reverse. unfold ds. destruct tl as [|c tl]; [done|]. cbn. intros [= E0].
      apply Hh'. cbn. f_equal. inversion Htl; inversion Hv; subst. apply char_digit; [done|].
      apply (f_equal Z_of_byte) in E0. rewrite Z_of_byte_small in E0 by lia. done. }
  rewrite (repr_unique 58 _ _ _ ltac:(lia) HD Hr), reverse_involutive. unfold ds.
  rewrite map_map. rewrite <- (map_id tl) at 2. apply map_ext_Forall.
  apply Forall_forall. intros c Hin. unfold valid58 in Hv. rewrite Forall_forall in Htl, Hv.
  apply char_digit; [by apply Htl|apply Hv, Hin].
Qed.

Lemma text_nonempty data s : data <> [] -> text_of data s -> s <> [].
Proof.
  intros Hne Ht ->. destruct (text_leading _ _ Ht) as (Hz & D & HD & Hd). cbn in Hz, Hd.
  assert (D = []) as ->.
  { destruct D as [|d D]; [done|]. rewrite reverse_cons, map_app in Hd.
    by destruct (map alphabet_at (reverse D)). }
  rewrite <- Hz in HD. rewrite drop_0 in HD.
  pose proof (repr_tail data) as Hr. rewrite <- Hz, drop_0 in Hr.
  pose proof (repr_unique 256 (reverse data) [] _ ltac:(lia) Hr) as Hu.
  apply Hne. rewrite <- (reverse_involutive data). rewrite Hu; [done|].
  destruct HD as (HD & _ & _). split_and!; [exact HD|constructor|done].
Qed.

Lemma text_no_nul data s : text_of data s -> Forall (fun c => c <> Byte.x00) s.
Proof.
  intros (D & (_ & HD & _) & ->). apply Forall_app. split; [by apply Forall_replicate|].
  apply Forall_map, Forall_reverse. eapply Forall_impl; [exact HD|].
  intros d Hd. by apply alphabet_digit.
Qed.

Lemma is_valid_string_valid58 s :
  Forall (fun c => c <> Byte.x00) s -> neoc_base58_is_valid_string (Some s) = true ->
  s <> [] /\ valid58 s.
Proof.
  intros Hs. unfold neoc_base58_is_valid_string. destruct (forallb _ s) eqn:E; [|done].
  cbn [negb]. destruct s as [|c s]; [done|]. intros _. split; [done|].
  rewrite forallb_forall in E. apply Forall_forall. intros x Hx.
  rewrite Forall_forall in Hs. pose proof (char_digit x (Hs x Hx)) as (Hr & _).
  specialize (E x (proj1 (list_elem_of_In _ _) Hx)). unfold neoc_base58_is_valid_char in E.
  unfold neoc_base58_decode_char in *. destruct (strchr _ x) as [p|] eqn:Ep; [|done].
  split; [|lia]. clear - Ep. unfold strchr in Ep. revert Ep.
  assert (forall l i, 0 <= i -> strchr_at i l x = Some p -> 0 <= p) as Hp.
  { clear. induction l as [|b l IH]; intros i Hi; cbn [strchr_at].
    - destruct (_ =? _); [intros [= <-]; done|done].
    - destruct (_ =? _); [intros [= <-]; done|]. apply IH. lia. }
  apply Hp. lia.
Qed.

Section Allocating.
Context `{Allocator}.
Variable junk : byte.

Lemma encode_alloc_text data :
  data <> [] -> zlen data < 2 ^ 53 -> heap_serves (2 * zlen data + 2) ->
  exists s, text_of data s /\ neoc_base58_encode_alloc junk (Some data) (zlen data) = Ok s.
Proof.
  intros Hne Hl Hh. unfold neoc_base58_encode_alloc. cbv zeta.
  assert (0 < zlen data) as Hpos by (by apply zlen_pos).
  pose proof (fun s => text_length data s Hne ltac:(lia)) as Hfit.
  set (n := neoc_base58_encode_buffer_size (zlen data)) in *.
  assert (2 <= n <= 2 * zlen data + 2) as Hn.
  { unfold n, neoc_base58_encode_buffer_size. cmps.
    rewrite (wrap_small 64 (zlen data * 138)) by lia. rewrite wrap_small by dlia. dlia. }
  assert (forall k, 0 < k <= 2 * zlen data + 2 -> neoc_malloc_ok k = true) as Hm.
  { intros k Hk. unfold neoc_malloc_ok. cmps. apply Hh. lia. }
  rewrite (Hm n) by lia. cbn [negb].
  destruct (base58_encode_spec data n (replicate (Z.to_nat n) junk)) as (s & Ht & _ & Hok);
    [done|lia|rewrite zlen_replicate; lia|apply Hm; dlia|].
  destruct (Hok (Hfit s Ht)) as (rest & ->). exists s. split; [done|].
  rewrite cstring_app by (by eapply text_no_nul). done.
Qed.

Lemma decode_alloc_bytes s :
  s <> [] -> Forall (fun c => c <> Byte.x00) s -> zlen s < 2 ^ 54 ->
  heap_serves (zlen s + 1) ->
  (exists data, bytes_of s data /\ neoc_base58_decode_alloc junk (Some s) = Ok data) \/
  (~ valid58 (drop (count_leading Byte.x31 s) s) /\
   neoc_base58_decode_alloc junk (Some s) = Err NEOC_ERROR_INVALID_FORMAT).
Proof.
  intros Hne Hs Hl Hh. unfold neoc_base58_decode_alloc. cbv zeta.
  assert (0 < zlen s) as Hpos by (by apply zlen_pos).
  pose proof (fun d => bytes_length s d Hne Hl) as Hfit.
  set (n := neoc_base58_decode_buffer_size (Some s)) in *.
  assert (1 <= n <= zlen s + 1) as Hn.
  { unfold n, neoc_base58_decode_buffer_size. destruct s as [|c s']; [done|].
    pose proof (count_leading_spec Byte.x31 (c :: s')) as (_ & _ & Hc).
    set (t := c :: s') in *. assert (Z.of_nat (count_leading Byte.x31 t) <= zlen t) by (unfold zlen; lia).
    cbv zeta. rewrite (wrap_small 64 ((zlen t - _) * 733)) by lia.
    rewrite wrap_small by dlia. dlia. }
  assert (forall k, 0 < k <= zlen s + 1 -> neoc_malloc_ok k = true) as Hm.
  { intros k Hk. unfold neoc_malloc_ok. cmps. apply Hh. lia. }
  cmps. rewrite (Hm n) by lia. cbn [negb].
  destruct (base58_decode_spec s n (replicate (Z.to_nat n) junk))
    as [(data & Hd & _ & Hok)|[Hv ->]];
    [done|lia|rewrite zlen_replicate; lia|apply Hm; dlia| |by right].
  left. exists data. split; [done|]. rewrite (Hok (Hfit data Hd)).
  unfold zlen. rewrite Nat2Z.id, take_app_length. done.
Qed.

Lemma text_bound data s :
  data <> [] -> zlen data < 2 ^ 53 -> text_of data s -> zlen s <= 2 * zlen data + 1.
Proof.
  intros Hne Hl Ht. pose proof (text_length data s Hne ltac:(lia) Ht) as Hb.
  assert (0 < zlen data) as Hpos by (by apply zlen_pos).
  unfold neoc_base58_encode_buffer_size in Hb.
  replace (zlen data =? 0) with false in Hb by (symmetry; lia).
  rewrite (wrap_small 64 (zlen data * 138)) in Hb by lia.
  rewrite wrap_small in Hb by dlia. dlia.
Qed.

Lemma text_valid data s : text_of data s -> valid58 (drop (count_leading Byte.x31 s) s).
Proof.
  intros Ht. destruct (text_leading _ _ Ht) as (_ & D & (_ & HD & _) & ->).
  by apply valid58_text.
Qed.

Lemma decode_of_text data s :
  data <> [] -> zlen data < 2 ^ 53 -> heap_serves (2 * zlen data + 2) -> text_of data s ->
  neoc_base58_decode_alloc junk (Some s) = Ok data.
Proof.
  intros Hne Hl Hh Ht. pose proof (text_bound data s Hne Hl Ht).
  destruct (decode_alloc_bytes s) as [(data' & Hd & ->)|[Hv _]].
  - by eapply text_nonempty.
  - by eapply text_no_nul.
  - lia.
  - eapply heap_serves_mono; [done|lia].
  - f_equal. by eapply text_bytes.
  - destruct Hv. by eapply text_valid.
Qed.

(** C5.  Base58 round trip: the text of any non-empty byte array, leading zero bytes
    included, decodes to the array. *)
Theorem base58_roundtrip (data : list byte) :
  data <> [] -> zlen data < 2 ^ 53 -> heap_serves (2 * zlen data + 2) ->
  (let? s := neoc_base58_encode_alloc junk (Some data) (zlen data) in
   neoc_base58_decode_alloc junk (Some s)) = Ok data.
Proof.
  intros Hne Hl Hh. destruct (encode_alloc_text data Hne Hl Hh) as (s & Ht & ->).
  cbn [rbind]. by apply decode_of_text.
Qed.

Lemma bytes_bound s data :
  s <> [] -> zlen s < 2 ^ 52 -> bytes_of s data -> zlen data <= zlen s + 1.
Proof.
  intros Hne Hl Hd. pose proof (bytes_length s data Hne ltac:(lia) Hd) as Hb.
  unfold neoc_base58_decode_buffer_size in Hb. destruct s as [|c s']; [done|].
  pose proof (count_leading_spec Byte.x31 (c :: s')) as (_ & _ & Hc).
  set (t := c :: s') in *.
  assert (Z.of_nat (count_leading Byte.x31 t) <= zlen t) by (unfold zlen; lia).
  cbv zeta in Hb. rewrite (wrap_small 64 ((zlen t - _) * 733)) in Hb by lia.
  rewrite wrap_small in Hb by dlia. dlia.
Qed.

(** The text is canonical: decoding any string the validity test accepts and
    encoding the bytes gives the same string back, so no two strings denote the same
    bytes. *)
Theorem base58_text_canonical (s : list byte) :
  Forall (fun c => c <> Byte.x00) s -> neoc_base58_is_valid_string (Some s) = true ->
  zlen s < 2 ^ 52 -> heap_serves (2 * zlen s + 4) ->
  (let? data := neoc_base58_decode_alloc junk (Some s) in
   neoc_base58_encode_alloc junk (Some data) (zlen data)) = Ok s.
Proof.
  intros Hs Hv Hl Hh. destruct (is_valid_string_valid58 s Hs Hv) as [Hne Hv'].
  pose proof (zlen_nonneg s).
  destruct (decode_alloc_bytes s Hne Hs) as [(data & Hd & ->)|[Hn _]].
  - lia.
  - eapply heap_serves_mono; [done|lia].
  - cbn [rbind]. pose proof (bytes_bound s data Hne Hl Hd).
    assert (data <> []) as Hne'.
    { intros ->. apply Hne. symmetry. apply (bytes_text s []); [done|done|].
      exists []. split; [|done]. split_and!; [done|constructor|done]. }
    destruct (encode_alloc_text data Hne') as (s' & Ht & ->); [lia| |].
    + eapply heap_serves_mono; [done|lia].
    + f_equal. by eapply bytes_text.
  - destruct Hn. by apply Forall_drop.
Qed.

(** Memory safety of the conversions: whatever the heap does, encoding any array
    and decoding any C string stays inside the digit buffer of [len*138/100+1]
    (respectively [len*733/1000+1]) bytes and inside the output buffer. *)
Theorem base58_never_leaves_buffers (data s : list byte) :
  zlen data < 2 ^ 53 -> Forall (fun c => c <> Byte.x00) s -> zlen s < 2 ^ 53 ->
  neoc_base58_encode_alloc junk (Some data) (zlen data) <> Fault /\
  neoc_base58_decode_alloc junk (Some s) <> Fault.
Proof.
  intros Hd Hs Hl. split.
  - destruct (decide (data = [])) as [->|Hne].
    { unfold neoc_base58_encode_alloc. destruct (negb _); done. }
    unfold neoc_base58_encode_alloc. cbv zeta.
    set (n := neoc_base58_encode_buffer_size _). destruct (negb _) eqn:Em; [done|].
    assert (0 <= n).
    { unfold n, neoc_base58_encode_buffer_size. destruct (_ =? _); [done|].
      apply wrap_range. lia. }
    destruct (neoc_malloc_ok (zlen data * 138 / 100 + 1)) eqn:Em2.
    + destruct (base58_encode_spec data n (replicate (Z.to_nat n) junk)) as (s' & _ & Hsmall & Hok);
        [done|lia|rewrite zlen_replicate; lia|done|].
      destruct (Z_lt_le_dec n (zlen s' + 1)) as [Hlt|Hge]; [by rewrite Hsmall|].
      destruct (Hok Hge) as [rest ->]. done.
    + unfold neoc_base58_encode. destruct (_ =? 0) eqn:E0; bdestruct; [by apply zlen_zero in E0|].
      rewrite buf_slice_all. cbv zeta. pose proof (zlen_nonneg data).
      rewrite (wrap_small 64 (zlen data * 138)) by lia.
      rewrite wrap_small by dlia. rewrite Em2. done.
  - destruct (decide (s = [])) as [->|Hne]; [done|].
    unfold neoc_base58_decode_alloc. cbv zeta.
    set (n := neoc_base58_decode_buffer_size _). destruct (n =? 0); [done|].
    destruct (negb _); [done|]. pose proof (zlen_nonneg s).
    assert (0 <= n).
    { unfold n, neoc_base58_decode_buffer_size. destruct s; [done|]. apply wrap_range. lia. }
    destruct (neoc_malloc_ok (zlen s * 733 / 1000 + 1)) eqn:Em2.
    + destruct (base58_decode_spec s n (replicate (Z.to_nat n) junk))
        as [(d & _ & Hsmall & Hok)|[_ ->]]; [done|lia|rewrite zlen_replicate; lia|done| |done].
      destruct (Z_lt_le_dec n (zlen d)) as [Hlt|Hge]; [by rewrite Hsmall|].
      by rewrite (Hok Hge).
    + unfold neoc_base58_decode. cbv zeta. rewrite (wrap_small 64 (zlen s * 733)) by lia.
      rewrite wrap_small by dlia. rewrite Em2. done.
Qed.
End Allocating.

Section Check.
Context `{Allocator} `{Crypto}.
Variable junk : byte.

(** What the decoder does with the raw bytes of the text: the length and checksum
    tests, then the payload. *)
Definition checked (raw : list byte) : res Z :=
  if zlen raw <? 4 then Err NEOC_ERROR_INVALID_SIZE
  else
    let payload := take (length raw - 4) raw in
    let? h := neoc_sha256_double (Some payload) (zlen payload) in
    if bool_decide (drop (length raw - 4) raw = take 4 h) then Ok (zlen payload)
    else Err NEOC_ERROR_INVALID_FORMAT.

Lemma decode_buffer_size_le s :
  s <> [] -> zlen s < 2 ^ 54 ->
  neoc_base58_decode_buffer_size (Some s) <= zlen s + 1 /\
  1 <= neoc_base58_decode_buffer_size (Some s).
Proof.
  intros Hne Hl. unfold neoc_base58_decode_buffer_size. destruct s as [|c s']; [done|].
  pose proof (count_leading_spec Byte.x31 (c :: s')) as (_ & _ & Hc).
  set (t := c :: s') in *.
  assert (Z.of_nat (count_leading Byte.x31 t) <= zlen t) by (unfold zlen; lia).
  cbv zeta. rewrite (wrap_small 64 ((zlen t - _) * 733)) by lia.
  rewrite wrap_small by dlia. dlia.
Qed.

(** The same with the room for the payload. *)
Definition checked_into (size : Z) (raw : list byte) : res Z :=
  let? n := checked raw in
  if size <? n then Err NEOC_ERROR_BUFFER_TOO_SMALL else Ok n.

Lemma check_decode_run s raw buf :
  crypto_works -> s <> [] -> Forall (fun c => c <> Byte.x00) s -> zlen s < 2 ^ 54 ->
  heap_serves (zlen s + 1) -> bytes_of s raw ->
  fst (neoc_base58_check_decode junk (Some s) (zlen buf) buf) = checked_into (zlen buf) raw /\
  (is_ok (checked_into (zlen buf) raw) = true ->
   snd (neoc_base58_check_decode junk (Some s) (zlen buf) buf) =
   take (length raw - 4) raw ++ drop (length raw - 4) buf).
Proof.
  intros Hw Hne Hs Hl Hh Hraw. unfold checked_into, neoc_base58_check_decode. cbv zeta.
  pose proof (zlen_pos s Hne). pose proof (bytes_length s raw Hne Hl Hraw) as Hn.
  pose proof (decode_buffer_size_le s Hne Hl) as [Hn1 Hn2].
  set (n := neoc_base58_decode_buffer_size (Some s)) in *. cmps.
  assert (forall k, 0 < k <= zlen s + 1 -> neoc_malloc_ok k = true) as Hm.
  { intros k Hk. unfold neoc_malloc_ok. cmps. apply Hh. lia. }
  rewrite (Hm n) by lia. cbn [negb].
  destruct (base58_decode_spec s n (replicate (Z.to_nat n) junk))
    as [(data & Hd & _ & Hok)|[Hv _]];
    [done|lia|rewrite zlen_replicate; lia|apply Hm; dlia| |].
  2: { destruct Hv. by destruct Hraw as (? & ? & _). }
  assert (data = raw) as ->.
  { destruct Hd as (E1 & _ & R1 & ->), Hraw as (E2 & _ & R2 & ->). f_equal. f_equal.
    by eapply (repr_unique 256); [lia|..]. }
  rewrite (Hok Hn), bind_lift. unfold checked. destruct (zlen raw <? 4) eqn:E4; bdestruct; [done|].
  cbv zeta. set (k := (length raw - 4)%nat). set (payload := take k raw).
  assert (raw = payload ++ drop k raw) as Esplit by (unfold payload; by rewrite take_drop).
  assert (zlen payload = zlen raw - 4) as Hp.
  { unfold payload, zlen in *. rewrite length_take. lia. }
  assert (zlen (drop k raw) = 4) as H4 by (rewrite zlen_drop; unfold zlen in *; lia).
  set (rest := drop (length raw) (replicate _ _)).
  assert (forall x y, buf_slice (raw ++ rest) x y = buf_slice (payload ++ drop k raw ++ rest) x y) as Hre.
  { intros x y. rewrite Esplit at 1. rewrite <- app_assoc. done. }
  destruct (sha256_double_ok Hw payload) as (h & Eh & Hh32).
  assert (neoc_sha256_double (Some (raw ++ rest)) (zlen raw - 4) = Ok h) as ->.
  { rewrite Esplit at 1. rewrite <- app_assoc, <- Hp, sha256_double_prefix. done. }
  rewrite Eh. cbn [rbind]. rewrite bind_lift, <- Hp, !Hre.
  pose proof (buf_slice_app payload (drop k raw) rest) as Hck. rewrite H4 in Hck. rewrite Hck.
  assert (buf_slice h 0 4 = Some (take 4 h)) as ->.
  { unfold buf_slice, zlen. rewrite Hh32. done. }
  destruct (bool_decide _) eqn:Eb; cbn [negb rbind]; [|done].
  destruct (zlen buf <? zlen payload) eqn:Efit; [done|]. bdestruct.
  pose proof (buf_slice_app [] payload (drop k raw ++ rest)) as Ep.
  change (zlen []) with 0 in Ep. cbn [app] in Ep. rewrite Ep.
  rewrite (bind_ok _ _ _ _ _ (store_next [] payload buf ltac:(lia))). cbn [ret fst snd app].
  split; [done|]. intros _. f_equal. f_equal. unfold payload. rewrite length_take.
  unfold zlen in *. lia.
Qed.

Lemma checked_bound raw n : checked raw = Ok n -> n = zlen raw - 4.
Proof.
  unfold checked. destruct (zlen raw <? 4) eqn:E; [done|]. bdestruct.
  destruct (neoc_sha256_double _ _); [|done..]. cbn [rbind].
  destruct (bool_decide _); [|done]. intros [= <-]. unfold zlen in *. rewrite length_take. lia.
Qed.

Lemma check_decode_spec s raw buf :
  crypto_works -> s <> [] -> Forall (fun c => c <> Byte.x00) s -> zlen s < 2 ^ 54 ->
  heap_serves (zlen s + 1) -> bytes_of s raw -> zlen raw <= zlen buf + 4 ->
  fst (neoc_base58_check_decode junk (Some s) (zlen buf) buf) = checked raw /\
  (is_ok (checked raw) = true ->
   snd (neoc_base58_check_decode junk (Some s) (zlen buf) buf) =
   take (length raw - 4) raw ++ drop (length raw - 4) buf).
Proof.
  intros Hw Hne Hs Hl Hh Hraw Hfit. assert (checked_into (zlen buf) raw = checked raw) as <-.
  { unfold checked_into. destruct (checked raw) as [n| |] eqn:E; [|done..]. cbn [rbind].
    apply checked_bound in E as ->. by cmps. }
  by apply check_decode_run.
Qed.

(** What a successful decoding says of the text. *)
Lemma check_decode_inv s buf n buf' :
  crypto_works -> Forall (fun c => c <> Byte.x00) s -> zlen s < 2 ^ 54 ->
  heap_serves (zlen s + 1) ->
  neoc_base58_check_decode junk (Some s) (zlen buf) buf = (Ok n, buf') ->
  exists data h, neoc_sha256_double (Some data) (zlen data) = Ok h /\ length h = 32%nat /\
    bytes_of s (data ++ take 4 h) /\ n = zlen data /\ buf' = data ++ drop (length data) buf.
Proof.
  intros Hw Hs Hl Hh E. destruct (decide (s = [])) as [->|Hne]; [done|].
  destruct (decode_alloc_bytes junk s Hne Hs Hl Hh) as [(raw & Hd & _)|[Hv Edec]].
  - destruct (check_decode_run s raw buf Hw Hne Hs Hl Hh Hd) as [Hf Hb]. rewrite E in Hf, Hb.
    cbn [fst snd] in *. rewrite <- Hf in Hb. specialize (Hb eq_refl). unfold checked_into in Hf.
    destruct (checked raw) as [k| |] eqn:Ec; [|done..]. cbn [rbind] in Hf.
    destruct (_ <? k); [done|]. injection Hf as <-. unfold checked in Ec.
    destruct (zlen raw <? 4) eqn:E4; [done|]. bdestruct. cbv zeta in Ec.
    set (payload := take (length raw - 4) raw) in *.
    destruct (sha256_double_ok Hw payload) as (h & Eh & Hh32). rewrite Eh in Ec. cbn [rbind] in Ec.
    destruct (bool_decide _) eqn:Eb; [|done]. bdestruct. injection Ec as <-.
    exists payload, h. rewrite <- Eb. split_and!; try done; [unfold payload; by rewrite take_drop|].
    rewrite Hb. f_equal. f_equal. unfold payload. rewrite length_take. unfold zlen in *. lia.
  - exfalso. unfold neoc_base58_decode_alloc in Edec. cbv zeta in *.
    set (k := neoc_base58_decode_buffer_size (Some s)) in *.
    unfold neoc_base58_check_decode in E. cbv zeta in E. fold k in E.
    destruct (k =? 0); [done|]. destruct (negb (neoc_malloc_ok k)); [done|].
    destruct (neoc_base58_decode _ _ _) as [[]]; [done| |done]. done.
Qed.

(** The checksum is verified: for every text that decodes to [raw] bytes,
    [neoc_base58_check_decode] accepts exactly when [raw] is at least four bytes long
    and ends in the first four bytes of the double SHA-256 of the rest, and then
    stores that rest. *)
Theorem base58_check_decode_verifies (s raw buf : list byte) :
  crypto_works -> Forall (fun c => c <> Byte.x00) s -> s <> [] -> zlen s < 2 ^ 54 ->
  heap_serves (zlen s + 1) -> zlen raw <= zlen buf ->
  neoc_base58_decode_alloc junk (Some s) = Ok raw ->
  fst (neoc_base58_check_decode junk (Some s) (zlen buf) buf) = checked raw /\
  (is_ok (checked raw) = true ->
   snd (neoc_base58_check_decode junk (Some s) (zlen buf) buf) =
   take (length raw - 4) raw ++ drop (length raw - 4) buf).
Proof.
  intros Hw Hs Hne Hl Hh Hfit Hdec. apply check_decode_spec; try done; [|lia].
  destruct (decode_alloc_bytes junk s Hne Hs Hl Hh) as [(data & Hd & E)|[_ E]];
    rewrite E in Hdec; [|done]. injection Hdec as ->. done.
Qed.

Lemma checked_payload data h :
  neoc_sha256_double (Some data) (zlen data) = Ok h -> length h = 32%nat ->
  checked (data ++ take 4 h) = Ok (zlen data) /\
  take (length (data ++ take 4 h) - 4) (data ++ take 4 h) = data.
Proof.
  intros Eh Hh. assert (length (take 4 h) = 4%nat) as H4 by (rewrite length_take; lia).
  assert ((length (data ++ take 4 h) - 4)%nat = length data) as Ek.
  { rewrite length_app. lia. }
  unfold checked. rewrite Ek, take_app_length, drop_app_length, Eh. cbn [rbind].
  rewrite bool_decide_eq_true_2 by done. rewrite zlen_app. pose proof (zlen_nonneg data).
  replace (zlen (take 4 h)) with 4 by (unfold zlen; lia). cmps. done.
Qed.

(** The decoder reads the text of a payload and its checksum. *)
Lemma check_decode_text data h s buf :
  crypto_works -> neoc_sha256_double (Some data) (zlen data) = Ok h -> length h = 32%nat ->
  zlen data < 2 ^ 51 -> heap_serves (2 * zlen data + 12) -> text_of (data ++ take 4 h) s ->
  zlen data <= zlen buf ->
  neoc_base58_check_decode junk (Some s) (zlen buf) buf =
  (Ok (zlen data), data ++ drop (length data) buf).
Proof.
  intros Hw Eh Hh32 Hl Hh Ht Hfit. pose proof (zlen_nonneg data).
  assert (zlen (take 4 h) = 4) as H4 by (unfold zlen; rewrite length_take; lia).
  destruct (checked_payload data h Eh Hh32) as [Hck Htk].
  set (raw := data ++ take 4 h) in *.
  assert (zlen raw = zlen data + 4) as Hr by (unfold raw; rewrite zlen_app; lia).
  assert (raw <> []) as Hne by (intros E; rewrite E in Hr; change (zlen []) with 0 in Hr; lia).
  pose proof (text_bound raw s Hne ltac:(lia) Ht) as Hb.
  pose proof (text_nonempty raw s Hne Ht) as Hsne. pose proof (text_no_nul raw s Ht) as Hs.
  assert (heap_serves (zlen s + 1)) as Hh' by (eapply heap_serves_mono; [done|lia]).
  destruct (decode_alloc_bytes junk s Hsne Hs ltac:(lia) Hh') as [(raw' & Hd & _)|[Hv _]].
  2: { destruct Hv. by eapply text_valid. }
  assert (raw' = raw) as -> by (by eapply text_bytes).
  destruct (check_decode_spec s raw buf Hw Hsne Hs ltac:(lia) Hh' Hd) as [Hf Hsn]; [lia|].
  rewrite Hck in Hf, Hsn. specialize (Hsn eq_refl). rewrite Htk in Hsn.
  rewrite (surjective_pairing (neoc_base58_check_decode _ _ _ _)), Hf, Hsn. f_equal. f_equal. f_equal.
  unfold zlen in *. lia.
Qed.

(** The encoder writes the text of the payload followed by its checksum. *)
Lemma check_encode_text data h buf m :
  neoc_sha256_double (Some data) (zlen data) = Ok h -> length h = 32%nat ->
  zlen data < 2 ^ 51 -> heap_serves (2 * zlen data + 12) ->
  (forall s, text_of (data ++ take 4 h) s -> zlen s + 1 <= m) -> m <= zlen buf ->
  exists s rest, text_of (data ++ take 4 h) s /\
    neoc_base58_check_encode (Some data) (zlen data) (zlen buf) buf = (Ok tt, s ++ Byte.x00 :: rest).
Proof.
  intros Eh Hh32 Hl Hh Hfit Hm. pose proof (zlen_nonneg data).
  assert (zlen (take 4 h) = 4) as H4 by (unfold zlen; rewrite length_take; lia).
  set (raw := data ++ take 4 h) in *.
  assert (zlen raw = zlen data + 4) as Hr by (unfold raw; rewrite zlen_app; lia).
  assert (raw <> []) as Hne by (intros E; rewrite E in Hr; change (zlen []) with 0 in Hr; lia).
  assert (forall k, 0 < k <= 2 * zlen data + 12 -> neoc_malloc_ok k = true) as Hma.
  { intros k Hk. unfold neoc_malloc_ok. cmps. apply Hh. lia. }
  destruct (base58_encode_spec raw (zlen buf) buf Hne ltac:(lia) eq_refl) as (s & Ht & _ & Hok);
    [apply Hma; dlia|].
  destruct (Hok ltac:(specialize (Hfit s Ht); lia)) as (rest & E). exists s, rest. split; [done|].
  rewrite <- E, Hr. unfold neoc_base58_check_encode.
  rewrite Eh, bind_lift, (wrap_small 64 (zlen data + 4)), Hma by lia.
  cbn [negb]. rewrite buf_slice_all.
  assert (buf_slice h 0 4 = Some (take 4 h)) as -> by (unfold buf_slice, zlen; by rewrite Hh32).
  done.
Qed.

Lemma check_encode_alloc_text data h :
  neoc_sha256_double (Some data) (zlen data) = Ok h -> length h = 32%nat ->
  zlen data < 2 ^ 51 -> heap_serves (2 * zlen data + 12) ->
  exists s, text_of (data ++ take 4 h) s /\
    neoc_base58_check_encode_alloc junk (Some data) (zlen data) = Ok s.
Proof.
  intros Eh Hh32 Hl Hh. pose proof (zlen_nonneg data).
  assert (zlen (data ++ take 4 h) = zlen data + 4) as Hr
    by (rewrite zlen_app; unfold zlen; rewrite length_take; lia).
  unfold neoc_base58_check_encode_alloc, neoc_base58_check_encode_buffer_size,
    NEOC_BASE58_CHECKSUM_LENGTH. cbv zeta. rewrite (wrap_small 64 (zlen data + 4)) by lia.
  set (n := neoc_base58_encode_buffer_size (zlen data + 4)).
  assert (2 <= n <= 2 * zlen data + 12) as Hn.
  { unfold n, neoc_base58_encode_buffer_size. cmps.
    rewrite (wrap_small 64 ((zlen data + 4) * 138)) by lia. rewrite wrap_small by dlia. dlia. }
  destruct (check_encode_text data h (replicate (Z.to_nat n) junk) n Eh Hh32 Hl Hh)
    as (s & rest & Ht & E); [|rewrite zlen_replicate; lia|].
  { intros s Ht. unfold n. rewrite <- Hr. apply text_length; [|rewrite Hr; lia|done].
    intros E. rewrite E in Hr. change (zlen []) with 0 in Hr. lia. }
  rewrite zlen_replicate, Z2Nat.id in E by lia. exists s. split; [done|].
  unfold neoc_malloc_ok. cmps. rewrite Hh by lia. cbn [negb]. rewrite E.
  rewrite cstring_app by (by eapply text_no_nul). done.
Qed.

(** The text of a payload decodes to no more than the decoder's buffer. *)
Lemma text_decodes data h s :
  length h = 32%nat -> zlen data < 2 ^ 51 -> heap_serves (2 * zlen data + 12) ->
  text_of (data ++ take 4 h) s ->
  let n := neoc_base58_decode_buffer_size (Some s) in
  0 < n /\ neoc_malloc_ok n = true /\ zlen data + 4 <= n.
Proof.
  intros Hh32 Hl Hh Ht. pose proof (zlen_nonneg data).
  set (raw := data ++ take 4 h) in *.
  assert (zlen raw = zlen data + 4) as Hr
    by (unfold raw; rewrite zlen_app; unfold zlen; rewrite length_take; lia).
  assert (raw <> []) as Hne by (intros E; rewrite E in Hr; change (zlen []) with 0 in Hr; lia).
  pose proof (text_bound raw s Hne ltac:(lia) Ht) as Hb.
  pose proof (text_nonempty raw s Hne Ht) as Hsne. pose proof (text_no_nul raw s Ht) as Hs.
  assert (heap_serves (zlen s + 1)) as Hh' by (eapply heap_serves_mono; [done|lia]).
  destruct (decode_alloc_bytes junk s Hsne Hs ltac:(lia) Hh') as [(raw' & Hd & _)|[Hv _]].
  2: { destruct Hv. by eapply text_valid. }
  assert (raw' = raw) as -> by (by eapply text_bytes).
  pose proof (bytes_length s raw Hsne ltac:(lia) Hd) as Hn. cbv zeta.
  pose proof (decode_buffer_size_le s Hsne ltac:(lia)) as [Hup _].
  split_and!; [lia| |lia]. unfold neoc_malloc_ok. cmps. apply Hh'. lia.
Qed.

Lemma check_decode_alloc_text data h s :
  crypto_works -> neoc_sha256_double (Some data) (zlen data) = Ok h -> length h = 32%nat ->
  zlen data < 2 ^ 51 -> heap_serves (2 * zlen data + 12) -> text_of (data ++ take 4 h) s ->
  neoc_base58_check_decode_alloc junk (Some s) =
  if zlen data <? 4 then Err NEOC_ERROR_INVALID_FORMAT else Ok data.
Proof.
  intros Hw Eh Hh32 Hl Hh Ht. pose proof (zlen_nonneg data).
  destruct (text_decodes data h s Hh32 Hl Hh Ht) as (Hn & Hm & Hfit).
  unfold neoc_base58_check_decode_alloc. cbv zeta.
  set (n := neoc_base58_decode_buffer_size (Some s)) in *. cmps. rewrite Hm. cbn [negb].
  set (buf := replicate (Z.to_nat n) junk).
  assert (zlen buf = n) as Hbuf by (unfold buf; rewrite zlen_replicate; lia).
  pose proof (check_decode_text data h s buf Hw Eh Hh32 Hl Hh Ht ltac:(lia)) as E.
  rewrite Hbuf in E. rewrite E. unfold NEOC_BASE58_CHECKSUM_LENGTH.
  destruct (_ <? 4); [done|]. unfold zlen. by rewrite Nat2Z.id, take_app_length.
Qed.

(** Conversely, a text the decoder accepts is the text of the payload and its
    checksum. *)
Lemma check_decode_alloc_inv s data :
  crypto_works -> Forall (fun c => c <> Byte.x00) s -> zlen s < 2 ^ 54 ->
  heap_serves (zlen s + 1) -> neoc_base58_check_decode_alloc junk (Some s) = Ok data ->
  exists h, neoc_sha256_double (Some data) (zlen data) = Ok h /\ length h = 32%nat /\
            bytes_of s (data ++ take 4 h).
Proof.
  intros Hw Hs Hl Hh. unfold neoc_base58_check_decode_alloc. cbv zeta.
  set (n := neoc_base58_decode_buffer_size (Some s)).
  destruct (n =? 0) eqn:En; [done|]. destruct (negb _); [done|]. bdestruct.
  assert (0 <= n) as Hn.
  { unfold n, neoc_base58_decode_buffer_size. destruct s; [done|]. cbv zeta. apply wrap_range. lia. }
  set (buf := replicate (Z.to_nat n) junk).
  assert (zlen buf = n) as Hbuf by (unfold buf; rewrite zlen_replicate; lia).
  destruct (neoc_base58_check_decode _ _ _ _) as [r b] eqn:E. destruct r as [k| |]; [|done..].
  rewrite <- Hbuf in E. apply check_decode_inv in E as (d & h & Eh & Hh32 & Hd & -> & ->); [|done..].
  destruct (_ <? _); [done|]. intros [= <-]. exists h.
  unfold zlen. rewrite Nat2Z.id, take_app_length. done.
Qed.

(** Base58Check round trip: the text of any array decodes to the array when it
    has at least four bytes.  A shorter payload is refused by the allocating decoder,
    whose minimum length is meant for payload and checksum together. *)
Theorem base58_check_roundtrip (data : list byte) :
  crypto_works -> zlen data < 2 ^ 51 -> heap_serves (2 * zlen data + 12) ->
  (let? s := neoc_base58_check_encode_alloc junk (Some data) (zlen data) in
   neoc_base58_check_decode_alloc junk (Some s)) =
  if zlen data <? 4 then Err NEOC_ERROR_INVALID_FORMAT else Ok data.
Proof.
  intros Hw Hl Hh. destruct (sha256_double_ok Hw data) as (h & Eh & Hh32).
  destruct (check_encode_alloc_text data h Eh Hh32 Hl Hh) as (s & Ht & ->). cbn [rbind].
  by apply (check_decode_alloc_text data h).
Qed.
End Check.

#[local] Existing Instance mib_heap.

Lemma base58_roundtrip_witness :
  (let? s := neoc_base58_encode_alloc Byte.xcd (Some [Byte.x00; Byte.x01; Byte.xff]) 3 in
   neoc_base58_decode_alloc Byte.xcd (Some s)) = Ok [Byte.x00; Byte.x01; Byte.xff].
Proof.
  apply (base58_roundtrip Byte.xcd [Byte.x00; Byte.x01; Byte.xff]).
  - discriminate.
  - vm_compute. reflexivity.
  - apply mib_heap_serves. vm_compute. discriminate.
Defined.

Lemma base58_text_canonical_witness :
  (let? data := neoc_base58_decode_alloc Byte.xcd (Some (str "1Neo")) in
   neoc_base58_encode_alloc Byte.xcd (Some data) (zlen data)) = Ok (str "1Neo").
Proof.
  apply (base58_text_canonical Byte.xcd (str "1Neo")).
  - repeat constructor; discriminate.
  - vm_compute. reflexivity.
  - vm_compute. reflexivity.
  - apply mib_heap_serves. vm_compute. discriminate.
Defined.

Lemma base58_never_leaves_buffers_witness :
  neoc_base58_encode_alloc Byte.xcd (Some [Byte.xff; Byte.xff]) 2 <> Fault /\
  neoc_base58_decode_alloc Byte.xcd (Some (str "zzzz0")) <> Fault.
Proof.
  apply (base58_never_leaves_buffers Byte.xcd [Byte.xff; Byte.xff] (str "zzzz0")).
  - vm_compute. reflexivity.
  - repeat constructor; discriminate.
  - vm_compute. reflexivity.
Defined.

#[local] Existing Instance toy_crypto.

Lemma base58_check_decode_verifies_witness :
  let s := str "3CUsUpv9t" in
  fst (neoc_base58_check_decode Byte.xcd (Some s) 10 (replicate 10 Byte.x00)) =
  Err NEOC_ERROR_INVALID_FORMAT.
Proof.
  destruct (neoc_base58_decode_alloc Byte.xcd (Some (str "3CUsUpv9t"))) as [raw|e|] eqn:E;
    [|vm_compute in E; discriminate E..].
  vm_compute in E. injection E as E.
  pose proof (base58_check_decode_verifies Byte.xcd (str "3CUsUpv9t") raw
    (replicate 10 Byte.x00) toy_crypto_works ltac:(repeat constructor; discriminate)
    ltac:(discriminate) ltac:(reflexivity) ltac:(apply mib_heap_serves; vm_compute; discriminate)
    ltac:(subst raw; vm_compute; discriminate) ltac:(subst raw; vm_compute; reflexivity)) as [H _].
  subst raw. vm_compute in H. exact H.
Defined.

Lemma base58_check_roundtrip_witness :
  let data := [Byte.x35; Byte.x00; Byte.x01; Byte.x02; Byte.x03] in
  (let? s := neoc_base58_check_encode_alloc Byte.xcd (Some data) 5 in
   neoc_base58_check_decode_alloc Byte.xcd (Some s)) = Ok data.
Proof.
  apply (base58_check_roundtrip Byte.xcd [Byte.x35; Byte.x00; Byte.x01; Byte.x02; Byte.x03]).
  - apply toy_crypto_works.
  - vm_compute. reflexivity.
  - apply mib_heap_serves. vm_compute. discriminate.
Defined.
