(* ===== verification/Base64.v ===== *)
(** * Base64 (src/utils/neoc_base64.c)

    Encoding in groups of three bytes, the table-driven decoder and the URL variants,
    over buffers as in the other text encodings.  [text64] is the reference encoding
    the encoder is proved to write and the decoder to invert. *)

From S2P Require Import Prelude BinaryWriter.

(** ** Operations *)

Definition BASE64_CHARS : list byte :=
  str "ABCDEFGHIJKLMNOPQRSTUVWXYZabcdefghijklmnopqrstuvwxyz0123456789+/".

Definition BASE64_DECODE_TABLE : list Z :=
  [ -1;-1;-1;-1;-1;-1;-1;-1;-1;-1;-1;-1;-1;-1;-1;-1;
    -1;-1;-1;-1;-1;-1;-1;-1;-1;-1;-1;-1;-1;-1;-1;-1;
    -1;-1;-1;-1;-1;-1;-1;-1;-1;-1;-1;62;-1;-1;-1;63;
    52;53;54;55;56;57;58;59;60;61;-1;-1;-1;-1;-1;-1;
    -1; 0; 1; 2; 3; 4; 5; 6; 7; 8; 9;10;11;12;13;14;
    15;16;17;18;19;20;21;22;23;24;25;-1;-1;-1;-1;-1;
    -1;26;27;28;29;30;31;32;33;34;35;36;37;38;39;40;
    41;42;43;44;45;46;47;48;49;50;51;-1;-1;-1;-1;-1;
    -1;-1;-1;-1;-1;-1;-1;-1;-1;-1;-1;-1;-1;-1;-1;-1;
    -1;-1;-1;-1;-1;-1;-1;-1;-1;-1;-1;-1;-1;-1;-1;-1;
    -1;-1;-1;-1;-1;-1;-1;-1;-1;-1;-1;-1;-1;-1;-1;-1;
    -1;-1;-1;-1;-1;-1;-1;-1;-1;-1;-1;-1;-1;-1;-1;-1;
    -1;-1;-1;-1;-1;-1;-1;-1;-1;-1;-1;-1;-1;-1;-1;-1;
    -1;-1;-1;-1;-1;-1;-1;-1;-1;-1;-1;-1;-1;-1;-1;-1;
    -1;-1;-1;-1;-1;-1;-1;-1;-1;-1;-1;-1;-1;-1;-1;-1;
    -1;-1;-1;-1;-1;-1;-1;-1;-1;-1;-1;-1;-1;-1;-1;-1 ].

Definition pad : byte := Byte.x3d.

(** [BASE64_CHARS[v & 0x3F]] *)
Definition char64 (v : Z) : byte :=
  default Byte.x00 (BASE64_CHARS !! Z.to_nat (Z.land v 0x3F)).

(** The four characters of one group of the encoder: [d1] and [d2] are the second and
    third byte, absent at the end of the data. *)
Definition group (d0 : byte) (d1 d2 : option byte) : list byte :=
  let chunk := Z.shiftl (Z_of_byte d0) 16 in
  let chunk := match d1 with
               | Some d1 => Z.lor chunk (Z.shiftl (Z_of_byte d1) 8) | None => chunk end in
  let chunk := match d2 with Some d2 => Z.lor chunk (Z_of_byte d2) | None => chunk end in
  [char64 (Z.shiftr chunk 18); char64 (Z.shiftr chunk 12);
   match d1 with Some _ => char64 (Z.shiftr chunk 6) | None => pad end;
   match d2 with Some _ => char64 chunk | None => pad end].

Fixpoint encode64_loop (j : Z) (data : list byte) : M (list byte) unit :=
  match data with
  | [] => ret tt
  | [d0] => store j (group d0 None None)
  | [d0; d1] => store j (group d0 (Some d1) None)
  | d0 :: d1 :: d2 :: data =>
      do! store j (group d0 (Some d1) (Some d2)) in encode64_loop (j + 4) data
  end.

Definition neoc_base64_encode (data : option (list byte)) (data_len buffer_size : Z)
  : M (list byte) unit :=
  match data with
  | None => fail NEOC_ERROR_INVALID_ARGUMENT
  | Some data =>
      let encoded_len := wrap 64 (wrap 64 (data_len + 2) / 3 * 4) in
      if buffer_size <? wrap 64 (encoded_len + 1) then fail NEOC_ERROR_BUFFER_TOO_SMALL
      else
        match buf_slice data 0 data_len with
        | None => fault
        | Some data =>
            do! encode64_loop 0 data in
            store encoded_len [Byte.x00]
        end
  end.

Definition neoc_base64_encode_buffer_size (data_length : Z) : Z :=
  wrap 64 (wrap 64 (data_length + 2) / 3 * 4 + 1).

(** [s[len - 1 - k] == '='] *)
Definition padded_at (k : nat) (s : list byte) : bool :=
  match reverse s !! k with
  | Some c => Z_of_byte c =? Z_of_byte pad
  | None => false
  end.

Definition neoc_base64_decode_buffer_size (s : option (list byte)) : Z :=
  match s with
  | None => 0
  | Some s =>
      let len := zlen s in
      if len =? 0 then 0
      else
        let padding := (if padded_at 0 s then 1 else 0) + (if padded_at 1 s then 1 else 0) in
        wrap 64 (len / 4 * 3 - padding)
  end.

Definition neoc_base64_is_valid_char (c : byte) : bool :=
  let z := Z_of_byte c in
  ((48 <=? z) && (z <=? 57)) || ((65 <=? z) && (z <=? 90)) || ((97 <=? z) && (z <=? 122))
  || (z =? 43) || (z =? 47) || (z =? 61) || (z =? 45) || (z =? 95).

Definition neoc_base64_is_valid_string (s : option (list byte)) : bool :=
  match s with
  | None => false
  | Some s =>
      if (zlen s =? 0) || negb (zlen s mod 4 =? 0) then false
      else forallb neoc_base64_is_valid_char s
  end.

(** [val[k]]: 0 for padding, the table entry otherwise; [None] for a character outside
    the alphabet. *)
Definition value64 (c : byte) : option Z :=
  if Z_of_byte c =? Z_of_byte pad then Some 0
  else
    let v := default (-1) (BASE64_DECODE_TABLE !! Z.to_nat (Z_of_byte c)) in
    if v =? -1 then None else Some v.

(** [if (j < output_len) buffer[j] = v;] *)
Definition store_below (output_len j v : Z) : M (list byte) unit :=
  if j <? output_len then store j [byte_of_Z (Z.land v 0xFF)] else ret tt.

Fixpoint decode64_loop (output_len j : Z) (s : list byte) : M (list byte) unit :=
  match s with
  | c0 :: c1 :: c2 :: c3 :: s =>
      match value64 c0, value64 c1, value64 c2, value64 c3 with
      | Some v0, Some v1, Some v2, Some v3 =>
          let chunk := Z.lor (Z.lor (Z.lor (Z.shiftl v0 18) (Z.shiftl v1 12))
                                    (Z.shiftl v2 6)) v3 in
          do! store_below output_len j (Z.shiftr chunk 16) in
          do! store_below output_len (j + 1) (Z.shiftr chunk 8) in
          do! store_below output_len (j + 2) chunk in
          decode64_loop output_len (j + 3) s
      | _, _, _, _ => fail NEOC_ERROR_INVALID_FORMAT
      end
  | _ => ret tt
  end.

(** The number of decoded bytes; they are in the buffer. *)
Definition neoc_base64_decode (encoded : option (list byte)) (buffer_size : Z)
  : M (list byte) Z :=
  match encoded with
  | None => fail NEOC_ERROR_INVALID_ARGUMENT
  | Some s =>
      let encoded_len := zlen s in
      if negb (encoded_len mod 4 =? 0) then fail NEOC_ERROR_INVALID_FORMAT
      else
        let output_len := encoded_len / 4 * 3 in
        let output_len :=
          if (0 <? encoded_len) && padded_at 0 s then output_len - 1 else output_len in
        let output_len :=
          if (1 <? encoded_len) && padded_at 1 s then output_len - 1 else output_len in
        if buffer_size <? output_len then fail NEOC_ERROR_BUFFER_TOO_SMALL
        else
          do! decode64_loop output_len 0 s in ret output_len
  end.

Section Allocating.
Context `{Allocator}.
Variable junk : byte.

Definition neoc_base64_encode_alloc (data : option (list byte)) (data_length : Z)
  : res (list byte) :=
  if negb (match data with Some _ => true | None => false end) && (0 <? data_length)
  then Err NEOC_ERROR_INVALID_ARGUMENT
  else
    let buffer_size := neoc_base64_encode_buffer_size data_length in
    if negb (neoc_malloc_ok buffer_size) then Err NEOC_ERROR_MEMORY
    else
      match neoc_base64_encode data data_length buffer_size
              (replicate (Z.to_nat buffer_size) junk) with
      | (Ok _, buffer) => Ok (cstring buffer)
      | (Err e, _) => Err e
      | (Fault, _) => Fault
      end.

Definition neoc_base64_decode_alloc (s : option (list byte)) : res (list byte) :=
  match s with
  | None => Err NEOC_ERROR_INVALID_ARGUMENT
  | Some _ =>
      let buffer_size := neoc_base64_decode_buffer_size s in
      if buffer_size =? 0 then Err NEOC_ERROR_INVALID_FORMAT
      else if negb (neoc_malloc_ok buffer_size) then Err NEOC_ERROR_MEMORY
      else
        match neoc_base64_decode s buffer_size (replicate (Z.to_nat buffer_size) junk) with
        | (Ok actual_length, buffer) => Ok (take (Z.to_nat actual_length) buffer)
        | (Err e, _) => Err e
        | (Fault, _) => Fault
        end
  end.

(** The character substitutions of the URL alphabet. *)
Definition to_url (c : byte) : byte :=
  if Z_of_byte c =? 43 then Byte.x2d else if Z_of_byte c =? 47 then Byte.x5f else c.
Definition from_url (c : byte) : byte :=
  if Z_of_byte c =? 45 then Byte.x2b else if Z_of_byte c =? 95 then Byte.x2f else c.

(** The pass over the characters before the terminator. *)
Definition url_substitute (buffer : list byte) : list byte :=
  let n := length (cstring buffer) in
  map to_url (take n buffer) ++ drop n buffer.

Definition neoc_base64_url_encode (data : option (list byte)) (data_length buffer_size : Z)
  : M (list byte) unit :=
  do! neoc_base64_encode data data_length buffer_size in
  fun buffer => (Ok tt, url_substitute buffer).

Definition neoc_base64_url_decode (s : option (list byte)) (buffer_size : Z)
  : M (list byte) Z :=
  match s with
  | None => fail NEOC_ERROR_INVALID_ARGUMENT
  | Some s =>
      if negb (neoc_malloc_ok (wrap 64 (zlen s + 1))) then fail NEOC_ERROR_MEMORY
      else neoc_base64_decode (Some (map from_url s)) buffer_size
  end.
End Allocating.

(** ** Reference encoding *)

Fixpoint text64 (data : list byte) : list byte :=
  match data with
  | [] => []
  | [d0] => group d0 None None
  | [d0; d1] => group d0 (Some d1) None
  | d0 :: d1 :: d2 :: data => group d0 (Some d1) (Some d2) ++ text64 data
  end.

(** ** Bit fields *)

Lemma char64_value v :
  value64 (char64 v) = Some (v mod 64) /\ char64 v <> pad /\ char64 v <> Byte.x00 /\
  from_url (to_url (char64 v)) = char64 v /\ to_url (char64 v) <> Byte.x00.
Proof.
  unfold char64. change 0x3F with (Z.ones 6). rewrite Z.land_ones by lia.
  change (2 ^ 6) with 64. pose proof (Z.mod_pos_bound v 64 ltac:(lia)) as Hr.
  revert Hr. generalize (v mod 64). clear v. intros v Hv.
  assert (forallb (fun n => let c := default Byte.x00 (BASE64_CHARS !! n) in
    bool_decide (value64 c = Some (Z.of_nat n)) && bool_decide (c <> pad)
    && bool_decide (c <> Byte.x00) && bool_decide (from_url (to_url c) = c)
    && bool_decide (to_url c <> Byte.x00)) (seq 0 64) = true) as Hall by (vm_compute; done).
  rewrite forallb_forall in Hall. specialize (Hall (Z.to_nat v)). cbv zeta in Hall.
  rewrite Z2Nat.id in Hall by lia.
  assert (In (Z.to_nat v) (seq 0 64)) as Hin by (apply in_seq; lia).
  apply Hall in Hin. bdestruct. done.
Qed.

Lemma chunk3 a b c :
  0 <= a < 256 -> 0 <= b < 256 -> 0 <= c < 256 ->
  Z.lor (Z.lor (Z.shiftl a 16) (Z.shiftl b 8)) c = a * 65536 + b * 256 + c.
Proof.
  intros Ha Hb Hc.
  rewrite (Z.lor_comm (Z.shiftl a 16)), lor_shiftl_add
    by (rewrite ?Z.shiftl_mul_pow2 by lia; dlia).
  rewrite Z.shiftl_mul_pow2 by lia.
  replace (b * 2 ^ 8 + a * 2 ^ 16) with (Z.shiftl (b + a * 256) 8)
    by (rewrite Z.shiftl_mul_pow2 by lia; dlia).
  rewrite Z.lor_comm, lor_shiftl_add by lia. lia.
Qed.

Lemma chunk4 a b c d :
  0 <= a < 64 -> 0 <= b < 64 -> 0 <= c < 64 -> 0 <= d < 64 ->
  Z.lor (Z.lor (Z.lor (Z.shiftl a 18) (Z.shiftl b 12)) (Z.shiftl c 6)) d
  = a * 262144 + b * 4096 + c * 64 + d.
Proof.
  intros Ha Hb Hc Hd.
  rewrite (Z.lor_comm (Z.shiftl a 18)), (lor_shiftl_add (Z.shiftl b 12) a)
    by (rewrite ?Z.shiftl_mul_pow2 by lia; dlia).
  rewrite (Z.shiftl_mul_pow2 b) by lia.
  replace (b * 2 ^ 12 + a * 2 ^ 18) with (Z.shiftl (b + a * 64) 12)
    by (rewrite Z.shiftl_mul_pow2 by lia; dlia).
  rewrite (Z.lor_comm (Z.shiftl (b + a * 64) 12)), (lor_shiftl_add (Z.shiftl c 6))
    by (rewrite ?Z.shiftl_mul_pow2 by lia; dlia).
  rewrite Z.shiftl_mul_pow2 by lia.
  replace (c * 2 ^ 6 + (b + a * 64) * 2 ^ 12) with (Z.shiftl (c + (b + a * 64) * 64) 6)
    by (rewrite Z.shiftl_mul_pow2 by lia; dlia).
  rewrite Z.lor_comm, lor_shiftl_add by lia. lia.
Qed.

(** The bytes the decoder takes out of the chunk of one group. *)
Lemma group_bytes d0 d1 d2 chunk :
  chunk = Z_of_byte d0 * 65536 + Z_of_byte d1 * 256 + Z_of_byte d2 ->
  byte_of_Z (Z.land (Z.shiftr chunk 16) 0xFF) = d0 /\
  byte_of_Z (Z.land (Z.shiftr chunk 8) 0xFF) = d1 /\
  byte_of_Z (Z.land chunk 0xFF) = d2.
Proof.
  intros ->. pose proof (Z_of_byte_range d0). pose proof (Z_of_byte_range d1).
  pose proof (Z_of_byte_range d2). rewrite !land_255, !Z.shiftr_div_pow2 by lia.
  split_and!; rewrite byte_of_Z_mod; apply Z_of_byte_inj; rewrite Z_of_byte_of_Z; dlia.
Qed.

(** The four values of a group, put together again. *)
Lemma group_values d0 (d1 d2 : option byte) :
  (d1 = None -> d2 = None) ->
  exists c0 c1 c2 c3 v0 v1 v2 v3,
    group d0 d1 d2 = [c0; c1; c2; c3] /\
    value64 c0 = Some v0 /\ value64 c1 = Some v1 /\ value64 c2 = Some v2 /\ value64 c3 = Some v3 /\
    c0 <> pad /\ c1 <> pad /\ (c2 = pad <-> d1 = None) /\ (c3 = pad <-> d2 = None) /\
    Z.lor (Z.lor (Z.lor (Z.shiftl v0 18) (Z.shiftl v1 12)) (Z.shiftl v2 6)) v3
    = Z_of_byte d0 * 65536 + Z_of_byte (default Byte.x00 d1) * 256
      + Z_of_byte (default Byte.x00 d2).
Proof.
  intros Hd. unfold group. cbv zeta.
  set (x := Z_of_byte d0). set (y := Z_of_byte (default Byte.x00 d1)).
  set (z := Z_of_byte (default Byte.x00 d2)).
  set (chunk := match d2 with Some _ => _ | None => _ end).
  assert (0 <= x < 256 /\ 0 <= y < 256 /\ 0 <= z < 256) as (Hx & Hy & Hz).
  { split_and!; apply Z_of_byte_range. }
  assert (chunk = x * 65536 + y * 256 + z) as Hc.
  { unfold chunk. destruct d1 as [d1|], d2 as [d2|]; [| |specialize (Hd eq_refl); done|].
    - by apply chunk3.
    - change z with 0. rewrite <- (chunk3 x y 0) by lia. rewrite Z.lor_0_r. done.
    - change y with 0. change z with 0. rewrite <- (chunk3 x 0 0) by lia.
      rewrite Z.shiftl_0_l, !Z.lor_0_r. done. }
  rewrite !Z.shiftr_div_pow2 by lia. eval_pows.
  exists (char64 (chunk / 262144)), (char64 (chunk / 4096)),
    (match d1 with Some _ => char64 (chunk / 64) | None => pad end),
    (match d2 with Some _ => char64 chunk | None => pad end),
    (chunk / 262144 mod 64), (chunk / 4096 mod 64), (chunk / 64 mod 64), (chunk mod 64).
  pose proof (char64_value (chunk / 262144)) as (A1 & A2 & _).
  pose proof (char64_value (chunk / 4096)) as (B1 & B2 & _).
  pose proof (char64_value (chunk / 64)) as (C1 & C2 & _).
  pose proof (char64_value chunk) as (D1 & D2 & _).
  split_and!; try done.
  - destruct d1; [done|]. change (value64 pad) with (Some 0). f_equal.
    specialize (Hd eq_refl) as ->. rewrite Hc. change y with 0. change z with 0. dlia.
  - destruct d2; [done|]. change (value64 pad) with (Some 0). f_equal.
    rewrite Hc. change z with 0. dlia.
  - destruct d1; split; done.
  - destruct d2; split; done.
  - rewrite chunk4 by (apply Z.mod_pos_bound; lia). dlia.
Qed.

(** ** The loops *)

Lemma triple_ind {A} (P : list A -> Prop) :
  P [] -> (forall x, P [x]) -> (forall x y, P [x; y]) ->
  (forall x y z l, P l -> P (x :: y :: z :: l)) -> forall l, P l.
Proof.
  intros H0 H1 H2 H3 l.
  enough (P l /\ (forall x, P (x :: l)) /\ forall x y, P (x :: y :: l)) by tauto.
  induction l as [|x l (IH1 & IH2 & IH3)]; split_and!; auto.
Qed.

Lemma length_group d0 d1 d2 : length (group d0 d1 d2) = 4%nat.
Proof. done. Qed.

Lemma length_text64 data : zlen (text64 data) = (zlen data + 2) / 3 * 4.
Proof.
  induction data as [|d0|d0 d1|d0 d1 d2 data IH] using triple_ind; try done.
  cbn [text64]. rewrite zlen_app, IH, !zlen_cons. unfold zlen at 1. rewrite length_group. dlia.
Qed.

Lemma encode64_loop_spec data : forall filled rest,
  zlen (text64 data) <= zlen rest ->
  encode64_loop (zlen filled) data (filled ++ rest) =
  (Ok tt, (filled ++ text64 data) ++ drop (length (text64 data)) rest).
Proof.
  induction data as [|d0|d0 d1|d0 d1 d2 data IH] using triple_ind; intros filled rest Hl;
    cbn [encode64_loop text64].
  - rewrite app_nil_r. done.
  - by apply store_next.
  - by apply store_next.
  - cbn [text64] in Hl. set (g := group d0 (Some d1) (Some d2)) in *.
    assert (zlen g = 4) as Hg by done. rewrite zlen_app in Hl.
    pose proof (zlen_nonneg (text64 data)).
    rewrite (bind_ok _ _ _ _ _ (store_next filled g rest ltac:(lia))).
    replace (zlen filled + 4) with (zlen (filled ++ g)) by (rewrite zlen_app; lia).
    rewrite IH.
    + rewrite drop_drop, length_app, <- !app_assoc. done.
    + rewrite zlen_drop; unfold zlen in *; lia.
Qed.

Lemma store_below_in output_len filled v rest :
  zlen filled < output_len -> 1 <= zlen rest ->
  store_below output_len (zlen filled) v (filled ++ rest) =
  (Ok tt, (filled ++ [byte_of_Z (Z.land v 0xFF)]) ++ drop 1 rest).
Proof. intros. unfold store_below. cmps. by apply store_next. Qed.

Lemma store_below_out output_len j v buf :
  output_len <= j -> store_below output_len j v buf = (Ok tt, buf).
Proof. intros. unfold store_below. cmps. done. Qed.

Lemma decode64_loop_spec data : forall filled rest output_len,
  output_len = zlen filled + zlen data -> zlen data <= zlen rest ->
  decode64_loop output_len (zlen filled) (text64 data) (filled ++ rest) =
  (Ok tt, (filled ++ data) ++ drop (length data) rest).
Proof.
  induction data as [|d0|d0 d1|d0 d1 d2 data IH] using triple_ind;
    intros filled rest output_len Ho Hl; cbn [text64]; [by rewrite app_nil_r|..];
    rewrite ?zlen_cons in *; change (zlen []) with 0 in *; note_zlen.
  - destruct (group_values d0 None None) as (c0 & c1 & c2 & c3 & v0 & v1 & v2 & v3 & -> &
      V0 & V1 & V2 & V3 & _ & _ & _ & _ & Hc); [done|].
    cbn [decode64_loop]. rewrite V0, V1, V2, V3. cbv zeta.
    destruct (group_bytes _ _ _ _ Hc) as (B0 & _ & _).
    erewrite bind_ok by (apply store_below_in; lia). rewrite B0.
    do 2 erewrite bind_ok by (apply store_below_out; lia). done.
  - destruct (group_values d0 (Some d1) None) as (c0 & c1 & c2 & c3 & v0 & v1 & v2 & v3 & -> &
      V0 & V1 & V2 & V3 & _ & _ & _ & _ & Hc); [done|].
    cbn [decode64_loop]. rewrite V0, V1, V2, V3. cbv zeta.
    destruct (group_bytes _ _ _ _ Hc) as (B0 & B1 & _). cbn [default from_option id] in B1.
    erewrite bind_ok by (apply store_below_in; lia). rewrite B0.
    assert (zlen (drop 1 rest) = zlen rest - 1) as D1 by (rewrite zlen_drop; unfold zlen in *; lia).
    replace (zlen filled + 1) with (zlen (filled ++ [d0])) by (rewrite zlen_app; done).
    erewrite bind_ok
      by (apply store_below_in; [rewrite zlen_app; change (zlen [d0]) with 1|]; lia). rewrite B1.
    erewrite bind_ok by (apply store_below_out; lia).
    cbn. rewrite drop_drop, <- !app_assoc. done.
  - destruct (group_values d0 (Some d1) (Some d2)) as (c0 & c1 & c2 & c3 & v0 & v1 & v2 & v3 & -> &
      V0 & V1 & V2 & V3 & _ & _ & _ & _ & Hc); [done|].
    cbn [app decode64_loop]. rewrite V0, V1, V2, V3. cbv zeta.
    destruct (group_bytes _ _ _ _ Hc) as (B0 & B1 & B2).
    cbn [default from_option id] in B1, B2.
    assert (zlen (drop 1 rest) = zlen rest - 1) as D1 by (rewrite zlen_drop; unfold zlen in *; lia).
    assert (zlen (drop 2 rest) = zlen rest - 2) as D2 by (rewrite zlen_drop; unfold zlen in *; lia).
    assert (zlen (drop 3 rest) = zlen rest - 3) as D3 by (rewrite zlen_drop; unfold zlen in *; lia).
    erewrite bind_ok by (apply store_below_in; lia). rewrite B0.
    replace (zlen filled + 1) with (zlen (filled ++ [d0])) by (rewrite zlen_app; done).
    erewrite bind_ok
      by (apply store_below_in; [rewrite zlen_app; change (zlen [d0]) with 1|]; lia). rewrite B1.
    rewrite drop_drop, <- (app_assoc filled [d0] [d1]). cbn [app Nat.add].
    replace (zlen filled + 2) with (zlen (filled ++ [d0; d1])) by (rewrite zlen_app; done).
    erewrite bind_ok
      by (apply store_below_in; [rewrite zlen_app; change (zlen [d0; d1]) with 2|]; lia).
    rewrite B2.
    rewrite drop_drop, <- (app_assoc filled [d0; d1] [d2]). cbn [app Nat.add].
    replace (zlen filled + 3) with (zlen (filled ++ [d0; d1; d2])) by (rewrite zlen_app; done).
    rewrite IH.
    + rewrite drop_drop, <- !app_assoc. done.
    + rewrite zlen_app. change (zlen [d0; d1; d2]) with 3. lia.
    + lia.
Qed.

(** ** The length computed from the padding *)

Definition output_length (s : list byte) : Z :=
  let n := zlen s / 4 * 3 in
  let n := if (0 <? zlen s) && padded_at 0 s then n - 1 else n in
  if (1 <? zlen s) && padded_at 1 s then n - 1 else n.

Lemma padded_at_app k a b : (k < length b)%nat -> padded_at k (a ++ b) = padded_at k b.
Proof.
  intros Hk. unfold padded_at. rewrite reverse_app, lookup_app_l; [done|].
  rewrite length_reverse. done.
Qed.

Lemma is_pad c : (Z_of_byte c =? Z_of_byte pad) = bool_decide (c = pad).
Proof.
  destruct (_ =? _) eqn:E; bdestruct; symmetry.
  - apply bool_decide_eq_true. by apply Z_of_byte_inj.
  - apply bool_decide_eq_false. intros ->. done.
Qed.

Lemma output_length_text data : output_length (text64 data) = zlen data.
Proof.
  assert (forall d0 d1 d2, (d1 = None -> d2 = None) ->
    padded_at 0 (group d0 d1 d2) = negb (match d2 with Some _ => true | None => false end) /\
    padded_at 1 (group d0 d1 d2) = negb (match d1 with Some _ => true | None => false end)) as Hg.
  { intros d0 d1 d2 Hd. destruct (group_values d0 d1 d2 Hd)
      as (c0 & c1 & c2 & c3 & ? & ? & ? & ? & -> & _ & _ & _ & _ & _ & _ & H2 & H3 & _).
    unfold padded_at. cbn. rewrite !is_pad.
    split; [destruct d2|destruct d1]; cbn [negb];
      (apply bool_decide_eq_true || apply bool_decide_eq_false); intuition done. }
  induction data as [|d0|d0 d1|d0 d1 d2 data IH] using triple_ind; [done|..];
    cbn [text64]; unfold output_length.
  - destruct (Hg d0 None None) as [-> ->]; done.
  - destruct (Hg d0 (Some d1) None) as [-> ->]; done.
  - destruct data as [|d data].
    + rewrite app_nil_r. destruct (Hg d0 (Some d1) (Some d2)) as [-> ->]; done.
    + set (t := d :: data) in *. pose proof (length_text64 t) as Ht.
      assert (4 <= zlen (text64 t)).
      { rewrite Ht. unfold t. rewrite zlen_cons. pose proof (zlen_nonneg data). dlia. }
      unfold output_length in IH. cbv zeta in *. rewrite zlen_app, !zlen_cons.
      change (zlen (group _ _ _)) with 4. rewrite !padded_at_app by (unfold zlen in *; lia).
      revert IH. cmps. destruct (padded_at 0 _), (padded_at 1 _); cbn [andb]; dlia.
Qed.

Lemma text64_chars data :
  Forall (fun c => c <> Byte.x00 /\ from_url (to_url c) = c /\ to_url c <> Byte.x00) (text64 data).
Proof.
  assert (forall v, char64 v <> Byte.x00 /\ from_url (to_url (char64 v)) = char64 v /\
                    to_url (char64 v) <> Byte.x00) as Hc.
  { intros v. pose proof (char64_value v) as (_ & _ & ? & ? & ?). done. }
  assert (pad <> Byte.x00 /\ from_url (to_url pad) = pad /\ to_url pad <> Byte.x00) as Hp by done.
  induction data as [|d0|d0 d1|d0 d1 d2 data IH] using triple_ind; cbn [text64].
  - constructor.
  - repeat constructor; (apply Hc || apply Hp).
  - repeat constructor; (apply Hc || apply Hp).
  - apply Forall_app. split; [|done]. repeat constructor; apply Hc.
Qed.

(** ** Encoder and decoder on whole buffers *)

Lemma base64_encode_spec data buf :
  zlen data < 2 ^ 61 -> zlen (text64 data) + 1 <= zlen buf ->
  neoc_base64_encode (Some data) (zlen data) (zlen buf) buf =
  (Ok tt, text64 data ++ Byte.x00 :: drop (S (length (text64 data))) buf).
Proof.
  intros Hl Hb. unfold neoc_base64_encode. cbv zeta.
  pose proof (zlen_nonneg data). pose proof (length_text64 data) as Ht.
  rewrite (wrap_small 64 (zlen data + 2)), <- Ht by lia.
  assert (0 <= zlen (text64 data) < 2 ^ 63) by (rewrite Ht; dlia).
  rewrite (wrap_small 64 (zlen (text64 data))), wrap_small by lia. cmps.
  rewrite buf_slice_all.
  pose proof (encode64_loop_spec data [] buf ltac:(lia)) as He. cbn [app] in He.
  rewrite (bind_ok _ _ _ _ _ He), store_next.
  - rewrite drop_drop, <- app_assoc. cbn [app length].
    replace (length (text64 data) + 1)%nat with (S (length (text64 data))) by lia. done.
  - rewrite zlen_drop by (unfold zlen in *; lia). change (zlen [_]) with 1. unfold zlen in *. lia.
Qed.

Lemma base64_decode_text data buf :
  zlen data <= zlen buf ->
  neoc_base64_decode (Some (text64 data)) (zlen buf) buf =
  (Ok (zlen data), data ++ drop (length data) buf).
Proof.
  intros Hb. unfold neoc_base64_decode. cbv zeta.
  change (if (1 <? zlen (text64 data)) && padded_at 1 (text64 data) then _ else _)
    with (output_length (text64 data)). rewrite output_length_text.
  assert (zlen (text64 data) mod 4 = 0) as ->.
  { rewrite length_text64. apply Z.mod_mul. lia. }
  cbn [negb Z.eqb]. cmps.
  pose proof (decode64_loop_spec data [] buf (zlen data) eq_refl Hb) as Hd.
  change (zlen []) with 0 in Hd. cbn [app] in Hd. rewrite (bind_ok _ _ _ _ _ Hd). done.
Qed.

(** ** Any string *)

Lemma store_below_safe output_len j v buf :
  0 <= j -> output_len <= zlen buf ->
  exists buf', store_below output_len j v buf = (Ok tt, buf') /\ zlen buf' = zlen buf.
Proof.
  intros Hj Hb. unfold store_below. destruct (j <? output_len) eqn:E; bdestruct; [|eauto].
  unfold store. destruct (buf_copy_spec buf j [byte_of_Z (Z.land v 255)]) as (b & -> & ? & _);
    [done|change (zlen [_]) with 1; lia|]. eauto.
Qed.

Definition decodable (s : list byte) : bool :=
  forallb (fun c => match value64 c with Some _ => true | None => false end) s.

(** Induction four characters at a time, with a remainder of at most three. *)
Lemma quad_ind {A} (P : list A -> Prop) :
  (forall l, (length l < 4)%nat -> P l) ->
  (forall a b c d l, P l -> P (a :: b :: c :: d :: l)) -> forall l, P l.
Proof.
  intros H0 H4 l. remember (length l) as n eqn:En. revert l En.
  induction n as [n IH] using lt_wf_ind. intros l ->.
  destruct l as [|a [|b [|c [|d l]]]]; try (apply H0; cbn; lia).
  apply H4. apply (IH (length l)); [cbn; lia|done].
Qed.

Lemma decode64_loop_safe s : forall output_len j buf,
  0 <= j -> output_len <= zlen buf -> zlen s mod 4 = 0 ->
  exists buf', zlen buf' = zlen buf /\
    decode64_loop output_len j s buf =
    (if decodable s then Ok tt else Err NEOC_ERROR_INVALID_FORMAT, buf').
Proof.
  induction s as [l Hl|a b c d l IH] using quad_ind; intros output_len j buf Hj Hb Hm.
  - destruct l as [|? [|? [|? [|]]]]; try done; [eauto|cbn in Hl; lia].
  - assert (zlen l mod 4 = 0) as Hm'.
    { rewrite !zlen_cons in Hm. rewrite <- Hm.
      replace (1 + (1 + (1 + (1 + zlen l)))) with (zlen l + 1 * 4) by lia.
      rewrite Z.mod_add by lia. done. }
    cbn [decode64_loop decodable forallb].
    destruct (value64 a) as [v0|]; [|eauto]. destruct (value64 b) as [v1|]; [|eauto].
    destruct (value64 c) as [v2|]; [|eauto]. destruct (value64 d) as [v3|]; [|eauto].
    cbn [andb]. cbv zeta.
    edestruct (store_below_safe output_len j) as (b1 & E1 & L1); [done|done|].
    rewrite (bind_ok _ _ _ _ _ E1).
    edestruct (store_below_safe output_len (j + 1)) as (b2 & E2 & L2); [lia| |].
    2: rewrite (bind_ok _ _ _ _ _ E2). { rewrite L1. done. }
    edestruct (store_below_safe output_len (j + 2)) as (b3 & E3 & L3); [lia| |].
    2: rewrite (bind_ok _ _ _ _ _ E3). { rewrite L2, L1. done. }
    destruct (IH output_len (j + 3) b3) as (b4 & L4 & E4); [lia|lia|done|].
    exists b4. split; [congruence|done].
Qed.

Lemma output_length_range s :
  zlen s mod 4 = 0 -> 0 <= output_length s <= zlen s.
Proof.
  intros Hm. unfold output_length. cbv zeta. pose proof (zlen_nonneg s).
  destruct (0 <? zlen s) eqn:E0, (1 <? zlen s) eqn:E1, (padded_at 0 s), (padded_at 1 s);
    cbn [andb]; bdestruct; dlia.
Qed.

Section Allocating.
Context `{Allocator}.
Variable junk : byte.

(** The text in a block of its own, and back. *)
Lemma base64_alloc_text data :
  data <> [] -> zlen data < 2 ^ 61 -> heap_serves (2 * zlen data + 4) ->
  neoc_base64_encode_alloc junk (Some data) (zlen data) = Ok (text64 data).
Proof.
  intros Hne Hl Hh. pose proof (zlen_pos data Hne). pose proof (length_text64 data) as Ht.
  unfold neoc_base64_encode_alloc, neoc_base64_encode_buffer_size. cbn [negb andb]. cbv zeta.
  rewrite (wrap_small 64 (zlen data + 2)) by lia.
  rewrite wrap_small by dlia. rewrite <- Ht. unfold neoc_malloc_ok.
  assert (0 < zlen (text64 data) + 1 <= 2 * zlen data + 4) as Hb0 by (rewrite Ht; dlia). cmps. rewrite Hh by lia. cbn [negb].
  set (buf := replicate (Z.to_nat (zlen (text64 data) + 1)) junk).
  assert (zlen buf = zlen (text64 data) + 1) as Hb.
  { unfold buf. rewrite zlen_replicate. pose proof (zlen_nonneg (text64 data)). lia. }
  rewrite <- Hb at 1. rewrite base64_encode_spec by lia.
  by rewrite cstring_app by (eapply Forall_impl; [apply text64_chars|]; cbn; tauto).
Qed.

Lemma decode_alloc_text data :
  data <> [] -> zlen data < 2 ^ 61 -> heap_serves (zlen data) ->
  neoc_base64_decode_alloc junk (Some (text64 data)) = Ok data.
Proof.
  intros Hne Hl Hh. pose proof (zlen_pos data Hne). pose proof (length_text64 data) as Ht.
  unfold neoc_base64_decode_alloc, neoc_base64_decode_buffer_size. cbv zeta.
  pose proof (output_length_text data) as Ho. unfold output_length in Ho. cbv zeta in Ho.
  assert (4 <= zlen (text64 data)) by (rewrite Ht; dlia).
  replace (zlen (text64 data) =? 0) with false by (symmetry; lia).
  replace (zlen (text64 data) / 4 * 3 - _) with (zlen data).
  2: { rewrite <- Ho. cmps. destruct (padded_at 0 _), (padded_at 1 _); cbn [andb]; lia. }
  rewrite wrap_small by lia. unfold neoc_malloc_ok. cmps. rewrite Hh by lia. cbn [negb].
  set (buf2 := replicate (Z.to_nat (zlen data)) junk).
  assert (zlen buf2 = zlen data) as Hb2 by (unfold buf2; rewrite zlen_replicate; lia).
  rewrite <- Hb2 at 1. rewrite base64_decode_text by lia.
  unfold zlen. rewrite Nat2Z.id, take_app_length. done.
Qed.

(** Base64 round trip: the text of any non-empty byte array decodes to the array,
    for each of the three possible paddings. *)
Theorem base64_roundtrip (data : list byte) :
  data <> [] -> zlen data < 2 ^ 61 -> heap_serves (2 * zlen data + 4) ->
  (let? s := neoc_base64_encode_alloc junk (Some data) (zlen data) in
   neoc_base64_decode_alloc junk (Some s)) = Ok data.
Proof.
  intros Hne Hl Hh. rewrite base64_alloc_text by done. cbn [rbind]. apply decode_alloc_text; [done|done|].
  eapply heap_serves_mono; [done|]. pose proof (zlen_nonneg data). lia.
Qed.

(** The URL variants invert each other through the substituted alphabet, in the
    caller's buffers. *)
Theorem base64_url_roundtrip (data buf out : list byte) :
  zlen data < 2 ^ 61 -> zlen (text64 data) + 1 <= zlen buf -> zlen data <= zlen out ->
  heap_serves (zlen (text64 data) + 1) ->
  let '(r, text) := neoc_base64_url_encode (Some data) (zlen data) (zlen buf) buf in
  r = Ok tt /\
  neoc_base64_url_decode (Some (cstring text)) (zlen out) out =
  (Ok (zlen data), data ++ drop (length data) out).
Proof.
  intros Hl Hb Ho Hh. unfold neoc_base64_url_encode.
  rewrite (bind_ok _ _ _ _ _ (base64_encode_spec data buf Hl Hb)). split; [done|].
  pose proof (text64_chars data) as Hc. set (t := text64 data) in *.
  set (rest := drop _ buf).
  assert (cstring (t ++ Byte.x00 :: rest) = t) as Hcs.
  { apply cstring_app. eapply Forall_impl; [exact Hc|]. cbn. tauto. }
  unfold url_substitute. rewrite Hcs. cbv zeta. rewrite take_app_length, drop_app_length.
  rewrite cstring_app by (apply Forall_map; eapply Forall_impl; [exact Hc|]; cbn; tauto).
  unfold neoc_base64_url_decode, neoc_malloc_ok. rewrite zlen_map. pose proof (zlen_nonneg t).
  assert (zlen t < 2 ^ 63) by (unfold t; rewrite length_text64; dlia).
  rewrite wrap_small by lia. rewrite Hh by lia. cmps.
  rewrite map_map. rewrite (map_ext_Forall _ id).
  - rewrite map_id. by apply base64_decode_text.
  - eapply Forall_impl; [exact Hc|]. cbn. tauto.
Qed.

(** Decoding untrusted text: for every string and buffer the decoder stays inside
    the buffer, accepts exactly the strings of a multiple of four characters that are
    all in the alphabet or padding and fit the buffer, and the length it reports is
    the one [neoc_base64_decode_buffer_size] computes. *)
Theorem base64_decode_untrusted (s buf : list byte) :
  zlen s < 2 ^ 62 ->
  let '(r, buf') := neoc_base64_decode (Some s) (zlen buf) buf in
  zlen buf' = zlen buf /\
  r = if negb (zlen s mod 4 =? 0) then Err NEOC_ERROR_INVALID_FORMAT
      else if zlen buf <? neoc_base64_decode_buffer_size (Some s)
      then Err NEOC_ERROR_BUFFER_TOO_SMALL
      else if decodable s then Ok (neoc_base64_decode_buffer_size (Some s))
      else Err NEOC_ERROR_INVALID_FORMAT.
Proof.
  intros Hl. unfold neoc_base64_decode. cbv zeta.
  change (if (1 <? zlen s) && padded_at 1 s then _ else _) with (output_length s).
  destruct (zlen s mod 4 =? 0) eqn:Em; cbn [negb]; [|done]. bdestruct.
  pose proof (output_length_range s Em) as Hr. pose proof (zlen_nonneg s).
  assert (neoc_base64_decode_buffer_size (Some s) = output_length s) as ->.
  { unfold neoc_base64_decode_buffer_size, output_length in *. cbv zeta in *.
    destruct (zlen s =? 0) eqn:E0; bdestruct; [rewrite E0; done|].
    assert (4 <= zlen s) by dlia. revert Hr. cmps.
    destruct (padded_at 0 s), (padded_at 1 s); cbn [andb]; intros Hr;
      rewrite wrap_small; lia. }
  destruct (zlen buf <? output_length s) eqn:Eb; bdestruct; [done|].
  destruct (decode64_loop_safe s (output_length s) 0 buf) as (b & Hb & Ed); [lia|lia|done|].
  destruct (decodable s).
  - rewrite (bind_ok _ _ _ _ _ Ed). done.
  - rewrite (bind_err _ _ _ _ _ Ed). done.
Qed.
End Allocating.

#[local] Existing Instance mib_heap.

Lemma base64_roundtrip_witness :
  (let? s := neoc_base64_encode_alloc Byte.xcd (Some [Byte.x4e; Byte.xff]) 2 in
   neoc_base64_decode_alloc Byte.xcd (Some s)) = Ok [Byte.x4e; Byte.xff].
Proof.
  apply (base64_roundtrip Byte.xcd [Byte.x4e; Byte.xff]).
  - discriminate.
  - vm_compute. reflexivity.
  - apply mib_heap_serves. vm_compute. discriminate.
Defined.

Lemma base64_url_roundtrip_witness :
  let '(r, text) := neoc_base64_url_encode (Some [Byte.xfb; Byte.xff]) 2 5 (replicate 5 Byte.xcd) in
  r = Ok tt /\
  neoc_base64_url_decode (Some (cstring text)) 2 [Byte.x00; Byte.x00] =
  (Ok 2, [Byte.xfb; Byte.xff]).
Proof.
  apply (base64_url_roundtrip [Byte.xfb; Byte.xff] (replicate 5 Byte.xcd) [Byte.x00; Byte.x00]).
  - vm_compute. reflexivity.
  - vm_compute. discriminate.
  - vm_compute. discriminate.
  - apply mib_heap_serves. vm_compute. discriminate.
Defined.

Lemma base64_decode_untrusted_witness :
  fst (neoc_base64_decode (Some (str "AB-D")) 3 (replicate 3 Byte.x00))
  = Err NEOC_ERROR_INVALID_FORMAT.
Proof.
  pose proof (base64_decode_untrusted (str "AB-D") (replicate 3 Byte.x00)
    ltac:(vm_compute; reflexivity)) as H.
  change (zlen (replicate 3 Byte.x00)) with 3 in H.
  destruct (neoc_base64_decode _ _ _) as [r b]. destruct H as [_ ->]. vm_compute. reflexivity.
Defined.
