(* ===== verification/Hashes.v ===== *)
(** * Hash160 and Hash256 (src/types/neoc_hash160.c, src/types/neoc_hash256.c)

    Fixed-size hashes with their conversions: hex text, addresses, scripts, byte
    orders, comparison and the binary stream.  A hash is the byte array of the C
    struct; [hash160_ok] and [hash256_ok] say that it has the struct's size. *)

From S2P Require Import Prelude BinaryWriter BinaryReader Serializable Crypto Hex Base58.

Definition NEOC_HASH160_SIZE : Z := 20.
Definition NEOC_HASH256_SIZE : Z := 32.
Definition NEOC_ADDRESS_VERSION : byte := Byte.x35.

Record neoc_hash160_t := mk_hash160 { hash160_data : list byte }.
Record neoc_hash256_t := mk_hash256 { hash256_data : list byte }.

#[global] Instance hash160_eq_dec : EqDecision neoc_hash160_t.
Proof. solve_decision. Defined.
#[global] Instance hash256_eq_dec : EqDecision neoc_hash256_t.
Proof. solve_decision. Defined.

Definition hash160_ok (h : neoc_hash160_t) : Prop := zlen (hash160_data h) = NEOC_HASH160_SIZE.
Definition hash256_ok (h : neoc_hash256_t) : Prop := zlen (hash256_data h) = NEOC_HASH256_SIZE.

Definition NEOC_HASH160_ZERO_VALUE : neoc_hash160_t := mk_hash160 (replicate 20 Byte.x00).
Definition NEOC_HASH256_ZERO_VALUE : neoc_hash256_t := mk_hash256 (replicate 32 Byte.x00).

(** The sign of [memcmp] over [n] bytes. *)
Fixpoint memcmp_loop (a b : list byte) : Z :=
  match a, b with
  | x :: a, y :: b =>
      if Z_of_byte x <? Z_of_byte y then -1
      else if Z_of_byte y <? Z_of_byte x then 1
      else memcmp_loop a b
  | _, _ => 0
  end.

(** ** Hash160 *)

Definition decode_exact_hex (hex_string : option (list byte)) (expected_bytes : Z)
  : M (list byte) unit :=
  match hex_string with
  | None => fail NEOC_ERROR_NULL_POINTER
  | Some s =>
      let digits := neoc_hex_skip_prefix s in
      let digits_len := zlen digits in
      if digits_len =? 0 then fail NEOC_ERROR_INVALID_ARGUMENT
      else if negb (forallb neoc_hex_is_valid_char digits) then fail NEOC_ERROR_INVALID_HEX
      else
        let required_chars := wrap 64 (expected_bytes * 2) in
        let odd_length := negb (digits_len mod 2 =? 0) in
        let padded_len := digits_len + (if odd_length then 1 else 0) in
        if required_chars <? padded_len then fail NEOC_ERROR_BUFFER_TOO_SMALL
        else if padded_len <? required_chars then fail NEOC_ERROR_INVALID_ARGUMENT
        else
          let normalized := if odd_length then Byte.x30 :: digits else digits in
          fun output =>
            match neoc_hex_decode (Some normalized) expected_bytes output with
            | (Ok decoded_length, output) =>
                if negb (decoded_length =? expected_bytes) then
                  (Err (if decoded_length <? expected_bytes then NEOC_ERROR_INVALID_ARGUMENT
                        else NEOC_ERROR_BUFFER_TOO_SMALL), output)
                else (Ok tt, output)
            | (Err NEOC_ERROR_INVALID_FORMAT, output) => (Err NEOC_ERROR_INVALID_HEX, output)
            | (Err e, output) => (Err e, output)
            | (Fault, output) => (Fault, output)
            end
  end.

Definition neoc_hash160_init_zero : neoc_hash160_t := mk_hash160 (replicate 20 Byte.x00).

Definition neoc_hash160_from_bytes (data : option (list byte)) : res neoc_hash160_t :=
  match data with
  | None => Err NEOC_ERROR_NULL_POINTER
  | Some data => let? d := memcpy_from data NEOC_HASH160_SIZE in Ok (mk_hash160 d)
  end.

Definition neoc_hash160_from_data (data : option (list byte)) (length : Z)
  : res neoc_hash160_t :=
  match data with
  | None => Err NEOC_ERROR_NULL_POINTER
  | Some data =>
      if negb (length =? NEOC_HASH160_SIZE) then Err NEOC_ERROR_INVALID_ARGUMENT
      else let? d := memcpy_from data NEOC_HASH160_SIZE in Ok (mk_hash160 d)
  end.

(** The hash is written in place: [hash] is its value before the call. *)
Definition neoc_hash160_from_hex (hex_string : option (list byte)) : M neoc_hash160_t unit :=
  match hex_string with
  | None => fail NEOC_ERROR_NULL_POINTER
  | Some _ => fun hash =>
      let '(r, data) := decode_exact_hex hex_string NEOC_HASH160_SIZE (hash160_data hash) in
      (r, mk_hash160 data)
  end.

Definition neoc_hash160_copy (src : neoc_hash160_t) : res neoc_hash160_t :=
  let? d := memcpy_from (hash160_data src) NEOC_HASH160_SIZE in Ok (mk_hash160 d).

Definition neoc_hash160_to_bytes (hash : neoc_hash160_t) (buffer_size : Z)
  : M (list byte) unit :=
  if buffer_size <? NEOC_HASH160_SIZE then fail NEOC_ERROR_BUFFER_TOO_SMALL
  else let! d := lift (memcpy_from (hash160_data hash) NEOC_HASH160_SIZE) in store 0 d.

Definition neoc_hash160_to_little_endian_bytes (hash : neoc_hash160_t) (buffer_size : Z)
  : M (list byte) unit :=
  if buffer_size <? NEOC_HASH160_SIZE then fail NEOC_ERROR_BUFFER_TOO_SMALL
  else let! d := lift (memcpy_from (hash160_data hash) NEOC_HASH160_SIZE) in
       store 0 (reverse d).

Definition neoc_hash160_to_hex (hash : neoc_hash160_t) (buffer_size : Z) (uppercase : bool)
  : M (list byte) unit :=
  let required_size := neoc_hex_encode_buffer_size NEOC_HASH160_SIZE false in
  if buffer_size <? required_size then fail NEOC_ERROR_BUFFER_TOO_SMALL
  else neoc_hex_encode (Some (hash160_data hash)) NEOC_HASH160_SIZE buffer_size uppercase false.

Definition neoc_hash160_compare (a b : option neoc_hash160_t) : Z :=
  match a, b with
  | None, None => 0
  | Some _, None => 1
  | None, Some _ => -1
  | Some a, Some b => memcmp_loop (hash160_data a) (hash160_data b)
  end.

Definition neoc_hash160_equal (a b : option neoc_hash160_t) : bool :=
  neoc_hash160_compare a b =? 0.

Definition neoc_hash160_is_zero (hash : option neoc_hash160_t) : bool :=
  match hash with
  | None => false
  | Some _ => neoc_hash160_equal hash (Some NEOC_HASH160_ZERO_VALUE)
  end.

Definition neoc_hash160_serialized_size : Z := NEOC_HASH160_SIZE.

Definition neoc_hash160_from_string (s : option (list byte)) : M neoc_hash160_t unit :=
  match s with
  | None => fail NEOC_ERROR_NULL_POINTER
  | Some s =>
      let hex_str := neoc_hex_skip_prefix s in
      if negb (zlen hex_str =? 40) then fail NEOC_ERROR_INVALID_ARGUMENT
      else neoc_hash160_from_hex (Some hex_str)
  end.

Definition neoc_hash160_to_string (hash : neoc_hash160_t) (buffer_size : Z)
  : M (list byte) unit := neoc_hash160_to_hex hash buffer_size false.

Section Hash160.
Context `{Allocator} `{Crypto}.
Variable junk : byte.

Definition neoc_hash160_from_address (address : option (list byte)) : res neoc_hash160_t :=
  match address with
  | None => Err NEOC_ERROR_NULL_POINTER
  | Some _ =>
      match neoc_base58_check_decode_alloc junk address with
      | Err _ => Err NEOC_ERROR_INVALID_BASE58
      | Fault => Fault
      | Ok decoded =>
          if negb (zlen decoded =? 1 + NEOC_HASH160_SIZE) then Err NEOC_ERROR_INVALID_FORMAT
          else
            match decoded with
            | [] => Fault
            | version :: rest =>
                if negb (Z_of_byte version =? Z_of_byte NEOC_ADDRESS_VERSION)
                then Err NEOC_ERROR_INVALID_FORMAT
                else Ok (mk_hash160 (reverse rest))
            end
      end
  end.

Definition neoc_hash160_to_address (hash : neoc_hash160_t) (buffer_size : Z)
  : M (list byte) unit :=
  let! d := lift (memcpy_from (hash160_data hash) NEOC_HASH160_SIZE) in
  let versioned := NEOC_ADDRESS_VERSION :: reverse d in
  match neoc_base58_check_encode_alloc junk (Some versioned) (1 + NEOC_HASH160_SIZE) with
  | Err _ => fail NEOC_ERROR_INVALID_FORMAT
  | Fault => fault
  | Ok address =>
      if buffer_size <=? zlen address then fail NEOC_ERROR_BUFFER_TOO_SMALL
      else store 0 (address ++ [Byte.x00])
  end.

Definition neoc_hash160_from_script (script : option (list byte)) (script_length : Z)
  : res neoc_hash160_t :=
  match script with
  | None => Err NEOC_ERROR_NULL_POINTER
  | Some _ =>
      let? hash_result := neoc_hash160 script script_length in
      Ok (mk_hash160 (reverse hash_result))
  end.

Definition neoc_hash160_from_script_hex (script_hex : option (list byte))
  : res neoc_hash160_t :=
  match script_hex with
  | None => Err NEOC_ERROR_NULL_POINTER
  | Some _ =>
      match neoc_hex_decode_alloc junk script_hex with
      | Err _ => Err NEOC_ERROR_INVALID_HEX
      | Fault => Fault
      | Ok script => neoc_hash160_from_script (Some script) (zlen script)
      end
  end.

Definition neoc_hash160_serialize (hash : neoc_hash160_t) : Wr unit :=
  neoc_binary_writer_write_bytes (Some (hash160_data hash)) NEOC_HASH160_SIZE.

Definition neoc_hash160_deserialize : Rd neoc_hash160_t :=
  let! d := neoc_binary_reader_read_bytes NEOC_HASH160_SIZE in ret (mk_hash160 d).

End Hash160.

(** ** Hash256 *)

Definition decode_exact_hex_256 (hex_string : option (list byte)) : M (list byte) unit :=
  match hex_string with
  | None => fail NEOC_ERROR_NULL_POINTER
  | Some s =>
      let digits := neoc_hex_skip_prefix s in
      let digits_len := zlen digits in
      if digits_len =? 0 then fail NEOC_ERROR_INVALID_ARGUMENT
      else if negb (forallb neoc_hex_is_valid_char digits) then fail NEOC_ERROR_INVALID_HEX
      else
        let required_chars := NEOC_HASH256_SIZE * 2 in
        let odd_length := negb (digits_len mod 2 =? 0) in
        let padded_len := digits_len + (if odd_length then 1 else 0) in
        if required_chars <? padded_len then fail NEOC_ERROR_BUFFER_TOO_SMALL
        else if padded_len <? required_chars then fail NEOC_ERROR_INVALID_ARGUMENT
        else
          let normalized := if odd_length then Byte.x30 :: digits else digits in
          fun output =>
            match neoc_hex_decode (Some normalized) NEOC_HASH256_SIZE output with
            | (Ok decoded_length, output) =>
                if negb (decoded_length =? NEOC_HASH256_SIZE) then
                  (Err (if decoded_length <? NEOC_HASH256_SIZE then NEOC_ERROR_INVALID_ARGUMENT
                        else NEOC_ERROR_BUFFER_TOO_SMALL), output)
                else (Ok tt, output)
            | (Err NEOC_ERROR_INVALID_FORMAT, output) => (Err NEOC_ERROR_INVALID_HEX, output)
            | (Err e, output) => (Err e, output)
            | (Fault, output) => (Fault, output)
            end
  end.

Definition neoc_hash256_init_zero : neoc_hash256_t := mk_hash256 (replicate 32 Byte.x00).

Definition neoc_hash256_from_bytes (data : option (list byte)) : res neoc_hash256_t :=
  match data with
  | None => Err NEOC_ERROR_NULL_POINTER
  | Some data => let? d := memcpy_from data NEOC_HASH256_SIZE in Ok (mk_hash256 d)
  end.

Definition neoc_hash256_from_data (data : option (list byte)) (length : Z)
  : res neoc_hash256_t :=
  match data with
  | None => Err NEOC_ERROR_NULL_POINTER
  | Some data =>
      if negb (length =? NEOC_HASH256_SIZE) then Err NEOC_ERROR_INVALID_ARGUMENT
      else let? d := memcpy_from data NEOC_HASH256_SIZE in Ok (mk_hash256 d)
  end.

Definition neoc_hash256_from_hex (hex_string : option (list byte)) : M neoc_hash256_t unit :=
  match hex_string with
  | None => fail NEOC_ERROR_NULL_POINTER
  | Some _ => fun hash =>
      let '(r, data) := decode_exact_hex_256 hex_string (hash256_data hash) in
      (r, mk_hash256 data)
  end.

Definition neoc_hash256_from_data_hash `{Crypto} (data : option (list byte)) (data_length : Z)
  : res neoc_hash256_t :=
  match data with
  | None => Err NEOC_ERROR_NULL_POINTER
  | Some _ => let? h := neoc_hash256 data data_length in Ok (mk_hash256 h)
  end.

Definition neoc_hash256_from_data_double_hash `{Crypto} (data : option (list byte))
    (data_length : Z) : res neoc_hash256_t :=
  match data with
  | None => Err NEOC_ERROR_NULL_POINTER
  | Some _ => let? h := neoc_sha256_double data data_length in Ok (mk_hash256 h)
  end.

Definition neoc_hash256_copy (src : neoc_hash256_t) : res neoc_hash256_t :=
  let? d := memcpy_from (hash256_data src) NEOC_HASH256_SIZE in Ok (mk_hash256 d).

Definition neoc_hash256_to_bytes (hash : neoc_hash256_t) (buffer_size : Z)
  : M (list byte) unit :=
  if buffer_size <? NEOC_HASH256_SIZE then fail NEOC_ERROR_BUFFER_TOO_SMALL
  else let! d := lift (memcpy_from (hash256_data hash) NEOC_HASH256_SIZE) in store 0 d.

Definition neoc_hash256_to_little_endian_bytes (hash : neoc_hash256_t) (buffer_size : Z)
  : M (list byte) unit :=
  if buffer_size <? NEOC_HASH256_SIZE then fail NEOC_ERROR_BUFFER_TOO_SMALL
  else let! d := lift (memcpy_from (hash256_data hash) NEOC_HASH256_SIZE) in
       store 0 (reverse d).

Definition neoc_hash256_to_hex (hash : neoc_hash256_t) (buffer_size : Z) (uppercase : bool)
  : M (list byte) unit :=
  let required_size := neoc_hex_encode_buffer_size NEOC_HASH256_SIZE false in
  if buffer_size <? required_size then fail NEOC_ERROR_BUFFER_TOO_SMALL
  else neoc_hex_encode (Some (hash256_data hash)) NEOC_HASH256_SIZE buffer_size uppercase false.

Definition neoc_hash256_compare (a b : option neoc_hash256_t) : Z :=
  match a, b with
  | None, None => 0
  | Some _, None => 1
  | None, Some _ => -1
  | Some a, Some b => memcmp_loop (hash256_data a) (hash256_data b)
  end.

Definition neoc_hash256_equal (a b : option neoc_hash256_t) : bool :=
  neoc_hash256_compare a b =? 0.

Definition neoc_hash256_is_zero (hash : option neoc_hash256_t) : bool :=
  match hash with
  | None => false
  | Some _ => neoc_hash256_equal hash (Some NEOC_HASH256_ZERO_VALUE)
  end.

Definition neoc_hash256_serialize `{Allocator} (hash : neoc_hash256_t) : Wr unit :=
  neoc_binary_writer_write_bytes (Some (hash256_data hash)) NEOC_HASH256_SIZE.

Definition neoc_hash256_deserialize : Rd neoc_hash256_t :=
  let! d := neoc_binary_reader_read_bytes NEOC_HASH256_SIZE in ret (mk_hash256 d).

Definition neoc_hash256_serialized_size : Z := NEOC_HASH256_SIZE.

Definition neoc_hash256_from_string (s : option (list byte)) : M neoc_hash256_t unit :=
  match s with
  | None => fail NEOC_ERROR_NULL_POINTER
  | Some s =>
      let hex_str := neoc_hex_skip_prefix s in
      if negb (zlen hex_str =? 64) then fail NEOC_ERROR_INVALID_ARGUMENT
      else neoc_hash256_from_hex (Some hex_str)
  end.

Definition neoc_hash256_to_string (hash : neoc_hash256_t) (buffer_size : Z)
  : M (list byte) unit :=
  if buffer_size <? 65 then fail NEOC_ERROR_BUFFER_TOO_SMALL
  else neoc_hash256_to_hex hash buffer_size false.

(** ** Lemmas *)

(** ** Hashes in local buffers *)

Lemma hash160_le_buffer h :
  zlen (hash160_data h) = 20 ->
  local_buffer 20 (neoc_hash160_to_little_endian_bytes h 20) = Ok (reverse (hash160_data h)).
Proof.
  intros Hl. rewrite <- (local_buffer_store 20) by (rewrite zlen_reverse; done).
  unfold local_buffer, neoc_hash160_to_little_endian_bytes, NEOC_HASH160_SIZE. cmps.
  rewrite memcpy_from_all by done. rewrite bind_lift. done.
Qed.

Lemma hash160_be_buffer h :
  zlen (hash160_data h) = 20 ->
  local_buffer 20 (neoc_hash160_to_bytes h 20) = Ok (hash160_data h).
Proof.
  intros Hl. rewrite <- (local_buffer_store 20 (hash160_data h)) by done.
  unfold local_buffer, neoc_hash160_to_bytes, NEOC_HASH160_SIZE. cmps.
  rewrite memcpy_from_all by done. rewrite bind_lift. done.
Qed.

Lemma hash256_le_buffer h :
  zlen (hash256_data h) = 32 ->
  local_buffer 32 (neoc_hash256_to_little_endian_bytes h 32) = Ok (reverse (hash256_data h)).
Proof.
  intros Hl. rewrite <- (local_buffer_store 32) by (rewrite zlen_reverse; done).
  unfold local_buffer, neoc_hash256_to_little_endian_bytes, NEOC_HASH256_SIZE. cmps.
  rewrite memcpy_from_all by done. rewrite bind_lift. done.
Qed.

Lemma hash256_be_buffer h :
  zlen (hash256_data h) = 32 ->
  local_buffer 32 (neoc_hash256_to_bytes h 32) = Ok (hash256_data h).
Proof.
  intros Hl. rewrite <- (local_buffer_store 32 (hash256_data h)) by done.
  unfold local_buffer, neoc_hash256_to_bytes, NEOC_HASH256_SIZE. cmps.
  rewrite memcpy_from_all by done. rewrite bind_lift. done.
Qed.

Lemma memcmp_zero a b : length a = length b -> memcmp_loop a b = 0 <-> a = b.
Proof.
  revert b. induction a as [|x a IH]; intros [|y b] Hl; try done.
  cbn [memcmp_loop]. destruct (Z_of_byte x <? Z_of_byte y) eqn:E1; bdestruct.
  { split; [done|]. intros [= -> _]. lia. }
  destruct (Z_of_byte y <? Z_of_byte x) eqn:E2; bdestruct.
  { split; [done|]. intros [= -> _]. lia. }
  assert (x = y) as -> by (apply Z_of_byte_inj; lia).
  rewrite IH by (cbn in Hl; lia). split; [intros ->; done|intros [=]; done].
Qed.

(** Lexicographic order of byte strings. *)
Fixpoint lex (a b : list byte) : Z :=
  match a, b with
  | [], [] => 0
  | [], _ => -1
  | _, [] => 1
  | x :: a, y :: b =>
      if Z_of_byte x <? Z_of_byte y then -1
      else if Z_of_byte y <? Z_of_byte x then 1
      else lex a b
  end.

Lemma lex_refl a b : lex a b = 0 <-> a = b.
Proof.
  revert b. induction a as [|x a IH]; intros [|y b]; cbn [lex]; try done.
  destruct (_ <? _) eqn:E1; bdestruct; [split; [done|]; intros [= -> ->]; lia|].
  destruct (_ <? _) eqn:E2; bdestruct; [split; [done|]; intros [= -> ->]; lia|].
  rewrite IH. split; [|by intros [= -> ->]]. intros ->. f_equal. apply Z_of_byte_inj. lia.
Qed.

Lemma lex_opp a b : lex b a = - lex a b.
Proof.
  revert b. induction a as [|x a IH]; intros [|y b]; cbn [lex]; try done.
  destruct (Z_of_byte x <? Z_of_byte y) eqn:E1, (Z_of_byte y <? Z_of_byte x) eqn:E2;
    bdestruct; try lia. apply IH.
Qed.

Lemma lex_trans a b c : lex a b <= 0 -> lex b c <= 0 -> lex a c <= 0.
Proof.
  revert b c. induction a as [|x a IH]; intros [|y b] [|z c]; cbn [lex]; try lia.
  repeat (destruct (_ <? _) eqn:?; bdestruct); try lia. apply IH.
Qed.

(** [memcmp] of the common front, then the lengths. *)
Lemma lex_front x : forall y n, n = Nat.min (length x) (length y) ->
  lex x y = let r := memcmp_loop (take n x) (take n y) in
    if negb (r =? 0) then r else if (length x <? length y)%nat then -1 else if (length y <? length x)%nat then 1 else 0.
Proof.
  induction x as [|a x IH]; intros [|b y] n ->; [done..|]. cbn [length Nat.min take memcmp_loop lex].
  destruct (Z.ltb_spec (Z_of_byte a) (Z_of_byte b)); [done|]. destruct (Z.ltb_spec (Z_of_byte b) (Z_of_byte a)); [done|].
  apply IH. done.
Qed.

Lemma hash160_equal_spec a b :
  hash160_ok a -> hash160_ok b ->
  neoc_hash160_equal (Some a) (Some b) = bool_decide (a = b).
Proof.
  unfold hash160_ok, zlen. intros Ha Hb. unfold neoc_hash160_equal, neoc_hash160_compare.
  pose proof (memcmp_zero (hash160_data a) (hash160_data b) ltac:(lia)) as Hm.
  destruct a as [a], b as [b]. cbn in *. destruct (_ =? 0) eqn:E; bdestruct; symmetry.
  - apply bool_decide_eq_true. f_equal. by apply Hm.
  - apply bool_decide_eq_false. intros [= ->]. apply E, Hm. done.
Qed.

(** The text [decode_exact_hex] hands to the decoder. *)
Definition normalized (s : list byte) : list byte :=
  let digits := neoc_hex_skip_prefix s in
  if negb (zlen digits mod 2 =? 0) then Byte.x30 :: digits else digits.

(** The outcome of [decode_exact_hex] for every string: which error, or the bytes. *)
Definition exact_hex (n : Z) (s : list byte) : res (list byte) :=
  let digits := neoc_hex_skip_prefix s in
  if zlen digits =? 0 then Err NEOC_ERROR_INVALID_ARGUMENT
  else if negb (forallb neoc_hex_is_valid_char digits) then Err NEOC_ERROR_INVALID_HEX
  else if n * 2 <? zlen (normalized s) then Err NEOC_ERROR_BUFFER_TOO_SMALL
  else if zlen (normalized s) <? n * 2 then Err NEOC_ERROR_INVALID_ARGUMENT
  else match of_hex (normalized s) with Some bs => Ok bs | None => Fault end.

Lemma valid_no_prefix s :
  forallb neoc_hex_is_valid_char s = true -> neoc_hex_skip_prefix s = s.
Proof.
  intros Hv. unfold neoc_hex_skip_prefix.
  destruct s as [|c0 [|c1 s]]; [done|done|]. cbn [forallb] in Hv. bdestruct.
  assert (has_0x (c0 :: c1 :: s) = false) as ->; [|done].
  cbn [has_0x]. apply andb_false_intro2.
  match goal with H : neoc_hex_is_valid_char c1 = true |- _ => revert H end.
  unfold neoc_hex_is_valid_char. cbv zeta. intros Hc.
  apply orb_false_iff. split; apply Z.eqb_neq; intros E; rewrite E in Hc; done.
Qed.

Lemma exact_hex_spec n s output :
  0 < n < 2 ^ 32 -> zlen output = n ->
  exists output', zlen output' = n /\
    decode_exact_hex (Some s) n output =
    (let? bs := exact_hex n s in Ok tt,
     match exact_hex n s with Ok bs => bs | _ => output' end) /\
    exact_hex n s <> Fault.
Proof.
  intros Hn Ho. unfold decode_exact_hex, exact_hex, normalized. cbv zeta.
  set (digits := neoc_hex_skip_prefix s). pose proof (zlen_nonneg digits).
  exists output. split; [done|].
  destruct (zlen digits =? 0); [done|].
  destruct (forallb neoc_hex_is_valid_char digits) eqn:Ev; cbn [negb]; [|done].
  rewrite wrap_small by lia.
  set (text := if negb (zlen digits mod 2 =? 0) then Byte.x30 :: digits else digits).
  assert (zlen digits + (if negb (zlen digits mod 2 =? 0) then 1 else 0) = zlen text) as ->.
  { unfold text. destruct (negb _); [rewrite zlen_cons|]; lia. }
  destruct (n * 2 <? zlen text) eqn:E1; [done|].
  destruct (zlen text <? n * 2) eqn:E2; [done|]. bdestruct.
  assert (forallb neoc_hex_is_valid_char text = true) as Hvt.
  { unfold text. destruct (negb _); [|done]. cbn [forallb]. rewrite Ev. done. }
  assert (zlen text = n * 2) as Hl by lia.
  destruct (proj2 (of_hex_valid text)) as [bs Hbs].
  { split; [rewrite Hl; dlia|done]. }
  pose proof (length_of_hex _ _ Hbs) as Hlen. rewrite Hl, Z.div_mul in Hlen by lia.
  pose proof (hex_decode_spec text n output Ho) as Hd.
  rewrite (valid_no_prefix text Hvt), Hbs in Hd. rewrite Hd by (rewrite Hl, Z.div_mul; lia).
  rewrite Hlen, Z.eqb_refl, Hbs. cbn [negb rbind]. split; [|done]. f_equal.
  rewrite drop_ge, app_nil_r; [done|]. unfold zlen in *. lia.
Qed.

Lemma exact_hex_256 s output :
  decode_exact_hex_256 (Some s) output = decode_exact_hex (Some s) 32 output.
Proof. reflexivity. Qed.

(** The hex text of exactly [n] bytes reads back as those bytes. *)
Lemma exact_hex_of up n bs :
  zlen bs = n -> 0 < n -> exact_hex n (hex_of up bs) = Ok bs.
Proof.
  intros Hl Hn. unfold exact_hex, normalized. cbv zeta.
  rewrite skip_prefix_hex_of, length_hex_of, Hl.
  replace (2 * n mod 2) with 0 by (rewrite Z.mul_comm, Z.mod_mul; lia).
  change (negb (0 =? 0)) with false. cbv iota. rewrite of_hex_of, length_hex_of, Hl.
  destruct (proj1 (of_hex_valid (hex_of up bs))) as [_ ->]; [eexists; apply of_hex_of|].
  cmps. done.
Qed.

(** Hex text of the hashes: what [to_hex] writes, in either case, [from_hex]
    reads back, for Hash160 and for Hash256. *)
Theorem hash_hex_roundtrip (h h0 : neoc_hash160_t) (k k0 : neoc_hash256_t)
    (buf buf2 : list byte) (uppercase : bool) :
  hash160_ok h -> hash160_ok h0 -> hash256_ok k -> hash256_ok k0 ->
  41 <= zlen buf < 2 ^ 63 -> 65 <= zlen buf2 < 2 ^ 63 ->
  let '(r, text) := neoc_hash160_to_hex h (zlen buf) uppercase buf in
  let '(r2, text2) := neoc_hash256_to_hex k (zlen buf2) uppercase buf2 in
  r = Ok tt /\ neoc_hash160_from_hex (Some (cstring text)) h0 = (Ok tt, h) /\
  r2 = Ok tt /\ neoc_hash256_from_hex (Some (cstring text2)) k0 = (Ok tt, k).
Proof.
  unfold hash160_ok, hash256_ok. intros Hh Hh0 Hk Hk0 Hb Hb2.
  unfold neoc_hash160_to_hex, neoc_hash256_to_hex. cbv zeta.
  change (neoc_hex_encode_buffer_size NEOC_HASH160_SIZE false) with 41.
  change (neoc_hex_encode_buffer_size NEOC_HASH256_SIZE false) with 65.
  unfold NEOC_HASH160_SIZE, NEOC_HASH256_SIZE in *. cmps. rewrite <- Hh, <- Hk.
  destruct (hex_encode_spec (hash160_data h) (zlen buf) uppercase false buf)
    as (rest & -> & _); [done|rewrite zlen_prefix; lia|].
  destruct (hex_encode_spec (hash256_data k) (zlen buf2) uppercase false buf2)
    as (rest2 & -> & _); [done|rewrite zlen_prefix; lia|].
  cbn [prefix_0x app]. rewrite !cstring_app by apply hex_of_chars.
  unfold neoc_hash160_from_hex, neoc_hash256_from_hex.
  destruct (exact_hex_spec 20 (hex_of uppercase (hash160_data h)) (hash160_data h0))
    as (? & _ & E1 & _); [lia|done|].
  destruct (exact_hex_spec 32 (hex_of uppercase (hash256_data k)) (hash256_data k0))
    as (? & _ & E2 & _); [lia|done|].
  unfold NEOC_HASH160_SIZE. rewrite exact_hex_256, E1, E2, !exact_hex_of by (done || lia).
  destruct h, k. done.
Qed.

Definition sample160 : neoc_hash160_t := mk_hash160 (le_bytes 20 0x123456789).
Definition sample256 : neoc_hash256_t := mk_hash256 (le_bytes 32 0xabcdef).

Lemma hash_hex_roundtrip_witness :
  let buf := replicate 65 Byte.xcd in
  let '(_, text) := neoc_hash160_to_hex sample160 65 true buf in
  neoc_hash160_from_hex (Some (cstring text)) NEOC_HASH160_ZERO_VALUE = (Ok tt, sample160).
Proof.
  pose proof (hash_hex_roundtrip sample160 NEOC_HASH160_ZERO_VALUE sample256
    NEOC_HASH256_ZERO_VALUE (replicate 65 Byte.xcd) (replicate 65 Byte.xcd) true
    eq_refl eq_refl eq_refl eq_refl ltac:(vm_compute; split; [discriminate|reflexivity])
    ltac:(vm_compute; split; [discriminate|reflexivity])) as H.
  cbv zeta. change (zlen (replicate 65 Byte.xcd)) with 65 in H.
  destruct (neoc_hash160_to_hex _ _ _ _) as [r text].
  destruct (neoc_hash256_to_hex _ _ _ _) as [r2 text2]. apply H.
Defined.

(** Parsing untrusted hash text: for every C string [from_hex] either fills the
    hash with exactly the bytes the digits denote (an odd number of digits gets a
    leading zero) or reports the error [exact_hex] names; it never faults. *)
Theorem hash160_from_hex_untrusted (s : list byte) (h : neoc_hash160_t) :
  hash160_ok h ->
  let '(r, h') := neoc_hash160_from_hex (Some s) h in
  hash160_ok h' /\
  match exact_hex 20 s with
  | Ok bs => r = Ok tt /\ h' = mk_hash160 bs
  | Err e => r = Err e
  | Fault => False
  end.
Proof.
  intros Hh. unfold neoc_hash160_from_hex, hash160_ok, NEOC_HASH160_SIZE in *.
  destruct (exact_hex_spec 20 s (hash160_data h)) as (o & Ho & -> & Hf); [lia|done|].
  destruct (exact_hex 20 s) as [bs|e|] eqn:E; cbn [rbind hash160_data]; try done.
  split; [|done]. unfold exact_hex in E. cbv zeta in E.
  do 4 (destruct (_ : bool) eqn:? in E; [done|]). bdestruct.
  destruct (of_hex (normalized s)) as [bs'|] eqn:Eh; [|done]. injection E as <-.
  rewrite (length_of_hex _ _ Eh). dlia.
Qed.

Lemma hash160_from_hex_untrusted_witness :
  fst (neoc_hash160_from_hex (Some (str "0x12")) NEOC_HASH160_ZERO_VALUE)
  = Err NEOC_ERROR_INVALID_ARGUMENT.
Proof.
  pose proof (hash160_from_hex_untrusted (str "0x12") NEOC_HASH160_ZERO_VALUE eq_refl) as H.
  destruct (neoc_hash160_from_hex _ _) as [r h']. apply H.
Defined.

(** ** Addresses *)

Section Addresses.
Context `{Allocator} `{Crypto}.
Variable junk : byte.
Hypothesis Hw : crypto_works.
Hypothesis Hheap : heap_serves 64.

Lemma to_address_text h buf :
  hash160_ok h -> 36 <= zlen buf ->
  exists c s, neoc_sha256_double (Some (NEOC_ADDRESS_VERSION :: reverse (hash160_data h))) 21 = Ok c /\
    length c = 32%nat /\
    text_of ((NEOC_ADDRESS_VERSION :: reverse (hash160_data h)) ++ take 4 c) s /\
    neoc_hash160_to_address junk h (zlen buf) buf =
    (Ok tt, s ++ Byte.x00 :: drop (S (length s)) buf).
Proof.
  unfold hash160_ok, NEOC_HASH160_SIZE. intros Hh Hb.
  set (v := NEOC_ADDRESS_VERSION :: reverse (hash160_data h)).
  assert (zlen v = 21) as Hv by (unfold v; rewrite zlen_cons, zlen_reverse; lia).
  destruct (sha256_double_ok Hw v) as (c & Ec & Hc). rewrite Hv in Ec.
  destruct (check_encode_alloc_text junk v c) as (s & Ht & Es);
    [rewrite Hv; done|done|lia|eapply heap_serves_mono; [done|lia]|].
  exists c, s. split_and!; [done|done|done|].
  unfold neoc_hash160_to_address. rewrite memcpy_from_all, bind_lift by done. cbv zeta.
  fold v. change (1 + NEOC_HASH160_SIZE) with 21. rewrite Hv in Es. rewrite Es.
  assert (zlen s + 1 <= 36) as Hs.
  { assert (zlen (v ++ take 4 c) = 25) as H25.
    { rewrite zlen_app, Hv. unfold zlen. rewrite length_take. lia. }
    pose proof (text_length (v ++ take 4 c) s ltac:(done) ltac:(lia) Ht) as Hl.
    rewrite H25 in Hl. exact Hl. }
  cmps. rewrite store_first by (rewrite zlen_app; change (zlen [_]) with 1; lia).
  rewrite <- app_assoc, length_app. cbn [app length].
  replace (length s + 1)%nat with (S (length s)) by lia. done.
Qed.

(** [s] is the address of [h]: the Base58 text of version, reversed hash and checksum. *)
Definition address_of (h : neoc_hash160_t) (s : list byte) : Prop :=
  exists c, neoc_sha256_double (Some (NEOC_ADDRESS_VERSION :: reverse (hash160_data h))) 21 = Ok c /\
    length c = 32%nat /\ text_of ((NEOC_ADDRESS_VERSION :: reverse (hash160_data h)) ++ take 4 c) s.

Lemma address_of_no_nul h s : address_of h s -> Forall (fun c => c <> Byte.x00) s.
Proof. intros (c & _ & _ & Ht). by eapply text_no_nul. Qed.

Lemma address_of_length h s : hash160_ok h -> address_of h s -> 0 <= zlen s <= 35.
Proof.
  unfold hash160_ok, NEOC_HASH160_SIZE. intros Hh (c & _ & Hc & Ht). split; [apply zlen_nonneg|].
  set (v := (NEOC_ADDRESS_VERSION :: reverse (hash160_data h)) ++ take 4 c) in *.
  assert (zlen v = 25) as H25.
  { unfold v. rewrite zlen_app, zlen_cons, zlen_reverse. unfold zlen at 2. rewrite length_take. lia. }
  pose proof (text_length v s ltac:(discriminate) ltac:(lia) Ht) as Hl. rewrite H25 in Hl.
  change (neoc_base58_encode_buffer_size 25) with 36 in Hl. lia.
Qed.

Lemma to_address_ok h buf :
  hash160_ok h -> 36 <= zlen buf ->
  exists s, address_of h s /\
    neoc_hash160_to_address junk h (zlen buf) buf = (Ok tt, s ++ Byte.x00 :: drop (S (length s)) buf).
Proof.
  intros Hh Hb. destruct (to_address_text h buf Hh Hb) as (c & s & Ec & Hc & Ht & E).
  exists s. split; [by exists c|done].
Qed.

Lemma from_address_of h s :
  hash160_ok h -> address_of h s -> neoc_hash160_from_address junk (Some s) = Ok h.
Proof.
  unfold hash160_ok, NEOC_HASH160_SIZE. intros Hh (c & Ec & Hc & Ht).
  unfold neoc_hash160_from_address.
  set (v := NEOC_ADDRESS_VERSION :: reverse (hash160_data h)) in *.
  assert (zlen v = 21) as Hv by (unfold v; rewrite zlen_cons, zlen_reverse; lia).
  rewrite (check_decode_alloc_text junk v c s); try done.
  - rewrite Hv. change (21 <? 4) with false. cbv iota. rewrite Hv.
    change (negb (21 =? 1 + NEOC_HASH160_SIZE)) with false. cbv iota. unfold v.
    rewrite Z.eqb_refl, reverse_involutive. destruct h. done.
  - rewrite Hv. done.
  - lia.
  - eapply heap_serves_mono; [done|lia].
Qed.

(** C10.  Address round trip: the address written for any script hash is read back as
    that hash. *)
Theorem address_roundtrip (h : neoc_hash160_t) (buf : list byte) :
  hash160_ok h -> 64 <= zlen buf ->
  let '(r, text) := neoc_hash160_to_address junk h (zlen buf) buf in
  r = Ok tt /\ neoc_hash160_from_address junk (Some (cstring text)) = Ok h.
Proof.
  intros Hh Hb. destruct (to_address_ok h buf Hh ltac:(lia)) as (s & Hs & ->).
  split; [done|]. rewrite cstring_app by (by eapply address_of_no_nul). by apply from_address_of.
Qed.

(** Addresses are canonical and verified: a string accepted by [from_address] is
    exactly the address [to_address] writes for the hash, so version byte, length,
    checksum and spelling are all determined by the hash. *)
Theorem address_canonical (s buf : list byte) (h : neoc_hash160_t) :
  Forall (fun c => c <> Byte.x00) s -> zlen s <= 63 -> 64 <= zlen buf ->
  neoc_hash160_from_address junk (Some s) = Ok h ->
  hash160_ok h /\
  let '(r, text) := neoc_hash160_to_address junk h (zlen buf) buf in
  r = Ok tt /\ cstring text = s.
Proof.
  intros Hs Hl Hb. unfold neoc_hash160_from_address.
  destruct (neoc_base58_check_decode_alloc junk (Some s)) as [decoded|e|] eqn:Ed; [|done..].
  destruct (zlen decoded =? _) eqn:E21; cbn [negb]; [|done]. bdestruct.
  destruct decoded as [|version rest]; [done|].
  destruct (Z_of_byte version =? _) eqn:Ev; cbn [negb]; [|done]. bdestruct.
  apply Z_of_byte_inj in Ev as ->. intros [= <-].
  unfold NEOC_HASH160_SIZE in E21. rewrite zlen_cons in E21.
  destruct (check_decode_alloc_inv junk s (NEOC_ADDRESS_VERSION :: rest) Hw Hs) as (c & Ec & Hc & Hbytes);
    [lia|eapply heap_serves_mono; [done|lia]|exact Ed|].
  assert (hash160_ok (mk_hash160 (reverse rest))) as Hok.
  { unfold hash160_ok, NEOC_HASH160_SIZE. cbn. rewrite zlen_reverse. lia. }
  split; [done|].
  destruct (to_address_text _ buf Hok ltac:(lia)) as (c' & s' & Ec' & Hc' & Ht & ->).
  cbn [hash160_data] in *. rewrite reverse_involutive in *.
  assert (zlen (NEOC_ADDRESS_VERSION :: rest) = 21) as E' by (rewrite zlen_cons; lia).
  rewrite E' in Ec.
  assert (c' = c) as -> by congruence. split; [done|].
  rewrite cstring_app by (by eapply text_no_nul). by eapply bytes_text.
Qed.
End Addresses.

#[local] Existing Instance mib_heap.
#[local] Existing Instance toy_crypto.

Lemma address_roundtrip_witness :
  let '(r, text) := neoc_hash160_to_address Byte.xcd sample160 64 (replicate 64 Byte.xcd) in
  r = Ok tt /\ neoc_hash160_from_address Byte.xcd (Some (cstring text)) = Ok sample160.
Proof.
  apply (address_roundtrip Byte.xcd toy_crypto_works
    (mib_heap_serves 64 ltac:(vm_compute; discriminate)) sample160 (replicate 64 Byte.xcd)).
  - reflexivity.
  - vm_compute. discriminate.
Defined.

(** The address of [sample160] in the toy library. *)
Definition sample_address : list byte :=
  cstring (snd (neoc_hash160_to_address Byte.xcd sample160 64 (replicate 64 Byte.xcd))).

Lemma address_canonical_witness :
  let '(r, text) := neoc_hash160_to_address Byte.xcd sample160 64 (replicate 64 Byte.x00) in
  r = Ok tt /\ cstring text = sample_address.
Proof.
  apply (address_canonical Byte.xcd toy_crypto_works
    (mib_heap_serves 64 ltac:(vm_compute; discriminate)) sample_address
    (replicate 64 Byte.x00) sample160).
  - apply (bool_decide_eq_true_1 _). vm_compute. reflexivity.
  - vm_compute. discriminate.
  - vm_compute. discriminate.
  - vm_compute. reflexivity.
Defined.

(** ** Hashes in the binary stream: instances of the serialization contract *)

Lemma hash160_serialize_writes `{Allocator} h :
  hash160_ok h -> writes (neoc_hash160_serialize h) (hash160_data h).
Proof. unfold hash160_ok. intros Hh. unfold neoc_hash160_serialize. rewrite <- Hh. apply write_bytes_writes. Qed.

Lemma hash160_deserialize_reads h :
  hash160_ok h -> reads neoc_hash160_deserialize (hash160_data h) h.
Proof.
  unfold hash160_ok. intros Hh. eapply reads_ret_bind; [rewrite <- Hh; apply read_bytes_reads|].
  by destruct h.
Qed.

Lemma hash256_serialize_writes `{Allocator} h :
  hash256_ok h -> writes (neoc_hash256_serialize h) (hash256_data h).
Proof. unfold hash256_ok. intros Hh. unfold neoc_hash256_serialize. rewrite <- Hh. apply write_bytes_writes. Qed.

Lemma hash256_deserialize_reads h :
  hash256_ok h -> reads neoc_hash256_deserialize (hash256_data h) h.
Proof.
  unfold hash256_ok. intros Hh. eapply reads_ret_bind; [rewrite <- Hh; apply read_bytes_reads|].
  by destruct h.
Qed.
