(* ===== verification/Bytes.v ===== *)
(** * Byte and number utilities (src/utils/neoc_bytes.c, src/utils/numeric.c)

    Reversal, padding, trimming and exclusive or of byte buffers, the two codecs for sizes of variable
    length, integers as bytes in both orders, and numbers.

    A caller's buffer is the state of the computation that fills it; a block that is allocated is the result.
    The pointers are not NULL: the tests for NULL in front of the functions are left out.
    The clock of [neoc_numeric_current_time_millis] is not modelled. *)

From S2P Require Import Prelude BinaryWriter Crypto Hex Base58 Hashes.

(** ** Operations *)

(** The indices of a loop [for (i = 0; i < n; i++)]. *)
Definition indices (n : Z) : list Z := map Z.of_nat (seq 0 (Z.to_nat n)).

(** A read [data[i]], and one of the buffer that is being filled. *)
Definition at_index (data : list byte) (i : Z) : res byte :=
  match buf_get data i with Some b => Ok b | None => Fault end.

Definition fetch (i : Z) : M (list byte) byte := fun buf => (at_index buf i, buf).

(** [while (start < end)] with a swap in each turn; one turn for each unit of fuel. *)
Fixpoint reverse_loop (fuel : nat) (start end_ : Z) : M (list byte) unit :=
  match fuel with
  | O => fault
  | S fuel =>
      if start <? end_ then
        let! temp := fetch start in
        let! other := fetch end_ in
        do! store start [other] in
        do! store end_ [temp] in
        reverse_loop fuel (start + 1) (end_ - 1)
      else ret tt
  end.

Definition neoc_bytes_reverse (length : Z) : M (list byte) unit :=
  if length <=? 1 then ret tt else reverse_loop (Z.to_nat length) 0 (length - 1).

(** [dst[i] = src[src_len - 1 - i]]. *)
Definition copy_reversed (src : list byte) (src_len : Z) : M (list byte) unit :=
  for_each (fun i => let! b := lift (at_index src (src_len - 1 - i)) in store i [b]) (indices src_len).

Definition neoc_bytes_reverse_copy (src : list byte) (src_len dst_len : Z) : M (list byte) unit :=
  if dst_len <? src_len then fail NEOC_ERROR_BUFFER_TOO_SMALL else copy_reversed src src_len.

Definition neoc_bytes_xor (lhs rhs : list byte) (length : Z) : M (list byte) unit :=
  for_each (fun i =>
    let! a := lift (at_index lhs i) in
    let! b := lift (at_index rhs i) in
    store i [byte_of_Z (Z.lxor (Z_of_byte a) (Z_of_byte b))]) (indices length).

(** The length of the front part without the bytes at the end. *)
Fixpoint trim_loop (src : list byte) (byte_value : byte) (effective_len : nat) : res nat :=
  match effective_len with
  | O => Ok O
  | S n =>
      let? last := at_index src (Z.of_nat n) in
      if Z_of_byte last =? Z_of_byte byte_value then trim_loop src byte_value n else Ok effective_len
  end.

(** *** Sizes of variable length *)

Definition neoc_bytes_var_size (value : Z) : Z :=
  if value <? 0xfd then 1 else if value <=? 0xffff then 3 else if value <=? 0xffffffff then 5 else 9.

(** [buffer[1 + i] = (uint8_t)((value >> (i * 8)) & 0xff)] for [n] bytes. *)
Definition put_le (n value : Z) : M (list byte) unit :=
  for_each (fun i => store (1 + i) [byte_of_Z (Z.land (Z.shiftr value (8 * i)) 0xff)]) (indices n).

Definition neoc_bytes_encode_var_size (value buffer_size : Z) : M (list byte) Z :=
  if value <? 0xfd then
    if buffer_size <? 1 then fail NEOC_ERROR_BUFFER_TOO_SMALL
    else do! store 0 [byte_of_Z value] in ret 1
  else if value <=? 0xffff then
    if buffer_size <? 3 then fail NEOC_ERROR_BUFFER_TOO_SMALL
    else do! store 0 [Byte.xfd] in do! put_le 2 value in ret 3
  else if value <=? 0xffffffff then
    if buffer_size <? 5 then fail NEOC_ERROR_BUFFER_TOO_SMALL
    else do! store 0 [Byte.xfe] in do! put_le 4 value in ret 5
  else
    if buffer_size <? 9 then fail NEOC_ERROR_BUFFER_TOO_SMALL
    else do! store 0 [Byte.xff] in do! put_le 8 value in ret 9.

(** [b << k] for a byte promoted to [int]: undefined when the result is no [int]. *)
Definition int_shift (b : byte) (k : Z) : res Z :=
  let v := Z.shiftl (Z_of_byte b) k in if v <? 2 ^ 31 then Ok v else Fault.

(** [result |= buffer[off + i] << (i * 8)] in 64 bits. *)
Fixpoint or_le (buffer : list byte) (off : Z) (idx : list Z) (result : Z) : res Z :=
  match idx with
  | [] => Ok result
  | i :: idx =>
      let? b := at_index buffer (off + i) in
      or_le buffer off idx (Z.lor result (wrap 64 (Z.shiftl (Z_of_byte b) (8 * i))))
  end.

(** The value and the number of bytes read. *)
Definition neoc_bytes_decode_var_size (buffer : list byte) (buffer_size : Z) : res (Z * Z) :=
  if buffer_size <? 1 then Err NEOC_ERROR_BUFFER_TOO_SMALL
  else
    let? first_byte := at_index buffer 0 in
    let first_byte := Z_of_byte first_byte in
    if first_byte <? 0xfd then Ok (first_byte, 1)
    else if first_byte =? 0xfd then
      if buffer_size <? 3 then Err NEOC_ERROR_BUFFER_TOO_SMALL
      else
        let? b1 := at_index buffer 1 in
        let? b2 := at_index buffer 2 in
        let? v2 := int_shift b2 8 in
        Ok (Z.lor (Z_of_byte b1) v2, 3)
    else if first_byte =? 0xfe then
      if buffer_size <? 5 then Err NEOC_ERROR_BUFFER_TOO_SMALL
      else
        let? b1 := at_index buffer 1 in
        let? b2 := at_index buffer 2 in
        let? v2 := int_shift b2 8 in
        let? b3 := at_index buffer 3 in
        let? v3 := int_shift b3 16 in
        let? b4 := at_index buffer 4 in
        let? v4 := int_shift b4 24 in
        Ok (Z.lor (Z.lor (Z.lor (Z_of_byte b1) v2) v3) v4, 5)
    else
      if buffer_size <? 9 then Err NEOC_ERROR_BUFFER_TOO_SMALL
      else let? v := or_le buffer 1 (indices 8) 0 in Ok (v, 9).

Definition neoc_byte_is_between_opcodes (byte op1 op2 : byte) : bool :=
  (Z_of_byte op1 <=? Z_of_byte byte) && (Z_of_byte byte <=? Z_of_byte op2).

(** *** Integers as bytes *)

Definition neoc_bytes_to_uint64_le (bytes : list byte) (length : Z) : res Z :=
  if 8 <? length then Err NEOC_ERROR_INVALID_ARGUMENT else or_le bytes 0 (indices length) 0.

Fixpoint or_be (bytes : list byte) (idx : list Z) (result : Z) : res Z :=
  match idx with
  | [] => Ok result
  | i :: idx =>
      let? b := at_index bytes i in or_be bytes idx (Z.lor (wrap 64 (Z.shiftl result 8)) (Z_of_byte b))
  end.

Definition neoc_bytes_to_uint64_be (bytes : list byte) (length : Z) : res Z :=
  if 8 <? length then Err NEOC_ERROR_INVALID_ARGUMENT else or_be bytes (indices length) 0.

Definition neoc_uint64_to_bytes_le (value length : Z) : M (list byte) unit :=
  if 8 <? length then fail NEOC_ERROR_INVALID_ARGUMENT
  else for_each (fun i => store i [byte_of_Z (Z.land (Z.shiftr value (8 * i)) 0xff)]) (indices length).

Definition neoc_uint64_to_bytes_be (value length : Z) : M (list byte) unit :=
  if 8 <? length then fail NEOC_ERROR_INVALID_ARGUMENT
  else for_each (fun i => store i [byte_of_Z (Z.land (Z.shiftr value (8 * (length - 1 - i))) 0xff)]) (indices length).

(** *** numeric.c *)

(** A product of two [int]s is undefined when it is no [int]. *)
Definition int_mul (a b : Z) : res Z :=
  let v := a * b in if (- 2 ^ 31 <=? v) && (v <? 2 ^ 31) then Ok v else Fault.

Fixpoint power_loop (n : nat) (base result : Z) : res Z :=
  match n with O => Ok result | S n => let? result := int_mul result base in power_loop n base result end.

Definition neoc_numeric_power (base power : Z) : res Z :=
  if power <? 0 then Ok 0 else power_loop (Z.to_nat power) base 1.

Definition neoc_numeric_var_size (value : Z) : Z :=
  if value <? 0xFD then 1 else if value <=? 0xFFFF then 3 else if value <=? 0xFFFFFFFF then 5 else 9.

Definition neoc_numeric_encode_var_size (value buffer_size : Z) : M (list byte) Z :=
  let needed := neoc_numeric_var_size value in
  if buffer_size <? needed then fail NEOC_ERROR_BUFFER_TOO_SMALL
  else
    do! (if value <? 0xFD then store 0 [byte_of_Z value]
         else if value <=? 0xFFFF then do! store 0 [Byte.xfd] in put_le 2 value
         else if value <=? 0xFFFFFFFF then do! store 0 [Byte.xfe] in put_le 4 value
         else do! store 0 [Byte.xff] in put_le 8 value) in
    ret needed.

Definition neoc_numeric_decode_var_size (buffer : list byte) (buffer_size : Z) : res (Z * Z) :=
  if buffer_size =? 0 then Err NEOC_ERROR_INVALID_LENGTH
  else
    let? prefix := at_index buffer 0 in
    let prefix := Z_of_byte prefix in
    if prefix <? 0xFD then Ok (prefix, 1)
    else if prefix =? 0xFD then
      if buffer_size <? 3 then Err NEOC_ERROR_INVALID_LENGTH
      else let? v := or_le buffer 1 (indices 2) 0 in Ok (v, 3)
    else if prefix =? 0xFE then
      if buffer_size <? 5 then Err NEOC_ERROR_INVALID_LENGTH
      else let? v := or_le buffer 1 (indices 4) 0 in Ok (v, 5)
    else
      if buffer_size <? 9 then Err NEOC_ERROR_INVALID_LENGTH
      else let? v := or_le buffer 1 (indices 8) 0 in Ok (v, 9).

Definition neoc_numeric_to_unsigned (value : Z) : Z := wrap 32 value.

(** The first byte of a [uint16_t] that is 1. *)
Definition neoc_numeric_is_little_endian : bool :=
  match le_bytes 2 1 with b :: _ => Z_of_byte b =? 1 | [] => false end.

(** [memset(value, 0, n)] *)
Definition zeros (n : Z) : list byte := replicate (Z.to_nat n) Byte.x00.

(** The [value_size] bytes at [value] are the integer in memory. *)
Definition neoc_numeric_from_bytes (bytes : list byte) (bytes_len value_size : Z) (little_endian_source : bool) : M (list byte) unit :=
  if (bytes_len =? 0) || (value_size =? 0) then fail NEOC_ERROR_INVALID_ARGUMENT
  else
    do! store 0 (zeros value_size) in
    let copy_len := if bytes_len <? value_size then bytes_len else value_size in
    if Bool.eqb little_endian_source neoc_numeric_is_little_endian then
      let! d := lift (memcpy_from bytes copy_len) in store 0 d
    else
      for_each (fun i => let! b := lift (at_index bytes i) in store (value_size - 1 - i) [b]) (indices copy_len).

Definition neoc_numeric_from_bytes_le (bytes : list byte) (bytes_len value_size : Z) : M (list byte) unit :=
  neoc_numeric_from_bytes bytes bytes_len value_size true.

Definition neoc_numeric_from_bytes_be (bytes : list byte) (bytes_len value_size : Z) : M (list byte) unit :=
  neoc_numeric_from_bytes bytes bytes_len value_size false.

(** The digits behind the point. *)
Fixpoint count_digits (s : list byte) : Z :=
  match s with c :: s => if is_digit c then 1 + count_digits s else 0 | [] => 0 end.

Fixpoint behind_dot (s : list byte) : option (list byte) :=
  match s with c :: s => if Z_of_byte c =? 46 then Some s else behind_dot s | [] => None end.

Definition neoc_numeric_get_decimal_scale (decimal_str : option (list byte)) : Z :=
  match decimal_str with
  | None => 0
  | Some s => match behind_dot s with None => 0 | Some digits => count_digits digits end
  end.

Section Blocks.
Context (junk : byte) `{Allocator}.

(** A block of [n] bytes that is filled in by [m]. *)
Definition fresh_block (n : Z) (m : M (list byte) unit) : res (list byte) :=
  match m (replicate (Z.to_nat n) junk) with
  | (Ok _, block) => Ok block
  | (Err e, _) => Err e
  | (Fault, _) => Fault
  end.

Definition neoc_bytes_pad (src : list byte) (src_len target_len : Z) (trailing : bool) : res (list byte) :=
  let? first := (if 0 <? src_len then at_index src 0 else Ok Byte.x01) in
  let src_offset := if (0 <? src_len) && (Z_of_byte first =? 0) then 1 else 0 in
  let effective_len := src_len - src_offset in
  if target_len <? effective_len then Err NEOC_ERROR_INVALID_ARGUMENT
  else if negb (neoc_malloc_ok target_len) then Err NEOC_ERROR_MEMORY
  else
    match buf_slice src src_offset effective_len with
    | None => Fault
    | Some d =>
        fresh_block target_len
          (if trailing then do! store 0 d in store effective_len (zeros (target_len - effective_len))
           else do! store 0 (zeros (target_len - effective_len)) in store (target_len - effective_len) d)
    end.

(** NULL when nothing is left. *)
Definition neoc_bytes_trim_trailing (src : list byte) (src_len : Z) (byte_value : byte) : res (option (list byte)) :=
  let? effective_len := trim_loop src byte_value (Z.to_nat src_len) in
  let effective_len := Z.of_nat effective_len in
  if effective_len =? 0 then Ok None
  else if negb (neoc_malloc_ok effective_len) then Err NEOC_ERROR_MEMORY
  else let? d := memcpy_from src effective_len in Ok (Some d).

Definition neoc_numeric_copy_bytes (value : list byte) (value_size : Z) (little_endian_target : bool) : res (list byte) :=
  if value_size =? 0 then Err NEOC_ERROR_INVALID_ARGUMENT
  else if negb (neoc_malloc_ok value_size) then Err NEOC_ERROR_MEMORY
  else if Bool.eqb neoc_numeric_is_little_endian little_endian_target then memcpy_from value value_size
  else fresh_block value_size (copy_reversed value value_size).

Definition neoc_numeric_to_bytes_le (value : list byte) (value_size : Z) : res (list byte) :=
  neoc_numeric_copy_bytes value value_size true.

Definition neoc_numeric_to_bytes_be (value : list byte) (value_size : Z) : res (list byte) :=
  neoc_numeric_copy_bytes value value_size false.

Fixpoint skip_zeros (decoded : list byte) : list byte :=
  match decoded with b :: rest => if Z_of_byte b =? 0 then skip_zeros rest else decoded | [] => [] end.

Definition neoc_numeric_bigint_to_padded_bytes (big_int_hex : list byte) (target_length : Z) : res (list byte) :=
  if target_length =? 0 then Err NEOC_ERROR_INVALID_ARGUMENT
  else
    match neoc_hex_decode_alloc junk (Some big_int_hex) with
    | Fault => Fault
    | Err _ => Err NEOC_ERROR_INVALID_FORMAT
    | Ok decoded =>
        let useful := skip_zeros decoded in
        let useful_len := zlen useful in
        if target_length <? useful_len then Err NEOC_ERROR_INVALID_SIZE
        else if negb (neoc_malloc_ok target_length) then Err NEOC_ERROR_MEMORY
        else
          match store (target_length - useful_len) useful (zeros target_length) with
          | (Ok _, output) => Ok output
          | (Err e, _) => Err e
          | (Fault, _) => Fault
          end
    end.
End Blocks.

Section Addresses.
Context `{Allocator} `{Crypto}.

Definition neoc_bytes_script_hash_to_address (script_hash : list byte) (address_version : byte) (address_size : Z) : M (list byte) unit :=
  let! h := lift (memcpy_from script_hash 20) in
  let script := address_version :: reverse h in
  let! hash := lift (neoc_sha256_double (Some script) 21) in
  let! checksum := lift (memcpy_from hash 4) in
  neoc_base58_encode (Some (script ++ checksum)) 25 address_size.
End Addresses.

(** ** Loops that fill a buffer *)

Lemma indices_length n : length (indices n) = Z.to_nat n.
Proof. unfold indices. by rewrite length_map, length_seq. Qed.

Lemma indices_nat n : indices (Z.of_nat n) = map Z.of_nat (seq 0 n).
Proof. unfold indices. by rewrite Nat2Z.id. Qed.

(** A loop from [k] on that stores [f i] at [off + i], behind what is filled in. *)
Lemma fill_from (f : Z -> byte) (step : Z -> M (list byte) unit) off m : forall k pre rest,
  (forall i buf, Z.of_nat k <= i < Z.of_nat (k + m) -> step i buf = store (off + i) [f i] buf) ->
  zlen pre = off + Z.of_nat k -> Z.of_nat m <= zlen rest ->
  for_each step (map Z.of_nat (seq k m)) (pre ++ rest) =
  (Ok tt, pre ++ map f (map Z.of_nat (seq k m)) ++ drop m rest).
Proof.
  induction m as [|m IH]; intros k pre rest Hstep Hp Hr; [by rewrite drop_0|]. cbn [seq map for_each].
  destruct rest as [|x rest]; [unfold zlen in Hr; cbn in Hr; lia|]. rewrite zlen_cons in Hr.
  rewrite (bind_ok _ _ _ tt ((pre ++ [f (Z.of_nat k)]) ++ rest)).
  2: { rewrite Hstep by lia. rewrite <- Hp. pose proof (zlen_nonneg rest).
       rewrite store_next by (rewrite !zlen_cons, zlen_nil; lia). done. }
  rewrite (IH (S k)); [|intros; apply Hstep; lia|rewrite zlen_app; change (zlen [_]) with 1; lia|lia].
  by rewrite <- !app_assoc.
Qed.

Lemma fill_loop (f : Z -> byte) (step : Z -> M (list byte) unit) n pre rest :
  (forall i buf, 0 <= i < n -> step i buf = store (zlen pre + i) [f i] buf) -> 0 <= n <= zlen rest ->
  for_each step (indices n) (pre ++ rest) = (Ok tt, pre ++ map f (indices n) ++ drop (Z.to_nat n) rest).
Proof.
  intros Hstep Hn. unfold indices. apply (fill_from _ _ (zlen pre)); [|lia|lia]. intros. apply Hstep. lia.
Qed.

(** A loop that fills a buffer from its end to the front. *)
Lemma fill_down_from (f : Z -> byte) (step : Z -> M (list byte) unit) size m : forall k pre post,
  (forall i buf, Z.of_nat k <= i < Z.of_nat (k + m) -> step i buf = store (size - 1 - i) [f i] buf) ->
  zlen post = Z.of_nat k -> zlen pre + zlen post = size -> Z.of_nat m <= zlen pre ->
  for_each step (map Z.of_nat (seq k m)) (pre ++ post) =
  (Ok tt, take (length pre - m) pre ++ reverse (map f (map Z.of_nat (seq k m))) ++ post).
Proof.
  induction m as [|m IH]; intros k pre post Hstep Hk Hs Hm.
  { cbn [seq map for_each]. rewrite Nat.sub_0_r, firstn_all. done. }
  destruct pre as [|x pre' _] using List.rev_ind; [unfold zlen in Hm; cbn in Hm; lia|].
  rewrite zlen_app in *. change (zlen [x]) with 1 in *. cbn [seq map for_each].
  rewrite (bind_ok _ _ _ tt (pre' ++ f (Z.of_nat k) :: post)).
  2: { rewrite Hstep by lia. replace (size - 1 - Z.of_nat k) with (zlen pre') by lia. rewrite <- app_assoc.
       pose proof (zlen_nonneg post). rewrite store_next by (cbn [app]; rewrite !zlen_cons, zlen_nil; lia).
       by rewrite <- app_assoc. }
  rewrite (IH (S k)); [|intros; apply Hstep; lia|rewrite zlen_cons; lia|rewrite zlen_cons; lia|lia].
  rewrite reverse_cons, <- !app_assoc, length_app. cbn [length app]. rewrite (take_app_le pre') by (unfold zlen in *; lia).
  by replace (length pre' + 1 - S m)%nat with (length pre' - m)%nat by lia.
Qed.

Lemma fill_down (f : Z -> byte) (step : Z -> M (list byte) unit) n buf :
  (forall i buf', 0 <= i < n -> step i buf' = store (zlen buf - 1 - i) [f i] buf') -> 0 <= n <= zlen buf ->
  for_each step (indices n) buf = (Ok tt, take (length buf - Z.to_nat n) buf ++ reverse (map f (indices n))).
Proof.
  intros Hstep Hn. pose proof (fill_down_from f step (zlen buf) (Z.to_nat n) 0 buf []) as E.
  rewrite !app_nil_r in E. unfold indices. apply E; change (zlen []) with 0; [intros; apply Hstep|..]; lia.
Qed.

(** A byte at a valid index, as a function. *)
Definition nth_byte (l : list byte) (i : Z) : byte := default Byte.x00 (l !! Z.to_nat i).

Lemma at_index_ok l i : 0 <= i < zlen l -> at_index l i = Ok (nth_byte l i).
Proof.
  intros Hi. unfold at_index, nth_byte. destruct (buf_get_some l i Hi) as [b E]. rewrite E.
  unfold buf_get in E. destruct (0 <=? i); [|done]. by rewrite E.
Qed.

Lemma take_zlen {A} (l : list A) : take (Z.to_nat (zlen l)) l = l.
Proof. unfold zlen. by rewrite Nat2Z.id, firstn_all. Qed.

Lemma map_nth_byte l n : 0 <= n <= zlen l -> map (nth_byte l) (indices n) = take (Z.to_nat n) l.
Proof.
  intros Hn. apply list_eq. intros i. unfold indices. rewrite map_map.
  destruct (decide (i < Z.to_nat n)%nat) as [Hi|Hi].
  - rewrite lookup_take_lt by done. change (map ?f ?l) with (f <$> l). rewrite list_lookup_fmap, lookup_seq_lt by done. cbn [fmap option_fmap option_map].
    unfold nth_byte. rewrite Nat2Z.id. cbn [Nat.add]. destruct (lookup_lt_is_Some_2 l i) as [b E]; [unfold zlen in Hn; lia|]. by rewrite E.
  - rewrite !lookup_ge_None_2; [done|rewrite length_take; lia|rewrite length_map, length_seq; lia].
Qed.

Lemma map_nth_byte_rev l n :
  0 <= n <= zlen l -> map (fun i => nth_byte l (n - 1 - i)) (indices n) = reverse (take (Z.to_nat n) l).
Proof.
  intros Hn. apply list_eq. intros i. unfold indices. rewrite map_map.
  destruct (decide (i < Z.to_nat n)%nat) as [Hi|Hi].
  - rewrite reverse_lookup by (rewrite length_take; unfold zlen in Hn; lia). rewrite length_take, lookup_take_lt by (unfold zlen in Hn; lia).
    change (map ?f ?l) with (f <$> l). rewrite list_lookup_fmap, lookup_seq_lt by done. cbn [fmap option_fmap option_map]. unfold nth_byte.
    replace (Z.to_nat (n - 1 - Z.of_nat (0 + i))) with (Z.to_nat n `min` length l - S i)%nat by (unfold zlen in Hn; lia).
    destruct (lookup_lt_is_Some_2 l (Z.to_nat n `min` length l - S i)) as [b E]; [unfold zlen in Hn; lia|]. by rewrite E.
  - rewrite !lookup_ge_None_2; [done|rewrite length_reverse, length_take; lia|rewrite length_map, length_seq; lia].
Qed.

(** ** Reversal *)

Lemma store_mid {A} (a b : A) (pre post : list A) i :
  i = zlen pre -> store i [b] (pre ++ a :: post) = (Ok tt, pre ++ b :: post).
Proof.
  intros ->. pose proof (zlen_nonneg post). rewrite store_next by (rewrite !zlen_cons, zlen_nil; lia). by rewrite <- app_assoc.
Qed.

Lemma fetch_mid (a : byte) (pre post : list byte) i : i = zlen pre -> fetch i (pre ++ a :: post) = (Ok a, pre ++ a :: post).
Proof.
  intros ->. unfold fetch, at_index, buf_get. pose proof (zlen_nonneg pre). cmps. unfold zlen. rewrite Nat2Z.id.
  by rewrite list_lookup_middle.
Qed.

Lemma reverse_loop_ok fuel : forall pre mid post,
  (length mid < 2 * fuel)%nat ->
  reverse_loop fuel (zlen pre) (zlen pre + zlen mid - 1) (pre ++ mid ++ post) = (Ok tt, pre ++ reverse mid ++ post).
Proof.
  induction fuel as [|fuel IH]; intros pre mid post Hf; [lia|]. cbn [reverse_loop].
  destruct mid as [|a mid]. { rewrite zlen_nil. cmps. done. }
  destruct mid as [|b mid _] using List.rev_ind. { rewrite zlen_cons, zlen_nil. cmps. done. }
  rewrite zlen_cons, zlen_app. change (zlen [b]) with 1. pose proof (zlen_nonneg mid). cmps.
  replace (pre ++ (a :: mid ++ [b]) ++ post) with (pre ++ a :: (mid ++ b :: post)) by (cbn [app]; by rewrite <- app_assoc).
  rewrite (bind_ok _ _ _ _ _ (fetch_mid a pre _ _ eq_refl)).
  replace (pre ++ a :: mid ++ b :: post) with ((pre ++ a :: mid) ++ b :: post) by (by rewrite <- app_assoc).
  erewrite bind_ok; [|apply (fetch_mid b (pre ++ a :: mid) post); rewrite zlen_app, zlen_cons; lia].
  replace ((pre ++ a :: mid) ++ b :: post) with (pre ++ a :: mid ++ b :: post) by (by rewrite <- app_assoc).
  rewrite (bind_ok _ _ _ _ _ (store_mid a b pre (mid ++ b :: post) _ eq_refl)).
  replace (pre ++ b :: mid ++ b :: post) with ((pre ++ b :: mid) ++ b :: post) by (by rewrite <- app_assoc).
  erewrite bind_ok; [|apply (store_mid b a (pre ++ b :: mid) post); rewrite zlen_app, zlen_cons; lia].
  replace ((pre ++ b :: mid) ++ a :: post) with ((pre ++ [b]) ++ mid ++ (a :: post)) by (by rewrite <- !app_assoc).
  replace (zlen pre + 1) with (zlen (pre ++ [b])) by (rewrite zlen_app; done).
  replace (zlen pre + (1 + (zlen mid + 1)) - 1 - 1) with (zlen (pre ++ [b]) + zlen mid - 1) by (rewrite zlen_app; change (zlen [b]) with 1; lia).
  rewrite IH by (cbn [length] in Hf; rewrite length_app in Hf; cbn [length] in Hf; lia).
  rewrite reverse_cons, reverse_app, reverse_singleton, <- !app_assoc. done.
Qed.

(** The first [length] bytes of the buffer are reversed in place, the others stay; the loop ends. *)
Theorem bytes_reverse_in_place front rest :
  neoc_bytes_reverse (zlen front) (front ++ rest) = (Ok tt, reverse front ++ rest).
Proof.
  unfold neoc_bytes_reverse. destruct (Z.leb_spec (zlen front) 1).
  - destruct front as [|a [|b front]]; [done|done|]. rewrite !zlen_cons in *. pose proof (zlen_nonneg front). lia.
  - unfold zlen at 1. rewrite Nat2Z.id. apply (reverse_loop_ok _ [] front rest). unfold zlen in *. lia.
Qed.

Lemma copy_reversed_ok src n buf :
  0 <= n <= zlen src -> n <= zlen buf ->
  copy_reversed src n buf = (Ok tt, reverse (take (Z.to_nat n) src) ++ drop (Z.to_nat n) buf).
Proof.
  intros Hn Hb. unfold copy_reversed. rewrite <- map_nth_byte_rev by done. apply (fill_loop _ _ n [] buf); [|lia].
  intros i b Hi. rewrite at_index_ok by lia. done.
Qed.

(** The reversed copy is the same bytes as the reversal in place. *)
Theorem bytes_reverse_agree src buf :
  zlen src = zlen buf ->
  neoc_bytes_reverse_copy src (zlen src) (zlen buf) buf = neoc_bytes_reverse (zlen src) src.
Proof.
  intros Hl. pose proof (zlen_nonneg src). unfold neoc_bytes_reverse_copy. cmps. rewrite copy_reversed_ok by lia.
  pose proof (bytes_reverse_in_place src []) as E. rewrite !app_nil_r in E. rewrite E. unfold zlen in *.
  rewrite Nat2Z.id, firstn_all, drop_ge, app_nil_r by lia. done.
Qed.

(** ** Sizes of variable length *)

Lemma var_size_is v : neoc_bytes_var_size v = zlen (var_int_bytes v).
Proof. unfold neoc_bytes_var_size, var_int_bytes. by repeat step. Qed.

Lemma le_bytes_indices n v : le_bytes n v = map (fun i => byte_of_Z (Z.land (Z.shiftr v (8 * i)) 255)) (indices (Z.of_nat n)).
Proof.
  revert v. induction n as [|n IH]; intros v; [done|]. rewrite indices_nat in *. cbn [le_bytes seq map]. f_equal.
  - rewrite byte_shift by lia. by rewrite Z.pow_0_r, Z.div_1_r.
  - rewrite IH, <- seq_shift, !map_map. apply map_ext. intros i. rewrite !byte_shift by lia.
    rewrite Z.div_div by lia. rewrite Nat2Z.inj_succ, Z.pow_succ_r by lia. done.
Qed.

Lemma put_le_ok n v b buf :
  Z.of_nat n <= zlen buf -> put_le (Z.of_nat n) v (b :: buf) = (Ok tt, b :: le_bytes n v ++ drop n buf).
Proof.
  intros Hb. unfold put_le. rewrite le_bytes_indices. rewrite (fill_loop (fun i => byte_of_Z (Z.land (Z.shiftr v (8 * i)) 255)) _ _ [b] buf);
    [by rewrite Nat2Z.id|done|lia].
Qed.

Lemma headed_size (b : byte) n v : zlen (b :: le_bytes n v) = 1 + Z.of_nat n.
Proof. rewrite zlen_cons. unfold zlen. by rewrite length_le_bytes. Qed.

(** What both encoders leave in a buffer. *)
Definition var_size_outcome (value buffer_size : Z) (buf : list byte) : res Z * list byte :=
  let bytes := var_int_bytes value in
  if buffer_size <? zlen bytes then (Err NEOC_ERROR_BUFFER_TOO_SMALL, buf)
  else (Ok (zlen bytes), bytes ++ drop (length bytes) buf).

Lemma head_put n v b buf :
  1 + Z.of_nat n <= zlen buf -> bind (store 0 [b]) (fun _ => put_le (Z.of_nat n) v) buf = (Ok tt, (b :: le_bytes n v) ++ drop (S n) buf).
Proof.
  intros Hb. destruct buf as [|x buf]; [change (zlen []) with 0 in Hb; lia|]. rewrite zlen_cons in Hb.
  rewrite (bind_ok _ _ _ tt (b :: buf)) by (apply (store_mid x b [] buf 0 eq_refl)). by rewrite put_le_ok by lia.
Qed.

(** The encoder writes the size as the binary writer does, or reports a small buffer and leaves it. *)
Theorem encode_var_size_spec value buffer_size buf :
  0 <= buffer_size <= zlen buf ->
  neoc_bytes_encode_var_size value buffer_size buf = var_size_outcome value buffer_size buf.
Proof.
  intros Hb. unfold neoc_bytes_encode_var_size, var_size_outcome, var_int_bytes.
  destruct (value <? 0xfd); [|destruct (value <=? 0xffff); [|destruct (value <=? 0xffffffff)]].
  - change (zlen [_]) with 1. destruct (Z.ltb_spec buffer_size 1); [done|].
    rewrite (bind_ok _ _ _ tt ([byte_of_Z value] ++ drop 1 buf)); [done|].
    apply (store_first [byte_of_Z value]). change (zlen [_]) with 1. lia.
  - rewrite headed_size. change (1 + Z.of_nat 2) with 3. destruct (Z.ltb_spec buffer_size 3); [done|].
    rewrite <- bind_assoc, (bind_ok _ _ _ _ _ (head_put 2 value Byte.xfd buf ltac:(lia))). done.
  - rewrite headed_size. change (1 + Z.of_nat 4) with 5. destruct (Z.ltb_spec buffer_size 5); [done|].
    rewrite <- bind_assoc, (bind_ok _ _ _ _ _ (head_put 4 value Byte.xfe buf ltac:(lia))). done.
  - rewrite headed_size. change (1 + Z.of_nat 8) with 9. destruct (Z.ltb_spec buffer_size 9); [done|].
    rewrite <- bind_assoc, (bind_ok _ _ _ _ _ (head_put 8 value Byte.xff buf ltac:(lia))). done.
Qed.

(** The two encoders are one function. *)
Theorem var_size_encoders_agree value buffer_size buf :
  neoc_numeric_encode_var_size value buffer_size buf = neoc_bytes_encode_var_size value buffer_size buf.
Proof.
  unfold neoc_numeric_encode_var_size, neoc_bytes_encode_var_size, neoc_numeric_var_size.
  destruct (value <? 0xFD); [by destruct (buffer_size <? 1)|].
  destruct (value <=? 0xFFFF); [by destruct (buffer_size <? 3); [|rewrite <- bind_assoc]|].
  destruct (value <=? 0xFFFFFFFF); [by destruct (buffer_size <? 5); [|rewrite <- bind_assoc]|].
  by destruct (buffer_size <? 9); [|rewrite <- bind_assoc].
Qed.

(** A loop that shifts bytes into a number, lowest byte first. *)
Lemma or_le_from buffer off m : forall k acc,
  0 <= off -> off + Z.of_nat (k + m) <= zlen buffer -> (k + m <= 8)%nat ->
  acc = le_val (take k (drop (Z.to_nat off) buffer)) ->
  or_le buffer off (map Z.of_nat (seq k m)) acc = Ok (le_val (take (k + m) (drop (Z.to_nat off) buffer))).
Proof.
  induction m as [|m IH]; intros k acc Ho Hb Hk Hacc; [by rewrite Nat.add_0_r, Hacc|]. cbn [seq map or_le].
  rewrite at_index_ok by lia. cbn [rbind]. rewrite <- Nat.add_succ_comm. apply IH; [lia|lia|lia|].
  set (b := nth_byte buffer (off + Z.of_nat k)).
  assert (drop (Z.to_nat off) buffer !! k = Some b) as Hl.
  { unfold b, nth_byte. rewrite lookup_drop. replace (Z.to_nat (off + Z.of_nat k)) with (Z.to_nat off + k)%nat by lia.
    destruct (lookup_lt_is_Some_2 buffer (Z.to_nat off + k)) as [x E]; [unfold zlen in Hb; lia|]. by rewrite E. }
  rewrite (take_S_r _ _ _ Hl), le_val_app, <- Hacc. cbn [le_val]. rewrite Z.mul_0_r, Z.add_0_r.
  assert (length (take k (drop (Z.to_nat off) buffer)) = k) as Hlen by (rewrite length_take, length_drop; unfold zlen in Hb; lia).
  assert (zlen (take k (drop (Z.to_nat off) buffer)) = Z.of_nat k) as Hz by (unfold zlen; by rewrite Hlen).
  pose proof (le_val_range (take k (drop (Z.to_nat off) buffer))) as Hr. rewrite Hz in *. rewrite <- Hacc in Hr.
  pose proof (Z_of_byte_range b). replace (256 ^ Z.of_nat k) with (2 ^ (8 * Z.of_nat k)) in * by (by rewrite Z.pow_mul_r by lia).
  rewrite wrap_small; [rewrite lor_shiftl_add by lia; lia|]. rewrite Z.shiftl_mul_pow2 by lia. split; [nia|].
  apply Z.lt_le_trans with (2 ^ 8 * 2 ^ (8 * Z.of_nat k)); [nia|]. rewrite <- Z.pow_add_r by lia. apply Z.pow_le_mono_r; lia.
Qed.

Lemma or_le_ok buffer off n :
  0 <= off -> 0 <= n <= 8 -> off + n <= zlen buffer ->
  or_le buffer off (indices n) 0 = Ok (le_val (take (Z.to_nat n) (drop (Z.to_nat off) buffer))).
Proof. intros Ho Hn Hb. unfold indices. apply (or_le_from buffer off (Z.to_nat n) 0); [done|lia|lia|done]. Qed.

Lemma int_shift_ok b k : 0 <= k <= 16 -> int_shift b k = Ok (Z.shiftl (Z_of_byte b) k).
Proof.
  intros Hk. unfold int_shift. rewrite Z.shiftl_mul_pow2 by lia. pose proof (Z_of_byte_range b).
  pose proof (Z.pow_le_mono_r 2 k 16 ltac:(lia) ltac:(lia)). pose proof (Z.pow_pos_nonneg 2 k ltac:(lia) ltac:(lia)).
  change (2 ^ 16) with 65536 in *. change (2 ^ 31) with 2147483648.
  destruct (Z.ltb_spec (Z_of_byte b * 2 ^ k) 2147483648); [done|nia].
Qed.

Lemma int_shift_top b : int_shift b 24 = if Z_of_byte b <? 128 then Ok (Z.shiftl (Z_of_byte b) 24) else Fault.
Proof.
  unfold int_shift. rewrite Z.shiftl_mul_pow2 by lia. change (2 ^ 24) with 16777216. change (2 ^ 31) with 2147483648.
  by destruct (Z.ltb_spec (Z_of_byte b) 128); cmps.
Qed.

(** What the older decoder makes of a result of the other one. *)
Definition through_int (v n : Z) : res (Z * Z) := if (n =? 5) && (2 ^ 31 <=? v) then Fault else Ok (v, n).

(** Of any bytes, with their number: the decoder of numeric.c reads a value and its size inside the bytes, or
    says that there are too few; the other one does the same, except that it shifts a byte into the sign of
    an [int] for five-byte sizes from 2^31 on. *)
Theorem var_size_decoders buffer buffer_size :
  0 <= buffer_size <= zlen buffer ->
  (exists v n, neoc_numeric_decode_var_size buffer buffer_size = Ok (v, n) /\ 0 <= v < 2 ^ 64 /\ 1 <= n <= buffer_size /\
     neoc_bytes_decode_var_size buffer buffer_size = through_int v n) \/
  (neoc_numeric_decode_var_size buffer buffer_size = Err NEOC_ERROR_INVALID_LENGTH /\
   neoc_bytes_decode_var_size buffer buffer_size = Err NEOC_ERROR_BUFFER_TOO_SMALL).
Proof.
  intros Hb. unfold neoc_numeric_decode_var_size, neoc_bytes_decode_var_size.
  destruct (Z.ltb_spec buffer_size 1); cmps. { by right. }
  rewrite at_index_ok by lia. cbn [rbind]. cbv zeta. set (p := Z_of_byte (nth_byte buffer 0)). pose proof (Z_of_byte_range (nth_byte buffer 0)).
  destruct (Z.ltb_spec p 0xFD). { left. exists p, 1. split_and!; try lia; done. }
  destruct (Z.eqb_spec p 0xFD) as [Ep|].
  { destruct (Z.ltb_spec buffer_size 3); [by right|]. left. rewrite or_le_ok by lia. cbn [rbind].
    destruct buffer as [|b0 [|b1 [|b2 rest]]]; try (unfold zlen in Hb; cbn in Hb; lia).
    set (v := le_val _). exists v, 3. pose proof (Z_of_byte_range b1). pose proof (Z_of_byte_range b2).
    assert (v = Z_of_byte b1 + 256 * Z_of_byte b2) as Hv by (unfold v; change (take _ _) with [b1; b2]; cbn [le_val]; lia).
    split_and!; try (eval_pows; lia); [done|]. change (at_index _ 1) with (@Ok byte b1). change (at_index _ 2) with (@Ok byte b2). cbn [rbind].
    rewrite int_shift_ok by lia. cbn [rbind]. rewrite lor_shiftl_add by (eval_pows; lia). change (2 ^ 8) with 256. unfold through_int. cbn [Z.eqb Pos.eqb andb].
    do 2 f_equal. lia. }
  destruct (Z.eqb_spec p 0xFE) as [Ep|].
  { destruct (Z.ltb_spec buffer_size 5); [by right|]. left. rewrite or_le_ok by lia. cbn [rbind].
    destruct buffer as [|b0 [|b1 [|b2 [|b3 [|b4 rest]]]]]; try (unfold zlen in Hb; cbn in Hb; lia).
    set (v := le_val _). exists v, 5.
    pose proof (Z_of_byte_range b1). pose proof (Z_of_byte_range b2). pose proof (Z_of_byte_range b3). pose proof (Z_of_byte_range b4).
    assert (v = Z_of_byte b1 + 256 * (Z_of_byte b2 + 256 * (Z_of_byte b3 + 256 * Z_of_byte b4))) as Hv
      by (unfold v; change (take _ _) with [b1; b2; b3; b4]; cbn [le_val]; lia).
    split_and!; try (eval_pows; lia); [done|]. change (at_index _ 1) with (@Ok byte b1). change (at_index _ 2) with (@Ok byte b2).
    change (at_index _ 3) with (@Ok byte b3). change (at_index _ 4) with (@Ok byte b4). cbn [rbind].
    rewrite !int_shift_ok by lia. cbn [rbind]. rewrite int_shift_top. unfold through_int. change (2 ^ 31) with 2147483648. cbn [Z.eqb Pos.eqb andb].
    destruct (Z.ltb_spec (Z_of_byte b4) 128); cmps; [|done]. cbn [rbind].
    rewrite (lor_shiftl_add (Z_of_byte b1)) by (eval_pows; lia). rewrite (lor_shiftl_add _ _ 16) by (eval_pows; lia).
    rewrite (lor_shiftl_add _ _ 24) by (eval_pows; lia). eval_pows. do 2 f_equal. lia. }
  destruct (Z.ltb_spec buffer_size 9); [by right|]. left. rewrite or_le_ok by lia. cbn [rbind]. set (v := le_val _).
  exists v, 9. split_and!; try lia; try done.
  - apply le_val_range.
  - pose proof (le_val_range (take (Z.to_nat 8) (drop (Z.to_nat 1) buffer))) as Hr. fold v in Hr.
    eapply Z.lt_le_trans; [apply Hr|]. change (2 ^ 64) with (256 ^ 8). apply Z.pow_le_mono_r; [lia|]. unfold zlen. rewrite length_take. lia.
Qed.

(** What an encoder wrote is decoded. *)
Theorem var_size_roundtrip value rest :
  0 <= value < 2 ^ 64 ->
  neoc_numeric_decode_var_size (var_int_bytes value ++ rest) (zlen (var_int_bytes value)) = Ok (value, zlen (var_int_bytes value)).
Proof.
  intros Hv. pose proof (zlen_nonneg rest). unfold var_int_bytes. eval_pows.
  assert (forall n b, (0 < n <= 8)%nat -> 0 <= value < 256 ^ Z.of_nat n ->
    or_le ((b :: le_bytes n value) ++ rest) 1 (indices (Z.of_nat n)) 0 = Ok value) as Hle.
  { intros n b Hn Hs. rewrite or_le_ok by (try rewrite zlen_app, headed_size; lia). change (Z.to_nat 1) with 1%nat. cbn [app drop skipn].
    rewrite drop_0, Nat2Z.id, take_app_le, take_ge by (rewrite length_le_bytes; lia). by rewrite le_val_le_bytes_small. }
  destruct (Z.ltb_spec value 0xFD).
  { unfold neoc_numeric_decode_var_size. change (zlen [_]) with 1. cbn [Z.eqb app]. change (at_index _ 0) with (@Ok byte (byte_of_Z value)).
    cbn [rbind]. cbv zeta. rewrite Z_of_byte_small by lia. cmps. done. }
  destruct (Z.leb_spec value 0xFFFF); [|destruct (Z.leb_spec value 0xFFFFFFFF)]; rewrite headed_size; unfold neoc_numeric_decode_var_size;
    cbn [Z.of_nat Pos.of_succ_nat Pos.succ Z.add Pos.add Z.eqb].
  - change (at_index _ 0) with (@Ok byte Byte.xfd). cbn [rbind]. rewrite (Hle 2%nat) by (eval_pows; lia). done.
  - change (at_index _ 0) with (@Ok byte Byte.xfe). cbn [rbind]. rewrite (Hle 4%nat) by (eval_pows; lia). done.
  - change (at_index _ 0) with (@Ok byte Byte.xff). cbn [rbind]. rewrite (Hle 8%nat) by (eval_pows; lia). done.
Qed.

(** ** Integers as bytes *)

Lemma map_indices_rev {A} (g : Z -> A) n :
  0 <= n -> map (fun i => g (n - 1 - i)) (indices n) = reverse (map g (indices n)).
Proof.
  intros Hn. apply list_eq. intros i. destruct (decide (i < Z.to_nat n)%nat) as [Hi|Hi].
  - rewrite reverse_lookup by (rewrite length_map, indices_length; lia). rewrite length_map, indices_length. unfold indices. rewrite !map_map.
    change (@map ?A ?B ?f ?l) with (f <$> l). rewrite !list_lookup_fmap, !lookup_seq_lt by lia. cbn [fmap option_fmap option_map]. do 2 f_equal. lia.
  - rewrite !lookup_ge_None_2; [done|rewrite length_reverse, length_map, indices_length; lia|rewrite length_map, indices_length; lia].
Qed.

(** The number of bytes written most significant first. *)
Definition be_number (bs : list byte) : Z := le_val (reverse bs).

Lemma or_be_from bytes m : forall k acc,
  Z.of_nat (k + m) <= zlen bytes -> (k + m <= 8)%nat -> acc = be_number (take k bytes) ->
  or_be bytes (map Z.of_nat (seq k m)) acc = Ok (be_number (take (k + m) bytes)).
Proof.
  induction m as [|m IH]; intros k acc Hb Hk Hacc; [by rewrite Nat.add_0_r, Hacc|]. cbn [seq map or_be].
  rewrite at_index_ok by lia. cbn [rbind]. rewrite <- Nat.add_succ_comm. apply IH; [lia|lia|].
  set (b := nth_byte bytes (Z.of_nat k)).
  assert (bytes !! k = Some b) as Hl.
  { unfold b, nth_byte. rewrite Nat2Z.id. destruct (lookup_lt_is_Some_2 bytes k) as [x E]; [unfold zlen in Hb; lia|]. by rewrite E. }
  unfold be_number. rewrite (take_S_r _ _ _ Hl), reverse_snoc. cbn [le_val]. fold (be_number (take k bytes)). rewrite <- Hacc.
  pose proof (le_val_range (reverse (take k bytes))) as Hr. rewrite zlen_reverse in Hr. fold (be_number (take k bytes)) in Hr. rewrite <- Hacc in Hr.
  assert (256 ^ zlen (take k bytes) <= 2 ^ 56) as Hs.
  { change (2 ^ 56) with (256 ^ 7). apply Z.pow_le_mono_r; [lia|]. unfold zlen. rewrite length_take. lia. }
  pose proof (Z_of_byte_range b). rewrite wrap_small by (rewrite Z.shiftl_mul_pow2 by lia; eval_pows; lia).
  rewrite Z.lor_comm, lor_shiftl_add by (eval_pows; lia). eval_pows. lia.
Qed.

Lemma store_digits (f : Z -> byte) n buf :
  0 <= n <= zlen buf ->
  for_each (fun i => store i [f i]) (indices n) buf = (Ok tt, map f (indices n) ++ drop (Z.to_nat n) buf).
Proof. intros Hn. apply (fill_loop f _ n [] buf); [done|lia]. Qed.

(** An integer written with at most eight bytes, in either order, is read back, less what the bytes do not hold. *)
Theorem uint64_bytes_roundtrip value length buf :
  0 <= length <= 8 -> length <= zlen buf ->
  exists le be,
    neoc_uint64_to_bytes_le value length buf = (Ok tt, le) /\ neoc_uint64_to_bytes_be value length buf = (Ok tt, be) /\
    neoc_bytes_to_uint64_le le length = Ok (value mod 256 ^ length) /\
    neoc_bytes_to_uint64_be be length = Ok (value mod 256 ^ length).
Proof.
  intros Hl Hb. unfold neoc_uint64_to_bytes_le, neoc_uint64_to_bytes_be, neoc_bytes_to_uint64_le, neoc_bytes_to_uint64_be. cmps.
  assert (map (fun i => byte_of_Z (Z.land (Z.shiftr value (8 * i)) 255)) (indices length) = le_bytes (Z.to_nat length) value) as El
    by (rewrite le_bytes_indices; by rewrite Z2Nat.id by lia).
  rewrite (store_digits (fun i => byte_of_Z (Z.land (Z.shiftr value (8 * i)) 255))) by lia.
  rewrite (store_digits (fun i => byte_of_Z (Z.land (Z.shiftr value (8 * (length - 1 - i))) 255))) by lia.
  rewrite (map_indices_rev (fun i => byte_of_Z (Z.land (Z.shiftr value (8 * i)) 255))) by lia. rewrite El.
  eexists _, _. split_and!; [done|done| |].
  - rewrite or_le_ok by (try rewrite zlen_app; unfold zlen; rewrite ?length_le_bytes; lia). cbn [drop skipn].
    change (Z.to_nat 0) with 0%nat. rewrite drop_0, take_app_le, take_ge by (rewrite length_le_bytes; lia). rewrite le_val_le_bytes. by rewrite Z2Nat.id by lia.
  - unfold indices. rewrite (or_be_from _ (Z.to_nat length) 0); [|unfold zlen in *; rewrite length_app, length_reverse, length_le_bytes; lia|lia|done].
    cbn [Nat.add]. unfold be_number. rewrite take_app_le, take_ge by (rewrite length_reverse, length_le_bytes; lia).
    rewrite reverse_involutive, le_val_le_bytes. by rewrite Z2Nat.id by lia.
Qed.

(** ** Powers *)

Definition is_int (v : Z) : bool := (- 2 ^ 31 <=? v) && (v <? 2 ^ 31).

Lemma power_loop_sound n base : forall k acc,
  acc = base ^ Z.of_nat k -> is_int acc = true ->
  match power_loop n base acc with
  | Ok r => r = base ^ Z.of_nat (k + n) /\ is_int r = true
  | Err _ => False
  | Fault => exists j, (k < j <= k + n)%nat /\ is_int (base ^ Z.of_nat j) = false
  end.
Proof.
  induction n as [|n IH]; intros k acc Ha Hi; cbn [power_loop]; [by rewrite Nat.add_0_r|]. unfold int_mul.
  assert (acc * base = base ^ Z.of_nat (S k)) as Hs by (rewrite Nat2Z.inj_succ, Z.pow_succ_r, Ha by lia; lia). rewrite Hs. fold (is_int (base ^ Z.of_nat (S k))).
  destruct (is_int (base ^ Z.of_nat (S k))) eqn:E; cbn [rbind].
  - specialize (IH (S k) _ eq_refl E). replace (k + S n)%nat with (S k + n)%nat by lia.
    destruct (power_loop n base _); [done|done|]. destruct IH as (j & Hj & Ej). exists j. split; [lia|done].
  - exists (S k). split; [lia|done].
Qed.

(** Smaller powers of an [int] power are [int]s. *)
Lemma power_int_below base j n : (j <= n)%nat -> is_int (base ^ Z.of_nat n) = true -> is_int (base ^ Z.of_nat j) = true.
Proof.
  intros Hj Hn. destruct (decide (Z.abs base <= 1)) as [Hb|Hb].
  { assert (Z.abs (base ^ Z.of_nat j) <= 1) as Ha.
    { rewrite Z.abs_pow. assert (Z.abs base = 0 \/ Z.abs base = 1) as [->| ->] by lia.
      - destruct (decide (Z.of_nat j = 0)) as [->|]; [done|]. rewrite Z.pow_0_l by lia. lia.
      - rewrite Z.pow_1_l by lia. lia. }
    unfold is_int. eval_pows. apply andb_true_iff. split; [apply Z.leb_le|apply Z.ltb_lt]; lia. }
  destruct (decide (j = n)) as [->|]; [done|].
  assert (2 * Z.abs (base ^ Z.of_nat j) <= Z.abs (base ^ Z.of_nat n)) as Ha.
  { rewrite !Z.abs_pow. replace (Z.of_nat n) with (Z.of_nat j + Z.succ (Z.of_nat (n - S j))) by lia. rewrite Z.pow_add_r, Z.pow_succ_r by lia.
    pose proof (Z.pow_pos_nonneg (Z.abs base) (Z.of_nat j) ltac:(lia) ltac:(lia)).
    pose proof (Z.pow_pos_nonneg (Z.abs base) (Z.of_nat (n - S j)) ltac:(lia) ltac:(lia)).
    assert (2 <= Z.abs base * Z.abs base ^ Z.of_nat (n - S j)) by nia. nia. }
  unfold is_int in *. eval_pows. bdestruct. apply andb_true_iff. split; [apply Z.leb_le|apply Z.ltb_lt]; lia.
Qed.

(** A power that is an [int] is computed; another one overflows. *)
Theorem numeric_power_exact base power :
  0 <= power -> neoc_numeric_power base power = if is_int (base ^ power) then Ok (base ^ power) else Fault.
Proof.
  intros Hp. unfold neoc_numeric_power. cmps. pose proof (power_loop_sound (Z.to_nat power) base 0 1 eq_refl eq_refl) as Hs.
  cbn [Nat.add] in Hs. destruct (power_loop _ _ _) as [r|e|].
  - rewrite Z2Nat.id in Hs by lia. destruct Hs as [-> ->]. done.
  - done.
  - destruct Hs as (j & Hj & Ej). destruct (is_int (base ^ power)) eqn:E; [|done].
    rewrite <- (Z2Nat.id power) in E by lia. rewrite (power_int_below base j (Z.to_nat power)) in Ej; [done|lia|done].
Qed.

(** ** Numbers in memory *)

Lemma zlen_zeros n : 0 <= n -> zlen (zeros n) = n.
Proof. intros Hn. unfold zeros. rewrite zlen_replicate. lia. Qed.

Lemma le_val_zeros_r l n : le_val (l ++ zeros n) = le_val l.
Proof.
  rewrite le_val_app. assert (le_val (zeros n) = 0) as ->; [|lia].
  unfold zeros. induction (Z.to_nat n) as [|k IH]; [done|]. cbn [replicate le_val]. rewrite IH. done.
Qed.

Lemma le_val_zeros_l l n : 0 <= n -> le_val (zeros n ++ l) = 256 ^ n * le_val l.
Proof.
  intros Hn. rewrite le_val_app, zlen_zeros by done. pose proof (le_val_zeros_r [] n) as E. cbn [app] in E. rewrite E. cbn [le_val]. lia.
Qed.

(** Little-endian bytes are read into the low end of the number and big-endian bytes into its high end, so that
    fewer bytes than the number has stand for a multiple of it. *)
Theorem numeric_from_bytes_value bytes value :
  bytes <> [] -> value <> [] -> zlen bytes <= zlen value ->
  exists le be,
    neoc_numeric_from_bytes_le bytes (zlen bytes) (zlen value) value = (Ok tt, le) /\ le_val le = le_val bytes /\
    neoc_numeric_from_bytes_be bytes (zlen bytes) (zlen value) value = (Ok tt, be) /\
    le_val be = be_number bytes * 256 ^ (zlen value - zlen bytes) /\ zlen le = zlen value /\ zlen be = zlen value.
Proof.
  intros Hb Hv Hl. apply zlen_pos in Hb, Hv.
  assert (store 0 (zeros (zlen value)) value = (Ok tt, zeros (zlen value))) as Ez.
  { rewrite store_first by (rewrite zlen_zeros by lia; lia). rewrite drop_ge, app_nil_r; [done|]. unfold zeros. rewrite length_replicate. unfold zlen. lia. }
  assert ((if zlen bytes <? zlen value then zlen bytes else zlen value) = zlen bytes) as Ec by (destruct (Z.ltb_spec (zlen bytes) (zlen value)); lia).
  exists (bytes ++ zeros (zlen value - zlen bytes)), (zeros (zlen value - zlen bytes) ++ reverse bytes).
  unfold neoc_numeric_from_bytes_le, neoc_numeric_from_bytes_be, neoc_numeric_from_bytes. cmps. rewrite !(bind_ok _ _ _ _ _ Ez). cbv zeta. rewrite Ec.
  change (Bool.eqb true neoc_numeric_is_little_endian) with true. change (Bool.eqb false neoc_numeric_is_little_endian) with false. cbn iota.
  split_and!.
  - rewrite memcpy_from_all by done. rewrite bind_lift, store_first by (rewrite zlen_zeros; lia). do 2 f_equal.
    unfold zeros. rewrite drop_replicate. f_equal. unfold zlen. lia.
  - apply le_val_zeros_r.
  - rewrite (fill_down (nth_byte bytes)); [|intros i buf Hi; rewrite at_index_ok by lia; rewrite bind_lift, zlen_zeros by lia; done|rewrite zlen_zeros; lia].
    rewrite map_nth_byte, take_zlen by lia. do 2 f_equal.
    unfold zeros. rewrite take_replicate, length_replicate. f_equal. unfold zlen. lia.
  - rewrite le_val_zeros_l by lia. unfold be_number. lia.
  - rewrite zlen_app, zlen_zeros; lia.
  - rewrite zlen_app, zlen_reverse, zlen_zeros; lia.
Qed.

Section Blocks.
Context (junk : byte) `{Allocator}.

Lemma fresh_copy_reversed src n :
  0 <= n <= zlen src -> fresh_block junk n (copy_reversed src n) = Ok (reverse (take (Z.to_nat n) src)).
Proof.
  intros Hn. unfold fresh_block. rewrite copy_reversed_ok by (rewrite ?zlen_replicate; lia).
  rewrite drop_ge by (rewrite length_replicate; lia). by rewrite app_nil_r.
Qed.

(** A number in memory survives the way through its bytes in either order. *)
Theorem numeric_bytes_roundtrip value old :
  value <> [] -> zlen old = zlen value -> neoc_malloc_ok (zlen value) = true ->
  exists le be,
    neoc_numeric_to_bytes_le junk value (zlen value) = Ok le /\ neoc_numeric_to_bytes_be junk value (zlen value) = Ok be /\
    be = reverse le /\
    neoc_numeric_from_bytes_le le (zlen le) (zlen value) old = (Ok tt, value) /\
    neoc_numeric_from_bytes_be be (zlen be) (zlen value) old = (Ok tt, value).
Proof.
  intros Hv Hl Hm. pose proof (zlen_pos _ Hv) as Hp. exists value, (reverse value).
  unfold neoc_numeric_to_bytes_le, neoc_numeric_to_bytes_be, neoc_numeric_copy_bytes. rewrite Hm. cmps.
  change (Bool.eqb neoc_numeric_is_little_endian true) with true. change (Bool.eqb neoc_numeric_is_little_endian false) with false. cbn iota.
  rewrite memcpy_from_all, fresh_copy_reversed by (done || lia). rewrite take_zlen, zlen_reverse.
  assert (forall le, zlen le = zlen value -> le_val le = le_val value -> le = value) as Heq.
  { intros le Hz Ev. rewrite <- (le_bytes_le_val le), <- (le_bytes_le_val value), Ev. f_equal. unfold zlen in Hz. lia. }
  assert (old <> []) as Ho by (intros ->; change (zlen []) with 0 in Hl; lia).
  assert (reverse value <> []) as Hr by (intros E; apply (f_equal zlen) in E; rewrite zlen_reverse in E; change (zlen []) with 0 in E; lia).
  destruct (numeric_from_bytes_value value old Hv Ho ltac:(lia)) as (le & _ & El & Vl & _ & _ & Zl & _).
  destruct (numeric_from_bytes_value (reverse value) old Hr Ho ltac:(rewrite zlen_reverse; lia)) as (_ & be & _ & _ & Eb & Vb & _ & Zb).
  rewrite zlen_reverse in *. rewrite Hl in *. split_and!; try done.
  - rewrite El. f_equal. apply Heq; [done|done].
  - rewrite Eb. f_equal. apply Heq; [done|]. rewrite Vb. unfold be_number. rewrite reverse_involutive, Z.sub_diag. lia.
Qed.

(** ** Padding *)

Lemma be_number_zeros n l : be_number (zeros n ++ l) = be_number l.
Proof. unfold be_number, zeros. rewrite reverse_app, reverse_replicate. apply le_val_zeros_r. Qed.

Lemma be_padded n l : zlen l <= n -> zeros (n - zlen l) ++ l = reverse (le_bytes (Z.to_nat n) (be_number l)).
Proof.
  intros Hl. pose proof (zlen_nonneg l). rewrite <- (be_number_zeros (n - zlen l) l). unfold be_number.
  set (p := zeros (n - zlen l) ++ l).
  replace (Z.to_nat n) with (length (reverse p)); [by rewrite le_bytes_le_val, reverse_involutive|].
  unfold p. rewrite length_reverse, length_app. unfold zeros. rewrite length_replicate. unfold zlen in *. lia.
Qed.

(** Padding in front keeps the number the bytes stand for, in exactly the wanted number of bytes. *)
Theorem bytes_pad_number src target :
  src <> [] -> 0 < target -> zlen src <= target -> neoc_malloc_ok target = true ->
  neoc_bytes_pad junk src (zlen src) target false = Ok (reverse (le_bytes (Z.to_nat target) (be_number src))).
Proof.
  intros Hs Ht Hl Hm. destruct src as [|b rest]; [done|]. clear Hs. unfold neoc_bytes_pad. rewrite zlen_cons in *. pose proof (zlen_nonneg rest).
  cmps. change (at_index _ 0) with (@Ok byte b). cbn [rbind]. cbv zeta. rewrite Hm. cbn [negb].
  set (o := if Z_of_byte b =? 0 then 1 else 0). set (d := if Z_of_byte b =? 0 then rest else b :: rest).
  assert (buf_slice (b :: rest) o (1 + zlen rest - o) = Some d) as Ed.
  { unfold o, d. destruct (Z_of_byte b =? 0).
    - pose proof (buf_slice_app [b] rest []) as E. rewrite app_nil_r in E. replace (1 + zlen rest - 1) with (zlen rest) by lia. exact E.
    - pose proof (buf_slice_all (b :: rest)) as E. rewrite zlen_cons in E. by rewrite Z.sub_0_r. }
  assert (zlen d = 1 + zlen rest - o) as Hd by (unfold d, o; destruct (Z_of_byte b =? 0); rewrite ?zlen_cons; lia).
  assert (0 <= o <= 1) by (unfold o; destruct (Z_of_byte b =? 0); lia).
  assert (be_number (b :: rest) = be_number d) as ->.
  { unfold d. destruct (Z.eqb_spec (Z_of_byte b) 0) as [E|]; [|done].
    assert (b = Byte.x00) as -> by (by apply Z_of_byte_inj). exact (be_number_zeros 1 rest). }
  rewrite Ed. cmps. unfold fresh_block. set (z := zeros (target - (1 + zlen rest - o))).
  assert (zlen z = target - zlen d) as Hz by (unfold z; rewrite zlen_zeros; lia).
  rewrite (bind_ok _ _ _ _ _ (store_first z (replicate (Z.to_nat target) junk) ltac:(rewrite zlen_replicate; lia))).
  replace (target - (1 + zlen rest - o)) with (zlen z) by lia. rewrite store_next.
  2: { rewrite zlen_drop, zlen_replicate by (rewrite length_replicate; unfold zlen in *; lia). unfold zlen in *. lia. }
  rewrite drop_drop, drop_ge, app_nil_r by (rewrite length_replicate; unfold zlen in *; lia).
  unfold z. replace (1 + zlen rest - o) with (zlen d) by lia. by rewrite be_padded by lia.
Qed.

(** ** Big integers *)

Lemma skip_zeros_split d : exists n, d = zeros n ++ skip_zeros d /\ 0 <= n.
Proof.
  induction d as [|b d (n & E & Hn)]; [by exists 0|]. cbn [skip_zeros]. destruct (Z.eqb_spec (Z_of_byte b) 0) as [Eb|]; [|by exists 0].
  exists (n + 1). split; [|lia]. assert (b = Byte.x00) as -> by (by apply Z_of_byte_inj). unfold zeros.
  replace (Z.to_nat (n + 1)) with (S (Z.to_nat n)) by lia. cbn [replicate app]. by rewrite E at 1.
Qed.

Lemma skip_zeros_number d n : 0 <= n -> zlen (skip_zeros d) <= n <-> be_number (skip_zeros d) < 256 ^ n.
Proof.
  intros Hn. split.
  - intros Hl. pose proof (le_val_range (reverse (skip_zeros d))) as Hr. rewrite zlen_reverse in Hr. unfold be_number.
    eapply Z.lt_le_trans; [apply Hr|]. apply Z.pow_le_mono_r; lia.
  - intros Hv. induction d as [|b d IH]; [change (zlen (skip_zeros [])) with 0; lia|]. cbn [skip_zeros] in *. destruct (Z.eqb_spec (Z_of_byte b) 0) as [|Hb]; [by apply IH|].
    rewrite zlen_cons. unfold be_number in Hv. rewrite reverse_cons, le_val_app, zlen_reverse in Hv. cbn [le_val] in Hv.
    pose proof (le_val_range (reverse d)). pose proof (Z_of_byte_range b). apply Z.nlt_ge. intros Hlt.
    pose proof (Z.pow_le_mono_r 256 n (zlen d) ltac:(lia) ltac:(lia)). nia.
Qed.

(** The bytes of a number given in hexadecimal digits: exactly as many as asked for, or an error when it needs more. *)
Theorem bigint_padded data target uppercase prefix :
  data <> [] -> zlen data <= 2 ^ 62 -> 0 < target -> heap_serves (zlen data) -> neoc_malloc_ok target = true ->
  neoc_numeric_bigint_to_padded_bytes junk (prefix_0x prefix ++ hex_of uppercase data) target =
  if 256 ^ target <=? be_number data then Err NEOC_ERROR_INVALID_SIZE
  else Ok (reverse (le_bytes (Z.to_nat target) (be_number data))).
Proof.
  intros Hd Hl Ht Hh Hm. unfold neoc_numeric_bigint_to_padded_bytes. cmps. rewrite hex_decode_alloc_text by done. cbv zeta. rewrite Hm. cbn [negb].
  destruct (skip_zeros_split data) as (n & E & Hn).
  assert (be_number data = be_number (skip_zeros data)) as -> by (rewrite E at 1; apply be_number_zeros).
  pose proof (skip_zeros_number data target ltac:(lia)) as Hi. set (u := skip_zeros data) in *. pose proof (zlen_nonneg u).
  destruct (Z.ltb_spec target (zlen u)); destruct (Z.leb_spec (256 ^ target) (be_number u)); try (exfalso; lia); [done|].
  assert (zeros target = zeros (target - zlen u) ++ zeros (zlen u)) as ->.
  { unfold zeros. rewrite <- replicate_add. f_equal. lia. }
  pose proof (zlen_zeros (target - zlen u) ltac:(lia)) as Hz. rewrite <- Hz at 1. rewrite store_next by (rewrite zlen_zeros; lia).
  rewrite drop_ge, app_nil_r by (unfold zeros; rewrite length_replicate; unfold zlen; lia). by rewrite be_padded by lia.
Qed.
End Blocks.

(** ** Trimming and exclusive or *)

Lemma trim_loop_spec src v : forall n, Z.of_nat n <= zlen src ->
  exists m, trim_loop src v n = Ok m /\ (m <= n)%nat /\ take n src = take m src ++ replicate (n - m) v /\
    forall b, last (take m src) = Some b -> b <> v.
Proof.
  induction n as [|n IH]; intros Hn; [by exists O|]. cbn [trim_loop]. rewrite at_index_ok by lia. cbn [rbind].
  set (b := nth_byte src (Z.of_nat n)).
  assert (src !! n = Some b) as Hl.
  { unfold b, nth_byte. rewrite Nat2Z.id. destruct (lookup_lt_is_Some_2 src n) as [x E]; [unfold zlen in Hn; lia|]. by rewrite E. }
  destruct (Z.eqb_spec (Z_of_byte b) (Z_of_byte v)) as [E|Hne].
  - destruct (IH ltac:(lia)) as (m & -> & Hm & Et & Hlast). exists m. split_and!; [done|lia| |done].
    apply Z_of_byte_inj in E. subst v. rewrite (take_S_r _ _ _ Hl), Et, <- app_assoc. f_equal.
    replace (S n - m)%nat with (n - m + 1)%nat by lia. by rewrite replicate_add.
  - exists (S n). split_and!; [done|lia|by rewrite Nat.sub_diag, app_nil_r|].
    intros c Hc. rewrite (take_S_r _ _ _ Hl), last_snoc in Hc. congruence.
Qed.

Section Trimming.
Context `{Allocator}.

(** What is left is the text without its longest tail of the byte; nothing is NULL. *)
Theorem bytes_trim_spec src v :
  heap_serves (zlen src) ->
  exists front n, neoc_bytes_trim_trailing src (zlen src) v = Ok (if zlen front =? 0 then None else Some front) /\
    src = front ++ replicate n v /\ (forall b, last front = Some b -> b <> v).
Proof.
  intros Hh. unfold neoc_bytes_trim_trailing. unfold zlen at 1. rewrite Nat2Z.id.
  destruct (trim_loop_spec src v (length src)) as (m & -> & Hm & Et & Hlast); [unfold zlen; lia|]. cbn [rbind]. cbv zeta.
  exists (take m src), (length src - m)%nat. rewrite firstn_all in Et. split_and!; [|done|done].
  assert (zlen (take m src) = Z.of_nat m) as -> by (unfold zlen; rewrite length_take; lia).
  destruct (Z.eqb_spec (Z.of_nat m) 0); [done|]. unfold neoc_malloc_ok. cmps. rewrite Hh by (unfold zlen; lia). cbn [negb].
  unfold memcpy_from, buf_slice. unfold zlen. cmps. by rewrite Nat2Z.id, drop_0.
Qed.
End Trimming.

Definition xor_byte (a b : byte) : byte := byte_of_Z (Z.lxor (Z_of_byte a) (Z_of_byte b)).

Lemma xor_indices lhs rhs :
  zlen lhs = zlen rhs -> zip_with xor_byte lhs rhs = map (fun i => xor_byte (nth_byte lhs i) (nth_byte rhs i)) (indices (zlen lhs)).
Proof.
  intros Hl. pose proof (zlen_nonneg lhs). rewrite <- (take_zlen lhs) at 1. rewrite <- (take_zlen rhs) at 1. rewrite <- Hl.
  rewrite <- !map_nth_byte by lia. generalize (indices (zlen lhs)). intros l. induction l as [|i l IH]; [done|]. cbn [map zip_with]. by rewrite IH.
Qed.

(** The bytes are combined one by one. *)
Theorem bytes_xor_spec lhs rhs buf :
  zlen lhs = zlen rhs -> zlen lhs <= zlen buf ->
  neoc_bytes_xor lhs rhs (zlen lhs) buf = (Ok tt, zip_with xor_byte lhs rhs ++ drop (length lhs) buf).
Proof.
  intros Hl Hb. pose proof (zlen_nonneg lhs). unfold neoc_bytes_xor.
  rewrite (fill_loop (fun i => xor_byte (nth_byte lhs i) (nth_byte rhs i)) _ _ [] buf).
  2: { intros i b Hi. rewrite !at_index_ok by lia. done. }
  2: lia.
  cbn [app]. rewrite <- xor_indices by done. unfold zlen. by rewrite Nat2Z.id.
Qed.

(** ** Addresses *)

Section Addresses.
Context `{Allocator} `{Crypto} (junk : byte).

(** The text made from the bytes of a script hash is the address that is read back as that hash. *)
Theorem bytes_address_is_address h buf :
  crypto_works -> hash160_ok h -> 36 <= zlen buf -> heap_serves 64 ->
  exists address rest,
    neoc_bytes_script_hash_to_address (hash160_data h) NEOC_ADDRESS_VERSION (zlen buf) buf = (Ok tt, address ++ Byte.x00 :: rest) /\
    neoc_hash160_from_address junk (Some address) = Ok h.
Proof.
  intros Hw Hh Hb Hheap. unfold hash160_ok, NEOC_HASH160_SIZE in Hh. set (v := NEOC_ADDRESS_VERSION :: reverse (hash160_data h)).
  assert (zlen v = 21) as Hv by (unfold v; rewrite zlen_cons, zlen_reverse; lia).
  destruct (sha256_double_ok Hw v) as (c & Ec & Hc). rewrite Hv in Ec.
  assert (zlen (v ++ take 4 c) = 25) as H25 by (rewrite zlen_app, Hv; unfold zlen; rewrite length_take; lia).
  destruct (base58_encode_spec (v ++ take 4 c) (zlen buf) buf) as (s & Ht & _ & Hok); [done|rewrite H25; lia|done| |].
  { rewrite H25. apply Hheap. vm_compute. split; discriminate. }
  assert (address_of h s) as Ha by (by exists c). pose proof (address_of_length h s Hh Ha) as Hs.
  destruct (Hok ltac:(lia)) as (rest & E). exists s, rest. split; [|by apply from_address_of].
  unfold neoc_bytes_script_hash_to_address. rewrite memcpy_from_all by done. rewrite bind_lift. cbv zeta. fold v. rewrite Ec, bind_lift.
  assert (memcpy_from c 4 = Ok (take 4 c)) as -> by (unfold memcpy_from, buf_slice, zlen; by rewrite Hc).
  rewrite bind_lift. by rewrite H25 in E.
Qed.
End Addresses.

(** ** Witnesses *)

Lemma bytes_reverse_agree_witness :
  neoc_bytes_reverse_copy [Byte.x01; Byte.x02; Byte.x03] 3 3 [Byte.x00; Byte.x00; Byte.x00] =
  neoc_bytes_reverse 3 [Byte.x01; Byte.x02; Byte.x03].
Proof. apply (bytes_reverse_agree [Byte.x01; Byte.x02; Byte.x03] [Byte.x00; Byte.x00; Byte.x00]). reflexivity. Defined.

Lemma encode_var_size_spec_witness :
  neoc_bytes_encode_var_size 0x1234 4 (zeros 4) = (Ok 3, [Byte.xfd; Byte.x34; Byte.x12; Byte.x00]).
Proof. apply (encode_var_size_spec 0x1234 4 (zeros 4)). vm_compute. split; discriminate. Defined.

(** Five bytes with the top bit of the last one set. *)
Definition sample_size : list byte := [Byte.xfe; Byte.x00; Byte.x00; Byte.x00; Byte.x80].

Lemma var_size_decoders_witness :
  neoc_numeric_decode_var_size sample_size 5 = Ok (2 ^ 31, 5) /\ neoc_bytes_decode_var_size sample_size 5 = Fault.
Proof.
  destruct (var_size_decoders sample_size 5) as [(v & n & E & _ & _ & Eb)|(E & _)]; [vm_compute; split; discriminate| |discriminate E].
  vm_compute in E. injection E as <- <-. split; [reflexivity|exact Eb].
Defined.

Lemma var_size_roundtrip_witness :
  neoc_numeric_decode_var_size [Byte.xfe; Byte.x00; Byte.x00; Byte.x01; Byte.x00; Byte.x77] 5 = Ok (65536, 5).
Proof. apply (var_size_roundtrip 65536 [Byte.x77]). split; [discriminate|reflexivity]. Defined.

Lemma uint64_bytes_roundtrip_witness :
  exists le be,
    neoc_uint64_to_bytes_le 0x12345 2 (zeros 2) = (Ok tt, le) /\ neoc_uint64_to_bytes_be 0x12345 2 (zeros 2) = (Ok tt, be) /\
    neoc_bytes_to_uint64_le le 2 = Ok 0x2345 /\ neoc_bytes_to_uint64_be be 2 = Ok 0x2345.
Proof. apply (uint64_bytes_roundtrip 0x12345 2 (zeros 2)); [lia|vm_compute; discriminate]. Defined.

Lemma numeric_power_exact_witness : neoc_numeric_power (-2) 31 = Ok (- 2 ^ 31) /\ neoc_numeric_power 2 31 = Fault.
Proof. split; [apply (numeric_power_exact (-2) 31)|apply (numeric_power_exact 2 31)]; lia. Defined.

Lemma numeric_from_bytes_value_witness :
  exists le be,
    neoc_numeric_from_bytes_le [Byte.x01] 1 4 (zeros 4) = (Ok tt, le) /\ le_val le = 1 /\
    neoc_numeric_from_bytes_be [Byte.x01] 1 4 (zeros 4) = (Ok tt, be) /\ le_val be = 0x1000000 /\ zlen le = 4 /\ zlen be = 4.
Proof. apply (numeric_from_bytes_value [Byte.x01] (zeros 4)); [discriminate|discriminate|vm_compute; discriminate]. Defined.

Section Samples.
#[local] Existing Instance mib_heap.

Lemma numeric_bytes_roundtrip_witness :
  exists le be,
    neoc_numeric_to_bytes_le Byte.xcd [Byte.x01; Byte.x02] 2 = Ok le /\ neoc_numeric_to_bytes_be Byte.xcd [Byte.x01; Byte.x02] 2 = Ok be /\
    be = reverse le /\
    neoc_numeric_from_bytes_le le (zlen le) 2 (zeros 2) = (Ok tt, [Byte.x01; Byte.x02]) /\
    neoc_numeric_from_bytes_be be (zlen be) 2 (zeros 2) = (Ok tt, [Byte.x01; Byte.x02]).
Proof. apply (numeric_bytes_roundtrip Byte.xcd [Byte.x01; Byte.x02] (zeros 2)); [discriminate|reflexivity|reflexivity]. Defined.

Lemma bytes_pad_number_witness :
  neoc_bytes_pad Byte.xcd [Byte.x00; Byte.x05] 2 4 false = Ok [Byte.x00; Byte.x00; Byte.x00; Byte.x05].
Proof. apply (bytes_pad_number Byte.xcd [Byte.x00; Byte.x05] 4); [discriminate|lia|vm_compute; discriminate|reflexivity]. Defined.

Lemma bigint_padded_witness :
  neoc_numeric_bigint_to_padded_bytes Byte.xcd (str "0x000102") 4 = Ok [Byte.x00; Byte.x00; Byte.x01; Byte.x02] /\
  neoc_numeric_bigint_to_padded_bytes Byte.xcd (str "0x000102") 1 = Err NEOC_ERROR_INVALID_SIZE.
Proof.
  split; [apply (bigint_padded Byte.xcd [Byte.x00; Byte.x01; Byte.x02] 4 false true)|apply (bigint_padded Byte.xcd [Byte.x00; Byte.x01; Byte.x02] 1 false true)];
    try discriminate; try reflexivity; try lia; try (vm_compute; discriminate); apply mib_heap_serves; vm_compute; discriminate.
Defined.

Lemma bytes_trim_spec_witness :
  exists front n, neoc_bytes_trim_trailing [Byte.x05; Byte.x00] 2 Byte.x00 = Ok (if zlen front =? 0 then None else Some front) /\
    [Byte.x05; Byte.x00] = front ++ replicate n Byte.x00 /\ (forall b, last front = Some b -> b <> Byte.x00).
Proof. apply (bytes_trim_spec [Byte.x05; Byte.x00] Byte.x00). apply mib_heap_serves. vm_compute. discriminate. Defined.

Lemma bytes_address_is_address_witness :
  exists address rest,
    neoc_bytes_script_hash_to_address (H0 := toy_crypto) (hash160_data sample160) NEOC_ADDRESS_VERSION 40 (zeros 40) = (Ok tt, address ++ Byte.x00 :: rest) /\
    neoc_hash160_from_address (H0 := toy_crypto) Byte.xcd (Some address) = Ok sample160.
Proof.
  apply (bytes_address_is_address (H0 := toy_crypto) Byte.xcd sample160 (zeros 40)).
  - exact toy_crypto_works.
  - reflexivity.
  - vm_compute. discriminate.
  - apply mib_heap_serves. lia.
Defined.
End Samples.

Lemma bytes_xor_spec_witness :
  neoc_bytes_xor [Byte.x0f] [Byte.xff] 1 [Byte.x00; Byte.x07] = (Ok tt, [Byte.xf0; Byte.x07]).
Proof. apply (bytes_xor_spec [Byte.x0f] [Byte.xff] [Byte.x00; Byte.x07]); [reflexivity|vm_compute; discriminate]. Defined.
