(* ===== verification/PointerArray.v ===== *)
(** * Arrays of pointers (src/utils/array.c, the functions on neoc_array_t)

    An array owns one block for each of its elements.  The blocks are in a store, so that two places of the
    array that hold the same pointer, and pointers to freed blocks, are part of the model.  Whether the
    [n]-th request for memory is served is decided by [served], over which the theorems quantify. *)

From stdpp Require Import gmap.
From S2P Require Import Prelude Bytes.

(** ** State *)

(** NULL is [None]. *)
Abbreviation pointer := (option positive).

Record heap := mk_heap { blocks : gmap positive (list byte); next_block : positive; requests : nat }.

(** The array of pointers, [Freed] after [neoc_realloc] to 0 bytes and after [neoc_array_free]. *)
Record neoc_array_t := mk_array {
  ar_elements : block pointer;
  ar_count : Z;
  ar_capacity : Z;
  ar_element_size : Z }.

Record array_state := mk_array_state { the_array : neoc_array_t; the_heap : heap }.

Definition DEFAULT_ARRAY_CAPACITY : Z := 16.
Definition array_struct_size : Z := 32.
Definition pointer_size : Z := 8.

(** ** Operations *)

Section Operations.
Context (served : nat -> Z -> bool) (junk : byte) (junk_pointer : pointer).

(** Is the request served?  [neoc_malloc] of 0 bytes is NULL without a request. *)
Definition ask (size : Z) : M heap bool := fun h =>
  if size =? 0 then (Ok false, h)
  else (Ok (served (requests h) size), mk_heap (blocks h) (next_block h) (S (requests h))).

Definition malloc_block (size : Z) : M heap pointer :=
  let! ok := ask size in
  if negb ok then ret None
  else fun h =>
    (Ok (Some (next_block h)),
     mk_heap (<[next_block h := replicate (Z.to_nat size) junk]> (blocks h)) (Pos.succ (next_block h)) (requests h)).

(** Freeing a block that is not allocated is undefined. *)
Definition free_pointer (p : pointer) : M heap unit := fun h =>
  match p with
  | None => (Ok tt, h)
  | Some p =>
      match blocks h !! p with
      | Some _ => (Ok tt, mk_heap (delete p (blocks h)) (next_block h) (requests h))
      | None => (Fault, h)
      end
  end.

(** [memcpy] of the caller's element into a block. *)
Definition fill_pointer (p : pointer) (element : list byte) (size : Z) : M heap unit := fun h =>
  match p with
  | None => (Fault, h)
  | Some p =>
      match blocks h !! p, memcpy_from element size with
      | Some old, Ok d => 
          match buf_copy old 0 d with
          | Some b => (Ok tt, mk_heap (<[p := b]> (blocks h)) (next_block h) (requests h))
          | None => (Fault, h)
          end
      | _, _ => (Fault, h)
      end
  end.

Definition on_heap {A} (m : M heap A) : M array_state A := fun s =>
  let '(r, h) := m (the_heap s) in (r, mk_array_state (the_array s) h).

Definition get_array : M array_state neoc_array_t := fun s => (Ok (the_array s), s).
Definition put_array (a : neoc_array_t) : M array_state unit := fun s => (Ok tt, mk_array_state a (the_heap s)).

(** [elements[i]] *)
Definition get_slot (i : Z) : M array_state pointer := fun s =>
  match ar_elements (the_array s) with
  | Live slots => match buf_get slots i with Some p => (Ok p, s) | None => (Fault, s) end
  | _ => (Fault, s)
  end.

(** [elements[i] = p] *)
Definition set_slot (i : Z) (p : pointer) : M array_state unit := fun s =>
  let a := the_array s in
  match ar_elements a with
  | Live slots =>
      match buf_copy slots i [p] with
      | Some slots => (Ok tt, mk_array_state (mk_array (Live slots) (ar_count a) (ar_capacity a) (ar_element_size a)) (the_heap s))
      | None => (Fault, s)
      end
  | _ => (Fault, s)
  end.

Definition set_count (count : Z) : M array_state unit :=
  let! a := get_array in put_array (mk_array (ar_elements a) count (ar_capacity a) (ar_element_size a)).

(** The number of places a block of [capacity * sizeof(void* )] bytes, a product of 64 bits, has. *)
Definition slots_of (capacity : Z) : nat := Z.to_nat (wrap 64 (capacity * pointer_size) / pointer_size).

Definition neoc_array_create (element_size initial_capacity : Z) : M heap neoc_array_t :=
  if element_size =? 0 then fail NEOC_ERROR_INVALID_PARAM
  else
    let! struct_ok := ask array_struct_size in
    if negb struct_ok then fail NEOC_ERROR_OUT_OF_MEMORY
    else
      let capacity := if 0 <? initial_capacity then initial_capacity else DEFAULT_ARRAY_CAPACITY in
      let! elements_ok := ask (wrap 64 (capacity * pointer_size)) in
      if negb elements_ok then fail NEOC_ERROR_OUT_OF_MEMORY
      else ret (mk_array (Live (replicate (slots_of capacity) junk_pointer)) 0 capacity element_size).

Definition neoc_array_resize (new_capacity : Z) : M array_state unit :=
  let! a := get_array in
  let size := wrap 64 (new_capacity * pointer_size) in
  if size =? 0 then
    do! put_array (mk_array Freed (ar_count a) (ar_capacity a) (ar_element_size a)) in fail NEOC_ERROR_OUT_OF_MEMORY
  else
    let! ok := on_heap (ask size) in
    if negb ok then fail NEOC_ERROR_OUT_OF_MEMORY
    else
      match block_items (ar_elements a) with
      | None => fault
      | Some slots =>
          put_array (mk_array (Live (take (slots_of new_capacity) (slots ++ replicate (slots_of new_capacity - length slots) junk_pointer)))
                       (ar_count a) new_capacity (ar_element_size a))
      end.

(** [if (count >= capacity) resize(capacity * 2)] *)
Definition make_room : M array_state unit :=
  let! a := get_array in
  if ar_capacity a <=? ar_count a then neoc_array_resize (wrap 64 (ar_capacity a * 2)) else ret tt.

(** A block with a copy of the element; NULL when there is no memory. *)
Definition new_element (element : list byte) : M array_state pointer :=
  let! a := get_array in
  let! p := on_heap (malloc_block (ar_element_size a)) in
  match p with
  | None => ret None
  | Some _ => do! on_heap (fill_pointer p element (ar_element_size a)) in ret p
  end.

Definition neoc_array_append (element : list byte) : M array_state unit :=
  do! make_room in
  let! p := new_element element in
  match p with
  | None => fail NEOC_ERROR_OUT_OF_MEMORY
  | Some _ =>
      let! a := get_array in
      do! set_slot (ar_count a) p in
      set_count (ar_count a + 1)
  end.

(** [for (i = count; i > index; i--) elements[i] = elements[i - 1]], [n] turns. *)
Fixpoint shift_right (n : nat) (i : Z) : M array_state unit :=
  match n with
  | O => ret tt
  | S n => let! p := get_slot (i - 1) in do! set_slot i p in shift_right n (i - 1)
  end.

Definition neoc_array_insert (index : Z) (element : list byte) : M array_state unit :=
  let! a := get_array in
  if ar_count a <? index then fail NEOC_ERROR_INVALID_PARAM
  else
    do! make_room in
    do! shift_right (Z.to_nat (ar_count a - index)) (ar_count a) in
    let! p := new_element element in
    match p with
    | None => fail NEOC_ERROR_OUT_OF_MEMORY
    | Some _ => do! set_slot index p in set_count (ar_count a + 1)
    end.

Definition neoc_array_prepend (element : list byte) : M array_state unit := neoc_array_insert 0 element.

(** [for (i = index; i < count - 1; i++) elements[i] = elements[i + 1]], [n] turns. *)
Fixpoint shift_left (n : nat) (i : Z) : M array_state unit :=
  match n with
  | O => ret tt
  | S n => let! p := get_slot (i + 1) in do! set_slot i p in shift_left n (i + 1)
  end.

Definition neoc_array_remove (index : Z) : M array_state unit :=
  let! a := get_array in
  if ar_count a <=? index then fail NEOC_ERROR_INVALID_PARAM
  else
    let! p := get_slot index in
    do! on_heap (free_pointer p) in
    do! shift_left (Z.to_nat (ar_count a - 1 - index)) index in
    set_count (ar_count a - 1).

Definition neoc_array_get (index : Z) : M array_state pointer :=
  let! a := get_array in
  if ar_count a <=? index then fail NEOC_ERROR_INVALID_PARAM else get_slot index.

Definition neoc_array_set (index : Z) (element : list byte) : M array_state unit :=
  let! a := get_array in
  if ar_count a <=? index then fail NEOC_ERROR_INVALID_PARAM
  else
    let! old := get_slot index in
    do! on_heap (free_pointer old) in
    let! p := new_element element in
    match p with
    | None => do! set_slot index None in fail NEOC_ERROR_OUT_OF_MEMORY
    | Some _ => set_slot index p
    end.

Definition neoc_array_count (a : neoc_array_t) : Z := ar_count a.
Definition neoc_array_is_empty (a : neoc_array_t) : bool := ar_count a =? 0.

Definition neoc_array_clear : M array_state unit :=
  let! a := get_array in
  do! for_each (fun i => let! p := get_slot i in on_heap (free_pointer p)) (indices (ar_count a)) in
  set_count 0.

(** The block of pointers is freed; the struct as well. *)
Definition neoc_array_free : M array_state unit :=
  do! neoc_array_clear in
  let! a := get_array in
  match ar_elements a with
  | Freed => fault
  | _ => put_array (mk_array Freed (ar_count a) (ar_capacity a) (ar_element_size a))
  end.
End Operations.

Lemma list_delete_middle_eq {A} (l1 l2 : list A) x : delete (length l1) (l1 ++ x :: l2) = l1 ++ l2.
Proof. apply delete_middle. Qed.

Lemma list_insert_middle_eq {A} (l1 l2 : list A) x y : <[length l1 := y]> (l1 ++ x :: l2) = l1 ++ y :: l2.
Proof. rewrite <- (Nat.add_0_r (length l1)). by rewrite insert_app_r. Qed.

Lemma for_each_app {S A} (f : A -> M S unit) l1 l2 s s' :
  for_each f l1 s = (Ok tt, s') -> for_each f (l1 ++ l2) s = for_each f l2 s'.
Proof.
  revert s. induction l1 as [|x l1 IH]; intros s; cbn [for_each app]; [by intros [= ->]|]. unfold bind. destruct (f x s) as [[[]|e|] s1]; [apply IH|done|done].
Qed.

(** ** The list an array stands for *)

(** A place stands for nothing (NULL) or for the bytes of its block. *)
Definition points (h : heap) (size : Z) (p : pointer) (v : option (list byte)) : Prop :=
  match p, v with
  | None, None => True
  | Some p, Some b => blocks h !! p = Some b /\ zlen b = size
  | _, _ => False
  end.

(** Blocks that were not given out yet are not allocated. *)
Definition fresh_above (h : heap) : Prop := forall p, (next_block h <= p)%positive -> blocks h !! p = None.

Record owns (size : Z) (ps : list pointer) (vs : list (option (list byte))) (h : heap) : Prop := {
  owns_values : Forall2 (points h size) ps vs;
  owns_distinct : NoDup (omap id ps);
  owns_fresh : fresh_above h;
  owns_all : forall p, is_Some (blocks h !! p) -> p ∈ omap id ps }.

(** The array with the given places, of which the first [count] are in use. *)
Definition array_with (slots : list pointer) (count capacity size : Z) (h : heap) : array_state :=
  mk_array_state (mk_array (Live slots) count capacity size) h.

(** The array stands for [vs]: different live blocks of the right size for the values, NULL for the missing ones,
    and no other block. *)
Definition array_rep (size : Z) (vs : list (option (list byte))) (s : array_state) : Prop :=
  exists ps rest h, s = array_with (ps ++ rest) (zlen ps) (zlen ps + zlen rest) size h /\ owns size ps vs h /\
    1 <= zlen ps + zlen rest < 2 ^ 60 /\ 0 < size.

Definition same_blocks (h h' : heap) : Prop := blocks h' = blocks h /\ next_block h' = next_block h.

Lemma owns_same size ps vs h h' : owns size ps vs h -> same_blocks h h' -> owns size ps vs h'.
Proof.
  intros [Hv Hd Hf Ha] [Eb En]. split; [|done| |].
  - eapply Forall2_impl; [exact Hv|]. intros [p|] [v|]; cbn; by rewrite ?Eb.
  - intros p Hp. rewrite Eb. apply Hf. by rewrite <- En.
  - intros p Hp. apply Ha. by rewrite <- Eb.
Qed.

Lemma bind_get_array {A} (k : neoc_array_t -> M array_state A) s : bind get_array k s = k (the_array s) s.
Proof. done. Qed.

Section Lemmas.
Context (served : nat -> Z -> bool) (junk : byte) (junk_pointer : pointer).

(** No block is larger than [PTRDIFF_MAX]. *)
Hypothesis served_bounded : forall n z, served n z = true -> z < 2 ^ 63.

(** Some request of at most [n] bytes is not served. *)
Definition refused (n : Z) : Prop := exists k z, 0 < z <= n /\ served k z = false.

Lemma ask_spec size h :
  0 < size -> exists b h', ask served size h = (Ok b, h') /\ same_blocks h h' /\ (if b then size < 2 ^ 63 else refused size).
Proof.
  intros Hs. unfold ask. cmps. eexists _, _. split; [done|]. split; [done|].
  destruct (served (requests h) size) eqn:E; [by eapply served_bounded|]. exists (requests h), size. split; [lia|done].
Qed.

Lemma get_slot_at l x r count capacity size h i :
  i = zlen l -> get_slot i (array_with (l ++ x :: r) count capacity size h) = (Ok x, array_with (l ++ x :: r) count capacity size h).
Proof.
  intros ->. unfold get_slot, array_with, buf_get. cbn [the_array ar_elements]. pose proof (zlen_nonneg l). cmps. unfold zlen. rewrite Nat2Z.id.
  by rewrite list_lookup_middle.
Qed.

Lemma set_slot_at l x y r count capacity size h i :
  i = zlen l -> set_slot i y (array_with (l ++ x :: r) count capacity size h) = (Ok tt, array_with (l ++ y :: r) count capacity size h).
Proof.
  intros ->. pose proof (store_mid x y l r (zlen l) eq_refl) as E. unfold store in E. unfold set_slot, array_with.
  cbn [the_array ar_elements ar_count ar_capacity ar_element_size the_heap]. destruct (buf_copy _ _ _) as [b|]; [|done]. by injection E as ->.
Qed.

Lemma slots_of_small c : 0 <= c < 2 ^ 60 -> slots_of c = Z.to_nat c.
Proof. intros Hc. unfold slots_of, pointer_size. rewrite wrap_small by lia. by rewrite Z.div_mul. Qed.

(** There is room for one more, or nothing has changed. *)
Lemma make_room_spec ps rest size h :
  1 <= zlen ps + zlen rest < 2 ^ 60 ->
  (exists x rest' h', make_room served junk_pointer (array_with (ps ++ rest) (zlen ps) (zlen ps + zlen rest) size h) =
     (Ok tt, array_with (ps ++ x :: rest') (zlen ps) (zlen ps + zlen (x :: rest')) size h') /\ same_blocks h h' /\
     zlen ps + zlen (x :: rest') < 2 ^ 60 /\ zlen ps + zlen (x :: rest') <= Z.max (zlen ps + zlen rest) (2 * zlen ps)) \/
  (exists h', make_room served junk_pointer (array_with (ps ++ rest) (zlen ps) (zlen ps + zlen rest) size h) =
     (Err NEOC_ERROR_OUT_OF_MEMORY, array_with (ps ++ rest) (zlen ps) (zlen ps + zlen rest) size h') /\ same_blocks h h' /\
     refused (16 * (zlen ps + zlen rest))).
Proof.
  intros Hc. destruct rest as [|x rest].
  { rewrite zlen_nil in *. rewrite app_nil_r, Z.add_0_r in *.
    destruct (ask_spec (zlen ps * 2 * 8) h ltac:(lia)) as (b & h' & Ea & Hsame & Hb).
    assert (make_room served junk_pointer (array_with ps (zlen ps) (zlen ps) size h) =
      if b then (Ok tt, array_with (ps ++ replicate (length ps) junk_pointer) (zlen ps) (zlen ps * 2) size h')
      else (Err NEOC_ERROR_OUT_OF_MEMORY, array_with ps (zlen ps) (zlen ps) size h')) as ->.
    { unfold make_room, neoc_array_resize, get_array, on_heap, bind, array_with, pointer_size.
      cbn [the_array the_heap ar_capacity ar_count ar_elements ar_element_size]. cmps. rewrite (wrap_small 64 (zlen ps * 2)) by lia. rewrite (wrap_small 64 (zlen ps * 2 * 8)) by lia. cmps.
      cbn [the_array the_heap]. rewrite Ea.
      destruct b; [|done]. cbn [negb ar_elements block_items]. unfold put_array. cbn [the_heap ar_count ar_element_size]. rewrite slots_of_small by lia.
      rewrite take_ge by (rewrite length_app, length_replicate; unfold zlen in *; lia).
      by replace (Z.to_nat (zlen ps * 2) - length ps)%nat with (length ps) by (unfold zlen; lia). }
    destruct b; [left|right].
    - destruct (length ps) as [|n] eqn:En; [unfold zlen in Hc; rewrite En in Hc; lia|]. exists junk_pointer, (replicate n junk_pointer), h'.
      assert (zlen (junk_pointer :: replicate n junk_pointer) = zlen ps) as ->
        by (rewrite zlen_cons, zlen_replicate; unfold zlen; lia).
      split_and!; [|done|lia|lia]. cbn [replicate]. do 2 f_equal. lia.
    - exists h'. split_and!; [done|done|]. destruct Hb as (k & z & Hz & Hk). exists k, z. split; [lia|done]. }
  left. exists x, rest, h. rewrite zlen_cons in *. pose proof (zlen_nonneg rest). split_and!; [|done|lia|lia].
  unfold make_room, get_array, bind, array_with. cbn [the_array ar_capacity ar_count]. cmps. done.
Qed.

(** A new block for an element, or none. *)
Lemma new_element_spec e s size :
  ar_element_size (the_array s) = size -> 0 < size -> zlen e = size ->
  (exists h', new_element served junk e s = (Ok (Some (next_block (the_heap s))), mk_array_state (the_array s) h') /\
     blocks h' = <[next_block (the_heap s) := e]> (blocks (the_heap s)) /\ next_block h' = Pos.succ (next_block (the_heap s))) \/
  (exists h', new_element served junk e s = (Ok None, mk_array_state (the_array s) h') /\ same_blocks (the_heap s) h' /\ refused size).
Proof.
  intros Es Hs He. destruct s as [a h]. cbn [the_array the_heap] in *.
  destruct (ask_spec size h Hs) as (b & h' & Ea & [Eb En] & Hb).
  assert (new_element served junk e (mk_array_state a h) =
    if b then (Ok (Some (next_block h)), mk_array_state a (mk_heap (<[next_block h := e]> (blocks h)) (Pos.succ (next_block h)) (requests h')))
    else (Ok None, mk_array_state a h')) as ->.
  { unfold new_element, get_array, malloc_block, bind at 1. cbn [the_array]. rewrite Es. unfold on_heap, bind. cbn [the_heap the_array].
    rewrite Ea. destruct b; [|done]. cbn [negb the_heap the_array]. unfold fill_pointer. cbn [blocks next_block requests]. rewrite lookup_insert_eq.
    rewrite memcpy_from_all by done. pose proof (store_first e (replicate (Z.to_nat size) junk) ltac:(rewrite zlen_replicate; lia)) as E. unfold store in E.
    destruct (buf_copy _ 0 e) as [bl|]; [|discriminate]. injection E as ->.
    rewrite drop_ge, app_nil_r by (rewrite length_replicate; unfold zlen in He; lia). rewrite En, Eb. by rewrite insert_insert_eq. }
  destruct b; [left|right]; eexists; (split; [done|]); done.
Qed.

Lemma shift_right_spec l1 l2 : forall x r count capacity size h,
  shift_right (length l2) (zlen l1 + zlen l2) (array_with (l1 ++ l2 ++ x :: r) count capacity size h) =
  (Ok tt, array_with (l1 ++ hd x l2 :: l2 ++ r) count capacity size h).
Proof.
  induction l2 as [|q l2 IH] using List.rev_ind; intros x r count capacity size h; [done|].
  rewrite length_app, Nat.add_comm. cbn [length Nat.add shift_right]. rewrite zlen_app. change (zlen [q]) with 1.
  replace (l1 ++ (l2 ++ [q]) ++ x :: r) with ((l1 ++ l2) ++ q :: x :: r) by (by rewrite <- !app_assoc).
  erewrite bind_ok; [|apply get_slot_at; rewrite zlen_app; lia].
  replace ((l1 ++ l2) ++ q :: x :: r) with ((l1 ++ l2 ++ [q]) ++ x :: r) by (by rewrite <- !app_assoc).
  erewrite bind_ok; [|apply set_slot_at; rewrite !zlen_app; change (zlen [q]) with 1; lia].
  replace ((l1 ++ l2 ++ [q]) ++ q :: r) with (l1 ++ l2 ++ q :: q :: r) by (by rewrite <- !app_assoc).
  replace (zlen l1 + (zlen l2 + 1) - 1) with (zlen l1 + zlen l2) by lia. rewrite IH. rewrite <- app_assoc. cbn [app]. by destruct l2.
Qed.

Lemma last_cons_same {A} (l : list A) q x : List.last (q :: l) x = List.last l q.
Proof. revert q x. induction l as [|y l IH]; intros q x; [done|]. change (List.last (y :: l) x = List.last (y :: l) q). by rewrite !IH. Qed.

Lemma shift_left_spec l2 : forall l1 x r count capacity size h,
  shift_left (length l2) (zlen l1) (array_with (l1 ++ x :: l2 ++ r) count capacity size h) =
  (Ok tt, array_with (l1 ++ l2 ++ List.last l2 x :: r) count capacity size h).
Proof.
  induction l2 as [|q l2 IH]; intros l1 x r count capacity size h; [done|]. cbn [length shift_left app].
  replace (l1 ++ x :: q :: l2 ++ r) with ((l1 ++ [x]) ++ q :: l2 ++ r) by (by rewrite <- app_assoc).
  erewrite bind_ok; [|apply get_slot_at; by rewrite zlen_app].
  rewrite <- app_assoc. cbn [app]. erewrite bind_ok; [|by apply set_slot_at].
  replace (l1 ++ q :: q :: l2 ++ r) with ((l1 ++ [q]) ++ q :: l2 ++ r) by (by rewrite <- app_assoc).
  replace (zlen l1 + 1) with (zlen (l1 ++ [q])) by (by rewrite zlen_app). rewrite IH, <- app_assoc. cbn [app]. by rewrite last_cons_same.
Qed.
End Lemmas.

(** ** Blocks that come and go *)

Lemma split_index {A} (l : list A) i : 0 <= i < zlen l -> exists l1 x l2, l = l1 ++ x :: l2 /\ zlen l1 = i.
Proof.
  intros Hi. destruct (lookup_lt_is_Some_2 l (Z.to_nat i)) as [x E]; [unfold zlen in Hi; lia|].
  exists (take (Z.to_nat i) l), x, (drop (S (Z.to_nat i)) l). split; [by rewrite take_drop_middle|].
  unfold zlen in *. rewrite length_take. lia.
Qed.

Lemma points_insert h h' size ps vs n e :
  fresh_above h -> (next_block h <= n)%positive -> blocks h' = <[n := e]> (blocks h) -> Forall2 (points h size) ps vs -> Forall2 (points h' size) ps vs.
Proof.
  intros Hf Hn Eb Hv. eapply Forall2_impl; [exact Hv|]. intros [p|] [v|]; cbn; try done. intros [E Hz]. split; [|done].
  rewrite Eb, lookup_insert_ne; [done|]. intros <-. by rewrite Hf in E.
Qed.

Lemma points_live h size ps vs p : Forall2 (points h size) ps vs -> p ∈ omap id ps -> is_Some (blocks h !! p).
Proof.
  intros Hv Hp. apply list_elem_of_omap in Hp as ([q|] & Hq & E); [|done]. injection E as ->.
  apply list_elem_of_lookup in Hq as [i Hi]. destruct (Forall2_lookup_l _ _ _ _ _ Hv Hi) as ([v|] & _ & Hpt); [|done]. destruct Hpt as [-> _]. done.
Qed.

(** A new block somewhere in the list. *)
Lemma owns_new size ps1 ps2 vs1 vs2 h h' e :
  owns size (ps1 ++ ps2) (vs1 ++ vs2) h -> length ps1 = length vs1 -> zlen e = size ->
  blocks h' = <[next_block h := e]> (blocks h) -> next_block h' = Pos.succ (next_block h) ->
  owns size (ps1 ++ Some (next_block h) :: ps2) (vs1 ++ Some e :: vs2) h'.
Proof.
  intros [Hv Hd Hf Ha] Hl He Eb En. pose proof (points_insert h h' size _ _ _ e Hf (Pos.le_refl _) Eb Hv) as Hv'.
  apply Forall2_app_inv in Hv' as [H1 H2]; [|done]. split.
  - apply Forall2_app; [done|]. constructor; [|done]. cbn. by rewrite Eb, lookup_insert_eq.
  - rewrite omap_app. change (omap id (Some (next_block h) :: ps2)) with (next_block h :: omap id ps2).
    rewrite <- Permutation_middle, <- omap_app. apply NoDup_cons. split; [|done]. intros Hin. destruct (points_live _ _ _ _ _ Hv Hin) as [b E]. by rewrite Hf in E.
  - intros p Hp. rewrite Eb, En in *. rewrite lookup_insert_ne by lia. apply Hf. lia.
  - intros p Hp. rewrite omap_app. change (omap id (Some (next_block h) :: ps2)) with (next_block h :: omap id ps2).
    rewrite <- Permutation_middle, <- omap_app. apply elem_of_cons. rewrite Eb in Hp.
    destruct (decide (p = next_block h)) as [|Hne]; [by left|]. right. apply Ha. by rewrite lookup_insert_ne in Hp.
Qed.

(** NULL owns nothing. *)
Lemma owns_null size ps1 ps2 vs1 vs2 h :
  owns size (ps1 ++ ps2) (vs1 ++ vs2) h -> length ps1 = length vs1 -> owns size (ps1 ++ None :: ps2) (vs1 ++ None :: vs2) h.
Proof.
  intros [Hv Hd Hf Ha] Hl. apply Forall2_app_inv in Hv as [H1 H2]; [|done]. split; [| |done|].
  - apply Forall2_app; [done|]. by constructor.
  - rewrite omap_app in *. exact Hd.
  - intros p Hp. specialize (Ha p Hp). rewrite omap_app in *. exact Ha.
Qed.

(** A block that is freed is not needed by the others. *)
Lemma owns_free size ps1 p ps2 vs1 v vs2 h :
  owns size (ps1 ++ p :: ps2) (vs1 ++ v :: vs2) h -> length ps1 = length vs1 ->
  exists h', free_pointer p h = (Ok tt, h') /\ owns size (ps1 ++ ps2) (vs1 ++ vs2) h'.
Proof.
  intros [Hv Hd Hf Ha] Hl. apply Forall2_app_inv in Hv as [H1 H2]; [|done]. inversion H2 as [|?? ?? Hp H2']; subst.
  destruct p as [p|]; cbn [free_pointer].
  - destruct v as [v|]; [|done]. destruct Hp as [E _]. rewrite E. eexists. split; [done|].
    assert (omap id (ps1 ++ Some p :: ps2) ≡ₚ p :: omap id (ps1 ++ ps2)) as Hperm.
    { rewrite !omap_app. change (omap id (Some p :: ps2)) with (p :: omap id ps2). by rewrite Permutation_middle. }
    rewrite Hperm in Hd. apply NoDup_cons in Hd as [Hn Hd]. split; [|done| |].
    + assert (Forall2 (points h size) (ps1 ++ ps2) (vs1 ++ vs2)) as Hv by (by apply Forall2_app).
      apply Forall2_same_length_lookup. split; [by eapply Forall2_length|]. intros i [q|] w Hq Hw; pose proof (Forall2_lookup_lr _ _ _ _ _ _ Hv Hq Hw) as Hpt; [|done].
      destruct w as [w|]; [|done]. cbn in *. rewrite lookup_delete_ne; [done|]. intros <-. apply Hn. apply list_elem_of_omap. exists (Some p). split; [|done].
      by eapply list_elem_of_lookup_2.
    + intros q Hq. cbn [blocks next_block] in *. rewrite lookup_delete_None. right. by apply Hf.
    + intros q Hq. cbn [blocks] in Hq. destruct (decide (p = q)) as [<-|Hne]; [by rewrite lookup_delete_eq in Hq; destruct Hq|].
      rewrite lookup_delete_ne in Hq by done. specialize (Ha q Hq). rewrite Hperm in Ha. apply elem_of_cons in Ha as [->|Ha]; [done|exact Ha].
  - destruct v as [v|]; [done|]. exists h. split; [done|]. split; [by apply Forall2_app| |done|].
    + rewrite omap_app in *. exact Hd.
    + intros q Hq. specialize (Ha q Hq). rewrite omap_app in *. exact Ha.
Qed.

(** ** What an array promises *)

Inductive array_op :=
| OpAppend (element : list byte)
| OpInsert (index : Z) (element : list byte)
| OpPrepend (element : list byte)
| OpRemove (index : Z)
| OpSet (index : Z) (element : list byte)
| OpClear.

Definition insert_value (index : Z) (v : option (list byte)) (vs : list (option (list byte))) : list (option (list byte)) :=
  take (Z.to_nat index) vs ++ v :: drop (Z.to_nat index) vs.

(** The list, with [memory] saying whether there is memory for the operation. *)
Definition spec_op (memory : bool) (op : array_op) (vs : list (option (list byte))) : res unit * list (option (list byte)) :=
  let allocating vs' := if memory then (Ok tt, vs') else (Err NEOC_ERROR_OUT_OF_MEMORY, vs) in
  match op with
  | OpAppend e => allocating (vs ++ [Some e])
  | OpInsert i e => if zlen vs <? i then (Err NEOC_ERROR_INVALID_PARAM, vs) else allocating (insert_value i (Some e) vs)
  | OpPrepend e => allocating (Some e :: vs)
  | OpRemove i => if zlen vs <=? i then (Err NEOC_ERROR_INVALID_PARAM, vs) else (Ok tt, delete (Z.to_nat i) vs)
  | OpSet i e =>
      if zlen vs <=? i then (Err NEOC_ERROR_INVALID_PARAM, vs)
      else if memory then (Ok tt, <[Z.to_nat i := Some e]> vs) else (Err NEOC_ERROR_OUT_OF_MEMORY, <[Z.to_nat i := None]> vs)
  | OpClear => (Ok tt, [])
  end.

(** An insertion in front of at least two elements that runs out of memory. *)
Definition torn (memory : bool) (op : array_op) (vs : list (option (list byte))) : bool :=
  negb memory &&
  match op with OpInsert i _ => i + 1 <? zlen vs | OpPrepend _ => 1 <? zlen vs | _ => false end.

Definition op_fits (size : Z) (op : array_op) : Prop :=
  match op with
  | OpAppend e | OpPrepend e => zlen e = size
  | OpInsert i e | OpSet i e => 0 <= i /\ zlen e = size
  | OpRemove i => 0 <= i
  | OpClear => True
  end.

Section Steps.
Context (served : nat -> Z -> bool) (junk : byte) (junk_pointer : pointer).
Hypothesis served_bounded : forall n z, served n z = true -> z < 2 ^ 63.

Definition exec_array_op (op : array_op) : M array_state unit :=
  match op with
  | OpAppend e => neoc_array_append served junk junk_pointer e
  | OpInsert i e => neoc_array_insert served junk junk_pointer i e
  | OpPrepend e => neoc_array_prepend served junk junk_pointer e
  | OpRemove i => neoc_array_remove i
  | OpSet i e => neoc_array_set served junk i e
  | OpClear => neoc_array_clear
  end.

Definition capacity_of (s : array_state) : Z := ar_capacity (the_array s).

(** What an operation does: the result and list of the specification for some [memory], unless it was torn;
    without [memory] some request was refused. *)
Definition step_ok (size : Z) (op : array_op) (vs : list (option (list byte))) (s : array_state) (o : res unit * array_state) : Prop :=
  exists memory,
    fst o = fst (spec_op memory op vs) /\
    (torn memory op vs = false -> array_rep size (snd (spec_op memory op vs)) (snd o)) /\
    capacity_of (snd o) <= Z.max (capacity_of s) (2 * zlen vs) /\
    (memory = false -> refused served (Z.max size (16 * capacity_of s))).

Lemma rep_lengths size ps vs h : owns size ps vs h -> zlen ps = zlen vs.
Proof. intros Ho. unfold zlen. f_equal. eapply Forall2_length, (owns_values _ _ _ _ Ho). Qed.

Lemma refused_mono a b : refused served a -> a <= b -> refused served b.
Proof. intros (k & z & Hz & E) Hab. exists k, z. split; [lia|done]. Qed.

(** The steps of an insertion at [index]. *)
Lemma insert_steps size ps1 ps2 rest vs1 vs2 h e :
  owns size (ps1 ++ ps2) (vs1 ++ vs2) h -> length ps1 = length vs1 -> 0 < size -> zlen e = size ->
  1 <= zlen (ps1 ++ ps2) + zlen rest < 2 ^ 60 ->
  exists r s', neoc_array_insert served junk junk_pointer (zlen ps1) e
      (array_with ((ps1 ++ ps2) ++ rest) (zlen (ps1 ++ ps2)) (zlen (ps1 ++ ps2) + zlen rest) size h) = (r, s') /\
    capacity_of s' <= Z.max (zlen (ps1 ++ ps2) + zlen rest) (2 * zlen (ps1 ++ ps2)) /\
    ((r = Ok tt /\ array_rep size (vs1 ++ Some e :: vs2) s') \/
     (r = Err NEOC_ERROR_OUT_OF_MEMORY /\ refused served (Z.max size (16 * (zlen (ps1 ++ ps2) + zlen rest))) /\
      (zlen ps2 <= 1 -> array_rep size (vs1 ++ vs2) s'))).
Proof.
  intros Ho Hl Hs He Hc. set (ps := ps1 ++ ps2) in *. pose proof (zlen_nonneg ps1). pose proof (zlen_nonneg ps2).
  assert (zlen ps = zlen ps1 + zlen ps2) as Hz by (unfold ps; apply zlen_app).
  unfold neoc_array_insert. rewrite bind_get_array. cbn [the_array array_with ar_count]. cmps.
  destruct (make_room_spec served junk_pointer served_bounded ps rest size h Hc)
    as [(x & rest' & h1 & Em & Hsame & Hlt & Hle)|(h1 & Em & Hsame & Hr)]; fold (array_with (ps ++ rest) (zlen ps) (zlen ps + zlen rest) size h).
  2: { rewrite (bind_err _ _ _ _ _ Em). eexists _, _. split; [done|]. split; [unfold capacity_of, array_with; cbn [the_array ar_capacity]; lia|]. right. split; [done|]. split; [eapply refused_mono; [done|lia]|].
       intros _. exists ps, rest, h1. split_and!; [done|by eapply owns_same|lia|lia|done]. }
  rewrite (bind_ok _ _ _ _ _ Em).
  replace (Z.to_nat (zlen ps - zlen ps1)) with (length ps2) by (unfold zlen in *; lia).
  replace (ps ++ x :: rest') with (ps1 ++ ps2 ++ x :: rest') by (unfold ps; by rewrite <- app_assoc).
  erewrite bind_ok; [|rewrite Hz; apply shift_right_spec]. rewrite <- Hz.
  pose proof (owns_same _ _ _ _ _ Ho Hsame) as Ho1. rewrite zlen_cons in *. pose proof (zlen_nonneg rest').
  destruct (new_element_spec served junk served_bounded e (array_with (ps1 ++ hd x ps2 :: ps2 ++ rest') (zlen ps) (zlen ps + (1 + zlen rest')) size h1) size eq_refl Hs He)
    as [(h2 & En & Eb & Enx)|(h2 & En & Hsame2 & Hr)]; rewrite (bind_ok _ _ _ _ _ En); cbn [the_array the_heap array_with] in *.
  - fold (array_with (ps1 ++ hd x ps2 :: ps2 ++ rest') (zlen ps) (zlen ps + (1 + zlen rest')) size h2).
    rewrite (bind_ok _ _ _ _ _ (set_slot_at ps1 _ (Some (next_block h1)) _ _ _ _ h2 (zlen ps1) eq_refl)). unfold set_count. rewrite bind_get_array.
    eexists _, _. split; [done|].
    split; [unfold capacity_of, array_with; cbn [the_array ar_capacity]; lia|]. left. split; [done|].
    exists (ps1 ++ Some (next_block h1) :: ps2), rest', h2. cbn [the_array array_with ar_elements ar_capacity ar_element_size the_heap]. rewrite zlen_app, zlen_cons.
    split_and!; [|by eapply owns_new|lia|lia|done]. unfold array_with. rewrite <- app_assoc. do 2 f_equal; lia.
  - eexists _, _. split; [done|]. split; [unfold capacity_of, array_with; cbn [the_array ar_capacity]; lia|]. right. split; [done|]. split; [eapply refused_mono; [done|lia]|]. intros Hone.
    exists ps, (hd x ps2 :: rest'), h2. rewrite zlen_cons. split_and!; [|by eapply owns_same|lia|lia|done]. unfold array_with. do 3 f_equal. unfold ps.
    destruct ps2 as [|q [|q' ps2]]; [by rewrite app_nil_r|by rewrite <- app_assoc|rewrite !zlen_cons in Hone; pose proof (zlen_nonneg ps2); lia].
Qed.

(** Appending is inserting behind the last element. *)
Lemma append_is_insert ps rest size h e :
  1 <= zlen ps + zlen rest < 2 ^ 60 -> 0 < size -> zlen e = size ->
  neoc_array_append served junk junk_pointer e (array_with (ps ++ rest) (zlen ps) (zlen ps + zlen rest) size h) =
  neoc_array_insert served junk junk_pointer (zlen ps) e (array_with (ps ++ rest) (zlen ps) (zlen ps + zlen rest) size h).
Proof.
  intros Hc Hs He. unfold neoc_array_append, neoc_array_insert. rewrite bind_get_array. cbn [the_array array_with ar_count]. cmps.
  rewrite Z.sub_diag.
  destruct (make_room_spec served junk_pointer served_bounded ps rest size h Hc)
    as [(x & rest' & h1 & Em & _)|(h1 & Em & _)]; fold (array_with (ps ++ rest) (zlen ps) (zlen ps + zlen rest) size h).
  2: by rewrite !(bind_err _ _ _ _ _ Em).
  rewrite !(bind_ok _ _ _ _ _ Em). change (shift_right (Z.to_nat 0) (zlen ps)) with (@ret array_state unit tt).
  erewrite (bind_ok (ret tt)) by reflexivity.
  destruct (new_element_spec served junk served_bounded e (array_with (ps ++ x :: rest') (zlen ps) (zlen ps + zlen (x :: rest')) size h1) size eq_refl Hs He)
    as [(h2 & En & _)|(h2 & En & _)]; by rewrite !(bind_ok _ _ _ _ _ En).
Qed.

Lemma remove_steps size ps1 p ps2 rest vs1 v vs2 h :
  owns size (ps1 ++ p :: ps2) (vs1 ++ v :: vs2) h -> length ps1 = length vs1 -> 0 < size ->
  let ps := ps1 ++ p :: ps2 in
  1 <= zlen ps + zlen rest < 2 ^ 60 ->
  exists s', neoc_array_remove (zlen ps1) (array_with (ps ++ rest) (zlen ps) (zlen ps + zlen rest) size h) = (Ok tt, s') /\
    capacity_of s' = zlen ps + zlen rest /\ array_rep size (vs1 ++ vs2) s'.
Proof.
  intros Ho Hl Hs ps Hc. pose proof (zlen_nonneg ps1). pose proof (zlen_nonneg ps2). assert (zlen ps = zlen ps1 + (1 + zlen ps2)) as Hz by (unfold ps; by rewrite zlen_app, zlen_cons).
  destruct (owns_free _ _ _ _ _ _ _ _ Ho Hl) as (h' & Ef & Ho').
  unfold neoc_array_remove. rewrite bind_get_array. cbn [the_array array_with ar_count]. fold (array_with (ps ++ rest) (zlen ps) (zlen ps + zlen rest) size h). cmps.
  replace (ps ++ rest) with (ps1 ++ p :: ps2 ++ rest) by (unfold ps; by rewrite <- app_assoc). erewrite bind_ok; [|by apply get_slot_at].
  erewrite (bind_ok (on_heap _)); [|unfold on_heap; cbn [the_heap array_with]; rewrite Ef; reflexivity]. cbn [the_array array_with].
  fold (array_with (ps1 ++ p :: ps2 ++ rest) (zlen ps) (zlen ps + zlen rest) size h').
  replace (Z.to_nat (zlen ps - 1 - zlen ps1)) with (length ps2) by (unfold zlen in *; lia).
  erewrite bind_ok; [|apply shift_left_spec]. eexists. split; [done|]. split; [done|].
  exists (ps1 ++ ps2), (List.last ps2 p :: rest), h'. rewrite !zlen_app, !zlen_cons. split_and!; [|done|lia|lia|done].
  unfold array_with. cbn [the_array the_heap ar_elements ar_capacity ar_element_size]. rewrite <- app_assoc. do 2 f_equal; lia.
Qed.

Lemma set_steps size ps1 p ps2 rest vs1 v vs2 h e :
  owns size (ps1 ++ p :: ps2) (vs1 ++ v :: vs2) h -> length ps1 = length vs1 -> 0 < size -> zlen e = size ->
  let ps := ps1 ++ p :: ps2 in
  1 <= zlen ps + zlen rest < 2 ^ 60 ->
  exists r s', neoc_array_set served junk (zlen ps1) e (array_with (ps ++ rest) (zlen ps) (zlen ps + zlen rest) size h) = (r, s') /\
    capacity_of s' = zlen ps + zlen rest /\
    ((r = Ok tt /\ array_rep size (vs1 ++ Some e :: vs2) s') \/
     (r = Err NEOC_ERROR_OUT_OF_MEMORY /\ array_rep size (vs1 ++ None :: vs2) s' /\ refused served size)).
Proof.
  intros Ho Hl Hs He ps Hc. pose proof (zlen_nonneg ps1). pose proof (zlen_nonneg ps2). assert (zlen ps = zlen ps1 + (1 + zlen ps2)) as Hz by (unfold ps; by rewrite zlen_app, zlen_cons).
  destruct (owns_free _ _ _ _ _ _ _ _ Ho Hl) as (h' & Ef & Ho').
  unfold neoc_array_set. rewrite bind_get_array. cbn [the_array array_with ar_count]. fold (array_with (ps ++ rest) (zlen ps) (zlen ps + zlen rest) size h). cmps.
  replace (ps ++ rest) with (ps1 ++ p :: ps2 ++ rest) by (unfold ps; by rewrite <- app_assoc). erewrite bind_ok; [|by apply get_slot_at].
  erewrite (bind_ok (on_heap _)); [|unfold on_heap; cbn [the_heap array_with]; rewrite Ef; reflexivity]. cbn [the_array array_with].
  fold (array_with (ps1 ++ p :: ps2 ++ rest) (zlen ps) (zlen ps + zlen rest) size h').
  destruct (new_element_spec served junk served_bounded e (array_with (ps1 ++ p :: ps2 ++ rest) (zlen ps) (zlen ps + zlen rest) size h') size eq_refl Hs He)
    as [(h2 & En & Eb & Enx)|(h2 & En & Hsame2 & Hr)]; rewrite (bind_ok _ _ _ _ _ En); cbn [the_array the_heap array_with] in *;
    fold (array_with (ps1 ++ p :: ps2 ++ rest) (zlen ps) (zlen ps + zlen rest) size h2).
  - rewrite set_slot_at by done. eexists _, _. split; [done|]. split; [done|]. left. split; [done|].
    exists (ps1 ++ Some (next_block h') :: ps2), rest, h2. rewrite zlen_app, zlen_cons. split_and!; [|by eapply owns_new|lia|lia|done].
    rewrite <- app_assoc. unfold array_with. do 2 f_equal; lia.
  - erewrite bind_ok; [|by apply set_slot_at]. eexists _, _. split; [done|]. split; [done|]. right. split_and!; [done| |done].
    exists (ps1 ++ None :: ps2), rest, h2. rewrite zlen_app, zlen_cons. split_and!; [|eapply owns_same; [by apply owns_null|done]|lia|lia|done].
    rewrite <- app_assoc. unfold array_with. do 2 f_equal; lia.
Qed.

(** The loop of [neoc_array_clear] over the places [ps]. *)
Lemma clear_loop size ps : forall pre ps' rest vs vs' h count capacity,
  owns size (ps ++ ps') (vs ++ vs') h -> length ps = length vs ->
  exists h', for_each (fun i => let! p := get_slot i in on_heap (free_pointer p)) (map Z.of_nat (seq (length pre) (length ps)))
      (array_with (pre ++ ps ++ rest) count capacity size h) = (Ok tt, array_with (pre ++ ps ++ rest) count capacity size h') /\ owns size ps' vs' h'.
Proof.
  induction ps as [|p ps IH]; intros pre ps' rest vs vs' h count capacity Ho Hl; destruct vs as [|v vs]; try discriminate; [by exists h|].
  destruct (owns_free size [] p (ps ++ ps') [] v (vs ++ vs') h Ho eq_refl) as (h' & Ef & Ho'). cbn [length seq map for_each app].
  assert ((let! q := get_slot (Z.of_nat (length pre)) in on_heap (free_pointer q)) (array_with (pre ++ p :: ps ++ rest) count capacity size h) =
    (Ok tt, array_with (pre ++ p :: ps ++ rest) count capacity size h')) as E1.
  { erewrite bind_ok; [|by apply get_slot_at]. unfold on_heap. cbn [the_heap array_with]. by rewrite Ef. }
  rewrite (bind_ok _ _ _ _ _ E1). destruct (IH (pre ++ [p]) ps' rest vs vs' h' count capacity Ho' ltac:(cbn [length] in Hl; lia)) as (h2 & E2 & Hf).
  exists h2. split; [|done]. rewrite <- app_assoc in E2. cbn [app] in E2. rewrite length_app, Nat.add_comm in E2. exact E2.
Qed.

Lemma clear_steps size ps vs rest h :
  owns size ps vs h -> 1 <= zlen ps + zlen rest < 2 ^ 60 -> 0 < size ->
  exists s', neoc_array_clear (array_with (ps ++ rest) (zlen ps) (zlen ps + zlen rest) size h) = (Ok tt, s') /\
    capacity_of s' = zlen ps + zlen rest /\ array_rep size [] s'.
Proof.
  intros Ho Hc Hs. destruct (clear_loop size ps [] [] rest vs [] h (zlen ps) (zlen ps + zlen rest)) as (h' & E & Hf);
    [by rewrite !app_nil_r|eapply Forall2_length, (owns_values _ _ _ _ Ho)|].
  unfold neoc_array_clear. rewrite bind_get_array. cbn [the_array array_with ar_count]. fold (array_with (ps ++ rest) (zlen ps) (zlen ps + zlen rest) size h).
  cbn [app length] in E. unfold zlen at 1. rewrite indices_nat. rewrite (bind_ok _ _ _ _ _ E). eexists. split; [done|]. split; [done|].
  exists [], (ps ++ rest), h'. change (zlen []) with 0. rewrite zlen_app, Z.add_0_l. split_and!; [done|done|lia|lia|done].
Qed.

(** Every operation, whatever memory there is. *)
Lemma array_step size op vs s : array_rep size vs s -> op_fits size op -> step_ok size op vs s (exec_array_op op s).
Proof.
  intros (ps & rest & h & -> & Ho & Hc & Hs) Hfit. pose proof (rep_lengths _ _ _ _ Ho) as Hl.
  assert (length ps = length vs) as Hn by (unfold zlen in Hl; lia). unfold step_ok. unfold capacity_of at 2 3. cbn [the_array array_with ar_capacity].
  assert (forall op' i e, op_fits size op' -> (op' = OpInsert i e \/ op' = OpAppend e /\ i = zlen vs \/ op' = OpPrepend e /\ i = 0) -> 0 <= i <= zlen vs -> zlen e = size ->
    exec_array_op op' (array_with (ps ++ rest) (zlen ps) (zlen ps + zlen rest) size h) =
    neoc_array_insert served junk junk_pointer i e (array_with (ps ++ rest) (zlen ps) (zlen ps + zlen rest) size h) ->
    step_ok size op' vs (array_with (ps ++ rest) (zlen ps) (zlen ps + zlen rest) size h)
      (exec_array_op op' (array_with (ps ++ rest) (zlen ps) (zlen ps + zlen rest) size h))) as Hins.
  { intros op' i e Hf Hop Hi He ->.
    destruct (insert_steps size (take (Z.to_nat i) ps) (drop (Z.to_nat i) ps) rest (take (Z.to_nat i) vs) (drop (Z.to_nat i) vs) h e)
      as (r & s' & E & Hcap & Hcases); rewrite ?take_drop; try done; [rewrite !length_take; lia|].
    rewrite take_drop in E, Hcap, Hcases.
    assert (zlen (take (Z.to_nat i) ps) = i) as Hti by (unfold zlen in *; rewrite length_take; lia). rewrite Hti in E. rewrite E.
    assert (zlen (drop (Z.to_nat i) ps) = zlen ps - i) as Hdi by (unfold zlen in *; rewrite length_drop; lia). rewrite Hdi in Hcases.
    unfold step_ok. unfold capacity_of at 2 3. cbn [the_array array_with ar_capacity fst snd]. exists (match r with Ok _ => true | _ => false end).
    assert (forall m, spec_op m op' vs = if m then (Ok tt, insert_value i (Some e) vs) else (Err NEOC_ERROR_OUT_OF_MEMORY, vs)) as Hsp.
    { intros m. destruct Hop as [->|[[-> ->]|[-> ->]]]; cbn [spec_op].
      - cmps. done.
      - unfold insert_value, zlen. by rewrite Nat2Z.id, firstn_all, drop_all.
      - unfold insert_value. change (Z.to_nat 0) with 0%nat. by rewrite drop_0. }
    rewrite Hsp. rewrite Hl in Hcap. destruct Hcases as [(-> & Hr)|(-> & Hr & Hone)]; (split; [done|]); (split; [|split; [lia|done]]).
    - done.
    - rewrite take_drop in Hone. intros Ht. apply Hone. unfold torn in Ht. cbn [negb andb] in Ht.
      destruct Hop as [->|[[-> ->]|[-> ->]]]; bdestruct; lia. }
  destruct op as [e|i e|e|i|i e|]; cbn [op_fits] in Hfit.
  - apply (Hins _ (zlen vs) e); [done|by right; left|pose proof (zlen_nonneg vs); lia|done|]. rewrite <- Hl. by apply append_is_insert.
  - destruct Hfit as [Hi He]. destruct (Z_le_gt_dec i (zlen vs)) as [Hle|Hgt]; [apply (Hins _ i e); [done|by left|lia|done|done]|].
    exists true. cbn [exec_array_op spec_op]. unfold neoc_array_insert. rewrite bind_get_array. cbn [the_array array_with ar_count]. cmps. cbn [fst snd fail torn negb andb].
    split; [done|]. split; [|split; [apply Z.le_max_l|done]]. intros _. by exists ps, rest, h.
  - apply (Hins _ 0 e); [done|by right; right|pose proof (zlen_nonneg vs); lia|done|done].
  - exists true. cbn [exec_array_op spec_op]. destruct (Z_lt_le_dec i (zlen vs)) as [Hlt|Hge]; cmps.
    + destruct (split_index ps i ltac:(lia)) as (ps1 & p & ps2 & -> & Hi1). destruct (split_index vs i ltac:(lia)) as (vs1 & v & vs2 & -> & Hi2).
      destruct (remove_steps size ps1 p ps2 rest vs1 v vs2 h Ho ltac:(unfold zlen in *; lia) Hs Hc) as (s' & E & Hcap & Hr).
      rewrite Hi1 in E. rewrite E. cbn [fst snd]. split; [done|]. split; [|split; [lia|done]]. intros _.
      replace (delete (Z.to_nat i) (vs1 ++ v :: vs2)) with (vs1 ++ vs2); [done|]. rewrite <- Hi2. unfold zlen. rewrite Nat2Z.id.
      symmetry. apply list_delete_middle_eq.
    + unfold neoc_array_remove. rewrite bind_get_array. cbn [the_array array_with ar_count]. cmps. cbn [fst snd fail torn negb andb].
      split; [done|]. split; [|split; [apply Z.le_max_l|done]]. intros _. by exists ps, rest, h.
  - destruct Hfit as [Hi He]. cbn [exec_array_op spec_op]. destruct (Z_lt_le_dec i (zlen vs)) as [Hlt|Hge]; cmps.
    + destruct (split_index ps i ltac:(lia)) as (ps1 & p & ps2 & -> & Hi1). destruct (split_index vs i ltac:(lia)) as (vs1 & v & vs2 & -> & Hi2).
      destruct (set_steps size ps1 p ps2 rest vs1 v vs2 h e Ho ltac:(unfold zlen in *; lia) Hs He Hc) as (r & s' & E & Hcap & Hr).
      rewrite Hi1 in E. rewrite E. assert (Z.to_nat i = length vs1) as -> by (unfold zlen in Hi2; lia).
      rewrite !list_insert_middle_eq. destruct Hr as [(-> & Hr)|(-> & Hr & Href)]; [exists true|exists false]; cbn [fst snd]; (split; [done|]);
        (split; [done|]); (split; [lia|]); [done|]. intros _. eapply refused_mono; [done|lia].
    + exists true. unfold neoc_array_set. rewrite bind_get_array. cbn [the_array array_with ar_count]. cmps. cbn [fst snd fail torn negb andb].
      split; [done|]. split; [|split; [apply Z.le_max_l|done]]. intros _. by exists ps, rest, h.
  - exists true. cbn [exec_array_op spec_op]. destruct (clear_steps size ps vs rest h Ho Hc Hs) as (s' & -> & Hcap & Hr). cbn [fst snd].
    split; [done|]. split; [done|]. split; [lia|done].
Qed.
End Steps.

(** ** Sessions *)

Section Sessions.
Context (served : nat -> Z -> bool) (junk : byte) (junk_pointer : pointer).

(** A session goes on after an error. *)
Fixpoint exec_array_ops (ops : list array_op) (s : array_state) : list (res unit) * array_state :=
  match ops with
  | [] => ([], s)
  | op :: ops =>
      let '(r, s) := exec_array_op served junk junk_pointer op s in
      let '(rs, s) := exec_array_ops ops s in (r :: rs, s)
  end.

Fixpoint spec_ops (ops : list array_op) (vs : list (option (list byte))) : list (res unit) * list (option (list byte)) :=
  match ops with
  | [] => ([], vs)
  | op :: ops => let '(r, vs) := spec_op true op vs in let '(rs, vs) := spec_ops ops vs in (r :: rs, vs)
  end.

Definition heap_enough : Prop := (forall n z, 0 < z < 2 ^ 62 -> served n z = true) /\ (forall n z, served n z = true -> z < 2 ^ 63).

Definition empty_heap : heap := mk_heap ∅ 1 0.

Lemma spec_op_length op vs : zlen (snd (spec_op true op vs)) <= zlen vs + 1.
Proof.
  pose proof (zlen_nonneg vs). destruct op; cbn [spec_op]; repeat case_match; cbn [snd]; rewrite ?zlen_app, ?zlen_cons, ?zlen_nil; try lia.
  - unfold insert_value, zlen. rewrite length_app, length_take. cbn [length]. rewrite length_drop. lia.
  - unfold zlen. rewrite delete_take_drop, length_app, length_take, length_drop. lia.
  - unfold zlen. rewrite length_insert. lia.
Qed.

Lemma session_steps size ops : forall vs s,
  heap_enough -> size < 2 ^ 62 -> Forall (op_fits size) ops -> array_rep size vs s ->
  zlen vs + zlen ops <= 2 ^ 40 -> capacity_of s <= 2 ^ 42 ->
  exists s', exec_array_ops ops s = (fst (spec_ops ops vs), s') /\ array_rep size (snd (spec_ops ops vs)) s'.
Proof.
  induction ops as [|op ops IH]; intros vs s Hh Hsz Hf Hr Hn Hc; [by exists s|]. inversion Hf as [|?? Hop Hops]; subst.
  destruct (array_step served junk junk_pointer (proj2 Hh) size op vs s Hr Hop) as (m & E & Hrep & Hcap & Hm).
  destruct m.
  2: { exfalso. destruct (Hm eq_refl) as (k & z & Hz & Hk). rewrite (proj1 Hh) in Hk; [done|]. eval_pows. lia. }
  cbn [exec_array_ops spec_ops]. rewrite zlen_cons in Hn. pose proof (spec_op_length op vs). pose proof (zlen_nonneg ops).
  destruct (exec_array_op served junk junk_pointer op s) as [r s1]. destruct (spec_op true op vs) as [r' vs1] eqn:Es. cbn [fst snd] in *. subst r'.
  destruct (IH vs1 s1) as (s' & E' & Hr'); [done|done|done|by apply Hrep|lia|eval_pows; lia|]. rewrite E'.
  destruct (spec_ops ops vs1) as [rs vs2]. cbn [fst snd] in *. by exists s'.
Qed.

Lemma array_created size initial h :
  heap_enough -> 0 < size -> 0 <= initial <= 2 ^ 42 -> blocks h = ∅ ->
  exists a h', neoc_array_create served junk_pointer size initial h = (Ok a, h') /\ array_rep size [] (mk_array_state a h') /\
    ar_capacity a <= 2 ^ 42.
Proof.
  intros [Hs Hb] Hz Hi He. unfold neoc_array_create, ask, bind, array_struct_size. cmps. rewrite Hs by (eval_pows; lia). cbn [negb requests].
  set (c := if 0 <? initial then initial else DEFAULT_ARRAY_CAPACITY).
  assert (1 <= c <= 2 ^ 42) as Hc by (unfold c, DEFAULT_ARRAY_CAPACITY; destruct (Z.ltb_spec 0 initial); eval_pows; lia).
  unfold pointer_size. rewrite wrap_small by (eval_pows; lia). cmps. rewrite Hs by (eval_pows; lia). cbn [negb ret]. eexists _, _. split; [done|].
  split; [|cbn [ar_capacity]; lia]. rewrite slots_of_small by (eval_pows; lia). exists [], (replicate (Z.to_nat c) junk_pointer), (mk_heap (blocks h) (next_block h) (S (S (requests h)))).
  rewrite zlen_replicate, Z2Nat.id by lia. split_and!; [done| |change (zlen []) with 0; lia|change (zlen []) with 0; eval_pows; lia|done].
  split; [constructor|constructor| |]; cbn [blocks next_block]; rewrite He.
  - intros p _. apply lookup_empty.
  - intros p [b Hp]. cbn in Hp. by rewrite lookup_empty in Hp.
Qed.

(** What the places of an array give. *)
Lemma array_get_value size vs s i :
  array_rep size vs s -> 0 <= i < zlen vs ->
  exists p, neoc_array_get i s = (Ok p, s) /\ points (the_heap s) size p (default None (vs !! Z.to_nat i)).
Proof.
  intros (ps & rest & h & -> & Ho & Hc & Hs) Hi. pose proof (rep_lengths _ _ _ _ Ho) as Hl.
  destruct (split_index ps i ltac:(lia)) as (ps1 & p & ps2 & -> & Hi1). destruct (split_index vs i ltac:(lia)) as (vs1 & v & vs2 & -> & Hi2).
  exists p. unfold neoc_array_get. rewrite bind_get_array. cbn [the_array array_with ar_count]. cmps. split.
  - rewrite <- app_assoc. cbn [app]. by apply get_slot_at.
  - replace (Z.to_nat i) with (length vs1) by (unfold zlen in Hi2; lia). rewrite list_lookup_middle by done.
    pose proof (owns_values _ _ _ _ Ho) as Hv. apply Forall2_app_inv in Hv as [_ Hv]; [|unfold zlen in *; lia]. by inversion Hv.
Qed.

(** C38.  With enough memory an array is a list of values: every session gives the results of the list, afterwards the
    count and every place agree with it, and freeing the array frees every block exactly once. *)
Theorem array_refines_list size initial ops :
  heap_enough -> 0 < size < 2 ^ 62 -> 0 <= initial <= 2 ^ 42 -> Forall (op_fits size) ops -> zlen ops <= 2 ^ 40 ->
  exists a h s,
    neoc_array_create served junk_pointer size initial empty_heap = (Ok a, h) /\
    exec_array_ops ops (mk_array_state a h) = (fst (spec_ops ops []), s) /\
    neoc_array_count (the_array s) = zlen (snd (spec_ops ops [])) /\
    (forall i v, 0 <= i -> snd (spec_ops ops []) !! Z.to_nat i = Some v -> exists p, neoc_array_get i s = (Ok p, s) /\ points (the_heap s) size p v) /\
    exists s', neoc_array_free s = (Ok tt, s') /\ blocks (the_heap s') = ∅.
Proof.
  intros Hh Hs Hi Hf Hn. destruct (array_created size initial empty_heap Hh ltac:(lia) Hi eq_refl) as (a & h & Ec & Hr & Hcap).
  destruct (session_steps size ops [] (mk_array_state a h) Hh ltac:(lia) Hf Hr ltac:(change (zlen []) with 0; lia) Hcap) as (s & Es & Hr').
  exists a, h, s. split; [done|]. split; [done|]. set (vs := snd (spec_ops ops [])) in *. split; [|split].
  - destruct Hr' as (ps & rest & h' & -> & Ho & _). exact (rep_lengths _ _ _ _ Ho).
  - intros i v H0 Hv. assert (0 <= i < zlen vs) as Hlt by (apply lookup_lt_Some in Hv; unfold zlen; lia).
    destruct (array_get_value size vs s i Hr' Hlt) as (p & Ep & Hp). exists p. split; [done|]. by rewrite Hv in Hp.
  - destruct Hr' as (ps & rest & h' & -> & Ho & Hc & Hz). destruct (clear_steps size ps vs rest h' Ho Hc Hz) as (s' & E & _ & Hr').
    destruct Hr' as (ps' & rest' & h2 & -> & Ho' & _). unfold neoc_array_free. rewrite (bind_ok _ _ _ _ _ E), bind_get_array. cbn [the_array array_with ar_elements].
    eexists. split; [done|]. cbn [the_heap array_with]. pose proof (rep_lengths _ _ _ _ Ho') as Hl. change (zlen []) with 0 in Hl. apply zlen_zero in Hl. subst ps'.
    apply map_empty. intros p. destruct (blocks h2 !! p) eqn:Eb; [|done]. pose proof (owns_all _ _ _ _ Ho' p ltac:(by rewrite Eb)) as Hin. by apply elem_of_nil in Hin.
Qed.

(** An insertion in front of two elements or more for which there is no block any more has moved the pointers
    already: two places hold the same one, and clearing the array frees its block twice. *)
Theorem array_insert_failure_double_free size vs1 v w vs2 s e :
  array_rep size (vs1 ++ Some v :: w :: vs2) s -> zlen (vs1 ++ Some v :: w :: vs2) < capacity_of s ->
  (forall n, served n size = false) -> zlen e = size ->
  exists s' p, neoc_array_insert served junk junk_pointer (zlen vs1) e s = (Err NEOC_ERROR_OUT_OF_MEMORY, s') /\
    neoc_array_get (zlen vs1) s' = (Ok (Some p), s') /\ neoc_array_get (zlen vs1 + 1) s' = (Ok (Some p), s') /\
    fst (neoc_array_clear s') = Fault.
Proof.
  intros (ps & rest & h & -> & Ho & Hc & Hs) Hroom Hno. pose proof (rep_lengths _ _ _ _ Ho) as Hl.
  unfold capacity_of in Hroom. cbn [the_array array_with ar_capacity] in Hroom. destruct rest as [|x rest]; [rewrite zlen_nil in Hroom; lia|].
  pose proof (owns_values _ _ _ _ Ho) as Hv. apply Forall2_app_inv_r in Hv as (ps1 & qs & Hv1 & Hv2 & ->).
  inversion Hv2 as [|p0 ? qs0 ? Hp Hv3]; subst. inversion Hv3 as [|q ? ps2 ? Hq Hv4]; subst. destruct p0 as [p|]; [|done]. intros He.
  apply Forall2_length in Hv1. assert (zlen vs1 = zlen ps1) as Hz1 by (unfold zlen; lia). rewrite Hz1.
  set (ps := ps1 ++ Some p :: q :: ps2) in *. set (c := zlen ps + zlen (x :: rest)) in *.
  assert (zlen ps = zlen ps1 + (2 + zlen ps2)) as Hz by (unfold ps; rewrite zlen_app, !zlen_cons; lia).
  set (l := (ps1 ++ [Some p]) ++ Some p :: q :: ps2 ++ rest). pose proof (zlen_nonneg ps1). pose proof (zlen_nonneg ps2). pose proof (zlen_nonneg rest).
  set (h' := mk_heap (blocks h) (next_block h) (S (requests h))).
  exists (array_with l (zlen ps) c size h'), p. unfold c in *. rewrite zlen_cons in *. split_and!.
  - assert (make_room served junk_pointer (array_with (ps ++ x :: rest) (zlen ps) (zlen ps + (1 + zlen rest)) size h) =
      (Ok tt, array_with (ps ++ x :: rest) (zlen ps) (zlen ps + (1 + zlen rest)) size h)) as Em
      by (unfold make_room; rewrite bind_get_array; cbn [the_array array_with ar_count ar_capacity]; cmps; done).
    unfold neoc_array_insert. rewrite bind_get_array. cbn [the_array array_with ar_count]. cmps.
    fold (array_with (ps ++ x :: rest) (zlen ps) (zlen ps + (1 + zlen rest)) size h). rewrite (bind_ok _ _ _ _ _ Em).
    replace (Z.to_nat (zlen ps - zlen ps1)) with (length (Some p :: q :: ps2)) by (cbn [length]; unfold zlen in *; lia).
    assert (zlen ps = zlen ps1 + zlen (Some p :: q :: ps2)) as Hz' by (rewrite !zlen_cons; lia).
    replace (ps ++ x :: rest) with (ps1 ++ (Some p :: q :: ps2) ++ x :: rest) by (unfold ps; by rewrite <- app_assoc).
    erewrite bind_ok; [|rewrite Hz' at 1; apply (shift_right_spec ps1 (Some p :: q :: ps2) x rest)]. cbn [hd].
    unfold new_element. rewrite bind_assoc, bind_get_array. cbn [the_array array_with ar_element_size].
    unfold on_heap, malloc_block, ask, bind. cbn [the_heap array_with]. cmps. rewrite Hno. cbn [negb ret]. unfold l. by rewrite <- app_assoc.
  - unfold neoc_array_get. rewrite bind_get_array. cbn [the_array array_with ar_count]. cmps. unfold l. rewrite <- app_assoc. by apply get_slot_at.
  - unfold neoc_array_get. rewrite bind_get_array. cbn [the_array array_with ar_count]. cmps. unfold l. apply get_slot_at. by rewrite zlen_app.
  - unfold neoc_array_clear. rewrite bind_get_array. cbn [the_array array_with ar_count]. fold (array_with l (zlen ps) (zlen ps + (1 + zlen rest)) size h').
    assert (owns size ps (vs1 ++ Some v :: w :: vs2) h') as Ho' by (eapply owns_same; [exact Ho|done]).
    destruct (clear_loop size ps1 [] (Some p :: q :: ps2) (Some p :: Some p :: q :: ps2 ++ rest) vs1 (Some v :: w :: vs2) h' (zlen ps) (zlen ps + (1 + zlen rest)) Ho' Hv1)
      as (h1 & E1 & Ho1). cbn [length app] in E1.
    destruct (owns_free size [] (Some p) (q :: ps2) [] (Some v) (w :: vs2) h1 Ho1 eq_refl) as (h2 & E2 & Ho2).
    assert (blocks h2 !! p = None) as Hgone.
    { cbn [free_pointer] in E2. destruct (blocks h1 !! p); [|discriminate]. injection E2 as <-. apply lookup_delete_eq. }
    replace (indices (zlen ps)) with (map Z.of_nat (seq 0 (length ps1)) ++ zlen ps1 :: (zlen ps1 + 1) :: map Z.of_nat (seq (length ps1 + 2) (length ps2))).
    2: { unfold indices. replace (Z.to_nat (zlen ps)) with (length ps1 + S (S (length ps2)))%nat by (unfold zlen in *; lia). rewrite seq_app, map_app. cbn [seq map Nat.add].
         unfold zlen. replace (Z.of_nat (length ps1) + 1) with (Z.of_nat (S (length ps1))) by lia. by replace (length ps1 + 2)%nat with (S (S (length ps1))) by lia. }
    unfold l. rewrite <- app_assoc. cbn [app]. unfold bind at 1. rewrite (for_each_app _ _ _ _ _ E1). cbn [for_each].
    assert (forall h0, get_slot (zlen ps1) (array_with (ps1 ++ Some p :: Some p :: q :: ps2 ++ rest) (zlen ps) (zlen ps + (1 + zlen rest)) size h0) =
      (Ok (Some p), array_with (ps1 ++ Some p :: Some p :: q :: ps2 ++ rest) (zlen ps) (zlen ps + (1 + zlen rest)) size h0)) as G1 by (intros; by apply get_slot_at).
    assert (forall h0, get_slot (zlen ps1 + 1) (array_with (ps1 ++ Some p :: Some p :: q :: ps2 ++ rest) (zlen ps) (zlen ps + (1 + zlen rest)) size h0) =
      (Ok (Some p), array_with (ps1 ++ Some p :: Some p :: q :: ps2 ++ rest) (zlen ps) (zlen ps + (1 + zlen rest)) size h0)) as G2.
    { intros h0. pose proof (get_slot_at (ps1 ++ [Some p]) (Some p) (q :: ps2 ++ rest) (zlen ps) (zlen ps + (1 + zlen rest)) size h0 (zlen ps1 + 1)) as G.
      rewrite <- app_assoc in G. apply G. by rewrite zlen_app. }
    unfold bind. rewrite G1. unfold on_heap at 1. cbn [the_heap array_with]. rewrite E2. cbn [the_array array_with].
    fold (array_with (ps1 ++ Some p :: Some p :: q :: ps2 ++ rest) (zlen ps) (zlen ps + (1 + zlen rest)) size h2). rewrite G2.
    unfold on_heap at 1. cbn [the_heap array_with free_pointer]. by rewrite Hgone.
Qed.
End Sessions.

(** ** Witnesses *)

Definition all_served (n : nat) (z : Z) : bool := z <? 2 ^ 63.

Lemma all_served_enough : heap_enough all_served.
Proof. split; intros n z; unfold all_served; [intros; apply Z.ltb_lt; eval_pows; lia|apply Z.ltb_lt]. Qed.

Definition sample_ops : list array_op :=
  [OpAppend [Byte.x01]; OpAppend [Byte.x03]; OpInsert 1 [Byte.x02]; OpPrepend [Byte.x00]; OpSet 3 [Byte.x09]; OpRemove 1; OpInsert 9 [Byte.x00]].

Lemma array_refines_list_witness :
  exists a h s,
    neoc_array_create all_served None 1 2 empty_heap = (Ok a, h) /\
    exec_array_ops all_served Byte.xcd None sample_ops (mk_array_state a h) =
      ([Ok tt; Ok tt; Ok tt; Ok tt; Ok tt; Ok tt; Err NEOC_ERROR_INVALID_PARAM], s) /\
    neoc_array_count (the_array s) = 3 /\
    (forall i v, 0 <= i -> [Some [Byte.x00]; Some [Byte.x02]; Some [Byte.x09]] !! Z.to_nat i = Some v ->
       exists p, neoc_array_get i s = (Ok p, s) /\ points (the_heap s) 1 p v) /\
    exists s', neoc_array_free s = (Ok tt, s') /\ blocks (the_heap s') = ∅.
Proof.
  apply (array_refines_list all_served Byte.xcd None 1 2 sample_ops); try (eval_pows; lia).
  - exact all_served_enough.
  - repeat constructor; cbn; lia.
  - vm_compute. discriminate.
Defined.

(** Two elements, and no more memory. *)
Definition two_elements : array_state :=
  array_with [Some 1%positive; Some 2%positive; None] 2 3 1 (mk_heap {[1%positive := [Byte.x01]; 2%positive := [Byte.x02]]} 3 0).

Lemma two_elements_rep : array_rep 1 [Some [Byte.x01]; Some [Byte.x02]] two_elements.
Proof.
  exists [Some 1%positive; Some 2%positive], [None], (mk_heap {[1%positive := [Byte.x01]; 2%positive := [Byte.x02]]} 3 0).
  split_and!; [done| |vm_compute; discriminate|vm_compute; reflexivity|lia]. split.
  - repeat constructor.
  - change (omap id [Some 1%positive; Some 2%positive]) with [1%positive; 2%positive]. apply NoDup_cons. split; [by rewrite list_elem_of_singleton|apply NoDup_singleton].
  - intros p Hp. cbn [next_block blocks] in *. rewrite lookup_insert_ne, lookup_singleton_ne by lia. done.
  - intros p [b Hp]. cbn [blocks] in Hp. change (omap id [Some 1%positive; Some 2%positive]) with [1%positive; 2%positive].
    apply lookup_insert_Some in Hp as [[<- _]|[_ Hp]]; [set_solver|]. apply lookup_singleton_Some in Hp as [<- _]. set_solver.
Qed.

Lemma array_insert_failure_double_free_witness :
  exists s' p, neoc_array_insert (fun _ _ => false) Byte.xcd None 0 [Byte.x07] two_elements = (Err NEOC_ERROR_OUT_OF_MEMORY, s') /\
    neoc_array_get 0 s' = (Ok (Some p), s') /\ neoc_array_get 1 s' = (Ok (Some p), s') /\ fst (neoc_array_clear s') = Fault.
Proof.
  apply (array_insert_failure_double_free (fun _ _ => false) Byte.xcd None 1 [] [Byte.x01] (Some [Byte.x02]) [] two_elements [Byte.x07]).
  - exact two_elements_rep.
  - vm_compute. reflexivity.
  - reflexivity.
  - reflexivity.
Defined.
