(* ===== verification/StringUtils.v ===== *)
(** * String utilities (src/utils/string.c)

    Prefixes, case, trimming and splitting of strings, their texts in hexadecimal, Base58 and Base64, and the
    second implementation of addresses.  The pointers are not NULL; a string that is returned is a new block. *)

From S2P Require Import Prelude Crypto Hex Base58 Base64 Hashes Bytes.

(** ** Operations *)

Definition neoc_string_starts_with (string prefix : list byte) : bool :=
  if zlen string <? zlen prefix then false else bool_decide (take (length prefix) string = prefix).

Definition neoc_string_ends_with (string suffix : list byte) : bool :=
  if zlen string <? zlen suffix then false else bool_decide (drop (length string - length suffix) string = suffix).

(** [isxdigit] of a byte in the C locale. *)
Definition neoc_string_is_hex_digit (c : byte) : bool :=
  let c := Z_of_byte c in
  ((48 <=? c) && (c <=? 57)) || ((65 <=? c) && (c <=? 70)) || ((97 <=? c) && (c <=? 102)).

Definition neoc_string_var_size (string : list byte) : Z :=
  let len := zlen string in
  if len <? 0xFD then wrap 64 (1 + len)
  else if len <? 0x10000 then wrap 64 (3 + len)
  else if len <? 0x100000000 then wrap 64 (5 + len)
  else wrap 64 (9 + len).

(** The part of the string without the spaces at its end; the first byte stays. *)
Fixpoint skip_spaces_back (start : list byte) (end_ : nat) : nat :=
  match end_ with
  | O => O
  | S n => match start !! end_ with Some c => if is_space c then skip_spaces_back start n else end_ | None => end_ end
  end.

Fixpoint count_byte (delimiter : byte) (string : list byte) : Z :=
  match string with
  | [] => 0
  | c :: string => (if Z_of_byte c =? Z_of_byte delimiter then 1 else 0) + count_byte delimiter string
  end.

Section Operations.
Context `{Allocator} `{Crypto} (junk : byte).

(** [neoc_malloc] of a string of [len] characters. *)
Definition new_string (s : list byte) : res (list byte) :=
  if negb (neoc_malloc_ok (zlen s + 1)) then Err NEOC_ERROR_OUT_OF_MEMORY else Ok s.

Definition neoc_string_clean_hex_prefix (hex_string : list byte) : res (list byte) :=
  new_string
    (if neoc_string_starts_with hex_string (str "0x") || neoc_string_starts_with hex_string (str "0X")
     then drop 2 hex_string else hex_string).

(** A NULL pointer is reported as [e]. *)
Definition or_error {A} (r : res A) (e : neoc_error_t) : res A :=
  match r with Err _ => Err e | r => r end.

Definition neoc_string_hex_to_bytes (hex_string : list byte) : res (list byte) :=
  let? cleaned_hex := neoc_string_clean_hex_prefix hex_string in
  or_error (neoc_hex_decode_alloc junk (Some cleaned_hex)) NEOC_ERROR_INVALID_HEX.

Definition neoc_string_base64_decode (base64_string : list byte) : res (list byte) :=
  or_error (neoc_base64_decode_alloc junk (Some base64_string)) NEOC_ERROR_INVALID_FORMAT.

Definition neoc_string_hex_to_base64 (hex_string : list byte) : res (list byte) :=
  let? bytes := neoc_string_hex_to_bytes hex_string in
  or_error (neoc_base64_encode_alloc junk (Some bytes) (zlen bytes)) NEOC_ERROR_OUT_OF_MEMORY.

Definition neoc_string_base58_decode (base58_string : list byte) : res (list byte) :=
  or_error (neoc_base58_decode_alloc junk (Some base58_string)) NEOC_ERROR_INVALID_FORMAT.

Definition neoc_string_base58_check_decode (base58_string : list byte) : res (list byte) :=
  or_error (neoc_base58_check_decode_alloc junk (Some base58_string)) NEOC_ERROR_INVALID_FORMAT.

(** There is no block for the empty string. *)
Definition neoc_string_to_bytes (string : list byte) : res (list byte) :=
  if negb (neoc_malloc_ok (zlen string)) then Err NEOC_ERROR_OUT_OF_MEMORY else Ok string.

Definition neoc_string_to_base58 (input_string : list byte) : res (list byte) :=
  let? bytes := neoc_string_to_bytes input_string in
  or_error (neoc_base58_encode_alloc junk (Some bytes) (zlen bytes)) NEOC_ERROR_OUT_OF_MEMORY.

(** The checksum is compared with the single digest of [neoc_hash256]. *)
Definition neoc_string_is_valid_address (address : list byte) : res bool :=
  match neoc_string_base58_decode address with
  | Fault => Fault
  | Err _ => Ok false
  | Ok data =>
      if zlen data =? 25 then
        let? version := at_index data 0 in
        if Z_of_byte version =? 0x35 then
          match neoc_hash256 (Some data) 21 with
          | Fault => Fault
          | Err _ => Ok false
          | Ok hash_result =>
              match buf_slice hash_result 0 4, buf_slice data 21 4 with
              | Some a, Some b => Ok (memcmp_loop a b =? 0)
              | _, _ => Fault
              end
          end
        else Ok false
      else Ok false
  end.

Definition neoc_string_is_valid_hex (hex_string : list byte) : res bool :=
  match neoc_string_clean_hex_prefix hex_string with
  | Fault => Fault
  | Err _ => Ok false
  | Ok cleaned_hex =>
      Ok (if negb (zlen cleaned_hex mod 2 =? 0) then false else forallb neoc_string_is_hex_digit cleaned_hex)
  end.

(** [script_hash[i] = data[20 - i]]. *)
Definition neoc_string_address_to_script_hash (address : list byte) : res (list byte) :=
  let? valid := neoc_string_is_valid_address address in
  if negb valid then Err NEOC_ERROR_INVALID_PARAM
  else
    let? data := neoc_string_base58_decode address in
    if negb (neoc_malloc_ok 20) then Err NEOC_ERROR_OUT_OF_MEMORY
    else fresh_block junk 20 (for_each (fun i => let! b := lift (at_index data (20 - i)) in store i [b]) (indices 20)).

Definition neoc_string_reverse_hex (hex_string : list byte) : res (list byte) :=
  let? bytes := neoc_string_hex_to_bytes hex_string in
  or_error (neoc_hex_encode_alloc junk (Some (reverse_in_place bytes)) (zlen bytes) false false) NEOC_ERROR_OUT_OF_MEMORY.

Definition neoc_string_to_lowercase (string : list byte) : res (list byte) := new_string (map tolower string).
Definition neoc_string_to_uppercase (string : list byte) : res (list byte) := new_string (map toupper string).

(** [end] is the last character; it stays in front of [start] when nothing but spaces is there. *)
Definition neoc_string_trim (string : list byte) : res (list byte) :=
  let start := skip_spaces string in
  match start with
  | [] => new_string []
  | _ => new_string (take (S (skip_spaces_back start (length start - 1))) start)
  end.

(** The parts in front of each delimiter and the part behind the last one; the array has [room] places. *)
Fixpoint split_loop (delimiter : byte) (room : Z) (rest part : list byte) : res (list (list byte)) :=
  match rest with
  | [] =>
      if room <? 1 then Fault else let? last := new_string part in Ok [last]
  | c :: rest =>
      if Z_of_byte c =? Z_of_byte delimiter then
        if room <? 1 then Fault
        else
          let? part := new_string part in
          let? parts := split_loop delimiter (room - 1) rest [] in
          Ok (part :: parts)
      else split_loop delimiter room rest (part ++ [c])
  end.

Definition neoc_string_split (string : list byte) (delimiter : byte) : res (list (list byte)) :=
  let max_parts := wrap 64 (count_byte delimiter string + 1) in
  if negb (neoc_malloc_ok (wrap 64 (max_parts * 8))) then Err NEOC_ERROR_OUT_OF_MEMORY
  else split_loop delimiter (wrap 64 (max_parts * 8) / 8) string [].
End Operations.

(** ** Prefixes, suffixes and case *)

Theorem string_starts_with_iff s p : neoc_string_starts_with s p = true <-> exists rest, s = p ++ rest.
Proof.
  unfold neoc_string_starts_with. split.
  - destruct (_ <? _); [done|]. intros E. bdestruct. exists (drop (length p) s). rewrite <- E at 1. by rewrite take_drop.
  - intros [rest ->]. rewrite zlen_app. pose proof (zlen_nonneg rest). cmps. rewrite take_app_length. by apply bool_decide_eq_true.
Qed.

Theorem string_ends_with_iff s p : neoc_string_ends_with s p = true <-> exists front, s = front ++ p.
Proof.
  unfold neoc_string_ends_with. split.
  - destruct (_ <? _); [done|]. intros E. bdestruct. exists (take (length s - length p) s). rewrite <- E at 2. by rewrite take_drop.
  - intros [front ->]. rewrite zlen_app. pose proof (zlen_nonneg front). cmps. rewrite length_app, Nat.add_sub, drop_app_length. by apply bool_decide_eq_true.
Qed.

Lemma tolower_hex v : 0 <= v < 16 -> tolower (hex_digit true v) = hex_digit false v /\ toupper (hex_digit false v) = hex_digit true v.
Proof.
  intros Hv. assert (v = 0 \/ v = 1 \/ v = 2 \/ v = 3 \/ v = 4 \/ v = 5 \/ v = 6 \/ v = 7 \/ v = 8 \/ v = 9 \/ v = 10 \/ v = 11 \/ v = 12 \/ v = 13 \/ v = 14 \/ v = 15)
    as Hc by lia. repeat destruct Hc as [->|Hc]; try subst v; vm_compute; done.
Qed.

Lemma hex_of_lower data : map tolower (hex_of true data) = hex_of false data /\ map toupper (hex_of false data) = hex_of true data.
Proof.
  induction data as [|b data [IH1 IH2]]; [done|]. destruct (nibbles b) as [Hh Hl].
  destruct (tolower_hex _ Hh) as [E1 E2]. destruct (tolower_hex _ Hl) as [E3 E4].
  change (hex_of ?u (b :: data)) with (hex_digit u (Z_of_byte b / 16) :: hex_digit u (Z_of_byte b mod 16) :: hex_of u data). cbn [map].
  by rewrite E1, E2, E3, E4, IH1, IH2.
Qed.

(** ** Trimming *)

Lemma skip_spaces_split s : exists spaces, s = spaces ++ skip_spaces s /\ forallb is_space spaces = true /\
  match skip_spaces s with c :: _ => is_space c = false | [] => True end.
Proof.
  induction s as [|c s (sp & E & Hs & Hh)]; [by exists []|]. cbn [skip_spaces]. destruct (is_space c) eqn:Ec; [|by exists []].
  exists (c :: sp). cbn [app forallb]. rewrite Ec. split_and!; [by rewrite <- E|done|done].
Qed.

Lemma skip_back_spec start : forall n, (n < length start)%nat ->
  exists m, skip_spaces_back start n = m /\ (m <= n)%nat /\ forallb is_space (take (n - m) (drop (S m) start)) = true /\
    (m = 0%nat \/ exists c, start !! m = Some c /\ is_space c = false).
Proof.
  induction n as [|n IH]; intros Hn; [exists 0%nat; split_and!; [done|lia|done|by left]|]. cbn [skip_spaces_back].
  destruct (lookup_lt_is_Some_2 start (S n) Hn) as [c Ec]. rewrite Ec. destruct (is_space c) eqn:Es.
  - destruct (IH ltac:(lia)) as (m & -> & Hm & Hf & Hc). exists m. split_and!; [done|lia| |done].
    replace (S n - m)%nat with (S (n - m)) by lia.
    rewrite (take_S_r _ _ c) by (rewrite lookup_drop; by replace (S m + (n - m))%nat with (S n) by lia).
    rewrite forallb_app, Hf. cbn [forallb]. by rewrite Es.
  - exists (S n). split_and!; [done|lia|by rewrite Nat.sub_diag|right; by exists c].
Qed.

(** ** Splitting *)

Fixpoint join_with (delimiter : byte) (parts : list (list byte)) : list byte :=
  match parts with
  | [] => []
  | [part] => part
  | part :: parts => part ++ delimiter :: join_with delimiter parts
  end.

Definition no_delimiter (delimiter : byte) (part : list byte) : Prop := Forall (fun c => c <> delimiter) part.

Section Splitting.
Context `{Allocator}.

Lemma new_string_ok s n : heap_serves n -> zlen s < n -> new_string s = Ok s.
Proof. intros Hh Hl. pose proof (zlen_nonneg s). unfold new_string, neoc_malloc_ok. cmps. by rewrite Hh by lia. Qed.

Lemma count_byte_bound d s : 0 <= count_byte d s <= zlen s.
Proof. induction s as [|c s IH]; [done|]. cbn [count_byte]. rewrite zlen_cons. destruct (_ =? _); lia. Qed.

Lemma split_loop_spec d rest : forall room part n,
  room = count_byte d rest + 1 -> no_delimiter d part -> heap_serves n -> zlen part + zlen rest < n ->
  exists parts, split_loop d room rest part = Ok parts /\ join_with d parts = part ++ rest /\ zlen parts = count_byte d rest + 1 /\
    Forall (no_delimiter d) parts.
Proof.
  induction rest as [|c rest IH]; intros room part n Hr Hp Hh Hl; cbn [split_loop count_byte] in *.
  - subst room. cmps. rewrite (new_string_ok part n Hh) by (change (zlen []) with 0 in Hl; lia). exists [part]. rewrite app_nil_r. split_and!; [done|done|done|by constructor].
  - rewrite zlen_cons in Hl. pose proof (count_byte_bound d rest). pose proof (zlen_nonneg part). pose proof (zlen_nonneg rest).
    destruct (Z.eqb_spec (Z_of_byte c) (Z_of_byte d)) as [E|Hne].
    + apply Z_of_byte_inj in E. subst c. cmps. rewrite (new_string_ok part n Hh) by lia. cbn [rbind].
      destruct (IH (room - 1) [] n) as (parts & -> & Hj & Hz & Hf); [lia|constructor|done|change (zlen []) with 0; lia|]. cbn [rbind app] in *.
      exists (part :: parts). split_and!; [done| |rewrite zlen_cons; lia|by constructor].
      destruct parts as [|q parts]; [change (zlen []) with 0 in Hz; lia|]. cbn [join_with] in *. by rewrite Hj.
    + destruct (IH room (part ++ [c]) n) as (parts & E & Hj & Hz & Hf); [lia| |done|rewrite zlen_app; change (zlen [c]) with 1; lia|].
      { apply Forall_app. split; [done|]. constructor; [|done]. congruence. }
      exists parts. split_and!; [done|by rewrite Hj, <- app_assoc|lia|done].
Qed.

(** The parts of a string are free of the delimiter, one more than there are delimiters, and joined they are the string. *)
Theorem string_split_join s d :
  8 * zlen s + 16 < 2 ^ 62 -> heap_serves (8 * zlen s + 16) ->
  exists parts, neoc_string_split s d = Ok parts /\ join_with d parts = s /\ zlen parts = count_byte d s + 1 /\ Forall (no_delimiter d) parts.
Proof.
  intros Hl Hh. pose proof (count_byte_bound d s). unfold neoc_string_split, neoc_malloc_ok. rewrite (wrap_small 64 (count_byte d s + 1)) by (eval_pows; lia).
  rewrite wrap_small by (eval_pows; lia). cmps. rewrite Hh by lia. cbn [negb]. rewrite Z.div_mul by lia.
  apply (split_loop_spec d s _ [] (8 * zlen s + 16)); [done|constructor|done|change (zlen []) with 0; lia].
Qed.

(** What is trimmed off are spaces, and neither end of what is left is one. *)
Theorem string_trim_spec s :
  heap_serves (zlen s + 1) ->
  exists before text after, neoc_string_trim s = Ok text /\ s = before ++ text ++ after /\
    forallb is_space before = true /\ forallb is_space after = true /\
    (forall c, head text = Some c -> is_space c = false) /\ (forall c, last text = Some c -> is_space c = false).
Proof.
  intros Hh. destruct (skip_spaces_split s) as (before & E & Hb & Hhead). unfold neoc_string_trim.
  destruct (skip_spaces s) as [|c0 t] eqn:Es.
  { exists before, [], []. rewrite app_nil_r in E. cbn [app]. rewrite app_nil_r. split_and!; try done.
    apply (new_string_ok [] (zlen s + 1) Hh). pose proof (zlen_nonneg s). change (zlen []) with 0. lia. }
  set (start := c0 :: t) in *. assert (length start = S (length t)) as Hls by done.
  destruct (skip_back_spec start (length start - 1)) as (m & -> & Hm & Hf & Hc); [lia|].
  assert (forallb is_space (drop (S m) start) = true) as Ha.
  { rewrite <- Hf. f_equal. symmetry. apply take_ge. rewrite length_drop. lia. }
  exists before, (take (S m) start), (drop (S m) start). split_and!; [|by rewrite take_drop|done|done| |].
  - apply (new_string_ok _ (zlen s + 1) Hh). rewrite E, zlen_app. pose proof (zlen_nonneg before). unfold zlen. rewrite length_take. lia.
  - cbn [take start head]. by intros c [= <-].
  - intros c. destruct (lookup_lt_is_Some_2 start m ltac:(lia)) as [b Eb]. rewrite (take_S_r _ _ _ Eb), last_snoc. intros [= <-].
    destruct Hc as [->|(c' & Ec' & Hsp)]; [by injection Eb as <-|congruence].
Qed.
End Splitting.

(** ** Texts *)

Section Texts.
Context `{Allocator} `{Crypto} (junk : byte).

Lemma clean_prefix_hex prefix up data n :
  heap_serves n -> 2 * zlen data < n -> neoc_string_clean_hex_prefix (prefix_0x prefix ++ hex_of up data) = Ok (hex_of up data).
Proof.
  intros Hh Hl. unfold neoc_string_clean_hex_prefix.
  assert ((if neoc_string_starts_with (prefix_0x prefix ++ hex_of up data) (str "0x") || neoc_string_starts_with (prefix_0x prefix ++ hex_of up data) (str "0X")
     then drop 2 (prefix_0x prefix ++ hex_of up data) else prefix_0x prefix ++ hex_of up data) = hex_of up data) as ->;
    [|apply (new_string_ok _ n Hh); by rewrite length_hex_of].
  destruct prefix; cbn [prefix_0x app].
  { assert (neoc_string_starts_with (Byte.x30 :: Byte.x78 :: hex_of up data) (str "0x") = true) as ->; [|done].
    apply string_starts_with_iff. by exists (hex_of up data). }
  pose proof (has_0x_hex_of up data) as Hno. destruct (_ || _) eqn:E; [|done]. exfalso. apply orb_true_iff in E as [E|E];
    apply string_starts_with_iff in E as [rest E]; rewrite E in Hno; discriminate.
Qed.

Lemma hex_to_bytes_text prefix up data :
  data <> [] -> zlen data <= 2 ^ 60 -> heap_serves (2 * zlen data + 4) ->
  neoc_string_hex_to_bytes junk (prefix_0x prefix ++ hex_of up data) = Ok data.
Proof.
  intros Hd Hl Hh. pose proof (zlen_nonneg data). unfold neoc_string_hex_to_bytes. rewrite (clean_prefix_hex _ _ _ _ Hh) by lia. cbn [rbind].
  pose proof (hex_decode_alloc_text junk data up false Hd ltac:(eval_pows; lia) ltac:(eapply heap_serves_mono; [done|lia])) as E. cbn [prefix_0x app] in E. by rewrite E.
Qed.

(** Hexadecimal text becomes the Base64 text of the same bytes, which decodes to them; its reversal is the text of the
    reversed bytes. *)
Theorem string_hex_texts prefix up data :
  data <> [] -> zlen data <= 2 ^ 60 -> heap_serves (2 * zlen data + 4) ->
  exists base64 reversed,
    neoc_string_hex_to_base64 junk (prefix_0x prefix ++ hex_of up data) = Ok base64 /\ neoc_string_base64_decode junk base64 = Ok data /\
    neoc_string_reverse_hex junk (prefix_0x prefix ++ hex_of up data) = Ok reversed /\ neoc_string_hex_to_bytes junk reversed = Ok (reverse data) /\
    neoc_string_reverse_hex junk reversed = Ok (hex_of false data).
Proof.
  intros Hd Hl Hh. pose proof (zlen_nonneg data). exists (text64 data), (hex_of false (reverse data)).
  assert (reverse data <> []) as Hr by (intros E; apply (f_equal zlen) in E; rewrite zlen_reverse in E; apply zlen_zero in E; done).
  assert (forall l, l <> [] -> zlen l = zlen data -> forall pre u, neoc_string_reverse_hex junk (prefix_0x pre ++ hex_of u l) = Ok (hex_of false (reverse l))) as Hrev.
  { intros l Hne El pre u. assert (reverse l <> []) as Hr' by (intros E; apply (f_equal zlen) in E; rewrite zlen_reverse in E; apply zlen_zero in E; done).
    unfold neoc_string_reverse_hex. rewrite hex_to_bytes_text by (done || rewrite El; done). cbn [rbind]. rewrite reverse_in_place_eq, <- (zlen_reverse l).
    rewrite (hex_encode_alloc_text junk (reverse l) false false Hr'); [done|rewrite zlen_reverse; eval_pows; lia|rewrite zlen_reverse, El; eapply heap_serves_mono; [done|lia]]. }
  split_and!.
  - unfold neoc_string_hex_to_base64. rewrite hex_to_bytes_text by done. cbn [rbind]. rewrite base64_alloc_text by (done || eval_pows; lia). done.
  - unfold neoc_string_base64_decode. rewrite decode_alloc_text; [done|done|eval_pows; lia|]. eapply heap_serves_mono; [done|lia].
  - by apply Hrev.
  - apply (hex_to_bytes_text false false (reverse data)); rewrite ?zlen_reverse; done.
  - pose proof (Hrev (reverse data) Hr ltac:(by rewrite zlen_reverse) false false) as E. cbn [prefix_0x app] in E. by rewrite E, reverse_involutive.
Qed.

(** ** Addresses *)

(** The address of a script hash, as the rest of the library makes it, is called valid exactly when single and double
    digest of its payload begin with the same four bytes; only then is the hash read back. *)
Theorem string_address_checksum h s :
  crypto_works -> hash160_ok h -> heap_serves 128 -> address_of h s ->
  exists single double,
    neoc_sha256 (Some (NEOC_ADDRESS_VERSION :: reverse (hash160_data h))) 21 = Ok single /\
    neoc_sha256_double (Some (NEOC_ADDRESS_VERSION :: reverse (hash160_data h))) 21 = Ok double /\
    neoc_hash160_from_address junk (Some s) = Ok h /\
    neoc_string_is_valid_address junk s = Ok (bool_decide (take 4 single = take 4 double)) /\
    neoc_string_address_to_script_hash junk s =
      if bool_decide (take 4 single = take 4 double) then Ok (hash160_data h) else Err NEOC_ERROR_INVALID_PARAM.
Proof.
  intros Hw Hh Hheap Ha. pose proof (from_address_of junk Hw ltac:(eapply heap_serves_mono; [done|lia]) h s Hh Ha) as Hfrom.
  destruct Ha as (double & Ed & Hd & Ht). unfold hash160_ok, NEOC_HASH160_SIZE in Hh. set (v := NEOC_ADDRESS_VERSION :: reverse (hash160_data h)) in *.
  assert (zlen v = 21) as Hv by (unfold v; rewrite zlen_cons, zlen_reverse; lia).
  destruct (sha256_ok Hw v) as (single & Es & Hs). rewrite Hv in Es. exists single, double. split; [done|]. split; [done|]. split; [done|].
  set (raw := v ++ take 4 double) in *. assert (zlen (take 4 double) = 4) as H4 by (unfold zlen; rewrite length_take; lia).
  assert (zlen raw = 25) as Hraw by (unfold raw; rewrite zlen_app; lia).
  assert (neoc_string_base58_decode junk s = Ok raw) as Edec.
  { unfold neoc_string_base58_decode. rewrite (decode_of_text junk raw s); [done|done|rewrite Hraw; eval_pows; lia| |done]. eapply heap_serves_mono; [done|lia]. }
  assert (neoc_string_is_valid_address junk s = Ok (bool_decide (take 4 single = take 4 double))) as Evalid.
  { unfold neoc_string_is_valid_address. rewrite Edec, Hraw. cbn [Z.eqb Pos.eqb]. change (at_index raw 0) with (@Ok byte NEOC_ADDRESS_VERSION). cbn [rbind].
    change (Z_of_byte NEOC_ADDRESS_VERSION =? 53) with true. cbn iota. unfold neoc_hash256.
    assert (neoc_sha256 (Some raw) 21 = Ok single) as ->.
    { rewrite <- Es. unfold neoc_sha256, openssl_digest. pose proof (buf_slice_app [] v (take 4 double)) as E1. pose proof (buf_slice_all v) as E2.
      cbn [app] in E1. change (zlen []) with 0 in E1. rewrite Hv in E1, E2. unfold raw. by rewrite E1, E2. }
    assert (buf_slice single 0 4 = Some (take 4 single)) as -> by (unfold buf_slice, zlen; by rewrite Hs).
    assert (buf_slice raw 21 4 = Some (take 4 double)) as ->.
    { pose proof (buf_slice_app v (take 4 double) []) as E1. rewrite app_nil_r, Hv, H4 in E1. exact E1. }
    f_equal. apply eq_true_iff_eq. rewrite Z.eqb_eq, bool_decide_eq_true. apply memcmp_zero. rewrite !length_take. lia. }
  split; [done|]. unfold neoc_string_address_to_script_hash. rewrite Evalid. cbn [rbind]. destruct (bool_decide _); [|done]. cbn [negb].
  rewrite Edec. cbn [rbind]. unfold neoc_malloc_ok. cbn [Z.eqb]. rewrite Hheap by lia. cbn [negb]. unfold fresh_block.
  rewrite (fill_loop (fun i => nth_byte raw (20 - i)) _ 20 [] (replicate (Z.to_nat 20) junk)); [|intros i b Hi; rewrite at_index_ok by lia; done|rewrite zlen_replicate; lia].
  f_equal. cbn [app]. rewrite drop_ge, app_nil_r by (rewrite length_replicate; lia).
  assert (exists d, hash160_data h = reverse d /\ length d = 20%nat) as (d & Edata & Hdl).
  { exists (reverse (hash160_data h)). rewrite reverse_involutive, length_reverse. split; [done|]. unfold zlen in Hh. lia. }
  transitivity (map (fun i => nth_byte (drop 1 raw) (20 - 1 - i)) (indices 20)).
  { apply map_ext_in. intros i Hi. unfold indices in Hi. apply in_map_iff in Hi as (k & <- & Hk). apply in_seq in Hk. unfold nth_byte. rewrite lookup_drop.
    do 2 f_equal. lia. }
  rewrite map_nth_byte_rev by (rewrite zlen_drop by (unfold zlen in Hraw; lia); lia).
  replace (take (Z.to_nat 20) (drop 1 raw)) with (reverse (hash160_data h)); [by rewrite reverse_involutive|].
  unfold raw, v. cbn [app drop]. rewrite drop_0, take_app_le, take_ge; rewrite ?length_reverse; unfold zlen in Hh; try lia. done.
Qed.
End Texts.

(** ** Witnesses *)

Section Samples.
#[local] Existing Instance mib_heap.
#[local] Existing Instance toy_crypto.

Lemma string_split_join_witness :
  exists parts, neoc_string_split (str "a,,b") Byte.x2c = Ok parts /\ join_with Byte.x2c parts = str "a,,b" /\ zlen parts = 3 /\ Forall (no_delimiter Byte.x2c) parts.
Proof. apply (string_split_join (str "a,,b") Byte.x2c); [vm_compute; reflexivity|apply mib_heap_serves; vm_compute; discriminate]. Defined.

Lemma string_trim_spec_witness :
  exists before text after, neoc_string_trim (str "  x y ") = Ok text /\ str "  x y " = before ++ text ++ after /\
    forallb is_space before = true /\ forallb is_space after = true /\
    (forall c, head text = Some c -> is_space c = false) /\ (forall c, last text = Some c -> is_space c = false).
Proof. apply (string_trim_spec (str "  x y ")). apply mib_heap_serves. vm_compute. discriminate. Defined.

Lemma string_hex_texts_witness :
  exists base64 reversed,
    neoc_string_hex_to_base64 Byte.xcd (str "0xABCD") = Ok base64 /\ neoc_string_base64_decode Byte.xcd base64 = Ok [Byte.xab; Byte.xcd] /\
    neoc_string_reverse_hex Byte.xcd (str "0xABCD") = Ok reversed /\ neoc_string_hex_to_bytes Byte.xcd reversed = Ok [Byte.xcd; Byte.xab] /\
    neoc_string_reverse_hex Byte.xcd reversed = Ok (str "abcd").
Proof.
  apply (string_hex_texts Byte.xcd true true [Byte.xab; Byte.xcd]); [discriminate|vm_compute; discriminate|apply mib_heap_serves; vm_compute; discriminate].
Defined.

Lemma string_address_checksum_witness :
  exists s single double,
    neoc_sha256 (Some (NEOC_ADDRESS_VERSION :: reverse (hash160_data sample160))) 21 = Ok single /\
    neoc_sha256_double (Some (NEOC_ADDRESS_VERSION :: reverse (hash160_data sample160))) 21 = Ok double /\
    neoc_hash160_from_address Byte.xcd (Some s) = Ok sample160 /\
    neoc_string_is_valid_address Byte.xcd s = Ok (bool_decide (take 4 single = take 4 double)) /\
    neoc_string_address_to_script_hash Byte.xcd s =
      if bool_decide (take 4 single = take 4 double) then Ok (hash160_data sample160) else Err NEOC_ERROR_INVALID_PARAM.
Proof.
  destruct (to_address_ok Byte.xcd toy_crypto_works (mib_heap_serves 64 ltac:(lia)) sample160 (zeros 40)) as (s & Ha & _); [reflexivity|vm_compute; discriminate|].
  exists s. apply (string_address_checksum Byte.xcd sample160 s toy_crypto_works); [reflexivity|apply mib_heap_serves; lia|exact Ha].
Defined.
End Samples.

(** The prefix is removed twice on the way to the bytes. *)
Example double_prefix_accepted : neoc_string_hex_to_bytes (H := mib_heap) Byte.xcd (str "0x0x12") = Ok [Byte.x12].
Proof. reflexivity. Qed.
