(* ===== verification/ByteObject.v ===== *)
(** * Byte objects (src/types/neoc_types.c, src/utils/neoc_bytes_utils.c)

    The resizable [neoc_bytes_t] and the utilities on it.  Several functions have the name of one of
    src/utils/neoc_bytes.c (file [Bytes]) and other arguments.  Objects are not NULL; a function that returns
    NULL without an error code gives [None]. *)

From S2P Require Import Prelude BinaryWriter Crypto Hex Base58 Base64 Hashes Bytes.

(** ** The object *)

(** [by_data] is NULL or a block of [by_capacity] bytes. *)
Record neoc_bytes_t := mk_bytes { by_data : option (list byte); by_length : Z; by_capacity : Z }.

Definition bytes_struct_size : Z := 24.

(** [memcmp] of the first bytes of two objects; of no bytes it is 0. *)
Definition compare_front (a b : neoc_bytes_t) (n : Z) : res Z :=
  if n =? 0 then Ok 0
  else
    match by_data a, by_data b with
    | Some x, Some y =>
        match buf_slice x 0 n, buf_slice y 0 n with
        | Some x, Some y => Ok (memcmp_loop x y)
        | _, _ => Fault
        end
    | _, _ => Fault
    end.

Definition neoc_bytes_compare (a b : neoc_bytes_t) : res Z :=
  let min_len := if by_length a <? by_length b then by_length a else by_length b in
  let? result := compare_front a b min_len in
  if negb (result =? 0) then Ok result
  else if by_length a <? by_length b then Ok (-1)
  else if by_length b <? by_length a then Ok 1
  else Ok 0.

Definition neoc_bytes_equal (a b : neoc_bytes_t) : res bool :=
  let? result := neoc_bytes_compare a b in Ok (result =? 0).

(** A store into the block of the object. *)
Definition store_bytes (m : M (list byte) unit) : M neoc_bytes_t unit := fun b =>
  match by_data b with
  | None => (Fault, b)
  | Some d => let '(r, d) := m d in (r, mk_bytes (Some d) (by_length b) (by_capacity b))
  end.

Definition neoc_bytes_reverse : M neoc_bytes_t unit := fun b =>
  if by_length b <=? 1 then (Ok tt, b) else store_bytes (reverse_loop (Z.to_nat (by_length b)) 0 (by_length b - 1)) b.

(** Wiping with zeros. *)
Definition neoc_bytes_clear : M neoc_bytes_t unit := fun b =>
  match by_data b with
  | Some _ => if 0 <? by_length b then store_bytes (store 0 (zeros (by_length b))) b else (Ok tt, b)
  | None => (Ok tt, b)
  end.

Section Operations.
Context `{Allocator} `{Crypto} (junk : byte).

Definition neoc_bytes_create (length : Z) : option neoc_bytes_t :=
  if negb (neoc_malloc_ok bytes_struct_size) then None
  else if 0 <? length then
    if negb (neoc_malloc_ok length) then None else Some (mk_bytes (Some (zeros length)) length length)
  else Some (mk_bytes None length length).

(** [data] may be NULL when there is nothing to copy. *)
Definition neoc_bytes_from_data (data : option (list byte)) (length : Z) : res (option neoc_bytes_t) :=
  match data with
  | None => if 0 <? length then Ok None else Ok (neoc_bytes_create length)
  | Some data =>
      match neoc_bytes_create length with
      | None => Ok None
      | Some bytes =>
          if 0 <? length then
            let? d := memcpy_from data length in
            match store_bytes (store 0 d) bytes with
            | (Ok _, bytes) => Ok (Some bytes)
            | _ => Fault
            end
          else Ok (Some bytes)
      end
  end.

Definition neoc_bytes_from_hex (hex_string : list byte) : res (option neoc_bytes_t) :=
  match neoc_hex_decode_alloc junk (Some hex_string) with
  | Fault => Fault
  | Err _ => Ok None
  | Ok decoded => neoc_bytes_from_data (Some decoded) (zlen decoded)
  end.

Definition neoc_bytes_duplicate (bytes : neoc_bytes_t) : res (option neoc_bytes_t) :=
  neoc_bytes_from_data (by_data bytes) (by_length bytes).

(** [neoc_realloc] keeps the old bytes; the new ones, and those behind the old length, are set to zero. *)
Definition neoc_bytes_resize (new_length : Z) : M neoc_bytes_t unit := fun bytes =>
  if new_length =? by_length bytes then (Ok tt, bytes)
  else if new_length =? 0 then (Ok tt, mk_bytes None 0 0)
  else if new_length <=? by_capacity bytes then (Ok tt, mk_bytes (by_data bytes) new_length (by_capacity bytes))
  else if negb (neoc_malloc_ok new_length) then (Err NEOC_ERROR_OUT_OF_MEMORY, bytes)
  else
    let old := default [] (by_data bytes) in
    let new_data := take (Z.to_nat new_length) (old ++ replicate (Z.to_nat new_length - length old) junk) in
    match (if by_length bytes <? new_length then store (by_length bytes) (zeros (new_length - by_length bytes)) new_data else (Ok tt, new_data)) with
    | (Ok _, new_data) => (Ok tt, mk_bytes (Some new_data) new_length new_length)
    | (Err e, _) => (Err e, bytes)
    | (Fault, _) => (Fault, bytes)
    end.

Definition neoc_bytes_append (data : option (list byte)) (length : Z) : M neoc_bytes_t unit :=
  match data with
  | None => if 0 <? length then fail NEOC_ERROR_NULL_POINTER else ret tt
  | Some data =>
      if length =? 0 then ret tt
      else fun bytes =>
        let old_length := by_length bytes in
        (do! neoc_bytes_resize (wrap 64 (old_length + length)) in
         let! d := lift (memcpy_from data length) in
         store_bytes (store old_length d)) bytes
  end.

Definition neoc_bytes_reversed (bytes : neoc_bytes_t) : res (option neoc_bytes_t) :=
  let? copy := neoc_bytes_duplicate bytes in
  match copy with
  | None => Ok None
  | Some copy =>
      match neoc_bytes_reverse copy with
      | (Ok _, reversed) => Ok (Some reversed)
      | (Err _, _) => Ok None
      | (Fault, _) => Fault
      end
  end.

Definition neoc_bytes_to_hex (bytes : neoc_bytes_t) (uppercase : bool) : res (list byte) :=
  neoc_hex_encode_alloc junk (by_data bytes) (by_length bytes) uppercase false.

(** ** neoc_bytes_utils.c *)

(** Empty objects give the empty text, others what [encode] writes. *)
Definition text_or_empty (bytes : neoc_bytes_t) (buffer_size : Z) (encode : list byte -> M (list byte) unit) : M (list byte) unit :=
  match by_data bytes with
  | Some data => if by_length bytes =? 0 then (if 0 <? buffer_size then store 0 [Byte.x00] else ret tt) else encode data
  | None => if 0 <? buffer_size then store 0 [Byte.x00] else ret tt
  end.

Definition neoc_bytes_to_base64 (bytes : neoc_bytes_t) (buffer_size : Z) : M (list byte) unit :=
  text_or_empty bytes buffer_size (fun data => neoc_base64_encode (Some data) (by_length bytes) buffer_size).

Definition neoc_bytes_to_base58 (bytes : neoc_bytes_t) (buffer_size : Z) : M (list byte) unit :=
  text_or_empty bytes buffer_size (fun data => neoc_base58_encode (Some data) (by_length bytes) buffer_size).

(** [strncpy(buffer, s, size - 1)] pads with zeros; the last byte is set to zero. *)
Definition strncpy_terminated (s : list byte) (buffer_size : Z) : M (list byte) unit :=
  do! store 0 (take (Z.to_nat (buffer_size - 1)) s ++ zeros (buffer_size - 1 - zlen s)) in
  store (buffer_size - 1) [Byte.x00].

Definition neoc_bytes_to_base58_check (bytes : neoc_bytes_t) (buffer_size : Z) : M (list byte) unit :=
  text_or_empty bytes buffer_size (fun data =>
    match neoc_base58_check_encode_alloc junk (Some data) (by_length bytes) with
    | Fault => fault
    | Err _ => fail NEOC_ERROR_INVALID_FORMAT
    | Ok encoded =>
        if buffer_size <=? zlen encoded then fail NEOC_ERROR_BUFFER_TOO_SMALL else strncpy_terminated encoded buffer_size
    end).

Definition NEOC_MAX_HEX_STRING_LENGTH : Z := 1024.

Definition neoc_bytes_to_hex_no_prefix (bytes : neoc_bytes_t) (buffer_size : Z) : M (list byte) unit :=
  text_or_empty bytes buffer_size (fun data =>
    let! temp_buffer := lift (local_buffer (Z.to_nat NEOC_MAX_HEX_STRING_LENGTH)
      (neoc_hex_encode (Some data) (by_length bytes) NEOC_MAX_HEX_STRING_LENGTH false true)) in
    let text := cstring temp_buffer in
    let hex_start := if bool_decide (take 2 text = str "0x") then drop 2 text else text in
    if buffer_size <? zlen hex_start + 1 then fail NEOC_ERROR_BUFFER_TOO_SMALL else strncpy_terminated hex_start buffer_size).

Definition get_varint_size (value : Z) : Z :=
  if value <? 0xFD then 1 else if value <=? 0xFFFF then 3 else if value <=? 0xFFFFFFFF then 5 else 9.

Definition neoc_bytes_var_size (bytes : neoc_bytes_t) : Z := wrap 64 (get_varint_size (by_length bytes) + by_length bytes).

Definition neoc_byte_is_between_opcodes (byte_value opcode1 opcode2 : Z) : bool := (opcode1 <=? byte_value) && (byte_value <=? opcode2).

(** The checksum is that of the single digest. *)
Definition neoc_bytes_script_hash_to_address (script_hash : neoc_bytes_t) (buffer_size : Z) : M (list byte) unit :=
  match by_data script_hash with
  | None => fail NEOC_ERROR_INVALID_LENGTH
  | Some data =>
      if negb (by_length script_hash =? NEOC_HASH160_SIZE) then fail NEOC_ERROR_INVALID_LENGTH
      else
        let! h := lift (memcpy_from data NEOC_HASH160_SIZE) in
        let versioned_script := NEOC_ADDRESS_VERSION :: reverse h in
        let! hash256_result := lift (neoc_hash256 (Some versioned_script) (NEOC_HASH160_SIZE + 1)) in
        let! checksum := lift (memcpy_from hash256_result 4) in
        neoc_base58_encode (Some (versioned_script ++ checksum)) (NEOC_HASH160_SIZE + 1 + 4) buffer_size
  end.

(** A new object of [length] bytes that is filled in. *)
Definition filled_bytes (length : Z) (m : M (list byte) unit) : res neoc_bytes_t :=
  match neoc_bytes_create length with
  | None => Err NEOC_ERROR_OUT_OF_MEMORY
  | Some result =>
      match m (default [] (by_data result)) with
      | (Ok _, d) => Ok (mk_bytes (match by_data result with Some _ => Some d | None => None end) (by_length result) (by_capacity result))
      | (Err e, _) => Err e
      | (Fault, _) => Fault
      end
  end.

(** The data of an object with bytes. *)
Definition data_of (bytes : neoc_bytes_t) : list byte := default [] (by_data bytes).

Definition neoc_bytes_pad (bytes : neoc_bytes_t) (length : Z) (trailing : bool) : res neoc_bytes_t :=
  let? first := (if 0 <? by_length bytes then at_index (data_of bytes) 0 else Ok Byte.x01) in
  let src_offset := if (0 <? by_length bytes) && (Z_of_byte first =? 0) then 1 else 0 in
  let effective_length := by_length bytes - src_offset in
  if length <? effective_length then Err NEOC_ERROR_INVALID_ARGUMENT
  else
    match buf_slice (data_of bytes) src_offset effective_length with
    | None => Fault
    | Some d =>
        let padding_size := length - effective_length in
        filled_bytes length
          (if trailing then do! store 0 d in store effective_length (zeros padding_size)
           else do! store 0 (zeros padding_size) in store padding_size d)
    end.

Definition neoc_bytes_trim_trailing (bytes : neoc_bytes_t) (byte_value : byte) : res neoc_bytes_t :=
  match by_data bytes with
  | None => filled_bytes 0 (ret tt)
  | Some data =>
      if by_length bytes =? 0 then filled_bytes 0 (ret tt)
      else
        let? new_length := trim_loop data byte_value (Z.to_nat (by_length bytes)) in
        let new_length := Z.of_nat new_length in
        filled_bytes new_length
          (if 0 <? new_length then let! d := lift (memcpy_from data new_length) in store 0 d else ret tt)
  end.

(** Bytes shifted into a number of 32 or 64 bits. *)
Definition bytes_to_uint (width : Z) (bytes : neoc_bytes_t) (little_endian : bool) : res Z :=
  match by_data bytes with
  | None => Err NEOC_ERROR_INVALID_LENGTH
  | Some data =>
      if (by_length bytes =? 0) || (width <? by_length bytes) then Err NEOC_ERROR_INVALID_LENGTH
      else if little_endian then or_le data 0 (indices (by_length bytes)) 0 else or_be data (indices (by_length bytes)) 0
  end.

Definition neoc_bytes_to_uint32 : neoc_bytes_t -> bool -> res Z := bytes_to_uint 4.
Definition neoc_bytes_to_uint64 : neoc_bytes_t -> bool -> res Z := bytes_to_uint 8.

Definition neoc_bytes_xor (lhs rhs : neoc_bytes_t) : res neoc_bytes_t :=
  match by_data lhs, by_data rhs with
  | Some l, Some r =>
      if negb (by_length lhs =? by_length rhs) then Err NEOC_ERROR_INVALID_ARGUMENT
      else filled_bytes (by_length lhs) (Bytes.neoc_bytes_xor l r (by_length lhs))
  | _, _ => Err NEOC_ERROR_INVALID_ARGUMENT
  end.

Definition neoc_bytes_reverse_inplace : M neoc_bytes_t unit := fun b =>
  match by_data b with
  | None => (Err NEOC_ERROR_NULL_POINTER, b)
  | Some d =>
      if by_length b <=? 1 then (Ok tt, b)
      else
        match buf_slice d 0 (by_length b) with
        | None => (Fault, b)
        | Some front => (Ok tt, mk_bytes (Some (reverse_in_place front ++ drop (Z.to_nat (by_length b)) d)) (by_length b) (by_capacity b))
        end
  end.

Definition neoc_bytes_reverse_copy (bytes : neoc_bytes_t) : res neoc_bytes_t :=
  filled_bytes (by_length bytes)
    (match by_data bytes with Some data => if 0 <? by_length bytes then copy_reversed data (by_length bytes) else ret tt | None => ret tt end).
End Operations.


(** ** Objects as byte strings *)

(** The object holds the byte string [c]: its block begins with it and has [by_capacity] bytes. *)
Definition holds (b : neoc_bytes_t) (c : list byte) : Prop :=
  by_length b = zlen c /\
  match by_data b with
  | None => c = [] /\ by_capacity b = 0
  | Some d => by_capacity b = zlen d /\ exists rest, d = c ++ rest
  end.

Lemma holds_length b c : holds b c -> by_length b = zlen c /\ zlen c <= by_capacity b.
Proof.
  unfold holds. destruct (by_data b) as [d|].
  - intros (Hl & Hc & rest & ->). rewrite Hc, zlen_app. pose proof (zlen_nonneg rest). lia.
  - intros (Hl & -> & Hc). rewrite zlen_nil in *. lia.
Qed.

Lemma holds_block c rest : holds (mk_bytes (Some (c ++ rest)) (zlen c) (zlen (c ++ rest))) c.
Proof. unfold holds. cbn. eauto. Qed.

(** A front of an object with a block, of any length. *)
Lemma holds_front b c n :
  holds b c -> 0 <= n <= by_capacity b -> exists old, zlen old = n /\ holds (mk_bytes (by_data b) n (by_capacity b)) old /\
    (n <= zlen c -> old = take (Z.to_nat n) c) /\ (zlen c <= n -> exists new, old = c ++ new).
Proof.
  unfold holds. destruct b as [[d|] len cap]; cbn.
  - intros (-> & -> & rest & ->) Hn. exists (take (Z.to_nat n) (c ++ rest)).
    assert (zlen (take (Z.to_nat n) (c ++ rest)) = n) as Hl by (unfold zlen in *; rewrite length_take; lia).
    rewrite Hl. split_and!; eauto.
    + exists (drop (Z.to_nat n) (c ++ rest)). by rewrite take_drop.
    + intros Hle. rewrite take_app_le; [done|unfold zlen in *; lia].
    + intros Hle. rewrite take_app. rewrite (take_ge c) by (unfold zlen in *; lia). eauto.
  - intros (-> & -> & ->) Hn. exists []. assert (n = 0) as -> by lia. split_and!; eauto.
Qed.

Section ObjectLemmas.
Context `{Allocator} (junk : byte).

Lemma create_holds length :
  0 <= length -> match neoc_bytes_create length with Some b => holds b (zeros length) /\ by_capacity b = length | None => True end.
Proof.
  intros Hl. unfold neoc_bytes_create. destruct (negb _); [done|]. destruct (Z.ltb_spec 0 length).
  - destruct (negb _); [done|]. split; [|done]. pose proof (holds_block (zeros length) []) as E. rewrite app_nil_r, zlen_zeros in E by lia. done.
  - assert (length = 0) as -> by lia. done.
Qed.

(** The data is copied into a block of its size. *)
Lemma from_data_served c tail :
  heap_serves (zlen c + 24) -> exists b, neoc_bytes_from_data (Some (c ++ tail)) (zlen c) = Ok (Some b) /\ holds b c.
Proof.
  intros Hh. unfold neoc_bytes_from_data, neoc_bytes_create, neoc_malloc_ok, bytes_struct_size. pose proof (zlen_nonneg c).
  change (24 =? 0) with false. cbn iota. rewrite !Hh by lia. cbn [negb]. destruct (Z.ltb_spec 0 (zlen c)) as [Hp|Hp].
  - cmps. cbn [negb]. assert (memcpy_from (c ++ tail) (zlen c) = Ok c) as ->.
    { unfold memcpy_from. pose proof (buf_slice_app [] c tail) as E. cbn [app] in E. change (zlen []) with 0 in E. by rewrite E. }
    cbn [rbind]. unfold store_bytes. cbn [by_data]. rewrite store_first by (rewrite zlen_zeros; lia).
    rewrite drop_ge, app_nil_r by (unfold zeros, zlen; rewrite length_replicate; lia). eexists. split; [done|].
    unfold holds. cbn. split; [done|]. split; [done|]. exists []. by rewrite app_nil_r.
  - rewrite (zlen_zero c) by lia. eexists. split; [done|]. done.
Qed.

(** Growing beyond the block: the old content and zeros. *)
Lemma resize_grows b c n :
  holds b c -> by_capacity b < n -> neoc_malloc_ok n = true ->
  neoc_bytes_resize junk n b = (Ok tt, mk_bytes (Some (c ++ zeros (n - zlen c))) n n).
Proof.
  intros Hb Hn Hm. destruct (holds_length _ _ Hb) as [El Hcap]. pose proof (zlen_nonneg c). unfold neoc_bytes_resize.
  rewrite El. cmps. rewrite Hm. cbn [negb].
  assert (exists rest, default [] (by_data b) = c ++ rest /\ zlen (c ++ rest) = by_capacity b) as (rest & -> & Hr).
  { destruct Hb as (_ & Hd). destruct (by_data b); [destruct Hd as (Hc & rest & ->); eauto|]. destruct Hd as [-> Hc]. exists []. by rewrite Hc. }
  assert (Z.of_nat (Z.to_nat n - length (c ++ rest)) = n - by_capacity b) as Hg by (unfold zlen in Hr; lia).
  rewrite take_ge by (rewrite length_app, length_replicate; unfold zlen in Hr; lia).
  rewrite <- app_assoc, store_next by (rewrite zlen_zeros by lia; rewrite !zlen_app, zlen_replicate in *; lia).
  rewrite drop_ge by (unfold zeros, zlen in *; rewrite ?length_app, ?length_replicate in *; lia).
  by rewrite app_nil_r.
Qed.
End ObjectLemmas.

Section Objects.
Context `{Allocator} `{Crypto} (junk : byte).

(** Resizing keeps the common front and only fails for want of memory, which leaves the object as it was.  The bytes
    gained are zeros when the block grows, and what the block held when the new length fits it. *)
Theorem bytes_resize_keeps b c n :
  holds b c -> 0 <= n ->
  match neoc_bytes_resize junk n b with
  | (Ok _, b') => exists c', holds b' c' /\ zlen c' = n /\ (n <= zlen c -> c' = take (Z.to_nat n) c) /\
      (zlen c <= n -> exists gained, c' = c ++ gained /\ (by_capacity b < n -> gained = zeros (n - zlen c)))
  | (Err e, b') => e = NEOC_ERROR_OUT_OF_MEMORY /\ b' = b /\ by_capacity b < n
  | (Fault, _) => False
  end.
Proof.
  intros Hb Hn. destruct (holds_length _ _ Hb) as [El Hcap]. pose proof (zlen_nonneg c).
  destruct (Z.ltb_spec (by_capacity b) n) as [Hgrow|Hfit].
  - destruct (neoc_malloc_ok n) eqn:Em.
    + rewrite (resize_grows junk b c) by done. exists (c ++ zeros (n - zlen c)).
      assert (zlen (c ++ zeros (n - zlen c)) = n) as Hl by (rewrite zlen_app, zlen_zeros; lia).
      split_and!; [|done|lia|eauto]. pose proof (holds_block (c ++ zeros (n - zlen c)) []) as E. rewrite app_nil_r, Hl in E. done.
    + unfold neoc_bytes_resize. rewrite El, Em. cmps. done.
  - unfold neoc_bytes_resize. rewrite El. destruct (Z.eqb_spec n (zlen c)) as [->|Hne].
    { exists c. split_and!; [done|done|intros _; unfold zlen; by rewrite Nat2Z.id, firstn_all|]. intros _. exists []. rewrite app_nil_r. split; [done|lia]. }
    destruct (Z.eqb_spec n 0) as [->|]. { exists []. split_and!; [done|done|done|lia]. }
    destruct (holds_front b c n Hb ltac:(lia)) as (old & Ho & Hold & Hs & Hg). cmps. exists old. split_and!; [done|done|done|].
    intros Hle. destruct (Hg Hle) as [new ->]. eexists. split; [done|lia].
Qed.

(** Appending concatenates; it fails for want of memory only, and then nothing has changed. *)
Theorem bytes_append_refines b c d :
  holds b c -> zlen c + zlen d < 2 ^ 64 ->
  match neoc_bytes_append junk (Some d) (zlen d) b with
  | (Ok _, b') => holds b' (c ++ d)
  | (Err e, b') => e = NEOC_ERROR_OUT_OF_MEMORY /\ b' = b /\ by_capacity b < zlen c + zlen d
  | (Fault, _) => False
  end.
Proof.
  intros Hb Hl. destruct (holds_length _ _ Hb) as [El Hcap]. unfold neoc_bytes_append.
  destruct (Z.eqb_spec (zlen d) 0) as [E0|Hd]. { rewrite (zlen_zero d E0). cbn. by rewrite app_nil_r. }
  pose proof (zlen_nonneg c). pose proof (zlen_nonneg d). rewrite El, wrap_small by lia.
  pose proof (bytes_resize_keeps b c (zlen c + zlen d) Hb ltac:(lia)) as Hr. unfold bind at 1.
  destruct (neoc_bytes_resize junk _ b) as [[[]|e|] b']; [|done|done]. destruct Hr as (c' & Hc' & Hlen & _ & Hg). destruct (Hg ltac:(lia)) as (gained & -> & _).
  rewrite memcpy_from_all, bind_lift by done. unfold store_bytes. rewrite zlen_app in Hlen.
  destruct Hc' as (E' & Hd'). destruct (by_data b') as [blk|]; [|destruct Hd' as [[-> ->]%app_nil _]; zlia].
  destruct Hd' as (Ecap & rest & ->). rewrite <- app_assoc, store_next by (rewrite zlen_app; pose proof (zlen_nonneg rest); lia).
  unfold holds. cbn. rewrite E', Ecap, !zlen_app. rewrite zlen_drop by (unfold zlen in *; rewrite length_app; lia). rewrite zlen_app. fold (zlen d). split_and!; [lia| |eauto]. unfold zlen in *; lia.
Qed.
End Objects.

(** ** Order, reversal and texts *)

Lemma front_slice b c n : holds b c -> 0 < n <= zlen c -> exists d, by_data b = Some d /\ buf_slice d 0 n = Some (take (Z.to_nat n) c).
Proof.
  intros (El & Hb) Hn. destruct (by_data b) as [d|]; [|destruct Hb as [-> _]; zlia]. exists d. split; [done|]. destruct Hb as (_ & rest & ->).
  unfold buf_slice. rewrite zlen_app. pose proof (zlen_nonneg rest). cmps. rewrite drop_0, take_app_le; [done|unfold zlen in *; lia].
Qed.

Lemma compare_holds a b x y : holds a x -> holds b y -> neoc_bytes_compare a b = Ok (lex x y).
Proof.
  intros Ha Hb. destruct (holds_length _ _ Ha) as [Ea _], (holds_length _ _ Hb) as [Eb _].
  pose proof (zlen_nonneg x). pose proof (zlen_nonneg y).
  assert ((if zlen x <? zlen y then zlen x else zlen y) = Z.of_nat (Nat.min (length x) (length y))) as Em.
  { unfold zlen. destruct (Z.ltb_spec (Z.of_nat (length x)) (Z.of_nat (length y))); lia. }
  assert (compare_front a b (Z.of_nat (Nat.min (length x) (length y))) =
          Ok (memcmp_loop (take (Nat.min (length x) (length y)) x) (take (Nat.min (length x) (length y)) y))) as Ef.
  { unfold compare_front. destruct (Z.eqb_spec (Z.of_nat (Nat.min (length x) (length y))) 0) as [E|E].
    - replace (Nat.min (length x) (length y)) with O by lia. done.
    - destruct (front_slice a x (Z.of_nat (Nat.min (length x) (length y))) Ha ltac:(unfold zlen; lia)) as (d & -> & ->).
      destruct (front_slice b y (Z.of_nat (Nat.min (length x) (length y))) Hb ltac:(unfold zlen; lia)) as (e & -> & ->). by rewrite Nat2Z.id. }
  unfold neoc_bytes_compare. rewrite Ea, Eb. cbv zeta. rewrite Em, Ef. cbn [rbind]. rewrite (lex_front x y _ eq_refl). cbv zeta.
  destruct (negb _); [done|]. unfold zlen.
  destruct (Nat.ltb_spec (length x) (length y)), (Nat.ltb_spec (length y) (length x)); cmps; done.
Qed.

Lemma equal_holds a b x y : holds a x -> holds b y -> neoc_bytes_equal a b = Ok (bool_decide (x = y)).
Proof.
  intros Ha Hb. unfold neoc_bytes_equal. rewrite (compare_holds a b x y) by done. cbn [rbind]. f_equal. apply eq_true_iff_eq. rewrite Z.eqb_eq, bool_decide_eq_true. apply lex_refl.
Qed.

(** Comparison is the lexicographic order of what the objects hold, a total order: equal means the same bytes. *)
Theorem bytes_compare_lex a b x y :
  holds a x -> holds b y ->
  neoc_bytes_compare a b = Ok (lex x y) /\ neoc_bytes_compare b a = Ok (- lex x y) /\ neoc_bytes_equal a b = Ok (bool_decide (x = y)).
Proof.
  intros Ha Hb. split; [by apply compare_holds|]. split; [rewrite <- lex_opp; by apply compare_holds|]. by apply equal_holds.
Qed.

(** Reversal in place reverses what the object holds; both functions for it do the same. *)
Theorem bytes_object_reverse b c :
  holds b c ->
  (exists b', neoc_bytes_reverse b = (Ok tt, b') /\ holds b' (reverse c) /\ by_capacity b' = by_capacity b) /\
  (by_data b <> None -> neoc_bytes_reverse_inplace b = neoc_bytes_reverse b).
Proof.
  intros Hb. destruct (holds_length _ _ Hb) as [El _]. unfold neoc_bytes_reverse, neoc_bytes_reverse_inplace. rewrite El.
  destruct (Z.leb_spec (zlen c) 1) as [Hs|Hs].
  - split; [|destruct (by_data b); done]. exists b. split; [done|]. split; [|done].
    replace (reverse c) with c; [done|]. destruct c as [|x [|y c]]; [done|done|]. rewrite !zlen_cons in Hs. pose proof (zlen_nonneg c). lia.
  - destruct Hb as (_ & Hd). unfold store_bytes. destruct (by_data b) as [d|]; [|destruct Hd as [-> _]; zlia]. destruct Hd as (Ecap & rest & ->).
    pose proof (reverse_loop_ok (Z.to_nat (zlen c)) [] c rest) as E. cbn [app] in E. change (zlen []) with 0 in E. rewrite Z.add_0_l in E.
    rewrite E by (unfold zlen in *; lia). split.
    + eexists. split; [done|]. rewrite El, Ecap. split; [|done]. unfold holds. cbn. rewrite !zlen_app, zlen_reverse. eauto.
    + intros _. pose proof (buf_slice_app [] c rest) as Es. cbn [app] in Es. change (zlen []) with 0 in Es. rewrite Es, reverse_in_place_eq.
      unfold zlen. by rewrite Nat2Z.id, drop_app_length, El.
Qed.

Section ObjectTexts.
Context `{Allocator} `{Crypto} (junk : byte).

Lemma hex_encode_front c rest uppercase :
  neoc_hex_encode_alloc junk (Some (c ++ rest)) (zlen c) uppercase false = neoc_hex_encode_alloc junk (Some c) (zlen c) uppercase false.
Proof.
  unfold neoc_hex_encode_alloc, neoc_hex_encode. pose proof (buf_slice_app [] c rest) as E. cbn [app] in E.
  change (zlen []) with 0 in E. by rewrite E, buf_slice_all.
Qed.

(** Round trip: the hexadecimal text of an object, in either case, makes an object that holds the same bytes. *)
Theorem bytes_object_hex b c uppercase :
  holds b c -> c <> [] -> zlen c <= 2 ^ 62 -> heap_serves (2 * zlen c + 24) ->
  exists text b', neoc_bytes_to_hex junk b uppercase = Ok text /\ neoc_bytes_from_hex junk text = Ok (Some b') /\ holds b' c.
Proof.
  intros Hb Hc Hl Hh. pose proof (zlen_pos c Hc). exists (hex_of uppercase c).
  assert (neoc_bytes_to_hex junk b uppercase = Ok (hex_of uppercase c)) as ->.
  { unfold neoc_bytes_to_hex. destruct Hb as (-> & Hd). destruct (by_data b) as [d|]; [|by destruct Hd]. destruct Hd as (_ & rest & ->).
    rewrite hex_encode_front. rewrite (hex_encode_alloc_text junk c uppercase false); [done|done|done|]. eapply heap_serves_mono; [done|lia]. }
  unfold neoc_bytes_from_hex. rewrite (hex_decode_alloc_text junk c uppercase false); [|done|done|eapply heap_serves_mono; [done|lia]].
  destruct (from_data_served c []) as (b' & E & Hb'); [eapply heap_serves_mono; [done|lia]|]. rewrite app_nil_r in E. eauto.
Qed.

(** The text made of a script hash object is the address of the hash exactly when the single and the double digest of the
    payload begin with the same four bytes. *)
Theorem bytes_object_address h b buf :
  crypto_works -> hash160_ok h -> holds b (hash160_data h) -> 52 <= zlen buf -> heap_serves 64 ->
  exists single double s rest,
    neoc_sha256 (Some (NEOC_ADDRESS_VERSION :: reverse (hash160_data h))) 21 = Ok single /\
    neoc_sha256_double (Some (NEOC_ADDRESS_VERSION :: reverse (hash160_data h))) 21 = Ok double /\
    neoc_bytes_script_hash_to_address b (zlen buf) buf = (Ok tt, s ++ Byte.x00 :: rest) /\
    (address_of h s <-> take 4 single = take 4 double).
Proof.
  intros Hw Hh Hb Hbuf Hheap. unfold hash160_ok, NEOC_HASH160_SIZE in Hh. set (v := NEOC_ADDRESS_VERSION :: reverse (hash160_data h)).
  assert (zlen v = 21) as Hv by (unfold v; rewrite zlen_cons, zlen_reverse; lia).
  destruct (sha256_double_ok Hw v) as (double & Ed & Hd), (sha256_ok Hw v) as (single & Es & Hs). rewrite Hv in Ed, Es.
  assert (zlen (v ++ take 4 single) = 25) as H25 by (rewrite zlen_app, Hv; unfold zlen; rewrite length_take; lia).
  destruct (base58_encode_spec (v ++ take 4 single) (zlen buf) buf) as (s & Ht & _ & Hok); [done|rewrite H25; lia|done| |].
  { rewrite H25. apply Hheap. vm_compute. split; discriminate. }
  destruct (Hok ltac:(pose proof (text_bound (v ++ take 4 single) s ltac:(done) ltac:(rewrite H25; eval_pows; lia) Ht); lia)) as (rest & E).
  exists single, double, s, rest. split_and!; [done|done| |].
  - unfold neoc_bytes_script_hash_to_address. destruct (front_slice b _ 20 Hb ltac:(lia)) as (d & -> & Hd'). destruct (holds_length _ _ Hb) as [-> _].
    rewrite Hh. cbn [negb]. change (negb (20 =? NEOC_HASH160_SIZE)) with false. cbn iota. unfold memcpy_from at 1. change NEOC_HASH160_SIZE with 20. rewrite Hd'. rewrite take_ge by (unfold zlen in Hh; lia).
    rewrite bind_lift. cbv zeta. fold v. change (neoc_hash256 (Some v) (20 + 1)) with (neoc_sha256 (Some v) 21). rewrite Es, bind_lift.
    assert (memcpy_from single 4 = Ok (take 4 single)) as -> by (unfold memcpy_from, buf_slice, zlen; by rewrite Hs).
    rewrite bind_lift. by rewrite H25 in E.
  - unfold address_of. fold v. rewrite Ed. split.
    + intros (c & [= <-] & _ & Ht'). eapply (app_inv_head v). 
      assert (zlen (v ++ take 4 double) = 25) as H25' by (rewrite zlen_app, Hv; unfold zlen; rewrite length_take; lia).
      pose proof (decode_of_text junk (v ++ take 4 single) s ltac:(done) ltac:(rewrite H25; eval_pows; lia) ltac:(rewrite H25; eapply heap_serves_mono; [done|lia]) Ht) as E1.
      pose proof (decode_of_text junk (v ++ take 4 double) s ltac:(done) ltac:(rewrite H25'; eval_pows; lia) ltac:(rewrite H25'; eapply heap_serves_mono; [done|lia]) Ht') as E2. congruence.
    + intros Heq. exists double. rewrite <- Heq. split; [done|]. split; done.
Qed.
End ObjectTexts.

(** ** Witnesses *)

Section Samples.
#[local] Existing Instance mib_heap.
#[local] Existing Instance toy_crypto.

(** An object of four bytes that was cut to two. *)
Definition cut_object : neoc_bytes_t := mk_bytes (Some [Byte.x01; Byte.x02; Byte.x03; Byte.x04]) 2 4.

Lemma cut_object_holds : holds cut_object [Byte.x01; Byte.x02].
Proof. split; [done|]. split; [done|]. by exists [Byte.x03; Byte.x04]. Qed.

Lemma bytes_resize_keeps_witness :
  exists b', neoc_bytes_resize Byte.xcd 5 cut_object = (Ok tt, b') /\ holds b' [Byte.x01; Byte.x02; Byte.x00; Byte.x00; Byte.x00].
Proof.
  pose proof (bytes_resize_keeps Byte.xcd cut_object [Byte.x01; Byte.x02] 5 cut_object_holds ltac:(lia)) as Hr.
  destruct (neoc_bytes_resize Byte.xcd 5 cut_object) as [[[]|e|] b'] eqn:E; [|vm_compute in E; discriminate|vm_compute in E; discriminate].
  destruct Hr as (c & Hc & _ & _ & Hg). destruct Hg as (gained & -> & Hz); [vm_compute; discriminate|].
  exists b'. split; [reflexivity|]. rewrite Hz in Hc by reflexivity. exact Hc.
Defined.

Lemma bytes_append_refines_witness :
  exists b', neoc_bytes_append Byte.xcd (Some [Byte.x09]) 1 cut_object = (Ok tt, b') /\ holds b' [Byte.x01; Byte.x02; Byte.x09].
Proof.
  pose proof (bytes_append_refines Byte.xcd cut_object [Byte.x01; Byte.x02] [Byte.x09] cut_object_holds ltac:(vm_compute; reflexivity)) as Hr.
  change (zlen [Byte.x09]) with 1 in Hr.
  destruct (neoc_bytes_append Byte.xcd (Some [Byte.x09]) 1 cut_object) as [[[]|e|] b'] eqn:E; [|vm_compute in E; discriminate|vm_compute in E; discriminate].
  exists b'. split; [reflexivity|exact Hr].
Defined.

Lemma bytes_compare_lex_witness : neoc_bytes_compare cut_object (mk_bytes None 0 0) = Ok 1 /\ neoc_bytes_compare (mk_bytes None 0 0) cut_object = Ok (-1) /\
  neoc_bytes_equal cut_object (mk_bytes None 0 0) = Ok false.
Proof. apply (bytes_compare_lex cut_object (mk_bytes None 0 0) [Byte.x01; Byte.x02] []); [exact cut_object_holds|by split]. Defined.

Lemma bytes_object_reverse_witness :
  (exists b', neoc_bytes_reverse cut_object = (Ok tt, b') /\ holds b' [Byte.x02; Byte.x01] /\ by_capacity b' = 4) /\
  (by_data cut_object <> None -> neoc_bytes_reverse_inplace cut_object = neoc_bytes_reverse cut_object).
Proof. apply (bytes_object_reverse cut_object [Byte.x01; Byte.x02] cut_object_holds). Defined.

Lemma bytes_object_hex_witness :
  exists text b', neoc_bytes_to_hex Byte.xcd cut_object true = Ok text /\ neoc_bytes_from_hex Byte.xcd text = Ok (Some b') /\ holds b' [Byte.x01; Byte.x02].
Proof.
  apply (bytes_object_hex Byte.xcd cut_object [Byte.x01; Byte.x02] true cut_object_holds); [discriminate|vm_compute; discriminate|].
  apply mib_heap_serves. vm_compute. discriminate.
Defined.

Lemma bytes_object_address_witness :
  exists single double s rest,
    neoc_sha256 (Some (NEOC_ADDRESS_VERSION :: reverse (hash160_data sample160))) 21 = Ok single /\
    neoc_sha256_double (Some (NEOC_ADDRESS_VERSION :: reverse (hash160_data sample160))) 21 = Ok double /\
    neoc_bytes_script_hash_to_address (mk_bytes (Some (hash160_data sample160)) 20 20) 64 (zeros 64) = (Ok tt, s ++ Byte.x00 :: rest) /\
    (address_of sample160 s <-> take 4 single = take 4 double).
Proof.
  apply (bytes_object_address Byte.xcd sample160 _ (zeros 64) toy_crypto_works); [reflexivity| |vm_compute; discriminate|apply mib_heap_serves; lia].
  split; [reflexivity|]. split; [reflexivity|]. exists []. by rewrite app_nil_r.
Defined.

(** Growing again within the block shows the bytes that were cut off. *)
Example resize_reveals : neoc_bytes_resize Byte.xcd 4 cut_object = (Ok tt, mk_bytes (Some [Byte.x01; Byte.x02; Byte.x03; Byte.x04]) 4 4).
Proof. reflexivity. Qed.
End Samples.
