(* ===== verification/ByteArray.v ===== *)
(** * Byte arrays (src/utils/array.c, the functions on neoc_byte_array_t; src/utils/bytes.c)

    Arrays of bytes that grow by doubling, and the functions that combine, search, compare and convert them.  The
    struct has the fields of [neoc_bytes_t]; [as_bytes] reads an array as such an object, so that [holds] says what an
    array holds. *)

From S2P Require Import Prelude BinaryWriter Crypto Hex Hashes Bytes StringUtils ByteObject.

(** ** The array *)

(** [ba_data] is NULL or a block of [ba_capacity] bytes. *)
Record neoc_byte_array_t := mk_byte_array { ba_data : option (list byte); ba_length : Z; ba_capacity : Z }.

Definition DEFAULT_BYTE_ARRAY_CAPACITY : Z := 64.
Definition byte_array_struct_size : Z := 24.

Definition as_bytes (a : neoc_byte_array_t) : neoc_bytes_t := mk_bytes (ba_data a) (ba_length a) (ba_capacity a).

(** Stores into the block. *)
Definition store_array (m : M (list byte) unit) : M neoc_byte_array_t unit := fun a =>
  match ba_data a with
  | None => (Fault, a)
  | Some d => let '(r, d) := m d in (r, mk_byte_array (Some d) (ba_length a) (ba_capacity a))
  end.

Definition set_array_length (n : Z) : M neoc_byte_array_t unit := fun a => (Ok tt, mk_byte_array (ba_data a) n (ba_capacity a)).

(** The two functions for the order have the statements of those on objects. *)
Definition neoc_byte_array_compare (a b : neoc_byte_array_t) : res Z :=
  let min_len := if ba_length a <? ba_length b then ba_length a else ba_length b in
  let? cmp := compare_front (as_bytes a) (as_bytes b) min_len in
  if negb (cmp =? 0) then Ok cmp
  else if ba_length a <? ba_length b then Ok (-1)
  else if ba_length b <? ba_length a then Ok 1
  else Ok 0.

Definition neoc_byte_array_equal (a b : neoc_byte_array_t) : res bool :=
  let? cmp := neoc_byte_array_compare a b in Ok (cmp =? 0).

(** The place of the first such byte among [n] from [i] on. *)
Fixpoint find_loop (data : list byte) (value : byte) (n : nat) (i : Z) : res Z :=
  match n with
  | O => Ok SIZE_MAX
  | S n =>
      let? b := at_index data i in
      if Z_of_byte b =? Z_of_byte value then Ok i else find_loop data value n (i + 1)
  end.

Definition neoc_byte_array_find_byte (a : neoc_byte_array_t) (value : byte) : res Z :=
  match ba_data a with
  | None => Ok SIZE_MAX
  | Some data => find_loop data value (Z.to_nat (ba_length a)) 0
  end.

(** [memcmp(a + offset, b, n) == 0] *)
Definition same_bytes (a b : list byte) (offset n : Z) : res bool :=
  match buf_slice a offset n, buf_slice b 0 n with
  | Some x, Some y => Ok (memcmp_loop x y =? 0)
  | _, _ => Fault
  end.

Definition neoc_byte_array_starts_with (a prefix : neoc_byte_array_t) : res bool :=
  match ba_data a, ba_data prefix with
  | Some d, Some p =>
      if ba_length prefix =? 0 then Ok true
      else if ba_length a <? ba_length prefix then Ok false
      else same_bytes d p 0 (ba_length prefix)
  | _, _ => Ok false
  end.

Definition neoc_byte_array_ends_with (a suffix : neoc_byte_array_t) : res bool :=
  match ba_data a, ba_data suffix with
  | Some d, Some s =>
      if ba_length suffix =? 0 then Ok true
      else if ba_length a <? ba_length suffix then Ok false
      else same_bytes d s (ba_length a - ba_length suffix) (ba_length suffix)
  | _, _ => Ok false
  end.

Definition neoc_byte_array_reverse_inplace : M neoc_byte_array_t unit := fun a =>
  match ba_data a with
  | None => (Ok tt, a)
  | Some _ =>
      if ba_length a <=? 1 then (Ok tt, a) else store_array (reverse_loop (Z.to_nat (ba_length a)) 0 (ba_length a - 1)) a
  end.

(** [isxdigit] of a [char]: negative values other than [EOF] are outside its domain. *)
Definition isxdigit_char (c : byte) : res bool :=
  if Z_of_byte c <? 128 then Ok (neoc_string_is_hex_digit c) else if Z_of_byte c =? 255 then Ok false else Fault.

Fixpoint all_hex_digits (s : list byte) : res bool :=
  match s with
  | [] => Ok true
  | c :: s => let? d := isxdigit_char c in if d then all_hex_digits s else Ok false
  end.

(** The pairs of digits, read by [sscanf] with [%2x], from place [i] on. *)
Fixpoint store_pairs (i : Z) (hex : list byte) : M neoc_byte_array_t unit :=
  match hex with
  | h :: l :: hex =>
      if (neoc_hex_char_to_value h =? -1) || (neoc_hex_char_to_value l =? -1) then fail NEOC_ERROR_INVALID_HEX
      else
        do! store_array (store i [byte_of_Z (16 * neoc_hex_char_to_value h + neoc_hex_char_to_value l)]) in
        store_pairs (i + 1) hex
  | _ => ret tt
  end.

(** [%02x] or [%02X] of each byte. *)
Definition print_byte (uppercase : bool) (b : byte) : list byte := hex_of uppercase [b].

Section Operations.
Context `{Allocator} (junk : byte).

Definition neoc_byte_array_create (initial_capacity : Z) : res neoc_byte_array_t :=
  if negb (neoc_malloc_ok byte_array_struct_size) then Err NEOC_ERROR_OUT_OF_MEMORY
  else
    let capacity := if 0 <? initial_capacity then initial_capacity else DEFAULT_BYTE_ARRAY_CAPACITY in
    if negb (neoc_malloc_ok capacity) then Err NEOC_ERROR_OUT_OF_MEMORY
    else Ok (mk_byte_array (Some (replicate (Z.to_nat capacity) junk)) 0 capacity).

(** An array that is changed before the caller gets it; an error frees it. *)
Definition run_array (r : res neoc_byte_array_t) (m : M neoc_byte_array_t unit) : res neoc_byte_array_t :=
  let? a := r in
  match m a with
  | (Ok _, a) => Ok a
  | (Err e, _) => Err e
  | (Fault, _) => Fault
  end.

Definition neoc_byte_array_from_data (data : option (list byte)) (length : Z) : res neoc_byte_array_t :=
  match data with
  | None => if 0 <? length then Err NEOC_ERROR_INVALID_PARAM else neoc_byte_array_create length
  | Some data =>
      run_array (neoc_byte_array_create length)
        (if 0 <? length then let! d := lift (memcpy_from data length) in do! store_array (store 0 d) in set_array_length length
         else ret tt)
  end.

Definition neoc_byte_array_resize (new_capacity : Z) : M neoc_byte_array_t unit := fun a =>
  if negb (neoc_malloc_ok new_capacity) then (Err NEOC_ERROR_OUT_OF_MEMORY, a)
  else (Ok tt, mk_byte_array (Some (resize (Z.to_nat new_capacity) junk (default [] (ba_data a)))) (ba_length a) new_capacity).

Definition neoc_byte_array_append_bytes (data : option (list byte)) (length : Z) : M neoc_byte_array_t unit :=
  match data with
  | None => if 0 <? length then fail NEOC_ERROR_INVALID_PARAM else ret tt
  | Some data =>
      if length =? 0 then ret tt
      else
        let! a := get in
        let required_capacity := wrap 64 (ba_length a + length) in
        do! (if ba_capacity a <? required_capacity then
               match grow grow_fuel (ba_capacity a) required_capacity with
               | None => fault
               | Some new_capacity => neoc_byte_array_resize new_capacity
               end
             else ret tt) in
        let! d := lift (memcpy_from data length) in
        do! store_array (store (ba_length a) d) in
        set_array_length (wrap 64 (ba_length a + length))
  end.

Definition neoc_byte_array_append_byte (b : byte) : M neoc_byte_array_t unit := neoc_byte_array_append_bytes (Some [b]) 1.

Definition neoc_byte_array_concat (left right : neoc_byte_array_t) : res neoc_byte_array_t :=
  run_array (neoc_byte_array_create (wrap 64 (ba_length left + ba_length right)))
    (do! (if 0 <? ba_length left then neoc_byte_array_append_bytes (ba_data left) (ba_length left) else ret tt) in
     if 0 <? ba_length right then neoc_byte_array_append_bytes (ba_data right) (ba_length right) else ret tt).

Definition neoc_byte_array_concat_byte (a : neoc_byte_array_t) (b : byte) : res neoc_byte_array_t :=
  run_array (neoc_byte_array_create (wrap 64 (ba_length a + 1)))
    (do! (if 0 <? ba_length a then neoc_byte_array_append_bytes (ba_data a) (ba_length a) else ret tt) in
     neoc_byte_array_append_byte b).

Definition neoc_byte_array_prepend_byte (b : byte) (a : neoc_byte_array_t) : res neoc_byte_array_t :=
  run_array (neoc_byte_array_create (wrap 64 (1 + ba_length a)))
    (do! neoc_byte_array_append_byte b in
     if 0 <? ba_length a then neoc_byte_array_append_bytes (ba_data a) (ba_length a) else ret tt).

(** [data + start] is the block from [start] on. *)
Definition neoc_byte_array_slice (a : neoc_byte_array_t) (start end_ : Z) : res neoc_byte_array_t :=
  if (end_ <? start) || (ba_length a <? end_) then Err NEOC_ERROR_INVALID_PARAM
  else
    let slice_length := end_ - start in
    run_array (neoc_byte_array_create slice_length)
      (if 0 <? slice_length then
         match ba_data a with
         | None => fault
         | Some d => neoc_byte_array_append_bytes (Some (drop (Z.to_nat start) d)) slice_length
         end
       else ret tt).

(** ** bytes.c *)

Definition neoc_bytes_from_byte_array (a : neoc_byte_array_t) : res (option neoc_bytes_t) :=
  match ba_data a with
  | None => Ok None
  | Some data => neoc_bytes_from_data (Some data) (ba_length a)
  end.

Definition neoc_byte_array_from_bytes (bytes : neoc_bytes_t) : res neoc_byte_array_t :=
  neoc_byte_array_from_data (by_data bytes) (by_length bytes).

(** The length of the new array is not set. *)
Definition neoc_byte_array_from_hex_string (hex_string : list byte) : res neoc_byte_array_t :=
  let clean_hex := if bool_decide (take 2 hex_string = str "0x") || bool_decide (take 2 hex_string = str "0X") then drop 2 hex_string else hex_string in
  let hex_len := zlen clean_hex in
  if hex_len =? 0 then neoc_byte_array_create 0
  else if negb (hex_len mod 2 =? 0) then Err NEOC_ERROR_INVALID_FORMAT
  else
    let? valid := all_hex_digits clean_hex in
    if negb valid then Err NEOC_ERROR_INVALID_HEX
    else run_array (neoc_byte_array_create (hex_len / 2)) (store_pairs 0 clean_hex).

(** NULL for want of data or memory. *)
Definition neoc_byte_array_to_hex_string (a : neoc_byte_array_t) (uppercase with_prefix : bool) : res (option (list byte)) :=
  match ba_data a with
  | None => Ok None
  | Some data =>
      let total_len := wrap 64 ((if with_prefix then 2 else 0) + ba_length a * 2 + 1) in
      if negb (neoc_malloc_ok total_len) then Ok None
      else
        match buf_slice data 0 (ba_length a) with
        | None => Fault
        | Some d =>
            match (let text := (if with_prefix then str "0x" else []) ++ concat (map (print_byte uppercase) d) in
                   store 0 (text ++ [Byte.x00]) (replicate (Z.to_nat total_len) junk)) with
            | (Ok _, block) => Ok (Some (cstring block))
            | _ => Fault
            end
        end
  end.

Definition neoc_byte_array_reverse_copy (a : neoc_byte_array_t) : res neoc_byte_array_t :=
  run_array (neoc_byte_array_from_data (ba_data a) (ba_length a)) neoc_byte_array_reverse_inplace.

(** The length of the padded array is not set. *)
Definition neoc_byte_array_pad (a : neoc_byte_array_t) (target_length : Z) (pad_value : byte) (pad_left : bool) : res neoc_byte_array_t :=
  if target_length <=? ba_length a then neoc_byte_array_from_data (ba_data a) (ba_length a)
  else
    let pad_count := target_length - ba_length a in
    run_array (neoc_byte_array_create target_length)
      (let! d := lift (if ba_length a =? 0 then Ok [] else match ba_data a with Some d => memcpy_from d (ba_length a) | None => Fault end) in
       if pad_left then
         do! store_array (store 0 (replicate (Z.to_nat pad_count) pad_value)) in store_array (store pad_count d)
       else
         do! store_array (store 0 d) in store_array (store (ba_length a) (replicate (Z.to_nat pad_count) pad_value))).
End Operations.

(** ** Arrays as byte strings *)

(** The array holds the byte string [c] in a block that is not empty. *)
Definition array_holds (a : neoc_byte_array_t) (c : list byte) : Prop :=
  exists rest, a = mk_byte_array (Some (c ++ rest)) (zlen c) (zlen (c ++ rest)) /\ 0 < zlen (c ++ rest).

Lemma array_object a c : array_holds a c -> holds (as_bytes a) c.
Proof. intros (rest & -> & _). apply holds_block. Qed.

Section ArrayLemmas.
Context `{Allocator} (junk : byte).

(** A fresh array has room for what was asked. *)
Lemma create_array n :
  0 <= n ->
  match neoc_byte_array_create junk n with
  | Ok a => exists block, a = mk_byte_array (Some block) 0 (zlen block) /\ zlen block = (if 0 <? n then n else 64)
  | Err e => e = NEOC_ERROR_OUT_OF_MEMORY /\ ~ heap_serves (Z.max n 64)
  | Fault => False
  end.
Proof.
  intros Hn. unfold neoc_byte_array_create, neoc_malloc_ok. set (cap := if 0 <? n then n else DEFAULT_BYTE_ARRAY_CAPACITY).
  assert (0 < cap <= Z.max n 64) as Hcap by (unfold cap, DEFAULT_BYTE_ARRAY_CAPACITY; destruct (Z.ltb_spec 0 n); lia).
  cmps. unfold byte_array_struct_size. change (24 =? 0) with false. cbn iota.
  destruct (malloc_ok 24) eqn:E1; cbn [negb]; [|split; [done|intros Hh; rewrite Hh in E1 by lia; done]].
  destruct (malloc_ok cap) eqn:E2; cbn [negb]; [|split; [done|intros Hh; rewrite Hh in E2 by lia; done]].
  exists (replicate (Z.to_nat cap) junk). rewrite zlen_replicate, Z2Nat.id by lia. done.
Qed.

Lemma run_array_created n m :
  0 <= n -> run_array (neoc_byte_array_create junk n) m = Err NEOC_ERROR_OUT_OF_MEMORY /\ ~ heap_serves (Z.max n 64) \/
  exists block, zlen block = (if 0 <? n then n else 64) /\
    run_array (neoc_byte_array_create junk n) m =
      match m (mk_byte_array (Some block) 0 (zlen block)) with (Ok _, a) => Ok a | (Err e, _) => Err e | (Fault, _) => Fault end.
Proof.
  intros Hn. pose proof (create_array n Hn) as Hc. destruct (neoc_byte_array_create junk n) as [a|e|]; [|left|done].
  - destruct Hc as (block & -> & Hl). right. exists block. done.
  - destruct Hc as [-> ?]. done.
Qed.

Lemma store_array_next c d rest len cap :
  zlen d <= zlen rest ->
  store_array (store (zlen c) d) (mk_byte_array (Some (c ++ rest)) len cap) =
  (Ok tt, mk_byte_array (Some ((c ++ d) ++ drop (length d) rest)) len cap).
Proof. intros Hl. unfold store_array. cbn [ba_data]. rewrite store_next by done. done. Qed.

(** Appending to an array that holds [c]. *)
Lemma append_holds a c d tail :
  array_holds a c -> zlen c + zlen d <= 2 ^ 62 ->
  match neoc_byte_array_append_bytes junk (Some (d ++ tail)) (zlen d) a with
  | (Ok _, a') => array_holds a' (c ++ d)
  | (Err e, a') => e = NEOC_ERROR_OUT_OF_MEMORY /\ a' = a /\ ba_capacity a < zlen c + zlen d /\ ~ heap_serves (2 * (zlen c + zlen d))
  | (Fault, _) => False
  end.
Proof.
  intros (rest & -> & Hp) Hl. pose proof (zlen_nonneg c). pose proof (zlen_nonneg d). pose proof (zlen_nonneg rest).
  unfold neoc_byte_array_append_bytes. destruct (Z.eqb_spec (zlen d) 0) as [E0|Hd].
  { rewrite (zlen_zero d E0), app_nil_r. by exists rest. }
  unfold get, bind at 1. cbn [ba_length ba_capacity]. rewrite wrap_small by lia.
  assert (memcpy_from (d ++ tail) (zlen d) = Ok d) as Hm.
  { unfold memcpy_from. pose proof (buf_slice_app [] d tail) as E. cbn [app] in E. change (zlen []) with 0 in E. by rewrite E. }
  assert (forall block cap, zlen d <= zlen block -> cap = zlen (c ++ block) ->
    exists a', (let! d' := lift (memcpy_from (d ++ tail) (zlen d)) in do! store_array (store (zlen c) d') in set_array_length (zlen c + zlen d))
      (mk_byte_array (Some (c ++ block)) (zlen c) cap) = (Ok tt, a') /\ array_holds a' (c ++ d)) as Hstore.
  { intros block cap Hb ->. rewrite Hm, bind_lift. erewrite bind_ok by (by apply store_array_next). eexists. split; [done|].
    unfold set_array_length. cbn [ba_data ba_capacity].
    assert (zlen ((c ++ d) ++ drop (length d) block) = zlen (c ++ block)) as El.
    { rewrite !zlen_app, zlen_drop by (unfold zlen in *; lia). unfold zlen in *. lia. }
    exists (drop (length d) block). rewrite El, !zlen_app. split; [done|lia]. }
  destruct (Z.ltb_spec (zlen (c ++ rest)) (zlen c + zlen d)) as [Hg|Hfit].
  - destruct (grow_spec (zlen (c ++ rest)) (zlen c + zlen d)) as (nc & -> & Hnc & Hnc' & Hup); [lia..|].
    unfold neoc_byte_array_resize, bind at 1. cbn [ba_data ba_length ba_capacity default].
    destruct (neoc_malloc_ok nc) eqn:Em; cbn [negb].
    + unfold id. rewrite resize_ge by (unfold zlen in *; lia). rewrite <- app_assoc.
      destruct (Hstore (rest ++ replicate (Z.to_nat nc - length (c ++ rest)) junk) nc) as (a' & -> & Ha'); [| |done].
      * rewrite !zlen_app, zlen_replicate in *. unfold zlen in *. rewrite length_app in *. lia.
      * rewrite !zlen_app, zlen_replicate in *. unfold zlen in *. rewrite length_app in *. lia.
    + split_and!; [done|done|done|]. intros Hh. unfold neoc_malloc_ok in Em. replace (nc =? 0) with false in Em by lia. rewrite Hh in Em by lia. done.
  - unfold bind at 1. cbn [ret]. destruct (Hstore rest (zlen (c ++ rest))) as (a' & E & Ha'); [rewrite zlen_app in Hfit; lia|done|].
    unfold ret. rewrite E. done.
Qed.
End ArrayLemmas.

Section Arrays.
Context `{Allocator} (junk : byte).

(** Appending concatenates, growing the block when needed; the doubling loop ends.  It fails for want of memory only,
    and then nothing has changed. *)
Theorem byte_array_append_refines a c d :
  array_holds a c -> zlen c + zlen d <= 2 ^ 62 ->
  match neoc_byte_array_append_bytes junk (Some d) (zlen d) a with
  | (Ok _, a') => array_holds a' (c ++ d)
  | (Err e, a') => e = NEOC_ERROR_OUT_OF_MEMORY /\ a' = a /\ ba_capacity a < zlen c + zlen d
  | (Fault, _) => False
  end.
Proof.
  intros Ha Hl. pose proof (append_holds junk a c d [] Ha Hl) as Hr. rewrite app_nil_r in Hr.
  destruct (neoc_byte_array_append_bytes _ _ _ _) as [[]?]; [done|by destruct Hr as (? & ? & ? & _)|done].
Qed.

(** Two appends to a fresh array with room for both. *)
Lemma two_appends (x y tx ty : list byte) n :
  n = zlen x + zlen y -> n <= 2 ^ 62 -> heap_serves (Z.max n 64) ->
  exists a, run_array (neoc_byte_array_create junk n)
    (do! (if 0 <? zlen x then neoc_byte_array_append_bytes junk (Some (x ++ tx)) (zlen x) else ret tt) in
     if 0 <? zlen y then neoc_byte_array_append_bytes junk (Some (y ++ ty)) (zlen y) else ret tt) = Ok a /\ array_holds a (x ++ y).
Proof.
  intros -> Hl Hh. pose proof (zlen_nonneg x). pose proof (zlen_nonneg y).
  edestruct (run_array_created junk (zlen x + zlen y)) as [[_ Hn]|(block & Hb & ->)]; [lia|done|].
  assert (zlen x + zlen y <= zlen block /\ 0 < zlen block) as [Hfit Hpos] by (destruct (Z.ltb_spec 0 (zlen x + zlen y)); lia).
  assert (array_holds (mk_byte_array (Some block) 0 (zlen block)) []) as Hempty by (by exists block).
  assert (forall z tz a c, array_holds a c -> ba_capacity a = zlen block -> zlen c + zlen z <= zlen block -> zlen c + zlen z <= 2 ^ 62 ->
    exists a', (if 0 <? zlen z then neoc_byte_array_append_bytes junk (Some (z ++ tz)) (zlen z) else ret tt) a = (Ok tt, a') /\
      array_holds a' (c ++ z) /\ ba_capacity a' = zlen block) as Hstep.
  { intros z tz a c Ha Hcap Hz Hz'. destruct (Z.ltb_spec 0 (zlen z)).
    - pose proof (append_holds junk a c z tz Ha Hz') as Hr. destruct (neoc_byte_array_append_bytes _ _ _ _) as [[[]|e|] a'] eqn:E; [|lia|done].
      exists a'. split; [done|]. split; [done|]. revert E. unfold neoc_byte_array_append_bytes. cmps. unfold get, bind at 1.
      destruct Ha as (rest & -> & Hp). cbn [ba_length ba_capacity] in *. pose proof (zlen_nonneg c). rewrite wrap_small by lia. cmps. unfold bind, lift, ret, store_array, set_array_length. cbn [ba_data].
      destruct (memcpy_from _ _); [|done|done]. destruct (store _ _ _) as [[]?]; [|done|done]. intros [= <-]. done.
    - assert (z = []) as -> by (apply zlen_zero; pose proof (zlen_nonneg z); lia). exists a. rewrite app_nil_r. done. }
  destruct (Hstep x tx _ [] Hempty eq_refl ltac:(change (zlen []) with 0; lia) ltac:(change (zlen []) with 0; lia)) as (a1 & E1 & Ha1 & Hc1).
  destruct (Hstep y ty a1 x Ha1 Hc1 ltac:(lia) Hl) as (a2 & E2 & Ha2 & _).
  exists a2. rewrite (bind_ok _ _ _ _ _ E1), E2. done.
Qed.

(** The combinations are the operations on lists, for any memory that serves the new block. *)
Theorem byte_array_combinations a b x y (v : byte) :
  array_holds a x -> array_holds b y -> zlen x + zlen y < 2 ^ 62 -> heap_serves (zlen x + zlen y + 64) ->
  (exists r, neoc_byte_array_concat junk a b = Ok r /\ array_holds r (x ++ y)) /\
  (exists r, neoc_byte_array_concat_byte junk a v = Ok r /\ array_holds r (x ++ [v])) /\
  (exists r, neoc_byte_array_prepend_byte junk v a = Ok r /\ array_holds r (v :: x)) /\
  (forall i j, 0 <= i <= j -> j <= zlen x ->
     exists r, neoc_byte_array_slice junk a i j = Ok r /\ array_holds r (take (Z.to_nat (j - i)) (drop (Z.to_nat i) x))) /\
  (forall i j, j < i \/ zlen x < j -> neoc_byte_array_slice junk a i j = Err NEOC_ERROR_INVALID_PARAM).
Proof.
  intros (rx & -> & Hpx) (ry & -> & Hpy) Hl Hh. pose proof (zlen_nonneg x). pose proof (zlen_nonneg y).
  unfold neoc_byte_array_concat, neoc_byte_array_concat_byte, neoc_byte_array_prepend_byte, neoc_byte_array_slice, neoc_byte_array_append_byte.
  cbn [ba_data ba_length]. rewrite !wrap_small by lia. split_and!.
  - apply two_appends; [done|lia|]. eapply heap_serves_mono; [done|lia].
  - apply (two_appends x [v] rx []); [done|lia|]. eapply heap_serves_mono; [done|lia].
  - apply (two_appends [v] x [] rx); [done|lia|]. eapply heap_serves_mono; [done|lia].
  - intros i j Hi Hj. cmps. set (z := take (Z.to_nat (j - i)) (drop (Z.to_nat i) x)).
    assert (zlen z = j - i) as Hz by (unfold z, zlen in *; rewrite length_take, length_drop; lia).
    assert (drop (Z.to_nat i) (x ++ rx) = z ++ drop (Z.to_nat (j - i)) (drop (Z.to_nat i) x) ++ rx) as ->.
    { unfold z. rewrite app_assoc, take_drop. apply drop_app_le. unfold zlen in *; lia. }
    destruct (two_appends z [] (drop (Z.to_nat (j - i)) (drop (Z.to_nat i) x) ++ rx) [] (j - i)) as (r & E & Hr);
      [change (zlen []) with 0; lia|lia|eapply heap_serves_mono; [done|lia]|].
    rewrite app_nil_r in Hr. exists r. split; [|done]. rewrite <- E, Hz. unfold run_array.
    destruct (neoc_byte_array_create junk (j - i)); cbn [rbind]; [|done|done]. unfold bind. change (0 <? zlen []) with false.
    destruct (0 <? j - i); [|done]. destruct (neoc_byte_array_append_bytes junk (Some _) (j - i) a) as [[[]| |] ?]; done.
  - intros i j Hij. replace ((j <? i) || (zlen x <? j)) with true by lia. done.
Qed.
End Arrays.

(** ** Search, order and texts *)

Lemma array_slice {A} (d rest : list A) off n : 0 <= off -> 0 <= n -> off + n <= zlen d -> buf_slice (d ++ rest) off n = Some (take (Z.to_nat n) (drop (Z.to_nat off) d)).
Proof.
  intros Ho Hn Hl. unfold buf_slice. rewrite zlen_app. pose proof (zlen_nonneg rest). cmps.
  rewrite drop_app_le, take_app_le; [done| |]; unfold zlen in *; rewrite ?length_drop; lia.
Qed.

Lemma find_loop_spec c rest v : forall n i, 0 <= i -> i + Z.of_nat n = zlen c -> zlen c < SIZE_MAX ->
  exists k, find_loop (c ++ rest) v n i = Ok k /\
    (k = SIZE_MAX /\ ~ In v (drop (Z.to_nat i) c) \/
     i <= k < zlen c /\ c !! Z.to_nat k = Some v /\ ~ In v (take (Z.to_nat (k - i)) (drop (Z.to_nat i) c))).
Proof.
  induction n as [|n IH]; intros i Hi Hn Hc; cbn [find_loop].
  - exists SIZE_MAX. split; [done|]. left. split; [done|]. rewrite drop_ge by (unfold zlen in *; lia). by intros [].
  - rewrite at_index_ok by (rewrite zlen_app; pose proof (zlen_nonneg rest); lia). cbn [rbind].
    destruct (lookup_lt_is_Some_2 c (Z.to_nat i)) as [b Eb]; [unfold zlen in *; lia|].
    assert (nth_byte (c ++ rest) i = b) as -> by (unfold nth_byte; by rewrite (lookup_app_l_Some _ _ _ _ Eb)).
    destruct (Z.eqb_spec (Z_of_byte b) (Z_of_byte v)) as [E|E].
    + apply Z_of_byte_inj in E. subst v. exists i. split; [done|]. right. split; [lia|]. split; [done|]. rewrite Z.sub_diag. by intros [].
    + destruct (IH (i + 1)) as (k & -> & Hk); [lia..|]. exists k. split; [done|]. rewrite (drop_S _ _ _ Eb).
      replace (Z.to_nat (i + 1)) with (S (Z.to_nat i)) in Hk by lia. destruct Hk as [(-> & Hk)|(Hk1 & Hk2 & Hk3)].
      * left. split; [done|]. intros [->|?]; done.
      * right. split; [lia|]. split; [done|]. replace (Z.to_nat (k - i)) with (S (Z.to_nat (k - (i + 1)))) by lia. intros [->|?]; done.
Qed.

(** The first place of a byte, or [SIZE_MAX] for none. *)
Theorem byte_array_find_first a c v :
  array_holds a c -> zlen c < SIZE_MAX ->
  exists k, neoc_byte_array_find_byte a v = Ok k /\
    (k = SIZE_MAX /\ ~ In v c \/ 0 <= k < zlen c /\ c !! Z.to_nat k = Some v /\ ~ In v (take (Z.to_nat k) c)).
Proof.
  intros (rest & -> & _) Hc. unfold neoc_byte_array_find_byte. cbn [ba_data ba_length].
  destruct (find_loop_spec c rest v (Z.to_nat (zlen c)) 0) as (k & -> & Hk); [lia|unfold zlen; lia|done|].
  exists k. rewrite Z.sub_0_r, drop_0 in Hk. done.
Qed.

(** Order, prefixes and suffixes are those of the byte strings. *)
Theorem byte_array_tests a b x y :
  array_holds a x -> array_holds b y ->
  neoc_byte_array_compare a b = Ok (lex x y) /\ neoc_byte_array_equal a b = Ok (bool_decide (x = y)) /\
  (exists r, neoc_byte_array_starts_with a b = Ok r /\ (r = true <-> exists t, x = y ++ t)) /\
  (exists r, neoc_byte_array_ends_with a b = Ok r /\ (r = true <-> exists t, x = t ++ y)).
Proof.
  intros Ha Hb. split; [exact (compare_holds _ _ x y (array_object _ _ Ha) (array_object _ _ Hb))|].
  split; [exact (equal_holds _ _ x y (array_object _ _ Ha) (array_object _ _ Hb))|]. destruct Ha as (rx & -> & _), Hb as (ry & -> & _).
  pose proof (zlen_nonneg x). pose proof (zlen_nonneg y).
  unfold neoc_byte_array_starts_with, neoc_byte_array_ends_with, same_bytes. cbn [ba_data ba_length].
  destruct (Z.eqb_spec (zlen y) 0) as [E|E].
  { rewrite (zlen_zero y E). split; (exists true; split; [done|]; split; [|done]; intros _; exists x); [done|by rewrite app_nil_r]. }
  destruct (Z.ltb_spec (zlen x) (zlen y)) as [Hs|Hs].
  { split; (exists false; split; [done|]; split; [done|]; intros [t ->]; rewrite zlen_app in Hs; pose proof (zlen_nonneg t); lia). }
  rewrite !array_slice by lia. change (Z.to_nat 0) with O. rewrite !drop_0, take_zlen.
  split; (eexists; split; [done|]); rewrite Z.eqb_eq, memcmp_zero by (unfold zlen in *; rewrite length_take, ?length_drop; lia).
  - split; [intros Hy; exists (drop (Z.to_nat (zlen y)) x); rewrite <- (take_drop (Z.to_nat (zlen y)) x) at 1; by rewrite Hy|].
    intros [t ->]. unfold zlen. by rewrite Nat2Z.id, take_app_length.
  - rewrite take_ge by (unfold zlen in *; rewrite length_drop; lia).
    split; [intros Hy; exists (take (Z.to_nat (zlen x - zlen y)) x); rewrite <- (take_drop (Z.to_nat (zlen x - zlen y)) x) at 1; by rewrite Hy|].
    intros [t ->]. rewrite zlen_app. replace (zlen t + zlen y - zlen y) with (zlen t) by lia. unfold zlen. by rewrite Nat2Z.id, drop_app_length.
Qed.

Section ArrayTexts.
Context `{Allocator} (junk : byte).

Lemma concat_print up d : concat (map (print_byte up) d) = hex_of up d.
Proof. induction d as [|b d IH]; [done|]. cbn [map concat]. rewrite IH. done. Qed.

(** The text has two digits for each byte of the length. *)
Theorem byte_array_hex_text a c uppercase with_prefix :
  array_holds a c -> zlen c <= 2 ^ 62 -> heap_serves (2 * zlen c + 3) ->
  neoc_byte_array_to_hex_string junk a uppercase with_prefix = Ok (Some (prefix_0x with_prefix ++ hex_of uppercase c)).
Proof.
  intros (rest & -> & _) Hl Hh. unfold neoc_byte_array_to_hex_string. cbn [ba_data ba_length]. pose proof (zlen_nonneg c).
  set (p := if with_prefix then str "0x" else []). assert (p = prefix_0x with_prefix) as Ep by (by destruct with_prefix).
  replace (if with_prefix then 2 else 0) with (zlen p) by (unfold p; by destruct with_prefix).
  assert (0 <= zlen p <= 2) by (unfold p; destruct with_prefix; [change (zlen (str "0x")) with 2|change (zlen []) with 0]; lia).
  rewrite wrap_small by lia. unfold neoc_malloc_ok. cmps. rewrite Hh by lia. cbn [negb].
  pose proof (buf_slice_app [] c rest) as E. cbn [app] in E. change (zlen []) with 0 in E. rewrite E, concat_print.
  assert (zlen ((p ++ hex_of uppercase c) ++ [Byte.x00]) = zlen p + zlen c * 2 + 1) as Hn by (rewrite !zlen_app, length_hex_of; change (zlen [Byte.x00]) with 1; lia).
  rewrite store_first by (rewrite Hn, zlen_replicate; lia). rewrite <- app_assoc. rewrite <- Ep. do 2 f_equal.
  apply (cstring_app (p ++ hex_of uppercase c)). apply Forall_app. split; [|apply hex_of_chars].
  unfold p. destruct with_prefix; repeat constructor; done.
Qed.

Lemma hex_of_cons up b d : hex_of up (b :: d) = hex_digit up (Z_of_byte b / 16) :: hex_digit up (Z_of_byte b mod 16) :: hex_of up d.
Proof. done. Qed.

Lemma digit_tests up v : 0 <= v < 16 -> isxdigit_char (hex_digit up v) = Ok true /\ Z_of_byte (hex_digit up v) <> 120 /\ Z_of_byte (hex_digit up v) <> 88.
Proof.
  intros Hv. assert (v = 0 \/ v = 1 \/ v = 2 \/ v = 3 \/ v = 4 \/ v = 5 \/ v = 6 \/ v = 7 \/ v = 8 \/ v = 9 \/ v = 10 \/ v = 11 \/ v = 12 \/ v = 13 \/ v = 14 \/ v = 15) as Hc by lia.
  repeat destruct Hc as [->|Hc]; try subst v; destruct up; vm_compute; split_and!; done.
Qed.

Lemma all_digits_hex_of up d : all_hex_digits (hex_of up d) = Ok true.
Proof.
  induction d as [|b d IH]; [done|]. rewrite hex_of_cons. cbn [all_hex_digits]. destruct (nibbles b) as [Hh Hl].
  destruct (digit_tests up _ Hh) as (-> & _), (digit_tests up _ Hl) as (-> & _). exact IH.
Qed.

Lemma store_pairs_hex_of up d : forall c rest len cap, zlen d <= zlen rest ->
  store_pairs (zlen c) (hex_of up d) (mk_byte_array (Some (c ++ rest)) len cap) = (Ok tt, mk_byte_array (Some ((c ++ d) ++ drop (length d) rest)) len cap).
Proof.
  induction d as [|b d IH]; intros c rest len cap Hl; [by rewrite app_nil_r|]. rewrite hex_of_cons. cbn [store_pairs]. destruct (nibbles b) as [Hh Hlo].
  rewrite (proj1 (nibble_digit up _ Hh)), (proj1 (nibble_digit up _ Hlo)). rewrite zlen_cons in Hl. pose proof (zlen_nonneg d). cmps.
  erewrite bind_ok by (apply store_array_next; change (zlen [_]) with 1; lia). replace (zlen c + 1) with (zlen (c ++ [b])) by (by rewrite zlen_app).
  replace (byte_of_Z (16 * (Z_of_byte b / 16) + Z_of_byte b mod 16)) with b by (rewrite <- Z.div_mod by lia; by rewrite byte_of_Z_of_byte).
  rewrite IH by (rewrite zlen_drop by (unfold zlen in *; cbn; lia); cbn [length]; lia).
  by rewrite <- !app_assoc, drop_drop.
Qed.

Lemma hex_of_unprefixed up d q : q = str "0x" \/ q = str "0X" -> take 2 (hex_of up d) <> q.
Proof.
  destruct d as [|b d]; [by intros [->| ->]|]. rewrite hex_of_cons. destruct (nibbles b) as [_ Hl]. destruct (digit_tests up _ Hl) as (_ & Hx & HX).
  intros [->| ->] [= _ E]; rewrite E in *; [by apply Hx|by apply HX].
Qed.

(** A text of hexadecimal digits is decoded into the block of the new array, but the array has length 0: it holds
    nothing. *)
Theorem byte_array_from_hex_empty d uppercase prefix :
  d <> [] -> heap_serves (zlen d + 24) ->
  exists a, neoc_byte_array_from_hex_string junk (prefix_0x prefix ++ hex_of uppercase d) = Ok a /\ ba_data a = Some d /\ ba_length a = 0.
Proof.
  intros Hd Hh. pose proof (zlen_pos d Hd). unfold neoc_byte_array_from_hex_string. set (s := prefix_0x prefix ++ hex_of uppercase d).
  assert ((if bool_decide (take 2 s = str "0x") || bool_decide (take 2 s = str "0X") then drop 2 s else s) = hex_of uppercase d) as ->.
  { unfold s. destruct prefix; [done|]. cbn [prefix_0x app].
    rewrite !bool_decide_eq_false_2 by (apply hex_of_unprefixed; auto). done. }
  cbv zeta. rewrite length_hex_of, all_digits_hex_of. cbn [rbind negb].
  replace (2 * zlen d =? 0) with false by lia. replace (2 * zlen d mod 2) with 0 by dlia. cbn [Z.eqb negb].
  replace (2 * zlen d / 2) with (zlen d) by dlia. unfold neoc_byte_array_create, neoc_malloc_ok, byte_array_struct_size. cmps. cbn iota.
  change (24 =? 0) with false. cbn iota. rewrite !Hh by lia. cbn [negb run_array rbind].
  pose proof (store_pairs_hex_of uppercase d [] (replicate (Z.to_nat (zlen d)) junk) 0 (zlen d)) as E. cbn [app] in E. change (zlen []) with 0 in E.
  rewrite E by (rewrite zlen_replicate; lia). eexists. split; [done|]. cbn [ba_data ba_length].
  rewrite drop_ge, app_nil_r by (rewrite length_replicate; unfold zlen; lia). done.
Qed.

(** So is a padded array: the bytes are there, the length is 0. *)
Theorem byte_array_pad_empty a c n v left :
  array_holds a c -> zlen c < n -> heap_serves (n + 24) ->
  exists r, neoc_byte_array_pad junk a n v left = Ok r /\ ba_length r = 0 /\
    ba_data r = Some (if left then replicate (Z.to_nat (n - zlen c)) v ++ c else c ++ replicate (Z.to_nat (n - zlen c)) v).
Proof.
  intros (rest & -> & _) Hn Hh. pose proof (zlen_nonneg c). unfold neoc_byte_array_pad. cbn [ba_data ba_length]. cmps.
  unfold neoc_byte_array_create, neoc_malloc_ok, byte_array_struct_size. change (24 =? 0) with false. cbn iota. cmps. rewrite !Hh by lia. cbn [negb run_array rbind].
  assert ((if zlen c =? 0 then Ok [] else memcpy_from (c ++ rest) (zlen c)) = Ok c) as ->.
  { destruct (Z.eqb_spec (zlen c) 0) as [E|E]; [by rewrite (zlen_zero c E)|]. unfold memcpy_from. pose proof (buf_slice_app [] c rest) as E'. cbn [app] in E'.
    change (zlen []) with 0 in E'. by rewrite E'. }
  rewrite bind_lift. set (pad := replicate (Z.to_nat (n - zlen c)) v). assert (zlen pad = n - zlen c) as Hp by (unfold pad; rewrite zlen_replicate; lia).
  assert (forall x y : list byte, zlen x + zlen y = n -> (do! store_array (store 0 x) in store_array (store (zlen x) y))
    (mk_byte_array (Some (replicate (Z.to_nat n) junk)) 0 n) = (Ok tt, mk_byte_array (Some (x ++ y)) 0 n)) as Hxy.
  { intros x y Hxy. pose proof (zlen_nonneg x). pose proof (zlen_nonneg y). pose proof (store_array_next [] x (replicate (Z.to_nat n) junk) 0 n) as E1.
    cbn [app] in E1. change (zlen []) with 0 in E1. erewrite bind_ok by (apply E1; rewrite zlen_replicate; lia).
    assert (zlen (drop (length x) (replicate (Z.to_nat n) junk)) = zlen y) as Hd by (rewrite zlen_drop by (rewrite length_replicate; unfold zlen in *; lia); rewrite zlen_replicate; unfold zlen in *; lia).
    rewrite store_array_next by lia. rewrite (drop_ge _ (length y)) by (unfold zlen in Hd; lia). by rewrite app_nil_r. }
  destruct left.
  - rewrite <- Hp, (Hxy pad c) by lia. eauto.
  - rewrite (Hxy c pad) by lia. eauto.
Qed.
End ArrayTexts.

(** ** Conversions *)

Section Conversions.
Context `{Allocator} (junk : byte).

Lemma from_data_array c tail :
  zlen c < 2 ^ 62 -> heap_serves (zlen c + 64) -> exists a, neoc_byte_array_from_data junk (Some (c ++ tail)) (zlen c) = Ok a /\ array_holds a c.
Proof.
  intros Hl Hh. unfold neoc_byte_array_from_data. pose proof (zlen_nonneg c).
  edestruct (run_array_created junk (zlen c)) as [[_ Hn]|(block & Hb & ->)]; [lia|exfalso; apply Hn; eapply heap_serves_mono; [done|lia]|].
  destruct (Z.ltb_spec 0 (zlen c)) as [Hp|Hp].
  - assert (memcpy_from (c ++ tail) (zlen c) = Ok c) as ->.
    { unfold memcpy_from. pose proof (buf_slice_app [] c tail) as E. cbn [app] in E. change (zlen []) with 0 in E. by rewrite E. }
    rewrite bind_lift. pose proof (store_array_next [] c block 0 (zlen block)) as E1. cbn [app] in E1. change (zlen []) with 0 in E1.
    erewrite bind_ok by (apply E1; lia). eexists. split; [done|]. exists []. cbn [ba_data ba_capacity].
    rewrite drop_ge, app_nil_r by (unfold zlen in *; lia). rewrite Hb. done.
  - rewrite (zlen_zero c) by lia. eexists. split; [done|]. exists block. cbn [app]. rewrite Hb. done.
Qed.

Lemma array_reversed a c : array_holds a c -> exists r, neoc_byte_array_reverse_inplace a = (Ok tt, r) /\ array_holds r (reverse c).
Proof.
  intros (rest & -> & Hp). unfold neoc_byte_array_reverse_inplace, store_array. cbn [ba_data ba_length ba_capacity].
  destruct (Z.leb_spec (zlen c) 1) as [Hs|Hs].
  - eexists. split; [done|]. exists rest. destruct c as [|x [|y c]]; [done|done|]. rewrite !zlen_cons in Hs. pose proof (zlen_nonneg c). lia.
  - pose proof (reverse_loop_ok (Z.to_nat (zlen c)) [] c rest) as E. cbn [app] in E. change (zlen []) with 0 in E. rewrite Z.add_0_l in E.
    rewrite E by (unfold zlen in *; lia). eexists. split; [done|]. exists rest. rewrite !zlen_app, zlen_reverse in *. done.
Qed.

(** An object becomes an array of the same bytes, the array an object again; the reversed copy has them in reverse. *)
Theorem byte_array_conversions b c :
  holds b c -> c <> [] -> zlen c < 2 ^ 62 -> heap_serves (zlen c + 64) ->
  exists a b' r, neoc_byte_array_from_bytes junk b = Ok a /\ array_holds a c /\
    neoc_bytes_from_byte_array a = Ok (Some b') /\ holds b' c /\
    neoc_byte_array_reverse_copy junk a = Ok r /\ array_holds r (reverse c).
Proof.
  intros (El & Hb) Hc Hl Hh. pose proof (zlen_pos c Hc). destruct (by_data b) as [d|] eqn:Ed; [|by destruct Hb]. destruct Hb as (_ & rest & ->).
  destruct (from_data_array c rest Hl Hh) as (a & Ea & Ha). unfold neoc_byte_array_from_bytes. rewrite Ed, El, Ea. exists a.
  destruct Ha as (ra & -> & Hpa). unfold neoc_bytes_from_byte_array, neoc_byte_array_reverse_copy. cbn [ba_data ba_length].
  destruct (from_data_served c ra ltac:(eapply heap_serves_mono; [done|lia])) as (b' & Eb' & Hb').
  destruct (from_data_array c ra Hl Hh) as (a2 & -> & (r2 & -> & Hp2)).
  destruct (array_reversed (mk_byte_array (Some (c ++ r2)) (zlen c) (zlen (c ++ r2))) c ltac:(by exists r2)) as (r & Er & Hr).
  exists b', r. unfold run_array. cbn [rbind]. rewrite Er. split_and!; [done|by exists ra|done|done|done|done].
Qed.
End Conversions.

(** ** Witnesses *)

Section Samples.
#[local] Existing Instance mib_heap.

(** The bytes 1, 2 in a block of three. *)
Definition sample_array : neoc_byte_array_t := mk_byte_array (Some [Byte.x01; Byte.x02; Byte.xcd]) 2 3.

Lemma sample_array_holds : array_holds sample_array [Byte.x01; Byte.x02].
Proof. by exists [Byte.xcd]. Qed.

Lemma byte_array_append_refines_witness :
  exists a, neoc_byte_array_append_bytes Byte.xcd (Some [Byte.x03; Byte.x04]) 2 sample_array = (Ok tt, a) /\ array_holds a [Byte.x01; Byte.x02; Byte.x03; Byte.x04].
Proof.
  pose proof (byte_array_append_refines Byte.xcd sample_array [Byte.x01; Byte.x02] [Byte.x03; Byte.x04] sample_array_holds ltac:(vm_compute; discriminate)) as Hr.
  change (zlen [Byte.x03; Byte.x04]) with 2 in Hr.
  destruct (neoc_byte_array_append_bytes Byte.xcd (Some [Byte.x03; Byte.x04]) 2 sample_array) as [[[]|e|] a] eqn:E; [|vm_compute in E; discriminate|vm_compute in E; discriminate].
  exists a. split; [reflexivity|exact Hr].
Defined.

Lemma byte_array_combinations_witness :
  exists r, neoc_byte_array_slice Byte.xcd sample_array 1 2 = Ok r /\ array_holds r [Byte.x02].
Proof.
  destruct (byte_array_combinations Byte.xcd sample_array sample_array _ _ Byte.x09 sample_array_holds sample_array_holds
    ltac:(vm_compute; reflexivity) ltac:(apply mib_heap_serves; vm_compute; discriminate)) as (_ & _ & _ & Hs & _).
  apply (Hs 1 2); [lia|vm_compute; discriminate].
Defined.

Lemma byte_array_find_first_witness :
  exists k, neoc_byte_array_find_byte sample_array Byte.x02 = Ok k /\
    (k = SIZE_MAX /\ ~ In Byte.x02 [Byte.x01; Byte.x02] \/
     0 <= k < 2 /\ [Byte.x01; Byte.x02] !! Z.to_nat k = Some Byte.x02 /\ ~ In Byte.x02 (take (Z.to_nat k) [Byte.x01; Byte.x02])).
Proof. apply (byte_array_find_first sample_array [Byte.x01; Byte.x02] Byte.x02 sample_array_holds). reflexivity. Defined.

Lemma byte_array_tests_witness :
  neoc_byte_array_compare sample_array sample_array = Ok 0 /\ neoc_byte_array_equal sample_array sample_array = Ok true /\
  (exists r, neoc_byte_array_starts_with sample_array sample_array = Ok r /\ (r = true <-> exists t, [Byte.x01; Byte.x02] = [Byte.x01; Byte.x02] ++ t)) /\
  (exists r, neoc_byte_array_ends_with sample_array sample_array = Ok r /\ (r = true <-> exists t, [Byte.x01; Byte.x02] = t ++ [Byte.x01; Byte.x02])).
Proof. apply (byte_array_tests sample_array sample_array _ _ sample_array_holds sample_array_holds). Defined.

Lemma byte_array_hex_text_witness : neoc_byte_array_to_hex_string Byte.xcd sample_array true true = Ok (Some (str "0x0102")).
Proof.
  apply (byte_array_hex_text Byte.xcd sample_array _ true true sample_array_holds); [vm_compute; discriminate|apply mib_heap_serves; vm_compute; discriminate].
Defined.

Lemma byte_array_from_hex_empty_witness :
  exists a, neoc_byte_array_from_hex_string Byte.xcd (str "0xAB") = Ok a /\ ba_data a = Some [Byte.xab] /\ ba_length a = 0.
Proof. apply (byte_array_from_hex_empty Byte.xcd [Byte.xab] true true); [discriminate|apply mib_heap_serves; vm_compute; discriminate]. Defined.

Lemma byte_array_pad_empty_witness :
  exists r, neoc_byte_array_pad Byte.xcd sample_array 3 Byte.x00 true = Ok r /\ ba_length r = 0 /\ ba_data r = Some [Byte.x00; Byte.x01; Byte.x02].
Proof.
  apply (byte_array_pad_empty Byte.xcd sample_array _ 3 Byte.x00 true sample_array_holds); [vm_compute; reflexivity|apply mib_heap_serves; vm_compute; discriminate].
Defined.

Lemma byte_array_conversions_witness :
  exists a b' r, neoc_byte_array_from_bytes Byte.xcd cut_object = Ok a /\ array_holds a [Byte.x01; Byte.x02] /\
    neoc_bytes_from_byte_array a = Ok (Some b') /\ holds b' [Byte.x01; Byte.x02] /\
    neoc_byte_array_reverse_copy Byte.xcd a = Ok r /\ array_holds r [Byte.x02; Byte.x01].
Proof.
  apply (byte_array_conversions Byte.xcd cut_object _ cut_object_holds); [discriminate|vm_compute; reflexivity|apply mib_heap_serves; vm_compute; discriminate].
Defined.
End Samples.
