(* ===== verification/Uri.v ===== *)
(** * Payment URIs and names (src/contract/neoc_uri.c, src/contract/nns_name.c)

    A URI is built into a block whose size is computed before, and taken apart with [strchr]; a name of the name service
    is cut at its last dot.  Texts are the lists of their characters. *)

From S2P Require Import Prelude Crypto Hashes.
#[local] Open Scope Z_scope.

(** ** URIs *)

Record neoc_neo_uri_t := mk_uri {
  uri_address : list byte; uri_asset : option (list byte); uri_amount : Z; uri_description : option (list byte)
}.

(** [sizeof] of the structs *)
Definition uri_struct_size : Z := 32.
Definition nns_name_struct_size : Z := 48.

(** [strchr(s, c)] for a character that is not the terminator: what is before the first one and what is behind it. *)
Fixpoint cut_at (c : byte) (s : list byte) : option (list byte * list byte) :=
  match s with
  | [] => None
  | b :: s => if bool_decide (b = c) then Some ([], s) else
      match cut_at c s with Some (before, behind) => Some (b :: before, behind) | None => None end
  end.

Definition set_asset (a : option (list byte)) (u : neoc_neo_uri_t) : neoc_neo_uri_t := mk_uri (uri_address u) a (uri_amount u) (uri_description u).
Definition set_amount (a : Z) (u : neoc_neo_uri_t) : neoc_neo_uri_t := mk_uri (uri_address u) (uri_asset u) a (uri_description u).
Definition set_description (d : option (list byte)) (u : neoc_neo_uri_t) : neoc_neo_uri_t := mk_uri (uri_address u) (uri_asset u) (uri_amount u) d.

Section Operations.
Context `{Allocator}.

(** [neoc_calloc(n + 1, 1)] and a copy of the text. *)
Definition calloc_text (s : list byte) : option (list byte) := if neoc_malloc_ok (zlen s + 1) then Some s else None.

(** A parameter of a known name; a block that cannot be had leaves NULL, or the old amount. *)
Definition uri_parameter (name value : list byte) (u : neoc_neo_uri_t) : neoc_neo_uri_t :=
  if bool_decide (name = str "asset") then set_asset (calloc_text value) u
  else if bool_decide (name = str "amount") then
    match calloc_text value with Some amount_str => set_amount (fst (strtoul amount_str)) u | None => u end
  else if bool_decide (name = str "description") then set_description (calloc_text value) u
  else u.

(** The loop over the query, a round of which takes at least one character. *)
Fixpoint uri_query (fuel : nat) (ptr : list byte) (u : neoc_neo_uri_t) : res neoc_neo_uri_t :=
  match fuel with
  | O => Fault
  | S fuel =>
      match ptr with
      | [] => Ok u
      | _ =>
          match cut_at Byte.x3d ptr with
          | None => Ok u
          | Some (name, value) =>
              match cut_at Byte.x26 value with
              | Some (value, ptr) => uri_query fuel ptr (uri_parameter name value u)
              | None => uri_query fuel [] (uri_parameter name value u)
              end
          end
      end
  end.

Definition neoc_neo_uri_parse (uri : option (list byte)) : res neoc_neo_uri_t :=
  match uri with
  | None => Err NEOC_ERROR_INVALID_ARGUMENT
  | Some uri =>
      if negb (bool_decide (take 4 uri = str "neo:")) then Err NEOC_ERROR_INVALID_FORMAT
      else if negb (neoc_malloc_ok uri_struct_size) then Err NEOC_ERROR_MEMORY
      else
        let ptr := drop 4 uri in
        let '(address, query) := match cut_at Byte.x3f ptr with Some (a, q) => (a, Some q) | None => (ptr, None) end in
        match calloc_text address with
        | None => Err NEOC_ERROR_MEMORY
        | Some address =>
            let u := mk_uri address None 0 None in
            match query with Some q => uri_query (S (length q)) q u | None => Ok u end
        end
  end.

(** [strcat] in a block of [size] bytes. *)
Definition strcat_block (size : Z) (text more : list byte) : res (list byte) :=
  if size <? zlen text + zlen more + 1 then Fault else Ok (text ++ more).

Fixpoint strcat_blocks (size : Z) (text : list byte) (pieces : list (list byte)) : res (list byte) :=
  match pieces with
  | [] => Ok text
  | p :: pieces => let? text := strcat_block size text p in strcat_blocks size text pieces
  end.

Definition is_some {A} (o : option A) : bool := match o with Some _ => true | None => false end.

Definition uri_size (address : list byte) (asset : option (list byte)) (amount : Z) (description : option (list byte)) : Z :=
  4 + zlen address + 1 +
  (if is_some asset || negb (amount =? 0) || is_some description then
     1 + (match asset with Some a => 6 + zlen a + 1 | None => 0 end) + (if 0 <? amount then 7 + 20 + 1 else 0) +
     (match description with Some d => 12 + zlen d + 1 | None => 0 end)
   else 0).

(** What is written behind the address, in the order of the calls. *)
Definition uri_pieces (asset : option (list byte)) (amount : Z) (description : option (list byte)) : list (list byte) :=
  if is_some asset || negb (amount =? 0) || is_some description then
    [str "?"] ++
    (match asset with Some a => [str "asset="; a] | None => [] end) ++
    (if 0 <? amount then (if is_some asset then [str "&"] else []) ++ [str "amount=" ++ print_decimal amount] else []) ++
    (match description with
     | Some d => (if is_some asset || (0 <? amount) then [str "&"] else []) ++ [str "description="; d]
     | None => []
     end)
  else [].

Definition neoc_neo_uri_build (address asset : option (list byte)) (amount : Z) (description : option (list byte)) : res (list byte) :=
  match address with
  | None => Err NEOC_ERROR_INVALID_ARGUMENT
  | Some address =>
      let size := uri_size address asset amount description in
      if negb (neoc_malloc_ok (wrap 64 size)) then Err NEOC_ERROR_MEMORY
      else strcat_blocks (wrap 64 size) [] ([str "neo:"; address] ++ uri_pieces asset amount description)
  end.

(** The C library's [strdup]. *)
Definition c_strdup (s : list byte) : res (list byte) := if malloc_ok (zlen s + 1) then Ok s else Err NEOC_ERROR_MEMORY.

Definition c_strdup_option (s : option (list byte)) : res (option (list byte)) :=
  match s with Some s => let? s := c_strdup s in Ok (Some s) | None => Ok None end.

Definition neoc_neo_uri_get_address (u : neoc_neo_uri_t) : res (list byte) := c_strdup (uri_address u).
Definition neoc_neo_uri_get_asset (u : neoc_neo_uri_t) : res (option (list byte)) := c_strdup_option (uri_asset u).
Definition neoc_neo_uri_get_amount (u : neoc_neo_uri_t) : res Z := Ok (uri_amount u).
Definition neoc_neo_uri_get_description (u : neoc_neo_uri_t) : res (option (list byte)) := c_strdup_option (uri_description u).
End Operations.

(** ** Names *)

Record neoc_nns_name_t := mk_nns_name { nm_name : list byte; nm_owner : neoc_hash160_t; nm_expiration : Z; nm_is_root : bool }.

(** [strrchr(s, c)]: what is before the last one and what is behind it. *)
Fixpoint cut_last (c : byte) (s : list byte) : option (list byte * list byte) :=
  match s with
  | [] => None
  | b :: s =>
      match cut_last c s with
      | Some (before, behind) => Some (b :: before, behind)
      | None => if bool_decide (b = c) then Some ([], s) else None
      end
  end.

Section Names.
Context `{Allocator}.

Definition neoc_nns_name_create (name : option (list byte)) (owner : option neoc_hash160_t) (expiration : Z) : res neoc_nns_name_t :=
  match name, owner with
  | Some name, Some owner =>
      if negb (neoc_malloc_ok nns_name_struct_size) then Err NEOC_ERROR_MEMORY
      else let? copy := c_strdup name in Ok (mk_nns_name copy owner expiration (negb (is_some (cut_at Byte.x2e name))))
  | _, _ => Err NEOC_ERROR_INVALID_ARGUMENT
  end.

Definition neoc_nns_name_get_name (n : neoc_nns_name_t) : res (list byte) := c_strdup (nm_name n).
Definition neoc_nns_name_get_owner (n : neoc_nns_name_t) : res neoc_hash160_t := Ok (nm_owner n).
Definition neoc_nns_name_get_expiration (n : neoc_nns_name_t) : res Z := Ok (nm_expiration n).

(** [now] is the time in seconds. *)
Definition neoc_nns_name_is_expired (now : Z) (n : neoc_nns_name_t) : res bool := Ok (nm_expiration n <? wrap 64 (wrap 64 now * 1000)).
Definition neoc_nns_name_is_root (n : neoc_nns_name_t) : res bool := Ok (nm_is_root n).

Definition neoc_nns_name_get_parent (n : neoc_nns_name_t) : res (option (list byte)) :=
  if nm_is_root n then Ok None
  else
    match cut_last Byte.x2e (nm_name n) with
    | None | Some ([], _) => Ok None
    | Some (parent, _) => match calloc_text parent with Some p => Ok (Some p) | None => Err NEOC_ERROR_MEMORY end
    end.
End Names.

(** ** Cutting texts *)

Lemma cut_at_none c s : c ∉ s -> cut_at c s = None.
Proof.
  induction s as [|b s IH]; [done|]. intros [Hb Hs]%not_elem_of_cons. cbn [cut_at].
  rewrite bool_decide_eq_false_2 by congruence. by rewrite IH.
Qed.

Lemma cut_at_app c a b : c ∉ a -> cut_at c (a ++ c :: b) = Some (a, b).
Proof.
  induction a as [|x a IH]; cbn [app cut_at]; [by rewrite bool_decide_eq_true_2|].
  intros [Hx Ha]%not_elem_of_cons. rewrite bool_decide_eq_false_2 by congruence. by rewrite IH.
Qed.

Lemma cut_at_inv c s a b : cut_at c s = Some (a, b) -> s = a ++ c :: b /\ c ∉ a.
Proof.
  revert a. induction s as [|x s IH]; intros a; cbn [cut_at]; [done|]. case_bool_decide as Hx.
  - intros [= <- <-]. subst x. split; [done|apply not_elem_of_nil].
  - destruct (cut_at c s) as [[a' b']|]; [|done]. intros [= <- <-]. destruct (IH a' eq_refl) as [-> Ha].
    split; [done|]. apply not_elem_of_cons. split; [congruence|done].
Qed.

Lemma cut_at_some c a b : exists p, cut_at c (a ++ c :: b) = Some p.
Proof.
  induction a as [|x a [p IH]]; cbn [app cut_at]; [rewrite bool_decide_eq_true_2 by done; eauto|].
  case_bool_decide; [eauto|]. rewrite IH. destruct p. eauto.
Qed.

Lemma cut_last_none c s : c ∉ s -> cut_last c s = None.
Proof.
  induction s as [|b s IH]; [done|]. intros [Hb Hs]%not_elem_of_cons. cbn [cut_last]. rewrite IH by done.
  by rewrite bool_decide_eq_false_2 by congruence.
Qed.

Lemma cut_last_app c a b : c ∉ b -> cut_last c (a ++ c :: b) = Some (a, b).
Proof.
  intros Hb. induction a as [|x a IH]; cbn [app cut_last]; [rewrite cut_last_none by done; by rewrite bool_decide_eq_true_2|by rewrite IH].
Qed.

(** ** Building and taking apart *)

Section Texts.
Context `{Allocator}.

Lemma strcat_blocks_ok size pieces : forall text,
  zlen text + zlen (concat pieces) < size -> strcat_blocks size text pieces = Ok (text ++ concat pieces).
Proof.
  induction pieces as [|p pieces IH]; intros text Hl; cbn [strcat_blocks concat] in *; [by rewrite app_nil_r|].
  rewrite zlen_app in Hl. pose proof (zlen_nonneg (concat pieces)). unfold strcat_block. cmps. cbn [rbind].
  rewrite IH by (rewrite zlen_app; lia). by rewrite app_assoc.
Qed.

Lemma query_next fuel name value more u :
  Byte.x3d ∉ name -> Byte.x26 ∉ value ->
  uri_query (S fuel) (name ++ Byte.x3d :: value ++ Byte.x26 :: more) u = uri_query fuel more (uri_parameter name value u).
Proof. intros Hn Hv. cbn [uri_query]. rewrite cut_at_app, cut_at_app by done. by destruct name. Qed.

Lemma query_last fuel name value u :
  Byte.x3d ∉ name -> Byte.x26 ∉ value -> uri_query (S (S fuel)) (name ++ Byte.x3d :: value) u = Ok (uri_parameter name value u).
Proof. intros Hn Hv. cbn [uri_query]. rewrite cut_at_app, cut_at_none by done. by destruct name. Qed.

(** Every query comes to an end: a round takes the name, the sign behind it and the value. *)
Lemma query_total fuel : forall ptr u, (length ptr < fuel)%nat -> exists u', uri_query fuel ptr u = Ok u' /\ uri_address u' = uri_address u.
Proof.
  induction fuel as [|fuel IH]; intros ptr u Hf; [lia|]. cbn [uri_query]. destruct ptr as [|b ptr]; [eauto|].
  assert (forall name value, uri_address (uri_parameter name value u) = uri_address u) as Ha.
  { intros name value. unfold uri_parameter. repeat case_bool_decide; try done. by destruct (calloc_text value). }
  destruct (cut_at _ (b :: ptr)) as [[name value]|] eqn:E; [|eauto]. apply cut_at_inv in E as [E _]. apply (f_equal length) in E.
  rewrite length_app in E. cbn [length] in *. destruct (cut_at _ value) as [[v p]|] eqn:E2.
  - apply cut_at_inv in E2 as [-> _]. rewrite length_app in E. cbn [length] in E.
    destruct (IH p (uri_parameter name v u)) as (u' & E' & A); [lia|]. exists u'. by rewrite E', A, Ha.
  - destruct (IH [] (uri_parameter name value u)) as (u' & E' & A); [cbn [length]; lia|]. exists u'. by rewrite E', A, Ha.
Qed.
End Texts.

Section Roundtrip.
Context `{Allocator}.

(** The parameters as they follow each other in a text. *)
Definition uri_text (address : list byte) (asset : option (list byte)) (amount : Z) (description : option (list byte)) : list byte :=
  str "neo:" ++ address ++ concat (uri_pieces asset amount description).

Lemma uri_text_size address asset amount description :
  0 <= amount -> zlen (uri_text address asset amount description) < uri_size address asset amount description.
Proof.
  intros Ha. unfold uri_text, uri_size, uri_pieces. rewrite !zlen_app. change (zlen (str "neo:")) with 4.
  assert (zlen (print_decimal amount) <= 20) as Hp by (pose proof (decimal_digits_length 20 amount); unfold zlen, print_decimal; lia).
  destruct asset as [a|], description as [d|], (Z.ltb_spec 0 amount), (Z.eqb_spec amount 0); try lia;
    cbn [is_some orb negb app concat]; rewrite ?zlen_app, ?zlen_nil;
    repeat match goal with |- context [zlen (str ?s)] => let n := eval vm_compute in (zlen (str s)) in change (zlen (str s)) with n end; lia.
Qed.

(** Parameters one behind the other. *)
Fixpoint params_text (l : list (list byte * list byte)) : list byte :=
  match l with
  | [] => []
  | [(name, value)] => name ++ Byte.x3d :: value
  | (name, value) :: l => name ++ Byte.x3d :: value ++ Byte.x26 :: params_text l
  end.

Lemma fold_cons {A B} (f : A -> B -> A) b bs a : fold_left f (b :: bs) a = fold_left f bs (f a b).
Proof. reflexivity. Qed.

Lemma query_params l : forall fuel u,
  Forall (fun p => (Byte.x3d ∉ p.1) /\ (Byte.x26 ∉ p.2)) l -> (length l < fuel)%nat ->
  uri_query fuel (params_text l) u = Ok (fold_left (fun u '(name, value) => uri_parameter name value u) l u).
Proof.
  induction l as [|[name value] l IH]; intros fuel u Hl Hf; (destruct fuel as [|fuel]; [cbn [length] in Hf; lia|]); [done|].
  apply Forall_cons in Hl as [[Hn Hv] Hl]. destruct l as [|p l].
  - destruct fuel as [|fuel]; [cbn [length] in Hf; lia|]. by apply query_last.
  - cbn [fst snd] in *. rewrite fold_cons, <- (IH fuel) by (done || (cbn [length] in *; lia)).
    change (params_text ((name, value) :: p :: l)) with (name ++ Byte.x3d :: value ++ Byte.x26 :: params_text (p :: l)).
    by apply query_next.
Qed.

Lemma params_length l : (length l <= length (params_text l))%nat.
Proof.
  induction l as [|[name value] l IH]; [done|]. destruct l as [|p l]; cbn [params_text length] in *; rewrite length_app; cbn [length]; [lia|].
  rewrite length_app. cbn [length] in *. destruct p. lia.
Qed.

Definition uri_params (asset : option (list byte)) (amount : Z) (description : option (list byte)) : list (list byte * list byte) :=
  (match asset with Some a => [(str "asset", a)] | None => [] end) ++
  (if 0 <? amount then [(str "amount", print_decimal amount)] else []) ++
  (match description with Some d => [(str "description", d)] | None => [] end).

Lemma uri_pieces_params asset amount description : 0 <= amount ->
  concat (uri_pieces asset amount description)
  = match uri_params asset amount description with [] => [] | _ => Byte.x3f :: params_text (uri_params asset amount description) end.
Proof.
  intros Ha. unfold uri_pieces, uri_params.
  change (str "?") with [Byte.x3f]. change (str "&") with [Byte.x26]. change (str "asset=") with (str "asset" ++ [Byte.x3d]).
  change (str "amount=") with (str "amount" ++ [Byte.x3d]). change (str "description=") with (str "description" ++ [Byte.x3d]).
  destruct asset as [a|], description as [d|], (Z.ltb_spec 0 amount), (Z.eqb_spec amount 0); try lia;
    cbn [is_some orb negb app concat params_text]; rewrite ?app_nil_r, <- ?app_assoc; reflexivity.
Qed.

Lemma uri_params_kept address asset amount description :
  0 <= amount < 2 ^ 64 -> heap_serves (uri_size address asset amount description) ->
  fold_left (fun u '(name, value) => uri_parameter name value u) (uri_params asset amount description) (mk_uri address None 0 None)
  = mk_uri address asset amount description.
Proof.
  intros Ha Hh. assert (zlen (print_decimal amount) <= 20) as Hp by (pose proof (decimal_digits_length 20 amount); unfold zlen, print_decimal; lia).
  pose proof (zlen_nonneg address). pose proof (zlen_nonneg (print_decimal amount)).
  assert (forall s, zlen s + 1 <= uri_size address asset amount description -> calloc_text s = Some s) as Hc.
  { intros s Hs. pose proof (zlen_nonneg s). unfold calloc_text, neoc_malloc_ok. cmps. rewrite Hh by lia. done. }
  unfold uri_params, uri_size in *.
  destruct asset as [a|], description as [d|], (Z.ltb_spec 0 amount), (Z.eqb_spec amount 0); try lia;
    try pose proof (zlen_nonneg a); try pose proof (zlen_nonneg d); cbn [is_some orb negb app fold_left] in *;
    unfold uri_parameter; repeat (rewrite bool_decide_eq_true_2 by done || rewrite bool_decide_eq_false_2 by done);
    rewrite ?Hc by lia; rewrite ?strtoul_decimal by lia; try done; subst amount; done.
Qed.

Lemma uri_params_plain asset amount description :
  (forall a, asset = Some a -> Byte.x26 ∉ a) -> (forall d, description = Some d -> Byte.x26 ∉ d) ->
  Forall (fun p => (Byte.x3d ∉ p.1) /\ (Byte.x26 ∉ p.2)) (uri_params asset amount description).
Proof.
  intros Ha Hd. assert (Byte.x26 ∉ print_decimal amount) as Hp.
  { intros Hin. pose proof (decimal_digits_chars 20 amount) as Hc. rewrite Forall_forall in Hc. specialize (Hc _ Hin). change (Z_of_byte Byte.x26) with 38 in Hc. lia. }
  unfold uri_params. rewrite !Forall_app. split_and!; [destruct asset| |destruct description]; try destruct (0 <? amount);
    repeat constructor; cbn [fst snd]; auto; apply (bool_decide_unpack _); by vm_compute.
Qed.

(** A URI built from an address without a question mark, and an asset and a description without an ampersand, fits the
    block whose size was computed for it, and is read back with its address, asset, amount and description. *)
Theorem uri_roundtrip (address : list byte) (asset : option (list byte)) (amount : Z) (description : option (list byte)) :
  Byte.x3f ∉ address -> (forall a, asset = Some a -> Byte.x26 ∉ a) -> (forall d, description = Some d -> Byte.x26 ∉ d) ->
  0 <= amount < 2 ^ 64 -> uri_size address asset amount description < 2 ^ 32 ->
  heap_serves (uri_size address asset amount description + 32) ->
  exists text, neoc_neo_uri_build (Some address) asset amount description = Ok text /\
    neoc_neo_uri_parse (Some text) = Ok (mk_uri address asset amount description).
Proof.
  intros Hq Hna Hnd Ha Hs Hh. exists (uri_text address asset amount description).
  pose proof (uri_text_size address asset amount description (proj1 Ha)) as Ht.
  pose proof (zlen_nonneg (uri_text address asset amount description)). pose proof (zlen_nonneg address).
  assert (zlen address + 1 <= uri_size address asset amount description) as Hsa.
  { clear - Ht. unfold uri_text in Ht. rewrite !zlen_app in Ht. change (zlen (str "neo:")) with 4 in Ht.
    pose proof (zlen_nonneg (concat (uri_pieces asset amount description))). lia. }
  assert (heap_serves (uri_size address asset amount description)) as Hh' by (eapply heap_serves_mono; [exact Hh|lia]).
  split.
  - unfold neoc_neo_uri_build. rewrite wrap_small by lia. unfold neoc_malloc_ok. cmps. rewrite Hh by lia. cbn [negb].
    rewrite strcat_blocks_ok; [by cbn [app concat]|]. exact Ht.
  - unfold neoc_neo_uri_parse. change (take 4 (uri_text address asset amount description)) with (str "neo:").
    rewrite bool_decide_eq_true_2 by done. unfold neoc_malloc_ok, uri_struct_size. rewrite Hh by lia. cbn [negb Z.eqb].
    change (drop 4 (uri_text address asset amount description)) with (address ++ concat (uri_pieces asset amount description)).
    assert (calloc_text address = Some address) as Hc by (unfold calloc_text, neoc_malloc_ok; cmps; by rewrite Hh by lia).
    pose proof (uri_params_kept address asset amount description Ha Hh') as Hk.
    rewrite uri_pieces_params by lia. destruct (uri_params asset amount description) as [|p l] eqn:E.
    + rewrite app_nil_r, cut_at_none by done. rewrite Hc. by rewrite <- Hk.
    + rewrite cut_at_app by done. rewrite Hc, query_params; [by rewrite Hk| |pose proof (params_length (p :: l)); lia].
      rewrite <- E. by apply uri_params_plain.
Qed.

(** Whatever the text, taking a URI apart ends, with the address up to the question mark or an error. *)
Theorem uri_parse_total (uri : list byte) :
  (exists e, neoc_neo_uri_parse (Some uri) = Err e) \/
  (exists u, neoc_neo_uri_parse (Some uri) = Ok u /\ exists rest, uri = str "neo:" ++ uri_address u ++ rest /\ Byte.x3f ∉ uri_address u).
Proof.
  unfold neoc_neo_uri_parse. case_bool_decide as Hp; cbn [negb]; [|eauto]. destruct (neoc_malloc_ok _); cbn [negb]; [|eauto].
  pose proof (take_drop 4 uri) as Hu. rewrite Hp in Hu. destruct (cut_at Byte.x3f (drop 4 uri)) as [[a q]|] eqn:E.
  - apply cut_at_inv in E as [E Ha]. unfold calloc_text. destruct (neoc_malloc_ok _); [|eauto]. right.
    destruct (query_total (S (length q)) q (mk_uri a None 0 None)) as (u & -> & Hu'); [lia|]. exists u. split; [done|].
    exists (Byte.x3f :: q). rewrite Hu'. cbn [uri_address]. by rewrite <- E, Hu.
  - unfold calloc_text. destruct (neoc_malloc_ok _); [|eauto]. right. eexists. split; [done|]. cbn [uri_address]. exists [].
    rewrite app_nil_r, Hu. split; [done|]. intros Hin. apply list_elem_of_split in Hin as (l1 & l2 & El).
    destruct (cut_at_some Byte.x3f l1 l2) as (p & E'). congruence.
Qed.

(** A name knows whether it has a dot; what is called its parent is the part in front of its last dot, so that the
    first of several labels stays and the last one is dropped. *)
Theorem nns_parent_is_front (front label : list byte) (owner : neoc_hash160_t) (expiration : Z) :
  Byte.x2e ∉ label -> heap_serves (zlen front + zlen label + 64) ->
  (exists n, neoc_nns_name_create (Some label) (Some owner) expiration = Ok n /\
     nm_is_root n = true /\ neoc_nns_name_get_parent n = Ok None) /\
  exists n, neoc_nns_name_create (Some (front ++ Byte.x2e :: label)) (Some owner) expiration = Ok n /\
    nm_is_root n = false /\ neoc_nns_name_get_parent n = Ok (if bool_decide (front = []) then None else Some front).
Proof.
  intros Hl Hh. pose proof (zlen_nonneg front). pose proof (zlen_nonneg label).
  unfold neoc_nns_name_create, neoc_malloc_ok, nns_name_struct_size, c_strdup. rewrite !zlen_app.
  assert (zlen (Byte.x2e :: label) = 1 + zlen label) as -> by (unfold zlen; cbn [length]; lia).
  rewrite !Hh by lia. cbn [Z.eqb negb rbind]. split.
  - eexists. split; [done|]. by rewrite cut_at_none by done.
  - eexists. split; [done|]. destruct (cut_at Byte.x2e (front ++ Byte.x2e :: label)) as [[a b]|] eqn:E.
    + split; [done|]. unfold neoc_nns_name_get_parent. cbn [nm_is_root nm_name is_some negb]. rewrite cut_last_app by done.
      destruct front as [|c front]; [done|]. rewrite bool_decide_eq_false_2 by done. unfold calloc_text, neoc_malloc_ok.
      rewrite Hh by lia. by assert ((zlen (c :: front) + 1 =? 0) = false) as -> by lia.
    + exfalso. destruct (cut_at_some Byte.x2e front label) as (p & E'). congruence.
Qed.
End Roundtrip.

(** ** Samples *)

Section Samples.
#[local] Existing Instance mib_heap.

Lemma uri_roundtrip_witness :
  exists text, neoc_neo_uri_build (Some (str "NXV7")) (Some (str "gas")) 25 (Some (str "a=b?")) = Ok text /\
    neoc_neo_uri_parse (Some text) = Ok (mk_uri (str "NXV7") (Some (str "gas")) 25 (Some (str "a=b?"))).
Proof.
  apply (uri_roundtrip (str "NXV7") (Some (str "gas")) 25 (Some (str "a=b?"))).
  - apply (bool_decide_unpack _). by vm_compute.
  - intros a [= <-]. apply (bool_decide_unpack _). by vm_compute.
  - intros d [= <-]. apply (bool_decide_unpack _). by vm_compute.
  - lia.
  - by vm_compute.
  - apply mib_heap_serves. by vm_compute.
Defined.

Lemma nns_parent_is_front_witness :
  exists n, neoc_nns_name_create (Some (str "mail.example.neo")) (Some (mk_hash160 (replicate 20 Byte.x00))) 0 = Ok n /\
    nm_is_root n = false /\ neoc_nns_name_get_parent n = Ok (Some (str "mail.example")).
Proof.
  apply (nns_parent_is_front (str "mail.example") (str "neo") (mk_hash160 (replicate 20 Byte.x00)) 0).
  - apply (bool_decide_unpack _). by vm_compute.
  - apply mib_heap_serves. by vm_compute.
Defined.

(** Nothing is escaped: an asset with an ampersand sets the amount. *)
Example uri_asset_sets_amount :
  (let? text := neoc_neo_uri_build (Some (str "NXV7")) (Some (str "gas&amount=99")) 1 None in neoc_neo_uri_parse (Some text))
  = Ok (mk_uri (str "NXV7") (Some (str "gas")) 1 None) /\
  (let? text := neoc_neo_uri_build (Some (str "NXV7")) (Some (str "gas")) 1 (Some (str "x&amount=99")) in neoc_neo_uri_parse (Some text))
  = Ok (mk_uri (str "NXV7") (Some (str "gas")) 99 (Some (str "x"))).
Proof. split; vm_compute; reflexivity. Qed.

(** A parameter without a value hides the one behind it. *)
Example uri_flag_hides :
  neoc_neo_uri_parse (Some (str "neo:NXV7?flag&asset=gas")) = Ok (mk_uri (str "NXV7") None 0 None).
Proof. vm_compute. reflexivity. Qed.
End Samples.
