(* ===== verification/Config.v ===== *)
(** * Configuration and the shared request counter (src/protocol/neo_c_config.c)

    The counter of request numbers is shared by threads and protected by its mutex.  The threads are modelled by their
    steps: taking the mutex, each access to the shared value, and giving the mutex back, in any interleaving; a step that
    needs the mutex is blocked while another thread holds it.  The global state is a record that every function accesses
    inside one critical section, and the configuration objects are values. *)

From S2P Require Import Prelude BinaryWriter Hex Crypto Hashes.
#[local] Open Scope Z_scope.

(** ** The counter *)

Inductive counter_op := OpGetAndIncrement | OpSet (value : Z).

(** Where a thread is: between calls; in front of [pthread_mutex_lock]; behind it; with the value read; behind the
    increment; behind the store. *)
Inductive location := Ready | Waiting (op : counter_op) | Entered (op : counter_op) | HasRead (value : Z) | HasIncremented (value : Z) | HasStored.

(** A thread has calls to make, a location, and what its calls of [neoc_counter_get_and_increment] returned. *)
Record thread := mk_thread { th_program : list counter_op; th_at : location; th_results : list Z }.

Record system := mk_system { sy_value : Z; sy_holder : option nat; sy_threads : list thread }.

(** A write of the shared value: the thread, the call, and what the call will return. *)
Abbreviation event := (nat * counter_op * Z)%type.

Inductive outcome := Stepped (s : system) (written : list event) | Blocked | Overflow.

Definition move (i : nat) (t : thread) (value : Z) (holder : option nat) (s : system) : system :=
  mk_system value holder (<[i := t]> (sy_threads s)).

(** [neoc_counter_get_and_increment] and [neoc_counter_set], one access at a time.  The increment of the largest [int] is
    undefined. *)
Definition thread_step (i : nat) (s : system) : outcome :=
  match sy_threads s !! i with
  | None => Blocked
  | Some t =>
      let v := sy_value s in
      match th_at t with
      | Ready =>
          match th_program t with
          | [] => Blocked
          | op :: program => Stepped (move i (mk_thread program (Waiting op) (th_results t)) v (sy_holder s) s) []
          end
      | Waiting op =>
          match sy_holder s with
          | None => Stepped (move i (mk_thread (th_program t) (Entered op) (th_results t)) v (Some i) s) []
          | Some _ => Blocked
          end
      | Entered OpGetAndIncrement => Stepped (move i (mk_thread (th_program t) (HasRead v) (th_results t)) v (sy_holder s) s) []
      | Entered (OpSet value) =>
          Stepped (move i (mk_thread (th_program t) HasStored (th_results t)) value (sy_holder s) s) [(i, OpSet value, 0)]
      | HasRead value =>
          if v =? 2 ^ 31 - 1 then Overflow
          else Stepped (move i (mk_thread (th_program t) (HasIncremented value) (th_results t)) (v + 1) (sy_holder s) s)
                 [(i, OpGetAndIncrement, value)]
      | HasIncremented value => Stepped (move i (mk_thread (th_program t) Ready (th_results t ++ [value])) v None s) []
      | HasStored => Stepped (move i (mk_thread (th_program t) Ready (th_results t)) v None s) []
      end
  end.

(** A counter that was just created, and the threads that share it. *)
Definition start (programs : list (list counter_op)) : system := mk_system 1 None (map (fun p => mk_thread p Ready []) programs).

(** Any interleaving, with the writes in their order. *)
Inductive reaches (s0 : system) : list event -> system -> Prop :=
| reaches_start : reaches s0 [] s0
| reaches_step tr s i s' written : reaches s0 tr s -> thread_step i s = Stepped s' written -> reaches s0 (tr ++ written) s'.

(** The steps of a schedule in their order, with the writes; a blocked thread is passed over. *)
Fixpoint run (schedule : list nat) (s : system) : option (list event * system) :=
  match schedule with
  | [] => Some ([], s)
  | i :: schedule =>
      match thread_step i s with
      | Stepped s written => match run schedule s with Some (tr, s) => Some (written ++ tr, s) | None => None end
      | Blocked => run schedule s
      | Overflow => None
      end
  end.

(** ** The global state *)

(** The counters that were created, by their number; [None] is a counter that was freed. *)
Record world := mk_world { g_address_version : Z; g_request_counter : option nat; g_initialized : bool; g_counters : list (option Z) }.

Definition NEOC_CONFIG_DEFAULT_ADDRESS_VERSION : Z := 0x35.
Definition NEOC_CONFIG_DEFAULT_BLOCK_TIME : Z := 15000.
Definition NEOC_CONFIG_MAX_VALID_UNTIL_BLOCK_INCREMENT_BASE : Z := 86400000.
Definition NEOC_CONFIG_MAINNET_NNS_CONTRACT_HASH : list byte := str "0x50ac1c37690cc2cfc594472833cf57505d5f46de".

Definition g_global_config : world := mk_world NEOC_CONFIG_DEFAULT_ADDRESS_VERSION None false [].

(** [sizeof] of the structs *)
Definition counter_struct_size : Z := 48.
Definition config_struct_size : Z := 40.

Abbreviation Wo := (M world).

Definition with_counters (l : list (option Z)) (w : world) : world := mk_world (g_address_version w) (g_request_counter w) (g_initialized w) l.

(** The calls of one thread on a counter of the world; a counter that was freed must not be used. *)
Definition neoc_counter_get_and_increment (counter : option nat) : Wo Z := fun w =>
  match counter with
  | None => (Ok 0, w)
  | Some c =>
      match g_counters w !! c with
      | Some (Some value) => if value =? 2 ^ 31 - 1 then (Fault, w) else (Ok value, with_counters (<[c := Some (value + 1)]> (g_counters w)) w)
      | _ => (Fault, w)
      end
  end.

Definition neoc_counter_set (counter : option nat) (value : Z) : Wo unit := fun w =>
  match counter with
  | None => (Ok tt, w)
  | Some c =>
      match g_counters w !! c with
      | Some (Some _) => (Ok tt, with_counters (<[c := Some value]> (g_counters w)) w)
      | _ => (Fault, w)
      end
  end.

Definition neoc_counter_reset (counter : option nat) : Wo unit := neoc_counter_set counter 1.

Definition neoc_counter_free (counter : option nat) : Wo unit := fun w =>
  match counter with
  | None => (Ok tt, w)
  | Some c =>
      match g_counters w !! c with
      | Some (Some _) => (Ok tt, with_counters (<[c := None]> (g_counters w)) w)
      | _ => (Fault, w)
      end
  end.

Definition neoc_global_config_cleanup : Wo unit := fun w =>
  match neoc_counter_free (g_request_counter w) w with
  | (Ok _, w) => (Ok tt, mk_world (g_address_version w) None false (g_counters w))
  | (r, w) => (r, w)
  end.

Definition neoc_global_config_get_request_counter (w : world) : option nat := g_request_counter w.
Definition neoc_neo_c_config_get_address_version (w : world) : Z := g_address_version w.
Definition neoc_neo_c_config_set_address_version (address_version : Z) : Wo unit := fun w =>
  (Ok tt, mk_world (wrap 8 address_version) (g_request_counter w) (g_initialized w) (g_counters w)).

(** ** Configurations *)

(** The member [scheduled_executor] is always NULL. *)
Record neoc_neo_c_config_t := mk_config {
  cf_network_magic : option Z; cf_block_interval : Z; cf_max_valid_until_block_increment : Z; cf_polling_interval : Z;
  cf_allows_transmission_on_fault : bool; cf_nns_resolver : option neoc_hash160_t
}.

Section Configurations.
(** [mutex_ok]: whether [pthread_mutex_init] succeeds. *)
Context `{Allocator} (mutex_ok : bool).

Definition neoc_counter_create : Wo (option nat) := fun w =>
  if neoc_malloc_ok counter_struct_size && mutex_ok then (Ok (Some (length (g_counters w))), with_counters (g_counters w ++ [Some 1]) w)
  else (Ok None, w).

Definition neoc_global_config_init : Wo unit := fun w =>
  if g_initialized w then (Ok tt, w)
  else
    match neoc_counter_create w with
    | (Ok (Some c), w) => (Ok tt, mk_world NEOC_CONFIG_DEFAULT_ADDRESS_VERSION (Some c) true (g_counters w))
    | (Ok None, w) => (Err NEOC_ERROR_OUT_OF_MEMORY, mk_world (g_address_version w) None (g_initialized w) (g_counters w))
    | (Err e, w) => (Err e, w)
    | (Fault, w) => (Fault, w)
    end.

(** What the call returns is ignored. *)
Definition ensure_global_config : Wo unit := fun w => match neoc_global_config_init w with (Fault, w) => (Fault, w) | (_, w) => (Ok tt, w) end.

(** The hash of a text in a block of zeros; [None] for an error. *)
Definition resolver_of (text : list byte) : res (option neoc_hash160_t) :=
  match neoc_hash160_from_string (Some text) (mk_hash160 (replicate 20 Byte.x00)) with
  | (Ok _, h) => Ok (Some h)
  | (Err _, _) => Ok None
  | (Fault, _) => Fault
  end.

Definition neoc_neo_c_config_create : Wo (option neoc_neo_c_config_t) :=
  if negb (neoc_malloc_ok config_struct_size) then ret None
  else if negb (neoc_malloc_ok 20) then ret None
  else
    let! resolver := lift (resolver_of NEOC_CONFIG_MAINNET_NNS_CONTRACT_HASH) in
    match resolver with
    | None => ret None
    | Some resolver =>
        do! ensure_global_config in
        ret (Some (mk_config None NEOC_CONFIG_DEFAULT_BLOCK_TIME
          (NEOC_CONFIG_MAX_VALID_UNTIL_BLOCK_INCREMENT_BASE / NEOC_CONFIG_DEFAULT_BLOCK_TIME) NEOC_CONFIG_DEFAULT_BLOCK_TIME false (Some resolver)))
    end.

Definition neoc_neo_c_config_create_custom (network_magic : option Z) (block_interval max_valid_until_block_increment polling_interval : Z)
    (allows_transmission_on_fault : bool) (nns_resolver : option neoc_hash160_t) : Wo (option neoc_neo_c_config_t) :=
  if negb (neoc_malloc_ok config_struct_size) then ret None
  else if (match network_magic with Some _ => negb (neoc_malloc_ok 4) | None => false end) then ret None
  else if negb (neoc_malloc_ok 20) then ret None
  else
    let! resolver := lift (match nns_resolver with
                           | Some r => match neoc_hash160_copy r with Ok r => Ok (Some r) | Err _ => Ok None | Fault => Fault end
                           | None => resolver_of NEOC_CONFIG_MAINNET_NNS_CONTRACT_HASH
                           end) in
    match resolver with
    | None => ret None
    | Some resolver =>
        do! ensure_global_config in
        ret (Some (mk_config network_magic block_interval max_valid_until_block_increment polling_interval allows_transmission_on_fault (Some resolver)))
    end.

Abbreviation Cf := (M neoc_neo_c_config_t).

Definition neoc_neo_c_config_set_polling_interval (polling_interval : Z) : Cf unit := fun c =>
  if polling_interval <=? 0 then (Err NEOC_ERROR_INVALID_ARGUMENT, c)
  else (Ok tt, mk_config (cf_network_magic c) (cf_block_interval c) (cf_max_valid_until_block_increment c) polling_interval
          (cf_allows_transmission_on_fault c) (cf_nns_resolver c)).

Definition neoc_neo_c_config_set_network_magic (magic : Z) : Cf unit := fun c =>
  if (magic <? 0) || (0xFFFFFFFF <? magic) then (Err NEOC_ERROR_INVALID_ARGUMENT, c)
  else if (match cf_network_magic c with None => negb (neoc_malloc_ok 4) | Some _ => false end) then (Err NEOC_ERROR_OUT_OF_MEMORY, c)
  else (Ok tt, mk_config (Some magic) (cf_block_interval c) (cf_max_valid_until_block_increment c) (cf_polling_interval c)
          (cf_allows_transmission_on_fault c) (cf_nns_resolver c)).

Definition neoc_neo_c_config_set_block_interval (block_interval : Z) : Cf unit := fun c =>
  if block_interval <=? 0 then (Err NEOC_ERROR_INVALID_ARGUMENT, c)
  else (Ok tt, mk_config (cf_network_magic c) block_interval (cf_max_valid_until_block_increment c) (cf_polling_interval c)
          (cf_allows_transmission_on_fault c) (cf_nns_resolver c)).

Definition neoc_neo_c_config_set_max_valid_until_block_increment (max_increment : Z) : Cf unit := fun c =>
  if max_increment <=? 0 then (Err NEOC_ERROR_INVALID_ARGUMENT, c)
  else (Ok tt, mk_config (cf_network_magic c) (cf_block_interval c) max_increment (cf_polling_interval c)
          (cf_allows_transmission_on_fault c) (cf_nns_resolver c)).

Definition neoc_neo_c_config_set_nns_resolver (nns_resolver : option neoc_hash160_t) : Cf unit := fun c =>
  match nns_resolver with
  | None => (Err NEOC_ERROR_INVALID_ARGUMENT, c)
  | Some r =>
      if (match cf_nns_resolver c with None => negb (neoc_malloc_ok 20) | Some _ => false end) then (Err NEOC_ERROR_OUT_OF_MEMORY, c)
      else
        match neoc_hash160_copy r with
        | Ok r => (Ok tt, mk_config (cf_network_magic c) (cf_block_interval c) (cf_max_valid_until_block_increment c) (cf_polling_interval c)
            (cf_allows_transmission_on_fault c) (Some r))
        | Err e => (Err e, c)
        | Fault => (Fault, c)
        end
  end.

Definition set_transmission (allow : bool) : Cf unit := fun c =>
  (Ok tt, mk_config (cf_network_magic c) (cf_block_interval c) (cf_max_valid_until_block_increment c) (cf_polling_interval c) allow (cf_nns_resolver c)).
Definition neoc_neo_c_config_allow_transmission_on_fault : Cf unit := set_transmission true.
Definition neoc_neo_c_config_prevent_transmission_on_fault : Cf unit := set_transmission false.
End Configurations.

(** ** The specification: one call at a time *)

Definition counter_spec (v : Z) (op : counter_op) : Z * Z := match op with OpGetAndIncrement => (v + 1, v) | OpSet w => (w, 0) end.

(** The calls one behind the other give these results and this value. *)
Inductive sequential (v0 : Z) : list event -> Z -> Prop :=
| sequential_nil : sequential v0 [] v0
| sequential_call tr v i op : sequential v0 tr v -> sequential v0 (tr ++ [(i, op, snd (counter_spec v op))]) (fst (counter_spec v op)).

(** The calls of a thread, and what its calls of [neoc_counter_get_and_increment] return. *)
Definition events_of (i : nat) (tr : list event) : list (counter_op * Z) :=
  omap (fun '(j, op, r) => if decide (i = j) then Some (op, r) else None) tr.
Definition returned (l : list (counter_op * Z)) : list Z :=
  omap (fun '(op, r) => match op with OpGetAndIncrement => Some r | OpSet _ => None end) l.

(** A call that has not written yet, and a value that is not returned yet. *)
Definition pending (l : location) : list counter_op :=
  match l with Waiting op | Entered op => [op] | HasRead _ => [OpGetAndIncrement] | _ => [] end.
Definition in_flight (l : location) : list Z := match l with HasIncremented v => [v] | _ => [] end.

Definition inside (l : location) : bool := match l with Ready | Waiting _ => false | _ => true end.

(** ** The invariant *)

Record counter_inv (programs : list (list counter_op)) (tr : list event) (s : system) : Prop := {
  inv_count : length (sy_threads s) = length programs;
  inv_sequential : sequential 1 tr (sy_value s);
  inv_exclusion i t : sy_threads s !! i = Some t -> inside (th_at t) = bool_decide (sy_holder s = Some i);
  inv_holder i : sy_holder s = Some i -> (i < length programs)%nat;
  inv_read i t v : sy_threads s !! i = Some t -> th_at t = HasRead v -> v = sy_value s;
  inv_calls i t p : sy_threads s !! i = Some t -> programs !! i = Some p ->
    map fst (events_of i tr) ++ pending (th_at t) ++ th_program t = p;
  inv_results i t : sy_threads s !! i = Some t -> returned (events_of i tr) = th_results t ++ in_flight (th_at t)
}.

Lemma events_of_app i tr w : events_of i (tr ++ w) = events_of i tr ++ events_of i w.
Proof. apply omap_app. Qed.

Lemma events_of_other i j w : Forall (fun e : event => e.1.1 = i) w -> j <> i -> events_of j w = [].
Proof.
  intros Hw Hij. induction Hw as [|[[k op] r] w Hk _ IH]; [done|]. cbn in *. subst k. rewrite decide_False by done. exact IH.
Qed.

Lemma start_inv programs : counter_inv programs [] (start programs).
Proof.
  split; cbn [start sy_threads sy_value sy_holder].
  - apply length_map.
  - constructor.
  - intros i t Ht. change (map ?f programs) with (f <$> programs) in Ht. rewrite list_lookup_fmap in Ht. by destruct (programs !! i); simplify_eq/=.
  - done.
  - intros i t v Ht. change (map ?f programs) with (f <$> programs) in Ht. rewrite list_lookup_fmap in Ht. by destruct (programs !! i); simplify_eq/=.
  - intros i t p Ht Hp. change (map ?f programs) with (f <$> programs) in Ht. rewrite list_lookup_fmap, Hp in Ht. by simplify_eq/=.
  - intros i t Ht. change (map ?f programs) with (f <$> programs) in Ht. rewrite list_lookup_fmap in Ht. by destruct (programs !! i); simplify_eq/=.
Qed.

(** What a step of one thread has to respect. *)
Lemma inv_move programs tr s i t t' value' holder' w :
  counter_inv programs tr s -> sy_threads s !! i = Some t ->
  sequential 1 (tr ++ w) value' -> Forall (fun e : event => e.1.1 = i) w ->
  inside (th_at t') = bool_decide (holder' = Some i) ->
  (holder' = sy_holder s \/ (sy_holder s = None /\ holder' = Some i) \/ (sy_holder s = Some i /\ holder' = None)) ->
  (value' = sy_value s \/ sy_holder s = Some i) -> (forall v, th_at t' = HasRead v -> v = value') ->
  map fst (events_of i w) ++ pending (th_at t') ++ th_program t' = pending (th_at t) ++ th_program t ->
  th_results t ++ in_flight (th_at t) ++ returned (events_of i w) = th_results t' ++ in_flight (th_at t') ->
  counter_inv programs (tr ++ w) (move i t' value' holder' s).
Proof.
  intros [Hn Hs He Hh Hr Hc Hq] Ht Hs' Hw Hin Hho Hva Hre Hca Hres. assert (i < length (sy_threads s))%nat as Hi by by eapply lookup_lt_Some.
  assert (forall j u, sy_threads (move i t' value' holder' s) !! j = Some u -> (j = i /\ u = t') \/ (j <> i /\ sy_threads s !! j = Some u)) as Hl.
  { intros j u Hu. unfold move in Hu. cbn [sy_threads] in Hu. destruct (decide (j = i)) as [->|Hj].
    - rewrite list_lookup_insert_eq in Hu by done. left. by simplify_eq.
    - rewrite list_lookup_insert_ne in Hu by done. by right. }
  split.
  - unfold move. cbn [sy_threads]. by rewrite length_insert.
  - exact Hs'.
  - intros j u [[-> ->]|[Hj Hu]]%Hl; [exact Hin|]. rewrite (He j u Hu). apply bool_decide_ext. cbn [move sy_holder].
    destruct Hho as [->|[[-> ->]|[-> ->]]]; split; congruence.
  - intros j. cbn [move sy_holder]. destruct Hho as [->|[[_ ->]|[_ ->]]]; [apply Hh| |done]. intros [= <-]. by rewrite <- Hn.
  - intros j u v [[-> ->]|[Hj Hu]]%Hl; [apply Hre|]. intros Hv. cbn [move sy_value]. rewrite (Hr j u v Hu Hv).
    destruct Hva as [->|Hva]; [done|]. exfalso. pose proof (He j u Hu) as Hx. rewrite Hv, Hva in Hx. cbn in Hx. symmetry in Hx.
    apply bool_decide_eq_true in Hx. congruence.
  - intros j u p [[-> ->]|[Hj Hu]]%Hl Hp; rewrite events_of_app.
    + rewrite map_app, <- app_assoc, Hca. by apply Hc.
    + rewrite (events_of_other i j w Hw Hj), app_nil_r. by apply Hc.
  - intros j u [[-> ->]|[Hj Hu]]%Hl; rewrite events_of_app.
    + unfold returned at 1. rewrite omap_app. fold (returned (events_of i tr)). rewrite (Hq i t Ht), <- app_assoc. exact Hres.
    + rewrite (events_of_other i j w Hw Hj), app_nil_r. by apply Hq.
Qed.

Lemma step_inv programs tr s i s' w :
  counter_inv programs tr s -> thread_step i s = Stepped s' w -> counter_inv programs (tr ++ w) s'.
Proof.
  intros Hinv. pose proof Hinv as [_ Hs He _ Hr _ _]. unfold thread_step. destruct (sy_threads s !! i) as [t|] eqn:Ht; [|done].
  pose proof (He i t Ht) as Hx. destruct t as [program loc results]. cbn [th_at th_program th_results] in *.
  assert (inside loc = true -> sy_holder s = Some i) as Hold by (intros Hl; rewrite Hl in Hx; symmetry in Hx; by apply bool_decide_eq_true in Hx).
  destruct loc as [|op|op|v|v|].
  - destruct program as [|op program]; [done|]. intros [= <- <-]. eapply inv_move; try done; rewrite ?app_nil_r; try done; by left.
  - destruct (sy_holder s) eqn:Eh; [done|]. intros [= <- <-].
    eapply inv_move; try done; rewrite ?app_nil_r; cbn; try done; [by rewrite bool_decide_eq_true_2|by right; left|by left].
  - specialize (Hold eq_refl). destruct op as [|x]; intros [= <- <-].
    + eapply inv_move; try done; rewrite ?app_nil_r; cbn; try done; [by left|by left|by intros v [= ->]].
    + eapply inv_move; try done; cbn; rewrite ?decide_True by done; try done; rewrite ?app_nil_r; try done;
        [exact (sequential_call 1 tr _ i (OpSet x) Hs)|by repeat constructor|by left|by right].
  - specialize (Hold eq_refl). destruct (_ =? _); [done|]. intros [= <- <-]. rewrite (Hr i _ v Ht eq_refl).
    eapply inv_move; try done; cbn; rewrite ?decide_True by done; try done;
      [exact (sequential_call 1 tr _ i OpGetAndIncrement Hs)|by repeat constructor|by left|by right].
  - specialize (Hold eq_refl). intros [= <- <-].
    eapply inv_move; try done; rewrite ?app_nil_r; cbn; try done; [by right; right|by left].
  - specialize (Hold eq_refl). intros [= <- <-].
    eapply inv_move; try done; rewrite ?app_nil_r; cbn; try done; [by right; right|by left].
Qed.

Lemma reaches_inv programs tr s : reaches (start programs) tr s -> counter_inv programs tr s.
Proof. induction 1 as [|tr s i s' w _ IH E]; [apply start_inv|by eapply step_inv]. Qed.

Lemma run_reaches s0 schedule : forall tr s tr' s', reaches s0 tr s -> run schedule s = Some (tr', s') -> reaches s0 (tr ++ tr') s'.
Proof.
  induction schedule as [|i schedule IH]; intros tr s tr' s' Hr; cbn [run]; [intros [= <- <-]; by rewrite app_nil_r|].
  destruct (thread_step i s) as [s1 w| |] eqn:E; [|by apply IH|done].
  destruct (run schedule s1) as [[tr1 s2]|] eqn:E1; [|done]. intros [= <- <-]. rewrite app_assoc. eapply IH; [|exact E1]. by econstructor.
Qed.

(** Whatever the interleaving, the threads that share a counter see it as if their calls were made one behind the
    other: the writes are a sequential history that ends in the value of the counter, each thread makes its calls in the
    order of its program and gets the results of that history, and no two threads are between taking the mutex and giving
    it back. *)
Theorem counter_linearizable (programs : list (list counter_op)) (tr : list event) (s : system) :
  reaches (start programs) tr s ->
  sequential 1 tr (sy_value s) /\
  (forall i t p, sy_threads s !! i = Some t -> programs !! i = Some p ->
     map fst (events_of i tr) ++ pending (th_at t) ++ th_program t = p /\
     returned (events_of i tr) = th_results t ++ in_flight (th_at t)) /\
  (forall i j t u, sy_threads s !! i = Some t -> sy_threads s !! j = Some u -> inside (th_at t) = true -> inside (th_at u) = true -> i = j).
Proof.
  intros [_ Hs He _ _ Hc Hq]%reaches_inv. split_and!; [done| |].
  - intros i t p Ht Hp. split; [by apply Hc|by apply Hq].
  - intros i j t u Ht Hu Hi Hj. rewrite (He i t Ht) in Hi. rewrite (He j u Hu) in Hj.
    apply bool_decide_eq_true in Hi, Hj. congruence.
Qed.

(** C31. The threads never block each other for good: as long as a thread has a call to make or to finish, some thread can
    take a step; the increment past INT_MAX, which is undefined, counts as one. *)
Theorem counter_never_stuck (programs : list (list counter_op)) (tr : list event) (s : system) (i : nat) (t : thread) :
  reaches (start programs) tr s -> sy_threads s !! i = Some t -> th_at t <> Ready \/ th_program t <> [] ->
  exists j, thread_step j s <> Blocked.
Proof.
  intros [Hn _ He Hh _ _ _]%reaches_inv Ht Hwork. destruct (sy_holder s) as [j|] eqn:Eh.
  - exists j. destruct (sy_threads s !! j) as [u|] eqn:Eu; [|apply lookup_ge_None in Eu; specialize (Hh j eq_refl); lia].
    pose proof (He j u Eu) as Hx. rewrite bool_decide_eq_true_2 in Hx by done. unfold thread_step. rewrite Eu.
    destruct (th_at u) as [|?|[]|?|?|]; try done. by destruct (_ =? _).
  - exists i. unfold thread_step. rewrite Ht, Eh. pose proof (He i t Ht) as Hx.
    destruct (th_at t) as [|?|?|?|?|]; try done. destruct (th_program t); [by destruct Hwork|done].
Qed.

(** A history of increments counts up. *)
Lemma increments_count v0 tr v :
  sequential v0 tr v -> Forall (fun e : event => e.1.2 = OpGetAndIncrement) tr ->
  v = v0 + zlen tr /\ map snd tr = map (fun k => v0 + Z.of_nat k) (seq 0 (length tr)).
Proof.
  induction 1 as [|tr v i op _ IH]; intros Hop; [split; [unfold zlen; cbn; lia|done]|].
  apply Forall_app in Hop as [Hop [Ho _]%Forall_cons]. cbn in Ho. subst op. destruct (IH Hop) as [-> E]. split.
  - cbn [counter_spec fst]. rewrite zlen_app. change (zlen [_]) with 1. lia.
  - etransitivity; [apply map_app|]. etransitivity; [exact (f_equal (fun l => l ++ _) E)|].
    rewrite length_app, Nat.add_1_r, seq_S, map_app. reflexivity.
Qed.

Lemma event_of_thread i tr op r : (op, r) ∈ events_of i tr -> (i, op, r) ∈ tr.
Proof.
  unfold events_of. rewrite list_elem_of_omap. intros ([[j op'] r'] & Hin & E). case_decide; [|done]. by simplify_eq.
Qed.

Lemma returned_event i tr r : r ∈ returned (events_of i tr) -> (i, OpGetAndIncrement, r) ∈ tr.
Proof.
  unfold returned. rewrite list_elem_of_omap. intros ([op r'] & Hin & E). destruct op; [|done]. simplify_eq. by apply event_of_thread.
Qed.

(** The calls that were made are calls of a program. *)
Lemma events_are_calls programs tr s (P : counter_op -> Prop) :
  counter_inv programs tr s -> Forall (Forall P) programs -> (forall e, e ∈ tr -> (e.1.1 < length programs)%nat) -> Forall (fun e : event => P e.1.2) tr.
Proof.
  intros [Hn _ _ _ _ Hc _] HP Hlt. apply Forall_forall. intros [[i op] r] He. specialize (Hlt _ He). cbn in Hlt |- *.
  destruct (lookup_lt_is_Some_2 (sy_threads s) i) as [t Ht]; [lia|]. destruct (lookup_lt_is_Some_2 programs i Hlt) as [p Hp].
  specialize (Hc i t p Ht Hp). rewrite Forall_lookup in HP. specialize (HP i p Hp). rewrite <- Hc in HP. apply Forall_app in HP as [HP _].
  rewrite Forall_forall in HP. apply HP. apply list_elem_of_In, in_map_iff. exists (op, r). split; [done|].
  apply list_elem_of_In. unfold events_of. apply list_elem_of_omap. exists (i, op, r). split; [done|]. by rewrite decide_True.
Qed.

Lemma step_writes i s s' w : thread_step i s = Stepped s' w -> Forall (fun e : event => e.1.1 = i) w /\ (i < length (sy_threads s))%nat.
Proof.
  unfold thread_step. destruct (sy_threads s !! i) as [t|] eqn:Et; [|done]. apply lookup_lt_Some in Et.
  destruct (th_at t) as [|?|[]|?|?|]; [destruct (th_program t)|destruct (sy_holder s)| | |destruct (_ =? _)| |];
    intros [= <- <-]; split; try done; by repeat constructor.
Qed.

Lemma reaches_writers programs tr s : reaches (start programs) tr s -> Forall (fun e : event => e.1.1 < length programs)%nat tr.
Proof.
  induction 1 as [|tr s i s' w Hr IH E]; [constructor|]. apply Forall_app. split; [exact IH|].
  destruct (step_writes i s s' w E) as [Hw Hi]. rewrite (inv_count _ _ _ (reaches_inv _ _ _ Hr)) in Hi.
  eapply Forall_impl; [exact Hw|]. intros e He. cbv beta in He |- *. by rewrite He.
Qed.

Lemma returned_sublist i tr : sublist (returned (events_of i tr)) (map snd tr).
Proof.
  induction tr as [|[[j op] r] tr IH]; [constructor|]. cbn. case_decide; [|by apply sublist_cons].
  cbn. destruct op; [by apply sublist_skip|by apply sublist_cons].
Qed.

Lemma same_number (tr : list event) (e f : event) : NoDup (map snd tr) -> e ∈ tr -> f ∈ tr -> e.2 = f.2 -> e = f.
Proof.
  intros Hn (k & Hk)%list_elem_of_lookup (l & Hl)%list_elem_of_lookup E.
  assert (k = l) as ->; [|congruence]. eapply (NoDup_lookup (snd <$> tr)); [exact Hn| |]; rewrite list_lookup_fmap.
  - by rewrite Hk.
  - rewrite Hl. cbn. by rewrite E.
Qed.

(** C40. Threads that only ask for request numbers never get the same number twice, neither in one thread nor in two: every
    number is between 1 and the value of the counter, which has counted the calls. Up to INT_MAX: the call that would count
    past it is signed overflow, which ends the run. *)
Theorem request_numbers_unique (programs : list (list counter_op)) (tr : list event) (s : system) :
  reaches (start programs) tr s -> Forall (Forall (fun op => op = OpGetAndIncrement)) programs ->
  sy_value s = 1 + zlen tr /\
  (forall i t, sy_threads s !! i = Some t -> NoDup (th_results t) /\ Forall (fun r => 1 <= r < sy_value s) (th_results t)) /\
  (forall i j t u r, i <> j -> sy_threads s !! i = Some t -> sy_threads s !! j = Some u -> r ∈ th_results t -> r ∉ th_results u).
Proof.
  intros Hr Hp. pose proof (reaches_inv _ _ _ Hr) as Hinv. pose proof (reaches_writers _ _ _ Hr) as Hw.
  rewrite Forall_forall in Hw. pose proof (events_are_calls _ _ _ _ Hinv Hp Hw) as Hops.
  destruct (increments_count _ _ _ (inv_sequential _ _ _ Hinv) Hops) as [Hv En].
  assert (NoDup (map snd tr)) as Hnd by (rewrite En; apply NoDup_fmap_2_strong; [intros a b _ _; lia|apply NoDup_seq]).
  assert (forall i t r, sy_threads s !! i = Some t -> r ∈ th_results t -> (i, OpGetAndIncrement, r) ∈ tr) as Hev.
  { intros i t r Ht Hin. apply returned_event. rewrite (inv_results _ _ _ Hinv i t Ht). apply elem_of_app. by left. }
  split_and!; [exact Hv| |].
  - intros i t Ht. split.
    + pose proof (sublist_NoDup _ _ Hnd (returned_sublist i tr)) as Hr'. rewrite (inv_results _ _ _ Hinv i t Ht) in Hr'.
      by apply NoDup_app in Hr' as [Hr' _].
    + apply Forall_forall. intros r Hin. apply (Hev i t r Ht) in Hin.
      assert (r ∈ map snd tr) as Hm by (apply list_elem_of_In, in_map_iff; exists (i, OpGetAndIncrement, r); split; [done|by apply list_elem_of_In]).
      rewrite En in Hm. apply list_elem_of_In, in_map_iff in Hm as (k & <- & Hk%in_seq). rewrite Hv. unfold zlen. lia.
  - intros i j t u r Hij Ht Hu Hi Hj. apply (Hev i t r Ht) in Hi. apply (Hev j u r Hu) in Hj.
    pose proof (same_number tr _ _ Hnd Hi Hj eq_refl) as E. congruence.
Qed.

(** ** One thread *)

(** [n] numbers from the global counter. *)
Fixpoint requests (n : nat) : Wo (list Z) :=
  match n with
  | O => ret []
  | S n =>
      let! w := get in
      let! r := neoc_counter_get_and_increment (neoc_global_config_get_request_counter w) in
      let! rs := requests n in
      ret (r :: rs)
  end.

Lemma requests_count n : forall w c v,
  g_request_counter w = Some c -> g_counters w !! c = Some (Some v) -> v + Z.of_nat n < 2 ^ 31 ->
  exists w', requests n w = (Ok (map (fun k => v + Z.of_nat k) (seq 0 n)), w') /\
    g_request_counter w' = Some c /\ g_counters w' !! c = Some (Some (v + Z.of_nat n)).
Proof.
  induction n as [|n IH]; intros w c v Hc Hv Hn; [exists w; rewrite Z.add_0_r; done|]. cbn [requests].
  unfold bind at 1, get at 1. unfold neoc_global_config_get_request_counter at 1. rewrite Hc.
  set (w1 := with_counters (<[c := Some (v + 1)]> (g_counters w)) w).
  assert (neoc_counter_get_and_increment (Some c) w = (Ok v, w1)) as E1 by (unfold neoc_counter_get_and_increment; rewrite Hv; by cmps).
  rewrite (bind_ok _ _ _ _ _ E1). apply lookup_lt_Some in Hv as Hlt.
  destruct (IH w1 c (v + 1)) as (w' & E & Hc' & Hv'); [done|by apply list_lookup_insert_eq|lia|].
  exists w'. rewrite (bind_ok _ _ _ _ _ E). split_and!; [|done|rewrite Hv'; do 2 f_equal; lia].
  unfold ret. cbn [seq map]. rewrite <- seq_shift, map_map, Z.add_0_r. do 3 f_equal. apply map_ext. intros k. lia.
Qed.

(** A call without contention is the five steps of its thread. *)
Lemma call_alone v : v < 2 ^ 31 - 1 ->
  run [0; 0; 0; 0; 0]%nat (mk_system v None [mk_thread [OpGetAndIncrement] Ready []])
  = Some ([(0%nat, OpGetAndIncrement, v)], mk_system (v + 1) None [mk_thread [] Ready [v]]).
Proof. intros Hv. cbn -[Z.pow Z.eqb Z.add]. by cmps. Qed.

(** The life of the global configuration: initialising it twice is initialising it once; the numbers it gives then are
    1, 2, 3 and so on; after the cleanup there is no counter, a request gets 0, and a pointer to the counter that was kept
    must not be used. *)
Theorem global_config_lifecycle `{Allocator} (n : nat) :
  malloc_ok counter_struct_size = true -> Z.of_nat n < 2 ^ 31 - 1 ->
  exists w c w1 w2,
    neoc_global_config_init true g_global_config = (Ok tt, w) /\ neoc_global_config_init true w = (Ok tt, w) /\
    neoc_global_config_get_request_counter w = Some c /\
    requests n w = (Ok (map (fun k => 1 + Z.of_nat k) (seq 0 n)), w1) /\
    neoc_global_config_cleanup w1 = (Ok tt, w2) /\
    requests n w2 = (Ok (replicate n 0), w2) /\ fst (neoc_counter_get_and_increment (Some c) w2) = Fault.
Proof.
  intros Hm Hn. set (w := mk_world NEOC_CONFIG_DEFAULT_ADDRESS_VERSION (Some 0%nat) true [Some 1]).
  destruct (requests_count n w 0 1 eq_refl eq_refl ltac:(lia)) as (w1 & E1 & Hc1 & Hv1).
  set (w2 := mk_world (g_address_version w1) None false (<[0%nat := None]> (g_counters w1))). exists w, 0%nat, w1, w2.
  split_and!; try done.
  - unfold neoc_global_config_init, neoc_counter_create, neoc_malloc_ok. cbn [g_initialized g_global_config]. by rewrite Hm.
  - unfold neoc_global_config_cleanup, neoc_counter_free. by rewrite Hc1, Hv1.
  - clear. induction n as [|n IH]; [done|]. cbn [requests replicate]. unfold bind at 1, get at 1. cbn [neoc_global_config_get_request_counter g_request_counter w2].
    rewrite (bind_ok _ _ _ _ _ (eq_refl (neoc_counter_get_and_increment None w2))). by rewrite (bind_ok _ _ _ _ _ IH).
  - unfold neoc_counter_get_and_increment, w2. cbn [g_counters]. apply lookup_lt_Some in Hv1. by rewrite list_lookup_insert_eq.
Qed.

(** ** Configurations *)

Inductive config_op :=
| CfPolling (z : Z) | CfMagic (z : Z) | CfBlock (z : Z) | CfMax (z : Z) | CfResolver (h : option neoc_hash160_t) | CfAllow | CfPrevent.

Section Sessions.
Context `{Allocator}.

Definition exec_config_op (op : config_op) : M neoc_neo_c_config_t unit :=
  match op with
  | CfPolling z => neoc_neo_c_config_set_polling_interval z
  | CfMagic z => neoc_neo_c_config_set_network_magic z
  | CfBlock z => neoc_neo_c_config_set_block_interval z
  | CfMax z => neoc_neo_c_config_set_max_valid_until_block_increment z
  | CfResolver h => neoc_neo_c_config_set_nns_resolver h
  | CfAllow => neoc_neo_c_config_allow_transmission_on_fault
  | CfPrevent => neoc_neo_c_config_prevent_transmission_on_fault
  end.

(** The results of a session, and the configuration it leaves; an error does not end it. *)
Fixpoint config_session (ops : list config_op) (c : neoc_neo_c_config_t) : list (res unit) * neoc_neo_c_config_t :=
  match ops with
  | [] => ([], c)
  | op :: ops => let '(r, c) := exec_config_op op c in let '(rs, c) := config_session ops c in (r :: rs, c)
  end.

(** Numbers are [int]s and hashes have their 20 bytes. *)
Definition config_op_ok (op : config_op) : Prop :=
  match op with
  | CfPolling z | CfMagic z | CfBlock z | CfMax z => z < 2 ^ 31
  | CfResolver (Some h) => length (hash160_data h) = 20%nat
  | _ => True
  end.

(** What the setters guard. *)
Record config_ok (c : neoc_neo_c_config_t) : Prop := {
  ok_block : 0 < cf_block_interval c < 2 ^ 31;
  ok_max : 0 < cf_max_valid_until_block_increment c < 2 ^ 31;
  ok_polling : 0 < cf_polling_interval c < 2 ^ 31;
  ok_magic m : cf_network_magic c = Some m -> 0 <= m < 2 ^ 31;
  ok_resolver : exists h, cf_nns_resolver c = Some h /\ length (hash160_data h) = 20%nat
}.

Lemma exec_config_ok op c : config_op_ok op -> config_ok c -> fst (exec_config_op op c) <> Fault /\ config_ok (snd (exec_config_op op c)).
Proof.
  intros Hop [Hb Hm Hp Hg Hr]. pose proof Hr as (h0 & Eh & Hh).
  destruct op as [z|z|z|z|h| |]; cbn [config_op_ok exec_config_op] in *.
  - unfold neoc_neo_c_config_set_polling_interval. destruct (Z.leb_spec z 0); split; try done; split; cbn; try done; lia.
  - unfold neoc_neo_c_config_set_network_magic. destruct (Z.ltb_spec z 0); [by split; [|split]|]. cbn [orb].
    destruct (_ <? _); [by split; [|split]|]. destruct (match cf_network_magic c with Some _ => _ | None => _ end); [by split; [|split]|].
    split; [done|]. split; cbn; try done. intros m [= <-]. lia.
  - unfold neoc_neo_c_config_set_block_interval. destruct (Z.leb_spec z 0); split; try done; split; cbn; try done; lia.
  - unfold neoc_neo_c_config_set_max_valid_until_block_increment. destruct (Z.leb_spec z 0); split; try done; split; cbn; try done; lia.
  - unfold neoc_neo_c_config_set_nns_resolver. destruct h as [h|]; [|by split; [|split]]. rewrite Eh.
    unfold neoc_hash160_copy, memcpy_from. pose proof (buf_slice_all (hash160_data h)) as E. unfold zlen in E. rewrite Hop in E.
    change (Z.of_nat 20) with NEOC_HASH160_SIZE in E. rewrite E. cbn [rbind]. split; [done|]. split; cbn; try done. by eexists.
  - by split; [|split].
  - by split; [|split].
Qed.

(** The configuration with the default values. *)
Definition default_config (h : neoc_hash160_t) : neoc_neo_c_config_t := mk_config None 15000 5760 15000 false (Some h).

Lemma default_config_ok h : length (hash160_data h) = 20%nat -> config_ok (default_config h).
Proof. intros Hh. split; cbn [default_config cf_block_interval cf_max_valid_until_block_increment cf_polling_interval]; [lia|lia|lia|done|by exists h]. Qed.

Lemma mainnet_resolver : exists h, resolver_of NEOC_CONFIG_MAINNET_NNS_CONTRACT_HASH = Ok (Some h) /\ length (hash160_data h) = 20%nat.
Proof. eexists. split; [vm_compute; reflexivity|reflexivity]. Qed.

Lemma create_default (mutex_ok : bool) (w w' : world) c :
  neoc_neo_c_config_create mutex_ok w = (Ok (Some c), w') ->
  (exists h, c = default_config h /\ length (hash160_data h) = 20%nat) /\
  g_initialized w' = g_initialized w || (neoc_malloc_ok counter_struct_size && mutex_ok).
Proof.
  unfold neoc_neo_c_config_create. destruct (neoc_malloc_ok config_struct_size); [|done]. cbn [negb].
  destruct (neoc_malloc_ok 20); [|done]. cbn [negb]. destruct mainnet_resolver as (h & Eh & Hh). rewrite Eh, bind_lift. clear Eh.
  assert (exists w1, ensure_global_config mutex_ok w = (Ok tt, w1) /\
    g_initialized w1 = g_initialized w || (neoc_malloc_ok counter_struct_size && mutex_ok)) as (w1 & Ew & Hw).
  { unfold ensure_global_config, neoc_global_config_init, neoc_counter_create. destruct (g_initialized w) eqn:Ei; [by exists w|].
    destruct (_ && _); by eexists. }
  rewrite (bind_ok _ _ _ _ _ Ew). unfold ret. intros E. injection E as <- <-. split; [by exists h|done].
Qed.

(** A configuration with the default values has its intervals positive, its magic number not negative and a resolver of
    20 bytes, and keeps them so through every session of calls, none of which faults; creating it also initialises the
    global configuration. *)
Theorem config_stays_valid (mutex_ok : bool) (w w' : world) (c : neoc_neo_c_config_t) (ops : list config_op) :
  neoc_neo_c_config_create mutex_ok w = (Ok (Some c), w') -> Forall config_op_ok ops ->
  cf_max_valid_until_block_increment c = 5760 /\ cf_polling_interval c = cf_block_interval c /\
  g_initialized w' = g_initialized w || (neoc_malloc_ok counter_struct_size && mutex_ok) /\
  Forall (fun r => r <> Fault) (fst (config_session ops c)) /\ config_ok (snd (config_session ops c)).
Proof.
  intros Ec Hops. destruct (create_default _ _ _ _ Ec) as [(h & -> & Hh) Hw]. pose proof (default_config_ok h Hh) as Hc.
  split; [reflexivity|]. split; [reflexivity|]. split; [exact Hw|]. generalize (default_config h) Hc. clear - Hops. intros c Hc.
  split; revert c Hc.
  - induction Hops as [|op ops Ho _ IH]; intros c Hc; cbn [config_session]; [constructor|].
    destruct (exec_config_ok op c Ho Hc) as [Hf Hk]. destruct (exec_config_op op c) as [r c1]. cbn [fst snd] in *.
    specialize (IH c1 Hk). destruct (config_session ops c1). by constructor.
  - induction Hops as [|op ops Ho _ IH]; intros c Hc; cbn [config_session]; [done|].
    destruct (exec_config_ok op c Ho Hc) as [Hf Hk]. destruct (exec_config_op op c) as [r c1]. cbn [fst snd] in *.
    specialize (IH c1 Hk). by destruct (config_session ops c1).
Qed.
End Sessions.

(** ** Samples *)

Section Samples.
#[local] Existing Instance mib_heap.

(** Two threads that ask for three numbers, with steps between each other's, the first one still inside. *)
Definition two_threads : list (list counter_op) := [[OpGetAndIncrement; OpGetAndIncrement]; [OpGetAndIncrement]].
Definition two_schedule : list nat := [0; 1; 0; 1; 0; 1; 0; 1; 0; 1; 0; 1; 1; 1; 1; 0; 0]%nat.
Definition two_trace : list event := [(0%nat, OpGetAndIncrement, 1); (1%nat, OpGetAndIncrement, 2)].
Definition two_end : system := mk_system 3 (Some 0%nat) [mk_thread [] (HasRead 3) [1]; mk_thread [] Ready [2]].

Lemma two_reached : reaches (start two_threads) two_trace two_end.
Proof. apply (run_reaches _ two_schedule [] (start two_threads)); [constructor|]. vm_compute. reflexivity. Qed.

Lemma counter_linearizable_witness : sequential 1 two_trace 3.
Proof. exact (proj1 (counter_linearizable two_threads two_trace two_end two_reached)). Defined.

Lemma counter_never_stuck_witness : exists j, thread_step j two_end <> Blocked.
Proof.
  apply (counter_never_stuck two_threads two_trace two_end 0 (mk_thread [] (HasRead 3) [1]) two_reached); [reflexivity|by left].
Defined.

Lemma request_numbers_unique_witness : sy_value two_end = 1 + zlen two_trace /\ 1 ∉ [2].
Proof.
  destruct (request_numbers_unique two_threads two_trace two_end two_reached) as (E & _ & D); [by repeat constructor|].
  split; [exact E|]. apply (D 0%nat 1%nat (mk_thread [] (HasRead 3) [1]) (mk_thread [] Ready [2]) 1); [done|reflexivity|reflexivity|by constructor].
Defined.

Lemma global_config_lifecycle_witness :
  exists w w1, neoc_global_config_init true g_global_config = (Ok tt, w) /\ requests 3 w = (Ok [1; 2; 3], w1).
Proof.
  destruct (global_config_lifecycle 3) as (w & c & w1 & w2 & E & _ & _ & R & _); [by vm_compute|lia|].
  exists w, w1. split; [exact E|exact R].
Defined.

Definition sample_ops : list config_op := [CfPolling 0; CfMagic 860833102; CfBlock 3000; CfResolver None; CfAllow].

Lemma config_stays_valid_witness :
  exists c w, neoc_neo_c_config_create true g_global_config = (Ok (Some c), w) /\ config_ok (snd (config_session sample_ops c)).
Proof.
  eexists _, _. split; [vm_compute; reflexivity|].
  eapply (config_stays_valid true g_global_config _ _ sample_ops); [vm_compute; reflexivity|].
  repeat constructor; lia.
Defined.

(** The constructor with parameters checks none of them. *)
Example custom_unchecked :
  fst (neoc_neo_c_config_create_custom true (Some (-1)) 0 (-5) 0 false None g_global_config)
  = Ok (Some (mk_config (Some (-1)) 0 (-5) 0 false (cf_nns_resolver (mk_config None 0 0 0 false
      (match resolver_of NEOC_CONFIG_MAINNET_NNS_CONTRACT_HASH with Ok r => r | _ => None end))))).
Proof. vm_compute. reflexivity. Qed.

(** A counter at the largest [int] overflows at the next call. *)
Example counter_overflows :
  run [0; 0; 0; 0]%nat (mk_system (2 ^ 31 - 1) None [mk_thread [OpGetAndIncrement] Ready []]) = None.
Proof. vm_compute. reflexivity. Qed.
End Samples.
