(* ===== verification/Cjson.v ===== *)
(** * JSON trees, their text and the parser (third_party/cjson/cJSON.c)

    The library bundles this reimplementation of cJSON for systems without it.  A tree is a
    value of [cJSON]; a string of a tree is a C string.  Binary floating point and its
    conversions from and to text are the C library's: the class [Double] has them as
    parameters and [double_works] is what the code relies on.  A parsing function that returns
    NULL is [Err NEOC_ERROR_INVALID_FORMAT] here. *)

From S2P Require Import Prelude.
#[local] Open Scope Z_scope.

Class Double := {
  double : Type;
  (** [(double)i] *)
  double_of_Z : Z -> double;
  (** The integer part; [None] for what is not a finite number. *)
  double_trunc : double -> option Z;
  (** [fabs((double)i - d) <= DBL_EPSILON] *)
  double_near : Z -> double -> bool;
  (** [strtod(s, &endptr)]: the number and the text [endptr] points to; [None] when no number
      was read. *)
  strtod : list byte -> option (double * list byte);
  (** [snprintf(num, 64, "%.17g", d)] *)
  print_g17 : double -> list byte
}.

(** ["%d"] *)
Definition print_int (i : Z) : list byte := if i <? 0 then Byte.x2d :: print_decimal (- i) else print_decimal i.

(** What can follow a number in a text: nothing, a comma, a bracket or a line break. *)
Definition number_ends (rest : list byte) : Prop :=
  match rest with
  | [] => True
  | c :: _ => c = Byte.x2c \/ c = Byte.x5d \/ c = Byte.x7d \/ c = Byte.x0a
  end.

Record double_works `{Double} : Prop := {
  works_trunc i : - 2 ^ 53 <= i <= 2 ^ 53 -> double_trunc (double_of_Z i) = Some i;
  works_near i : - 2 ^ 31 <= i < 2 ^ 31 -> double_near i (double_of_Z i) = true;
  works_strtod i rest : - 2 ^ 31 <= i < 2 ^ 31 -> number_ends rest ->
    strtod (print_int i ++ rest) = Some (double_of_Z i, rest);
  works_endptr s d rest : strtod s = Some (d, rest) -> exists p, p <> [] /\ s = p ++ rest
}.

(** The two boolean types are one constructor; references and raw items are left out. *)
Inductive cJSON `{Double} : Type :=
| cJSON_NULL
| cJSON_Bool (b : bool)
| cJSON_Number (valuedouble : double)
| cJSON_String (valuestring : list byte)
| cJSON_Array (child : list cJSON)
| cJSON_Object (child : list (list byte * cJSON)).

(** [sizeof(cJSON)] *)
Definition cJSON_size : Z := 64.
Definition CJSON_NESTING_LIMIT : Z := 1024.

Section Operations.
Context `{Allocator} `{Double}.

(** [(int)d], which is undefined out of range. *)
Definition double_to_int (d : double) : res Z :=
  match double_trunc d with
  | Some i => if (- 2 ^ 31 <=? i) && (i <? 2 ^ 31) then Ok i else Fault
  | None => Fault
  end.

(** ** Parsing *)

Definition failed {A} : res A := Err NEOC_ERROR_INVALID_FORMAT.

Definition parse_number (input : list byte) : res (cJSON * list byte) :=
  match strtod input with
  | None => failed
  | Some (number, rest) => let? _ := double_to_int number in Ok (cJSON_Number number, rest)
  end.

Definition hex_digit (c : byte) : option Z :=
  let c := Z_of_byte c in
  if (48 <=? c) && (c <=? 57) then Some (c - 48)
  else if (97 <=? c) && (c <=? 102) then Some (c - 97 + 10)
  else if (65 <=? c) && (c <=? 70) then Some (c - 65 + 10)
  else None.

(** At most [n] digits. *)
Fixpoint parse_hex4 (n : nat) (input : list byte) (value : Z) : Z :=
  match n, input with
  | S n, c :: input =>
      match hex_digit c with
      | Some d => parse_hex4 n input (Z.lor (Z.shiftl value 4) d)
      | None => 0
      end
  | _, _ => value
  end.

(** The bytes of a code of a backslash-u escape. *)
Definition utf8 (uc : Z) : list byte :=
  if uc <? 0x80 then [byte_of_Z uc]
  else if uc <? 0x800 then
    [byte_of_Z (Z.lor 0xC0 (Z.shiftr uc 6)); byte_of_Z (Z.lor 0x80 (Z.land uc 0x3F))]
  else
    [byte_of_Z (Z.lor 0xE0 (Z.shiftr uc 12)); byte_of_Z (Z.lor 0x80 (Z.land (Z.shiftr uc 6) 0x3F));
     byte_of_Z (Z.lor 0x80 (Z.land uc 0x3F))].

(** What an escape other than backslash-u stands for. *)
Definition escaped_char (c : byte) : byte :=
  match Z_of_byte c with
  | 98 => Byte.x08 | 102 => Byte.x0c | 110 => Byte.x0a | 114 => Byte.x0d | 116 => Byte.x09
  | _ => c
  end.

(** The first pass: the number of characters up to the closing quote, an escape being one. *)
Fixpoint string_length (s : list byte) (length : Z) : option Z :=
  match s with
  | [] => None
  | c :: s =>
      if Z_of_byte c =? 34 then Some length
      else if Z_of_byte c =? 92 then
        match s with [] => None | _ :: s => string_length s (length + 1) end
      else string_length s (length + 1)
  end.

(** The second pass, which writes into a block with room for [room] more bytes and the NUL.  It
    does not stop at the end of the text when an escape is cut off. *)
Fixpoint unescape (s : list byte) (room : Z) : res (list byte * list byte) :=
  let emit bs k :=
    if room <? zlen bs then Fault
    else let? r := k (room - zlen bs) in Ok (bs ++ fst r, snd r) in
  match s with
  | [] => Fault
  | c :: s =>
      if Z_of_byte c =? 34 then Ok ([], s)
      else if Z_of_byte c =? 92 then
        match s with
        | [] => Fault
        | e :: s =>
            if Z_of_byte e =? 117 then
              emit (utf8 (parse_hex4 4 s 0))
                (match s with _ :: _ :: _ :: _ :: s => unescape s | _ => fun _ => Fault end)
            else emit [escaped_char e] (unescape s)
        end
      else emit [c] (unescape s)
  end.

(** The text of a string up to its first NUL, and what follows it. *)
Definition parse_string (input : list byte) : res (list byte * list byte) :=
  match input with
  | c :: input =>
      if negb (Z_of_byte c =? 34) then failed
      else
        match string_length input 0 with
        | None => failed
        | Some length =>
            if negb (malloc_ok (length + 1)) then failed
            else let? r := unescape input length in Ok (cstring (fst r), snd r)
        end
  | [] => failed
  end.

(** The items of an array from its first one on, for a parser of values; at most [fuel] of
    them. *)
Fixpoint parse_elements (parse : list byte -> res (cJSON * list byte)) (fuel : nat) (input : list byte)
  : res (list cJSON * list byte) :=
  match fuel with
  | O => Fault
  | S fuel =>
      if negb (malloc_ok cJSON_size) then failed
      else
        let? r := parse input in
        let input := skip_spaces (snd r) in
        match input with
        | c :: input =>
            if Z_of_byte c =? 44 then
              let? rs := parse_elements parse fuel (skip_spaces input) in Ok (fst r :: fst rs, snd rs)
            else if Z_of_byte c =? 93 then Ok ([fst r], input)
            else failed
        | [] => failed
        end
  end.

(** One member of an object. *)
Definition parse_member (parse : list byte -> res (cJSON * list byte)) (input : list byte)
  : res (list byte * cJSON * list byte) :=
  let? key := parse_string input in
  match skip_spaces (snd key) with
  | c :: input =>
      if Z_of_byte c =? 58 then
        let? r := parse (skip_spaces input) in Ok (fst key, fst r, snd r)
      else failed
  | [] => failed
  end.

Fixpoint parse_members (parse : list byte -> res (cJSON * list byte)) (fuel : nat) (input : list byte)
  : res (list (list byte * cJSON) * list byte) :=
  match fuel with
  | O => Fault
  | S fuel =>
      if negb (malloc_ok cJSON_size) then failed
      else
        let? m := parse_member parse input in
        match skip_spaces (snd m) with
        | c :: input =>
            if Z_of_byte c =? 44 then
              let? rs := parse_members parse fuel (skip_spaces input) in Ok (fst m :: fst rs, snd rs)
            else if Z_of_byte c =? 125 then Ok ([fst m], input)
            else failed
        | [] => failed
        end
  end.

Definition head_is (z : Z) (input : list byte) : bool :=
  match input with c :: _ => Z_of_byte c =? z | [] => false end.

(** Behind the opening bracket.  Every item takes a character, so that the fuel is enough. *)
Definition parse_array (parse : list byte -> res (cJSON * list byte)) (input : list byte)
  : res (cJSON * list byte) :=
  let first := skip_spaces input in
  if head_is 93 first then Ok (cJSON_Array [], drop 1 first)
  else let? r := parse_elements parse (S (length input)) first in Ok (cJSON_Array (fst r), snd r).

Definition parse_object (parse : list byte -> res (cJSON * list byte)) (input : list byte)
  : res (cJSON * list byte) :=
  let first := skip_spaces input in
  if head_is 125 first then Ok (cJSON_Object [], drop 1 first)
  else let? r := parse_members parse (S (length input)) first in Ok (cJSON_Object (fst r), snd r).

(** [levels] is [CJSON_NESTING_LIMIT + 1 - depth]. *)
Fixpoint parse_value (levels : nat) (input : list byte) : res (cJSON * list byte) :=
  match levels with
  | O => failed
  | S levels =>
      let input := skip_spaces input in
      match input with
      | [] => failed
      | c :: rest =>
          let z := Z_of_byte c in
          if z =? 34 then let? r := parse_string input in Ok (cJSON_String (fst r), snd r)
          else if z =? 123 then parse_object (parse_value levels) rest
          else if z =? 91 then parse_array (parse_value levels) rest
          else if (z =? 45) || ((48 <=? z) && (z <=? 57)) then parse_number input
          else if bool_decide (take 4 input = str "true") then Ok (cJSON_Bool true, drop 4 input)
          else if bool_decide (take 5 input = str "false") then Ok (cJSON_Bool false, drop 5 input)
          else if bool_decide (take 4 input = str "null") then Ok (cJSON_NULL, drop 4 input)
          else failed
      end
  end.

(** The tree and what follows it. *)
Definition cJSON_ParseWithOpts (require_null_terminated : bool) (value : option (list byte))
  : res (cJSON * list byte) :=
  match value with
  | None => failed
  | Some value =>
      if negb (malloc_ok cJSON_size) then failed
      else
        let? r := parse_value (Z.to_nat (CJSON_NESTING_LIMIT + 1)) value in
        let rest := skip_spaces (snd r) in
        if require_null_terminated && negb (zlen rest =? 0) then failed else Ok (fst r, rest)
  end.

(** What follows the value is ignored. *)
Definition cJSON_Parse (value : option (list byte)) : res cJSON :=
  let? r := cJSON_ParseWithOpts false value in Ok (fst r).

Definition cJSON_ParseWithLength (value : option (list byte)) (length : Z) : res cJSON :=
  let? r := cJSON_ParseWithOpts false value in
  match value with
  | Some value => if negb (zlen value - zlen (snd r) =? length) then failed else Ok (fst r)
  | None => failed
  end.

(** ** Printing *)

(** What has been printed, and the size of the block it is in. *)
Record print_buffer := mk_print_buffer { pb_text : list byte; pb_length : Z }.

Abbreviation Pr := (M print_buffer).

(** The doubling loop; the product is an [int]. *)
Fixpoint grow_to (fuel : nat) (new_length required : Z) : res Z :=
  if required <=? new_length then Ok new_length
  else
    match fuel with
    | O => Fault
    | S fuel => if 2 ^ 31 <=? 2 * new_length then Fault else grow_to fuel (2 * new_length) required
    end.

Definition cjson_ensure_capacity (required : Z) : Pr unit := fun b =>
  if 2 ^ 31 <=? required then (Fault, b)
  else if required <=? pb_length b then (Ok tt, b)
  else
    match grow_to 31 (if pb_length b =? 0 then 256 else pb_length b) required with
    | Ok new_length =>
        if negb (malloc_ok new_length) then (Err NEOC_ERROR_OUT_OF_MEMORY, b)
        else (Ok tt, mk_print_buffer (pb_text b) new_length)
    | Err e => (Err e, b)
    | Fault => (Fault, b)
    end.

Definition append_string (s : list byte) : Pr unit := fun b =>
  (do! cjson_ensure_capacity (zlen (pb_text b) + zlen s) in fun b =>
   (Ok tt, mk_print_buffer (pb_text b ++ s) (pb_length b))) b.

Definition append_char (c : byte) : Pr unit := append_string [c].

(** The hexadecimal digit of a number below 16. *)
Definition hex_char (d : Z) : byte := byte_of_Z (if d <? 10 then 48 + d else 87 + d).

(** What is printed for a character of a string.  The literal for a quote is the text of one
    backslash: the C compiler joins its two parts, the second of which is empty. *)
Definition quoted_char (c : byte) : list byte :=
  match Z_of_byte c with
  | 34 => [Byte.x5c]
  | 92 => [Byte.x5c; Byte.x5c]
  | 8 => [Byte.x5c; Byte.x62]
  | 12 => [Byte.x5c; Byte.x66]
  | 10 => [Byte.x5c; Byte.x6e]
  | 13 => [Byte.x5c; Byte.x72]
  | 9 => [Byte.x5c; Byte.x74]
  | z => if z <? 32 then [Byte.x5c; Byte.x75; Byte.x30; Byte.x30; hex_char (z / 16); hex_char (z mod 16)] else [c]
  end.

Fixpoint print_chars (s : list byte) : Pr unit :=
  match s with
  | [] => ret tt
  | c :: s => do! append_string (quoted_char c) in print_chars s
  end.

Definition print_quoted_string (s : list byte) : Pr unit :=
  do! append_char Byte.x22 in do! print_chars s in append_char Byte.x22.

Fixpoint print_tabs (n : nat) : Pr unit :=
  match n with O => ret tt | S n => do! append_char Byte.x09 in print_tabs n end.

(** A line break before the [depth]-th indentation when the text is formatted. *)
Definition indent (fmt : bool) (depth : nat) : Pr unit :=
  if fmt then do! append_char Byte.x0a in print_tabs depth else ret tt.

Definition print_number (d : double) : Pr unit := fun b =>
  match double_to_int d with
  | Ok valueint => append_string (if double_near valueint d then print_int valueint else print_g17 d) b
  | Err e => (Err e, b)
  | Fault => (Fault, b)
  end.

Section Children.
Variable print_value : cJSON -> Pr unit.
Variables (fmt : bool) (depth : nat).

Definition print_comma {A} (rest : list A) : Pr unit :=
  match rest with [] => ret tt | _ => append_char Byte.x2c end.

Fixpoint print_items (child : list cJSON) : Pr unit :=
  match child with
  | [] => ret tt
  | c :: rest =>
      do! indent fmt (S depth) in do! print_value c in do! print_comma rest in print_items rest
  end.

Definition print_array_internal (child : list cJSON) : Pr unit :=
  do! append_char Byte.x5b in
  do! (match child with [] => ret tt | _ => do! print_items child in indent fmt depth end) in
  append_char Byte.x5d.

Fixpoint print_members (child : list (list byte * cJSON)) : Pr unit :=
  match child with
  | [] => ret tt
  | m :: rest =>
      do! indent fmt (S depth) in do! print_quoted_string (fst m) in do! append_char Byte.x3a in
      do! (if fmt then append_char Byte.x20 else ret tt) in
      do! print_value (snd m) in do! print_comma rest in print_members rest
  end.

Definition print_object_internal (child : list (list byte * cJSON)) : Pr unit :=
  do! append_char Byte.x7b in
  do! (match child with [] => ret tt | _ => do! print_members child in indent fmt depth end) in
  append_char Byte.x7d.
End Children.

Fixpoint print_value_internal (item : cJSON) (depth : nat) (fmt : bool) : Pr unit :=
  match item with
  | cJSON_NULL => append_string (str "null")
  | cJSON_Bool b => append_string (if b then str "true" else str "false")
  | cJSON_Number d => print_number d
  | cJSON_String s => print_quoted_string s
  | cJSON_Array child => print_array_internal (fun c => print_value_internal c (S depth) fmt) fmt depth child
  | cJSON_Object child => print_object_internal (fun c => print_value_internal c (S depth) fmt) fmt depth child
  end.

(** [None] when no memory is left. *)
Definition print_internal (item : cJSON) (fmt : bool) : res (list byte) :=
  let m := do! print_value_internal item 0 fmt in fun b => cjson_ensure_capacity (zlen (pb_text b) + 1) b in
  match m (mk_print_buffer [] 0) with
  | (Ok _, b) => Ok (pb_text b)
  | (Err e, _) => Err e
  | (Fault, _) => Fault
  end.

Definition cJSON_Print (item : cJSON) : res (list byte) := print_internal item true.
Definition cJSON_PrintUnformatted (item : cJSON) : res (list byte) := print_internal item false.

(** ** Trees *)

(** [tolower] *)
Definition to_lower (c : byte) : byte :=
  if (65 <=? Z_of_byte c) && (Z_of_byte c <=? 90) then byte_of_Z (Z_of_byte c + 32) else c.

(** Zero exactly when the texts are equal up to case. *)
Fixpoint case_insensitive_compare (a b : list byte) : Z :=
  match a, b with
  | c :: a, d :: b =>
      if bool_decide (to_lower c = to_lower d) then case_insensitive_compare a b
      else swrap 8 (Z_of_byte (to_lower c)) - swrap 8 (Z_of_byte (to_lower d))
  | c :: _, [] => Z_of_byte c
  | [], d :: _ => - Z_of_byte d
  | [], [] => 0
  end.

(** The first member whose name satisfies [p]. *)
Definition list_find_member (p : list byte -> bool) (child : list (list byte * cJSON))
  : option (list byte * cJSON) :=
  List.find (fun m => p (fst m)) child.

Definition members_of (item : cJSON) : list (list byte * cJSON) :=
  match item with cJSON_Object child => child | _ => [] end.

(** This one compares with [strcmp]. *)
Definition cJSON_GetObjectItem (object : cJSON) (name : list byte) : option cJSON :=
  snd <$> list_find_member (fun key => bool_decide (key = name)) (members_of object).

(** This one ignores case, against its name. *)
Definition cJSON_GetObjectItemCaseSensitive (object : cJSON) (name : list byte) : option cJSON :=
  snd <$> list_find_member (fun key => case_insensitive_compare key name =? 0) (members_of object).

Definition cJSON_GetArraySize (array : cJSON) : Z :=
  match array with cJSON_Array child => zlen child | cJSON_Object child => zlen child | _ => 0 end.

Definition cJSON_GetArrayItem (array : cJSON) (index : Z) : option cJSON :=
  match array with
  | cJSON_Array child => child !! Z.to_nat index
  | cJSON_Object child => snd <$> child !! Z.to_nat index
  | _ => None
  end.

Definition cJSON_IsObject (item : cJSON) : bool := match item with cJSON_Object _ => true | _ => false end.
Definition cJSON_IsArray (item : cJSON) : bool := match item with cJSON_Array _ => true | _ => false end.

Definition cJSON_CreateString (s : list byte) : option cJSON :=
  if malloc_ok cJSON_size && malloc_ok (zlen s + 1) then Some (cJSON_String s) else None.
Definition cJSON_CreateBool (b : bool) : option cJSON := if malloc_ok cJSON_size then Some (cJSON_Bool b) else None.
Definition cJSON_CreateNumber (d : double) : res (option cJSON) :=
  if malloc_ok cJSON_size then let? _ := double_to_int d in Ok (Some (cJSON_Number d)) else Ok None.
Definition cJSON_CreateArray : option cJSON := if malloc_ok cJSON_size then Some (cJSON_Array []) else None.
Definition cJSON_CreateObject : option cJSON := if malloc_ok cJSON_size then Some (cJSON_Object []) else None.

(** The item is deleted when its name cannot be copied, and nobody is told.  Adding to what is
    neither an object nor an array is not modelled. *)
Definition cJSON_AddItemToObject (name : list byte) (item : cJSON) : M cJSON unit := fun object =>
  match object with
  | cJSON_Object child =>
      (Ok tt, if malloc_ok (zlen name + 1) then cJSON_Object (child ++ [(name, item)]) else object)
  | _ => (Fault, object)
  end.

Definition cJSON_AddItemToArray (item : cJSON) : M cJSON unit := fun array =>
  match array with
  | cJSON_Array child => (Ok tt, cJSON_Array (child ++ [item]))
  | _ => (Fault, array)
  end.
End Operations.

(** ** The text of a tree *)

(** A line break and [depth] tabs, in formatted text. *)
Definition white (fmt : bool) (depth : nat) : list byte :=
  if fmt then Byte.x0a :: replicate depth Byte.x09 else [].

Fixpoint comma_separated (parts : list (list byte)) : list byte :=
  match parts with
  | [] => []
  | [p] => p
  | p :: parts => p ++ Byte.x2c :: comma_separated parts
  end.

Definition quoted (s : list byte) : list byte := Byte.x22 :: concat (map quoted_char s) ++ [Byte.x22].

Section Text.
Context `{Allocator} `{Double}.

Definition number_text (d : double) : list byte :=
  match double_to_int d with
  | Ok i => if double_near i d then print_int i else print_g17 d
  | _ => []
  end.

Fixpoint render (fmt : bool) (depth : nat) (item : cJSON) : list byte :=
  match item with
  | cJSON_NULL => str "null"
  | cJSON_Bool b => if b then str "true" else str "false"
  | cJSON_Number d => number_text d
  | cJSON_String s => quoted s
  | cJSON_Array child =>
      Byte.x5b :: comma_separated (map (fun c => white fmt (S depth) ++ render fmt (S depth) c) child) ++
      (match child with [] => [] | _ => white fmt depth end) ++ [Byte.x5d]
  | cJSON_Object child =>
      Byte.x7b ::
      comma_separated (map (fun m => white fmt (S depth) ++ quoted (fst m) ++ Byte.x3a ::
        (if fmt then [Byte.x20] else []) ++ render fmt (S depth) (snd m)) child) ++
      (match child with [] => [] | _ => white fmt depth end) ++ [Byte.x7d]
  end.

(** How deep arrays and objects are nested. *)
Fixpoint height (item : cJSON) : nat :=
  match item with
  | cJSON_Array child => S (list_max (map height child))
  | cJSON_Object child => S (list_max (map (fun m => height (snd m)) child))
  | _ => O
  end.

(** A C string with no quote in it. *)
Definition json_text (s : list byte) : Prop := Forall (fun c => c <> Byte.x00 /\ c <> Byte.x22) s.

(** Strings and names are C strings without quotes, numbers are [int]s. *)
Fixpoint plain (item : cJSON) : Prop :=
  match item with
  | cJSON_Number d => exists i, - 2 ^ 31 <= i < 2 ^ 31 /\ d = double_of_Z i
  | cJSON_String s => json_text s
  | cJSON_Array child =>
      (fix all (child : list cJSON) : Prop :=
         match child with [] => True | c :: child => plain c /\ all child end) child
  | cJSON_Object child =>
      (fix all (child : list (list byte * cJSON)) : Prop :=
         match child with
         | [] => True
         | m :: child => (json_text (fst m) /\ plain (snd m)) /\ all child
         end) child
  | _ => True
  end.

Lemma plain_array child : plain (cJSON_Array child) <-> Forall plain child.
Proof.
  induction child as [|c child IH]; cbn in *; [by split|]. rewrite Forall_cons, IH. done.
Qed.

Lemma plain_object child :
  plain (cJSON_Object child) <-> Forall (fun m => json_text (fst m) /\ plain (snd m)) child.
Proof.
  induction child as [|c child IH]; cbn in *; [by split|]. rewrite Forall_cons, IH. done.
Qed.

Lemma cJSON_nested_ind (P : cJSON -> Prop) :
  P cJSON_NULL -> (forall b, P (cJSON_Bool b)) -> (forall d, P (cJSON_Number d)) -> (forall s, P (cJSON_String s)) ->
  (forall child, Forall P child -> P (cJSON_Array child)) ->
  (forall child, Forall (fun m => P (snd m)) child -> P (cJSON_Object child)) -> forall item, P item.
Proof.
  intros Hn Hb Hd Hs Ha Ho. fix F 1. intros [ |b|d|s|child|child]; [done|done|done|done| |].
  - apply Ha. induction child as [|c child IH]; constructor; [apply F|exact IH].
  - apply Ho. induction child as [|[k c] child IH]; constructor; [apply F|exact IH].
Qed.

(** ** Printing gives the text *)

Section Printing.
Variable limit : Z.
Hypothesis Hlimit : limit <= 2 ^ 29.
Hypothesis Hheap : heap_serves (2 * limit + 256).

(** A block of a size that doubling reaches. *)
Definition buffer_ok (b : print_buffer) : Prop := pb_length b = 0 \/ 256 <= pb_length b.

(** [m] prints [t] when there is room up to the limit. *)
Definition prints (m : M print_buffer unit) (t : list byte) : Prop :=
  forall b, buffer_ok b -> zlen (pb_text b) + zlen t <= limit ->
  exists n, m b = (Ok tt, mk_print_buffer (pb_text b ++ t) n) /\ (n = 0 \/ 256 <= n).

Lemma grow_to_ok fuel : forall n required,
  256 <= n -> required <= n * 2 ^ Z.of_nat fuel -> required <= 2 ^ 29 + 1 ->
  exists r, grow_to fuel n required = Ok r /\ required <= r /\ n <= r /\ (r = n \/ r <= 2 * required).
Proof.
  induction fuel as [|fuel IH]; intros n required Hn Hf Hr; cbn [grow_to].
  - change (2 ^ Z.of_nat 0) with 1 in Hf. cmps. exists n. split; [done|lia].
  - destruct (Z.leb_spec required n); [exists n; split; [done|lia]|]. cmps.
    destruct (IH (2 * n) required) as (r & -> & Hr1 & Hr2 & Hr3); [lia| |lia|].
    + rewrite Nat2Z.inj_succ, Z.pow_succ_r in Hf by lia. lia.
    + exists r. split; [done|]. lia.
Qed.

Lemma ensure_capacity_ok required b :
  buffer_ok b -> 0 <= required <= limit + 1 ->
  exists n, cjson_ensure_capacity required b = (Ok tt, mk_print_buffer (pb_text b) n) /\ (n = 0 \/ 256 <= n) /\
    (0 < required -> 256 <= n).
Proof.
  destruct b as [text n]. unfold buffer_ok, cjson_ensure_capacity. cbn [pb_length pb_text]. intros Hb Hr. cmps.
  destruct (Z.leb_spec required n) as [Hn|Hn].
  { exists n. split; [done|]. lia. }
  destruct (grow_to_ok 31 (if n =? 0 then 256 else n) required) as (r & -> & Hr1 & Hr2 & Hr3);
    [destruct (Z.eqb_spec n 0); lia|change (2 ^ Z.of_nat 31) with (2 ^ 31); destruct (Z.eqb_spec n 0); lia|lia|].
  assert (256 <= r <= 2 * limit + 256) as Hr4 by (destruct (Z.eqb_spec n 0); lia).
  rewrite Hheap by lia. exists r. split; [done|]. lia.
Qed.

Lemma prints_string s : prints (append_string s) s.
Proof.
  intros b Hb Hl. unfold append_string. pose proof (zlen_nonneg s). pose proof (zlen_nonneg (pb_text b)).
  destruct (ensure_capacity_ok (zlen (pb_text b) + zlen s) b Hb) as (n & E & Hn & _); [lia|].
  rewrite (bind_ok _ _ _ _ _ E). exists n. split; [done|]. exact Hn.
Qed.

Lemma prints_ret : prints (ret tt) [].
Proof. intros b Hb Hl. exists (pb_length b). rewrite app_nil_r. by destruct b. Qed.

Lemma prints_bind m k t u : prints m t -> prints k u -> prints (do! m in k) (t ++ u).
Proof.
  intros Hm Hk b Hb Hl. rewrite zlen_app in Hl. pose proof (zlen_nonneg u).
  destruct (Hm b Hb) as (n & E & Hn); [lia|]. rewrite (bind_ok _ _ _ _ _ E).
  destruct (Hk (mk_print_buffer (pb_text b ++ t) n)) as (n' & E' & Hn'); [done|cbn; rewrite zlen_app; lia|].
  exists n'. rewrite E'. cbn. by rewrite app_assoc.
Qed.

Lemma prints_eq m t u : prints m t -> t = u -> prints m u.
Proof. by intros Hm <-. Qed.

Lemma prints_quoted s : prints (print_quoted_string s) (quoted s).
Proof.
  unfold print_quoted_string, quoted, append_char. change (Byte.x22 :: ?x) with ([Byte.x22] ++ x).
  apply prints_bind; [apply prints_string|]. apply prints_bind; [|apply prints_string].
  induction s as [|c s IH]; [apply prints_ret|]. apply prints_bind; [apply prints_string|exact IH].
Qed.

Lemma prints_indent fmt depth : prints (indent fmt depth) (white fmt depth).
Proof.
  unfold indent, white. destruct fmt; [|apply prints_ret]. unfold append_char.
  change (Byte.x0a :: ?x) with ([Byte.x0a] ++ x). apply prints_bind; [apply prints_string|].
  induction depth as [|depth IH]; [apply prints_ret|]. cbn [print_tabs replicate]. unfold append_char.
  change (Byte.x09 :: ?x) with ([Byte.x09] ++ x). apply prints_bind; [apply prints_string|exact IH].
Qed.

(** The numbers of a plain tree convert. *)
Hypothesis Hd : double_works.

Lemma prints_number d : (exists i, - 2 ^ 31 <= i < 2 ^ 31 /\ d = double_of_Z i) -> prints (print_number d) (number_text d).
Proof.
  intros (i & Hi & ->) b Hb Hl. unfold print_number, number_text in *.
  assert (double_to_int (double_of_Z i) = Ok i) as E.
  { unfold double_to_int. rewrite (works_trunc Hd) by lia. by cmps. }
  rewrite E in *. by apply prints_string.
Qed.

Lemma prints_comma {A} (rest : list A) : prints (print_comma rest) (match rest with [] => [] | _ => [Byte.x2c] end).
Proof. destruct rest; [apply prints_ret|apply prints_string]. Qed.

Lemma prints_items pv fmt depth child (text : cJSON -> list byte) :
  Forall (fun c => prints (pv c) (text c)) child ->
  prints (print_items pv fmt depth child) (comma_separated (map (fun c => white fmt (S depth) ++ text c) child)).
Proof.
  induction 1 as [|c rest Hc _ IH]; [apply prints_ret|]. cbn [print_items map].
  eapply prints_eq; [apply prints_bind; [apply prints_indent|apply prints_bind; [exact Hc|]]|].
  - apply prints_bind; [apply prints_comma|exact IH].
  - destruct rest; cbn [comma_separated map app]; rewrite ?app_nil_r, <- ?app_assoc; done.
Qed.

Lemma prints_members pv fmt depth child (text : cJSON -> list byte) :
  Forall (fun m => prints (pv (snd m)) (text (snd m))) child ->
  prints (print_members pv fmt depth child)
    (comma_separated (map (fun m => white fmt (S depth) ++ quoted (fst m) ++ Byte.x3a ::
       (if fmt then [Byte.x20] else []) ++ text (snd m)) child)).
Proof.
  induction 1 as [|m rest Hm _ IH]; [apply prints_ret|]. cbn [print_members map].
  eapply prints_eq; [apply prints_bind; [apply prints_indent|apply prints_bind; [apply prints_quoted|]]|].
  - apply prints_bind; [apply prints_string|]. apply prints_bind.
    { instantiate (1 := if fmt then [Byte.x20] else []). destruct fmt; [apply prints_string|apply prints_ret]. }
    apply prints_bind; [exact Hm|]. apply prints_bind; [apply prints_comma|exact IH].
  - destruct rest; cbn [comma_separated map app]; rewrite ?app_nil_r, <- ?app_assoc; cbn [app];
      rewrite <- ?app_assoc; done.
Qed.

Lemma prints_value fmt item : forall depth, plain item -> prints (print_value_internal item depth fmt) (render fmt depth item).
Proof.
  induction item as [ |b|d|s|child IH|child IH] using cJSON_nested_ind; intros depth Hp; cbn [print_value_internal render].
  - apply prints_string.
  - apply prints_string.
  - by apply prints_number.
  - apply prints_quoted.
  - apply (prints_bind _ _ [Byte.x5b]); [apply prints_string|]. apply plain_array in Hp. rewrite app_assoc.
    apply prints_bind; [|apply prints_string]. destruct child as [|c child]; [apply prints_ret|].
    apply prints_bind; [|apply prints_indent]. apply prints_items. apply Forall_forall. intros x Hx.
    rewrite Forall_forall in IH, Hp. by apply IH, Hp.
  - apply (prints_bind _ _ [Byte.x7b]); [apply prints_string|]. apply plain_object in Hp. rewrite app_assoc.
    apply prints_bind; [|apply prints_string]. destruct child as [|c child]; [apply prints_ret|].
    apply prints_bind; [|apply prints_indent]. apply (prints_members _ _ _ _ (render fmt (S depth))).
    apply Forall_forall. intros x Hx. rewrite Forall_forall in IH, Hp. by apply IH, Hp.
Qed.

Lemma print_internal_ok item fmt :
  plain item -> zlen (render fmt 0 item) <= limit -> print_internal item fmt = Ok (render fmt 0 item).
Proof.
  intros Hp Hl. unfold print_internal. cbv zeta.
  destruct (prints_value fmt item 0 Hp (mk_print_buffer [] 0)) as (n & E & Hn); [by left|done|].
  rewrite (bind_ok _ _ _ _ _ E). cbn [pb_text app].
  destruct (ensure_capacity_ok (zlen (render fmt 0 item) + 1) (mk_print_buffer (render fmt 0 item) n)) as (n' & -> & _);
    [exact Hn|pose proof (zlen_nonneg (render fmt 0 item)); lia|done].
Qed.
End Printing.

(** ** The parser reads the text back *)

Lemma skip_spaces_white w rest : forallb is_space w = true -> skip_spaces (w ++ rest) = skip_spaces rest.
Proof. induction w as [|c w IH]; cbn; [done|]. destruct (is_space c); [done|discriminate]. Qed.

Lemma skip_spaces_idem s : skip_spaces (skip_spaces s) = skip_spaces s.
Proof. induction s as [|c s IH]; [done|]. cbn. destruct (is_space c) eqn:E; [done|]. cbn. by rewrite E. Qed.

Lemma skip_spaces_head c s : is_space c = false -> skip_spaces (c :: s) = c :: s.
Proof. intros E. cbn. by rewrite E. Qed.

Lemma skip_spaces_quoted s t : skip_spaces (quoted s ++ t) = quoted s ++ t.
Proof. done. Qed.

Lemma white_spaces fmt depth : forallb is_space (white fmt depth) = true.
Proof. destruct fmt; [|done]. cbn. induction depth; done. Qed.

(** One character of a printed string under the two passes. *)
Lemma string_length_char c t n : c <> Byte.x22 -> exists m, string_length (quoted_char c ++ t) n = string_length t m /\ n < m <= n + zlen (quoted_char c).
Proof. intros Hq. destruct c; try (by destruct Hq); (eexists; split; [reflexivity|]); change (zlen (quoted_char _)) with 1 || change (zlen (quoted_char _)) with 2 || change (zlen (quoted_char _)) with 6; lia. Qed.

Lemma unescape_char c t room :
  c <> Byte.x22 -> 1 <= room -> unescape (quoted_char c ++ t) room = let? r := unescape t (room - 1) in Ok (c :: fst r, snd r).
Proof.
  intros Hq Hr. assert ((room <? 1) = false) as E by lia.
  destruct c; try (by destruct Hq); cbn;
    try (match goal with |- context [utf8 ?x] => let v := eval vm_compute in (utf8 x) in change (utf8 x) with v end);
    change (zlen [_]) with 1; rewrite E; reflexivity.
Qed.

Lemma parse_quoted_passes s rest : json_text s ->
  forall n, exists m, string_length (concat (map quoted_char s) ++ Byte.x22 :: rest) n = Some m /\
    n + zlen s <= m <= n + zlen (concat (map quoted_char s)).
Proof.
  induction 1 as [|c s [_ Hc] _ IH]; intros n; cbn [map concat app].
  - exists n. split; [done|]. change (zlen (@nil byte)) with 0. lia.
  - rewrite <- app_assoc. destruct (string_length_char c (concat (map quoted_char s) ++ Byte.x22 :: rest) n Hc) as (m & -> & Hm).
    destruct (IH m) as (m' & -> & Hm'). exists m'. split; [done|]. rewrite zlen_cons, zlen_app. lia.
Qed.

Lemma unescape_quoted s rest : json_text s -> forall room, zlen s <= room ->
  unescape (concat (map quoted_char s) ++ Byte.x22 :: rest) room = Ok (s, rest).
Proof.
  induction 1 as [|c s [_ Hc] _ IH]; intros room Hr; cbn [map concat app]; [done|]. rewrite zlen_cons in Hr.
  pose proof (zlen_nonneg s). rewrite <- app_assoc, unescape_char by (done || lia). rewrite IH by lia. done.
Qed.

Section Parsing.
Variable limit : Z.
Hypothesis Hheap : heap_serves limit.
Hypothesis Hnode : cJSON_size <= limit.
Hypothesis Hd : double_works.

Lemma parse_string_quoted s rest :
  json_text s -> zlen (quoted s) <= limit -> parse_string (quoted s ++ rest) = Ok (s, rest).
Proof.
  intros Hs Hl. unfold quoted in *. cbn [app parse_string]. change (Z_of_byte Byte.x22) with 34. cbn [Z.eqb Pos.eqb negb].
  rewrite <- app_assoc. cbn [app]. destruct (parse_quoted_passes s rest Hs 0) as (m & -> & Hm).
  rewrite zlen_cons, zlen_app in Hl. change (zlen [Byte.x22]) with 1 in Hl. pose proof (zlen_nonneg s).
  rewrite Hheap by lia. cbn [negb]. rewrite unescape_quoted by (done || lia). cbn [rbind fst snd].
  f_equal. f_equal. clear - Hs. induction Hs as [|c s [Hc _] _ IH]; [done|]. cbn [cstring].
  destruct (Z.eqb_spec (Z_of_byte c) 0) as [E|_]; [|by rewrite IH]. destruct Hc. by apply Z_of_byte_inj.
Qed.

(** What can follow a value. *)
Definition ends (rest : list byte) : Prop := number_ends rest.

Definition reads (parse : list byte -> res (cJSON * list byte)) (t : list byte) (c : cJSON) : Prop :=
  forall rest, ends rest -> parse (t ++ rest) = Ok (c, rest).

Lemma parse_value_skip levels s : parse_value levels (skip_spaces s) = parse_value levels s.
Proof. destruct levels; [done|]. cbn [parse_value]. by rewrite skip_spaces_idem. Qed.

Lemma parse_value_white levels w s : forallb is_space w = true -> parse_value levels (w ++ s) = parse_value levels s.
Proof. intros Hw. by rewrite <- parse_value_skip, skip_spaces_white, parse_value_skip. Qed.

Lemma ends_white fmt depth rest : ends rest -> ends (white fmt depth ++ rest).
Proof. destruct fmt; [|done]. intros _. cbn. tauto. Qed.

Lemma ends_closing fmt depth c rest : c = Byte.x5d \/ c = Byte.x7d -> ends (white fmt depth ++ c :: rest).
Proof. intros Hc. apply ends_white. cbn. tauto. Qed.

(** The items of an array, each with white space in front, and the closing bracket. *)
Lemma parse_elements_text levels fmt depth (text : cJSON -> list byte) rest : forall child c fuel,
  Forall (fun c => reads (parse_value levels) (text c) c) (c :: child) -> (length child < fuel)%nat ->
  parse_elements (parse_value levels) fuel
    (skip_spaces (comma_separated (map (fun c => white fmt (S depth) ++ text c) (c :: child)) ++ white fmt depth ++ Byte.x5d :: rest))
  = Ok (c :: child, rest).
Proof.
  induction child as [|c' child IH]; intros c fuel Hc Hf; destruct fuel as [|fuel]; try (cbn in Hf; lia);
    inversion_clear Hc as [|? ? Hc1 Hc2]; cbn [parse_elements]; rewrite Hheap by (unfold cJSON_size in *; lia); cbn [negb];
    rewrite parse_value_skip.
  - cbn [map comma_separated]. rewrite <- app_assoc, parse_value_white by apply white_spaces.
    rewrite (Hc1 (white fmt depth ++ Byte.x5d :: rest)) by (apply ends_closing; by left). cbn [rbind fst snd].
    rewrite skip_spaces_white by apply white_spaces. done.
  - change (map ?f (c :: c' :: child)) with (f c :: map f (c' :: child)).
    change (comma_separated (?p :: map ?f (c' :: child))) with (p ++ Byte.x2c :: comma_separated (map f (c' :: child))).
    rewrite <- !app_assoc. rewrite parse_value_white by apply white_spaces. cbn [app].
    rewrite Hc1 by (cbn; tauto). cbn [rbind fst snd]. rewrite skip_spaces_head by done.
    change (Z_of_byte Byte.x2c =? 44) with true. cbn iota. rewrite IH; [done|done|cbn in Hf; lia].
Qed.

Lemma parse_members_text levels fmt depth (text : cJSON -> list byte) rest : forall child m fuel,
  Forall (fun m => json_text (fst m) /\ zlen (quoted (fst m)) <= limit /\
                   reads (parse_value levels) (text (snd m)) (snd m)) (m :: child) -> (length child < fuel)%nat ->
  parse_members (parse_value levels) fuel
    (skip_spaces (comma_separated (map (fun m => white fmt (S depth) ++ quoted (fst m) ++ Byte.x3a ::
       (if fmt then [Byte.x20] else []) ++ text (snd m)) (m :: child)) ++ white fmt depth ++ Byte.x7d :: rest))
  = Ok (m :: child, rest).
Proof.
  assert (forall m rest', json_text (fst m) -> zlen (quoted (fst m)) <= limit ->
    reads (parse_value levels) (text (snd m)) (snd m) -> ends rest' ->
    parse_member (parse_value levels) (skip_spaces (white fmt (S depth) ++ quoted (fst m) ++ Byte.x3a ::
      (if fmt then [Byte.x20] else []) ++ text (snd m) ++ rest')) = Ok (m, rest')) as Hmember.
  { intros m rest' Hn Hl Ht He. rewrite skip_spaces_white by apply white_spaces.
    rewrite skip_spaces_quoted. unfold parse_member.
    rewrite parse_string_quoted by done. cbn [rbind fst snd]. rewrite skip_spaces_head by done.
    change (Z_of_byte Byte.x3a =? 58) with true. cbn iota. rewrite parse_value_skip, parse_value_white by (by destruct fmt).
    rewrite Ht by done. cbn. by destruct m. }
  induction child as [|m' child IH]; intros m fuel Hm Hf; destruct fuel as [|fuel]; try (cbn in Hf; lia);
    inversion_clear Hm as [|? ? Hm1 Hm2]; destruct Hm1 as (Hm1 & Hm3 & Hm4); cbn [parse_members];
    rewrite Hheap by (unfold cJSON_size in *; lia); cbn [negb].
  - cbn [map comma_separated]. repeat rewrite <- app_assoc; cbn [app]; rewrite <- app_assoc.
    rewrite Hmember by (try done; apply ends_closing; by right). cbn [rbind fst snd].
    rewrite skip_spaces_white by apply white_spaces. done.
  - change (map ?f (m :: m' :: child)) with (f m :: map f (m' :: child)).
    change (comma_separated (?p :: map ?f (m' :: child))) with (p ++ Byte.x2c :: comma_separated (map f (m' :: child))).
    repeat rewrite <- app_assoc; cbn [app]; rewrite <- !app_assoc. rewrite Hmember by (try done; cbn; tauto).
    cbn [rbind fst snd app]. rewrite skip_spaces_head by done.
    change (Z_of_byte Byte.x2c =? 44) with true. cbn iota. rewrite IH; [done|done|cbn in Hf; lia].
Qed.

Lemma comma_separated_count parts : (length parts <= S (length (comma_separated parts)))%nat.
Proof.
  induction parts as [|p [|q parts] IH]; [cbn; lia|cbn; lia|].
  change (comma_separated (p :: q :: parts)) with (p ++ Byte.x2c :: comma_separated (q :: parts)).
  rewrite length_app. cbn [length] in *. lia.
Qed.

Lemma comma_separated_part p parts : In p parts -> zlen p <= zlen (comma_separated parts).
Proof.
  induction parts as [|q [|r parts] IH]; [done| |].
  - intros [->|[]]. cbn. lia.
  - change (comma_separated (q :: r :: parts)) with (q ++ Byte.x2c :: comma_separated (r :: parts)).
    rewrite zlen_app, zlen_cons. pose proof (zlen_nonneg q). pose proof (zlen_nonneg (comma_separated (r :: parts))).
    intros [->|Hp]; [lia|]. specialize (IH Hp). lia.
Qed.

(** What is printed for a value starts with one of its own characters. *)
Lemma print_int_head i : - 2 ^ 31 <= i < 2 ^ 31 -> exists c t, print_int i = c :: t /\ is_space c = false /\
  Z_of_byte c <> 34 /\ Z_of_byte c <> 123 /\ Z_of_byte c <> 91 /\ (Z_of_byte c = 45 \/ 48 <= Z_of_byte c <= 57).
Proof.
  intros Hi. unfold print_int. destruct (Z.ltb_spec i 0).
  - eexists _, _. split; [done|]. change (Z_of_byte Byte.x2d) with 45. split; [done|lia].
  - pose proof (decimal_digits_chars 20 i) as Hc. pose proof (print_decimal_nonempty i) as Hne.
    unfold print_decimal in *. destruct (decimal_digits 20 i) as [|c t]; [done|]. inversion_clear Hc.
    exists c, t. split; [done|]. unfold is_space. cmps. split; [done|lia].
Qed.

Lemma number_text_int i : - 2 ^ 31 <= i < 2 ^ 31 -> number_text (double_of_Z i) = print_int i.
Proof.
  intros Hi. unfold number_text, double_to_int. rewrite (works_trunc Hd) by lia. cmps. by rewrite (works_near Hd) by lia.
Qed.

Lemma render_head fmt depth item : plain item -> exists c t, render fmt depth item = c :: t /\ is_space c = false /\
  Z_of_byte c <> 93 /\ Z_of_byte c <> 125.
Proof.
  destruct item as [ |b|d|s|child|child]; cbn [render plain]; try (by eexists _, _).
  - intros _. destruct b; by eexists _, _.
  - intros (i & Hi & ->). rewrite number_text_int by done. destruct (print_int_head i Hi) as (c & t & -> & Hs & Hc).
    exists c, t. split; [done|]. split; [done|lia].
Qed.

(** The first character behind the white space of the first part. *)
Lemma skip_to_first w h t parts rest : forallb is_space w = true -> is_space h = false ->
  exists u, skip_spaces (comma_separated ((w ++ h :: t) :: parts) ++ rest) = h :: u.
Proof.
  intros Hw Hh. destruct parts as [|p parts]; cbn [comma_separated]; rewrite <- ?app_assoc;
    rewrite skip_spaces_white by done; cbn [app]; rewrite skip_spaces_head by done; by eexists.
Qed.

Lemma reads_array fmt depth levels child :
  Forall plain child -> Forall (fun c => reads (parse_value levels) (render fmt (S depth) c) c) child ->
  reads (parse_value (S levels)) (render fmt depth (cJSON_Array child)) (cJSON_Array child).
Proof.
  intros Hp Hc rest He. cbn [parse_value render app]. rewrite skip_spaces_head by done.
  change (Z_of_byte Byte.x5b) with 91. cbn [Z.eqb Pos.eqb]. unfold parse_array. cbv zeta.
  destruct child as [|c child]; [done|]. rewrite <- !app_assoc. cbn [app].
  assert (exists h u, skip_spaces (comma_separated (map (fun c => white fmt (S depth) ++ render fmt (S depth) c) (c :: child)) ++
            white fmt depth ++ Byte.x5d :: rest) = h :: u /\ Z_of_byte h <> 93) as (h & u & Es & Hh).
  { inversion_clear Hp as [|? ? Hp1 _]. destruct (render_head fmt (S depth) c Hp1) as (h & t & E & Hs & H93 & _).
    cbn [map]. rewrite E. destruct (skip_to_first (white fmt (S depth)) h t
      (map (fun c => white fmt (S depth) ++ render fmt (S depth) c) child) (white fmt depth ++ Byte.x5d :: rest)) as [u Eu];
      [apply white_spaces|done|]. exists h, u. by split. }
  assert (head_is 93 (skip_spaces (comma_separated (map (fun c => white fmt (S depth) ++ render fmt (S depth) c) (c :: child)) ++
            white fmt depth ++ Byte.x5d :: rest)) = false) as -> by (rewrite Es; cbn; lia).
  rewrite (parse_elements_text levels fmt depth (render fmt (S depth))); [done|done|]. rewrite length_app.
  pose proof (comma_separated_count (map (fun c => white fmt (S depth) ++ render fmt (S depth) c) (c :: child))) as Hcount.
  rewrite length_map in Hcount. cbn [length] in Hcount. lia.
Qed.

Definition member_text (fmt : bool) (depth : nat) (m : list byte * cJSON) : list byte :=
  white fmt (S depth) ++ quoted (fst m) ++ Byte.x3a :: (if fmt then [Byte.x20] else []) ++ render fmt (S depth) (snd m).

Lemma reads_object fmt depth levels child :
  Forall (fun m => json_text (fst m) /\ zlen (quoted (fst m)) <= limit /\
                   reads (parse_value levels) (render fmt (S depth) (snd m)) (snd m)) child ->
  reads (parse_value (S levels)) (render fmt depth (cJSON_Object child)) (cJSON_Object child).
Proof.
  intros Hc rest He. cbn [parse_value render app]. rewrite skip_spaces_head by done.
  change (Z_of_byte Byte.x7b) with 123. cbn [Z.eqb Pos.eqb]. unfold parse_object. cbv zeta.
  destruct child as [|m child]; [done|]. rewrite <- !app_assoc. cbn [app].
  fold (member_text fmt depth).
  assert (exists u, skip_spaces (comma_separated (map (member_text fmt depth) (m :: child)) ++
            white fmt depth ++ Byte.x7d :: rest) = Byte.x22 :: u) as [u Es].
  { cbn [map]. unfold member_text at 1, quoted. cbn [app]. apply skip_to_first; [apply white_spaces|done]. }
  assert (head_is 125 (skip_spaces (comma_separated (map (member_text fmt depth) (m :: child)) ++
            white fmt depth ++ Byte.x7d :: rest)) = false) as -> by (by rewrite Es).
  unfold member_text. rewrite (parse_members_text levels fmt depth (render fmt (S depth))); [done|done|].
  rewrite length_app. fold (member_text fmt depth).
  pose proof (comma_separated_count (map (member_text fmt depth) (m :: child))) as Hcount.
  rewrite length_map in Hcount. cbn [length] in Hcount. lia.
Qed.

(** A child is less deep than its parent and has the shorter text. *)
Lemma height_child {A} (f : A -> nat) x l : x ∈ l -> (f x <= list_max (map f l))%nat.
Proof.
  intros Hx. assert (list_max (map f l) <= list_max (map f l))%nat as Hm by done. apply list_max_le in Hm.
  rewrite Forall_forall in Hm. apply Hm, list_elem_of_In, in_map, list_elem_of_In, Hx.
Qed.

Lemma array_child_fits fmt depth child c :
  c ∈ child -> zlen (render fmt (S depth) c) <= zlen (render fmt depth (cJSON_Array child)).
Proof.
  intros Hc. cbn [render]. rewrite zlen_cons, !zlen_app.
  pose proof (comma_separated_part _ _ (in_map (fun c => white fmt (S depth) ++ render fmt (S depth) c) _ _
    (proj1 (list_elem_of_In _ _) Hc))) as Hb. rewrite zlen_app in Hb.
  pose proof (zlen_nonneg (white fmt (S depth))). pose proof (zlen_nonneg (match child with [] => [] | _ => white fmt depth end)).
  pose proof (zlen_nonneg [Byte.x5d]). lia.
Qed.

Lemma object_child_fits fmt depth child m :
  m ∈ child -> zlen (quoted (fst m)) + zlen (render fmt (S depth) (snd m)) <= zlen (render fmt depth (cJSON_Object child)).
Proof.
  intros Hc. cbn [render]. rewrite zlen_cons, !zlen_app. fold (member_text fmt depth).
  pose proof (comma_separated_part _ _ (in_map (member_text fmt depth) _ _ (proj1 (list_elem_of_In _ _) Hc))) as Hb.
  unfold member_text at 1 in Hb. rewrite !zlen_app, zlen_cons, zlen_app in Hb.
  pose proof (zlen_nonneg (white fmt (S depth))). pose proof (zlen_nonneg (match child with [] => [] | _ => white fmt depth end)).
  pose proof (zlen_nonneg [Byte.x7d]). pose proof (zlen_nonneg (if fmt then [Byte.x20] else [])). lia.
Qed.

Lemma parse_value_reads fmt item : forall levels depth,
  plain item -> (height item < levels)%nat -> zlen (render fmt depth item) <= limit ->
  reads (parse_value levels) (render fmt depth item) item.
Proof.
  induction item as [ |b|d|s|child IH|child IH] using cJSON_nested_ind; intros levels depth Hp Hh Hl;
    (destruct levels as [|levels]; [lia|]).
  - done.
  - by destruct b.
  - destruct Hp as (i & Hi & ->). intros rest He. cbn [render parse_value]. rewrite number_text_int by done.
    destruct (print_int_head i Hi) as (c & t & E & Hs & Hc). pose proof (works_strtod Hd i rest Hi He) as Hst.
    rewrite E in *. cbn [app] in *. rewrite skip_spaces_head by done.
    replace (Z_of_byte c =? 34) with false by lia. replace (Z_of_byte c =? 123) with false by lia.
    replace (Z_of_byte c =? 91) with false by lia.
    replace ((Z_of_byte c =? 45) || (48 <=? Z_of_byte c) && (Z_of_byte c <=? 57)) with true by lia.
    unfold parse_number. rewrite Hst. unfold double_to_int. rewrite (works_trunc Hd) by lia. by cmps.
  - intros rest He. cbn [render plain parse_value] in *. rewrite skip_spaces_quoted.
    pose proof (parse_string_quoted s rest Hp Hl) as E. unfold quoted in *. cbn [app] in *.
    change (Z_of_byte Byte.x22 =? 34) with true. cbn iota. by rewrite E.
  - apply plain_array in Hp. apply reads_array; [done|]. rewrite Forall_forall in IH, Hp. apply Forall_forall. intros x Hx.
    cbn [height] in Hh. pose proof (height_child height x child Hx). pose proof (array_child_fits fmt depth child x Hx).
    apply IH; [done|by apply Hp|lia|lia].
  - apply plain_object in Hp. apply reads_object. rewrite Forall_forall in IH, Hp. apply Forall_forall. intros m Hm.
    cbn [height] in Hh. pose proof (height_child (fun m => height (snd m)) m child Hm). destruct (Hp m Hm) as [Hp1 Hp2].
    pose proof (object_child_fits fmt depth child m Hm) as Hf. pose proof (zlen_nonneg (quoted (fst m))).
    pose proof (zlen_nonneg (render fmt (S depth) (snd m))). split; [done|]. split; [lia|]. apply IH; [done|done|lia|lia].
Qed.
End Parsing.

Lemma print_parse item fmt :
  double_works -> plain item -> (height item <= 1024)%nat -> zlen (render fmt 0 item) <= 2 ^ 29 ->
  heap_serves (2 * zlen (render fmt 0 item) + 256) ->
  exists text, print_internal item fmt = Ok text /\ cJSON_Parse (Some text) = Ok item /\ text = render fmt 0 item.
Proof.
  intros Hd Hp Hh Hl Hs. pose proof (zlen_nonneg (render fmt 0 item)). exists (render fmt 0 item). split; [|split; [|done]].
  - by apply (print_internal_ok (zlen (render fmt 0 item))).
  - unfold cJSON_Parse, cJSON_ParseWithOpts. rewrite Hs by (unfold cJSON_size; lia). cbn [negb].
    pose proof (parse_value_reads (2 * zlen (render fmt 0 item) + 256) Hs ltac:(unfold cJSON_size; lia) Hd fmt item
      (Z.to_nat (CJSON_NESTING_LIMIT + 1)) 0 Hp ltac:(unfold CJSON_NESTING_LIMIT; lia) ltac:(lia) [] I) as E.
    rewrite app_nil_r in E. by rewrite E.
Qed.

(** C33.  Every tree of texts without quotes, [int]s, booleans, nulls, arrays and objects of at
    most 1024 levels is printed, formatted or not, and the printed text parses to the same
    tree.  A quote inside a text is printed as a lone backslash and is not read back, as
    [quote_is_lost] and [quote_ends_nothing] show, so that texts and names with quotes are left
    out. *)
Theorem json_roundtrip item fmt :
  double_works -> plain item -> (height item <= 1024)%nat -> zlen (render fmt 0 item) <= 2 ^ 29 ->
  heap_serves (2 * zlen (render fmt 0 item) + 256) ->
  exists text, print_internal item fmt = Ok text /\ cJSON_Parse (Some text) = Ok item.
Proof.
  intros Hd Hp Hh Hl Hs. destruct (print_parse item fmt Hd Hp Hh Hl Hs) as (text & E & Ep & _). by exists text.
Qed.

(** ** Any text *)

Definition suffix_of (r s : list byte) : Prop := exists p, s = p ++ r.
Definition proper_suffix (r s : list byte) : Prop := exists p, p <> [] /\ s = p ++ r.

Lemma suffix_trans a b c : suffix_of a b -> suffix_of b c -> suffix_of a c.
Proof. intros [p ->] [q ->]. exists (q ++ p). by rewrite app_assoc. Qed.

Lemma proper_suffix_trans_l a b c : proper_suffix a b -> suffix_of b c -> proper_suffix a c.
Proof. intros (p & Hp & ->) [q ->]. exists (q ++ p). split; [by destruct q|by rewrite app_assoc]. Qed.

Lemma proper_suffix_trans_r a b c : suffix_of a b -> proper_suffix b c -> proper_suffix a c.
Proof. intros [p ->] (q & Hq & ->). exists (q ++ p). split; [by destruct q|by rewrite app_assoc]. Qed.

Lemma proper_suffix_of a b : proper_suffix a b -> suffix_of a b.
Proof. intros (p & _ & ->). by exists p. Qed.

Lemma proper_suffix_length a b : proper_suffix a b -> (length a < length b)%nat.
Proof. intros (p & Hp & ->). rewrite length_app. destruct p; [done|]. cbn. lia. Qed.

Lemma skip_spaces_suffix s : suffix_of (skip_spaces s) s.
Proof.
  induction s as [|c s [p IH]]; [by exists []|]. cbn [skip_spaces]. destruct (is_space c); [|by exists []].
  exists (c :: p). cbn. by rewrite <- IH.
Qed.

Lemma suffix_tail c s r : c :: s = r -> proper_suffix s r.
Proof. intros <-. by exists [c]. Qed.

(** *** The words of a text

    Behind an opening quote: what follows the closing quote, an escaped character being skipped;
    [None] when no quote closes the string. *)
Fixpoint behind_string (s : list byte) : option (list byte) :=
  match s with
  | [] => None
  | c :: s =>
      if Z_of_byte c =? 34 then Some s
      else if Z_of_byte c =? 92 then match s with [] => None | _ :: s => behind_string s end
      else behind_string s
  end.

Definition four_digits (s : list byte) : bool :=
  (4 <=? length s)%nat && forallb (fun d => bool_decide (is_Some (hex_digit d))) (take 4 s).

(** Behind an opening quote, up to the closing one: every backslash-u escape has its four
    hexadecimal digits.  A u behind an escaped backslash is no escape. *)
Fixpoint escapes_complete (s : list byte) : bool :=
  match s with
  | [] => true
  | c :: s =>
      if Z_of_byte c =? 34 then true
      else if Z_of_byte c =? 92 then
        match s with
        | [] => true
        | e :: s => (if Z_of_byte e =? 117 then four_digits s else true) && escapes_complete s
        end
      else escapes_complete s
  end.

Definition number_starts (c : byte) : bool :=
  (Z_of_byte c =? 45) || ((48 <=? Z_of_byte c) && (Z_of_byte c <=? 57)).

(** Brackets, braces, comma, colon and white space. *)
Definition separator (c : byte) : bool :=
  is_space c || existsb (Z.eqb (Z_of_byte c)) [91; 93; 123; 125; 44; 58].

(** What follows the literal the text starts with. *)
Definition behind_literal (s : list byte) : option (list byte) :=
  if bool_decide (take 4 s = str "true") then Some (drop 4 s)
  else if bool_decide (take 5 s = str "false") then Some (drop 5 s)
  else if bool_decide (take 4 s = str "null") then Some (drop 4 s)
  else None.

(** The words of a text from left to right: each string that is closed has complete escapes and
    each number fits an [int] when its fraction is dropped.  Nothing is asked behind the first
    character that starts no word. *)
Fixpoint words_ok (fuel : nat) (s : list byte) : bool :=
  match fuel, s with
  | O, _ | _, [] => true
  | S fuel, c :: t =>
      if Z_of_byte c =? 34 then
        match behind_string t with Some rest => escapes_complete t && words_ok fuel rest | None => true end
      else if number_starts c then
        match strtod s with Some (d, rest) => is_ok (double_to_int d) && words_ok fuel rest | None => true end
      else if separator c then words_ok fuel t
      else match behind_literal s with Some rest => words_ok fuel rest | None => true end
  end.

(** Every word takes a character, so that the length is fuel enough. *)
Definition harmless_text (s : list byte) : bool := words_ok (length s) s.

Lemma hex_digit_plain c : is_Some (hex_digit c) -> (Z_of_byte c =? 34) = false /\ (Z_of_byte c =? 92) = false.
Proof. intros [x E]. destruct c; done. Qed.

Lemma string_length_hex d s k : is_Some (hex_digit d) -> string_length (d :: s) k = string_length s (k + 1).
Proof. intros Hd. cbn [string_length]. by destruct (hex_digit_plain d Hd) as [-> ->]. Qed.

Lemma behind_string_hex d s : is_Some (hex_digit d) -> behind_string (d :: s) = behind_string s.
Proof. intros Hd. cbn [behind_string]. by destruct (hex_digit_plain d Hd) as [-> ->]. Qed.

Lemma escapes_complete_hex d s : is_Some (hex_digit d) -> escapes_complete (d :: s) = escapes_complete s.
Proof. intros Hd. cbn [escapes_complete]. by destruct (hex_digit_plain d Hd) as [-> ->]. Qed.

Lemma utf8_length uc : 1 <= zlen (utf8 uc) <= 3.
Proof. unfold utf8. destruct (uc <? 0x80); [done|]. by destruct (uc <? 0x800). Qed.

Lemma string_length_mono s : forall k m, string_length s k = Some m -> k <= m.
Proof.
  induction s as [s IH] using (induction_ltof1 _ (@length byte)). unfold ltof in IH. intros k m.
  destruct s as [|c s]; [done|]. cbn [string_length]. destruct (Z_of_byte c =? 34); [intros [= ->]; lia|].
  destruct (Z_of_byte c =? 92).
  - destruct s as [|e s]; [done|]. intros E. apply IH in E; [lia|cbn; lia].
  - intros E. apply IH in E; [lia|cbn; lia].
Qed.

(** The first pass ends at the closing quote. *)
Lemma string_length_behind s : forall k m, string_length s k = Some m ->
  exists rest, behind_string s = Some rest /\ proper_suffix rest s.
Proof.
  induction s as [s IH] using (induction_ltof1 _ (@length byte)). unfold ltof in IH. intros k m.
  destruct s as [|c s]; [done|]. cbn [string_length behind_string].
  destruct (Z_of_byte c =? 34); [intros _; exists s; split; [done|by exists [c]]|]. destruct (Z_of_byte c =? 92).
  - destruct s as [|e s]; [done|]. intros E. apply IH in E as (r & -> & Hr); [|cbn; lia].
    exists r. split; [done|]. eapply proper_suffix_trans_l; [exact Hr|]. by exists [c; e].
  - intros E. apply IH in E as (r & -> & Hr); [|cbn; lia].
    exists r. split; [done|]. eapply proper_suffix_trans_l; [exact Hr|]. by exists [c].
Qed.

Lemma behind_string_suffix s rest : behind_string s = Some rest -> proper_suffix rest s.
Proof.
  induction s as [s IH] using (induction_ltof1 _ (@length byte)). unfold ltof in IH.
  destruct s as [|c s]; [done|]. cbn [behind_string]. destruct (Z_of_byte c =? 34); [intros [= ->]; by exists [c]|].
  destruct (Z_of_byte c =? 92).
  - destruct s as [|e s]; [done|]. intros E. apply IH in E; [|cbn; lia].
    eapply proper_suffix_trans_l; [exact E|]. by exists [c; e].
  - intros E. apply IH in E; [|cbn; lia]. eapply proper_suffix_trans_l; [exact E|]. by exists [c].
Qed.

(** One character or escape has been read and [bs] written. *)
Lemma unescape_emit (bs rest : list byte) room (m : Z -> res (list byte * list byte)) :
  zlen bs <= room -> (exists s, m (room - zlen bs) = Ok (s, rest)) ->
  exists s, (if room <? zlen bs then Fault else let? r := m (room - zlen bs) in Ok (bs ++ fst r, snd r)) = Ok (s, rest).
Proof. intros Hr (s & E). replace (room <? zlen bs) with false by lia. rewrite E. cbn. eauto. Qed.

(** The second pass stays inside the text and the block when no escape is cut off, and it ends at
    the same quote as the first. *)
Lemma unescape_safe t : forall room k m rest,
  string_length t k = Some m -> behind_string t = Some rest -> escapes_complete t = true -> m - k <= room ->
  exists s, unescape t room = Ok (s, rest).
Proof.
  induction t as [t IH] using (induction_ltof1 _ (@length byte)). unfold ltof in IH. intros room k m rest Hl Hb He Hr.
  destruct t as [|c t]; [done|]. cbn [string_length behind_string escapes_complete] in Hl, Hb, He. cbn [unescape].
  destruct (Z_of_byte c =? 34) eqn:Eq; [exists []; congruence|].
  destruct (Z_of_byte c =? 92) eqn:Eb.
  - destruct t as [|e t]; [done|]. apply andb_prop in He as [Hu He]. destruct (Z_of_byte e =? 117) eqn:Eu.
    + unfold four_digits in Hu. apply andb_prop in Hu as [Hu4 Huh].
      destruct t as [|d1 [|d2 [|d3 [|d4 v]]]]; try done. cbn [take forallb] in Huh. bdestruct.
      rewrite !string_length_hex in Hl by done. rewrite !behind_string_hex in Hb by done.
      rewrite !escapes_complete_hex in He by done.
      pose proof (string_length_mono _ _ _ Hl). pose proof (utf8_length (parse_hex4 4 (d1 :: d2 :: d3 :: d4 :: v) 0)).
      apply unescape_emit; [lia|]. apply (IH v ltac:(cbn; lia) _ _ _ _ Hl Hb He). lia.
    + pose proof (string_length_mono _ _ _ Hl). apply unescape_emit; change (zlen [_]) with 1; [lia|].
      apply (IH t ltac:(cbn; lia) _ _ _ _ Hl Hb He). lia.
  - pose proof (string_length_mono _ _ _ Hl). apply unescape_emit; change (zlen [_]) with 1; [lia|].
    apply (IH t ltac:(cbn; lia) _ _ _ _ Hl Hb He). lia.
Qed.

Lemma word_suffix (w s : list byte) n : take n s = w -> w <> [] -> proper_suffix (drop n s) s.
Proof. intros E Hw. exists w. split; [done|]. by rewrite <- E, take_drop. Qed.

Lemma behind_literal_suffix s rest : behind_literal s = Some rest -> proper_suffix rest s.
Proof.
  unfold behind_literal.
  repeat (case_bool_decide as Ew; [intros [= <-]; eapply word_suffix; [exact Ew|discriminate]|clear Ew]). done.
Qed.

Section Safety.
Hypothesis Hd : double_works.

(** The fuel of [words_ok] does not matter from the length of the text on. *)
Lemma words_ok_enough m : forall n s, (length s <= n)%nat -> words_ok n s = true -> words_ok m s = true.
Proof.
  induction m as [|m IH]; intros n s Hn Hw; [done|]. destruct s as [|c t]; [done|]. destruct n as [|n]; [cbn in Hn; lia|].
  assert (forall rest, proper_suffix rest (c :: t) -> words_ok n rest = true -> words_ok m rest = true) as Hrest.
  { intros rest Hp. apply proper_suffix_length in Hp. apply IH. lia. }
  cbn [words_ok] in *. destruct (Z_of_byte c =? 34).
  - destruct (behind_string t) as [rest|] eqn:E; [|done]. apply andb_prop in Hw as [-> Hw]. cbn. apply Hrest; [|done].
    eapply proper_suffix_trans_l; [by apply behind_string_suffix|by exists [c]].
  - destruct (number_starts c).
    + destruct (strtod (c :: t)) as [[d rest]|] eqn:E; [|done]. apply andb_prop in Hw as [-> Hw]. cbn.
      apply Hrest; [|done]. by apply (works_endptr Hd) in E.
    + destruct (separator c); [apply Hrest; [by exists [c]|done]|].
      destruct (behind_literal (c :: t)) as [rest|] eqn:E; [|done]. apply Hrest; [by apply behind_literal_suffix|done].
Qed.

Definition harmless (s : list byte) : Prop := forall fuel, words_ok fuel s = true.

Lemma harmless_text_iff s : harmless_text s = true -> harmless s.
Proof. intros Hs fuel. by apply (words_ok_enough fuel (length s)). Qed.

Lemma harmless_string c t rest : Z_of_byte c = 34 -> harmless (c :: t) -> behind_string t = Some rest ->
  escapes_complete t = true /\ harmless rest.
Proof.
  intros Hc Hs Hb. assert (forall fuel, escapes_complete t && words_ok fuel rest = true) as Hf.
  { intros fuel. specialize (Hs (S fuel)). cbn [words_ok] in Hs. by rewrite Hc, Hb in Hs. }
  split; [by apply (andb_prop _ _ (Hf O))|]. intros fuel. by apply (andb_prop _ _ (Hf fuel)).
Qed.

Lemma number_starts_quote c : number_starts c = true -> (Z_of_byte c =? 34) = false.
Proof. unfold number_starts. lia. Qed.

Lemma harmless_number c t d rest : number_starts c = true -> harmless (c :: t) -> strtod (c :: t) = Some (d, rest) ->
  is_ok (double_to_int d) = true /\ harmless rest.
Proof.
  intros Hc Hs Hb. assert (forall fuel, is_ok (double_to_int d) && words_ok fuel rest = true) as Hf.
  { intros fuel. specialize (Hs (S fuel)). cbn [words_ok] in Hs. by rewrite number_starts_quote, Hc, Hb in Hs. }
  split; [by apply (andb_prop _ _ (Hf O))|]. intros fuel. by apply (andb_prop _ _ (Hf fuel)).
Qed.

Lemma separator_starts c : separator c = true -> (Z_of_byte c =? 34) = false /\ number_starts c = false.
Proof. by destruct c. Qed.

Lemma harmless_separator c t : separator c = true -> harmless (c :: t) -> harmless t.
Proof.
  intros Hc Hs fuel. specialize (Hs (S fuel)). cbn [words_ok] in Hs.
  by destruct (separator_starts c Hc) as [Eq En]; rewrite Eq, En, Hc in Hs.
Qed.

Lemma literal_starts c t rest : behind_literal (c :: t) = Some rest ->
  (Z_of_byte c =? 34) = false /\ number_starts c = false /\ separator c = false.
Proof.
  unfold behind_literal. repeat (case_bool_decide as Ew; [cbn in Ew; inversion Ew; subst; done|clear Ew]). done.
Qed.

Lemma harmless_literal c t rest : behind_literal (c :: t) = Some rest -> harmless (c :: t) -> harmless rest.
Proof.
  intros Hl Hs fuel. specialize (Hs (S fuel)). cbn [words_ok] in Hs.
  destruct (literal_starts c t rest Hl) as (Eq & En & Es). by rewrite Eq, En, Es, Hl in Hs.
Qed.

Lemma harmless_skip s : harmless s -> harmless (skip_spaces s).
Proof.
  induction s as [|c s IH]; [done|]. intros Hs. cbn [skip_spaces]. destruct (is_space c) eqn:E; [|done].
  apply IH. apply (harmless_separator c); [by unfold separator; rewrite E|done].
Qed.

(** Behind the separator the spaces lead to. *)
Lemma harmless_behind s c t : harmless s -> skip_spaces s = c :: t -> separator c = true -> harmless t.
Proof. intros Hs E Hc. apply (harmless_separator c); [done|]. rewrite <- E. by apply harmless_skip. Qed.

(** The result of reading [s]: not a fault; the rest is shorter and made of the words that
    follow. *)
Definition reads_on {A} (s : list byte) (r : res (A * list byte)) : Prop :=
  match r with Ok (_, rest) => proper_suffix rest s /\ harmless rest | Err _ => True | Fault => False end.

Lemma parse_string_safe s : harmless s -> reads_on s (parse_string s).
Proof.
  intros Hs. destruct s as [|c s]; [done|]. cbn [parse_string]. destruct (Z.eqb_spec (Z_of_byte c) 34) as [Ec|]; [|done].
  cbn [negb]. destruct (string_length s 0) as [m|] eqn:El; [|done]. destruct (malloc_ok (m + 1)); [|done]. cbn [negb].
  destruct (string_length_behind s 0 m El) as (rest & Eb & Hp). destruct (harmless_string c s rest Ec Hs Eb) as [He Hh].
  destruct (unescape_safe s m 0 m rest El Eb He) as (x & ->); [lia|].
  cbn. split; [|done]. eapply proper_suffix_trans_l; [done|]. by exists [c].
Qed.

Definition safe_parser (parse : list byte -> res (cJSON * list byte)) : Prop :=
  forall s, harmless s -> reads_on s (parse s).

Lemma parse_number_safe c t : number_starts c = true -> harmless (c :: t) -> reads_on (c :: t) (parse_number (c :: t)).
Proof.
  intros Hc Hs. unfold parse_number. destruct (strtod (c :: t)) as [[d rest]|] eqn:E; [|done].
  destruct (harmless_number c t d rest Hc Hs E) as [Hi Hh]. destruct (double_to_int d); [|done|done]. cbn.
  split; [by apply (works_endptr Hd) in E|done].
Qed.

(** A parser applied to a suffix. *)
Lemma reads_on_suffix {A} s t (r : res (A * list byte)) : suffix_of t s -> reads_on t r -> reads_on s r.
Proof.
  intros Hs. destruct r as [[a rest]| |]; [|done|done]. intros [Hr Hh]. split; [by eapply proper_suffix_trans_l|done].
Qed.

Lemma suffix_skip s t : suffix_of t s -> suffix_of (skip_spaces t) s.
Proof. intros Ht. eapply suffix_trans; [apply skip_spaces_suffix|done]. Qed.

Lemma skip_cons s c t : skip_spaces s = c :: t -> proper_suffix t s.
Proof.
  intros E. eapply (proper_suffix_trans_l _ (c :: t)); [by exists [c]|]. rewrite <- E. apply skip_spaces_suffix.
Qed.

(** Behind a separator that follows what has been read. *)
Lemma reads_separator (s rest t : list byte) c z : proper_suffix rest s -> harmless rest -> skip_spaces rest = c :: t ->
  Z_of_byte c = z -> existsb (Z.eqb z) [91; 93; 123; 125; 44; 58] = true -> proper_suffix t s /\ harmless t.
Proof.
  intros Hp Hh E <- Hz. pose proof (skip_cons _ _ _ E) as Ht. split.
  - eapply proper_suffix_trans_l; [done|by apply proper_suffix_of].
  - eapply harmless_behind; [done|done|]. unfold separator. rewrite Hz. apply orb_true_r.
Qed.

(** The list of what is left behind a comma. *)
Lemma reads_more {A B} (s t : list byte) (p : list byte -> res (A * list byte)) (k : A -> B) (fuel : nat) :
  proper_suffix t s -> harmless t -> (length s <= fuel)%nat ->
  (forall u, harmless u -> (length u < fuel)%nat -> reads_on u (p u)) ->
  reads_on s (let? rs := p (skip_spaces t) in Ok (k (fst rs), snd rs)).
Proof.
  intros Ht Hh Hf Hp. assert (proper_suffix (skip_spaces t) s) as Hs.
  { eapply proper_suffix_trans_r; [apply skip_spaces_suffix|done]. }
  pose proof (proper_suffix_length _ _ Hs). specialize (Hp (skip_spaces t) (harmless_skip _ Hh) ltac:(lia)).
  destruct (p (skip_spaces t)) as [[a r]| |]; [|done|done]. destruct Hp as [Hr Hh']. cbn. split; [|done].
  eapply proper_suffix_trans_l; [done|by apply proper_suffix_of].
Qed.

Lemma parse_elements_safe parse fuel : safe_parser parse ->
  forall s, harmless s -> (length s < fuel)%nat -> reads_on s (parse_elements parse fuel s).
Proof.
  intros Hparse. induction fuel as [|fuel IH]; intros s Hs Hf; [lia|]. cbn [parse_elements].
  destruct (malloc_ok cJSON_size); [|done]. cbn [negb]. specialize (Hparse s Hs).
  destruct (parse s) as [[c rest]| |]; [|done|done]. destruct Hparse as [Hp Hh]. cbn [rbind fst snd].
  destruct (skip_spaces rest) as [|h t] eqn:E; [done|].
  destruct (Z.eqb_spec (Z_of_byte h) 44) as [Ec|_].
  - destruct (reads_separator s rest t h 44 Hp Hh E Ec eq_refl) as [Ht Hht].
    apply (reads_more s t (parse_elements parse fuel) (cons c) fuel Ht Hht); [lia|exact IH].
  - destruct (Z.eqb_spec (Z_of_byte h) 93) as [Ec|_]; [|done]. by apply (reads_separator s rest t h 93).
Qed.

Lemma parse_member_safe parse s : safe_parser parse -> harmless s -> reads_on s (parse_member parse s).
Proof.
  intros Hparse Hs. unfold parse_member. pose proof (parse_string_safe s Hs) as Hk.
  destruct (parse_string s) as [[key rest]| |]; [|done|done]. destruct Hk as [Hp Hh]. cbn [rbind fst snd].
  destruct (skip_spaces rest) as [|h t] eqn:E; [done|]. destruct (Z.eqb_spec (Z_of_byte h) 58) as [Ec|_]; [|done].
  destruct (reads_separator s rest t h 58 Hp Hh E Ec eq_refl) as [Ht Hht].
  apply (reads_more s t parse (pair key) (length s) Ht Hht); [lia|]. intros u Hu _. by apply Hparse.
Qed.

Lemma parse_members_safe parse fuel : safe_parser parse ->
  forall s, harmless s -> (length s < fuel)%nat -> reads_on s (parse_members parse fuel s).
Proof.
  intros Hparse. induction fuel as [|fuel IH]; intros s Hs Hf; [lia|]. cbn [parse_members].
  destruct (malloc_ok cJSON_size); [|done]. cbn [negb]. pose proof (parse_member_safe parse s Hparse Hs) as Hm.
  destruct (parse_member parse s) as [[m rest]| |]; [|done|done]. destruct Hm as [Hp Hh]. cbn [rbind fst snd].
  destruct (skip_spaces rest) as [|h t] eqn:E; [done|].
  destruct (Z.eqb_spec (Z_of_byte h) 44) as [Ec|_].
  - destruct (reads_separator s rest t h 44 Hp Hh E Ec eq_refl) as [Ht Hht].
    apply (reads_more s t (parse_members parse fuel) (cons m) fuel Ht Hht); [lia|exact IH].
  - destruct (Z.eqb_spec (Z_of_byte h) 125) as [Ec|_]; [|done]. by apply (reads_separator s rest t h 125).
Qed.

Lemma suffix_length r s : suffix_of r s -> (length r <= length s)%nat.
Proof. intros [p ->]. rewrite length_app. lia. Qed.

(** The closing bracket or brace of an empty array or object. *)
Lemma closing_safe z s : existsb (Z.eqb z) [91; 93; 123; 125; 44; 58] = true -> harmless s ->
  head_is z (skip_spaces s) = true -> proper_suffix (drop 1 (skip_spaces s)) s /\ harmless (drop 1 (skip_spaces s)).
Proof.
  intros Hz Hs. destruct (skip_spaces s) as [|c t] eqn:E; [done|]. cbn [head_is drop]. intros Ec.
  split; [by eapply skip_cons|]. eapply harmless_behind; [done|done|]. unfold separator.
  replace (Z_of_byte c) with z by lia. rewrite Hz. apply orb_true_r.
Qed.

Lemma parse_array_safe parse s : safe_parser parse -> harmless s -> reads_on s (parse_array parse s).
Proof.
  intros Hparse Hs. unfold parse_array. cbv zeta. destruct (head_is 93 (skip_spaces s)) eqn:E; [by apply (closing_safe 93)|].
  pose proof (parse_elements_safe parse (S (length s)) Hparse (skip_spaces s) (harmless_skip _ Hs)) as Hp.
  pose proof (suffix_length _ _ (skip_spaces_suffix s)). specialize (Hp ltac:(lia)).
  apply (reads_on_suffix _ _ _ (skip_spaces_suffix s)). by destruct (parse_elements _ _ _) as [[cs r]| |].
Qed.

Lemma parse_object_safe parse s : safe_parser parse -> harmless s -> reads_on s (parse_object parse s).
Proof.
  intros Hparse Hs. unfold parse_object. cbv zeta. destruct (head_is 125 (skip_spaces s)) eqn:E; [by apply (closing_safe 125)|].
  pose proof (parse_members_safe parse (S (length s)) Hparse (skip_spaces s) (harmless_skip _ Hs)) as Hp.
  pose proof (suffix_length _ _ (skip_spaces_suffix s)). specialize (Hp ltac:(lia)).
  apply (reads_on_suffix _ _ _ (skip_spaces_suffix s)). by destruct (parse_members _ _ _) as [[cs r]| |].
Qed.

(** Behind an opening bracket or brace. *)
Lemma opening_safe {A} c t z (r : res (A * list byte)) : Z_of_byte c = z ->
  existsb (Z.eqb z) [91; 93; 123; 125; 44; 58] = true -> harmless (c :: t) ->
  (harmless t -> reads_on t r) -> reads_on (c :: t) r.
Proof.
  intros <- Hz Hs Hr. apply (reads_on_suffix _ t); [by exists [c]|]. apply Hr. apply (harmless_separator c); [|done].
  unfold separator. rewrite Hz. apply orb_true_r.
Qed.

Lemma parse_literal_safe c t : harmless (c :: t) -> reads_on (c :: t)
  (if bool_decide (take 4 (c :: t) = str "true") then Ok (cJSON_Bool true, drop 4 (c :: t))
   else if bool_decide (take 5 (c :: t) = str "false") then Ok (cJSON_Bool false, drop 5 (c :: t))
   else if bool_decide (take 4 (c :: t) = str "null") then Ok (cJSON_NULL, drop 4 (c :: t)) else failed).
Proof.
  intros Hs. assert (forall rest, behind_literal (c :: t) = Some rest -> proper_suffix rest (c :: t) /\ harmless rest) as Hl.
  { intros rest E. split; [by apply behind_literal_suffix|by eapply harmless_literal]. }
  unfold behind_literal in Hl. repeat (case_bool_decide as Ew; [unfold reads_on; by apply Hl|clear Ew]). done.
Qed.

Lemma parse_value_safe levels : safe_parser (parse_value levels).
Proof.
  induction levels as [|levels IH]; intros s Hs; [done|]. cbn [parse_value].
  apply (reads_on_suffix _ (skip_spaces s)); [apply skip_spaces_suffix|]. apply harmless_skip in Hs.
  destruct (skip_spaces s) as [|c t] eqn:E; [done|]. destruct (Z_of_byte c =? 34).
  { pose proof (parse_string_safe (c :: t) Hs). by destruct (parse_string (c :: t)) as [[x r]| |]. }
  destruct (Z.eqb_spec (Z_of_byte c) 123) as [Ec|_].
  { apply (opening_safe c t 123); [done|done|done|]. by apply parse_object_safe. }
  destruct (Z.eqb_spec (Z_of_byte c) 91) as [Ec|_].
  { apply (opening_safe c t 91); [done|done|done|]. by apply parse_array_safe. }
  destruct (_ || _) eqn:En; [by apply parse_number_safe|]. by apply parse_literal_safe.
Qed.
End Safety.

(** C34.  On a text whose strings, as the parser delimits them, have four digits behind every
    backslash-u escape, and whose numbers outside strings fit an [int] when the fraction is
    dropped, the parser ends and reads and writes only inside the text and the strings it
    allocates, whether the text is accepted or refused.  Nothing is asked of the inside of a
    string otherwise, of a string that is not closed, or of what follows the first character
    that starts no word.  Both conditions are needed: [parse_cut_escape] and
    [parse_large_number] are faults. *)
Theorem json_parse_safe text :
  double_works -> harmless_text text = true -> cJSON_Parse (Some text) <> Fault.
Proof.
  intros Hd Ht. unfold cJSON_Parse, cJSON_ParseWithOpts. destruct (malloc_ok cJSON_size); [|done]. cbn [negb].
  pose proof (parse_value_safe Hd (Z.to_nat (CJSON_NESTING_LIMIT + 1)) text (harmless_text_iff Hd text Ht)) as Hp.
  by destruct (parse_value _ text) as [[c r]| |].
Qed.

(** Two quotes around backslash-u. *)
Lemma parse_cut_escape : (forall n, malloc_ok n = true) -> cJSON_Parse (Some [Byte.x22; Byte.x5c; Byte.x75; Byte.x22]) = Fault.
Proof. intros Hm. unfold cJSON_Parse, cJSON_ParseWithOpts. rewrite Hm.
  change (Z.to_nat (CJSON_NESTING_LIMIT + 1)) with (S 1024).
  generalize 1024%nat. intros n. cbn. unfold parse_string.
  rewrite Hm. reflexivity.
Qed.

(** ** Finding members *)

(** The function whose name says that case matters ignores it, and the other one does not. *)
Lemma case_insensitive_same a : case_insensitive_compare a a = 0.
Proof. induction a as [|c a IH]; [done|]. cbn. by rewrite bool_decide_true. Qed.

Lemma case_insensitive_zero a : forall b, case_insensitive_compare a b = 0 -> Forall (fun c => c <> Byte.x00) a ->
  Forall (fun c => c <> Byte.x00) b -> map to_lower a = map to_lower b.
Proof.
  assert (forall c d, swrap 8 (Z_of_byte (to_lower c)) - swrap 8 (Z_of_byte (to_lower d)) = 0 -> to_lower c = to_lower d) as Hsub.
  { intros c d Hz. apply Z_of_byte_inj. pose proof (Z_of_byte_range (to_lower c)). pose proof (Z_of_byte_range (to_lower d)).
    unfold swrap, wrap in Hz. rewrite !Z.mod_small in Hz by lia. eval_pows. change (8 - 1) with 7 in Hz. eval_pows.
    destruct (Z_of_byte (to_lower c) <? 128); destruct (Z_of_byte (to_lower d) <? 128); lia. }
  assert (forall c, c <> Byte.x00 -> Z_of_byte c <> 0) as Hnz by (intros c Hc E; apply Hc; by apply Z_of_byte_inj).
  induction a as [|c a IH]; intros [|d b] Hz Ha Hb; cbn [case_insensitive_compare map] in *; try done.
  - inversion Hb. specialize (Hnz d). lia || (exfalso; apply Hnz; [done|lia]).
  - inversion Ha. exfalso. by apply (Hnz c).
  - inversion Ha. inversion Hb. case_bool_decide as Ec; [rewrite Ec; f_equal; by apply IH|].
    destruct Ec. by apply Hsub.
Qed.
End Text.

(** ** Numbers to run the model with: the integers *)

Definition toy_strtod (s : list byte) : option (Z * list byte) :=
  let '(negative, t) := match s with c :: u => if Z_of_byte c =? 45 then (true, u) else (false, s) | [] => (false, s) end in
  match digits_of t with
  | ([], _) => None
  | (ds, rest) => Some (if negative then - digits_value ds else digits_value ds, rest)
  end.

Definition toy_double : Double := {|
  double := Z;
  double_of_Z i := i;
  double_trunc d := Some d;
  double_near i d := i =? d;
  strtod := toy_strtod;
  print_g17 d := print_int d
|}.

Lemma digits_of_split s : s = fst (digits_of s) ++ snd (digits_of s).
Proof.
  induction s as [|c s IH]; [done|]. cbn [digits_of]. destruct (is_digit c); [|done].
  destruct (digits_of s) as [ds r]. cbn in *. by rewrite IH.
Qed.

Lemma digits_of_app ds rest :
  Forall (fun b => 48 <= Z_of_byte b < 58) ds -> match rest with c :: _ => is_digit c = false | [] => True end ->
  digits_of (ds ++ rest) = (ds, rest).
Proof.
  intros Hds Hr. induction Hds as [|c ds Hc _ IH].
  - cbn. destruct rest as [|c rest]; [done|]. cbn. by rewrite Hr.
  - cbn [app digits_of]. unfold is_digit at 1. cmps. by rewrite IH.
Qed.

Lemma toy_strtod_int i rest : - 2 ^ 31 <= i < 2 ^ 31 -> number_ends rest -> toy_strtod (print_int i ++ rest) = Some (i, rest).
Proof.
  intros Hi Hr. assert (match rest with c :: _ => is_digit c = false | [] => True end) as Hr'.
  { destruct rest as [|c rest]; [done|]. cbn in Hr. destruct Hr as [->|[->|[->| ->]]]; done. }
  assert (forall v, 0 <= v <= 2 ^ 31 -> exists c ds, print_decimal v = c :: ds /\ (Z_of_byte c =? 45) = false /\
    digits_of (c :: ds ++ rest) = (c :: ds, rest) /\ digits_value (c :: ds) = v) as Hp.
  { intros v Hv. pose proof (decimal_digits_chars 20 v) as Hc. pose proof (decimal_digits_value 19 v) as Hval.
    pose proof (print_decimal_nonempty v) as Hne. unfold print_decimal in *. destruct (decimal_digits 20 v) as [|c ds]; [done|].
    exists c, ds. split; [done|]. pose proof (digits_of_app (c :: ds) rest Hc Hr') as Hds. inversion_clear Hc.
    split; [lia|]. split; [done|]. apply Hval. eval_pows. lia. }
  unfold toy_strtod, print_int. destruct (Z.ltb_spec i 0).
  - cbn [app]. change (Z_of_byte Byte.x2d =? 45) with true. cbn iota.
    destruct (Hp (- i)) as (c & ds & -> & _ & Hds & Hv); [lia|]. cbn [app]. rewrite Hds, Hv. f_equal. f_equal. lia.
  - destruct (Hp i) as (c & ds & -> & Hc & Hds & Hv); [lia|]. cbn [app]. rewrite Hc, Hds, Hv. done.
Qed.

#[local] Existing Instance toy_double.

Lemma toy_double_works : double_works.
Proof.
  split; cbn.
  - done.
  - intros i _. apply Z.eqb_refl.
  - intros i rest. apply toy_strtod_int.
  - intros s d rest E. unfold toy_strtod in E.
    assert (forall t, (match digits_of t with ([], _) => None | (_, r) => Some r end) = Some rest -> exists p, p <> [] /\ t = p ++ rest) as Ht.
    { intros t Et. pose proof (digits_of_split t) as Hs. destruct (digits_of t) as [[|c ds] r]; [done|].
      injection Et as <-. cbn in Hs. by exists (c :: ds). }
    destruct s as [|c u]; [done|]. destruct (Z_of_byte c =? 45).
    + destruct (Ht u) as (p & Hp & Es); [destruct (digits_of u) as [[|? ?] ?]; by inversion E|].
      exists (c :: p). by rewrite Es.
    + apply Ht. destruct (digits_of (c :: u)) as [[|? ?] ?]; by inversion E.
Qed.

#[local] Existing Instance mib_heap.

(** An object with a list, a text to escape and a number. *)
Definition sample_tree : cJSON :=
  cJSON_Object [(str "a", cJSON_Array [cJSON_Number (-7); cJSON_NULL; cJSON_Bool true]);
                (str "b", cJSON_String [Byte.x5c; Byte.x0a; Byte.x01; Byte.x41]); (str "c", cJSON_Object [])].

Lemma json_roundtrip_witness :
  exists text, print_internal sample_tree true = Ok text /\ cJSON_Parse (Some text) = Ok sample_tree.
Proof.
  apply (json_roundtrip sample_tree true toy_double_works).
  - cbn. split_and!; try done; try (repeat constructor; done). exists (-7). split; [lia|done].
  - vm_compute. repeat constructor.
  - by vm_compute.
  - apply mib_heap_serves. by vm_compute.
Defined.

(** Text with its quotes written as apostrophes. *)
Definition with_quotes (s : list byte) : list byte := map (fun c => if Z_of_byte c =? 39 then Byte.x22 else c) s.

(** Digits, an escaped backslash before a u and a complete escape inside a string; an unclosed
    string at the end. *)
Definition sample_text : list byte :=
  with_quotes (str "{ 'a': '99999999999 \\u \u0041 inf', 'b': [-12, true, 'x").

Lemma json_parse_safe_witness : cJSON_Parse (Some sample_text) <> Fault.
Proof. apply (json_parse_safe sample_text toy_double_works). by vm_compute. Defined.

(** The same, closed, is accepted and its first string is read. *)
Example sample_text_read :
  match cJSON_Parse (Some (sample_text ++ with_quotes (str "']}"))) with
  | Ok (cJSON_Object ((_, cJSON_String s) :: _)) => s = str "99999999999 \u A inf"
  | _ => False
  end.
Proof. vm_compute. reflexivity. Qed.

(** A number that does not fit an [int]. *)
Example parse_large_number :
  match cJSON_Parse (Some (str "[2147483648]")) with Fault => True | _ => False end.
Proof. vm_compute. exact I. Qed.

(** The text of one quote is printed as quote, backslash, quote, which is not read. *)
Example quote_ends_nothing :
  cJSON_Print (cJSON_String [Byte.x22]) = Ok [Byte.x22; Byte.x5c; Byte.x22] /\
  match cJSON_Parse (Some [Byte.x22; Byte.x5c; Byte.x22]) with Err e => e = NEOC_ERROR_INVALID_FORMAT | _ => False end.
Proof. split; vm_compute; reflexivity. Qed.

(** A quote before a b comes back as a backspace. *)
Example quote_is_lost :
  cJSON_Print (cJSON_String (with_quotes (str "a'b"))) = Ok (with_quotes (str "'a\b'")) /\
  match cJSON_Parse (Some (with_quotes (str "'a\b'"))) with
  | Ok (cJSON_String s) => s = [Byte.x61; Byte.x08]
  | _ => False
  end.
Proof. split; vm_compute; reflexivity. Qed.
