(* ===== verification/Json.v ===== *)
(** * The JSON layer (src/utils/json.c)

    The functions the library reaches JSON through, with cJSON compiled in.  A pointer that
    is NULL is [None], and a function that returns NULL for a failure is an [Err]. *)

From S2P Require Import Prelude Cjson.
#[local] Open Scope Z_scope.

Section Operations.
Context `{Allocator} `{Double}.

Definition neoc_json_parse (json_string : option (list byte)) : res cJSON :=
  match json_string with
  | None => Err NEOC_ERROR_INVALID_ARGUMENT
  | Some _ =>
      match cJSON_Parse json_string with
      | Err _ => Err NEOC_ERROR_INVALID_FORMAT
      | r => r
      end
  end.

Definition neoc_json_create_object : res cJSON :=
  match cJSON_CreateObject with Some object => Ok object | None => Err NEOC_ERROR_MEMORY end.

Definition neoc_json_create_array : res cJSON :=
  match cJSON_CreateArray with Some array => Ok array | None => Err NEOC_ERROR_MEMORY end.

Definition neoc_json_add_string (name : list byte) (value : option (list byte)) : M cJSON unit :=
  match value with
  | None => fail NEOC_ERROR_INVALID_ARGUMENT
  | Some value =>
      match cJSON_CreateString value with
      | None => fail NEOC_ERROR_MEMORY
      | Some item => cJSON_AddItemToObject name item
      end
  end.

Definition neoc_json_add_number (name : list byte) (value : double) : M cJSON unit :=
  let! item := lift (cJSON_CreateNumber value) in
  match item with
  | None => fail NEOC_ERROR_MEMORY
  | Some item => cJSON_AddItemToObject name item
  end.

Definition neoc_json_add_int (name : list byte) (value : Z) : M cJSON unit :=
  neoc_json_add_number name (double_of_Z value).

Definition neoc_json_add_bool (name : list byte) (value : bool) : M cJSON unit :=
  match cJSON_CreateBool value with
  | None => fail NEOC_ERROR_MEMORY
  | Some item => cJSON_AddItemToObject name item
  end.

Definition neoc_json_add_object (name : list byte) (child : cJSON) : M cJSON unit := fun object =>
  if negb (cJSON_IsObject object) then (Err NEOC_ERROR_INVALID_TYPE, object)
  else cJSON_AddItemToObject name child object.

Definition neoc_json_array_add (item : cJSON) : M cJSON unit := fun array =>
  if negb (cJSON_IsArray array) then (Err NEOC_ERROR_INVALID_TYPE, array)
  else cJSON_AddItemToArray item array.

Definition neoc_json_get_string (object : cJSON) (name : list byte) : option (list byte) :=
  match cJSON_GetObjectItemCaseSensitive object name with
  | Some (cJSON_String valuestring) => Some valuestring
  | _ => None
  end.

Definition neoc_json_get_number (object : cJSON) (name : list byte) : res double :=
  match cJSON_GetObjectItemCaseSensitive object name with
  | None => Err NEOC_ERROR_NOT_FOUND
  | Some (cJSON_Number valuedouble) => Ok valuedouble
  | Some _ => Err NEOC_ERROR_INVALID_TYPE
  end.

(** [(int64_t)temp], undefined out of range. *)
Definition neoc_json_get_int (object : cJSON) (name : list byte) : res Z :=
  let? temp := neoc_json_get_number object name in
  match double_trunc temp with
  | Some v => if (- 2 ^ 63 <=? v) && (v <? 2 ^ 63) then Ok v else Fault
  | None => Fault
  end.

Definition neoc_json_get_bool (object : cJSON) (name : list byte) : res bool :=
  match cJSON_GetObjectItemCaseSensitive object name with
  | None => Err NEOC_ERROR_NOT_FOUND
  | Some (cJSON_Bool b) => Ok b
  | Some _ => Err NEOC_ERROR_INVALID_TYPE
  end.

Definition neoc_json_get_object (object : cJSON) (name : list byte) : option cJSON :=
  match cJSON_GetObjectItemCaseSensitive object name with
  | Some item => if cJSON_IsObject item then Some item else None
  | None => None
  end.

Definition neoc_json_get_array (object : cJSON) (name : list byte) : option cJSON :=
  match cJSON_GetObjectItemCaseSensitive object name with
  | Some item => if cJSON_IsArray item then Some item else None
  | None => None
  end.

Definition neoc_json_array_size (array : cJSON) : Z :=
  if cJSON_IsArray array then cJSON_GetArraySize array else 0.

Definition neoc_json_array_get (array : cJSON) (index : Z) : option cJSON :=
  if cJSON_IsArray array then cJSON_GetArrayItem array index else None.

(** The copy in the library's own memory. *)
Definition copy_cjson_string (input : list byte) : res (list byte) :=
  if neoc_malloc_ok (zlen input + 1) then Ok input else Err NEOC_ERROR_MEMORY.

Definition neoc_json_to_string (json : cJSON) : res (list byte) :=
  match cJSON_PrintUnformatted json with
  | Ok printed => copy_cjson_string printed
  | Err _ => Err NEOC_ERROR_MEMORY
  | Fault => Fault
  end.

Definition neoc_json_to_string_formatted (json : cJSON) : res (list byte) :=
  match cJSON_Print json with
  | Ok printed => copy_cjson_string printed
  | Err _ => Err NEOC_ERROR_MEMORY
  | Fault => Fault
  end.

Definition neoc_json_is_null (json : option cJSON) : bool :=
  match json with None | Some cJSON_NULL => true | _ => false end.
Definition neoc_json_is_array (json : option cJSON) : bool :=
  match json with Some json => cJSON_IsArray json | None => false end.
Definition neoc_json_is_object (json : option cJSON) : bool :=
  match json with Some json => cJSON_IsObject json | None => false end.
End Operations.

(** ** With memory *)

Section Working.
Context `{Allocator} `{Double}.
Hypothesis Hd : double_works.

(** Adding to an object puts the member behind the others. *)
Lemma add_string_ok n name value child :
  heap_serves n -> cJSON_size <= n -> zlen name < n -> zlen value < n ->
  neoc_json_add_string name (Some value) (cJSON_Object child) =
  (Ok tt, cJSON_Object (child ++ [(name, cJSON_String value)])).
Proof.
  intros Hh Hs Hn Hv. unfold neoc_json_add_string, cJSON_CreateString, cJSON_size in *.
  pose proof (zlen_nonneg name). pose proof (zlen_nonneg value). rewrite !Hh by lia. cbn. by rewrite Hh by lia.
Qed.

Lemma add_bool_ok n name value child :
  heap_serves n -> cJSON_size <= n -> zlen name < n ->
  neoc_json_add_bool name value (cJSON_Object child) = (Ok tt, cJSON_Object (child ++ [(name, cJSON_Bool value)])).
Proof.
  intros Hh Hs Hn. unfold neoc_json_add_bool, cJSON_CreateBool, cJSON_size in *. pose proof (zlen_nonneg name).
  rewrite !Hh by lia. cbn. by rewrite Hh by lia.
Qed.

Lemma add_object_ok n name item child :
  heap_serves n -> zlen name < n ->
  neoc_json_add_object name item (cJSON_Object child) = (Ok tt, cJSON_Object (child ++ [(name, item)])).
Proof.
  intros Hh Hn. unfold neoc_json_add_object. cbn. pose proof (zlen_nonneg name). by rewrite Hh by lia.
Qed.

(** [m] puts [ms] behind the members of an object. *)
Definition appends (m : M cJSON unit) (ms : list (list byte * cJSON)) : Prop :=
  forall child, m (cJSON_Object child) = (Ok tt, cJSON_Object (child ++ ms)).

Lemma appends_bind m k ms ns : appends m ms -> appends k ns -> appends (do! m in k) (ms ++ ns).
Proof. intros Hm Hk child. rewrite (bind_ok _ _ _ _ _ (Hm child)), Hk. by rewrite app_assoc. Qed.

Lemma appends_nil : appends (ret tt) [].
Proof. intros child. by rewrite app_nil_r. Qed.

(** A plain tree that is printed and parsed. *)
Lemma to_string_parse item :
  plain item -> (height item <= 1024)%nat -> zlen (render false 0 item) <= 2 ^ 29 ->
  heap_serves (2 * zlen (render false 0 item) + 256) ->
  exists text, neoc_json_to_string item = Ok text /\ neoc_json_parse (Some text) = Ok item.
Proof.
  intros Hp Hh Hl Hs. destruct (print_parse item false Hd Hp Hh Hl Hs) as (text & Et & Ep & ->).
  exists (render false 0 item). unfold neoc_json_to_string, cJSON_PrintUnformatted, neoc_json_parse. rewrite Et, Ep.
  unfold copy_cjson_string, neoc_malloc_ok. pose proof (zlen_nonneg (render false 0 item)). cmps. rewrite Hs by lia. done.
Qed.
End Working.
