(* ===== verification/Decode.v ===== *)
(** * Numbers and fields of texts (src/utils/decode.c)

    Numbers and booleans are read from texts with spaces around them and written back, and read out of the fields of JSON
    objects.  What the C library makes of floating-point text is that of [Double]; whether [strtod] reports a range error,
    and the comparison of a floating-point number with an integer, are parameters. *)

From S2P Require Import Prelude BinaryWriter Hex Cjson StringUtils.
#[local] Open Scope Z_scope.

(** What is between the spaces at both ends. *)
Definition trim_whitespace (input : list byte) : list byte := reverse (skip_spaces (reverse (skip_spaces input))).

Definition LLONG_MIN : Z := - 2 ^ 63.
Definition LLONG_MAX : Z := 2 ^ 63 - 1.
Definition INT_MIN : Z := - 2 ^ 31.
Definition INT_MAX : Z := 2 ^ 31 - 1.

(** The sign in front of a number: whether it is a minus, and what follows. *)
Definition sign_of (s : list byte) : bool * list byte :=
  match s with
  | c :: t => if Z_of_byte c =? 45 then (true, t) else if Z_of_byte c =? 43 then (false, t) else (false, s)
  | [] => (false, [])
  end.

(** [strtoll(s, &endptr, 10)]: the number, the text [endptr] points to, and whether [errno] becomes [ERANGE]. *)
Definition strtoll (s : list byte) : Z * list byte * bool :=
  let '(negative, t) := sign_of (skip_spaces s) in
  let '(ds, rest) := digits_of t in
  match ds with
  | [] => (0, s, false)
  | _ =>
      let v := if negative then - digits_value ds else digits_value ds in
      if LLONG_MAX <? v then (LLONG_MAX, rest, true) else if v <? LLONG_MIN then (LLONG_MIN, rest, true) else (v, rest, false)
  end.

(** Behind the number only spaces are allowed, up to the end of the trimmed text. *)
Definition only_spaces_left (trimmed : list byte) (consumed : Z) : bool :=
  bool_decide (consumed <= zlen trimmed) && bool_decide (skip_spaces (drop (Z.to_nat consumed) trimmed) = []).

Definition parse_long_long (string : option (list byte)) (min_value max_value : Z) : res Z :=
  match string with
  | None => Err NEOC_ERROR_INVALID_ARGUMENT
  | Some string =>
      let start := skip_spaces string in
      let trimmed := trim_whitespace string in
      if bool_decide (trimmed = []) then Err NEOC_ERROR_INVALID_FORMAT
      else
        let '(value, parse_end, erange) := strtoll start in
        if erange || (value <? min_value) || (max_value <? value) then Err NEOC_ERROR_INVALID_FORMAT
        else
          let consumed := zlen start - zlen parse_end in
          if consumed =? 0 then Err NEOC_ERROR_INVALID_FORMAT
          else if negb (only_spaces_left trimmed consumed) then Err NEOC_ERROR_INVALID_FORMAT
          else Ok value
  end.

Definition neoc_decode_int_from_string (string : option (list byte)) : res Z := parse_long_long string INT_MIN INT_MAX.
Definition neoc_decode_int64_from_string (string : option (list byte)) : res Z := parse_long_long string LLONG_MIN LLONG_MAX.

Definition neoc_decode_bool_from_string (string : option (list byte)) : res bool :=
  match string with
  | None => Err NEOC_ERROR_INVALID_ARGUMENT
  | Some string =>
      let trimmed := trim_whitespace string in
      if zlen trimmed =? 0 then Err NEOC_ERROR_INVALID_FORMAT
      else if 8 <=? zlen trimmed then Err NEOC_ERROR_INVALID_FORMAT
      else
        let buffer := map tolower trimmed in
        if bool_decide (buffer = str "true") || bool_decide (buffer = str "1") then Ok true
        else if bool_decide (buffer = str "false") || bool_decide (buffer = str "0") then Ok false
        else Err NEOC_ERROR_INVALID_FORMAT
  end.

Definition neoc_decode_safe_int_from_string (string : option (list byte)) (default_value : Z) : res Z :=
  match neoc_decode_int_from_string string with Err _ => Ok default_value | r => r end.

Definition neoc_decode_safe_bool_from_string (string : option (list byte)) (default_value : bool) : res bool :=
  match neoc_decode_bool_from_string string with Err _ => Ok default_value | r => r end.

Section Operations.
Context `{Allocator} `{Double}.

(** The text a format gives, in a block of its size. *)
Definition allocate_string_from_format (text : list byte) : res (list byte) :=
  if neoc_malloc_ok (zlen text + 1) then Ok text else Err NEOC_ERROR_MEMORY.

Definition neoc_decode_int_to_string (value : Z) : res (list byte) := allocate_string_from_format (print_int value).
Definition neoc_decode_int64_to_string (value : Z) : res (list byte) := allocate_string_from_format (print_int value).
Definition neoc_decode_bool_to_string (value : bool) : res (list byte) :=
  allocate_string_from_format (if value then str "true" else str "false").
Definition neoc_decode_double_to_string (value : double) : res (list byte) := allocate_string_from_format (print_g17 value).

(** [errno == ERANGE] after [strtod], and [number < i], [number > i] of a floating-point number. *)
Context (strtod_erange : list byte -> bool) (double_below double_above : double -> Z -> bool).

Definition parse_double (string : option (list byte)) : res double :=
  match string with
  | None => Err NEOC_ERROR_INVALID_ARGUMENT
  | Some string =>
      let start := skip_spaces string in
      let trimmed := trim_whitespace string in
      if bool_decide (trimmed = []) then Err NEOC_ERROR_INVALID_FORMAT
      else
        match strtod start with
        | None => Err NEOC_ERROR_INVALID_FORMAT
        | Some (value, parse_end) =>
            if strtod_erange start || bool_decide (double_trunc value = None) then Err NEOC_ERROR_INVALID_FORMAT
            else
              let consumed := zlen start - zlen parse_end in
              if consumed =? 0 then Err NEOC_ERROR_INVALID_FORMAT
              else if negb (only_spaces_left trimmed consumed) then Err NEOC_ERROR_INVALID_FORMAT
              else Ok value
        end
  end.

Definition neoc_decode_double_from_string (string : option (list byte)) : res double := parse_double string.

Definition ensure_json_object (json_str : option (list byte)) : res cJSON :=
  match json_str with
  | None => Err NEOC_ERROR_INVALID_ARGUMENT
  | Some _ =>
      match cJSON_Parse json_str with
      | Fault => Fault
      | Err _ => Err NEOC_ERROR_INVALID_FORMAT
      | Ok (cJSON_Object child) => Ok (cJSON_Object child)
      | Ok _ => Err NEOC_ERROR_INVALID_FORMAT
      end
  end.

(** The field of an object. *)
Definition json_field (json_str field_name : option (list byte)) : res cJSON :=
  match field_name with
  | None => Err NEOC_ERROR_INVALID_ARGUMENT
  | Some field_name =>
      let? root := ensure_json_object json_str in
      match cJSON_GetObjectItemCaseSensitive root field_name with Some field => Ok field | None => Err NEOC_ERROR_NOT_FOUND end
  end.

Definition neoc_decode_json_string_field (json_str field_name : option (list byte)) : res (list byte) :=
  let? field := json_field json_str field_name in
  match field with
  | cJSON_String s => neoc_strdup s NEOC_ERROR_MEMORY
  | _ => Err NEOC_ERROR_INVALID_FORMAT
  end.

Definition neoc_decode_json_int_field (json_str field_name : option (list byte)) : res Z :=
  let? field := json_field json_str field_name in
  match field with
  | cJSON_Number number =>
      if double_below number INT_MIN || double_above number INT_MAX then Err NEOC_ERROR_INVALID_FORMAT else double_to_int number
  | cJSON_String s => neoc_decode_int_from_string (Some s)
  | _ => Err NEOC_ERROR_INVALID_FORMAT
  end.

Definition neoc_decode_json_bool_field (json_str field_name : option (list byte)) : res bool :=
  let? field := json_field json_str field_name in
  match field with
  | cJSON_Bool b => Ok b
  | cJSON_String s => neoc_decode_bool_from_string (Some s)
  | _ => Err NEOC_ERROR_INVALID_FORMAT
  end.
End Operations.

(** ** Spaces *)

Definition spaces (s : list byte) : Prop := Forall (fun c => is_space c = true) s.
Definition digits (s : list byte) : Prop := Forall (fun c => is_digit c = true) s.

(** A text that neither starts nor ends with a space. *)
Definition tight (s : list byte) : Prop :=
  match s with [] => False | c :: _ => is_space c = false end /\ match reverse s with [] => False | c :: _ => is_space c = false end.

Lemma skip_spaces_all s : spaces s -> skip_spaces s = [].
Proof. induction 1 as [|c s Hc _ IH]; [done|]. cbn [skip_spaces]. by rewrite Hc. Qed.

Lemma skip_spaces_over w s : spaces w -> match s with [] => False | c :: _ => is_space c = false end -> skip_spaces (w ++ s) = s.
Proof.
  induction 1 as [|c w Hc _ IH]; intros Hs; cbn [app skip_spaces].
  - destruct s as [|d s]; [done|]. by rewrite skip_spaces_head.
  - rewrite Hc. by apply IH.
Qed.

Lemma skip_spaces_parts s : exists w, s = w ++ skip_spaces s /\ spaces w.
Proof.
  destruct (skip_spaces_split s) as (w & E & Hw & _). exists w. split; [done|]. unfold spaces. rewrite Forall_forall.
  rewrite forallb_forall in Hw. intros c Hc. apply Hw. by apply list_elem_of_In.
Qed.

Lemma skip_spaces_nil s : skip_spaces s = [] -> spaces s.
Proof. destruct (skip_spaces_parts s) as (w & E & Hw). intros E0. rewrite E0, app_nil_r in E. by subst. Qed.

Lemma trim_parts s : exists w, skip_spaces s = trim_whitespace s ++ w /\ spaces w.
Proof.
  destruct (skip_spaces_parts (reverse (skip_spaces s))) as (w & E & Hw). exists (reverse w). split.
  - unfold trim_whitespace. rewrite <- reverse_app, <- E. by rewrite reverse_involutive.
  - by apply Forall_reverse.
Qed.

Lemma trim_tight before text after : spaces before -> spaces after -> tight text -> trim_whitespace (before ++ text ++ after) = text.
Proof.
  intros Hb Ha [Hh Hl]. unfold trim_whitespace. rewrite skip_spaces_over; [|done|destruct text; [by destruct Hh|exact Hh]].
  rewrite reverse_app, skip_spaces_over; [apply reverse_involutive|by apply Forall_reverse|done].
Qed.

(** ** Whole numbers *)

Lemma digit_no_space c : is_digit c = true -> is_space c = false.
Proof. unfold is_digit, is_space. intros Hc. bdestruct. cmps. done. Qed.

Lemma digits_of_parts s : let '(ds, rest) := digits_of s in s = ds ++ rest /\ digits ds.
Proof.
  induction s as [|c s IH]; cbn [digits_of]; [split; [done|constructor]|]. destruct (is_digit c) eqn:E; [|split; [done|constructor]].
  destruct (digits_of s) as [ds rest]. destruct IH as [-> Hd]. split; [done|by constructor].
Qed.

Lemma digits_of_spaces ds w : digits ds -> spaces w -> digits_of (ds ++ w) = (ds, w).
Proof.
  induction 1 as [|c ds Hc _ IH]; intros Hw; cbn [app digits_of].
  - destruct Hw as [|c w Hc _]; [done|]. cbn [digits_of]. destruct (is_digit c) eqn:E; [|done]. apply digit_no_space in E. congruence.
  - by rewrite Hc, IH.
Qed.

(** The text of a sign and the sign it stands for. *)
Inductive sign_text : list byte -> bool -> Prop :=
| sign_none : sign_text [] false
| sign_minus : sign_text [Byte.x2d] true
| sign_plus : sign_text [Byte.x2b] false.

Lemma sign_of_parts s : exists sg, s = sg ++ snd (sign_of s) /\ sign_text sg (fst (sign_of s)).
Proof.
  destruct s as [|c s]; cbn [sign_of]; [exists []; by split; [|constructor]|].
  destruct (Z.eqb_spec (Z_of_byte c) 45) as [E|_]; [|destruct (Z.eqb_spec (Z_of_byte c) 43) as [E|_]].
  - exists [Byte.x2d]. split; [|constructor]. cbn [app snd]. f_equal. by apply Z_of_byte_inj.
  - exists [Byte.x2b]. split; [|constructor]. cbn [app snd]. f_equal. by apply Z_of_byte_inj.
  - exists []. by split; [|constructor].
Qed.

Lemma sign_of_text sg neg ds w : sign_text sg neg -> digits ds -> ds <> [] -> sign_of (sg ++ ds ++ w) = (neg, ds ++ w).
Proof.
  intros Hs Hd Hn. destruct Hs; [|done..]. destruct Hd as [|c ds Hc _]; [done|]. cbn [app sign_of].
  unfold is_digit in Hc. bdestruct. cmps. done.
Qed.

Definition signed (neg : bool) (ds : list byte) : Z := if neg then - digits_value ds else digits_value ds.

Lemma tight_number sg neg ds : sign_text sg neg -> digits ds -> ds <> [] -> tight (sg ++ ds).
Proof.
  intros Hs Hd Hn. split.
  - destruct Hs; [|done..]. destruct Hd as [|c ds Hc _]; [done|]. by apply digit_no_space.
  - rewrite reverse_app. apply Forall_reverse in Hd. destruct (reverse ds) as [|c r] eqn:E.
    + apply (f_equal reverse) in E. rewrite reverse_involutive in E. by subst.
    + apply Forall_cons in Hd as [Hc _]. by apply digit_no_space.
Qed.

Lemma strtoll_number sg neg ds w : sign_text sg neg -> digits ds -> ds <> [] -> spaces w ->
  LLONG_MIN <= signed neg ds <= LLONG_MAX -> strtoll (sg ++ ds ++ w) = (signed neg ds, w, false).
Proof.
  intros Hs Hd Hn Hw Hr. unfold strtoll. destruct (tight_number sg neg ds Hs Hd Hn) as [Ht _].
  assert (skip_spaces (sg ++ ds ++ w) = sg ++ ds ++ w) as ->.
  { apply (skip_spaces_over []); [constructor|]. rewrite app_assoc. destruct (sg ++ ds); [by destruct Ht|exact Ht]. }
  rewrite (sign_of_text sg neg) by done. rewrite digits_of_spaces by done. destruct ds as [|d ds]; [done|].
  fold (signed neg (d :: ds)). by cmps.
Qed.

(** What is left behind the number in the trimmed text, and what was trimmed off, are the rest of the text. *)
Lemma rest_is_spaces start trimmed tail number rest :
  start = trimmed ++ tail -> spaces tail -> start = number ++ rest -> only_spaces_left trimmed (zlen start - zlen rest) = true -> spaces rest.
Proof.
  intros Et Ht Eg Eo. unfold only_spaces_left in Eo. apply andb_true_iff in Eo as [Hc Ho]. apply bool_decide_eq_true in Hc, Ho.
  apply skip_spaces_nil in Ho. assert (zlen start - zlen rest = zlen number) as Ez by (rewrite Eg, zlen_app; lia). rewrite Ez in Ho, Hc.
  assert (rest = drop (Z.to_nat (zlen number)) trimmed ++ tail) as ->.
  { unfold zlen in *. rewrite Nat2Z.id, <- drop_app_le by lia. rewrite <- Et, Eg. by rewrite drop_app_length. }
  by apply Forall_app.
Qed.

(** A number with spaces around it is read. *)
Lemma number_read before sg neg ds after min_value max_value :
  spaces before -> spaces after -> sign_text sg neg -> digits ds -> ds <> [] -> LLONG_MIN <= signed neg ds <= LLONG_MAX ->
  parse_long_long (Some (before ++ (sg ++ ds) ++ after)) min_value max_value
  = (if (signed neg ds <? min_value) || (max_value <? signed neg ds) then Err NEOC_ERROR_INVALID_FORMAT else Ok (signed neg ds)).
Proof.
  intros Hb Ha Hs Hd Hn Hr. pose proof (tight_number sg neg ds Hs Hd Hn) as Ht. unfold parse_long_long. rewrite trim_tight by done.
  rewrite bool_decide_eq_false_2 by (intros E; destruct Ht as [Hh _]; rewrite E in Hh; done).
  rewrite skip_spaces_over; [|done|destruct Ht as [Hh _]; destruct (sg ++ ds); [by destruct Hh|exact Hh]].
  rewrite <- app_assoc, (strtoll_number sg neg) by done. rewrite app_assoc, zlen_app.
  replace (zlen (sg ++ ds) + zlen after - zlen after) with (zlen (sg ++ ds)) by lia.
  assert (0 < zlen (sg ++ ds)) by (rewrite zlen_app; apply zlen_pos in Hn; pose proof (zlen_nonneg sg); lia).
  cbn [orb]. destruct (_ || _); [done|]. cmps.
  unfold only_spaces_left, zlen. rewrite Nat2Z.id, drop_all, !bool_decide_eq_true_2 by (done || lia). done.
Qed.

(** A number is read from a text exactly when the text is an optional sign and decimal digits, with nothing but spaces
    around them, and the number is in the range asked for. *)
Theorem decode_number_iff (string : list byte) (min_value max_value v : Z) :
  LLONG_MIN <= min_value -> max_value <= LLONG_MAX ->
  (parse_long_long (Some string) min_value max_value = Ok v <->
   exists before sg neg ds after, string = before ++ (sg ++ ds) ++ after /\ spaces before /\ spaces after /\
     sign_text sg neg /\ digits ds /\ ds <> [] /\ v = signed neg ds /\ min_value <= v <= max_value).
Proof.
  intros Hmin Hmax. split.
  - unfold parse_long_long. case_bool_decide; [done|]. destruct (skip_spaces_parts string) as (before & Es & Hb).
    destruct (trim_parts string) as (tail & Et & Ht). unfold strtoll. rewrite skip_spaces_idem.
    set (start := skip_spaces string) in *. set (trimmed := trim_whitespace string) in *.
    destruct (sign_of_parts start) as (sg & Eg & Hg). destruct (sign_of start) as [neg t]. cbn [fst snd] in *.
    pose proof (digits_of_parts t) as Hd. destruct (digits_of t) as [ds rest]. destruct Hd as [-> Hd].
    destruct ds as [|d ds]; [rewrite Z.sub_diag; destruct (_ || _); discriminate|]. fold (signed neg (d :: ds)).
    destruct (Z.ltb_spec LLONG_MAX (signed neg (d :: ds))); [discriminate|].
    destruct (Z.ltb_spec (signed neg (d :: ds)) LLONG_MIN); [discriminate|].
    destruct (Z.ltb_spec (signed neg (d :: ds)) min_value); [discriminate|].
    destruct (Z.ltb_spec max_value (signed neg (d :: ds))); [discriminate|].
    destruct (_ =? 0); [discriminate|]. destruct (only_spaces_left _ _) eqn:Eo; [|discriminate]. intros [= <-].
    rewrite app_assoc in Eg. exists before, sg, neg, (d :: ds), rest.
    split_and!; [by rewrite Es, Eg|done|exact (rest_is_spaces start trimmed tail _ rest Et Ht Eg Eo)|done|done|done|done|lia|lia].
  - intros (before & sg & neg & ds & after & -> & Hb & Ha & Hs & Hd & Hn & -> & Hr).
    rewrite (number_read before sg neg) by (done || lia). by cmps.
Qed.

(** ** Writing and reading back *)

(** The digits of a printed number are digits, and a sign may be in front. *)
Lemma print_int_number v : - 2 ^ 63 <= v < 2 ^ 63 ->
  exists sg neg ds, print_int v = sg ++ ds /\ sign_text sg neg /\ digits ds /\ ds <> [] /\ v = signed neg ds.
Proof.
  intros Hv. assert (forall u, 0 <= u <= 2 ^ 63 -> digits (print_decimal u) /\ print_decimal u <> [] /\ digits_value (print_decimal u) = u) as Hp.
  { intros u Hu. split_and!; [|apply print_decimal_nonempty|apply (decimal_digits_value 19); eval_pows; lia].
    eapply Forall_impl; [apply decimal_digits_chars|]. intros c Hc. cbv beta in Hc. unfold is_digit. by cmps. }
  unfold print_int. destruct (Z.ltb_spec v 0).
  - destruct (Hp (- v)) as (Hd & Hn & Ev); [lia|]. exists [Byte.x2d], true, (print_decimal (- v)).
    split_and!; [done|constructor|done|done|]. unfold signed. lia.
  - destruct (Hp v) as (Hd & Hn & Ev); [lia|]. exists [], false, (print_decimal v). by split_and!; [|constructor|..].
Qed.

(** A printed number with spaces around it is read when it is in the range. *)
Lemma printed_read before v after min_value max_value :
  spaces before -> spaces after -> - 2 ^ 63 <= v < 2 ^ 63 ->
  parse_long_long (Some (before ++ print_int v ++ after)) min_value max_value
  = (if (v <? min_value) || (max_value <? v) then Err NEOC_ERROR_INVALID_FORMAT else Ok v).
Proof.
  intros Hb Ha Hv. destruct (print_int_number v Hv) as (sg & neg & ds & -> & Hs & Hd & Hn & ->).
  apply number_read; try done. unfold LLONG_MIN, LLONG_MAX. lia.
Qed.

Section Roundtrips.
Context `{Allocator} `{Double}.

(** Numbers and booleans that are written as text are read back, also with spaces around the text: the 64-bit ones of
    the whole range by the 64-bit reader, and by the [int] reader exactly those that are [int]s. *)
Theorem decode_text_roundtrip (before after : list byte) (v : Z) (b : bool) :
  spaces before -> spaces after -> - 2 ^ 63 <= v < 2 ^ 63 -> heap_serves 32 ->
  exists t u, neoc_decode_int64_to_string v = Ok t /\ neoc_decode_bool_to_string b = Ok u /\
    neoc_decode_int64_from_string (Some (before ++ t ++ after)) = Ok v /\
    neoc_decode_int_from_string (Some (before ++ t ++ after))
      = (if (- 2 ^ 31 <=? v) && (v <? 2 ^ 31) then Ok v else Err NEOC_ERROR_INVALID_FORMAT) /\
    neoc_decode_bool_from_string (Some (before ++ u ++ after)) = Ok b.
Proof.
  intros Hb Ha Hv Hh. assert (zlen (print_int v) <= 21) as Hl.
  { unfold print_int. pose proof (decimal_digits_length 20 (- v)). pose proof (decimal_digits_length 20 v).
    unfold print_decimal. destruct (v <? 0); unfold zlen; cbn [length]; lia. }
  pose proof (zlen_nonneg (print_int v)). exists (print_int v), (if b then str "true" else str "false").
  unfold neoc_decode_int64_to_string, neoc_decode_bool_to_string, allocate_string_from_format, neoc_malloc_ok. split_and!.
  - cmps. by rewrite Hh by lia.
  - destruct b; rewrite Hh by (by vm_compute); done.
  - unfold neoc_decode_int64_from_string. rewrite printed_read by done. unfold LLONG_MIN, LLONG_MAX. by cmps.
  - unfold neoc_decode_int_from_string. rewrite printed_read by done. unfold INT_MIN, INT_MAX.
    destruct (Z.ltb_spec v (- 2 ^ 31)), (Z.leb_spec (- 2 ^ 31) v), (Z.ltb_spec v (2 ^ 31)), (Z.ltb_spec (2 ^ 31 - 1) v); try lia; done.
  - unfold neoc_decode_bool_from_string. rewrite trim_tight by (done || destruct b; by split). destruct b; by vm_compute.
Qed.
End Roundtrips.

(** A boolean is read exactly from the words true and 1, false and 0, in any case and with spaces around them. *)
Theorem decode_bool_iff (string : list byte) (b : bool) :
  neoc_decode_bool_from_string (Some string) = Ok b <->
  map tolower (trim_whitespace string) ∈ (if b then [str "true"; str "1"] else [str "false"; str "0"]).
Proof.
  unfold neoc_decode_bool_from_string. set (t := trim_whitespace string).
  assert (zlen t = zlen (map tolower t)) as Hl by (unfold zlen; by rewrite length_map). rewrite Hl.
  set (buffer := map tolower t). rewrite list_elem_of_In. split.
  - destruct (_ =? 0); [done|]. destruct (8 <=? _); [done|].
    repeat case_bool_decide; cbn [orb]; intros [= <-]; cbn [In]; auto.
  - destruct b; cbn [In]; intros [<-|[<-|[]]]; by vm_compute.
Qed.

Section Fields.
Context `{Allocator} `{Double} (double_below double_above : double -> Z -> bool).

(** Comparisons of whole numbers are right. *)
Definition comparisons_work : Prop :=
  forall i n, - 2 ^ 31 <= i < 2 ^ 31 -> double_below (double_of_Z i) n = (i <? n) /\ double_above (double_of_Z i) n = (n <? i).

(** The fields of a JSON object are read out of its text: a text, a number as a number or as text, a boolean as a
    boolean or as text; a field that is not there is reported. *)
Theorem decode_json_fields (child : list (list byte * cJSON)) (fmt : bool) (name : list byte) :
  double_works -> comparisons_work -> plain (cJSON_Object child) -> (height (cJSON_Object child) <= 1024)%nat ->
  zlen (render fmt 0 (cJSON_Object child)) <= 2 ^ 29 -> heap_serves (2 * zlen (render fmt 0 (cJSON_Object child)) + 256) ->
  exists text, print_internal (cJSON_Object child) fmt = Ok text /\
    let field := cJSON_GetObjectItemCaseSensitive (cJSON_Object child) name in
    (forall s, field = Some (cJSON_String s) -> heap_serves (zlen s + 1) ->
       neoc_decode_json_string_field (Some text) (Some name) = Ok s /\
       neoc_decode_json_int_field double_below double_above (Some text) (Some name) = neoc_decode_int_from_string (Some s) /\
       neoc_decode_json_bool_field (Some text) (Some name) = neoc_decode_bool_from_string (Some s)) /\
    (forall i, field = Some (cJSON_Number (double_of_Z i)) -> - 2 ^ 31 <= i < 2 ^ 31 ->
       neoc_decode_json_int_field double_below double_above (Some text) (Some name) = Ok i) /\
    (forall b, field = Some (cJSON_Bool b) -> neoc_decode_json_bool_field (Some text) (Some name) = Ok b) /\
    (field = None -> neoc_decode_json_string_field (Some text) (Some name) = Err NEOC_ERROR_NOT_FOUND).
Proof.
  intros Hd Hc Hp Hh Hl Hs. destruct (print_parse _ fmt Hd Hp Hh Hl Hs) as (text & Et & Ep & _). exists text. split; [done|]. cbv zeta.
  assert (json_field (Some text) (Some name)
    = match cJSON_GetObjectItemCaseSensitive (cJSON_Object child) name with Some f => Ok f | None => Err NEOC_ERROR_NOT_FOUND end) as E.
  { unfold json_field, ensure_json_object. by rewrite Ep. }
  unfold neoc_decode_json_string_field, neoc_decode_json_int_field, neoc_decode_json_bool_field. rewrite E. split_and!.
  - intros s -> Hm. pose proof (zlen_nonneg s). cbn [rbind]. unfold neoc_strdup, neoc_malloc_ok. cmps. by rewrite Hm by lia.
  - intros i -> Hi. cbn [rbind]. destruct (Hc i INT_MIN Hi) as [-> _], (Hc i INT_MAX Hi) as [_ ->]. unfold INT_MIN, INT_MAX. cmps.
    unfold double_to_int. rewrite (works_trunc Hd) by lia. by cmps.
  - by intros b ->.
  - by intros ->.
Qed.
End Fields.

(** ** Samples *)

Section Samples.
#[local] Existing Instance mib_heap.
#[local] Existing Instance toy_double.

Lemma decode_number_iff_witness :
  parse_long_long (Some (str "  -42 ")) INT_MIN INT_MAX = Ok (-42).
Proof.
  apply (decode_number_iff (str "  -42 ") INT_MIN INT_MAX (-42)); [by vm_compute|by vm_compute|].
  exists (str "  "), (str "-"), true, (str "42"), (str " ").
  split_and!; try done; try (repeat constructor; by vm_compute); constructor.
Defined.

Lemma decode_text_roundtrip_witness :
  exists t, neoc_decode_int64_to_string (- 2 ^ 63) = Ok t /\ neoc_decode_int64_from_string (Some (str " " ++ t ++ [])) = Ok (- 2 ^ 63) /\
    neoc_decode_int_from_string (Some (str " " ++ t ++ [])) = Err NEOC_ERROR_INVALID_FORMAT.
Proof.
  destruct (decode_text_roundtrip (str " ") [] (- 2 ^ 63) true) as (t & u & E1 & _ & E2 & E3 & _).
  - repeat constructor.
  - constructor.
  - lia.
  - apply mib_heap_serves. by vm_compute.
  - exists t. by split_and!.
Defined.

Definition sample_object : list (list byte * cJSON) :=
  [(str "height", cJSON_Number 7); (str "ok", cJSON_String (str " TRUE"))].

Lemma sample_field : cJSON_GetObjectItemCaseSensitive (cJSON_Object sample_object) (str "HEIGHT") = Some (cJSON_Number 7).
Proof. reflexivity. Qed.

Lemma decode_json_fields_witness :
  exists text, print_internal (cJSON_Object sample_object) false = Ok text /\
    @neoc_decode_json_int_field mib_heap toy_double Z.ltb Z.gtb (Some text) (Some (str "HEIGHT")) = Ok 7.
Proof.
  destruct (@decode_json_fields mib_heap toy_double Z.ltb Z.gtb sample_object false (str "HEIGHT"))
    as (text & E & _ & Hi & _).
  - exact toy_double_works.
  - intros i n Hi. split; [done|apply Z.gtb_ltb].
  - cbn. split_and!; try done; try (repeat constructor; done). exists 7. split; [lia|done].
  - vm_compute. repeat constructor.
  - by vm_compute.
  - apply mib_heap_serves. by vm_compute.
  - exists text. split; [exact E|]. exact (Hi 7 sample_field ltac:(lia)).
Defined.
End Samples.
