(* ===== verification/ParameterType.v ===== *)
(** * Contract parameter types (src/types/contract_parameter_type.c)

    A type is the number of its enumerator; a cast can make it any number. *)

From S2P Require Import Prelude Cjson.
#[local] Open Scope Z_scope.

Definition NEOC_PARAM_TYPE_ANY : Z := 0x00.
Definition NEOC_PARAM_TYPE_BOOLEAN : Z := 0x10.
Definition NEOC_PARAM_TYPE_INTEGER : Z := 0x11.
Definition NEOC_PARAM_TYPE_BYTE_ARRAY : Z := 0x12.
Definition NEOC_PARAM_TYPE_STRING : Z := 0x13.
Definition NEOC_PARAM_TYPE_HASH160 : Z := 0x14.
Definition NEOC_PARAM_TYPE_HASH256 : Z := 0x15.
Definition NEOC_PARAM_TYPE_PUBLIC_KEY : Z := 0x16.
Definition NEOC_PARAM_TYPE_SIGNATURE : Z := 0x17.
Definition NEOC_PARAM_TYPE_ARRAY : Z := 0x20.
Definition NEOC_PARAM_TYPE_MAP : Z := 0x22.
Definition NEOC_PARAM_TYPE_INTEROP_INTERFACE : Z := 0x30.
Definition NEOC_PARAM_TYPE_VOID : Z := 0xff.

Definition neoc_contract_parameter_type_to_string (type : Z) : option (list byte) :=
  if type =? NEOC_PARAM_TYPE_ANY then Some (str "Any")
  else if type =? NEOC_PARAM_TYPE_BOOLEAN then Some (str "Boolean")
  else if type =? NEOC_PARAM_TYPE_INTEGER then Some (str "Integer")
  else if type =? NEOC_PARAM_TYPE_BYTE_ARRAY then Some (str "ByteArray")
  else if type =? NEOC_PARAM_TYPE_STRING then Some (str "String")
  else if type =? NEOC_PARAM_TYPE_HASH160 then Some (str "Hash160")
  else if type =? NEOC_PARAM_TYPE_HASH256 then Some (str "Hash256")
  else if type =? NEOC_PARAM_TYPE_PUBLIC_KEY then Some (str "PublicKey")
  else if type =? NEOC_PARAM_TYPE_SIGNATURE then Some (str "Signature")
  else if type =? NEOC_PARAM_TYPE_ARRAY then Some (str "Array")
  else if type =? NEOC_PARAM_TYPE_MAP then Some (str "Map")
  else if type =? NEOC_PARAM_TYPE_INTEROP_INTERFACE then Some (str "InteropInterface")
  else if type =? NEOC_PARAM_TYPE_VOID then Some (str "Void")
  else None.

(** [to_lower_char] is [tolower] on ASCII letters. *)
Fixpoint equals_ignore_case (a b : list byte) : bool :=
  match a, b with
  | c :: a, d :: b => bool_decide (to_lower c = to_lower d) && equals_ignore_case a b
  | [], [] => true
  | _, _ => false
  end.

(** The array of names and values. *)
Definition type_mapping : list (list byte * Z) :=
  [(str "Any", NEOC_PARAM_TYPE_ANY); (str "Boolean", NEOC_PARAM_TYPE_BOOLEAN); (str "Integer", NEOC_PARAM_TYPE_INTEGER);
   (str "ByteArray", NEOC_PARAM_TYPE_BYTE_ARRAY); (str "String", NEOC_PARAM_TYPE_STRING);
   (str "Hash160", NEOC_PARAM_TYPE_HASH160); (str "Hash256", NEOC_PARAM_TYPE_HASH256);
   (str "PublicKey", NEOC_PARAM_TYPE_PUBLIC_KEY); (str "Signature", NEOC_PARAM_TYPE_SIGNATURE);
   (str "Array", NEOC_PARAM_TYPE_ARRAY); (str "Map", NEOC_PARAM_TYPE_MAP);
   (str "InteropInterface", NEOC_PARAM_TYPE_INTEROP_INTERFACE); (str "Void", NEOC_PARAM_TYPE_VOID)].

Definition neoc_contract_parameter_type_from_string (s : option (list byte)) : res Z :=
  match s with
  | None => Err NEOC_ERROR_INVALID_ARGUMENT
  | Some s =>
      match List.find (fun m => equals_ignore_case s (fst m)) type_mapping with
      | Some m => Ok (snd m)
      | None => Err NEOC_ERROR_INVALID_ARGUMENT
      end
  end.

Definition neoc_contract_parameter_type_is_valid (type : Z) : bool :=
  existsb (Z.eqb type)
    [NEOC_PARAM_TYPE_ANY; NEOC_PARAM_TYPE_BOOLEAN; NEOC_PARAM_TYPE_INTEGER; NEOC_PARAM_TYPE_BYTE_ARRAY;
     NEOC_PARAM_TYPE_STRING; NEOC_PARAM_TYPE_HASH160; NEOC_PARAM_TYPE_HASH256; NEOC_PARAM_TYPE_PUBLIC_KEY;
     NEOC_PARAM_TYPE_SIGNATURE; NEOC_PARAM_TYPE_ARRAY; NEOC_PARAM_TYPE_MAP; NEOC_PARAM_TYPE_INTEROP_INTERFACE;
     NEOC_PARAM_TYPE_VOID].

Definition neoc_contract_parameter_type_to_byte (type : Z) : Z := wrap 8 type.

Definition neoc_contract_parameter_type_from_byte (b : Z) : res Z :=
  if negb (neoc_contract_parameter_type_is_valid b) then Err NEOC_ERROR_INVALID_ARGUMENT else Ok b.

(** ** Names and bytes denote the types *)

Lemma type_to_string_valid type :
  neoc_contract_parameter_type_to_string type = None <-> neoc_contract_parameter_type_is_valid type = false.
Proof.
  unfold neoc_contract_parameter_type_to_string, neoc_contract_parameter_type_is_valid. cbn [existsb].
  repeat (destruct (type =? _); [split; discriminate|]). cbn. done.
Qed.

Lemma type_name_roundtrip type name :
  neoc_contract_parameter_type_to_string type = Some name ->
  neoc_contract_parameter_type_from_string (Some name) = Ok type.
Proof.
  unfold neoc_contract_parameter_type_to_string.
  repeat (match goal with |- context [type =? ?t] => destruct (Z.eqb_spec type t) as [->|_] end; [intros [= <-]; by vm_compute|]).
  done.
Qed.

(** The text of a type is read in any case of its letters. *)
Lemma type_from_string_case s t : equals_ignore_case s t = true ->
  neoc_contract_parameter_type_from_string (Some s) = neoc_contract_parameter_type_from_string (Some t).
Proof.
  intros E. assert (forall n, equals_ignore_case s n = equals_ignore_case t n) as He.
  { clear - E. revert t E. induction s as [|c s IH]; intros [|d t] E n; try done. cbn in E. bdestruct. destruct n as [|e n]; [done|].
    cbn. match goal with Hx : to_lower c = _ |- _ => rewrite Hx end. f_equal. by apply IH. }
  unfold neoc_contract_parameter_type_from_string. induction type_mapping as [|m l IHl]; [done|]. cbn. rewrite He.
  by destruct (equals_ignore_case t m.1).
Qed.

Lemma type_byte_roundtrip type :
  neoc_contract_parameter_type_is_valid type = true ->
  neoc_contract_parameter_type_from_byte (neoc_contract_parameter_type_to_byte type) = Ok type.
Proof.
  intros Hv. unfold neoc_contract_parameter_type_is_valid in Hv. cbn [existsb] in Hv.
  repeat (apply orb_prop in Hv as [Hv|Hv]; [apply Z.eqb_eq in Hv as ->; by vm_compute|]). done.
Qed.
