(* ===== verification/Nep6.v ===== *)
(** * NEP-6 contracts and accounts (src/wallet/nep6/nep6_contract.c, nep6_account.c)

    The objects a NEP-6 wallet is made of, their setters, comparison and copies, and their
    JSON form.  Pointers that can be NULL are options; an array and its count are a list. *)

From S2P Require Import Prelude Cjson Json ParameterType.
#[local] Open Scope Z_scope.

Record neoc_nep6_parameter_t := mk_nep6_parameter {
  np_name : option (list byte);
  np_type : Z
}.

Record neoc_nep6_contract_t := mk_nep6_contract {
  nc_script : option (list byte);
  nc_parameters : list neoc_nep6_parameter_t;
  nc_is_deployed : bool
}.

Record neoc_nep6_account_t := mk_nep6_account {
  na_address : option (list byte);
  na_label : option (list byte);
  na_is_default : bool;
  na_lock : bool;
  na_key : option (list byte);
  na_contract : option neoc_nep6_contract_t;
  na_extra : list (list byte * list byte)
}.

(** [sizeof] of the structs *)
Definition nep6_parameter_size : Z := 16.
Definition nep6_contract_size : Z := 32.
Definition nep6_account_size : Z := 56.
Definition nep6_extra_size : Z := 16.

Section Operations.
Context `{Allocator} `{Double}.

(** [neoc_strdup] of a pointer that can be NULL, which is then kept. *)
Definition strdup_opt (s : option (list byte)) : res (option (list byte)) :=
  match s with
  | None => Ok None
  | Some s => let? s := neoc_strdup s NEOC_ERROR_OUT_OF_MEMORY in Ok (Some s)
  end.

(** ** Contracts *)

Definition neoc_nep6_contract_get_script (contract : option neoc_nep6_contract_t) : option (list byte) :=
  match contract with Some c => nc_script c | None => None end.
Definition neoc_nep6_contract_get_parameter_count (contract : option neoc_nep6_contract_t) : Z :=
  match contract with Some c => zlen (nc_parameters c) | None => 0 end.
Definition neoc_nep6_contract_get_parameter (contract : option neoc_nep6_contract_t) (index : Z)
  : option neoc_nep6_parameter_t :=
  match contract with Some c => buf_get (nc_parameters c) index | None => None end.
Definition neoc_nep6_contract_is_deployed (contract : option neoc_nep6_contract_t) : bool :=
  match contract with Some c => nc_is_deployed c | None => false end.
Definition neoc_nep6_parameter_get_name (parameter : option neoc_nep6_parameter_t) : option (list byte) :=
  match parameter with Some p => np_name p | None => None end.
Definition neoc_nep6_parameter_get_type (parameter : option neoc_nep6_parameter_t) : Z :=
  match parameter with Some p => np_type p | None => NEOC_PARAM_TYPE_ANY end.

(** The loop that copies the parameters. *)
Fixpoint copy_parameters (parameters : list neoc_nep6_parameter_t) : res (list neoc_nep6_parameter_t) :=
  match parameters with
  | [] => Ok []
  | p :: parameters =>
      let? name := strdup_opt (np_name p) in
      let? rest := copy_parameters parameters in
      Ok (mk_nep6_parameter name (np_type p) :: rest)
  end.

Definition neoc_nep6_contract_create (script : option (list byte)) (parameters : list neoc_nep6_parameter_t)
    (is_deployed : bool) : res neoc_nep6_contract_t :=
  if negb (neoc_malloc_ok nep6_contract_size) then Err NEOC_ERROR_MEMORY
  else
    let? script := strdup_opt script in
    let? parameters :=
      (if 0 <? zlen parameters then
         if negb (neoc_malloc_ok (zlen parameters * nep6_parameter_size)) then Err NEOC_ERROR_MEMORY
         else copy_parameters parameters
       else Ok []) in
    Ok (mk_nep6_contract script parameters is_deployed).

Definition neoc_nep6_contract_clone (src : neoc_nep6_contract_t) : res neoc_nep6_contract_t :=
  neoc_nep6_contract_create (nc_script src) (nc_parameters src) (nc_is_deployed src).

Definition neoc_nep6_parameter_create (name : option (list byte)) (type : Z) : res neoc_nep6_parameter_t :=
  if negb (neoc_malloc_ok nep6_parameter_size) then Err NEOC_ERROR_MEMORY
  else let? name := strdup_opt name in Ok (mk_nep6_parameter name type).

(** [strcmp] of two pointers of which either can be NULL. *)
Definition text_equal (a b : option (list byte)) : bool := bool_decide (a = b).

Fixpoint parameters_equal (a b : list neoc_nep6_parameter_t) : bool :=
  match a, b with
  | p :: a, q :: b => (np_type p =? np_type q) && text_equal (np_name p) (np_name q) && parameters_equal a b
  | _, _ => true
  end.

(** Two different objects. *)
Definition neoc_nep6_contracts_equal (a b : neoc_nep6_contract_t) : bool :=
  Bool.eqb (nc_is_deployed a) (nc_is_deployed b) && text_equal (nc_script a) (nc_script b) &&
  (zlen (nc_parameters a) =? zlen (nc_parameters b)) && parameters_equal (nc_parameters a) (nc_parameters b).

Definition append_parameter_json (parameter : neoc_nep6_parameter_t) : M cJSON unit :=
  let! param_obj := lift neoc_json_create_object in
  let fields : M cJSON unit :=
    do! (match np_name parameter with
         | Some name => neoc_json_add_string (str "name") (Some name)
         | None => ret tt
         end) in
    match neoc_contract_parameter_type_to_string (np_type parameter) with
    | Some type_str => neoc_json_add_string (str "type") (Some type_str)
    | None => neoc_json_add_int (str "type") (np_type parameter)
    end in
  let '(r, param_obj) := fields param_obj in
  do! lift r in neoc_json_array_add param_obj.

Definition contract_fields (contract : neoc_nep6_contract_t) : M cJSON unit :=
  do! (match nc_script contract with
       | Some script => neoc_json_add_string (str "script") (Some script)
       | None => ret tt
       end) in
  do! neoc_json_add_bool (str "isDeployed") (nc_is_deployed contract) in
  let! params_array := lift neoc_json_create_array in
  let '(r, params_array) := for_each append_parameter_json (nc_parameters contract) params_array in
  do! lift r in neoc_json_add_object (str "parameters") params_array.

Definition neoc_nep6_contract_to_json (contract : neoc_nep6_contract_t) : res (list byte) :=
  let? root := neoc_json_create_object in
  let '(r, root) := contract_fields contract root in
  let? _ := r in neoc_json_to_string root.

Definition parse_parameter_from_json (param_json : cJSON) : res neoc_nep6_parameter_t :=
  let? name := strdup_opt (neoc_json_get_string param_json (str "name")) in
  match neoc_json_get_string param_json (str "type") with
  | Some type_str =>
      let? type := neoc_contract_parameter_type_from_string (Some type_str) in Ok (mk_nep6_parameter name type)
  | None =>
      match neoc_json_get_int param_json (str "type") with
      | Ok type_value => Ok (mk_nep6_parameter name (wrap 32 type_value))
      | Err _ => Err NEOC_ERROR_INVALID_FORMAT
      | Fault => Fault
      end
  end.

Fixpoint parse_parameters (items : list cJSON) : res (list neoc_nep6_parameter_t) :=
  match items with
  | [] => Ok []
  | item :: items =>
      let? p := parse_parameter_from_json item in
      let? rest := parse_parameters items in Ok (p :: rest)
  end.

Definition neoc_nep6_contract_from_json (json_str : option (list byte)) : res neoc_nep6_contract_t :=
  match json_str with
  | None => Err NEOC_ERROR_INVALID_ARGUMENT
  | Some _ =>
      let? root := neoc_json_parse json_str in
      if negb (neoc_malloc_ok nep6_contract_size) then Err NEOC_ERROR_MEMORY
      else
        let? script := strdup_opt (neoc_json_get_string root (str "script")) in
        let? is_deployed :=
          match neoc_json_get_bool root (str "isDeployed") with
          | Ok b => Ok b | Err _ => Ok false | Fault => Fault
          end in
        let? parameters :=
          match neoc_json_get_array root (str "parameters") with
          | Some (cJSON_Array items) =>
              if 0 <? zlen items then
                if negb (neoc_malloc_ok (zlen items * nep6_parameter_size)) then Err NEOC_ERROR_MEMORY
                else parse_parameters items
              else Ok []
          | _ => Ok []
          end in
        Ok (mk_nep6_contract script parameters is_deployed)
  end.

(** ** Accounts *)

Definition neoc_nep6_account_create (address label : option (list byte)) (is_default lock : bool)
    (key : option (list byte)) (contract : option neoc_nep6_contract_t) : res neoc_nep6_account_t :=
  match address with
  | None => Err NEOC_ERROR_INVALID_ARGUMENT
  | Some address =>
      if negb (neoc_malloc_ok nep6_account_size) then Err NEOC_ERROR_OUT_OF_MEMORY
      else
        let? address := neoc_strdup address NEOC_ERROR_OUT_OF_MEMORY in
        let? label := strdup_opt label in
        let? key := strdup_opt key in
        Ok (mk_nep6_account (Some address) label is_default lock key contract [])
  end.

Abbreviation Nep := (M neoc_nep6_account_t).

Definition neoc_nep6_account_set_address (address : option (list byte)) : Nep unit := fun a =>
  match address with
  | None => (Err NEOC_ERROR_INVALID_ARGUMENT, a)
  | Some _ =>
      match strdup_opt address with
      | Ok copy => (Ok tt, mk_nep6_account copy (na_label a) (na_is_default a) (na_lock a) (na_key a) (na_contract a) (na_extra a))
      | Err e => (Err e, a)
      | Fault => (Fault, a)
      end
  end.

Definition neoc_nep6_account_set_label (label : option (list byte)) : Nep unit := fun a =>
  match strdup_opt label with
  | Ok copy => (Ok tt, mk_nep6_account (na_address a) copy (na_is_default a) (na_lock a) (na_key a) (na_contract a) (na_extra a))
  | Err e => (Err e, a)
  | Fault => (Fault, a)
  end.

Definition neoc_nep6_account_set_default (is_default : bool) : Nep unit := fun a =>
  (Ok tt, mk_nep6_account (na_address a) (na_label a) is_default (na_lock a) (na_key a) (na_contract a) (na_extra a)).

Definition neoc_nep6_account_set_locked (lock : bool) : Nep unit := fun a =>
  (Ok tt, mk_nep6_account (na_address a) (na_label a) (na_is_default a) lock (na_key a) (na_contract a) (na_extra a)).

Definition neoc_nep6_account_set_key (key : option (list byte)) : Nep unit := fun a =>
  match strdup_opt key with
  | Ok copy => (Ok tt, mk_nep6_account (na_address a) (na_label a) (na_is_default a) (na_lock a) copy (na_contract a) (na_extra a))
  | Err e => (Err e, a)
  | Fault => (Fault, a)
  end.

(** The account owns the contract from now on. *)
Definition neoc_nep6_account_set_contract (contract : option neoc_nep6_contract_t) : Nep unit := fun a =>
  (Ok tt, mk_nep6_account (na_address a) (na_label a) (na_is_default a) (na_lock a) (na_key a) contract (na_extra a)).

(** A failed addition is not noticed. *)
Definition ignoring (m : M cJSON unit) : M cJSON unit := do! attempt m in ret tt.

Definition add_optional (name : list byte) (value : option (list byte)) : M cJSON unit :=
  match value with Some v => ignoring (neoc_json_add_string name (Some v)) | None => ret tt end.

(** The contract is printed, parsed and attached; when any of that fails it is left out. *)
Definition add_contract (contract : option neoc_nep6_contract_t) : M cJSON unit :=
  match contract with
  | None => ret tt
  | Some contract =>
      match neoc_nep6_contract_to_json contract with
      | Ok contract_json =>
          match neoc_json_parse (Some contract_json) with
          | Ok contract_obj => ignoring (neoc_json_add_object (str "contract") contract_obj)
          | Err _ => ret tt
          | Fault => fault
          end
      | Err _ => ret tt
      | Fault => fault
      end
  end.

Definition add_extra (extra : list (list byte * list byte)) : M cJSON unit :=
  match extra with
  | [] => ret tt
  | _ =>
      match neoc_json_create_object with
      | Ok object =>
          let '(r, object) := for_each (fun f => ignoring (neoc_json_add_string (fst f) (Some (snd f)))) extra object in
          do! lift r in ignoring (neoc_json_add_object (str "extra") object)
      | _ => ret tt
      end
  end.

Definition account_fields (account : neoc_nep6_account_t) : M cJSON unit :=
  do! ignoring (neoc_json_add_string (str "address") (na_address account)) in
  do! add_optional (str "label") (na_label account) in
  do! ignoring (neoc_json_add_bool (str "isDefault") (na_is_default account)) in
  do! ignoring (neoc_json_add_bool (str "lock") (na_lock account)) in
  do! add_optional (str "key") (na_key account) in
  do! add_contract (na_contract account) in
  add_extra (na_extra account).

Definition neoc_nep6_account_to_json (account : neoc_nep6_account_t) : res (list byte) :=
  let? json := neoc_json_create_object in
  let '(r, json) := account_fields account json in
  let? _ := r in
  match neoc_json_to_string json with
  | Err _ => Err NEOC_ERROR_OUT_OF_MEMORY
  | text => text
  end.

Definition get_bool_or_false (json : cJSON) (name : list byte) : bool :=
  match neoc_json_get_bool json name with Ok b => b | _ => false end.

(** The contract inside is printed and parsed again; when that fails there is none. *)
Definition read_contract (json : cJSON) : res (option neoc_nep6_contract_t) :=
  match neoc_json_get_object json (str "contract") with
  | None => Ok None
  | Some contract_json =>
      match neoc_json_to_string contract_json with
      | Ok contract_str =>
          match neoc_nep6_contract_from_json (Some contract_str) with
          | Ok contract => Ok (Some contract)
          | Err _ => Ok None
          | Fault => Fault
          end
      | Err _ => Ok None
      | Fault => Fault
      end
  end.

(** The extra fields are not read. *)
Definition neoc_nep6_account_from_json (json_str : option (list byte)) : res neoc_nep6_account_t :=
  match json_str with
  | None => Err NEOC_ERROR_INVALID_ARGUMENT
  | Some _ =>
      match neoc_json_parse json_str with
      | Err _ => Err NEOC_ERROR_INVALID_FORMAT
      | Fault => Fault
      | Ok json =>
          match neoc_json_get_string json (str "address") with
          | None => Err NEOC_ERROR_INVALID_FORMAT
          | Some address =>
              let? contract := read_contract json in
              neoc_nep6_account_create (Some address) (neoc_json_get_string json (str "label"))
                (get_bool_or_false json (str "isDefault")) (get_bool_or_false json (str "lock"))
                (neoc_json_get_string json (str "key")) contract
          end
      end
  end.

(** The fields of [a] all have a first field of the same name in [b], with the same value. *)
Definition extra_equal (a b : list (list byte * list byte)) : bool :=
  forallb (fun f =>
    match List.find (fun g => bool_decide (fst f = fst g)) b with
    | Some g => bool_decide (snd f = snd g)
    | None => false
    end) a.

(** Two different objects; a NULL address is read. *)
Definition neoc_nep6_account_equals (a b : neoc_nep6_account_t) : res bool :=
  match na_address a, na_address b with
  | Some x, Some y =>
      Ok (bool_decide (x = y) && text_equal (na_label a) (na_label b) &&
          Bool.eqb (na_is_default a) (na_is_default b) && Bool.eqb (na_lock a) (na_lock b) &&
          text_equal (na_key a) (na_key b) &&
          match na_contract a, na_contract b with
          | Some c, Some d => neoc_nep6_contracts_equal c d
          | None, None => true
          | _, _ => false
          end &&
          (zlen (na_extra a) =? zlen (na_extra b)) && extra_equal (na_extra a) (na_extra b))
  | _, _ => Fault
  end.

Fixpoint copy_extra (extra : list (list byte * list byte)) : res (list (list byte * list byte)) :=
  match extra with
  | [] => Ok []
  | (key, value) :: extra =>
      let? key := neoc_strdup key NEOC_ERROR_OUT_OF_MEMORY in
      let? value := neoc_strdup value NEOC_ERROR_OUT_OF_MEMORY in
      let? rest := copy_extra extra in Ok ((key, value) :: rest)
  end.

Definition neoc_nep6_account_copy (src : neoc_nep6_account_t) : res neoc_nep6_account_t :=
  let? contract :=
    match na_contract src with
    | Some c => let? c := neoc_nep6_contract_clone c in Ok (Some c)
    | None => Ok None
    end in
  let? a := neoc_nep6_account_create (na_address src) (na_label src) (na_is_default src) (na_lock src) (na_key src) contract in
  let? extra :=
    (if 0 <? zlen (na_extra src) then
       if negb (neoc_malloc_ok (zlen (na_extra src) * nep6_extra_size)) then Err NEOC_ERROR_OUT_OF_MEMORY
       else copy_extra (na_extra src)
     else Ok []) in
  Ok (mk_nep6_account (na_address a) (na_label a) (na_is_default a) (na_lock a) (na_key a) (na_contract a) extra).
End Operations.

(** ** The trees of contracts and accounts *)

Section Trees.
Context `{Double}.

Definition opt_member (name : list byte) (v : option (list byte)) : list (list byte * cJSON) :=
  match v with Some v => [(name, cJSON_String v)] | None => [] end.

Definition parameter_tree (p : neoc_nep6_parameter_t) : cJSON :=
  cJSON_Object (opt_member (str "name") (np_name p) ++
    [(str "type", match neoc_contract_parameter_type_to_string (np_type p) with
                  | Some s => cJSON_String s | None => cJSON_Number (double_of_Z (np_type p)) end)]).

Definition contract_tree (c : neoc_nep6_contract_t) : cJSON :=
  cJSON_Object (opt_member (str "script") (nc_script c) ++
    [(str "isDeployed", cJSON_Bool (nc_is_deployed c)); (str "parameters", cJSON_Array (map parameter_tree (nc_parameters c)))]).

Definition contract_member (c : option neoc_nep6_contract_t) : list (list byte * cJSON) :=
  match c with Some c => [(str "contract", contract_tree c)] | None => [] end.

Definition extra_member (extra : list (list byte * list byte)) : list (list byte * cJSON) :=
  match extra with
  | [] => []
  | _ => [(str "extra", cJSON_Object (map (fun f => (fst f, cJSON_String (snd f))) extra))]
  end.

Definition account_tree (address : list byte) (a : neoc_nep6_account_t) : cJSON :=
  cJSON_Object ([(str "address", cJSON_String address)] ++ opt_member (str "label") (na_label a) ++
    [(str "isDefault", cJSON_Bool (na_is_default a)); (str "lock", cJSON_Bool (na_lock a))] ++
    opt_member (str "key") (na_key a) ++ contract_member (na_contract a) ++ extra_member (na_extra a)).
End Trees.

(** ** Writing and reading *)

Section Json.
Context `{Allocator} `{Double}.
Hypothesis Hd : double_works.
Variable n : Z.
Hypothesis Hheap : heap_serves n.
Hypothesis Hn : 256 <= n <= 2 ^ 30.

(** A C string without quotes, shorter than [n]. *)
Definition text_ok (s : list byte) : Prop := json_text s /\ zlen s < n.
Definition opt_ok (s : option (list byte)) : Prop := match s with Some s => text_ok s | None => True end.

(** A tree whose text can be printed. *)
Definition tree_fits (t : cJSON) : Prop := 2 * zlen (render false 0 t) + 256 <= n.

Definition parameter_ok (p : neoc_nep6_parameter_t) : Prop := opt_ok (np_name p) /\ 0 <= np_type p < 2 ^ 31.

Definition contract_ok (c : neoc_nep6_contract_t) : Prop :=
  opt_ok (nc_script c) /\ Forall parameter_ok (nc_parameters c) /\ zlen (nc_parameters c) * nep6_parameter_size <= n /\
  tree_fits (contract_tree c).

Definition account_ok (address : list byte) (a : neoc_nep6_account_t) : Prop :=
  na_address a = Some address /\ text_ok address /\ opt_ok (na_label a) /\ opt_ok (na_key a) /\
  match na_contract a with Some c => contract_ok c | None => True end /\
  Forall (fun f => text_ok (fst f) /\ text_ok (snd f)) (na_extra a) /\ tree_fits (account_tree address a).

Lemma neoc_malloc_fits k : 0 < k <= n -> neoc_malloc_ok k = true.
Proof. intros Hk. unfold neoc_malloc_ok. cmps. apply Hheap. lia. Qed.

Lemma strdup_text s : text_ok s -> neoc_strdup s NEOC_ERROR_OUT_OF_MEMORY = Ok s.
Proof. intros [_ Hs]. pose proof (zlen_nonneg s). unfold neoc_strdup. by rewrite neoc_malloc_fits by lia. Qed.

Lemma strdup_opt_ok s : opt_ok s -> strdup_opt s = Ok s.
Proof. destruct s as [s|]; [|done]. intros Hs. cbn. by rewrite strdup_text. Qed.

(** The parameter types have names of at most 16 letters. *)
Lemma type_name_ok t s : neoc_contract_parameter_type_to_string t = Some s -> text_ok s.
Proof.
  unfold neoc_contract_parameter_type_to_string. repeat (destruct (t =? _); [intros [= <-]; split; [by repeat constructor|]|]); [..|done].
  all: match goal with |- zlen ?s < _ => let v := eval vm_compute in (zlen s) in change (zlen s) with v end; lia.
Qed.

Lemma add_text name value child : zlen name < 64 -> text_ok value ->
  neoc_json_add_string name (Some value) (cJSON_Object child) = (Ok tt, cJSON_Object (child ++ [(name, cJSON_String value)])).
Proof. intros Hname [_ Hv]. apply (add_string_ok n); [done|unfold cJSON_size; lia|lia|lia]. Qed.

Lemma add_flag name value child : zlen name < 64 ->
  neoc_json_add_bool name value (cJSON_Object child) = (Ok tt, cJSON_Object (child ++ [(name, cJSON_Bool value)])).
Proof. intros Hname. apply (add_bool_ok n); [done|unfold cJSON_size; lia|lia]. Qed.

Lemma add_child name item child : zlen name < 64 ->
  neoc_json_add_object name item (cJSON_Object child) = (Ok tt, cJSON_Object (child ++ [(name, item)])).
Proof. intros Hname. apply (add_object_ok n); [done|lia]. Qed.

Lemma add_int_ok name v child : zlen name < 64 -> - 2 ^ 31 <= v < 2 ^ 31 ->
  neoc_json_add_int name v (cJSON_Object child) = (Ok tt, cJSON_Object (child ++ [(name, cJSON_Number (double_of_Z v))])).
Proof.
  intros Hname Hv. unfold neoc_json_add_int, neoc_json_add_number, cJSON_CreateNumber, cJSON_size. rewrite Hheap by lia.
  unfold double_to_int. rewrite (works_trunc Hd) by lia. cmps. cbn [rbind]. rewrite bind_lift. cbn.
  pose proof (zlen_nonneg name). by rewrite Hheap by lia.
Qed.

Lemma create_object_ok : neoc_json_create_object = Ok (cJSON_Object []).
Proof. unfold neoc_json_create_object, cJSON_CreateObject, cJSON_size. by rewrite Hheap by lia. Qed.

Lemma create_array_ok : neoc_json_create_array = Ok (cJSON_Array []).
Proof. unfold neoc_json_create_array, cJSON_CreateArray, cJSON_size. by rewrite Hheap by lia. Qed.

Lemma append_parameter_ok p xs : parameter_ok p ->
  append_parameter_json p (cJSON_Array xs) = (Ok tt, cJSON_Array (xs ++ [parameter_tree p])).
Proof.
  intros [Hname Ht]. unfold append_parameter_json. rewrite create_object_ok, bind_lift. unfold parameter_tree.
  assert (forall child, (match neoc_contract_parameter_type_to_string (np_type p) with
    | Some type_str => neoc_json_add_string (str "type") (Some type_str)
    | None => neoc_json_add_int (str "type") (np_type p) end) (cJSON_Object child) =
    (Ok tt, cJSON_Object (child ++ [(str "type", match neoc_contract_parameter_type_to_string (np_type p) with
                  | Some s => cJSON_String s | None => cJSON_Number (double_of_Z (np_type p)) end)]))) as Htype.
  { intros child. destruct (neoc_contract_parameter_type_to_string (np_type p)) as [s|] eqn:E.
    - apply add_text; [done|by eapply type_name_ok].
    - apply add_int_ok; [done|lia]. }
  destruct (np_name p) as [name|].
  - rewrite (bind_ok _ _ _ _ _ (add_text (str "name") name [] ltac:(done) Hname)), Htype, bind_lift. done.
  - rewrite (bind_ok _ _ _ tt (cJSON_Object [])) by done. rewrite Htype, bind_lift. done.
Qed.

Lemma append_parameters_ok ps : forall xs, Forall parameter_ok ps ->
  for_each append_parameter_json ps (cJSON_Array xs) = (Ok tt, cJSON_Array (xs ++ map parameter_tree ps)).
Proof.
  induction ps as [|p ps IH]; intros xs Hps; cbn [for_each map]; [by rewrite app_nil_r|]. inversion_clear Hps.
  rewrite (bind_ok _ _ _ _ _ (append_parameter_ok p xs ltac:(done))), IH by done. by rewrite <- app_assoc.
Qed.

Lemma contract_fields_ok c : contract_ok c -> contract_fields c (cJSON_Object []) = (Ok tt, contract_tree c).
Proof.
  intros (Hs & Hp & _). unfold contract_fields, contract_tree.
  assert (forall child, (do! neoc_json_add_bool (str "isDeployed") (nc_is_deployed c) in
    let! params_array := lift neoc_json_create_array in
    let '(r, params_array) := for_each append_parameter_json (nc_parameters c) params_array in
    do! lift r in neoc_json_add_object (str "parameters") params_array) (cJSON_Object child) =
    (Ok tt, cJSON_Object (child ++ [(str "isDeployed", cJSON_Bool (nc_is_deployed c));
       (str "parameters", cJSON_Array (map parameter_tree (nc_parameters c)))]))) as Hrest.
  { intros child. rewrite (bind_ok _ _ _ _ _ (add_flag (str "isDeployed") _ child ltac:(done))).
    rewrite create_array_ok, bind_lift, append_parameters_ok by done. rewrite bind_lift, add_child by done.
    by rewrite <- app_assoc. }
  destruct (nc_script c) as [s|].
  - rewrite (bind_ok _ _ _ _ _ (add_text (str "script") s [] ltac:(done) Hs)), Hrest. done.
  - rewrite (bind_ok _ _ _ tt (cJSON_Object [])) by done. by rewrite Hrest.
Qed.

Lemma opt_member_plain name v : json_text name -> opt_ok v ->
  Forall (fun m => json_text (fst m) /\ plain (snd m)) (opt_member name v).
Proof. intros Hname Hv. destruct v as [v|]; [|constructor]. constructor; [|constructor]. split; [done|apply Hv]. Qed.

Lemma parameter_tree_plain p : parameter_ok p -> plain (parameter_tree p).
Proof.
  intros [Hname Ht]. apply plain_object, Forall_app. split; [apply opt_member_plain; [by repeat constructor|done]|].
  constructor; [|constructor]. split; [by repeat constructor|]. cbn [snd].
  destruct (neoc_contract_parameter_type_to_string _) as [s|] eqn:E; cbn [plain].
  - by eapply type_name_ok.
  - exists (np_type p). split; [lia|done].
Qed.

Lemma contract_tree_plain c : contract_ok c -> plain (contract_tree c).
Proof.
  intros (Hs & Hp & _). apply plain_object, Forall_app. split; [apply opt_member_plain; [by repeat constructor|done]|].
  constructor; [split; [by repeat constructor|done]|]. constructor; [|constructor]. split; [by repeat constructor|].
  cbn [snd]. apply plain_array, Forall_map. eapply Forall_impl; [exact Hp|]. apply parameter_tree_plain.
Qed.

Lemma contract_height c : (height (contract_tree c) <= 3)%nat.
Proof.
  assert (forall ps, list_max (map height (map parameter_tree ps)) <= 1)%nat as Hps.
  { intros ps. apply list_max_le, Forall_map, Forall_map, Forall_forall. intros p _. unfold parameter_tree. cbn [height].
    destruct (np_name p); cbn; destruct (neoc_contract_parameter_type_to_string _); cbn; lia. }
  specialize (Hps (nc_parameters c)). unfold contract_tree. destruct (nc_script c); cbn in *; lia.
Qed.

(** A contract printed and parsed. *)
Lemma contract_text c : contract_ok c ->
  exists text, neoc_nep6_contract_to_json c = Ok text /\ neoc_json_parse (Some text) = Ok (contract_tree c) /\
    neoc_json_to_string (contract_tree c) = Ok text.
Proof.
  intros Hc. pose proof (contract_tree_plain c Hc) as Hp. pose proof (contract_height c) as Hh.
  pose proof Hc as (_ & _ & _ & Hf). unfold tree_fits in Hf.
  destruct (to_string_parse Hd (contract_tree c) Hp ltac:(lia) ltac:(lia)) as (text & Et & Ep);
    [by eapply heap_serves_mono|]. exists text.
  unfold neoc_nep6_contract_to_json. rewrite create_object_ok. cbn [rbind]. by rewrite contract_fields_ok.
Qed.

Lemma parse_parameter_ok p : parameter_ok p -> parse_parameter_from_json (parameter_tree p) = Ok p.
Proof.
  intros [Hname Ht]. unfold parse_parameter_from_json, parameter_tree. destruct p as [name t]. cbn [np_name np_type] in *.
  assert (neoc_json_get_string (cJSON_Object (opt_member (str "name") name ++
    [(str "type", match neoc_contract_parameter_type_to_string t with
                  | Some s => cJSON_String s | None => cJSON_Number (double_of_Z t) end)])) (str "name") = name) as ->
    by (by destruct name, (neoc_contract_parameter_type_to_string t)).
  rewrite strdup_opt_ok by done. cbn [rbind].
  destruct (neoc_contract_parameter_type_to_string t) as [s|] eqn:E.
  - assert (neoc_json_get_string (cJSON_Object (opt_member (str "name") name ++ [(str "type", cJSON_String s)])) (str "type") = Some s)
      as -> by (by destruct name). by rewrite (type_name_roundtrip t s E).
  - assert (neoc_json_get_string (cJSON_Object (opt_member (str "name") name ++ [(str "type", cJSON_Number (double_of_Z t))])) (str "type") = None)
      as -> by (by destruct name).
    assert (neoc_json_get_number (cJSON_Object (opt_member (str "name") name ++ [(str "type", cJSON_Number (double_of_Z t))])) (str "type")
      = Ok (double_of_Z t)) as Hnum by (by destruct name).
    unfold neoc_json_get_int. rewrite Hnum. cbn [rbind]. rewrite (works_trunc Hd) by lia. cmps. by rewrite wrap_small by lia.
Qed.

Lemma parse_parameters_ok ps : Forall parameter_ok ps -> parse_parameters (map parameter_tree ps) = Ok ps.
Proof.
  induction 1 as [|p ps Hp _ IH]; [done|]. cbn [map parse_parameters]. rewrite parse_parameter_ok by done. cbn [rbind]. by rewrite IH.
Qed.

Lemma contract_from_text c text : contract_ok c -> neoc_json_parse (Some text) = Ok (contract_tree c) ->
  neoc_nep6_contract_from_json (Some text) = Ok c.
Proof.
  intros (Hs & Hp & Hl & _) E. unfold neoc_nep6_contract_from_json. rewrite E. cbn [rbind].
  rewrite neoc_malloc_fits by (unfold nep6_contract_size; lia). cbn [negb]. destruct c as [script ps dep]. cbn in Hs, Hp, Hl.
  unfold contract_tree. cbn [nc_script nc_is_deployed nc_parameters]. set (arr := map parameter_tree ps).
  assert (neoc_json_get_string (cJSON_Object (opt_member (str "script") script ++
    [(str "isDeployed", cJSON_Bool dep); (str "parameters", cJSON_Array arr)])) (str "script") = script) as -> by (by destruct script).
  rewrite strdup_opt_ok by done. cbn [rbind].
  assert (neoc_json_get_bool (cJSON_Object (opt_member (str "script") script ++
    [(str "isDeployed", cJSON_Bool dep); (str "parameters", cJSON_Array arr)])) (str "isDeployed") = Ok dep) as -> by (by destruct script).
  assert (neoc_json_get_array (cJSON_Object (opt_member (str "script") script ++
    [(str "isDeployed", cJSON_Bool dep); (str "parameters", cJSON_Array arr)])) (str "parameters") = Some (cJSON_Array arr)) as ->
    by (by destruct script).
  cbn [rbind]. unfold arr. rewrite zlen_map. destruct (Z.ltb_spec 0 (zlen ps)) as [Hz|Hz].
  - rewrite neoc_malloc_fits by (unfold nep6_parameter_size in *; lia). cbn [negb]. by rewrite parse_parameters_ok.
  - pose proof (zlen_nonneg ps). assert (ps = []) as -> by (apply zlen_zero; lia). done.
Qed.

Lemma ignoring_ok (m : M cJSON unit) s t : m s = (Ok tt, t) -> ignoring m s = (Ok tt, t).
Proof. intros E. unfold ignoring, attempt, bind. by rewrite E. Qed.

Lemma appends_optional name v : zlen name < 64 -> opt_ok v -> appends (add_optional name v) (opt_member name v).
Proof.
  intros Hname Hv. destruct v as [v|]; [|apply appends_nil]. intros child. by apply ignoring_ok, add_text.
Qed.

Lemma appends_contract c : match c with Some c => contract_ok c | None => True end ->
  appends (add_contract c) (contract_member c).
Proof.
  intros Hc. destruct c as [c|]; [|apply appends_nil]. intros child. unfold add_contract.
  destruct (contract_text c Hc) as (text & -> & -> & _). by apply ignoring_ok, add_child.
Qed.

Lemma appends_extra extra : Forall (fun f => text_ok (fst f) /\ text_ok (snd f)) extra ->
  appends (add_extra extra) (extra_member extra).
Proof.
  intros He. destruct extra as [|f extra]; [apply appends_nil|]. intros child. unfold add_extra.
  rewrite create_object_ok. remember (f :: extra) as fs eqn:Efs.
  assert (forall done_, for_each (fun f => ignoring (neoc_json_add_string (fst f) (Some (snd f)))) fs (cJSON_Object done_) =
    (Ok tt, cJSON_Object (done_ ++ map (fun f => (fst f, cJSON_String (snd f))) fs))) as Hloop.
  { clear Efs. induction He as [|g fs [Hg1 Hg2] _ IH]; intros done_; cbn [for_each map]; [by rewrite app_nil_r|].
    rewrite (bind_ok _ _ _ tt (cJSON_Object (done_ ++ [(fst g, cJSON_String (snd g))]))), IH; [by rewrite <- app_assoc|].
    apply ignoring_ok. apply (add_string_ok n); [done|unfold cJSON_size; lia|apply Hg1|apply Hg2]. }
  rewrite Hloop, bind_lift. subst fs. by apply ignoring_ok, add_child.
Qed.

Lemma account_fields_ok address a : account_ok address a ->
  account_fields a (cJSON_Object []) = (Ok tt, account_tree address a).
Proof.
  intros (Ea & Ha & Hl & Hk & Hc & He & _). unfold account_fields, account_tree. rewrite Ea.
  assert (forall name v, zlen name < 64 -> appends (ignoring (neoc_json_add_bool name v)) [(name, cJSON_Bool v)]) as Hflag.
  { intros name v Hname child. by apply ignoring_ok, add_flag. }
  rewrite (appends_bind _ _ [(str "address", cJSON_String address)] (opt_member (str "label") (na_label a) ++
    [(str "isDefault", cJSON_Bool (na_is_default a))] ++ [(str "lock", cJSON_Bool (na_lock a))] ++
    opt_member (str "key") (na_key a) ++ contract_member (na_contract a) ++ extra_member (na_extra a))); [done| |].
  - intros child. by apply ignoring_ok, add_text.
  - apply appends_bind; [by apply appends_optional|]. apply appends_bind; [by apply Hflag|]. apply appends_bind; [by apply Hflag|].
    apply appends_bind; [by apply appends_optional|]. apply appends_bind; [by apply appends_contract|by apply appends_extra].
Qed.

Lemma account_tree_plain address a : account_ok address a -> plain (account_tree address a).
Proof.
  intros (Ea & Ha & Hl & Hk & Hc & He & _). apply plain_object. rewrite !Forall_app.
  split; [constructor; [split; [by repeat constructor|apply Ha]|constructor]|].
  split; [apply opt_member_plain; [by repeat constructor|done]|].
  split; [constructor; [split; [by repeat constructor|done]|constructor; [split; [by repeat constructor|done]|constructor]]|].
  split; [apply opt_member_plain; [by repeat constructor|done]|]. split.
  - destruct (na_contract a) as [c|]; [|constructor]. constructor; [|constructor]. split; [by repeat constructor|by apply contract_tree_plain].
  - destruct (na_extra a) as [|f fs]; [constructor|]. constructor; [|constructor]. split; [by repeat constructor|].
    apply plain_object, Forall_map. eapply Forall_impl; [exact He|]. intros g [[Hg1 _] [Hg2 _]]. by split.
Qed.

Lemma account_height address a : (height (account_tree address a) <= 4)%nat.
Proof.
  assert (forall ms, (list_max (map (fun m => height (snd m)) ms) <= 3)%nat -> (height (cJSON_Object ms) <= 4)%nat) as Hms by (cbn; lia).
  apply Hms, list_max_le, Forall_map. rewrite !Forall_app.
  assert (forall name v, Forall (fun m => height (snd m) <= 3)%nat (opt_member name v)) as Hopt
    by (intros name [v|]; repeat constructor; cbn; lia).
  split_and!; [by repeat constructor; cbn; lia|apply Hopt|by repeat constructor; cbn; lia|apply Hopt| |].
  - destruct (na_contract a) as [c|]; [|constructor]. constructor; [apply contract_height|constructor].
  - destruct (na_extra a) as [|f fs]; [constructor|]. constructor; [|constructor]. cbn [snd height].
    apply le_n_S. apply (Nat.le_trans _ 0); [|lia]. apply list_max_le, Forall_map, Forall_map, Forall_forall. done.
Qed.

(** The members the reader asks for. *)
Lemma account_lookup address a :
  neoc_json_get_string (account_tree address a) (str "address") = Some address /\
  neoc_json_get_string (account_tree address a) (str "label") = na_label a /\
  neoc_json_get_string (account_tree address a) (str "key") = na_key a /\
  neoc_json_get_bool (account_tree address a) (str "isDefault") = Ok (na_is_default a) /\
  neoc_json_get_bool (account_tree address a) (str "lock") = Ok (na_lock a) /\
  neoc_json_get_object (account_tree address a) (str "contract") = option_map contract_tree (na_contract a).
Proof.
  destruct a as [adr label dflt lock key con extra]. unfold account_tree. cbn [na_label na_key na_is_default na_lock na_contract na_extra].
  destruct label, key, con, extra; split_and!; reflexivity.
Qed.

(** What is left of an account that has been through its text. *)
Definition without_extra (a : neoc_nep6_account_t) : neoc_nep6_account_t :=
  mk_nep6_account (na_address a) (na_label a) (na_is_default a) (na_lock a) (na_key a) (na_contract a) [].

(** An account printed and parsed. *)
Lemma account_text_ok address a : account_ok address a ->
  exists text, neoc_nep6_account_to_json a = Ok text /\ neoc_json_parse (Some text) = Ok (account_tree address a) /\
    neoc_json_to_string (account_tree address a) = Ok text.
Proof.
  intros Ha. pose proof (account_tree_plain address a Ha) as Hp. pose proof (account_height address a) as Hh.
  pose proof Ha as (_ & _ & _ & _ & _ & _ & Hf). unfold tree_fits in Hf.
  destruct (to_string_parse Hd (account_tree address a) Hp ltac:(lia) ltac:(lia)) as (text & Et & Ep);
    [by eapply heap_serves_mono|]. exists text.
  unfold neoc_nep6_account_to_json. rewrite create_object_ok. cbn [rbind].
  rewrite (account_fields_ok address) by done. cbn [rbind]. by rewrite Et.
Qed.

Lemma account_from_text address a text :
  account_ok address a -> neoc_json_parse (Some text) = Ok (account_tree address a) ->
  neoc_nep6_account_from_json (Some text) = Ok (without_extra a).
Proof.
  intros (Ea & Hadr & Hl & Hk & Hc & He & _) Ep.
  unfold neoc_nep6_account_from_json. rewrite Ep. destruct (account_lookup address a) as (-> & -> & -> & Hdef & Hlock & Hcon).
  unfold read_contract, get_bool_or_false. rewrite Hdef, Hlock, Hcon.
  assert (forall c, contract_ok c -> match neoc_json_to_string (contract_tree c) with
    | Ok contract_str => match neoc_nep6_contract_from_json (Some contract_str) with
                         | Ok contract => Ok (Some contract) | Err _ => Ok None | Fault => Fault end
    | Err _ => Ok None | Fault => Fault end = Ok (Some c)) as Hread.
  { intros c Hok. destruct (contract_text c Hok) as (t & _ & Ept & ->). by rewrite (contract_from_text c t Hok Ept). }
  unfold neoc_nep6_account_create, without_extra. rewrite neoc_malloc_fits by (unfold nep6_account_size; lia). cbn [negb].
  rewrite strdup_text, !strdup_opt_ok by done. rewrite Ea.
  destruct (na_contract a) as [c|]; cbn [option_map]; [by rewrite Hread|done].
Qed.

(** An account written as JSON is read back with its address, label, flags, key and
    contract; only the extra fields are lost. *)
Theorem nep6_account_roundtrip address a :
  account_ok address a ->
  exists text, neoc_nep6_account_to_json a = Ok text /\ neoc_nep6_account_from_json (Some text) = Ok (without_extra a).
Proof.
  intros Ha. destruct (account_text_ok address a Ha) as (text & Et & Ep & _). exists text.
  split; [done|by eapply account_from_text].
Qed.

(** ** Copies *)

Lemma copy_parameters_ok ps : Forall parameter_ok ps -> copy_parameters ps = Ok ps.
Proof.
  induction 1 as [|[name t] ps [Hp _] _ IH]; [done|]. cbn [copy_parameters np_name np_type] in *.
  rewrite strdup_opt_ok by done. cbn [rbind]. by rewrite IH.
Qed.

Lemma contract_clone_ok c : contract_ok c -> neoc_nep6_contract_clone c = Ok c.
Proof.
  intros (Hs & Hp & Hl & _). destruct c as [script ps dep]. unfold neoc_nep6_contract_clone, neoc_nep6_contract_create.
  cbn [nc_script nc_parameters nc_is_deployed] in *.
  rewrite neoc_malloc_fits by (unfold nep6_contract_size; lia). cbn [negb]. rewrite strdup_opt_ok by done. cbn [rbind].
  destruct (Z.ltb_spec 0 (zlen ps)).
  - rewrite neoc_malloc_fits by (unfold nep6_parameter_size in *; lia). cbn [negb]. by rewrite copy_parameters_ok.
  - pose proof (zlen_nonneg ps). assert (ps = []) as -> by (apply zlen_zero; lia). done.
Qed.

Lemma copy_extra_ok extra : Forall (fun f => text_ok (fst f) /\ text_ok (snd f)) extra -> copy_extra extra = Ok extra.
Proof.
  induction 1 as [|[k v] extra [Hk Hv] _ IH]; [done|]. cbn [copy_extra]. rewrite !strdup_text by done. cbn [rbind]. by rewrite IH.
Qed.

Lemma contracts_equal_spec a b : neoc_nep6_contracts_equal a b = true <-> a = b.
Proof.
  assert (forall ps qs, length ps = length qs -> parameters_equal ps qs = true <-> ps = qs) as Hps.
  { induction ps as [|[x t] ps IH]; intros [|[y u] qs] Hl; try done. cbn in *. unfold text_equal.
    rewrite !andb_true_iff, Z.eqb_eq, bool_decide_eq_true, IH by lia.
    split; [by intros [[-> ->] ->]|by intros [= -> -> ->]]. }
  destruct a as [s ps d], b as [s' ps' d']. unfold neoc_nep6_contracts_equal, text_equal. cbn.
  rewrite !andb_true_iff, Bool.eqb_true_iff, bool_decide_eq_true, Z.eqb_eq. split.
  - intros [[[-> ->] Hl] Hp]. apply Hps in Hp; [by subst|]. unfold zlen in Hl. lia.
  - intros [= -> -> ->]. split_and!; try done. by apply Hps.
Qed.

(** The comparison looks for the fields of one side in the other. *)
Lemma extra_equal_self extra : NoDup (map fst extra) -> extra_equal extra extra = true.
Proof.
  intros Hd'. apply forallb_forall. intros [k v] Hin. cbn [fst snd].
  assert (List.find (fun g : list byte * list byte => bool_decide (k = fst g)) extra = Some (k, v)) as ->; [|by apply bool_decide_true].
  revert Hin Hd'. clear. induction extra as [|[k' v'] extra IH]; [done|]. cbn [In map fst]. rewrite NoDup_cons. intros Hin [Hk' Hd'].
  cbn [List.find fst]. destruct Hin as [[= -> ->]|Hin]; [by rewrite bool_decide_true|].
  case_bool_decide as Ek; [|by apply IH]. subst k'. destruct Hk'. apply list_elem_of_In, in_map_iff. by exists (k, v).
Qed.

(** A copied account is the account, field by field, and compares equal to it when its
    extra fields have different names. *)
Theorem nep6_account_copy_equal address a :
  account_ok address a -> zlen (na_extra a) * nep6_extra_size <= n -> NoDup (map fst (na_extra a)) ->
  neoc_nep6_account_copy a = Ok a /\ neoc_nep6_account_equals a a = Ok true.
Proof.
  intros (Ea & Hadr & Hl & Hk & Hc & He & _) Hx Hnd. split.
  - unfold neoc_nep6_account_copy, neoc_nep6_account_create. destruct a as [adr label dflt lock key con extra].
    cbn [na_address na_label na_is_default na_lock na_key na_contract na_extra] in *. subst adr.
    assert ((match con with Some c => let? c := neoc_nep6_contract_clone c in Ok (Some c) | None => Ok None end) = Ok con) as ->
      by (destruct con; [by rewrite contract_clone_ok|done]).
    cbn [rbind]. rewrite neoc_malloc_fits by (unfold nep6_account_size; lia). cbn [negb].
    rewrite strdup_text, !strdup_opt_ok by done. cbn [rbind na_address na_label na_is_default na_lock na_key na_contract].
    destruct (Z.ltb_spec 0 (zlen extra)).
    + rewrite neoc_malloc_fits by (unfold nep6_extra_size in *; lia). cbn [negb]. by rewrite copy_extra_ok.
    + pose proof (zlen_nonneg extra). assert (extra = []) as -> by (apply zlen_zero; lia). done.
  - unfold neoc_nep6_account_equals, text_equal. rewrite Ea, !bool_decide_true, !Bool.eqb_reflx, Z.eqb_refl, extra_equal_self by done.
    cbn. destruct (na_contract a) as [c|]; [|done]. by rewrite (proj2 (contracts_equal_spec c c)).
Qed.
End Json.

#[local] Existing Instance toy_double.
#[local] Existing Instance mib_heap.

Definition sample_nep6 : neoc_nep6_account_t :=
  mk_nep6_account (Some (str "NAddress")) (Some (str "Main")) true false (Some (str "6PYkey"))
    (Some (mk_nep6_contract (Some (str "DCEC")) [mk_nep6_parameter (Some (str "signature")) NEOC_PARAM_TYPE_SIGNATURE] false))
    [(str "note", str "x")].

Lemma sample_nep6_ok : account_ok (2 ^ 20) (str "NAddress") sample_nep6.
Proof.
  unfold account_ok, contract_ok, parameter_ok, opt_ok, text_ok, tree_fits, sample_nep6.
  cbn [na_address na_label na_is_default na_lock na_key na_contract na_extra nc_script nc_parameters nc_is_deployed].
  split_and!; try done; try (by repeat constructor).
Qed.

Lemma nep6_account_roundtrip_witness :
  exists text, neoc_nep6_account_to_json sample_nep6 = Ok text /\
    neoc_nep6_account_from_json (Some text) = Ok (without_extra sample_nep6).
Proof.
  exact (nep6_account_roundtrip toy_double_works (2 ^ 20) (mib_heap_serves _ ltac:(done)) ltac:(done) (str "NAddress") sample_nep6
    sample_nep6_ok).
Defined.

Lemma nep6_account_copy_equal_witness :
  neoc_nep6_account_copy sample_nep6 = Ok sample_nep6 /\ neoc_nep6_account_equals sample_nep6 sample_nep6 = Ok true.
Proof.
  apply (nep6_account_copy_equal (2 ^ 20) (mib_heap_serves _ ltac:(done)) ltac:(done) (str "NAddress") sample_nep6 sample_nep6_ok).
  - done.
  - apply (bool_decide_unpack _). by vm_compute.
Defined.
