(* ===== verification/Nep6Struct.v ===== *)
(** * NEP-6 wallet structures (src/wallet/nep6/nep6_wallet.c)

    The wallet with public fields: accounts, extra fields, and the JSON text written and read
    through the JSON layer.  Arrays grow by one place at a time. *)

From S2P Require Import Prelude Cjson Json ParameterType Nep6.
#[local] Open Scope Z_scope.

Record neoc_nep6_wallet_struct_t := mk_nep6_struct {
  ns_name : option (list byte);
  ns_version : option (list byte);
  ns_n : Z; ns_r : Z; ns_p : Z;
  ns_accounts : list neoc_nep6_account_t;
  ns_extra : list (list byte * list byte)
}.

(** [sizeof(neoc_nep6_wallet_struct_t)] *)
Definition nep6_struct_size : Z := 64.

Section Operations.
Context `{Allocator} `{Double}.

Abbreviation Str := (M neoc_nep6_wallet_struct_t).

Definition set_struct_accounts (accounts : list neoc_nep6_account_t) (w : neoc_nep6_wallet_struct_t) : neoc_nep6_wallet_struct_t :=
  mk_nep6_struct (ns_name w) (ns_version w) (ns_n w) (ns_r w) (ns_p w) accounts (ns_extra w).
Definition set_struct_extra (extra : list (list byte * list byte)) (w : neoc_nep6_wallet_struct_t) : neoc_nep6_wallet_struct_t :=
  mk_nep6_struct (ns_name w) (ns_version w) (ns_n w) (ns_r w) (ns_p w) (ns_accounts w) extra.
Definition set_struct_scrypt (n r p : Z) (w : neoc_nep6_wallet_struct_t) : neoc_nep6_wallet_struct_t :=
  mk_nep6_struct (ns_name w) (ns_version w) n r p (ns_accounts w) (ns_extra w).

Definition neoc_nep6_wallet_struct_create (name version : option (list byte)) : res neoc_nep6_wallet_struct_t :=
  if negb (neoc_malloc_ok nep6_struct_size) then Err NEOC_ERROR_OUT_OF_MEMORY
  else
    let? name := strdup_opt name in
    let? version := strdup_opt (Some (default (str "3.0") version)) in
    Ok (mk_nep6_struct name version 16384 8 8 [] []).

(** ** Text *)

(** A number of the scrypt parameters; a failure is not noticed. *)
Definition add_scrypt_number (name : list byte) (v : Z) : M cJSON unit :=
  ignoring (neoc_json_add_number name (double_of_Z v)).

Definition add_scrypt (n r p : Z) : M cJSON unit :=
  match neoc_json_create_object with
  | Ok object =>
      let '(res_, object) :=
        (do! add_scrypt_number (str "n") n in
         do! add_scrypt_number (str "r") r in
         add_scrypt_number (str "p") p) object in
      do! lift res_ in ignoring (neoc_json_add_object (str "scrypt") object)
  | _ => ret tt
  end.

(** An account is printed, parsed and attached; when any of that fails it is left out. *)
Definition add_account_json (account : neoc_nep6_account_t) : M cJSON unit :=
  match neoc_nep6_account_to_json account with
  | Ok account_json =>
      match neoc_json_parse (Some account_json) with
      | Ok account_obj => ignoring (neoc_json_array_add account_obj)
      | Err _ => ret tt
      | Fault => fault
      end
  | Err _ => ret tt
  | Fault => fault
  end.

(** Without an array nothing is attached, to the array or to the wallet. *)
Definition add_accounts (accounts : list neoc_nep6_account_t) : M cJSON unit :=
  let array := match neoc_json_create_array with Ok array => array | _ => cJSON_NULL end in
  let '(res_, array) := for_each add_account_json accounts array in
  do! lift res_ in
  if cJSON_IsArray array then ignoring (neoc_json_add_object (str "accounts") array) else ret tt.

Definition struct_fields (w : neoc_nep6_wallet_struct_t) : M cJSON unit :=
  do! ignoring (neoc_json_add_string (str "name") (Some (default (str "MyWallet") (ns_name w)))) in
  do! ignoring (neoc_json_add_string (str "version") (ns_version w)) in
  do! add_scrypt (ns_n w) (ns_r w) (ns_p w) in
  do! add_accounts (ns_accounts w) in
  add_extra (ns_extra w).

Definition neoc_nep6_wallet_struct_to_json (w : neoc_nep6_wallet_struct_t) : res (list byte) :=
  match neoc_json_create_object with
  | Ok json =>
      let '(res_, json) := struct_fields w json in
      let? _ := res_ in
      match neoc_json_to_string json with
      | Err _ => Err NEOC_ERROR_OUT_OF_MEMORY
      | text => text
      end
  | Err _ => Err NEOC_ERROR_OUT_OF_MEMORY
  | Fault => Fault
  end.

(** ** Changes *)

Definition neoc_nep6_wallet_struct_add_account (account : neoc_nep6_account_t) : Str unit := fun w =>
  if negb (neoc_malloc_ok (wrap 64 (wrap 64 (zlen (ns_accounts w) + 1) * 8))) then (Err NEOC_ERROR_OUT_OF_MEMORY, w)
  else (Ok tt, set_struct_accounts (ns_accounts w ++ [account]) w).

Fixpoint remove_first (address : list byte) (accounts : list neoc_nep6_account_t) : option (list neoc_nep6_account_t) :=
  match accounts with
  | [] => None
  | a :: accounts =>
      if bool_decide (na_address a = Some address) then Some accounts
      else option_map (cons a) (remove_first address accounts)
  end.

(** A failure to shrink the array is not noticed. *)
Definition neoc_nep6_wallet_struct_remove_account (address : option (list byte)) : Str unit := fun w =>
  match address with
  | None => (Err NEOC_ERROR_INVALID_ARGUMENT, w)
  | Some address =>
      match remove_first address (ns_accounts w) with
      | Some accounts => (Ok tt, set_struct_accounts accounts w)
      | None => (Err NEOC_ERROR_NOT_FOUND, w)
      end
  end.

Definition neoc_nep6_wallet_struct_add_extra (key value : option (list byte)) : Str unit := fun w =>
  match key, value with
  | Some key, Some value =>
      if negb (neoc_malloc_ok (wrap 64 (wrap 64 (zlen (ns_extra w) + 1) * 16))) then (Err NEOC_ERROR_OUT_OF_MEMORY, w)
      else if malloc_ok (zlen key + 1) && malloc_ok (zlen value + 1) then (Ok tt, set_struct_extra (ns_extra w ++ [(key, value)]) w)
      else (Err NEOC_ERROR_OUT_OF_MEMORY, w)
  | _, _ => (Err NEOC_ERROR_INVALID_ARGUMENT, w)
  end.

Definition neoc_nep6_wallet_struct_get_extra (w : neoc_nep6_wallet_struct_t) (key : option (list byte)) : res (list byte) :=
  match key with
  | None => Err NEOC_ERROR_INVALID_ARGUMENT
  | Some key =>
      match List.find (fun f => bool_decide (fst f = key)) (ns_extra w) with
      | Some f => Ok (snd f)
      | None => Err NEOC_ERROR_NOT_FOUND
      end
  end.

(** Two different objects: accounts and extra fields are only counted. *)
Definition neoc_nep6_wallet_struct_equals (a b : neoc_nep6_wallet_struct_t) : res bool :=
  if negb (text_equal (ns_name a) (ns_name b)) then Ok false
  else
    match ns_version a, ns_version b with
    | Some va, Some vb =>
        Ok (bool_decide (va = vb) && ((ns_n a =? ns_n b) && (ns_r a =? ns_r b) && (ns_p a =? ns_p b)) &&
            (zlen (ns_accounts a) =? zlen (ns_accounts b)) && (zlen (ns_extra a) =? zlen (ns_extra b)))
    | _, _ => Fault
    end.

(** ** Reading *)

(** [(uint32_t)value], undefined out of range; without a number the default stays. *)
Definition scrypt_value (scrypt : cJSON) (name : list byte) (default_ : Z) : res Z :=
  match neoc_json_get_number scrypt name with
  | Ok value =>
      match double_trunc value with
      | Some v => if (0 <=? v) && (v <? 2 ^ 32) then Ok v else Fault
      | None => Fault
      end
  | Err _ => Ok default_
  | Fault => Fault
  end.

(** An account is printed again and read; when any of that fails it is left out. *)
Definition load_account (account_json : cJSON) : Str unit :=
  match neoc_json_to_string account_json with
  | Ok account_str =>
      match neoc_nep6_account_from_json (Some account_str) with
      | Ok account => do! attempt (neoc_nep6_wallet_struct_add_account account) in ret tt
      | Err _ => ret tt
      | Fault => fault
      end
  | Err _ => ret tt
  | Fault => fault
  end.

Definition neoc_nep6_wallet_struct_from_json (json_str : option (list byte)) : res neoc_nep6_wallet_struct_t :=
  match json_str with
  | None => Err NEOC_ERROR_INVALID_ARGUMENT
  | Some _ =>
      match neoc_json_parse json_str with
      | Err _ => Err NEOC_ERROR_INVALID_FORMAT
      | Fault => Fault
      | Ok json =>
          let? w := neoc_nep6_wallet_struct_create (neoc_json_get_string json (str "name")) (neoc_json_get_string json (str "version")) in
          let? w :=
            match neoc_json_get_object json (str "scrypt") with
            | None => Ok w
            | Some scrypt =>
                let? n := scrypt_value scrypt (str "n") (ns_n w) in
                let? r := scrypt_value scrypt (str "r") (ns_r w) in
                let? p := scrypt_value scrypt (str "p") (ns_p w) in
                Ok (set_struct_scrypt n r p w)
            end in
          match neoc_json_get_array json (str "accounts") with
          | Some (cJSON_Array items) =>
              let '(res_, w) := for_each load_account items w in let? _ := res_ in Ok w
          | _ => Ok w
          end
      end
  end.

(** ** Copies *)

Definition copy_account (account : neoc_nep6_account_t) : Str unit :=
  match neoc_nep6_account_to_json account with
  | Ok account_json =>
      match neoc_nep6_account_from_json (Some account_json) with
      | Ok account => do! attempt (neoc_nep6_wallet_struct_add_account account) in ret tt
      | Err _ => ret tt
      | Fault => fault
      end
  | Err _ => ret tt
  | Fault => fault
  end.

Definition neoc_nep6_wallet_struct_copy (src : neoc_nep6_wallet_struct_t) : res neoc_nep6_wallet_struct_t :=
  let? dest := neoc_nep6_wallet_struct_create (ns_name src) (ns_version src) in
  let dest := set_struct_scrypt (ns_n src) (ns_r src) (ns_p src) dest in
  let '(res_, dest) :=
    (do! for_each copy_account (ns_accounts src) in
     for_each (fun f => do! attempt (neoc_nep6_wallet_struct_add_extra (Some (fst f)) (Some (snd f))) in ret tt) (ns_extra src)) dest in
  let? _ := res_ in Ok dest.
End Operations.

(** ** The tree of a wallet *)

Definition scrypt_tree `{Double} (w : neoc_nep6_wallet_struct_t) : cJSON :=
  cJSON_Object [(str "n", cJSON_Number (double_of_Z (ns_n w))); (str "r", cJSON_Number (double_of_Z (ns_r w)));
                (str "p", cJSON_Number (double_of_Z (ns_p w)))].

Definition tree_of_account `{Double} (a : neoc_nep6_account_t) : cJSON := account_tree (default [] (na_address a)) a.

Definition struct_tree `{Double} (w : neoc_nep6_wallet_struct_t) : cJSON :=
  cJSON_Object ([(str "name", cJSON_String (default (str "MyWallet") (ns_name w)))] ++
    opt_member (str "version") (ns_version w) ++ [(str "scrypt", scrypt_tree w)] ++
    [(str "accounts", cJSON_Array (map tree_of_account (ns_accounts w)))] ++ extra_member (ns_extra w)).

Section Json.
Context `{Allocator} `{Double}.
Hypothesis Hd : double_works.
Variable n : Z.
Hypothesis Hheap : heap_serves n.
Hypothesis Hn : 256 <= n <= 2 ^ 30.

Definition int_range (v : Z) : Prop := 0 <= v < 2 ^ 31.

Definition struct_ok (w : neoc_nep6_wallet_struct_t) : Prop :=
  opt_ok n (ns_name w) /\ is_Some (ns_version w) /\ opt_ok n (ns_version w) /\
  (int_range (ns_n w) /\ int_range (ns_r w) /\ int_range (ns_p w)) /\
  Forall (fun a => account_ok n (default [] (na_address a)) a) (ns_accounts w) /\ zlen (ns_accounts w) * 8 <= n /\
  Forall (fun f => text_ok n (fst f) /\ text_ok n (snd f)) (ns_extra w) /\ zlen (ns_extra w) * 16 <= n /\
  tree_fits n (struct_tree w).

Lemma name_ok w : struct_ok w -> text_ok n (default (str "MyWallet") (ns_name w)).
Proof.
  intros (Hname & _). destruct (ns_name w); [done|]. split; [by repeat constructor|].
  change (zlen (default (str "MyWallet") None)) with 8. lia.
Qed.

Lemma appends_number name v : zlen name < 64 -> int_range v ->
  appends (add_scrypt_number name v) [(name, cJSON_Number (double_of_Z v))].
Proof.
  intros Hname Hv child. apply ignoring_ok. apply (add_int_ok Hd n Hheap Hn name v child Hname). unfold int_range in *. lia.
Qed.

Lemma appends_scrypt w : struct_ok w -> appends (add_scrypt (ns_n w) (ns_r w) (ns_p w)) [(str "scrypt", scrypt_tree w)].
Proof.
  intros (_ & _ & _ & (Hn1 & Hr1 & Hp1) & _) child. unfold add_scrypt. rewrite (create_object_ok n Hheap Hn).
  rewrite (appends_bind _ _ _ _ (appends_number (str "n") _ ltac:(done) Hn1)
    (appends_bind _ _ _ _ (appends_number (str "r") _ ltac:(done) Hr1) (appends_number (str "p") _ ltac:(done) Hp1)) []).
  rewrite bind_lift. by apply ignoring_ok, (add_child n Hheap Hn).
Qed.

Lemma add_account_ok a xs : account_ok n (default [] (na_address a)) a ->
  add_account_json a (cJSON_Array xs) = (Ok tt, cJSON_Array (xs ++ [tree_of_account a])).
Proof.
  intros Ha. unfold add_account_json. destruct (account_text_ok Hd n Hheap Hn _ a Ha) as (text & -> & -> & _). done.
Qed.

Lemma add_accounts_loop accounts : forall xs, Forall (fun a => account_ok n (default [] (na_address a)) a) accounts ->
  for_each add_account_json accounts (cJSON_Array xs) = (Ok tt, cJSON_Array (xs ++ map tree_of_account accounts)).
Proof.
  induction accounts as [|a accounts IH]; intros xs Ha; cbn [for_each map]; [by rewrite app_nil_r|].
  apply Forall_cons in Ha as [Ha Has]. rewrite (bind_ok _ _ _ _ _ (add_account_ok a xs Ha)), IH by done. by rewrite <- app_assoc.
Qed.

Lemma appends_accounts w : struct_ok w ->
  appends (add_accounts (ns_accounts w)) [(str "accounts", cJSON_Array (map tree_of_account (ns_accounts w)))].
Proof.
  intros (_ & _ & _ & _ & Ha & _) child. unfold add_accounts. rewrite (create_array_ok n Hheap Hn), add_accounts_loop by done.
  rewrite bind_lift. cbn [cJSON_IsArray app]. by apply ignoring_ok, (add_child n Hheap Hn).
Qed.

Lemma struct_fields_ok w : struct_ok w -> struct_fields w (cJSON_Object []) = (Ok tt, struct_tree w).
Proof.
  intros Hw. pose proof Hw as (_ & [v Ev] & Hv & _ & _ & _ & He & _). unfold struct_fields, struct_tree. rewrite Ev in *.
  rewrite (appends_bind _ _ [(str "name", cJSON_String (default (str "MyWallet") (ns_name w)))]
    ([(str "version", cJSON_String v)] ++ [(str "scrypt", scrypt_tree w)] ++
     [(str "accounts", cJSON_Array (map tree_of_account (ns_accounts w)))] ++ extra_member (ns_extra w))); [done| |].
  - intros child. apply ignoring_ok, (add_text n Hheap Hn); [done|by apply name_ok].
  - apply appends_bind; [intros child; by apply ignoring_ok, (add_text n Hheap Hn)|].
    apply appends_bind; [by apply appends_scrypt|]. apply appends_bind; [by apply appends_accounts|].
    by apply (appends_extra n Hheap Hn).
Qed.

Lemma number_plain v : int_range v -> plain (cJSON_Number (double_of_Z v)).
Proof. intros Hv. exists v. unfold int_range in *. split; [lia|done]. Qed.

Lemma struct_tree_plain w : struct_ok w -> plain (struct_tree w).
Proof.
  intros Hw. pose proof Hw as (_ & _ & Hv & (Hn1 & Hr1 & Hp1) & Ha & _ & He & _). apply plain_object. rewrite !Forall_app.
  split_and!.
  - constructor; [split; [by repeat constructor|apply (name_ok w Hw)]|constructor].
  - apply (opt_member_plain n); [by repeat constructor|done].
  - constructor; [split; [by repeat constructor|]|constructor]. apply plain_object.
    repeat (constructor; [split; [by repeat constructor|by apply number_plain]|]). constructor.
  - constructor; [split; [by repeat constructor|]|constructor]. apply plain_array, Forall_map.
    eapply Forall_impl; [exact Ha|]. intros a. by apply (account_tree_plain n Hn).
  - destruct (ns_extra w) as [|f fs]; [constructor|]. constructor; [|constructor]. split; [by repeat constructor|].
    apply plain_object, Forall_map. eapply Forall_impl; [exact He|]. intros g [[Hg1 _] [Hg2 _]]. by split.
Qed.

Lemma struct_height w : (height (struct_tree w) <= 6)%nat.
Proof.
  assert (forall ms, (list_max (map (fun m => height (snd m)) ms) <= 5)%nat -> (height (cJSON_Object ms) <= 6)%nat) as Hms by (cbn; lia).
  apply Hms, list_max_le, Forall_map. rewrite !Forall_app. split_and!.
  - repeat constructor; cbn; lia.
  - destruct (ns_version w); repeat constructor; cbn; lia.
  - repeat constructor; cbn; lia.
  - constructor; [|constructor]. cbn [snd height]. apply le_n_S, list_max_le, Forall_map, Forall_map, Forall_forall.
    intros a _. apply account_height.
  - destruct (ns_extra w) as [|f fs]; [constructor|]. constructor; [|constructor]. cbn [snd height].
    apply (Nat.le_trans _ 1); [|lia]. apply le_n_S. apply list_max_le, Forall_map, Forall_map, Forall_forall. done.
Qed.

Lemma struct_lookup w v : ns_version w = Some v ->
  neoc_json_get_string (struct_tree w) (str "name") = Some (default (str "MyWallet") (ns_name w)) /\
  neoc_json_get_string (struct_tree w) (str "version") = Some v /\
  neoc_json_get_object (struct_tree w) (str "scrypt") = Some (scrypt_tree w) /\
  neoc_json_get_array (struct_tree w) (str "accounts") = Some (cJSON_Array (map tree_of_account (ns_accounts w))).
Proof. intros Ev. unfold struct_tree. rewrite Ev. destruct (ns_extra w); split_and!; reflexivity. Qed.

Lemma scrypt_values w :
  int_range (ns_n w) -> int_range (ns_r w) -> int_range (ns_p w) -> forall d,
  scrypt_value (scrypt_tree w) (str "n") d = Ok (ns_n w) /\ scrypt_value (scrypt_tree w) (str "r") d = Ok (ns_r w) /\
  scrypt_value (scrypt_tree w) (str "p") d = Ok (ns_p w).
Proof.
  unfold int_range. intros Hn1 Hr1 Hp1 d. unfold scrypt_value.
  change (neoc_json_get_number (scrypt_tree w) (str "n")) with (Ok (double_of_Z (ns_n w))).
  change (neoc_json_get_number (scrypt_tree w) (str "r")) with (Ok (double_of_Z (ns_r w))).
  change (neoc_json_get_number (scrypt_tree w) (str "p")) with (Ok (double_of_Z (ns_p w))).
  cbv iota. rewrite !(works_trunc Hd) by lia. cmps. cmps. done.
Qed.

(** One more account, while the array has room. *)
Lemma struct_add_ok a w : (zlen (ns_accounts w) + 1) * 8 <= n ->
  neoc_nep6_wallet_struct_add_account a w = (Ok tt, set_struct_accounts (ns_accounts w ++ [a]) w).
Proof.
  intros Hl. pose proof (zlen_nonneg (ns_accounts w)). unfold neoc_nep6_wallet_struct_add_account.
  rewrite (wrap_small 64 (zlen (ns_accounts w) + 1)), wrap_small by lia. by rewrite (neoc_malloc_fits n Hheap) by lia.
Qed.

Lemma loop_accounts {A} (f : A -> M neoc_nep6_wallet_struct_t unit) (g : A -> neoc_nep6_account_t) (P : A -> Prop) xs :
  (forall x w, P x -> (zlen (ns_accounts w) + 1) * 8 <= n -> f x w = (Ok tt, set_struct_accounts (ns_accounts w ++ [g x]) w)) ->
  Forall P xs -> forall w, (zlen (ns_accounts w) + zlen xs) * 8 <= n ->
  for_each f xs w = (Ok tt, set_struct_accounts (ns_accounts w ++ map g xs) w).
Proof.
  intros Hf Hxs. induction Hxs as [|x xs Hx _ IH]; intros w Hl; cbn [for_each map]; [rewrite app_nil_r; by destruct w|].
  rewrite zlen_cons in Hl. pose proof (zlen_nonneg xs). rewrite (bind_ok _ _ _ _ _ (Hf x w Hx ltac:(lia))), IH.
  - cbn [ns_accounts set_struct_accounts]. by rewrite <- app_assoc.
  - cbn [ns_accounts set_struct_accounts]. rewrite zlen_app. change (zlen [g x]) with 1. lia.
Qed.

Lemma load_account_ok a w : account_ok n (default [] (na_address a)) a -> (zlen (ns_accounts w) + 1) * 8 <= n ->
  load_account (tree_of_account a) w = (Ok tt, set_struct_accounts (ns_accounts w ++ [without_extra a]) w).
Proof.
  intros Ha Hl. unfold load_account, tree_of_account. destruct (account_text_ok Hd n Hheap Hn _ a Ha) as (text & _ & Ep & ->).
  rewrite (account_from_text Hd n Hheap Hn _ a text Ha Ep). unfold bind, attempt. by rewrite struct_add_ok.
Qed.

Lemma copy_account_ok a w : account_ok n (default [] (na_address a)) a -> (zlen (ns_accounts w) + 1) * 8 <= n ->
  copy_account a w = (Ok tt, set_struct_accounts (ns_accounts w ++ [without_extra a]) w).
Proof.
  intros Ha Hl. unfold copy_account. destruct (account_text_ok Hd n Hheap Hn _ a Ha) as (text & -> & Ep & _).
  rewrite (account_from_text Hd n Hheap Hn _ a text Ha Ep). unfold bind, attempt. by rewrite struct_add_ok.
Qed.

Lemma struct_create_ok name version : opt_ok n name -> text_ok n version ->
  neoc_nep6_wallet_struct_create name (Some version) = Ok (mk_nep6_struct name (Some version) 16384 8 8 [] []).
Proof.
  intros Hname Hv. unfold neoc_nep6_wallet_struct_create. rewrite (neoc_malloc_fits n Hheap) by (unfold nep6_struct_size; lia).
  cbn [negb]. rewrite (strdup_opt_ok n Hheap name) by done. cbn [rbind].
  change (default (str "3.0") (Some version)) with version. by rewrite (strdup_opt_ok n Hheap (Some version)).
Qed.

(** A NEP-6 wallet survives its JSON text: name, version, scrypt parameters and every account with its
    contract are read back; a wallet without a name gets one, and extra fields are lost. *)
Theorem nep6_struct_roundtrip (w : neoc_nep6_wallet_struct_t) :
  struct_ok w ->
  exists text, neoc_nep6_wallet_struct_to_json w = Ok text /\
    neoc_nep6_wallet_struct_from_json (Some text)
    = Ok (mk_nep6_struct (Some (default (str "MyWallet") (ns_name w))) (ns_version w) (ns_n w) (ns_r w) (ns_p w)
            (map without_extra (ns_accounts w)) []).
Proof.
  intros Hw. pose proof Hw as (Hname & [v Ev] & Hv & (Hn1 & Hr1 & Hp1) & Ha & Hl & He & Hx & Hf).
  unfold tree_fits in Hf. destruct (to_string_parse Hd (struct_tree w) (struct_tree_plain w Hw)) as (text & Et & Ep);
    [pose proof (struct_height w); lia|lia|by eapply heap_serves_mono|]. exists text. split.
  - unfold neoc_nep6_wallet_struct_to_json. rewrite (create_object_ok n Hheap Hn), struct_fields_ok by done. cbn [rbind]. by rewrite Et.
  - unfold neoc_nep6_wallet_struct_from_json. rewrite Ep. destruct (struct_lookup w v Ev) as (-> & -> & -> & ->).
    rewrite Ev in Hv. rewrite struct_create_ok by (done || by apply name_ok). cbn [rbind ns_n ns_r ns_p].
    destruct (scrypt_values w Hn1 Hr1 Hp1 16384) as (-> & _ & _), (scrypt_values w Hn1 Hr1 Hp1 8) as (_ & -> & ->). cbn [rbind].
    rewrite <- for_each_map, (loop_accounts _ without_extra _ _ (fun a => load_account_ok a) Ha) by (cbn; zlen_nils; lia).
    cbn. by rewrite Ev.
Qed.

Lemma copy_extra_loop extra : Forall (fun f => text_ok n (fst f) /\ text_ok n (snd f)) extra -> forall w,
  (zlen (ns_extra w) + zlen extra) * 16 <= n ->
  for_each (fun f => do! attempt (neoc_nep6_wallet_struct_add_extra (Some (fst f)) (Some (snd f))) in ret tt) extra w
  = (Ok tt, set_struct_extra (ns_extra w ++ extra) w).
Proof.
  induction 1 as [|[k v] extra [[_ Hk] [_ Hv]] _ IH]; intros w Hl; cbn [for_each]; [rewrite app_nil_r; by destruct w|].
  rewrite zlen_cons in Hl. pose proof (zlen_nonneg extra). pose proof (zlen_nonneg (ns_extra w)).
  cbn [fst snd] in *. pose proof (zlen_nonneg k). pose proof (zlen_nonneg v).
  assert (neoc_nep6_wallet_struct_add_extra (Some k) (Some v) w = (Ok tt, set_struct_extra (ns_extra w ++ [(k, v)]) w)) as E.
  { unfold neoc_nep6_wallet_struct_add_extra. rewrite (wrap_small 64 (zlen (ns_extra w) + 1)), wrap_small by lia. rewrite (neoc_malloc_fits n Hheap) by lia. cbn [negb].
    rewrite !Hheap by lia. done. }
  rewrite (bind_ok _ _ _ tt (set_struct_extra (ns_extra w ++ [(k, v)]) w)) by (unfold bind, attempt; by rewrite E).
  rewrite IH; cbn [ns_extra set_struct_extra]; [by rewrite <- app_assoc|]. rewrite zlen_app. change (zlen [(k, v)]) with 1. lia.
Qed.

(** A copied wallet has the fields and the extra fields of the original and its accounts without their
    extra fields, and compares equal to it; the comparison looks at the number of accounts and extra fields only. *)
Theorem nep6_struct_copy (w : neoc_nep6_wallet_struct_t) :
  struct_ok w ->
  neoc_nep6_wallet_struct_copy w = Ok (set_struct_accounts (map without_extra (ns_accounts w)) w) /\
  neoc_nep6_wallet_struct_equals w (set_struct_accounts (map without_extra (ns_accounts w)) w) = Ok true.
Proof.
  intros Hw. pose proof Hw as (Hname & [v Ev] & Hv & _ & Ha & Hl & He & Hx & _). split.
  - unfold neoc_nep6_wallet_struct_copy. rewrite Ev in *. rewrite struct_create_ok by done. cbn [rbind].
    unfold bind. rewrite (loop_accounts _ without_extra _ _ (fun a => copy_account_ok a) Ha) by (cbn; zlen_nils; lia).
    rewrite copy_extra_loop by (done || (cbn; zlen_nils; lia)). cbn. unfold set_struct_accounts. by rewrite Ev.
  - unfold neoc_nep6_wallet_struct_equals, text_equal. cbn. rewrite Ev, !bool_decide_true, !Z.eqb_refl, zlen_map, Z.eqb_refl by done. done.
Qed.
End Json.

(** The comparison does not see the accounts. *)
Lemma struct_equals_blind w accounts :
  is_Some (ns_version w) -> length accounts = length (ns_accounts w) ->
  neoc_nep6_wallet_struct_equals w (set_struct_accounts accounts w) = Ok true.
Proof.
  intros [v Ev] Hl. unfold neoc_nep6_wallet_struct_equals, text_equal. cbn.
  rewrite Ev, !bool_decide_true, !Z.eqb_refl by done. cbn. unfold zlen. by rewrite Hl, !Z.eqb_refl.
Qed.

Section Samples.
#[local] Existing Instance toy_double.
#[local] Existing Instance mib_heap.

Definition sample_struct : neoc_nep6_wallet_struct_t :=
  mk_nep6_struct None (Some (str "1.0")) 16384 8 8 [sample_nep6] [(str "k", str "v")].

Lemma sample_struct_ok : struct_ok (2 ^ 20) sample_struct.
Proof.
  unfold struct_ok, sample_struct. cbn [ns_name ns_version ns_n ns_r ns_p ns_accounts ns_extra].
  split_and!; try done; try (by eexists); try (unfold int_range; lia); try (by repeat constructor).
Qed.

Lemma nep6_struct_roundtrip_witness :
  exists text, neoc_nep6_wallet_struct_to_json sample_struct = Ok text /\
    neoc_nep6_wallet_struct_from_json (Some text)
    = Ok (mk_nep6_struct (Some (str "MyWallet")) (Some (str "1.0")) 16384 8 8 [without_extra sample_nep6] []).
Proof. exact (nep6_struct_roundtrip toy_double_works (2 ^ 20) (mib_heap_serves _ ltac:(done)) ltac:(done) sample_struct sample_struct_ok). Defined.

Lemma nep6_struct_copy_witness :
  neoc_nep6_wallet_struct_copy sample_struct = Ok (set_struct_accounts [without_extra sample_nep6] sample_struct).
Proof. apply (nep6_struct_copy toy_double_works (2 ^ 20) (mib_heap_serves _ ltac:(done)) ltac:(done) sample_struct sample_struct_ok). Defined.
End Samples.
