(* ===== verification/NefFile.v ===== *)
(** * Contract files (src/contract/nef_file.c)

    A NEF file holds the header, the method tokens, the script and a checksum.  The character
    arrays of the header and of the tokens have their full length here; [strlen] on one
    without a terminating zero leaves the array, which is a [Fault].  The array of tokens is
    a block of the heap that can be freed.  The field [method_tokens_count] of the header is
    never used by the code.  Reading and writing files is left out. *)

From S2P Require Import Prelude BinaryWriter BinaryReader Crypto Base58 Hashes.
#[local] Open Scope Z_scope.

Definition NEF_MAGIC : Z := 0x3346454E.
Definition NEF_MAX_SCRIPT_SIZE : Z := 512000.
Definition NEF_MAX_SOURCE_SIZE : Z := 255.
Definition NEF_MAX_TOKENS : Z := 128.

Record neoc_nef_header_t := mk_header {
  nh_magic : Z;
  nh_compiler : list byte;
  nh_source : list byte;
  nh_reserved : list byte;
  nh_reserved2 : byte
}.

Record neoc_nef_method_token_t := mk_token {
  tok_hash : neoc_hash160_t;
  tok_method : list byte;
  tok_parameters_count : Z;
  tok_has_return_value : bool;
  tok_call_flags : byte
}.

(** [nf_tokens] has its [token_count] entries in use; there is room for [nf_token_capacity]. *)
Record neoc_nef_file_t := mk_nef {
  nf_header : neoc_nef_header_t;
  nf_tokens : block neoc_nef_method_token_t;
  nf_token_count : Z;
  nf_token_capacity : Z;
  nf_script : option (list byte);
  nf_script_size : Z;
  nf_checksum : neoc_hash256_t;
  nf_checksum_valid : bool
}.

(** Sizes of the three structs. *)
Definition nef_header_size : Z := 328.
Definition nef_token_size : Z := 56.
Definition nef_struct_size : Z := 408.

(** [strncpy] of a string into the first [n] characters of a zeroed array of [n + 1]. *)
Definition copy_string (n : nat) (s : list byte) : list byte :=
  take n s ++ replicate (S n - length (take n s)) Byte.x00.

Section Operations.
Context `{Allocator} `{Crypto}.

Definition write_token (t : neoc_nef_method_token_t) : Wr unit :=
  let! hash_bytes := lift (local_buffer 20 (neoc_hash160_to_bytes (tok_hash t) 20)) in
  do! neoc_binary_writer_write_bytes (Some hash_bytes) 20 in
  let! len := lift (array_strlen (tok_method t)) in
  let method_len := wrap 8 len in
  do! neoc_binary_writer_write_byte (byte_of_Z method_len) in
  do! neoc_binary_writer_write_bytes (Some (tok_method t)) method_len in
  do! neoc_binary_writer_write_uint16 (tok_parameters_count t) in
  do! neoc_binary_writer_write_byte (if tok_has_return_value t then Byte.x01 else Byte.x00) in
  neoc_binary_writer_write_byte (tok_call_flags t).

(** The header and the number of tokens, with the 64 bytes for the compiler given. *)
Definition write_header (compiler : list byte) (nef : neoc_nef_file_t) : Wr unit :=
  let h := nf_header nef in
  do! neoc_binary_writer_write_uint32 (nh_magic h) in
  do! neoc_binary_writer_write_bytes (Some compiler) 64 in
  let! len := lift (array_strlen (nh_source h)) in
  let source_len := wrap 8 len in
  do! neoc_binary_writer_write_byte (byte_of_Z source_len) in
  do! (if 0 <? source_len then neoc_binary_writer_write_bytes (Some (nh_source h)) source_len
       else ret tt) in
  do! neoc_binary_writer_write_bytes (Some (nh_reserved h)) 2 in
  neoc_binary_writer_write_byte (byte_of_Z (wrap 8 (nf_token_count nef))).

(** Everything up to the checksum. *)
Definition write_contents (compiler : list byte) (nef : neoc_nef_file_t) : Wr unit :=
  do! write_header compiler nef in
  let! tokens := lift (block_read (nf_tokens nef) (nf_token_count nef)) in
  do! for_each write_token tokens in
  do! neoc_binary_writer_write_byte (nh_reserved2 (nf_header nef)) in
  neoc_binary_writer_write_var_bytes (nf_script nef) (nf_script_size nef).

Definition calculate_checksum (nef : neoc_nef_file_t) : res neoc_hash256_t :=
  let? data := serialize_with 1024 (write_contents (nh_compiler (nf_header nef)) nef) in
  let? checksum_bytes := neoc_sha256_double (Some data) (zlen data) in
  neoc_hash256_from_bytes (Some checksum_bytes).

Definition set_checksum (c : neoc_hash256_t) (nef : neoc_nef_file_t) : neoc_nef_file_t :=
  mk_nef (nf_header nef) (nf_tokens nef) (nf_token_count nef) (nf_token_capacity nef)
    (nf_script nef) (nf_script_size nef) c (nf_checksum_valid nef).

Definition set_tokens (tokens : block neoc_nef_method_token_t) (count capacity : Z)
    (nef : neoc_nef_file_t) : neoc_nef_file_t :=
  mk_nef (nf_header nef) tokens count capacity (nf_script nef) (nf_script_size nef)
    (nf_checksum nef) (nf_checksum_valid nef).

Definition neoc_nef_file_create (compiler source script : option (list byte)) (script_size : Z)
  : res neoc_nef_file_t :=
  match compiler, script with
  | Some compiler, Some script =>
      if NEF_MAX_SCRIPT_SIZE <? script_size then Err NEOC_ERROR_INVALID_SIZE
      else if 63 <? zlen compiler then Err NEOC_ERROR_INVALID_SIZE
      else if (match source with Some s => NEF_MAX_SOURCE_SIZE <? zlen s | None => false end)
      then Err NEOC_ERROR_INVALID_SIZE
      else if negb (neoc_malloc_ok nef_struct_size) then Err NEOC_ERROR_MEMORY
      else if negb (neoc_malloc_ok (10 * nef_token_size)) then Err NEOC_ERROR_MEMORY
      else if negb (neoc_malloc_ok script_size) then Err NEOC_ERROR_MEMORY
      else
        let? copy := memcpy_from script script_size in
        let header :=
          mk_header NEF_MAGIC (copy_string 63 compiler)
            (match source with Some s => copy_string 255 s | None => replicate 256 Byte.x00 end)
            [Byte.x00; Byte.x00] Byte.x00 in
        let nef := mk_nef header (Live []) 0 10 (Some copy) script_size NEOC_HASH256_ZERO_VALUE false in
        let? checksum := calculate_checksum nef in
        Ok (mk_nef header (Live []) 0 10 (Some copy) script_size checksum true)
  | _, _ => Err NEOC_ERROR_INVALID_ARGUMENT
  end.

(** [neoc_realloc] of the array: with the size 0 it frees the array and returns NULL. *)
Definition resize_tokens (new_capacity : Z) : M neoc_nef_file_t unit := fun nef =>
  if new_capacity * nef_token_size =? 0 then
    (Err NEOC_ERROR_MEMORY,
     set_tokens (match nf_tokens nef with Null => Null | _ => Freed end)
       (nf_token_count nef) (nf_token_capacity nef) nef)
  else if negb (neoc_malloc_ok (new_capacity * nef_token_size)) then (Err NEOC_ERROR_MEMORY, nef)
  else
    match block_items (nf_tokens nef) with
    | Some l => (Ok tt, set_tokens (Live l) (nf_token_count nef) new_capacity nef)
    | None => (Fault, nef)
    end.

(** The token is in place before the checksum is computed, and stays when that fails. *)
Definition neoc_nef_file_add_method_token (hash : option neoc_hash160_t) (method : option (list byte))
    (parameters_count : Z) (has_return_value : bool) (call_flags : byte) : M neoc_nef_file_t unit :=
  match hash, method with
  | Some hash, Some method =>
      if 31 <? zlen method then fail NEOC_ERROR_INVALID_SIZE
      else
        let! nef := get in
        if NEF_MAX_TOKENS <=? nf_token_count nef then fail NEOC_ERROR_INVALID_SIZE
        else
          do! (if nf_token_capacity nef <=? nf_token_count nef then
                 let doubled := nf_token_capacity nef * 2 in
                 resize_tokens (if NEF_MAX_TOKENS <? doubled then NEF_MAX_TOKENS else doubled)
               else ret tt) in
          let! nef := get in
          match nf_tokens nef with
          | Live l =>
              do! put (set_tokens
                         (Live (l ++ [mk_token hash (copy_string 31 method) parameters_count
                                        has_return_value call_flags]))
                         (nf_token_count nef + 1) (nf_token_capacity nef) nef) in
              let! nef := get in
              let! checksum := lift (calculate_checksum nef) in
              put (set_checksum checksum nef)
          | _ => fault
          end
  | _, _ => fail NEOC_ERROR_INVALID_ARGUMENT
  end.

Definition neoc_nef_file_get_script (nef : neoc_nef_file_t) : option (list byte) * Z :=
  (nf_script nef, nf_script_size nef).

Definition neoc_nef_file_get_compiler (nef : neoc_nef_file_t) : list byte :=
  nh_compiler (nf_header nef).

Definition neoc_nef_file_get_source (nef : neoc_nef_file_t) : option (list byte) :=
  match nh_source (nf_header nef) with
  | b :: _ => if Z_of_byte b =? 0 then None else Some (nh_source (nf_header nef))
  | [] => None
  end.

Definition neoc_nef_file_get_checksum (nef : neoc_nef_file_t) : neoc_hash256_t := nf_checksum nef.

Definition neoc_nef_file_verify_checksum (nef : neoc_nef_file_t) : res bool :=
  match calculate_checksum nef with
  | Ok calculated => Ok (neoc_hash256_equal (Some calculated) (Some (nf_checksum nef)))
  | Err _ => Ok false
  | Fault => Fault
  end.

Definition neoc_nef_file_get_token_count (nef : neoc_nef_file_t) : Z := nf_token_count nef.

Definition neoc_nef_file_get_token (nef : neoc_nef_file_t) (index : Z) : res neoc_nef_method_token_t :=
  if nf_token_count nef <=? index then Err NEOC_ERROR_OUT_OF_BOUNDS
  else
    let? tokens := block_read (nf_tokens nef) (nf_token_count nef) in
    match buf_get tokens index with Some t => Ok t | None => Fault end.

(** The compiler's name up to its zero, at most 63 characters, in 64 zeroed bytes. *)
Definition neoc_nef_file_to_bytes (nef : neoc_nef_file_t) : res (list byte) :=
  serialize_with 1024
    (let! len := lift (array_strlen (nh_compiler (nf_header nef))) in
     let compiler_len := if 63 <? len then 63 else len in
     let! name := lift (memcpy_from (nh_compiler (nf_header nef)) compiler_len) in
     do! write_contents (name ++ replicate (Z.to_nat (64 - compiler_len)) Byte.x00) nef in
     let! checksum_bytes := lift (local_buffer 32 (neoc_hash256_to_bytes (nf_checksum nef) 32)) in
     neoc_binary_writer_write_bytes (Some checksum_bytes) 32).

Definition read_token : Rd neoc_nef_method_token_t :=
  let! hash_bytes := neoc_binary_reader_read_bytes 20 in
  let! hash := lift (neoc_hash160_from_bytes (Some hash_bytes)) in
  let! method_len := neoc_binary_reader_read_byte in
  if 32 <=? Z_of_byte method_len then fail NEOC_ERROR_INVALID_FORMAT
  else
    let! method := neoc_binary_reader_read_bytes (Z_of_byte method_len) in
    let! parameters_count := neoc_binary_reader_read_uint16 in
    let! has_return := neoc_binary_reader_read_byte in
    let! call_flags := neoc_binary_reader_read_byte in
    ret (mk_token hash (copy_string 31 method) parameters_count
           (negb (Z_of_byte has_return =? 0)) call_flags).

(** The capacity of the array that is read stays 0, and the checksum is not verified. *)
Definition read_nef : Rd neoc_nef_file_t :=
  let! magic := neoc_binary_reader_read_uint32 in
  if negb (magic =? NEF_MAGIC) then fail NEOC_ERROR_INVALID_FORMAT
  else
    let! compiler := neoc_binary_reader_read_bytes 64 in
    let! source_len := neoc_binary_reader_read_byte in
    let! source :=
      (if 0 <? Z_of_byte source_len then
         if 255 <=? Z_of_byte source_len then fail NEOC_ERROR_INVALID_FORMAT
         else neoc_binary_reader_read_bytes (Z_of_byte source_len)
       else ret []) in
    let! reserved := neoc_binary_reader_read_bytes 2 in
    let! token_count := neoc_binary_reader_read_byte in
    let count := Z_of_byte token_count in
    let! tokens :=
      (if 0 <? count then
         if negb (neoc_malloc_ok (count * nef_token_size)) then fail NEOC_ERROR_MEMORY
         else let! l := read_n (Z.to_nat count) read_token in ret (Live l)
       else ret Null) in
    let! reserved2 := neoc_binary_reader_read_byte in
    let! script := neoc_binary_reader_read_var_bytes in
    let! checksum_bytes := neoc_binary_reader_read_bytes 32 in
    let! checksum := lift (neoc_hash256_from_bytes (Some checksum_bytes)) in
    ret (mk_nef (mk_header magic compiler (copy_string 255 source) reserved reserved2)
           tokens count 0 script (match script with Some s => zlen s | None => 0 end) checksum false).

Definition neoc_nef_file_from_bytes (data : option (list byte)) (data_size : Z) : res neoc_nef_file_t :=
  match data with
  | None => Err NEOC_ERROR_INVALID_ARGUMENT
  | Some _ =>
      if data_size <? nef_header_size then Err NEOC_ERROR_INVALID_FORMAT
      else
        let? reader := neoc_binary_reader_create data data_size in
        if negb (neoc_malloc_ok nef_struct_size) then Err NEOC_ERROR_MEMORY
        else fst (read_nef reader)
  end.

End Operations.

(** ** Specification *)

(** What a file says. *)
Record token_view := mk_tview {
  tv_hash : neoc_hash160_t;
  tv_method : list byte;
  tv_parameters : Z;
  tv_return : bool;
  tv_flags : byte
}.

Record nef_view := mk_nview {
  nv_compiler : list byte;
  nv_source : list byte;
  nv_tokens : list token_view;
  nv_script : list byte
}.

Definition c_string (s : list byte) : Prop := Forall (fun b => b <> Byte.x00) s.

Record token_ok (t : token_view) : Prop := {
  to_hash : hash160_ok (tv_hash t);
  to_method : c_string (tv_method t) /\ zlen (tv_method t) <= 31;
  to_parameters : 0 <= tv_parameters t < 2 ^ 16
}.

Record nef_ok (v : nef_view) : Prop := {
  no_compiler : c_string (nv_compiler v) /\ zlen (nv_compiler v) <= 63;
  no_source : c_string (nv_source v) /\ zlen (nv_source v) <= 255;
  no_tokens : Forall token_ok (nv_tokens v) /\ zlen (nv_tokens v) <= 128;
  no_script : 0 < zlen (nv_script v) <= NEF_MAX_SCRIPT_SIZE
}.

Definition token_of (t : token_view) : neoc_nef_method_token_t :=
  mk_token (tv_hash t) (copy_string 31 (tv_method t)) (tv_parameters t) (tv_return t) (tv_flags t).

Definition header_of (v : nef_view) : neoc_nef_header_t :=
  mk_header NEF_MAGIC (copy_string 63 (nv_compiler v)) (copy_string 255 (nv_source v))
    [Byte.x00; Byte.x00] Byte.x00.

(** The object with the content of a view. *)
Definition nef_of (v : nef_view) (tokens : block neoc_nef_method_token_t) (capacity : Z)
    (checksum : neoc_hash256_t) (valid : bool) : neoc_nef_file_t :=
  mk_nef (header_of v) tokens (zlen (nv_tokens v)) capacity (Some (nv_script v)) (zlen (nv_script v))
    checksum valid.

Definition tokens_of (v : nef_view) : block neoc_nef_method_token_t := Live (map token_of (nv_tokens v)).

(** The array as it is read: none for no tokens. *)
Definition tokens_read (v : nef_view) : block neoc_nef_method_token_t :=
  match nv_tokens v with [] => Null | _ => tokens_of v end.

Definition token_bytes (t : token_view) : list byte :=
  hash160_data (tv_hash t) ++ [byte_of_Z (zlen (tv_method t))] ++ tv_method t ++
  le_bytes 2 (tv_parameters t) ++ [if tv_return t then Byte.x01 else Byte.x00] ++ [tv_flags t].

Definition head_bytes (v : nef_view) : list byte :=
  le_bytes 4 NEF_MAGIC ++ copy_string 63 (nv_compiler v) ++ [byte_of_Z (zlen (nv_source v))] ++
  nv_source v ++ [Byte.x00; Byte.x00] ++ [byte_of_Z (zlen (nv_tokens v))].

(** The bytes the checksum is taken of. *)
Definition nef_bytes (v : nef_view) : list byte :=
  head_bytes v ++ concat (map token_bytes (nv_tokens v)) ++ [Byte.x00] ++ var_bytes (nv_script v).

Lemma zlen_le_bytes n v : zlen (le_bytes n v) = Z.of_nat n.
Proof. unfold zlen. by rewrite length_le_bytes. Qed.

Lemma var_int_short n : zlen (var_int_bytes n) <= 9.
Proof.
  unfold var_int_bytes. repeat (destruct (_ <? _) || destruct (_ <=? _)); unfold zlen; cbn [length];
    rewrite ?length_le_bytes; lia.
Qed.

(** ** Character arrays *)

Lemma copy_string_short n s :
  zlen s <= Z.of_nat n -> copy_string n s = s ++ Byte.x00 :: replicate (n - length s) Byte.x00.
Proof.
  intros Hs. unfold zlen in Hs. unfold copy_string. rewrite take_ge by lia.
  replace (S n - length s)%nat with (S (n - length s)) by lia. done.
Qed.

Lemma length_copy_string n s : zlen (copy_string n s) = Z.of_nat (S n).
Proof. unfold copy_string, zlen. rewrite length_app, length_replicate, length_take. lia. Qed.

Lemma array_strlen_copy n s :
  c_string s -> zlen s <= Z.of_nat n -> array_strlen (copy_string n s) = Ok (zlen s).
Proof.
  intros Hs Hl. unfold array_strlen. rewrite copy_string_short by done. rewrite cstring_app by done.
  rewrite existsb_app. cbn. by rewrite orb_true_r.
Qed.

Section Proofs.
Context `{Allocator} `{Crypto}.

Lemma write_prefix bs rest :
  writes (neoc_binary_writer_write_bytes (Some (bs ++ rest)) (zlen bs)) bs.
Proof.
  intros w. pose proof (write_bytes_writes bs w) as Hw. revert Hw.
  unfold neoc_binary_writer_write_bytes. destruct (zlen bs =? 0); [done|].
  rewrite buf_slice_all. change (bs ++ rest) with ([] ++ bs ++ rest). change 0 with (zlen (@nil byte)).
  by rewrite buf_slice_app.
Qed.

Lemma write_sized bs n : zlen bs = n -> writes (neoc_binary_writer_write_bytes (Some bs) n) bs.
Proof. intros <-. apply write_bytes_writes. Qed.

(** The string at the start of a character array. *)
Lemma write_string n s :
  zlen s <= Z.of_nat n -> writes (neoc_binary_writer_write_bytes (Some (copy_string n s)) (zlen s)) s.
Proof. intros Hs. rewrite copy_string_short by done. apply write_prefix. Qed.

Lemma token_writes t : token_ok t -> writes (write_token (token_of t)) (token_bytes t).
Proof.
  intros [Hh [Hm Hl] Hp]. unfold write_token, token_of. cbn [tok_hash tok_method tok_parameters_count
    tok_has_return_value tok_call_flags]. rewrite hash160_be_buffer by done. apply writes_lift.
  apply writes_bind; [by apply write_sized|]. rewrite array_strlen_copy by done. apply writes_lift.
  pose proof (zlen_nonneg (tv_method t)). rewrite wrap_small by (eval_pows; lia). cbv zeta.
  apply writes_bind; [apply write_byte_writes|]. apply writes_bind; [by apply write_string|].
  apply writes_bind; [apply write_uint16_writes|]. apply writes_bind; apply write_byte_writes.
Qed.

Lemma map_writes {A B} (f : B -> Wr unit) (g : A -> B) (enc : A -> list byte) l :
  Forall (fun x => writes (f (g x)) (enc x)) l -> writes (for_each f (map g l)) (concat (map enc l)).
Proof.
  induction 1 as [|x l Hx _ IH]; cbn [map for_each concat]; [apply writes_ret|]. by apply writes_bind.
Qed.

Lemma block_read_tokens v tokens :
  tokens = tokens_of v \/ tokens = tokens_read v ->
  block_read tokens (zlen (nv_tokens v)) = Ok (map token_of (nv_tokens v)).
Proof.
  assert (block_read (tokens_of v) (zlen (nv_tokens v)) = Ok (map token_of (nv_tokens v))) as E.
  { unfold block_read, tokens_of. destruct (_ <=? 0) eqn:E; bdestruct.
    - pose proof (zlen_nonneg (nv_tokens v)). by rewrite (zlen_zero (nv_tokens v)) by lia.
    - rewrite <- (zlen_map token_of), buf_slice_all. done. }
  intros [-> | ->]; [done|]. unfold tokens_read. by destruct (nv_tokens v) as [|t ts].
Qed.

Lemma nef_header_writes v tokens capacity c valid :
  nef_ok v ->
  writes (write_header (copy_string 63 (nv_compiler v)) (nef_of v tokens capacity c valid)) (head_bytes v).
Proof.
  intros [_ [Hs Hsl] [Ht Htl] Hsc]. unfold write_header, nef_of, header_of.
  cbn [nf_header nh_magic nh_source nh_reserved nf_token_count].
  apply writes_bind; [apply write_uint32_writes|]. apply writes_bind; [apply write_sized, length_copy_string|].
  rewrite array_strlen_copy by done. apply writes_lift. pose proof (zlen_nonneg (nv_source v)).
  rewrite wrap_small by (eval_pows; lia). cbv zeta. apply writes_bind; [apply write_byte_writes|].
  apply writes_bind.
  { destruct (0 <? zlen (nv_source v)) eqn:E; bdestruct; [by apply write_string|].
    rewrite (zlen_zero (nv_source v)) by lia. apply writes_ret. }
  apply writes_bind; [by apply write_sized|]. pose proof (zlen_nonneg (nv_tokens v)).
  rewrite wrap_small by (eval_pows; lia). apply write_byte_writes.
Qed.

Lemma contents_writes v tokens capacity c valid :
  nef_ok v -> tokens = tokens_of v \/ tokens = tokens_read v ->
  writes (write_contents (copy_string 63 (nv_compiler v)) (nef_of v tokens capacity c valid)) (nef_bytes v).
Proof.
  intros Hv Htok. apply writes_bind; [by apply nef_header_writes|].
  cbn [nef_of nf_tokens nf_token_count nf_script nf_script_size]. rewrite block_read_tokens by done.
  apply writes_lift. apply writes_bind.
  { apply map_writes. eapply Forall_impl; [apply (no_tokens v Hv)|]. intros. by apply token_writes. }
  apply writes_bind; [apply write_byte_writes|apply write_var_bytes_writes].
Qed.

Lemma zlen_token_bytes t : token_ok t -> zlen (token_bytes t) <= 56.
Proof.
  intros [Hh [_ Hl] _]. unfold token_bytes. rewrite !zlen_app. unfold hash160_ok, NEOC_HASH160_SIZE in Hh.
  rewrite zlen_le_bytes. repeat change (zlen [_]) with 1. lia.
Qed.

Lemma nef_bytes_size v : nef_ok v -> 1 <= zlen (nef_bytes v) <= zlen (nv_script v) + 8000.
Proof.
  intros [_ [_ Hsl] [Ht Htl] _]. unfold nef_bytes, head_bytes, var_bytes. rewrite !zlen_app, length_copy_string.
  assert (zlen (concat (map token_bytes (nv_tokens v))) <= 56 * zlen (nv_tokens v)) as Hc.
  { clear Htl. induction Ht as [|t ts Ht _ IH]; [done|]. cbn [map concat]. rewrite zlen_app, zlen_cons.
    pose proof (zlen_token_bytes t Ht). lia. }
  pose proof (var_int_short (zlen (nv_script v))).
  rewrite zlen_le_bytes. change (zlen [_; _]) with 2. repeat change (zlen [_]) with 1. note_zlen. lia.
Qed.

(** ** The checksum *)

Hypothesis Hcrypto : crypto_works.
Hypothesis Hheap : heap_serves (2 ^ 21).

(** The checksum of the content is its double SHA-256. *)
Definition checksum_of (v : nef_view) (c : neoc_hash256_t) : Prop :=
  exists d, SHA256 (nef_bytes v) = Some d /\ SHA256 d = Some (hash256_data c) /\ hash256_ok c.

Lemma checksum_exists v : exists c, checksum_of v c.
Proof.
  destruct (works_sha256 Hcrypto (nef_bytes v)) as (d & Ed & _).
  destruct (works_sha256 Hcrypto d) as (e & Ee & He). exists (mk_hash256 e), d. split_and!; [done|done|].
  unfold hash256_ok, zlen. cbn [hash256_data]. by rewrite He.
Qed.

Lemma nef_heap v : nef_ok v -> heap_serves (Z.max 1024 (2 * (zlen (nef_bytes v) + 32))).
Proof.
  intros Hv. pose proof (nef_bytes_size v Hv). pose proof (no_script v Hv) as Hs.
  unfold NEF_MAX_SCRIPT_SIZE in Hs. apply (heap_serves_mono _ _ Hheap). eval_pows. lia.
Qed.

Lemma calculate_checksum_ok v tokens capacity c c' valid :
  nef_ok v -> tokens = tokens_of v \/ tokens = tokens_read v -> checksum_of v c ->
  calculate_checksum (nef_of v tokens capacity c' valid) = Ok c.
Proof.
  intros Hv Htok (d & Ed & Ec & Hc). pose proof (nef_bytes_size v Hv). pose proof (no_script v Hv) as Hs.
  unfold NEF_MAX_SCRIPT_SIZE in Hs. unfold calculate_checksum.
  change (nh_compiler _) with (copy_string 63 (nv_compiler v)).
  rewrite (serialize_with_ok 1024 _ (nef_bytes v)); [|by apply contents_writes|lia|unfold stream_max; lia|].
  2: { eapply heap_serves_mono; [by apply nef_heap|lia]. }
  cbn [rbind]. assert (length d = 32%nat) as Hd.
  { destruct (works_sha256 Hcrypto (nef_bytes v)) as (d' & E & Hl). congruence. }
  assert (forall x y, SHA256 x = Some y -> neoc_sha256 (Some x) (zlen x) = Ok y) as Hsha.
  { intros x y E. unfold neoc_sha256, openssl_digest. by rewrite (works_initialized Hcrypto), buf_slice_all, E. }
  unfold neoc_sha256_double. rewrite (Hsha _ _ Ed). cbn [rbind].
  replace 32 with (zlen d) by (unfold zlen; lia). rewrite (Hsha _ _ Ec). cbn [rbind].
  unfold neoc_hash256_from_bytes. rewrite memcpy_from_all by done. cbn [rbind]. by destruct c.
Qed.

(** ** Making a file *)

Lemma nef_create_ok compiler source script :
  let v := mk_nview compiler (default [] source) [] script in
  nef_ok v ->
  exists c, checksum_of v c /\
    neoc_nef_file_create (Some compiler) source (Some script) (zlen script)
    = Ok (nef_of v (tokens_of v) 10 c true).
Proof.
  intros v Hv. destruct (checksum_exists v) as (c & Hc). exists c. split; [done|].
  pose proof (no_script v Hv) as Hs. cbn [v nv_script] in Hs.
  destruct (no_compiler v Hv) as [_ Hcl]. destruct (no_source v Hv) as [_ Hsl]. cbn [v nv_compiler nv_source] in *.
  unfold neoc_nef_file_create, neoc_malloc_ok, NEF_MAX_SCRIPT_SIZE, nef_struct_size, nef_token_size in *.
  cmps. rewrite !Hheap by (eval_pows; lia). cbn [negb Z.eqb Z.mul].
  assert ((match source with Some s => NEF_MAX_SOURCE_SIZE <? zlen s | None => false end) = false) as ->.
  { destruct source as [s|]; [|done]. cbn in Hsl. apply Z.ltb_ge. unfold NEF_MAX_SOURCE_SIZE. lia. }
  rewrite memcpy_from_all by done. cbn [rbind].
  assert ((match source with Some s => copy_string 255 s | None => replicate 256 Byte.x00 end)
          = copy_string 255 (default [] source)) as -> by (by destruct source).
  change (calculate_checksum _) with
    (calculate_checksum (nef_of v (tokens_of v) 10 NEOC_HASH256_ZERO_VALUE false)).
  rewrite (calculate_checksum_ok v _ _ c) by auto. done.
Qed.

(** The room for [n] tokens: 10, doubled as often as needed, at most 128. *)
Definition capacity_for (n : Z) : Z :=
  if n <=? 10 then 10 else if n <=? 20 then 20 else if n <=? 40 then 40
  else if n <=? 80 then 80 else 128.

Definition add_view (v : nef_view) (t : token_view) : nef_view :=
  mk_nview (nv_compiler v) (nv_source v) (nv_tokens v ++ [t]) (nv_script v).

Definition add_token (t : token_view) : M neoc_nef_file_t unit :=
  neoc_nef_file_add_method_token (Some (tv_hash t)) (Some (tv_method t)) (tv_parameters t) (tv_return t)
    (tv_flags t).

Lemma add_view_ok v t : nef_ok v -> token_ok t -> zlen (nv_tokens v) < 128 -> nef_ok (add_view v t).
Proof.
  intros [Hc Hs [Ht Hl] Hsc] Hok Hn. constructor; cbn; try done. split; [by apply Forall_app; split; [|apply Forall_singleton]|].
  rewrite zlen_app. change (zlen [t]) with 1. lia.
Qed.

Lemma resize_tokens_ok n v c :
  zlen (nv_tokens v) < n <= 128 ->
  resize_tokens n (nef_of v (tokens_of v) (capacity_for (zlen (nv_tokens v))) c true)
  = (Ok tt, nef_of v (tokens_of v) n c true).
Proof.
  intros Hn. pose proof (zlen_nonneg (nv_tokens v)). unfold resize_tokens, nef_token_size. cmps.
  unfold neoc_malloc_ok. cmps. rewrite Hheap by (eval_pows; lia). done.
Qed.

Lemma add_token_ok v t c :
  nef_ok v -> token_ok t -> zlen (nv_tokens v) < 128 ->
  exists c', checksum_of (add_view v t) c' /\
    add_token t (nef_of v (tokens_of v) (capacity_for (zlen (nv_tokens v))) c true)
    = (Ok tt, nef_of (add_view v t) (tokens_of (add_view v t)) (capacity_for (zlen (nv_tokens v) + 1)) c' true).
Proof.
  intros Hv Ht Hn. pose proof (add_view_ok v t Hv Ht Hn) as Hv'.
  destruct (checksum_exists (add_view v t)) as (c' & Hc'). exists c'. split; [done|].
  pose proof (zlen_nonneg (nv_tokens v)) as H0n. destruct (to_method t Ht) as [_ Hm].
  unfold add_token, neoc_nef_file_add_method_token. cmps. unfold bind at 1, get.
  unfold NEF_MAX_TOKENS. cbn [nef_of nf_token_count nf_token_capacity]. cmps.
  set (n := zlen (nv_tokens v)) in *.
  match goal with |- (do! ?resize in _) _ = _ =>
    assert (resize (nef_of v (tokens_of v) (capacity_for n) c true)
            = (Ok tt, nef_of v (tokens_of v) (capacity_for (n + 1)) c true)) as Er end.
  { unfold capacity_for. repeat case_match; bdestruct; try lia; try done;
      try (match goal with |- resize_tokens ?k _ = _ => pose proof (resize_tokens_ok k v c) as Hr end;
           unfold capacity_for in Hr; fold n in Hr; repeat (case_match; bdestruct; try lia); apply Hr; lia). }
  unfold bind at 1. rewrite Er. unfold bind, get, put.
  cbn [nef_of nf_tokens tokens_of nf_token_count nf_token_capacity]. unfold lift.
  assert (set_tokens (Live (map token_of (nv_tokens v) ++ [mk_token (tv_hash t) (copy_string 31 (tv_method t))
            (tv_parameters t) (tv_return t) (tv_flags t)])) (zlen (nv_tokens v) + 1) (capacity_for (n + 1))
            (nef_of v (tokens_of v) (capacity_for (n + 1)) c true)
          = nef_of (add_view v t) (tokens_of (add_view v t)) (capacity_for (n + 1)) c true) as E.
  { unfold nef_of, tokens_of, set_tokens. cbn. rewrite map_app, zlen_app. done. }
  rewrite E. rewrite (calculate_checksum_ok (add_view v t) _ _ c') by auto. done.
Qed.

(** ** Writing and reading *)

Lemma nef_to_bytes_ok v tokens capacity c valid :
  nef_ok v -> tokens = tokens_of v \/ tokens = tokens_read v -> hash256_ok c ->
  neoc_nef_file_to_bytes (nef_of v tokens capacity c valid) = Ok (nef_bytes v ++ hash256_data c).
Proof.
  intros Hv Htok Hc. pose proof (nef_bytes_size v Hv). pose proof (no_script v Hv) as Hs.
  unfold NEF_MAX_SCRIPT_SIZE in Hs. unfold hash256_ok, NEOC_HASH256_SIZE in Hc.
  assert (zlen (nef_bytes v ++ hash256_data c) = zlen (nef_bytes v) + 32) as El by (rewrite zlen_app; lia).
  apply serialize_with_ok; [|lia|unfold stream_max; lia|rewrite El; by apply nef_heap].
  destruct (no_compiler v Hv) as [Hcs Hcl]. change (nh_compiler _) with (copy_string 63 (nv_compiler v)).
  rewrite array_strlen_copy by done. apply writes_lift. cbv zeta. cmps.
  assert (memcpy_from (copy_string 63 (nv_compiler v)) (zlen (nv_compiler v)) = Ok (nv_compiler v)) as ->.
  { rewrite copy_string_short by done. unfold memcpy_from.
    set (rest := Byte.x00 :: _). change (nv_compiler v ++ rest) with ([] ++ nv_compiler v ++ rest).
    change 0 with (zlen (@nil byte)). by rewrite buf_slice_app. }
  apply writes_lift.
  assert (nv_compiler v ++ replicate (Z.to_nat (64 - zlen (nv_compiler v))) Byte.x00
          = copy_string 63 (nv_compiler v)) as ->.
  { rewrite copy_string_short by done. f_equal. unfold zlen in *.
    replace (Z.to_nat (64 - Z.of_nat (length (nv_compiler v))))
      with (S (63 - length (nv_compiler v))) by lia. done. }
  apply writes_bind; [by apply contents_writes|]. cbn [nef_of nf_checksum].
  rewrite hash256_be_buffer by done. apply writes_lift. by apply write_sized.
Qed.

Lemma read_sized n bs : zlen bs = n -> reads (neoc_binary_reader_read_bytes n) bs bs.
Proof. intros <-. apply read_bytes_reads. Qed.

Lemma token_reads t : token_ok t -> reads read_token (token_bytes t) (token_of t).
Proof.
  intros [Hh [Hm Hl] Hp]. pose proof (zlen_nonneg (tv_method t)). unfold read_token, token_bytes.
  unfold hash160_ok, NEOC_HASH160_SIZE in Hh.
  eapply reads_bind; [by apply read_sized|]. unfold neoc_hash160_from_bytes.
  rewrite memcpy_from_all by done. apply reads_lift.
  eapply reads_bind; [apply read_byte_reads|]. rewrite !Z_of_byte_small by lia. cmps.
  eapply reads_bind; [apply read_bytes_reads|].
  eapply reads_bind; [apply read_uint16_reads|]. eapply reads_bind; [apply read_byte_reads|].
  eapply reads_ret_bind; [apply read_byte_reads|]. rewrite wrap_small by done. unfold token_of. f_equal.
  f_equal; [by destruct (tv_hash t)|by destruct (tv_return t)].
Qed.

Definition loaded (v : nef_view) (c : neoc_hash256_t) : neoc_nef_file_t :=
  nef_of v (tokens_read v) 0 c false.

Lemma tokens_reads v :
  nef_ok v ->
  reads (if 0 <? zlen (nv_tokens v) then
           if negb (neoc_malloc_ok (zlen (nv_tokens v) * nef_token_size)) then fail NEOC_ERROR_MEMORY
           else let! l := read_n (Z.to_nat (zlen (nv_tokens v))) read_token in ret (Live l)
         else ret Null) (concat (map token_bytes (nv_tokens v))) (tokens_read v).
Proof.
  intros Hv. destruct (no_tokens v Hv) as [Ht Hl]. unfold tokens_read, tokens_of.
  destruct (nv_tokens v) as [|t ts] eqn:E; [apply reads_ret|]. rewrite <- E in *.
  assert (0 < zlen (nv_tokens v)) as Hpos.
  { rewrite E, zlen_cons. pose proof (zlen_nonneg ts). lia. }
  cmps. assert (neoc_malloc_ok (zlen (nv_tokens v) * nef_token_size) = true) as ->.
  { unfold neoc_malloc_ok, nef_token_size. cmps. apply Hheap. eval_pows. lia. }
  cbn [negb]. unfold zlen. rewrite Nat2Z.id. eapply reads_ret_bind; [|done].
  apply read_n_reads_map. eapply Forall_impl; [exact Ht|]. intros. by apply token_reads.
Qed.

Lemma nef_reads v c :
  nef_ok v -> zlen (nv_source v) <= 254 -> hash256_ok c ->
  reads read_nef (nef_bytes v ++ hash256_data c) (loaded v c).
Proof.
  intros Hv Hsl Hc. pose proof (no_script v Hv) as Hs. unfold NEF_MAX_SCRIPT_SIZE in Hs.
  destruct (no_tokens v Hv) as [_ Htl]. pose proof (zlen_nonneg (nv_tokens v)). pose proof (zlen_nonneg (nv_source v)).
  unfold read_nef, nef_bytes, head_bytes. rewrite <- !app_assoc.
  eapply reads_bind; [apply read_uint32_reads|]. change (wrap 32 NEF_MAGIC =? NEF_MAGIC) with true. cbn [negb].
  eapply reads_bind; [apply read_sized, length_copy_string|]. eapply reads_bind; [apply read_byte_reads|].
  rewrite !Z_of_byte_small by lia.
  eapply (reads_bind _ _ (nv_source v) _ (nv_source v)).
  { destruct (0 <? zlen (nv_source v)) eqn:E; bdestruct; [cmps; apply read_bytes_reads|].
    rewrite (zlen_zero (nv_source v)) by lia. apply reads_ret. }
  eapply reads_bind; [by apply read_sized|]. eapply reads_bind; [apply read_byte_reads|].
  rewrite !Z_of_byte_small by lia. cbv zeta. eapply reads_bind; [by apply tokens_reads|].
  eapply reads_bind; [apply read_byte_reads|].
  eapply reads_bind; [apply read_var_bytes_reads; [eval_pows; lia|apply Hheap; eval_pows; lia]|].
  eapply reads_ret_bind; [by apply read_sized|]. unfold neoc_hash256_from_bytes.
  rewrite memcpy_from_all by done. unfold loaded, nef_of, header_of, as_pointer.
  destruct (nv_script v) as [|x s] eqn:Esc; [exfalso; destruct Hs as [Hs _]; by vm_compute in Hs|]. rewrite <- Esc. cbn [lift]. by destruct c.
Qed.

(** The bytes of a file with a source of 255 characters are refused. *)
Lemma nef_long_source v c :
  nef_ok v -> zlen (nv_source v) = 255 ->
  read_fails read_nef (nef_bytes v ++ hash256_data c) NEOC_ERROR_INVALID_FORMAT.
Proof.
  intros Hv Hs. unfold read_nef, nef_bytes, head_bytes. rewrite <- !app_assoc.
  eapply fails_bind; [apply read_uint32_reads|]. change (wrap 32 NEF_MAGIC =? NEF_MAGIC) with true. cbn [negb].
  eapply fails_bind; [apply read_sized, length_copy_string|]. eapply fails_bind; [apply read_byte_reads|].
  rewrite Hs. change (Z_of_byte (byte_of_Z 255)) with 255. intros r _ _. done.
Qed.

(** Tokens are added one by one. *)
Lemma add_tokens_ok ts : forall v c,
  nef_ok (mk_nview (nv_compiler v) (nv_source v) (nv_tokens v ++ ts) (nv_script v)) -> checksum_of v c ->
  let w := mk_nview (nv_compiler v) (nv_source v) (nv_tokens v ++ ts) (nv_script v) in
  exists c', checksum_of w c' /\
    for_each add_token ts (nef_of v (tokens_of v) (capacity_for (zlen (nv_tokens v))) c true)
    = (Ok tt, nef_of w (tokens_of w) (capacity_for (zlen (nv_tokens w))) c' true).
Proof.
  induction ts as [|t ts IH]; intros v c Hv Hc w.
  - exists c. subst w. rewrite app_nil_r. destruct v. done.
  - destruct (no_tokens _ Hv) as [Ht Hl]. cbn [nv_tokens] in Ht, Hl.
    apply Forall_app in Ht as [Htv Hts]. apply Forall_cons_1 in Hts as [Htt Hts].
    rewrite zlen_app, zlen_cons in Hl. pose proof (zlen_nonneg ts).
    assert (nef_ok v) as Hv0.
    { destruct Hv. constructor; try done. split; [done|lia]. }
    destruct (add_token_ok v t c Hv0 Htt ltac:(lia)) as (c1 & Hc1 & E1).
    destruct (IH (add_view v t) c1) as (c2 & Hc2 & E2).
    { cbn [add_view nv_compiler nv_source nv_tokens nv_script]. rewrite <- app_assoc. exact Hv. }
    { done. }
    exists c2. cbn [add_view nv_compiler nv_source nv_tokens nv_script] in E2, Hc2.
    rewrite <- app_assoc in E2, Hc2. split; [exact Hc2|]. cbn [for_each]. unfold bind. rewrite E1.
    rewrite zlen_app in E2. change (zlen [t]) with 1 in E2. exact E2.
Qed.

Lemma verify_ok v tokens capacity c valid :
  nef_ok v -> tokens = tokens_of v \/ tokens = tokens_read v -> checksum_of v c ->
  neoc_nef_file_verify_checksum (nef_of v tokens capacity c valid) = Ok true.
Proof.
  intros Hv Htok Hc. unfold neoc_nef_file_verify_checksum.
  rewrite (calculate_checksum_ok v tokens capacity c c valid Hv Htok Hc). cbn [nef_of nf_checksum].
  unfold neoc_hash256_equal, neoc_hash256_compare. f_equal. apply Z.eqb_eq. by apply memcmp_zero.
Qed.

(** C30.  A file made from a compiler, a source, a script and any tokens is written and read
    back: the checksum is the double SHA-256 of the content and verifies on both sides, and
    the loaded object has the same header, tokens, script and checksum.  But the reader
    refuses files of less than 328 bytes and sources of 255 characters, which the writer
    produces. *)
Theorem nef_roundtrip (compiler script : list byte) (source : option (list byte)) (ts : list token_view) :
  let v := mk_nview compiler (default [] source) ts script in
  nef_ok v ->
  exists empty nef c data,
    neoc_nef_file_create (Some compiler) source (Some script) (zlen script) = Ok empty /\
    for_each add_token ts empty = (Ok tt, nef) /\
    checksum_of v c /\ neoc_nef_file_get_checksum nef = c /\
    neoc_nef_file_verify_checksum nef = Ok true /\
    neoc_nef_file_to_bytes nef = Ok data /\
    neoc_nef_file_from_bytes (Some data) (zlen data)
    = (if (zlen data <? 328) || (zlen (nv_source v) =? 255) then Err NEOC_ERROR_INVALID_FORMAT
       else Ok (loaded v c)) /\
    neoc_nef_file_verify_checksum (loaded v c) = Ok true.
Proof.
  intros v Hv. pose proof Hv as [Hcomp Hsrc [Ht Hl] Hscr].
  destruct (nef_create_ok compiler source script) as (c0 & Hc0 & E0).
  { constructor; try done. }
  destruct (add_tokens_ok ts (mk_nview compiler (default [] source) [] script) c0 Hv Hc0) as (c & Hc & E1).
  exists (nef_of (mk_nview compiler (default [] source) [] script) (Live []) 10 c0 true).
  exists (nef_of v (tokens_of v) (capacity_for (zlen ts)) c true), c, (nef_bytes v ++ hash256_data c).
  pose proof Hc as (d & _ & _ & Hok). pose proof (nef_bytes_size v Hv) as Hz. destruct Hscr as [_ Hscr].
  unfold NEF_MAX_SCRIPT_SIZE in Hscr. unfold hash256_ok, NEOC_HASH256_SIZE in Hok.
  assert (zlen (nef_bytes v ++ hash256_data c) = zlen (nef_bytes v) + 32) as El by (rewrite zlen_app; lia).
  split_and!; [exact E0|exact E1|done|done|apply verify_ok; auto|by apply nef_to_bytes_ok; auto| |apply verify_ok; auto].
  unfold neoc_nef_file_from_bytes, nef_header_size.
  destruct (_ <? 328) eqn:E; [done|]. cbn [orb].
  destruct (reader_create_ok (nef_bytes v ++ hash256_data c)) as (r & Er & Hr & Hrd & Hrp).
  { rewrite El. eval_pows. lia. }
  { apply Hheap. unfold reader_struct_size. eval_pows. lia. }
  { apply Hheap. rewrite El. eval_pows. lia. }
  rewrite Er. cbn [rbind]. assert (neoc_malloc_ok nef_struct_size = true) as ->.
  { unfold neoc_malloc_ok, nef_struct_size. cmps. apply Hheap. eval_pows. lia. }
  cbn [negb]. assert (at_bytes r (nef_bytes v ++ hash256_data c)) as Hat.
  { exists [], []. rewrite app_nil_r. split; [done|]. by rewrite Hrp. }
  destruct Hsrc as [_ Hsrc]. destruct (zlen (nv_source v) =? 255) eqn:Es; bdestruct.
  - apply (nef_long_source v c Hv Es r Hr Hat).
  - rewrite (nef_reads v c Hv ltac:(lia) Hok r Hr Hat). done.
Qed.

(** A loaded file cannot get another token: the capacity of its array is recorded as 0,
    so the array is resized to nothing, which frees it.  The call reports that memory is
    exhausted, the file keeps the freed array, and verifying or writing it uses freed memory. *)
Theorem nef_loaded_add_token (v : nef_view) (c : neoc_hash256_t) (t : token_view) :
  nef_ok v -> token_ok t -> nv_tokens v <> [] -> zlen (nv_tokens v) < 128 ->
  exists nef,
    add_token t (loaded v c) = (Err NEOC_ERROR_MEMORY, nef) /\
    nf_tokens nef = Freed /\ nf_token_count nef = zlen (nv_tokens v) /\
    neoc_nef_file_get_token nef 0 = Fault /\ neoc_nef_file_verify_checksum nef = Fault.
Proof.
  intros Hv Ht Hne Hn. destruct (to_method t Ht) as [_ Hm]. pose proof (zlen_nonneg (nv_tokens v)).
  assert (0 < zlen (nv_tokens v)) as Hpos by (destruct (nv_tokens v); [done|rewrite zlen_cons in *; note_zlen; lia]).
  exists (nef_of v Freed 0 c false). split_and!; try done.
  - unfold add_token, neoc_nef_file_add_method_token. cmps. unfold bind at 1, get.
    unfold NEF_MAX_TOKENS. cbn [loaded nef_of nf_token_count nf_token_capacity]. cmps.
    unfold bind, resize_tokens. cbn [loaded nef_of nf_tokens]. change (_ * nef_token_size =? 0) with true. cbv iota.
    unfold tokens_read. destruct (nv_tokens v) as [|x l] eqn:E; [done|]. reflexivity.
  - unfold neoc_nef_file_get_token, block_read. cbn [nef_of nf_token_count nf_tokens]. cmps. done.
  - unfold neoc_nef_file_verify_checksum.
    assert (calculate_checksum (nef_of v Freed 0 c false) = Fault) as ->; [|done].
    unfold calculate_checksum. change (nh_compiler _) with (copy_string 63 (nv_compiler v)).
    assert (zlen (head_bytes v) <= zlen (nef_bytes v)) as Hhead.
    { unfold nef_bytes. rewrite zlen_app. note_zlen. lia. }
    pose proof (nef_bytes_size v Hv). pose proof (no_script v Hv) as Hs. unfold NEF_MAX_SCRIPT_SIZE in Hs.
    unfold write_contents. rewrite (serialize_faults 1024 _ (head_bytes v)); [done|by apply nef_header_writes|lia| | |].
    + unfold stream_max. lia.
    + eapply heap_serves_mono; [by apply nef_heap|lia].
    + intros w. cbn [nef_of nf_tokens nf_token_count]. unfold block_read. cmps. done.
Qed.
End Proofs.

(** ** Files from outside *)

(** A character array that holds a string. *)
Definition char_array (n : Z) (a : list byte) : Prop :=
  zlen a = n /\ existsb (fun b => Z_of_byte b =? 0) a = true.

Record nef_inv (nef : neoc_nef_file_t) : Prop := {
  ni_compiler : zlen (nh_compiler (nf_header nef)) = 64;
  ni_source : char_array 256 (nh_source (nf_header nef));
  ni_reserved : zlen (nh_reserved (nf_header nef)) = 2;
  ni_count : 0 <= nf_token_count nef < 256;
  ni_tokens : exists l, block_read (nf_tokens nef) (nf_token_count nef) = Ok l /\
                Forall (fun t => hash160_ok (tok_hash t) /\ char_array 32 (tok_method t)) l;
  ni_script : nf_script_size nef = match nf_script nef with Some s => zlen s | None => 0 end;
  ni_checksum : hash256_ok (nf_checksum nef)
}.

Lemma cstring_prefix a : exists rest, a = cstring a ++ rest.
Proof.
  induction a as [|b a (rest & IH)]; [by exists []|]. cbn [cstring].
  destruct (Z_of_byte b =? 0); [by eexists|]. exists rest. cbn [app]. by rewrite <- IH.
Qed.

Lemma cstring_shorter a :
  existsb (fun b => Z_of_byte b =? 0) a = true -> zlen (cstring a) < zlen a.
Proof.
  induction a as [|b a IH]; [done|]. cbn [existsb cstring]. rewrite zlen_cons.
  destruct (Z_of_byte b =? 0); [intros _; rewrite zlen_nil; pose proof (zlen_nonneg a); lia|].
  cbn [orb]. intros Ha. rewrite zlen_cons. pose proof (IH Ha). lia.
Qed.

Lemma copy_string_array n s : zlen s <= Z.of_nat n -> char_array (Z.of_nat (S n)) (copy_string n s).
Proof.
  intros Hs. split; [apply length_copy_string|]. rewrite copy_string_short by done.
  rewrite existsb_app. cbn. by rewrite orb_true_r.
Qed.

Section Untrusted.
Context `{Allocator} `{Crypto}.

Lemma string_writes n a : char_array n a ->
  array_strlen a = Ok (zlen (cstring a)) /\ 0 <= zlen (cstring a) < n /\
  writes (neoc_binary_writer_write_bytes (Some a) (zlen (cstring a))) (cstring a).
Proof.
  intros [Hl Ha]. unfold array_strlen. rewrite Ha. pose proof (cstring_shorter a Ha).
  pose proof (zlen_nonneg (cstring a)). split_and!; [done|lia|lia|].
  destruct (cstring_prefix a) as [rest E]. rewrite E at 1. apply write_prefix.
Qed.

Lemma raw_token_writes t :
  hash160_ok (tok_hash t) -> char_array 32 (tok_method t) ->
  exists bs, writes (write_token t) bs /\ zlen bs <= 56.
Proof.
  intros Hh Hm. destruct (string_writes _ _ Hm) as (Em & Hl & Hw). eexists. split.
  - unfold write_token. rewrite hash160_be_buffer by done. apply writes_lift.
    apply writes_bind; [by apply write_sized|]. rewrite Em. apply writes_lift.
    rewrite wrap_small by (eval_pows; lia). cbv zeta.
    apply writes_bind; [apply write_byte_writes|]. apply writes_bind; [exact Hw|].
    apply writes_bind; [apply write_uint16_writes|]. apply writes_bind; apply write_byte_writes.
  - unfold hash160_ok, NEOC_HASH160_SIZE in Hh. rewrite !zlen_app, zlen_le_bytes.
    repeat change (zlen [_]) with 1. lia.
Qed.

Lemma raw_tokens_writes l :
  Forall (fun t => hash160_ok (tok_hash t) /\ char_array 32 (tok_method t)) l ->
  exists bs, writes (for_each write_token l) bs /\ zlen bs <= 56 * zlen l.
Proof.
  induction 1 as [|t l [Hh Hm] _ (bs & Hw & Hl)]; [exists []; split; [apply writes_ret|done]|].
  destruct (raw_token_writes t Hh Hm) as (b & Hb & Hbl). exists (b ++ bs). cbn [for_each].
  rewrite zlen_app, zlen_cons. split; [by apply writes_bind|lia].
Qed.

Lemma script_writes nef : nef_inv nef ->
  writes (neoc_binary_writer_write_var_bytes (nf_script nef) (nf_script_size nef))
    (var_bytes (default [] (nf_script nef))).
Proof.
  intros Hi. rewrite (ni_script nef Hi). destruct (nf_script nef) as [s|]; [apply write_var_bytes_writes|].
  apply write_var_bytes_null_writes.
Qed.

(** The content of every file that satisfies the invariant can be written. *)
Lemma raw_contents_writes compiler nef :
  nef_inv nef -> zlen compiler = 64 -> zlen (default [] (nf_script nef)) < 2 ^ 48 ->
  exists bs, writes (write_contents compiler nef) bs /\ zlen bs + 32 <= stream_max.
Proof.
  intros Hi Hc Hs. destruct (string_writes _ _ (ni_source nef Hi)) as (Es & Hsl & Hsw).
  destruct (ni_tokens nef Hi) as (l & El & Hl). destruct (raw_tokens_writes l Hl) as (tb & Htw & Htl).
  pose proof (ni_count nef Hi) as Hn. assert (zlen l < 256) as Hll.
  { revert El. unfold block_read. destruct (_ <=? 0); [intros [= <-]; done|].
    destruct (nf_tokens nef) as [|x|]; try done. destruct (buf_slice x 0 _) as [y|] eqn:E; [|done].
    apply buf_slice_length in E. intros [= <-]. lia. }
  eexists. split.
  - apply writes_bind.
    { apply writes_bind; [apply write_uint32_writes|]. apply writes_bind; [by apply write_sized|].
      rewrite Es. apply writes_lift. rewrite wrap_small by (eval_pows; lia). cbv zeta.
      apply writes_bind; [apply write_byte_writes|]. apply (writes_bind _ (cstring (nh_source (nf_header nef)))).
      { destruct (0 <? _) eqn:E; bdestruct; [done|].
        rewrite (zlen_zero (cstring (nh_source (nf_header nef)))) by lia. apply writes_ret. }
      apply writes_bind; [apply write_sized; by apply ni_reserved|apply write_byte_writes]. }
    rewrite El. apply writes_lift. apply writes_bind; [exact Htw|].
    apply writes_bind; [apply write_byte_writes|by apply script_writes].
  - rewrite !zlen_app, zlen_le_bytes. rewrite Hc, (ni_reserved nef Hi). repeat change (zlen [_]) with 1.
    unfold var_bytes. rewrite zlen_app. pose proof (var_int_short (zlen (default [] (nf_script nef)))).
    unfold stream_max. eval_pows. lia.
Qed.

Hypothesis Hb : heap_bounded.

Lemma read_token_safe :
  reader_safe read_token (fun t => hash160_ok (tok_hash t) /\ char_array 32 (tok_method t)).
Proof.
  eapply safe_bind; [apply read_bytes_safe; lia|]. cbn. intros hash Hh.
  eapply safe_bind; [apply (lift_safe _ hash160_ok)|].
  { unfold neoc_hash160_from_bytes. by rewrite memcpy_from_all. }
  intros h Hok. eapply safe_bind; [apply read_byte_safe|]. intros len _. pose proof (Z_of_byte_range len).
  destruct (32 <=? Z_of_byte len) eqn:E; bdestruct; [apply safe_fail|].
  eapply safe_bind; [apply read_bytes_safe; lia|]. cbn. intros method Hm.
  eapply safe_bind; [apply read_uint16_safe|]. intros count _.
  eapply safe_bind; [apply read_byte_safe|]. intros ret _.
  eapply safe_bind; [apply read_byte_safe|]. intros flags _. apply safe_ret. split; [done|].
  apply (copy_string_array 31). lia.
Qed.

(** What is known of a file that was read. *)
Definition nef_read (nef : neoc_nef_file_t) : Prop :=
  nef_inv nef /\ nh_magic (nf_header nef) = NEF_MAGIC /\
  match nf_script nef with Some s => malloc_ok (zlen s) = true | None => True end.

Lemma read_nef_safe : reader_safe read_nef nef_read.
Proof.
  eapply safe_bind; [apply read_uint32_safe|]. intros magic _.
  destruct (magic =? NEF_MAGIC) eqn:Emagic; [|apply safe_fail]. cbn [negb]. bdestruct.
  eapply safe_bind; [apply read_bytes_safe; lia|]. cbn. intros compiler Hc.
  eapply safe_bind; [apply read_byte_safe|]. intros len _. pose proof (Z_of_byte_range len).
  apply (safe_bind _ _ (fun s => zlen s <= 254)).
  { destruct (0 <? _) eqn:E0; [|apply safe_ret; by vm_compute].
    destruct (255 <=? _) eqn:E1; bdestruct; [apply safe_fail|].
    eapply safe_weaken; [apply read_bytes_safe; lia|]. cbn. lia. }
  intros source Hs. eapply safe_bind; [apply read_bytes_safe; lia|]. cbn. intros reserved Hr.
  eapply safe_bind; [apply read_byte_safe|]. intros count _. pose proof (Z_of_byte_range count).
  apply (safe_bind _ _ (fun tokens => exists l, block_read tokens (Z_of_byte count) = Ok l /\
    Forall (fun t => hash160_ok (tok_hash t) /\ char_array 32 (tok_method t)) l)).
  { destruct (0 <? Z_of_byte count) eqn:E0; bdestruct.
    2: { apply safe_ret. exists []. unfold block_read. cmps. done. }
    destruct (neoc_malloc_ok _); [|apply safe_fail]. cbn [negb].
    eapply safe_bind; [apply read_n_safe, read_token_safe|]. cbn. intros l [Hl Hf]. apply safe_ret. exists l.
    rewrite Z2Nat.id in Hl by lia. unfold block_read. cmps. rewrite <- Hl, buf_slice_all. done. }
  intros tokens Ht. eapply safe_bind; [apply read_byte_safe|]. intros reserved2 _.
  eapply safe_bind; [by apply read_var_bytes_granted|]. cbn. intros script Hsc.
  eapply safe_bind; [apply read_bytes_safe; lia|]. cbn. intros checksum Hck.
  eapply safe_bind; [apply (lift_safe _ hash256_ok)|].
  { unfold neoc_hash256_from_bytes. by rewrite memcpy_from_all. }
  intros h Hok. apply safe_ret. split_and!; [|done|by destruct script as [s|]; [apply Hsc|]].
  constructor; cbn; try done. apply (copy_string_array 255). lia.
Qed.

End Untrusted.

Lemma has_zero a : existsb (fun b => Z_of_byte b =? 0) a = true <-> Byte.x00 ∈ a.
Proof.
  rewrite existsb_exists, list_elem_of_In. split.
  - intros (b & Hin & Hz). bdestruct. by rewrite <- (Z_of_byte_inj b Byte.x00).
  - intros Hin. by exists Byte.x00.
Qed.

Section Written.
Context `{Allocator} `{Crypto}.
Hypothesis Hcrypto : crypto_works.

Lemma verify_safe nef :
  nef_inv nef -> zlen (default [] (nf_script nef)) < 2 ^ 48 -> neoc_nef_file_verify_checksum nef <> Fault.
Proof.
  intros Hi Hs. destruct (raw_contents_writes _ nef Hi (ni_compiler nef Hi) Hs) as (bs & Hw & Hl).
  unfold neoc_nef_file_verify_checksum, calculate_checksum.
  pose proof (serialize_with_safe 1024 _ bs Hw ltac:(lia) ltac:(lia)) as Hsafe.
  destruct (serialize_with _ _) as [data| |]; [|done|done]. cbn [rbind].
  destruct (sha256_double_ok Hcrypto data) as (h & Eh & Hh). rewrite Eh. cbn [rbind].
  unfold neoc_hash256_from_bytes. rewrite memcpy_from_all; [done|]. unfold zlen. by rewrite Hh.
Qed.

(** Writing runs past the compiler's name exactly when it is not terminated. *)
Lemma to_bytes_faults nef :
  nef_inv nef -> zlen (default [] (nf_script nef)) < 2 ^ 48 -> heap_serves 1024 ->
  neoc_nef_file_to_bytes nef = Fault <-> Byte.x00 ∉ nh_compiler (nf_header nef).
Proof.
  intros Hi Hs Hh. unfold neoc_nef_file_to_bytes. rewrite <- has_zero.
  pose proof (ni_compiler nef Hi) as Hc. set (compiler := nh_compiler (nf_header nef)) in *.
  destruct (existsb _ compiler) eqn:E.
  - split; [|done]. intros F. exfalso. revert F.
    destruct (string_writes 64 compiler (conj Hc E)) as (El & Hlen & _).
    destruct (cstring_prefix compiler) as [rest Er].
    set (name := cstring compiler) in *.
    destruct (raw_contents_writes (name ++ replicate (Z.to_nat (64 - zlen name)) Byte.x00) nef Hi) as (bs & Hw & Hl);
      [rewrite zlen_app, zlen_replicate; lia|done|].
    eapply (serialize_with_safe _ _ (bs ++ hash256_data (nf_checksum nef))); [|lia|].
    + rewrite El. apply writes_lift. cbv zeta. cmps.
      assert (memcpy_from compiler (zlen name) = Ok name) as ->.
      { unfold memcpy_from. rewrite Er. change (name ++ rest) with ([] ++ name ++ rest).
        change 0 with (zlen (@nil byte)). by rewrite buf_slice_app. }
      apply writes_lift. apply writes_bind; [exact Hw|].
      rewrite hash256_be_buffer by apply (ni_checksum nef Hi). apply writes_lift, write_sized, (ni_checksum nef Hi).
    + rewrite zlen_app. pose proof (ni_checksum nef Hi) as Hk. unfold hash256_ok, NEOC_HASH256_SIZE in Hk. lia.
  - split; [done|]. intros _. unfold serialize_with, array_strlen. rewrite E.
    destruct (writer_create_succeeds 1024 true 1024 Hh) as [w ->]; [unfold writer_struct_size; lia|lia|]. done.
Qed.
End Written.

(** Files from outside: reading any bytes stays inside them and terminates.  Of an
    accepted file every string but one is terminated and the tokens are as many as announced,
    so that verifying the checksum is safe; but the 64 bytes of the compiler need not contain
    a zero, and writing the file again runs past them exactly when they do not. *)
Theorem nef_untrusted `{Allocator} `{Crypto} (data : list byte) :
  crypto_works -> (forall n, malloc_ok n = true -> n < 2 ^ 48) -> heap_serves 1024 -> zlen data < 2 ^ 63 ->
  match neoc_nef_file_from_bytes (Some data) (zlen data) with
  | Ok nef =>
      nef_inv nef /\ nh_magic (nf_header nef) = NEF_MAGIC /\
      neoc_nef_file_verify_checksum nef <> Fault /\
      (neoc_nef_file_to_bytes nef = Fault <-> Byte.x00 ∉ nh_compiler (nf_header nef))
  | Err _ => True
  | Fault => False
  end.
Proof.
  intros Hw Hb Hh Hl. assert heap_bounded as Hbound by (intros n Hn%Hb; eval_pows; lia).
  unfold neoc_nef_file_from_bytes, neoc_binary_reader_create. destruct (_ <? nef_header_size); [done|].
  destruct (negb _); [done|]. destruct (negb _); [done|]. rewrite buf_slice_all. cbn [rbind].
  destruct (negb _); [done|]. set (rd := mk_reader _ _ _ _).
  assert (reader_ok rd) as Hr.
  { pose proof (zlen_nonneg data). split; cbn; try done; lia || (left; done). }
  pose proof (read_nef_safe Hbound rd Hr) as Hs. unfold safe_at in Hs.
  destruct (read_nef rd) as [[nef| |] r']; [|done|by destruct Hs]. cbn [fst]. destruct Hs as [(Hi & Hm & Hsc) _].
  assert (zlen (default [] (nf_script nef)) < 2 ^ 48) as Hss.
  { destruct (nf_script nef) as [s|]; [by apply Hb|done]. }
  split_and!; [done|done|by apply verify_safe|by apply to_bytes_faults].
Qed.

(** ** Samples *)

Section Samples.
(** A heap that serves requests up to 2 MiB. *)
Definition nef_heap_sample : Allocator := fun n => n <=? 2 ^ 21.
#[local] Existing Instance nef_heap_sample.
#[local] Existing Instance toy_crypto.

Lemma nef_heap_serves n : n <= 2 ^ 21 -> heap_serves n.
Proof. intros Hn m Hm. unfold malloc_ok, nef_heap_sample. lia. Qed.

Definition sample_token : token_view := mk_tview sample160 (str "transfer") 4 true Byte.x0f.

Definition sample_nef : nef_view :=
  mk_nview (str "neoc 1.0") (replicate 254 Byte.x61) [sample_token; sample_token] [Byte.x40].

Lemma sample_token_ok : token_ok sample_token.
Proof. split; [done|split; [repeat constructor; discriminate|by vm_compute]|by vm_compute]. Qed.

Lemma sample_nef_ok : nef_ok sample_nef.
Proof.
  split; [split; [repeat constructor; discriminate|by vm_compute]
         |split; [apply Forall_replicate; discriminate|by vm_compute]
         |split; [|by vm_compute]|by vm_compute].
  repeat (apply Forall_cons_2; [apply sample_token_ok|]). apply Forall_nil_2.
Qed.

Lemma nef_roundtrip_witness :
  exists nef c data,
    neoc_nef_file_to_bytes nef = Ok data /\
    neoc_nef_file_from_bytes (Some data) (zlen data)
    = (if (zlen data <? 328) || (254 =? 255) then Err NEOC_ERROR_INVALID_FORMAT else Ok (loaded sample_nef c)).
Proof.
  destruct (nef_roundtrip toy_crypto_works (nef_heap_serves (2 ^ 21) ltac:(reflexivity))
    (str "neoc 1.0") [Byte.x40] (Some (replicate 254 Byte.x61)) [sample_token; sample_token] sample_nef_ok)
    as (empty & nef & c & data & _ & _ & _ & _ & _ & Ed & Ef & _).
  exists nef, c, data. exact (conj Ed Ef).
Defined.

Lemma nef_loaded_add_token_witness :
  exists nef, add_token sample_token (loaded sample_nef sample256) = (Err NEOC_ERROR_MEMORY, nef) /\
    neoc_nef_file_verify_checksum nef = Fault.
Proof.
  destruct (nef_loaded_add_token (nef_heap_serves (2 ^ 21) ltac:(reflexivity)) sample_nef sample256 sample_token
    sample_nef_ok sample_token_ok) as (nef & E & _ & _ & _ & V); [discriminate|by vm_compute|].
  exists nef. exact (conj E V).
Defined.

Lemma nef_untrusted_witness :
  neoc_nef_file_from_bytes (Some (replicate 400 Byte.x00)) 400 <> Fault.
Proof.
  pose proof (nef_untrusted (replicate 400 Byte.x00) toy_crypto_works) as Hx.
  change (zlen (replicate 400 Byte.x00)) with 400 in Hx.
  intros E. rewrite E in Hx. apply Hx.
  - unfold malloc_ok, nef_heap_sample. intros n Hn%Z.leb_le. eapply Z.le_lt_trans; [exact Hn|]. by vm_compute.
  - apply nef_heap_serves. by vm_compute.
  - by vm_compute.
Defined.
End Samples.
