(* ===== verification/Bip39Words.v ===== *)
(** * The English word list (src/crypto/bip39.c)

    The 2048 words of the mnemonic phrases, in the order of the source. *)

From S2P Require Import Prelude.

Definition bip39_wordlist_en : list (list byte) :=
  [ str "abandon"; str "ability"; str "able"; str "about"; str "above"; str "absent"; str "absorb";
    str "abstract"; str "absurd"; str "abuse"; str "access"; str "accident"; str "account";
    str "accuse"; str "achieve"; str "acid"; str "acoustic"; str "acquire"; str "across"; str "act";
    str "action"; str "actor"; str "actress"; str "actual"; str "adapt"; str "add"; str "addict";
    str "address"; str "adjust"; str "admit"; str "adult"; str "advance"; str "advice";
    str "aerobic"; str "affair"; str "afford"; str "afraid"; str "again"; str "age"; str "agent";
    str "agree"; str "ahead"; str "aim"; str "air"; str "airport"; str "aisle"; str "alarm";
    str "album"; str "alcohol"; str "alert"; str "alien"; str "all"; str "alley"; str "allow";
    str "almost"; str "alone"; str "alpha"; str "already"; str "also"; str "alter"; str "always";
    str "amateur"; str "amazing"; str "among"; str "amount"; str "amused"; str "analyst";
    str "anchor"; str "ancient"; str "anger"; str "angle"; str "angry"; str "animal"; str "ankle";
    str "announce"; str "annual"; str "another"; str "answer"; str "antenna"; str "antique";
    str "anxiety"; str "any"; str "apart"; str "apology"; str "appear"; str "apple"; str "approve";
    str "april"; str "arch"; str "arctic"; str "area"; str "arena"; str "argue"; str "arm";
    str "armed"; str "armor"; str "army"; str "around"; str "arrange"; str "arrest"; str "arrive";
    str "arrow"; str "art"; str "artefact"; str "artist"; str "artwork"; str "ask"; str "aspect";
    str "assault"; str "asset"; str "assist"; str "assume"; str "asthma"; str "athlete"; str "atom";
    str "attack"; str "attend"; str "attitude"; str "attract"; str "auction"; str "audit";
    str "august"; str "aunt"; str "author"; str "auto"; str "autumn"; str "average"; str "avocado";
    str "avoid"; str "awake"; str "aware"; str "away"; str "awesome"; str "awful"; str "awkward";
    str "axis"; str "baby"; str "bachelor"; str "bacon"; str "badge"; str "bag"; str "balance";
    str "balcony"; str "ball"; str "bamboo"; str "banana"; str "banner"; str "bar"; str "barely";
    str "bargain"; str "barrel"; str "base"; str "basic"; str "basket"; str "battle"; str "beach";
    str "bean"; str "beauty"; str "because"; str "become"; str "beef"; str "before"; str "begin";
    str "behave"; str "behind"; str "believe"; str "below"; str "belt"; str "bench"; str "benefit";
    str "best"; str "betray"; str "better"; str "between"; str "beyond"; str "bicycle"; str "bid";
    str "bike"; str "bind"; str "biology"; str "bird"; str "birth"; str "bitter"; str "black";
    str "blade"; str "blame"; str "blanket"; str "blast"; str "bleak"; str "bless"; str "blind";
    str "blood"; str "blossom"; str "blouse"; str "blue"; str "blur"; str "blush"; str "board";
    str "boat"; str "body"; str "boil"; str "bomb"; str "bone"; str "bonus"; str "book"; str "boost";
    str "border"; str "boring"; str "borrow"; str "boss"; str "bottom"; str "bounce"; str "box";
    str "boy"; str "bracket"; str "brain"; str "brand"; str "brass"; str "brave"; str "bread";
    str "breeze"; str "brick"; str "bridge"; str "brief"; str "bright"; str "bring"; str "brisk";
    str "broccoli"; str "broken"; str "bronze"; str "broom"; str "brother"; str "brown"; str "brush";
    str "bubble"; str "buddy"; str "budget"; str "buffalo"; str "build"; str "bulb"; str "bulk";
    str "bullet"; str "bundle"; str "bunker"; str "burden"; str "burger"; str "burst"; str "bus";
    str "business"; str "busy"; str "butter"; str "buyer"; str "buzz"; str "cabbage"; str "cabin";
    str "cable"; str "cactus"; str "cage"; str "cake"; str "call"; str "calm"; str "camera";
    str "camp"; str "can"; str "canal"; str "cancel"; str "candy"; str "cannon"; str "canoe";
    str "canvas"; str "canyon"; str "capable"; str "capital"; str "captain"; str "car"; str "carbon";
    str "card"; str "cargo"; str "carpet"; str "carry"; str "cart"; str "case"; str "cash";
    str "casino"; str "castle"; str "casual"; str "cat"; str "catalog"; str "catch"; str "category";
    str "cattle"; str "caught"; str "cause"; str "caution"; str "cave"; str "ceiling"; str "celery";
    str "cement"; str "census"; str "century"; str "cereal"; str "certain"; str "chair"; str "chalk";
    str "champion"; str "change"; str "chaos"; str "chapter"; str "charge"; str "chase"; str "chat";
    str "cheap"; str "check"; str "cheese"; str "chef"; str "cherry"; str "chest"; str "chicken";
    str "chief"; str "child"; str "chimney"; str "choice"; str "choose"; str "chronic";
    str "chuckle"; str "chunk"; str "churn"; str "cigar"; str "cinnamon"; str "circle";
    str "citizen"; str "city"; str "civil"; str "claim"; str "clap"; str "clarify"; str "claw";
    str "clay"; str "clean"; str "clerk"; str "clever"; str "click"; str "client"; str "cliff";
    str "climb"; str "clinic"; str "clip"; str "clock"; str "clog"; str "close"; str "cloth";
    str "cloud"; str "clown"; str "club"; str "clump"; str "cluster"; str "clutch"; str "coach";
    str "coast"; str "coconut"; str "code"; str "coffee"; str "coil"; str "coin"; str "collect";
    str "color"; str "column"; str "combine"; str "come"; str "comfort"; str "comic"; str "common";
    str "company"; str "concert"; str "conduct"; str "confirm"; str "congress"; str "connect";
    str "consider"; str "control"; str "convince"; str "cook"; str "cool"; str "copper"; str "copy";
    str "coral"; str "core"; str "corn"; str "correct"; str "cost"; str "cotton"; str "couch";
    str "country"; str "couple"; str "course"; str "cousin"; str "cover"; str "coyote"; str "crack";
    str "cradle"; str "craft"; str "cram"; str "crane"; str "crash"; str "crater"; str "crawl";
    str "crazy"; str "cream"; str "credit"; str "creek"; str "crew"; str "cricket"; str "crime";
    str "crisp"; str "critic"; str "crop"; str "cross"; str "crouch"; str "crowd"; str "crucial";
    str "cruel"; str "cruise"; str "crumble"; str "crunch"; str "crush"; str "cry"; str "crystal";
    str "cube"; str "culture"; str "cup"; str "cupboard"; str "curious"; str "current";
    str "curtain"; str "curve"; str "cushion"; str "custom"; str "cute"; str "cycle"; str "dad";
    str "damage"; str "damp"; str "dance"; str "danger"; str "daring"; str "dash"; str "daughter";
    str "dawn"; str "day"; str "deal"; str "debate"; str "debris"; str "decade"; str "december";
    str "decide"; str "decline"; str "decorate"; str "decrease"; str "deer"; str "defense";
    str "define"; str "defy"; str "degree"; str "delay"; str "deliver"; str "demand"; str "demise";
    str "denial"; str "dentist"; str "deny"; str "depart"; str "depend"; str "deposit"; str "depth";
    str "deputy"; str "derive"; str "describe"; str "desert"; str "design"; str "desk";
    str "despair"; str "destroy"; str "detail"; str "detect"; str "develop"; str "device";
    str "devote"; str "diagram"; str "dial"; str "diamond"; str "diary"; str "dice"; str "diesel";
    str "diet"; str "differ"; str "digital"; str "dignity"; str "dilemma"; str "dinner";
    str "dinosaur"; str "direct"; str "dirt"; str "disagree"; str "discover"; str "disease";
    str "dish"; str "dismiss"; str "disorder"; str "display"; str "distance"; str "divert";
    str "divide"; str "divorce"; str "dizzy"; str "doctor"; str "document"; str "dog"; str "doll";
    str "dolphin"; str "domain"; str "donate"; str "donkey"; str "donor"; str "door"; str "dose";
    str "double"; str "dove"; str "draft"; str "dragon"; str "drama"; str "drastic"; str "draw";
    str "dream"; str "dress"; str "drift"; str "drill"; str "drink"; str "drip"; str "drive";
    str "drop"; str "drum"; str "dry"; str "duck"; str "dumb"; str "dune"; str "during"; str "dust";
    str "dutch"; str "duty"; str "dwarf"; str "dynamic"; str "eager"; str "eagle"; str "early";
    str "earn"; str "earth"; str "easily"; str "east"; str "easy"; str "echo"; str "ecology";
    str "economy"; str "edge"; str "edit"; str "educate"; str "effort"; str "egg"; str "eight";
    str "either"; str "elbow"; str "elder"; str "electric"; str "elegant"; str "element";
    str "elephant"; str "elevator"; str "elite"; str "else"; str "embark"; str "embody";
    str "embrace"; str "emerge"; str "emotion"; str "employ"; str "empower"; str "empty";
    str "enable"; str "enact"; str "end"; str "endless"; str "endorse"; str "enemy"; str "energy";
    str "enforce"; str "engage"; str "engine"; str "enhance"; str "enjoy"; str "enlist";
    str "enough"; str "enrich"; str "enroll"; str "ensure"; str "enter"; str "entire"; str "entry";
    str "envelope"; str "episode"; str "equal"; str "equip"; str "era"; str "erase"; str "erode";
    str "erosion"; str "error"; str "erupt"; str "escape"; str "essay"; str "essence"; str "estate";
    str "eternal"; str "ethics"; str "evidence"; str "evil"; str "evoke"; str "evolve"; str "exact";
    str "example"; str "excess"; str "exchange"; str "excite"; str "exclude"; str "excuse";
    str "execute"; str "exercise"; str "exhaust"; str "exhibit"; str "exile"; str "exist";
    str "exit"; str "exotic"; str "expand"; str "expect"; str "expire"; str "explain"; str "expose";
    str "express"; str "extend"; str "extra"; str "eye"; str "eyebrow"; str "fabric"; str "face";
    str "faculty"; str "fade"; str "faint"; str "faith"; str "fall"; str "false"; str "fame";
    str "family"; str "famous"; str "fan"; str "fancy"; str "fantasy"; str "farm"; str "fashion";
    str "fat"; str "fatal"; str "father"; str "fatigue"; str "fault"; str "favorite"; str "feature";
    str "february"; str "federal"; str "fee"; str "feed"; str "feel"; str "female"; str "fence";
    str "festival"; str "fetch"; str "fever"; str "few"; str "fiber"; str "fiction"; str "field";
    str "figure"; str "file"; str "film"; str "filter"; str "final"; str "find"; str "fine";
    str "finger"; str "finish"; str "fire"; str "firm"; str "first"; str "fiscal"; str "fish";
    str "fit"; str "fitness"; str "fix"; str "flag"; str "flame"; str "flash"; str "flat";
    str "flavor"; str "flee"; str "flight"; str "flip"; str "float"; str "flock"; str "floor";
    str "flower"; str "fluid"; str "flush"; str "fly"; str "foam"; str "focus"; str "fog";
    str "foil"; str "fold"; str "follow"; str "food"; str "foot"; str "force"; str "forest";
    str "forget"; str "fork"; str "fortune"; str "forum"; str "forward"; str "fossil"; str "foster";
    str "found"; str "fox"; str "fragile"; str "frame"; str "frequent"; str "fresh"; str "friend";
    str "fringe"; str "frog"; str "front"; str "frost"; str "frown"; str "frozen"; str "fruit";
    str "fuel"; str "fun"; str "funny"; str "furnace"; str "fury"; str "future"; str "gadget";
    str "gain"; str "galaxy"; str "gallery"; str "game"; str "gap"; str "garage"; str "garbage";
    str "garden"; str "garlic"; str "garment"; str "gas"; str "gasp"; str "gate"; str "gather";
    str "gauge"; str "gaze"; str "general"; str "genius"; str "genre"; str "gentle"; str "genuine";
    str "gesture"; str "ghost"; str "giant"; str "gift"; str "giggle"; str "ginger"; str "giraffe";
    str "girl"; str "give"; str "glad"; str "glance"; str "glare"; str "glass"; str "glide";
    str "glimpse"; str "globe"; str "gloom"; str "glory"; str "glove"; str "glow"; str "glue";
    str "goat"; str "goddess"; str "gold"; str "good"; str "goose"; str "gorilla"; str "gospel";
    str "gossip"; str "govern"; str "gown"; str "grab"; str "grace"; str "grain"; str "grant";
    str "grape"; str "grass"; str "gravity"; str "great"; str "green"; str "grid"; str "grief";
    str "grit"; str "grocery"; str "group"; str "grow"; str "grunt"; str "guard"; str "guess";
    str "guide"; str "guilt"; str "guitar"; str "gun"; str "gym"; str "habit"; str "hair";
    str "half"; str "hammer"; str "hamster"; str "hand"; str "happy"; str "harbor"; str "hard";
    str "harsh"; str "harvest"; str "hat"; str "have"; str "hawk"; str "hazard"; str "head";
    str "health"; str "heart"; str "heavy"; str "hedgehog"; str "height"; str "hello"; str "helmet";
    str "help"; str "hen"; str "hero"; str "hidden"; str "high"; str "hill"; str "hint"; str "hip";
    str "hire"; str "history"; str "hobby"; str "hockey"; str "hold"; str "hole"; str "holiday";
    str "hollow"; str "home"; str "honey"; str "hood"; str "hope"; str "horn"; str "horror";
    str "horse"; str "hospital"; str "host"; str "hotel"; str "hour"; str "hover"; str "hub";
    str "huge"; str "human"; str "humble"; str "humor"; str "hundred"; str "hungry"; str "hunt";
    str "hurdle"; str "hurry"; str "hurt"; str "husband"; str "hybrid"; str "ice"; str "icon";
    str "idea"; str "identify"; str "idle"; str "ignore"; str "ill"; str "illegal"; str "illness";
    str "image"; str "imitate"; str "immense"; str "immune"; str "impact"; str "impose";
    str "improve"; str "impulse"; str "inch"; str "include"; str "income"; str "increase";
    str "index"; str "indicate"; str "indoor"; str "industry"; str "infant"; str "inflict";
    str "inform"; str "inhale"; str "inherit"; str "initial"; str "inject"; str "injury";
    str "inmate"; str "inner"; str "innocent"; str "input"; str "inquiry"; str "insane";
    str "insect"; str "inside"; str "inspire"; str "install"; str "intact"; str "interest";
    str "into"; str "invest"; str "invite"; str "involve"; str "iron"; str "island"; str "isolate";
    str "issue"; str "item"; str "ivory"; str "jacket"; str "jaguar"; str "jar"; str "jazz";
    str "jealous"; str "jeans"; str "jelly"; str "jewel"; str "job"; str "join"; str "joke";
    str "journey"; str "joy"; str "judge"; str "juice"; str "jump"; str "jungle"; str "junior";
    str "junk"; str "just"; str "kangaroo"; str "keen"; str "keep"; str "ketchup"; str "key";
    str "kick"; str "kid"; str "kidney"; str "kind"; str "kingdom"; str "kiss"; str "kit";
    str "kitchen"; str "kite"; str "kitten"; str "kiwi"; str "knee"; str "knife"; str "knock";
    str "know"; str "lab"; str "label"; str "labor"; str "ladder"; str "lady"; str "lake";
    str "lamp"; str "language"; str "laptop"; str "large"; str "later"; str "latin"; str "laugh";
    str "laundry"; str "lava"; str "law"; str "lawn"; str "lawsuit"; str "layer"; str "lazy";
    str "leader"; str "leaf"; str "learn"; str "leave"; str "lecture"; str "left"; str "leg";
    str "legal"; str "legend"; str "leisure"; str "lemon"; str "lend"; str "length"; str "lens";
    str "leopard"; str "lesson"; str "letter"; str "level"; str "liar"; str "liberty"; str "library";
    str "license"; str "life"; str "lift"; str "light"; str "like"; str "limb"; str "limit";
    str "link"; str "lion"; str "liquid"; str "list"; str "little"; str "live"; str "lizard";
    str "load"; str "loan"; str "lobster"; str "local"; str "lock"; str "logic"; str "lonely";
    str "long"; str "loop"; str "lottery"; str "loud"; str "lounge"; str "love"; str "loyal";
    str "lucky"; str "luggage"; str "lumber"; str "lunar"; str "lunch"; str "luxury"; str "lyrics";
    str "machine"; str "mad"; str "magic"; str "magnet"; str "maid"; str "mail"; str "main";
    str "major"; str "make"; str "mammal"; str "man"; str "manage"; str "mandate"; str "mango";
    str "mansion"; str "manual"; str "maple"; str "marble"; str "march"; str "margin"; str "marine";
    str "market"; str "marriage"; str "mask"; str "mass"; str "master"; str "match"; str "material";
    str "math"; str "matrix"; str "matter"; str "maximum"; str "maze"; str "meadow"; str "mean";
    str "measure"; str "meat"; str "mechanic"; str "medal"; str "media"; str "melody"; str "melt";
    str "member"; str "memory"; str "mention"; str "menu"; str "mercy"; str "merge"; str "merit";
    str "merry"; str "mesh"; str "message"; str "metal"; str "method"; str "middle"; str "midnight";
    str "milk"; str "million"; str "mimic"; str "mind"; str "minimum"; str "minor"; str "minute";
    str "miracle"; str "mirror"; str "misery"; str "miss"; str "mistake"; str "mix"; str "mixed";
    str "mixture"; str "mobile"; str "model"; str "modify"; str "mom"; str "moment"; str "monitor";
    str "monkey"; str "monster"; str "month"; str "moon"; str "moral"; str "more"; str "morning";
    str "mosquito"; str "mother"; str "motion"; str "motor"; str "mountain"; str "mouse"; str "move";
    str "movie"; str "much"; str "muffin"; str "mule"; str "multiply"; str "muscle"; str "museum";
    str "mushroom"; str "music"; str "must"; str "mutual"; str "myself"; str "mystery"; str "myth";
    str "naive"; str "name"; str "napkin"; str "narrow"; str "nasty"; str "nation"; str "nature";
    str "near"; str "neck"; str "need"; str "negative"; str "neglect"; str "neither"; str "nephew";
    str "nerve"; str "nest"; str "net"; str "network"; str "neutral"; str "never"; str "news";
    str "next"; str "nice"; str "night"; str "noble"; str "noise"; str "nominee"; str "noodle";
    str "normal"; str "north"; str "nose"; str "notable"; str "note"; str "nothing"; str "notice";
    str "novel"; str "now"; str "nuclear"; str "number"; str "nurse"; str "nut"; str "oak";
    str "obey"; str "object"; str "oblige"; str "obscure"; str "observe"; str "obtain";
    str "obvious"; str "occur"; str "ocean"; str "october"; str "odor"; str "off"; str "offer";
    str "office"; str "often"; str "oil"; str "okay"; str "old"; str "olive"; str "olympic";
    str "omit"; str "once"; str "one"; str "onion"; str "online"; str "only"; str "open";
    str "opera"; str "opinion"; str "oppose"; str "option"; str "orange"; str "orbit"; str "orchard";
    str "order"; str "ordinary"; str "organ"; str "orient"; str "original"; str "orphan";
    str "ostrich"; str "other"; str "outdoor"; str "outer"; str "output"; str "outside"; str "oval";
    str "oven"; str "over"; str "own"; str "owner"; str "oxygen"; str "oyster"; str "ozone";
    str "pact"; str "paddle"; str "page"; str "pair"; str "palace"; str "palm"; str "panda";
    str "panel"; str "panic"; str "panther"; str "paper"; str "parade"; str "parent"; str "park";
    str "parrot"; str "party"; str "pass"; str "patch"; str "path"; str "patient"; str "patrol";
    str "pattern"; str "pause"; str "pave"; str "payment"; str "peace"; str "peanut"; str "pear";
    str "peasant"; str "pelican"; str "pen"; str "penalty"; str "pencil"; str "people"; str "pepper";
    str "perfect"; str "permit"; str "person"; str "pet"; str "phone"; str "photo"; str "phrase";
    str "physical"; str "piano"; str "picnic"; str "picture"; str "piece"; str "pig"; str "pigeon";
    str "pill"; str "pilot"; str "pink"; str "pioneer"; str "pipe"; str "pistol"; str "pitch";
    str "pizza"; str "place"; str "planet"; str "plastic"; str "plate"; str "play"; str "please";
    str "pledge"; str "pluck"; str "plug"; str "plunge"; str "poem"; str "poet"; str "point";
    str "polar"; str "pole"; str "police"; str "pond"; str "pony"; str "pool"; str "popular";
    str "portion"; str "position"; str "possible"; str "post"; str "potato"; str "pottery";
    str "poverty"; str "powder"; str "power"; str "practice"; str "praise"; str "predict";
    str "prefer"; str "prepare"; str "present"; str "pretty"; str "prevent"; str "price";
    str "pride"; str "primary"; str "print"; str "priority"; str "prison"; str "private";
    str "prize"; str "problem"; str "process"; str "produce"; str "profit"; str "program";
    str "project"; str "promote"; str "proof"; str "property"; str "prosper"; str "protect";
    str "proud"; str "provide"; str "public"; str "pudding"; str "pull"; str "pulp"; str "pulse";
    str "pumpkin"; str "punch"; str "pupil"; str "puppy"; str "purchase"; str "purity";
    str "purpose"; str "purse"; str "push"; str "put"; str "puzzle"; str "pyramid"; str "quality";
    str "quantum"; str "quarter"; str "question"; str "quick"; str "quit"; str "quiz"; str "quote";
    str "rabbit"; str "raccoon"; str "race"; str "rack"; str "radar"; str "radio"; str "rail";
    str "rain"; str "raise"; str "rally"; str "ramp"; str "ranch"; str "random"; str "range";
    str "rapid"; str "rare"; str "rate"; str "rather"; str "raven"; str "raw"; str "razor";
    str "ready"; str "real"; str "reason"; str "rebel"; str "rebuild"; str "recall"; str "receive";
    str "recipe"; str "record"; str "recycle"; str "reduce"; str "reflect"; str "reform";
    str "refuse"; str "region"; str "regret"; str "regular"; str "reject"; str "relax";
    str "release"; str "relief"; str "rely"; str "remain"; str "remember"; str "remind";
    str "remove"; str "render"; str "renew"; str "rent"; str "reopen"; str "repair"; str "repeat";
    str "replace"; str "report"; str "require"; str "rescue"; str "resemble"; str "resist";
    str "resource"; str "response"; str "result"; str "retire"; str "retreat"; str "return";
    str "reunion"; str "reveal"; str "review"; str "reward"; str "rhythm"; str "rib"; str "ribbon";
    str "rice"; str "rich"; str "ride"; str "ridge"; str "rifle"; str "right"; str "rigid";
    str "ring"; str "riot"; str "ripple"; str "risk"; str "ritual"; str "rival"; str "river";
    str "road"; str "roast"; str "robot"; str "robust"; str "rocket"; str "romance"; str "roof";
    str "rookie"; str "room"; str "rose"; str "rotate"; str "rough"; str "round"; str "route";
    str "royal"; str "rubber"; str "rude"; str "rug"; str "rule"; str "run"; str "runway";
    str "rural"; str "sad"; str "saddle"; str "sadness"; str "safe"; str "sail"; str "salad";
    str "salmon"; str "salon"; str "salt"; str "salute"; str "same"; str "sample"; str "sand";
    str "satisfy"; str "satoshi"; str "sauce"; str "sausage"; str "save"; str "say"; str "scale";
    str "scan"; str "scare"; str "scatter"; str "scene"; str "scheme"; str "school"; str "science";
    str "scissors"; str "scorpion"; str "scout"; str "scrap"; str "screen"; str "script";
    str "scrub"; str "sea"; str "search"; str "season"; str "seat"; str "second"; str "secret";
    str "section"; str "security"; str "seed"; str "seek"; str "segment"; str "select"; str "sell";
    str "seminar"; str "senior"; str "sense"; str "sentence"; str "series"; str "service";
    str "session"; str "settle"; str "setup"; str "seven"; str "shadow"; str "shaft"; str "shallow";
    str "share"; str "shed"; str "shell"; str "sheriff"; str "shield"; str "shift"; str "shine";
    str "ship"; str "shiver"; str "shock"; str "shoe"; str "shoot"; str "shop"; str "short";
    str "shoulder"; str "shove"; str "shrimp"; str "shrug"; str "shuffle"; str "shy"; str "sibling";
    str "sick"; str "side"; str "siege"; str "sight"; str "sign"; str "silent"; str "silk";
    str "silly"; str "silver"; str "similar"; str "simple"; str "since"; str "sing"; str "siren";
    str "sister"; str "situate"; str "six"; str "size"; str "skate"; str "sketch"; str "ski";
    str "skill"; str "skin"; str "skirt"; str "skull"; str "slab"; str "slam"; str "sleep";
    str "slender"; str "slice"; str "slide"; str "slight"; str "slim"; str "slogan"; str "slot";
    str "slow"; str "slush"; str "small"; str "smart"; str "smile"; str "smoke"; str "smooth";
    str "snack"; str "snake"; str "snap"; str "sniff"; str "snow"; str "soap"; str "soccer";
    str "social"; str "sock"; str "soda"; str "soft"; str "solar"; str "soldier"; str "solid";
    str "solution"; str "solve"; str "someone"; str "song"; str "soon"; str "sorry"; str "sort";
    str "soul"; str "sound"; str "soup"; str "source"; str "south"; str "space"; str "spare";
    str "spatial"; str "spawn"; str "speak"; str "special"; str "speed"; str "spell"; str "spend";
    str "sphere"; str "spice"; str "spider"; str "spike"; str "spin"; str "spirit"; str "split";
    str "spoil"; str "sponsor"; str "spoon"; str "sport"; str "spot"; str "spray"; str "spread";
    str "spring"; str "spy"; str "square"; str "squeeze"; str "squirrel"; str "stable";
    str "stadium"; str "staff"; str "stage"; str "stairs"; str "stamp"; str "stand"; str "start";
    str "state"; str "stay"; str "steak"; str "steel"; str "stem"; str "step"; str "stereo";
    str "stick"; str "still"; str "sting"; str "stock"; str "stomach"; str "stone"; str "stool";
    str "story"; str "stove"; str "strategy"; str "street"; str "strike"; str "strong";
    str "struggle"; str "student"; str "stuff"; str "stumble"; str "style"; str "subject";
    str "submit"; str "subway"; str "success"; str "such"; str "sudden"; str "suffer"; str "sugar";
    str "suggest"; str "suit"; str "summer"; str "sun"; str "sunny"; str "sunset"; str "super";
    str "supply"; str "supreme"; str "sure"; str "surface"; str "surge"; str "surprise";
    str "surround"; str "survey"; str "suspect"; str "sustain"; str "swallow"; str "swamp";
    str "swap"; str "swarm"; str "swear"; str "sweet"; str "swift"; str "swim"; str "swing";
    str "switch"; str "sword"; str "symbol"; str "symptom"; str "syrup"; str "system"; str "table";
    str "tackle"; str "tag"; str "tail"; str "talent"; str "talk"; str "tank"; str "tape";
    str "target"; str "task"; str "taste"; str "tattoo"; str "taxi"; str "teach"; str "team";
    str "tell"; str "ten"; str "tenant"; str "tennis"; str "tent"; str "term"; str "test";
    str "text"; str "thank"; str "that"; str "theme"; str "then"; str "theory"; str "there";
    str "they"; str "thing"; str "this"; str "thought"; str "three"; str "thrive"; str "throw";
    str "thumb"; str "thunder"; str "ticket"; str "tide"; str "tiger"; str "tilt"; str "timber";
    str "time"; str "tiny"; str "tip"; str "tired"; str "tissue"; str "title"; str "toast";
    str "tobacco"; str "today"; str "toddler"; str "toe"; str "together"; str "toilet"; str "token";
    str "tomato"; str "tomorrow"; str "tone"; str "tongue"; str "tonight"; str "tool"; str "tooth";
    str "top"; str "topic"; str "topple"; str "torch"; str "tornado"; str "tortoise"; str "toss";
    str "total"; str "tourist"; str "toward"; str "tower"; str "town"; str "toy"; str "track";
    str "trade"; str "traffic"; str "tragic"; str "train"; str "transfer"; str "trap"; str "trash";
    str "travel"; str "tray"; str "treat"; str "tree"; str "trend"; str "trial"; str "tribe";
    str "trick"; str "trigger"; str "trim"; str "trip"; str "trophy"; str "trouble"; str "truck";
    str "true"; str "truly"; str "trumpet"; str "trust"; str "truth"; str "try"; str "tube";
    str "tuition"; str "tumble"; str "tuna"; str "tunnel"; str "turkey"; str "turn"; str "turtle";
    str "twelve"; str "twenty"; str "twice"; str "twin"; str "twist"; str "two"; str "type";
    str "typical"; str "ugly"; str "umbrella"; str "unable"; str "unaware"; str "uncle";
    str "uncover"; str "under"; str "undo"; str "unfair"; str "unfold"; str "unhappy"; str "uniform";
    str "unique"; str "unit"; str "universe"; str "unknown"; str "unlock"; str "until";
    str "unusual"; str "unveil"; str "update"; str "upgrade"; str "uphold"; str "upon"; str "upper";
    str "upset"; str "urban"; str "urge"; str "usage"; str "use"; str "used"; str "useful";
    str "useless"; str "usual"; str "utility"; str "vacant"; str "vacuum"; str "vague"; str "valid";
    str "valley"; str "valve"; str "van"; str "vanish"; str "vapor"; str "various"; str "vast";
    str "vault"; str "vehicle"; str "velvet"; str "vendor"; str "venture"; str "venue"; str "verb";
    str "verify"; str "version"; str "very"; str "vessel"; str "veteran"; str "viable";
    str "vibrant"; str "vicious"; str "victory"; str "video"; str "view"; str "village";
    str "vintage"; str "violin"; str "virtual"; str "virus"; str "visa"; str "visit"; str "visual";
    str "vital"; str "vivid"; str "vocal"; str "voice"; str "void"; str "volcano"; str "volume";
    str "vote"; str "voyage"; str "wage"; str "wagon"; str "wait"; str "walk"; str "wall";
    str "walnut"; str "want"; str "warfare"; str "warm"; str "warrior"; str "wash"; str "wasp";
    str "waste"; str "water"; str "wave"; str "way"; str "wealth"; str "weapon"; str "wear";
    str "weasel"; str "weather"; str "web"; str "wedding"; str "weekend"; str "weird"; str "welcome";
    str "west"; str "wet"; str "whale"; str "what"; str "wheat"; str "wheel"; str "when";
    str "where"; str "whip"; str "whisper"; str "wide"; str "width"; str "wife"; str "wild";
    str "will"; str "win"; str "window"; str "wine"; str "wing"; str "wink"; str "winner";
    str "winter"; str "wire"; str "wisdom"; str "wise"; str "wish"; str "witness"; str "wolf";
    str "woman"; str "wonder"; str "wood"; str "wool"; str "word"; str "work"; str "world";
    str "worry"; str "worth"; str "wrap"; str "wreck"; str "wrestle"; str "wrist"; str "write";
    str "wrong"; str "yard"; str "year"; str "yellow"; str "you"; str "young"; str "youth";
    str "zebra"; str "zero"; str "zone"; str "zoo" ].
