(* ===== verification/Bip39.v ===== *)
(** * Mnemonic phrases (src/crypto/bip39.c)

    Entropy of 16 to 32 bytes with some bits of its SHA-256 as checksum, cut into groups of 11
    bits, each of which is the index of a word.  Bits are numbered from the most significant
    bit of the first byte on.  Words are looked up by bisection.  SHA-256 is that of the digest
    module (class [Crypto]); the random bytes and PBKDF2 of OpenSSL are arguments. *)

From S2P Require Import Prelude Crypto Bip39Words.
#[local] Open Scope Z_scope.

(** ** The word list *)

Definition NEOC_BIP39_LANG_ENGLISH : Z := 0.
Definition NEOC_BIP39_LANG_CZECH : Z := 8.

(** Every language up to Czech has the English words. *)
Definition neoc_bip39_get_wordlist (language : Z) : option (list (list byte)) :=
  if (NEOC_BIP39_LANG_ENGLISH <=? language) && (language <=? NEOC_BIP39_LANG_CZECH)
  then Some bip39_wordlist_en else None.

Definition neoc_bip39_get_word (language index : Z) : res (option (list byte)) :=
  if 2048 <=? index then Ok None
  else
    match neoc_bip39_get_wordlist language with
    | None => Ok None
    | Some wordlist =>
        match buf_get wordlist index with Some word => Ok (Some word) | None => Fault end
    end.

(** [strcmp]: the difference of the first characters that differ, the terminator being 0. *)
Fixpoint strcmp (a b : list byte) : Z :=
  match a, b with
  | [], [] => 0
  | [], y :: _ => - Z_of_byte y
  | x :: _, [] => Z_of_byte x
  | x :: a, y :: b => if Z_of_byte x =? Z_of_byte y then strcmp a b else Z_of_byte x - Z_of_byte y
  end.

(** The bisection; 12 turns and the test behind them are enough for 2048 words. *)
Fixpoint find_word_loop (fuel : nat) (wordlist : list (list byte)) (word : list byte) (left right : Z)
  : res Z :=
  match fuel with
  | O => Fault
  | S fuel =>
      if left <=? right then
        let mid := left + (right - left) / 2 in
        match buf_get wordlist mid with
        | None => Fault
        | Some w =>
            let cmp := strcmp word w in
            if cmp =? 0 then Ok mid
            else if cmp <? 0 then find_word_loop fuel wordlist word left (mid - 1)
            else find_word_loop fuel wordlist word (mid + 1) right
        end
      else Ok (-1)
  end.

Definition neoc_bip39_find_word (language : Z) (word : option (list byte)) : res Z :=
  match word, neoc_bip39_get_wordlist language with
  | Some word, Some wordlist => find_word_loop 13 wordlist word 0 2047
  | _, _ => Ok (-1)
  end.

Definition neoc_bip39_get_word_count (strength : Z) : Z :=
  if strength =? 128 then 12
  else if strength =? 160 then 15
  else if strength =? 192 then 18
  else if strength =? 224 then 21
  else if strength =? 256 then 24
  else 0.

(** ** Bits of an array *)

Definition stream_bit (bitstream : list byte) (position : Z) : res Z :=
  match buf_get bitstream (position / 8) with
  | None => Fault
  | Some b => Ok (Z.land (Z.shiftr (Z_of_byte b) (7 - position mod 8)) 1)
  end.

Definition set_stream_bit (position : Z) : M (list byte) unit := fun bitstream =>
  match buf_get bitstream (position / 8) with
  | None => (Fault, bitstream)
  | Some b => store (position / 8) [byte_of_Z (Z.lor (Z_of_byte b) (Z.shiftl 1 (7 - position mod 8)))] bitstream
  end.

(** The first [n] bits of the hash from the [i]-th on are put behind the entropy. *)
Fixpoint copy_checksum (n : nat) (hash : list byte) (i bit_position : Z) : M (list byte) unit :=
  match n with
  | O => ret tt
  | S n =>
      let! bit := lift (stream_bit hash i) in
      do! (if negb (bit =? 0) then set_stream_bit bit_position else ret tt) in
      copy_checksum n hash (i + 1) (bit_position + 1)
  end.

(** The number of [n] more bits. *)
Fixpoint read_bits (width : Z) (n : nat) (bitstream : list byte) (position index : Z) : res Z :=
  match n with
  | O => Ok index
  | S n =>
      let? bit := stream_bit bitstream position in
      read_bits width n bitstream (position + 1) (wrap width (Z.lor (Z.shiftl index 1) bit))
  end.

(** The word of the 11 bits at [position]. *)
Definition word_at (language : Z) (bitstream : list byte) (position : Z) : res (list byte) :=
  let? index := read_bits 16 11 bitstream position 0 in
  let? word := neoc_bip39_get_word language index in
  match word with
  | None => Err NEOC_ERROR_INVALID_STATE
  | Some word => Ok word
  end.

(** The characters of [n] words from the [i]-th on. *)
Fixpoint count_chars (n : nat) (language : Z) (bitstream : list byte) (i chars : Z) : res Z :=
  match n with
  | O => Ok chars
  | S n =>
      let? word := word_at language bitstream (i * 11) in
      count_chars n language bitstream (i + 1) (chars + zlen word)
  end.

(** The words are written with a space behind every one but the last. *)
Fixpoint write_words (n : nat) (language : Z) (bitstream : list byte) (bit_position out_offset : Z)
  : M (list byte) unit :=
  match n with
  | O => ret tt
  | S n =>
      let! word := lift (word_at language bitstream bit_position) in
      do! store out_offset word in
      let out_offset := out_offset + zlen word in
      match n with
      | O => ret tt
      | S _ =>
          do! store out_offset [Byte.x20] in
          write_words n language bitstream (bit_position + 11) (out_offset + 1)
      end
  end.

(** [strtok(s, " ")] until it returns NULL; [cur] is the token that has begun. *)
Fixpoint strtok_from (cur s : list byte) : list (list byte) :=
  match s with
  | [] => match cur with [] => [] | _ => [cur] end
  | c :: s =>
      if Z_of_byte c =? 32
      then match cur with [] => strtok_from [] s | _ => cur :: strtok_from [] s end
      else strtok_from (cur ++ [c]) s
  end.

Definition strtok_all (s : list byte) : list (list byte) := strtok_from [] s.

(** The bits of an index, the [n]-th downwards. *)
Fixpoint put_index (n : nat) (index bit_position : Z) : M (list byte) unit :=
  match n with
  | O => ret tt
  | S n =>
      do! (if Z.land (Z.shiftr index (Z.of_nat n)) 1 =? 0 then ret tt else set_stream_bit bit_position) in
      put_index n index (bit_position + 1)
  end.

Fixpoint put_words (language : Z) (words : list (list byte)) (bit_position : Z) : M (list byte) unit :=
  match words with
  | [] => ret tt
  | word :: words =>
      let! index := lift (neoc_bip39_find_word language (Some word)) in
      if index <? 0 then fail NEOC_ERROR_INVALID_ARGUMENT
      else
        do! put_index 11 index bit_position in
        put_words language words (bit_position + 11)
  end.

(** A block of [neoc_calloc(n, 1)] that a call fills in. *)
Definition filled_block (n : Z) (m : M (list byte) unit) : res (list byte) :=
  local_buffer (Z.to_nat n) m.

Section Operations.
Context `{Allocator} `{Crypto}.

Definition neoc_bip39_mnemonic_from_entropy (entropy : option (list byte)) (entropy_len language : Z)
  : res (list byte) :=
  match entropy with
  | None => Err NEOC_ERROR_INVALID_ARGUMENT
  | Some entropy =>
      if (entropy_len <? 16) || (32 <? entropy_len) || negb (entropy_len mod 4 =? 0)
      then Err NEOC_ERROR_INVALID_LENGTH
      else
        match neoc_bip39_get_wordlist language with
        | None => Err NEOC_ERROR_NOT_SUPPORTED
        | Some _ =>
            let checksum_bits := entropy_len / 4 in
            let total_bits := entropy_len * 8 + checksum_bits in
            let word_count := total_bits / 11 in
            let total_bytes := (total_bits + 7) / 8 in
            let? hash := neoc_sha256 (Some entropy) entropy_len in
            if negb (neoc_malloc_ok total_bytes) then Err NEOC_ERROR_MEMORY
            else
              let? bitstream := filled_block total_bytes
                (let! copy := lift (memcpy_from entropy entropy_len) in
                 do! store 0 copy in
                 copy_checksum (Z.to_nat checksum_bits) hash 0 (entropy_len * 8)) in
              let? mnemonic_chars := count_chars (Z.to_nat word_count) language bitstream 0 (word_count - 1) in
              if negb (neoc_malloc_ok (mnemonic_chars + 1)) then Err NEOC_ERROR_MEMORY
              else
                let? output := filled_block (mnemonic_chars + 1)
                  (write_words (Z.to_nat word_count) language bitstream 0 0) in
                Ok (cstring output)
        end
  end.

(** [random_bytes] is what [RAND_bytes] gives, [None] when it fails. *)
Definition neoc_bip39_generate_mnemonic (random_bytes : Z -> option (list byte)) (strength language : Z)
  : res (list byte) :=
  let entropy_bytes := strength / 8 in
  if (entropy_bytes <? 16) || (32 <? entropy_bytes) || negb (entropy_bytes mod 4 =? 0)
  then Err NEOC_ERROR_INVALID_ARGUMENT
  else if negb (neoc_malloc_ok entropy_bytes) then Err NEOC_ERROR_MEMORY
  else
    match random_bytes entropy_bytes with
    | None => Err NEOC_ERROR_CRYPTO
    | Some entropy => neoc_bip39_mnemonic_from_entropy (Some entropy) entropy_bytes language
    end.

Definition neoc_bip39_mnemonic_to_entropy (mnemonic : option (list byte)) (language : Z) : res (list byte) :=
  match mnemonic with
  | None => Err NEOC_ERROR_INVALID_ARGUMENT
  | Some mnemonic =>
      let? mnemonic_copy := neoc_strdup mnemonic NEOC_ERROR_MEMORY in
      let tokens := strtok_all mnemonic_copy in
      let words := take 24 tokens in
      let word_count := zlen words in
      if (24 <? zlen tokens) || negb (existsb (Z.eqb word_count) [12; 15; 18; 21; 24])
      then Err NEOC_ERROR_INVALID_ARGUMENT
      else
        let total_bits := word_count * 11 in
        let checksum_bits := total_bits / 33 in
        let entropy_bits := total_bits - checksum_bits in
        if negb (entropy_bits mod 8 =? 0) then Err NEOC_ERROR_INTERNAL
        else
          let total_bytes := (total_bits + 7) / 8 in
          let entropy_bytes := entropy_bits / 8 in
          if negb (neoc_malloc_ok total_bytes) then Err NEOC_ERROR_MEMORY
          else
            let? bitstream := filled_block total_bytes (put_words language words 0) in
            if negb (neoc_malloc_ok entropy_bytes) then Err NEOC_ERROR_MEMORY
            else
              let? entropy := memcpy_from bitstream entropy_bytes in
              let? checksum_accum := read_bits 8 (Z.to_nat checksum_bits) bitstream entropy_bits 0 in
              let? hash := neoc_sha256 (Some entropy) entropy_bytes in
              match buf_get hash 0 with
              | None => Fault
              | Some first =>
                  let expected_checksum :=
                    if 0 <? checksum_bits then wrap 8 (Z.shiftr (Z_of_byte first) (8 - checksum_bits)) else 0 in
                  if negb (checksum_accum =? expected_checksum) then Err NEOC_ERROR_INVALID_ARGUMENT
                  else Ok entropy
              end
  end.

Definition neoc_bip39_validate_mnemonic (mnemonic : option (list byte)) (language : Z) : res bool :=
  match mnemonic with
  | None => Ok false
  | Some _ =>
      match neoc_bip39_mnemonic_to_entropy mnemonic language with
      | Ok _ => Ok true
      | Err _ => Ok false
      | Fault => Fault
      end
  end.

(** OpenSSL's PBKDF2 with HMAC-SHA-512, its lengths as the [int]s that it is given. *)
Variable PKCS5_PBKDF2_HMAC : list byte -> Z -> list byte -> Z -> Z -> Z -> option (list byte).

Definition neoc_bip39_pbkdf2 (mnemonic passphrase : option (list byte)) (seed_len : Z) : res (list byte) :=
  match mnemonic with
  | None => Err NEOC_ERROR_INVALID_ARGUMENT
  | Some mnemonic =>
      if seed_len =? 0 then Err NEOC_ERROR_INVALID_ARGUMENT
      else
        let salt_len := 8 in
        let passphrase := default [] passphrase in
        let pass_len := zlen passphrase in
        if negb (neoc_malloc_ok (wrap 64 (salt_len + pass_len + 1))) then Err NEOC_ERROR_MEMORY
        else
          let salt := str "mnemonic" ++ passphrase in
          match PKCS5_PBKDF2_HMAC mnemonic (swrap 32 (zlen mnemonic)) salt (swrap 32 (salt_len + pass_len))
                  2048 (swrap 32 seed_len) with
          | None => Err NEOC_ERROR_CRYPTO
          | Some seed => Ok seed
          end
  end.

Definition neoc_bip39_mnemonic_to_seed_buffer (mnemonic passphrase : option (list byte)) : res (list byte) :=
  neoc_bip39_pbkdf2 mnemonic passphrase 64.

Definition neoc_bip39_mnemonic_to_seed_len (mnemonic passphrase : option (list byte)) (seed_len : Z)
  : res (list byte) :=
  if seed_len <? 64 then Err NEOC_ERROR_INVALID_ARGUMENT
  else neoc_bip39_pbkdf2 mnemonic passphrase seed_len.
End Operations.

(** ** Bits *)

Definition byte_bits (b : byte) : list bool :=
  map (fun i => Z.testbit (Z_of_byte b) (7 - i)) (seqZ 0 8).

Definition bits (buf : list byte) : list bool := concat (map byte_bits buf).

(** The number of a list of bits, the most significant one first. *)
Definition bits_from (acc : Z) (l : list bool) : Z := fold_left (fun a b => 2 * a + Z.b2z b) l acc.
Definition bits_val (l : list bool) : Z := bits_from 0 l.

(** The lowest [n] bits of a number. *)
Fixpoint index_bits (n : nat) (v : Z) : list bool :=
  match n with
  | O => []
  | S n => Z.testbit v (Z.of_nat n) :: index_bits n v
  end.

Lemma length_byte_bits b : length (byte_bits b) = 8%nat.
Proof. done. Qed.

Lemma length_bits buf : length (bits buf) = (8 * length buf)%nat.
Proof.
  unfold bits. induction buf as [|b buf IH]; [done|]. cbn [map concat]. rewrite length_app, IH, length_byte_bits. cbn. lia.
Qed.

Lemma bits_app a b : bits (a ++ b) = bits a ++ bits b.
Proof. unfold bits. by rewrite map_app, concat_app. Qed.

Lemma bits_zeros n : bits (replicate n Byte.x00) = replicate (8 * n) false.
Proof.
  induction n as [|n IH]; [done|]. cbn [replicate]. change (bits (?b :: ?l)) with (byte_bits b ++ bits l). rewrite IH.
  replace (8 * S n)%nat with (8 + 8 * n)%nat by lia. by rewrite replicate_add.
Qed.

Lemma byte_bits_lookup b i : 0 <= i < 8 -> byte_bits b !! Z.to_nat i = Some (Z.testbit (Z_of_byte b) (7 - i)).
Proof.
  intros Hi. unfold byte_bits. rewrite list_lookup_fmap, lookup_seqZ_lt by lia. cbn. do 3 f_equal. lia.
Qed.

Lemma bits_lookup buf pos : 0 <= pos ->
  bits buf !! Z.to_nat pos
  = b ← buf !! Z.to_nat (pos / 8); Some (Z.testbit (Z_of_byte b) (7 - pos mod 8)).
Proof.
  revert pos. induction buf as [|b buf IH]; intros pos Hp; [done|].
  change (bits (b :: buf)) with (byte_bits b ++ bits buf). destruct (decide (pos < 8)) as [Hlt|Hge].
  - rewrite lookup_app_l by (rewrite length_byte_bits; lia). rewrite Z.div_small, Z.mod_small by lia.
    by rewrite byte_bits_lookup.
  - rewrite lookup_app_r by (rewrite length_byte_bits; lia). rewrite length_byte_bits.
    replace (Z.to_nat pos - 8)%nat with (Z.to_nat (pos - 8)) by lia. rewrite IH by lia.
    pose proof (Z.div_add (pos - 8) 1 8 ltac:(lia)) as Ed. pose proof (Z.mod_add (pos - 8) 1 8 ltac:(lia)) as Em.
    replace (pos - 8 + 1 * 8) with pos in Ed, Em by lia. rewrite Ed, Em.
    pose proof (Z.div_pos (pos - 8) 8 ltac:(lia) ltac:(lia)).
    replace (Z.to_nat ((pos - 8) / 8 + 1)) with (S (Z.to_nat ((pos - 8) / 8))) by lia. done.
Qed.

Lemma land_one x k : 0 <= k -> Z.land (Z.shiftr x k) 1 = Z.b2z (Z.testbit x k).
Proof.
  intros Hk. rewrite Z.testbit_spec' by done. rewrite Z.shiftr_div_pow2 by done. by apply (Z.land_ones _ 1).
Qed.

Lemma stream_bit_spec buf pos b :
  0 <= pos -> bits buf !! Z.to_nat pos = Some b -> stream_bit buf pos = Ok (Z.b2z b).
Proof.
  intros Hp. rewrite bits_lookup by done. unfold stream_bit, buf_get.
  pose proof (Z.div_pos pos 8 ltac:(lia) ltac:(lia)). pose proof (Z.mod_pos_bound pos 8 ltac:(lia)). cmps.
  destruct (buf !! Z.to_nat (pos / 8)) as [x|]; [|done]. cbn. intros [= <-]. by rewrite land_one by lia.
Qed.

Lemma testbit_set x k j : 0 <= x < 256 -> 0 <= k < 8 -> 0 <= j < 8 ->
  Z.testbit (Z_of_byte (byte_of_Z (Z.lor x (Z.shiftl 1 k)))) j = Z.testbit x j || (j =? k).
Proof.
  intros Hx Hk Hj. rewrite Z_of_byte_of_Z. change 256 with (2 ^ 8). rewrite Z.mod_pow2_bits_low by lia.
  rewrite Z.lor_spec, Z.shiftl_spec by lia. f_equal. destruct (j =? k) eqn:E; bdestruct.
  - subst. by rewrite Z.sub_diag.
  - destruct (decide (j < k)); [by apply Z.testbit_neg_r; lia|]. apply (Z.bits_above_log2 1); cbn; lia.
Qed.

Lemma store_one {A} (buf : list A) i x :
  0 <= i < zlen buf -> store i [x] buf = (Ok tt, <[Z.to_nat i := x]> buf).
Proof.
  intros Hi. unfold zlen in Hi. destruct (lookup_lt_is_Some_2 buf (Z.to_nat i)) as [y Hy]; [lia|].
  rewrite <- (take_drop_middle _ _ _ Hy) at 1. assert (zlen (take (Z.to_nat i) buf) = i) as Hz
    by (unfold zlen; rewrite length_take; lia).
  rewrite <- Hz at 1. rewrite store_next by (rewrite !zlen_cons; pose proof (zlen_nonneg (drop (S (Z.to_nat i)) buf)); change (zlen (@nil A)) with 0; lia).
  rewrite insert_take_drop by lia. rewrite <- app_assoc. done.
Qed.

Lemma set_stream_bit_spec buf pos :
  0 <= pos < Z.of_nat (length (bits buf)) ->
  exists buf', set_stream_bit pos buf = (Ok tt, buf') /\ bits buf' = <[Z.to_nat pos := true]> (bits buf) /\
    length buf' = length buf.
Proof.
  rewrite length_bits. intros Hp. unfold set_stream_bit, buf_get.
  pose proof (Z.div_pos pos 8 ltac:(lia) ltac:(lia)). pose proof (Z.mod_pos_bound pos 8 ltac:(lia)).
  pose proof (Z.div_mod pos 8 ltac:(lia)) as Hdm. cmps.
  destruct (lookup_lt_is_Some_2 buf (Z.to_nat (pos / 8))) as [x Hx]; [lia|]. rewrite Hx.
  rewrite store_one by (unfold zlen; lia). eexists. split; [done|]. split; [|by rewrite length_insert].
  apply list_eq. intros n. rewrite <- (Nat2Z.id n). rewrite bits_lookup by lia.
  destruct (decide (Z.of_nat n = pos)) as [E|Hne].
  - rewrite E, !list_lookup_insert_eq by (rewrite ?length_bits; lia). cbn. f_equal.
    rewrite testbit_set by (try apply Z_of_byte_range; lia). rewrite Z.eqb_refl. apply orb_true_r.
  - rewrite (list_lookup_insert_ne (bits buf)), bits_lookup by lia.
    pose proof (Z.div_pos (Z.of_nat n) 8 ltac:(lia) ltac:(lia)). pose proof (Z.mod_pos_bound (Z.of_nat n) 8 ltac:(lia)).
    pose proof (Z.div_mod (Z.of_nat n) 8 ltac:(lia)).
    destruct (decide (Z.of_nat n / 8 = pos / 8)) as [E|Hd].
    + rewrite E, list_lookup_insert_eq, Hx by lia. cbn. f_equal.
      rewrite testbit_set by (try apply Z_of_byte_range; lia). cmps. by rewrite orb_false_r.
    + rewrite list_lookup_insert_ne by lia. done.
Qed.

Lemma bits_from_range l : forall acc, 0 <= acc ->
  acc * 2 ^ zlen l <= bits_from acc l < (acc + 1) * 2 ^ zlen l.
Proof.
  unfold zlen. induction l as [|b l IH]; intros acc Ha; cbn [bits_from fold_left length].
  - cbn. lia.
  - fold (bits_from (2 * acc + Z.b2z b) l). rewrite Nat2Z.inj_succ, Z.pow_succ_r by lia.
    specialize (IH (2 * acc + Z.b2z b)). destruct b; cbn [Z.b2z] in *; nia.
Qed.

Lemma bits_from_cons acc b l : bits_from acc (b :: l) = bits_from (2 * acc + Z.b2z b) l.
Proof. done. Qed.

Lemma bits_val_range l : 0 <= bits_val l < 2 ^ zlen l.
Proof. pose proof (bits_from_range l 0 ltac:(lia)). unfold bits_val. lia. Qed.

Lemma lor_shift_bit acc b : 0 <= acc -> Z.lor (Z.shiftl acc 1) (Z.b2z b) = 2 * acc + Z.b2z b.
Proof.
  intros Ha. rewrite Z.lor_comm, lor_shiftl_add by (destruct b; cbn; lia). lia.
Qed.

Lemma read_bits_spec width l : forall buf pre post acc,
  0 <= width -> bits buf = pre ++ l ++ post -> 0 <= acc -> bits_from acc l < 2 ^ width ->
  read_bits width (length l) buf (zlen pre) acc = Ok (bits_from acc l).
Proof.
  induction l as [|b l IH]; intros buf pre post acc Hw Hb Ha Hl; [done|]. cbn [read_bits length].
  rewrite (stream_bit_spec _ _ b).
  2: { unfold zlen. lia. }
  2: { unfold zlen. rewrite Nat2Z.id, Hb. by apply list_lookup_middle. }
  cbn [rbind]. rewrite lor_shift_bit by done. rewrite bits_from_cons in *.
  assert (0 <= 2 * acc + Z.b2z b) as H0 by (destruct b; cbn; lia).
  pose proof (bits_from_range l _ H0) as [Hr _]. pose proof (Z.pow_pos_nonneg 2 (zlen l) ltac:(lia) (zlen_nonneg l)).
  rewrite wrap_small by nia. replace (zlen pre + 1) with (zlen (pre ++ [b])) by (rewrite zlen_app; done).
  apply (IH _ _ post); [done| |done|done]. by rewrite Hb, <- app_assoc.
Qed.

(** Setting a bit among zeros. *)
Lemma set_bit_middle buf pre b l :
  bits buf = pre ++ false :: l ->
  exists buf', (if negb (b : bool) then ret tt else set_stream_bit (zlen pre)) buf = (Ok tt, buf') /\
    bits buf' = pre ++ b :: l /\ length buf' = length buf.
Proof.
  intros Hb. destruct b; cbn [negb]; [|by exists buf].
  destruct (set_stream_bit_spec buf (zlen pre)) as (buf' & E & Hs & Hl).
  { rewrite Hb, length_app. unfold zlen. cbn [length]. lia. }
  exists buf'. split_and!; [done| |done]. rewrite Hs, Hb. unfold zlen. rewrite Nat2Z.id.
  by rewrite insert_app_r_alt, Nat.sub_diag by lia.
Qed.

Lemma put_index_spec n : forall v buf pre post,
  bits buf = pre ++ replicate n false ++ post ->
  exists buf', put_index n v (zlen pre) buf = (Ok tt, buf') /\
    bits buf' = pre ++ index_bits n v ++ post /\ length buf' = length buf.
Proof.
  induction n as [|n IH]; intros v buf pre post Hb; [by exists buf|]. cbn [put_index index_bits].
  rewrite land_one by lia. set (b := Z.testbit v (Z.of_nat n)).
  destruct (set_bit_middle buf pre b (replicate n false ++ post) Hb) as (buf1 & E1 & B1 & L1).
  replace (Z.b2z b =? 0) with (negb b) by (by destruct b). rewrite (bind_ok _ _ _ _ _ E1).
  replace (zlen pre + 1) with (zlen (pre ++ [b])) by (rewrite zlen_app; done).
  destruct (IH v buf1 (pre ++ [b]) post) as (buf2 & E2 & B2 & L2); [by rewrite B1, <- app_assoc|].
  exists buf2. split_and!; [done|by rewrite B2, <- app_assoc|by rewrite L2].
Qed.

Lemma copy_checksum_spec l : forall hash hpre hpost buf pre post,
  bits hash = hpre ++ l ++ hpost -> bits buf = pre ++ replicate (length l) false ++ post ->
  exists buf', copy_checksum (length l) hash (zlen hpre) (zlen pre) buf = (Ok tt, buf') /\
    bits buf' = pre ++ l ++ post /\ length buf' = length buf.
Proof.
  induction l as [|b l IH]; intros hash hpre hpost buf pre post Hh Hb; [by exists buf|].
  cbn [copy_checksum length]. rewrite (stream_bit_spec _ _ b).
  2: { unfold zlen. lia. }
  2: { unfold zlen. rewrite Nat2Z.id, Hh. by apply list_lookup_middle. }
  rewrite bind_lift.
  destruct (set_bit_middle buf pre b (replicate (length l) false ++ post) Hb) as (buf1 & E1 & B1 & L1).
  assert ((if negb (Z.b2z b =? 0) then set_stream_bit (zlen pre) else ret tt) buf = (Ok tt, buf1)) as E1'
    by (rewrite <- E1; by destruct b).
  rewrite (bind_ok _ _ _ _ _ E1').
  replace (zlen pre + 1) with (zlen (pre ++ [b])) by (rewrite zlen_app; done).
  replace (zlen hpre + 1) with (zlen (hpre ++ [b])) by (rewrite zlen_app; done).
  destruct (IH hash (hpre ++ [b]) hpost buf1 (pre ++ [b]) post) as (buf2 & E2 & B2 & L2);
    [by rewrite Hh, <- app_assoc|by rewrite B1, <- app_assoc|].
  exists buf2. split_and!; [done|by rewrite B2, <- app_assoc|by rewrite L2].
Qed.

Lemma length_index_bits n v : length (index_bits n v) = n.
Proof. induction n as [|n IH]; [done|]. cbn. by rewrite IH. Qed.

(** The bits of a number and the number of bits. *)
Lemma index_bits_from l : forall acc k, 0 <= acc -> (k <= length l)%nat ->
  index_bits k (bits_from acc l) = drop (length l - k) l.
Proof.
  induction l as [|b l IH]; intros acc k Ha Hk; [by replace k with 0%nat by (cbn in Hk; lia)|].
  rewrite bits_from_cons. assert (0 <= 2 * acc + Z.b2z b) as H0 by (destruct b; cbn; lia).
  destruct (decide (k = S (length l))) as [->|Hne].
  - cbn [length]. rewrite Nat.sub_diag, drop_0. cbn [index_bits]. rewrite IH, Nat.sub_diag, drop_0 by lia. f_equal.
    pose proof (bits_from_range l _ H0) as Hr. unfold zlen in Hr.
    apply Z.b2z_inj. rewrite Z.testbit_spec' by lia.
    replace (bits_from (2 * acc + Z.b2z b) l / 2 ^ Z.of_nat (length l)) with (2 * acc + Z.b2z b).
    + rewrite Z.add_comm, Z.mul_comm, Z.mod_add by lia. by destruct b.
    + apply (Z.div_unique_pos _ _ _ (bits_from (2 * acc + Z.b2z b) l - (2 * acc + Z.b2z b) * 2 ^ Z.of_nat (length l))); lia.
  - cbn [length] in *. rewrite IH by lia. by replace (S (length l) - k)%nat with (S (length l - k)) by lia.
Qed.

Lemma index_bits_val l : index_bits (length l) (bits_val l) = l.
Proof. unfold bits_val. rewrite index_bits_from by lia. by rewrite Nat.sub_diag, drop_0. Qed.

Lemma bits_val_inj a b : length a = length b -> bits_val a = bits_val b -> a = b.
Proof. intros Hl E. rewrite <- (index_bits_val a), <- (index_bits_val b). by rewrite Hl, E. Qed.

Lemma bits_val_index_bits n v : 0 <= v < 2 ^ Z.of_nat n -> bits_val (index_bits n v) = v.
Proof.
  assert (forall n acc, bits_from acc (index_bits n v) = acc * 2 ^ Z.of_nat n + v mod 2 ^ Z.of_nat n) as Hb.
  { clear n. induction n as [|n IH]; intros acc.
    - cbn. rewrite Z.mod_1_r. lia.
    - cbn [index_bits]. rewrite bits_from_cons, IH. rewrite Nat2Z.inj_succ, Z.pow_succ_r by lia.
      rewrite (Z.mul_comm 2 (2 ^ Z.of_nat n)), Z.rem_mul_r by lia. rewrite <- Z.testbit_spec' by lia. lia. }
  intros Hv. unfold bits_val. rewrite Hb, Z.mod_small by done. lia.
Qed.

Lemma bits_inj a b : bits a = bits b -> a = b.
Proof.
  assert (forall x y, byte_bits x = byte_bits y -> x = y) as Hinj.
  { assert (forall x, byte_of_Z (bits_val (byte_bits x)) = x) as Hx by (intros []; reflexivity).
    intros x y E. by rewrite <- (Hx x), E, Hx. }
  revert b. induction a as [|x a IH]; intros [|y b] E; try done.
  change (byte_bits x ++ bits a = byte_bits y ++ bits b) in E. apply app_inj_1 in E as [E1 E2]; [|done].
  f_equal; [by apply Hinj|by apply IH].
Qed.

(** ** The word list *)

Lemma strcmp_refl a : strcmp a a = 0.
Proof. induction a as [|x a IH]; [done|]. cbn [strcmp]. by rewrite Z.eqb_refl. Qed.

Lemma strcmp_antisym a b : strcmp b a = - strcmp a b.
Proof.
  revert b. induction a as [|x a IH]; intros [|y b]; cbn [strcmp]; try lia.
  rewrite (Z.eqb_sym (Z_of_byte y)). destruct (_ =? _); [apply IH|lia].
Qed.

Lemma strcmp_trans a b c : strcmp a b < 0 -> strcmp b c < 0 -> strcmp a c < 0.
Proof.
  revert b c. induction a as [|x a IH]; intros [|y b] [|z c]; cbn [strcmp]; try lia.
  - pose proof (Z_of_byte_range z). destruct (_ =? _) eqn:E; bdestruct; lia.
  - pose proof (Z_of_byte_range x). lia.
  - pose proof (Z_of_byte_range y). lia.
  - destruct (Z_of_byte x =? Z_of_byte y) eqn:E1, (Z_of_byte y =? Z_of_byte z) eqn:E2; bdestruct.
    + rewrite E1, E2, Z.eqb_refl. apply IH.
    + cmps. lia.
    + cmps. lia.
    + intros. assert (Z_of_byte x < Z_of_byte z) by lia. cmps. lia.
Qed.

Lemma strcmp_zero a b :
  Forall (fun x => x <> Byte.x00) a -> Forall (fun x => x <> Byte.x00) b -> strcmp a b = 0 -> a = b.
Proof.
  intros Ha. revert b. induction Ha as [|x a Hx _ IH]; intros b Hb E.
  - destruct Hb as [|y b Hy]; [done|]. cbn in E. exfalso. apply Hy, Z_of_byte_inj. change (Z_of_byte Byte.x00) with 0. lia.
  - destruct Hb as [|y b Hy Hb]; cbn [strcmp] in E.
    + exfalso. by apply Hx, Z_of_byte_inj.
    + destruct (_ =? _) eqn:Exy; bdestruct; [|lia]. apply Z_of_byte_inj in Exy as ->. f_equal. by apply IH.
Qed.

(** What the code relies on in the list: its size, its order and the shape of its words. *)
Fixpoint sortedb (l : list (list byte)) : bool :=
  match l with
  | a :: (b :: _) as t => (strcmp a b <? 0) && sortedb t
  | _ => true
  end.

Definition plain_word (w : list byte) : bool :=
  (0 <? zlen w) && (zlen w <=? 8) && forallb (fun b => (97 <=? Z_of_byte b) && (Z_of_byte b <=? 122)) w.

Lemma wordlist_length : length bip39_wordlist_en = 2048%nat.
Proof. by vm_compute. Qed.

Lemma wordlist_sortedb : sortedb bip39_wordlist_en = true.
Proof. by vm_compute. Qed.

Lemma wordlist_plain : forallb plain_word bip39_wordlist_en = true.
Proof. by vm_compute. Qed.

Lemma sortedb_lookup l : sortedb l = true ->
  forall i j a b, (i < j)%nat -> l !! i = Some a -> l !! j = Some b -> strcmp a b < 0.
Proof.
  assert (forall l x, sortedb (x :: l) = true -> Forall (fun b => strcmp x b < 0) l) as Hall.
  { clear. induction l as [|y l IH]; intros x Hs; [done|]. cbn [sortedb] in Hs.
    apply andb_true_iff in Hs as [Hxy Hs]. bdestruct. constructor; [done|].
    eapply Forall_impl; [apply IH, Hs|]. cbn. intros b Hb. by eapply strcmp_trans. }
  induction l as [|x l IH]; intros Hs [|i] [|j] a b Hij Ha Hb; try done; try lia.
  - injection Ha as ->. apply Hall in Hs. rewrite Forall_lookup in Hs. by eapply Hs.
  - eapply (IH ltac:(by destruct l; [done|]; apply andb_true_iff in Hs as [_ Hs]) i j); done || lia.
Qed.

Lemma words_sorted i j a b :
  (i < j)%nat -> bip39_wordlist_en !! i = Some a -> bip39_wordlist_en !! j = Some b -> strcmp a b < 0.
Proof. apply sortedb_lookup, wordlist_sortedb. Qed.

Lemma word_plain i w : bip39_wordlist_en !! i = Some w ->
  0 < zlen w <= 8 /\ Forall (fun b => 97 <= Z_of_byte b <= 122) w.
Proof.
  intros Hi. pose proof wordlist_plain as Hp. rewrite forallb_forall in Hp.
  specialize (Hp w ltac:(by eapply list_elem_of_In, list_elem_of_lookup_2)).
  unfold plain_word in Hp. apply andb_true_iff in Hp as [Hp Hf]. bdestruct. split; [lia|].
  rewrite forallb_forall in Hf. apply List.Forall_forall. intros b Hb. specialize (Hf b Hb). bdestruct. lia.
Qed.

Lemma word_no_nul i w : bip39_wordlist_en !! i = Some w -> Forall (fun b => b <> Byte.x00) w.
Proof.
  intros [_ Hf]%word_plain. eapply Forall_impl; [exact Hf|]. cbn. intros b Hb ->. by destruct Hb.
Qed.

(** The bisection finds exactly the words that are there. *)
Lemma find_word_loop_spec word : Forall (fun b => b <> Byte.x00) word ->
  forall fuel left right, 0 <= left -> right < 2048 -> right - left + 1 < 2 ^ Z.of_nat fuel ->
  exists k, find_word_loop (S fuel) bip39_wordlist_en word left right = Ok k /\
    (0 <= k < 2048 /\ bip39_wordlist_en !! Z.to_nat k = Some word \/
     k = -1 /\ forall i, left <= i <= right -> bip39_wordlist_en !! Z.to_nat i <> Some word).
Proof.
  intros Hw. pose proof wordlist_length as Hlen.
  induction fuel as [|fuel IH]; intros left right Hl Hr Hf.
  { cbn [find_word_loop]. cbn in Hf. cmps. exists (-1). split; [done|]. right. split; [done|lia]. }
  rewrite Nat2Z.inj_succ, Z.pow_succ_r in Hf by lia.
  remember (S fuel) as f eqn:Ef. cbn [find_word_loop]. clear Ef.
  destruct (left <=? right) eqn:E; bdestruct.
  2: { exists (-1). split; [done|]. right. split; [done|lia]. }
  pose proof (Z.div_mod (right - left) 2 ltac:(lia)). pose proof (Z.mod_pos_bound (right - left) 2 ltac:(lia)).
  set (mid := left + (right - left) / 2) in *. unfold buf_get. cmps.
  destruct (lookup_lt_is_Some_2 bip39_wordlist_en (Z.to_nat mid)) as [w Ew]; [rewrite Hlen; lia|]. rewrite Ew.
  destruct (strcmp word w =? 0) eqn:E0; bdestruct.
  { apply strcmp_zero in E0 as ->; [|done|by eapply word_no_nul]. exists mid. split; [done|]. left. split; [lia|done]. }
  assert (forall i, 0 <= i -> bip39_wordlist_en !! Z.to_nat i = Some word ->
    strcmp word w < 0 /\ i < mid \/ 0 < strcmp word w /\ mid < i) as Hside.
  { intros i Hi Ei. destruct (Z.lt_trichotomy i mid) as [Hlt|[->|Hgt]].
    - left. split; [|done]. eapply (words_sorted (Z.to_nat i) (Z.to_nat mid)); done || lia.
    - rewrite Ew in Ei. injection Ei as ->. by rewrite strcmp_refl in E0.
    - right. split; [|done]. pose proof (words_sorted (Z.to_nat mid) (Z.to_nat i) _ _ ltac:(lia) Ew Ei).
      rewrite strcmp_antisym. lia. }
  destruct (strcmp word w <? 0) eqn:Ec; bdestruct.
  - destruct (IH left (mid - 1) ltac:(lia) ltac:(lia) ltac:(lia)) as (k & -> & [Hk|[-> Hn]]); exists k || exists (-1);
      (split; [done|]); [by left|right]. split; [done|]. intros i Hi Ei. destruct (Hside i ltac:(lia) Ei); [|lia].
    by apply (Hn i ltac:(lia)).
  - destruct (IH (mid + 1) right ltac:(lia) ltac:(lia) ltac:(lia)) as (k & -> & [Hk|[-> Hn]]); exists k || exists (-1);
      (split; [done|]); [by left|right]. split; [done|]. intros i Hi Ei. destruct (Hside i ltac:(lia) Ei); [lia|].
    by apply (Hn i ltac:(lia)).
Qed.

Lemma word_index_unique i j w :
  bip39_wordlist_en !! i = Some w -> bip39_wordlist_en !! j = Some w -> i = j.
Proof.
  intros Hi Hj. destruct (Nat.lt_trichotomy i j) as [Hlt|[?|Hgt]]; [|done|].
  - pose proof (words_sorted _ _ _ _ Hlt Hi Hj). rewrite strcmp_refl in *. lia.
  - pose proof (words_sorted _ _ _ _ Hgt Hj Hi). rewrite strcmp_refl in *. lia.
Qed.

Definition known_language (language : Z) : Prop := 0 <= language <= 8.

Lemma get_wordlist_known language :
  known_language language -> neoc_bip39_get_wordlist language = Some bip39_wordlist_en.
Proof.
  unfold known_language, neoc_bip39_get_wordlist, NEOC_BIP39_LANG_ENGLISH, NEOC_BIP39_LANG_CZECH. intros. by cmps.
Qed.

Lemma find_word_ok language i w :
  known_language language -> bip39_wordlist_en !! Z.to_nat i = Some w -> 0 <= i ->
  neoc_bip39_find_word language (Some w) = Ok i.
Proof.
  intros Hl Hi Hi0. unfold neoc_bip39_find_word. rewrite get_wordlist_known by done.
  pose proof (lookup_lt_Some _ _ _ Hi) as Hlt. rewrite wordlist_length in Hlt.
  destruct (find_word_loop_spec w (word_no_nul _ _ Hi) 12 0 2047) as (k & -> & [[Hk Ek]|[-> Hn]]); [lia|lia|by vm_compute|..].
  - f_equal. pose proof (word_index_unique _ _ _ Hi Ek). lia.
  - exfalso. by apply (Hn i ltac:(lia)).
Qed.

Lemma find_word_found language w i :
  known_language language -> Forall (fun b => b <> Byte.x00) w ->
  neoc_bip39_find_word language (Some w) = Ok i -> 0 <= i ->
  0 <= i < 2048 /\ bip39_wordlist_en !! Z.to_nat i = Some w.
Proof.
  intros Hl Hw. unfold neoc_bip39_find_word. rewrite get_wordlist_known by done.
  destruct (find_word_loop_spec w Hw 12 0 2047) as (k & -> & [Hk|[-> _]]); [lia|lia|by vm_compute|..].
  - by intros [= <-].
  - intros [= <-]. lia.
Qed.

Lemma get_word_ok language i w :
  known_language language -> bip39_wordlist_en !! Z.to_nat i = Some w -> 0 <= i ->
  neoc_bip39_get_word language i = Ok (Some w).
Proof.
  intros Hl Hi Hi0. pose proof (lookup_lt_Some _ _ _ Hi) as Hlt. rewrite wordlist_length in Hlt.
  unfold neoc_bip39_get_word. cmps. rewrite get_wordlist_known by done. unfold buf_get. cmps. by rewrite Hi.
Qed.

(** ** Words and bits *)

Definition eleven (g : list bool) : Prop := length g = 11%nat.

Definition group_word (g : list bool) : list byte :=
  default [] (bip39_wordlist_en !! Z.to_nat (bits_val g)).

Fixpoint join_words (words : list (list byte)) : list byte :=
  match words with
  | [] => []
  | [w] => w
  | w :: words => w ++ Byte.x20 :: join_words words
  end.

Fixpoint groups (n : nat) (l : list bool) : list (list bool) :=
  match n with
  | O => []
  | S n => take 11 l :: groups n (drop 11 l)
  end.

Lemma groups_concat n : forall l, length l = (11 * n)%nat ->
  concat (groups n l) = l /\ Forall eleven (groups n l) /\ length (groups n l) = n.
Proof.
  induction n as [|n IH]; intros l Hl; [by destruct l|]. cbn [groups concat length].
  destruct (IH (drop 11 l)) as (-> & Hf & ->); [rewrite length_drop; lia|]. split_and!; [apply take_drop| |done].
  constructor; [|done]. unfold eleven. rewrite length_take. lia.
Qed.

Lemma group_word_lookup g : eleven g -> bip39_wordlist_en !! Z.to_nat (bits_val g) = Some (group_word g).
Proof.
  unfold eleven, group_word. intros Hg. pose proof (bits_val_range g) as Hr. unfold zlen in Hr. rewrite Hg in Hr.
  change (2 ^ Z.of_nat 11) with 2048 in Hr.
  destruct (lookup_lt_is_Some_2 bip39_wordlist_en (Z.to_nat (bits_val g))) as [w ->]; [|done].
  rewrite wordlist_length. lia.
Qed.

Lemma group_word_inj g h : eleven g -> eleven h -> group_word g = group_word h -> g = h.
Proof.
  intros Hg Hh E. pose proof (group_word_lookup g Hg) as Lg. pose proof (group_word_lookup h Hh) as Lh.
  rewrite <- E in Lh. pose proof (word_index_unique _ _ _ Lg Lh).
  pose proof (bits_val_range g). pose proof (bits_val_range h). apply bits_val_inj; [by rewrite Hg, Hh|lia].
Qed.

Lemma group_words_inj gs hs : Forall eleven gs -> Forall eleven hs ->
  map group_word gs = map group_word hs -> gs = hs.
Proof.
  intros Hg. revert hs. induction Hg as [|g gs Hg _ IH]; intros [|h hs] Hh E; try done.
  apply Forall_cons_1 in Hh as [Hh Hhs]. injection E as E1 E2. f_equal; [by apply group_word_inj|by apply IH].
Qed.

Lemma group_word_plain g : eleven g ->
  0 < zlen (group_word g) <= 8 /\ Forall (fun b => 97 <= Z_of_byte b <= 122) (group_word g).
Proof. intros Hg. by eapply word_plain, group_word_lookup. Qed.

Section Words.
Variable language : Z.
Hypothesis Hlang : known_language language.

Lemma word_at_spec buf pre g post :
  bits buf = pre ++ g ++ post -> eleven g -> word_at language buf (zlen pre) = Ok (group_word g).
Proof.
  intros Hb Hg. unfold word_at. pose proof (bits_val_range g) as Hr. unfold zlen in Hr at 1. rewrite Hg in Hr.
  rewrite <- Hg. rewrite (read_bits_spec 16 g buf pre post 0); [|done|done|done|unfold bits_val in Hr; eval_pows; lia].
  cbn [rbind]. fold (bits_val g). rewrite (get_word_ok _ _ (group_word g)); [done|done|by apply group_word_lookup|lia].
Qed.

Lemma count_chars_spec gs : forall buf pre post i acc,
  bits buf = pre ++ concat gs ++ post -> zlen pre = i * 11 -> Forall eleven gs ->
  count_chars (length gs) language buf i acc = Ok (acc + zlen (concat (map group_word gs))).
Proof.
  induction gs as [|g gs IH]; intros buf pre post i acc Hb Hp Hg.
  - cbn [count_chars length map concat]. change (zlen (@nil byte)) with 0. by rewrite Z.add_0_r.
  - apply Forall_cons_1 in Hg as [Hg Hgs]. cbn [count_chars length concat map] in *. rewrite <- app_assoc in Hb.
    rewrite <- Hp, (word_at_spec buf pre g _ Hb Hg). cbn [rbind].
    rewrite (IH buf (pre ++ g) post); [rewrite zlen_app; f_equal; lia|by rewrite <- app_assoc| |done].
    rewrite zlen_app. unfold zlen at 2. rewrite Hg. lia.
Qed.

Lemma write_words_spec gs : forall buf pre post written rest,
  bits buf = pre ++ concat gs ++ post -> Forall eleven gs ->
  zlen (join_words (map group_word gs)) <= zlen rest ->
  write_words (length gs) language buf (zlen pre) (zlen written) (written ++ rest)
  = (Ok tt, written ++ join_words (map group_word gs) ++ drop (length (join_words (map group_word gs))) rest).
Proof.
  induction gs as [|g gs IH]; intros buf pre post written rest Hb Hg Hl; [by rewrite drop_0|].
  apply Forall_cons_1 in Hg as [Hg Hgs]. cbn [concat length] in *. rewrite <- app_assoc in Hb. cbn [write_words].
  rewrite (word_at_spec buf pre g _ Hb Hg), bind_lift. set (w := group_word g) in *.
  destruct gs as [|g2 gs].
  - cbn [map join_words length] in *. fold w in Hl. rewrite (bind_ok _ _ _ _ _ (store_next written w rest Hl)).
    by rewrite <- app_assoc.
  - set (ws := map group_word (g2 :: gs)) in *.
    assert (join_words (map group_word (g :: g2 :: gs)) = w ++ Byte.x20 :: join_words ws) as Ej by done.
    rewrite Ej in *. rewrite zlen_app, zlen_cons in Hl. pose proof (zlen_nonneg (join_words ws)). pose proof (zlen_nonneg w).
    rewrite (bind_ok _ _ _ _ _ (store_next written w rest ltac:(lia))).
    cbn [length]. rewrite <- zlen_app.
    assert (zlen [Byte.x20] <= zlen (drop (length w) rest)) as Hs1.
    { unfold zlen in *. rewrite length_drop. cbn [length]. lia. }
    rewrite (bind_ok _ _ _ _ _ (store_next (written ++ w) [Byte.x20] _ Hs1)).
    replace (zlen (written ++ w) + 1) with (zlen ((written ++ w) ++ [Byte.x20])) by (rewrite !zlen_app; done).
    replace (zlen pre + 11) with (zlen (pre ++ g)) by (rewrite zlen_app; unfold zlen at 2; rewrite Hg; lia).
    change (S (length gs)) with (length (g2 :: gs)).
    rewrite (IH buf (pre ++ g) post); [|by rewrite <- app_assoc|done|].
    + fold ws. rewrite !drop_drop, <- !app_assoc. cbn [app]. rewrite length_app. cbn [length].
      replace (length w + 1 + length (join_words ws))%nat with (length w + S (length (join_words ws)))%nat by lia. done.
    + fold ws. unfold zlen in *. rewrite !length_drop. cbn [length]. lia.
Qed.

(** Words are put into zeros, or one of them is not in the list. *)
Lemma put_words_cases words : forall buf pre post,
  Forall (fun w => Forall (fun b => b <> Byte.x00) w) words ->
  bits buf = pre ++ replicate (11 * length words) false ++ post ->
  (exists gs buf', put_words language words (zlen pre) buf = (Ok tt, buf') /\ words = map group_word gs /\
     Forall eleven gs /\ bits buf' = pre ++ concat gs ++ post /\ length buf' = length buf) \/
  (exists buf', put_words language words (zlen pre) buf = (Err NEOC_ERROR_INVALID_ARGUMENT, buf') /\
     exists w, In w words /\ forall i, bip39_wordlist_en !! i <> Some w).
Proof.
  induction words as [|w words IH]; intros buf pre post Hw Hb.
  { left. exists [], buf. by rewrite Hb. }
  apply Forall_cons_1 in Hw as [Hw Hws]. cbn [put_words length].
  destruct (find_word_loop_spec w Hw 12 0 2047) as (k & Ek & Hk); [lia|lia|by vm_compute|].
  assert (neoc_bip39_find_word language (Some w) = Ok k) as ->
    by (unfold neoc_bip39_find_word; by rewrite get_wordlist_known).
  rewrite bind_lift. destruct Hk as [[Hk Hi]|[-> Hn]].
  2: { right. exists buf. split; [done|]. exists w. split; [by left|]. intros i Hi.
       pose proof (lookup_lt_Some _ _ _ Hi) as Hlt. rewrite wordlist_length in Hlt.
       apply (Hn (Z.of_nat i) ltac:(lia)). by rewrite Nat2Z.id. }
  cmps. replace (11 * length (w :: words))%nat with (11 + 11 * length words)%nat in Hb by (cbn [length]; lia).
  rewrite replicate_add, <- app_assoc in Hb.
  destruct (put_index_spec 11 k buf pre _ Hb) as (buf1 & E1 & B1 & L1). rewrite (bind_ok _ _ _ _ _ E1).
  set (g := index_bits 11 k) in *. assert (eleven g) as Hg by apply length_index_bits.
  assert (group_word g = w) as Egw.
  { unfold group_word, g. rewrite bits_val_index_bits by (cbn; lia). by rewrite Hi. }
  replace (zlen pre + 11) with (zlen (pre ++ g)) by (rewrite zlen_app; unfold zlen at 2; rewrite Hg; lia).
  destruct (IH buf1 (pre ++ g) post Hws) as [(gs & buf' & E & Em & Hgs & B & L)|(buf' & E & v & Hv & Hn)];
    [by rewrite B1, <- app_assoc|..].
  - left. exists (g :: gs), buf'. split_and!; [done|cbn [map]; by rewrite Egw, Em|by constructor| |by rewrite L].
    rewrite B. cbn [concat]. by rewrite <- !app_assoc.
  - right. exists buf'. split; [done|]. exists v. split; [by right|done].
Qed.
End Words.

(** Words between spaces. *)
Definition spaceless (w : list byte) : Prop := w <> [] /\ Forall (fun b => Z_of_byte b <> 32) w.

Lemma group_word_spaceless g : eleven g -> spaceless (group_word g).
Proof.
  intros [Hz Hp]%group_word_plain. split.
  - intros E. rewrite E in Hz. destruct Hz as [Hz _]. by vm_compute in Hz.
  - eapply Forall_impl; [exact Hp|]. cbn. lia.
Qed.

Lemma strtok_word w : forall cur rest,
  Forall (fun b => Z_of_byte b <> 32) w -> strtok_from cur (w ++ rest) = strtok_from (cur ++ w) rest.
Proof.
  induction w as [|b w IH]; intros cur rest Hw; [by rewrite app_nil_r|].
  apply Forall_cons_1 in Hw as [Hb Hw]. cbn [app strtok_from]. cmps. rewrite IH by done. by rewrite <- app_assoc.
Qed.

(** Joined words are taken apart again. *)
Lemma strtok_join words : Forall spaceless words -> strtok_all (join_words words) = words.
Proof.
  unfold strtok_all. induction 1 as [|w words [Hne Hw] Hws IH]; [done|].
  destruct words as [|w2 words]; cbn [join_words].
  - rewrite <- (app_nil_r w) at 1. rewrite strtok_word by done. cbn [app strtok_from]. by destruct w.
  - rewrite strtok_word by done. cbn [app strtok_from].
    change (Z_of_byte Byte.x20 =? 32) with true. cbv iota. destruct w; [done|]. f_equal. exact IH.
Qed.

Lemma strtok_spaceless s : forall cur, Forall (fun b => Z_of_byte b <> 32) cur ->
  Forall spaceless (strtok_from cur s).
Proof.
  induction s as [|c s IH]; intros cur Hc; cbn [strtok_from].
  - destruct cur; [done|]. constructor; [|done]. by split.
  - destruct (_ =? 32) eqn:E; bdestruct.
    + destruct cur; [by apply IH|]. constructor; [by split|by apply IH].
    + apply IH. apply Forall_app. split; [done|by repeat constructor].
Qed.

Lemma strtok_no_nul s : forall cur, Forall (fun b => b <> Byte.x00) cur -> Forall (fun b => b <> Byte.x00) s ->
  Forall (fun w => Forall (fun b => b <> Byte.x00) w) (strtok_from cur s).
Proof.
  induction s as [|c s IH]; intros cur Hc Hs; cbn [strtok_from].
  - destruct cur; [done|]. by constructor.
  - apply Forall_cons_1 in Hs as [Hx Hs]. destruct (_ =? 32).
    + destruct cur; [by apply IH|]. constructor; [done|by apply IH].
    + apply IH; [|done]. apply Forall_app. split; [done|by repeat constructor].
Qed.

(** The first bits of a hash. *)
Lemma first_bits b k : (4 <= k <= 8)%nat ->
  wrap 8 (Z.shiftr (Z_of_byte b) (8 - Z.of_nat k)) = bits_val (take k (byte_bits b)).
Proof.
  intros Hk. pose proof (forall_byte (fun v => forallb (fun k =>
    wrap 8 (Z.shiftr v (8 - Z.of_nat k)) =? bits_val (take k (byte_bits (byte_of_Z v)))) [4; 5; 6; 7; 8]%nat)
    ltac:(by vm_compute) (Z_of_byte b) (Z_of_byte_range b)) as Hx.
  cbv beta in Hx. rewrite byte_of_Z_of_byte in Hx. rewrite forallb_forall in Hx. apply Z.eqb_eq, Hx. cbn. lia.
Qed.

(** ** The operations *)

Lemma zlen_join ws : ws <> [] -> zlen (join_words ws) = zlen (concat ws) + zlen ws - 1.
Proof.
  induction ws as [|w ws IH]; [done|]. intros _. destruct ws as [|w2 ws].
  - cbn [join_words concat]. rewrite app_nil_r, zlen_cons. change (zlen (@nil (list byte))) with 0. lia.
  - change (join_words (w :: w2 :: ws)) with (w ++ Byte.x20 :: join_words (w2 :: ws)).
    change (concat (w :: w2 :: ws)) with (w ++ concat (w2 :: ws)).
    rewrite !zlen_app, zlen_cons, IH by done. rewrite (zlen_cons w). lia.
Qed.

Lemma zlen_words_bound gs : Forall eleven gs -> zlen (concat (map group_word gs)) <= 8 * zlen gs.
Proof.
  induction 1 as [|g gs Hg _ IH]; [done|]. cbn [map concat]. rewrite zlen_app, zlen_cons.
  pose proof (group_word_plain g Hg). lia.
Qed.

Lemma join_no_nul gs : Forall eleven gs -> Forall (fun b => b <> Byte.x00) (join_words (map group_word gs)).
Proof.
  assert (forall g, eleven g -> Forall (fun b => b <> Byte.x00) (group_word g)) as Hw
    by (intros g Hg; by eapply word_no_nul, group_word_lookup).
  induction 1 as [|g gs Hg Hgs IH]; [done|]. destruct gs as [|g2 gs]; [by apply Hw|].
  change (join_words (map group_word (g :: g2 :: gs)))
    with (group_word g ++ Byte.x20 :: join_words (map group_word (g2 :: gs))).
  apply Forall_app. split; [by apply Hw|by constructor].
Qed.

Lemma take_bits n buf : bits (take n buf) = take (8 * n) (bits buf).
Proof.
  destruct (decide (n <= length buf)%nat) as [Hle|Hgt].
  - rewrite <- (take_drop n buf) at 2. rewrite bits_app, take_app_length'; [done|].
    rewrite length_bits, length_take. lia.
  - rewrite !take_ge by (rewrite ?length_bits; lia). done.
Qed.

Section Operations_ok.
Context `{Allocator} `{Crypto}.
Variable language : Z.
Hypothesis Hlang : known_language language.
Hypothesis Hinit : crypto_initialized = true.
Hypothesis Hheap : heap_serves 256.

Lemma digest_ok d h : SHA256 d = Some h -> neoc_sha256 (Some d) (zlen d) = Ok h.
Proof.
  intros E. unfold neoc_sha256, openssl_digest. rewrite Hinit. cbn [negb]. by rewrite buf_slice_all, E.
Qed.

Lemma from_entropy_ok entropy h k :
  zlen entropy = 4 * k -> 4 <= k <= 8 -> SHA256 entropy = Some h -> length h = 32%nat ->
  exists gs,
    neoc_bip39_mnemonic_from_entropy (Some entropy) (zlen entropy) language = Ok (join_words (map group_word gs)) /\
    Forall eleven gs /\ zlen gs = 3 * k /\ concat gs = bits entropy ++ take (Z.to_nat k) (bits h).
Proof.
  intros Hn Hk Hh Hh32. unfold neoc_bip39_mnemonic_from_entropy. rewrite (digest_ok _ _ Hh). rewrite Hn.
  rewrite (Z.mul_comm 4 k), Z.mod_mul, Z.div_mul by done. cmps. cbn [orb negb Z.eqb].
  rewrite get_wordlist_known by done. cbn [rbind].
  replace (k * 4 * 8 + k) with (3 * k * 11) by lia. rewrite Z.div_mul by done.
  pose proof (Z.div_mod (3 * k * 11 + 7) 8 ltac:(lia)) as Hdm. pose proof (Z.mod_pos_bound (3 * k * 11 + 7) 8 ltac:(lia)).
  set (tb := (3 * k * 11 + 7) / 8) in *.
  unfold neoc_malloc_ok at 1. cmps. rewrite Hheap by lia. cbn [negb].
  (* the stream of bits *)
  set (l := take (Z.to_nat k) (bits h)). assert (length l = Z.to_nat k) as Hl.
  { unfold l. rewrite length_take, length_bits. lia. }
  assert (exists bs post, filled_block tb
    (let! copy := lift (memcpy_from entropy (k * 4)) in
     do! store 0 copy in copy_checksum (Z.to_nat k) h 0 (k * 4 * 8)) = Ok bs /\
    bits bs = bits entropy ++ l ++ post) as (bs & post & -> & Hbs).
  { unfold filled_block, local_buffer. rewrite memcpy_from_all by lia. rewrite bind_lift.
    change 0 with (zlen (@nil byte)) at 1.
    assert (zlen entropy <= zlen (replicate (Z.to_nat tb) Byte.x00)) as Hfit by (rewrite zlen_replicate; lia).
    rewrite (bind_ok _ _ _ _ _ (store_next [] entropy (replicate (Z.to_nat tb) Byte.x00) Hfit)). cbn [app].
    rewrite drop_replicate. set (pad := (Z.to_nat tb - length entropy)%nat).
    assert (length entropy = Z.to_nat (4 * k)) as Hle by (unfold zlen in Hn; lia).
    destruct (copy_checksum_spec l h [] (drop (Z.to_nat k) (bits h)) (entropy ++ replicate pad Byte.x00) (bits entropy)
      (replicate (8 * pad - Z.to_nat k) false)) as (bs & E & B & _).
    { cbn [app]. unfold l. by rewrite take_drop. }
    { rewrite bits_app, bits_zeros, Hl, <- replicate_add. do 2 f_equal. lia. }
    rewrite Hl in E. change (zlen (@nil bool)) with 0 in E.
    replace (zlen (bits entropy)) with (k * 4 * 8) in E by (unfold zlen; rewrite length_bits; lia).
    rewrite E. eexists bs, _. split; [done|exact B]. }
  cbn [rbind].
  (* its groups *)
  set (all := bits entropy ++ l). assert (length all = (11 * Z.to_nat (3 * k))%nat) as Hall.
  { unfold all. rewrite length_app, length_bits, Hl. unfold zlen in Hn. lia. }
  destruct (groups_concat (Z.to_nat (3 * k)) all Hall) as (Hcc & Hgs & Hlen).
  set (gs := groups (Z.to_nat (3 * k)) all) in *.
  assert (bits bs = [] ++ concat gs ++ post) as Hbs' by (rewrite Hcc, Hbs; unfold all; by rewrite <- app_assoc).
  assert (zlen gs = 3 * k) as Hzg by (unfold zlen; lia).
  assert (map group_word gs <> []) as Hne by (intros E; apply map_eq_nil in E; rewrite E in Hzg; change (zlen (@nil (list bool))) with 0 in Hzg; lia).
  rewrite <- Hlen. rewrite (count_chars_spec language Hlang gs bs [] post 0) by done. cbn [rbind].
  set (words := map group_word gs) in *. pose proof (zlen_join words Hne) as Hj.
  assert (zlen words = 3 * k) as Hzw by (unfold words, zlen in *; rewrite length_map; lia).
  pose proof (zlen_words_bound gs Hgs) as Hwb. fold words in Hwb. pose proof (zlen_nonneg (concat words)).
  replace (3 * k - 1 + zlen (concat words)) with (zlen (join_words words)) by lia.
  unfold neoc_malloc_ok. cmps. rewrite Hheap by lia. cbn [negb].
  assert (filled_block (zlen (join_words words) + 1) (write_words (length gs) language bs 0 0)
    = Ok (join_words words ++ [Byte.x00])) as ->.
  { unfold filled_block, local_buffer.
    pose proof (write_words_spec language Hlang gs bs [] post [] (replicate (Z.to_nat (zlen (join_words words) + 1)) Byte.x00)) as Hww.
    cbn [app] in Hww. change (zlen (@nil bool)) with 0 in Hww. change (zlen (@nil byte)) with 0 in Hww. rewrite Hww.
    - fold words. rewrite drop_replicate. unfold zlen.
      replace (Z.to_nat (Z.of_nat (length (join_words words)) + 1) - length (join_words words))%nat with 1%nat by lia. done.
    - exact Hbs'.
    - done.
    - fold words. rewrite zlen_replicate. lia. }
  cbn [rbind]. exists gs. split_and!; [|done|done|done]. rewrite cstring_app; [done|]. by apply join_no_nul.
Qed.

(** What becomes of known words: the entropy is returned when the rest of the bits is the
    beginning of its hash. *)
Lemma to_entropy_words m gs k :
  strtok_all m = map group_word gs -> Forall eleven gs -> zlen gs = 3 * k -> 4 <= k <= 8 ->
  (forall d, exists h, SHA256 d = Some h /\ length h = 32%nat) -> malloc_ok (zlen m + 1) = true ->
  exists e h,
    bits e = take (Z.to_nat (32 * k)) (concat gs) /\ zlen e = 4 * k /\ SHA256 e = Some h /\ length h = 32%nat /\
    neoc_bip39_mnemonic_to_entropy (Some m) language =
    (if bits_val (drop (Z.to_nat (32 * k)) (concat gs)) =? bits_val (take (Z.to_nat k) (bits h))
     then Ok e else Err NEOC_ERROR_INVALID_ARGUMENT).
Proof.
  intros Ht Hgs Hlen Hk Hsha Hm. unfold neoc_bip39_mnemonic_to_entropy, neoc_strdup, neoc_malloc_ok.
  pose proof (zlen_nonneg m). cmps. rewrite Hm. cbn [negb rbind]. cbv zeta. rewrite Ht.
  set (words := map group_word gs). assert (zlen words = 3 * k) as Hzw.
  { unfold words, zlen in *. rewrite length_map. lia. }
  rewrite (take_ge words) by (unfold zlen in Hzw; lia). rewrite Hzw.
  assert (existsb (Z.eqb (3 * k)) [12; 15; 18; 21; 24] = true) as ->.
  { apply existsb_exists. exists (3 * k). split; [|apply Z.eqb_refl]. cbn. lia. }
  cmps. cbn [orb negb]. replace (3 * k * 11) with (k * 33) by lia. rewrite Z.div_mul by done.
  replace (k * 33 - k) with (4 * k * 8) by lia. rewrite Z.mod_mul, Z.div_mul by done. cbn [negb Z.eqb].
  pose proof (Z.div_mod (k * 33 + 7) 8 ltac:(lia)) as Hdm. pose proof (Z.mod_pos_bound (k * 33 + 7) 8 ltac:(lia)).
  set (tb := (k * 33 + 7) / 8) in *. cmps. rewrite Hheap by lia. cbn [negb].
  assert (length (concat gs) = (11 * Z.to_nat (3 * k))%nat) as Hcl.
  { unfold zlen in Hlen. replace (Z.to_nat (3 * k)) with (length gs) by lia. clear - Hgs.
    induction Hgs as [|g gs Hg _ IH]; [done|]. cbn [concat length]. rewrite length_app, IH, Hg. lia. }
  destruct (put_words_cases language Hlang words (replicate (Z.to_nat tb) Byte.x00) []
    (replicate (8 * Z.to_nat tb - 11 * length words) false)) as [(gs' & bs & E & Ew & Hgs' & B & L)|(bs & _ & w & Hw & Hn)].
  { apply List.Forall_forall. intros w Hw. apply in_map_iff in Hw as (g & <- & Hg). rewrite List.Forall_forall in Hgs.
    by eapply word_no_nul, group_word_lookup, Hgs. }
  { rewrite bits_zeros. cbn [app]. rewrite <- replicate_add. f_equal. unfold zlen in Hzw. lia. }
  2: { exfalso. apply in_map_iff in Hw as (g & <- & Hg). rewrite List.Forall_forall in Hgs.
       by eapply Hn, group_word_lookup, Hgs. }
  apply group_words_inj in Ew as <-; [|done|done]. rewrite length_replicate in L. cbn [app] in B.
  set (rest := replicate _ false) in B.
  unfold filled_block, local_buffer. change (zlen (@nil bool)) with 0 in E. rewrite E. cbn [rbind].
  (* the entropy *)
  set (e := take (Z.to_nat (4 * k)) bs).
  assert (bits e = take (Z.to_nat (32 * k)) (concat gs)) as He.
  { unfold e. rewrite take_bits, B, take_app_le by lia. f_equal. lia. }
  assert (zlen e = 4 * k) as Hze by (unfold e, zlen; rewrite length_take; lia).
  assert (memcpy_from bs (4 * k) = Ok e) as ->.
  { unfold memcpy_from, buf_slice. unfold zlen. cmps. by rewrite drop_0. }
  cbn [rbind]. destruct (Hsha e) as (h & Eh & Hh32). exists e, h. split_and!; try done.
  (* the checksum *)
  set (c := drop (Z.to_nat (32 * k)) (concat gs)). assert (length c = Z.to_nat k) as Hc by (unfold c; rewrite length_drop; lia).
  assert (bits bs = bits e ++ c ++ rest) as Hb2 by (rewrite B, He; unfold c; by rewrite app_assoc, take_drop).
  pose proof (bits_val_range c) as Hcr. unfold zlen in Hcr. rewrite Hc, Z2Nat.id in Hcr by lia.
  assert (2 ^ k <= 2 ^ 8) as Hp8 by (apply Z.pow_le_mono_r; lia).
  pose proof (read_bits_spec 8 c bs (bits e) rest 0 ltac:(lia) Hb2 ltac:(lia) ltac:(unfold bits_val in Hcr; lia)) as Hrb.
  rewrite Hc in Hrb. replace (zlen (bits e)) with (4 * k * 8) in Hrb by (unfold zlen in *; rewrite length_bits; lia).
  rewrite Hrb. cbn [rbind]. fold (bits_val c). rewrite <- Hze, (digest_ok _ _ Eh). cbn [rbind].
  rewrite Hheap by lia. cbn [negb].
  destruct h as [|b0 h]; [done|]. change (buf_get (b0 :: h) 0) with (Some b0). cbv iota. cmps. replace (8 - k) with (8 - Z.of_nat (Z.to_nat k)) by lia. rewrite first_bits by lia.
  change (bits (b0 :: h)) with (byte_bits b0 ++ bits h). rewrite take_app_le by (rewrite length_byte_bits; lia).
  by destruct (_ =? _).
Qed.
End Operations_ok.

Lemma concat_eleven gs : Forall eleven gs -> length (concat gs) = (11 * length gs)%nat.
Proof. induction 1 as [|g gs Hg _ IH]; [done|]. cbn [concat length]. rewrite length_app, IH, Hg. lia. Qed.

Lemma concat_eleven_inj gs hs : Forall eleven gs -> Forall eleven hs -> concat gs = concat hs -> gs = hs.
Proof.
  intros Hg. revert hs. induction Hg as [|g gs Hg _ IH]; intros hs Hh E.
  - destruct Hh as [|h hs Hh _]; [done|]. apply (f_equal length) in E. cbn [concat] in E. rewrite length_app, Hh in E. done.
  - destruct Hh as [|h hs Hh Hhs].
    + apply (f_equal length) in E. cbn [concat] in E. rewrite length_app, Hg in E. done.
    + cbn [concat] in E. apply app_inj_1 in E as [-> E]; [|by rewrite Hg, Hh]. f_equal. by apply IH.
Qed.

(** Three words for every four bytes. *)
Lemma word_counts n : existsb (Z.eqb n) [12; 15; 18; 21; 24] = true -> exists k, n = 3 * k /\ 4 <= k <= 8.
Proof.
  intros (m & Hm & E%Z.eqb_eq)%existsb_exists. cbn in Hm.
  destruct Hm as [<-|[<-|[<-|[<-|[<-|[]]]]]]; [exists 4|exists 5|exists 6|exists 7|exists 8]; lia.
Qed.

Section Theorems.
Context `{Allocator} `{Crypto}.

(** What an accepted phrase consists of. *)
Lemma to_entropy_inv language m e :
  known_language language -> crypto_works -> heap_serves 256 -> malloc_ok (zlen m + 1) = true ->
  Forall (fun b => b <> Byte.x00) m ->
  neoc_bip39_mnemonic_to_entropy (Some m) language = Ok e ->
  exists gs k, strtok_all m = map group_word gs /\ Forall eleven gs /\ zlen gs = 3 * k /\ 4 <= k <= 8.
Proof.
  intros Hl Hw Hh Hm Hn E. assert (Forall (fun w => Forall (fun b => b <> Byte.x00) w) (strtok_all m)) as Hwn
    by (by apply strtok_no_nul).
  revert E. unfold neoc_bip39_mnemonic_to_entropy, neoc_strdup, neoc_malloc_ok. pose proof (zlen_nonneg m). cmps. rewrite Hm.
  cbn [negb rbind]. cbv zeta. set (words := strtok_all m) in *.
  destruct (24 <? zlen words) eqn:E24; bdestruct; [done|]. cbn [orb].
  rewrite (take_ge words) by (unfold zlen in *; lia).
  destruct (existsb _ _) eqn:Ex; [|done]. cbn [negb]. apply word_counts in Ex as (k & Hk & Hk'). rewrite Hk.
  replace (3 * k * 11) with (k * 33) by lia. rewrite Z.div_mul by done.
  replace (k * 33 - k) with (4 * k * 8) by lia. rewrite Z.mod_mul, Z.div_mul by done. cbn [negb Z.eqb].
  pose proof (Z.div_mod (k * 33 + 7) 8 ltac:(lia)) as Hdm. pose proof (Z.mod_pos_bound (k * 33 + 7) 8 ltac:(lia)).
  set (tb := (k * 33 + 7) / 8) in *. cmps. rewrite Hh by lia. cbn [negb].
  destruct (put_words_cases language Hl words (replicate (Z.to_nat tb) Byte.x00) []
    (replicate (8 * Z.to_nat tb - 11 * length words) false)) as [(gs & bs & E & Ew & Hgs & _)|(bs & E & _)].
  { done. }
  { rewrite bits_zeros. cbn [app]. rewrite <- replicate_add. f_equal. unfold zlen in Hk. lia. }
  - intros _. exists gs, k. split_and!; try done; try lia. rewrite Ew in Hk. unfold zlen in *. by rewrite length_map in Hk.
  - unfold filled_block, local_buffer. change (zlen (@nil bool)) with 0 in E. by rewrite E.
Qed.
End Theorems.

(** The phrase of some entropy. *)
Lemma mnemonic_written `{Allocator} `{Crypto} (language k : Z) (entropy : list byte) :
  known_language language -> crypto_works -> heap_serves 256 -> 4 <= k <= 8 -> zlen entropy = 4 * k ->
  exists phrase gs h,
    neoc_bip39_mnemonic_from_entropy (Some entropy) (zlen entropy) language = Ok phrase /\
    strtok_all phrase = map group_word gs /\ phrase = join_words (map group_word gs) /\ Forall eleven gs /\ zlen gs = 3 * k /\
    SHA256 entropy = Some h /\ concat gs = bits entropy ++ take (Z.to_nat k) (bits h) /\
    neoc_bip39_mnemonic_to_entropy (Some phrase) language = Ok entropy /\
    neoc_bip39_validate_mnemonic (Some phrase) language = Ok true.
Proof.
  intros Hl Hw Hh Hk Hn. destruct (works_sha256 Hw entropy) as (h & Eh & Hh32).
  destruct (from_entropy_ok language Hl (works_initialized Hw) Hh entropy h k Hn Hk Eh Hh32) as (gs & Ef & Hgs & Hlen & Hcc).
  assert (strtok_all (join_words (map group_word gs)) = map group_word gs) as Ht.
  { apply strtok_join. apply List.Forall_forall. intros w (g & <- & Hg)%in_map_iff.
    rewrite List.Forall_forall in Hgs. by apply group_word_spaceless, Hgs. }
  exists (join_words (map group_word gs)), gs, h. split_and!; try done.
  all: destruct (to_entropy_words language Hl (works_initialized Hw) Hh (join_words (map group_word gs)) gs k Ht Hgs Hlen Hk
      (works_sha256 Hw)) as (e & h' & He & Hze & Eh' & _ & Et).
  1, 3: apply Hh; pose proof (zlen_words_bound gs Hgs); rewrite zlen_join;
    [unfold zlen in *; rewrite length_map; lia|destruct gs; [change (zlen (@nil (list bool))) with 0 in Hlen; lia|done]].
  all: assert (length (bits entropy) = Z.to_nat (32 * k)) as Hlb by (rewrite length_bits; unfold zlen in Hn; lia).
  all: assert (e = entropy) as -> by (apply bits_inj; rewrite He, Hcc, take_app_length'; done).
  all: rewrite Eh in Eh'; injection Eh' as <-; rewrite Hcc, drop_app_length', Z.eqb_refl in Et by done.
  - exact Et.
  - unfold neoc_bip39_validate_mnemonic. by rewrite Et.
Qed.

(** C26. Round trip of mnemonic phrases: entropy of 16, 20, 24, 28 or 32 bytes becomes a phrase
    of three words for every four bytes, all from the list and joined by single spaces, and the
    phrase is valid and gives the entropy back.  Whatever SHA-256 computes, the words carry the
    bits of the entropy followed by as many bits of its hash as there are groups of four bytes. *)
Theorem mnemonic_roundtrip `{Allocator} `{Crypto} (language k : Z) (entropy : list byte) :
  known_language language -> crypto_works -> heap_serves 256 -> 4 <= k <= 8 -> zlen entropy = 4 * k ->
  exists phrase gs h,
    neoc_bip39_mnemonic_from_entropy (Some entropy) (zlen entropy) language = Ok phrase /\
    strtok_all phrase = map group_word gs /\ phrase = join_words (map group_word gs) /\ Forall eleven gs /\ zlen gs = 3 * k /\
    SHA256 entropy = Some h /\ concat gs = bits entropy ++ take (Z.to_nat k) (bits h) /\
    neoc_bip39_mnemonic_to_entropy (Some phrase) language = Ok entropy /\
    neoc_bip39_validate_mnemonic (Some phrase) language = Ok true.
Proof. apply mnemonic_written. Qed.

(** C27. Which phrases are accepted: the phrase [m] gives the entropy [e] exactly when the words
    of [m], joined by single spaces, are the phrase written for [e].  So an accepted phrase has
    12, 15, 18, 21 or 24 words of the list with the right checksum, and only the number of
    spaces between and around its words is free. *)
Theorem mnemonic_accepted_iff `{Allocator} `{Crypto} (language : Z) (m e : list byte) :
  known_language language -> crypto_works -> heap_serves 256 -> malloc_ok (zlen m + 1) = true ->
  Forall (fun b => b <> Byte.x00) m ->
  neoc_bip39_mnemonic_to_entropy (Some m) language = Ok e <->
  neoc_bip39_mnemonic_from_entropy (Some e) (zlen e) language = Ok (join_words (strtok_all m)).
Proof.
  intros Hl Hw Hh Hm Hn. pose proof (works_initialized Hw) as Hi. split; intros E.
  - destruct (to_entropy_inv language m e Hl Hw Hh Hm Hn E) as (gs & k & Ht & Hgs & Hlen & Hk).
    destruct (to_entropy_words language Hl Hi Hh m gs k Ht Hgs Hlen Hk (works_sha256 Hw) Hm) as (e' & h & He & Hze & Eh & Hh32 & Et).
    rewrite Et in E. destruct (_ =? _) eqn:Ec; [|done]. injection E as ->. bdestruct.
    pose proof (concat_eleven gs Hgs) as Hcl.
    apply bits_val_inj in Ec; [|rewrite length_drop, length_take, length_bits; unfold zlen in *; lia].
    destruct (from_entropy_ok language Hl Hi Hh e h k Hze Hk Eh Hh32) as (gs' & Ef & Hgs' & _ & Hcc).
    rewrite Ef, Ht. assert (gs' = gs) as ->; [|done]. apply concat_eleven_inj; [done|done|].
    by rewrite Hcc, He, <- Ec, take_drop.
  - assert (exists k, zlen e = 4 * k /\ 4 <= k <= 8) as (k & Hn4 & Hk).
    { revert E. unfold neoc_bip39_mnemonic_from_entropy.
      destruct (zlen e <? 16) eqn:E1; [done|]. destruct (32 <? zlen e) eqn:E2; [done|]. cbn [orb].
      destruct (zlen e mod 4 =? 0) eqn:E3; [|done]. bdestruct. intros _. exists (zlen e / 4).
      pose proof (Z.div_mod (zlen e) 4 ltac:(lia)). lia. }
    destruct (works_sha256 Hw e) as (h & Eh & Hh32).
    destruct (from_entropy_ok language Hl Hi Hh e h k Hn4 Hk Eh Hh32) as (gs & Ef & Hgs & Hlen & Hcc).
    rewrite Ef in E. injection E as Ej.
    assert (strtok_all m = map group_word gs) as Ht.
    { rewrite <- (strtok_join (strtok_all m)), <- Ej by (by apply strtok_spaceless). apply strtok_join.
      apply List.Forall_forall. intros w (g & <- & Hg)%in_map_iff. rewrite List.Forall_forall in Hgs.
      by apply group_word_spaceless, Hgs. }
    destruct (to_entropy_words language Hl Hi Hh m gs k Ht Hgs Hlen Hk (works_sha256 Hw) Hm) as (e' & h' & He & Hze & Eh' & _ & Et).
    assert (length (bits e) = Z.to_nat (32 * k)) as Hlb by (rewrite length_bits; unfold zlen in Hn4; lia).
    assert (e' = e) as -> by (apply bits_inj; rewrite He, Hcc, take_app_length'; done).
    rewrite Eh in Eh'. injection Eh' as <-. by rewrite Hcc, drop_app_length', Z.eqb_refl in Et.
Qed.

(** The bisection in the word list is the search for the word: for every string it ends
    within 12 comparisons, with the index of the word or, when the word is not in the list,
    with -1. *)
Theorem find_word_exact (language : Z) (word : list byte) :
  known_language language -> Forall (fun b => b <> Byte.x00) word ->
  match list_find (fun w => w = word) bip39_wordlist_en with
  | Some (i, _) => neoc_bip39_find_word language (Some word) = Ok (Z.of_nat i) /\
                   neoc_bip39_get_word language (Z.of_nat i) = Ok (Some word)
  | None => neoc_bip39_find_word language (Some word) = Ok (-1)
  end.
Proof.
  intros Hl Hw. destruct (list_find _ _) as [[i w]|] eqn:E.
  - apply list_find_Some in E as (Ei & -> & _).
    split; [apply find_word_ok|apply get_word_ok]; rewrite ?Nat2Z.id; done || lia.
  - unfold neoc_bip39_find_word. rewrite get_wordlist_known by done.
    destruct (find_word_loop_spec word Hw 12 0 2047) as (k & -> & [[Hk Ek]|[-> _]]); [lia|lia|by vm_compute|..]; [|done].
    exfalso. apply list_find_None in E. rewrite Forall_lookup in E. by apply (E _ _ Ek).
Qed.

(** ** Samples *)

Section Samples.
#[local] Existing Instance mib_heap.
#[local] Existing Instance toy_crypto.

Lemma mnemonic_roundtrip_witness :
  exists phrase,
    neoc_bip39_mnemonic_from_entropy (Some (replicate 16 Byte.x2a)) 16 0 = Ok phrase /\
    neoc_bip39_mnemonic_to_entropy (Some phrase) 0 = Ok (replicate 16 Byte.x2a).
Proof.
  destruct (mnemonic_roundtrip 0 4 (replicate 16 Byte.x2a)) as (phrase & gs & h & Ef & _ & _ & _ & _ & _ & _ & Et & _).
  - done.
  - apply toy_crypto_works.
  - apply mib_heap_serves. by vm_compute.
  - done.
  - by vm_compute.
  - exists phrase. exact (conj Ef Et).
Defined.

(** A phrase with another spacing, which is another text for the derivation of the seed. *)
Definition spaced_phrase : list byte :=
  match neoc_bip39_mnemonic_from_entropy (Some (replicate 16 Byte.x2a)) 16 0 with
  | Ok phrase => str "  " ++ phrase
  | _ => []
  end.

Lemma mnemonic_accepted_iff_witness :
  neoc_bip39_mnemonic_to_entropy (Some spaced_phrase) 0 = Ok (replicate 16 Byte.x2a).
Proof.
  apply (mnemonic_accepted_iff 0 spaced_phrase (replicate 16 Byte.x2a)).
  - done.
  - apply toy_crypto_works.
  - apply mib_heap_serves. by vm_compute.
  - by vm_compute.
  - apply (bool_decide_unpack _). by vm_compute.
  - by vm_compute.
Defined.

Lemma find_word_exact_witness : neoc_bip39_find_word 0 (Some (str "zoo")) = Ok 2047.
Proof.
  assert (list_find (fun w => w = str "zoo") bip39_wordlist_en = Some (2047%nat, str "zoo")) as E by (by vm_compute).
  pose proof (find_word_exact 0 (str "zoo")) as Hx. rewrite E in Hx.
  apply Hx; [done|]. apply (bool_decide_unpack _). by vm_compute.
Defined.
End Samples.
