(* ===== verification/Interop.v ===== *)
(** * Interop services (src/script/interop_service.c)

    The static table of the services a script can call, with the hash of each
    name filled in on first use.  The table is the state of the operations;
    SHA-256 is OpenSSL's (class [Crypto]).  [neoc_interop_service_t] is an enum,
    so a service is an integer; its enumerators are the positions of the table. *)

From S2P Require Import Prelude Crypto.

(** ** Data *)

Record neoc_interop_descriptor_t := mk_descriptor {
  d_id : Z;
  d_name : list byte;
  d_hash : Z
}.

Definition NEOC_INTEROP_SYSTEM_CONTRACT_CALL : Z := 8.
Definition NEOC_INTEROP_SYSTEM_CRYPTO_CHECKSIG : Z := 14.
Definition NEOC_INTEROP_SYSTEM_CRYPTO_CHECKMULTISIG : Z := 15.
Definition NEOC_INTEROP_COUNT : Z := 55.

(** The names of the table, in the order of the enumerators. *)
Definition service_names : list (list byte) :=
  [ str "System.Binary.Serialize"; str "System.Binary.Deserialize";
    str "System.Binary.Base64Encode"; str "System.Binary.Base64Decode";
    str "System.Binary.Base58Encode"; str "System.Binary.Base58Decode";
    str "System.Binary.Itoa"; str "System.Binary.Atoi";
    str "System.Contract.Call"; str "System.Contract.CallNative";
    str "System.Contract.GetCallFlags"; str "System.Contract.CreateStandardAccount";
    str "System.Contract.CreateMultiSigAccount"; str "System.Contract.GetHash";
    str "System.Crypto.CheckSig"; str "System.Crypto.CheckMultisig";
    str "System.Iterator.Create"; str "System.Iterator.Next";
    str "System.Iterator.Value"; str "System.Json.Serialize";
    str "System.Json.Deserialize"; str "System.Runtime.Platform";
    str "System.Runtime.GetTrigger"; str "System.Runtime.GetTime";
    str "System.Runtime.GetScriptContainer"; str "System.Runtime.GetExecutingScriptHash";
    str "System.Runtime.GetCallingScriptHash"; str "System.Runtime.GetEntryScriptHash";
    str "System.Runtime.CheckWitness"; str "System.Runtime.GetInvocationCounter";
    str "System.Runtime.Log"; str "System.Runtime.Notify";
    str "System.Runtime.GetNotifications"; str "System.Runtime.GasRefund";
    str "System.Runtime.BurnGas"; str "System.Runtime.CurrentIndex";
    str "System.Runtime.GetNextValidators"; str "System.Runtime.GetNetwork";
    str "System.Runtime.LoadContract"; str "System.Storage.GetContext";
    str "System.Storage.GetReadOnlyContext"; str "System.Storage.AsReadOnly";
    str "System.Storage.Get"; str "System.Storage.Find";
    str "System.Storage.Put"; str "System.Storage.Delete";
    str "Neo.Native.Tokens.NEO"; str "Neo.Native.Tokens.GAS";
    str "Neo.Native.Policy"; str "Neo.Native.RoleManagement";
    str "Neo.Native.Oracle"; str "Neo.Native.Ledger";
    str "Neo.Native.Management"; str "Neo.Native.Crypto";
    str "Neo.Native.Std" ].

(** The table as the compiler lays it out: every hash is 0. *)
Definition interop_table : list neoc_interop_descriptor_t :=
  imap (fun i name => mk_descriptor (Z.of_nat i) name 0) service_names.

(** The static variables of the file. *)
Record interop_state := mk_interop {
  i_table : list neoc_interop_descriptor_t;
  interop_table_initialized : bool
}.

Definition interop_start : interop_state := mk_interop interop_table false.

(** ** Operations *)

Section Operations.
Context `{Crypto}.

(** [sha256[0] | sha256[1] << 8 | sha256[2] << 16 | sha256[3] << 24] *)
Definition first_word (sha256 : list byte) : res Z :=
  match sha256 with
  | b0 :: b1 :: b2 :: b3 :: _ =>
      Ok (Z.lor (Z.lor (Z.lor (Z_of_byte b0) (Z.shiftl (Z_of_byte b1) 8))
                       (Z.shiftl (Z_of_byte b2) 16))
                (Z.shiftl (Z_of_byte b3) 24))
  | _ => Fault
  end.

(** One round of the loop of [initialize_interop_table]. *)
Definition fill_hash (desc : neoc_interop_descriptor_t) : res neoc_interop_descriptor_t :=
  match neoc_sha256 (Some (d_name desc)) (zlen (d_name desc)) with
  | Ok sha256 =>
      let? h := first_word sha256 in Ok (mk_descriptor (d_id desc) (d_name desc) h)
  | Err _ => Ok (mk_descriptor (d_id desc) (d_name desc) 0)
  | Fault => Fault
  end.

Fixpoint fill_table (t : list neoc_interop_descriptor_t)
  : res (list neoc_interop_descriptor_t) :=
  match t with
  | [] => Ok []
  | desc :: t =>
      let? desc := fill_hash desc in
      let? t := fill_table t in
      Ok (desc :: t)
  end.

Definition initialize_interop_table : M interop_state unit := fun s =>
  if interop_table_initialized s then (Ok tt, s)
  else
    match fill_table (i_table s) with
    | Ok t => (Ok tt, mk_interop t true)
    | Err e => (Err e, s)
    | Fault => (Fault, s)
    end.

Definition neoc_interop_get_descriptor (service : Z)
  : M interop_state (option neoc_interop_descriptor_t) :=
  do! initialize_interop_table in
  let! s := get in
  if (0 <=? service) && (service <? NEOC_INTEROP_COUNT)
  then
    match buf_get (i_table s) service with
    | Some desc => ret (Some desc)
    | None => fault
    end
  else ret None.

Definition neoc_interop_get_hash (service : Z) : M interop_state Z :=
  let! desc := neoc_interop_get_descriptor service in
  ret (match desc with Some desc => d_hash desc | None => 0 end).

Definition neoc_interop_get_name (service : Z) : M interop_state (option (list byte)) :=
  let! desc := neoc_interop_get_descriptor service in
  ret (match desc with Some desc => Some (d_name desc) | None => None end).

(** The loop over the table that both searches run. *)
Fixpoint find_in (p : neoc_interop_descriptor_t -> bool)
    (t : list neoc_interop_descriptor_t) : Z :=
  match t with
  | [] => NEOC_INTEROP_COUNT
  | desc :: t => if p desc then d_id desc else find_in p t
  end.

Definition neoc_interop_find_by_name (name : option (list byte)) : M interop_state Z :=
  match name with
  | None => ret NEOC_INTEROP_COUNT
  | Some name =>
      do! initialize_interop_table in
      let! s := get in
      ret (find_in (fun desc => bool_decide (d_name desc = name)) (i_table s))
  end.

Definition neoc_interop_find_by_hash (hash : Z) : M interop_state Z :=
  do! initialize_interop_table in
  let! s := get in
  ret (find_in (fun desc => d_hash desc =? hash) (i_table s)).

End Operations.

(** ** Specification

    [name_hash n]: the first four bytes of SHA-256 of the name, little endian.
    [filled h]: the table with the services in order and the hashes [h]. *)

Definition name_hash `{Crypto} (name : list byte) : Z :=
  le_val (take 4 (default [] (SHA256 name))).

Definition filled (h : list byte -> Z) : list neoc_interop_descriptor_t :=
  imap (fun i name => mk_descriptor (Z.of_nat i) name (h name)) service_names.

Lemma first_word_le sha : (4 <= length sha)%nat -> first_word sha = Ok (le_val (take 4 sha)).
Proof.
  intros Hl. destruct sha as [|b0 [|b1 [|b2 [|b3 sha]]]]; cbn in Hl; try lia.
  cbn [first_word take le_val]. f_equal.
  pose proof (Z_of_byte_range b0). pose proof (Z_of_byte_range b1).
  pose proof (Z_of_byte_range b2). pose proof (Z_of_byte_range b3).
  rewrite take_0. cbn [le_val].
  rewrite (lor_shiftl_add _ _ 8), (lor_shiftl_add _ _ 16), (lor_shiftl_add _ _ 24);
    eval_pows; lia.
Qed.

Lemma name_hash_range `{Crypto} name : 0 <= name_hash name < 2 ^ 32.
Proof.
  unfold name_hash. pose proof (le_val_range (take 4 (default [] (SHA256 name)))) as Hr.
  assert (256 ^ zlen (take 4 (default [] (SHA256 name))) <= 256 ^ 4).
  { apply Z.pow_le_mono_r; [lia|]. unfold zlen. rewrite length_take. lia. }
  change (2 ^ 32) with (256 ^ 4). lia.
Qed.

Lemma fill_table_map `{Crypto} (h : list byte -> Z) t :
  (forall desc, fill_hash desc = Ok (mk_descriptor (d_id desc) (d_name desc) (h (d_name desc)))) ->
  fill_table t = Ok (map (fun d => mk_descriptor (d_id d) (d_name d) (h (d_name d))) t).
Proof.
  intros Hh. induction t as [|d t IH]; [done|]. cbn [fill_table map].
  rewrite Hh. cbn [rbind]. rewrite IH. done.
Qed.

Lemma fill_start `{Crypto} (h : list byte -> Z) :
  (forall desc, fill_hash desc = Ok (mk_descriptor (d_id desc) (d_name desc) (h (d_name desc)))) ->
  initialize_interop_table interop_start = (Ok tt, mk_interop (filled h) true).
Proof.
  intros Hh. unfold initialize_interop_table. cbn [interop_start interop_table_initialized i_table].
  rewrite (fill_table_map h) by done. reflexivity.
Qed.

Lemma fill_hash_works `{Crypto} desc :
  crypto_works ->
  fill_hash desc = Ok (mk_descriptor (d_id desc) (d_name desc) (name_hash (d_name desc))).
Proof.
  intros Hw. unfold fill_hash, neoc_sha256, openssl_digest, name_hash.
  rewrite (works_initialized Hw), buf_slice_all. cbn [negb].
  destruct (works_sha256 Hw (d_name desc)) as (sha & -> & Hl).
  rewrite first_word_le by lia. done.
Qed.

(** What a lookup in a filled table gives. *)
Lemma filled_lookup h s :
  0 <= s < NEOC_INTEROP_COUNT ->
  exists name, service_names !! Z.to_nat s = Some name /\
    buf_get (filled h) s = Some (mk_descriptor s name (h name)).
Proof.
  unfold NEOC_INTEROP_COUNT. intros Hs.
  destruct (lookup_lt_is_Some_2 service_names (Z.to_nat s)) as [name Hn].
  { change (length service_names) with 55%nat. lia. }
  exists name. split; [done|]. unfold buf_get. cmps. unfold filled.
  rewrite list_lookup_imap, Hn. cbn. rewrite Z2Nat.id by lia. done.
Qed.

Lemma get_descriptor_filled `{Crypto} h s :
  0 <= s < NEOC_INTEROP_COUNT ->
  exists name, service_names !! Z.to_nat s = Some name /\
    neoc_interop_get_descriptor s (mk_interop (filled h) true) =
    (Ok (Some (mk_descriptor s name (h name))), mk_interop (filled h) true).
Proof.
  intros Hs. destruct (filled_lookup h s Hs) as (name & Hn & Hg). exists name.
  split; [done|]. unfold neoc_interop_get_descriptor, bind, get, ret.
  cbn -[buf_get filled NEOC_INTEROP_COUNT]. cmps. rewrite Hg. done.
Qed.

(** The search finds the first entry that satisfies the test. *)
Lemma find_in_imap (p : neoc_interop_descriptor_t -> bool) (f : nat -> list byte -> neoc_interop_descriptor_t)
    names i name :
  names !! i = Some name -> p (f i name) = true ->
  (forall j n, (j < i)%nat -> names !! j = Some n -> p (f j n) = false) ->
  find_in p (imap f names) = d_id (f i name).
Proof.
  revert f i. induction names as [|n names IH]; intros f i Hi Hp Hj; [done|].
  rewrite imap_cons. cbn [find_in]. destruct i as [|i].
  - injection Hi as ->. rewrite Hp. done.
  - rewrite (Hj 0%nat n) by (done || lia). apply (IH (f ∘ S) i Hi Hp).
    intros j m Hlt Hm. apply (Hj (S j)); [lia|done].
Qed.

Lemma find_in_none (p : neoc_interop_descriptor_t -> bool) t :
  (forall d, In d t -> p d = false) -> find_in p t = NEOC_INTEROP_COUNT.
Proof.
  induction t as [|d t IH]; intros Hp; [done|]. cbn [find_in].
  rewrite Hp by (left; done). apply IH. intros. apply Hp. right. done.
Qed.

Lemma service_names_nodup : NoDup service_names.
Proof. apply (bool_decide_unpack _). vm_compute. exact I. Qed.

Lemma In_filled h d : In d (filled h) -> In (d_name d) service_names.
Proof.
  intros Hd%list_elem_of_In. apply list_elem_of_lookup in Hd as [i Hi].
  unfold filled in Hi. rewrite list_lookup_imap in Hi.
  destruct (service_names !! i) as [n|] eqn:E; [|done]. injection Hi as <-.
  apply list_elem_of_In. by eapply list_elem_of_lookup_2.
Qed.

Lemma get_name_filled `{Crypto} h s name :
  0 <= s < NEOC_INTEROP_COUNT -> service_names !! Z.to_nat s = Some name ->
  neoc_interop_get_name s (mk_interop (filled h) true) =
  (Ok (Some name), mk_interop (filled h) true).
Proof.
  intros Hs Hn. destruct (get_descriptor_filled h s Hs) as (n & Hn' & Hg).
  unfold neoc_interop_get_name. rewrite (bind_ok _ _ _ _ _ Hg). simplify_eq. done.
Qed.

Lemma get_hash_filled `{Crypto} h s name :
  0 <= s < NEOC_INTEROP_COUNT -> service_names !! Z.to_nat s = Some name ->
  neoc_interop_get_hash s (mk_interop (filled h) true) =
  (Ok (h name), mk_interop (filled h) true).
Proof.
  intros Hs Hn. destruct (get_descriptor_filled h s Hs) as (n & Hn' & Hg).
  unfold neoc_interop_get_hash. rewrite (bind_ok _ _ _ _ _ Hg). simplify_eq. done.
Qed.

(** A search whose test holds of service [s] and of no earlier one. *)
Lemma find_in_filled h p s name :
  0 <= s < NEOC_INTEROP_COUNT -> service_names !! Z.to_nat s = Some name ->
  p (mk_descriptor s name (h name)) = true ->
  (forall j m, 0 <= j < s -> service_names !! Z.to_nat j = Some m ->
               p (mk_descriptor j m (h m)) = false) ->
  find_in p (filled h) = s.
Proof.
  intros Hs Hn Hp Hj. unfold filled.
  rewrite (find_in_imap _ _ _ _ _ Hn); cbn [d_id].
  - lia.
  - rewrite Z2Nat.id by lia. done.
  - intros j m Hlt Hm. apply Hj; [lia|]. by rewrite Nat2Z.id.
Qed.

(** ** The interface of the scripts

    A script builder calls [neoc_interop_get_hash] and nothing else of this file.
    [service_hash] is the value it returns; [interop_static] makes it from the
    static table as it is when the builder is entered, and [service_hash_returned]
    says that every call returns it: the table is either as the compiler laid it
    out, and the first call fills it in, or filled in already, and calls leave it
    alone. *)

Class Interop := {
  service_hash : Z -> Z;
  service_hash_range s : 0 <= service_hash s < 2 ^ 32
}.

Inductive static_ok : interop_state -> Prop :=
| static_start : static_ok interop_start
| static_filled (h : list byte -> Z) :
    (forall name, 0 <= h name < 2 ^ 32) -> static_ok (mk_interop (filled h) true).

Lemma get_hash_static `{Crypto} st s :
  crypto_works -> static_ok st ->
  exists v st', neoc_interop_get_hash s st = (Ok v, st') /\ 0 <= v < 2 ^ 32 /\
    static_ok st' /\
    forall s', fst (neoc_interop_get_hash s' st') = fst (neoc_interop_get_hash s' st).
Proof.
  intros Hw Hst.
  assert (exists h, (forall name, 0 <= h name < 2 ^ 32) /\
    initialize_interop_table st = (Ok tt, mk_interop (filled h) true)) as (h & Hr & Hi).
  { destruct Hst as [|h Hh]; [|by exists h].
    exists name_hash. split; [apply name_hash_range|].
    apply fill_start. intros desc. by apply fill_hash_works. }
  assert (forall s', neoc_interop_get_hash s' st =
            neoc_interop_get_hash s' (mk_interop (filled h) true)) as E.
  { intros s'. unfold neoc_interop_get_hash, neoc_interop_get_descriptor.
    rewrite !bind_assoc, (bind_ok _ _ _ _ _ Hi). done. }
  setoid_rewrite E. destruct (decide (0 <= s < NEOC_INTEROP_COUNT)) as [Hs|Hs].
  - destruct (filled_lookup h s Hs) as (name & Hn & _).
    rewrite (get_hash_filled h s name) by done.
    eexists _, _. split_and!; [done|apply Hr..|by constructor|done].
  - exists 0, (mk_interop (filled h) true).
    split_and!; [|lia..|by constructor|done].
    unfold neoc_interop_get_hash, neoc_interop_get_descriptor.
    cbn -[filled buf_get NEOC_INTEROP_COUNT].
    replace ((0 <=? s) && (s <? NEOC_INTEROP_COUNT)) with false by (symmetry; lia). done.
Qed.

Definition returned_hash `{Crypto} (st : interop_state) (s : Z) : Z :=
  match fst (neoc_interop_get_hash s st) with Ok v => v | _ => 0 end.

Lemma returned_hash_range `{Crypto} st s :
  crypto_works -> static_ok st -> 0 <= returned_hash st s < 2 ^ 32.
Proof.
  intros Hw Hst. destruct (get_hash_static st s Hw Hst) as (v & st' & E & Hv & _).
  unfold returned_hash. rewrite E. done.
Qed.

Definition interop_static `{Crypto} (Hw : crypto_works) (st : interop_state)
    (Hst : static_ok st) : Interop := {|
  service_hash := returned_hash st;
  service_hash_range s := returned_hash_range st s Hw Hst
|}.

Lemma service_hash_returned `{Crypto} (Hw : crypto_works) st (Hst : static_ok st) s :
  fst (neoc_interop_get_hash s st) = Ok (@service_hash (interop_static Hw st Hst) s).
Proof.
  destruct (get_hash_static st s Hw Hst) as (v & st' & E & _). cbn [service_hash interop_static].
  unfold returned_hash. rewrite E. done.
Qed.

(** ** Claims *)

(** The table after initialisation with a working SHA-256 is an index of the
    services in both directions: every service has a name and the hash of that
    name (the first word of its SHA-256), searching for the name gives the
    service back, searching for the hash gives it back when no other service has
    the same hash, and a name that is not in the table or an identifier outside
    the enumeration is reported as absent. *)
Theorem interop_index `{Crypto} :
  crypto_works ->
  exists st, initialize_interop_table interop_start = (Ok tt, st) /\
  (forall s, 0 <= s < NEOC_INTEROP_COUNT ->
    exists name,
      neoc_interop_get_name s st = (Ok (Some name), st) /\
      neoc_interop_get_hash s st = (Ok (name_hash name), st) /\
      0 <= name_hash name < 2 ^ 32 /\
      neoc_interop_find_by_name (Some name) st = (Ok s, st) /\
      ((forall s' name', 0 <= s' < NEOC_INTEROP_COUNT -> s' <> s ->
          neoc_interop_get_name s' st = (Ok (Some name'), st) ->
          name_hash name' <> name_hash name) ->
       neoc_interop_find_by_hash (name_hash name) st = (Ok s, st))) /\
  (forall name, ~ In name service_names ->
    neoc_interop_find_by_name (Some name) st = (Ok NEOC_INTEROP_COUNT, st)) /\
  (forall s, ~ (0 <= s < NEOC_INTEROP_COUNT) ->
    neoc_interop_get_name s st = (Ok None, st) /\
    neoc_interop_get_hash s st = (Ok 0, st)).
Proof.
  intros Hw. exists (mk_interop (filled name_hash) true). split.
  { apply fill_start. intros desc. by apply fill_hash_works. }
  split; [|split].
  - intros s Hs. destruct (filled_lookup name_hash s Hs) as (name & Hn & _).
    exists name. split; [by apply get_name_filled|]. split; [by apply get_hash_filled|].
    split; [apply name_hash_range|]. split.
    + unfold neoc_interop_find_by_name, bind, get, ret. cbn -[filled find_in]. do 2 f_equal.
      eapply find_in_filled; [done..|by apply bool_decide_eq_true|].
      intros j m Hj Hm. apply bool_decide_eq_false. cbn. intros ->.
      pose proof (NoDup_lookup _ _ _ _ service_names_nodup Hm Hn). lia.
    + intros Hd. unfold neoc_interop_find_by_hash, bind, get, ret. cbn -[filled find_in]. do 2 f_equal.
      eapply find_in_filled; [done..|apply Z.eqb_refl|].
      intros j m Hj Hm. apply Z.eqb_neq, (Hd j); [lia..|]. apply get_name_filled; [lia|done].
  - intros name Hnot. unfold neoc_interop_find_by_name, bind, get, ret. cbn -[filled find_in].
    do 2 f_equal. apply find_in_none. intros d Hd. apply bool_decide_eq_false. intros <-.
    apply Hnot. by eapply In_filled.
  - intros s Hs. unfold neoc_interop_get_name, neoc_interop_get_hash,
      neoc_interop_get_descriptor. cbn -[filled buf_get NEOC_INTEROP_COUNT].
    replace ((0 <=? s) && (s <? NEOC_INTEROP_COUNT)) with false by (symmetry; lia). done.
Qed.

Lemma interop_index_witness :
  exists st, @initialize_interop_table toy_crypto interop_start = (Ok tt, st) /\
    @neoc_interop_find_by_name toy_crypto (Some (str "System.Contract.Call")) st = (Ok 8, st).
Proof.
  destruct (@interop_index toy_crypto toy_crypto_works) as (st & E & H & _).
  exists st. split; [done|].
  destruct (H 8) as (name & Hn & _ & _ & Hf & _); [vm_compute; intuition discriminate|].
  vm_compute in E. injection E as <-. vm_compute in Hn. injection Hn as <-. exact Hf.
Defined.

(** Initialisation happens once, whatever it computed: when any function of
    the file runs before the crypto module is initialised, the table is marked
    initialised with every hash 0, and no later call, with the crypto module
    working, ever gives a service another hash. *)
Theorem interop_early_use_sticks (before after : Crypto) (s0 s : Z) :
  @crypto_initialized before = false ->
  exists st, snd (@neoc_interop_get_hash before s0 interop_start) = st /\
    @neoc_interop_get_hash after s st = (Ok 0, st) /\
    @neoc_interop_find_by_hash after 0 st = (Ok 0, st).
Proof.
  intros Hb. set (zero := fun _ : list byte => 0).
  assert (@initialize_interop_table before interop_start =
          (Ok tt, mk_interop (filled zero) true)) as Hi.
  { apply fill_start. intros desc. unfold fill_hash, neoc_sha256. rewrite Hb. done. }
  exists (mk_interop (filled zero) true). split_and!.
  - unfold neoc_interop_get_hash, neoc_interop_get_descriptor.
    rewrite !bind_assoc, (bind_ok _ _ _ _ _ Hi). unfold bind, get, ret, fault, snd.
    destruct (_ && _); [|done]. by destruct (buf_get _ _).
  - destruct (decide (0 <= s < NEOC_INTEROP_COUNT)) as [Hs|Hs].
    + destruct (filled_lookup zero s Hs) as (name & Hn & _).
      rewrite (get_hash_filled _ _ name) by done. done.
    + unfold neoc_interop_get_hash, neoc_interop_get_descriptor.
      cbn -[filled buf_get NEOC_INTEROP_COUNT].
      replace ((0 <=? s) && (s <? NEOC_INTEROP_COUNT)) with false by (symmetry; lia). done.
  - reflexivity.
Qed.

(** The crypto module before [neoc_crypto_init]. *)
Definition no_crypto : Crypto := {|
  crypto_initialized := false; SHA256 _ := None; RIPEMD160 _ := None
|}.

Lemma interop_early_use_sticks_witness :
  exists st, snd (@neoc_interop_get_hash no_crypto 14 interop_start) = st /\
    @neoc_interop_get_hash toy_crypto 14 st = (Ok 0, st) /\
    @neoc_interop_find_by_hash toy_crypto 0 st = (Ok 0, st).
Proof. exact (interop_early_use_sticks no_crypto toy_crypto 14 14 eq_refl). Defined.
