(* ===== verification/Opcode.v ===== *)
(** * Operation codes (include/neoc/script/opcode.h, src/script/opcode.c)

    The operation codes of the virtual machine, and the table with the name and the size
    of the operand of each; a negative size is minus the number of bytes of the length
    that precedes the operand. *)

From S2P Require Import Prelude.
#[local] Open Scope Z_scope.

Definition NEOC_OP_PUSHINT8 : Z := 0x00.
Definition NEOC_OP_PUSHINT16 : Z := 0x01.
Definition NEOC_OP_PUSHINT32 : Z := 0x02.
Definition NEOC_OP_PUSHINT64 : Z := 0x03.
Definition NEOC_OP_PUSHINT128 : Z := 0x04.
Definition NEOC_OP_PUSHINT256 : Z := 0x05.
Definition NEOC_OP_PUSHA : Z := 0x0A.
Definition NEOC_OP_PUSHNULL : Z := 0x0B.
Definition NEOC_OP_PUSHDATA1 : Z := 0x0C.
Definition NEOC_OP_PUSHDATA2 : Z := 0x0D.
Definition NEOC_OP_PUSHDATA4 : Z := 0x0E.
Definition NEOC_OP_PUSHM1 : Z := 0x0F.
Definition NEOC_OP_PUSH0 : Z := 0x10.
Definition NEOC_OP_PUSH1 : Z := 0x11.
Definition NEOC_OP_PUSH2 : Z := 0x12.
Definition NEOC_OP_PUSH3 : Z := 0x13.
Definition NEOC_OP_PUSH4 : Z := 0x14.
Definition NEOC_OP_PUSH5 : Z := 0x15.
Definition NEOC_OP_PUSH6 : Z := 0x16.
Definition NEOC_OP_PUSH7 : Z := 0x17.
Definition NEOC_OP_PUSH8 : Z := 0x18.
Definition NEOC_OP_PUSH9 : Z := 0x19.
Definition NEOC_OP_PUSH10 : Z := 0x1A.
Definition NEOC_OP_PUSH11 : Z := 0x1B.
Definition NEOC_OP_PUSH12 : Z := 0x1C.
Definition NEOC_OP_PUSH13 : Z := 0x1D.
Definition NEOC_OP_PUSH14 : Z := 0x1E.
Definition NEOC_OP_PUSH15 : Z := 0x1F.
Definition NEOC_OP_PUSH16 : Z := 0x20.
Definition NEOC_OP_NOP : Z := 0x21.
Definition NEOC_OP_JMP : Z := 0x22.
Definition NEOC_OP_JMP_L : Z := 0x23.
Definition NEOC_OP_JMPIF : Z := 0x24.
Definition NEOC_OP_JMPIF_L : Z := 0x25.
Definition NEOC_OP_JMPIFNOT : Z := 0x26.
Definition NEOC_OP_JMPIFNOT_L : Z := 0x27.
Definition NEOC_OP_JMPEQ : Z := 0x28.
Definition NEOC_OP_JMPEQ_L : Z := 0x29.
Definition NEOC_OP_JMPNE : Z := 0x2A.
Definition NEOC_OP_JMPNE_L : Z := 0x2B.
Definition NEOC_OP_JMPGT : Z := 0x2C.
Definition NEOC_OP_JMPGT_L : Z := 0x2D.
Definition NEOC_OP_JMPGE : Z := 0x2E.
Definition NEOC_OP_JMPGE_L : Z := 0x2F.
Definition NEOC_OP_JMPLT : Z := 0x30.
Definition NEOC_OP_JMPLT_L : Z := 0x31.
Definition NEOC_OP_JMPLE : Z := 0x32.
Definition NEOC_OP_JMPLE_L : Z := 0x33.
Definition NEOC_OP_CALL : Z := 0x34.
Definition NEOC_OP_CALL_L : Z := 0x35.
Definition NEOC_OP_CALLA : Z := 0x36.
Definition NEOC_OP_CALLT : Z := 0x37.
Definition NEOC_OP_ABORT : Z := 0x38.
Definition NEOC_OP_ASSERT : Z := 0x39.
Definition NEOC_OP_THROW : Z := 0x3A.
Definition NEOC_OP_TRY : Z := 0x3B.
Definition NEOC_OP_TRY_L : Z := 0x3C.
Definition NEOC_OP_ENDTRY : Z := 0x3D.
Definition NEOC_OP_ENDTRY_L : Z := 0x3E.
Definition NEOC_OP_ENDFINALLY : Z := 0x3F.
Definition NEOC_OP_RET : Z := 0x40.
Definition NEOC_OP_SYSCALL : Z := 0x41.
Definition NEOC_OP_DEPTH : Z := 0x43.
Definition NEOC_OP_DROP : Z := 0x45.
Definition NEOC_OP_NIP : Z := 0x46.
Definition NEOC_OP_XDROP : Z := 0x48.
Definition NEOC_OP_CLEAR : Z := 0x49.
Definition NEOC_OP_DUP : Z := 0x4A.
Definition NEOC_OP_OVER : Z := 0x4B.
Definition NEOC_OP_PICK : Z := 0x4D.
Definition NEOC_OP_TUCK : Z := 0x4E.
Definition NEOC_OP_SWAP : Z := 0x50.
Definition NEOC_OP_ROT : Z := 0x51.
Definition NEOC_OP_ROLL : Z := 0x52.
Definition NEOC_OP_REVERSE3 : Z := 0x53.
Definition NEOC_OP_REVERSE4 : Z := 0x54.
Definition NEOC_OP_REVERSEN : Z := 0x55.
Definition NEOC_OP_INITSSLOT : Z := 0x56.
Definition NEOC_OP_INITSLOT : Z := 0x57.
Definition NEOC_OP_LDSFLD0 : Z := 0x58.
Definition NEOC_OP_LDSFLD1 : Z := 0x59.
Definition NEOC_OP_LDSFLD2 : Z := 0x5A.
Definition NEOC_OP_LDSFLD3 : Z := 0x5B.
Definition NEOC_OP_LDSFLD4 : Z := 0x5C.
Definition NEOC_OP_LDSFLD5 : Z := 0x5D.
Definition NEOC_OP_LDSFLD6 : Z := 0x5E.
Definition NEOC_OP_LDSFLD : Z := 0x5F.
Definition NEOC_OP_STSFLD0 : Z := 0x60.
Definition NEOC_OP_STSFLD1 : Z := 0x61.
Definition NEOC_OP_STSFLD2 : Z := 0x62.
Definition NEOC_OP_STSFLD3 : Z := 0x63.
Definition NEOC_OP_STSFLD4 : Z := 0x64.
Definition NEOC_OP_STSFLD5 : Z := 0x65.
Definition NEOC_OP_STSFLD6 : Z := 0x66.
Definition NEOC_OP_STSFLD : Z := 0x67.
Definition NEOC_OP_LDLOC0 : Z := 0x68.
Definition NEOC_OP_LDLOC1 : Z := 0x69.
Definition NEOC_OP_LDLOC2 : Z := 0x6A.
Definition NEOC_OP_LDLOC3 : Z := 0x6B.
Definition NEOC_OP_LDLOC4 : Z := 0x6C.
Definition NEOC_OP_LDLOC5 : Z := 0x6D.
Definition NEOC_OP_LDLOC6 : Z := 0x6E.
Definition NEOC_OP_LDLOC : Z := 0x6F.
Definition NEOC_OP_STLOC0 : Z := 0x70.
Definition NEOC_OP_STLOC1 : Z := 0x71.
Definition NEOC_OP_STLOC2 : Z := 0x72.
Definition NEOC_OP_STLOC3 : Z := 0x73.
Definition NEOC_OP_STLOC4 : Z := 0x74.
Definition NEOC_OP_STLOC5 : Z := 0x75.
Definition NEOC_OP_STLOC6 : Z := 0x76.
Definition NEOC_OP_STLOC : Z := 0x77.
Definition NEOC_OP_LDARG0 : Z := 0x78.
Definition NEOC_OP_LDARG1 : Z := 0x79.
Definition NEOC_OP_LDARG2 : Z := 0x7A.
Definition NEOC_OP_LDARG3 : Z := 0x7B.
Definition NEOC_OP_LDARG4 : Z := 0x7C.
Definition NEOC_OP_LDARG5 : Z := 0x7D.
Definition NEOC_OP_LDARG6 : Z := 0x7E.
Definition NEOC_OP_LDARG : Z := 0x7F.
Definition NEOC_OP_STARG0 : Z := 0x80.
Definition NEOC_OP_STARG1 : Z := 0x81.
Definition NEOC_OP_STARG2 : Z := 0x82.
Definition NEOC_OP_STARG3 : Z := 0x83.
Definition NEOC_OP_STARG4 : Z := 0x84.
Definition NEOC_OP_STARG5 : Z := 0x85.
Definition NEOC_OP_STARG6 : Z := 0x86.
Definition NEOC_OP_STARG : Z := 0x87.
Definition NEOC_OP_NEWBUFFER : Z := 0x88.
Definition NEOC_OP_MEMCPY : Z := 0x89.
Definition NEOC_OP_CAT : Z := 0x8B.
Definition NEOC_OP_SUBSTR : Z := 0x8C.
Definition NEOC_OP_LEFT : Z := 0x8D.
Definition NEOC_OP_RIGHT : Z := 0x8E.
Definition NEOC_OP_INVERT : Z := 0x90.
Definition NEOC_OP_AND : Z := 0x91.
Definition NEOC_OP_OR : Z := 0x92.
Definition NEOC_OP_XOR : Z := 0x93.
Definition NEOC_OP_EQUAL : Z := 0x97.
Definition NEOC_OP_NOTEQUAL : Z := 0x98.
Definition NEOC_OP_SIGN : Z := 0x99.
Definition NEOC_OP_ABS : Z := 0x9A.
Definition NEOC_OP_NEGATE : Z := 0x9B.
Definition NEOC_OP_INC : Z := 0x9C.
Definition NEOC_OP_DEC : Z := 0x9D.
Definition NEOC_OP_ADD : Z := 0x9E.
Definition NEOC_OP_SUB : Z := 0x9F.
Definition NEOC_OP_MUL : Z := 0xA0.
Definition NEOC_OP_DIV : Z := 0xA1.
Definition NEOC_OP_MOD : Z := 0xA2.
Definition NEOC_OP_POW : Z := 0xA3.
Definition NEOC_OP_SQRT : Z := 0xA4.
Definition NEOC_OP_MODMUL : Z := 0xA5.
Definition NEOC_OP_MODPOW : Z := 0xA6.
Definition NEOC_OP_SHL : Z := 0xA8.
Definition NEOC_OP_SHR : Z := 0xA9.
Definition NEOC_OP_NOT : Z := 0xAA.
Definition NEOC_OP_BOOLAND : Z := 0xAB.
Definition NEOC_OP_BOOLOR : Z := 0xAC.
Definition NEOC_OP_NZ : Z := 0xB1.
Definition NEOC_OP_NUMEQUAL : Z := 0xB3.
Definition NEOC_OP_NUMNOTEQUAL : Z := 0xB4.
Definition NEOC_OP_LT : Z := 0xB5.
Definition NEOC_OP_LE : Z := 0xB6.
Definition NEOC_OP_GT : Z := 0xB7.
Definition NEOC_OP_GE : Z := 0xB8.
Definition NEOC_OP_MIN : Z := 0xB9.
Definition NEOC_OP_MAX : Z := 0xBA.
Definition NEOC_OP_WITHIN : Z := 0xBB.
Definition NEOC_OP_PACKMAP : Z := 0xBE.
Definition NEOC_OP_PACKSTRUCT : Z := 0xBF.
Definition NEOC_OP_PACK : Z := 0xC0.
Definition NEOC_OP_UNPACK : Z := 0xC1.
Definition NEOC_OP_NEWARRAY0 : Z := 0xC2.
Definition NEOC_OP_NEWARRAY : Z := 0xC3.
Definition NEOC_OP_NEWARRAY_T : Z := 0xC4.
Definition NEOC_OP_NEWSTRUCT0 : Z := 0xC5.
Definition NEOC_OP_NEWSTRUCT : Z := 0xC6.
Definition NEOC_OP_NEWMAP : Z := 0xC8.
Definition NEOC_OP_SIZE : Z := 0xCA.
Definition NEOC_OP_HASKEY : Z := 0xCB.
Definition NEOC_OP_KEYS : Z := 0xCC.
Definition NEOC_OP_VALUES : Z := 0xCD.
Definition NEOC_OP_PICKITEM : Z := 0xCE.
Definition NEOC_OP_APPEND : Z := 0xCF.
Definition NEOC_OP_SETITEM : Z := 0xD0.
Definition NEOC_OP_REVERSEITEMS : Z := 0xD1.
Definition NEOC_OP_REMOVE : Z := 0xD2.
Definition NEOC_OP_CLEARITEMS : Z := 0xD3.
Definition NEOC_OP_POPITEM : Z := 0xD4.
Definition NEOC_OP_ISNULL : Z := 0xD8.
Definition NEOC_OP_ISTYPE : Z := 0xD9.
Definition NEOC_OP_CONVERT : Z := 0xDB.

Record opcode_info_t := mk_info {
  oi_opcode : Z;
  oi_name : list byte;
  oi_operand_size : Z
}.

Definition opcode_table : list opcode_info_t :=
  [ mk_info NEOC_OP_PUSHINT8 (str "PUSHINT8") 1;
    mk_info NEOC_OP_PUSHINT16 (str "PUSHINT16") 2;
    mk_info NEOC_OP_PUSHINT32 (str "PUSHINT32") 4;
    mk_info NEOC_OP_PUSHINT64 (str "PUSHINT64") 8;
    mk_info NEOC_OP_PUSHINT128 (str "PUSHINT128") 16;
    mk_info NEOC_OP_PUSHINT256 (str "PUSHINT256") 32;
    mk_info NEOC_OP_PUSHA (str "PUSHA") 4;
    mk_info NEOC_OP_PUSHNULL (str "PUSHNULL") 0;
    mk_info NEOC_OP_PUSHDATA1 (str "PUSHDATA1") (-1);
    mk_info NEOC_OP_PUSHDATA2 (str "PUSHDATA2") (-2);
    mk_info NEOC_OP_PUSHDATA4 (str "PUSHDATA4") (-4);
    mk_info NEOC_OP_PUSHM1 (str "PUSHM1") 0;
    mk_info NEOC_OP_PUSH0 (str "PUSH0") 0;
    mk_info NEOC_OP_PUSH1 (str "PUSH1") 0;
    mk_info NEOC_OP_PUSH2 (str "PUSH2") 0;
    mk_info NEOC_OP_PUSH3 (str "PUSH3") 0;
    mk_info NEOC_OP_PUSH4 (str "PUSH4") 0;
    mk_info NEOC_OP_PUSH5 (str "PUSH5") 0;
    mk_info NEOC_OP_PUSH6 (str "PUSH6") 0;
    mk_info NEOC_OP_PUSH7 (str "PUSH7") 0;
    mk_info NEOC_OP_PUSH8 (str "PUSH8") 0;
    mk_info NEOC_OP_PUSH9 (str "PUSH9") 0;
    mk_info NEOC_OP_PUSH10 (str "PUSH10") 0;
    mk_info NEOC_OP_PUSH11 (str "PUSH11") 0;
    mk_info NEOC_OP_PUSH12 (str "PUSH12") 0;
    mk_info NEOC_OP_PUSH13 (str "PUSH13") 0;
    mk_info NEOC_OP_PUSH14 (str "PUSH14") 0;
    mk_info NEOC_OP_PUSH15 (str "PUSH15") 0;
    mk_info NEOC_OP_PUSH16 (str "PUSH16") 0;
    mk_info NEOC_OP_NOP (str "NOP") 0;
    mk_info NEOC_OP_JMP (str "JMP") 1;
    mk_info NEOC_OP_JMP_L (str "JMP_L") 4;
    mk_info NEOC_OP_JMPIF (str "JMPIF") 1;
    mk_info NEOC_OP_JMPIF_L (str "JMPIF_L") 4;
    mk_info NEOC_OP_JMPIFNOT (str "JMPIFNOT") 1;
    mk_info NEOC_OP_JMPIFNOT_L (str "JMPIFNOT_L") 4;
    mk_info NEOC_OP_JMPEQ (str "JMPEQ") 1;
    mk_info NEOC_OP_JMPEQ_L (str "JMPEQ_L") 4;
    mk_info NEOC_OP_JMPNE (str "JMPNE") 1;
    mk_info NEOC_OP_JMPNE_L (str "JMPNE_L") 4;
    mk_info NEOC_OP_JMPGT (str "JMPGT") 1;
    mk_info NEOC_OP_JMPGT_L (str "JMPGT_L") 4;
    mk_info NEOC_OP_JMPGE (str "JMPGE") 1;
    mk_info NEOC_OP_JMPGE_L (str "JMPGE_L") 4;
    mk_info NEOC_OP_JMPLT (str "JMPLT") 1;
    mk_info NEOC_OP_JMPLT_L (str "JMPLT_L") 4;
    mk_info NEOC_OP_JMPLE (str "JMPLE") 1;
    mk_info NEOC_OP_JMPLE_L (str "JMPLE_L") 4;
    mk_info NEOC_OP_CALL (str "CALL") 1;
    mk_info NEOC_OP_CALL_L (str "CALL_L") 4;
    mk_info NEOC_OP_CALLA (str "CALLA") 0;
    mk_info NEOC_OP_CALLT (str "CALLT") 2;
    mk_info NEOC_OP_ABORT (str "ABORT") 0;
    mk_info NEOC_OP_ASSERT (str "ASSERT") 0;
    mk_info NEOC_OP_THROW (str "THROW") 0;
    mk_info NEOC_OP_TRY (str "TRY") 2;
    mk_info NEOC_OP_TRY_L (str "TRY_L") 8;
    mk_info NEOC_OP_ENDTRY (str "ENDTRY") 1;
    mk_info NEOC_OP_ENDTRY_L (str "ENDTRY_L") 4;
    mk_info NEOC_OP_ENDFINALLY (str "ENDFINALLY") 0;
    mk_info NEOC_OP_RET (str "RET") 0;
    mk_info NEOC_OP_SYSCALL (str "SYSCALL") 4;
    mk_info NEOC_OP_DEPTH (str "DEPTH") 0;
    mk_info NEOC_OP_DROP (str "DROP") 0;
    mk_info NEOC_OP_NIP (str "NIP") 0;
    mk_info NEOC_OP_XDROP (str "XDROP") 0;
    mk_info NEOC_OP_CLEAR (str "CLEAR") 0;
    mk_info NEOC_OP_DUP (str "DUP") 0;
    mk_info NEOC_OP_OVER (str "OVER") 0;
    mk_info NEOC_OP_PICK (str "PICK") 0;
    mk_info NEOC_OP_TUCK (str "TUCK") 0;
    mk_info NEOC_OP_SWAP (str "SWAP") 0;
    mk_info NEOC_OP_ROT (str "ROT") 0;
    mk_info NEOC_OP_ROLL (str "ROLL") 0;
    mk_info NEOC_OP_REVERSE3 (str "REVERSE3") 0;
    mk_info NEOC_OP_REVERSE4 (str "REVERSE4") 0;
    mk_info NEOC_OP_REVERSEN (str "REVERSEN") 0;
    mk_info NEOC_OP_INITSSLOT (str "INITSSLOT") 1;
    mk_info NEOC_OP_INITSLOT (str "INITSLOT") 2;
    mk_info NEOC_OP_LDSFLD0 (str "LDSFLD0") 0;
    mk_info NEOC_OP_LDSFLD1 (str "LDSFLD1") 0;
    mk_info NEOC_OP_LDSFLD2 (str "LDSFLD2") 0;
    mk_info NEOC_OP_LDSFLD3 (str "LDSFLD3") 0;
    mk_info NEOC_OP_LDSFLD4 (str "LDSFLD4") 0;
    mk_info NEOC_OP_LDSFLD5 (str "LDSFLD5") 0;
    mk_info NEOC_OP_LDSFLD6 (str "LDSFLD6") 0;
    mk_info NEOC_OP_LDSFLD (str "LDSFLD") 1;
    mk_info NEOC_OP_STSFLD0 (str "STSFLD0") 0;
    mk_info NEOC_OP_STSFLD1 (str "STSFLD1") 0;
    mk_info NEOC_OP_STSFLD2 (str "STSFLD2") 0;
    mk_info NEOC_OP_STSFLD3 (str "STSFLD3") 0;
    mk_info NEOC_OP_STSFLD4 (str "STSFLD4") 0;
    mk_info NEOC_OP_STSFLD5 (str "STSFLD5") 0;
    mk_info NEOC_OP_STSFLD6 (str "STSFLD6") 0;
    mk_info NEOC_OP_STSFLD (str "STSFLD") 1;
    mk_info NEOC_OP_LDLOC0 (str "LDLOC0") 0;
    mk_info NEOC_OP_LDLOC1 (str "LDLOC1") 0;
    mk_info NEOC_OP_LDLOC2 (str "LDLOC2") 0;
    mk_info NEOC_OP_LDLOC3 (str "LDLOC3") 0;
    mk_info NEOC_OP_LDLOC4 (str "LDLOC4") 0;
    mk_info NEOC_OP_LDLOC5 (str "LDLOC5") 0;
    mk_info NEOC_OP_LDLOC6 (str "LDLOC6") 0;
    mk_info NEOC_OP_LDLOC (str "LDLOC") 1;
    mk_info NEOC_OP_STLOC0 (str "STLOC0") 0;
    mk_info NEOC_OP_STLOC1 (str "STLOC1") 0;
    mk_info NEOC_OP_STLOC2 (str "STLOC2") 0;
    mk_info NEOC_OP_STLOC3 (str "STLOC3") 0;
    mk_info NEOC_OP_STLOC4 (str "STLOC4") 0;
    mk_info NEOC_OP_STLOC5 (str "STLOC5") 0;
    mk_info NEOC_OP_STLOC6 (str "STLOC6") 0;
    mk_info NEOC_OP_STLOC (str "STLOC") 1;
    mk_info NEOC_OP_LDARG0 (str "LDARG0") 0;
    mk_info NEOC_OP_LDARG1 (str "LDARG1") 0;
    mk_info NEOC_OP_LDARG2 (str "LDARG2") 0;
    mk_info NEOC_OP_LDARG3 (str "LDARG3") 0;
    mk_info NEOC_OP_LDARG4 (str "LDARG4") 0;
    mk_info NEOC_OP_LDARG5 (str "LDARG5") 0;
    mk_info NEOC_OP_LDARG6 (str "LDARG6") 0;
    mk_info NEOC_OP_LDARG (str "LDARG") 1;
    mk_info NEOC_OP_STARG0 (str "STARG0") 0;
    mk_info NEOC_OP_STARG1 (str "STARG1") 0;
    mk_info NEOC_OP_STARG2 (str "STARG2") 0;
    mk_info NEOC_OP_STARG3 (str "STARG3") 0;
    mk_info NEOC_OP_STARG4 (str "STARG4") 0;
    mk_info NEOC_OP_STARG5 (str "STARG5") 0;
    mk_info NEOC_OP_STARG6 (str "STARG6") 0;
    mk_info NEOC_OP_STARG (str "STARG") 1;
    mk_info NEOC_OP_NEWBUFFER (str "NEWBUFFER") 0;
    mk_info NEOC_OP_MEMCPY (str "MEMCPY") 0;
    mk_info NEOC_OP_CAT (str "CAT") 0;
    mk_info NEOC_OP_SUBSTR (str "SUBSTR") 0;
    mk_info NEOC_OP_LEFT (str "LEFT") 0;
    mk_info NEOC_OP_RIGHT (str "RIGHT") 0;
    mk_info NEOC_OP_INVERT (str "INVERT") 0;
    mk_info NEOC_OP_AND (str "AND") 0;
    mk_info NEOC_OP_OR (str "OR") 0;
    mk_info NEOC_OP_XOR (str "XOR") 0;
    mk_info NEOC_OP_EQUAL (str "EQUAL") 0;
    mk_info NEOC_OP_NOTEQUAL (str "NOTEQUAL") 0;
    mk_info NEOC_OP_SIGN (str "SIGN") 0;
    mk_info NEOC_OP_ABS (str "ABS") 0;
    mk_info NEOC_OP_NEGATE (str "NEGATE") 0;
    mk_info NEOC_OP_INC (str "INC") 0;
    mk_info NEOC_OP_DEC (str "DEC") 0;
    mk_info NEOC_OP_ADD (str "ADD") 0;
    mk_info NEOC_OP_SUB (str "SUB") 0;
    mk_info NEOC_OP_MUL (str "MUL") 0;
    mk_info NEOC_OP_DIV (str "DIV") 0;
    mk_info NEOC_OP_MOD (str "MOD") 0;
    mk_info NEOC_OP_POW (str "POW") 0;
    mk_info NEOC_OP_SQRT (str "SQRT") 0;
    mk_info NEOC_OP_MODMUL (str "MODMUL") 0;
    mk_info NEOC_OP_MODPOW (str "MODPOW") 0;
    mk_info NEOC_OP_SHL (str "SHL") 0;
    mk_info NEOC_OP_SHR (str "SHR") 0;
    mk_info NEOC_OP_NOT (str "NOT") 0;
    mk_info NEOC_OP_BOOLAND (str "BOOLAND") 0;
    mk_info NEOC_OP_BOOLOR (str "BOOLOR") 0;
    mk_info NEOC_OP_NZ (str "NZ") 0;
    mk_info NEOC_OP_NUMEQUAL (str "NUMEQUAL") 0;
    mk_info NEOC_OP_NUMNOTEQUAL (str "NUMNOTEQUAL") 0;
    mk_info NEOC_OP_LT (str "LT") 0;
    mk_info NEOC_OP_LE (str "LE") 0;
    mk_info NEOC_OP_GT (str "GT") 0;
    mk_info NEOC_OP_GE (str "GE") 0;
    mk_info NEOC_OP_MIN (str "MIN") 0;
    mk_info NEOC_OP_MAX (str "MAX") 0;
    mk_info NEOC_OP_WITHIN (str "WITHIN") 0;
    mk_info NEOC_OP_PACKMAP (str "PACKMAP") 0;
    mk_info NEOC_OP_PACKSTRUCT (str "PACKSTRUCT") 0;
    mk_info NEOC_OP_PACK (str "PACK") 0;
    mk_info NEOC_OP_UNPACK (str "UNPACK") 0;
    mk_info NEOC_OP_NEWARRAY0 (str "NEWARRAY0") 0;
    mk_info NEOC_OP_NEWARRAY (str "NEWARRAY") 0;
    mk_info NEOC_OP_NEWARRAY_T (str "NEWARRAY_T") 1;
    mk_info NEOC_OP_NEWSTRUCT0 (str "NEWSTRUCT0") 0;
    mk_info NEOC_OP_NEWSTRUCT (str "NEWSTRUCT") 0;
    mk_info NEOC_OP_NEWMAP (str "NEWMAP") 0;
    mk_info NEOC_OP_SIZE (str "SIZE") 0;
    mk_info NEOC_OP_HASKEY (str "HASKEY") 0;
    mk_info NEOC_OP_KEYS (str "KEYS") 0;
    mk_info NEOC_OP_VALUES (str "VALUES") 0;
    mk_info NEOC_OP_PICKITEM (str "PICKITEM") 0;
    mk_info NEOC_OP_APPEND (str "APPEND") 0;
    mk_info NEOC_OP_SETITEM (str "SETITEM") 0;
    mk_info NEOC_OP_REVERSEITEMS (str "REVERSEITEMS") 0;
    mk_info NEOC_OP_REMOVE (str "REMOVE") 0;
    mk_info NEOC_OP_CLEARITEMS (str "CLEARITEMS") 0;
    mk_info NEOC_OP_POPITEM (str "POPITEM") 0;
    mk_info NEOC_OP_ISNULL (str "ISNULL") 0;
    mk_info NEOC_OP_ISTYPE (str "ISTYPE") 1;
    mk_info NEOC_OP_CONVERT (str "CONVERT") 1 ].

(** The loop over the table. *)
Fixpoint find_opcode (opcode : Z) (t : list opcode_info_t) : option opcode_info_t :=
  match t with
  | [] => None
  | info :: t => if oi_opcode info =? opcode then Some info else find_opcode opcode t
  end.

Definition neoc_opcode_get_name (opcode : Z) : list byte :=
  match find_opcode opcode opcode_table with
  | Some info => oi_name info
  | None => str "UNKNOWN"
  end.

Definition neoc_opcode_get_operand_size (opcode : Z) : Z :=
  match find_opcode opcode opcode_table with
  | Some info => oi_operand_size info
  | None => 0
  end.

(** ** The table *)

Lemma table_codes_distinct : NoDup (map oi_opcode opcode_table).
Proof. apply (bool_decide_unpack _). by vm_compute. Qed.

Lemma table_names_distinct : NoDup (map oi_name opcode_table).
Proof. apply (bool_decide_unpack _). by vm_compute. Qed.

Lemma find_opcode_entry t info :
  NoDup (map oi_opcode t) -> In info t -> find_opcode (oi_opcode info) t = Some info.
Proof.
  induction t as [|x t IH]; [done|]. cbn [map find_opcode]. rewrite NoDup_cons. intros [Hx Ht] [->|Hin].
  - by rewrite Z.eqb_refl.
  - destruct (oi_opcode x =? oi_opcode info) eqn:E; bdestruct; [|by apply IH].
    exfalso. apply Hx. rewrite E. apply list_elem_of_In. by apply in_map.
Qed.

Lemma find_opcode_some op t info :
  find_opcode op t = Some info -> In info t /\ oi_opcode info = op.
Proof.
  induction t as [|x t IH]; [done|]. cbn [find_opcode]. destruct (_ =? op) eqn:E; bdestruct.
  - intros [= <-]. split; [by left|done].
  - intros [Hin ?]%IH. split; [by right|done].
Qed.
