(* ===== verification/NeoVM.v ===== *)
(** * The stack machine scripts are written for

    The specification the script builders are measured against: the instructions
    of the Neo virtual machine that the builders emit (opcodes of
    include/neoc/script/opcode.h), as a step function on a script and an
    evaluation stack.  [pushes bs v] says that running [bs] leaves [v] on top of
    whatever the stack held; a script is correct when it reaches its system call
    with the arguments the call expects.

    The virtual machine is not part of the library: this file models none of its
    code and is only used to state what a script does.  The operands are those of
    the opcode table (signed little-endian integers, length-prefixed data);
    [PACK] and [PACKMAP] take the count from the top and then collect entries in
    the order they are popped, the key of a map entry before its value. *)

From S2P Require Import Prelude Opcode.
From stdpp Require Export relations.
#[local] Open Scope Z_scope.
#[local] Set Warnings "-register-all".

Inductive item : Type :=
| Null
| Integer (z : Z)
| ByteString (bs : list byte)
| VArray (items : list item)
| VMap (entries : list (item * item)).

Definition config : Type := list byte * list item.

(** [n] operand bytes, little endian, and the script behind them. *)
Definition operand (n : nat) (script : list byte) : option (Z * list byte) :=
  if (n <=? length script)%nat then Some (le_val (take n script), drop n script)
  else None.

Definition push_int (n : nat) (script : list byte) (stack : list item) : option config :=
  '(v, rest) ← operand n script;
  Some (rest, Integer (swrap (8 * Z.of_nat n) v) :: stack).

Definition push_data (n : nat) (script : list byte) (stack : list item) : option config :=
  '(len, rest) ← operand n script;
  if len <=? zlen rest
  then Some (drop (Z.to_nat len) rest, ByteString (take (Z.to_nat len) rest) :: stack)
  else None.

(** Pairs of a popped key and the value under it. *)
Fixpoint pop_entries (n : nat) (stack : list item) : option (list (item * item) * list item) :=
  match n, stack with
  | O, _ => Some ([], stack)
  | S n, k :: v :: stack =>
      '(es, stack) ← pop_entries n stack; Some ((k, v) :: es, stack)
  | S _, _ => None
  end.

(** One instruction; [None] when the machine cannot go on by itself: at a system
    call, at an instruction outside the fragment, or at an ill-formed one. *)
Definition step (c : config) : option config :=
  let '(script, stack) := c in
  match script with
  | [] => None
  | op :: script =>
      let o := Z_of_byte op in
      if o =? NEOC_OP_PUSHINT8 then push_int 1 script stack
      else if o =? NEOC_OP_PUSHINT16 then push_int 2 script stack
      else if o =? NEOC_OP_PUSHINT32 then push_int 4 script stack
      else if o =? NEOC_OP_PUSHINT64 then push_int 8 script stack
      else if o =? NEOC_OP_PUSHNULL then Some (script, Null :: stack)
      else if o =? NEOC_OP_PUSHDATA1 then push_data 1 script stack
      else if o =? NEOC_OP_PUSHDATA2 then push_data 2 script stack
      else if o =? NEOC_OP_PUSHDATA4 then push_data 4 script stack
      else if o =? NEOC_OP_PUSHM1 then Some (script, Integer (-1) :: stack)
      else if (NEOC_OP_PUSH0 <=? o) && (o <=? NEOC_OP_PUSH16)
      then Some (script, Integer (o - NEOC_OP_PUSH0) :: stack)
      else if o =? NEOC_OP_PACK then
        match stack with
        | Integer n :: stack =>
            if (0 <=? n) && (n <=? zlen stack)
            then Some (script, VArray (take (Z.to_nat n) stack) :: drop (Z.to_nat n) stack)
            else None
        | _ => None
        end
      else if o =? NEOC_OP_PACKMAP then
        match stack with
        | Integer n :: stack =>
            if 0 <=? n then
              '(es, stack) ← pop_entries (Z.to_nat n) stack;
              Some (script, VMap es :: stack)
            else None
        | _ => None
        end
      else if o =? NEOC_OP_NEWARRAY0 then Some (script, VArray [] :: stack)
      else if o =? NEOC_OP_NEWMAP then Some (script, VMap [] :: stack)
      else None
  end.

Definition vm_step (c c' : config) : Prop := step c = Some c'.

(** [runs c c']: the machine gets from [c] to [c']. *)
Abbreviation runs := (rtc vm_step).

Definition pushes (bs : list byte) (v : item) : Prop :=
  forall rest stack, runs (bs ++ rest, stack) (rest, v :: stack).

(** [bs] pushes the items [vs], the last one on top. *)
Definition pushes_all (bs : list byte) (vs : list item) : Prop :=
  forall rest stack, runs (bs ++ rest, stack) (rest, rev vs ++ stack).

(** ** Composition *)

Lemma pushes_all_nil : pushes_all [] [].
Proof. intros rest stack. done. Qed.

Lemma pushes_all_one bs v : pushes bs v -> pushes_all bs [v].
Proof. intros H rest stack. apply H. Qed.

Lemma pushes_all_app b1 v1 b2 v2 :
  pushes_all b1 v1 -> pushes_all b2 v2 -> pushes_all (b1 ++ b2) (v1 ++ v2).
Proof.
  intros H1 H2 rest stack. rewrite <- app_assoc. etransitivity; [apply H1|].
  rewrite rev_app_distr, <- app_assoc. apply H2.
Qed.

Lemma pushes_all_concat {A} (f : A -> list byte) (g : A -> item) l :
  (forall x, In x l -> pushes (f x) (g x)) ->
  pushes_all (concat (map f l)) (map g l).
Proof.
  induction l as [|x l IH]; intros H; [apply pushes_all_nil|]. cbn [map concat].
  apply (pushes_all_app _ [g x]).
  - apply pushes_all_one, H. by left.
  - apply IH. intros y Hy. apply H. by right.
Qed.

(** A single instruction that pushes. *)
Lemma pushes_step bs v :
  (forall rest stack, step (bs ++ rest, stack) = Some (rest, v :: stack)) -> pushes bs v.
Proof. intros H rest stack. apply rtc_once, H. Qed.

Lemma operand_app n v rest :
  0 <= v < 256 ^ Z.of_nat n -> operand n (le_bytes n v ++ rest) = Some (v, rest).
Proof.
  intros Hv. unfold operand. rewrite length_app, length_le_bytes.
  replace (n <=? n + length rest)%nat with true by (symmetry; apply Nat.leb_le; lia).
  rewrite take_app_length', drop_app_length' by (by rewrite length_le_bytes).
  rewrite le_val_le_bytes_small by done. done.
Qed.

Lemma push_int_app n v rest stack :
  (0 < n)%nat -> - 2 ^ (8 * Z.of_nat n - 1) <= v < 2 ^ (8 * Z.of_nat n - 1) ->
  push_int n (le_bytes n v ++ rest) stack = Some (rest, Integer v :: stack).
Proof.
  intros Hn Hv. unfold push_int. rewrite <- (le_bytes_mod n v).
  assert (256 ^ Z.of_nat n = 2 ^ (8 * Z.of_nat n)) as E by (rewrite Z.pow_mul_r by lia; done).
  rewrite operand_app by (apply Z.mod_pos_bound; lia). cbn [mbind option_bind].
  rewrite E. fold (wrap (8 * Z.of_nat n) v).
  rewrite swrap_wrap, swrap_small by lia. done.
Qed.

Lemma push_data_app n bs rest stack :
  zlen bs < 256 ^ Z.of_nat n ->
  push_data n (le_bytes n (zlen bs) ++ bs ++ rest) stack = Some (rest, ByteString bs :: stack).
Proof.
  intros Hl. unfold push_data. pose proof (zlen_nonneg bs).
  rewrite operand_app by lia. cbn [mbind option_bind].
  replace (zlen bs <=? zlen (bs ++ rest)) with true by (symmetry; apply Z.leb_le; zlia).
  unfold zlen. rewrite Nat2Z.id, take_app_length, drop_app_length. done.
Qed.

(** Packing what was just pushed: the last item pushed comes first. *)
Lemma packs_array bs vs rest stack :
  pushes_all bs vs ->
  runs (bs ++ rest, stack) (rest, rev vs ++ stack) /\
  step (byte_of_Z NEOC_OP_PACK :: rest, Integer (zlen vs) :: rev vs ++ stack) =
  Some (rest, VArray (rev vs) :: stack).
Proof.
  intros H. split; [apply H|]. cbn [step]. unfold NEOC_OP_PACK.
  cbn -[zlen take drop Z.to_nat Z.leb]. pose proof (zlen_nonneg vs).
  replace ((0 <=? zlen vs) && (zlen vs <=? zlen (rev vs ++ stack))) with true.
  2: { symmetry. unfold zlen. rewrite length_app, length_rev.
       apply andb_true_iff. split; apply Z.leb_le; lia. }
  unfold zlen. rewrite Nat2Z.id, take_app_length', drop_app_length' by (symmetry; apply length_rev). done.
Qed.

Lemma pop_entries_app es stack :
  pop_entries (length es) (concat (map (fun e => [fst e; snd e]) es) ++ stack) = Some (es, stack).
Proof.
  induction es as [|[k v] es IH]; [done|]. cbn -[mbind]. rewrite IH. done.
Qed.
