(* ===== verification/ScriptBuilder.v ===== *)
(** * The script builder (src/script/script_builder.c, src/script/script_builder_full.c)

    A script builder is a growing binary writer; every operation appends the
    encoding of instructions.  [neoc_contract_parameter_t] is the tagged union of
    include/neoc/contract/contract_parameter.h.  The correctness statement of the
    builder is that what it appends, run on the machine of [NeoVM], pushes the
    value the caller asked for. *)

From S2P Require Import Prelude BinaryWriter Crypto Hashes Interop Opcode NeoVM.
#[local] Open Scope Z_scope.
#[local] Set Warnings "-register-all".

(** ** Data *)

(** Pointers to parameters are [option]s.  The value of an array is the pointer
    to its items and the count; the two parallel arrays of a map are one array of
    pairs, [None] when either of them is NULL.  A signature is 64 bytes in the
    same union the byte array's pointer and length live in. *)
Inductive neoc_contract_parameter_t : Type :=
| PARAM_ANY
| PARAM_VOID
| PARAM_BOOLEAN (boolean_value : bool)
| PARAM_INTEGER (integer_value : Z)
| PARAM_BYTE_ARRAY (data : option (list byte)) (len : Z)
| PARAM_STRING (string_value : option (list byte))
| PARAM_HASH160 (hash160 : neoc_hash160_t)
| PARAM_HASH256 (hash256 : neoc_hash256_t)
| PARAM_PUBLIC_KEY (public_key : list byte)
| PARAM_SIGNATURE (signature : list byte)
| PARAM_ARRAY (items : option (list (option neoc_contract_parameter_t))) (count : Z)
| PARAM_MAP (entries : option (list (option neoc_contract_parameter_t *
                                     option neoc_contract_parameter_t))) (count : Z)
| PARAM_INTEROP_INTERFACE
| PARAM_UNKNOWN (type : Z).

Definition NEOC_CALL_FLAGS_ALL : Z := 0x0F.

(** [sizeof(neoc_script_builder_t)] and the writer's first capacity. *)
Definition builder_struct_size : Z := 8.
Definition builder_capacity : Z := 256.

Section Operations.
Context `{Allocator} `{Interop}.

(** ** script_builder.c *)

Definition neoc_script_builder_build_verification_script (public_key : option (list byte))
    (public_key_len : Z) : res (list byte) :=
  match public_key with
  | None => Err NEOC_ERROR_INVALID_ARGUMENT
  | Some public_key =>
      if negb (public_key_len =? 33) && negb (public_key_len =? 65)
      then Err NEOC_ERROR_INVALID_ARGUMENT
      else
        let script_len := 1 + 1 + public_key_len + 1 + 4 in
        if negb (malloc_ok script_len) then Err NEOC_ERROR_MEMORY
        else
          match buf_slice public_key 0 public_key_len with
          | None => Fault
          | Some pk =>
              local_buffer (Z.to_nat script_len)
                (do! store 0 [byte_of_Z NEOC_OP_PUSHDATA1] in
                 do! store 1 [byte_of_Z public_key_len] in
                 do! store 2 pk in
                 do! store (2 + public_key_len) [byte_of_Z NEOC_OP_SYSCALL] in
                 store (3 + public_key_len)
                   (le_bytes 4 (service_hash NEOC_INTEROP_SYSTEM_CRYPTO_CHECKSIG)))
          end
  end.

Definition neoc_script_builder_create : res neoc_binary_writer_t :=
  if negb (neoc_malloc_ok builder_struct_size) then Err NEOC_ERROR_OUT_OF_MEMORY
  else neoc_binary_writer_create builder_capacity true.

Definition neoc_script_builder_emit (opcode : Z) : Wr unit :=
  neoc_binary_writer_write_byte (byte_of_Z opcode).

Definition neoc_script_builder_emit_with_data (opcode : Z) (data : option (list byte))
    (data_len : Z) : Wr unit :=
  do! neoc_binary_writer_write_byte (byte_of_Z opcode) in
  match data with
  | Some _ =>
      if 0 <? data_len then neoc_binary_writer_write_bytes data data_len else ret tt
  | None => ret tt
  end.

Definition neoc_script_builder_emit_syscall (service : Z) : Wr unit :=
  do! neoc_binary_writer_write_byte (byte_of_Z NEOC_OP_SYSCALL) in
  neoc_binary_writer_write_uint32 (service_hash service).

Definition neoc_script_builder_push_integer (value : Z) : Wr unit :=
  if value =? -1 then neoc_script_builder_emit NEOC_OP_PUSHM1
  else if (0 <=? value) && (value <=? 16) then
    neoc_script_builder_emit (NEOC_OP_PUSH0 + wrap 8 value)
  else if (-128 <=? value) && (value <=? 127) then
    do! neoc_script_builder_emit NEOC_OP_PUSHINT8 in
    neoc_binary_writer_write_byte (byte_of_Z value)
  else if (-32768 <=? value) && (value <=? 32767) then
    do! neoc_script_builder_emit NEOC_OP_PUSHINT16 in
    neoc_binary_writer_write_int16 (swrap 16 value)
  else if (-2147483648 <=? value) && (value <=? 2147483647) then
    do! neoc_script_builder_emit NEOC_OP_PUSHINT32 in
    neoc_binary_writer_write_int32 (swrap 32 value)
  else
    do! neoc_script_builder_emit NEOC_OP_PUSHINT64 in
    neoc_binary_writer_write_int64 value.

Definition neoc_script_builder_push_bool (value : bool) : Wr unit :=
  neoc_script_builder_emit (if value then NEOC_OP_PUSH1 else NEOC_OP_PUSH0).

Definition neoc_script_builder_push_data (data : option (list byte)) (data_len : Z)
  : Wr unit :=
  if (match data with None => true | Some _ => false end) && (0 <? data_len)
  then fail NEOC_ERROR_NULL_POINTER
  else if data_len =? 0 then neoc_script_builder_emit NEOC_OP_PUSH0
  else
    do! (if data_len <=? 0xFF then
           do! neoc_script_builder_emit NEOC_OP_PUSHDATA1 in
           neoc_binary_writer_write_byte (byte_of_Z data_len)
         else if data_len <=? 0xFFFF then
           do! neoc_script_builder_emit NEOC_OP_PUSHDATA2 in
           neoc_binary_writer_write_uint16 (wrap 16 data_len)
         else
           do! neoc_script_builder_emit NEOC_OP_PUSHDATA4 in
           neoc_binary_writer_write_uint32 (wrap 32 data_len)) in
    neoc_binary_writer_write_bytes data data_len.

Definition neoc_script_builder_push_string (str : option (list byte)) : Wr unit :=
  match str with
  | None => fail NEOC_ERROR_NULL_POINTER
  | Some s => neoc_script_builder_push_data (Some s) (zlen s)
  end.

(** The parameters themselves are not pushed: the caller has done that. *)
Definition neoc_script_builder_contract_call (script_hash : neoc_hash160_t)
    (method : list byte) (param_count call_flags : Z) : Wr unit :=
  do! (if param_count =? 0 then neoc_script_builder_emit NEOC_OP_NEWARRAY0
       else
         do! neoc_script_builder_push_integer (swrap 64 param_count) in
         neoc_script_builder_emit NEOC_OP_PACK) in
  do! neoc_script_builder_push_integer call_flags in
  do! neoc_script_builder_push_string (Some method) in
  let! hash_bytes := lift (local_buffer 20 (neoc_hash160_to_bytes script_hash 20)) in
  do! neoc_script_builder_push_data (Some hash_bytes) 20 in
  neoc_script_builder_emit_syscall NEOC_INTEROP_SYSTEM_CONTRACT_CALL.

Definition neoc_script_builder_to_array : Wr (list byte) := neoc_binary_writer_to_array.
Definition neoc_script_builder_get_size : Wr Z := neoc_binary_writer_get_position.
Definition neoc_script_builder_reset : Wr unit := neoc_binary_writer_reset.

(** Every function that returns a script creates a builder, emits into it, copies
    the bytes out and frees the builder. *)
Definition script_with (m : Wr unit) : res (list byte) :=
  let? builder := neoc_script_builder_create in
  fst ((do! m in neoc_script_builder_to_array) builder).

(** ** script_builder_full.c *)

Definition neoc_script_builder_push_null : Wr unit :=
  neoc_script_builder_emit NEOC_OP_PUSHNULL.

Definition neoc_script_builder_push_hash160 (hash : neoc_hash160_t) : Wr unit :=
  let! buffer := lift (local_buffer 20 (neoc_hash160_to_little_endian_bytes hash 20)) in
  neoc_script_builder_push_data (Some buffer) 20.

Definition neoc_script_builder_emit_push_int (value : Z) : Wr unit :=
  neoc_script_builder_push_integer value.

Definition push_byte_array (data : option (list byte)) (length : Z) : Wr unit :=
  if (match data with None => true | Some _ => false end) && (0 <? length)
  then fail NEOC_ERROR_INVALID_ARGUMENT
  else if length =? 0 then neoc_script_builder_emit NEOC_OP_PUSH0
  else neoc_script_builder_push_data data length.

Definition push_hash256 (hash : neoc_hash256_t) : Wr unit :=
  let! buffer := lift (local_buffer 32 (neoc_hash256_to_little_endian_bytes hash 32)) in
  neoc_script_builder_push_data (Some buffer) 32.

(** [push_byte_array] called with the pointer and the length that the first 16
    bytes of a signature spell: the bytes at such an address are not those of any
    object of the program. *)
Definition push_signature (signature : list byte) : Wr unit :=
  let pointer := le_val (take 8 signature) in
  let len := le_val (take 8 (drop 8 signature)) in
  if (pointer =? 0) && (0 <? len) then fail NEOC_ERROR_INVALID_ARGUMENT
  else if len =? 0 then neoc_script_builder_emit NEOC_OP_PUSH0
  else fault.

(** [for (i = 0; i < count; i++) push(items[i])] *)
Definition push_items {A} (push : A -> Wr unit) : list A -> Z -> Wr unit :=
  fix go items count :=
    if count <=? 0 then ret tt
    else
      match items with
      | [] => fault
      | x :: items => do! push x in go items (count - 1)
      end.

Definition neoc_script_builder_push_array_internal {A} (push : A -> Wr unit)
    (items : option (list A)) (count : Z) : Wr unit :=
  if count =? 0 then neoc_script_builder_emit NEOC_OP_NEWARRAY0
  else
    do! (match items with
         | None => fault
         | Some items => push_items push items count
         end) in
    do! neoc_script_builder_push_integer (swrap 64 count) in
    neoc_script_builder_emit NEOC_OP_PACK.

Definition neoc_script_builder_push_map_internal {A} (push : A -> Wr unit)
    (entries : option (list (A * A))) (count : Z) : Wr unit :=
  if count =? 0 then neoc_script_builder_emit NEOC_OP_NEWMAP
  else
    match entries with
    | None => fail NEOC_ERROR_INVALID_ARGUMENT
    | Some entries =>
        do! push_items (fun e => do! push (snd e) in push (fst e)) entries count in
        do! neoc_script_builder_push_integer (swrap 64 count) in
        neoc_script_builder_emit NEOC_OP_PACKMAP
    end.

(** The [switch] over the type of a parameter that is not NULL. *)
Fixpoint push_value (param : neoc_contract_parameter_t) : Wr unit :=
  let push_param p :=
    match p with None => neoc_script_builder_push_null | Some p => push_value p end in
  match param with
  | PARAM_ANY | PARAM_VOID => ret tt
  | PARAM_BOOLEAN v => neoc_script_builder_push_bool v
  | PARAM_INTEGER v => neoc_script_builder_push_integer v
  | PARAM_BYTE_ARRAY data len => push_byte_array data len
  | PARAM_SIGNATURE signature => push_signature signature
  | PARAM_PUBLIC_KEY data => neoc_script_builder_push_data (Some data) 33
  | PARAM_STRING s => neoc_script_builder_push_string (Some (default [] s))
  | PARAM_HASH160 h => neoc_script_builder_push_hash160 h
  | PARAM_HASH256 h => push_hash256 h
  | PARAM_ARRAY items count => neoc_script_builder_push_array_internal push_param items count
  | PARAM_MAP entries count => neoc_script_builder_push_map_internal push_param entries count
  | PARAM_INTEROP_INTERFACE => fail NEOC_ERROR_NOT_IMPLEMENTED
  | PARAM_UNKNOWN _ => fail NEOC_ERROR_INVALID_ARGUMENT
  end.

Definition neoc_script_builder_push_param (param : option neoc_contract_parameter_t)
  : Wr unit :=
  match param with
  | None => neoc_script_builder_push_null
  | Some param => push_value param
  end.

Definition neoc_script_builder_push_params
    (params : option (list (option neoc_contract_parameter_t))) (count : Z) : Wr unit :=
  if (0 <? count) && (match params with None => true | Some _ => false end)
  then fail NEOC_ERROR_INVALID_ARGUMENT
  else if count =? 0 then neoc_script_builder_emit NEOC_OP_NEWARRAY0
  else
    do! push_items neoc_script_builder_push_param (default [] params) count in
    do! neoc_script_builder_push_integer (swrap 64 count) in
    neoc_script_builder_emit NEOC_OP_PACK.

(** [public_keys] pairs each pointer with its entry of [public_key_lens]. *)
Definition neoc_script_builder_build_multisig_script (minimum_signatures : Z)
    (public_keys : option (list (option (list byte) * Z))) (public_key_count : Z)
  : res (list byte) :=
  match public_keys with
  | None => Err NEOC_ERROR_INVALID_ARGUMENT
  | Some public_keys =>
      if (public_key_count =? 0) || (minimum_signatures <=? 0) ||
         (public_key_count <? wrap 64 minimum_signatures)
      then Err NEOC_ERROR_INVALID_ARGUMENT
      else
        script_with
          (do! neoc_script_builder_push_integer minimum_signatures in
           do! push_items
                 (fun '(key, len) =>
                    if (match key with None => true | Some _ => false end) || (len =? 0)
                    then fail NEOC_ERROR_INVALID_ARGUMENT
                    else neoc_script_builder_push_data key len)
                 public_keys public_key_count in
           do! neoc_script_builder_push_integer (swrap 64 public_key_count) in
           neoc_script_builder_emit_syscall NEOC_INTEROP_SYSTEM_CRYPTO_CHECKMULTISIG)
  end.

Definition neoc_script_builder_emit_app_call (script_hash : neoc_hash160_t)
    (method : list byte) (param_count : Z) : Wr unit :=
  do! (if param_count =? 0 then neoc_script_builder_emit NEOC_OP_NEWARRAY0
       else
         do! neoc_script_builder_push_integer param_count in
         neoc_script_builder_emit NEOC_OP_PACK) in
  do! neoc_script_builder_push_integer NEOC_CALL_FLAGS_ALL in
  do! neoc_script_builder_push_string (Some method) in
  let! hash_le := lift (local_buffer 20 (neoc_hash160_to_little_endian_bytes script_hash 20)) in
  do! neoc_script_builder_push_data (Some hash_le) 20 in
  neoc_script_builder_emit_syscall NEOC_INTEROP_SYSTEM_CONTRACT_CALL.

End Operations.

(** ** The bytes of a push *)

Definition push_integer_bytes (v : Z) : list byte :=
  if v =? -1 then [byte_of_Z NEOC_OP_PUSHM1]
  else if (0 <=? v) && (v <=? 16) then [byte_of_Z (NEOC_OP_PUSH0 + v)]
  else if (-128 <=? v) && (v <=? 127) then byte_of_Z NEOC_OP_PUSHINT8 :: le_bytes 1 v
  else if (-32768 <=? v) && (v <=? 32767) then byte_of_Z NEOC_OP_PUSHINT16 :: le_bytes 2 v
  else if (-2147483648 <=? v) && (v <=? 2147483647)
  then byte_of_Z NEOC_OP_PUSHINT32 :: le_bytes 4 v
  else byte_of_Z NEOC_OP_PUSHINT64 :: le_bytes 8 v.

Definition push_data_bytes (d : list byte) : list byte :=
  if zlen d =? 0 then [byte_of_Z NEOC_OP_PUSH0]
  else if zlen d <=? 0xFF then byte_of_Z NEOC_OP_PUSHDATA1 :: le_bytes 1 (zlen d) ++ d
  else if zlen d <=? 0xFFFF then byte_of_Z NEOC_OP_PUSHDATA2 :: le_bytes 2 (zlen d) ++ d
  else byte_of_Z NEOC_OP_PUSHDATA4 :: le_bytes 4 (zlen d) ++ d.

(** What pushing data leaves on the stack: empty data becomes the integer 0. *)
Definition data_item (d : list byte) : item :=
  if zlen d =? 0 then Integer 0 else ByteString d.

Definition int64 (v : Z) : bool := (- 2 ^ 63 <=? v) && (v <? 2 ^ 63).

Section PushLemmas.
Context `{Allocator} `{Interop}.

Lemma emit_writes op : writes (neoc_script_builder_emit op) [byte_of_Z op].
Proof. apply write_byte_writes. Qed.

Lemma emit_then_writes op m bs :
  writes m bs -> writes (do! neoc_script_builder_emit op in m) (byte_of_Z op :: bs).
Proof. intros. apply (writes_bind _ [_]); [apply emit_writes|done]. Qed.

Lemma push_integer_writes v :
  int64 v = true -> writes (neoc_script_builder_push_integer v) (push_integer_bytes v).
Proof.
  unfold int64. intros Hv. bdestruct.
  unfold neoc_script_builder_push_integer, push_integer_bytes.
  destruct (v =? -1) eqn:E1; [apply emit_writes|].
  destruct ((0 <=? v) && (v <=? 16)) eqn:E2; bdestruct.
  { rewrite wrap_small by (eval_pows; lia). apply emit_writes. }
  destruct ((-128 <=? v) && (v <=? 127)) eqn:E3; bdestruct.
  { apply emit_then_writes. apply write_byte_writes. }
  destruct ((-32768 <=? v) && (v <=? 32767)) eqn:E4; bdestruct.
  { apply emit_then_writes. rewrite swrap_small by (eval_pows; lia). apply write_int16_writes. }
  destruct ((-2147483648 <=? v) && (v <=? 2147483647)) eqn:E5; bdestruct.
  { apply emit_then_writes. rewrite swrap_small by (eval_pows; lia). apply write_int32_writes. }
  apply emit_then_writes. apply write_int64_writes.
Qed.

Lemma push_data_writes d :
  writes (neoc_script_builder_push_data (Some d) (zlen d)) (push_data_bytes d).
Proof.
  unfold neoc_script_builder_push_data, push_data_bytes. cbn [andb].
  destruct (zlen d =? 0) eqn:E0; [apply emit_writes|]. bdestruct.
  destruct (zlen d <=? 0xFF) eqn:E1; bdestruct.
  { apply (writes_bind _ (_ :: le_bytes 1 _)); [|apply write_bytes_writes].
    apply emit_then_writes, write_byte_writes. }
  destruct (zlen d <=? 0xFFFF) eqn:E2; bdestruct.
  - apply (writes_bind _ (_ :: le_bytes 2 _)); [|apply write_bytes_writes].
    apply emit_then_writes. rewrite <- (le_bytes_mod 2). apply write_uint16_writes.
  - apply (writes_bind _ (_ :: le_bytes 4 _)); [|apply write_bytes_writes].
    apply emit_then_writes. rewrite <- (le_bytes_mod 4). apply write_uint32_writes.
Qed.

Lemma push_string_writes s :
  writes (neoc_script_builder_push_string (Some s)) (push_data_bytes s).
Proof. apply push_data_writes. Qed.

Definition syscall_bytes (service : Z) : list byte :=
  byte_of_Z NEOC_OP_SYSCALL :: le_bytes 4 (service_hash service).

Lemma emit_syscall_writes service :
  writes (neoc_script_builder_emit_syscall service) (syscall_bytes service).
Proof. apply (writes_bind _ [_]); [apply write_byte_writes|]. apply write_uint32_writes. Qed.

Lemma script_with_ok m bs :
  writes m bs -> zlen bs <= stream_max -> heap_serves (Z.max 1024 (2 * zlen bs)) ->
  script_with m = Ok bs.
Proof.
  intros Hm Hs Hh. unfold script_with, neoc_script_builder_create, neoc_malloc_ok.
  unfold builder_struct_size. cmps. rewrite (Hh 8) by lia. cbn [negb].
  apply (serialize_with_ok builder_capacity m bs); try done. unfold builder_capacity. lia.
Qed.

End PushLemmas.

#[export] Hint Resolve emit_writes emit_then_writes push_data_writes push_string_writes
  emit_syscall_writes writes_lift : neoc.

(** ** What the pushes evaluate to *)

(** Evaluate the opcode test of [step]. *)
Ltac step_op :=
  cbn [app step];
  match goal with
  | |- context [Z_of_byte (byte_of_Z ?o)] =>
      let v := eval vm_compute in (Z_of_byte (byte_of_Z o)) in
      change (Z_of_byte (byte_of_Z o)) with v
  end; cbn -[push_int push_data le_bytes zlen app].

Lemma push_integer_pushes v :
  int64 v = true -> pushes (push_integer_bytes v) (Integer v).
Proof.
  unfold int64, push_integer_bytes. intros Hv. bdestruct. apply pushes_step. intros rest stack.
  destruct (v =? -1) eqn:E1; bdestruct; [subst; step_op; done|].
  destruct ((0 <=? v) && (v <=? 16)) eqn:E2; bdestruct.
  { cbn [app step]. rewrite !Z_of_byte_small by (unfold NEOC_OP_PUSH0; lia).
    cbv delta [NEOC_OP_PUSHINT8 NEOC_OP_PUSHINT16 NEOC_OP_PUSHINT32 NEOC_OP_PUSHINT64
      NEOC_OP_PUSHNULL NEOC_OP_PUSHDATA1 NEOC_OP_PUSHDATA2 NEOC_OP_PUSHDATA4 NEOC_OP_PUSHM1
      NEOC_OP_PUSH0 NEOC_OP_PUSH16]. cmps.
    rewrite Z.add_simpl_l. done. }
  destruct ((-128 <=? v) && (v <=? 127)) eqn:E3; bdestruct.
  { step_op. apply (push_int_app 1); [lia|eval_pows; lia]. }
  destruct ((-32768 <=? v) && (v <=? 32767)) eqn:E4; bdestruct.
  { step_op. apply (push_int_app 2); [lia|eval_pows; lia]. }
  destruct ((-2147483648 <=? v) && (v <=? 2147483647)) eqn:E5; bdestruct; step_op.
  - apply (push_int_app 4); [lia|eval_pows; lia].
  - apply (push_int_app 8); [lia|eval_pows; lia].
Qed.

Lemma push_data_pushes d : zlen d < 2 ^ 32 -> pushes (push_data_bytes d) (data_item d).
Proof.
  unfold push_data_bytes, data_item. intros Hd. apply pushes_step. intros rest stack.
  destruct (zlen d =? 0) eqn:E0; [step_op; done|]. bdestruct.
  destruct (zlen d <=? 0xFF) eqn:E1; [|destruct (zlen d <=? 0xFFFF) eqn:E2]; bdestruct;
    step_op; rewrite <- app_assoc; apply push_data_app; eval_pows; lia.
Qed.

(** ** Parameters

    [pushable]: a parameter as the constructors of contract_parameter.c build it,
    of a type that has a value to push; [param_bytes] and [item_of] are the script
    and the stack item it stands for. *)

Section Param.
Variable P : neoc_contract_parameter_t -> Prop.
Definition on_option {A} (Q : A -> Prop) (o : option A) : Prop :=
  match o with Some a => Q a | None => True end.

Hypothesis P_leaf : forall p,
  (forall items n, p <> PARAM_ARRAY (Some items) n) ->
  (forall entries n, p <> PARAM_MAP (Some entries) n) -> P p.
Hypothesis P_array : forall items n,
  Forall (on_option P) items -> P (PARAM_ARRAY (Some items) n).
Hypothesis P_map : forall entries n,
  Forall (fun e => on_option P (fst e) /\ on_option P (snd e)) entries ->
  P (PARAM_MAP (Some entries) n).

(** Induction that reaches the parameters inside arrays and maps. *)
Fixpoint param_induction (p : neoc_contract_parameter_t) : P p.
Proof.
  assert (forall o, on_option P o) as Ho by (intros [q|]; [apply param_induction|exact I]).
  destruct p as [| | | | | | | | | |[items|] n|[entries|] n| |].
  all: try (apply P_leaf; discriminate).
  - apply P_array. induction items as [|[q|] items IH]; constructor; try exact IH; [|exact I].
    apply param_induction.
  - apply P_map. induction entries as [|[[k|] [v|]] entries IH]; constructor; try exact IH;
      split; try exact I; apply param_induction.
Defined.
End Param.

Definition optional {A B} (f : A -> B) (null : B) (o : option A) : B :=
  match o with Some a => f a | None => null end.

Fixpoint pushable (p : neoc_contract_parameter_t) : bool :=
  match p with
  | PARAM_BOOLEAN _ => true
  | PARAM_INTEGER v => int64 v
  | PARAM_BYTE_ARRAY (Some d) len => (len =? zlen d) && (len <? 2 ^ 32)
  | PARAM_BYTE_ARRAY None len => len =? 0
  | PARAM_STRING s => zlen (default [] s) <? 2 ^ 32
  | PARAM_HASH160 h => zlen (hash160_data h) =? 20
  | PARAM_HASH256 h => zlen (hash256_data h) =? 32
  | PARAM_PUBLIC_KEY d => zlen d =? 33
  | PARAM_ARRAY None count | PARAM_MAP None count => count =? 0
  | PARAM_ARRAY (Some items) count =>
      (count =? zlen items) && (count <? 2 ^ 63) && forallb (optional pushable true) items
  | PARAM_MAP (Some entries) count =>
      (count =? zlen entries) && (count <? 2 ^ 63) &&
      forallb (fun e => optional pushable true (fst e) && optional pushable true (snd e)) entries
  | _ => false
  end.

Definition null_bytes : list byte := [byte_of_Z NEOC_OP_PUSHNULL].

Definition packed (n : Z) (pack empty : Z) (bs : list byte) : list byte :=
  if n =? 0 then [byte_of_Z empty] else bs ++ push_integer_bytes n ++ [byte_of_Z pack].

Fixpoint param_bytes (p : neoc_contract_parameter_t) : list byte :=
  match p with
  | PARAM_BOOLEAN v => push_integer_bytes (if v then 1 else 0)
  | PARAM_INTEGER v => push_integer_bytes v
  | PARAM_BYTE_ARRAY d _ | PARAM_STRING d => push_data_bytes (default [] d)
  | PARAM_HASH160 h => push_data_bytes (reverse (hash160_data h))
  | PARAM_HASH256 h => push_data_bytes (reverse (hash256_data h))
  | PARAM_PUBLIC_KEY d => push_data_bytes d
  | PARAM_ARRAY None _ => [byte_of_Z NEOC_OP_NEWARRAY0]
  | PARAM_ARRAY (Some items) count =>
      packed count NEOC_OP_PACK NEOC_OP_NEWARRAY0
        (concat (map (optional param_bytes null_bytes) items))
  | PARAM_MAP None _ => [byte_of_Z NEOC_OP_NEWMAP]
  | PARAM_MAP (Some entries) count =>
      packed count NEOC_OP_PACKMAP NEOC_OP_NEWMAP
        (concat (map (fun e => optional param_bytes null_bytes (snd e) ++
                               optional param_bytes null_bytes (fst e)) entries))
  | _ => []
  end.

(** The value a parameter stands for: hashes are little endian, the machine has no booleans but
    1 and 0, an array and a map have their items in the order they were given. *)
Fixpoint value_of (p : neoc_contract_parameter_t) : item :=
  match p with
  | PARAM_BOOLEAN v => Integer (if v then 1 else 0)
  | PARAM_INTEGER v => Integer v
  | PARAM_BYTE_ARRAY d _ | PARAM_STRING d => ByteString (default [] d)
  | PARAM_HASH160 h => ByteString (reverse (hash160_data h))
  | PARAM_HASH256 h => ByteString (reverse (hash256_data h))
  | PARAM_PUBLIC_KEY d => ByteString d
  | PARAM_ARRAY None _ => VArray []
  | PARAM_ARRAY (Some items) _ => VArray (map (optional value_of Null) items)
  | PARAM_MAP None _ => VMap []
  | PARAM_MAP (Some entries) _ =>
      VMap (map (fun e => (optional value_of Null (fst e), optional value_of Null (snd e))) entries)
  | _ => Null
  end.

(** What the machine has in place of a value: arrays and maps, at every level, in the opposite
    order, since [PACK] and [PACKMAP] take the item pushed last first; no bytes are the integer 0,
    since they are pushed with [PUSH0]. *)
Fixpoint as_pushed (v : item) : item :=
  match v with
  | ByteString bs => data_item bs
  | VArray vs => VArray (rev (map as_pushed vs))
  | VMap es => VMap (rev (map (fun e => (as_pushed (fst e), as_pushed (snd e))) es))
  | v => v
  end.

Definition pushed_value (o : option neoc_contract_parameter_t) : item := as_pushed (optional value_of Null o).

(** No array or map of two items or more, and no empty bytes. *)
Fixpoint order_free (v : item) : bool :=
  match v with
  | ByteString bs => 0 <? zlen bs
  | VArray vs => (zlen vs <=? 1) && forallb order_free vs
  | VMap es => (zlen es <=? 1) && forallb (fun e => order_free (fst e) && order_free (snd e)) es
  | _ => true
  end.

Lemma as_pushed_order_free : forall v, order_free v = true -> as_pushed v = v.
Proof.
  fix F 1. intros [ |z|bs|vs|es] Hv; cbn [order_free as_pushed] in *; [done|done| | |].
  - unfold data_item. by replace (zlen bs =? 0) with false by lia.
  - apply andb_prop in Hv as [Hl Hv]. destruct vs as [|v [|v' vs]]; [done| |rewrite !zlen_cons in Hl; pose proof (zlen_nonneg vs); lia].
    cbn in *. rewrite F; [done|]. by apply andb_prop in Hv as [Hv _].
  - apply andb_prop in Hv as [Hl Hv]. destruct es as [|[k v] [|e es]]; [done| |rewrite !zlen_cons in Hl; pose proof (zlen_nonneg es); lia].
    cbn in *. apply andb_prop in Hv as [Hv _]. apply andb_prop in Hv as [Hk Hv]. by rewrite (F k Hk), (F v Hv).
Qed.

Section ParamWrites.
Context `{Allocator} `{Interop}.

Lemma push_data_writes_len d n :
  zlen d = n -> writes (neoc_script_builder_push_data (Some d) n) (push_data_bytes d).
Proof. intros <-. apply push_data_writes. Qed.

Lemma push_items_writes {A} (push : A -> Wr unit) enc l :
  (forall x, In x l -> writes (push x) (enc x)) ->
  writes (push_items push l (zlen l)) (concat (map enc l)).
Proof.
  induction l as [|x l IH]; intros Hf; [apply writes_ret|].
  cbn [map concat]. unfold push_items. rewrite zlen_cons. pose proof (zlen_nonneg l). cmps.
  fold (push_items push). replace (1 + zlen l - 1) with (zlen l) by lia.
  apply writes_bind; [apply Hf; by left|]. apply IH. intros y Hy. apply Hf. by right.
Qed.

(** Counting and packing what was pushed. *)
Lemma packed_writes pack empty m bs n :
  0 <= n < 2 ^ 63 -> writes m bs ->
  writes (if n =? 0 then neoc_script_builder_emit empty
          else do! m in
               do! neoc_script_builder_push_integer (swrap 64 n) in
               neoc_script_builder_emit pack)
         (packed n pack empty bs).
Proof.
  intros Hn Hm. unfold packed. destruct (n =? 0); [apply emit_writes|].
  apply writes_bind; [done|]. rewrite swrap_small by (eval_pows; lia).
  apply writes_bind; [|apply emit_writes].
  apply push_integer_writes. unfold int64. eval_pows. lia.
Qed.

Lemma push_byte_array_writes d :
  writes (push_byte_array (Some d) (zlen d)) (push_data_bytes d).
Proof.
  unfold push_byte_array. cbn [andb]. destruct (zlen d =? 0) eqn:E; [|apply push_data_writes].
  unfold push_data_bytes. rewrite E. apply emit_writes.
Qed.

Lemma push_hash160_writes h :
  zlen (hash160_data h) = 20 ->
  writes (neoc_script_builder_push_hash160 h) (push_data_bytes (reverse (hash160_data h))).
Proof.
  intros Hl. unfold neoc_script_builder_push_hash160. rewrite hash160_le_buffer by done.
  apply writes_lift, push_data_writes_len. rewrite zlen_reverse. done.
Qed.

Lemma push_hash256_writes h :
  zlen (hash256_data h) = 32 ->
  writes (push_hash256 h) (push_data_bytes (reverse (hash256_data h))).
Proof.
  intros Hl. unfold push_hash256. rewrite hash256_le_buffer by done.
  apply writes_lift, push_data_writes_len. rewrite zlen_reverse. done.
Qed.

Lemma optional_writes o :
  optional pushable true o = true ->
  on_option (fun p => pushable p = true -> writes (push_value p) (param_bytes p)) o ->
  writes (match o with None => neoc_script_builder_push_null | Some p => push_value p end)
         (optional param_bytes null_bytes o).
Proof. destruct o as [p|]; cbn; [auto|]. intros _ _. apply emit_writes. Qed.

Lemma push_value_writes p : pushable p = true -> writes (push_value p) (param_bytes p).
Proof.
  induction p as [p Ha Hm|items n IH|entries n IH] using param_induction; intros Hp.
  - destruct p as [| |v|v|[d|] len|s|h|h|d|d|[items|] n|[entries|] n| |];
      cbn [pushable] in Hp; try discriminate; bdestruct; cbn [push_value param_bytes].
    + destruct v; apply emit_writes.
    + by apply push_integer_writes.
    + subst len. apply push_byte_array_writes.
    + subst len. apply emit_writes.
    + apply push_string_writes.
    + by apply push_hash160_writes.
    + by apply push_hash256_writes.
    + by apply push_data_writes_len.
    + by destruct (Ha items n).
    + subst n. apply emit_writes.
    + by destruct (Hm entries n).
    + subst n. apply emit_writes.
  - cbn [pushable] in Hp. bdestruct. subst n. cbn [push_value param_bytes].
    apply packed_writes; [split; [apply zlen_nonneg|done]|]. apply push_items_writes.
    intros o Ho. rewrite forallb_forall in H2. rewrite Forall_forall in IH.
    apply optional_writes; [by apply H2|]. apply IH. by apply list_elem_of_In.
  - cbn [pushable] in Hp. bdestruct. subst n. cbn [push_value param_bytes].
    pose proof (zlen_nonneg entries).
    apply (packed_writes NEOC_OP_PACKMAP NEOC_OP_NEWMAP
             (push_items _ entries (zlen entries))); [done|]. apply push_items_writes.
    intros e He. rewrite forallb_forall in H2. specialize (H2 e He). bdestruct.
    rewrite Forall_forall in IH. destruct (IH e) as [Hk Hv]; [by apply list_elem_of_In|].
    apply writes_bind; by apply optional_writes.
Qed.

Lemma push_param_writes o :
  optional pushable true o = true ->
  writes (neoc_script_builder_push_param o) (optional param_bytes null_bytes o).
Proof.
  intros Ho. apply optional_writes; [done|]. destruct o; [|exact I].
  cbn. apply push_value_writes.
Qed.

End ParamWrites.

(** ** What parameters evaluate to *)

Lemma null_pushes : pushes null_bytes Null.
Proof. apply pushes_step. intros. unfold null_bytes. step_op. done. Qed.

Lemma int64_zlen {A} (l : list A) : zlen l < 2 ^ 63 -> int64 (zlen l) = true.
Proof. intros. unfold int64. pose proof (zlen_nonneg l). apply andb_true_iff. lia. Qed.

Lemma packed_array_pushes bs vs :
  zlen vs < 2 ^ 63 -> pushes_all bs vs ->
  pushes (packed (zlen vs) NEOC_OP_PACK NEOC_OP_NEWARRAY0 bs) (VArray (rev vs)).
Proof.
  intros Hl Hb rest stack. unfold packed. destruct (zlen vs =? 0) eqn:E; bdestruct.
  { rewrite (zlen_zero _ E). apply rtc_once. unfold vm_step. step_op. done. }
  rewrite <- !app_assoc. etransitivity; [apply Hb|].
  etransitivity; [apply push_integer_pushes; by apply int64_zlen|].
  apply rtc_once. by apply (packs_array bs).
Qed.

Lemma packed_map_pushes bs es :
  zlen es < 2 ^ 63 ->
  pushes_all bs (concat (map (fun e => [snd e; fst e]) es)) ->
  pushes (packed (zlen es) NEOC_OP_PACKMAP NEOC_OP_NEWMAP bs) (VMap (rev es)).
Proof.
  intros Hl Hb rest stack. unfold packed. destruct (zlen es =? 0) eqn:E; bdestruct.
  { rewrite (zlen_zero _ E). apply rtc_once. unfold vm_step. step_op. done. }
  rewrite <- !app_assoc. etransitivity; [apply Hb|].
  etransitivity; [apply push_integer_pushes; by apply int64_zlen|].
  assert (rev (concat (map (fun e => [snd e; fst e]) es)) =
          concat (map (fun e => [fst e; snd e]) (rev es))) as ->.
  { clear. induction es as [|[k v] es IH]; [done|]. cbn -[rev map concat].
    cbn [map concat]. rewrite rev_app_distr, IH. cbn [rev].
    rewrite map_app, concat_app. done. }
  apply rtc_once. unfold vm_step. step_op. pose proof (zlen_nonneg es).
  replace (0 <=? zlen es) with true by (symmetry; apply Z.leb_le; lia).
  unfold zlen. rewrite Nat2Z.id, <- length_rev, pop_entries_app. done.
Qed.

Lemma optional_pushes o :
  optional pushable true o = true ->
  on_option (fun p => pushable p = true -> pushes (param_bytes p) (as_pushed (value_of p))) o ->
  pushes (optional param_bytes null_bytes o) (pushed_value o).
Proof. destruct o as [p|]; cbn; [auto|]. intros _ _. apply null_pushes. Qed.

Lemma data_item_long d : 0 < zlen d -> data_item d = ByteString d.
Proof. intros. unfold data_item. cmps. done. Qed.

Lemma data_pushes_long d :
  0 < zlen d < 2 ^ 32 -> pushes (push_data_bytes d) (ByteString d).
Proof. intros. rewrite <- data_item_long by lia. apply push_data_pushes. lia. Qed.

Lemma param_pushes p : pushable p = true -> pushes (param_bytes p) (as_pushed (value_of p)).
Proof.
  induction p as [p Ha Hm|items n IH|entries n IH] using param_induction; intros Hp.
  - destruct p as [| |v|v|[d|] len|s|h|h|d|d|[items|] n|[entries|] n| |];
      cbn [pushable] in Hp; try discriminate; bdestruct; cbn [param_bytes value_of as_pushed default map].
    + by destruct v; apply push_integer_pushes.
    + by apply push_integer_pushes.
    + apply push_data_pushes. cbn. congruence.
    + by apply push_data_pushes.
    + by apply push_data_pushes.
    + apply push_data_pushes. rewrite zlen_reverse. lia.
    + apply push_data_pushes. rewrite zlen_reverse. lia.
    + apply push_data_pushes. lia.
    + by destruct (Ha items n).
    + apply (packed_array_pushes [] []); [done|apply pushes_all_nil].
    + by destruct (Hm entries n).
    + apply (packed_map_pushes [] []); [done|apply pushes_all_nil].
  - cbn [pushable] in Hp. bdestruct. subst n. cbn [param_bytes value_of as_pushed default].
    rewrite map_map. fold pushed_value. rewrite <- (zlen_map pushed_value) in *.
    apply packed_array_pushes; [done|]. apply pushes_all_concat. intros o Ho.
    rewrite forallb_forall in H0. rewrite Forall_forall in IH.
    apply optional_pushes; [by apply H0|]. apply IH. by apply list_elem_of_In.
  - cbn [pushable] in Hp. bdestruct. subst n. cbn [param_bytes value_of as_pushed default].
    rewrite map_map. cbn [fst snd].
    set (f := fun e : option neoc_contract_parameter_t * option neoc_contract_parameter_t =>
                (pushed_value (fst e), pushed_value (snd e))).
    change (fun x => (as_pushed (optional value_of Null (fst x)), as_pushed (optional value_of Null (snd x)))) with f.
    rewrite <- (zlen_map f) in *.
    apply packed_map_pushes; [done|]. rewrite map_map.
    clear H1. induction entries as [|e entries IHe]; [apply pushes_all_nil|].
    cbn [forallb] in H0. bdestruct. inversion IH as [|? ? [Hk Hv] ? E]; subst.
    cbn [map concat]. apply pushes_all_app.
    + apply (pushes_all_app _ [_] _ [_]); apply pushes_all_one; by apply optional_pushes.
    + by apply IHe.
Qed.

Lemma param_ptr_pushes o :
  optional pushable true o = true ->
  pushes (optional param_bytes null_bytes o) (pushed_value o).
Proof.
  intros Ho. apply optional_pushes; [done|]. destruct o; [|exact I]. cbn. apply param_pushes.
Qed.

(** ** Contract calls *)

(** The script of a call: the parameters, packed; the flags; the method; the
    bytes of the contract hash; the system call. *)
Definition args_bytes (ps : list (option neoc_contract_parameter_t)) : list byte :=
  concat (map (optional param_bytes null_bytes) ps).

Definition call_bytes `{Interop} (hash method : list byte) (flags : Z)
    (ps : list (option neoc_contract_parameter_t)) : list byte :=
  packed (zlen ps) NEOC_OP_PACK NEOC_OP_NEWARRAY0 (args_bytes ps) ++
  push_integer_bytes flags ++ push_data_bytes method ++ push_data_bytes hash ++
  syscall_bytes NEOC_INTEROP_SYSTEM_CONTRACT_CALL.

Definition call_stack (hash method : list byte) (flags : Z)
    (ps : list (option neoc_contract_parameter_t)) : list item :=
  [ByteString hash; data_item method; Integer flags;
   VArray (rev (map pushed_value ps))].

Lemma push_integer_size v : zlen (push_integer_bytes v) <= 9.
Proof.
  unfold push_integer_bytes.
  repeat match goal with |- context [if ?b then _ else _] => destruct b end;
    rewrite ?zlen_cons; unfold zlen; rewrite ?length_le_bytes; cbn; lia.
Qed.

Lemma push_data_size d : zlen d < zlen (push_data_bytes d) <= 5 + zlen d.
Proof.
  unfold push_data_bytes. pose proof (zlen_nonneg d). destruct (zlen d =? 0) eqn:E; bdestruct.
  - rewrite E. done.
  - repeat match goal with |- context [if ?b then _ else _] => destruct b end;
      rewrite ?zlen_cons, ?zlen_app; unfold zlen; rewrite ?length_le_bytes; lia.
Qed.

Lemma packed_size n pack empty bs : zlen (packed n pack empty bs) <= zlen bs + 10.
Proof.
  unfold packed. pose proof (zlen_nonneg bs). pose proof (push_integer_size n).
  destruct (n =? 0); rewrite ?zlen_app, ?zlen_cons; zlen_nils; lia.
Qed.

Lemma call_bytes_size `{Interop} hash method flags ps :
  zlen (call_bytes hash method flags ps) <=
  zlen (args_bytes ps) + zlen method + zlen hash + 34.
Proof.
  unfold call_bytes, syscall_bytes. rewrite !zlen_app, zlen_cons.
  pose proof (packed_size (zlen ps) NEOC_OP_PACK NEOC_OP_NEWARRAY0 (args_bytes ps)).
  pose proof (push_integer_size flags). pose proof (push_data_size method).
  pose proof (push_data_size hash).
  change (zlen (le_bytes 4 _)) with 4. lia.
Qed.

Section Calls.
Context `{Allocator} `{Interop}.

Lemma args_writes ps :
  forallb (optional pushable true) ps = true ->
  writes (for_each neoc_script_builder_push_param ps) (args_bytes ps).
Proof.
  intros Hp. apply writes_for_each. intros o Ho. rewrite forallb_forall in Hp.
  apply push_param_writes. by apply Hp.
Qed.

Lemma args_packed_pushes ps :
  forallb (optional pushable true) ps = true -> zlen ps < 2 ^ 63 ->
  pushes (packed (zlen ps) NEOC_OP_PACK NEOC_OP_NEWARRAY0 (args_bytes ps))
         (VArray (rev (map pushed_value ps))).
Proof.
  intros Hp Hl. rewrite <- (zlen_map pushed_value) in *.
  apply packed_array_pushes; [done|]. apply pushes_all_concat. intros o Ho.
  rewrite forallb_forall in Hp. apply param_ptr_pushes. by apply Hp.
Qed.

(** Parameters pushed one by one and packed afterwards. *)
Lemma args_then_pack_writes ps (n : Z) (k : unit -> Wr unit) bs :
  forallb (optional pushable true) ps = true -> zlen ps < 2 ^ 63 -> n = zlen ps ->
  writes (k tt) bs ->
  writes
    (do! for_each neoc_script_builder_push_param ps in
     bind (if n =? 0 then neoc_script_builder_emit NEOC_OP_NEWARRAY0
           else do! neoc_script_builder_push_integer n in
                neoc_script_builder_emit NEOC_OP_PACK) k)
    (packed n NEOC_OP_PACK NEOC_OP_NEWARRAY0 (args_bytes ps) ++ bs).
Proof.
  intros Hp Hl -> Hk. unfold packed. destruct (zlen ps =? 0) eqn:E; bdestruct.
  - rewrite (zlen_zero _ E). apply (writes_bind _ []); [apply writes_ret|].
    apply (writes_bind _ [_]); [apply emit_writes|done].
  - rewrite <- app_assoc. apply writes_bind; [by apply args_writes|].
    apply writes_bind; [|done]. apply writes_bind; [|apply emit_writes].
    apply push_integer_writes. by apply int64_zlen.
Qed.

Lemma call_tail_writes flags method hash :
  int64 flags = true -> zlen hash = 20 ->
  writes (do! neoc_script_builder_push_integer flags in
          do! neoc_script_builder_push_string (Some method) in
          let! hb := lift (Ok hash) in
          do! neoc_script_builder_push_data (Some hb) 20 in
          neoc_script_builder_emit_syscall NEOC_INTEROP_SYSTEM_CONTRACT_CALL)
    (push_integer_bytes flags ++ push_data_bytes method ++ push_data_bytes hash ++
     syscall_bytes NEOC_INTEROP_SYSTEM_CONTRACT_CALL).
Proof.
  intros Hf Hh. apply writes_bind; [by apply push_integer_writes|].
  apply writes_bind; [apply push_string_writes|]. apply writes_lift.
  apply writes_bind; [by apply push_data_writes_len|]. apply emit_syscall_writes.
Qed.

Lemma app_call_writes h method ps :
  forallb (optional pushable true) ps = true -> zlen ps < 256 -> hash160_ok h ->
  writes (do! for_each neoc_script_builder_push_param ps in
          neoc_script_builder_emit_app_call h method (zlen ps))
    (call_bytes (reverse (hash160_data h)) method NEOC_CALL_FLAGS_ALL ps).
Proof.
  intros Hp Hl Hh. unfold neoc_script_builder_emit_app_call, call_bytes.
  apply args_then_pack_writes; [done|eval_pows; lia|done|].
  rewrite hash160_le_buffer by done. apply call_tail_writes; [done|].
  rewrite zlen_reverse. done.
Qed.

Lemma contract_call_writes h method flags ps :
  forallb (optional pushable true) ps = true -> zlen ps < 2 ^ 63 -> hash160_ok h ->
  int64 flags = true ->
  writes (do! for_each neoc_script_builder_push_param ps in
          neoc_script_builder_contract_call h method (zlen ps) flags)
    (call_bytes (hash160_data h) method flags ps).
Proof.
  intros Hp Hl Hh Hf. unfold neoc_script_builder_contract_call, call_bytes.
  pose proof (zlen_nonneg ps). rewrite swrap_small by (eval_pows; lia).
  apply args_then_pack_writes; [done..|].
  rewrite hash160_be_buffer by done. by apply call_tail_writes.
Qed.

Lemma call_bytes_runs hash method flags ps :
  forallb (optional pushable true) ps = true -> zlen ps < 2 ^ 63 ->
  int64 flags = true -> zlen method < 2 ^ 32 -> zlen hash = 20 ->
  runs (call_bytes hash method flags ps, [])
       (syscall_bytes NEOC_INTEROP_SYSTEM_CONTRACT_CALL, call_stack hash method flags ps).
Proof.
  intros Hp Hl Hf Hm Hh. unfold call_bytes, call_stack.
  etransitivity; [by apply args_packed_pushes|].
  etransitivity; [by apply push_integer_pushes|].
  etransitivity; [by apply push_data_pushes|].
  etransitivity; [apply data_pushes_long; lia|]. done.
Qed.

End Calls.

(** ** Claims *)

(** C4.  What [neoc_script_builder_push_param] emits for a parameter, run on the stack machine,
    leaves one item: the value of the parameter with its arrays and maps, at every level, in
    reverse order and its empty byte arrays and strings as the integer 0 ([as_pushed]); where no
    array or map has two items and no bytes are empty, it is the value itself.  Integers keep
    their value over the whole [int64_t] range, hashes are little endian, booleans are 1 and 0,
    NULL pointers are null, arrays and maps nest.  Parameters of type ANY and VOID (nothing is
    emitted), SIGNATURE (the bytes are taken for a pointer), INTEROP_INTERFACE and unknown types
    (refused) are not [pushable]. *)
Theorem push_param_evaluates `{Allocator} `{Interop} (p : option neoc_contract_parameter_t) :
  optional pushable true p = true ->
  zlen (optional param_bytes null_bytes p) <= stream_max ->
  heap_serves (Z.max 1024 (2 * zlen (optional param_bytes null_bytes p))) ->
  exists script,
    script_with (neoc_script_builder_push_param p) = Ok script /\
    runs (script, []) ([], [as_pushed (optional value_of Null p)]) /\
    (order_free (optional value_of Null p) = true ->
     as_pushed (optional value_of Null p) = optional value_of Null p).
Proof.
  intros Hp Hs Hh. exists (optional param_bytes null_bytes p). split; [|split].
  - apply script_with_ok; [by apply push_param_writes|done..].
  - pose proof (param_ptr_pushes p Hp [] []) as Hr. rewrite app_nil_r in Hr. exact Hr.
  - apply as_pushed_order_free.
Qed.

(** C11.  Contract calls: after the caller has pushed the parameters one by one, both call
    emitters reach [System.Contract.Call] with the four arguments the service takes from the
    stack: the contract hash on top, the method, the call flags and the array of the
    parameters.  The array has them in the reverse of the order they were pushed in, and each
    one as [push_param_evaluates] has it.  [neoc_script_builder_emit_app_call] pushes the hash
    little endian; [neoc_script_builder_contract_call] pushes the bytes in the order of the
    struct, big endian, although its comment says little endian. *)
Theorem contract_call_reaches_syscall `{Allocator} `{Interop} (h : neoc_hash160_t)
    (method : list byte) (flags : Z) (ps : list (option neoc_contract_parameter_t)) :
  forallb (optional pushable true) ps = true -> zlen ps < 256 ->
  hash160_ok h -> zlen method < 2 ^ 32 -> int64 flags = true ->
  zlen (args_bytes ps) + zlen method <= 2 ^ 40 ->
  heap_serves (2 * (zlen (args_bytes ps) + zlen method) + 1024) ->
  (exists script,
     script_with (do! for_each neoc_script_builder_push_param ps in
                  neoc_script_builder_contract_call h method (zlen ps) flags) = Ok script /\
     runs (script, []) (syscall_bytes NEOC_INTEROP_SYSTEM_CONTRACT_CALL,
                        call_stack (hash160_data h) method flags ps)) /\
  (exists script,
     script_with (do! for_each neoc_script_builder_push_param ps in
                  neoc_script_builder_emit_app_call h method (zlen ps)) = Ok script /\
     runs (script, []) (syscall_bytes NEOC_INTEROP_SYSTEM_CONTRACT_CALL,
                        call_stack (reverse (hash160_data h)) method NEOC_CALL_FLAGS_ALL ps)).
Proof.
  intros Hp Hl Hh Hm Hf Hs Hheap.
  assert (forall hash flags, zlen hash = 20 ->
    zlen (call_bytes hash method flags ps) <= stream_max /\
    heap_serves (Z.max 1024 (2 * zlen (call_bytes hash method flags ps)))) as Hsize.
  { intros hash fl Eh. pose proof (call_bytes_size hash method fl ps).
    pose proof (zlen_nonneg (args_bytes ps)). pose proof (zlen_nonneg method).
    unfold stream_max. split; [lia|]. apply (heap_serves_mono _ _ Hheap). lia. }
  assert (zlen (reverse (hash160_data h)) = 20) as Hr by (rewrite zlen_reverse; done).
  split; eexists; (split; [apply script_with_ok|]).
  1-3: apply contract_call_writes || apply Hsize; done || (eval_pows; lia).
  1: apply call_bytes_runs; done || (eval_pows; lia).
  1-3: apply app_call_writes || apply Hsize; done.
  apply call_bytes_runs; done || (eval_pows; lia).
Qed.

(** The services as the table gives them after initialisation. *)
Definition sample_interop : Interop :=
  @interop_static toy_crypto toy_crypto_works interop_start static_start.

Definition sample_params : list (option neoc_contract_parameter_t) :=
  [ Some (PARAM_INTEGER (-300));
    Some (PARAM_STRING (Some (str "neo")));
    None;
    Some (PARAM_ARRAY (Some [Some (PARAM_BOOLEAN true); Some (PARAM_HASH160 sample160)]) 2);
    Some (PARAM_MAP (Some [(Some (PARAM_INTEGER 1), Some (PARAM_BYTE_ARRAY (Some []) 0))]) 1) ].

Section Witnesses.
#[local] Existing Instance mib_heap.
#[local] Existing Instance sample_interop.

Lemma push_param_evaluates_witness :
  exists script,
    script_with (neoc_script_builder_push_param (Some (PARAM_ARRAY (Some sample_params) 5)))
      = Ok script /\
    runs (script, [])
      ([], [VArray [VMap [(Integer 1, Integer 0)];
                    VArray [ByteString (reverse (hash160_data sample160)); Integer 1];
                    Null; ByteString (str "neo"); Integer (-300)]]).
Proof.
  destruct (push_param_evaluates (Some (PARAM_ARRAY (Some sample_params) 5))) as (script & E & Hr & _).
  - vm_compute. reflexivity.
  - vm_compute. discriminate.
  - apply mib_heap_serves. vm_compute. discriminate.
  - exists script. split; [exact E|exact Hr].
Defined.

Lemma contract_call_reaches_syscall_witness :
  exists script,
    script_with (do! for_each neoc_script_builder_push_param sample_params in
                 neoc_script_builder_emit_app_call sample160 (str "transfer") 5) = Ok script /\
    runs (script, [])
      (syscall_bytes NEOC_INTEROP_SYSTEM_CONTRACT_CALL,
       call_stack (reverse (hash160_data sample160)) (str "transfer") 15 sample_params).
Proof.
  apply (contract_call_reaches_syscall sample160 (str "transfer") 0 sample_params).
  - vm_compute. reflexivity.
  - vm_compute. reflexivity.
  - vm_compute. reflexivity.
  - vm_compute. reflexivity.
  - vm_compute. reflexivity.
  - vm_compute. discriminate.
  - apply mib_heap_serves. vm_compute. discriminate.
Defined.

End Witnesses.
