(* ===== verification/SmartContract.v ===== *)
(** * Contract parameters and invocations (src/contract/contract_parameter.c, smart_contract.c)

    The constructors and the byte form of contract parameters, and the invocations whose scripts
    are built from them.  The name of a parameter is kept apart from its value: only
    [neoc_contract_param_set_name] touches it. *)

From S2P Require Import Prelude BinaryWriter Hashes Interop Opcode NeoVM ScriptBuilder.
#[local] Open Scope Z_scope.

(** [sizeof] of the structs *)
Definition contract_parameter_struct_size : Z := 80.
Definition smart_contract_struct_size : Z := 56.
Definition contract_invocation_struct_size : Z := 48.

(** ** Parameters *)

Section Operations.
Context `{Allocator} `{Interop}.

(** [calloc] of the struct in front of filling in its fields. *)
Definition alloc_param {A} (r : res A) : res A :=
  if negb (malloc_ok contract_parameter_struct_size) then Err NEOC_ERROR_MEMORY else r.

Definition neoc_contract_param_create_any : res neoc_contract_parameter_t := alloc_param (Ok PARAM_ANY).

Definition neoc_contract_param_create_boolean (value : bool) : res neoc_contract_parameter_t :=
  alloc_param (Ok (PARAM_BOOLEAN value)).

Definition neoc_contract_param_create_integer (value : Z) : res neoc_contract_parameter_t :=
  alloc_param (Ok (PARAM_INTEGER value)).

Definition neoc_contract_param_create_byte_array (data : option (list byte)) (len : Z) : res neoc_contract_parameter_t :=
  alloc_param
    match data with
    | Some data =>
        if 0 <? len then
          if negb (malloc_ok len) then Err NEOC_ERROR_MEMORY
          else let? copy := memcpy_from data len in Ok (PARAM_BYTE_ARRAY (Some copy) len)
        else Ok (PARAM_BYTE_ARRAY None 0)
    | None => Ok (PARAM_BYTE_ARRAY None 0)
    end.

Definition neoc_contract_param_create_string (value : option (list byte)) : res neoc_contract_parameter_t :=
  alloc_param
    match value with
    | Some value => let? copy := neoc_strdup value NEOC_ERROR_MEMORY in Ok (PARAM_STRING (Some copy))
    | None => Ok (PARAM_STRING None)
    end.

Definition neoc_contract_param_create_hash160 (hash : option neoc_hash160_t) : res neoc_contract_parameter_t :=
  match hash with
  | None => Err NEOC_ERROR_INVALID_ARGUMENT
  | Some hash => alloc_param (Ok (PARAM_HASH160 hash))
  end.

Definition neoc_contract_param_create_hash256 (hash : option neoc_hash256_t) : res neoc_contract_parameter_t :=
  match hash with
  | None => Err NEOC_ERROR_INVALID_ARGUMENT
  | Some hash => alloc_param (Ok (PARAM_HASH256 hash))
  end.

Definition neoc_contract_param_create_public_key (public_key : option (list byte)) : res neoc_contract_parameter_t :=
  match public_key with
  | None => Err NEOC_ERROR_INVALID_ARGUMENT
  | Some public_key => alloc_param (let? copy := memcpy_from public_key 33 in Ok (PARAM_PUBLIC_KEY copy))
  end.

Definition neoc_contract_param_create_signature (signature : option (list byte)) : res neoc_contract_parameter_t :=
  match signature with
  | None => Err NEOC_ERROR_INVALID_ARGUMENT
  | Some signature => alloc_param (let? copy := memcpy_from signature 64 in Ok (PARAM_SIGNATURE copy))
  end.

(** The array of pointers is copied, not what they point to. *)
Definition copy_pointers {A} (items : list A) (count : Z) : res (list A) :=
  if negb (malloc_ok (wrap 64 (count * 8))) then Err NEOC_ERROR_MEMORY
  else match buf_slice items 0 count with Some copy => Ok copy | None => Fault end.

Definition neoc_contract_param_create_array (items : option (list (option neoc_contract_parameter_t))) (count : Z)
  : res neoc_contract_parameter_t :=
  alloc_param
    match items with
    | Some items =>
        if 0 <? count then let? copy := copy_pointers items count in Ok (PARAM_ARRAY (Some copy) count)
        else Ok (PARAM_ARRAY None 0)
    | None => Ok (PARAM_ARRAY None 0)
    end.

Definition neoc_contract_param_create_map (keys values : option (list (option neoc_contract_parameter_t))) (count : Z)
  : res neoc_contract_parameter_t :=
  match keys, values with
  | Some keys, Some values =>
      alloc_param
        (if 0 <? count then
           let? keys := copy_pointers keys count in
           let? values := copy_pointers values count in
           Ok (PARAM_MAP (Some (zip keys values)) count)
         else Ok (PARAM_MAP None 0))
  | None, None => alloc_param (Ok (PARAM_MAP None 0))
  | _, _ => Err NEOC_ERROR_INVALID_ARGUMENT
  end.

(** The state is the name field. *)
Definition neoc_contract_param_set_name (name : option (list byte)) : M (option (list byte)) unit := fun _ =>
  match name with
  | None => (Ok tt, None)
  | Some name =>
      match neoc_strdup name NEOC_ERROR_MEMORY with
      | Ok copy => (Ok tt, Some copy)
      | Err e => (Err e, None)
      | Fault => (Fault, None)
      end
  end.

(** The type field. *)
Definition param_type (p : neoc_contract_parameter_t) : Z :=
  match p with
  | PARAM_ANY => 0x00
  | PARAM_BOOLEAN _ => 0x10
  | PARAM_INTEGER _ => 0x11
  | PARAM_BYTE_ARRAY _ _ => 0x12
  | PARAM_STRING _ => 0x13
  | PARAM_HASH160 _ => 0x14
  | PARAM_HASH256 _ => 0x15
  | PARAM_PUBLIC_KEY _ => 0x16
  | PARAM_SIGNATURE _ => 0x17
  | PARAM_ARRAY _ _ => 0x20
  | PARAM_MAP _ _ => 0x22
  | PARAM_INTEROP_INTERFACE => 0x30
  | PARAM_VOID => 0xFF
  | PARAM_UNKNOWN type => type
  end.

Definition neoc_contract_param_type_to_string (type : Z) : list byte :=
  if type =? 0x00 then str "Any"
  else if type =? 0x10 then str "Boolean"
  else if type =? 0x11 then str "Integer"
  else if type =? 0x12 then str "ByteArray"
  else if type =? 0x13 then str "String"
  else if type =? 0x14 then str "Hash160"
  else if type =? 0x15 then str "Hash256"
  else if type =? 0x16 then str "PublicKey"
  else if type =? 0x17 then str "Signature"
  else if type =? 0x20 then str "Array"
  else if type =? 0x22 then str "Map"
  else if type =? 0x30 then str "InteropInterface"
  else if type =? 0xFF then str "Void"
  else str "Unknown".

(** A write whose result nobody looks at. *)
Definition unchecked (m : Wr unit) : Wr unit := fun w =>
  match m w with (Fault, w) => (Fault, w) | (_, w) => (Ok tt, w) end.

Definition neoc_contract_param_serialize (param : option neoc_contract_parameter_t) : res (list byte) :=
  match param with
  | None => Err NEOC_ERROR_INVALID_ARGUMENT
  | Some p =>
      let? writer := neoc_binary_writer_create 256 true in
      fst ((do! (let typed m :=
                   do! unchecked (neoc_binary_writer_write_byte (byte_of_Z (param_type p))) in unchecked m in
                 match p with
                 | PARAM_BOOLEAN v => typed (neoc_binary_writer_write_byte (if v then Byte.x01 else Byte.x00))
                 | PARAM_INTEGER v => typed (neoc_binary_writer_write_uint64 (wrap 64 v))
                 | PARAM_BYTE_ARRAY data len => typed (neoc_binary_writer_write_var_bytes data len)
                 | PARAM_STRING s => typed (neoc_binary_writer_write_var_string s)
                 | PARAM_HASH160 h => typed (neoc_binary_writer_write_bytes (Some (hash160_data h)) 20)
                 | PARAM_HASH256 h => typed (neoc_binary_writer_write_bytes (Some (hash256_data h)) 32)
                 | PARAM_PUBLIC_KEY k => typed (neoc_binary_writer_write_bytes (Some k) 33)
                 | PARAM_SIGNATURE s => typed (neoc_binary_writer_write_bytes (Some s) 64)
                 | _ => fail NEOC_ERROR_INVALID_ARGUMENT
                 end) in
            neoc_binary_writer_to_array) writer)
  end.

(** ** Contracts and invocations *)

Record neoc_smart_contract_t := mk_smart_contract { sc_script_hash : neoc_hash160_t; sc_name : option (list byte) }.

(** The name is copied before the pointer to its copy is checked. *)
Definition neoc_smart_contract_create (script_hash : option neoc_hash160_t) (name : option (list byte))
  : res neoc_smart_contract_t :=
  match script_hash with
  | None => Err NEOC_ERROR_INVALID_ARGUMENT
  | Some script_hash =>
      if negb (neoc_malloc_ok smart_contract_struct_size) then Err NEOC_ERROR_MEMORY
      else
        match name with
        | None => Ok (mk_smart_contract script_hash None)
        | Some name =>
            if negb (neoc_malloc_ok (zlen name + 1)) then Fault else Ok (mk_smart_contract script_hash (Some name))
        end
  end.

Definition neoc_smart_contract_get_script_hash (contract : option neoc_smart_contract_t) : res neoc_hash160_t :=
  match contract with None => Err NEOC_ERROR_INVALID_ARGUMENT | Some contract => Ok (sc_script_hash contract) end.

Record neoc_contract_invocation_t := mk_invocation {
  inv_script_hash : neoc_hash160_t;
  inv_operation : list byte;
  inv_params : option (list (option neoc_contract_parameter_t));
  inv_param_count : Z
}.

Definition neoc_contract_invocation_create (script_hash : option neoc_hash160_t) (operation : option (list byte))
    (params : option (list (option neoc_contract_parameter_t))) (param_count : Z) : res neoc_contract_invocation_t :=
  match script_hash, operation with
  | Some script_hash, Some operation =>
      if negb (neoc_malloc_ok contract_invocation_struct_size) then Err NEOC_ERROR_MEMORY
      else if negb (neoc_malloc_ok (zlen operation + 1)) then Fault
      else
        match params with
        | Some params =>
            if 0 <? param_count then
              if negb (neoc_malloc_ok (wrap 64 (param_count * 8))) then Err NEOC_ERROR_MEMORY
              else
                match buf_slice params 0 param_count with
                | Some copy => Ok (mk_invocation script_hash operation (Some copy) param_count)
                | None => Fault
                end
            else Ok (mk_invocation script_hash operation None 0)
        | None => Ok (mk_invocation script_hash operation None 0)
        end
  | _, _ => Err NEOC_ERROR_INVALID_ARGUMENT
  end.

(** [for (int i = (int)param_count - 1; i >= 0; i--)]: [n] is [i + 1]. *)
Fixpoint push_pointers_reverse (params : list (option neoc_contract_parameter_t)) (n : nat) : Wr unit :=
  match n with
  | O => ret tt
  | S i =>
      match params !! i with
      | None => fault
      | Some p => do! neoc_script_builder_push_param p in push_pointers_reverse params i
      end
  end.

Definition neoc_contract_build_invocation_script (invocation : neoc_contract_invocation_t) : Wr unit :=
  do! push_pointers_reverse (default [] (inv_params invocation)) (Z.to_nat (swrap 32 (inv_param_count invocation))) in
  do! neoc_script_builder_push_string (Some (inv_operation invocation)) in
  neoc_script_builder_contract_call (inv_script_hash invocation) (inv_operation invocation)
    (inv_param_count invocation) NEOC_CALL_FLAGS_ALL.

(** ** Native contracts *)

Definition octet_list (zs : list Z) : list byte := map byte_of_Z zs.

Definition NEO_HASH : neoc_hash160_t := mk_hash160 (octet_list
  [0xef; 0x4e; 0x1b; 0x4e; 0x40; 0xbd; 0xe2; 0x25; 0x41; 0x5f; 0x38; 0xbd; 0xb8; 0xab; 0x11; 0x3f; 0xf7; 0x64; 0xa5; 0xd7]).
Definition GAS_HASH : neoc_hash160_t := mk_hash160 (octet_list
  [0xd2; 0xa4; 0xcf; 0xf3; 0x1a; 0x9a; 0xc8; 0x44; 0x76; 0xef; 0xef; 0xec; 0xc8; 0xee; 0xc4; 0x03; 0x82; 0x84; 0xf2; 0x69]).
Definition POLICY_HASH : neoc_hash160_t := mk_hash160 (octet_list
  [0xcc; 0x5e; 0x42; 0x41; 0x04; 0x1f; 0x86; 0x45; 0x72; 0xca; 0xb8; 0x20; 0xf0; 0xc5; 0xcd; 0x5a; 0x5f; 0x80; 0x6e; 0x7b]).
Definition MANAGEMENT_HASH : neoc_hash160_t := mk_hash160 (octet_list
  [0xff; 0xff; 0xff; 0xff; 0xff; 0xff; 0xff; 0xff; 0xff; 0xff; 0xff; 0xff; 0xff; 0xff; 0xff; 0xff; 0xff; 0xff; 0xff; 0xfe]).

Inductive neoc_native_contract_t : Set :=
| NEOC_NATIVE_CONTRACT_NEO
| NEOC_NATIVE_CONTRACT_GAS
| NEOC_NATIVE_CONTRACT_POLICY
| NEOC_NATIVE_CONTRACT_ROLE_MANAGEMENT
| NEOC_NATIVE_CONTRACT_ORACLE
| NEOC_NATIVE_CONTRACT_LEDGER
| NEOC_NATIVE_CONTRACT_MANAGEMENT
| NEOC_NATIVE_CONTRACT_CRYPTO
| NEOC_NATIVE_CONTRACT_STD_LIB.

Definition neoc_native_contract_get_hash (contract : neoc_native_contract_t) : res neoc_hash160_t :=
  match contract with
  | NEOC_NATIVE_CONTRACT_NEO => Ok NEO_HASH
  | NEOC_NATIVE_CONTRACT_GAS => Ok GAS_HASH
  | NEOC_NATIVE_CONTRACT_POLICY => Ok POLICY_HASH
  | NEOC_NATIVE_CONTRACT_MANAGEMENT => Ok MANAGEMENT_HASH
  | _ => Err NEOC_ERROR_INVALID_ARGUMENT
  end.

Definition neoc_contract_get_neo_hash : res neoc_hash160_t := neoc_native_contract_get_hash NEOC_NATIVE_CONTRACT_NEO.
Definition neoc_contract_get_gas_hash : res neoc_hash160_t := neoc_native_contract_get_hash NEOC_NATIVE_CONTRACT_GAS.

(** ** Invocations of tokens *)

Definition neoc_nep17_transfer_create (token_hash from to : option neoc_hash160_t) (amount : Z)
    (data : option neoc_contract_parameter_t) : res neoc_contract_invocation_t :=
  match token_hash, from, to with
  | Some _, Some _, Some _ =>
      let? from := neoc_contract_param_create_hash160 from in
      let? to := neoc_contract_param_create_hash160 to in
      let? amount := neoc_contract_param_create_integer amount in
      let params := [Some from; Some to; Some amount] ++ match data with Some _ => [data] | None => [] end in
      neoc_contract_invocation_create token_hash (Some (str "transfer")) (Some params) (zlen params)
  | _, _, _ => Err NEOC_ERROR_INVALID_ARGUMENT
  end.

Definition neoc_nep17_balance_of_create (token_hash account : option neoc_hash160_t) : res neoc_contract_invocation_t :=
  match token_hash, account with
  | Some _, Some _ =>
      let? account := neoc_contract_param_create_hash160 account in
      neoc_contract_invocation_create token_hash (Some (str "balanceOf")) (Some [Some account]) 1
  | _, _ => Err NEOC_ERROR_INVALID_ARGUMENT
  end.

Definition neoc_nep17_symbol_create (token_hash : option neoc_hash160_t) : res neoc_contract_invocation_t :=
  match token_hash with
  | None => Err NEOC_ERROR_INVALID_ARGUMENT
  | Some _ => neoc_contract_invocation_create token_hash (Some (str "symbol")) None 0
  end.

Definition neoc_nep17_decimals_create (token_hash : option neoc_hash160_t) : res neoc_contract_invocation_t :=
  match token_hash with
  | None => Err NEOC_ERROR_INVALID_ARGUMENT
  | Some _ => neoc_contract_invocation_create token_hash (Some (str "decimals")) None 0
  end.

Definition neoc_nep17_total_supply_create (token_hash : option neoc_hash160_t) : res neoc_contract_invocation_t :=
  match token_hash with
  | None => Err NEOC_ERROR_INVALID_ARGUMENT
  | Some _ => neoc_contract_invocation_create token_hash (Some (str "totalSupply")) None 0
  end.
End Operations.

(** ** What the scripts do *)

(** The array of the top [n] items. *)
Definition pack_bytes (n : Z) : list byte :=
  if n =? 0 then [byte_of_Z NEOC_OP_NEWARRAY0] else push_integer_bytes n ++ [byte_of_Z NEOC_OP_PACK].

Definition call_tail `{Interop} (hash method : list byte) (flags : Z) : list byte :=
  push_integer_bytes flags ++ push_data_bytes method ++ push_data_bytes hash ++ syscall_bytes NEOC_INTEROP_SYSTEM_CONTRACT_CALL.

(** The stack at the system call: the contract, the method, the flags and the arguments, which are the
    top [n] items of [stack], above the items that are left. *)
Definition called (hash method : list byte) (flags n : Z) (stack : list item) : list item :=
  [ByteString hash; data_item method; Integer flags; VArray (take (Z.to_nat n) stack)] ++ drop (Z.to_nat n) stack.

Section Scripts.
Context `{Allocator} `{Interop}.

Lemma pack_runs n rest stack :
  0 <= n <= zlen stack -> n < 2 ^ 63 ->
  runs (pack_bytes n ++ rest, stack) (rest, VArray (take (Z.to_nat n) stack) :: drop (Z.to_nat n) stack).
Proof.
  intros Hn Hl. unfold pack_bytes. destruct (n =? 0) eqn:E; bdestruct.
  - subst n. by apply rtc_once.
  - rewrite <- app_assoc. etransitivity; [apply push_integer_pushes; unfold int64; cmps; lia|].
    apply rtc_once. unfold vm_step. cbn [step app]. unfold NEOC_OP_PACK. cbn -[zlen take drop Z.to_nat Z.leb]. cmps. done.
Qed.

(** Without enough items on the stack the machine stops at the instruction that packs them. *)
Lemma pack_stuck n rest stack :
  zlen stack < n < 2 ^ 63 ->
  exists c, runs (pack_bytes n ++ rest, stack) c /\ step c = None /\ c = (byte_of_Z NEOC_OP_PACK :: rest, Integer n :: stack).
Proof.
  intros Hn. pose proof (zlen_nonneg stack). exists (byte_of_Z NEOC_OP_PACK :: rest, Integer n :: stack). split_and!; [| |done].
  - unfold pack_bytes. cmps. rewrite <- app_assoc. apply push_integer_pushes. unfold int64. cmps. lia.
  - cbn [step]. unfold NEOC_OP_PACK. cbn -[zlen take drop Z.to_nat Z.leb]. cmps. done.
Qed.

Lemma pack_writes n :
  0 <= n < 2 ^ 63 ->
  writes (if n =? 0 then neoc_script_builder_emit NEOC_OP_NEWARRAY0
          else do! neoc_script_builder_push_integer n in neoc_script_builder_emit NEOC_OP_PACK) (pack_bytes n).
Proof.
  intros Hn. unfold pack_bytes. destruct (n =? 0); [apply emit_writes|].
  apply writes_bind; [apply push_integer_writes; unfold int64; cmps; lia|apply emit_writes].
Qed.

Lemma app_call_emits h method n :
  0 <= n < 2 ^ 63 -> hash160_ok h ->
  writes (neoc_script_builder_emit_app_call h method n) (pack_bytes n ++ call_tail (reverse (hash160_data h)) method NEOC_CALL_FLAGS_ALL).
Proof.
  intros Hn Hh. apply writes_bind; [by apply pack_writes|]. rewrite hash160_le_buffer by done.
  apply call_tail_writes; [done|]. by rewrite zlen_reverse.
Qed.

Lemma contract_call_emits h method n flags :
  0 <= n < 2 ^ 63 -> hash160_ok h -> int64 flags = true ->
  writes (neoc_script_builder_contract_call h method n flags) (pack_bytes n ++ call_tail (hash160_data h) method flags).
Proof.
  intros Hn Hh Hf. unfold neoc_script_builder_contract_call. rewrite swrap_small by (eval_pows; lia).
  apply writes_bind; [by apply pack_writes|]. rewrite hash160_be_buffer by done. by apply call_tail_writes.
Qed.

Lemma call_runs pre vs n hash method flags :
  pushes_all pre vs -> 0 <= n <= zlen vs -> n < 2 ^ 63 -> int64 flags = true -> zlen method < 2 ^ 32 -> zlen hash = 20 ->
  runs (pre ++ pack_bytes n ++ call_tail hash method flags, [])
       (syscall_bytes NEOC_INTEROP_SYSTEM_CONTRACT_CALL, called hash method flags n (rev vs)).
Proof.
  intros Hp Hn Hl Hf Hm Hh. etransitivity; [apply Hp|]. rewrite app_nil_r.
  etransitivity; [apply pack_runs; [unfold zlen in *; rewrite length_rev; lia|done]|]. unfold call_tail, called.
  etransitivity; [by apply push_integer_pushes|]. etransitivity; [by apply push_data_pushes|].
  etransitivity; [apply data_pushes_long; lia|]. done.
Qed.

Lemma pack_size n : 1 <= zlen (pack_bytes n) <= 10.
Proof.
  unfold pack_bytes. destruct (n =? 0); [done|]. rewrite zlen_app. pose proof (push_integer_size n).
  pose proof (zlen_nonneg (push_integer_bytes n)). change (zlen [byte_of_Z NEOC_OP_PACK]) with 1. lia.
Qed.

Lemma tail_size hash method flags : zlen hash = 20 -> zlen (call_tail hash method flags) <= zlen method + 64.
Proof.
  intros Hh. unfold call_tail. rewrite !zlen_app. pose proof (push_integer_size flags). pose proof (push_data_size method).
  pose proof (push_data_size hash). 
  assert (zlen (syscall_bytes NEOC_INTEROP_SYSTEM_CONTRACT_CALL) = 5) by (unfold syscall_bytes, zlen; cbn [length]; by rewrite length_le_bytes). lia.
Qed.

(** A script that pushes items, packs the top ones and calls. *)
Lemma calling_script prog pre vs hash method flags n :
  writes prog (pre ++ pack_bytes n ++ call_tail hash method flags) -> pushes_all pre vs -> 0 <= n <= zlen vs -> n < 2 ^ 63 ->
  int64 flags = true -> zlen method < 2 ^ 32 -> zlen hash = 20 ->
  zlen pre + zlen method <= 2 ^ 40 -> heap_serves (2 * (zlen pre + zlen method) + 1024) ->
  exists script, script_with prog = Ok script /\ zlen script <= zlen pre + zlen method + 80 /\
    runs (script, []) (syscall_bytes NEOC_INTEROP_SYSTEM_CONTRACT_CALL, called hash method flags n (rev vs)).
Proof.
  intros Hm Hp Hn Hl Hf Hme Hhash Hs Hheap. exists (pre ++ pack_bytes n ++ call_tail hash method flags).
  pose proof (pack_size n). pose proof (tail_size hash method flags Hhash). pose proof (zlen_nonneg pre). pose proof (zlen_nonneg method).
  assert (zlen (pre ++ pack_bytes n ++ call_tail hash method flags) <= zlen pre + zlen method + 80) as Hz by (rewrite !zlen_app; lia).
  split_and!; [|done|by apply call_runs]. apply script_with_ok; [done|unfold stream_max; lia|].
  eapply heap_serves_mono; [exact Hheap|]. lia.
Qed.
End Scripts.

(** ** Invocations *)

Section Invocations.
Context `{Allocator} `{Interop}.

Lemma push_pointers_writes ps n :
  forallb (optional pushable true) ps = true -> (n <= length ps)%nat ->
  writes (push_pointers_reverse ps n) (args_bytes (rev (take n ps))).
Proof.
  intros Hp. induction n as [|n IH]; intros Hn; cbn [push_pointers_reverse]; [apply writes_ret|].
  destruct (lookup_lt_is_Some_2 ps n) as [p Ep]; [lia|]. rewrite Ep.
  rewrite (take_S_r _ _ _ Ep), rev_app_distr. unfold args_bytes. cbn [rev app map concat].
  apply writes_bind; [|apply IH; lia]. apply push_param_writes. rewrite forallb_forall in Hp.
  apply Hp, list_elem_of_In. by eapply list_elem_of_lookup_2.
Qed.

Lemma args_bytes_pushes ps :
  forallb (optional pushable true) ps = true -> pushes_all (args_bytes ps) (map pushed_value ps).
Proof.
  intros Hp. apply pushes_all_concat. intros o Ho. apply param_ptr_pushes. rewrite forallb_forall in Hp. by apply Hp.
Qed.

Lemma forallb_rev {A} (f : A -> bool) l : forallb f l = true -> forallb f (rev l) = true.
Proof. rewrite !forallb_forall. intros Hf x Hx. apply Hf. by apply in_rev. Qed.

(** The script of an invocation reaches the system call with the right contract, method and flags, but
    the method is pushed twice: the arguments are the method's name and all the parameters but
    the last, which stays on the stack below. *)
Theorem invocation_script_runs h op ps :
  forallb (optional pushable true) ps = true -> zlen ps < 2 ^ 31 -> hash160_ok h -> zlen op < 2 ^ 32 ->
  zlen (args_bytes (rev ps)) + 2 * zlen op <= 2 ^ 39 -> heap_serves (2 * (zlen (args_bytes (rev ps)) + 2 * zlen op) + 2048) ->
  exists script,
    script_with (neoc_contract_build_invocation_script (mk_invocation h op (Some ps) (zlen ps))) = Ok script /\
    runs (script, [])
      (syscall_bytes NEOC_INTEROP_SYSTEM_CONTRACT_CALL,
       called (hash160_data h) op NEOC_CALL_FLAGS_ALL (zlen ps) (data_item op :: map pushed_value ps)).
Proof.
  intros Hp Hl Hh Ho Hs Hheap. pose proof (zlen_nonneg ps). pose proof (zlen_nonneg op). pose proof (zlen_nonneg (args_bytes (rev ps))).
  pose proof (push_data_size op). unfold neoc_contract_build_invocation_script. cbn [inv_params inv_param_count inv_operation inv_script_hash default].
  rewrite swrap_small by (eval_pows; lia).
  set (pushed := rev (map pushed_value ps) ++ [data_item op]).
  destruct (calling_script (do! push_pointers_reverse ps (Z.to_nat (zlen ps)) in
                         do! neoc_script_builder_push_string (Some op) in
                         neoc_script_builder_contract_call h op (zlen ps) NEOC_CALL_FLAGS_ALL)
    (args_bytes (rev ps) ++ push_data_bytes op) pushed (hash160_data h) op NEOC_CALL_FLAGS_ALL (zlen ps)) as (script & Es & _ & Hr);
    try done; try (rewrite ?zlen_app; eval_pows; lia).
  - rewrite <- app_assoc. apply writes_bind.
    + unfold zlen. rewrite Nat2Z.id. pose proof (push_pointers_writes ps (length ps) Hp ltac:(lia)) as Hw. by rewrite firstn_all in Hw.
    + apply writes_bind; [apply push_string_writes|]. apply contract_call_emits; [eval_pows; lia|done|done].
  - apply pushes_all_app; [|by apply pushes_all_one, push_data_pushes]. rewrite <- map_rev. by apply args_bytes_pushes, forallb_rev.
  - unfold pushed. rewrite zlen_app. unfold zlen. rewrite length_rev, length_map. cbn. lia.
  - eapply heap_serves_mono; [exact Hheap|]. rewrite zlen_app. lia.
  - exists script. split; [done|]. unfold pushed in Hr. by rewrite rev_app_distr, rev_involutive in Hr.
Qed.
End Invocations.

(** ** Parameters as bytes *)

(** The bytes behind the type, for the types that have a byte form. *)
Definition param_payload (p : neoc_contract_parameter_t) : option (list byte) :=
  match p with
  | PARAM_BOOLEAN v => Some [if v then Byte.x01 else Byte.x00]
  | PARAM_INTEGER v => Some (le_bytes 8 v)
  | PARAM_BYTE_ARRAY data _ | PARAM_STRING data => Some (var_bytes (default [] data))
  | PARAM_HASH160 h => Some (hash160_data h)
  | PARAM_HASH256 h => Some (hash256_data h)
  | PARAM_PUBLIC_KEY bs | PARAM_SIGNATURE bs => Some bs
  | _ => None
  end.

(** What the constructors make: data has its length, and fixed-size fields their size. *)
Definition param_sized (p : neoc_contract_parameter_t) : Prop :=
  match p with
  | PARAM_BYTE_ARRAY data len => len = zlen (default [] data)
  | PARAM_HASH160 h => hash160_ok h
  | PARAM_HASH256 h => hash256_ok h
  | PARAM_PUBLIC_KEY k => zlen k = 33
  | PARAM_SIGNATURE s => zlen s = 64
  | _ => True
  end.

Section Bytes.
Context `{Allocator}.

Lemma unchecked_ok m w w' : m w = (Ok tt, w') -> unchecked m w = (Ok tt, w').
Proof. intros E. unfold unchecked. by rewrite E. Qed.

Lemma typed_ok t m bs :
  writes m bs -> zlen bs + 1 <= stream_max -> heap_serves (2 * zlen bs + 1024) ->
  serialize_with 256 (do! unchecked (neoc_binary_writer_write_byte t) in unchecked m) = Ok (t :: bs).
Proof.
  intros Hm Hs Hh. pose proof (zlen_nonneg bs). unfold serialize_with. unfold stream_max in *.
  destruct (writer_create_succeeds 256 true _ Hh) as [w Ew]; [unfold writer_struct_size; lia|lia|]. rewrite Ew. cbn [rbind].
  apply writer_create_ok in Ew as (Hw & C0 & P0 & G0 & _); [|lia].
  destruct (writes_run (neoc_binary_writer_write_byte t) [t] w (write_byte_writes t) Hw G0) as (w1 & E1 & X1);
    [rewrite P0; change (zlen [t]) with 1; unfold stream_max; lia|rewrite P0; change (zlen [t]) with 1; eapply heap_serves_mono; [exact Hh|lia]|].
  destruct X1 as [Hw1 G1 _ P1 C1]. rewrite P0 in P1. change (zlen [t]) with 1 in P1.
  destruct (writes_run m bs w1 Hm Hw1) as (w2 & E2 & X2); [by rewrite G1|rewrite P1; unfold stream_max; lia|
    rewrite P1; eapply heap_serves_mono; [exact Hh|lia]|].
  destruct X2 as [Hw2 _ _ P2 C2]. rewrite bind_assoc, (bind_ok _ _ _ _ _ (unchecked_ok _ _ _ E1)), (bind_ok _ _ _ _ _ (unchecked_ok _ _ _ E2)).
  rewrite to_array_contents; [|done|apply Hh; lia]. by rewrite C2, C1, C0.
Qed.

(** The byte form of a parameter: its type and its value, when the heap serves the buffer; arrays, maps, null, void and
    interop parameters have none.  The results of the writes are not looked at. *)
Theorem param_serialize_bytes p :
  param_sized p -> (forall bs, param_payload p = Some bs -> zlen bs + 1 <= stream_max /\ heap_serves (2 * zlen bs + 1024)) ->
  heap_serves 1024 ->
  neoc_contract_param_serialize (Some p) =
  match param_payload p with
  | Some bs => Ok (byte_of_Z (param_type p) :: bs)
  | None => Err NEOC_ERROR_INVALID_ARGUMENT
  end.
Proof.
  intros Hp Hs Hh. unfold neoc_contract_param_serialize. cbv zeta.
  destruct (param_payload p) as [bs|] eqn:E.
  - destruct (Hs bs eq_refl) as [Hb Hb']. destruct p; try discriminate E; injection E as <-; cbn [param_sized] in Hp;
      change (let? writer := neoc_binary_writer_create 256 true in fst ((do! ?m in neoc_binary_writer_to_array) writer))
        with (serialize_with 256 m);
      apply typed_ok; try done.
    + apply write_byte_writes.
    + apply (write_int64_writes integer_value).
    + subst len. destruct data as [data|]; [apply write_var_bytes_writes|].
      apply (writes_bind _ _ _ []); [apply write_var_int_writes|apply writes_ret].
    + apply write_var_string_writes.
    + change 20 with NEOC_HASH160_SIZE. rewrite <- Hp. apply write_bytes_writes.
    + change 32 with NEOC_HASH256_SIZE. rewrite <- Hp. apply write_bytes_writes.
    + rewrite <- Hp. apply write_bytes_writes.
    + rewrite <- Hp. apply write_bytes_writes.
  - destruct (writer_create_succeeds 256 true 1024 Hh) as [w Ew]; [unfold writer_struct_size; lia|lia|]. rewrite Ew. cbn [rbind].
    destruct p; try discriminate E; done.
Qed.
End Bytes.

(** ** Token transfers by invocation *)

Section Transfers.
Context `{Allocator} `{Interop}.

(** A transfer without data: the contract is called with the method's name, the sender and the receiver;
    the amount is left on the stack. *)
Theorem nep17_transfer_invocation token from to amount :
  hash160_ok token -> hash160_ok from -> hash160_ok to -> int64 amount = true -> heap_serves 4096 ->
  exists invocation script,
    neoc_nep17_transfer_create (Some token) (Some from) (Some to) amount None = Ok invocation /\
    script_with (neoc_contract_build_invocation_script invocation) = Ok script /\
    runs (script, [])
      (syscall_bytes NEOC_INTEROP_SYSTEM_CONTRACT_CALL,
       [ByteString (hash160_data token); ByteString (str "transfer"); Integer NEOC_CALL_FLAGS_ALL;
        VArray [ByteString (str "transfer"); ByteString (reverse (hash160_data from)); ByteString (reverse (hash160_data to))];
        Integer amount]).
Proof.
  intros Ht Hf Ho Ha Hh. set (ps := [Some (PARAM_HASH160 from); Some (PARAM_HASH160 to); Some (PARAM_INTEGER amount)]).
  assert (neoc_nep17_transfer_create (Some token) (Some from) (Some to) amount None = Ok (mk_invocation token (str "transfer") (Some ps) 3)) as Ei.
  { unfold neoc_nep17_transfer_create, neoc_contract_param_create_hash160, neoc_contract_param_create_integer, alloc_param,
      contract_parameter_struct_size. rewrite Hh by lia. cbn [negb rbind app].
    change (zlen _) with 3. unfold neoc_contract_invocation_create, neoc_malloc_ok, contract_invocation_struct_size.
    change (zlen (str "transfer") + 1) with 9. change (wrap 64 (3 * 8)) with 24. cbn [Z.eqb Z.ltb Z.compare]. rewrite !Hh by lia. done. }
  assert (zlen (args_bytes (rev ps)) <= 100) as Hl.
  { unfold ps, args_bytes. cbn [rev app map concat optional param_bytes]. rewrite !zlen_app, zlen_nil.
    pose proof (push_integer_size amount). pose proof (push_data_size (reverse (hash160_data from))).
    pose proof (push_data_size (reverse (hash160_data to))). rewrite !zlen_reverse in *. unfold hash160_ok, NEOC_HASH160_SIZE in *. lia. }
  assert (forallb (optional pushable true) ps = true) as Hp.
  { unfold ps, hash160_ok, NEOC_HASH160_SIZE in *. cbn [forallb optional pushable]. rewrite Hf, Ho, Ha. done. }
  destruct (invocation_script_runs token (str "transfer") ps) as (script & Es & Hr); try done.
  - change (zlen (str "transfer")) with 8. eval_pows. lia.
  - change (zlen (str "transfer")) with 8. eapply heap_serves_mono; [exact Hh|]. lia.
  - exists (mk_invocation token (str "transfer") (Some ps) 3), script. split_and!; [done|done|].
    revert Hr. unfold ps, called. unfold pushed_value. cbn [map optional value_of as_pushed].
    unfold hash160_ok, NEOC_HASH160_SIZE in *.
    rewrite (data_item_long (reverse (hash160_data from))), (data_item_long (reverse (hash160_data to)))
      by (rewrite zlen_reverse; lia).
    change (Z.to_nat (zlen _)) with 3%nat. cbn [take drop app]. done.
Qed.
End Transfers.

Section Samples.
#[local] Existing Instance mib_heap.
#[local] Existing Instance sample_interop.

Lemma invocation_script_runs_witness :
  exists script,
    script_with (neoc_contract_build_invocation_script
      (mk_invocation sample160 (str "run") (Some [Some (PARAM_INTEGER 7); Some (PARAM_BOOLEAN true)]) 2)) = Ok script /\
    runs (script, [])
      (syscall_bytes NEOC_INTEROP_SYSTEM_CONTRACT_CALL,
       [ByteString (hash160_data sample160); ByteString (str "run"); Integer 15;
        VArray [ByteString (str "run"); Integer 7]; Integer 1]).
Proof.
  apply (invocation_script_runs sample160 (str "run") [Some (PARAM_INTEGER 7); Some (PARAM_BOOLEAN true)]).
  - vm_compute. reflexivity.
  - vm_compute. reflexivity.
  - vm_compute. reflexivity.
  - vm_compute. reflexivity.
  - vm_compute. discriminate.
  - apply mib_heap_serves. vm_compute. discriminate.
Defined.

Lemma nep17_transfer_invocation_witness :
  exists invocation script,
    neoc_nep17_transfer_create (Some sample160) (Some sample160) (Some sample160) 5 None = Ok invocation /\
    script_with (neoc_contract_build_invocation_script invocation) = Ok script /\
    runs (script, [])
      (syscall_bytes NEOC_INTEROP_SYSTEM_CONTRACT_CALL,
       [ByteString (hash160_data sample160); ByteString (str "transfer"); Integer NEOC_CALL_FLAGS_ALL;
        VArray [ByteString (str "transfer"); ByteString (reverse (hash160_data sample160)); ByteString (reverse (hash160_data sample160))];
        Integer 5]).
Proof.
  apply (nep17_transfer_invocation sample160 sample160 sample160 5); try (vm_compute; reflexivity). apply mib_heap_serves. lia.
Defined.

Lemma param_serialize_bytes_witness :
  neoc_contract_param_serialize (Some (PARAM_STRING (Some (str "neo")))) = Ok (Byte.x13 :: Byte.x03 :: str "neo").
Proof.
  apply (param_serialize_bytes (PARAM_STRING (Some (str "neo")))); [exact I| |apply mib_heap_serves; lia].
  intros bs [= <-]. split; [by vm_compute|]. apply mib_heap_serves. by vm_compute.
Defined.
End Samples.

(** A buffer that cannot grow: the data is left out, and the call succeeds. *)
Example param_serialize_drops_data :
  @neoc_contract_param_serialize (fun n => n <=? 400) (Some (PARAM_BYTE_ARRAY (Some (replicate 300 Byte.xaa)) 300)) =
  Ok [Byte.x12; Byte.xfd; Byte.x2c; Byte.x01].
Proof. vm_compute. reflexivity. Qed.
