(* ===== verification/EcKey.v ===== *)
(** * Public keys (src/crypto/ec_key_pair.c)

    The encodings of a public key.  Points of secp256r1 and their conversions are
    OpenSSL's: the class [Curve] has them as parameters and [curve_works] is what
    the code relies on.  Private keys and key generation are not modelled here. *)

From S2P Require Import Prelude.

Class Curve := {
  EC_POINT : Type;
  (** [EC_POINT_oct2point]: [None] when the bytes are not a point of the curve. *)
  EC_POINT_oct2point : list byte -> option EC_POINT;
  (** [EC_POINT_point2oct] in the compressed (33 bytes) or uncompressed form. *)
  EC_POINT_point2oct : bool -> EC_POINT -> list byte
}.

(** Encodings have the documented sizes, decoding a compressed encoding gives the
    point back, and what decodes from 33 bytes encodes to the same bytes. *)
Record curve_works `{Curve} : Prop := {
  works_compressed_size p : zlen (EC_POINT_point2oct true p) = 33;
  works_uncompressed_size p : zlen (EC_POINT_point2oct false p) = 65;
  works_decode p : EC_POINT_oct2point (EC_POINT_point2oct true p) = Some p;
  works_encode bs p :
    zlen bs = 33 -> EC_POINT_oct2point bs = Some p -> EC_POINT_point2oct true p = bs
}.

Record neoc_ec_public_key_t `{Curve} := mk_public_key {
  pk_point : EC_POINT;
  pk_compressed : list byte;
  pk_uncompressed : list byte;
  pk_is_compressed : bool
}.

(** [sizeof(neoc_ec_public_key_t)] *)
Definition public_key_struct_size : Z := 120.

Section Operations.
Context `{Allocator} `{Curve}.

Definition neoc_ec_public_key_from_bytes (encoded : option (list byte)) (encoded_len : Z)
  : res neoc_ec_public_key_t :=
  match encoded with
  | None => Err NEOC_ERROR_INVALID_ARGUMENT
  | Some encoded =>
      if negb (encoded_len =? 33) && negb (encoded_len =? 65)
      then Err NEOC_ERROR_INVALID_ARGUMENT
      else if negb (malloc_ok public_key_struct_size) then Err NEOC_ERROR_MEMORY
      else
        match buf_slice encoded 0 encoded_len with
        | None => Fault
        | Some octets =>
            match EC_POINT_oct2point octets with
            | None => Err NEOC_ERROR_CRYPTO
            | Some point =>
                Ok (mk_public_key _ point (EC_POINT_point2oct true point)
                      (EC_POINT_point2oct false point) (encoded_len =? 33))
            end
        end
  end.

(** The bytes and their number. *)
Definition neoc_ec_public_key_get_encoded (public_key : neoc_ec_public_key_t)
    (compressed : bool) : res (list byte * Z) :=
  let encoded_len := if compressed then 33 else 65 in
  let source := if compressed then pk_compressed public_key else pk_uncompressed public_key in
  if negb (malloc_ok encoded_len) then Err NEOC_ERROR_MEMORY
  else
    match buf_slice source 0 encoded_len with
    | Some encoded => Ok (encoded, encoded_len)
    | None => Fault
    end.

Definition neoc_ec_public_key_clone (public_key : neoc_ec_public_key_t)
  : res neoc_ec_public_key_t :=
  neoc_ec_public_key_from_bytes (Some (pk_compressed public_key)) 33.

End Operations.

(** A key made by [neoc_ec_public_key_from_bytes]. *)
Definition key_ok `{Curve} (k : neoc_ec_public_key_t) : Prop :=
  pk_compressed k = EC_POINT_point2oct true (pk_point k) /\
  pk_uncompressed k = EC_POINT_point2oct false (pk_point k).

Section Proofs.
Context `{Allocator} `{Curve}.
Hypothesis Hc : curve_works.

Lemma key_size k : key_ok k -> zlen (pk_compressed k) = 33.
Proof. intros [-> _]. apply (works_compressed_size Hc). Qed.

Lemma get_encoded_compressed k :
  key_ok k -> malloc_ok 33 = true ->
  neoc_ec_public_key_get_encoded k true = Ok (pk_compressed k, 33).
Proof.
  intros Hk Hm. unfold neoc_ec_public_key_get_encoded. rewrite Hm. cbn [negb].
  pose proof (buf_slice_all (pk_compressed k)) as E. rewrite key_size in E by done.
  rewrite E. done.
Qed.

Lemma from_bytes_ok bs len k :
  neoc_ec_public_key_from_bytes (Some bs) len = Ok k -> key_ok k.
Proof.
  unfold neoc_ec_public_key_from_bytes. intros E. repeat case_match; try discriminate.
  injection E as <-. done.
Qed.

(** Decoding the compressed form of a key, wherever it lies, gives the key. *)
Lemma from_compressed k rest :
  key_ok k -> malloc_ok public_key_struct_size = true ->
  exists k', neoc_ec_public_key_from_bytes (Some (pk_compressed k ++ rest)) 33 = Ok k' /\
    key_ok k' /\ pk_compressed k' = pk_compressed k.
Proof.
  intros Hk Hm.
  assert (buf_slice (pk_compressed k ++ rest) 0 33 = Some (pk_compressed k)) as E.
  { pose proof (buf_slice_app [] (pk_compressed k) rest) as E.
    rewrite key_size in E by done. exact E. }
  destruct (neoc_ec_public_key_from_bytes (Some (pk_compressed k ++ rest)) 33) as [k'|e|] eqn:F.
  - exists k'. split; [done|]. pose proof (from_bytes_ok _ _ _ F). split; [done|].
    unfold neoc_ec_public_key_from_bytes in F. rewrite Hm, E in F. cbn in F.
    destruct Hk as [Hk _]. rewrite Hk, (works_decode Hc) in F. injection F as <-. done.
  - unfold neoc_ec_public_key_from_bytes in F. rewrite Hm, E in F. cbn in F.
    rewrite (proj1 Hk), (works_decode Hc) in F. discriminate.
  - unfold neoc_ec_public_key_from_bytes in F. rewrite Hm, E in F. cbn in F.
    rewrite (proj1 Hk), (works_decode Hc) in F. discriminate.
Qed.
End Proofs.

(** ** A curve to run the model with: a point is a 32-byte coordinate *)

Definition toy_point : Type := dsig (fun x : list byte => length x = 32%nat).

Definition toy_curve : Curve := {|
  EC_POINT := toy_point;
  EC_POINT_oct2point bs :=
    match bs with
    | Byte.x02 :: x =>
        match decide (length x = 32%nat) with
        | left E => Some (dexist x E)
        | right _ => None
        end
    | _ => None
    end;
  EC_POINT_point2oct compressed p :=
    if compressed then Byte.x02 :: `p else Byte.x04 :: `p ++ `p
|}.

Lemma toy_curve_works : @curve_works toy_curve.
Proof.
  split.
  - intros [x Hx]. cbn. apply bool_decide_unpack in Hx. unfold zlen. cbn. lia.
  - intros [x Hx]. cbn. apply bool_decide_unpack in Hx. unfold zlen. cbn.
    rewrite length_app. lia.
  - intros [x Hx]. cbn. destruct (decide _) as [E|E].
    + f_equal. by apply dsig_eq.
    + destruct E. by apply bool_decide_unpack in Hx.
  - intros bs p Hl E. cbn in *. destruct bs as [|[] x]; try discriminate.
    destruct (decide _); [|discriminate]. injection E as <-. done.
Qed.

(** The [n]-th sample key. *)
Definition toy_key (n : Z) : @neoc_ec_public_key_t toy_curve :=
  let p := dexist (le_bytes 32 n) (length_le_bytes 32 n) in
  @mk_public_key toy_curve p (@EC_POINT_point2oct toy_curve true p)
    (@EC_POINT_point2oct toy_curve false p) true.

Lemma toy_key_ok n : @key_ok toy_curve (toy_key n).
Proof. split; reflexivity. Qed.
