(* ===== verification/VerificationScript.v ===== *)
(** * Verification scripts (src/script/verification_script.c)

    Building single- and multi-signature scripts from public keys, recognising
    such scripts, and reading their threshold and keys back.  The parser works on
    untrusted bytes with an offset as its state; a read outside the script is a
    [Fault].  The theorems show that what is built is recognised and read back,
    that the order of the keys does not matter, and that every script the
    recogniser accepts really is an m-of-n script on the machine of [NeoVM]. *)

From S2P Require Import Prelude BinaryWriter BinaryReader Crypto Base58 Hashes Interop EcKey Opcode NeoVM ScriptBuilder.
From stdpp Require Import sorting.
#[local] Open Scope Z_scope.

Definition NEOC_PUBLIC_KEY_SIZE_COMPRESSED : Z := 33.
Definition NEOC_MAX_PUBLIC_KEYS_PER_MULTISIG_ACCOUNT : Z := 1024.

Record neoc_verification_script_t := mk_vs {
  vs_script : option (list byte);
  vs_script_length : Z
}.

(** An entry owns a block of exactly [length] bytes. *)
Record neoc_key_entry_t := mk_entry { ke_data : list byte }.
Definition ke_length (e : neoc_key_entry_t) : Z := zlen (ke_data e).

(** [sizeof] of the two structs *)
Definition vs_struct_size : Z := 16.
Definition entry_struct_size : Z := 16.

Definition neoc_verification_var_int_size (value : Z) : Z :=
  if value <? 0xFD then 1
  else if value <=? 0xFFFF then 3
  else if value <=? 0xFFFFFFFF then 5
  else 9.

Definition neoc_key_entry_compare (a b : neoc_key_entry_t) : Z :=
  let min_len := if ke_length a <? ke_length b then ke_length a else ke_length b in
  let cmp := memcmp_loop (take (Z.to_nat min_len) (ke_data a))
                         (take (Z.to_nat min_len) (ke_data b)) in
  if negb (cmp =? 0) then cmp
  else if ke_length a =? ke_length b then 0
  else if ke_length a <? ke_length b then -1 else 1.

(** [qsort]: two entries the comparison does not separate have the same bytes,
    so the sorted list does not depend on the algorithm. *)
Definition entry_le (a b : neoc_key_entry_t) : Prop := neoc_key_entry_compare a b <= 0.
#[global] Instance entry_le_dec : RelDecision entry_le.
Proof. intros a b. apply Z_le_dec. Defined.

Definition qsort (entries : list neoc_key_entry_t) : list neoc_key_entry_t :=
  merge_sort entry_le entries.

(** [script[i]] *)
Definition at_ (script : list byte) (i : Z) : res Z :=
  match buf_get script i with Some b => Ok (Z_of_byte b) | None => Fault end.

(** A signed or unsigned load of up to eight bytes composed with shifts. *)
Fixpoint or_loop (script : list byte) (offset : Z) (i : Z) (n : nat) (acc : Z) : res Z :=
  match n with
  | O => Ok acc
  | S n =>
      let? b := at_ script (offset + i) in
      or_loop script offset (i + 1) n (Z.lor acc (Z.shiftl b (8 * i)))
  end.

(** The state is [*offset].  The bytes are shifted as [int]s, those of PUSHINT64 as [int64_t]s,
    and shifting a one into the sign bit of such a [width] is undefined. *)
Definition neoc_verification_script_parse_push_int (script : option (list byte))
    (script_length : Z) : M Z Z :=
  match script with
  | None => fail NEOC_ERROR_INVALID_ARGUMENT
  | Some script =>
      let! offset := get in
      if script_length <=? offset then fail NEOC_ERROR_INVALID_FORMAT
      else
        let! opcode := lift (at_ script offset) in
        let offset := offset + 1 in
        do! put offset in
        let operand n width :=
          if script_length <? offset + Z.of_nat n then fail NEOC_ERROR_INVALID_FORMAT
          else
            let! v := lift (or_loop script offset 0 n 0) in
            if 2 ^ (width - 1) <=? v then fault
            else
              do! put (offset + Z.of_nat n) in
              ret (swrap (8 * Z.of_nat n) v) in
        if opcode =? NEOC_OP_PUSHM1 then ret (-1)
        else if opcode =? NEOC_OP_PUSH0 then ret 0
        else if (NEOC_OP_PUSH1 <=? opcode) && (opcode <=? NEOC_OP_PUSH16)
        then ret (opcode - NEOC_OP_PUSH0)
        else if opcode =? NEOC_OP_PUSHINT8 then operand 1%nat 32
        else if opcode =? NEOC_OP_PUSHINT16 then operand 2%nat 32
        else if opcode =? NEOC_OP_PUSHINT32 then operand 4%nat 32
        else if opcode =? NEOC_OP_PUSHINT64 then operand 8%nat 64
        else fail NEOC_ERROR_INVALID_FORMAT
  end.

Section Operations.
Context `{Allocator} `{Interop} `{Curve}.

Definition neoc_verification_script_allocate (script : option (list byte))
    (script_length : Z) : res neoc_verification_script_t :=
  if negb (neoc_malloc_ok vs_struct_size) then Err NEOC_ERROR_MEMORY
  else if 0 <? script_length then
    match script with
    | None => Err NEOC_ERROR_INVALID_ARGUMENT
    | Some script =>
        if negb (neoc_malloc_ok script_length) then Err NEOC_ERROR_MEMORY
        else
          match buf_slice script 0 script_length with
          | Some copy => Ok (mk_vs (Some copy) script_length)
          | None => Fault
          end
    end
  else Ok (mk_vs None 0).

Definition neoc_verification_script_expected_hash (service : Z) : Z := service_hash service.

Definition neoc_verification_script_create (script : option (list byte)) (script_length : Z)
  : res neoc_verification_script_t := neoc_verification_script_allocate script script_length.

Definition neoc_verification_script_create_single_sig (public_key : option neoc_ec_public_key_t)
  : res neoc_verification_script_t :=
  match public_key with
  | None => Err NEOC_ERROR_INVALID_ARGUMENT
  | Some public_key =>
      let? '(encoded, encoded_len) := neoc_ec_public_key_get_encoded public_key true in
      let? script :=
        neoc_script_builder_build_verification_script (Some encoded) encoded_len in
      neoc_verification_script_allocate (Some script) (zlen script)
  end.

(** The loop that encodes the keys into [entries]. *)
Fixpoint encode_keys (public_keys : list (option neoc_ec_public_key_t)) (count : nat)
  : res (list neoc_key_entry_t) :=
  match count with
  | O => Ok []
  | S count =>
      match public_keys with
      | [] => Fault
      | None :: _ => Err NEOC_ERROR_INVALID_ARGUMENT
      | Some key :: public_keys =>
          let? '(encoded, _) := neoc_ec_public_key_get_encoded key true in
          let? entries := encode_keys public_keys count in
          Ok (mk_entry encoded :: entries)
      end
  end.

Definition neoc_verification_script_create_multi_sig
    (public_keys : option (list (option neoc_ec_public_key_t))) (key_count : Z)
    (signing_threshold : Z) : res neoc_verification_script_t :=
  if (key_count =? 0) || (signing_threshold <=? 0) || (swrap 32 key_count <? signing_threshold)
  then Err NEOC_ERROR_INVALID_ARGUMENT
  else if NEOC_MAX_PUBLIC_KEYS_PER_MULTISIG_ACCOUNT <? key_count
  then Err NEOC_ERROR_INVALID_ARGUMENT
  else
    match public_keys with
    | None => Err NEOC_ERROR_INVALID_ARGUMENT
    | Some public_keys =>
        if negb (neoc_malloc_ok (key_count * entry_struct_size)) then Err NEOC_ERROR_MEMORY
        else
          let? entries := encode_keys public_keys (Z.to_nat key_count) in
          let entries := qsort entries in
          let? script :=
            script_with
              (do! neoc_script_builder_push_integer signing_threshold in
               do! push_items
                     (fun e => neoc_script_builder_push_data (Some (ke_data e)) (ke_length e))
                     entries key_count in
               do! neoc_script_builder_push_integer (swrap 64 key_count) in
               neoc_script_builder_emit_syscall NEOC_INTEROP_SYSTEM_CRYPTO_CHECKMULTISIG) in
          neoc_verification_script_allocate (Some script) (zlen script)
    end.

Definition neoc_verification_script_get_script (vs : neoc_verification_script_t)
  : option (list byte) * Z := (vs_script vs, vs_script_length vs).

Definition neoc_verification_script_get_size (vs : neoc_verification_script_t) : Z :=
  wrap 64 (neoc_verification_var_int_size (vs_script_length vs) + vs_script_length vs).

(** [memcpy(&actual, script + i, 4)] *)
Definition load32 (script : list byte) (i : Z) : res Z :=
  match buf_slice script i 4 with Some bs => Ok (le_val bs) | None => Fault end.

Definition neoc_verification_script_checksig_match (script : list byte) (script_length : Z)
  : res bool :=
  if negb (script_length =? 40) then Ok false
  else
    let? s0 := at_ script 0 in
    if negb (s0 =? NEOC_OP_PUSHDATA1) then Ok false
    else
      let? s1 := at_ script 1 in
      if negb (s1 =? NEOC_PUBLIC_KEY_SIZE_COMPRESSED) then Ok false
      else
        let? s35 := at_ script 35 in
        if negb (s35 =? NEOC_OP_SYSCALL) then Ok false
        else
          let? actual := load32 script 36 in
          Ok (neoc_verification_script_expected_hash NEOC_INTEROP_SYSTEM_CRYPTO_CHECKSIG
              =? actual).

Definition neoc_verification_script_is_single_sig (vs : neoc_verification_script_t)
  : res bool :=
  if negb (vs_script_length vs =? 40) then Ok false
  else
    match vs_script vs with
    | None => Fault
    | Some script => neoc_verification_script_checksig_match script (vs_script_length vs)
    end.

(** The loop of [neoc_verification_script_is_multi_sig] over the pushes of keys;
    [None] when the function returns false from inside the loop.  Each round
    consumes 35 bytes, so [length script + 1] rounds are enough. *)
Fixpoint scan_keys (fuel : nat) (script : list byte) (script_length offset key_count : Z)
  : res (option (Z * Z)) :=
  match fuel with
  | O => Fault
  | S fuel =>
      if offset <? script_length then
        let? op := at_ script offset in
        if negb (op =? NEOC_OP_PUSHDATA1) then Ok (Some (offset, key_count))
        else if script_length <? offset + 2 then Ok None
        else
          let? len := at_ script (offset + 1) in
          if negb (len =? NEOC_PUBLIC_KEY_SIZE_COMPRESSED) then Ok None
          else if script_length <? offset + 2 + len then Ok None
          else scan_keys fuel script script_length (offset + (2 + len)) (key_count + 1)
      else Ok (Some (offset, key_count))
  end.

Definition neoc_verification_script_is_multi_sig (vs : neoc_verification_script_t)
  : res bool :=
  let script_length := vs_script_length vs in
  if script_length <? 42 then Ok false
  else
    match neoc_verification_script_parse_push_int (vs_script vs) script_length 0 with
    | (Fault, _) => Fault
    | (Err _, _) => Ok false
    | (Ok threshold, offset) =>
        if (threshold <? 1) || (NEOC_MAX_PUBLIC_KEYS_PER_MULTISIG_ACCOUNT <? threshold)
        then Ok false
        else
          let script := default [] (vs_script vs) in
          let? scanned := scan_keys (S (length script)) script script_length offset 0 in
          match scanned with
          | None => Ok false
          | Some (offset, key_count) =>
              if (key_count =? 0) || (NEOC_MAX_PUBLIC_KEYS_PER_MULTISIG_ACCOUNT <? key_count)
              then Ok false
              else if key_count <? threshold then Ok false
              else
                match neoc_verification_script_parse_push_int (vs_script vs) script_length
                        offset with
                | (Fault, _) => Fault
                | (Err _, _) => Ok false
                | (Ok declared_count, offset) =>
                    if negb (declared_count =? key_count) then Ok false
                    else if script_length <=? offset then Ok false
                    else
                      let? op := at_ script offset in
                      if negb (op =? NEOC_OP_SYSCALL) then Ok false
                      else
                        let offset := offset + 1 in
                        if script_length <? offset + 4 then Ok false
                        else
                          let? actual := load32 script offset in
                          let offset := offset + 4 in
                          if negb (neoc_verification_script_expected_hash
                                     NEOC_INTEROP_SYSTEM_CRYPTO_CHECKMULTISIG =? actual)
                          then Ok false
                          else Ok (offset =? script_length)
                end
          end
    end.

Definition neoc_verification_script_get_signing_threshold (vs : neoc_verification_script_t)
  : res Z :=
  let? single := neoc_verification_script_is_single_sig vs in
  if single then Ok 1
  else
    let? value :=
      fst (neoc_verification_script_parse_push_int (vs_script vs) (vs_script_length vs) 0) in
    if (value <? 1) || (NEOC_MAX_PUBLIC_KEYS_PER_MULTISIG_ACCOUNT <? value)
    then Err NEOC_ERROR_INVALID_FORMAT
    else Ok (swrap 32 value).

(** The loop that counts the keys. *)
Fixpoint count_keys (fuel : nat) (script : list byte) (script_length tmp_offset count : Z)
  : res Z :=
  match fuel with
  | O => Fault
  | S fuel =>
      if tmp_offset <? script_length then
        let? op := at_ script tmp_offset in
        if op =? NEOC_OP_PUSHDATA1
        then count_keys fuel script script_length
               (tmp_offset + (2 + NEOC_PUBLIC_KEY_SIZE_COMPRESSED)) (count + 1)
        else Ok count
      else Ok count
  end.

(** The loop that decodes the [n] keys from [offset] on. *)
Fixpoint decode_keys (n : nat) (script : list byte) (script_length offset : Z)
  : res (list neoc_ec_public_key_t) :=
  match n with
  | O => Ok []
  | S n =>
      if script_length <? offset + 2 + NEOC_PUBLIC_KEY_SIZE_COMPRESSED
      then Err NEOC_ERROR_INVALID_FORMAT
      else
        let offset := offset + 2 in
        let? key := neoc_ec_public_key_from_bytes (Some (drop (Z.to_nat offset) script))
                      NEOC_PUBLIC_KEY_SIZE_COMPRESSED in
        let? keys := decode_keys n script script_length
                       (offset + NEOC_PUBLIC_KEY_SIZE_COMPRESSED) in
        Ok (key :: keys)
  end.

Definition neoc_verification_script_get_public_keys (vs : neoc_verification_script_t)
  : res (list neoc_ec_public_key_t) :=
  let script := default [] (vs_script vs) in
  let script_length := vs_script_length vs in
  let? single := neoc_verification_script_is_single_sig vs in
  if single then
    if negb (neoc_malloc_ok 8) then Err NEOC_ERROR_MEMORY
    else
      let? key := neoc_ec_public_key_from_bytes (Some (drop 2 script))
                    NEOC_PUBLIC_KEY_SIZE_COMPRESSED in
      Ok [key]
  else
    let? multi := neoc_verification_script_is_multi_sig vs in
    if negb multi then Err NEOC_ERROR_INVALID_FORMAT
    else
      match neoc_verification_script_parse_push_int (vs_script vs) script_length 0 with
      | (Fault, _) => Fault
      | (Err e, _) => Err e
      | (Ok _, offset) =>
          let? count := count_keys (S (length script)) script script_length offset 0 in
          if count =? 0 then Err NEOC_ERROR_INVALID_FORMAT
          else if negb (neoc_malloc_ok (count * 8)) then Err NEOC_ERROR_MEMORY
          else decode_keys (Z.to_nat count) script script_length offset
      end.

Definition neoc_verification_script_get_nr_accounts (vs : neoc_verification_script_t)
  : res Z :=
  let? keys := neoc_verification_script_get_public_keys vs in
  Ok (swrap 32 (zlen keys)).

Definition neoc_verification_script_get_script_hash `{Crypto} (vs : neoc_verification_script_t)
  : res neoc_hash160_t :=
  neoc_hash160_from_script (vs_script vs) (vs_script_length vs).

Definition neoc_verification_script_get_address `{Crypto} (junk : byte)
    (vs : neoc_verification_script_t) : res (list byte) :=
  let? hash := neoc_verification_script_get_script_hash vs in
  let buffer_size := neoc_base58_check_encode_buffer_size (1 + NEOC_HASH160_SIZE) in
  if negb (neoc_malloc_ok buffer_size) then Err NEOC_ERROR_MEMORY
  else
    match neoc_hash160_to_address junk hash buffer_size
            (replicate (Z.to_nat buffer_size) junk) with
    | (Ok _, addr) => Ok (cstring addr)
    | (Err e, _) => Err e
    | (Fault, _) => Fault
    end.

Definition neoc_verification_script_copy (source : neoc_verification_script_t)
  : res neoc_verification_script_t :=
  neoc_verification_script_allocate (vs_script source) (vs_script_length source).

(** Two NULL pointers are the same pointer. *)
Definition neoc_verification_script_equals (s1 s2 : option neoc_verification_script_t)
  : res bool :=
  match s1, s2 with
  | None, None => Ok true
  | Some a, Some b =>
      if negb (vs_script_length a =? vs_script_length b) then Ok false
      else if vs_script_length a =? 0 then Ok true
      else
        match vs_script a, vs_script b with
        | Some x, Some y =>
            let? x := memcpy_from x (vs_script_length a) in
            let? y := memcpy_from y (vs_script_length a) in
            Ok (memcmp_loop x y =? 0)
        | _, _ => Fault
        end
  | _, _ => Ok false
  end.

Definition neoc_verification_script_serialize (vs : neoc_verification_script_t)
  : res (list byte) :=
  serialize_with 32
    (neoc_binary_writer_write_var_bytes (vs_script vs) (vs_script_length vs)).

Definition neoc_verification_script_deserialize (serialized : option (list byte))
    (serialized_length : Z) : res neoc_verification_script_t :=
  match serialized with
  | None => Err NEOC_ERROR_INVALID_ARGUMENT
  | Some _ =>
      let? reader := neoc_binary_reader_create serialized serialized_length in
      let? data := fst (neoc_binary_reader_read_var_bytes reader) in
      neoc_verification_script_allocate data (zlen (default [] data))
  end.

Definition neoc_verification_script_clear : M neoc_verification_script_t unit :=
  put (mk_vs None 0).

End Operations.

(** ** The order of the keys *)

Lemma key_compare_lex a b : neoc_key_entry_compare a b = lex (ke_data a) (ke_data b).
Proof.
  destruct a as [a], b as [b]. unfold neoc_key_entry_compare, ke_length. cbn [ke_data].
  revert b. induction a as [|x a IH]; intros [|y b]; cbn [lex].
  - reflexivity.
  - change (zlen []) with 0. rewrite zlen_cons. pose proof (zlen_nonneg b). cmps. done.
  - change (zlen []) with 0. rewrite zlen_cons. pose proof (zlen_nonneg a). cmps. done.
  - rewrite <- IH. clear IH. rewrite !zlen_cons.
    pose proof (zlen_nonneg a). pose proof (zlen_nonneg b).
    replace (1 + zlen a <? 1 + zlen b) with (zlen a <? zlen b) by lia.
    replace (1 + zlen a =? 1 + zlen b) with (zlen a =? zlen b) by lia.
    destruct (zlen a <? zlen b);
      rewrite Z2Nat.inj_add by lia; change (Z.to_nat 1) with 1%nat;
      cbn [take Nat.add memcmp_loop]; repeat destruct (_ <? _); done.
Qed.

#[global] Instance entry_le_trans : Transitive entry_le.
Proof. intros a b c. unfold entry_le. rewrite !key_compare_lex. apply lex_trans. Qed.
#[global] Instance entry_le_total : Total entry_le.
Proof.
  intros a b. unfold entry_le. rewrite !key_compare_lex, (lex_opp (ke_data a)).
  destruct (Z_le_gt_dec (lex (ke_data a) (ke_data b)) 0); [left|right]; lia.
Qed.
#[global] Instance entry_le_antisymm : AntiSymm (=) entry_le.
Proof.
  intros [a] [b]. unfold entry_le. rewrite !key_compare_lex, (lex_opp a). cbn [ke_data].
  intros. f_equal. apply lex_refl. lia.
Qed.

Lemma qsort_Permutation l : qsort l ≡ₚ l.
Proof. apply merge_sort_Permutation. Qed.

(** Sorting forgets the order of the keys. *)
Lemma qsort_unique l k : l ≡ₚ k -> qsort l = qsort k.
Proof.
  intros Hp. apply (StronglySorted_unique entry_le).
  - apply StronglySorted_merge_sort; apply _.
  - apply StronglySorted_merge_sort; apply _.
  - rewrite !qsort_Permutation. done.
Qed.

(** ** Parsing integers *)

Lemma at_app pre b rest : at_ (pre ++ b :: rest) (zlen pre) = Ok (Z_of_byte b).
Proof.
  unfold at_, buf_get. pose proof (zlen_nonneg pre). cmps.
  unfold zlen. rewrite Nat2Z.id, list_lookup_middle by done. done.
Qed.

Lemma or_loop_app pre acc bs rest :
  or_loop (pre ++ acc ++ bs ++ rest) (zlen pre) (zlen acc) (length bs) (le_val acc) =
  Ok (le_val (acc ++ bs)).
Proof.
  revert acc. induction bs as [|b bs IH]; intros acc; cbn [or_loop length].
  { rewrite app_nil_r. done. }
  rewrite <- zlen_app, app_assoc. cbn [app]. rewrite at_app. cbn [rbind].
  pose proof (le_val_range acc) as Hr. change 256 with (2 ^ 8) in Hr.
  pose proof (zlen_nonneg acc). rewrite <- Z.pow_mul_r in Hr by lia.
  rewrite lor_shiftl_add by lia.
  replace (le_val acc + Z_of_byte b * 2 ^ (8 * zlen acc)) with (le_val (acc ++ [b])).
  2: { rewrite le_val_app. cbn [le_val]. change 256 with (2 ^ 8) at 1.
       rewrite <- Z.pow_mul_r by lia. lia. }
  replace (zlen acc + 1) with (zlen (acc ++ [b])) by zlia.
  replace ((pre ++ acc) ++ b :: bs ++ rest) with (pre ++ (acc ++ [b]) ++ bs ++ rest)
    by (rewrite <- !app_assoc; done).
  rewrite IH, <- app_assoc. done.
Qed.

(** The integer an instruction pushes and the number of its operand bytes. *)
Definition int_operand (n : nat) (width : Z) (rest : list byte) : res (Z * nat) :=
  if (n <=? length rest)%nat then
    let v := le_val (take n rest) in
    if 2 ^ (width - 1) <=? v then Fault else Ok (swrap (8 * Z.of_nat n) v, n)
  else Err NEOC_ERROR_INVALID_FORMAT.

Definition int_of (op : byte) (rest : list byte) : res (Z * nat) :=
  let o := Z_of_byte op in
  if o =? NEOC_OP_PUSHM1 then Ok (-1, 0%nat)
  else if (NEOC_OP_PUSH0 <=? o) && (o <=? NEOC_OP_PUSH16)
  then Ok (o - NEOC_OP_PUSH0, 0%nat)
  else if o =? NEOC_OP_PUSHINT8 then int_operand 1 32 rest
  else if o =? NEOC_OP_PUSHINT16 then int_operand 2 32 rest
  else if o =? NEOC_OP_PUSHINT32 then int_operand 4 32 rest
  else if o =? NEOC_OP_PUSHINT64 then int_operand 8 64 rest
  else Err NEOC_ERROR_INVALID_FORMAT.

(** An instruction that pushes a negative number of four or eight bytes. *)
Definition wide_negative (op : byte) (rest : list byte) : Prop :=
  (Z_of_byte op = NEOC_OP_PUSHINT32 /\ (4 <= length rest)%nat /\ swrap 32 (le_val (take 4 rest)) < 0) \/
  (Z_of_byte op = NEOC_OP_PUSHINT64 /\ (8 <= length rest)%nat /\ swrap 64 (le_val (take 8 rest)) < 0).

Ltac unfold_ops :=
  cbv beta iota delta [NEOC_OP_PUSHINT8 NEOC_OP_PUSHINT16 NEOC_OP_PUSHINT32 NEOC_OP_PUSHINT64
    NEOC_OP_PUSHNULL NEOC_OP_PUSHDATA1 NEOC_OP_PUSHDATA2 NEOC_OP_PUSHDATA4 NEOC_OP_PUSHM1
    NEOC_OP_PUSH0 NEOC_OP_PUSH1 NEOC_OP_PUSH16 NEOC_OP_SYSCALL] in *.

(** The parser in terms of [int_of]: it never reads outside the script. *)
Lemma parse_push_int_spec pre op rest :
  let script := pre ++ op :: rest in
  neoc_verification_script_parse_push_int (Some script) (zlen script) (zlen pre) =
  match int_of op rest with
  | Ok (v, n) => (Ok v, zlen pre + 1 + Z.of_nat n)
  | Err e => (Err e, zlen pre + 1)
  | Fault => (Fault, zlen pre + 1)
  end.
Proof.
  cbv zeta. unfold neoc_verification_script_parse_push_int, get.
  rewrite (bind_ok _ _ _ (zlen pre) (zlen pre)) by done.
  replace (zlen (pre ++ op :: rest) <=? zlen pre) with false by (symmetry; apply Z.leb_gt; zlia).
  rewrite at_app, bind_lift. cbv zeta. unfold put at 1. unfold bind at 1.
  assert (forall n width,
    (if zlen (pre ++ op :: rest) <? zlen pre + 1 + Z.of_nat n
     then fail NEOC_ERROR_INVALID_FORMAT
     else let! v := lift (or_loop (pre ++ op :: rest) (zlen pre + 1) 0 n 0) in
          if 2 ^ (width - 1) <=? v then fault
          else do! put (zlen pre + 1 + Z.of_nat n) in ret (swrap (8 * Z.of_nat n) v))
      (zlen pre + 1) =
    match int_operand n width rest with
    | Ok (v, n) => (Ok v, zlen pre + 1 + Z.of_nat n)
    | Err e => (Err e, zlen pre + 1)
    | Fault => (Fault, zlen pre + 1)
    end) as Hop.
  { intros n width. unfold int_operand. rewrite zlen_app, zlen_cons. unfold zlen at 2.
    destruct (n <=? length rest)%nat eqn:E.
    - apply Nat.leb_le in E. cmps.
      pose proof (or_loop_app (pre ++ [op]) [] (take n rest) (drop n rest)) as Ho.
      rewrite length_take, Nat.min_l, zlen_app in Ho by done.
      cbn [app le_val] in Ho. rewrite take_drop, <- app_assoc in Ho.
      change (zlen []) with 0 in Ho. change (zlen [op]) with 1 in Ho. cbn [app] in Ho.
      rewrite Ho, bind_lift. by destruct (_ <=? _).
    - apply Nat.leb_gt in E. cmps. done. }
  unfold int_of. unfold_ops. pose proof (Z_of_byte_range op).
  destruct (Z_of_byte op =? 15) eqn:E1; bdestruct; [unfold ret; rewrite Z.add_0_r; done|].
  destruct (Z_of_byte op =? 16) eqn:E2; bdestruct.
  { rewrite E2. unfold ret. cbn. rewrite Z.add_0_r. done. }
  replace ((16 <=? Z_of_byte op) && (Z_of_byte op <=? 32))
    with ((17 <=? Z_of_byte op) && (Z_of_byte op <=? 32)) by lia.
  destruct (_ && _); [unfold ret; rewrite Z.add_0_r; done|].
  repeat (match goal with |- context [if Z_of_byte op =? ?c then _ else _] =>
            destruct (Z_of_byte op =? c) end; [apply Hop|]).
  done.
Qed.

(** Where the parser's shifts are undefined. *)
Lemma int_of_fault op rest : int_of op rest = Fault -> wide_negative op rest.
Proof.
  assert (forall n width, (0 < n)%nat -> int_operand n width rest = Fault ->
    (n <= length rest)%nat /\ 2 ^ (width - 1) <= le_val (take n rest) < 2 ^ (8 * Z.of_nat n)) as Hop.
  { intros n width Hn. unfold int_operand. destruct (Nat.leb_spec n (length rest)); [|done].
    destruct (Z.leb_spec (2 ^ (width - 1)) (le_val (take n rest))); [|done]. intros _. split; [done|].
    pose proof (le_val_range (take n rest)) as Hr. unfold zlen in Hr. rewrite length_take, Nat.min_l in Hr by done.
    change 256 with (2 ^ 8) in Hr. rewrite <- Z.pow_mul_r in Hr by lia. lia. }
  assert (forall w v, 2 ^ (w - 1) <= v < 2 ^ w -> 0 < w -> swrap w v < 0) as Hneg.
  { intros w v Hv Hw. unfold swrap, wrap. rewrite Z.mod_small by (pose proof (Z.pow_pos_nonneg 2 (w - 1)); lia).
    destruct (Z.ltb_spec v (2 ^ (w - 1))); lia. }
  unfold int_of, wide_negative. intros E.
  destruct (_ =? NEOC_OP_PUSHM1) in E; [done|]. destruct (_ && _) in E; [done|].
  destruct (_ =? NEOC_OP_PUSHINT8) in E; [apply Hop in E; [eval_pows; lia|lia]|].
  destruct (_ =? NEOC_OP_PUSHINT16) in E; [apply Hop in E; [eval_pows; lia|lia]|].
  destruct (Z.eqb_spec (Z_of_byte op) NEOC_OP_PUSHINT32) as [Eo|_] in E.
  { apply Hop in E as [Hl Hv]; [|lia]. left. split_and!; [done|done|]. apply Hneg; lia. }
  destruct (Z.eqb_spec (Z_of_byte op) NEOC_OP_PUSHINT64) as [Eo|_] in E; [|done].
  apply Hop in E as [Hl Hv]; [|lia]. right. split_and!; [done|done|]. apply Hneg; lia.
Qed.

Lemma int_operand_pushes op n width rest v m :
  int_operand n width rest = Ok (v, m) ->
  (forall script stack, step (op :: script, stack) = push_int n script stack) ->
  (m <= length rest)%nat /\ pushes (op :: take m rest) (Integer v).
Proof.
  unfold int_operand. destruct (n <=? length rest)%nat eqn:E; [|done].
  apply Nat.leb_le in E. cbv zeta. destruct (_ <=? _); [done|]. intros [= <- <-] Hs. split; [done|]. apply pushes_step.
  intros tail stack. cbn [app]. rewrite Hs. unfold push_int, operand.
  rewrite length_app, length_take, Nat.min_l by done.
  replace (n <=? n + length tail)%nat with true by (symmetry; apply Nat.leb_le; lia).
  rewrite take_app_length', drop_app_length' by (rewrite length_take; lia). done.
Qed.

(** What the parser accepts pushes the integer it returns. *)
Lemma int_of_pushes op rest v n :
  int_of op rest = Ok (v, n) ->
  (n <= length rest)%nat /\ pushes (op :: take n rest) (Integer v).
Proof.
  unfold int_of. intros E. pose proof (Z_of_byte_range op) as Hr.
  destruct (Z_of_byte op =? NEOC_OP_PUSHM1) eqn:E1.
  { injection E as <- <-. split; [lia|]. apply pushes_step. intros tail stack.
    cbn [take app step]. unfold_ops. bdestruct. rewrite E1. done. }
  destruct (_ && _) eqn:E2 in E.
  { injection E as <- <-. split; [lia|]. apply pushes_step. intros tail stack.
    cbn [take app step]. unfold_ops. bdestruct. cmps. done. }
  repeat match type of E with
  | (if ?o =? ?c then _ else _) = _ =>
      let F := fresh "F" in destruct (o =? c) eqn:F;
      [apply int_operand_pushes with (op := op) in E; [done|];
       intros script stack; cbn [step]; unfold_ops; bdestruct; rewrite F; done|]
  end.
  discriminate.
Qed.

Lemma int_operand_le n width v rest :
  (0 < n)%nat -> - 2 ^ (8 * Z.of_nat n - 1) <= v < 2 ^ (8 * Z.of_nat n - 1) ->
  wrap (8 * Z.of_nat n) v < 2 ^ (width - 1) ->
  int_operand n width (le_bytes n v ++ rest) = Ok (v, n).
Proof.
  intros Hn Hv Hw. unfold int_operand. rewrite length_app, length_le_bytes.
  replace (n <=? n + length rest)%nat with true by (symmetry; apply Nat.leb_le; lia).
  rewrite take_app_length' by (by rewrite length_le_bytes).
  rewrite le_val_le_bytes. replace (256 ^ Z.of_nat n) with (2 ^ (8 * Z.of_nat n)).
  2: { rewrite Z.pow_mul_r by lia. done. }
  fold (wrap (8 * Z.of_nat n) v). cbv zeta. replace (_ <=? _) with false by lia.
  rewrite swrap_wrap, swrap_small by lia. done.
Qed.

Lemma int_of_push v rest :
  int64 v = true -> -32768 <= v ->
  exists op bs, push_integer_bytes v = op :: bs /\ int_of op (bs ++ rest) = Ok (v, length bs).
Proof.
  unfold int64, push_integer_bytes. intros Hv Hmin. bdestruct.
  destruct (v =? -1) eqn:E1; bdestruct; [subst v; by eexists _, _|].
  destruct ((0 <=? v) && (v <=? 16)) eqn:E2; bdestruct.
  { eexists _, _. split; [done|]. unfold int_of. unfold_ops.
    rewrite !Z_of_byte_small by lia. cmps. rewrite Z.add_simpl_l. done. }
  destruct ((-128 <=? v) && (v <=? 127)) eqn:E3; bdestruct.
  { eexists _, _. split; [done|]. apply (int_operand_le 1 32); [lia|eval_pows; lia|change (8 * Z.of_nat 1) with 8; pose proof (wrap_range 8 v ltac:(lia)); eval_pows; lia]. }
  destruct ((-32768 <=? v) && (v <=? 32767)) eqn:E4; bdestruct.
  { eexists _, _. split; [done|]. apply (int_operand_le 2 32); [lia|eval_pows; lia|change (8 * Z.of_nat 2) with 16; pose proof (wrap_range 16 v ltac:(lia)); eval_pows; lia]. }
  destruct ((-2147483648 <=? v) && (v <=? 2147483647)) eqn:E5; bdestruct.
  - eexists _, _. split; [done|]. apply (int_operand_le 4 32); [lia|eval_pows; lia|rewrite wrap_small; eval_pows; lia].
  - eexists _, _. split; [done|]. apply (int_operand_le 8 64); [lia|eval_pows; lia|rewrite wrap_small; eval_pows; lia].
Qed.

(** Round trip of [neoc_script_builder_push_integer] and the parser. *)
Lemma parse_pushed pre v rest :
  int64 v = true -> -32768 <= v ->
  let script := pre ++ push_integer_bytes v ++ rest in
  neoc_verification_script_parse_push_int (Some script) (zlen script) (zlen pre) =
  (Ok v, zlen (pre ++ push_integer_bytes v)).
Proof.
  intros Hv Hmin. destruct (int_of_push v rest Hv Hmin) as (op & bs & -> & E). cbv zeta. cbn [app].
  rewrite parse_push_int_spec, E. f_equal. unfold zlen. rewrite length_app. cbn. lia.
Qed.

(** ** Parsing keys *)

Definition key_push (k : list byte) : list byte :=
  byte_of_Z NEOC_OP_PUSHDATA1 :: byte_of_Z 33 :: k.

Lemma push_data_key k : zlen k = 33 -> push_data_bytes k = key_push k.
Proof. intros Hk. unfold push_data_bytes. rewrite Hk. done. Qed.

Lemma split_at (script : list byte) i :
  0 <= i < zlen script -> exists pre op rest, script = pre ++ op :: rest /\ i = zlen pre.
Proof.
  intros Hi. destruct (lookup_lt_is_Some_2 script (Z.to_nat i)) as [op Ho].
  { unfold zlen in Hi. lia. }
  exists (take (Z.to_nat i) script), op, (drop (S (Z.to_nat i)) script). split.
  - by rewrite take_drop_middle.
  - unfold zlen in *. rewrite length_take. lia.
Qed.

Definition keys_push (keys : list (list byte)) : list byte := concat (map key_push keys).

Lemma at_next pre a b rest : at_ (pre ++ a :: b :: rest) (zlen pre + 1) = Ok (Z_of_byte b).
Proof.
  pose proof (at_app (pre ++ [a]) b rest) as E. rewrite zlen_app, <- app_assoc in E. exact E.
Qed.

(** One key ahead: the scan moves past it. *)
Lemma scan_keys_step fuel pre k rest c :
  zlen k = 33 ->
  let script := pre ++ key_push k ++ rest in
  scan_keys (S fuel) script (zlen script) (zlen pre) c =
  scan_keys fuel script (zlen script) (zlen (pre ++ key_push k)) (c + 1).
Proof.
  intros Hk. cbv zeta. unfold key_push. cbn [app scan_keys].
  rewrite at_app, at_next. cbn [rbind]. rewrite !Z_of_byte_small by (unfold_ops; lia).
  rewrite !zlen_app, !zlen_cons, zlen_app, Hk.
  unfold NEOC_PUBLIC_KEY_SIZE_COMPRESSED. pose proof (zlen_nonneg pre).
  pose proof (zlen_nonneg rest). rewrite Z.eqb_refl. cmps. f_equal; lia.
Qed.

Lemma scan_keys_stop fuel pre op rest c :
  Z_of_byte op <> NEOC_OP_PUSHDATA1 ->
  let script := pre ++ op :: rest in
  scan_keys (S fuel) script (zlen script) (zlen pre) c = Ok (Some (zlen pre, c)).
Proof.
  intros Hn. cbv zeta. cbn [scan_keys].
  replace (zlen pre <? zlen (pre ++ op :: rest)) with true by (symmetry; apply Z.ltb_lt; zlia).
  rewrite at_app. cbn [rbind]. cmps. done.
Qed.

Lemma scan_keys_complete fuel pre keys op rest c :
  Forall (fun k => zlen k = 33) keys -> (length keys < fuel)%nat ->
  Z_of_byte op <> NEOC_OP_PUSHDATA1 ->
  let script := pre ++ keys_push keys ++ op :: rest in
  scan_keys fuel script (zlen script) (zlen pre) c =
  Ok (Some (zlen (pre ++ keys_push keys), c + zlen keys)).
Proof.
  intros Hk Hf Hn. cbv zeta. revert fuel pre c Hf.
  induction Hk as [|k keys Hk _ IH]; intros [|fuel] pre c Hf; cbn [length] in Hf; try lia.
  - change (keys_push []) with (@nil byte). cbn [app].
    rewrite scan_keys_stop, app_nil_r, Z.add_0_r by done. done.
  - change (keys_push (k :: keys)) with (key_push k ++ keys_push keys). rewrite <- app_assoc.
    rewrite scan_keys_step by done. rewrite app_assoc, IH by lia.
    rewrite app_assoc, zlen_cons. do 3 f_equal. lia.
Qed.

Lemma count_keys_complete fuel pre keys op rest c :
  Forall (fun k => zlen k = 33) keys -> (length keys < fuel)%nat ->
  Z_of_byte op <> NEOC_OP_PUSHDATA1 ->
  let script := pre ++ keys_push keys ++ op :: rest in
  count_keys fuel script (zlen script) (zlen pre) c = Ok (c + zlen keys).
Proof.
  intros Hk Hf Hn. cbv zeta. revert fuel pre c Hf.
  induction Hk as [|k keys Hk _ IH]; intros [|fuel] pre c Hf; cbn [length] in Hf; try lia.
  - change (keys_push []) with (@nil byte). cbn [app count_keys].
    replace (zlen pre <? zlen (pre ++ op :: rest)) with true
      by (symmetry; apply Z.ltb_lt; zlia).
    rewrite at_app. cbn [rbind]. cmps. rewrite Z.add_0_r. done.
  - change (keys_push (k :: keys)) with (key_push k ++ keys_push keys). rewrite <- app_assoc.
    cbn [count_keys]. unfold key_push at 2. cbn [app]. rewrite at_app. cbn [rbind].
    rewrite Z_of_byte_small by (unfold_ops; lia). rewrite Z.eqb_refl.
    replace (zlen pre <? _) with true by (symmetry; apply Z.ltb_lt; unfold key_push; zlia).
    replace (zlen pre + (2 + NEOC_PUBLIC_KEY_SIZE_COMPRESSED)) with (zlen (pre ++ key_push k))
      by (unfold key_push, NEOC_PUBLIC_KEY_SIZE_COMPRESSED; zlia).
    rewrite app_assoc, IH by lia. rewrite zlen_cons. f_equal. lia.
Qed.

(** Behind a [PUSHDATA1] there is a key, or the scan rejects the script. *)
Lemma key_push_shape op rest :
  Z_of_byte op = NEOC_OP_PUSHDATA1 ->
  (exists k tail, op :: rest = key_push k ++ tail /\ zlen k = 33) \/
  (forall fuel pre c, scan_keys (S fuel) (pre ++ op :: rest) (zlen (pre ++ op :: rest))
                        (zlen pre) c = Ok None).
Proof.
  intros Hop. pose proof (zlen_nonneg rest).
  assert (op = byte_of_Z NEOC_OP_PUSHDATA1) as ->.
  { apply Z_of_byte_inj. rewrite Hop. done. }
  destruct rest as [|len rest].
  { right. intros fuel pre c. cbn [scan_keys]. rewrite at_app. cbn [rbind].
    rewrite Hop, zlen_app, zlen_cons. change (zlen []) with 0. rewrite Z.eqb_refl. cmps. done. }
  destruct (decide (Z_of_byte len = 33)) as [Hl|Hl].
  2: { right. intros fuel pre c. cbn [scan_keys]. rewrite at_app, at_next. cbn [rbind].
       rewrite Hop, zlen_app, !zlen_cons. pose proof (zlen_nonneg rest).
       unfold NEOC_PUBLIC_KEY_SIZE_COMPRESSED. rewrite Z.eqb_refl. cmps. done. }
  assert (len = byte_of_Z 33) as -> by (apply Z_of_byte_inj; rewrite Hl; done).
  destruct (decide (33 <= zlen rest)) as [Hr|Hr].
  - left. exists (take 33 rest), (drop 33 rest). unfold zlen in *. split.
    + unfold key_push. cbn [app]. rewrite take_drop. done.
    + rewrite length_take. lia.
  - right. intros fuel pre c. cbn [scan_keys]. rewrite at_app, at_next. cbn [rbind].
    rewrite Hop, Hl, zlen_app, !zlen_cons. pose proof (zlen_nonneg rest).
    unfold NEOC_PUBLIC_KEY_SIZE_COMPRESSED. rewrite !Z.eqb_refl. cmps. done.
Qed.

(** The scan of any bytes: it ends inside the script, and what it went over is a
    sequence of pushes of 33-byte keys. *)
Lemma scan_keys_sound fuel pre rest c :
  (length rest < fuel)%nat ->
  match scan_keys fuel (pre ++ rest) (zlen (pre ++ rest)) (zlen pre) c with
  | Fault => False
  | Err _ => False
  | Ok None => True
  | Ok (Some (offset, count)) =>
      exists keys tail, rest = keys_push keys ++ tail /\ Forall (fun k => zlen k = 33) keys /\
        offset = zlen (pre ++ keys_push keys) /\ count = c + zlen keys
  end.
Proof.
  revert pre rest c. induction fuel as [|fuel IH]; intros pre rest c Hf; [lia|].
  destruct rest as [|op rest].
  { cbn [scan_keys]. rewrite app_nil_r, Z.ltb_irrefl. exists [], []. split_and!; try done.
    - by rewrite app_nil_r.
    - change (zlen []) with 0. lia. }
  destruct (decide (Z_of_byte op = NEOC_OP_PUSHDATA1)) as [Hop|Hop].
  2: { rewrite scan_keys_stop by done. exists [], (op :: rest). split_and!; try done.
       - by rewrite app_nil_r.
       - change (zlen []) with 0. lia. }
  destruct (key_push_shape op rest Hop) as [(k & tail & E & Hk)|Hno].
  - rewrite E, scan_keys_step by done.
    specialize (IH (pre ++ key_push k) tail (c + 1)).
    rewrite <- app_assoc in IH. destruct (scan_keys fuel _ _ _ _) as [[[o n]|]|e|]; try apply IH.
    2-4: apply (f_equal length) in E; cbn in E, Hf; rewrite length_app in E; lia.
    destruct IH as (keys & tail' & -> & Hks & -> & ->).
    { apply (f_equal length) in E; cbn in E, Hf; rewrite length_app in E; lia. }
    exists (k :: keys), tail'. change (keys_push (k :: keys)) with (key_push k ++ keys_push keys).
    rewrite <- !app_assoc. split_and!; [done|by constructor|done|rewrite zlen_cons; lia].
  - rewrite Hno. done.
Qed.

(** ** Signature scripts *)

Section Scripts.
Context `{Interop}.

Definition multi_sig_bytes (m : Z) (keys : list (list byte)) : list byte :=
  push_integer_bytes m ++ keys_push keys ++ push_integer_bytes (zlen keys) ++
  syscall_bytes NEOC_INTEROP_SYSTEM_CRYPTO_CHECKMULTISIG.

Definition single_sig_bytes (key : list byte) : list byte :=
  key_push key ++ syscall_bytes NEOC_INTEROP_SYSTEM_CRYPTO_CHECKSIG.

(** A script object as the library makes it. *)
Definition vs_of (script : list byte) : neoc_verification_script_t :=
  mk_vs (as_pointer script) (zlen script).

Definition valid_multi (m : Z) (keys : list (list byte)) : Prop :=
  Forall (fun k => zlen k = 33) keys /\ 1 <= m <= zlen keys /\
  zlen keys <= NEOC_MAX_PUBLIC_KEYS_PER_MULTISIG_ACCOUNT.

Lemma as_pointer_some (l : list byte) : 0 < zlen l -> as_pointer l = Some l.
Proof. by destruct l. Qed.

Lemma int_of_not_data op rest v n :
  int_of op rest = Ok (v, n) -> Z_of_byte op <> NEOC_OP_PUSHDATA1.
Proof. unfold int_of. unfold_ops. intros E Hop. rewrite Hop in E. discriminate. Qed.

Lemma keys_push_length keys :
  Forall (fun k => zlen k = 33) keys -> zlen (keys_push keys) = 35 * zlen keys.
Proof.
  induction 1 as [|k keys Hk _ IH]; [done|].
  change (keys_push (k :: keys)) with (key_push k ++ keys_push keys).
  unfold key_push. rewrite zlen_app, !zlen_cons. lia.
Qed.

Lemma push_integer_nonempty v : 1 <= zlen (push_integer_bytes v).
Proof.
  unfold push_integer_bytes. repeat (destruct (_ : bool)); rewrite zlen_cons;
    (match goal with |- 1 <= 1 + zlen ?l => pose proof (zlen_nonneg l) end); lia.
Qed.

Lemma syscall_bytes_length s : zlen (syscall_bytes s) = 5.
Proof. done. Qed.

Lemma load32_syscall pre s :
  load32 (pre ++ syscall_bytes s) (zlen pre + 1) = Ok (service_hash s).
Proof.
  unfold load32, syscall_bytes.
  pose proof (buf_slice_app (pre ++ [byte_of_Z NEOC_OP_SYSCALL])
                (le_bytes 4 (service_hash s)) []) as E.
  rewrite app_nil_r, <- app_assoc, zlen_app in E. cbn [app] in E.
  change (zlen [byte_of_Z NEOC_OP_SYSCALL]) with 1 in E.
  change (zlen (le_bytes 4 (service_hash s))) with 4 in E. rewrite E.
  rewrite le_val_le_bytes_small; [done|].
  pose proof (service_hash_range s). eval_pows. lia.
Qed.

Lemma multi_size m keys :
  valid_multi m keys ->
  42 <= zlen (multi_sig_bytes m keys) /\
  35 * zlen keys + 7 <= zlen (multi_sig_bytes m keys) <= 35 * zlen keys + 23.
Proof.
  intros (Hk & Hm & Hn). unfold multi_sig_bytes.
  rewrite !zlen_app, keys_push_length, syscall_bytes_length by done.
  pose proof (push_integer_size m). pose proof (push_integer_size (zlen keys)).
  pose proof (push_integer_nonempty m). pose proof (push_integer_nonempty (zlen keys)). lia.
Qed.

Lemma valid_multi_int64 m keys :
  valid_multi m keys -> int64 m = true /\ int64 (zlen keys) = true.
Proof.
  unfold valid_multi, NEOC_MAX_PUBLIC_KEYS_PER_MULTISIG_ACCOUNT, int64. intros (_ & ? & ?).
  eval_pows. lia.
Qed.

(** The recogniser on a script whose parts parse. *)
Lemma is_multi_sig_run pre m n o1 o2 :
  let script := pre ++ syscall_bytes NEOC_INTEROP_SYSTEM_CRYPTO_CHECKMULTISIG in
  let parse := neoc_verification_script_parse_push_int (Some script) (zlen script) in
  42 <= zlen script -> 1 <= m <= n -> n <= NEOC_MAX_PUBLIC_KEYS_PER_MULTISIG_ACCOUNT ->
  parse 0 = (Ok m, o1) ->
  scan_keys (S (length script)) script (zlen script) o1 0 = Ok (Some (o2, n)) ->
  parse o2 = (Ok n, zlen pre) ->
  neoc_verification_script_is_multi_sig (vs_of script) = Ok true.
Proof.
  cbv zeta. set (script := pre ++ _). intros Hl Hm Hn P1 S1 P2.
  unfold neoc_verification_script_is_multi_sig, vs_of. cbn [vs_script vs_script_length].
  rewrite as_pointer_some by lia. cbn [from_option id].
  unfold NEOC_MAX_PUBLIC_KEYS_PER_MULTISIG_ACCOUNT in *. cmps.
  rewrite P1. cmps.
  rewrite S1. cbn [rbind]. cmps. rewrite P2. cmps.
  assert (zlen script = zlen pre + 5) as Hs by (unfold script; rewrite zlen_app; done).
  rewrite !Hs. cmps. unfold script at 1, syscall_bytes. rewrite at_app. cbn [rbind].
  change (negb (_ =? NEOC_OP_SYSCALL)) with false. cbv iota.
  unfold script. rewrite load32_syscall. cbn [rbind].
  unfold neoc_verification_script_expected_hash. cmps. done.
Qed.

(** What is built is recognised. *)
Lemma multi_recognised m keys :
  valid_multi m keys ->
  neoc_verification_script_is_multi_sig (vs_of (multi_sig_bytes m keys)) = Ok true.
Proof.
  intros Hv. pose proof (multi_size _ _ Hv). destruct (valid_multi_int64 _ _ Hv) as [I1 I2].
  destruct Hv as (Hk & Hm & Hn). unfold multi_sig_bytes in *.
  set (sys := syscall_bytes _) in *. set (pm := push_integer_bytes m) in *.
  set (pn := push_integer_bytes (zlen keys)) in *.
  pose proof (parse_pushed [] m (keys_push keys ++ pn ++ sys) I1 ltac:(lia)) as P1.
  pose proof (parse_pushed (pm ++ keys_push keys) (zlen keys) sys I2 ltac:(lia)) as P2.
  destruct (int_of_push (zlen keys) sys I2 ltac:(lia)) as (op & bs & Ep & Ei).
  fold pm pn in P1, P2, Ep. cbv zeta in P1, P2. rewrite <- !app_assoc in P2.
  assert (pm ++ keys_push keys ++ pn ++ sys = (pm ++ keys_push keys ++ pn) ++ sys) as E
    by (rewrite <- !app_assoc; done).
  rewrite E. eapply is_multi_sig_run; fold sys; rewrite <- ?E; [lia|exact Hm|done|exact P1| |exact P2].
  rewrite Ep. cbn [app].
  apply (scan_keys_complete _ pm keys op (bs ++ sys) 0 Hk);
    [unfold zlen in *; rewrite !length_app; pose proof (keys_push_length keys Hk);
     unfold zlen in *; lia|by eapply int_of_not_data].
Qed.

(** The parser on any bytes. *)
Lemma parse_sound pre rest :
  match neoc_verification_script_parse_push_int (Some (pre ++ rest)) (zlen (pre ++ rest))
          (zlen pre) with
  | (Fault, _) => exists op tail, rest = op :: tail /\ wide_negative op tail
  | (Err _, _) => True
  | (Ok v, offset) => exists pv tail,
      rest = pv ++ tail /\ offset = zlen (pre ++ pv) /\ pushes pv (Integer v)
  end.
Proof.
  destruct rest as [|op rest].
  { unfold neoc_verification_script_parse_push_int, bind, get.
    rewrite app_nil_r, Z.leb_refl. done. }
  rewrite parse_push_int_spec. destruct (int_of op rest) as [[v n]|e|] eqn:E;
    [|done|exists op, rest; split; [done|by apply int_of_fault]].
  apply int_of_pushes in E as [Hn Hp]. exists (op :: take n rest), (drop n rest).
  split_and!; [cbn; by rewrite take_drop| |done].
  unfold zlen. rewrite length_app. cbn. rewrite length_take. lia.
Qed.

(** The end of the recogniser on any bytes. *)
Lemma syscall_tail pre rest s :
  let script := pre ++ rest in
  exists b,
  (if zlen script <=? zlen pre then Ok false
   else
     let? op := at_ script (zlen pre) in
     if negb (op =? NEOC_OP_SYSCALL) then Ok false
     else if zlen script <? zlen pre + 1 + 4 then Ok false
     else
       let? actual := load32 script (zlen pre + 1) in
       if negb (neoc_verification_script_expected_hash s =? actual) then Ok false
       else Ok (zlen pre + 1 + 4 =? zlen script)) = Ok b /\
  (b = true -> rest = syscall_bytes s).
Proof.
  cbv zeta. rewrite zlen_app. destruct rest as [|op rest].
  { change (zlen []) with 0. cmps. by exists false. }
  rewrite zlen_cons, at_app. pose proof (zlen_nonneg pre). pose proof (zlen_nonneg rest). cmps.
  cbn [rbind].
  destruct (Z_of_byte op =? NEOC_OP_SYSCALL) eqn:Eo; cbn [negb]; [|by exists false].
  destruct (_ <? _) eqn:El; bdestruct; [by exists false|].
  pose proof (buf_slice_app (pre ++ [op]) (take 4 rest) (drop 4 rest)) as Es.
  assert (zlen (take 4 rest) = 4) as H4 by (unfold zlen in *; rewrite length_take; lia).
  rewrite H4, take_drop, <- app_assoc, zlen_app in Es. change (zlen [op]) with 1 in Es.
  unfold load32. cbn [app] in Es. rewrite Es. cbn [rbind].
  unfold neoc_verification_script_expected_hash.
  destruct (_ =? le_val _) eqn:Eh; cbn [negb]; [|by exists false].
  eexists; split; [done|]. intros Hb. bdestruct.
  assert (rest = take 4 rest) as Er.
  { rewrite <- (take_drop 4 rest) at 1. rewrite (zlen_zero (drop 4 rest)), app_nil_r; [done|].
    unfold zlen in *. rewrite length_drop. lia. }
  unfold syscall_bytes. f_equal.
  - apply Z_of_byte_inj. rewrite Eo. done.
  - rewrite Eh, <- Er. change 4%nat with (Z.to_nat 4). rewrite <- H4, <- Er.
    unfold zlen. rewrite Nat2Z.id, le_bytes_le_val. done.
Qed.

(** The parser meets a number it cannot read: the threshold, or the count behind the keys. *)
Definition undefined_number (script : list byte) : Prop :=
  exists pre op rest, script = pre ++ op :: rest /\ wide_negative op rest /\
    (pre = [] \/ exists m keys pm, pre = pm ++ keys_push keys /\ pushes pm (Integer m)).

(** Every script the recogniser accepts has the shape of an m-of-n script; no
    script makes it read outside its bytes. *)
Lemma multi_sound script :
  (neoc_verification_script_is_multi_sig (vs_of script) = Fault /\ undefined_number script) \/
  exists b, neoc_verification_script_is_multi_sig (vs_of script) = Ok b /\
  (b = true -> exists m keys pm pn,
    script = pm ++ keys_push keys ++ pn ++
             syscall_bytes NEOC_INTEROP_SYSTEM_CRYPTO_CHECKMULTISIG /\
    valid_multi m keys /\ pushes pm (Integer m) /\ pushes pn (Integer (zlen keys)) /\
    fst (neoc_verification_script_parse_push_int (Some script) (zlen script) 0) = Ok m).
Proof.
  unfold neoc_verification_script_is_multi_sig, vs_of. cbn [vs_script vs_script_length].
  destruct (zlen script <? 42) eqn:E42; bdestruct; [by right; exists false|].
  rewrite as_pointer_some by lia. cbn [from_option id].
  pose proof (parse_sound [] script) as P1. cbn [app] in P1. change (zlen (@nil byte)) with 0 in P1.
  destruct (neoc_verification_script_parse_push_int _ _ 0) as [[m|e|] o1] eqn:F1;
    [|by right; exists false|left; split; [done|]].
  2: { destruct P1 as (op & rest & E & Hw). exists [], op, rest. split_and!; [done|done|by left]. }
  destruct P1 as (pm & rest & E1 & -> & Hpm).
  destruct (_ || _) eqn:Em; bdestruct; [by right; exists false|].
  pose proof (scan_keys_sound (S (length script)) pm rest 0) as S1. rewrite <- E1 in S1.
  destruct (scan_keys _ _ _ _ 0) as [[[o2 n]|]|e|] eqn:F2; cbn [rbind];
    [|by right; exists false|exfalso; apply S1; rewrite E1, length_app; lia..].
  destruct S1 as (keys & rest2 & E2 & Hk & -> & ->); [rewrite E1, length_app; lia|].
  rewrite Z.add_0_l in *.
  destruct (_ || _) eqn:En; bdestruct; [by right; exists false|].
  destruct (zlen keys <? m) eqn:Emn; bdestruct; [by right; exists false|].
  pose proof (parse_sound (pm ++ keys_push keys) rest2) as P2.
  rewrite <- app_assoc, <- E2, <- E1 in P2.
  destruct (neoc_verification_script_parse_push_int _ _ _) as [[n'|e|] o3] in P2 |- *;
    [|by right; exists false|left; split; [done|]].
  2: { destruct P2 as (op & tail & E & Hw). exists (pm ++ keys_push keys), op, tail.
       split_and!; [rewrite <- app_assoc, <- E, <- E2; done|done|right; by exists m, keys, pm]. }
  destruct P2 as (pn & rest3 & E3 & -> & Hpn).
  destruct (n' =? zlen keys) eqn:Enn; cbn [negb]; bdestruct; [|by right; exists false]. subst n'.
  assert (script = ((pm ++ keys_push keys) ++ pn) ++ rest3) as E4
    by (rewrite <- !app_assoc, <- E3, <- E2; done).
  destruct (syscall_tail ((pm ++ keys_push keys) ++ pn) rest3
              NEOC_INTEROP_SYSTEM_CRYPTO_CHECKMULTISIG) as (b & Hb & Hs).
  rewrite <- E4 in Hb. right. exists b. split; [exact Hb|]. intros ->. rewrite (Hs eq_refl) in E4.
  exists m, keys, pm, pn. rewrite <- !app_assoc in E4. split_and!; try done; lia.
Qed.

End Scripts.

Section Keys.
Context `{Allocator} `{Interop} `{Curve}.
Hypothesis Hc : curve_works.

Definition entry_of (k : neoc_ec_public_key_t) : neoc_key_entry_t := mk_entry (pk_compressed k).

(** The compressed keys in the order of the script. *)
Definition sorted_keys (keys : list neoc_ec_public_key_t) : list (list byte) :=
  map ke_data (qsort (map entry_of keys)).

Lemma sorted_keys_perm keys : sorted_keys keys ≡ₚ map pk_compressed keys.
Proof.
  unfold sorted_keys. rewrite qsort_Permutation, map_map. done.
Qed.

Lemma sorted_keys_length keys : zlen (sorted_keys keys) = zlen keys.
Proof. unfold zlen. rewrite sorted_keys_perm, length_map. done. Qed.

(** Every key of the script is the encoding of one of the given keys. *)
Lemma sorted_keys_from keys :
  Forall key_ok keys ->
  Forall (fun b => exists k, key_ok k /\ b = pk_compressed k) (sorted_keys keys).
Proof.
  intros Hk. rewrite sorted_keys_perm, Forall_map.
  eapply Forall_impl; [exact Hk|]. cbn. eauto.
Qed.

Lemma from_keys_size (ks : list (list byte)) :
  Forall (fun b => exists k, key_ok k /\ b = pk_compressed k) ks ->
  Forall (fun b => zlen b = 33) ks.
Proof. intros H3. eapply Forall_impl; [exact H3|]. intros b (k & Hk & ->). by apply key_size. Qed.

Lemma encode_keys_ok keys :
  Forall key_ok keys -> malloc_ok 33 = true ->
  encode_keys (map Some keys) (length keys) = Ok (map entry_of keys).
Proof.
  intros Hk Hm. induction Hk as [|k keys Hk _ IH]; [done|]. cbn [map encode_keys length].
  rewrite get_encoded_compressed by done. cbn [rbind]. rewrite IH. done.
Qed.

Lemma allocate_ok script :
  0 < zlen script -> heap_serves (Z.max 16 (zlen script)) ->
  neoc_verification_script_allocate (Some script) (zlen script) = Ok (vs_of script).
Proof.
  intros Hl Hh. unfold neoc_verification_script_allocate, neoc_malloc_ok, vs_struct_size, vs_of.
  cmps. rewrite !Hh by lia. cbn [negb]. rewrite buf_slice_all, as_pointer_some by done. done.
Qed.

Lemma keys_writes es :
  Forall (fun e => zlen (ke_data e) = 33) es ->
  writes (push_items (fun e => neoc_script_builder_push_data (Some (ke_data e)) (ke_length e))
            es (zlen es))
         (keys_push (map ke_data es)).
Proof.
  intros He. unfold keys_push. rewrite map_map.
  apply (push_items_writes _ (fun e => key_push (ke_data e))). intros e Hi.
  rewrite Forall_forall in He. rewrite <- push_data_key by (apply He; by apply list_elem_of_In).
  apply push_data_writes.
Qed.

Lemma create_multi_sig_ok keys m :
  Forall key_ok keys -> 1 <= m <= zlen keys ->
  zlen keys <= NEOC_MAX_PUBLIC_KEYS_PER_MULTISIG_ACCOUNT -> heap_serves (2 ^ 17) ->
  valid_multi m (sorted_keys keys) /\
  neoc_verification_script_create_multi_sig (Some (map Some keys)) (zlen keys) m =
  Ok (vs_of (multi_sig_bytes m (sorted_keys keys))).
Proof.
  intros Hk Hm Hn Hh. pose proof (from_keys_size _ (sorted_keys_from keys Hk)) as Hs.
  assert (valid_multi m (sorted_keys keys)) as Hv
    by (split; [done|]; rewrite sorted_keys_length; done).
  split; [done|]. pose proof (multi_size _ _ Hv) as Hsize.
  destruct (valid_multi_int64 _ _ Hv) as [I1 I2]. rewrite sorted_keys_length in Hsize, I2.
  unfold NEOC_MAX_PUBLIC_KEYS_PER_MULTISIG_ACCOUNT in *.
  unfold neoc_verification_script_create_multi_sig, neoc_malloc_ok, entry_struct_size,
    NEOC_MAX_PUBLIC_KEYS_PER_MULTISIG_ACCOUNT.
  rewrite !swrap_small by (eval_pows; lia). cmps. rewrite Hh by lia. cbn [negb].
  unfold zlen at 1. rewrite Nat2Z.id, encode_keys_ok by (done || apply Hh; lia). cbn [rbind].
  rewrite (script_with_ok _ (multi_sig_bytes m (sorted_keys keys))).
  - cbn [rbind]. apply allocate_ok; [lia|]. apply (heap_serves_mono _ _ Hh). eval_pows. lia.
  - unfold multi_sig_bytes. apply writes_bind; [by apply push_integer_writes|].
    apply writes_bind; [|apply writes_bind; [|apply emit_syscall_writes]].
    + replace (zlen keys) with (zlen (qsort (map entry_of keys))).
      * apply keys_writes. unfold sorted_keys in Hs. by rewrite Forall_map in Hs.
      * rewrite <- (sorted_keys_length keys). unfold sorted_keys. by rewrite zlen_map.
    + rewrite sorted_keys_length. by apply push_integer_writes.
  - unfold stream_max. eval_pows. lia.
  - apply (heap_serves_mono _ _ Hh). eval_pows. lia.
Qed.

(** Decoding the keys of a script. *)
Lemma decode_keys_ok ks pre tail :
  Forall (fun b => exists k, key_ok k /\ b = pk_compressed k) ks ->
  malloc_ok public_key_struct_size = true ->
  let script := pre ++ keys_push ks ++ tail in
  exists keys, decode_keys (length ks) script (zlen script) (zlen pre) = Ok keys /\
    map pk_compressed keys = ks /\ Forall key_ok keys.
Proof.
  intros Hk Hm. cbv zeta. revert pre.
  induction Hk as [|b ks (k & Hk & ->) _ IH]; intros pre; [by exists []|].
  pose proof (key_size Hc k Hk) as H33.
  change (keys_push (pk_compressed k :: ks)) with (key_push (pk_compressed k) ++ keys_push ks).
  cbn [length decode_keys]. unfold NEOC_PUBLIC_KEY_SIZE_COMPRESSED.
  assert (zlen (pre ++ key_push (pk_compressed k)) = zlen pre + 2 + 33) as Hp
    by (unfold key_push; rewrite zlen_app, !zlen_cons, H33; lia).
  destruct (IH (pre ++ key_push (pk_compressed k))) as (keys & E & Hmap & Hok).
  rewrite Hp in E. rewrite <- !app_assoc in *. rewrite E.
  replace (zlen (pre ++ key_push (pk_compressed k) ++ keys_push ks ++ tail) <? _) with false.
  2: { symmetry. apply Z.ltb_ge. rewrite !zlen_app in *.
       pose proof (zlen_nonneg (keys_push ks)). pose proof (zlen_nonneg tail). lia. }
  assert (drop (Z.to_nat (zlen pre + 2)) (pre ++ key_push (pk_compressed k) ++ keys_push ks ++ tail)
          = pk_compressed k ++ keys_push ks ++ tail) as ->.
  { unfold zlen. replace (Z.to_nat (Z.of_nat (length pre) + 2)) with (length pre + 2)%nat by lia.
    rewrite <- drop_drop, drop_app_length. done. }
  destruct (from_compressed Hc k (keys_push ks ++ tail) Hk Hm) as (k' & -> & Hk' & Ek).
  cbn [rbind]. exists (k' :: keys). split_and!; [done| |by constructor].
  cbn [map]. rewrite Ek, Hmap. done.
Qed.

End Keys.

(** ** Reading a built script back *)

Section ReadBack.
Context `{Allocator} `{Interop} `{Curve}.
Hypothesis Hc : curve_works.

Lemma not_single script : zlen script <> 40 ->
  neoc_verification_script_is_single_sig (vs_of script) = Ok false.
Proof.
  intros Hl. unfold neoc_verification_script_is_single_sig, vs_of. cbn [vs_script_length].
  cmps. done.
Qed.

Lemma build_verification_bytes key :
  zlen key = 33 -> malloc_ok 40 = true ->
  neoc_script_builder_build_verification_script (Some key) 33 = Ok (single_sig_bytes key).
Proof.
  intros Hk Hm. unfold neoc_script_builder_build_verification_script. cmps.
  change (1 + 1 + 33 + 1 + 4) with 40. rewrite Hm. cbn [negb].
  pose proof (buf_slice_all key) as E. rewrite Hk in E. rewrite E.
  unfold single_sig_bytes, syscall_bytes.
  set (hash := le_bytes 4 _). assert (length hash = 4%nat) as Hh by apply length_le_bytes.
  clearbody hash. clear E. unfold zlen in Hk.
  do 33 (destruct key as [|? key]; [discriminate|]).
  destruct key; [|cbn in Hk; lia].
  do 4 (destruct hash as [|? hash]; [discriminate|]).
  destruct hash; [reflexivity|discriminate].
Qed.

Lemma single_recognised key :
  zlen key = 33 ->
  neoc_verification_script_is_single_sig (vs_of (single_sig_bytes key)) = Ok true.
Proof.
  intros Hk. assert (zlen (single_sig_bytes key) = 40) as Hl
    by (unfold single_sig_bytes, key_push; rewrite zlen_app, syscall_bytes_length, !zlen_cons; lia).
  unfold neoc_verification_script_is_single_sig, vs_of. cbn [vs_script vs_script_length].
  rewrite Hl, as_pointer_some by lia. cmps.
  unfold neoc_verification_script_checksig_match. cmps.
  assert (zlen (key_push key) = 35) as Hp by (unfold key_push; rewrite !zlen_cons; lia).
  pose proof (at_app (key_push key) (byte_of_Z NEOC_OP_SYSCALL)
                (le_bytes 4 (service_hash NEOC_INTEROP_SYSTEM_CRYPTO_CHECKSIG))) as A35.
  pose proof (load32_syscall (key_push key) NEOC_INTEROP_SYSTEM_CRYPTO_CHECKSIG) as L36.
  rewrite Hp in A35, L36. fold (syscall_bytes NEOC_INTEROP_SYSTEM_CRYPTO_CHECKSIG) in A35.
  fold (single_sig_bytes key) in A35, L36. change (35 + 1) with 36 in L36.
  change (at_ (single_sig_bytes key) 0) with (Ok (Z_of_byte (byte_of_Z NEOC_OP_PUSHDATA1))).
  change (at_ (single_sig_bytes key) 1) with (Ok (Z_of_byte (byte_of_Z 33))).
  cbn [rbind]. rewrite A35. cbn [rbind]. rewrite L36.
  transitivity (Ok (service_hash NEOC_INTEROP_SYSTEM_CRYPTO_CHECKSIG =?
                    service_hash NEOC_INTEROP_SYSTEM_CRYPTO_CHECKSIG)); [reflexivity|].
  rewrite Z.eqb_refl. done.
Qed.

Lemma multi_threshold script m :
  42 <= zlen script -> 1 <= m <= NEOC_MAX_PUBLIC_KEYS_PER_MULTISIG_ACCOUNT ->
  fst (neoc_verification_script_parse_push_int (Some script) (zlen script) 0) = Ok m ->
  neoc_verification_script_get_signing_threshold (vs_of script) = Ok m.
Proof.
  intros Hl Hm Hp. unfold neoc_verification_script_get_signing_threshold.
  rewrite not_single by lia. cbn [rbind]. unfold vs_of. cbn [vs_script vs_script_length].
  rewrite as_pointer_some by lia. rewrite Hp. cbn [rbind].
  unfold NEOC_MAX_PUBLIC_KEYS_PER_MULTISIG_ACCOUNT in *. cmps.
  rewrite swrap_small by (eval_pows; lia). done.
Qed.

Lemma multi_parse m ks :
  valid_multi m ks ->
  neoc_verification_script_parse_push_int (Some (multi_sig_bytes m ks))
    (zlen (multi_sig_bytes m ks)) 0 = (Ok m, zlen (push_integer_bytes m)).
Proof.
  intros Hv. destruct (valid_multi_int64 _ _ Hv) as [I1 _]. destruct Hv as (_ & Hm & _).
  exact (parse_pushed [] m (keys_push ks ++ push_integer_bytes (zlen ks) ++ _) I1 ltac:(lia)).
Qed.

Lemma multi_public_keys m ks :
  valid_multi m ks ->
  Forall (fun b => exists k, key_ok k /\ b = pk_compressed k) ks -> heap_serves (2 ^ 17) ->
  exists keys, neoc_verification_script_get_public_keys (vs_of (multi_sig_bytes m ks)) = Ok keys /\
    map pk_compressed keys = ks /\ Forall key_ok keys.
Proof.
  intros Hv Hk Hh. pose proof (multi_size _ _ Hv). pose proof (multi_parse _ _ Hv) as P1.
  pose proof (multi_recognised _ _ Hv) as Hr.
  destruct (valid_multi_int64 _ _ Hv) as [_ I2]. destruct Hv as (H33 & Hm & Hn).
  unfold neoc_verification_script_get_public_keys.
  rewrite not_single, Hr by lia. cbn [rbind negb].
  unfold vs_of. cbn [vs_script vs_script_length].
  rewrite as_pointer_some by lia. cbn [from_option id]. rewrite P1. clear Hr P1.
  destruct (int_of_push (zlen ks) (syscall_bytes NEOC_INTEROP_SYSTEM_CRYPTO_CHECKMULTISIG) I2 ltac:(lia))
    as (op & bs & Ep & Ei).
  pose proof (count_keys_complete (S (length (multi_sig_bytes m ks))) (push_integer_bytes m) ks op
    (bs ++ syscall_bytes NEOC_INTEROP_SYSTEM_CRYPTO_CHECKMULTISIG) 0 H33) as C1.
  pose proof (decode_keys_ok Hc ks (push_integer_bytes m) (push_integer_bytes (zlen ks) ++
    syscall_bytes NEOC_INTEROP_SYSTEM_CRYPTO_CHECKMULTISIG) Hk) as D1.
  cbv zeta in C1, D1. fold (multi_sig_bytes m ks) in D1.
  change (op :: bs ++ ?l) with ((op :: bs) ++ l) in C1. rewrite <- Ep in C1.
  fold (multi_sig_bytes m ks) in C1. rewrite C1;
    [|unfold zlen in *; lia|by eapply int_of_not_data].
  cbn [rbind]. rewrite Z.add_0_l. unfold neoc_malloc_ok.
  unfold NEOC_MAX_PUBLIC_KEYS_PER_MULTISIG_ACCOUNT in *.
  cmps. rewrite Hh by (eval_pows; lia). cbn [negb]. unfold zlen at 1. rewrite Nat2Z.id.
  apply D1. apply Hh. unfold public_key_struct_size. lia.
Qed.

Lemma keys_pushes ks :
  Forall (fun k => zlen k = 33) ks -> pushes_all (keys_push ks) (map ByteString ks).
Proof.
  intros Hk. apply pushes_all_concat. intros k Hi. rewrite Forall_forall in Hk.
  assert (zlen k = 33) as E by (apply Hk; by apply list_elem_of_In).
  rewrite <- push_data_key by done. apply data_pushes_long. lia.
Qed.

End ReadBack.

(** ** Claims *)

(** C2.  Multi-signature round trip: for any valid threshold and up to 1024 keys,
    [create_multi_sig] succeeds, the script is recognised as a multi-signature
    script and not as a single-signature one, and its threshold, its number of
    accounts and its keys are read back from it; the keys come back in the
    sorted order of the script, each of them once for every time it was given. *)
Theorem multi_sig_roundtrip `{Allocator} `{Interop} `{Curve}
    (keys : list neoc_ec_public_key_t) (m : Z) :
  curve_works -> Forall key_ok keys -> 1 <= m <= zlen keys ->
  zlen keys <= NEOC_MAX_PUBLIC_KEYS_PER_MULTISIG_ACCOUNT -> heap_serves (2 ^ 17) ->
  exists vs keys',
    neoc_verification_script_create_multi_sig (Some (map Some keys)) (zlen keys) m = Ok vs /\
    neoc_verification_script_is_multi_sig vs = Ok true /\
    neoc_verification_script_is_single_sig vs = Ok false /\
    neoc_verification_script_get_signing_threshold vs = Ok m /\
    neoc_verification_script_get_nr_accounts vs = Ok (zlen keys) /\
    neoc_verification_script_get_public_keys vs = Ok keys' /\
    map pk_compressed keys' ≡ₚ map pk_compressed keys /\
    StronglySorted (fun a b => lex a b <= 0) (map pk_compressed keys').
Proof.
  intros Hc Hk Hm Hn Hh. destruct (create_multi_sig_ok Hc keys m) as [Hv E]; [done..|].
  pose proof (multi_size _ _ Hv).
  destruct (multi_public_keys Hc m (sorted_keys keys)) as (keys' & Eg & Em & _);
    [done|by apply sorted_keys_from|done|].
  exists (vs_of (multi_sig_bytes m (sorted_keys keys))), keys'.
  assert (zlen keys' = zlen keys) as Hl.
  { rewrite <- (sorted_keys_length keys), <- Em, zlen_map. done. }
  unfold NEOC_MAX_PUBLIC_KEYS_PER_MULTISIG_ACCOUNT in Hn. split_and!.
  - done.
  - by apply multi_recognised.
  - apply not_single. lia.
  - apply multi_threshold; [lia|unfold NEOC_MAX_PUBLIC_KEYS_PER_MULTISIG_ACCOUNT; lia|].
    by rewrite multi_parse.
  - unfold neoc_verification_script_get_nr_accounts. rewrite Eg. cbn [rbind].
    rewrite swrap_small, Hl by (eval_pows; lia). done.
  - done.
  - rewrite Em. apply sorted_keys_perm.
  - rewrite Em. unfold sorted_keys.
    pose proof (StronglySorted_merge_sort entry_le (map entry_of keys)) as Hs.
    fold (qsort (map entry_of keys)) in Hs. induction Hs as [|e es Hs IH Hall]; [constructor|].
    cbn [map]. constructor; [done|]. rewrite Forall_map. eapply Forall_impl; [exact Hall|].
    intros a. unfold entry_le. rewrite key_compare_lex. done.
Qed.

(** The multi-signature script, and with it the account, does not depend on
    the order in which the keys are given. *)
Theorem multi_sig_order_independent `{Allocator} `{Interop} `{Curve}
    (keys keys' : list neoc_ec_public_key_t) (m : Z) :
  curve_works -> Forall key_ok keys -> keys ≡ₚ keys' ->
  neoc_verification_script_create_multi_sig (Some (map Some keys)) (zlen keys) m =
  neoc_verification_script_create_multi_sig (Some (map Some keys')) (zlen keys') m.
Proof.
  intros Hc Hk Hp. assert (zlen keys' = zlen keys) as Hl by (unfold zlen; by rewrite Hp).
  assert (Forall key_ok keys') as Hk' by (by rewrite <- Hp).
  unfold neoc_verification_script_create_multi_sig. rewrite Hl.
  destruct (_ || _) eqn:E0; [done|]. bdestruct.
  destruct (NEOC_MAX_PUBLIC_KEYS_PER_MULTISIG_ACCOUNT <? zlen keys); [done|].
  destruct (negb (neoc_malloc_ok _)); [done|].
  assert (Z.to_nat (zlen keys) = length keys) as Hn by (unfold zlen; lia). rewrite Hn.
  destruct (malloc_ok 33) eqn:Em.
  - rewrite encode_keys_ok by done. rewrite (Permutation_length Hp), encode_keys_ok by done.
    cbn [rbind]. rewrite (qsort_unique (map entry_of keys) (map entry_of keys')); [done|].
    by rewrite Hp.
  - assert (forall l : list neoc_ec_public_key_t, zlen l <> 0 ->
      encode_keys (map Some l) (length l) = Err NEOC_ERROR_MEMORY) as He.
    { intros [|k l] Hz; [done|]. cbn [map length encode_keys].
      unfold neoc_ec_public_key_get_encoded. rewrite Em. done. }
    rewrite He by done. rewrite (Permutation_length Hp), He by congruence. done.
Qed.

(** C9.  Whatever the bytes of a script, the recogniser answers without reading outside them,
    unless it meets a negative four- or eight-byte number where it expects the threshold or the
    count of keys, whose bytes it composes with an undefined shift.  Every script it accepts,
    whoever made it, is an m-of-n script: it has a threshold m that [get_signing_threshold]
    reports and n keys with 1 <= m <= n <= 1024, and run on the stack machine it reaches
    [System.Crypto.CheckMultisig] with n, the keys and m on the stack. *)
Theorem multi_sig_accepts_only_multi_sig `{Interop} (script : list byte) :
  match neoc_verification_script_is_multi_sig (vs_of script) with
  | Ok b =>
      b = true -> exists m keys,
        valid_multi m keys /\
        neoc_verification_script_get_signing_threshold (vs_of script) = Ok m /\
        runs (script, [])
          (syscall_bytes NEOC_INTEROP_SYSTEM_CRYPTO_CHECKMULTISIG,
           Integer (zlen keys) :: rev (map ByteString keys) ++ [Integer m])
  | Err _ => False
  | Fault => undefined_number script
  end.
Proof.
  destruct (multi_sound script) as [[-> Hu]|(b & E & Hb)]; [done|]. rewrite E. intros ->.
  destruct (Hb eq_refl) as (m & keys & pm & pn & Es & Hv & Hpm & Hpn & Hp).
  exists m, keys. split; [done|]. destruct Hv as (Hk & Hm & Hn). split.
  - apply multi_threshold; [|lia|done].
    unfold neoc_verification_script_is_multi_sig, vs_of in E. cbn [vs_script_length] in E.
    destruct (zlen script <? 42) eqn:E42 in E; bdestruct; [discriminate|lia].
  - rewrite Es. etransitivity; [apply Hpm|]. etransitivity; [by apply keys_pushes|]. apply Hpn.
Qed.

(** PUSHINT32 of -1 in place of the threshold. *)
Example threshold_shift_undefined `{Interop} :
  neoc_verification_script_is_multi_sig
    (vs_of (byte_of_Z NEOC_OP_PUSHINT32 :: replicate 4 Byte.xff ++ replicate 40 Byte.x00)) = Fault.
Proof. reflexivity. Qed.

(** Single-signature round trip: the 40-byte script built from a key is
    recognised as a single-signature script and not as a multi-signature one,
    its threshold is 1, the key is read back from it, and run on the stack
    machine it reaches [System.Crypto.CheckSig] with the key on the stack. *)
Theorem single_sig_roundtrip `{Allocator} `{Interop} `{Curve} (key : neoc_ec_public_key_t) :
  curve_works -> key_ok key -> heap_serves 128 ->
  exists vs script key',
    neoc_verification_script_create_single_sig (Some key) = Ok vs /\
    neoc_verification_script_get_script vs = (Some script, 40) /\
    neoc_verification_script_is_single_sig vs = Ok true /\
    neoc_verification_script_is_multi_sig vs = Ok false /\
    neoc_verification_script_get_signing_threshold vs = Ok 1 /\
    neoc_verification_script_get_public_keys vs = Ok [key'] /\
    pk_compressed key' = pk_compressed key /\
    runs (script, []) (syscall_bytes NEOC_INTEROP_SYSTEM_CRYPTO_CHECKSIG,
                       [ByteString (pk_compressed key)]).
Proof.
  intros Hc Hk Hh. pose proof (key_size Hc key Hk) as H33.
  set (script := single_sig_bytes (pk_compressed key)).
  assert (zlen script = 40) as Hl.
  { unfold script, single_sig_bytes, key_push.
    rewrite zlen_app, syscall_bytes_length, !zlen_cons. lia. }
  destruct (from_compressed Hc key (syscall_bytes NEOC_INTEROP_SYSTEM_CRYPTO_CHECKSIG) Hk)
    as (key' & Ed & Hk' & Ek); [apply Hh; unfold public_key_struct_size; lia|].
  assert (neoc_verification_script_is_single_sig (vs_of script) = Ok true) as Hs
    by by apply single_recognised.
  exists (vs_of script), script, key'. split_and!.
  - unfold neoc_verification_script_create_single_sig.
    rewrite get_encoded_compressed by (done || apply Hh; lia). cbn [rbind].
    rewrite build_verification_bytes by (done || apply Hh; lia). cbn [rbind].
    apply allocate_ok; fold script; [lia|]. apply (heap_serves_mono _ _ Hh). lia.
  - unfold neoc_verification_script_get_script, vs_of. cbn [vs_script vs_script_length].
    rewrite as_pointer_some, Hl by lia. done.
  - done.
  - unfold neoc_verification_script_is_multi_sig, vs_of. cbn [vs_script_length]. cmps. done.
  - unfold neoc_verification_script_get_signing_threshold. rewrite Hs. done.
  - unfold neoc_verification_script_get_public_keys. rewrite Hs. cbn [rbind].
    unfold neoc_malloc_ok. cmps. rewrite Hh by lia. cbn [negb].
    unfold vs_of. cbn [vs_script]. rewrite as_pointer_some by lia.
    unfold NEOC_PUBLIC_KEY_SIZE_COMPRESSED.
    change (drop 2 (default [] (Some script)))
      with (pk_compressed key ++ syscall_bytes NEOC_INTEROP_SYSTEM_CRYPTO_CHECKSIG).
    rewrite Ed. done.
  - done.
  - unfold script, single_sig_bytes. rewrite <- push_data_key by done.
    apply data_pushes_long. lia.
Qed.

Definition sample_keys : list (@neoc_ec_public_key_t toy_curve) :=
  [toy_key 3; toy_key 1; toy_key 2].

Section Witnesses.
#[local] Existing Instance mib_heap.
#[local] Existing Instance sample_interop.
#[local] Existing Instance toy_curve.

Lemma sample_keys_ok : Forall key_ok sample_keys.
Proof. repeat constructor. Qed.

Lemma multi_sig_roundtrip_witness :
  exists vs keys',
    neoc_verification_script_create_multi_sig (Some (map Some sample_keys)) 3 2 = Ok vs /\
    neoc_verification_script_get_signing_threshold vs = Ok 2 /\
    neoc_verification_script_get_public_keys vs = Ok keys' /\
    map pk_compressed keys' ≡ₚ map pk_compressed sample_keys.
Proof.
  destruct (multi_sig_roundtrip sample_keys 2) as (vs & keys' & E & _ & _ & Ht & _ & Hg & Hp & _).
  - apply toy_curve_works.
  - apply sample_keys_ok.
  - vm_compute. intuition discriminate.
  - vm_compute. discriminate.
  - apply mib_heap_serves. vm_compute. discriminate.
  - exists vs, keys'. split_and!; assumption.
Defined.

Lemma multi_sig_order_independent_witness :
  neoc_verification_script_create_multi_sig (Some (map Some sample_keys)) 3 2 =
  neoc_verification_script_create_multi_sig (Some (map Some (reverse sample_keys))) 3 2.
Proof.
  apply (multi_sig_order_independent sample_keys (reverse sample_keys) 2).
  - apply toy_curve_works.
  - apply sample_keys_ok.
  - symmetry. apply reverse_Permutation.
Defined.

Lemma single_sig_roundtrip_witness :
  exists vs, neoc_verification_script_create_single_sig (Some (toy_key 7)) = Ok vs /\
    neoc_verification_script_is_single_sig vs = Ok true.
Proof.
  destruct (single_sig_roundtrip (toy_key 7)) as (vs & script & key' & E & _ & Hs & _).
  - apply toy_curve_works.
  - apply toy_key_ok.
  - apply mib_heap_serves. vm_compute. discriminate.
  - exists vs. split; assumption.
Defined.

End Witnesses.
