(* ===== verification/ScriptHelper.v ===== *)
(** * Script helpers (src/script/script_helper.c; the key hashes of src/types/neoc_hash160.c)

    The one-call constructors of verification, invocation, contract-call and
    token-transfer scripts, the conversion of script hashes to addresses, and the
    account hashes of public keys, which are hashes of such scripts. *)

From S2P Require Import Prelude BinaryWriter Crypto Base58 Hashes Interop Opcode NeoVM ScriptBuilder VerificationScript.
#[local] Open Scope Z_scope.

Section Operations.
Context `{Allocator} `{Interop}.

Definition neoc_script_create_single_sig_verification (public_key : option (list byte))
    (public_key_len : Z) : res (list byte) :=
  match public_key with
  | None => Err NEOC_ERROR_INVALID_ARGUMENT
  | Some _ =>
      if negb (public_key_len =? 33) && negb (public_key_len =? 65)
      then Err NEOC_ERROR_INVALID_SIZE
      else
        script_with
          (do! neoc_script_builder_push_data public_key public_key_len in
           neoc_script_builder_emit_syscall NEOC_INTEROP_SYSTEM_CRYPTO_CHECKSIG)
  end.

Definition neoc_script_create_single_sig_invocation (signature : option (list byte))
    (signature_len : Z) : res (list byte) :=
  match signature with
  | None => Err NEOC_ERROR_INVALID_ARGUMENT
  | Some _ =>
      if negb (signature_len =? 64) && negb (signature_len =? 65)
      then Err NEOC_ERROR_INVALID_SIZE
      else script_with (neoc_script_builder_push_data signature signature_len)
  end.

(** [public_keys] pairs each pointer with its entry of [key_lengths]. *)
Definition neoc_script_create_multi_sig_verification_internal
    (public_keys : option (list (option (list byte) * Z))) (key_count min_signatures : Z)
  : res (list byte) :=
  match public_keys with
  | None => Err NEOC_ERROR_INVALID_ARGUMENT
  | Some public_keys =>
      if (key_count =? 0) || (1024 <? key_count) then Err NEOC_ERROR_INVALID_SIZE
      else if (min_signatures =? 0) || (key_count <? min_signatures)
      then Err NEOC_ERROR_INVALID_ARGUMENT
      else
        script_with
          (do! neoc_script_builder_push_integer (swrap 64 min_signatures) in
           do! push_items
                 (fun '(key, len) =>
                    if negb (len =? 33) && negb (len =? 65) then fail NEOC_ERROR_INVALID_SIZE
                    else neoc_script_builder_push_data key len)
                 public_keys key_count in
           do! neoc_script_builder_push_integer (swrap 64 key_count) in
           neoc_script_builder_emit_syscall NEOC_INTEROP_SYSTEM_CRYPTO_CHECKMULTISIG)
  end.

(** [minimum_signatures] is a [uint8_t]. *)
Definition neoc_script_create_multisig_verification (minimum_signatures : Z)
    (public_keys : option (list (option (list byte) * Z))) (public_key_count : Z)
  : res (list byte) :=
  neoc_script_create_multi_sig_verification_internal public_keys public_key_count
    minimum_signatures.

Definition neoc_script_create_multi_sig_verification
    (public_keys : option (list (option (list byte) * Z))) (key_count min_signatures : Z)
  : res (list byte) :=
  neoc_script_create_multi_sig_verification_internal public_keys key_count min_signatures.

(** [for (int i = (int)param_count - 1; i >= 0; i--)]: [n] is [i + 1]. *)
Fixpoint push_reverse (params : list neoc_contract_parameter_t) (n : nat) : Wr unit :=
  match n with
  | O => ret tt
  | S i =>
      match params !! i with
      | None => fault
      | Some p => do! neoc_script_builder_push_param (Some p) in push_reverse params i
      end
  end.

Definition neoc_script_create_contract_call (contract_hash : neoc_hash160_t)
    (method : list byte) (params : option (list neoc_contract_parameter_t)) (param_count : Z)
  : res (list byte) :=
  script_with
    (do! (match params with
          | Some params =>
              if 0 <? param_count
              then push_reverse params (Z.to_nat (swrap 32 param_count))
              else ret tt
          | None => ret tt
          end) in
     do! (if 0 <? param_count then
            do! neoc_script_builder_push_integer (swrap 64 param_count) in
            neoc_script_builder_emit NEOC_OP_PACK
          else neoc_script_builder_emit NEOC_OP_NEWARRAY0) in
     do! neoc_script_builder_push_string (Some method) in
     do! neoc_script_builder_push_data (Some (hash160_data contract_hash)) 20 in
     neoc_script_builder_emit_syscall NEOC_INTEROP_SYSTEM_CONTRACT_CALL).

Definition neoc_script_create_nep17_transfer (token_hash from to : neoc_hash160_t)
    (amount : Z) (data : option (list byte)) (data_len : Z) : res (list byte) :=
  script_with
    (do! (match data with
          | Some _ =>
              if 0 <? data_len then neoc_script_builder_push_data data data_len
              else neoc_script_builder_emit NEOC_OP_PUSHNULL
          | None => neoc_script_builder_emit NEOC_OP_PUSHNULL
          end) in
     do! neoc_script_builder_push_integer (swrap 64 amount) in
     do! neoc_script_builder_push_data (Some (hash160_data to)) 20 in
     do! neoc_script_builder_push_data (Some (hash160_data from)) 20 in
     do! neoc_script_builder_push_integer 4 in
     do! neoc_script_builder_emit NEOC_OP_PACK in
     do! neoc_script_builder_push_string (Some (str "transfer")) in
     do! neoc_script_builder_push_data (Some (hash160_data token_hash)) 20 in
     do! neoc_script_builder_emit_syscall NEOC_INTEROP_SYSTEM_CONTRACT_CALL in
     neoc_script_builder_emit NEOC_OP_ASSERT).

Definition neoc_script_create_witness_invocation (signature : option (list byte))
    (signature_len : Z) : res (list byte) :=
  match signature with
  | None => Err NEOC_ERROR_INVALID_ARGUMENT
  | Some _ =>
      if negb (signature_len =? 64) && negb (signature_len =? 65)
      then Err NEOC_ERROR_INVALID_SIZE
      else script_with (neoc_script_builder_push_data signature signature_len)
  end.

Definition neoc_script_create_witness_multi_invocation
    (signatures : option (list (option (list byte) * Z))) (signature_count : Z)
  : res (list byte) :=
  match signatures with
  | None => Err NEOC_ERROR_INVALID_ARGUMENT
  | Some signatures =>
      if (signature_count =? 0) || (1024 <? signature_count) then Err NEOC_ERROR_INVALID_SIZE
      else
        script_with
          (push_items
             (fun '(signature, len) =>
                if negb (len =? 64) && negb (len =? 65) then fail NEOC_ERROR_INVALID_SIZE
                else neoc_script_builder_push_data signature len)
             signatures signature_count)
  end.

Context `{Crypto}.
Variable junk : byte.

(** The allocated address as a C string. *)
Definition neoc_script_hash_to_address (script_hash : neoc_hash160_t) (version : byte)
  : res (list byte) :=
  let address_version :=
    if Z_of_byte version =? 0 then NEOC_ADDRESS_VERSION else version in
  let? d := memcpy_from (hash160_data script_hash) NEOC_HASH160_SIZE in
  let versioned := address_version :: d in
  let buffer_size := neoc_base58_check_encode_buffer_size 21 in
  if negb (neoc_malloc_ok buffer_size) then Err NEOC_ERROR_OUT_OF_MEMORY
  else
    match neoc_base58_check_encode (Some versioned) 21 buffer_size
            (replicate (Z.to_nat buffer_size) junk) with
    | (Ok _, address) => Ok (cstring address)
    | (Err e, _) => Err e
    | (Fault, _) => Fault
    end.

Definition neoc_script_address_to_hash (address : option (list byte)) : res neoc_hash160_t :=
  match address with
  | None => Err NEOC_ERROR_INVALID_ARGUMENT
  | Some _ => neoc_hash160_from_address junk address
  end.

(** ** Account hashes (src/types/neoc_hash160.c) *)

Definition neoc_hash160_from_public_key (public_key_data : option (list byte))
  : res neoc_hash160_t :=
  match public_key_data with
  | None => Err NEOC_ERROR_NULL_POINTER
  | Some _ =>
      let? script := neoc_script_create_single_sig_verification public_key_data 33 in
      neoc_hash160_from_script (Some script) (zlen script)
  end.

Definition neoc_hash160_from_public_keys (public_keys : option (list (list byte)))
    (num_keys signing_threshold : Z) : res neoc_hash160_t :=
  match public_keys with
  | None => Err NEOC_ERROR_NULL_POINTER
  | Some public_keys =>
      if (num_keys =? 0) || (signing_threshold =? 0) || (num_keys <? signing_threshold)
      then Err NEOC_ERROR_INVALID_ARGUMENT
      else if NEOC_MAX_PUBLIC_KEYS_PER_MULTISIG_ACCOUNT <? num_keys
      then Err NEOC_ERROR_INVALID_ARGUMENT
      else
        let? script :=
          neoc_script_create_multisig_verification (wrap 8 signing_threshold)
            (Some (map (fun key => (Some key, 33)) public_keys)) num_keys in
        neoc_hash160_from_script (Some script) (zlen script)
  end.

End Operations.

(** ** What the helpers build *)

Section Proofs.
Context `{Allocator} `{Interop}.

(** The keys are used in the order given. *)
Lemma multi_sig_verification_bytes keys m :
  valid_multi m keys -> heap_serves (2 ^ 17) ->
  neoc_script_create_multi_sig_verification_internal
    (Some (map (fun key => (Some key, 33)) keys)) (zlen keys) m = Ok (multi_sig_bytes m keys).
Proof.
  intros Hv Hh. pose proof (multi_size _ _ Hv). destruct (valid_multi_int64 _ _ Hv) as [I1 I2].
  destruct Hv as (Hk & Hm & Hn). unfold NEOC_MAX_PUBLIC_KEYS_PER_MULTISIG_ACCOUNT in Hn.
  unfold neoc_script_create_multi_sig_verification_internal.
  rewrite !swrap_small by (eval_pows; lia). cmps.
  apply script_with_ok; [|unfold stream_max; eval_pows; lia|
                          apply (heap_serves_mono _ _ Hh); eval_pows; lia].
  unfold multi_sig_bytes. apply writes_bind; [by apply push_integer_writes|].
  apply writes_bind; [|apply writes_bind; [by apply push_integer_writes|apply emit_syscall_writes]].
  replace (keys_push keys)
    with (concat (map (fun p => key_push (default [] (fst p)))
                      (map (fun key => (Some key, 33)) keys)))
    by (rewrite map_map; done).
  rewrite <- (zlen_map (fun key => (Some key, 33)) keys). apply push_items_writes.
  intros p (key & <- & Hi)%in_map_iff. cbn -[neoc_script_builder_push_data key_push].
  rewrite Forall_forall in Hk. assert (zlen key = 33) as E by (apply Hk; by apply list_elem_of_In).
  rewrite <- push_data_key by done. by apply push_data_writes_len.
Qed.

Lemma int64_swrap v : int64 (swrap 64 v) = true.
Proof.
  unfold int64, swrap. pose proof (wrap_range 64 v ltac:(lia)).
  destruct (_ <? _) eqn:E; bdestruct; eval_pows; lia.
Qed.

Definition transfer_bytes (token from to data : list byte) (amount : Z) : list byte :=
  (if zlen data =? 0 then null_bytes else push_data_bytes data) ++
  push_integer_bytes amount ++ push_data_bytes to ++ push_data_bytes from ++
  push_integer_bytes 4 ++ [byte_of_Z NEOC_OP_PACK] ++ push_data_bytes (str "transfer") ++
  push_data_bytes token ++ syscall_bytes NEOC_INTEROP_SYSTEM_CONTRACT_CALL ++
  [byte_of_Z NEOC_OP_ASSERT].

Lemma transfer_bytes_size token from to data amount :
  zlen token = 20 -> zlen from = 20 -> zlen to = 20 ->
  zlen (transfer_bytes token from to data amount) <= zlen data + 118.
Proof.
  intros Ht Hf Ho. unfold transfer_bytes. rewrite !zlen_app.
  pose proof (push_data_size data). pose proof (push_data_size token).
  pose proof (push_data_size from). pose proof (push_data_size to).
  pose proof (push_integer_size amount). pose proof (zlen_nonneg data).
  change (zlen (push_integer_bytes 4)) with 1. change (zlen [_]) with 1.
  change (zlen [byte_of_Z NEOC_OP_ASSERT]) with 1.
  change (zlen (push_data_bytes (str "transfer"))) with 10. rewrite syscall_bytes_length.
  assert (zlen (if zlen data =? 0 then null_bytes else push_data_bytes data) <= 5 + zlen data).
  { destruct (zlen data =? 0); [change (zlen null_bytes) with 1|]; lia. }
  lia.
Qed.

Lemma nep17_transfer_bytes token from to amount data :
  hash160_ok token -> hash160_ok from -> hash160_ok to ->
  zlen (default [] data) <= 2 ^ 40 -> heap_serves (2 * zlen (default [] data) + 1024) ->
  neoc_script_create_nep17_transfer token from to amount data (zlen (default [] data)) =
  Ok (transfer_bytes (hash160_data token) (hash160_data from) (hash160_data to)
        (default [] data) (swrap 64 amount)).
Proof.
  unfold hash160_ok, NEOC_HASH160_SIZE. intros Ht Hf Ho Hd Hh.
  unfold neoc_script_create_nep17_transfer.
  pose proof (zlen_nonneg (default [] data)).
  pose proof (int64_swrap amount) as Ia.
  assert (transfer_size := transfer_bytes_size (hash160_data token) (hash160_data from)
            (hash160_data to) (default [] data) (swrap 64 amount) Ht Hf Ho).
  apply script_with_ok; [|unfold stream_max; eval_pows; lia|
                          apply (heap_serves_mono _ _ Hh); lia].
  unfold transfer_bytes. apply writes_bind.
  { destruct data as [d|]; cbn [default]; [|apply emit_writes].
    destruct (zlen d =? 0) eqn:E; bdestruct; cbn [from_option id] in *; cmps;
      [apply emit_writes|apply push_data_writes]. }
  repeat (apply writes_bind; [first
    [by apply push_integer_writes | by apply push_data_writes_len | apply emit_writes
    | apply push_string_writes | apply emit_syscall_writes]|]).
  apply emit_writes.
Qed.

Lemma transfer_runs token from to data amount :
  zlen token = 20 -> zlen from = 20 -> zlen to = 20 -> zlen data < 2 ^ 32 -> int64 amount = true ->
  runs (transfer_bytes token from to data amount, [])
       (syscall_bytes NEOC_INTEROP_SYSTEM_CONTRACT_CALL ++ [byte_of_Z NEOC_OP_ASSERT],
        [ByteString token; ByteString (str "transfer");
         VArray [ByteString from; ByteString to; Integer amount;
                 if zlen data =? 0 then Null else ByteString data]]).
Proof.
  intros Ht Hf Ho Hd Ha. unfold transfer_bytes. set (d := if zlen data =? 0 then Null else _).
  assert (pushes (if zlen data =? 0 then null_bytes else push_data_bytes data) d) as Hp.
  { unfold d. pose proof (zlen_nonneg data).
    destruct (zlen data =? 0) eqn:E; bdestruct; [apply null_pushes|apply data_pushes_long; lia]. }
  etransitivity; [apply Hp|].
  etransitivity; [by apply push_integer_pushes|].
  etransitivity; [apply data_pushes_long; lia|].
  etransitivity; [apply data_pushes_long; lia|].
  etransitivity; [by apply push_integer_pushes|].
  eapply rtc_l; [reflexivity|].
  etransitivity; [by apply (push_data_pushes (str "transfer"))|].
  etransitivity; [apply data_pushes_long; lia|]. done.
Qed.

End Proofs.

Section Addresses.
Context `{Allocator} `{Crypto}.
Variable junk : byte.

Lemma hash_to_address_encodes h version :
  hash160_ok h ->
  neoc_script_hash_to_address junk h version =
  neoc_base58_check_encode_alloc junk
    (Some ((if Z_of_byte version =? 0 then NEOC_ADDRESS_VERSION else version) ::
           hash160_data h)) 21.
Proof.
  intros Hh. unfold neoc_script_hash_to_address, neoc_base58_check_encode_alloc.
  rewrite memcpy_from_all by done. done.
Qed.
End Addresses.

(** ** Claims *)

(** Token transfer: the script of [neoc_script_create_nep17_transfer] reaches
    [System.Contract.Call] with the token hash, the method name and the array of
    sender, receiver, amount and data (null when there is none) in the order of
    the NEP-17 method, followed by an ASSERT of its result.  The stack holds
    these three items and no call flags between the method and the array, and an
    amount of 2^63 or more is pushed as the negative number with its bits. *)
Theorem nep17_transfer_reaches_syscall `{Allocator} `{Interop}
    (token from to : neoc_hash160_t) (amount : Z) (data : option (list byte)) :
  hash160_ok token -> hash160_ok from -> hash160_ok to ->
  zlen (default [] data) < 2 ^ 32 -> heap_serves (2 * zlen (default [] data) + 1024) ->
  exists script,
    neoc_script_create_nep17_transfer token from to amount data (zlen (default [] data))
      = Ok script /\
    runs (script, [])
      (syscall_bytes NEOC_INTEROP_SYSTEM_CONTRACT_CALL ++ [byte_of_Z NEOC_OP_ASSERT],
       [ByteString (hash160_data token); ByteString (str "transfer");
        VArray [ByteString (hash160_data from); ByteString (hash160_data to);
                Integer (swrap 64 amount);
                if zlen (default [] data) =? 0 then Null else ByteString (default [] data)]]).
Proof.
  intros Ht Hf Ho Hd Hh. eexists. split.
  - apply nep17_transfer_bytes; try done. eval_pows. lia.
  - apply transfer_runs; try done. apply int64_swrap.
Qed.

(** The addresses of the script helpers are not those of the hash type:
    [neoc_script_hash_to_address] encodes the bytes of the hash as they are
    stored and [neoc_script_address_to_hash] reverses them, so converting a hash
    to an address and back gives the hash with its bytes in reverse order. *)
Theorem script_address_reverses `{Allocator} `{Crypto} (junk : byte) (h : neoc_hash160_t) :
  crypto_works -> heap_serves 64 -> hash160_ok h ->
  (let? address := neoc_script_hash_to_address junk h Byte.x00 in
   neoc_script_address_to_hash junk (Some address)) =
  Ok (mk_hash160 (reverse (hash160_data h))).
Proof.
  intros Hw Hheap Hh. rewrite hash_to_address_encodes by done. cbn [Z.eqb].
  set (v := NEOC_ADDRESS_VERSION :: hash160_data h).
  change (if Z_of_byte Byte.x00 =? 0 then _ else _) with NEOC_ADDRESS_VERSION. fold v.
  unfold hash160_ok, NEOC_HASH160_SIZE in Hh.
  assert (zlen v = 21) as Hv by (unfold v; rewrite zlen_cons; lia).
  destruct (sha256_double_ok Hw v) as (c & Ec & Hc).
  destruct (check_encode_alloc_text junk v c) as (s & Ht & Es);
    [done|done|lia|apply (heap_serves_mono _ _ Hheap); lia|].
  rewrite Hv in Es. rewrite Es. cbn [rbind].
  unfold neoc_script_address_to_hash, neoc_hash160_from_address.
  rewrite (check_decode_alloc_text junk v c s); try done;
    [|lia|apply (heap_serves_mono _ _ Hheap); lia].
  rewrite Hv. change (21 <? 4) with false. cbv iota. rewrite Hv.
  change (negb (21 =? 1 + NEOC_HASH160_SIZE)) with false. cbv iota. unfold v.
  rewrite Z.eqb_refl. done.
Qed.

(** The account hash of several keys: [neoc_hash160_from_public_keys] hashes
    the multi-signature script with the keys in the order given and with the
    threshold reduced modulo 256, and refuses thresholds that are multiples of
    256, although up to 1024 signatures are admitted. *)
Theorem public_keys_hash_is_script_hash `{Allocator} `{Interop} `{Crypto}
    (keys : list (list byte)) (m : Z) :
  valid_multi m keys -> heap_serves (2 ^ 17) ->
  neoc_hash160_from_public_keys (Some keys) (zlen keys) m =
  if m mod 256 =? 0 then Err NEOC_ERROR_INVALID_ARGUMENT
  else
    let script := multi_sig_bytes (m mod 256) keys in
    neoc_hash160_from_script (Some script) (zlen script).
Proof.
  intros Hv Hh. destruct Hv as (Hk & Hm & Hn).
  unfold neoc_hash160_from_public_keys. cmps.
  unfold neoc_script_create_multisig_verification, wrap. change (2 ^ 8) with 256.
  pose proof (Z.mod_pos_bound m 256 ltac:(lia)). pose proof (Z.mod_le m 256 ltac:(lia) ltac:(lia)).
  destruct (m mod 256 =? 0) eqn:E; bdestruct.
  - rewrite E. unfold neoc_script_create_multi_sig_verification_internal.
    unfold NEOC_MAX_PUBLIC_KEYS_PER_MULTISIG_ACCOUNT in Hn. cmps. done.
  - rewrite multi_sig_verification_bytes; [done|split_and!; try done; lia|done].
Qed.

Section Witnesses.
#[local] Existing Instance mib_heap.
#[local] Existing Instance sample_interop.
#[local] Existing Instance toy_crypto.

Lemma nep17_transfer_reaches_syscall_witness :
  exists script,
    neoc_script_create_nep17_transfer sample160 sample160 sample160 100 None 0 = Ok script /\
    runs (script, [])
      (syscall_bytes NEOC_INTEROP_SYSTEM_CONTRACT_CALL ++ [byte_of_Z NEOC_OP_ASSERT],
       [ByteString (hash160_data sample160); ByteString (str "transfer");
        VArray [ByteString (hash160_data sample160); ByteString (hash160_data sample160);
                Integer 100; Null]]).
Proof.
  apply (nep17_transfer_reaches_syscall sample160 sample160 sample160 100 None).
  - reflexivity.
  - reflexivity.
  - reflexivity.
  - reflexivity.
  - apply mib_heap_serves. vm_compute. discriminate.
Defined.

Lemma script_address_reverses_witness :
  (let? address := neoc_script_hash_to_address Byte.x00 sample160 Byte.x00 in
   neoc_script_address_to_hash Byte.x00 (Some address)) =
  Ok (mk_hash160 (reverse (hash160_data sample160))).
Proof.
  apply script_address_reverses.
  - apply toy_crypto_works.
  - apply mib_heap_serves. vm_compute. discriminate.
  - reflexivity.
Defined.

(** 257 of 300 gives the account of 1 of 300. *)
Lemma public_keys_hash_is_script_hash_witness :
  let keys := replicate 300 (repeat Byte.x02 33) in
  neoc_hash160_from_public_keys (Some keys) 300 257 =
  neoc_hash160_from_script (Some (multi_sig_bytes 1 keys)) (zlen (multi_sig_bytes 1 keys)).
Proof.
  apply (public_keys_hash_is_script_hash (replicate 300 (repeat Byte.x02 33)) 257).
  - split; [|split].
    + apply Forall_replicate. reflexivity.
    + rewrite zlen_replicate. lia.
    + rewrite zlen_replicate. vm_compute. discriminate.
  - apply mib_heap_serves. vm_compute. discriminate.
Defined.

End Witnesses.
