(* ===== verification/InvocationScript.v ===== *)
(** * Invocation scripts (src/script/invocation_script.c)

    The part of a witness that pushes the signatures.  Scripts grow by reallocation; the
    bytes behind the old ones are indeterminate until they are written.  Signatures are
    taken out of a script by two passes over it, of which only the first checks that it
    stays inside.  The murmur hash of a script is not modelled. *)

From S2P Require Import Prelude BinaryWriter BinaryReader Crypto Base58 Hashes Interop Opcode NeoVM ScriptBuilder VerificationScript ScriptHelper.
#[local] Open Scope Z_scope.

Record neoc_invocation_script_t := mk_invocation {
  iv_script : option (list byte);
  iv_length : Z
}.

(** [sizeof(neoc_invocation_script_t)] *)
Definition invocation_struct_size : Z := 16.
Definition NEOC_SIGNATURE_SIZE : Z := 64.

Section Operations.
Context `{Allocator} `{Interop}.
Variable junk : byte.

Definition neoc_invocation_var_int_size (value : Z) : Z :=
  if value <? 0xFD then 1 else if value <=? 0xFFFF then 3 else if value <=? 0xFFFFFFFF then 5 else 9.

Definition neoc_invocation_pushdata_header_size (data_len : Z) : res Z :=
  if data_len <=? 0xFF then Ok 2
  else if data_len <=? 0xFFFF then Ok 3
  else if data_len <=? 0xFFFFFFFF then Ok 5
  else Err NEOC_ERROR_INVALID_LENGTH.

(** The number of bytes written to the buffer. *)
Definition neoc_invocation_write_pushdata_header (buffer_len data_len : Z) : M (list byte) Z :=
  let! required := lift (neoc_invocation_pushdata_header_size data_len) in
  if buffer_len <? required then fail NEOC_ERROR_BUFFER_OVERFLOW
  else
    let b k := byte_of_Z (Z.land (Z.shiftr data_len k) 0xFF) in
    do! (if data_len <=? 0xFF then store 0 [byte_of_Z NEOC_OP_PUSHDATA1; byte_of_Z data_len]
         else if data_len <=? 0xFFFF then store 0 [byte_of_Z NEOC_OP_PUSHDATA2; b 0; b 8]
         else store 0 [byte_of_Z NEOC_OP_PUSHDATA4; b 0; b 8; b 16; b 24]) in
    ret required.

(** [neoc_realloc]: the old bytes, and indeterminate ones behind. *)
Definition resized (n : Z) (old : list byte) : list byte :=
  take (Z.to_nat n) old ++ replicate (Z.to_nat n - length old) junk.

Definition neoc_invocation_append_data (data : option (list byte)) (data_len : Z)
  : M neoc_invocation_script_t unit := fun iv =>
  match data with
  | None => (Err NEOC_ERROR_INVALID_ARGUMENT, iv)
  | Some data =>
      match neoc_invocation_write_pushdata_header 5 data_len (replicate 5 Byte.x00) with
      | (Err e, _) => (Err e, iv)
      | (Fault, _) => (Fault, iv)
      | (Ok header_len, header) =>
          let new_len := wrap 64 (iv_length iv + header_len + data_len) in
          if negb (neoc_malloc_ok new_len) then (Err NEOC_ERROR_MEMORY, iv)
          else
            match (let! h := lift (memcpy_from header header_len) in
                   do! store (iv_length iv) h in
                   let! d := lift (memcpy_from data data_len) in
                   store (iv_length iv + header_len) d)
                    (resized new_len (default [] (iv_script iv))) with
            | (Ok _, new_buffer) => (Ok tt, mk_invocation (Some new_buffer) new_len)
            | (Err e, _) => (Err e, iv)
            | (Fault, _) => (Fault, iv)
            end
      end
  end.

Definition neoc_invocation_script_allocate (script : option (list byte)) (script_length : Z)
  : res neoc_invocation_script_t :=
  if negb (neoc_malloc_ok invocation_struct_size) then Err NEOC_ERROR_MEMORY
  else if 0 <? script_length then
    match script with
    | None => Err NEOC_ERROR_INVALID_ARGUMENT
    | Some script =>
        if negb (neoc_malloc_ok script_length) then Err NEOC_ERROR_MEMORY
        else let? copy := memcpy_from script script_length in Ok (mk_invocation (Some copy) script_length)
    end
  else Ok (mk_invocation None 0).

Definition neoc_invocation_script_create (script : option (list byte)) (script_length : Z)
  : res neoc_invocation_script_t := neoc_invocation_script_allocate script script_length.

Definition neoc_invocation_script_create_empty : res neoc_invocation_script_t :=
  neoc_invocation_script_allocate None 0.

(** A failure frees the object. *)
Definition built_script (m : M neoc_invocation_script_t unit) : res neoc_invocation_script_t :=
  let? iv := neoc_invocation_script_allocate None 0 in
  match m iv with
  | (Ok _, iv) => Ok iv
  | (Err e, _) => Err e
  | (Fault, _) => Fault
  end.

Definition neoc_invocation_script_create_single_sig (signature : option (list byte)) (signature_length : Z)
  : res neoc_invocation_script_t :=
  match signature with
  | None => Err NEOC_ERROR_INVALID_ARGUMENT
  | Some _ =>
      if negb (signature_length =? NEOC_SIGNATURE_SIZE) then Err NEOC_ERROR_INVALID_LENGTH
      else built_script (neoc_invocation_append_data signature signature_length)
  end.

(** [signatures] pairs the entries of the two arrays. *)
Definition neoc_invocation_script_create_multi_sig (signatures : list (option (list byte) * Z))
  : res neoc_invocation_script_t :=
  built_script
    (for_each (fun '(signature, length) =>
       match signature with
       | None => fail NEOC_ERROR_INVALID_ARGUMENT
       | Some _ =>
           if length =? 0 then fail NEOC_ERROR_INVALID_LENGTH
           else neoc_invocation_append_data signature length
       end) signatures).

Definition neoc_invocation_script_add_signature (signature : option (list byte)) (signature_length : Z)
  : M neoc_invocation_script_t unit :=
  match signature with
  | None => fail NEOC_ERROR_INVALID_ARGUMENT
  | Some _ =>
      if signature_length =? 0 then fail NEOC_ERROR_INVALID_LENGTH
      else neoc_invocation_append_data signature signature_length
  end.

Definition neoc_invocation_script_get_script (iv : neoc_invocation_script_t) : option (list byte) * Z :=
  (iv_script iv, iv_length iv).

Definition neoc_invocation_script_get_size (iv : option neoc_invocation_script_t) : Z :=
  match iv with
  | None => 0
  | Some iv => wrap 64 (neoc_invocation_var_int_size (iv_length iv) + iv_length iv)
  end.

Definition neoc_invocation_script_is_empty (iv : option neoc_invocation_script_t) : bool :=
  match iv with None => true | Some iv => iv_length iv =? 0 end.

(** The [n] bytes of a length at [offset], of which the first pass has checked that they
    are there ([check]); [None] is the error the first pass reports. *)
Definition payload_length (check : bool) (buffer : list byte) (length offset n : Z) : res (option Z) :=
  if check && (length <=? offset + (n - 1)) then Ok None
  else
    match buf_slice buffer offset n with
    | None => Fault
    | Some bs => Ok (Some (le_val bs))
    end.

(** One turn of either loop from [offset] on: [Ok None] leaves the loop, otherwise the
    payload and the place where it starts. *)
Definition next_push (check : bool) (buffer : list byte) (length offset : Z) : res (option (Z * Z)) :=
  match buf_get buffer offset with
  | None => Fault
  | Some opcode =>
      let opcode := Z_of_byte opcode in
      let sized n :=
        let? payload_len := payload_length check buffer length (offset + 1) n in
        match payload_len with
        | None => Err NEOC_ERROR_INVALID_FORMAT
        | Some payload_len =>
            if length <? offset + 1 + n + payload_len then Err NEOC_ERROR_INVALID_FORMAT
            else Ok (Some (payload_len, offset + 1 + n))
        end in
      if opcode =? NEOC_OP_PUSHDATA1 then sized 1
      else if opcode =? NEOC_OP_PUSHDATA2 then sized 2
      else if opcode =? NEOC_OP_PUSHDATA4 then sized 4
      else Ok None
  end.

(** The first pass; every turn moves on, so [length] turns are enough. *)
Fixpoint count_signatures (fuel : nat) (buffer : list byte) (length offset count : Z) : res Z :=
  match fuel with
  | O => Fault
  | S fuel =>
      if length <=? offset then Ok count
      else
        let? next := next_push true buffer length offset in
        match next with
        | None => Ok count
        | Some (payload_len, start) =>
            count_signatures fuel buffer length (start + payload_len)
              (if payload_len =? NEOC_SIGNATURE_SIZE then count + 1 else count)
        end
  end.

(** The second pass: at most [count] signatures. *)
Fixpoint copy_signatures (fuel : nat) (buffer : list byte) (length offset : Z) (count : nat)
  : res (list (list byte)) :=
  match fuel with
  | O => Fault
  | S fuel =>
      if length <=? offset then Ok []
      else
        match count with
        | O => Ok []
        | S rest =>
            let? next := next_push false buffer length offset in
            match next with
            | None => Ok []
            | Some (payload_len, start) =>
                if payload_len =? NEOC_SIGNATURE_SIZE then
                  if negb (neoc_malloc_ok payload_len) then Err NEOC_ERROR_MEMORY
                  else
                    match buf_slice buffer start payload_len with
                    | None => Fault
                    | Some signature =>
                        let? l := copy_signatures fuel buffer length (start + payload_len) rest in
                        Ok (signature :: l)
                    end
                else copy_signatures fuel buffer length (start + payload_len) count
            end
        end
  end.

Definition neoc_invocation_script_extract_signatures (iv : neoc_invocation_script_t)
  : res (list (list byte)) :=
  if neoc_invocation_script_is_empty (Some iv) then Ok []
  else
    match iv_script iv with
    | None => Fault
    | Some buffer =>
        let length := iv_length iv in
        let fuel := S (Z.to_nat length) in
        let? count := count_signatures fuel buffer length 0 0 in
        if count =? 0 then Ok []
        else if negb (neoc_malloc_ok (count * 8)) then Err NEOC_ERROR_MEMORY
        else copy_signatures fuel buffer length 0 (Z.to_nat count)
    end.

Definition neoc_invocation_script_copy (source : option neoc_invocation_script_t)
  : res neoc_invocation_script_t :=
  match source with
  | None => Err NEOC_ERROR_INVALID_ARGUMENT
  | Some iv => neoc_invocation_script_allocate (iv_script iv) (iv_length iv)
  end.

(** [same] tells whether the two pointers are equal. *)
Definition neoc_invocation_script_equals (same : bool) (script1 script2 : option neoc_invocation_script_t)
  : res bool :=
  if same then Ok true
  else
    match script1, script2 with
    | Some a, Some b =>
        if negb (iv_length a =? iv_length b) then Ok false
        else if iv_length a =? 0 then Ok true
        else
          match iv_script a, iv_script b with
          | Some x, Some y =>
              let? x := memcpy_from x (iv_length a) in
              let? y := memcpy_from y (iv_length a) in
              Ok (memcmp_loop x y =? 0)
          | _, _ => Fault
          end
    | _, _ => Ok false
    end.

Definition neoc_invocation_script_serialize (iv : neoc_invocation_script_t) : res (list byte) :=
  serialize_with 32 (neoc_binary_writer_write_var_bytes (iv_script iv) (iv_length iv)).

Definition neoc_invocation_script_deserialize (serialized : option (list byte)) (serialized_length : Z)
  : res neoc_invocation_script_t :=
  match serialized with
  | None => Err NEOC_ERROR_INVALID_ARGUMENT
  | Some _ =>
      let? reader := neoc_binary_reader_create serialized serialized_length in
      let? data := fst (neoc_binary_reader_read_var_bytes reader) in
      neoc_invocation_script_allocate data (match data with Some d => zlen d | None => 0 end)
  end.

Definition neoc_invocation_script_clear : M neoc_invocation_script_t unit := fun _ =>
  (Ok tt, mk_invocation None 0).

End Operations.

(** ** Specification *)

(** The script object with the given bytes. *)
Definition invocation_of (s : list byte) : neoc_invocation_script_t :=
  mk_invocation (as_pointer s) (zlen s).

(** Data that is pushed with a length of its own. *)
Definition pushable_data (d : list byte) : Prop := 0 < zlen d < 2 ^ 32.

(** The number of length bytes. *)
Definition length_bytes (n : Z) : Z := if n <=? 0xFF then 1 else if n <=? 0xFFFF then 2 else 4.

Section Proofs.
Context `{Allocator} `{Interop}.
Variable junk : byte.

Lemma push_data_parts d : pushable_data d ->
  exists op, push_data_bytes d = op :: le_bytes (Z.to_nat (length_bytes (zlen d))) (zlen d) ++ d /\
    Z_of_byte op = (if zlen d <=? 0xFF then NEOC_OP_PUSHDATA1
                    else if zlen d <=? 0xFFFF then NEOC_OP_PUSHDATA2 else NEOC_OP_PUSHDATA4).
Proof.
  unfold pushable_data. intros Hd. unfold push_data_bytes, length_bytes. cmps.
  destruct (zlen d <=? 0xFF); [by eexists|]. destruct (zlen d <=? 0xFFFF); by eexists.
Qed.

Lemma zlen_push_data d : pushable_data d -> zlen (push_data_bytes d) = 1 + length_bytes (zlen d) + zlen d.
Proof.
  intros Hd. destruct (push_data_parts d Hd) as (op & -> & _). rewrite zlen_cons, zlen_app.
  unfold length_bytes. unfold zlen at 1. rewrite length_le_bytes.
  destruct (_ <=? 0xFF); [|destruct (_ <=? 0xFFFF)]; cbn; lia.
Qed.

Lemma masked_byte v k : 0 <= k -> byte_of_Z (Z.land (Z.shiftr v k) 0xFF) = byte_of_Z (v / 2 ^ k).
Proof.
  intros Hk. change 0xFF with (Z.ones 8). rewrite Z.land_ones, Z.shiftr_div_pow2 by lia. apply byte_of_Z_mod.
Qed.

(** The header in a buffer of five bytes. *)
Lemma header_ok d : pushable_data d ->
  exists h rest,
    neoc_invocation_write_pushdata_header 5 (zlen d) (replicate 5 Byte.x00)
    = (Ok (1 + length_bytes (zlen d)), h ++ rest) /\
    zlen h = 1 + length_bytes (zlen d) /\ push_data_bytes d = h ++ d.
Proof.
  unfold pushable_data. intros Hd. unfold neoc_invocation_write_pushdata_header, neoc_invocation_pushdata_header_size.
  unfold push_data_bytes, length_bytes. cmps.
  destruct (zlen d <=? 0xFF) eqn:E1; [|destruct (zlen d <=? 0xFFFF) eqn:E2]; bdestruct; rewrite bind_lift.
  - eexists [_; _], [_; _; _]. split_and!; [reflexivity|done|]. done.
  - rewrite !masked_byte by lia. eexists [_; _; _], [_; _]. split_and!; [reflexivity|done|]. cbn [le_bytes app].
    by rewrite Z.div_1_r.
  - rewrite !masked_byte by lia. eexists [_; _; _; _; _], []. split_and!; [reflexivity|done|].
    cbn [le_bytes app]. rewrite !Z.div_div by lia. by rewrite Z.div_1_r.
Qed.

Lemma resized_more n old : zlen old <= n ->
  resized junk n old = old ++ replicate (Z.to_nat (n - zlen old)) junk.
Proof.
  intros Hn. unfold resized, zlen in *. rewrite take_ge by lia. f_equal. f_equal. lia.
Qed.

(** Appending data appends its push. *)
Lemma append_ok s d :
  pushable_data d -> zlen s + zlen d + 5 < 2 ^ 63 -> heap_serves (zlen s + zlen d + 5) ->
  neoc_invocation_append_data junk (Some d) (zlen d) (invocation_of s)
  = (Ok tt, invocation_of (s ++ push_data_bytes d)).
Proof.
  intros Hd Hl Hh. destruct (header_ok d Hd) as (h & rest & Eh & Hhl & Ep). pose proof (zlen_push_data d Hd) as Hpl.
  pose proof (zlen_nonneg s). assert (1 <= length_bytes (zlen d) <= 4) as Hlb.
  { unfold length_bytes. destruct (_ <=? 0xFF); [lia|]. destruct (_ <=? 0xFFFF); lia. }
  unfold pushable_data in Hd. unfold neoc_invocation_append_data. rewrite Eh. cbn [invocation_of iv_length iv_script].
  rewrite wrap_small by (eval_pows; lia). unfold neoc_malloc_ok. cmps. rewrite Hh by lia. cbn [negb].
  assert (default [] (as_pointer s) = s) as -> by (by destruct s).
  set (n := zlen s + (1 + length_bytes (zlen d)) + zlen d). rewrite resized_more by lia.
  assert (memcpy_from (h ++ rest) (1 + length_bytes (zlen d)) = Ok h) as ->.
  { unfold memcpy_from. rewrite <- Hhl. change (h ++ rest) with ([] ++ h ++ rest).
    change 0 with (zlen (@nil byte)). by rewrite buf_slice_app. }
  rewrite bind_lift. rewrite memcpy_from_all by done.
  assert (forall (pre bs buf : list byte), zlen bs <= zlen buf ->
    store (zlen pre) bs (pre ++ buf) = (Ok tt, pre ++ bs ++ drop (length bs) buf)) as Hstore
    by (intros; rewrite store_next by done; by rewrite <- app_assoc).
  unfold bind. rewrite Hstore by (rewrite zlen_replicate; lia). cbn [lift].
  replace (zlen s + (1 + length_bytes (zlen d))) with (zlen (s ++ h)) by (rewrite zlen_app; lia).
  rewrite app_assoc, Hstore.
  2: { rewrite drop_replicate, zlen_replicate. unfold zlen in *. lia. }
  rewrite drop_replicate, drop_replicate. 
  replace (Z.to_nat (n - zlen s) - length h - length d)%nat with 0%nat by (unfold zlen in *; lia).
  cbn [replicate]. rewrite app_nil_r. unfold invocation_of. rewrite <- app_assoc, <- Ep.
  rewrite zlen_app, Hpl. f_equal. f_equal; [|lia]. rewrite Ep.
  destruct s; [|done]. destruct h; [exfalso; rewrite zlen_nil in Hhl; lia|done].
Qed.

Definition push_all (ds : list (list byte)) : list byte := concat (map push_data_bytes ds).

Lemma push_all_cons d ds : push_all (d :: ds) = push_data_bytes d ++ push_all ds.
Proof. done. Qed.

Lemma allocate_empty : heap_serves 16 ->
  neoc_invocation_script_allocate None 0 = Ok (invocation_of []).
Proof. intros Hh. unfold neoc_invocation_script_allocate, neoc_malloc_ok, invocation_struct_size. by rewrite Hh. Qed.

Lemma append_all ds : forall s,
  Forall pushable_data ds -> zlen s + zlen (push_all ds) + 5 < 2 ^ 63 ->
  heap_serves (zlen s + zlen (push_all ds) + 5) ->
  for_each (fun '(signature, length) =>
    match signature with
    | None => fail NEOC_ERROR_INVALID_ARGUMENT
    | Some _ => if length =? 0 then fail NEOC_ERROR_INVALID_LENGTH
                else neoc_invocation_append_data junk signature length
    end) (map (fun d => (Some d, zlen d)) ds) (invocation_of s)
  = (Ok tt, invocation_of (s ++ push_all ds)).
Proof.
  induction ds as [|d ds IH]; intros s Hd Hl Hh.
  - cbn [map for_each]. by rewrite app_nil_r.
  - apply Forall_cons_1 in Hd as [Hd Hds]. rewrite push_all_cons, zlen_app in *.
    pose proof (zlen_push_data d Hd) as Hz. pose proof (zlen_nonneg (push_all ds)).
    assert (1 <= length_bytes (zlen d)) by (unfold length_bytes; repeat case_match; lia).
    pose proof Hd as [Hd0 _]. cbn [map for_each]. cmps. unfold bind.
    rewrite append_ok; [|done|lia|eapply heap_serves_mono; [exact Hh|lia]].
    rewrite IH; [by rewrite <- app_assoc|done|rewrite zlen_app; lia|eapply heap_serves_mono; [exact Hh|rewrite zlen_app; lia]].
Qed.

Lemma create_multi_ok ds :
  Forall pushable_data ds -> zlen (push_all ds) + 5 < 2 ^ 63 ->
  heap_serves (Z.max 16 (zlen (push_all ds) + 5)) ->
  neoc_invocation_script_create_multi_sig junk (map (fun d => (Some d, zlen d)) ds)
  = Ok (invocation_of (push_all ds)).
Proof.
  intros Hd Hl Hh. unfold neoc_invocation_script_create_multi_sig, built_script.
  rewrite allocate_empty by (eapply heap_serves_mono; [exact Hh|lia]). cbn [rbind].
  rewrite (append_all ds []); [done|done|rewrite zlen_nil; lia|].
  rewrite zlen_nil. eapply heap_serves_mono; [exact Hh|lia].
Qed.

(** ** Taking signatures out *)

Lemma next_push_ok check pre d post :
  pushable_data d ->
  let buffer := pre ++ push_data_bytes d ++ post in
  let start := zlen pre + 1 + length_bytes (zlen d) in
  next_push check buffer (zlen buffer) (zlen pre) = Ok (Some (zlen d, start)) /\
  start + zlen d = zlen (pre ++ push_data_bytes d) /\
  buf_slice buffer start (zlen d) = Some d.
Proof.
  intros Hd buffer start. pose proof (zlen_push_data d Hd) as Hz.
  destruct (push_data_parts d Hd) as (op & Ep & Eop). pose proof Hd as [Hd0 Hd1].
  pose proof (zlen_nonneg pre). pose proof (zlen_nonneg post).
  assert (zlen buffer = zlen pre + zlen (push_data_bytes d) + zlen post) as Hb by (unfold buffer; rewrite !zlen_app; lia).
  set (n := length_bytes (zlen d)) in *.
  assert (1 <= n <= 4 /\ zlen d < 256 ^ n) as [Hn Hn'].
  { unfold n, length_bytes. destruct (_ <=? 0xFF) eqn:E1; bdestruct; [lia|].
    destruct (_ <=? 0xFFFF) eqn:E2; bdestruct; eval_pows; lia. }
  set (lb := le_bytes (Z.to_nat n) (zlen d)) in *.
  assert (zlen lb = n) as Hlb by (unfold lb, zlen; rewrite length_le_bytes; lia).
  assert (buf_get buffer (zlen pre) = Some op) as Eg.
  { unfold buf_get, buffer. cmps. unfold zlen. rewrite Nat2Z.id, Ep. cbn [app]. by apply list_lookup_middle. }
  assert (buf_slice buffer (zlen pre + 1) n = Some lb) as El.
  { unfold buffer. rewrite Ep. replace (pre ++ (op :: lb ++ d) ++ post) with ((pre ++ [op]) ++ lb ++ d ++ post)
      by (cbn [app]; rewrite <- !app_assoc; done).
    replace (zlen pre + 1) with (zlen (pre ++ [op])) by (rewrite zlen_app; done). rewrite <- Hlb. apply buf_slice_app. }
  assert (buf_slice buffer start (zlen d) = Some d) as Ed.
  { unfold buffer, start. rewrite Ep. replace (pre ++ (op :: lb ++ d) ++ post) with ((pre ++ op :: lb) ++ d ++ post)
      by (rewrite <- !app_assoc; cbn [app]; by rewrite <- !app_assoc).
    replace (zlen pre + 1 + n) with (zlen (pre ++ op :: lb)) by (rewrite zlen_app, zlen_cons; lia). apply buf_slice_app. }
  split_and!; [|unfold start; rewrite zlen_app; lia|done].
  assert (payload_length check buffer (zlen buffer) (zlen pre + 1) n = Ok (Some (zlen d))) as Epl.
  { unfold payload_length. cmps. rewrite andb_false_r, El. unfold lb. rewrite le_val_le_bytes_small; [done|].
    rewrite Z2Nat.id by lia. lia. }
  unfold next_push. rewrite Eg. cbv zeta. rewrite Eop. unfold start.
  unfold NEOC_OP_PUSHDATA1, NEOC_OP_PUSHDATA2, NEOC_OP_PUSHDATA4.
  unfold n, length_bytes in *. destruct (zlen d <=? 0xFF) eqn:E1; [|destruct (zlen d <=? 0xFFFF) eqn:E2]; cbn [Z.eqb Pos.eqb];
    rewrite Epl; cbn [rbind]; cmps; done.
Qed.


(** The signatures among pushed data. *)
Definition signatures_of (ds : list (list byte)) : list (list byte) :=
  List.filter (fun d => zlen d =? NEOC_SIGNATURE_SIZE) ds.

Lemma count_ok ds : forall fuel pre count,
  Forall pushable_data ds -> (length ds < fuel)%nat ->
  let buffer := pre ++ push_all ds in
  count_signatures fuel buffer (zlen buffer) (zlen pre) count = Ok (count + zlen (signatures_of ds)).
Proof.
  induction ds as [|d ds IH]; intros fuel pre count Hd Hf buffer.
  - destruct fuel as [|fuel]; [cbn in Hf; lia|]. cbn [count_signatures]. unfold buffer. rewrite app_nil_r.
    rewrite Z.leb_refl. by rewrite Z.add_0_r.
  - apply Forall_cons_1 in Hd as [Hd Hds]. destruct fuel as [|fuel]; [cbn in Hf; lia|].
    destruct (next_push_ok true pre d (push_all ds) Hd) as (En & Es & _). fold (push_all (d :: ds)) in En.
    rewrite <- push_all_cons in En. fold buffer in En. pose proof Hd as [Hd0 _]. pose proof (zlen_push_data d Hd) as Hz.
    assert (zlen pre < zlen buffer) as Hlt.
    { unfold buffer. rewrite push_all_cons, !zlen_app.
      pose proof (zlen_nonneg (push_all ds)). rewrite Hz. unfold length_bytes. repeat case_match; lia. }
    cbn [count_signatures]. cmps. rewrite En. cbn [rbind].
    rewrite Es. unfold buffer. rewrite push_all_cons, app_assoc. rewrite IH by (done || (cbn in Hf; lia)).
    unfold signatures_of. cbn [List.filter]. destruct (_ =? NEOC_SIGNATURE_SIZE); [rewrite zlen_cons|]; f_equal; lia.
Qed.

Lemma copy_ok ds : forall fuel pre,
  Forall pushable_data ds -> (length ds < fuel)%nat -> heap_serves 64 ->
  let buffer := pre ++ push_all ds in
  copy_signatures fuel buffer (zlen buffer) (zlen pre) (length (signatures_of ds)) = Ok (signatures_of ds).
Proof.
  induction ds as [|d ds IH]; intros fuel pre Hd Hf Hh buffer.
  - destruct fuel as [|fuel]; [cbn in Hf; lia|]. cbn [copy_signatures]. unfold buffer. rewrite app_nil_r.
    by rewrite Z.leb_refl.
  - apply Forall_cons_1 in Hd as [Hd Hds]. destruct fuel as [|fuel]; [cbn in Hf; lia|].
    destruct (next_push_ok false pre d (push_all ds) Hd) as (En & Es & Eb).
    rewrite <- push_all_cons in En, Eb. fold buffer in En, Eb. pose proof (zlen_push_data d Hd) as Hz.
    pose proof Hd as [Hd0 _].
    assert (zlen pre < zlen buffer) as Hlt.
    { unfold buffer. rewrite push_all_cons, !zlen_app.
      pose proof (zlen_nonneg (push_all ds)). rewrite Hz. unfold length_bytes. repeat case_match; lia. }
    assert (copy_signatures fuel buffer (zlen buffer) (zlen (pre ++ push_data_bytes d))
              (length (signatures_of ds)) = Ok (signatures_of ds)) as IH'.
    { unfold buffer. rewrite push_all_cons, app_assoc. apply IH; [done|cbn in Hf; lia|done]. }
    unfold signatures_of in *. cbn [List.filter copy_signatures]. cmps.
    destruct (zlen d =? NEOC_SIGNATURE_SIZE) eqn:E.
    + cbn [length]. rewrite En. cbn [rbind]. rewrite E. apply Z.eqb_eq in E. unfold NEOC_SIGNATURE_SIZE in E.
      unfold neoc_malloc_ok. cmps. rewrite Hh by lia. cbn [negb]. by rewrite Eb, Es, IH'.
    + destruct (length (List.filter _ ds)) as [|k] eqn:Ek.
      * destruct (List.filter _ ds); done.
      * rewrite En. cbn [rbind]. by rewrite E, Es.
Qed.

(** The signatures are read back from their pushes. *)
Lemma extract_ok ds :
  Forall pushable_data ds -> heap_serves (Z.max 64 (8 * zlen ds)) ->
  neoc_invocation_script_extract_signatures (invocation_of (push_all ds)) = Ok (signatures_of ds).
Proof.
  intros Hd Hh. unfold neoc_invocation_script_extract_signatures.
  destruct (push_all ds) as [|b s] eqn:Ep.
  { destruct ds as [|d ds]; [done|]. exfalso. apply Forall_cons_1 in Hd as [Hd _].
    rewrite push_all_cons in Ep. apply app_eq_nil in Ep as [Ep _]. destruct (push_data_parts d Hd) as (op & E & _).
    by rewrite E in Ep. }
  rewrite <- Ep. assert (length ds <= length (push_all ds))%nat as Hlen.
  { clear Ep Hh. induction Hd as [|d ds Hd _ IH]; [done|]. rewrite push_all_cons, length_app.
    destruct (push_data_parts d Hd) as (op & E & _). rewrite E. cbn [length]. lia. }
  assert (0 < zlen (push_all ds)) as Hpos by (rewrite Ep, zlen_cons; pose proof (zlen_nonneg s); lia).
  unfold invocation_of. cbn [neoc_invocation_script_is_empty iv_length iv_script]. cmps.
  assert (as_pointer (push_all ds) = Some (push_all ds)) as -> by (by rewrite Ep).
  pose proof (count_ok ds (S (Z.to_nat (zlen (push_all ds)))) [] 0 Hd) as Ec. cbv zeta in Ec.
  cbn [app] in Ec. change (zlen (@nil byte)) with 0 in Ec. rewrite Ec by (unfold zlen; lia). cbn [rbind]. rewrite Z.add_0_l.
  pose proof (zlen_nonneg (signatures_of ds)).
  destruct (zlen (signatures_of ds) =? 0) eqn:E0; bdestruct; [by rewrite (zlen_zero (signatures_of ds))|].
  assert (zlen (signatures_of ds) <= zlen ds) as Hf.
  { unfold signatures_of, zlen. pose proof (List.filter_length_le (fun d => zlen d =? NEOC_SIGNATURE_SIZE) ds).
    unfold zlen in *. lia. }
  unfold neoc_malloc_ok. cmps. rewrite Hh by lia. cbn [negb].
  replace (Z.to_nat (zlen (signatures_of ds))) with (length (signatures_of ds)) by (unfold zlen; lia).
  apply (copy_ok ds _ []); [done|unfold zlen; lia|].
  eapply heap_serves_mono; [exact Hh|lia].
Qed.

(** ** Scripts from outside *)

(** A turn of the first pass moves on and stays inside; the second pass does the same. *)
Lemma next_push_inside buffer offset :
  0 <= offset < zlen buffer ->
  match next_push true buffer (zlen buffer) offset with
  | Ok next =>
      next_push false buffer (zlen buffer) offset = Ok next /\
      match next with
      | Some (n, start) => offset < start /\ 0 <= n /\ start + n <= zlen buffer
      | None => True
      end
  | Err e => e = NEOC_ERROR_INVALID_FORMAT
  | Fault => False
  end.
Proof.
  intros Ho. unfold next_push. destruct (buf_get_some buffer offset Ho) as (op & ->). cbv zeta.
  assert (forall n, 1 <= n ->
    match (let? payload_len := payload_length true buffer (zlen buffer) (offset + 1) n in
           match payload_len with
           | None => Err NEOC_ERROR_INVALID_FORMAT
           | Some payload_len =>
               if zlen buffer <? offset + 1 + n + payload_len then Err NEOC_ERROR_INVALID_FORMAT
               else Ok (Some (payload_len, offset + 1 + n))
           end) with
    | Ok next =>
        (let? payload_len := payload_length false buffer (zlen buffer) (offset + 1) n in
         match payload_len with
         | None => Err NEOC_ERROR_INVALID_FORMAT
         | Some payload_len =>
             if zlen buffer <? offset + 1 + n + payload_len then Err NEOC_ERROR_INVALID_FORMAT
             else Ok (Some (payload_len, offset + 1 + n))
         end) = Ok next /\
        match next with
        | Some (k, start) => offset < start /\ 0 <= k /\ start + k <= zlen buffer
        | None => True
        end
    | Err e => e = NEOC_ERROR_INVALID_FORMAT
    | Fault => False
    end) as Hsized.
  { intros n Hn. unfold payload_length. cbn [andb].
    destruct (zlen buffer <=? offset + 1 + (n - 1)) eqn:E; bdestruct; [done|].
    destruct (buf_slice_some buffer (offset + 1) n) as (bs & -> & _); [lia..|]. cbn [rbind].
    pose proof (le_val_range bs). destruct (_ <? _) eqn:E2; bdestruct; [done|].
    cbn [rbind]. split; [done|lia]. }
  destruct (_ =? NEOC_OP_PUSHDATA1); [by apply Hsized|]. destruct (_ =? NEOC_OP_PUSHDATA2); [by apply Hsized|].
  destruct (_ =? NEOC_OP_PUSHDATA4); [by apply Hsized|]. done.
Qed.

(** The first pass ends, and the second finds what it has counted. *)
Lemma passes_agree buffer : forall fuel offset count,
  0 <= offset <= zlen buffer -> (Z.to_nat (zlen buffer - offset) < fuel)%nat ->
  match count_signatures fuel buffer (zlen buffer) offset count with
  | Ok total =>
      count <= total /\
      match copy_signatures fuel buffer (zlen buffer) offset (Z.to_nat (total - count)) with
      | Ok sigs => zlen sigs = total - count /\ Forall (fun sg => zlen sg = NEOC_SIGNATURE_SIZE) sigs
      | Err e => e = NEOC_ERROR_MEMORY /\ malloc_ok NEOC_SIGNATURE_SIZE = false
      | Fault => False
      end
  | Err e => e = NEOC_ERROR_INVALID_FORMAT
  | Fault => False
  end.
Proof.
  induction fuel as [|fuel IH]; intros offset count Ho Hf; [lia|].
  cbn [count_signatures copy_signatures]. destruct (zlen buffer <=? offset) eqn:E; bdestruct.
  { rewrite Z.sub_diag. split_and!; done || lia. }
  pose proof (next_push_inside buffer offset ltac:(lia)) as Hn.
  destruct (next_push true _ _ _) as [next|e|]; [|done|done]. cbn [rbind]. destruct Hn as [En Hn].
  destruct next as [[n start]|].
  2: { rewrite Z.sub_diag. split_and!; done || lia. }
  destruct (n =? NEOC_SIGNATURE_SIZE) eqn:En'; bdestruct.
  - specialize (IH (start + n) (count + 1) ltac:(lia) ltac:(lia)).
    destruct (count_signatures fuel _ _ _ _) as [total| |]; [|done|done]. destruct IH as [Hc IH]. split; [lia|].
    replace (Z.to_nat (total - count)) with (S (Z.to_nat (total - (count + 1)))) by lia.
    rewrite En. cbn [rbind]. subst n. rewrite Z.eqb_refl. unfold neoc_malloc_ok.
    unfold NEOC_SIGNATURE_SIZE in *. change (64 =? 0) with false. cbv iota. destruct (malloc_ok 64) eqn:Em; [|done].
    cbn [negb andb]. destruct (buf_slice_some buffer start 64) as (sg & -> & Hsg); [lia..|].
    destruct (copy_signatures fuel _ _ _ _) as [sigs| |]; [|done|done]. cbn [rbind]. destruct IH as [IH IH'].
    rewrite zlen_cons. split; [lia|by constructor].
  - specialize (IH (start + n) count ltac:(lia) ltac:(lia)).
    destruct (count_signatures fuel _ _ _ _) as [total| |]; [|done|done]. destruct IH as [Hc IH]. split; [lia|].
    destruct (Z.to_nat (total - count)) as [|k] eqn:Ek.
    { split; [|done]. change (zlen (@nil (list byte))) with 0. lia. }
    rewrite En. cbn [rbind]. cmps. exact IH.
Qed.
End Proofs.

(** Pushes of signatures take 66 bytes each. *)
Lemma zlen_push_signatures sigs :
  Forall (fun sg => zlen sg = NEOC_SIGNATURE_SIZE) sigs -> zlen (push_all sigs) = 66 * zlen sigs.
Proof.
  unfold NEOC_SIGNATURE_SIZE. induction 1 as [|sg sigs Hs _ IH]; [done|].
  rewrite push_all_cons, zlen_app, IH, zlen_cons, zlen_push_data by (unfold pushable_data; lia).
  rewrite Hs. change (length_bytes 64) with 1. lia.
Qed.

(** A filter that keeps everything. *)
Lemma signatures_of_all sigs :
  Forall (fun sg => zlen sg = NEOC_SIGNATURE_SIZE) sigs -> signatures_of sigs = sigs.
Proof.
  unfold signatures_of. induction 1 as [|sg sigs Hs _ IH]; [done|]. cbn [List.filter]. by rewrite Hs, IH.
Qed.

(** A script object is serialized as its length and its bytes, and read back. *)
Lemma serialize_ok `{Allocator} s :
  zlen s <= 2 ^ 40 -> heap_serves (2 ^ 42) ->
  neoc_invocation_script_serialize (invocation_of s) = Ok (var_bytes s) /\
  neoc_invocation_script_deserialize (Some (var_bytes s)) (zlen (var_bytes s)) = Ok (invocation_of s) /\
  neoc_invocation_script_get_size (Some (invocation_of s)) = zlen (var_bytes s).
Proof.
  intros Hs Hh. pose proof (zlen_nonneg s).
  assert (neoc_invocation_var_int_size (zlen s) = zlen (var_int_bytes (zlen s))) as Hv.
  { unfold neoc_invocation_var_int_size, var_int_bytes, zlen. repeat case_match; cbn [length];
      rewrite ?length_le_bytes; lia. }
  assert (1 <= zlen (var_int_bytes (zlen s)) <= 9) as Hv9
    by (rewrite <- Hv; unfold neoc_invocation_var_int_size; repeat case_match; lia).
  assert (zlen (var_bytes s) = zlen (var_int_bytes (zlen s)) + zlen s) as Hz by apply zlen_app.
  split_and!.
  - apply serialize_with_ok; [|lia|unfold stream_max; eval_pows; lia|eapply heap_serves_mono; [exact Hh|eval_pows; lia]].
    destruct s; [apply write_var_bytes_null_writes|apply write_var_bytes_writes].
  - unfold neoc_invocation_script_deserialize.
    destruct (reader_create_ok (var_bytes s)) as (r & -> & Hr & Hd & Hp);
      [eval_pows; lia|apply Hh; unfold reader_struct_size; eval_pows; lia|apply Hh; eval_pows; lia|]. cbn [rbind].
    rewrite (read_var_bytes_reads s); [|eval_pows; lia|apply Hh; eval_pows; lia|done|].
    2: { exists [], []. rewrite Hd, app_nil_r. done. }
    cbn [fst rbind]. unfold neoc_invocation_script_allocate, neoc_malloc_ok, invocation_struct_size.
    cbn [Z.eqb]. rewrite Hh by (eval_pows; lia). cbn [negb]. destruct s as [|b s]; [done|].
    cbn [as_pointer]. rewrite zlen_cons in *. pose proof (zlen_nonneg s). cmps.
    rewrite Hh by (eval_pows; lia). cbn [negb]. rewrite memcpy_from_all by (rewrite zlen_cons; done). cbn [rbind].
    unfold invocation_of. by rewrite zlen_cons.
  - unfold neoc_invocation_script_get_size. cbn [invocation_of iv_length]. rewrite Hv, Hz.
    rewrite wrap_small by (eval_pows; lia). done.
Qed.

(** Round trip of invocation scripts: the script created for a list of signatures runs
    on the virtual machine to the signatures on the stack, in their order; the two passes
    of [extract_signatures] give exactly the signatures back; and serialization, of the
    announced size, is undone by deserialization.  For one signature the script is also that
    of [create_single_sig] and of the script helper. *)
Theorem invocation_roundtrip `{Allocator} (junk : byte) (sigs : list (list byte)) :
  Forall (fun sg => zlen sg = NEOC_SIGNATURE_SIZE) sigs -> zlen sigs <= 2 ^ 32 -> heap_serves (2 ^ 42) ->
  let iv := invocation_of (push_all sigs) in
  neoc_invocation_script_create_multi_sig junk (map (fun sg => (Some sg, zlen sg)) sigs) = Ok iv /\
  (match sigs with
   | [sg] => neoc_invocation_script_create_single_sig junk (Some sg) 64 = Ok iv /\
             neoc_script_create_single_sig_invocation (Some sg) 64 = Ok (push_all sigs)
   | _ => True
   end) /\
  pushes_all (push_all sigs) (map ByteString sigs) /\
  neoc_invocation_script_extract_signatures iv = Ok sigs /\
  exists bs,
    neoc_invocation_script_serialize iv = Ok bs /\
    neoc_invocation_script_get_size (Some iv) = zlen bs /\
    neoc_invocation_script_deserialize (Some bs) (zlen bs) = Ok iv.
Proof.
  intros Hs Hl Hh iv. pose proof (zlen_push_signatures sigs Hs) as Hz. pose proof (zlen_nonneg sigs).
  assert (Forall pushable_data sigs) as Hp.
  { eapply Forall_impl; [exact Hs|]. unfold pushable_data, NEOC_SIGNATURE_SIZE. cbn. intros sg ->. lia. }
  assert (zlen (push_all sigs) <= 2 ^ 40) as Hz' by (rewrite Hz; eval_pows; lia).
  assert (forall n, n <= 2 ^ 42 -> heap_serves n) as Hhs by (intros n Hn; by eapply heap_serves_mono).
  split_and!.
  - apply create_multi_ok; [done|eval_pows; lia|apply Hhs; eval_pows; lia].
  - destruct sigs as [|sg [|]]; [done| |done]. apply Forall_cons_1 in Hs as [Hsg _]. unfold NEOC_SIGNATURE_SIZE in Hsg.
    assert (push_all [sg] = push_data_bytes sg) as E by apply app_nil_r. rewrite E in Hz', Hz. split.
    + unfold neoc_invocation_script_create_single_sig, built_script. cbn [Z.eqb Pos.eqb negb NEOC_SIGNATURE_SIZE].
      rewrite allocate_empty by (apply Hhs; eval_pows; lia). cbn [rbind]. rewrite <- Hsg.
      rewrite append_ok; [unfold iv; by rewrite E|by apply Forall_cons_1 in Hp as [Hp _]|rewrite zlen_nil, Hsg; lia|].
      apply Hhs. rewrite zlen_nil, Hsg. eval_pows. lia.
    + unfold neoc_script_create_single_sig_invocation. cbn [Z.eqb Pos.eqb negb andb]. rewrite <- Hsg, E.
      apply script_with_ok; [apply push_data_writes|unfold stream_max; eval_pows; lia|apply Hhs; eval_pows; lia].
  - apply pushes_all_concat. intros sg Hin.
    rewrite List.Forall_forall in Hs. specialize (Hs sg Hin). unfold NEOC_SIGNATURE_SIZE in Hs.
    apply data_pushes_long. lia.
  - unfold iv. rewrite extract_ok; [by rewrite signatures_of_all|done|apply Hhs; eval_pows; lia].
  - exists (var_bytes (push_all sigs)). destruct (serialize_ok (push_all sigs)) as (Es & Ed & Eg); done.
Qed.

(** Invocation scripts from outside: for any bytes whatever the two passes end without
    leaving them, and what they return is signatures; the only failures are a length that
    points outside and memory.  The second pass, which checks less, meets nothing the first
    one has not met. *)
Theorem invocation_untrusted `{Allocator} (data : list byte) :
  match neoc_invocation_script_extract_signatures (invocation_of data) with
  | Ok sigs => Forall (fun sg => zlen sg = NEOC_SIGNATURE_SIZE) sigs
  | Err e => e = NEOC_ERROR_INVALID_FORMAT \/ e = NEOC_ERROR_MEMORY
  | Fault => False
  end.
Proof.
  destruct (decide (data = [])) as [->|Hne]; [by vm_compute|].
  destruct data as [|b data]; [done|]. clear Hne. unfold neoc_invocation_script_extract_signatures.
  set (buffer := b :: data). assert (0 < zlen buffer) as Hpos.
  { unfold buffer. rewrite zlen_cons. pose proof (zlen_nonneg data). lia. }
  unfold invocation_of. cbn [neoc_invocation_script_is_empty iv_length iv_script]. cmps.
  change (as_pointer buffer) with (Some buffer). cbv iota zeta.
  pose proof (passes_agree buffer (S (Z.to_nat (zlen buffer))) 0 0 ltac:(lia) ltac:(lia)) as Hx.
  destruct (count_signatures _ _ _ _ _) as [total|e|]; [|by left|done]. cbn [rbind].
  destruct (total =? 0); [done|]. destruct (negb _); [by right|]. rewrite Z.sub_0_r in Hx.
  destruct Hx as [_ Hx]. destruct (copy_signatures _ _ _ _ _) as [sigs|e|]; [apply Hx| |done].
  right. apply Hx.
Qed.

(** ** Samples *)

Section Samples.
#[local] Instance invocation_heap : Allocator := fun n => n <=? 2 ^ 42.

Definition sample_signatures : list (list byte) := [replicate 64 Byte.x01; replicate 64 Byte.x02].

Lemma invocation_roundtrip_witness :
  neoc_invocation_script_extract_signatures (invocation_of (push_all sample_signatures)) = Ok sample_signatures.
Proof.
  apply (invocation_roundtrip Byte.xff sample_signatures).
  - repeat constructor.
  - by vm_compute.
  - intros n Hn. apply Z.leb_le. lia.
Defined.

(** A length byte is missing. *)
Example invocation_truncated :
  neoc_invocation_script_extract_signatures (invocation_of [Byte.x0d; Byte.x40]) = Err NEOC_ERROR_INVALID_FORMAT.
Proof. by vm_compute. Qed.
End Samples.
