(* ===== verification/ScriptReader.v ===== *)
(** * Disassembler (src/script/script_reader.c)

    Scripts as text, one instruction per line.  The reader keeps a place in the script and
    a caller's buffer into which text is appended.  Errors of operands are ignored: the
    bytes of an operand that is cut off are taken for instructions.  The sizes of
    operands and the names come from tables of this file, not from those of opcode.c. *)

From S2P Require Import Prelude BinaryWriter BinaryReader Hex Crypto Base58 Hashes Interop Opcode NeoVM ScriptBuilder EcKey VerificationScript.
#[local] Open Scope Z_scope.

Record neoc_script_reader_t := mk_script_reader {
  sr_script : list byte;
  sr_script_length : Z;
  sr_position : Z;
  sr_output_buffer : list byte;
  sr_output_size : Z;
  sr_output_length : Z
}.

Definition set_position (p : Z) (r : neoc_script_reader_t) : neoc_script_reader_t :=
  mk_script_reader (sr_script r) (sr_script_length r) p (sr_output_buffer r) (sr_output_size r)
    (sr_output_length r).

Definition set_output (buf : list byte) (len : Z) (r : neoc_script_reader_t) : neoc_script_reader_t :=
  mk_script_reader (sr_script r) (sr_script_length r) (sr_position r) buf (sr_output_size r) len.

(** ** Operations *)

Definition neoc_script_reader_init (script : option (list byte)) (script_length : Z)
    (output_buffer : option (list byte)) (output_size : Z) : res neoc_script_reader_t :=
  match script, output_buffer with
  | Some script, Some output_buffer =>
      if 0 <? output_size then
        match store 0 [Byte.x00] output_buffer with
        | (Ok _, buf) => Ok (mk_script_reader script script_length 0 buf output_size 0)
        | _ => Fault
        end
      else Ok (mk_script_reader script script_length 0 output_buffer output_size 0)
  | _, _ => Err NEOC_ERROR_NULL_POINTER
  end.

Definition neoc_script_reader_has_more (r : option neoc_script_reader_t) : bool :=
  match r with Some r => sr_position r <? sr_script_length r | None => false end.

Definition neoc_script_reader_get_position (r : option neoc_script_reader_t) : Z :=
  match r with Some r => sr_position r | None => 0 end.

Definition neoc_script_reader_read_byte : M neoc_script_reader_t byte := fun r =>
  if sr_script_length r <=? sr_position r then (Err NEOC_ERROR_END_OF_STREAM, r)
  else
    match buf_get (sr_script r) (sr_position r) with
    | Some b => (Ok b, set_position (sr_position r + 1) r)
    | None => (Fault, r)
    end.

(** The bytes put into the caller's buffer. *)
Definition neoc_script_reader_read_bytes (count : Z) : M neoc_script_reader_t (list byte) := fun r =>
  if sr_script_length r <? wrap 64 (sr_position r + count) then (Err NEOC_ERROR_END_OF_STREAM, r)
  else
    match buf_slice (sr_script r) (sr_position r) count with
    | Some bs => (Ok bs, set_position (sr_position r + count) r)
    | None => (Fault, r)
    end.

Definition neoc_script_reader_append_output (s : option (list byte)) : M neoc_script_reader_t unit := fun r =>
  match s with
  | None => (Err NEOC_ERROR_NULL_POINTER, r)
  | Some s =>
      let str_len := zlen s in
      if sr_output_size r <? wrap 64 (sr_output_length r + str_len + 1)
      then (Err NEOC_ERROR_BUFFER_TOO_SMALL, r)
      else
        match strcat s (sr_output_buffer r) with
        | (Ok _, buf) => (Ok tt, set_output buf (sr_output_length r + str_len) r)
        | (Err e, _) => (Err e, r)
        | (Fault, _) => (Fault, r)
        end
  end.

(** [text] is what the format and its arguments expand to; it has to fit 256 characters. *)
Definition neoc_script_reader_append_formatted (text : list byte) : M neoc_script_reader_t unit :=
  if 256 <=? zlen text then fail NEOC_ERROR_BUFFER_TOO_SMALL
  else neoc_script_reader_append_output (Some text).

(** The fixed size and the size of the length in front. *)
Definition get_operand_size_info (opcode : Z) : Z * Z :=
  let case := existsb (Z.eqb opcode) in
  if case [NEOC_OP_PUSHINT8; NEOC_OP_JMP; NEOC_OP_JMPIF; NEOC_OP_JMPIFNOT; NEOC_OP_JMPEQ;
      NEOC_OP_JMPNE; NEOC_OP_JMPGT; NEOC_OP_JMPGE; NEOC_OP_JMPLT; NEOC_OP_JMPLE;
      NEOC_OP_CALL; NEOC_OP_ENDTRY]
  then (1, 0)
  else if case [NEOC_OP_PUSHINT16; NEOC_OP_JMP_L; NEOC_OP_JMPIF_L; NEOC_OP_JMPIFNOT_L; NEOC_OP_JMPEQ_L;
      NEOC_OP_JMPNE_L; NEOC_OP_JMPGT_L; NEOC_OP_JMPGE_L; NEOC_OP_JMPLT_L; NEOC_OP_JMPLE_L;
      NEOC_OP_CALL_L; NEOC_OP_ENDTRY_L]
  then (2, 0)
  else if case [NEOC_OP_PUSHINT32; NEOC_OP_PUSHA; NEOC_OP_SYSCALL; NEOC_OP_ENDFINALLY]
  then (4, 0)
  else if case [NEOC_OP_PUSHINT64; NEOC_OP_PUSHINT128; NEOC_OP_PUSHINT256]
  then (8, 0)
  else if case [NEOC_OP_PUSHDATA1]
  then (0, 1)
  else if case [NEOC_OP_PUSHDATA2]
  then (0, 2)
  else if case [NEOC_OP_PUSHDATA4]
  then (0, 4)
  else (0, 0).

(** The loop over the bytes of the length, from the [i]-th on. *)
Fixpoint read_prefix (n : nat) (i result : Z) : M neoc_script_reader_t Z :=
  match n with
  | O => ret result
  | S n =>
      let! b := neoc_script_reader_read_byte in
      read_prefix n (i + 1) (Z.lor result (Z.shiftl (Z_of_byte b) (i * 8)))
  end.

Definition read_prefix_size (prefix_size : Z) : M neoc_script_reader_t Z :=
  read_prefix (Z.to_nat prefix_size) 0 0.

(** The cases of [opcode_to_string]. *)
Definition opcode_strings : list (Z * list byte) :=
  [ (NEOC_OP_PUSHINT8, str "PUSHINT8");
    (NEOC_OP_PUSHINT16, str "PUSHINT16");
    (NEOC_OP_PUSHINT32, str "PUSHINT32");
    (NEOC_OP_PUSHINT64, str "PUSHINT64");
    (NEOC_OP_PUSHINT128, str "PUSHINT128");
    (NEOC_OP_PUSHINT256, str "PUSHINT256");
    (NEOC_OP_PUSHA, str "PUSHA");
    (NEOC_OP_PUSHNULL, str "PUSHNULL");
    (NEOC_OP_PUSHDATA1, str "PUSHDATA1");
    (NEOC_OP_PUSHDATA2, str "PUSHDATA2");
    (NEOC_OP_PUSHDATA4, str "PUSHDATA4");
    (NEOC_OP_PUSHM1, str "PUSHM1");
    (NEOC_OP_PUSH0, str "PUSH0");
    (NEOC_OP_PUSH1, str "PUSH1");
    (NEOC_OP_PUSH2, str "PUSH2");
    (NEOC_OP_PUSH3, str "PUSH3");
    (NEOC_OP_PUSH4, str "PUSH4");
    (NEOC_OP_PUSH5, str "PUSH5");
    (NEOC_OP_PUSH6, str "PUSH6");
    (NEOC_OP_PUSH7, str "PUSH7");
    (NEOC_OP_PUSH8, str "PUSH8");
    (NEOC_OP_PUSH9, str "PUSH9");
    (NEOC_OP_PUSH10, str "PUSH10");
    (NEOC_OP_PUSH11, str "PUSH11");
    (NEOC_OP_PUSH12, str "PUSH12");
    (NEOC_OP_PUSH13, str "PUSH13");
    (NEOC_OP_PUSH14, str "PUSH14");
    (NEOC_OP_PUSH15, str "PUSH15");
    (NEOC_OP_PUSH16, str "PUSH16");
    (NEOC_OP_NOP, str "NOP");
    (NEOC_OP_JMP, str "JMP");
    (NEOC_OP_JMP_L, str "JMP_L");
    (NEOC_OP_JMPIF, str "JMPIF");
    (NEOC_OP_JMPIF_L, str "JMPIF_L");
    (NEOC_OP_JMPIFNOT, str "JMPIFNOT");
    (NEOC_OP_JMPIFNOT_L, str "JMPIFNOT_L");
    (NEOC_OP_JMPEQ, str "JMPEQ");
    (NEOC_OP_JMPEQ_L, str "JMPEQ_L");
    (NEOC_OP_JMPNE, str "JMPNE");
    (NEOC_OP_JMPNE_L, str "JMPNE_L");
    (NEOC_OP_JMPGT, str "JMPGT");
    (NEOC_OP_JMPGT_L, str "JMPGT_L");
    (NEOC_OP_JMPGE, str "JMPGE");
    (NEOC_OP_JMPGE_L, str "JMPGE_L");
    (NEOC_OP_JMPLT, str "JMPLT");
    (NEOC_OP_JMPLT_L, str "JMPLT_L");
    (NEOC_OP_JMPLE, str "JMPLE");
    (NEOC_OP_JMPLE_L, str "JMPLE_L");
    (NEOC_OP_CALL, str "CALL");
    (NEOC_OP_CALL_L, str "CALL_L");
    (NEOC_OP_CALLA, str "CALLA");
    (NEOC_OP_CALLT, str "CALLT");
    (NEOC_OP_ABORT, str "ABORT");
    (NEOC_OP_ASSERT, str "ASSERT");
    (NEOC_OP_THROW, str "THROW");
    (NEOC_OP_TRY, str "TRY");
    (NEOC_OP_TRY_L, str "TRY_L");
    (NEOC_OP_ENDTRY, str "ENDTRY");
    (NEOC_OP_ENDTRY_L, str "ENDTRY_L");
    (NEOC_OP_ENDFINALLY, str "ENDFINALLY");
    (NEOC_OP_RET, str "RET");
    (NEOC_OP_SYSCALL, str "SYSCALL") ].

Fixpoint switch_name (opcode : Z) (cases : list (Z * list byte)) : list byte :=
  match cases with
  | [] => str "UNKNOWN"
  | (o, name) :: cases => if o =? opcode then name else switch_name opcode cases
  end.

Definition opcode_to_string (opcode : Z) : list byte := switch_name opcode opcode_strings.

Definition str_newline : list byte := [Byte.x0a].

Section Operations.
Context `{Allocator} `{Interop}.

(** ["%08x"] *)
Definition sprintf_08x (v : Z) : list byte := hex_of false (rev (le_bytes 4 v)).

(** The loop over the services, [n] of them left from [i] on. *)
Fixpoint find_service (hash_string : list byte) (n : nat) (i : Z) : res Z :=
  match n with
  | O => Err NEOC_ERROR_NOT_FOUND
  | S n =>
      if bool_decide (hash_string = sprintf_08x (service_hash i)) then Ok i
      else find_service hash_string n (i + 1)
  end.

Definition neoc_script_reader_get_interop_service (hash_string : option (list byte)) : res Z :=
  match hash_string with
  | None => Err NEOC_ERROR_NULL_POINTER
  | Some hash_string => find_service hash_string (Z.to_nat NEOC_INTEROP_COUNT) 0
  end.

(** The digits of the first [n] bytes, in a local array of 512 characters. *)
Definition hex_string (data : list byte) (n : Z) : res (list byte) :=
  let? buf := local_buffer 512 (neoc_hex_encode (Some data) n 512 false false) in
  Ok (cstring buf).

(** The operand of an instruction.  Only the errors of [append_formatted] are returned. *)
Definition show_operand (opcode : Z) : M neoc_script_reader_t unit :=
  let '(fixed_size, prefix_size) := get_operand_size_info opcode in
  if 0 <? fixed_size then
    if fixed_size <=? 256 then
      let! operand_data := attempt (neoc_script_reader_read_bytes fixed_size) in
      match operand_data with
      | None => ret tt
      | Some operand_data =>
          let! hex := attempt (lift (hex_string operand_data fixed_size)) in
          match hex with
          | None => ret tt
          | Some hex => neoc_script_reader_append_formatted (str " " ++ hex)
          end
      end
    else ret tt
  else if 0 <? prefix_size then
    let! operand_size := attempt (read_prefix_size prefix_size) in
    match operand_size with
    | None => ret tt
    | Some operand_size =>
        if 0 <? operand_size then
          do! neoc_script_reader_append_formatted (str " " ++ print_decimal operand_size ++ str " ") in
          if neoc_malloc_ok operand_size then
            let! operand_data := attempt (neoc_script_reader_read_bytes operand_size) in
            match operand_data with
            | None => ret tt
            | Some operand_data =>
                let max_hex_bytes := (512 - 1) / 2 in
                let hex_bytes := if max_hex_bytes <? operand_size then max_hex_bytes else operand_size in
                let! hex := attempt (lift (hex_string operand_data hex_bytes)) in
                match hex with
                | None => ret tt
                | Some hex => let! _ := attempt (neoc_script_reader_append_output (Some hex)) in ret tt
                end
            end
          else ret tt
        else ret tt
    end
  else ret tt.

(** The loop over the instructions; each turn reads a byte, so [length] turns are enough. *)
Fixpoint to_opcode_string_loop (fuel : nat) : M neoc_script_reader_t unit := fun r =>
  match fuel with
  | O => (Fault, r)
  | S fuel =>
      if neoc_script_reader_has_more (Some r) then
        match neoc_script_reader_read_byte r with
        | (Ok b, r) =>
            let opcode := Z_of_byte b in
            (do! neoc_script_reader_append_output (Some (opcode_to_string opcode)) in
             do! show_operand opcode in
             do! neoc_script_reader_append_output (Some str_newline) in
             to_opcode_string_loop fuel) r
        | (Err _, r) => to_opcode_string_loop fuel r
        | (Fault, r) => (Fault, r)
        end
      else (Ok tt, r)
  end.

(** The buffer is the state. *)
Definition neoc_script_reader_to_opcode_string (script : option (list byte)) (script_length buffer_size : Z)
  : M (list byte) unit := fun buf =>
  match neoc_script_reader_init script script_length (Some buf) buffer_size with
  | Ok r =>
      let '(x, r) := to_opcode_string_loop (S (Z.to_nat script_length)) r in (x, sr_output_buffer r)
  | Err e => (Err e, buf)
  | Fault => (Fault, buf)
  end.

(** The fresh block is indeterminate; the number of decoded bytes is not looked at. *)
Definition neoc_script_reader_to_opcode_string_hex (junk : byte) (script_hex : option (list byte))
    (buffer_size : Z) : M (list byte) unit := fun buf =>
  match script_hex with
  | None => (Err NEOC_ERROR_NULL_POINTER, buf)
  | Some hex =>
      let script_length := zlen hex / 2 in
      if negb (neoc_malloc_ok script_length) then (Err NEOC_ERROR_OUT_OF_MEMORY, buf)
      else
        match neoc_hex_decode (Some hex) script_length (replicate (Z.to_nat script_length) junk) with
        | (Ok _, script_bytes) =>
            neoc_script_reader_to_opcode_string (Some script_bytes) script_length buffer_size buf
        | (Err e, _) => (Err e, buf)
        | (Fault, _) => (Fault, buf)
        end
  end.
End Operations.

(** ** Specification *)

Record instruction := mk_instruction {
  in_opcode : byte;
  in_operand : list byte
}.

(** Instructions by a table of the sizes of operands: a fixed size, or the number of bytes
    of the length in front of the operand. *)
Section Listing.
Variable sizes : Z -> Z * Z.

Definition instruction_ok (i : instruction) : Prop :=
  let '(fixed_size, prefix_size) := sizes (Z_of_byte (in_opcode i)) in
  if 0 <? fixed_size then zlen (in_operand i) = fixed_size
  else if 0 <? prefix_size then zlen (in_operand i) < 256 ^ prefix_size
  else in_operand i = [].

Definition instruction_bytes (i : instruction) : list byte :=
  let '(fixed_size, prefix_size) := sizes (Z_of_byte (in_opcode i)) in
  in_opcode i :: le_bytes (Z.to_nat prefix_size) (zlen (in_operand i)) ++ in_operand i.

Definition operand_text (i : instruction) : list byte :=
  let '(fixed_size, prefix_size) := sizes (Z_of_byte (in_opcode i)) in
  if 0 <? fixed_size then str " " ++ hex_of false (in_operand i)
  else if (0 <? prefix_size) && (0 <? zlen (in_operand i)) then
    str " " ++ print_decimal (zlen (in_operand i)) ++ str " " ++ hex_of false (take 255 (in_operand i))
  else [].

Definition instruction_line (i : instruction) : list byte :=
  opcode_to_string (Z_of_byte (in_opcode i)) ++ operand_text i ++ str_newline.

Definition script_of (prog : list instruction) : list byte := concat (map instruction_bytes prog).
Definition listing (prog : list instruction) : list byte := concat (map instruction_line prog).

End Listing.

(** The reader at [pos] of [script], with [text] in a buffer of [size] bytes. *)
Definition no_nul (s : list byte) : Prop := Forall (fun b => b <> Byte.x00) s.

Record reading (script : list byte) (pos : Z) (text : list byte) (size : Z) (r : neoc_script_reader_t) : Prop := {
  rd_script : sr_script r = script;
  rd_length : sr_script_length r = zlen script;
  rd_position : sr_position r = pos;
  rd_size : sr_output_size r = size;
  rd_output : sr_output_length r = zlen text;
  rd_text : no_nul text;
  rd_buffer : exists rest, sr_output_buffer r = text ++ Byte.x00 :: rest /\ zlen text + 1 + zlen rest = size;
  rd_inside : 0 <= pos <= zlen script;
  rd_small : zlen script < 2 ^ 62 /\ size < 2 ^ 62
}.

Section Proofs.
Context `{Allocator} `{Interop}.

Lemma append_cases script pos text size r s :
  reading script pos text size r -> no_nul s -> zlen s < 2 ^ 62 ->
  if zlen text + zlen s + 1 <=? size
  then exists r', neoc_script_reader_append_output (Some s) r = (Ok tt, r') /\
         reading script pos (text ++ s) size r'
  else neoc_script_reader_append_output (Some s) r = (Err NEOC_ERROR_BUFFER_TOO_SMALL, r).
Proof.
  intros [] Hs Hl. destruct rd_buffer0 as (rest & Eb & Hr). pose proof (zlen_nonneg text). pose proof (zlen_nonneg s).
  pose proof (zlen_nonneg rest).
  unfold neoc_script_reader_append_output. cbv zeta. rewrite rd_output0, rd_size0, wrap_small by (eval_pows; lia).
  destruct (_ <=? size) eqn:E; bdestruct; [|by cmps]. cmps. rewrite Eb, strcat_app by (done || lia).
  eexists. split; [done|]. split; cbn; try done.
  - by rewrite zlen_app.
  - by apply Forall_app.
  - exists (drop (length s) rest). rewrite <- app_assoc. split; [done|]. rewrite zlen_app.
    unfold zlen in *. rewrite length_drop. lia.
Qed.

Lemma read_byte_at script pos text size r b :
  reading script pos text size r -> script !! Z.to_nat pos = Some b ->
  exists r', neoc_script_reader_read_byte r = (Ok b, r') /\ reading script (pos + 1) text size r'.
Proof.
  intros [] Hb. pose proof (lookup_lt_Some _ _ _ Hb) as Hlt. unfold neoc_script_reader_read_byte.
  rewrite rd_length0, rd_position0, rd_script0. unfold zlen in *. cmps. unfold buf_get. cmps. rewrite Hb.
  eexists. split; [done|]. split; cbn; unfold zlen in *; try done; lia.
Qed.

Lemma read_bytes_at script pos text size r n :
  reading script pos text size r -> 0 <= n < 2 ^ 62 ->
  if pos + n <=? zlen script
  then exists bs r', buf_slice script pos n = Some bs /\ zlen bs = n /\
         neoc_script_reader_read_bytes n r = (Ok bs, r') /\ reading script (pos + n) text size r'
  else neoc_script_reader_read_bytes n r = (Err NEOC_ERROR_END_OF_STREAM, r).
Proof.
  intros [] Hn. unfold neoc_script_reader_read_bytes. rewrite rd_length0, rd_position0, rd_script0.
  rewrite wrap_small by (eval_pows; lia). destruct (_ <=? zlen script) eqn:E; bdestruct; [|by cmps]. cmps.
  destruct (buf_slice_some script pos n) as (bs & Ebs & Hbs); [lia..|]. rewrite Ebs.
  exists bs. eexists. split_and!; [done|done|done|]. split; cbn; try done; lia.
Qed.

Lemma hex_string_ok data n :
  0 <= n <= zlen data -> n <= 255 -> hex_string data n = Ok (hex_of false (take (Z.to_nat n) data)).
Proof.
  intros Hn Hn'. unfold hex_string, local_buffer.
  assert (zlen (take (Z.to_nat n) data) = n) as Hz by (unfold zlen in *; rewrite length_take; lia).
  destruct (hex_encode_spec (take (Z.to_nat n) data) 512 false false (replicate 512 Byte.x00)) as (rest & E & _).
  { by rewrite zlen_replicate. }
  { rewrite Hz. change (zlen (prefix_0x false)) with 0. lia. }
  rewrite Hz in E. assert (neoc_hex_encode (Some data) n 512 false false (replicate 512 Byte.x00)
    = neoc_hex_encode (Some (take (Z.to_nat n) data)) n 512 false false (replicate 512 Byte.x00)) as ->.
  { unfold neoc_hex_encode. cbv zeta. replace (buf_slice (take (Z.to_nat n) data) 0 n) with (buf_slice data 0 n); [done|].
    unfold buf_slice. rewrite Hz. cmps. cbn [andb]. rewrite drop_0, drop_0, take_take. by rewrite Nat.min_id. }
  rewrite E. cbn [rbind]. rewrite cstring_app; [done|]. apply hex_of_chars.
Qed.

Lemma buf_slice_cons {A} (l : list A) pos n b bs :
  0 <= pos -> 0 <= n -> l !! Z.to_nat pos = Some b -> buf_slice l (pos + 1) n = Some bs ->
  buf_slice l pos (1 + n) = Some (b :: bs).
Proof.
  intros Hp Hn Hb. unfold buf_slice. destruct (_ && _) eqn:E; [|done]. intros [= <-]. bdestruct. cmps. cbn [andb].
  rewrite (drop_S _ _ _ Hb). replace (Z.to_nat (1 + n)) with (S (Z.to_nat n)) by lia.
  replace (Z.to_nat (pos + 1)) with (S (Z.to_nat pos)) by lia. done.
Qed.

(** The length in front of an operand; when it is cut off, the rest of the script is consumed. *)
Lemma read_prefix_at n : forall script pos text size r i acc,
  reading script pos text size r -> 0 <= i -> 0 <= acc < 256 ^ i ->
  if pos + Z.of_nat n <=? zlen script
  then exists bs r', buf_slice script pos (Z.of_nat n) = Some bs /\
         read_prefix n i acc r = (Ok (acc + 256 ^ i * le_val bs), r') /\
         reading script (pos + Z.of_nat n) text size r'
  else exists r', read_prefix n i acc r = (Err NEOC_ERROR_END_OF_STREAM, r') /\
         reading script (zlen script) text size r'.
Proof.
  induction n as [|n IH]; intros script pos text size r i acc Hr Hi Ha; pose proof Hr as [].
  - change (Z.of_nat 0) with 0. rewrite Z.add_0_r. cmps. exists [], r. split_and!; [|cbn [read_prefix le_val]; by rewrite Z.mul_0_r, Z.add_0_r|done].
    unfold buf_slice. cmps. cbn [andb]. done.
  - cbn [read_prefix]. destruct (pos + Z.of_nat (S n) <=? zlen script) eqn:E; bdestruct.
    + destruct (lookup_lt_is_Some_2 script (Z.to_nat pos)) as [b Hb]; [unfold zlen in *; lia|].
      destruct (read_byte_at _ _ _ _ _ _ Hr Hb) as (r1 & E1 & R1). rewrite (bind_ok _ _ _ _ _ E1).
      replace (i * 8) with (8 * i) by lia. rewrite lor_bytes by lia. pose proof (Z_of_byte_range b).
      specialize (IH script (pos + 1) text size r1 (i + 1) (acc + 256 ^ i * Z_of_byte b) R1 ltac:(lia)).
      rewrite Z.pow_add_r in IH by lia. change (256 ^ 1) with 256 in IH. specialize (IH ltac:(nia)).
      replace (pos + 1 + Z.of_nat n) with (pos + Z.of_nat (S n)) in IH by lia. rewrite (proj2 (Z.leb_le _ _) E) in IH.
      destruct IH as (bs & r' & Es & Er & R'). exists (b :: bs), r'. replace (Z.of_nat (S n)) with (1 + Z.of_nat n) in * by lia.
      split_and!; [by apply buf_slice_cons; lia || done| |done]. rewrite Er. cbn [le_val]. do 2 f_equal. lia.
    + destruct (decide (pos = zlen script)) as [->|Hne].
      * exists r. split; [|done]. unfold bind, neoc_script_reader_read_byte. by rewrite rd_length0, rd_position0, Z.leb_refl.
      * destruct (lookup_lt_is_Some_2 script (Z.to_nat pos)) as [b Hb]; [unfold zlen in *; lia|].
        destruct (read_byte_at _ _ _ _ _ _ Hr Hb) as (r1 & E1 & R1). rewrite (bind_ok _ _ _ _ _ E1).
        replace (i * 8) with (8 * i) by lia. rewrite lor_bytes by lia. pose proof (Z_of_byte_range b).
        specialize (IH script (pos + 1) text size r1 (i + 1) (acc + 256 ^ i * Z_of_byte b) R1 ltac:(lia)).
        rewrite Z.pow_add_r in IH by lia. change (256 ^ 1) with 256 in IH. specialize (IH ltac:(nia)).
        replace (pos + 1 + Z.of_nat n) with (pos + Z.of_nat (S n)) in IH by lia. by rewrite (proj2 (Z.leb_gt _ _) E) in IH.
Qed.

(** The tables of the disassembler over the bytes. *)
Lemma operand_sizes op : 0 <= op < 256 ->
  let '(fixed_size, prefix_size) := get_operand_size_info op in
  0 <= fixed_size <= 8 /\ 0 <= prefix_size <= 4 /\ (0 < fixed_size -> prefix_size = 0).
Proof.
  intros Hop. pose proof (forall_byte (fun op => let '(f, p) := get_operand_size_info op in
    (0 <=? f) && (f <=? 8) && (0 <=? p) && (p <=? 4) && (negb (0 <? f) || (p =? 0))) ltac:(by vm_compute) op Hop) as Hx.
  cbv beta in Hx. destruct (get_operand_size_info op) as [f p].
  destruct (0 <? f) eqn:E; cbn [negb orb] in Hx; bdestruct; lia.
Qed.

Lemma opcode_names op : zlen (opcode_to_string op) <= 10 /\ no_nul (opcode_to_string op).
Proof.
  assert (Forall (fun c : Z * list byte => zlen (snd c) <= 10 /\ no_nul (snd c)) opcode_strings) as Hf.
  { apply (bool_decide_unpack _). by vm_compute. }
  unfold opcode_to_string. induction Hf as [|[o name] l Hx _ IH]; cbn [switch_name].
  - split; [by vm_compute|]. apply (bool_decide_unpack _). by vm_compute.
  - by destruct (o =? op).
Qed.

Lemma attempt_ok {S A} (m : M S A) s a s' : m s = (Ok a, s') -> attempt m s = (Ok (Some a), s').
Proof. unfold attempt. by intros ->. Qed.

Lemma attempt_err {S A} (m : M S A) s e s' : m s = (Err e, s') -> attempt m s = (Ok None, s').
Proof. unfold attempt. by intros ->. Qed.

Lemma attempt_lift_ok {S A} (x : res A) a (s : S) : x = Ok a -> attempt (lift x) s = (Ok (Some a), s).
Proof. by intros ->. Qed.

Lemma no_nul_hex bs : no_nul (hex_of false bs).
Proof. apply hex_of_chars. Qed.

Lemma no_nul_decimal v : no_nul (str " " ++ print_decimal v ++ str " ") /\
  zlen (str " " ++ print_decimal v ++ str " ") <= 22.
Proof.
  split.
  - apply Forall_app. split; [by repeat constructor|]. apply Forall_app. split; [|by repeat constructor].
    eapply Forall_impl; [apply decimal_digits_chars|]. cbn. intros b Hb ->. by destruct Hb.
  - pose proof (decimal_digits_length 20 v). rewrite !zlen_app. change (zlen (str " ")) with 1. unfold zlen, print_decimal in *. lia.
Qed.

Lemma formatted_cases script pos text size r s :
  reading script pos text size r -> no_nul s -> zlen s < 256 ->
  if zlen text + zlen s + 1 <=? size
  then exists r', neoc_script_reader_append_formatted s r = (Ok tt, r') /\
         reading script pos (text ++ s) size r'
  else neoc_script_reader_append_formatted s r = (Err NEOC_ERROR_BUFFER_TOO_SMALL, r).
Proof.
  intros Hr Hs Hl. unfold neoc_script_reader_append_formatted. cmps. apply append_cases; [done|done|eval_pows; lia].
Qed.

(** What a part of a turn has done: it has moved on to [pos'] and added [t], at most [b]
    characters and two for each byte it has read; it fails only when these do not fit. *)
Definition shown (script text : list byte) (size pos b : Z) (x : res unit) (r' : neoc_script_reader_t) : Prop :=
  exists pos' t,
    reading script pos' (text ++ t) size r' /\ pos <= pos' /\ zlen t <= b + 2 * (pos' - pos) /\
    match x with
    | Ok _ => True
    | Err e => e = NEOC_ERROR_BUFFER_TOO_SMALL /\ size < zlen text + b + 2 * (pos' - pos) + 1
    | Fault => False
    end.

Lemma shown_nothing script text size pos pos' b r' :
  reading script pos' text size r' -> pos <= pos' -> 0 <= b -> shown script text size pos b (Ok tt) r'.
Proof.
  intros Hr Hp Hb. exists pos', []. rewrite app_nil_r. split_and!; try done. change (zlen (@nil byte)) with 0. lia.
Qed.

(** Appending [s] after reading up to [pos']. *)
Lemma shown_append script text size pos pos' b r s m :
  reading script pos' text size r -> pos <= pos' -> no_nul s -> zlen s <= b + 2 * (pos' - pos) ->
  (if zlen text + zlen s + 1 <=? size
   then exists r', m r = (Ok tt, r') /\ reading script pos' (text ++ s) size r'
   else m r = (Err NEOC_ERROR_BUFFER_TOO_SMALL, r)) ->
  shown script text size pos b (fst (m r)) (snd (m r)).
Proof.
  intros Hr Hp Hs Hl Hm. destruct (_ <=? size) eqn:E; bdestruct.
  - destruct Hm as (r' & -> & Hr'). exists pos', s. done.
  - rewrite Hm. exists pos', []. rewrite app_nil_r. change (zlen (@nil byte)) with 0. pose proof (zlen_nonneg s).
    split_and!; try done; cbn; split_and?; try done; lia.
Qed.

Lemma show_fixed_safe script pos text size r n :
  reading script pos text size r -> 0 < n <= 8 ->
  let m := let! operand_data := attempt (neoc_script_reader_read_bytes n) in
           match operand_data with
           | None => ret tt
           | Some operand_data =>
               let! hex := attempt (lift (hex_string operand_data n)) in
               match hex with
               | None => ret tt
               | Some hex => neoc_script_reader_append_formatted (str " " ++ hex)
               end
           end in
  shown script text size pos 22 (fst (m r)) (snd (m r)).
Proof.
  intros Hr Hn m. unfold m.
  pose proof (read_bytes_at script pos text size r n Hr ltac:(eval_pows; lia)) as Hx.
  destruct (_ <=? zlen script).
  2: { rewrite !(bind_ok _ _ _ _ _ (attempt_err _ _ _ _ Hx)). apply (shown_nothing _ _ _ _ pos); done || lia. }
  destruct Hx as (bs & r' & Es & Hbs & Er & Hr'). rewrite !(bind_ok _ _ _ _ _ (attempt_ok _ _ _ _ Er)).
  rewrite !(bind_ok _ _ _ _ _ (attempt_lift_ok _ _ _ (hex_string_ok bs n ltac:(lia) ltac:(lia)))).
  set (s := str " " ++ hex_of false (take (Z.to_nat n) bs)).
  assert (zlen s = 1 + 2 * n) as Hs.
  { unfold s. rewrite zlen_app, length_hex_of. unfold zlen at 2. rewrite length_take. unfold zlen in Hbs.
    change (zlen (str " ")) with 1. lia. }
  assert (no_nul s) as Hns by (apply Forall_app; split; [by repeat constructor|apply no_nul_hex]).
  apply (shown_append _ _ _ _ (pos + n) _ _ s); [done|lia|done|lia|]. apply formatted_cases; [done|done|lia].
Qed.

(** The hexadecimal digits of an operand that was read, whose failure is ignored. *)
Lemma show_data_safe script pos text size r n :
  reading script pos text size r -> 0 < n < 2 ^ 62 ->
  let m := let! operand_data := attempt (neoc_script_reader_read_bytes n) in
           match operand_data with
           | None => ret tt
           | Some operand_data =>
               let max_hex_bytes := (512 - 1) / 2 in
               let hex_bytes := if max_hex_bytes <? n then max_hex_bytes else n in
               let! hex := attempt (lift (hex_string operand_data hex_bytes)) in
               match hex with
               | None => ret tt
               | Some hex => let! _ := attempt (neoc_script_reader_append_output (Some hex)) in ret tt
               end
           end in
  shown script text size pos 0 (fst (m r)) (snd (m r)).
Proof.
  intros Hr Hn m. unfold m.
  pose proof (read_bytes_at script pos text size r n Hr ltac:(lia)) as Hx.
  destruct (_ <=? zlen script).
  2: { rewrite !(bind_ok _ _ _ _ _ (attempt_err _ _ _ _ Hx)). apply (shown_nothing _ _ _ _ pos); done || lia. }
  destruct Hx as (bs & r' & Es & Hbs & Er & Hr'). rewrite !(bind_ok _ _ _ _ _ (attempt_ok _ _ _ _ Er)). cbv zeta. change ((512 - 1) / 2) with 255.
  set (k := if 255 <? n then 255 else n). assert (0 < k <= n /\ k <= 255) as Hk.
  { unfold k. destruct (255 <? n) eqn:E; bdestruct; lia. }
  rewrite !(bind_ok _ _ _ _ _ (attempt_lift_ok _ _ _ (hex_string_ok bs k ltac:(lia) ltac:(lia)))). set (hex := hex_of false (take (Z.to_nat k) bs)).
  assert (zlen hex = 2 * k) as Hz.
  { unfold hex. rewrite length_hex_of. unfold zlen in *. rewrite length_take. lia. }
  pose proof (append_cases script (pos + n) text size r' hex Hr' (no_nul_hex _) ltac:(eval_pows; lia)) as Ha.
  destruct (_ <=? size).
  - destruct Ha as (r2 & Ea & Hr2). rewrite !(bind_ok _ _ _ _ _ (attempt_ok _ _ _ _ Ea)). exists (pos + n), hex. split_and!; try done; lia.
  - rewrite !(bind_ok _ _ _ _ _ (attempt_err _ _ _ _ Ha)). apply (shown_nothing _ _ _ _ (pos + n)); done || lia.
Qed.

(** One part of a turn after another. *)
Lemma shown_bind script text size pos b1 b2 (m : M neoc_script_reader_t unit) k r :
  0 <= b2 ->
  shown script text size pos b1 (fst (m r)) (snd (m r)) ->
  (forall pos' t r', reading script pos' (text ++ t) size r' ->
     shown script (text ++ t) size pos' b2 (fst (k r')) (snd (k r'))) ->
  shown script text size pos (b1 + b2) (fst ((do! m in k) r)) (snd ((do! m in k) r)).
Proof.
  intros Hb (p1 & t1 & R1 & P1 & L1 & X1) Hk. unfold bind. destruct (m r) as [[[]|e|] r1]; cbn [fst snd] in *; [| |done].
  - destruct (Hk p1 t1 r1 R1) as (p2 & t2 & R2 & P2 & L2 & X2). exists p2, (t1 ++ t2). rewrite app_assoc.
    rewrite !zlen_app in *. split_and!; [done|lia|lia|]. destruct (fst (k r1)); [done| |done].
    destruct X2 as [-> X2]. split; [done|lia].
  - exists p1, t1. destruct X1 as [-> X1]. split_and!; [done|lia|lia|done|lia].
Qed.

Lemma shown_weaken script text size pos b b' x r :
  b <= b' -> shown script text size pos b x r -> shown script text size pos b' x r.
Proof.
  intros Hb (p1 & t & R & P & L & X). exists p1, t. split_and!; [done|done|lia|]. destruct x; [done| |done].
  destruct X as [-> X]. split; [done|lia].
Qed.

(** The bytes read before do not count against the text. *)
Lemma shown_from script text size pos pos1 b x r :
  pos <= pos1 -> shown script text size pos1 b x r -> shown script text size pos b x r.
Proof.
  intros Hp (p1 & t & R & P & L & X). exists p1, t. split_and!; [done|lia|lia|]. destruct x; [done| |done].
  destruct X as [-> X]. split; [done|lia].
Qed.

Lemma show_operand_safe script pos text size r op :
  reading script pos text size r -> 0 <= op < 256 ->
  shown script text size pos 22 (fst (show_operand op r)) (snd (show_operand op r)).
Proof.
  intros Hr Hop. pose proof (operand_sizes op Hop) as Hsz. unfold show_operand.
  destruct (get_operand_size_info op) as [f p]. destruct Hsz as (Hf & Hp & _).
  assert (forall pos', pos <= pos' -> forall r', reading script pos' text size r' ->
    shown script text size pos 22 (Ok tt) r') as Hnone by (intros; by eapply shown_nothing).
  destruct (0 <? f) eqn:Ef; bdestruct.
  { cmps. apply show_fixed_safe; [done|lia]. }
  destruct (0 <? p) eqn:Ep; bdestruct; [|by apply (Hnone pos)].
  pose proof (read_prefix_at (Z.to_nat p) script pos text size r 0 0 Hr ltac:(lia) ltac:(cbn; lia)) as Hx.
  rewrite Z2Nat.id in Hx by lia. destruct (_ <=? zlen script) eqn:E; bdestruct.
  2: { destruct Hx as (r' & Er & Hr'). rewrite !(bind_ok _ _ _ _ _ (attempt_err _ _ _ _ Er)). apply (Hnone (zlen script)); [|done]. apply Hr. }
  destruct Hx as (bs & r' & Es & Er & Hr'). rewrite Z.add_0_l, Z.pow_0_r, Z.mul_1_l in Er.
  rewrite !(bind_ok _ _ _ _ _ (attempt_ok _ _ _ _ Er)).
  pose proof (le_val_range bs) as Hv. rewrite (buf_slice_length _ _ _ _ Es) in Hv.
  assert (256 ^ p <= 256 ^ 4) as Hp4 by (apply Z.pow_le_mono_r; lia). change (256 ^ 4) with 4294967296 in Hp4.
  set (n := le_val bs) in *. destruct (0 <? n) eqn:En; bdestruct; [|apply (Hnone (pos + p)); [lia|done]].
  destruct (no_nul_decimal n) as [Hd Hdl]. apply (shown_from _ _ _ _ (pos + p)); [lia|].
  apply (shown_bind _ _ _ _ 22 0); [done| |].
  - eapply shown_append; [done|lia|exact Hd|lia|]. apply formatted_cases; [done|done|lia].
  - intros pos2 t r2 Hr2. destruct (neoc_malloc_ok n); [|by apply (shown_nothing _ _ _ _ pos2)]. apply show_data_safe; [done|]. eval_pows. lia.
Qed.

(** A turn behind the operation code. *)
Definition turn (opcode : Z) : M neoc_script_reader_t unit :=
  do! neoc_script_reader_append_output (Some (opcode_to_string opcode)) in
  do! show_operand opcode in
  neoc_script_reader_append_output (Some str_newline).

Lemma loop_turn fuel script pos text size r b :
  reading script pos text size r -> script !! Z.to_nat pos = Some b ->
  exists r1, reading script (pos + 1) text size r1 /\
    to_opcode_string_loop (S fuel) r = (do! turn (Z_of_byte b) in to_opcode_string_loop fuel) r1.
Proof.
  intros Hr Hb. destruct (read_byte_at _ _ _ _ _ _ Hr Hb) as (r1 & E1 & R1). exists r1. split; [done|].
  pose proof Hr as []. pose proof (lookup_lt_Some _ _ _ Hb).
  cbn [to_opcode_string_loop]. unfold neoc_script_reader_has_more. rewrite rd_position0, rd_length0.
  unfold zlen in *. cmps. rewrite E1. unfold turn, bind.
  destruct (neoc_script_reader_append_output _ r1) as [[[]| |] r2]; [|done|done].
  by destruct (show_operand _ r2) as [[[]| |] r3].
Qed.

Lemma loop_end fuel script text size r :
  reading script (zlen script) text size r -> to_opcode_string_loop (S fuel) r = (Ok tt, r).
Proof.
  intros []. cbn [to_opcode_string_loop]. unfold neoc_script_reader_has_more. rewrite rd_position0, rd_length0.
  by cmps.
Qed.

Lemma turn_safe script pos text size r op :
  reading script pos text size r -> 0 <= op < 256 ->
  shown script text size pos 33 (fst (turn op r)) (snd (turn op r)).
Proof.
  intros Hr Hop. destruct (opcode_names op) as [Hl Hn]. unfold turn.
  apply (shown_bind _ _ _ _ 10 23); [done| |].
  { eapply shown_append; [done|lia|exact Hn|lia|]. apply append_cases; [done|done|eval_pows; lia]. }
  intros pos' t r' Hr'. apply (shown_bind _ _ _ _ 22 1); [done|by apply show_operand_safe|].
  intros pos2 t2 r2 Hr2. assert (no_nul str_newline) as Hnl by (by repeat constructor).
  eapply shown_append; [done|lia|exact Hnl|change (zlen str_newline) with 1; lia|].
  apply append_cases; [done|done|by vm_compute].
Qed.

(** The loop ends, and the text is at most 33 characters per byte of the script. *)
Lemma loop_safe script size : forall fuel pos text r,
  reading script pos text size r -> (Z.to_nat (zlen script - pos) < fuel)%nat ->
  exists pos' t x r', to_opcode_string_loop fuel r = (x, r') /\ reading script pos' (text ++ t) size r' /\
    match x with
    | Ok _ => pos' = zlen script /\ zlen t <= 33 * (zlen script - pos)
    | Err e => e = NEOC_ERROR_BUFFER_TOO_SMALL /\ size < zlen text + 33 * (zlen script - pos) + 1
    | Fault => False
    end.
Proof.
  induction fuel as [|fuel IH]; intros pos text r Hr Hf; [lia|]. pose proof Hr as [].
  destruct (decide (pos = zlen script)) as [->|Hne].
  { exists (zlen script), [], (Ok tt), r. rewrite app_nil_r, (loop_end _ _ _ _ _ Hr). split_and!; try done.
    change (zlen (@nil byte)) with 0. lia. }
  destruct (lookup_lt_is_Some_2 script (Z.to_nat pos)) as [b Hb]; [unfold zlen in *; lia|].
  destruct (loop_turn fuel _ _ _ _ _ _ Hr Hb) as (r1 & R1 & ->).
  destruct (turn_safe script (pos + 1) text size r1 (Z_of_byte b) R1 (Z_of_byte_range b)) as (p2 & t2 & R2 & P2 & L2 & X2).
  pose proof R2 as [_ _ _ _ _ _ _ Hin _]. unfold bind.
  destruct (turn (Z_of_byte b) r1) as [[[]|e|] r2]; cbn [fst snd] in *; [| |done].
  - destruct (IH p2 (text ++ t2) r2 R2 ltac:(lia)) as (p3 & t3 & x & r3 & -> & R3 & X3).
    exists p3, (t2 ++ t3), x, r3. rewrite app_assoc. rewrite zlen_app in *. split_and!; [done|done|].
    destruct x as [|e|]; [|destruct X3 as [-> X3]; split; [done|lia]|done]. destruct X3. split; [done|lia].
  - exists p2, t2, (Err e), r2. destruct X2 as [-> X2]. split_and!; [done|done|done|lia].
Qed.

(** ** What is listed *)

Lemma append_text_ok script pos text size r s :
  reading script pos text size r -> no_nul s -> zlen text + zlen s + 1 <= size ->
  exists r', neoc_script_reader_append_output (Some s) r = (Ok tt, r') /\
    reading script pos (text ++ s) size r'.
Proof.
  intros Hr Hs Hl. pose proof Hr as [_ _ _ _ _ _ _ _ [_ Hsz]]. pose proof (zlen_nonneg text).
  pose proof (append_cases script pos text size r s Hr Hs ltac:(lia)) as Hx. by rewrite (proj2 (Z.leb_le _ _) Hl) in Hx.
Qed.

Lemma read_bytes_ok script pre bs post text size r :
  script = pre ++ bs ++ post -> reading script (zlen pre) text size r ->
  exists r', neoc_script_reader_read_bytes (zlen bs) r = (Ok bs, r') /\
    reading script (zlen pre + zlen bs) text size r'.
Proof.
  intros -> Hr. pose proof Hr as [_ _ _ _ _ _ _ _ [Hsc _]]. rewrite !zlen_app in Hsc.
  pose proof (zlen_nonneg pre). pose proof (zlen_nonneg post). pose proof (zlen_nonneg bs).
  pose proof (read_bytes_at _ _ _ _ _ (zlen bs) Hr ltac:(lia)) as Hx. rewrite !zlen_app in Hx.
  rewrite (proj2 (Z.leb_le _ _)) in Hx by lia. destruct Hx as (bs' & r' & Es & _ & Er & Hr').
  rewrite buf_slice_app in Es. injection Es as <-. by exists r'.
Qed.

Lemma read_prefix_ok script pre n v post text size r :
  0 < n -> 0 <= v < 256 ^ n -> script = pre ++ le_bytes (Z.to_nat n) v ++ post ->
  reading script (zlen pre) text size r ->
  exists r', read_prefix_size n r = (Ok v, r') /\ reading script (zlen pre + n) text size r'.
Proof.
  intros Hn Hv -> Hr.
  assert (zlen (le_bytes (Z.to_nat n) v) = n) as Hz by (unfold zlen; rewrite length_le_bytes; lia).
  pose proof (read_prefix_at (Z.to_nat n) _ _ _ _ _ 0 0 Hr ltac:(lia) ltac:(cbn; lia)) as Hx.
  rewrite Z2Nat.id in Hx by lia. rewrite !zlen_app, Hz in Hx. pose proof (zlen_nonneg post).
  rewrite (proj2 (Z.leb_le _ _)) in Hx by lia. destruct Hx as (bs & r' & Es & Er & Hr').
  pose proof (buf_slice_app pre (le_bytes (Z.to_nat n) v) post) as Es'. rewrite Hz, Es in Es'. injection Es' as ->.
  rewrite le_val_le_bytes_small, Z.add_0_l, Z.pow_0_r, Z.mul_1_l in Er by (rewrite Z2Nat.id; lia). by exists r'.
Qed.

Lemma show_operand_ok i pre post text size r :
  let script := pre ++ instruction_bytes get_operand_size_info i ++ post in
  reading script (zlen pre + 1) text size r -> instruction_ok get_operand_size_info i ->
  heap_serves (zlen (in_operand i)) -> zlen text + zlen (operand_text get_operand_size_info i) + 1 <= size ->
  exists r', show_operand (Z_of_byte (in_opcode i)) r = (Ok tt, r') /\
    reading script (zlen (pre ++ instruction_bytes get_operand_size_info i)) (text ++ operand_text get_operand_size_info i) size r'.
Proof.
  intros script Hr Hok Hh Hfit. destruct i as [op operand]. cbn [in_opcode in_operand] in *.
  pose proof (operand_sizes _ (Z_of_byte_range op)) as Hsz.
  unfold show_operand, instruction_ok, operand_text, instruction_bytes in *. cbn [in_opcode in_operand] in *.
  destruct (get_operand_size_info (Z_of_byte op)) as [f p]. destruct Hsz as (Hf & Hp & Hfp).
  pose proof (zlen_nonneg operand). pose proof (zlen_nonneg pre).
  destruct (0 <? f) eqn:Ef; bdestruct.
  - assert (p = 0) by auto. subst p. change (Z.to_nat 0) with 0%nat. cbn [le_bytes app]. cmps.
    assert (reading script (zlen (pre ++ [op])) text size r) as Hr0 by (by rewrite zlen_app).
    destruct (read_bytes_ok script (pre ++ [op]) operand post text size r) as (r1 & E1 & R1).
    { unfold script. change (Z.to_nat 0) with 0%nat. by rewrite <- app_assoc. }
    { done. }
    rewrite Hok in *. rewrite (bind_ok _ _ _ _ _ (attempt_ok _ _ _ _ E1)).
    rewrite (bind_ok _ _ _ _ _ (attempt_lift_ok _ _ _ (hex_string_ok operand f ltac:(lia) ltac:(lia)))).
    rewrite take_ge by (unfold zlen in *; lia). set (s := str " " ++ hex_of false operand) in *.
    assert (no_nul s) as Hs by (apply Forall_app; split; [by repeat constructor|apply no_nul_hex]).
    assert (zlen s <= 17) as Hs17 by (unfold s; rewrite zlen_app, length_hex_of; change (zlen (str " ")) with 1; lia).
    unfold neoc_script_reader_append_formatted. cmps.
    destruct (append_text_ok _ _ _ _ _ s R1 Hs) as (r2 & -> & R2); [lia|]. exists r2. split; [done|].
    replace (zlen (pre ++ op :: operand)) with (zlen (pre ++ [op]) + f); [done|].
    rewrite !zlen_app, !zlen_cons. change (zlen (@nil byte)) with 0. lia.
  - destruct (0 <? p) eqn:Ep; bdestruct; cbn [andb] in *.
    2: { subst operand. assert (p = 0) by lia. subst p. exists r. split; [done|].
         change (le_bytes (Z.to_nat 0) (zlen (@nil byte)) ++ []) with (@nil byte). rewrite app_nil_r, zlen_app. done. }
    assert (reading script (zlen (pre ++ [op])) text size r) as Hr0 by (by rewrite zlen_app).
    set (lb := le_bytes (Z.to_nat p) (zlen operand)) in *.
    assert (zlen lb = p) as Hlb by (unfold lb, zlen; rewrite length_le_bytes; lia).
    destruct (read_prefix_ok script (pre ++ [op]) p (zlen operand) (operand ++ post) text size r) as (r1 & E1 & R1);
      [lia|lia|unfold script; rewrite <- !app_assoc; cbn [app]; by rewrite <- app_assoc|done|].
    rewrite (bind_ok _ _ _ _ _ (attempt_ok _ _ _ _ E1)).
    assert (zlen (pre ++ [op]) + p = zlen (pre ++ op :: lb)) as Hp1
      by (rewrite !zlen_app, !zlen_cons; change (zlen (@nil byte)) with 0; lia).
    destruct (0 <? zlen operand) eqn:En; bdestruct.
    2: { rewrite (zlen_zero operand) in * by lia. exists r1. rewrite !app_nil_r. split; [done|]. by rewrite <- Hp1. }
    destruct (no_nul_decimal (zlen operand)) as [Hd Hdl].
    set (d := str " " ++ print_decimal (zlen operand) ++ str " ") in *.
    set (hex := hex_of false (take 255 operand)) in *.
    replace (str " " ++ print_decimal (zlen operand) ++ str " " ++ hex) with (d ++ hex) in *
      by (unfold d; by rewrite <- !app_assoc).
    rewrite zlen_app in Hfit. pose proof (zlen_nonneg hex).
    destruct (append_text_ok _ _ _ _ _ d R1 Hd) as (r2 & E2 & R2); [lia|].
    unfold neoc_script_reader_append_formatted at 1. cmps. rewrite (bind_ok _ _ _ _ _ E2).
    unfold neoc_malloc_ok. cmps. rewrite Hh by lia. rewrite Hp1 in R2.
    destruct (read_bytes_ok script (pre ++ op :: lb) operand post (text ++ d) size r2) as (r3 & E3 & R3).
    { unfold script. rewrite <- !app_assoc. cbn [app]. by rewrite <- !app_assoc. }
    { done. }
    rewrite (bind_ok _ _ _ _ _ (attempt_ok _ _ _ _ E3)). cbv zeta. change ((512 - 1) / 2) with 255.
    set (k := if 255 <? zlen operand then 255 else zlen operand).
    assert (0 < k <= zlen operand /\ k <= 255 /\ take (Z.to_nat k) operand = take 255 operand) as (Hk & Hk' & Ek).
    { unfold k. destruct (255 <? zlen operand) eqn:E; bdestruct; split_and!; try done; try lia.
      rewrite !take_ge; unfold zlen in *; done || lia. }
    rewrite (bind_ok _ _ _ _ _ (attempt_lift_ok _ _ _ (hex_string_ok operand k ltac:(lia) ltac:(lia)))).
    rewrite Ek. fold hex. destruct (append_text_ok _ _ _ _ _ hex R3 (no_nul_hex _)) as (r4 & E4 & R4); [rewrite zlen_app; lia|].
    rewrite (bind_ok _ _ _ _ _ (attempt_ok _ _ _ _ E4)). exists r4. split; [done|].
    rewrite <- app_assoc in R4. replace (zlen (pre ++ op :: lb ++ operand)) with (zlen (pre ++ op :: lb) + zlen operand); [done|].
    rewrite !zlen_app, !zlen_cons, zlen_app. lia.
Qed.

Lemma loop_ok prog : forall fuel pre text size r,
  let script := pre ++ script_of get_operand_size_info prog in
  reading script (zlen pre) text size r -> Forall (instruction_ok get_operand_size_info) prog ->
  Forall (fun i => heap_serves (zlen (in_operand i))) prog ->
  zlen text + zlen (listing get_operand_size_info prog) + 1 <= size -> (length prog < fuel)%nat ->
  exists r', to_opcode_string_loop fuel r = (Ok tt, r') /\
    reading script (zlen script) (text ++ listing get_operand_size_info prog) size r'.
Proof.
  induction prog as [|i prog IH]; intros fuel pre text size r script Hr Hok Hh Hfit Hf;
    (destruct fuel as [|fuel]; [cbn in Hf; lia|]).
  - unfold script in *. cbn [script_of map concat] in *. rewrite !app_nil_r in *. exists r.
    split; [by eapply loop_end|done].
  - apply Forall_cons_1 in Hok as [Hi Hok]. apply Forall_cons_1 in Hh as [Hhi Hh].
    change (script_of get_operand_size_info (i :: prog)) with (instruction_bytes get_operand_size_info i ++ script_of get_operand_size_info prog) in *.
    change (listing get_operand_size_info (i :: prog)) with (instruction_line get_operand_size_info i ++ listing get_operand_size_info prog) in *.
    assert (script !! Z.to_nat (zlen pre) = Some (in_opcode i)) as Hb.
    { unfold script, zlen. rewrite Nat2Z.id. unfold instruction_bytes. destruct (get_operand_size_info _).
      by apply list_lookup_middle. }
    destruct (loop_turn fuel _ _ _ _ _ _ Hr Hb) as (r1 & R1 & ->).
    unfold instruction_line in *. destruct (opcode_names (Z_of_byte (in_opcode i))) as [Hnl Hn].
    set (name := opcode_to_string _) in *. rewrite !zlen_app in Hfit. change (zlen str_newline) with 1 in Hfit.
    pose proof (zlen_nonneg (operand_text get_operand_size_info i)). pose proof (zlen_nonneg (listing get_operand_size_info prog)). pose proof (zlen_nonneg name).
    unfold turn. fold name. unfold bind.
    destruct (append_text_ok _ _ _ _ _ name R1 Hn) as (r2 & -> & R2); [lia|].
    destruct (show_operand_ok i pre (script_of get_operand_size_info prog) (text ++ name) size r2 R2 Hi Hhi) as (r3 & -> & R3);
      [rewrite zlen_app; lia|].
    assert (no_nul str_newline) as Hnn by (by repeat constructor).
    destruct (append_text_ok _ _ _ _ _ str_newline R3 Hnn) as (r4 & -> & R4);
      [rewrite !zlen_app; change (zlen str_newline) with 1; lia|].
    unfold script in *. rewrite app_assoc in *.
    destruct (IH fuel (pre ++ instruction_bytes get_operand_size_info i) _ size r4 R4) as (r' & E' & R'); try done.
    { rewrite !zlen_app. change (zlen str_newline) with 1. lia. }
    { cbn in Hf. lia. }
    exists r'. split; [exact E'|]. by rewrite <- !app_assoc in *.
Qed.
End Proofs.

(** ** The two tables *)

(** The sizes by the table of opcode.c. *)
Definition vm_sizes (opcode : Z) : Z * Z :=
  let size := neoc_opcode_get_operand_size opcode in (Z.max 0 size, Z.max 0 (- size)).

(** The operations whose operands the disassembler takes to be shorter or longer. *)
Definition misread : list Z :=
  [ NEOC_OP_PUSHINT128; NEOC_OP_PUSHINT256; NEOC_OP_JMP_L; NEOC_OP_JMPIF_L; NEOC_OP_JMPIFNOT_L;
    NEOC_OP_JMPEQ_L; NEOC_OP_JMPNE_L; NEOC_OP_JMPGT_L; NEOC_OP_JMPGE_L; NEOC_OP_JMPLT_L; NEOC_OP_JMPLE_L;
    NEOC_OP_CALL_L; NEOC_OP_CALLT; NEOC_OP_TRY; NEOC_OP_TRY_L; NEOC_OP_ENDTRY_L; NEOC_OP_ENDFINALLY;
    NEOC_OP_INITSSLOT; NEOC_OP_INITSLOT; NEOC_OP_LDSFLD; NEOC_OP_STSFLD; NEOC_OP_LDLOC; NEOC_OP_STLOC;
    NEOC_OP_LDARG; NEOC_OP_STARG; NEOC_OP_NEWARRAY_T; NEOC_OP_ISTYPE; NEOC_OP_CONVERT ].

Lemma sizes_agree op : 0 <= op < 256 -> (get_operand_size_info op = vm_sizes op <-> op ∉ misread).
Proof.
  intros Hop. pose proof (forall_byte (fun op =>
    eqb (bool_decide (get_operand_size_info op = vm_sizes op)) (bool_decide (op ∉ misread))) ltac:(by vm_compute) op Hop) as Hx.
  apply eqb_prop in Hx. split; intros Hy; eapply bool_decide_eq_true_1; [rewrite <- Hx|rewrite Hx]; by apply bool_decide_eq_true_2.
Qed.

Lemma names_agree op : 0 <= op < 256 ->
  opcode_to_string op =
  if op <=? NEOC_OP_SYSCALL then neoc_opcode_get_name op else str "UNKNOWN".
Proof.
  intros Hop. pose proof (forall_byte (fun op => bool_decide (opcode_to_string op =
    if op <=? NEOC_OP_SYSCALL then neoc_opcode_get_name op else str "UNKNOWN")) ltac:(by vm_compute) op Hop) as Hx.
  by apply bool_decide_eq_true in Hx.
Qed.

(** The lines of instructions do not depend on the table when the tables agree. *)
Lemma listing_ext prog :
  Forall (fun i => Z_of_byte (in_opcode i) ∉ misread) prog ->
  script_of vm_sizes prog = script_of get_operand_size_info prog /\
  listing vm_sizes prog = listing get_operand_size_info prog /\
  (Forall (instruction_ok vm_sizes) prog <-> Forall (instruction_ok get_operand_size_info) prog).
Proof.
  induction 1 as [|i prog Hi _ (IH1 & IH2 & IH3)]; [done|].
  apply sizes_agree in Hi; [|apply Z_of_byte_range].
  unfold script_of, listing in *. cbn [map concat]. rewrite IH1, IH2, !Forall_cons, IH3.
  unfold instruction_bytes, instruction_line, operand_text, instruction_ok. by rewrite Hi.
Qed.

Lemma init_reading script size buf :
  zlen buf = size -> 0 < size < 2 ^ 62 -> zlen script < 2 ^ 62 ->
  exists r, neoc_script_reader_init (Some script) (zlen script) (Some buf) size = Ok r /\
    reading script 0 [] size r.
Proof.
  intros Hb Hs Hl. unfold neoc_script_reader_init. cmps.
  destruct buf as [|b buf]; [change (zlen (@nil byte)) with 0 in Hb; lia|].
  change (store 0 [Byte.x00] (b :: buf)) with (store (zlen (@nil byte)) [Byte.x00] ([] ++ b :: buf)).
  rewrite store_next by (rewrite !zlen_cons; pose proof (zlen_nonneg buf); change (zlen (@nil byte)) with 0; lia).
  eexists. split; [done|]. pose proof (zlen_nonneg script). split; cbn; try done; try lia.
  - constructor.
  - exists buf. rewrite zlen_cons in Hb. split; [by rewrite drop_0|change (zlen (@nil byte)) with 0; lia].
Qed.

Lemma disassembly_shows `{Allocator} (prog : list instruction) (size : Z) (buf : list byte) :
  Forall (fun i => Z_of_byte (in_opcode i) ∉ misread) prog -> Forall (instruction_ok vm_sizes) prog ->
  Forall (fun i => heap_serves (zlen (in_operand i))) prog ->
  zlen (script_of vm_sizes prog) < 2 ^ 62 -> zlen buf = size -> zlen (listing vm_sizes prog) < size < 2 ^ 62 ->
  exists rest,
    neoc_script_reader_to_opcode_string (Some (script_of vm_sizes prog)) (zlen (script_of vm_sizes prog)) size buf
    = (Ok tt, listing vm_sizes prog ++ Byte.x00 :: rest).
Proof.
  intros Hm Hok Hh Hl Hb Hs. destruct (listing_ext prog Hm) as (E1 & E2 & E3). apply E3 in Hok. rewrite E1, E2 in *.
  pose proof (zlen_nonneg (listing get_operand_size_info prog)).
  destruct (init_reading (script_of get_operand_size_info prog) size buf Hb) as (r & Ei & Hr); [lia|done|].
  assert (length prog <= length (script_of get_operand_size_info prog))%nat as Hlen.
  { clear. induction prog as [|i prog IH]; [done|]. unfold script_of in *. cbn [map concat]. rewrite length_app.
    unfold instruction_bytes at 1. destruct (get_operand_size_info _). cbn [length]. lia. }
  destruct (loop_ok prog (S (length (script_of get_operand_size_info prog))) [] [] size r Hr Hok Hh) as (r' & E' & R').
  { change (zlen (@nil byte)) with 0. lia. }
  { lia. }
  unfold neoc_script_reader_to_opcode_string. rewrite Ei.
  replace (Z.to_nat (zlen (script_of get_operand_size_info prog))) with (length (script_of get_operand_size_info prog))
    by (unfold zlen; lia).
  rewrite E'. destruct R' as [_ _ _ _ _ _ (rest & -> & _) _ _]. by exists rest.
Qed.

(** ** Theorems *)

(** Disassembly: a script of instructions, encoded by the operand sizes of opcode.c, is
    listed one line per instruction, with the name, the size and the bytes of each operand
    (at most 255 of them), as long as no operation is one of the 28 of [misread] and the
    buffer holds the listing. *)
Theorem disassembly_lists `{Allocator} (prog : list instruction) (size : Z) (buf : list byte) :
  Forall (fun i => Z_of_byte (in_opcode i) ∉ misread) prog -> Forall (instruction_ok vm_sizes) prog ->
  Forall (fun i => heap_serves (zlen (in_operand i))) prog ->
  zlen (script_of vm_sizes prog) < 2 ^ 62 -> zlen buf = size -> zlen (listing vm_sizes prog) < size < 2 ^ 62 ->
  exists rest,
    neoc_script_reader_to_opcode_string (Some (script_of vm_sizes prog)) (zlen (script_of vm_sizes prog)) size buf
    = (Ok tt, listing vm_sizes prog ++ Byte.x00 :: rest).
Proof. intros. by apply disassembly_shows. Qed.

(** C32. Totality of the disassembler: whatever the bytes of the script, it comes to an end
    inside script and buffer, with a terminated text; it succeeds when the buffer has 33
    characters per byte of the script and one more, and the only error there is otherwise is
    the one for a small buffer. *)
Theorem disassembly_total `{Allocator} (script buf : list byte) :
  zlen script < 2 ^ 62 -> 0 < zlen buf < 2 ^ 62 ->
  exists x text rest,
    neoc_script_reader_to_opcode_string (Some script) (zlen script) (zlen buf) buf
    = (x, text ++ Byte.x00 :: rest) /\ zlen (text ++ Byte.x00 :: rest) = zlen buf /\
    match x with
    | Ok _ => zlen text <= 33 * zlen script
    | Err e => e = NEOC_ERROR_BUFFER_TOO_SMALL /\ zlen buf <= 33 * zlen script
    | Fault => False
    end.
Proof.
  intros Hl Hb. destruct (init_reading script (zlen buf) buf eq_refl Hb Hl) as (r & Ei & Hr).
  destruct (loop_safe script (zlen buf) (S (Z.to_nat (zlen script))) 0 [] r Hr ltac:(lia)) as (p & t & x & r' & E' & R' & X).
  unfold neoc_script_reader_to_opcode_string. rewrite Ei, E'. destruct R' as [_ _ _ _ _ _ (rest & Eb & Hz) _ _].
  exists x, t, rest. rewrite Eb. cbn [app] in *. split_and!; [done|rewrite zlen_app, zlen_cons; lia|].
  change (zlen (@nil byte)) with 0 in X. destruct x; [lia| |done]. destruct X. split; [done|lia].
Qed.

(** The table of operand sizes of the disassembler agrees with that of opcode.c exactly
    on the operations outside [misread], so that behind one of these 28 it loses its place;
    the names agree up to SYSCALL, and every later operation is listed as unknown. *)
Theorem disassembler_tables (opcode : Z) :
  0 <= opcode < 256 ->
  (get_operand_size_info opcode = vm_sizes opcode <-> opcode ∉ misread) /\
  opcode_to_string opcode =
    (if opcode <=? NEOC_OP_SYSCALL then neoc_opcode_get_name opcode else str "UNKNOWN").
Proof. intros Hop. split; [by apply sizes_agree|by apply names_agree]. Qed.

(** Disassembly of hexadecimal text: with a prefix the script has an indeterminate byte too
    many, as the prefix is counted among the digits. *)
Theorem disassemble_hex `{Allocator} (junk : byte) (script buf : list byte) (size : Z) (prefix : bool) :
  script <> [] -> heap_serves (zlen script + 1) -> zlen script < 2 ^ 62 ->
  let shown := script ++ (if prefix then [junk] else []) in
  neoc_script_reader_to_opcode_string_hex junk (Some (prefix_0x prefix ++ hex_of false script)) size buf
  = neoc_script_reader_to_opcode_string (Some shown) (zlen shown) size buf.
Proof.
  intros Hne Hh Hl shown. pose proof (zlen_nonneg script).
  assert (0 < zlen script) as Hpos by (destruct script; [done|]; rewrite zlen_cons; pose proof (zlen_nonneg script); lia).
  unfold neoc_script_reader_to_opcode_string_hex. cbv zeta.
  assert (zlen (prefix_0x prefix ++ hex_of false script) / 2 = zlen shown) as Hlen.
  { unfold shown. rewrite !zlen_app, length_hex_of, zlen_prefix. destruct prefix.
    - change (zlen [junk]) with 1. replace (2 + 2 * zlen script) with ((zlen script + 1) * 2) by lia. by rewrite Z.div_mul.
    - change (zlen (@nil byte)) with 0. rewrite Z.add_0_l, Z.add_0_r, Z.mul_comm. by rewrite Z.div_mul. }
  assert (zlen shown = zlen script + (if prefix then 1 else 0)) as Hz by (unfold shown; rewrite zlen_app; by destruct prefix).
  rewrite Hlen. unfold neoc_malloc_ok. destruct (zlen shown =? 0) eqn:E0; bdestruct; [destruct prefix; lia|].
  rewrite Hh by (destruct prefix; lia). cbn [negb].
  assert (neoc_hex_skip_prefix (prefix_0x prefix ++ hex_of false script) = hex_of false script) as Hskip
    by (destruct prefix; [done|apply skip_prefix_hex_of]).
  pose proof (hex_decode_spec (prefix_0x prefix ++ hex_of false script) (zlen shown)
    (replicate (Z.to_nat (zlen shown)) junk)) as Hd. rewrite Hskip, of_hex_of in Hd. rewrite Hd.
  - assert (drop (length script) (replicate (Z.to_nat (zlen shown)) junk) = if prefix then [junk] else []) as ->; [|done].
    rewrite drop_replicate, Hz. unfold zlen. destruct prefix.
    + replace (_ - _)%nat with 1%nat by lia. done.
    + replace (_ - _)%nat with 0%nat by lia. done.
  - rewrite zlen_replicate. pose proof (zlen_nonneg shown). lia.
  - rewrite length_hex_of, Z.mul_comm, Z.div_mul by done. destruct prefix; lia.
Qed.

(** The verification script of a key, as a program. *)
Definition single_sig_program `{Interop} (key : list byte) : list instruction :=
  [ mk_instruction (byte_of_Z NEOC_OP_PUSHDATA1) key;
    mk_instruction (byte_of_Z NEOC_OP_SYSCALL)
      (le_bytes 4 (service_hash NEOC_INTEROP_SYSTEM_CRYPTO_CHECKSIG)) ].

(** The verification script of a key is listed as the push of the 33 bytes of the key and the
    call of CheckSig; the hash of the service is shown in the order of the bytes. *)
Theorem single_sig_listing `{Allocator} `{Interop} (key buf : list byte) :
  zlen key = 33 -> heap_serves 40 -> zlen buf = 256 ->
  let call := le_bytes 4 (service_hash NEOC_INTEROP_SYSTEM_CRYPTO_CHECKSIG) in
  exists script rest,
    neoc_script_builder_build_verification_script (Some key) 33 = Ok script /\
    neoc_script_reader_to_opcode_string (Some script) (zlen script) 256 buf
    = (Ok tt, str "PUSHDATA1 33 " ++ hex_of false key ++ str_newline ++
              str "SYSCALL " ++ hex_of false call ++ str_newline ++ Byte.x00 :: rest).
Proof.
  intros Hk Hh Hb call. set (prog := single_sig_program key).
  assert (zlen call = 4) as Hc by (unfold call, zlen; by rewrite length_le_bytes).
  assert (script_of vm_sizes prog = single_sig_bytes key) as Es.
  { unfold prog, single_sig_program, script_of, single_sig_bytes, key_push, syscall_bytes. cbn [map concat].
    unfold instruction_bytes. cbn [in_opcode in_operand]. rewrite Hk, app_nil_r. done. }
  assert (listing vm_sizes prog = str "PUSHDATA1 33 " ++ hex_of false key ++ str_newline ++
            str "SYSCALL " ++ hex_of false call ++ str_newline) as El.
  { unfold prog, single_sig_program, listing. cbn [map concat]. unfold instruction_line, operand_text.
    cbn [in_opcode in_operand]. fold call. rewrite Hk, take_ge by (unfold zlen in Hk; lia).
    rewrite app_nil_r, <- !app_assoc. done. }
  exists (single_sig_bytes key). rewrite <- Es.
  destruct (disassembly_shows prog 256 buf) as (rest & E).
  - repeat constructor; by apply (bool_decide_unpack _); vm_compute.
  - constructor; [|constructor; [|constructor]]; unfold instruction_ok; cbn [in_opcode in_operand]; [by rewrite Hk|exact Hc].
  - constructor; [|constructor; [|constructor]]; cbn [in_operand]; (eapply heap_serves_mono; [exact Hh|]); [lia|fold call; lia].
  - rewrite Es. unfold single_sig_bytes, key_push. rewrite zlen_app, syscall_bytes_length, !zlen_cons, Hk. by vm_compute.
  - done.
  - rewrite El, !zlen_app, !length_hex_of, Hk, Hc. by vm_compute.
  - exists rest. split; [|by rewrite E, El, <- !app_assoc]. rewrite Es. apply build_verification_bytes; [done|]. apply Hh. lia.
Qed.

(** The search for a service by the text of its hash: it finds the first service with that
    hash; the text is the hash with the most significant byte first, that is, the bytes in the
    opposite order of a listing. *)
Theorem service_by_hash_text `{Interop} (service : Z) :
  0 <= service < NEOC_INTEROP_COUNT ->
  exists first,
    neoc_script_reader_get_interop_service (Some (sprintf_08x (service_hash service))) = Ok first /\
    0 <= first <= service /\ service_hash first = service_hash service /\
    forall i, 0 <= i < first -> service_hash i <> service_hash service.
Proof.
  intros Hs. unfold neoc_script_reader_get_interop_service.
  assert (forall a b, sprintf_08x (service_hash a) = sprintf_08x (service_hash b) -> service_hash a = service_hash b) as Hinj.
  { intros a b E%hex_of_inj. apply (f_equal (@rev byte)) in E. rewrite !rev_involutive in E.
    apply (f_equal le_val) in E. rewrite !le_val_le_bytes_small in E by apply service_hash_range. done. }
  assert (forall n i, 0 <= i -> i <= service < i + Z.of_nat n ->
    (forall j, 0 <= j < i -> service_hash j <> service_hash service) ->
    exists first, find_service (sprintf_08x (service_hash service)) n i = Ok first /\
      0 <= first <= service /\ service_hash first = service_hash service /\
      forall i, 0 <= i < first -> service_hash i <> service_hash service) as Hf.
  { induction n as [|n IH]; intros i Hi Hin Hpre; [lia|]. cbn [find_service].
    destruct (bool_decide_reflect (sprintf_08x (service_hash service) = sprintf_08x (service_hash i))) as [E|E].
    - exists i. split_and!; [done|lia|lia|by symmetry; apply Hinj|done].
    - assert (i <> service) by (intros ->; done). apply IH; [lia|lia|]. intros j Hj.
      destruct (decide (j = i)) as [->|]; [|apply Hpre; lia]. intros E'. apply E. by rewrite E'. }
  apply Hf; [lia| |lia]. rewrite Z2Nat.id by (by vm_compute). lia.
Qed.

(** ** Samples *)

Section Samples.
#[local] Existing Instance mib_heap.

Definition sample_program : list instruction :=
  [ mk_instruction Byte.x0c (str "neo"); mk_instruction Byte.x01 [Byte.x2c; Byte.x01];
    mk_instruction Byte.x0d []; mk_instruction Byte.xc0 [] ].

Example sample_listing :
  cstring (snd (neoc_script_reader_to_opcode_string (Some (script_of vm_sizes sample_program)) 12 100
    (replicate 100 Byte.xff)))
  = str "PUSHDATA1 3 6e656f" ++ str_newline ++ str "PUSHINT16 2c01" ++ str_newline ++
    str "PUSHDATA2" ++ str_newline ++ str "UNKNOWN" ++ str_newline.
Proof. by vm_compute. Qed.

(** A long jump loses the place: half of its offset is listed as an instruction. *)
Example jump_misread :
  cstring (snd (neoc_script_reader_to_opcode_string
    (Some [byte_of_Z NEOC_OP_JMP_L; Byte.x40; Byte.x00; Byte.x21; Byte.x00]) 5 100 (replicate 100 Byte.xff)))
  = str "JMP_L 4000" ++ str_newline ++ str "NOP" ++ str_newline ++ str "PUSHINT8" ++ str_newline.
Proof. by vm_compute. Qed.

Lemma disassembly_lists_witness :
  exists rest,
    neoc_script_reader_to_opcode_string (Some (script_of vm_sizes sample_program)) 12 100 (replicate 100 Byte.xff)
    = (Ok tt, listing vm_sizes sample_program ++ Byte.x00 :: rest).
Proof.
  apply (disassembly_lists sample_program 100 (replicate 100 Byte.xff)).
  - repeat constructor; by apply (bool_decide_unpack _); vm_compute.
  - repeat constructor.
  - repeat constructor; apply mib_heap_serves; by vm_compute.
  - by vm_compute.
  - by vm_compute.
  - by vm_compute.
Defined.

Lemma disassembly_total_witness :
  exists text rest,
    neoc_script_reader_to_opcode_string (Some [Byte.x0e; Byte.xff; Byte.x41]) 3 100 (replicate 100 Byte.xff)
    = (Ok tt, text ++ Byte.x00 :: rest).
Proof.
  destruct (disassembly_total [Byte.x0e; Byte.xff; Byte.x41] (replicate 100 Byte.xff)) as (x & text & rest & E & _ & X);
    [by vm_compute|by vm_compute|].
  exists text, rest. destruct x as [[]|e|]; [exact E| |done]. exfalso. destruct X as [_ X]. by vm_compute in X.
Defined.

Lemma disassembler_tables_witness : NEOC_OP_JMP_L ∈ misread /\ get_operand_size_info NEOC_OP_JMP_L <> vm_sizes NEOC_OP_JMP_L.
Proof.
  assert (NEOC_OP_JMP_L ∈ misread) as Hin by (apply (bool_decide_unpack _); by vm_compute).
  split; [exact Hin|]. intros E. apply (disassembler_tables NEOC_OP_JMP_L) in E; [done|by vm_compute].
Defined.

Lemma disassemble_hex_witness :
  neoc_script_reader_to_opcode_string_hex Byte.xff (Some (str "0x40")) 100 (replicate 100 Byte.x00)
  = neoc_script_reader_to_opcode_string (Some [Byte.x40; Byte.xff]) 2 100 (replicate 100 Byte.x00).
Proof.
  apply (disassemble_hex Byte.xff [Byte.x40] (replicate 100 Byte.x00) 100 true); [done| |by vm_compute].
  apply mib_heap_serves. by vm_compute.
Defined.

#[local] Existing Instance sample_interop.

Lemma single_sig_listing_witness :
  exists script, neoc_script_builder_build_verification_script (Some (replicate 33 Byte.x02)) 33 = Ok script.
Proof.
  destruct (single_sig_listing (replicate 33 Byte.x02) (replicate 256 Byte.xff)) as (script & rest & E & _);
    [by vm_compute|apply mib_heap_serves; by vm_compute|by vm_compute|]. exists script. exact E.
Defined.

Lemma service_by_hash_text_witness :
  exists first, neoc_script_reader_get_interop_service (Some (sprintf_08x (service_hash 14))) = Ok first.
Proof. destruct (service_by_hash_text 14) as (first & E & _); [by vm_compute|]. exists first. exact E. Defined.
End Samples.
