(* ===== verification/Signature.v ===== *)
(** * ECDSA signatures (src/crypto/ecdsasignature.c)

    A signature is a pair of 32-byte big-endian numbers.  The file has its raw form
    (64 bytes), its DER form and the recoverable form with a leading [v].  Big numbers
    are [Z]; the DER codec is OpenSSL's, the class [Der]. *)

From S2P Require Import Prelude Hashes.

(** ** Big-endian numbers *)

(** [BN_bin2bn] *)
Definition BN_bin2bn (bs : list byte) : Z := le_val (reverse bs).

(** [BN_num_bytes] and [BN_bn2bin] work on the absolute value. *)
Definition BN_num_bytes (v : Z) : Z :=
  if v =? 0 then 0 else Z.log2 (Z.abs v) / 8 + 1.

Definition BN_bn2bin (v : Z) : list byte :=
  reverse (le_bytes (Z.to_nat (BN_num_bytes v)) (Z.abs v)).

(** [BN_bn2binpad(v, to, n)]: [None] when [n] bytes are not enough. *)
Definition BN_bn2binpad (v n : Z) : option (list byte) :=
  if n <? BN_num_bytes v then None
  else Some (reverse (le_bytes (Z.to_nat n) (Z.abs v))).

(** [d2i_ECDSA_SIG] and [i2d_ECDSA_SIG]; the encoder can fail. *)
Class Der := {
  d2i_ECDSA_SIG : list byte -> option (Z * Z);
  i2d_ECDSA_SIG : Z * Z -> option (list byte)
}.

(** DER is a faithful encoding of pairs of 256-bit numbers, in at most 72 bytes. *)
Definition der_works `{Der} : Prop :=
  forall r s, 0 <= r < 2 ^ 256 -> 0 <= s < 2 ^ 256 ->
  exists d, i2d_ECDSA_SIG (r, s) = Some d /\ 0 < zlen d <= 72 /\ d2i_ECDSA_SIG d = Some (r, s).

(** ** Data *)

Definition NEOC_SIGNATURE_COMPONENT_SIZE : Z := 32.
Definition NEOC_SIGNATURE_BYTE_LENGTH : Z := 64.

Record neoc_ecdsa_signature_t := mk_signature { sig_r : list byte; sig_s : list byte }.

Record neoc_signature_data_t := mk_signature_data {
  sd_v : byte;
  sd_r : list byte;
  sd_s : list byte
}.

(** The constant of ecdsasignature.c. *)
Definition SECP256R1_HALF_CURVE_ORDER : list byte :=
  [Byte.x7f; Byte.xff; Byte.xff; Byte.xff; Byte.xff; Byte.xff; Byte.xff; Byte.xff;
   Byte.xff; Byte.xff; Byte.xff; Byte.xff; Byte.xff; Byte.xff; Byte.xff; Byte.xff;
   Byte.x80; Byte.x00; Byte.x00; Byte.x00; Byte.x00; Byte.x00; Byte.x00; Byte.x00;
   Byte.x00; Byte.x00; Byte.x00; Byte.x00; Byte.x00; Byte.x00; Byte.x00; Byte.x00].

Section Operations.
Context `{Allocator}.

(** The caller's buffer is the state; the source is a component of a signature. *)
Definition neoc_copy_component (dest_len : Z) (src : option (list byte)) (src_len : Z)
  : M (list byte) unit :=
  match src with
  | None => fail NEOC_ERROR_INVALID_ARGUMENT
  | Some src =>
      if (dest_len <? NEOC_SIGNATURE_COMPONENT_SIZE) ||
         negb (src_len =? NEOC_SIGNATURE_COMPONENT_SIZE)
      then fail NEOC_ERROR_INVALID_ARGUMENT
      else let! d := lift (memcpy_from src NEOC_SIGNATURE_COMPONENT_SIZE) in store 0 d
  end.

Definition neoc_ecdsa_signature_create (r s : option (list byte))
  : res neoc_ecdsa_signature_t :=
  match r, s with
  | Some r, Some s =>
      if negb (neoc_malloc_ok 64) then Err NEOC_ERROR_MEMORY
      else
        let? r := memcpy_from r NEOC_SIGNATURE_COMPONENT_SIZE in
        let? s := memcpy_from s NEOC_SIGNATURE_COMPONENT_SIZE in
        Ok (mk_signature r s)
  | _, _ => Err NEOC_ERROR_INVALID_ARGUMENT
  end.

Definition neoc_ecdsa_signature_from_bytes (bytes : option (list byte)) (length : Z)
  : res neoc_ecdsa_signature_t :=
  match bytes with
  | None => Err NEOC_ERROR_INVALID_ARGUMENT
  | Some bytes =>
      if negb (length =? NEOC_SIGNATURE_BYTE_LENGTH) then Err NEOC_ERROR_INVALID_ARGUMENT
      else
        neoc_ecdsa_signature_create (Some bytes)
          (Some (drop (Z.to_nat NEOC_SIGNATURE_COMPONENT_SIZE) bytes))
  end.

(** The two halves of a 64-byte buffer. *)
Definition join_components (r s : list byte) : res (list byte) :=
  let? r := memcpy_from r NEOC_SIGNATURE_COMPONENT_SIZE in
  let? s := memcpy_from s NEOC_SIGNATURE_COMPONENT_SIZE in
  Ok (r ++ s).

Definition neoc_ecdsa_signature_to_bytes (signature : option neoc_ecdsa_signature_t)
  : res (list byte) :=
  match signature with
  | None => Err NEOC_ERROR_INVALID_ARGUMENT
  | Some sg =>
      if negb (neoc_malloc_ok NEOC_SIGNATURE_BYTE_LENGTH) then Err NEOC_ERROR_MEMORY
      else join_components (sig_r sg) (sig_s sg)
  end.

(** A number right-aligned in a zeroed 32-byte component. *)
Definition put_component (v : Z) : res (list byte) :=
  match buf_copy (replicate 32 Byte.x00) (NEOC_SIGNATURE_COMPONENT_SIZE - BN_num_bytes v)
          (BN_bn2bin v) with
  | Some c => Ok c
  | None => Fault
  end.

Definition neoc_ecdsa_signature_from_der `{Der} (der_bytes : option (list byte)) (der_len : Z)
  : res neoc_ecdsa_signature_t :=
  match der_bytes with
  | None => Err NEOC_ERROR_INVALID_ARGUMENT
  | Some der_bytes =>
      if der_len =? 0 then Err NEOC_ERROR_INVALID_ARGUMENT
      else
        match buf_slice der_bytes 0 der_len with
        | None => Fault
        | Some der =>
            match d2i_ECDSA_SIG der with
            | None => Err NEOC_ERROR_INVALID_FORMAT
            | Some (r_bn, s_bn) =>
                if negb (neoc_malloc_ok 64) then Err NEOC_ERROR_MEMORY
                else if (NEOC_SIGNATURE_COMPONENT_SIZE <? BN_num_bytes r_bn) ||
                        (NEOC_SIGNATURE_COMPONENT_SIZE <? BN_num_bytes s_bn)
                then Err NEOC_ERROR_INVALID_FORMAT
                else
                  let? r := put_component r_bn in
                  let? s := put_component s_bn in
                  Ok (mk_signature r s)
            end
        end
  end.

Definition neoc_ecdsa_signature_get_r (signature : option neoc_ecdsa_signature_t)
    (r_capacity : Z) : M (list byte) unit :=
  neoc_copy_component r_capacity (sig_r <$> signature) NEOC_SIGNATURE_COMPONENT_SIZE.

Definition neoc_ecdsa_signature_get_s (signature : option neoc_ecdsa_signature_t)
    (s_capacity : Z) : M (list byte) unit :=
  neoc_copy_component s_capacity (sig_s <$> signature) NEOC_SIGNATURE_COMPONENT_SIZE.

Definition neoc_ecdsa_signature_is_canonical (signature : option neoc_ecdsa_signature_t)
  : res bool :=
  match signature with
  | None => Err NEOC_ERROR_INVALID_ARGUMENT
  | Some sg => Ok (memcmp_loop (sig_s sg) SECP256R1_HALF_CURVE_ORDER <=? 0)
  end.

Definition neoc_ecdsa_signature_to_der `{Der} (signature : option neoc_ecdsa_signature_t)
  : res (list byte) :=
  match signature with
  | None => Err NEOC_ERROR_INVALID_ARGUMENT
  | Some sg =>
      match i2d_ECDSA_SIG (BN_bin2bn (sig_r sg), BN_bin2bn (sig_s sg)) with
      | None => Err NEOC_ERROR_INTERNAL
      | Some der =>
          if zlen der <=? 0 then Err NEOC_ERROR_INTERNAL
          else if negb (neoc_malloc_ok (zlen der)) then Err NEOC_ERROR_MEMORY
          else Ok der
      end
  end.

(** ** Recoverable signatures *)

(** [sizeof(neoc_signature_data_t)] *)
Definition signature_data_struct_size : Z := 65.

Definition neoc_signature_data_create (v : byte) (r s : option (list byte))
  : res neoc_signature_data_t :=
  match r, s with
  | Some r, Some s =>
      if negb (neoc_malloc_ok signature_data_struct_size) then Err NEOC_ERROR_MEMORY
      else
        let? r := memcpy_from r NEOC_SIGNATURE_COMPONENT_SIZE in
        let? s := memcpy_from s NEOC_SIGNATURE_COMPONENT_SIZE in
        Ok (mk_signature_data v r s)
  | _, _ => Err NEOC_ERROR_INVALID_ARGUMENT
  end.

Definition neoc_signature_data_from_bytes_with_v (v : byte) (signature : option (list byte))
    (signature_length : Z) : res neoc_signature_data_t :=
  match signature with
  | None => Err NEOC_ERROR_INVALID_ARGUMENT
  | Some bytes =>
      if negb (signature_length =? NEOC_SIGNATURE_BYTE_LENGTH)
      then Err NEOC_ERROR_INVALID_ARGUMENT
      else
        neoc_signature_data_create v (Some bytes)
          (Some (drop (Z.to_nat NEOC_SIGNATURE_COMPONENT_SIZE) bytes))
  end.

Definition neoc_signature_data_from_bytes (signature : option (list byte))
    (signature_length : Z) : res neoc_signature_data_t :=
  neoc_signature_data_from_bytes_with_v Byte.x00 signature signature_length.

Definition neoc_signature_data_to_bytes (sig_data : option neoc_signature_data_t)
  : res (list byte) :=
  match sig_data with
  | None => Err NEOC_ERROR_INVALID_ARGUMENT
  | Some sd =>
      if negb (neoc_malloc_ok NEOC_SIGNATURE_BYTE_LENGTH) then Err NEOC_ERROR_MEMORY
      else join_components (sd_r sd) (sd_s sd)
  end.

Definition neoc_signature_data_get_v (sig_data : option neoc_signature_data_t) : byte :=
  match sig_data with Some sd => sd_v sd | None => Byte.x00 end.

(** The component and the length reported with it. *)
Definition neoc_signature_data_get_r (sig_data : option neoc_signature_data_t)
  : option (list byte) * Z :=
  match sig_data with
  | Some sd => (Some (sd_r sd), NEOC_SIGNATURE_COMPONENT_SIZE)
  | None => (None, 0)
  end.

Definition neoc_signature_data_get_s (sig_data : option neoc_signature_data_t)
  : option (list byte) * Z :=
  match sig_data with
  | Some sd => (Some (sd_s sd), NEOC_SIGNATURE_COMPONENT_SIZE)
  | None => (None, 0)
  end.

End Operations.

(** ** Specification *)

Definition sig_ok (sg : neoc_ecdsa_signature_t) : Prop :=
  length (sig_r sg) = 32%nat /\ length (sig_s sg) = 32%nat.

(** The order of the group of secp256r1. *)
Definition secp256r1_order : Z :=
  0xFFFFFFFF00000000FFFFFFFFFFFFFFFFBCE6FAADA7179E84F3B9CAC2FC632551.

(** The 32-byte form of a number. *)
Definition component (v : Z) : list byte := reverse (le_bytes 32 v).

Lemma BN_bin2bn_range bs : 0 <= BN_bin2bn bs < 256 ^ zlen bs.
Proof. unfold BN_bin2bn. rewrite <- zlen_reverse. apply le_val_range. Qed.

Lemma BN_bin2bn_cons b bs : BN_bin2bn (b :: bs) = Z_of_byte b * 256 ^ zlen bs + BN_bin2bn bs.
Proof.
  unfold BN_bin2bn. rewrite reverse_cons, le_val_app, zlen_reverse. cbn [le_val]. lia.
Qed.

Lemma component_bin2bn bs : length bs = 32%nat -> component (BN_bin2bn bs) = bs.
Proof.
  intros Hl. unfold component, BN_bin2bn. rewrite <- Hl, <- (length_reverse bs).
  rewrite le_bytes_le_val. apply reverse_involutive.
Qed.

Lemma length_component v : length (component v) = 32%nat.
Proof. unfold component. by rewrite length_reverse, length_le_bytes. Qed.

Lemma zlen_component v : zlen (component v) = 32.
Proof. unfold zlen. by rewrite length_component. Qed.

Lemma bin2bn_component v : 0 <= v < 2 ^ 256 -> BN_bin2bn (component v) = v.
Proof.
  intros Hv. unfold BN_bin2bn, component. rewrite reverse_involutive.
  by apply le_val_le_bytes_small.
Qed.

(** [memcmp] compares big-endian numbers of one size. *)
Lemma memcmp_numbers a : forall b,
  length a = length b -> (memcmp_loop a b <=? 0) = (BN_bin2bn a <=? BN_bin2bn b).
Proof.
  induction a as [|x a IH]; intros [|y b] Hl; try done. injection Hl as Hl.
  rewrite !BN_bin2bn_cons. replace (zlen b) with (zlen a) by (unfold zlen; lia).
  pose proof (BN_bin2bn_range a) as Ha. pose proof (BN_bin2bn_range b) as Hb.
  replace (zlen b) with (zlen a) in Hb by (unfold zlen; lia).
  cbn [memcmp_loop]. specialize (IH b Hl).
  destruct (Z_of_byte x <? Z_of_byte y) eqn:E1; bdestruct; [symmetry; apply Z.leb_le; nia|].
  destruct (Z_of_byte y <? Z_of_byte x) eqn:E2; bdestruct; [symmetry; apply Z.leb_gt; nia|].
  assert (Z_of_byte x = Z_of_byte y) as -> by lia. rewrite IH.
  destruct (BN_bin2bn a <=? BN_bin2bn b) eqn:E; bdestruct; symmetry;
    [apply Z.leb_le|apply Z.leb_gt]; lia.
Qed.

Lemma num_bytes_le v n : 0 <= n -> 0 <= v < 256 ^ n -> 0 <= BN_num_bytes v <= n.
Proof.
  intros Hn Hv. unfold BN_num_bytes. destruct (v =? 0) eqn:E; bdestruct; [lia|].
  rewrite Z.abs_eq by lia. pose proof (Z.log2_nonneg v).
  assert (Z.log2 v < 8 * n) as Hlog.
  { apply Z.log2_lt_pow2; [lia|]. rewrite Z.pow_mul_r by lia. change (2 ^ 8) with 256. lia. }
  split; [dlia|]. dlia.
Qed.

Lemma le_bytes_pad m n v :
  0 <= v < 256 ^ Z.of_nat m -> le_bytes (m + n) v = le_bytes m v ++ replicate n Byte.x00.
Proof.
  revert v. induction m as [|m IH]; intros v Hv.
  - assert (v = 0) as -> by (cbn in Hv; lia). cbn [Nat.add le_bytes app].
    induction n as [|n IHn]; [done|]. cbn [le_bytes replicate].
    change (0 / 256) with 0. by rewrite IHn.
  - cbn [Nat.add le_bytes app]. f_equal. apply IH.
    rewrite Nat2Z.inj_succ, Z.pow_succ_r in Hv by lia.
    split; [apply Z.div_pos; lia|apply Z.div_lt_upper_bound; lia].
Qed.

Lemma num_bytes_fits v : 0 <= v -> v < 256 ^ BN_num_bytes v.
Proof.
  intros Hv. unfold BN_num_bytes. destruct (v =? 0) eqn:E; bdestruct; [lia|].
  rewrite Z.abs_eq by lia. pose proof (Z.log2_spec v ltac:(lia)) as [_ H2].
  pose proof (Z.log2_nonneg v).
  change 256 with (2 ^ 8). rewrite <- Z.pow_mul_r by dlia.
  eapply Z.lt_le_trans; [exact H2|]. apply Z.pow_le_mono_r; dlia.
Qed.

Lemma put_component_ok v : 0 <= v < 2 ^ 256 -> put_component v = Ok (component v).
Proof.
  intros Hv. destruct (num_bytes_le v 32) as [Hn0 Hn]; [lia|done|].
  unfold put_component, BN_bn2bin, NEOC_SIGNATURE_COMPONENT_SIZE. rewrite Z.abs_eq by lia.
  set (n := BN_num_bytes v) in *. set (bs := reverse (le_bytes (Z.to_nat n) v)).
  assert (zlen bs = n) as Hbs.
  { unfold bs, zlen. rewrite length_reverse, length_le_bytes. lia. }
  unfold buf_copy. rewrite zlen_replicate, Hbs.
  replace (32 - n + n) with 32 by lia. cmps. f_equal.
  rewrite take_replicate, drop_replicate.
  replace (Z.to_nat (32 - n) + length bs)%nat with 32%nat by (unfold zlen in Hbs; lia).
  cbn [Nat.sub replicate]. rewrite app_nil_r. unfold component, bs.
  assert (le_bytes 32 v = le_bytes (Z.to_nat n) v ++ replicate (32 - Z.to_nat n) Byte.x00) as ->.
  2: { rewrite reverse_app, reverse_replicate. f_equal. f_equal. lia. }
  rewrite <- le_bytes_pad.
  - f_equal. lia.
  - rewrite Z2Nat.id by lia. split; [lia|]. apply num_bytes_fits; lia.
Qed.

Lemma num_bytes_abs v : BN_num_bytes (Z.abs v) = BN_num_bytes v.
Proof.
  unfold BN_num_bytes. rewrite Z.abs_idemp.
  destruct (v =? 0) eqn:E1, (Z.abs v =? 0) eqn:E2; bdestruct; done || lia.
Qed.

(** What [BN_bn2binpad] puts into a 32-byte component. *)
Lemma binpad_inv v c : BN_bn2binpad v 32 = Some c -> c = component (Z.abs v) /\ BN_bin2bn c = Z.abs v.
Proof.
  unfold BN_bn2binpad. destruct (32 <? BN_num_bytes v) eqn:Ev; [done|]. bdestruct. intros E.
  apply (inj Some) in E. change (component (Z.abs v) = c) in E. subst c. split; [done|].
  apply bin2bn_component. split; [lia|].
  pose proof (num_bytes_fits (Z.abs v) ltac:(lia)) as Hf. rewrite num_bytes_abs in Hf.
  eapply Z.lt_le_trans; [exact Hf|]. change (2 ^ 256) with (256 ^ 32).
  apply Z.pow_le_mono_r; lia.
Qed.

Section Proofs.
Context `{Allocator} `{Der}.

Lemma to_bytes_ok sg :
  sig_ok sg -> malloc_ok 64 = true ->
  neoc_ecdsa_signature_to_bytes (Some sg) = Ok (sig_r sg ++ sig_s sg).
Proof.
  intros [Hr Hs] Hm. unfold neoc_ecdsa_signature_to_bytes, neoc_malloc_ok,
    NEOC_SIGNATURE_BYTE_LENGTH, join_components. rewrite Hm. cbn [Z.eqb negb].
  rewrite !memcpy_from_all by (unfold zlen, NEOC_SIGNATURE_COMPONENT_SIZE; lia). done.
Qed.

Lemma memcpy_prefix d rest : memcpy_from (d ++ rest) (zlen d) = Ok d.
Proof.
  unfold memcpy_from. pose proof (buf_slice_app [] d rest) as E.
  change (zlen []) with 0 in E. cbn [app] in E. by rewrite E.
Qed.

Lemma signature_create_ok r s rest1 rest2 :
  length r = 32%nat -> length s = 32%nat -> malloc_ok 64 = true ->
  neoc_ecdsa_signature_create (Some (r ++ rest1)) (Some (s ++ rest2)) = Ok (mk_signature r s).
Proof.
  intros Hr Hs Hm. unfold neoc_ecdsa_signature_create, neoc_malloc_ok, NEOC_SIGNATURE_COMPONENT_SIZE.
  rewrite Hm. cbn [Z.eqb negb].
  pose proof (memcpy_prefix r rest1) as E1. pose proof (memcpy_prefix s rest2) as E2.
  unfold zlen in E1, E2. rewrite Hr in E1. rewrite Hs in E2.
  change (Z.of_nat 32) with 32 in *. by rewrite E1, E2.
Qed.

(** Signatures round trip: the 64-byte form and the DER form of a signature are
    read back as the signature, also when the numbers start with zero bytes, which DER
    leaves out. *)
Theorem signature_roundtrip (sg : neoc_ecdsa_signature_t) :
  sig_ok sg -> der_works -> heap_serves 72 ->
  (let? bytes := neoc_ecdsa_signature_to_bytes (Some sg) in
   neoc_ecdsa_signature_from_bytes (Some bytes) (zlen bytes)) = Ok sg /\
  (let? der := neoc_ecdsa_signature_to_der (Some sg) in
   neoc_ecdsa_signature_from_der (Some der) (zlen der)) = Ok sg.
Proof.
  intros [Hr Hs] Hd Hh. assert (malloc_ok 64 = true) as Hm by (apply Hh; lia). split.
  - rewrite to_bytes_ok by done. cbn [rbind].
    unfold neoc_ecdsa_signature_from_bytes, NEOC_SIGNATURE_BYTE_LENGTH. rewrite zlen_app.
    unfold zlen. rewrite Hr, Hs. change (negb _) with false. cbv iota.
    change (Z.to_nat NEOC_SIGNATURE_COMPONENT_SIZE) with 32%nat.
    assert (drop 32 (sig_r sg ++ sig_s sg) = sig_s sg ++ []) as ->
      by (rewrite <- Hr, drop_app_length; by rewrite app_nil_r).
    rewrite signature_create_ok by done. by destruct sg.
  - pose proof (BN_bin2bn_range (sig_r sg)) as R. pose proof (BN_bin2bn_range (sig_s sg)) as S.
    unfold zlen in R, S. rewrite Hr in R. rewrite Hs in S.
    destruct (Hd _ _ R S) as (d & E & Hl & D). unfold neoc_ecdsa_signature_to_der. rewrite E.
    unfold neoc_malloc_ok. cmps. rewrite Hh by lia. cbn [negb rbind].
    unfold neoc_ecdsa_signature_from_der, neoc_malloc_ok. cmps.
    rewrite buf_slice_all, D, Hm. cbn [Z.eqb negb].
    pose proof (num_bytes_le _ 32 ltac:(lia) R). pose proof (num_bytes_le _ 32 ltac:(lia) S).
    unfold NEOC_SIGNATURE_COMPONENT_SIZE. cmps.
    rewrite !put_component_ok by done. cbn [rbind].
    rewrite !component_bin2bn by done. by destruct sg.
Qed.

Lemma is_canonical_number sg :
  sig_ok sg ->
  neoc_ecdsa_signature_is_canonical (Some sg) = Ok (BN_bin2bn (sig_s sg) <=? 2 ^ 255 - 2 ^ 127).
Proof.
  intros [_ Hs]. unfold neoc_ecdsa_signature_is_canonical. rewrite memcmp_numbers by done.
  change (BN_bin2bn SECP256R1_HALF_CURVE_ORDER) with (2 ^ 255 - 2 ^ 127). done.
Qed.

(** The test for canonical signatures is too weak: every signature with the
    smaller of the two possible values of [s] passes, but the constant it compares with
    is not half of the curve's order, and for each of the more than 2^223 values of [s]
    near the middle both the signature and its negation pass. *)
Theorem canonical_test_admits_both (r : list byte) (s : Z) :
  length r = 32%nat -> 0 <= s < secp256r1_order ->
  let low := mk_signature r (component s) in
  let high := mk_signature r (component (secp256r1_order - s)) in
  (2 * s <= secp256r1_order -> neoc_ecdsa_signature_is_canonical (Some low) = Ok true) /\
  (Z.abs (secp256r1_order - 2 * s) <= 2 ^ 223 ->
   neoc_ecdsa_signature_is_canonical (Some low) = Ok true /\
   neoc_ecdsa_signature_is_canonical (Some high) = Ok true).
Proof.
  intros Hr Hs low high.
  assert (sig_ok low /\ sig_ok high) as [L1 L2] by (split; split; cbn; auto using length_component).
  rewrite !is_canonical_number by done. cbn [sig_s low high].
  unfold secp256r1_order in *. eval_pows.
  destruct (decide (s = 0)) as [->|Hs0].
  - split; [intros _; done|]. intros Ha. exfalso. lia.
  - rewrite !bin2bn_component by (eval_pows; lia).
    split; [intros; f_equal; apply Z.leb_le; lia|].
    intros Ha. split; f_equal; apply Z.leb_le; lia.
Qed.
End Proofs.

(** ** A codec to run the model with: the two numbers side by side *)

Section Samples.

Definition toy_der : Der := {|
  d2i_ECDSA_SIG d := Some (BN_bin2bn (take 32 d), BN_bin2bn (drop 32 d));
  i2d_ECDSA_SIG rs := Some (component (fst rs) ++ component (snd rs))
|}.

#[local] Existing Instance toy_der.
#[local] Existing Instance mib_heap.

Lemma toy_der_works : der_works.
Proof.
  intros r s Hr Hs. exists (component r ++ component s). split; [done|].
  pose proof (length_component r) as Lr. pose proof (length_component s) as Ls. split.
  - unfold zlen. rewrite length_app, Lr, Ls. done.
  - cbn [d2i_ECDSA_SIG toy_der]. rewrite <- Lr at 1 2.
    by rewrite take_app_length, drop_app_length, !bin2bn_component.
Qed.

Lemma signature_roundtrip_witness :
  (let? der := neoc_ecdsa_signature_to_der (Some (mk_signature (component 7) (component 300))) in
   neoc_ecdsa_signature_from_der (Some der) (zlen der))
  = Ok (mk_signature (component 7) (component 300)).
Proof.
  apply (signature_roundtrip (mk_signature (component 7) (component 300))
    (conj (length_component 7) (length_component 300)) toy_der_works
    (mib_heap_serves 72 ltac:(by vm_compute))).
Defined.

(** The order is odd; its halves rounded down and up are each other's negations. *)
Lemma canonical_test_admits_both_witness :
  let s := secp256r1_order / 2 in
  neoc_ecdsa_signature_is_canonical (Some (mk_signature (component 7) (component s))) = Ok true /\
  neoc_ecdsa_signature_is_canonical
    (Some (mk_signature (component 7) (component (secp256r1_order - s)))) = Ok true.
Proof.
  apply (canonical_test_admits_both (component 7) (secp256r1_order / 2) (length_component 7));
    unfold secp256r1_order; [split; vm_compute; congruence|vm_compute; congruence].
Defined.
End Samples.
