(* ===== verification/KeyPair.v ===== *)
(** * Key pairs (src/crypto/ec_key_pair.c)

    Private keys, key pairs and signing.  The arithmetic of the curve is OpenSSL's: the
    class [Ecdsa] has the operations the code calls, and [ecdsa_works] what it relies on.
    The random bytes of a new key and the random draw of a signature are arguments.
    OpenSSL's own allocations are assumed to succeed.  A key pair made by the library
    has both keys; the NULL checks on them are kept. *)

From S2P Require Import Prelude Crypto Base58 Hashes Interop ScriptBuilder EcKey VerificationScript Signature.
#[local] Open Scope Z_scope.

Class Ecdsa `{Curve} := {
  (** The public point of a 32-byte private key ([EC_KEY_set_private_key],
      [EC_POINT_mul], [EC_KEY_set_public_key]); [None] when one of them fails. *)
  EC_public_point : list byte -> option EC_POINT;
  (** [ECDSA_do_sign] with a private key, a 32-byte hash and a random draw. *)
  ECDSA_do_sign : list byte -> list byte -> Z -> option (Z * Z);
  (** [ECDSA_do_verify] returns 1. *)
  ECDSA_do_verify : list byte -> Z * Z -> EC_POINT -> bool
}.

(** A signature made with a private key is a pair of 256-bit numbers that verifies
    under the public point of the key. *)
Record ecdsa_works `{Ecdsa} : Prop := {
  works_sign key point hash draw :
    EC_public_point key = Some point -> length hash = 32%nat ->
    exists r s, ECDSA_do_sign key hash draw = Some (r, s) /\
      0 <= r < 2 ^ 256 /\ 0 <= s < 2 ^ 256 /\ ECDSA_do_verify hash (r, s) point = true
}.

(** The 32 bytes of a private key; its OpenSSL objects are functions of them. *)
Record neoc_ec_private_key_t := mk_private_key { priv_bytes : list byte }.

Record neoc_ec_key_pair_t `{Curve} := mk_key_pair {
  kp_private : option neoc_ec_private_key_t;
  kp_public : option neoc_ec_public_key_t
}.

(** [sizeof] of the structs *)
Definition key_pair_struct_size : Z := 16.
Definition private_key_struct_size : Z := 48.

Section Operations.
Context `{Allocator} `{Interop} `{Crypto} `{Curve} `{!Ecdsa}.

Definition neoc_ec_key_pair_create_from_private_key (private_key_bytes : option (list byte))
  : res neoc_ec_key_pair_t :=
  match private_key_bytes with
  | None => Err NEOC_ERROR_INVALID_ARGUMENT
  | Some bytes =>
      if negb (malloc_ok key_pair_struct_size) then Err NEOC_ERROR_MEMORY
      else if negb (malloc_ok private_key_struct_size) then Err NEOC_ERROR_MEMORY
      else
        let? private_key := memcpy_from bytes 32 in
        match EC_public_point private_key with
        | None => Err NEOC_ERROR_CRYPTO
        | Some pub_point =>
            if negb (malloc_ok public_key_struct_size) then Err NEOC_ERROR_MEMORY
            else
              let compressed := EC_POINT_point2oct true pub_point in
              let uncompressed := EC_POINT_point2oct false pub_point in
              if negb (zlen compressed =? 33) then Err NEOC_ERROR_CRYPTO
              else if negb (zlen uncompressed =? 65) then Err NEOC_ERROR_CRYPTO
              else
                Ok (mk_key_pair _ (Some (mk_private_key private_key))
                      (Some (mk_public_key _ pub_point compressed uncompressed true)))
        end
  end.

Definition neoc_ec_key_pair_from_private_key (private_key_bytes : option (list byte))
    (key_size : Z) : res neoc_ec_key_pair_t :=
  if negb (key_size =? 32) then Err NEOC_ERROR_INVALID_LENGTH
  else neoc_ec_key_pair_create_from_private_key private_key_bytes.

(** [random] is what [RAND_bytes] delivers, [None] when it fails. *)
Definition neoc_ec_key_pair_create_random (random : option (list byte))
  : res neoc_ec_key_pair_t :=
  match random with
  | None => Err NEOC_ERROR_CRYPTO
  | Some private_key => neoc_ec_key_pair_create_from_private_key (Some private_key)
  end.

(** The digest is stored as it is, not reversed as by [neoc_hash160_from_script]. *)
Definition neoc_ec_key_pair_get_script_hash (key_pair : neoc_ec_key_pair_t)
  : res neoc_hash160_t :=
  match kp_public key_pair with
  | None => Err NEOC_ERROR_INVALID_ARGUMENT
  | Some public_key =>
      let? script :=
        neoc_script_builder_build_verification_script (Some (pk_compressed public_key)) 33 in
      let? hash160 := neoc_hash160 (Some script) (zlen script) in
      Ok (mk_hash160 hash160)
  end.

Definition neoc_ec_key_pair_get_address (junk : byte) (key_pair : neoc_ec_key_pair_t)
  : res (list byte) :=
  let? script_hash := neoc_ec_key_pair_get_script_hash key_pair in
  match neoc_hash160_to_address junk script_hash 58 (replicate 58 junk) with
  | (Err e, _) => Err e
  | (Fault, _) => Fault
  | (Ok _, temp_address) =>
      let address := cstring temp_address in
      if negb (neoc_malloc_ok (zlen address + 1)) then Err NEOC_ERROR_MEMORY
      else Ok address
  end.

(** [sizeof(neoc_ecdsa_signature_t)] is 64. *)
Definition neoc_ec_key_pair_sign (draw : Z) (key_pair : neoc_ec_key_pair_t)
    (message_hash : option (list byte)) : res neoc_ecdsa_signature_t :=
  match message_hash, kp_private key_pair with
  | Some message_hash, Some private_key =>
      if negb (malloc_ok 64) then Err NEOC_ERROR_MEMORY
      else
        let? hash := memcpy_from message_hash 32 in
        match ECDSA_do_sign (priv_bytes private_key) hash draw with
        | None => Err NEOC_ERROR_CRYPTO
        | Some (r, s) =>
            match BN_bn2binpad r 32, BN_bn2binpad s 32 with
            | Some r, Some s => Ok (mk_signature r s)
            | _, _ => Err NEOC_ERROR_CRYPTO
            end
        end
  | _, _ => Err NEOC_ERROR_INVALID_ARGUMENT
  end.

Definition neoc_ec_public_key_from_private (private_key_bytes : option (list byte))
  : res neoc_ec_public_key_t :=
  match private_key_bytes with
  | None => Err NEOC_ERROR_INVALID_ARGUMENT
  | Some _ =>
      let? key_pair := neoc_ec_key_pair_create_from_private_key private_key_bytes in
      if negb (malloc_ok public_key_struct_size) then Err NEOC_ERROR_MEMORY
      else
        match kp_public key_pair with
        | None => Fault
        | Some k =>
            let? compressed := memcpy_from (pk_compressed k) 33 in
            let? uncompressed := memcpy_from (pk_uncompressed k) 65 in
            Ok (mk_public_key _ (pk_point k) compressed uncompressed (pk_is_compressed k))
        end
  end.

(** The caller's buffer and its [*len] are the state. *)
Definition neoc_ec_public_key_to_bytes (public_key : neoc_ec_public_key_t)
  : M (list byte * Z) unit := fun '(bytes, len) =>
  if len <? 33 then (Err NEOC_ERROR_BUFFER_TOO_SMALL, (bytes, len))
  else
    match buf_slice (pk_compressed public_key) 0 33 with
    | None => (Fault, (bytes, len))
    | Some k =>
        match buf_copy bytes 0 k with
        | Some bytes => (Ok tt, (bytes, 33))
        | None => (Fault, (bytes, len))
        end
    end.

(** A getter with a buffer of [*key_len] bytes: the bytes copied out, or the error.  The
    callers pass a buffer that is large enough. *)
Definition neoc_ec_key_pair_get_private_key (key_pair : neoc_ec_key_pair_t) (key_len : Z)
  : res (list byte) :=
  match kp_private key_pair with
  | None => Err NEOC_ERROR_INVALID_STATE
  | Some private_key =>
      if key_len <? 32 then Err NEOC_ERROR_BUFFER_TOO_SMALL
      else memcpy_from (priv_bytes private_key) 32
  end.

Definition neoc_ec_key_pair_get_public_key (key_pair : neoc_ec_key_pair_t) (key_len : Z)
  : res (list byte) :=
  match kp_public key_pair with
  | None => Err NEOC_ERROR_INVALID_STATE
  | Some public_key =>
      if key_len <? 33 then Err NEOC_ERROR_BUFFER_TOO_SMALL
      else memcpy_from (pk_compressed public_key) 33
  end.

Definition neoc_ec_key_pair_get_public_key_object (key_pair : neoc_ec_key_pair_t)
  : res neoc_ec_public_key_t :=
  let? encoded := neoc_ec_key_pair_get_public_key key_pair 65 in
  neoc_ec_public_key_from_bytes (Some encoded) 33.

End Operations.

(** ** Specification *)

(** The pair of a private key and its public point. *)
Definition pair_of `{Curve} (key : list byte) (point : EC_POINT) : neoc_ec_key_pair_t :=
  mk_key_pair _ (Some (mk_private_key key))
    (Some (mk_public_key _ point (EC_POINT_point2oct true point)
             (EC_POINT_point2oct false point) true)).

(** A private key the curve accepts, with its public point. *)
Definition key_point `{Ecdsa} (key : list byte) (point : EC_POINT) : Prop :=
  length key = 32%nat /\ EC_public_point key = Some point.

Section Proofs.
Context `{Allocator} `{Interop} `{Crypto} `{Curve} `{!Ecdsa}.
Hypothesis Hcurve : curve_works.

Lemma pair_create_ok key point rest :
  key_point key point -> heap_serves 120 ->
  neoc_ec_key_pair_create_from_private_key (Some (key ++ rest)) = Ok (pair_of key point).
Proof.
  intros [Hk Hp] Hh. unfold neoc_ec_key_pair_create_from_private_key, key_pair_struct_size,
    private_key_struct_size, public_key_struct_size.
  rewrite !Hh by lia. cbn [negb]. pose proof (memcpy_prefix key rest) as E.
  unfold zlen in E. rewrite Hk in E. change (Z.of_nat 32) with 32 in E. rewrite E. cbn [rbind].
  rewrite Hp, (works_compressed_size Hcurve), (works_uncompressed_size Hcurve). done.
Qed.

Lemma pair_create key point :
  key_point key point -> heap_serves 120 ->
  neoc_ec_key_pair_create_from_private_key (Some key) = Ok (pair_of key point).
Proof. intros Hk Hh. rewrite <- (pair_create_ok key point [] Hk Hh). by rewrite app_nil_r. Qed.

(** Whatever the heap does, a pair that is created is the pair of its first 32 bytes. *)
Lemma pair_create_inv bytes kp :
  neoc_ec_key_pair_create_from_private_key (Some bytes) = Ok kp ->
  exists key point, key_point key point /\ kp = pair_of key point /\ exists rest, bytes = key ++ rest.
Proof.
  unfold neoc_ec_key_pair_create_from_private_key, memcpy_from. intros E.
  destruct (negb _); [done|]. destruct (negb _); [done|].
  destruct (buf_slice bytes 0 32) as [key|] eqn:Es; [|done]. cbn [rbind] in E.
  destruct (EC_public_point key) as [point|] eqn:Ep; [|done].
  destruct (negb _); [done|]. cbv zeta in E. destruct (negb _); [done|].
  destruct (negb _); [done|]. injection E as <-. exists key, point.
  apply buf_slice_length in Es as Hl.
  split_and!; [split; [unfold zlen in Hl; lia|done]|done|].
  unfold buf_slice in Es. destruct (_ && _); [|done]. injection Es as <-.
  exists (drop 32 bytes). symmetry. apply (take_drop 32 bytes).
Qed.

Lemma get_private_ok key point n :
  length key = 32%nat -> 32 <= n ->
  neoc_ec_key_pair_get_private_key (pair_of key point) n = Ok key.
Proof.
  intros Hk Hn. cbn [neoc_ec_key_pair_get_private_key pair_of kp_private priv_bytes]. cmps.
  apply memcpy_from_all. unfold zlen. lia.
Qed.

Lemma get_public_ok key point n :
  33 <= n ->
  neoc_ec_key_pair_get_public_key (pair_of key point) n = Ok (EC_POINT_point2oct true point).
Proof.
  intros Hn. cbn [neoc_ec_key_pair_get_public_key pair_of kp_public pk_compressed]. cmps.
  apply memcpy_from_all, (works_compressed_size Hcurve).
Qed.

Lemma binpad_ok v : 0 <= v < 2 ^ 256 -> BN_bn2binpad v 32 = Some (component v).
Proof.
  intros Hv. destruct (num_bytes_le v 32) as [Hn0 Hn]; [lia|done|].
  unfold BN_bn2binpad, component. rewrite Z.abs_eq by lia. cmps. done.
Qed.

Lemma pair_sign_ok draw key point hash :
  ecdsa_works -> key_point key point -> length hash = 32%nat -> malloc_ok 64 = true ->
  exists r s, neoc_ec_key_pair_sign draw (pair_of key point) (Some hash)
              = Ok (mk_signature (component r) (component s)) /\
    0 <= r < 2 ^ 256 /\ 0 <= s < 2 ^ 256 /\ ECDSA_do_verify hash (r, s) point = true.
Proof.
  intros He [Hk Hp] Hh Hm. destruct (works_sign He key point hash draw Hp Hh) as (r & s & E & R & S & V).
  exists r, s. split_and!; try done; try lia.
  cbn [neoc_ec_key_pair_sign pair_of kp_private priv_bytes]. rewrite Hm. cbn [negb].
  rewrite memcpy_from_all by (unfold zlen; lia). cbn [rbind].
  by rewrite E, !binpad_ok.
Qed.

Lemma single_sig_length key : zlen key = 33 -> zlen (single_sig_bytes key) = 40.
Proof.
  intros Hk. unfold single_sig_bytes, key_push.
  rewrite zlen_app, syscall_bytes_length, !zlen_cons. lia.
Qed.

(** The hash of the signature script of a key, in the byte order of hash objects. *)
Lemma single_sig_hash key :
  crypto_works -> zlen key = 33 ->
  exists d, neoc_hash160 (Some (single_sig_bytes key)) 40 = Ok d /\ length d = 20%nat /\
    neoc_hash160_from_script (Some (single_sig_bytes key)) 40 = Ok (mk_hash160 (reverse d)).
Proof.
  intros Hw Hk. destruct (hash160_digest Hw (single_sig_bytes key)) as (d & E & Hd).
  rewrite single_sig_length in E by done. exists d. split_and!; [done|done|].
  unfold neoc_hash160_from_script. by rewrite E.
Qed.

(** The script hash of a pair and its address. *)
Lemma pair_address_ok junk key point :
  crypto_works -> heap_serves 120 ->
  exists account pair address,
    neoc_hash160_from_script (Some (single_sig_bytes (EC_POINT_point2oct true point))) 40
      = Ok account /\ hash160_ok account /\
    neoc_ec_key_pair_get_script_hash (pair_of key point) = Ok pair /\
    pair = mk_hash160 (reverse (hash160_data account)) /\
    neoc_ec_key_pair_get_address junk (pair_of key point) = Ok address /\
    hash160_ok pair /\ address_of pair address.
Proof.
  intros Hw Hh. set (pk := EC_POINT_point2oct true point).
  assert (zlen pk = 33) as Hpk by apply (works_compressed_size Hcurve).
  destruct (single_sig_hash pk Hw Hpk) as (d & Ed & Hd & Ea).
  assert (hash160_ok (mk_hash160 d)) as Hok
    by (unfold hash160_ok, zlen, NEOC_HASH160_SIZE; cbn; lia).
  assert (heap_serves 64) as Hh64 by (eapply heap_serves_mono; [done|lia]).
  assert (neoc_ec_key_pair_get_script_hash (pair_of key point) = Ok (mk_hash160 d)) as Eh.
  { cbn [neoc_ec_key_pair_get_script_hash pair_of kp_public pk_compressed]. fold pk.
    rewrite build_verification_bytes by (done || apply Hh; lia). cbn [rbind].
    by rewrite single_sig_length, Ed by done. }
  destruct (to_address_ok junk Hw Hh64 (mk_hash160 d) (replicate 58 junk) Hok) as (s & Hs & Es);
    [by vm_compute|].
  change (zlen (replicate 58 junk)) with 58 in Es.
  exists (mk_hash160 (reverse d)), (mk_hash160 d), s. split_and!; [done| |done| | |done|done].
  - unfold hash160_ok, NEOC_HASH160_SIZE. cbn. rewrite zlen_reverse. exact Hok.
  - cbn [hash160_data]. by rewrite reverse_involutive.
  - unfold neoc_ec_key_pair_get_address. rewrite Eh. cbn [rbind]. rewrite Es.
    rewrite cstring_app by (by eapply address_of_no_nul).
    pose proof (address_of_length _ _ Hok Hs). unfold neoc_malloc_ok. cmps. by rewrite Hh by lia.
Qed.

(** The address of a key pair is not the address of its account: the script hash
    of a pair is the hash of the account's signature script with its bytes reversed, and
    the address of the pair is the address of that reversed hash. *)
Theorem key_pair_address_reversed (junk : byte) (key : list byte) (point : EC_POINT) :
  crypto_works -> key_point key point -> heap_serves 120 ->
  exists account pair address,
    neoc_hash160_from_script (Some (single_sig_bytes (EC_POINT_point2oct true point))) 40
      = Ok account /\ hash160_ok account /\
    neoc_ec_key_pair_get_script_hash (pair_of key point) = Ok pair /\
    pair = mk_hash160 (reverse (hash160_data account)) /\
    neoc_ec_key_pair_get_address junk (pair_of key point) = Ok address /\
    neoc_hash160_from_address junk (Some address) = Ok pair.
Proof.
  intros Hw Hkp Hh. destruct (pair_address_ok junk key point Hw Hh)
    as (account & pair & address & Ea & Hok & Ep & Er & Et & Hp & Ha).
  exists account, pair, address. split_and!; try done. apply from_address_of; try done.
  eapply heap_serves_mono; [done|lia].
Qed.
End Proofs.

(** ** Keys to run the model with: the public point of a key is the key itself *)

#[local] Existing Instance toy_curve.

Definition toy_ecdsa : Ecdsa := {|
  EC_public_point key :=
    match decide (length key = 32%nat) with
    | left E => Some (dexist key E : toy_point)
    | right _ => None
    end;
  ECDSA_do_sign key hash draw :=
    Some (draw mod 2 ^ 256, (BN_bin2bn key + BN_bin2bn hash) mod 2 ^ 256);
  ECDSA_do_verify hash rs p := snd rs =? (BN_bin2bn (`p) + BN_bin2bn hash) mod 2 ^ 256
|}.

#[local] Existing Instance toy_ecdsa.

Lemma toy_ecdsa_works : ecdsa_works.
Proof.
  split. intros key point hash draw Hp Hl. cbn in Hp. destruct (decide _) as [E|]; [|done].
  injection Hp as <-. do 2 eexists. split_and!; [done|apply Z.mod_pos_bound; lia..|].
  cbn. apply Z.eqb_refl.
Qed.

(** The [n]-th private key. *)
Definition toy_private (n : Z) : list byte := le_bytes 32 n.

Lemma toy_private_point n : key_point (toy_private n) (dexist (le_bytes 32 n) (length_le_bytes 32 n) : toy_point).
Proof.
  split; [apply length_le_bytes|]. unfold EC_public_point, toy_ecdsa. cbn.
  destruct (decide _) as [E|E]; [|by destruct E]. f_equal. by apply dsig_eq.
Qed.

Section Samples.
#[local] Existing Instance mib_heap.
#[local] Existing Instance sample_interop.
#[local] Existing Instance toy_crypto.

Lemma key_pair_address_reversed_witness :
  exists account pair,
    neoc_ec_key_pair_get_script_hash
      (pair_of (toy_private 5) (dexist (le_bytes 32 5) (length_le_bytes 32 5) : toy_point)) = Ok pair /\
    pair = mk_hash160 (reverse (hash160_data account)).
Proof.
  destruct (key_pair_address_reversed toy_curve_works Byte.x00 (toy_private 5) _ toy_crypto_works
    (toy_private_point 5) (mib_heap_serves 120 ltac:(by vm_compute)))
    as (a & p & s & _ & _ & Ep & Er & _).
  exists a, p. exact (conj Ep Er).
Defined.
End Samples.
