(* ===== verification/Bip32.v ===== *)
(** * Hierarchical deterministic keys (src/crypto/bip32.c)

    Extended keys, their derivation by index and by path, and their text.  HMAC-SHA-512 and the
    arithmetic of the curve are OpenSSL's: the class [HdCurve] has them as parameters, with the
    point at infinity, and [hd_works] is what the code relies on.  What a failed call leaves
    behind its result pointer is not modelled. *)

From S2P Require Import Prelude Crypto Base58 Hashes EcKey Signature KeyPair.
#[local] Open Scope Z_scope.

(** A point of the curve, or the point at infinity. *)
Inductive ec_point `{Curve} :=
| ec_infinity
| ec_affine (p : EC_POINT).

Class HdCurve `{Curve} := {
  (** [EC_GROUP_get_order] *)
  EC_order : Z;
  (** [EC_KEY_set_private_key] succeeds. *)
  EC_KEY_set_private_key : Z -> bool;
  (** A multiple of the generator ([EC_POINT_mul]); [None] when the call fails. *)
  EC_POINT_mul : Z -> option ec_point;
  EC_POINT_add : ec_point -> ec_point -> option ec_point;
  (** [HMAC(EVP_sha512(), key, data)]; [None] when the result has not 64 bytes. *)
  HMAC_sha512 : list byte -> list byte -> option (list byte)
}.

(** The multiples of the generator are a cyclic group of the order of the curve. *)
Record hd_works `{HdCurve} : Prop := {
  works_order : 1 < EC_order <= 2 ^ 256;
  works_set_private v : 0 < v < EC_order -> EC_KEY_set_private_key v = true;
  works_mul v : 0 <= v -> exists p, EC_POINT_mul v = Some p /\ (p = ec_infinity <-> v mod EC_order = 0);
  works_add a b p q : 0 <= a -> 0 <= b -> EC_POINT_mul a = Some p -> EC_POINT_mul b = Some q ->
    EC_POINT_add p q = EC_POINT_mul ((a + b) mod EC_order);
  works_hmac k d : exists h, HMAC_sha512 k d = Some h /\ length h = 64%nat
}.

Record neoc_bip32_key_t := mk_bip32_key {
  hd_version : list byte;
  hd_depth : Z;
  hd_parent_fingerprint : list byte;
  hd_child_number : Z;
  hd_chain_code : list byte;
  hd_key : list byte;
  hd_is_private : bool
}.

Definition bip32_key_struct_size : Z := 84.
Definition BIP32_SEED_KEY : list byte := str "Neo seed".
Definition BIP32_HARDENED_KEY_START : Z := 0x80000000.
Definition BIP32_SERIALIZED_SIZE : Z := 82.
Definition BIP32_NEO_PURPOSE : Z := 44.
Definition BIP32_NEO_COIN_TYPE : Z := 888.

Definition MAINNET_PRIVATE : list byte := [Byte.x04; Byte.x88; Byte.xad; Byte.xe4].
Definition MAINNET_PUBLIC : list byte := [Byte.x04; Byte.x88; Byte.xb2; Byte.x1e].
Definition TESTNET_PRIVATE : list byte := [Byte.x04; Byte.x35; Byte.x83; Byte.x94].
Definition TESTNET_PUBLIC : list byte := [Byte.x04; Byte.x35; Byte.x87; Byte.xcf].

(** [n] bytes of an array from [i] on. *)
Definition bytes_at (a : list byte) (i n : Z) : res (list byte) :=
  match buf_slice a i n with Some bs => Ok bs | None => Fault end.

(** [(v >> k) & 0xFF] *)
Definition byte_at (v k : Z) : byte := byte_of_Z (Z.land (Z.shiftr v k) 0xFF).

(** ** Paths *)

(** The index of one component, which is not empty. *)
Definition parse_component (buffer : list byte) : res Z :=
  let hardened :=
    match last buffer with Some c => (Z_of_byte c =? 39) || (Z_of_byte c =? 104) | None => false end in
  let text := if hardened then removelast buffer else buffer in
  let '(index, rest) := strtoul text in
  if negb (zlen rest =? 0) || (0x7FFFFFFF <? index) then Err NEOC_ERROR_INVALID_FORMAT
  else Ok (wrap 32 (if hardened then Z.lor index BIP32_HARDENED_KEY_START else index)).

(** The store of an index at the end of the array of [max_indices]. *)
Definition add_index (max_indices : Z) (indices : list Z) (index : Z) : res (list Z) :=
  if max_indices <=? zlen indices then Fault else Ok (indices ++ [index]).

(** The loop: [buffer] holds the component that has begun, of at most 31 characters. *)
Fixpoint parse_path_loop (max_indices : Z) (path buffer : list byte) (indices : list Z)
  : res (list Z * list byte) :=
  match path with
  | [] => Ok (indices, buffer)
  | c :: path =>
      if max_indices <=? zlen indices then Ok (indices, buffer)
      else if Z_of_byte c =? 47 then
        if 0 <? zlen buffer then
          let? index := parse_component buffer in
          let? indices := add_index max_indices indices index in
          parse_path_loop max_indices path [] indices
        else parse_path_loop max_indices path buffer indices
      else if 31 <=? zlen buffer then Err NEOC_ERROR_INVALID_FORMAT
      else parse_path_loop max_indices path (buffer ++ [c]) indices
  end.

Definition skip_m (path : list byte) : list byte :=
  match path with
  | c :: t =>
      if (Z_of_byte c =? 109) || (Z_of_byte c =? 77)
      then match t with d :: u => if Z_of_byte d =? 47 then u else t | [] => [] end
      else path
  | [] => []
  end.

Definition neoc_bip32_parse_path (path : option (list byte)) (max_indices : Z) : res (list Z) :=
  match path with
  | None => Err NEOC_ERROR_INVALID_ARGUMENT
  | Some path =>
      let? st := parse_path_loop max_indices (skip_m path) [] [] in
      let '(indices, buffer) := st in
      if 0 <? zlen buffer then
        let? index := parse_component buffer in add_index max_indices indices index
      else Ok indices
  end.

Definition neoc_bip32_get_neo_path (account change address_index : Z) : list Z :=
  [ Z.lor BIP32_NEO_PURPOSE BIP32_HARDENED_KEY_START; Z.lor BIP32_NEO_COIN_TYPE BIP32_HARDENED_KEY_START;
    Z.lor account BIP32_HARDENED_KEY_START; change; address_index ].

Section Operations.
Context `{Allocator} `{Crypto} `{Curve} `{!Ecdsa} `{!HdCurve}.
Variable junk : byte.

Definition neoc_bip32_from_seed_raw (seed : option (list byte)) (seed_len : Z) : res neoc_bip32_key_t :=
  match seed with
  | None => Err NEOC_ERROR_INVALID_ARGUMENT
  | Some seed =>
      if (seed_len <? 16) || (64 <? seed_len) then Err NEOC_ERROR_INVALID_LENGTH
      else
        let? seed := bytes_at seed 0 seed_len in
        match HMAC_sha512 BIP32_SEED_KEY seed with
        | None => Err NEOC_ERROR_CRYPTO
        | Some hmac =>
            let? left := bytes_at hmac 0 32 in
            let? right := bytes_at hmac 32 32 in
            Ok (mk_bip32_key MAINNET_PRIVATE 0 (replicate 4 Byte.x00) 0 right (Byte.x00 :: left) true)
        end
  end.

Definition neoc_bip32_from_seed_alloc (seed : option (list byte)) (seed_len : Z) : res neoc_bip32_key_t :=
  if negb (neoc_malloc_ok bip32_key_struct_size) then Err NEOC_ERROR_MEMORY
  else neoc_bip32_from_seed_raw seed seed_len.

(** The compressed public key of the private key in bytes 1 to 32. *)
Definition public_bytes (key : list byte) : res (list byte) :=
  let? k := bytes_at key 1 32 in
  let priv_bn := BN_bin2bn k in
  if negb (EC_KEY_set_private_key priv_bn) then Err NEOC_ERROR_CRYPTO
  else
    match EC_POINT_mul priv_bn with
    | Some (ec_affine p) =>
        let bs := EC_POINT_point2oct true p in
        if zlen bs =? 33 then Ok bs else Err NEOC_ERROR_CRYPTO
    | _ => Err NEOC_ERROR_CRYPTO
    end.

Definition neoc_bip32_get_public_key (k : neoc_bip32_key_t) : res neoc_bip32_key_t :=
  if hd_is_private k then
    let? bs := public_bytes (hd_key k) in
    Ok (mk_bip32_key MAINNET_PUBLIC (hd_depth k) (hd_parent_fingerprint k) (hd_child_number k)
          (hd_chain_code k) bs false)
  else Ok k.

Definition neoc_bip32_get_fingerprint (k : neoc_bip32_key_t) : res (list byte) :=
  let? public_key :=
    (if hd_is_private k then let? pub := neoc_bip32_get_public_key k in bytes_at (hd_key pub) 0 33
     else bytes_at (hd_key k) 0 33) in
  let? hash := neoc_hash160_from_data (Some public_key) 33 in
  bytes_at (hash160_data hash) 0 4.

(** The key of the child and whether it is private. *)
Definition child_key (parent : neoc_bip32_key_t) (hmac : list byte) : res (list byte) :=
  let? left := bytes_at hmac 0 32 in
  let il := BN_bin2bn left in
  if hd_is_private parent then
    let? k := bytes_at (hd_key parent) 1 32 in
    let child := (BN_bin2bn k + il) mod EC_order in
    if (child =? 0) || (EC_order <=? child) then Err NEOC_ERROR_CRYPTO
    else match BN_bn2binpad child 32 with Some bs => Ok (Byte.x00 :: bs) | None => Fault end
  else
    let? encoded := bytes_at (hd_key parent) 0 33 in
    match EC_POINT_oct2point encoded with
    | None => Err NEOC_ERROR_CRYPTO
    | Some parent_point =>
        match EC_POINT_mul il with
        | None => Err NEOC_ERROR_CRYPTO
        | Some generator_point =>
            match EC_POINT_add (ec_affine parent_point) generator_point with
            | Some (ec_affine p) =>
                let bs := EC_POINT_point2oct true p in
                if zlen bs =? 33 then Ok bs else Err NEOC_ERROR_CRYPTO
            | _ => Err NEOC_ERROR_CRYPTO
            end
        end
    end.

Definition neoc_bip32_derive_child (parent : neoc_bip32_key_t) (index : Z) : res neoc_bip32_key_t :=
  let hardened := negb (Z.land index BIP32_HARDENED_KEY_START =? 0) in
  if hardened && negb (hd_is_private parent) then Err NEOC_ERROR_INVALID_STATE
  else
    let? data :=
      (if hardened then bytes_at (hd_key parent) 0 33
       else if hd_is_private parent then public_bytes (hd_key parent)
       else bytes_at (hd_key parent) 0 33) in
    match HMAC_sha512 (hd_chain_code parent)
            (data ++ [byte_at index 24; byte_at index 16; byte_at index 8; byte_at index 0]) with
    | None => Err NEOC_ERROR_CRYPTO
    | Some hmac =>
        let? fingerprint :=
          (if 0 <? hd_depth parent then
             match neoc_bip32_get_fingerprint parent with
             | Ok f => Ok f
             | Err _ => Ok (hd_parent_fingerprint parent)
             | Fault => Fault
             end
           else Ok (hd_parent_fingerprint parent)) in
        let? key := child_key parent hmac in
        let? chain_code := bytes_at hmac 32 32 in
        Ok (mk_bip32_key (hd_version parent) (wrap 8 (hd_depth parent + 1)) fingerprint index chain_code key
              (hd_is_private parent))
    end.

Fixpoint neoc_bip32_derive_path_indices (master : neoc_bip32_key_t) (indices : list Z) : res neoc_bip32_key_t :=
  match indices with
  | [] => Ok master
  | index :: indices =>
      let? next := neoc_bip32_derive_child master index in
      neoc_bip32_derive_path_indices next indices
  end.

Definition neoc_bip32_derive_path_indices_alloc (master : neoc_bip32_key_t) (indices : list Z)
  : res neoc_bip32_key_t :=
  if negb (neoc_malloc_ok bip32_key_struct_size) then Err NEOC_ERROR_MEMORY
  else neoc_bip32_derive_path_indices master indices.

Definition neoc_bip32_derive_path_raw (master : neoc_bip32_key_t) (path : option (list byte))
  : res neoc_bip32_key_t :=
  let? indices := neoc_bip32_parse_path path 32 in
  neoc_bip32_derive_path_indices master indices.

Definition neoc_bip32_to_ec_key_pair_raw (k : neoc_bip32_key_t) : res neoc_ec_key_pair_t :=
  if negb (hd_is_private k) then Err NEOC_ERROR_INVALID_STATE
  else
    let? bs := bytes_at (hd_key k) 1 32 in
    neoc_ec_key_pair_from_private_key (Some bs) 32.

(** This one does not ask whether the key is private. *)
Definition neoc_bip32_to_ec_key_pair_alloc (k : neoc_bip32_key_t) : res neoc_ec_key_pair_t :=
  let? bs := bytes_at (hd_key k) 1 32 in
  neoc_ec_key_pair_from_private_key (Some bs) 32.

(** The 82 bytes of a local array of which 78 are written. *)
Definition serialized_key (k : neoc_bip32_key_t) : list byte :=
  hd_version k ++ [byte_of_Z (hd_depth k)] ++ hd_parent_fingerprint k ++
  [byte_at (hd_child_number k) 24; byte_at (hd_child_number k) 16; byte_at (hd_child_number k) 8;
   byte_at (hd_child_number k) 0] ++ hd_chain_code k ++ hd_key k ++ replicate 4 junk.

(** Any failure of the encoder gives no text. *)
Definition neoc_bip32_serialize (k : neoc_bip32_key_t) (xkey_size : Z) : M (list byte) unit := fun xkey =>
  if xkey_size <? 112 then (Err NEOC_ERROR_BUFFER_TOO_SMALL, xkey)
  else
    match neoc_base58_check_encode_alloc junk (Some (serialized_key k)) BIP32_SERIALIZED_SIZE with
    | Ok encoded =>
        if xkey_size <=? zlen encoded then (Err NEOC_ERROR_BUFFER_TOO_SMALL, xkey)
        else store 0 (encoded ++ [Byte.x00]) xkey
    | Err _ => (Err NEOC_ERROR_MEMORY, xkey)
    | Fault => (Fault, xkey)
    end.

Definition neoc_bip32_deserialize (xkey : option (list byte)) : res neoc_bip32_key_t :=
  match xkey with
  | None => Err NEOC_ERROR_INVALID_ARGUMENT
  | Some _ =>
      match neoc_base58_check_decode_alloc junk xkey with
      | Err _ => Err NEOC_ERROR_INVALID_FORMAT
      | Fault => Fault
      | Ok decoded =>
          if negb (zlen decoded =? BIP32_SERIALIZED_SIZE) then Err NEOC_ERROR_INVALID_LENGTH
          else
            let? version := bytes_at decoded 0 4 in
            let? is_private :=
              (if bool_decide (version = MAINNET_PRIVATE) || bool_decide (version = TESTNET_PRIVATE) then Ok true
               else if bool_decide (version = MAINNET_PUBLIC) || bool_decide (version = TESTNET_PUBLIC) then Ok false
               else Err NEOC_ERROR_INVALID_FORMAT) in
            let? depth := bytes_at decoded 4 1 in
            let? fingerprint := bytes_at decoded 5 4 in
            let? number := bytes_at decoded 9 4 in
            let? chain_code := bytes_at decoded 13 32 in
            let? key := bytes_at decoded 45 33 in
            match depth, number with
            | [d], [n0; n1; n2; n3] =>
                let child_number :=
                  Z.lor (Z.lor (Z.lor (wrap 32 (Z.shiftl (Z_of_byte n0) 24)) (Z.shiftl (Z_of_byte n1) 16))
                          (Z.shiftl (Z_of_byte n2) 8)) (Z_of_byte n3) in
                Ok (mk_bip32_key version (Z_of_byte d) fingerprint child_number chain_code key is_private)
            | _, _ => Fault
            end
      end
  end.
End Operations.

(** ** Reading arrays *)

Lemma bytes_at_app a b c i n : zlen a = i -> zlen b = n -> bytes_at (a ++ b ++ c) i n = Ok b.
Proof. intros <- <-. unfold bytes_at. by rewrite buf_slice_app. Qed.

Lemma bytes_at_front b c n : zlen b = n -> bytes_at (b ++ c) 0 n = Ok b.
Proof. by apply (bytes_at_app []). Qed.

Lemma bytes_at_all a n : zlen a = n -> bytes_at a 0 n = Ok a.
Proof. intros <-. unfold bytes_at. by rewrite buf_slice_all. Qed.

Lemma bytes_at_ok a i n : 0 <= i -> 0 <= n -> i + n <= zlen a -> exists b, bytes_at a i n = Ok b /\ zlen b = n.
Proof.
  intros Hi Hn Hl. unfold bytes_at. destruct (buf_slice_some a i n Hi Hn Hl) as (b & -> & Hb). eauto.
Qed.

Lemma bytes_at_tail b a n : zlen a = n -> bytes_at (b :: a) 1 n = Ok a.
Proof.
  intros Hn. rewrite <- (app_nil_r a) at 1. by apply (bytes_at_app [b] a []).
Qed.

Section Derivation.
Context `{Allocator} `{Crypto} `{Curve} `{!Ecdsa} `{!HdCurve}.
Hypothesis Hcurve : curve_works.
Hypothesis Hhd : hd_works.

(** The arrays of the structure have their sizes and the numbers their widths. *)
Record hd_wf (k : neoc_bip32_key_t) : Prop := {
  wf_version : length (hd_version k) = 4%nat;
  wf_depth : 0 <= hd_depth k < 2 ^ 8;
  wf_fingerprint : length (hd_parent_fingerprint k) = 4%nat;
  wf_number : 0 <= hd_child_number k < 2 ^ 32;
  wf_chain_code : length (hd_chain_code k) = 32%nat;
  wf_key : length (hd_key k) = 33%nat
}.

(** The key is the private key [v], or the encoding of a point. *)
Definition holds_private (k : neoc_bip32_key_t) (v : Z) : Prop :=
  hd_is_private k = true /\ 0 < v < EC_order /\ hd_key k = Byte.x00 :: component v.

Definition holds_public (k : neoc_bip32_key_t) (p : EC_POINT) : Prop :=
  hd_is_private k = false /\ hd_key k = EC_POINT_point2oct true p.

(** A key that derivation works from. *)
Definition hd_valid (k : neoc_bip32_key_t) : Prop :=
  hd_wf k /\ ((exists v, holds_private k v) \/ (exists p, holds_public k p)).

Lemma scalar_range v : 0 < v < EC_order -> 0 <= v < 2 ^ 256.
Proof. pose proof (works_order Hhd). lia. Qed.

Lemma mul_affine v : 0 < v < EC_order -> exists p, EC_POINT_mul v = Some (ec_affine p).
Proof.
  intros Hv. destruct (works_mul Hhd v) as (p & E & Hp); [lia|]. destruct p as [|p]; [|eauto].
  destruct Hp as [Hp _]. specialize (Hp eq_refl). rewrite Z.mod_small in Hp; lia.
Qed.

Lemma public_bytes_of v p :
  0 < v < EC_order -> EC_POINT_mul v = Some (ec_affine p) ->
  public_bytes (Byte.x00 :: component v) = Ok (EC_POINT_point2oct true p).
Proof.
  intros Hv E. unfold public_bytes. rewrite bytes_at_tail by apply zlen_component. cbn [rbind].
  rewrite bin2bn_component by (by apply scalar_range). rewrite (works_set_private Hhd) by done.
  cbn [negb]. rewrite E, (works_compressed_size Hcurve). done.
Qed.

Lemma zlen_public_bytes key bs : public_bytes key = Ok bs -> zlen bs = 33.
Proof.
  unfold public_bytes, bytes_at. destruct (buf_slice key 1 32); cbn [rbind]; [|done].
  repeat (step; try done). by intros [= <-].
Qed.

(** The hash of the public key refuses its 33 bytes, so that there is no fingerprint. *)
Lemma get_fingerprint_fails k : length (hd_key k) = 33%nat -> exists e, neoc_bip32_get_fingerprint k = Err e.
Proof.
  intros Hl. assert (zlen (hd_key k) = 33) as Hz by (unfold zlen; lia).
  unfold neoc_bip32_get_fingerprint, neoc_bip32_get_public_key. destruct (hd_is_private k) eqn:Ep.
  - destruct (public_bytes (hd_key k)) as [bs|e|] eqn:Eb; cbn [rbind hd_key].
    + rewrite bytes_at_all by (by eapply zlen_public_bytes). cbn. eauto.
    + eauto.
    + exfalso. unfold public_bytes in Eb.
      destruct (bytes_at_ok (hd_key k) 1 32) as (b & Eb' & _); [lia..|]. rewrite Eb' in Eb. cbn [rbind] in Eb.
      revert Eb. repeat (step; try done).
  - rewrite bytes_at_all by done. cbn. eauto.
Qed.

Definition index_bytes (i : Z) : list byte := [byte_at i 24; byte_at i 16; byte_at i 8; byte_at i 0].
Definition is_hardened (i : Z) : bool := negb (Z.land i BIP32_HARDENED_KEY_START =? 0).

(** The child with the key [key]: its fingerprint is the one of its parent. *)
Definition child_of (k : neoc_bip32_key_t) (i : Z) (h key : list byte) : neoc_bip32_key_t :=
  mk_bip32_key (hd_version k) (wrap 8 (hd_depth k + 1)) (hd_parent_fingerprint k) i (drop 32 h) key
    (hd_is_private k).

(** What is hashed for a child. *)
Definition child_data (k : neoc_bip32_key_t) (i : Z) : res (list byte) :=
  if is_hardened i then bytes_at (hd_key k) 0 33
  else if hd_is_private k then public_bytes (hd_key k) else bytes_at (hd_key k) 0 33.

Lemma derive_child_step k i data h :
  hd_wf k -> is_hardened i && negb (hd_is_private k) = false -> child_data k i = Ok data ->
  HMAC_sha512 (hd_chain_code k) (data ++ index_bytes i) = Some h -> length h = 64%nat ->
  neoc_bip32_derive_child k i = let? key := child_key k h in Ok (child_of k i h key).
Proof.
  intros Hwf Hi Hd Eh Hh. unfold neoc_bip32_derive_child. fold (is_hardened i). rewrite Hi.
  fold (child_data k i). rewrite Hd. cbn [rbind]. fold (index_bytes i). rewrite Eh.
  destruct (get_fingerprint_fails k (wf_key k Hwf)) as [e ->].
  assert (bytes_at h 32 32 = Ok (drop 32 h)) as ->.
  { rewrite <- (take_drop 32 h) at 1. rewrite <- (app_nil_r (drop 32 h)) at 1.
    apply bytes_at_app; unfold zlen; rewrite ?length_take, ?length_drop; lia. }
  destruct (0 <? hd_depth k); cbn [rbind]; destruct (child_key k h); done.
Qed.

Lemma hmac_left k d : exists h l, HMAC_sha512 k d = Some h /\ length h = 64%nat /\
  bytes_at h 0 32 = Ok l /\ 0 <= BN_bin2bn l.
Proof.
  destruct (works_hmac Hhd k d) as (h & E & Hh). destruct (bytes_at_ok h 0 32) as (l & El & _); [lia|lia|unfold zlen; lia|].
  exists h, l. split_and!; try done. apply BN_bin2bn_range.
Qed.

(** The private key of a child and the point of a child are the same multiple of the generator. *)
Lemma child_key_private k v h l :
  holds_private k v -> bytes_at h 0 32 = Ok l ->
  child_key k h = let c := (v + BN_bin2bn l) mod EC_order in
    if c =? 0 then Err NEOC_ERROR_CRYPTO else Ok (Byte.x00 :: component c).
Proof.
  intros (Hp & Hv & Hk) El. unfold child_key. rewrite El, Hp, Hk, bytes_at_tail by apply zlen_component.
  cbn [rbind]. rewrite bin2bn_component by (by apply scalar_range). cbv zeta.
  set (c := (v + BN_bin2bn l) mod EC_order). pose proof (works_order Hhd).
  assert (0 <= c < EC_order) as Hc by (apply Z.mod_pos_bound; lia).
  replace (EC_order <=? c) with false by (symmetry; lia). rewrite orb_false_r.
  destruct (c =? 0) eqn:E0; [done|]. rewrite binpad_ok; [done|lia].
Qed.

Lemma child_key_public k v p h l :
  holds_public k p -> 0 < v < EC_order -> EC_POINT_mul v = Some (ec_affine p) ->
  bytes_at h 0 32 = Ok l -> 0 <= BN_bin2bn l ->
  child_key k h = let c := (v + BN_bin2bn l) mod EC_order in
    match EC_POINT_mul c with
    | Some (ec_affine q) => Ok (EC_POINT_point2oct true q)
    | _ => Err NEOC_ERROR_CRYPTO
    end.
Proof.
  intros (Hp & Hk) Hv Ev El Hl. unfold child_key.
  rewrite El, Hp, Hk, bytes_at_all by apply (works_compressed_size Hcurve). cbn [rbind].
  rewrite (works_decode Hcurve). destruct (works_mul Hhd (BN_bin2bn l) Hl) as (g & Eg & _). rewrite Eg.
  rewrite (works_add Hhd v (BN_bin2bn l) (ec_affine p) g) by (try done; lia). cbv zeta.
  destruct (EC_POINT_mul ((v + _) mod _)) as [[|q]|]; [done| |done]. by rewrite (works_compressed_size Hcurve).
Qed.

Lemma not_hardened i : 0 <= i < 2 ^ 31 -> is_hardened i = false.
Proof.
  intros Hi. unfold is_hardened, BIP32_HARDENED_KEY_START. apply negb_false_iff, Z.eqb_eq.
  change 0x80000000 with (Z.shiftl 1 31). apply Z.bits_inj'. intros n Hn.
  rewrite Z.land_spec, Z.shiftl_spec, Z.bits_0 by lia. destruct (Z.eq_dec n 31) as [->|Hne].
  - rewrite <- (Z.mod_small i (2 ^ 31)) by lia. by rewrite Z.mod_pow2_bits_high by lia.
  - replace (Z.testbit 1 (n - 31)) with false; [by rewrite andb_false_r|]. symmetry.
    destruct (Z.ltb_spec n 31); [by apply Z.testbit_neg_r; lia|].
    change 1 with (2 ^ 0). apply Z.pow2_bits_false. lia.
Qed.

Lemma get_public_private k v p :
  holds_private k v -> EC_POINT_mul v = Some (ec_affine p) ->
  neoc_bip32_get_public_key k =
  Ok (mk_bip32_key MAINNET_PUBLIC (hd_depth k) (hd_parent_fingerprint k) (hd_child_number k)
        (hd_chain_code k) (EC_POINT_point2oct true p) false).
Proof.
  intros (Hp & Hv & Hk) E. unfold neoc_bip32_get_public_key. by rewrite Hp, Hk, (public_bytes_of v p).
Qed.

Lemma length_compressed p : length (EC_POINT_point2oct true p) = 33%nat.
Proof. pose proof (works_compressed_size Hcurve p). unfold zlen in *. lia. Qed.

Lemma child_of_wf k i h key :
  hd_wf k -> 0 <= i < 2 ^ 32 -> length h = 64%nat -> length key = 33%nat -> hd_wf (child_of k i h key).
Proof.
  intros [] Hi Hh Hk. split; cbn; try done; [by apply wrap_range|]. rewrite length_drop. lia.
Qed.

Lemma derive_private k v i :
  hd_wf k -> holds_private k v -> 0 <= i < 2 ^ 31 ->
  exists p h l, EC_POINT_mul v = Some (ec_affine p) /\
    HMAC_sha512 (hd_chain_code k) (EC_POINT_point2oct true p ++ index_bytes i) = Some h /\
    length h = 64%nat /\ bytes_at h 0 32 = Ok l /\ 0 <= BN_bin2bn l /\
    neoc_bip32_derive_child k i =
      let c := (v + BN_bin2bn l) mod EC_order in
      if c =? 0 then Err NEOC_ERROR_CRYPTO else Ok (child_of k i h (Byte.x00 :: component c)).
Proof.
  intros Hwf Hk Hi. pose proof Hk as (Hp & Hv & Ek). destruct (mul_affine v Hv) as [p Ep].
  destruct (hmac_left (hd_chain_code k) (EC_POINT_point2oct true p ++ index_bytes i)) as (h & l & Eh & Hh & El & Hl).
  exists p, h, l. split_and!; try done.
  erewrite derive_child_step; [|done| |unfold child_data|done|done].
  - rewrite (child_key_private k v h l) by done. cbv zeta. by destruct (_ =? 0).
  - by rewrite not_hardened.
  - rewrite not_hardened, Hp, Ek by done. by apply public_bytes_of.
Qed.

(** One level: deriving the public key and deriving the private key agree, failures included. *)
Lemma public_child_commutes k v i :
  hd_wf k -> holds_private k v -> 0 <= i < 2 ^ 31 ->
  (let? pub := neoc_bip32_get_public_key k in neoc_bip32_derive_child pub i) =
  (let? c := neoc_bip32_derive_child k i in neoc_bip32_get_public_key c).
Proof.
  intros Hwf Hk Hi. destruct (derive_private k v i Hwf Hk Hi) as (p & h & l & Ep & Eh & Hh & El & Hl & Ed).
  rewrite Ed, (get_public_private k v p) by done. cbn [rbind]. pose proof Hk as (Hp & Hv & _).
  erewrite derive_child_step; [|split; cbn; try apply Hwf; [done|apply length_compressed]| | |exact Eh|done].
  2: by rewrite not_hardened.
  2: { unfold child_data. rewrite not_hardened by done. cbn. apply bytes_at_all, (works_compressed_size Hcurve). }
  rewrite (child_key_public _ v p h l) by done. cbv zeta. set (c := (v + BN_bin2bn l) mod EC_order).
  pose proof (works_order Hhd). assert (0 <= c < EC_order) as Hc by (apply Z.mod_pos_bound; lia).
  destruct (Z.eqb_spec c 0) as [E0|E0].
  - destruct (works_mul Hhd c) as (q & Eq & [_ Hq]); [lia|]. rewrite Eq, Hq by (rewrite Z.mod_small; lia). done.
  - destruct (mul_affine c) as [q Eq]; [lia|]. rewrite Eq. cbn [rbind].
    rewrite (get_public_private _ c q); [done| |done]. split_and!; try done; lia.
Qed.

Lemma derive_private_keeps k v i c :
  hd_wf k -> holds_private k v -> 0 <= i < 2 ^ 31 -> neoc_bip32_derive_child k i = Ok c ->
  hd_wf c /\ exists w, holds_private c w.
Proof.
  intros Hwf Hk Hi. destruct (derive_private k v i Hwf Hk Hi) as (p & h & l & _ & _ & Hh & _ & _ & ->).
  cbv zeta. set (w := (v + BN_bin2bn l) mod EC_order). pose proof (works_order Hhd).
  assert (0 <= w < EC_order) as Hw by (apply Z.mod_pos_bound; lia).
  destruct (Z.eqb_spec w 0) as [E0|E0]; [done|]. intros [= <-]. split.
  - apply child_of_wf; try done. lia.
  - exists w. pose proof Hk as (Hp & _). split_and!; try done; lia.
Qed.

(** C28. A watch-only wallet sees the same keys: along a path without hardened indices, making
    the key public first and deriving then gives the extended key, or the error, that deriving
    the private key first and making the result public gives. *)
Theorem public_derivation_commutes indices k v :
  hd_wf k -> holds_private k v -> Forall (fun i => 0 <= i < 2 ^ 31) indices ->
  (let? pub := neoc_bip32_get_public_key k in neoc_bip32_derive_path_indices pub indices) =
  (let? c := neoc_bip32_derive_path_indices k indices in neoc_bip32_get_public_key c).
Proof.
  revert k v. induction indices as [|i indices IH]; intros k v Hwf Hk Hi; cbn [neoc_bip32_derive_path_indices].
  - cbn [rbind]. by destruct (neoc_bip32_get_public_key k).
  - inversion_clear Hi as [|? ? Hi1 Hi2]. pose proof (public_child_commutes k v i Hwf Hk Hi1) as Hc.
    destruct (mul_affine v) as [p Ep]; [apply Hk|].
    rewrite (get_public_private k v p) in Hc |- * by done. cbn [rbind] in Hc |- *. rewrite Hc.
    destruct (neoc_bip32_derive_child k i) as [c| |] eqn:Ec; cbn [rbind]; try done.
    destruct (derive_private_keeps k v i c) as (Hwf' & w & Hw); try done. by apply (IH c w).
Qed.

(** Any level, from a private or a public key. *)
Lemma derive_child_valid k i :
  hd_valid k -> 0 <= i < 2 ^ 32 ->
  match neoc_bip32_derive_child k i with
  | Ok c => hd_valid c /\ hd_is_private c = hd_is_private k /\ hd_version c = hd_version k /\
      hd_depth c = wrap 8 (hd_depth k + 1) /\ hd_parent_fingerprint c = hd_parent_fingerprint k /\
      hd_child_number c = i
  | Err e => (e = NEOC_ERROR_INVALID_STATE <-> is_hardened i = true /\ hd_is_private k = false) /\
      (e = NEOC_ERROR_INVALID_STATE \/ e = NEOC_ERROR_CRYPTO)
  | Fault => False
  end.
Proof.
  intros [Hwf Hk] Hi. destruct (is_hardened i && negb (hd_is_private k)) eqn:Eh.
  { unfold neoc_bip32_derive_child. fold (is_hardened i). rewrite Eh.
    apply andb_prop in Eh as [E1 E2]. apply negb_true_iff in E2. split; [by split|by left]. }
  assert (exists data, child_data k i = Ok data) as [data Ed].
  { assert (zlen (hd_key k) = 33) as Hz by (unfold zlen; rewrite (wf_key k Hwf); done).
    unfold child_data. rewrite bytes_at_all by done. destruct (is_hardened i); [eauto|].
    destruct Hk as [(v & Hp & Hv & Ek)|(p & Hp & _)]; rewrite Hp; [|eauto].
    destruct (mul_affine v Hv) as [p Ep]. rewrite Ek. exists (EC_POINT_point2oct true p). by apply public_bytes_of. }
  destruct (hmac_left (hd_chain_code k) (data ++ index_bytes i)) as (h & l & Ehm & Hh & El & Hl).
  rewrite (derive_child_step k i data h) by done.
  assert (match child_key k h with
          | Ok key => length key = 33%nat /\ ((exists w, holds_private (child_of k i h key) w) \/
                                              (exists q, holds_public (child_of k i h key) q))
          | Err e => e = NEOC_ERROR_CRYPTO | Fault => False end) as Hkey.
  { destruct Hk as [[v Hk]|[p [Hp Ek]]].
    - rewrite (child_key_private k v h l) by done. cbv zeta. set (w := (v + BN_bin2bn l) mod EC_order).
      pose proof (works_order Hhd). assert (0 <= w < EC_order) as Hw by (apply Z.mod_pos_bound; lia).
      destruct (Z.eqb_spec w 0); [done|]. split; [done|]. left. exists w. split_and!; try done; [apply Hk|lia..].
    - unfold child_key. rewrite El, Hp, Ek, bytes_at_all by apply (works_compressed_size Hcurve). cbn [rbind].
      rewrite (works_decode Hcurve). destruct (EC_POINT_mul _); [|done].
      destruct (EC_POINT_add _ _) as [[|q]|]; [done| |done]. rewrite (works_compressed_size Hcurve). cbn.
      split; [apply length_compressed|]. right. by exists q. }
  destruct (child_key k h) as [key|e|]; cbn [rbind]; [|subst|done].
  - destruct Hkey as [Hlen Hkey]. split_and!; try done. split; [by apply child_of_wf|done].
  - split; [|by right]. split; [done|]. intros [Hhard Hp]. by rewrite Hhard, Hp in Eh.
Qed.

(** C29. Derivation along any path of any length keeps the extended key well formed and never
    faults: the result is private or public as the master is, its depth is the length of the
    path modulo 256, its child number the last index.  Its parent fingerprint stays the one of
    the master key, four zeros for a master made from a seed, where the format has the
    fingerprint of the direct parent: the call that computes it always fails and its error is
    ignored.  The only errors are a hardened index below a public key and a child key that does
    not exist. *)
Theorem path_derivation_valid indices k :
  hd_valid k -> Forall (fun i => 0 <= i < 2 ^ 32) indices ->
  match neoc_bip32_derive_path_indices k indices with
  | Ok c => hd_valid c /\ hd_is_private c = hd_is_private k /\ hd_version c = hd_version k /\
      hd_depth c = (hd_depth k + zlen indices) mod 256 /\
      hd_parent_fingerprint c = hd_parent_fingerprint k /\
      hd_child_number c = default (hd_child_number k) (last indices)
  | Err e => (e = NEOC_ERROR_INVALID_STATE /\ hd_is_private k = false /\ Exists (fun i => is_hardened i = true) indices)
      \/ e = NEOC_ERROR_CRYPTO
  | Fault => False
  end.
Proof.
  revert k. induction indices as [|i indices IH]; intros k Hk Hi; cbn [neoc_bip32_derive_path_indices].
  - pose proof (wf_depth k (proj1 Hk)). split_and!; try done. rewrite zlen_nil, Z.add_0_r, Z.mod_small; [done|].
    change 256 with (2 ^ 8). lia.
  - inversion_clear Hi as [|? ? Hi1 Hi2]. pose proof (derive_child_valid k i Hk Hi1) as Hc.
    destruct (neoc_bip32_derive_child k i) as [c|e|]; cbn [rbind]; [|destruct Hc as [Hc [->| ->]]|done].
    + destruct Hc as (Hc & Hp & Hv & Hd & Hf & Hn). specialize (IH c Hc Hi2).
      destruct (neoc_bip32_derive_path_indices c indices) as [d|e|]; [| |done].
      2: { destruct IH as [(-> & Hq & Hx)| ->]; [left|by right]. split_and!; [done|congruence|by constructor 2]. }
      destruct IH as (Hvd & Hp' & Hv' & Hd' & Hf' & Hn'). split_and!; try congruence.
      * rewrite Hd', Hd, zlen_cons. unfold wrap. change (2 ^ 8) with 256.
        rewrite Zplus_mod_idemp_l. f_equal. lia.
      * rewrite Hn', last_cons. destruct (last indices); cbn; congruence.
    + left. destruct Hc as [Hc _]. destruct (Hc eq_refl). split_and!; try done. by constructor.
    + by right.
Qed.
End Derivation.

(** ** The text of a path *)

(** An index below 2^31, or one above it with the mark of a hardened index. *)
Definition index_text (i : Z) : list byte :=
  if i <? 2 ^ 31 then print_decimal i else print_decimal (i - 2 ^ 31) ++ [Byte.x27].

Definition path_body (indices : list Z) : list byte := concat (map (fun i => Byte.x2f :: index_text i) indices).

(** m/i/j'/... *)
Definition path_text (indices : list Z) : list byte := Byte.x6d :: path_body indices.

Lemma last_digit ds : Forall (fun b => 48 <= Z_of_byte b < 58) ds ->
  match last ds with Some c => (Z_of_byte c =? 39) || (Z_of_byte c =? 104) | None => false end = false.
Proof.
  intros Hds. destruct (last ds) as [c|] eqn:E; [|done]. apply last_Some in E as [l ->].
  apply Forall_app in Hds as [_ Hc]. inversion_clear Hc. by cmps.
Qed.

Lemma parse_index_text i : 0 <= i < 2 ^ 32 -> parse_component (index_text i) = Ok i.
Proof.
  intros Hi. unfold parse_component, index_text. destruct (Z.ltb_spec i (2 ^ 31)).
  - rewrite last_digit by apply decimal_digits_chars. rewrite strtoul_decimal by lia.
    change (zlen (@nil byte)) with 0. cmps. rewrite wrap_small by lia. done.
  - rewrite last_snoc. change (Z_of_byte Byte.x27) with 39. cbn [Z.eqb Pos.eqb orb].
    rewrite removelast_last, strtoul_decimal by lia. change (zlen (@nil byte)) with 0. cmps.
    unfold BIP32_HARDENED_KEY_START. change 0x80000000 with (Z.shiftl 1 31).
    rewrite lor_shiftl_add by lia. rewrite wrap_small by lia. f_equal. lia.
Qed.

(** No character of an index ends a component, and the text fits the buffer of 32 bytes. *)
Lemma index_text_chars i : Forall (fun b => Z_of_byte b <> 47) (index_text i).
Proof.
  unfold index_text. assert (forall v, Forall (fun b => Z_of_byte b <> 47) (print_decimal v)) as Hd.
  { intros v. eapply Forall_impl; [apply decimal_digits_chars|]. cbn. lia. }
  destruct (i <? 2 ^ 31); [done|]. apply Forall_app. split; [done|]. by constructor.
Qed.

Lemma index_text_length i : 0 < zlen (index_text i) <= 21.
Proof.
  unfold index_text. assert (forall v, 0 < zlen (print_decimal v) <= 20) as Hd.
  { intros v. pose proof (decimal_digits_length 20 v). split; [apply zlen_pos, print_decimal_nonempty|].
    unfold zlen, print_decimal. lia. }
  destruct (i <? 2 ^ 31); [specialize (Hd i); lia|]. rewrite zlen_app. specialize (Hd (i - 2 ^ 31)).
  change (zlen [Byte.x27]) with 1. lia.
Qed.

Lemma loop_chars max t : forall rest buffer indices,
  zlen indices < max -> Forall (fun b => Z_of_byte b <> 47) t -> zlen buffer + zlen t <= 31 ->
  parse_path_loop max (t ++ rest) buffer indices = parse_path_loop max rest (buffer ++ t) indices.
Proof.
  induction t as [|c t IH]; intros rest buffer indices Hm Ht Hl; cbn [app]; [by rewrite app_nil_r|].
  inversion_clear Ht. rewrite zlen_cons in Hl. pose proof (zlen_nonneg t).
  cbn [parse_path_loop]. cmps. rewrite IH; try done.
  - by rewrite <- app_assoc.
  - rewrite zlen_app. change (zlen [c]) with 1. lia.
Qed.

(** What remains to do after the loop. *)
Definition finish_path (max_indices : Z) (st : res (list Z * list byte)) : res (list Z) :=
  let? st := st in
  let '(indices, buffer) := st in
  if 0 <? zlen buffer then let? index := parse_component buffer in add_index max_indices indices index
  else Ok indices.

Lemma parse_path_body max indices : forall i before,
  Forall (fun i => 0 <= i < 2 ^ 32) (i :: indices) -> zlen before < max ->
  finish_path max (parse_path_loop max (path_body indices) (index_text i) before) =
  Ok (take (Z.to_nat max) (before ++ i :: indices)).
Proof.
  induction indices as [|j indices IH]; intros i before Hi Hm; inversion_clear Hi as [|? ? Hi1 Hi2];
    pose proof (index_text_length i) as Hl.
  - cbn [path_body map concat parse_path_loop finish_path rbind]. unfold finish_path. cbn [rbind]. cmps.
    rewrite parse_index_text by done. cbn [rbind]. unfold add_index. cmps.
    rewrite take_ge; [done|]. rewrite length_app. unfold zlen in *. cbn. lia.
  - unfold path_body. cbn [map concat]. fold (path_body indices). cbn [app parse_path_loop].
    change (Z_of_byte Byte.x2f) with 47. cbn [Z.eqb Pos.eqb]. cmps.
    rewrite parse_index_text by done. cbn [rbind]. unfold add_index. cmps. cbn [rbind].
    replace (before ++ i :: j :: indices) with ((before ++ [i]) ++ j :: indices) by (by rewrite <- app_assoc).
    assert (zlen (before ++ [i]) = zlen before + 1) as Hz by (rewrite zlen_app; done).
    pose proof (index_text_length j) as Hj. destruct (Z.eq_dec (zlen before + 1) max) as [E|E].
    + destruct (index_text j) as [|c t] eqn:Et; [by destruct Hj|]. cbn [app parse_path_loop]. cmps.
      unfold finish_path. cbn [rbind]. change (zlen (@nil byte)) with 0. cmps.
      rewrite take_app_le; [rewrite take_ge; [done|]|]; unfold zlen in *; lia.
    + rewrite loop_chars; [|lia|apply index_text_chars|change (zlen (@nil byte)) with 0; lia].
      cbn [app]. apply IH; [done|lia].
Qed.

(** The text of a path (decimal indices, a quote behind the hardened ones) is read back
    as its indices; components beyond the room the caller has are dropped without an error,
    and 32 is the room of [neoc_bip32_derive_path_raw]. *)
Theorem path_roundtrip indices max :
  0 <= max -> Forall (fun i => 0 <= i < 2 ^ 32) indices ->
  neoc_bip32_parse_path (Some (path_text indices)) max = Ok (take (Z.to_nat max) indices).
Proof.
  intros Hm Hi. unfold neoc_bip32_parse_path. fold (finish_path max (parse_path_loop max (skip_m (path_text indices)) [] [])).
  destruct indices as [|i indices]; [by rewrite take_nil|]. inversion Hi as [|? ? Hi1 Hi2].
  assert (skip_m (path_text (i :: indices)) = index_text i ++ path_body indices) as -> by done.
  destruct (Z.eq_dec max 0) as [->|Hne].
  - pose proof (index_text_length i) as Hl. destruct (index_text i) as [|c t]; [by destruct Hl|]. done.
  - rewrite loop_chars; [|change (zlen (@nil Z)) with 0; lia|apply index_text_chars|].
    + cbn [app]. apply (parse_path_body max indices i []); [done|]. change (zlen (@nil Z)) with 0. lia.
    + change (zlen (@nil byte)) with 0. pose proof (index_text_length i). lia.
Qed.

Lemma parse_component_safe buffer :
  match parse_component buffer with
  | Ok i => 0 <= i < 2 ^ 32
  | Err e => e = NEOC_ERROR_INVALID_FORMAT
  | Fault => False
  end.
Proof.
  unfold parse_component. destruct (strtoul _) as [index rest]. destruct (_ || _); [done|].
  by apply wrap_range.
Qed.

Lemma parse_path_loop_safe max path : forall buffer indices,
  zlen indices < max \/ zlen indices = max /\ buffer = [] -> Forall (fun i => 0 <= i < 2 ^ 32) indices ->
  match finish_path max (parse_path_loop max path buffer indices) with
  | Ok indices => zlen indices <= max /\ Forall (fun i => 0 <= i < 2 ^ 32) indices
  | Err e => e = NEOC_ERROR_INVALID_FORMAT
  | Fault => False
  end.
Proof.
  induction path as [|c path IH]; intros buffer indices Hm Hi; cbn [parse_path_loop].
  - unfold finish_path. cbn [rbind]. pose proof (parse_component_safe buffer) as Hp.
    destruct (Z.ltb_spec 0 (zlen buffer)); [|split; [lia|done]].
    destruct Hm as [Hm|[_ ->]]; [|by change (zlen (@nil byte)) with 0 in *].
    destruct (parse_component buffer); cbn [rbind]; try done. unfold add_index. cmps.
    rewrite zlen_app, zlen_cons, zlen_nil. split; [lia|]. apply Forall_app. by split; [|constructor].
  - destruct (Z.leb_spec max (zlen indices)).
    { destruct Hm as [Hm|[Hm ->]]; [lia|]. unfold finish_path. cbn. split; [lia|done]. }
    destruct (_ =? 47); [destruct (0 <? zlen buffer)|destruct (31 <=? zlen buffer)]; [|by apply IH; [left|]|done|by apply IH; [left|]].
    pose proof (parse_component_safe buffer) as Hp. destruct (parse_component buffer); cbn [rbind]; try done.
    unfold add_index. cmps. cbn [rbind]. apply IH.
    + rewrite zlen_app, zlen_cons, zlen_nil. destruct (Z.eq_dec (zlen indices + 1) max); [right|left]; [split; [lia|done]|lia].
    + apply Forall_app. by split; [|constructor].
Qed.

(** Any text at all is a safe path: the parser never writes past the array of the caller
    nor past its component buffer, and answers with at most [max] indices of 32 bits or with
    an error. *)
Theorem parse_path_safe path max :
  0 <= max ->
  match neoc_bip32_parse_path path max with
  | Ok indices => zlen indices <= max /\ Forall (fun i => 0 <= i < 2 ^ 32) indices
  | Err e => path = None /\ e = NEOC_ERROR_INVALID_ARGUMENT \/ path <> None /\ e = NEOC_ERROR_INVALID_FORMAT
  | Fault => False
  end.
Proof.
  intros Hm. destruct path as [path|]; [|by left]. unfold neoc_bip32_parse_path.
  fold (finish_path max (parse_path_loop max (skip_m path) [] [])).
  pose proof (parse_path_loop_safe max (skip_m path) [] []) as Hs.
  destruct (finish_path _ _); [apply Hs|right; split; [done|apply Hs]|apply Hs]; try done; change (zlen (@nil Z)) with 0; destruct (Z.eq_dec 0 max); (by left; lia) || (right; split; lia || done).
Qed.

(** ** The text of a key *)

Section Text.
Context `{Allocator} `{Crypto} `{Curve} `{!Ecdsa} `{!HdCurve}.
Hypothesis Hcrypto : crypto_works.
Variable junk : byte.

(** The version says what the key is. *)
Definition version_fits (k : neoc_bip32_key_t) : Prop :=
  if hd_is_private k then hd_version k = MAINNET_PRIVATE \/ hd_version k = TESTNET_PRIVATE
  else hd_version k = MAINNET_PUBLIC \/ hd_version k = TESTNET_PUBLIC.

Lemma version_head k : version_fits k -> exists v, hd_version k = Byte.x04 :: v /\ length v = 3%nat.
Proof.
  unfold version_fits. destruct (hd_is_private k); intros [-> | ->]; eexists; (split; [reflexivity|done]).
Qed.

Lemma zlen_serialized k : hd_wf k -> zlen (serialized_key junk k) = 82.
Proof.
  intros []. unfold serialized_key. rewrite !zlen_app, zlen_replicate. unfold zlen.
  rewrite wf_version0, wf_fingerprint0, wf_chain_code0, wf_key0. done.
Qed.

(** Four bytes put together, most significant first. *)
Lemma be_word a b c d :
  0 <= a < 256 -> 0 <= b < 256 -> 0 <= c < 256 -> 0 <= d < 256 ->
  Z.lor (Z.lor (Z.lor (wrap 32 (Z.shiftl a 24)) (Z.shiftl b 16)) (Z.shiftl c 8)) d =
  a * 2 ^ 24 + b * 2 ^ 16 + c * 2 ^ 8 + d.
Proof.
  intros Ha Hb Hc Hd. rewrite wrap_small by (rewrite Z.shiftl_mul_pow2; lia).
  rewrite (Z.lor_comm (Z.shiftl a 24)), (lor_shiftl_add (Z.shiftl b 16) a)
    by (rewrite ?Z.shiftl_mul_pow2 by lia; lia).
  replace (Z.shiftl b 16 + a * 2 ^ 24) with (Z.shiftl (b + a * 256) 16)
    by (rewrite !Z.shiftl_mul_pow2 by lia; lia).
  rewrite (Z.lor_comm (Z.shiftl (b + a * 256) 16)), (lor_shiftl_add (Z.shiftl c 8))
    by (rewrite ?Z.shiftl_mul_pow2 by lia; lia).
  replace (Z.shiftl c 8 + (b + a * 256) * 2 ^ 16) with (Z.shiftl (c + (b + a * 256) * 256) 8)
    by (rewrite !Z.shiftl_mul_pow2 by lia; lia).
  rewrite Z.lor_comm, lor_shiftl_add by lia. lia.
Qed.

Lemma number_bytes v : 0 <= v < 2 ^ 32 ->
  Z_of_byte (byte_at v 24) * 2 ^ 24 + Z_of_byte (byte_at v 16) * 2 ^ 16 + Z_of_byte (byte_at v 8) * 2 ^ 8 +
  Z_of_byte (byte_at v 0) = v.
Proof.
  intros Hv. unfold byte_at. rewrite !land_255, !Z_of_byte_of_Z, !Z.mod_mod, !Z.shiftr_div_pow2 by lia. dlia.
Qed.

(** What the decoder makes of the bytes of a key. *)
Lemma deserialize_bytes k text :
  hd_wf k -> version_fits k -> neoc_base58_check_decode_alloc junk (Some text) = Ok (serialized_key junk k) ->
  neoc_bip32_deserialize junk (Some text) = Ok k.
Proof.
  intros Hwf Hv E. unfold neoc_bip32_deserialize. rewrite E, zlen_serialized by done. cbn [negb Z.eqb Pos.eqb BIP32_SERIALIZED_SIZE].
  clear E.
  destruct k as [ver depth fp num cc key priv]. destruct Hwf as [H4 Hd Hf Hn Hc Hk].
  cbn [hd_version hd_depth hd_parent_fingerprint hd_child_number hd_chain_code hd_key] in *.
  unfold serialized_key. cbn [hd_version hd_depth hd_parent_fingerprint hd_child_number hd_chain_code hd_key].
  set (nb := [byte_at num 24; byte_at num 16; byte_at num 8; byte_at num 0]). set (j := replicate 4 junk).
  rewrite (bytes_at_front ver _ 4) by (unfold zlen; cbn; lia). cbn [rbind].
  assert ((if bool_decide (ver = MAINNET_PRIVATE) || bool_decide (ver = TESTNET_PRIVATE) then Ok true
           else if bool_decide (ver = MAINNET_PUBLIC) || bool_decide (ver = TESTNET_PUBLIC) then Ok false
           else Err NEOC_ERROR_INVALID_FORMAT) = Ok priv) as ->.
  { unfold version_fits in Hv. cbn in Hv. destruct priv; destruct Hv as [-> | ->]; by vm_compute. }
  cbn [rbind]. rewrite (bytes_at_app ver [byte_of_Z depth] _ 4 1) by (unfold zlen; cbn; lia). cbn [rbind].
  rewrite (app_assoc ver [byte_of_Z depth]).
  rewrite (bytes_at_app _ fp _ 5 4) by (unfold zlen; rewrite ?length_app; cbn; lia). cbn [rbind].
  rewrite (app_assoc _ fp). rewrite (bytes_at_app _ nb _ 9 4) by (unfold zlen; rewrite ?length_app; cbn; lia). cbn [rbind].
  rewrite (app_assoc _ nb). rewrite (bytes_at_app _ cc _ 13 32) by (unfold zlen; rewrite ?length_app; cbn; lia). cbn [rbind].
  rewrite (app_assoc _ cc). rewrite (bytes_at_app _ key _ 45 33) by (unfold zlen; rewrite ?length_app; cbn; lia). cbn [rbind].
  unfold nb. rewrite be_word by apply Z_of_byte_range. rewrite number_bytes by done.
  rewrite Z_of_byte_small by (eval_pows; lia). done.
Qed.

(** An extended key survives its text, which has exactly 117 characters: a buffer of at
    least 118 bytes receives it and [neoc_bip32_deserialize] gives the key back, whatever the
    four bytes of the encoded array hold that the code does not write; every smaller buffer,
    the documented minimum of 112 bytes among them, is refused and left as it was. *)
Theorem extended_key_roundtrip k xkey :
  hd_wf k -> version_fits k -> heap_serves 1024 ->
  if zlen xkey <? 118
  then neoc_bip32_serialize junk k (zlen xkey) xkey = (Err NEOC_ERROR_BUFFER_TOO_SMALL, xkey)
  else exists text, zlen text = 117 /\
    neoc_bip32_serialize junk k (zlen xkey) xkey = (Ok tt, text ++ Byte.x00 :: drop 118 xkey) /\
    cstring (text ++ Byte.x00 :: drop 118 xkey) = text /\
    neoc_bip32_deserialize junk (Some text) = Ok k.
Proof.
  intros Hwf Hv Hh. unfold neoc_bip32_serialize. pose proof (zlen_serialized k Hwf) as Hz.
  destruct (version_head k Hv) as (v & Ev & Hv3).
  destruct (sha256_double_ok Hcrypto (serialized_key junk k)) as (h & Eh & Hh32).
  destruct (check_encode_alloc_text junk (serialized_key junk k) h Eh Hh32) as (s & Ht & E); [lia| |].
  { eapply heap_serves_mono; [done|]. lia. }
  unfold BIP32_SERIALIZED_SIZE. rewrite Hz in E. rewrite E.
  assert (zlen s = 117) as Hs.
  { assert (exists r, serialized_key junk k = Byte.x04 :: r) as [r Er] by (unfold serialized_key; rewrite Ev; by eexists).
    rewrite Er in Ht, Hz. rewrite zlen_cons in Hz. cbn [app] in Ht.
    assert (zlen (r ++ take 4 h) = 85) as H85 by (rewrite zlen_app; unfold zlen in *; rewrite length_take; lia).
    apply (text_length_exact Byte.x04 _ s 117 ltac:(done) Ht); rewrite ?H85; by vm_compute. }
  destruct (Z.ltb_spec (zlen xkey) 118).
  - rewrite Hs. destruct (zlen xkey <? 112); [done|]. by cmps.
  - cmps. rewrite store_first by (rewrite zlen_app, Hs; change (zlen [Byte.x00]) with 1; lia). rewrite length_app, <- app_assoc.
    assert (length s = 117%nat) as -> by (unfold zlen in Hs; lia). exists s. split_and!; try done.
    + apply cstring_app. by eapply text_no_nul.
    + apply deserialize_bytes; try done. rewrite (check_decode_alloc_text junk (serialized_key junk k) h s); try done.
      * rewrite Hz. done.
      * lia.
      * eapply heap_serves_mono; [done|]. lia.
Qed.
End Text.

(** ** A group to run the model with: a multiple of the generator is its factor *)

#[local] Existing Instance toy_curve.

Definition toy_multiple (v : Z) : ec_point :=
  let c := v mod secp256r1_order in
  if c =? 0 then ec_infinity else ec_affine (dexist (component c) (length_component c) : toy_point).

Definition toy_factor (p : ec_point) : Z := match p with ec_infinity => 0 | ec_affine x => BN_bin2bn (`x) end.

Definition toy_hd : HdCurve := {|
  EC_order := secp256r1_order;
  EC_KEY_set_private_key v := (0 <? v) && (v <? secp256r1_order);
  EC_POINT_mul v := Some (toy_multiple v);
  EC_POINT_add p q := Some (toy_multiple (toy_factor p + toy_factor q));
  HMAC_sha512 k d := Some (le_bytes 64 (toy_mix (k ++ d) ^ 5))
|}.

#[local] Existing Instance toy_hd.

Lemma toy_factor_multiple v : toy_factor (toy_multiple v) = v mod secp256r1_order.
Proof.
  unfold toy_multiple. pose proof (Z.mod_pos_bound v secp256r1_order ltac:(done)).
  destruct (Z.eqb_spec (v mod secp256r1_order) 0); [done|]. cbn. apply bin2bn_component.
  unfold secp256r1_order in *. lia.
Qed.

Lemma toy_multiple_mod v : toy_multiple (v mod secp256r1_order) = toy_multiple v.
Proof. unfold toy_multiple. by rewrite Z.mod_mod by done. Qed.

Lemma toy_hd_works : hd_works.
Proof.
  split; cbn [EC_order EC_KEY_set_private_key EC_POINT_mul EC_POINT_add HMAC_sha512 toy_hd].
  - done.
  - intros v Hv. by cmps.
  - intros v _. eexists. split; [done|]. unfold toy_multiple. destruct (Z.eqb_spec (v mod secp256r1_order) 0); done.
  - intros a b p q _ _ [= <-] [= <-]. rewrite !toy_factor_multiple, toy_multiple_mod. f_equal.
    rewrite <- toy_multiple_mod. by rewrite <- Z.add_mod, toy_multiple_mod by done.
  - intros k d. eexists. split; [done|]. apply length_le_bytes.
Qed.

(** A master key, of the private key 5. *)
Definition sample_master : neoc_bip32_key_t :=
  mk_bip32_key MAINNET_PRIVATE 0 (replicate 4 Byte.x00) 0 (replicate 32 Byte.x07) (Byte.x00 :: component 5) true.

Lemma sample_master_wf : hd_wf sample_master.
Proof. by split. Qed.

Lemma sample_master_private : holds_private sample_master 5.
Proof. split_and!; by vm_compute. Qed.

#[local] Existing Instance toy_crypto.
#[local] Existing Instance mib_heap.

Lemma public_derivation_commutes_witness :
  exists key,
    (let? pub := neoc_bip32_get_public_key sample_master in neoc_bip32_derive_path_indices pub [0; 7; 2 ^ 31 - 1]) = Ok key /\
    (let? c := neoc_bip32_derive_path_indices sample_master [0; 7; 2 ^ 31 - 1] in neoc_bip32_get_public_key c) = Ok key.
Proof.
  pose proof (public_derivation_commutes toy_curve_works toy_hd_works [0; 7; 2 ^ 31 - 1] sample_master 5
    sample_master_wf sample_master_private ltac:(repeat constructor; lia)) as E.
  assert (exists key, (let? c := neoc_bip32_derive_path_indices sample_master [0; 7; 2 ^ 31 - 1] in
            neoc_bip32_get_public_key c) = Ok key) as [key Ek] by (vm_compute; eexists; reflexivity).
  exists key. split; [exact (eq_trans E Ek)|exact Ek].
Defined.

Lemma path_derivation_valid_witness :
  exists key, neoc_bip32_derive_path_indices sample_master (neoc_bip32_get_neo_path 0 0 3) = Ok key /\
    hd_depth key = 5 /\ hd_child_number key = 3 /\ hd_parent_fingerprint key = replicate 4 Byte.x00.
Proof.
  pose proof (path_derivation_valid toy_curve_works toy_hd_works (neoc_bip32_get_neo_path 0 0 3) sample_master
    ltac:(split; [apply sample_master_wf|left; exists 5; apply sample_master_private])
    ltac:(apply (bool_decide_unpack _); vm_compute; exact I)) as E.
  assert (exists key, neoc_bip32_derive_path_indices sample_master (neoc_bip32_get_neo_path 0 0 3) = Ok key)
    as [key Ek] by (vm_compute; eexists; reflexivity).
  rewrite Ek in E. exists key. destruct E as (_ & _ & _ & -> & -> & ->). split; [exact Ek|]. split_and!; vm_compute; reflexivity.
Defined.

Lemma path_roundtrip_witness :
  path_text (neoc_bip32_get_neo_path 2 0 15) = str "m/44'/888'/2'/0/15" /\
  neoc_bip32_parse_path (Some (path_text (neoc_bip32_get_neo_path 2 0 15))) 32 = Ok (neoc_bip32_get_neo_path 2 0 15).
Proof.
  split; [by vm_compute|].
  exact (path_roundtrip (neoc_bip32_get_neo_path 2 0 15) 32 ltac:(lia) ltac:(apply (bool_decide_unpack _); vm_compute; exact I)).
Defined.

Lemma parse_path_safe_witness :
  exists indices, neoc_bip32_parse_path (Some (str "M//'/+7h/ 9")) 2 = Ok indices /\ zlen indices <= 2.
Proof.
  pose proof (parse_path_safe (Some (str "M//'/+7h/ 9")) 2 ltac:(lia)) as E.
  destruct (neoc_bip32_parse_path _ _) as [indices| |] eqn:Ep; [|by vm_compute in Ep..].
  exists indices. split; [done|]. apply E.
Defined.

Lemma extended_key_roundtrip_witness :
  exists text, neoc_bip32_serialize Byte.xcd sample_master 118 (replicate 118 Byte.x00) = (Ok tt, text ++ [Byte.x00]) /\
    neoc_bip32_deserialize Byte.xcd (Some text) = Ok sample_master.
Proof.
  pose proof (extended_key_roundtrip toy_crypto_works Byte.xcd sample_master (replicate 118 Byte.x00)
    sample_master_wf ltac:(by left) ltac:(by apply mib_heap_serves)) as E.
  destruct E as (text & _ & E & _ & D). exists text. by split.
Defined.
