(* ===== verification/EcPoint.v ===== *)
(** * Points of the curve (src/crypto/ecpoint.c)

    Points as encoded bytes, with conversion between the compressed and the uncompressed form,
    coordinates, multiplication and comparison.  The arithmetic is OpenSSL's: the class
    [PointArith] adds to [Curve] what this file calls, and [sec1_works] is what the code relies
    on, the layout of the encodings of SEC 1.  Memory that OpenSSL allocates for itself is taken
    to be there. *)

From S2P Require Import Prelude Hex EcKey Signature KeyPair Bip32.
#[local] Open Scope Z_scope.

Class PointArith `{Curve} := {
  (** [EC_POINT_mul] with a point and no generator; [None] when the call fails. *)
  EC_POINT_times : EC_POINT -> Z -> option ec_point;
  EC_POINT_is_on_curve : EC_POINT -> bool
}.

Definition head_in (bs : list byte) (heads : list Z) : bool :=
  match bs with b :: _ => bool_decide (Z_of_byte b ∈ heads) | [] => false end.

Record sec1_works `{PointArith} : Prop := {
  sec1_curve : curve_works;
  sec1_layout p : exists b x y, head_in [b] [2; 3] = true /\ length x = 32%nat /\ length y = 32%nat /\
    EC_POINT_point2oct true p = b :: x /\ EC_POINT_point2oct false p = Byte.x04 :: x ++ y;
  sec1_decode p : EC_POINT_oct2point (EC_POINT_point2oct false p) = Some p;
  sec1_encode bs p : zlen bs = 65 -> head_in bs [4] = true -> EC_POINT_oct2point bs = Some p ->
    EC_POINT_point2oct false p = bs;
  sec1_on_curve bs p : EC_POINT_oct2point bs = Some p -> EC_POINT_is_on_curve p = true
}.

Record neoc_ec_point_t := mk_ec_point {
  ep_encoded : option (list byte);
  ep_encoded_len : Z;
  ep_is_infinity : bool
}.

Definition ec_point_struct_size : Z := 24.
Definition EC_POINT_COMPRESSED_SIZE : Z := 33.
Definition EC_POINT_UNCOMPRESSED_SIZE : Z := 65.
Definition EC_SCALAR_SIZE : Z := 32.

Section Operations.
Context `{Allocator} `{PointArith}.
Variable junk : byte.

Definition neoc_ec_point_create (encoded : option (list byte)) (encoded_len : Z) : res neoc_ec_point_t :=
  match encoded with
  | None => Err NEOC_ERROR_INVALID_PARAM
  | Some encoded =>
      if negb (encoded_len =? EC_POINT_COMPRESSED_SIZE) && negb (encoded_len =? EC_POINT_UNCOMPRESSED_SIZE)
      then Err NEOC_ERROR_INVALID_PARAM
      else
        let? head := memcpy_from encoded 1 in
        if negb (head_in head (if encoded_len =? EC_POINT_COMPRESSED_SIZE then [2; 3] else [4]))
        then Err NEOC_ERROR_INVALID_PARAM
        else if negb (neoc_malloc_ok ec_point_struct_size) || negb (neoc_malloc_ok encoded_len)
        then Err NEOC_ERROR_OUT_OF_MEMORY
        else
          let? copy := memcpy_from encoded encoded_len in
          match EC_POINT_oct2point copy with
          | None => Err NEOC_ERROR_INVALID_PARAM
          | Some _ => Ok (mk_ec_point (Some copy) encoded_len false)
          end
  end.

Definition neoc_ec_point_from_hex (hex_string : option (list byte)) : res neoc_ec_point_t :=
  match hex_string with
  | None => Err NEOC_ERROR_INVALID_PARAM
  | Some _ =>
      match neoc_hex_decode_alloc junk hex_string with
      | Fault => Fault
      | Err _ => Err NEOC_ERROR_INVALID_HEX
      | Ok bytes => neoc_ec_point_create (Some bytes) (zlen bytes)
      end
  end.

Definition neoc_ec_point_create_infinity : res neoc_ec_point_t :=
  if negb (neoc_malloc_ok ec_point_struct_size) then Err NEOC_ERROR_OUT_OF_MEMORY
  else Ok (mk_ec_point None 0 true).

(** The stored bytes as OpenSSL reads them. *)
Definition stored_octets (point : neoc_ec_point_t) : res (list byte) :=
  match ep_encoded point with None => Fault | Some encoded => memcpy_from encoded (ep_encoded_len point) end.

Definition neoc_ec_point_get_encoded (point : neoc_ec_point_t) (compressed : bool) : res (list byte * Z) :=
  if ep_is_infinity point then Err NEOC_ERROR_INVALID_PARAM
  else if eqb compressed (ep_encoded_len point =? EC_POINT_COMPRESSED_SIZE) then
    if negb (neoc_malloc_ok (ep_encoded_len point)) then Err NEOC_ERROR_OUT_OF_MEMORY
    else let? copy := stored_octets point in Ok (copy, ep_encoded_len point)
  else
    let? octets := stored_octets point in
    match EC_POINT_oct2point octets with
    | None => Err NEOC_ERROR_INVALID_PARAM
    | Some p =>
        let output_len := if compressed then EC_POINT_COMPRESSED_SIZE else EC_POINT_UNCOMPRESSED_SIZE in
        if negb (neoc_malloc_ok output_len) then Err NEOC_ERROR_OUT_OF_MEMORY
        else
          let out := EC_POINT_point2oct compressed p in
          if negb (zlen out =? output_len) then Err NEOC_ERROR_INVALID_PARAM else Ok (out, output_len)
    end.

(** The point at infinity encodes as one byte, in either form. *)
Definition point2oct (compressed : bool) (p : ec_point) : list byte :=
  match p with ec_infinity => [Byte.x00] | ec_affine p => EC_POINT_point2oct compressed p end.

Definition neoc_ec_point_multiply (point : neoc_ec_point_t) (k : option (list byte)) : res neoc_ec_point_t :=
  match k with
  | None => Err NEOC_ERROR_INVALID_PARAM
  | Some k =>
      if ep_is_infinity point then neoc_ec_point_create_infinity
      else
        let? octets := stored_octets point in
        match EC_POINT_oct2point octets with
        | None => Err NEOC_ERROR_INVALID_PARAM
        | Some p =>
            let? scalar := memcpy_from k EC_SCALAR_SIZE in
            match EC_POINT_times p (BN_bin2bn scalar) with
            | None => Err NEOC_ERROR_INVALID_PARAM
            | Some r =>
                let compressed := ep_encoded_len point =? EC_POINT_COMPRESSED_SIZE in
                let output_len := if compressed then EC_POINT_COMPRESSED_SIZE else EC_POINT_UNCOMPRESSED_SIZE in
                if negb (neoc_malloc_ok output_len) then Err NEOC_ERROR_OUT_OF_MEMORY
                else
                  let encoded_result := point2oct compressed r in
                  if negb (zlen encoded_result =? output_len) then Err NEOC_ERROR_INVALID_PARAM
                  else neoc_ec_point_create (Some encoded_result) output_len
            end
        end
  end.

Definition neoc_ec_point_is_infinity (point : neoc_ec_point_t) : bool := ep_is_infinity point.

Definition neoc_ec_point_is_valid (point : neoc_ec_point_t) : res bool :=
  if ep_is_infinity point then Ok true
  else
    match ep_encoded point with
    | None => Ok false
    | Some _ =>
        let? octets := stored_octets point in
        match EC_POINT_oct2point octets with None => Ok false | Some p => Ok (EC_POINT_is_on_curve p) end
    end.

(** 32 bytes of an encoding from [i] on. *)
Definition coordinate (bs : list byte) (i : Z) : res (list byte) :=
  match buf_slice bs i EC_SCALAR_SIZE with Some c => Ok c | None => Fault end.

Definition neoc_ec_point_get_x (point : neoc_ec_point_t) : res (list byte) :=
  if ep_is_infinity point then Err NEOC_ERROR_INVALID_PARAM
  else if (ep_encoded_len point =? EC_POINT_COMPRESSED_SIZE) || (ep_encoded_len point =? EC_POINT_UNCOMPRESSED_SIZE) then
    match ep_encoded point with None => Fault | Some encoded => coordinate encoded 1 end
  else Err NEOC_ERROR_INVALID_PARAM.

Definition neoc_ec_point_get_y (point : neoc_ec_point_t) : res (list byte) :=
  if ep_is_infinity point then Err NEOC_ERROR_INVALID_PARAM
  else if ep_encoded_len point =? EC_POINT_UNCOMPRESSED_SIZE then
    match ep_encoded point with None => Fault | Some encoded => coordinate encoded (1 + EC_SCALAR_SIZE) end
  else if ep_encoded_len point =? EC_POINT_COMPRESSED_SIZE then
    let? uncompressed := neoc_ec_point_get_encoded point false in
    coordinate (fst uncompressed) (1 + EC_SCALAR_SIZE)
  else Err NEOC_ERROR_INVALID_PARAM.

Definition neoc_ec_point_equals (point1 point2 : neoc_ec_point_t) : res bool :=
  if ep_is_infinity point1 && ep_is_infinity point2 then Ok true
  else if ep_is_infinity point1 || ep_is_infinity point2 then Ok false
  else
    let? x1 := neoc_ec_point_get_x point1 in
    let? x2 := neoc_ec_point_get_x point2 in
    if negb (bool_decide (x1 = x2)) then Ok false
    else
      let? y1 := neoc_ec_point_get_y point1 in
      let? y2 := neoc_ec_point_get_y point2 in
      Ok (bool_decide (y1 = y2)).

Definition neoc_ec_point_to_hex (point : neoc_ec_point_t) (compressed : bool) : res (list byte) :=
  if ep_is_infinity point then Err NEOC_ERROR_INVALID_PARAM
  else
    let? '(encoded, encoded_len) := neoc_ec_point_get_encoded point compressed in
    match neoc_hex_encode_alloc junk (Some encoded) encoded_len false false with
    | Ok hex => Ok hex
    | Err _ => Err NEOC_ERROR_OUT_OF_MEMORY
    | Fault => Fault
    end.
End Operations.

(** ** Specification *)

(** The point an object stands for. *)
Definition stands_for `{Curve} (e : neoc_ec_point_t) (p : ec_point) : Prop :=
  match p with
  | ec_infinity => e = mk_ec_point None 0 true
  | ec_affine p => exists compressed,
      e = mk_ec_point (Some (EC_POINT_point2oct compressed p)) (if compressed then 33 else 65) false
  end.

Section Proofs.
Context `{Allocator} `{PointArith}.
Variable junk : byte.
Hypothesis Hs : sec1_works.

Lemma octets_size c p : zlen (EC_POINT_point2oct c p) = if c then 33 else 65.
Proof. destruct c; [apply (works_compressed_size (sec1_curve Hs))|apply (works_uncompressed_size (sec1_curve Hs))]. Qed.

Lemma octets_decode c p : EC_POINT_oct2point (EC_POINT_point2oct c p) = Some p.
Proof. destruct c; [apply (works_decode (sec1_curve Hs))|apply (sec1_decode Hs)]. Qed.

Lemma octets_inj c p q : EC_POINT_point2oct c p = EC_POINT_point2oct c q -> p = q.
Proof. intros E. apply (f_equal EC_POINT_oct2point) in E. rewrite !octets_decode in E. by injection E. Qed.

(** The first byte of an encoding passes the check of its format. *)
Lemma octets_head c p : exists b rest, EC_POINT_point2oct c p = b :: rest /\
  head_in [b] (if (if c then 33 else 65) =? EC_POINT_COMPRESSED_SIZE then [2; 3] else [4]) = true.
Proof.
  destruct (sec1_layout Hs p) as (b & x & y & Hb & _ & _ & Ec & Eu).
  destruct c; [exists b, x|exists Byte.x04, (x ++ y)]; done.
Qed.

Lemma memcpy_from_head b rest : memcpy_from (b :: rest) 1 = Ok [b].
Proof.
  unfold memcpy_from, buf_slice. rewrite zlen_cons. pose proof (zlen_nonneg rest). cmps. done.
Qed.

Lemma create_ok c p : heap_serves 128 ->
  neoc_ec_point_create (Some (EC_POINT_point2oct c p)) (if c then 33 else 65) =
  Ok (mk_ec_point (Some (EC_POINT_point2oct c p)) (if c then 33 else 65) false).
Proof.
  intros Hh. unfold neoc_ec_point_create. destruct (octets_head c p) as (b & rest & E & Hb).
  assert (negb ((if c then 33 else 65) =? EC_POINT_COMPRESSED_SIZE) && negb ((if c then 33 else 65) =? EC_POINT_UNCOMPRESSED_SIZE) = false)
    as -> by (by destruct c).
  rewrite E at 1. rewrite memcpy_from_head. cbn [rbind]. rewrite Hb. cbn [negb].
  unfold neoc_malloc_ok, ec_point_struct_size. rewrite !Hh by (destruct c; lia).
  assert ((if (if c then 33 else 65) =? 0 then false else true) = true) as -> by (by destruct c). cbn [Z.eqb negb orb].
  rewrite (memcpy_from_all _ _ (octets_size c p)). cbn [rbind]. by rewrite octets_decode.
Qed.

Lemma slice_head bs n h copy heads :
  0 < n -> buf_slice bs 0 1 = Some h -> buf_slice bs 0 n = Some copy -> head_in copy heads = head_in h heads.
Proof.
  intros Hn. unfold buf_slice. destruct (_ && _); [|done]. intros [= <-]. destruct (_ && _); [|done]. intros [= <-].
  destruct bs as [|b bs]; [by destruct (Z.to_nat n)|]. destruct (Z.to_nat n) eqn:E; [lia|done].
Qed.

(** Whatever bytes come in, an object that is made stands for a point of the curve. *)
Lemma create_stands bs n e :
  neoc_ec_point_create bs n = Ok e -> exists p, stands_for e (ec_affine p).
Proof.
  unfold neoc_ec_point_create. destruct bs as [bs|]; [|done].
  destruct (negb (n =? EC_POINT_COMPRESSED_SIZE) && negb (n =? EC_POINT_UNCOMPRESSED_SIZE)) eqn:En; [done|].
  destruct (memcpy_from bs 1) as [head| |] eqn:Eh; [|done|done]. cbn [rbind].
  destruct (head_in head _) eqn:Ehd; [|done]. cbn [negb]. destruct (negb _ || negb _); [done|].
  destruct (memcpy_from bs n) as [copy| |] eqn:Ec; [|done|done]. cbn [rbind].
  destruct (EC_POINT_oct2point copy) as [p|] eqn:Ep; [|done]. intros [= <-].
  unfold memcpy_from in Eh, Ec. destruct (buf_slice bs 0 1) as [h|] eqn:Sh; [|done]. injection Eh as ->.
  destruct (buf_slice bs 0 n) as [cp|] eqn:Sc; [|done]. injection Ec as ->.
  assert (0 < n) as Hn by (unfold EC_POINT_COMPRESSED_SIZE, EC_POINT_UNCOMPRESSED_SIZE in En; lia).
  rewrite <- (slice_head bs n head copy _ Hn Sh Sc) in Ehd. apply buf_slice_length in Sc.
  exists p. cbn. exists (n =? 33). unfold EC_POINT_COMPRESSED_SIZE, EC_POINT_UNCOMPRESSED_SIZE in *.
  destruct (n =? 33) eqn:E33; bdestruct.
  - subst n. by rewrite (works_encode (sec1_curve Hs) copy p).
  - assert (n = 65) as -> by (destruct (n =? 65) eqn:E65; bdestruct; done). by rewrite (sec1_encode Hs copy p).
Qed.

Lemma get_encoded_ok e p c : stands_for e (ec_affine p) -> heap_serves 128 ->
  neoc_ec_point_get_encoded e c = Ok (EC_POINT_point2oct c p, if c then 33 else 65).
Proof.
  intros [c' ->] Hh. unfold neoc_ec_point_get_encoded, stored_octets, neoc_malloc_ok. cbn [ep_is_infinity ep_encoded_len ep_encoded].
  rewrite (memcpy_from_all _ _ (octets_size c' p)). cbn [rbind]. rewrite octets_decode.
  destruct c, c'; cbn -[zlen]; unfold EC_POINT_COMPRESSED_SIZE, EC_POINT_UNCOMPRESSED_SIZE; rewrite Hh by lia;
    cbn -[zlen]; rewrite ?octets_size; done.
Qed.

Lemma coordinates p : exists b x y, head_in [b] [2; 3] = true /\ length x = 32%nat /\ length y = 32%nat /\
  forall e, stands_for e (ec_affine p) -> heap_serves 128 -> neoc_ec_point_get_x e = Ok x /\ neoc_ec_point_get_y e = Ok y /\
    EC_POINT_point2oct false p = Byte.x04 :: x ++ y.
Proof.
  destruct (sec1_layout Hs p) as (b & x & y & Hb & Hx & Hy & Ec & Eu). exists b, x, y. split_and!; [done..|].
  assert (forall a : byte, coordinate (a :: x) 1 = Ok x) as Hcx1.
  { intros a. unfold coordinate, EC_SCALAR_SIZE. pose proof (buf_slice_app [a] x []) as Hb'. rewrite app_nil_r in Hb'. change (zlen [a]) with 1 in Hb'. cbn [app] in Hb'.
    replace (zlen x) with 32 in Hb' by (unfold zlen; lia). by rewrite Hb'. }
  assert (coordinate (Byte.x04 :: x ++ y) 1 = Ok x) as Hcx2.
  { unfold coordinate, EC_SCALAR_SIZE. pose proof (buf_slice_app [Byte.x04] x y) as Hb'. change (zlen [Byte.x04]) with 1 in Hb'. cbn [app] in Hb'.
    replace (zlen x) with 32 in Hb' by (unfold zlen; lia). by rewrite Hb'. }
  assert (coordinate (Byte.x04 :: x ++ y) 33 = Ok y) as Hcy.
  { unfold coordinate, EC_SCALAR_SIZE. pose proof (buf_slice_app (Byte.x04 :: x) y []) as Hb'. rewrite app_nil_r in Hb'. cbn [app] in Hb'.
    replace (zlen y) with 32 in Hb' by (unfold zlen; lia). replace (zlen (Byte.x04 :: x)) with 33 in Hb' by (rewrite zlen_cons; unfold zlen; lia).
    by rewrite Hb'. }
  intros e He Hh. pose proof (get_encoded_ok e p false He Hh) as Eg. destruct He as [c ->].
  unfold neoc_ec_point_get_x, neoc_ec_point_get_y. rewrite Eg. cbn [ep_is_infinity ep_encoded_len ep_encoded fst rbind].
  destruct c; cbn [Z.eqb Pos.eqb orb EC_POINT_COMPRESSED_SIZE EC_POINT_UNCOMPRESSED_SIZE]; rewrite ?Ec, ?Eu;
    unfold EC_POINT_COMPRESSED_SIZE, EC_POINT_UNCOMPRESSED_SIZE; cbn [Z.eqb Pos.eqb orb];
    change (1 + EC_SCALAR_SIZE) with 33; by rewrite ?Hcx1, ?Hcx2, ?Hcy.
Qed.
End Proofs.

(** ** Claims *)

(** Two objects compare equal exactly when they stand for the same point, whichever forms they store. *)
Theorem ec_point_equals_decides `{Allocator} `{PointArith} e1 e2 p1 p2 :
  sec1_works -> heap_serves 128 -> stands_for e1 p1 -> stands_for e2 p2 ->
  exists b, neoc_ec_point_equals e1 e2 = Ok b /\ (b = true <-> p1 = p2).
Proof.
  intros Hs Hh Hp1 Hp2. unfold neoc_ec_point_equals.
  destruct p1 as [|p1], p2 as [|p2]; try (cbn in Hp1; subst e1); try (cbn in Hp2; subst e2).
  - by exists true.
  - destruct Hp2 as [c ->]. cbn. by exists false.
  - destruct Hp1 as [c ->]. cbn. by exists false.
  - destruct (coordinates Hs p1) as (b1 & x1 & y1 & _ & Hx1 & _ & E1). destruct (coordinates Hs p2) as (b2 & x2 & y2 & _ & Hx2 & _ & E2).
    destruct (E1 e1 Hp1 Hh) as (-> & -> & U1). destruct (E2 e2 Hp2 Hh) as (-> & -> & U2).
    assert (ep_is_infinity e1 = false) as -> by (by destruct Hp1 as [? ->]).
    assert (ep_is_infinity e2 = false) as -> by (by destruct Hp2 as [? ->]). cbn [andb orb rbind].
    assert (ec_affine p1 = ec_affine p2 <-> x1 = x2 /\ y1 = y2) as Heq.
    { split.
      - intros [= <-]. rewrite U1 in U2. injection U2 as U2. by apply app_inj_1 in U2; [|lia].
      - intros [<- <-]. f_equal. apply (octets_inj Hs false). by rewrite U1, U2. }
    destruct (bool_decide (x1 = x2)) eqn:Ex; cbn [negb].
    + apply bool_decide_eq_true in Ex. exists (bool_decide (y1 = y2)). split; [done|]. rewrite Heq, bool_decide_eq_true. by split; [|intros [_ ?]].
    + apply bool_decide_eq_false in Ex. exists false. split; [done|]. rewrite Heq. by split; [|intros [? _]].
Qed.

(** Multiplication is that of the curve, in the form of the operand; a product at infinity is reported as an error, although
    the point at infinity has objects of its own and times anything is itself. *)
Theorem ec_point_multiply_refines `{Allocator} `{PointArith} e p k :
  sec1_works -> heap_serves 128 -> stands_for e p -> zlen k = 32 ->
  match p with
  | ec_infinity => exists e', neoc_ec_point_multiply e (Some k) = Ok e' /\ stands_for e' ec_infinity
  | ec_affine p =>
      match EC_POINT_times p (BN_bin2bn k) with
      | Some (ec_affine q) => exists e', neoc_ec_point_multiply e (Some k) = Ok e' /\ stands_for e' (ec_affine q)
      | _ => neoc_ec_point_multiply e (Some k) = Err NEOC_ERROR_INVALID_PARAM
      end
  end.
Proof.
  intros Hs Hh He Hk. unfold neoc_ec_point_multiply. destruct p as [|p]; cbn in He.
  - subst e. cbn [ep_is_infinity]. unfold neoc_ec_point_create_infinity, neoc_malloc_ok, ec_point_struct_size. rewrite Hh by lia.
    by exists (mk_ec_point None 0 true).
  - destruct He as [c ->]. unfold stored_octets. cbn [ep_is_infinity ep_encoded ep_encoded_len].
    rewrite (memcpy_from_all _ _ (octets_size Hs c p)). cbn [rbind]. rewrite (octets_decode Hs).
    rewrite (memcpy_from_all k EC_SCALAR_SIZE Hk). cbn [rbind]. destruct (EC_POINT_times p (BN_bin2bn k)) as [[|q]|]; [| |done].
    + assert (forall n, 1 < n <= 128 -> neoc_malloc_ok n = true) as Hm by (intros n Hn; unfold neoc_malloc_ok; cmps; apply Hh; lia).
      destruct c; cbn [Z.eqb Pos.eqb EC_POINT_COMPRESSED_SIZE]; unfold EC_POINT_COMPRESSED_SIZE, EC_POINT_UNCOMPRESSED_SIZE;
        cbn [Z.eqb Pos.eqb]; rewrite Hm by lia; done.
    + assert (forall n, 1 < n <= 128 -> neoc_malloc_ok n = true) as Hm by (intros n Hn; unfold neoc_malloc_ok; cmps; apply Hh; lia).
      pose proof (octets_size Hs c q) as Hq. pose proof (create_ok Hs c q Hh) as Ec.
      exists (mk_ec_point (Some (EC_POINT_point2oct c q)) (if c then 33 else 65) false). split; [|by exists c].
      unfold EC_POINT_COMPRESSED_SIZE, EC_POINT_UNCOMPRESSED_SIZE; destruct c; cbn [Z.eqb Pos.eqb point2oct] in *;
        rewrite Hm by lia; cbn [negb]; rewrite Hq; exact Ec.
Qed.

(** Hexadecimal text in either form is read back as the same point. *)
Theorem ec_point_hex_roundtrip `{Allocator} `{PointArith} junk e p compressed :
  sec1_works -> heap_serves 256 -> stands_for e (ec_affine p) ->
  exists text e', neoc_ec_point_to_hex junk e compressed = Ok text /\ neoc_ec_point_from_hex junk (Some text) = Ok e' /\
    stands_for e' (ec_affine p).
Proof.
  intros Hs Hh He. assert (heap_serves 128) as Hh' by (eapply heap_serves_mono; [exact Hh|lia]).
  pose proof (octets_size Hs compressed p) as Hl.
  assert (EC_POINT_point2oct compressed p <> []) as Hne by (intros E; rewrite E in Hl; by destruct compressed).
  exists (hex_of false (EC_POINT_point2oct compressed p)), (mk_ec_point (Some (EC_POINT_point2oct compressed p)) (if compressed then 33 else 65) false).
  split_and!; [| |by exists compressed].
  - unfold neoc_ec_point_to_hex. assert (ep_is_infinity e = false) as -> by (by destruct He as [? ->]).
    rewrite (get_encoded_ok Hs e p) by done. cbn [rbind]. rewrite <- Hl.
    rewrite (hex_encode_alloc_text junk _ false false); [done|done|destruct compressed; lia|].
    eapply heap_serves_mono; [exact Hh|]. destruct compressed; lia.
  - unfold neoc_ec_point_from_hex. rewrite (hex_decode_alloc_text junk (EC_POINT_point2oct compressed p) false false); [|done|destruct compressed; lia|].
    + rewrite Hl. by apply create_ok.
    + eapply heap_serves_mono; [exact Hh|]. destruct compressed; lia.
Qed.

(** ** A curve for the witnesses *)

Definition toy_of (x : list byte) : option toy_point :=
  match decide (length x = 32%nat) with left E => Some (dexist x E) | right _ => None end.

(** [y] is [x] on this curve. *)
Definition sec1_curve_toy : Curve := {|
  EC_POINT := toy_point;
  EC_POINT_oct2point bs :=
    match bs with
    | Byte.x02 :: x => toy_of x
    | Byte.x04 :: xy => if bool_decide (take 32 xy = drop 32 xy) then toy_of (take 32 xy) else None
    | _ => None
    end;
  EC_POINT_point2oct compressed p := if compressed then Byte.x02 :: `p else Byte.x04 :: `p ++ `p
|}.

Definition sec1_toy : @PointArith sec1_curve_toy := {|
  EC_POINT_times p k := Some (if k =? 0 then @ec_infinity sec1_curve_toy else @ec_affine sec1_curve_toy p);
  EC_POINT_is_on_curve _ := true
|}.

Lemma toy_of_point (p : toy_point) : toy_of (`p) = Some p.
Proof.
  destruct p as [x Hx]. pose proof (bool_decide_unpack _ Hx) as E. unfold toy_of. cbn.
  destruct (decide _) as [E'|E']; [|done]. f_equal. by apply dsig_eq.
Qed.

Lemma toy_of_some x p : toy_of x = Some p -> `p = x.
Proof. unfold toy_of. destruct (decide _); [|done]. by intros [= <-]. Qed.

Lemma toy_of_length x p : toy_of x = Some p -> length x = 32%nat.
Proof. unfold toy_of. by destruct (decide _). Qed.

Lemma toy_point_length (p : toy_point) : length (`p) = 32%nat.
Proof. destruct p as [x Hx]. exact (bool_decide_unpack _ Hx). Qed.

Lemma toy_uncompressed (p : toy_point) : @EC_POINT_oct2point sec1_curve_toy (Byte.x04 :: `p ++ `p) = Some p.
Proof.
  pose proof (toy_point_length p) as Hl. cbn [EC_POINT_oct2point sec1_curve_toy].
  rewrite take_app_length', drop_app_length' by done. rewrite bool_decide_true by done. apply toy_of_point.
Qed.

Lemma sec1_toy_works : @sec1_works sec1_curve_toy sec1_toy.
Proof.
  split.
  - split; cbn.
    + intros p. rewrite zlen_cons. unfold zlen. rewrite toy_point_length. done.
    + intros p. rewrite zlen_cons, zlen_app. unfold zlen. rewrite toy_point_length. done.
    + apply toy_of_point.
    + intros bs p Hl E. destruct bs as [|b x]; [done|]. destruct b; try discriminate E.
      * apply toy_of_some in E. by rewrite E.
      * destruct (bool_decide _) eqn:Eb; [|done]. exfalso. apply toy_of_length in E. apply bool_decide_eq_true in Eb. pose proof (f_equal length (take_drop 32 x)) as Hx.
        rewrite length_app, <- Eb, E in Hx. rewrite zlen_cons in Hl. unfold zlen in Hl. lia.
  - intros p. exists Byte.x02, (`p), (`p). pose proof (toy_point_length p). done.
  - apply toy_uncompressed.
  - intros bs p Hl Hh E. destruct bs as [|b xy]; [done|]. destruct b; try discriminate E; [by vm_compute in Hh|].
    cbn in E |- *. destruct (bool_decide _) eqn:Eb; [|done]. apply toy_of_some in E. apply bool_decide_eq_true in Eb.
    rewrite E. rewrite Eb at 2. by rewrite take_drop.
  - done.
Qed.

Section Samples.
#[local] Existing Instance mib_heap.
#[local] Existing Instance sec1_curve_toy.
#[local] Existing Instance sec1_toy.

Definition sample_toy (n : Z) : EC_POINT := dexist (le_bytes 32 n) (length_le_bytes 32 n).

Definition sample_ec_point (compressed : bool) (n : Z) : neoc_ec_point_t :=
  mk_ec_point (Some (EC_POINT_point2oct compressed (sample_toy n))) (if compressed then 33 else 65) false.

Lemma sample_stands compressed n : stands_for (sample_ec_point compressed n) (ec_affine (sample_toy n)).
Proof. by exists compressed. Qed.

(** The two forms of one point. *)
Lemma ec_point_equals_decides_witness :
  exists b, neoc_ec_point_equals (sample_ec_point true 7) (sample_ec_point false 7) = Ok b /\ (b = true <-> ec_affine (sample_toy 7) = ec_affine (sample_toy 7)).
Proof.
  apply (ec_point_equals_decides (sample_ec_point true 7) (sample_ec_point false 7) (ec_affine (sample_toy 7)) (ec_affine (sample_toy 7)) sec1_toy_works);
    [apply mib_heap_serves; lia|apply sample_stands|apply sample_stands].
Defined.

(** Zero times a point. *)
Lemma ec_point_multiply_refines_witness :
  neoc_ec_point_multiply (sample_ec_point true 7) (Some (replicate 32 Byte.x00)) = Err NEOC_ERROR_INVALID_PARAM.
Proof.
  apply (ec_point_multiply_refines (sample_ec_point true 7) (ec_affine (sample_toy 7)) (replicate 32 Byte.x00) sec1_toy_works);
    [apply mib_heap_serves; lia|apply sample_stands|done].
Defined.

Lemma ec_point_hex_roundtrip_witness :
  exists text e', neoc_ec_point_to_hex Byte.xcd (sample_ec_point true 7) false = Ok text /\
    neoc_ec_point_from_hex Byte.xcd (Some text) = Ok e' /\ stands_for e' (ec_affine (sample_toy 7)).
Proof.
  apply (ec_point_hex_roundtrip Byte.xcd (sample_ec_point true 7) (sample_toy 7) false sec1_toy_works);
    [apply mib_heap_serves; lia|apply sample_stands].
Defined.
End Samples.
