(* ===== verification/Wif.v ===== *)
(** * Wallet import format (src/crypto/wif.c; export and import of src/crypto/ec_key_pair.c)

    A private key as Base58Check text of version, key and compression flag. *)

From S2P Require Import Prelude Crypto Base58 Hashes Interop ScriptBuilder EcKey Signature KeyPair.
#[local] Open Scope Z_scope.

Definition WIF_VERSION : byte := Byte.x80.
Definition WIF_COMPRESSED_FLAG : byte := Byte.x01.
Definition WIF_MAX_LENGTH : Z := 64.
Definition WIF_DECODED_MAX_LENGTH : Z := 40.

Section Operations.
Context `{Allocator} `{Interop} `{Crypto} `{Curve} `{!Ecdsa}.
Variable junk : byte.

Definition neoc_private_key_to_wif_len (private_key : option (list byte)) (key_len : Z)
  : res (list byte) :=
  match private_key with
  | None => Err NEOC_ERROR_INVALID_ARGUMENT
  | Some private_key =>
      if negb (key_len =? 32) then Err NEOC_ERROR_INVALID_SIZE
      else
        let? key := memcpy_from private_key 32 in
        let payload := WIF_VERSION :: key ++ [WIF_COMPRESSED_FLAG] in
        if negb (neoc_malloc_ok WIF_MAX_LENGTH) then Err NEOC_ERROR_MEMORY
        else
          match neoc_base58_check_encode (Some payload) 34 WIF_MAX_LENGTH
                  (replicate (Z.to_nat WIF_MAX_LENGTH) junk) with
          | (Ok _, buffer) => Ok (cstring buffer)
          | (Err e, _) => Err e
          | (Fault, _) => Fault
          end
  end.

Definition neoc_private_key_to_wif (private_key : option (list byte)) : res (list byte) :=
  neoc_private_key_to_wif_len private_key 32.

Definition neoc_wif_to_private_key (wif : option (list byte)) : res (list byte) :=
  match wif with
  | None => Err NEOC_ERROR_INVALID_ARGUMENT
  | Some _ =>
      match neoc_base58_check_decode junk wif WIF_DECODED_MAX_LENGTH
              (replicate (Z.to_nat WIF_DECODED_MAX_LENGTH) Byte.x00) with
      | (Err e, _) => Err e
      | (Fault, _) => Fault
      | (Ok decoded_len, decoded) =>
          if negb (decoded_len =? 34) then Err NEOC_ERROR_INVALID_FORMAT
          else
            match buf_get decoded 0, buf_get decoded 33 with
            | Some version, Some flag =>
                if negb (bool_decide (version = WIF_VERSION)) then Err NEOC_ERROR_INVALID_FORMAT
                else if negb (bool_decide (flag = WIF_COMPRESSED_FLAG))
                then Err NEOC_ERROR_INVALID_FORMAT
                else if negb (neoc_malloc_ok 32) then Err NEOC_ERROR_MEMORY
                else
                  match buf_slice decoded 1 32 with
                  | Some key => Ok key
                  | None => Fault
                  end
            | _, _ => Fault
            end
      end
  end.

Definition neoc_wif_is_valid (wif : option (list byte)) : res bool :=
  match wif with
  | None => Ok false
  | Some _ =>
      match neoc_wif_to_private_key wif with
      | Ok _ => Ok true
      | Err _ => Ok false
      | Fault => Fault
      end
  end.

Definition neoc_ec_key_pair_export_as_wif (key_pair : neoc_ec_key_pair_t) : res (list byte) :=
  match kp_private key_pair with
  | None => Err NEOC_ERROR_INVALID_ARGUMENT
  | Some private_key => neoc_private_key_to_wif (Some (priv_bytes private_key))
  end.

Definition neoc_ec_key_pair_import_from_wif (wif : option (list byte))
  : res neoc_ec_key_pair_t :=
  match wif with
  | None => Err NEOC_ERROR_INVALID_ARGUMENT
  | Some _ =>
      let? private_key := neoc_wif_to_private_key wif in
      neoc_ec_key_pair_create_from_private_key (Some private_key)
  end.

End Operations.

(** ** Round trip *)

Definition wif_payload (key : list byte) : list byte := WIF_VERSION :: key ++ [WIF_COMPRESSED_FLAG].

(** [s] is the WIF text of [key]. *)
Definition wif_of `{Crypto} (key s : list byte) : Prop :=
  exists c, neoc_sha256_double (Some (wif_payload key)) 34 = Ok c /\ length c = 32%nat /\
    text_of (wif_payload key ++ take 4 c) s.

Section Proofs.
Context `{Allocator} `{Interop} `{Crypto} `{Curve} `{!Ecdsa}.
Variable junk : byte.
Hypothesis Hw : crypto_works.
Hypothesis Hheap : heap_serves 128.

Lemma wif_payload_length key : length key = 32%nat -> zlen (wif_payload key) = 34.
Proof. intros Hk. unfold wif_payload, zlen. cbn [length]. rewrite length_app, Hk. done. Qed.

Lemma wif_text_length key s :
  length key = 32%nat -> wif_of key s -> 0 < zlen s /\ zlen s + 1 <= 54 /\
  Forall (fun c => c <> Byte.x00) s.
Proof.
  intros Hk (c & _ & Hc & Ht).
  assert (zlen (wif_payload key ++ take 4 c) = 38) as Hl.
  { rewrite zlen_app, wif_payload_length by done. unfold zlen. rewrite length_take. lia. }
  assert (wif_payload key ++ take 4 c <> []) as Hne by (by intros E; rewrite E in Hl).
  pose proof (text_length _ s Hne ltac:(lia) Ht) as Hb. rewrite Hl in Hb.
  split_and!; [apply zlen_pos; by eapply text_nonempty|exact Hb|by eapply text_no_nul].
Qed.

Lemma to_wif_ok key rest :
  length key = 32%nat ->
  exists s, wif_of key s /\ neoc_private_key_to_wif junk (Some (key ++ rest)) = Ok s.
Proof.
  intros Hk. pose proof (wif_payload_length key Hk) as Hp.
  destruct (sha256_double_ok Hw (wif_payload key)) as (c & Ec & Hc). rewrite Hp in Ec.
  destruct (check_encode_text (wif_payload key) c (replicate 64 junk) 54) as (s & r & Ht & E).
  - by rewrite Hp.
  - done.
  - lia.
  - eapply heap_serves_mono; [done|lia].
  - intros s Ht. by apply (wif_text_length key); [|exists c].
  - by vm_compute.
  - exists s. split; [by exists c|].
    unfold neoc_private_key_to_wif, neoc_private_key_to_wif_len, neoc_malloc_ok, WIF_MAX_LENGTH.
    change (negb (32 =? 32)) with false. cbv iota.
    pose proof (memcpy_prefix key rest) as Em. unfold zlen in Em. rewrite Hk in Em.
    change (Z.of_nat 32) with 32 in Em. rewrite Em. cbn [rbind].
    change (64 =? 0) with false. cbv iota. rewrite Hheap by lia. cbn [negb].
    fold (wif_payload key). rewrite Hp in E.
    change (zlen (replicate 64 junk)) with 64 in E. change (Z.to_nat 64) with 64%nat. rewrite E.
    by rewrite cstring_app by (by eapply text_no_nul).
Qed.

Lemma flag_at v key f (rest : list byte) :
  length key = 32%nat -> buf_get ((v :: key ++ [f]) ++ rest) 33 = Some f.
Proof.
  intros Hk. transitivity (((key ++ [f]) ++ rest) !! 32%nat); [done|].
  rewrite <- app_assoc, lookup_app_r by lia. by rewrite Hk.
Qed.

(** The parts of the decoding buffer once the payload is in it. *)
Lemma payload_parts key rest :
  length key = 32%nat ->
  buf_get (wif_payload key ++ rest) 0 = Some WIF_VERSION /\
  buf_get (wif_payload key ++ rest) 33 = Some WIF_COMPRESSED_FLAG /\
  buf_slice (wif_payload key ++ rest) 1 32 = Some key.
Proof.
  intros Hk. split_and!; [done|by apply flag_at|].
  - pose proof (buf_slice_app [WIF_VERSION] key (WIF_COMPRESSED_FLAG :: rest)) as E.
    unfold zlen in E. rewrite Hk in E. unfold wif_payload. cbn [app length] in *.
    rewrite <- app_assoc. exact E.
Qed.

Lemma from_wif_ok key s :
  length key = 32%nat -> wif_of key s -> neoc_wif_to_private_key junk (Some s) = Ok key.
Proof.
  intros Hk Hs. pose proof (wif_text_length key s Hk Hs) as (Hpos & Hlen & Hnul).
  destruct Hs as (c & Ec & Hc & Ht). pose proof (wif_payload_length key Hk) as Hp.
  rewrite <- Hp in Ec.
  pose proof (check_decode_text junk _ c s (replicate 40 Byte.x00) Hw Ec Hc ltac:(lia)
    ltac:(eapply heap_serves_mono; [exact Hheap|lia]) Ht ltac:(rewrite Hp; by vm_compute)) as E.
  rewrite Hp in E. change (zlen (replicate 40 Byte.x00)) with 40 in E.
  unfold neoc_wif_to_private_key, WIF_DECODED_MAX_LENGTH. change (Z.to_nat 40) with 40%nat. rewrite E.
  change (negb (34 =? 34)) with false. cbv iota.
  destruct (payload_parts key (drop (length (wif_payload key)) (replicate 40 Byte.x00)) Hk) as (-> & -> & ->).
  rewrite !bool_decide_eq_true_2 by done. unfold neoc_malloc_ok. cbn [Z.eqb]. by rewrite Hheap by lia.
Qed.

(** A text that is accepted is the text of the key it gives. *)
Lemma from_wif_inv s key :
  Forall (fun c => c <> Byte.x00) s -> zlen s <= 127 ->
  neoc_wif_to_private_key junk (Some s) = Ok key ->
  length key = 32%nat /\
  exists c, neoc_sha256_double (Some (wif_payload key)) 34 = Ok c /\ length c = 32%nat /\
    bytes_of s (wif_payload key ++ take 4 c).
Proof.
  intros Hnul Hl. unfold neoc_wif_to_private_key, WIF_DECODED_MAX_LENGTH.
  destruct (neoc_base58_check_decode _ _ _ _) as [r b] eqn:E. destruct r as [n| |]; [|done..].
  destruct (n =? 34) eqn:En; [|done]. bdestruct. cbn [negb].
  change 40 with (zlen (replicate (Z.to_nat 40) Byte.x00)) in E at 1.
  apply check_decode_inv in E as (data & c & Ec & Hc & Hb & Hn & ->);
    [|done|done|lia|eapply heap_serves_mono; [done|lia]].
  rewrite En in Hn. rewrite <- Hn in Ec. set (rest := drop _ _).
  destruct data as [|v data]; [by vm_compute in Hn|].
  destruct data as [|f key' _] using rev_ind; [by vm_compute in Hn|].
  assert (length key' = 32%nat) as Hk.
  { unfold zlen in Hn. cbn in Hn. rewrite length_app in Hn. cbn in Hn. lia. }
  change (buf_get ((v :: key' ++ [f]) ++ rest) 0) with (Some v).
  rewrite (flag_at v key' f rest Hk).
  destruct (bool_decide (v = _)) eqn:Ev; [|done]. destruct (bool_decide (f = _)) eqn:Ef; [|done].
  bdestruct. subst v f. cbn [negb]. destruct (negb _); [done|].
  fold (wif_payload key') in *. destruct (payload_parts key' rest Hk) as (_ & _ & ->).
  intros [= <-]. split; [done|]. by exists c.
Qed.

(** Wallet import format: every 32-byte key has a WIF text that is valid and gives
    the key back; conversely every text the importer accepts is exactly the text the
    exporter writes for the key it returns, so version, flag, checksum and spelling are
    all checked.  Importing the text of an exported key pair gives the pair. *)
Theorem wif_roundtrip_canonical (key s : list byte) :
  Forall (fun c => c <> Byte.x00) s -> zlen s <= 127 -> length key = 32%nat ->
  (exists text, neoc_private_key_to_wif junk (Some key) = Ok text /\
     neoc_wif_to_private_key junk (Some text) = Ok key /\
     neoc_wif_is_valid junk (Some text) = Ok true) /\
  (neoc_wif_to_private_key junk (Some s) = Ok key ->
   neoc_private_key_to_wif junk (Some key) = Ok s).
Proof.
  intros Hnul Hl Hk. destruct (to_wif_ok key [] Hk) as (text & Ht & E). rewrite app_nil_r in E.
  pose proof (from_wif_ok key text Hk Ht) as F. split.
  - exists text. split_and!; [done|done|]. unfold neoc_wif_is_valid. by rewrite F.
  - intros Hs. apply from_wif_inv in Hs as (_ & c & Ec & Hc & Hb); [|done..].
    rewrite E. f_equal. destruct Ht as (c' & Ec' & _ & Ht).
    assert (c' = c) as -> by congruence. by eapply bytes_text.
Qed.

(** A key pair survives export and import. *)
Lemma pair_wif_roundtrip key point :
  curve_works -> key_point key point ->
  (let? wif := neoc_ec_key_pair_export_as_wif junk (pair_of key point) in
   neoc_ec_key_pair_import_from_wif junk (Some wif)) = Ok (pair_of key point).
Proof.
  intros Hcurve Hk. destruct (to_wif_ok key [] (proj1 Hk)) as (text & Ht & E). rewrite app_nil_r in E.
  cbn [neoc_ec_key_pair_export_as_wif pair_of kp_private priv_bytes]. rewrite E. cbn [rbind].
  unfold neoc_ec_key_pair_import_from_wif. rewrite (from_wif_ok key text (proj1 Hk) Ht). cbn [rbind].
  apply pair_create; [done|done|eapply heap_serves_mono; [done|lia]].
Qed.
End Proofs.

Section Samples.
#[local] Existing Instance mib_heap.
#[local] Existing Instance toy_crypto.

Definition sample_wif : list byte :=
  match neoc_private_key_to_wif Byte.x00 (Some (toy_private 5)) with Ok s => s | _ => [] end.

Lemma wif_roundtrip_canonical_witness :
  neoc_private_key_to_wif Byte.x00 (Some (toy_private 5)) = Ok sample_wif /\
  neoc_wif_to_private_key Byte.x00 (Some sample_wif) = Ok (toy_private 5).
Proof.
  assert (Forall (fun c => c <> Byte.x00) sample_wif) as Hn
    by (apply (bool_decide_eq_true_1 _); vm_compute; reflexivity).
  destruct (wif_roundtrip_canonical Byte.x00 toy_crypto_works
    (mib_heap_serves 128 ltac:(by vm_compute)) (toy_private 5) sample_wif) as [_ Hc].
  - exact Hn.
  - by vm_compute.
  - reflexivity.
  - split; [apply Hc|]; vm_compute; reflexivity.
Defined.
End Samples.
