(* ===== verification/Nep2.v ===== *)
(** * Encrypted keys (src/crypto/nep2.c)

    A private key encrypted under a password, as Base58Check text of prefix, flag, address
    check and ciphertext.  Key derivation and the cipher are OpenSSL's: the class
    [Nep2Crypto], with [nep2_works] for what the code relies on.  The output buffers are
    the caller's; a wrong password leaves the wrongly decrypted bytes in the buffer. *)

From S2P Require Import Prelude Crypto Base58 Hashes Interop Opcode NeoVM ScriptBuilder EcKey VerificationScript Signature KeyPair.
#[local] Open Scope Z_scope.

Record neoc_nep2_params_t := mk_nep2_params { nep2_n : Z; nep2_r : Z; nep2_p : Z }.

Class Nep2Crypto := {
  (** scrypt of a password and a salt, 64 bytes long; [None] when OpenSSL fails. *)
  EVP_scrypt : list byte -> list byte -> neoc_nep2_params_t -> option (list byte);
  (** AES-256 in ECB mode without padding, of two blocks, under a 32-byte key. *)
  EVP_aes_256_ecb_encrypt : list byte -> list byte -> option (list byte);
  EVP_aes_256_ecb_decrypt : list byte -> list byte -> option (list byte)
}.

(** Derivation with the parameters [params] gives 64 bytes, and decryption inverts
    encryption, which keeps the length. *)
Record nep2_works `{Nep2Crypto} (params : neoc_nep2_params_t) : Prop := {
  works_scrypt password salt :
    exists k, EVP_scrypt password salt params = Some k /\ length k = 64%nat;
  works_aes key d :
    length key = 32%nat -> length d = 32%nat ->
    exists c, EVP_aes_256_ecb_encrypt key d = Some c /\ length c = 32%nat /\
      EVP_aes_256_ecb_decrypt key c = Some d
}.

Definition NEP2_PREFIX_1 : byte := Byte.x01.
Definition NEP2_PREFIX_2 : byte := Byte.x42.
Definition NEP2_FLAG_UNCOMPRESSED : byte := Byte.xc0.
Definition NEP2_FLAG_COMPRESSED : byte := Byte.xe0.
Definition NEP2_ENCRYPTED_SIZE : Z := 39.
Definition NEP2_ENCODED_SIZE : Z := 58.
Definition NEP2_ADDRESS_BUFFER_LEN : Z := 64.

Definition NEOC_NEP2_DEFAULT_PARAMS : neoc_nep2_params_t := mk_nep2_params 16384 8 8.
Definition NEOC_NEP2_LIGHT_PARAMS : neoc_nep2_params_t := mk_nep2_params 1024 1 1.

(** [dest[i] ^= src[i]] over the length of [dest]. *)
Definition xor_bytes (dest src : list byte) : list byte :=
  zip_with (fun a b => byte_of_Z (Z.lxor (Z_of_byte a) (Z_of_byte b))) dest src.

Section Operations.
Context `{Allocator} `{Interop} `{Crypto} `{Curve} `{!Ecdsa} `{Nep2Crypto}.
Variable junk : byte.

Definition derive_key (password salt : list byte) (params : option neoc_nep2_params_t)
  : res (list byte) :=
  let p := default NEOC_NEP2_DEFAULT_PARAMS params in
  match EVP_scrypt password salt p with
  | None => Err NEOC_ERROR_CRYPTO
  | Some k => if negb (zlen k =? 64) then Err NEOC_ERROR_CRYPTO else Ok k
  end.

(** The signature script of the key, written byte by byte. *)
Definition nep2_verification_script (public_key : neoc_ec_public_key_t) (is_compressed : bool)
  : res (list byte) :=
  let pubkey_bytes :=
    if is_compressed then pk_compressed public_key else pk_uncompressed public_key in
  let pubkey_len := if is_compressed then 33 else 65 in
  let script_len := 2 + pubkey_len + 1 + 4 in
  if negb (neoc_malloc_ok script_len) then Err NEOC_ERROR_MEMORY
  else
    let? pk := memcpy_from pubkey_bytes pubkey_len in
    local_buffer (Z.to_nat script_len)
      (do! store 0 [byte_of_Z NEOC_OP_PUSHDATA1] in
       do! store 1 [byte_of_Z pubkey_len] in
       do! store 2 pk in
       do! store (2 + pubkey_len) [byte_of_Z NEOC_OP_SYSCALL] in
       store (3 + pubkey_len)
         (le_bytes 4 (service_hash NEOC_INTEROP_SYSTEM_CRYPTO_CHECKSIG))).

(** The hash of the address of the key, whose first four bytes are the salt. *)
Definition nep2_address_hash (public_key : neoc_ec_public_key_t) (is_compressed : bool)
  : res (list byte) :=
  let? script := nep2_verification_script public_key is_compressed in
  let? script_hash := neoc_hash160_from_script (Some script) (zlen script) in
  match neoc_hash160_to_address junk script_hash NEP2_ADDRESS_BUFFER_LEN
          (replicate (Z.to_nat NEP2_ADDRESS_BUFFER_LEN) junk) with
  | (Err e, _) => Err e
  | (Fault, _) => Fault
  | (Ok _, address) =>
      neoc_sha256_double (Some (cstring address)) (zlen (cstring address))
  end.

Definition neoc_nep2_encrypt (private_key password : option (list byte))
    (params : option neoc_nep2_params_t) (encrypted_key_len : Z) : M (list byte) unit :=
  match private_key, password with
  | Some private_key, Some password =>
      if encrypted_key_len <? NEP2_ENCODED_SIZE then fail NEOC_ERROR_BUFFER_TOO_SMALL
      else
        let! key_pair := lift (neoc_ec_key_pair_create_from_private_key (Some private_key)) in
        match kp_public key_pair with
        | None => fail NEOC_ERROR_INVALID_STATE
        | Some public_key =>
            let is_compressed := pk_is_compressed public_key in
            let! address_hash := lift (nep2_address_hash public_key is_compressed) in
            let! salt := lift (memcpy_from address_hash 4) in
            let! derived_key := lift (derive_key password salt params) in
            let! key := lift (memcpy_from private_key 32) in
            let xored := xor_bytes key (take 32 derived_key) in
            match EVP_aes_256_ecb_encrypt (drop 32 derived_key) xored with
            | None => fail NEOC_ERROR_CRYPTO
            | Some ciphertext =>
                let! c := lift (memcpy_from ciphertext 32) in
                let flag := if is_compressed then NEP2_FLAG_COMPRESSED
                            else NEP2_FLAG_UNCOMPRESSED in
                let nep2_data := [NEP2_PREFIX_1; NEP2_PREFIX_2; flag] ++ salt ++ c in
                neoc_base58_check_encode (Some nep2_data) NEP2_ENCRYPTED_SIZE encrypted_key_len
            end
        end
  | _, _ => fail NEOC_ERROR_INVALID_ARGUMENT
  end.

(** The 39 bytes behind a text. *)
Definition nep2_decode (encrypted_key : option (list byte)) : res (list byte) :=
  match neoc_base58_check_decode junk encrypted_key NEP2_ENCRYPTED_SIZE
          (replicate (Z.to_nat NEP2_ENCRYPTED_SIZE) junk) with
  | (Fault, _) => Fault
  | (Err _, _) => Err NEOC_ERROR_INVALID_FORMAT
  | (Ok decoded_len, nep2_data) =>
      if negb (decoded_len =? NEP2_ENCRYPTED_SIZE) then Err NEOC_ERROR_INVALID_FORMAT
      else Ok nep2_data
  end.

Definition neoc_nep2_decrypt (encrypted_key password : option (list byte))
    (params : option neoc_nep2_params_t) (private_key_len : Z) : M (list byte) unit :=
  match encrypted_key, password with
  | Some _, Some password =>
      if private_key_len <? 32 then fail NEOC_ERROR_BUFFER_TOO_SMALL
      else
        let! nep2_data := lift (nep2_decode encrypted_key) in
        match nep2_data with
        | p1 :: p2 :: flag :: body =>
            if negb (bool_decide (p1 = NEP2_PREFIX_1)) || negb (bool_decide (p2 = NEP2_PREFIX_2))
            then fail NEOC_ERROR_INVALID_FORMAT
            else
              let! salt := lift (memcpy_from body 4) in
              let! encrypted := lift (memcpy_from (drop 4 body) 32) in
              let! derived_key := lift (derive_key password salt params) in
              match EVP_aes_256_ecb_decrypt (drop 32 derived_key) encrypted with
              | None => fail NEOC_ERROR_CRYPTO
              | Some decrypted =>
                  let! d := lift (memcpy_from decrypted 32) in
                  let private_key := xor_bytes d (take 32 derived_key) in
                  do! store 0 private_key in
                  match neoc_ec_key_pair_create_from_private_key (Some private_key) with
                  | Fault => fault
                  | Err _ => fail NEOC_ERROR_INVALID_PASSWORD
                  | Ok key_pair =>
                      match kp_public key_pair with
                      | None => fail NEOC_ERROR_INVALID_STATE
                      | Some public_key =>
                          let! is_compressed :=
                            (if bool_decide (flag = NEP2_FLAG_COMPRESSED) then ret true
                             else if bool_decide (flag = NEP2_FLAG_UNCOMPRESSED) then ret false
                             else fail NEOC_ERROR_INVALID_FORMAT) in
                          let! address_hash :=
                            lift (nep2_address_hash public_key is_compressed) in
                          if negb (memcmp_loop salt (take 4 address_hash) =? 0)
                          then fail NEOC_ERROR_INVALID_PASSWORD
                          else ret tt
                      end
                  end
              end
        | _ => fault
        end
  | _, _ => fail NEOC_ERROR_INVALID_ARGUMENT
  end.

(** A call that fills a local array, and the array. *)
Definition with_buffer (n : nat) (m : M (list byte) unit) : res (list byte) :=
  match m (replicate n junk) with
  | (Ok _, buf) => Ok buf
  | (Err e, _) => Err e
  | (Fault, _) => Fault
  end.

Definition neoc_nep2_decrypt_key_pair (encrypted_key password : option (list byte))
    (params : option neoc_nep2_params_t) : res neoc_ec_key_pair_t :=
  let? private_key := with_buffer 32 (neoc_nep2_decrypt encrypted_key password params 32) in
  neoc_ec_key_pair_create_from_private_key (Some private_key).

Definition neoc_nep2_encrypt_key_pair (key_pair : neoc_ec_key_pair_t)
    (password : option (list byte)) (params : option neoc_nep2_params_t) : res (list byte) :=
  let? private_key := neoc_ec_key_pair_get_private_key key_pair 32 in
  let encoded_capacity := NEP2_ENCODED_SIZE + 2 in
  if negb (neoc_malloc_ok encoded_capacity) then Err NEOC_ERROR_MEMORY
  else
    let? encoded :=
      with_buffer (Z.to_nat encoded_capacity)
        (neoc_nep2_encrypt (Some private_key) password params encoded_capacity) in
    Ok (cstring encoded).

Definition neoc_nep2_verify_password (encrypted_key password : option (list byte))
    (params : option neoc_nep2_params_t) : res bool :=
  match with_buffer 32 (neoc_nep2_decrypt encrypted_key password params 32) with
  | Ok _ => Ok true
  | Err _ => Ok false
  | Fault => Fault
  end.

Definition neoc_nep2_is_valid_format (encrypted_key : option (list byte)) : res bool :=
  match encrypted_key with
  | None => Ok false
  | Some s =>
      if negb (zlen s =? NEP2_ENCODED_SIZE) then Ok false
      else
        match nep2_decode encrypted_key with
        | Fault => Fault
        | Err _ => Ok false
        | Ok decoded =>
            match decoded with
            | p1 :: p2 :: _ =>
                Ok (bool_decide (p1 = NEP2_PREFIX_1) && bool_decide (p2 = NEP2_PREFIX_2))
            | _ => Fault
            end
        end
  end.

End Operations.

(** ** Round trip *)

Lemma length_xor a k : (length a <= length k)%nat -> length (xor_bytes a k) = length a.
Proof. intros Hl. unfold xor_bytes. rewrite length_zip_with. lia. Qed.

Lemma xor_xor a : forall k, (length a <= length k)%nat -> xor_bytes (xor_bytes a k) k = a.
Proof.
  unfold xor_bytes. induction a as [|x a IH]; intros [|y k] Hl; cbn [length zip_with] in *; try done; [lia|].
  f_equal; [|apply IH; lia].
  pose proof (Z_of_byte_range x). pose proof (Z_of_byte_range y).
  assert (0 <= Z.lxor (Z_of_byte x) (Z_of_byte y) < 256) as Hr.
  { split; [apply Z.lxor_nonneg; lia|].
    destruct (decide (Z.lxor (Z_of_byte x) (Z_of_byte y) = 0)) as [->|]; [lia|].
    apply Z.log2_lt_cancel. change (Z.log2 256) with 8.
    eapply Z.le_lt_trans; [apply Z.log2_lxor; lia|]. apply Z.max_lub_lt.
    - destruct (decide (Z_of_byte x = 0)) as [->|]; [done|]. apply Z.log2_lt_pow2; lia.
    - destruct (decide (Z_of_byte y = 0)) as [->|]; [done|]. apply Z.log2_lt_pow2; lia. }
  rewrite Z_of_byte_small by done. rewrite Z.lxor_assoc, Z.lxor_nilpotent, Z.lxor_0_r.
  apply byte_of_Z_of_byte.
Qed.

(** What the 39 bytes of an encrypted key are. *)
Definition nep2_payload (salt ciphertext : list byte) : list byte :=
  [NEP2_PREFIX_1; NEP2_PREFIX_2; NEP2_FLAG_COMPRESSED] ++ salt ++ ciphertext.

Section Proofs.
Context `{Allocator} `{Interop} `{Crypto} `{Curve} `{!Ecdsa} `{Nep2Crypto}.
Variable junk : byte.
Hypothesis Hw : crypto_works.
Hypothesis Hcurve : curve_works.
Hypothesis Hheap : heap_serves 128.

Lemma nep2_script_ok k :
  key_ok k -> nep2_verification_script k true = Ok (single_sig_bytes (pk_compressed k)).
Proof.
  intros Hk. pose proof (key_size Hcurve k Hk) as Hs.
  rewrite <- (build_verification_bytes (pk_compressed k) Hs) by (apply Hheap; lia).
  unfold nep2_verification_script, neoc_script_builder_build_verification_script, neoc_malloc_ok.
  change (2 + 33 + 1 + 4) with 40. change (1 + 1 + 33 + 1 + 4) with 40. cbn [Z.eqb].
  rewrite Hheap by lia. cbn [negb andb]. unfold memcpy_from.
  destruct (buf_slice _ 0 33); done.
Qed.

Lemma nep2_address_hash_ok k :
  key_ok k -> exists d, nep2_address_hash junk k true = Ok d /\ length d = 32%nat.
Proof.
  intros Hk. pose proof (key_size Hcurve k Hk) as Hs. unfold nep2_address_hash.
  rewrite nep2_script_ok by done. cbn [rbind]. rewrite single_sig_length by done.
  destruct (single_sig_hash (pk_compressed k) Hw Hs) as (d & _ & Hd & ->). cbn [rbind].
  assert (hash160_ok (mk_hash160 (reverse d))) as Hok.
  { unfold hash160_ok, NEOC_HASH160_SIZE. cbn [hash160_data]. rewrite zlen_reverse. unfold zlen. lia. }
  destruct (to_address_ok junk Hw (heap_serves_mono _ 64 Hheap ltac:(lia)) _ (replicate 64 junk) Hok)
    as (s & Ha & E); [by vm_compute|].
  change (zlen (replicate 64 junk)) with 64 in E.
  change (Z.to_nat NEP2_ADDRESS_BUFFER_LEN) with 64%nat. unfold NEP2_ADDRESS_BUFFER_LEN. rewrite E.
  rewrite cstring_app by (by eapply address_of_no_nul). apply (sha256_double_ok Hw).
Qed.

Lemma nep2_payload_length salt c :
  length salt = 4%nat -> length c = 32%nat -> zlen (nep2_payload salt c) = 39.
Proof. intros Hsa Hci. unfold nep2_payload, zlen. rewrite !length_app, Hsa, Hci. done. Qed.

(** The text of an encrypted key has 58 characters. *)
Lemma nep2_text_length salt c h s :
  length salt = 4%nat -> length c = 32%nat -> length h = 32%nat ->
  text_of (nep2_payload salt c ++ take 4 h) s -> zlen s = 58.
Proof.
  intros Hsa Hci Hdi. unfold nep2_payload. cbn [app]. intros Ht.
  eapply text_length_exact in Ht; [exact Ht|done|lia|..].
  all: replace (zlen _) with 42; [by vm_compute|].
  all: unfold zlen; cbn [length]; rewrite !length_app, Hsa, Hci, length_take, Hdi; done.
Qed.

Variable password : list byte.
Variable params : option neoc_nep2_params_t.
Hypothesis Hnep2 : nep2_works (default NEOC_NEP2_DEFAULT_PARAMS params).

Lemma derive_key_ok salt :
  exists k, derive_key password salt params = Ok k /\ length k = 64%nat.
Proof.
  destruct (works_scrypt _ Hnep2 password salt) as (k & E & Hk). exists k. split; [|done].
  unfold derive_key. rewrite E. unfold zlen. by rewrite Hk.
Qed.

(** Encryption writes the text of the salt of the key's address and the ciphertext of
    the masked key. *)
Lemma nep2_encrypt_ok key point rest0 buf :
  key_point key point -> 59 <= zlen buf ->
  exists salt dk c h s rest,
    length salt = 4%nat /\ length dk = 64%nat /\ length c = 32%nat /\ length h = 32%nat /\
    (let? d := nep2_address_hash junk (mk_public_key _ point (EC_POINT_point2oct true point)
                 (EC_POINT_point2oct false point) true) true in memcpy_from d 4) = Ok salt /\
    derive_key password salt params = Ok dk /\
    EVP_aes_256_ecb_decrypt (drop 32 dk) c = Some (xor_bytes key (take 32 dk)) /\
    neoc_sha256_double (Some (nep2_payload salt c)) 39 = Ok h /\
    text_of (nep2_payload salt c ++ take 4 h) s /\
    neoc_nep2_encrypt junk (Some (key ++ rest0)) (Some password) params (zlen buf) buf
    = (Ok tt, s ++ Byte.x00 :: rest).
Proof.
  intros Hkp Hb. pose proof Hkp as [Hk _].
  set (pk := mk_public_key _ point _ _ true).
  assert (key_ok pk) as Hpk by done.
  destruct (nep2_address_hash_ok pk Hpk) as (d & Ed & Hd).
  assert (memcpy_from d 4 = Ok (take 4 d)) as Es by (unfold memcpy_from, buf_slice, zlen; by rewrite Hd).
  set (salt := take 4 d) in *.
  assert (length salt = 4%nat) as Hs by (unfold salt; rewrite length_take; lia).
  destruct (derive_key_ok salt) as (dk & Edk & Hdk).
  assert (length (take 32 dk) = 32%nat /\ length (drop 32 dk) = 32%nat) as [Ht1 Ht2]
    by (rewrite length_take, length_drop; lia).
  destruct (works_aes _ Hnep2 (drop 32 dk) (xor_bytes key (take 32 dk))) as (c & Ec & Hc & Edec);
    [done|rewrite length_xor by lia; done|].
  pose proof (nep2_payload_length salt c Hs Hc) as Hp.
  destruct (sha256_double_ok Hw (nep2_payload salt c)) as (h & Eh & Hh).
  destruct (check_encode_text (nep2_payload salt c) h buf 59 Eh Hh) as (s & rest & Htx & E);
    [lia|eapply heap_serves_mono; [exact Hheap|lia]| |done|].
  { intros s Ht. rewrite (nep2_text_length salt c h s) by done. done. }
  exists salt, dk, c, h, s, rest. split_and!; try done; [by rewrite Ed|by rewrite <- Hp|].
  unfold neoc_nep2_encrypt, NEP2_ENCODED_SIZE. cmps.
  rewrite (pair_create_ok Hcurve key point rest0 Hkp) by (eapply heap_serves_mono; [exact Hheap|lia]).
  rewrite bind_lift. cbn [pair_of kp_public pk_is_compressed]. fold pk.
  rewrite Ed, bind_lift, Es, bind_lift, Edk, bind_lift.
  pose proof (memcpy_prefix key rest0) as Em. unfold zlen in Em. rewrite Hk in Em.
  change (Z.of_nat 32) with 32 in Em. rewrite Em, bind_lift, Ec.
  rewrite (memcpy_from_all c) by (unfold zlen; lia). rewrite bind_lift.
  fold (nep2_payload salt c). rewrite Hp in E. exact E.
Qed.

Lemma nep2_decode_text salt c h s :
  length salt = 4%nat -> length c = 32%nat -> length h = 32%nat ->
  neoc_sha256_double (Some (nep2_payload salt c)) 39 = Ok h ->
  text_of (nep2_payload salt c ++ take 4 h) s ->
  nep2_decode junk (Some s) = Ok (nep2_payload salt c).
Proof.
  intros Hsa Hci Hdi Eh Ht. pose proof (nep2_payload_length salt c Hsa Hci) as Hp. rewrite <- Hp in Eh.
  pose proof (check_decode_text junk _ h s (replicate 39 junk) Hw Eh Hdi ltac:(lia)
    ltac:(eapply heap_serves_mono; [exact Hheap|lia]) Ht ltac:(rewrite Hp; by vm_compute)) as E.
  rewrite Hp in E. change (zlen (replicate 39 junk)) with 39 in E.
  unfold nep2_decode, NEP2_ENCRYPTED_SIZE. change (Z.to_nat 39) with 39%nat. rewrite E.
  change (negb (39 =? 39)) with false. cbv iota. f_equal.
  rewrite drop_ge, app_nil_r; [done|]. rewrite length_replicate. unfold zlen in Hp. lia.
Qed.
(** Decryption with the password the key was encrypted with. *)
Lemma nep2_decrypt_ok key point salt dk c h s out :
  key_point key point -> length salt = 4%nat -> length dk = 64%nat -> length c = 32%nat ->
  length h = 32%nat ->
  (let? d := nep2_address_hash junk (mk_public_key _ point (EC_POINT_point2oct true point)
               (EC_POINT_point2oct false point) true) true in memcpy_from d 4) = Ok salt ->
  derive_key password salt params = Ok dk ->
  EVP_aes_256_ecb_decrypt (drop 32 dk) c = Some (xor_bytes key (take 32 dk)) ->
  neoc_sha256_double (Some (nep2_payload salt c)) 39 = Ok h ->
  text_of (nep2_payload salt c ++ take 4 h) s -> 32 <= zlen out ->
  neoc_nep2_decrypt junk (Some s) (Some password) params (zlen out) out
  = (Ok tt, key ++ drop 32 out).
Proof.
  intros Hkp Hs Hdk Hc Hh Esalt Edk Edec Eh Ht Ho. pose proof Hkp as [Hk _].
  unfold neoc_nep2_decrypt. cmps. rewrite (nep2_decode_text salt c h s) by done. rewrite bind_lift.
  unfold nep2_payload. cbn [app]. rewrite !bool_decide_eq_true_2 by done. cbn [negb orb].
  pose proof (memcpy_prefix salt c) as E4. unfold zlen in E4. rewrite Hs in E4.
  change (Z.of_nat 4) with 4 in E4. rewrite E4, bind_lift.
  assert (drop 4 (salt ++ c) = c) as -> by (rewrite <- Hs; apply drop_app_length).
  rewrite (memcpy_from_all c) by (unfold zlen; lia). rewrite bind_lift, Edk, bind_lift, Edec.
  assert (length (take 32 dk) = 32%nat) as Htk by (rewrite length_take; lia).
  rewrite memcpy_from_all by (unfold zlen; rewrite length_xor; lia). rewrite bind_lift.
  cbv zeta. rewrite xor_xor by lia.
  rewrite (bind_ok _ _ _ _ _ (store_first key out ltac:(unfold zlen in *; lia))).
  rewrite (pair_create Hcurve key point Hkp) by (eapply heap_serves_mono; [exact Hheap|lia]).
  cbn [pair_of kp_public]. unfold ret at 1 2. cbn [bind].
  destruct (nep2_address_hash junk _ true) as [d| |] eqn:Ed; [|done..]. cbn [rbind] in Esalt.
  rewrite bind_lift. unfold memcpy_from, buf_slice in Esalt. destruct (_ && _); [|done].
  injection Esalt as Esalt. change (take (Z.to_nat 4) (drop (Z.to_nat 0) d)) with (take 4 d) in Esalt.
  rewrite Esalt, (proj2 (memcmp_zero salt salt eq_refl) eq_refl). unfold ret. cbn [Z.eqb negb].
  by rewrite Hk.
Qed.

(** Encryption and decryption in sequence; the text can be kept as a C string. *)
Lemma nep2_encrypt_decrypt key point rest0 buf :
  key_point key point -> 59 <= zlen buf ->
  exists s rest,
    neoc_nep2_encrypt junk (Some (key ++ rest0)) (Some password) params (zlen buf) buf
    = (Ok tt, s ++ Byte.x00 :: rest) /\ zlen s = 58 /\ Forall (fun c => c <> Byte.x00) s /\
    (exists salt c, length salt = 4%nat /\ length c = 32%nat /\
       nep2_decode junk (Some s) = Ok (nep2_payload salt c)) /\
    forall out, 32 <= zlen out ->
      neoc_nep2_decrypt junk (Some s) (Some password) params (zlen out) out
      = (Ok tt, key ++ drop 32 out).
Proof.
  intros Hkp Hb. destruct (nep2_encrypt_ok key point rest0 buf Hkp Hb)
    as (salt & dk & c & h & s & rest & Hs & Hdk & Hc & Hh & Esalt & Edk & Edec & Eh & Ht & E).
  exists s, rest. split_and!; [done|by apply (nep2_text_length salt c h)|by eapply text_no_nul| |].
  - exists salt, c. split_and!; [done|done|]. by apply (nep2_decode_text salt c h).
  - intros out Ho. by apply (nep2_decrypt_ok key point salt dk c h).
Qed.

(** C18.  Encrypted keys round trip: for every key of the curve, every password and all
    parameters, encryption into a buffer of 59 bytes or more succeeds with a text of 58
    characters and the right format, and decrypting it with the same password and
    parameters gives the key and touches nothing behind it. *)
Theorem nep2_roundtrip (key : list byte) (point : EC_POINT) (buf out : list byte) :
  key_point key point -> 59 <= zlen buf -> 32 <= zlen out ->
  exists s rest,
    neoc_nep2_encrypt junk (Some key) (Some password) params (zlen buf) buf
    = (Ok tt, s ++ Byte.x00 :: rest) /\ zlen s = 58 /\
    neoc_nep2_is_valid_format junk (Some s) = Ok true /\
    neoc_nep2_decrypt junk (Some s) (Some password) params (zlen out) out
    = (Ok tt, key ++ drop 32 out).
Proof.
  intros Hkp Hb Ho. destruct (nep2_encrypt_decrypt key point [] buf Hkp Hb)
    as (s & rest & E & Hl & _ & (salt & c & _ & _ & Ed) & D).
  rewrite app_nil_r in E. exists s, rest. split_and!; [done|done| |by apply D].
  unfold neoc_nep2_is_valid_format. rewrite Hl.
  change (negb (58 =? NEP2_ENCODED_SIZE)) with false. cbv iota. by rewrite Ed.
Qed.
End Proofs.

Lemma length_memcpy_from d n d' : memcpy_from d n = Ok d' -> zlen d' = n.
Proof.
  unfold memcpy_from. destruct (buf_slice d 0 n) eqn:E; [|done]. intros [= <-].
  by eapply buf_slice_length.
Qed.

Lemma derive_key_length `{Nep2Crypto} password salt params k :
  derive_key password salt params = Ok k -> length k = 64%nat.
Proof.
  unfold derive_key. destruct (EVP_scrypt _ _ _); [|done]. destruct (negb _) eqn:E; [done|].
  intros [= <-]. bdestruct. unfold zlen in *. lia.
Qed.

(** A text, a password or a key that does not belong together is refused: whenever
    decryption succeeds, whatever the text and the password, the buffer holds a key of the
    curve whose address has the check value stored in the text. *)
Theorem nep2_decrypt_checks_address `{Allocator} `{Interop} `{Crypto} `{Curve} `{!Ecdsa} `{Nep2Crypto}
    (junk : byte) (s password : list byte) (params : option neoc_nep2_params_t)
    (out out' : list byte) :
  neoc_nep2_decrypt junk (Some s) (Some password) params (zlen out) out = (Ok tt, out') ->
  exists data key point compressed address_hash,
    nep2_decode junk (Some s) = Ok data /\ key_point key point /\
    out' = key ++ drop 32 out /\
    nep2_address_hash junk (mk_public_key _ point (EC_POINT_point2oct true point)
      (EC_POINT_point2oct false point) true) compressed = Ok address_hash /\
    memcmp_loop (take 4 (drop 3 data)) (take 4 address_hash) = 0.
Proof.
  unfold neoc_nep2_decrypt. destruct (_ <? 32) eqn:E32; [done|]. bdestruct.
  destruct (nep2_decode junk (Some s)) as [data| |] eqn:Ed; [|done..]. rewrite bind_lift.
  destruct data as [|p1 [|p2 [|flag body]]]; try done. destruct (_ || _); [done|].
  unfold memcpy_from at 1. unfold buf_slice at 1. destruct (_ && _); [|done]. rewrite bind_lift.
  change (take (Z.to_nat 4) (drop (Z.to_nat 0) body)) with (take 4 body).
  destruct (memcpy_from (drop 4 body) 32) as [enc| |]; [rewrite bind_lift|done..].
  destruct (derive_key _ _ _) as [dk| |] eqn:Edk; [rewrite bind_lift|done..].
  destruct (EVP_aes_256_ecb_decrypt _ _) as [dec|]; [|done].
  destruct (memcpy_from dec 32) as [d| |] eqn:Em32; [rewrite bind_lift; cbv zeta|done..].
  set (key := xor_bytes d _). unfold bind at 1, store.
  destruct (buf_copy out 0 key) as [out1|] eqn:Ec; [|done]. cbv beta iota. destruct (neoc_ec_key_pair_create_from_private_key (Some key)) as [kp| |] eqn:Ek; [|done..].
  apply pair_create_inv in Ek as (key' & point & Hkp & -> & rest & Ekey). cbn [pair_of kp_public].
  destruct (bool_decide (flag = NEP2_FLAG_COMPRESSED)); cbn [bind ret];
    [|destruct (bool_decide _); cbn [bind ret]; [|done]].
  all: match goal with |- context [nep2_address_hash ?j ?k ?b] =>
         destruct (nep2_address_hash j k b) as [ah| |] eqn:Ea; [rewrite bind_lift|done..];
         intros E; exists (p1 :: p2 :: flag :: body), key', point, b, ah end.
  all: destruct (memcmp_loop _ _ =? 0) eqn:Em; cbn [negb] in E; [|done]; injection E as <-; bdestruct.
  all: split_and!; try done.
  all: pose proof (length_memcpy_from _ _ _ Em32) as Hd32.
  all: pose proof (derive_key_length _ _ _ _ Edk) as Hdk.
  all: assert (length key = 32%nat) as Hl
    by (unfold key; rewrite length_xor; rewrite ?length_take; unfold zlen in *; lia).
  all: assert (key' = key) as ->
    by (rewrite Ekey in Hl |- *; rewrite length_app, (proj1 Hkp) in Hl;
        destruct rest; [by rewrite app_nil_r|cbn in Hl; lia]).
  all: unfold buf_copy in Ec; rewrite Hl in Ec; destruct (_ && _) in Ec; [|done]; by injection Ec as <-.
Qed.

(** ** A cipher to run the model with: exclusive or with the key *)

Section Samples.
#[local] Existing Instance mib_heap.
#[local] Existing Instance sample_interop.
#[local] Existing Instance toy_crypto.
#[local] Existing Instance toy_curve.
#[local] Existing Instance toy_ecdsa.

Definition toy_nep2_crypto : Nep2Crypto := {|
  EVP_scrypt password salt _ := Some (le_bytes 64 (le_val (password ++ salt)));
  EVP_aes_256_ecb_encrypt key d := Some (xor_bytes d key);
  EVP_aes_256_ecb_decrypt key c := Some (xor_bytes c key)
|}.

#[local] Existing Instance toy_nep2_crypto.

Lemma toy_nep2_works params : nep2_works params.
Proof.
  split.
  - intros password salt. eexists. split; [done|apply length_le_bytes].
  - intros key d Hk Hd. exists (xor_bytes d key). split; [done|].
    split; [rewrite length_xor; lia|]. cbn. by rewrite xor_xor by lia.
Qed.

Lemma nep2_roundtrip_witness :
  exists s,
    neoc_nep2_decrypt Byte.x00 (Some s) (Some [Byte.x70; Byte.x77]) None 32 (replicate 32 Byte.xff)
    = (Ok tt, toy_private 5).
Proof.
  destruct (nep2_roundtrip Byte.x00 toy_crypto_works toy_curve_works
    (mib_heap_serves 128 ltac:(by vm_compute)) [Byte.x70; Byte.x77] None (toy_nep2_works _)
    (toy_private 5) _ (replicate 60 Byte.x00) (replicate 32 Byte.xff) (toy_private_point 5))
    as (s & rest & _ & _ & _ & E); [by vm_compute..|].
  exists s. exact E.
Defined.
End Samples.
