(* ===== verification/Nep6Wallet.v ===== *)
(** * NEP-6 wallets (src/wallet/nep6.c)

    A wallet is a list of the accounts it owns, in an array of [nw_capacity] pointers, with the
    scrypt parameters its keys are encrypted with.  Its JSON text is written with [snprintf]
    into one block and read with cJSON. *)

From S2P Require Import Prelude Crypto Base58 Hashes Interop Opcode NeoVM ScriptBuilder EcKey VerificationScript ScriptHelper Signature KeyPair Nep2 Cjson Json ParameterType Nep6.
From stdpp Require Import gmap fin_maps.
#[local] Open Scope Z_scope.

Record neoc_nep6_wallet_t := mk_nep6_wallet {
  nw_name : option (list byte);
  nw_version : option (list byte);
  nw_n : Z; nw_r : Z; nw_p : Z;
  nw_accounts : list neoc_nep6_account_t;
  nw_capacity : Z
}.

(** [sizeof(neoc_nep6_wallet_t)] *)
Definition nep6_wallet_size : Z := 64.

Definition with_accounts (accounts : list neoc_nep6_account_t) (capacity : Z) (w : neoc_nep6_wallet_t) : neoc_nep6_wallet_t :=
  mk_nep6_wallet (nw_name w) (nw_version w) (nw_n w) (nw_r w) (nw_p w) accounts capacity.

Section Operations.
Context `{Allocator} `{Interop} `{Crypto} `{Curve} `{!Ecdsa} `{Nep2Crypto} `{Double}.
Variable junk : byte.

Abbreviation Wal := (M neoc_nep6_wallet_t).

(** A copy whose failure is not noticed. *)
Definition strdup_or_null (s : list byte) : option (list byte) := if neoc_malloc_ok (zlen s + 1) then Some s else None.

Definition neoc_nep6_wallet_create (name version : option (list byte)) : res neoc_nep6_wallet_t :=
  if negb (neoc_malloc_ok nep6_wallet_size) then Err NEOC_ERROR_MEMORY
  else
    let name := strdup_or_null (default (str "NeoC Wallet") name) in
    let version := strdup_or_null (default (str "1.0") version) in
    if negb (neoc_malloc_ok (10 * 8)) then Err NEOC_ERROR_MEMORY
    else Ok (mk_nep6_wallet name version 16384 8 8 [] 10).

Definition address_matches (address : list byte) (a : neoc_nep6_account_t) : bool :=
  match na_address a with Some x => bool_decide (x = address) | None => false end.

Definition clear_default (a : neoc_nep6_account_t) : neoc_nep6_account_t :=
  snd (neoc_nep6_account_set_default false a).

(** The array grows to twice its capacity, or to 4 when it has none; a store behind its end is a
    fault. *)
Definition neoc_nep6_wallet_add_account_existing (account : neoc_nep6_account_t) : Wal unit := fun w =>
  match na_address account with
  | None => (Err NEOC_ERROR_INVALID_ARGUMENT, w)
  | Some address =>
      if existsb (address_matches address) (nw_accounts w) then (Err NEOC_ERROR_INVALID_STATE, w)
      else
        let '(r, capacity) :=
          if nw_capacity w <=? zlen (nw_accounts w) then
            let new_capacity := if nw_capacity w =? 0 then 4 else wrap 64 (nw_capacity w * 2) in
            if negb (neoc_malloc_ok (wrap 64 (new_capacity * 8))) then (Err NEOC_ERROR_MEMORY, nw_capacity w)
            else (Ok tt, new_capacity)
          else (Ok tt, nw_capacity w) in
        match r with
        | Ok _ =>
            let accounts := if na_is_default account then map clear_default (nw_accounts w) else nw_accounts w in
            if capacity <=? zlen accounts then (Fault, with_accounts accounts capacity w)
            else (Ok tt, with_accounts (accounts ++ [account]) capacity w)
        | Err e => (Err e, w)
        | Fault => (Fault, w)
        end
  end.

(** Two lower-case digits for every byte. *)
Definition hex_text (bs : list byte) : list byte :=
  concat (map (fun b => [hex_char (Z_of_byte b / 16); hex_char (Z_of_byte b mod 16)]) bs).

(** The signature script of the first Neo protocol: 33, the key, CHECKSIG. *)
Definition legacy_script (public_key : list byte) : list byte := Byte.x21 :: take 33 public_key ++ [Byte.xac].

Definition signature_parameter : neoc_nep6_parameter_t :=
  mk_nep6_parameter (Some (str "signature")) NEOC_PARAM_TYPE_SIGNATURE.

(** [strncpy] into an array of 64 bytes that is terminated afterwards. *)
Definition address_copy (address : list byte) : list byte := take 63 address.

(** The account of a key.  A public key that cannot be had leaves the bytes of the local array. *)
Definition nep6_account_of_key (private_key : list byte) (password : option (list byte)) (label : option (list byte))
    (is_default : bool) (params : neoc_nep2_params_t) : res neoc_nep6_account_t :=
  let? key_pair := neoc_ec_key_pair_from_private_key (Some private_key) 32 in
  let? address := neoc_ec_key_pair_get_address junk key_pair in
  let? encrypted_key := with_buffer junk 64 (neoc_nep2_encrypt junk (Some private_key) password (Some params) 64) in
  let? account :=
    neoc_nep6_account_create (Some (address_copy address)) label is_default false (Some (cstring encrypted_key)) None in
  let? public_key :=
    match neoc_ec_key_pair_get_public_key key_pair 65 with
    | Ok bs => Ok bs
    | Err _ => Ok (replicate 65 junk)
    | Fault => Fault
    end in
  let? contract := neoc_nep6_contract_create (Some (hex_text (legacy_script public_key))) [signature_parameter] false in
  Ok (snd (neoc_nep6_account_set_contract (Some contract) account)).

Definition neoc_nep6_wallet_add_account (private_key password label : option (list byte)) (is_default : bool) : Wal unit :=
  match private_key, password with
  | Some private_key, Some _ => fun w =>
      match nep6_account_of_key private_key password label is_default (mk_nep2_params (nw_n w) (nw_r w) (nw_p w)) with
      | Ok account => neoc_nep6_wallet_add_account_existing account w
      | Err e => (Err e, w)
      | Fault => (Fault, w)
      end
  | _, _ => fail NEOC_ERROR_INVALID_ARGUMENT
  end.

Definition neoc_nep6_wallet_get_name_copy (w : neoc_nep6_wallet_t) : res (option (list byte)) := strdup_opt (nw_name w).
Definition neoc_nep6_wallet_get_version_copy (w : neoc_nep6_wallet_t) : res (option (list byte)) := strdup_opt (nw_version w).

(** The old version is freed before the new one is copied. *)
Definition neoc_nep6_wallet_set_version (version : option (list byte)) : Wal unit := fun w =>
  let set v := mk_nep6_wallet (nw_name w) v (nw_n w) (nw_r w) (nw_p w) (nw_accounts w) (nw_capacity w) in
  match strdup_opt version with
  | Ok v => (Ok tt, set v)
  | Err e => (Err e, set None)
  | Fault => (Fault, w)
  end.

(** n, r, p and the length of derived keys. *)
Definition neoc_nep6_wallet_get_scrypt_copy (w : neoc_nep6_wallet_t) : option (Z * Z * Z * Z) :=
  if neoc_malloc_ok 16 then Some (nw_n w, nw_r w, nw_p w, 64) else None.

Definition neoc_nep6_wallet_get_scrypt_out (w : neoc_nep6_wallet_t) (dk_len : Z) : Z * Z * Z * Z :=
  (nw_n w, nw_r w, nw_p w, if dk_len =? 0 then 64 else dk_len).

Definition neoc_nep6_wallet_set_scrypt (n r p : Z) : Wal unit := fun w =>
  (Ok tt, mk_nep6_wallet (nw_name w) (nw_version w) n r p (nw_accounts w) (nw_capacity w)).

(** Up to the first account with the address the NULL addresses are read. *)
Fixpoint remove_address (address : list byte) (accounts : list neoc_nep6_account_t) : res (list neoc_nep6_account_t) :=
  match accounts with
  | [] => Err NEOC_ERROR_NOT_FOUND
  | a :: accounts =>
      match na_address a with
      | None => Fault
      | Some x =>
          if bool_decide (x = address) then Ok accounts
          else let? rest := remove_address address accounts in Ok (a :: rest)
      end
  end.

Definition neoc_nep6_wallet_remove_account (address : option (list byte)) : Wal unit :=
  match address with
  | None => fail NEOC_ERROR_INVALID_ARGUMENT
  | Some address => fun w =>
      match remove_address address (nw_accounts w) with
      | Ok accounts => (Ok tt, with_accounts accounts (nw_capacity w) w)
      | Err e => (Err e, w)
      | Fault => (Fault, w)
      end
  end.

Definition neoc_nep6_wallet_get_account_by_address (w : neoc_nep6_wallet_t) (address : option (list byte))
  : option neoc_nep6_account_t :=
  match address with Some address => List.find (address_matches address) (nw_accounts w) | None => None end.

(** The first account that is marked, or the first account. *)
Definition neoc_nep6_wallet_get_default_account_ptr (w : neoc_nep6_wallet_t) : option neoc_nep6_account_t :=
  match List.find na_is_default (nw_accounts w) with
  | Some a => Some a
  | None => head (nw_accounts w)
  end.

Definition neoc_nep6_wallet_get_default_account_out (w : neoc_nep6_wallet_t) : res neoc_nep6_account_t :=
  match neoc_nep6_wallet_get_default_account_ptr w with Some a => Ok a | None => Err NEOC_ERROR_NOT_FOUND end.

Definition neoc_nep6_wallet_get_account_count_value (w : option neoc_nep6_wallet_t) : Z :=
  match w with Some w => zlen (nw_accounts w) | None => 0 end.

Definition neoc_nep6_wallet_get_account_by_index (w : neoc_nep6_wallet_t) (index : Z) : option neoc_nep6_account_t :=
  buf_get (nw_accounts w) index.

(** The parameters of the wallet are not used: the default ones are. *)
Definition neoc_nep6_account_decrypt_private_key (account : neoc_nep6_account_t) (password : option (list byte))
    (private_key_len : Z) : M (list byte) unit :=
  match password with
  | None => fail NEOC_ERROR_INVALID_ARGUMENT
  | Some _ =>
      if private_key_len <? 32 then fail NEOC_ERROR_BUFFER_TOO_SMALL
      else
        match na_key account with
        | None => fail NEOC_ERROR_INVALID_STATE
        | Some key => neoc_nep2_decrypt junk (Some key) password None private_key_len
        end
  end.

(** ** Text *)

(** [snprintf(buffer + at, size, text)]: as much of the text as fits, terminated; the result
    is the length of the text. *)
Definition snprintf (at_ size : Z) (text : list byte) : M (list byte) Z :=
  if size =? 0 then ret (zlen text)
  else do! store at_ (take (Z.to_nat (size - 1)) text ++ [Byte.x00]) in ret (zlen text).

(** A text behind [offset] in a block of [total] bytes; the difference is a [size_t] and the new
    offset an [int]. *)
Definition print_at (total offset : Z) (text : list byte) : M (list byte) Z :=
  let! n := snprintf offset (wrap 64 (total - offset)) text in
  if 2 ^ 31 <=? offset + n then fault else ret (offset + n).

Definition quote : list byte := [Byte.x22].
Definition newline : list byte := [Byte.x0a].
Definition bool_text (b : bool) : list byte := if b then str "true" else str "false".

Definition header_text (w : neoc_nep6_wallet_t) : list byte :=
  str "{" ++ newline ++
  str "  " ++ quote ++ str "name" ++ quote ++ str ": " ++ quote ++ default [] (nw_name w) ++ quote ++ str "," ++ newline ++
  str "  " ++ quote ++ str "version" ++ quote ++ str ": " ++ quote ++ default [] (nw_version w) ++ quote ++ str "," ++ newline ++
  str "  " ++ quote ++ str "scrypt" ++ quote ++ str ": {" ++ newline ++
  str "    " ++ quote ++ str "n" ++ quote ++ str ": " ++ print_decimal (nw_n w) ++ str "," ++ newline ++
  str "    " ++ quote ++ str "r" ++ quote ++ str ": " ++ print_decimal (nw_r w) ++ str "," ++ newline ++
  str "    " ++ quote ++ str "p" ++ quote ++ str ": " ++ print_decimal (nw_p w) ++ newline ++
  str "  }," ++ newline ++
  str "  " ++ quote ++ str "accounts" ++ quote ++ str ": [" ++ newline.

(** An account with a label has nothing in the place of the label at first. *)
Definition account_head_text (a : neoc_nep6_account_t) : list byte :=
  str "    {" ++ newline ++
  str "      " ++ quote ++ str "address" ++ quote ++ str ": " ++ quote ++ default [] (na_address a) ++ quote ++ str "," ++ newline ++
  str "      " ++ quote ++ str "label" ++ quote ++ str ": " ++
    (match na_label a with Some _ => [] | None => str "null" end) ++ str "," ++ newline ++
  str "      " ++ quote ++ str "isDefault" ++ quote ++ str ": " ++ bool_text (na_is_default a) ++ str "," ++ newline ++
  str "      " ++ quote ++ str "lock" ++ quote ++ str ": " ++ bool_text (na_lock a) ++ str "," ++ newline ++
  str "      " ++ quote ++ str "key" ++ quote ++ str ": " ++ quote ++ default [] (na_key a) ++ quote ++ str "," ++ newline ++
  str "      " ++ quote ++ str "contract" ++ quote ++ str ": {" ++ newline ++
  str "        " ++ quote ++ str "script" ++ quote ++ str ": " ++ quote.

Definition label_text (label : list byte) : list byte := quote ++ label ++ quote ++ str "," ++ newline.

Definition parameters_text : list byte :=
  quote ++ str "," ++ newline ++ str "        " ++ quote ++ str "parameters" ++ quote ++ str ": []".

Definition is_deployed_account (a : neoc_nep6_account_t) : bool :=
  match na_contract a with Some c => nc_is_deployed c | None => false end.

(** Without a deployed contract the list of parameters is closed a second time. *)
Definition account_tail_text (a : neoc_nep6_account_t) (last : bool) : list byte :=
  (if is_deployed_account a then str "," else str "],") ++ newline ++
  str "        " ++ quote ++ str "deployed" ++ quote ++ str ": " ++ bool_text (is_deployed_account a) ++ newline ++
  str "      }" ++ newline ++ str "    }" ++ (if last then [] else str ",") ++ newline.

Definition footer_text : list byte := str "  ]" ++ newline ++ str "}" ++ newline.

(** The label is written over the last six characters and what follows it is cut off. *)
Definition print_account (total : Z) (a : neoc_nep6_account_t) (last : bool) (offset : Z) : M (list byte) Z :=
  let! offset := print_at total offset (account_head_text a) in
  do! (match na_label a with
       | Some label => do! snprintf (offset - 6) 256 (label_text label) in ret tt
       | None => ret tt
       end) in
  let! buffer := get in
  let! offset := lift (array_strlen buffer) in
  let! offset := print_at total offset parameters_text in
  print_at total offset (account_tail_text a last).

Fixpoint print_accounts (total : Z) (accounts : list neoc_nep6_account_t) (offset : Z) : M (list byte) Z :=
  match accounts with
  | [] => ret offset
  | a :: accounts =>
      let! offset := print_account total a (match accounts with [] => true | _ => false end) offset in
      print_accounts total accounts offset
  end.

(** The block and the length of the text. *)
Definition neoc_nep6_wallet_to_json (w : neoc_nep6_wallet_t) : res (list byte * Z) :=
  let estimated_size := wrap 64 (4096 + zlen (nw_accounts w) * 512) in
  if negb (neoc_malloc_ok estimated_size) then Err NEOC_ERROR_MEMORY
  else
    let m :=
      let! offset := print_at estimated_size 0 (header_text w) in
      let! offset := print_accounts estimated_size (nw_accounts w) offset in
      print_at estimated_size offset footer_text in
    match m (replicate (Z.to_nat estimated_size) junk) with
    | (Ok offset, buffer) => Ok (buffer, offset)
    | (Err e, _) => Err e
    | (Fault, _) => Fault
    end.

(** The file has the [json_len] bytes of the text, of which [fwrite] may write less; reading behind
    the block is a fault.  The result is what the file holds. *)
Definition neoc_nep6_wallet_to_file (w : neoc_nep6_wallet_t) (opens : bool) (writes : Z -> Z) : res (list byte) :=
  let? '(json, json_len) := neoc_nep6_wallet_to_json w in
  if negb opens then Err NEOC_ERROR_INVALID_STATE
  else
    match buf_slice json 0 json_len with
    | None => Fault
    | Some text => if writes json_len =? json_len then Ok text else Err NEOC_ERROR_INVALID_STATE
    end.

(** [strdup] of a member that is a string; a failed copy is not noticed. *)
Definition string_member (object : cJSON) (name : list byte) : option (list byte) :=
  match cJSON_GetObjectItem object name with
  | Some (cJSON_String s) => if malloc_ok (zlen s + 1) then Some s else None
  | _ => None
  end.

Definition bool_member (object : cJSON) (name : list byte) : bool :=
  match cJSON_GetObjectItem object name with Some (cJSON_Bool b) => b | _ => false end.

(** [valueint] of any item; it is 1 for true and 0 for what is not a number. *)
Definition valueint (item : cJSON) : res Z :=
  match item with
  | cJSON_Number d => double_to_int d
  | cJSON_Bool true => Ok 1
  | _ => Ok 0
  end.

(** A parameter that is missing stays 0. *)
Definition scrypt_member (scrypt : option cJSON) (name : list byte) : res Z :=
  match scrypt with
  | Some scrypt =>
      match cJSON_GetObjectItem scrypt name with
      | Some item => let? v := valueint item in Ok (wrap 32 v)
      | None => Ok 0
      end
  | None => Ok 0
  end.

(** The block of an account is not tested: without memory its first field is a fault.  The
    contract is not read. *)
Definition read_account (item : cJSON) : res neoc_nep6_account_t :=
  if negb (neoc_malloc_ok nep6_account_size) then Fault
  else Ok (mk_nep6_account (string_member item (str "address")) (string_member item (str "label"))
             (bool_member item (str "isDefault")) (bool_member item (str "lock")) (string_member item (str "key")) None []).

Fixpoint read_accounts (items : list cJSON) : res (list neoc_nep6_account_t) :=
  match items with
  | [] => Ok []
  | item :: items =>
      let? a := read_account item in let? rest := read_accounts items in Ok (a :: rest)
  end.

(** The capacity stays 0. *)
Definition neoc_nep6_wallet_from_json (json_str : option (list byte)) : res neoc_nep6_wallet_t :=
  match json_str with
  | None => Err NEOC_ERROR_INVALID_ARGUMENT
  | Some _ =>
      match cJSON_Parse json_str with
      | Err _ => Err NEOC_ERROR_INVALID_FORMAT
      | Fault => Fault
      | Ok json_obj =>
          if negb (neoc_malloc_ok nep6_wallet_size) then Err NEOC_ERROR_MEMORY
          else
            let scrypt := cJSON_GetObjectItem json_obj (str "scrypt") in
            let? n := scrypt_member scrypt (str "n") in
            let? r := scrypt_member scrypt (str "r") in
            let? p := scrypt_member scrypt (str "p") in
            let? accounts :=
              match cJSON_GetObjectItem json_obj (str "accounts") with
              | Some (cJSON_Array items) =>
                  if (0 <? zlen items) && negb (neoc_malloc_ok (zlen items * 8)) then Fault
                  else read_accounts items
              | _ => Ok []
              end in
            Ok (mk_nep6_wallet (string_member json_obj (str "name")) (string_member json_obj (str "version")) n r p accounts 0)
      end
  end.

(** [file] is what can be read of the file, [None] when it cannot be opened; [reads] is how much of
    it [fread] delivers.  The text ends at the first NUL. *)
Definition neoc_nep6_wallet_from_file (file : option (list byte)) (reads : Z -> Z) : res neoc_nep6_wallet_t :=
  match file with
  | None => Err NEOC_ERROR_FILE
  | Some content =>
      let file_size := zlen content in
      if (file_size <=? 0) || (10485760 <? file_size) then Err NEOC_ERROR_INVALID_FORMAT
      else if negb (neoc_malloc_ok (file_size + 1)) then Err NEOC_ERROR_MEMORY
      else if negb (reads file_size =? file_size) then Err NEOC_ERROR_FILE
      else neoc_nep6_wallet_from_json (Some (cstring (content ++ [Byte.x00])))
  end.
End Operations.

(** ** Sessions

    The calls that change a wallet, and what they mean for the finite map from addresses to
    accounts.  Adding and setting the version can also fail for want of memory. *)

#[global] Instance byte_countable : Countable byte.
Proof. apply (inj_countable' Z_of_byte byte_of_Z). intros b. apply byte_of_Z_of_byte. Defined.

Inductive nep6_op :=
| N6Add (account : neoc_nep6_account_t)
| N6Remove (address : list byte)
| N6SetVersion (version : option (list byte))
| N6SetScrypt (n r p : Z).

Definition exec_nep6_op `{Allocator} (op : nep6_op) : M neoc_nep6_wallet_t unit :=
  match op with
  | N6Add a => neoc_nep6_wallet_add_account_existing a
  | N6Remove t => neoc_nep6_wallet_remove_account (Some t)
  | N6SetVersion v => neoc_nep6_wallet_set_version v
  | N6SetScrypt n r p => neoc_nep6_wallet_set_scrypt n r p
  end.

Fixpoint exec_nep6_ops `{Allocator} (ops : list nep6_op) (w : neoc_nep6_wallet_t) : list (res unit) * neoc_nep6_wallet_t :=
  match ops with
  | [] => ([], w)
  | op :: ops =>
      let '(r, w) := exec_nep6_op op w in
      let '(rs, w) := exec_nep6_ops ops w in (r :: rs, w)
  end.

Abbreviation account_map := (gmap (list byte) neoc_nep6_account_t).

Inductive nep6_spec : account_map -> nep6_op -> res unit -> account_map -> Prop :=
| nep6_spec_add m a t :
    na_address a = Some t -> m !! t = None ->
    nep6_spec m (N6Add a) (Ok tt) (<[t := a]> (if na_is_default a then clear_default <$> m else m))
| nep6_spec_twice m a t b :
    na_address a = Some t -> m !! t = Some b -> nep6_spec m (N6Add a) (Err NEOC_ERROR_INVALID_STATE) m
| nep6_spec_nameless m a :
    na_address a = None -> nep6_spec m (N6Add a) (Err NEOC_ERROR_INVALID_ARGUMENT) m
| nep6_spec_full m a : nep6_spec m (N6Add a) (Err NEOC_ERROR_MEMORY) m
| nep6_spec_remove m t b :
    m !! t = Some b -> nep6_spec m (N6Remove t) (Ok tt) (delete t m)
| nep6_spec_missing m t :
    m !! t = None -> nep6_spec m (N6Remove t) (Err NEOC_ERROR_NOT_FOUND) m
| nep6_spec_version m v : nep6_spec m (N6SetVersion v) (Ok tt) m
| nep6_spec_version_full m v : nep6_spec m (N6SetVersion v) (Err NEOC_ERROR_MEMORY) m
| nep6_spec_scrypt m n r p : nep6_spec m (N6SetScrypt n r p) (Ok tt) m.

Inductive nep6_specs : account_map -> list nep6_op -> list (res unit) -> account_map -> Prop :=
| nep6_specs_nil m : nep6_specs m [] [] m
| nep6_specs_cons m op r m1 ops rs m2 :
    nep6_spec m op r m1 -> nep6_specs m1 ops rs m2 -> nep6_specs m (op :: ops) (r :: rs) m2.

(** The accounts of a wallet with their addresses, and the map they are. *)
Definition keyed (kas : list (list byte * neoc_nep6_account_t)) : Prop :=
  Forall (fun ka => na_address (snd ka) = Some (fst ka)) kas /\ NoDup (map fst kas).

Definition one_default (accounts : list neoc_nep6_account_t) : Prop :=
  (length (List.filter na_is_default accounts) <= 1)%nat.

Definition nep6_represents (w : neoc_nep6_wallet_t) (m : account_map) : Prop :=
  exists kas, nw_accounts w = map snd kas /\ keyed kas /\ m = list_to_map kas /\
    one_default (nw_accounts w) /\ zlen kas <= nw_capacity w /\ 0 < nw_capacity w < 2 ^ 60.

Lemma address_matches_key t k a : na_address a = Some k -> address_matches t a = bool_decide (k = t).
Proof. unfold address_matches. by intros ->. Qed.

Lemma find_account_map t kas :
  keyed kas -> List.find (address_matches t) (map snd kas) = (list_to_map kas : account_map) !! t.
Proof.
  intros [Hk Hn]. induction Hk as [|[k a] kas Ha Hk IH]; [done|]. cbn [map snd List.find].
  apply NoDup_cons in Hn as [_ Hn]. rewrite (address_matches_key t k a Ha). cbn [list_to_map foldr].
  case_bool_decide as E; [by subst k; rewrite lookup_insert_eq|].
  rewrite lookup_insert_ne by done. by apply IH.
Qed.

Lemma existsb_find {A} (f : A -> bool) l : existsb f l = match List.find f l with Some _ => true | None => false end.
Proof. induction l as [|x l IH]; [done|]. cbn. by destruct (f x). Qed.

Lemma clear_default_address a : na_address (clear_default a) = na_address a.
Proof. done. Qed.

Lemma clear_keyed kas : keyed kas -> keyed (prod_map id clear_default <$> kas).
Proof.
  intros [Hk Hn]. split.
  - apply Forall_fmap. eapply Forall_impl; [exact Hk|]. by intros [k a] E.
  - change (NoDup ((prod_map id clear_default <$> kas).*1)). rewrite <- list_fmap_compose.
    by rewrite (list_fmap_ext _ fst kas) by (by intros ? []).  
Qed.

Lemma clear_entries (kas : list (list byte * neoc_nep6_account_t)) : map clear_default (map snd kas) = map snd (prod_map id clear_default <$> kas).
Proof. induction kas as [|[k a] kas IH]; [done|]. cbn [map fmap list_fmap snd]. by rewrite IH. Qed.

Lemma clear_none accounts : List.filter na_is_default (map clear_default accounts) = [].
Proof. by induction accounts. Qed.

Lemma snoc_default accounts a :
  one_default accounts -> one_default ((if na_is_default a then map clear_default accounts else accounts) ++ [a]).
Proof.
  unfold one_default. rewrite List.filter_app, length_app. cbn [List.filter].
  destruct (na_is_default a); [rewrite clear_none|]; cbn [length]; lia.
Qed.

Lemma snoc_keyed kas t a :
  keyed kas -> na_address a = Some t -> (list_to_map kas : account_map) !! t = None -> keyed (kas ++ [(t, a)]).
Proof.
  intros [Hk Hn] Ha Hm. split; [by apply Forall_app; split; [|constructor]|].
  rewrite map_app. apply NoDup_app. split_and!; [done| |apply NoDup_singleton].
  intros k Hin Hk1. apply list_elem_of_singleton in Hk1 as ->. by apply not_elem_of_list_to_map in Hm.
Qed.

Lemma remove_entries t kas :
  keyed kas ->
  match (list_to_map kas : account_map) !! t with
  | None => remove_address t (map snd kas) = Err NEOC_ERROR_NOT_FOUND
  | Some _ => exists kas', remove_address t (map snd kas) = Ok (map snd kas') /\
      sublist kas' kas /\ (list_to_map kas' : account_map) = delete t (list_to_map kas)
  end.
Proof.
  intros [Hk Hn]. induction Hk as [|[k a] kas Ha Hk IH]; [done|].
  apply NoDup_cons in Hn as [Hk1 Hn]. specialize (IH Hn). cbn [map snd remove_address fst] in *.
  rewrite list_to_map_cons, Ha. case_bool_decide as E.
  - subst t. rewrite lookup_insert_eq. exists kas. split_and!; [done|by constructor|].
    rewrite delete_insert_id; [done|]. by apply not_elem_of_list_to_map.
  - rewrite lookup_insert_ne by done.
    destruct ((list_to_map kas : account_map) !! t); [|by rewrite IH].
    destruct IH as (kas' & -> & Hs & Em). exists ((k, a) :: kas').
    split_and!; [done|by constructor|]. rewrite list_to_map_cons, Em. by rewrite delete_insert_ne.
Qed.

Lemma sublist_default l1 l2 : sublist l1 l2 -> one_default l2 -> one_default l1.
Proof.
  unfold one_default. intros Hs H2. enough (length (List.filter na_is_default l1) <= length (List.filter na_is_default l2))%nat by lia.
  clear H2. induction Hs as [|x l1 l2 _ IH|x l1 l2 _ IH]; [done|..]; cbn; destruct (na_is_default x); cbn; lia.
Qed.

Lemma sublist_map {A B} (f : A -> B) l1 l2 : sublist l1 l2 -> sublist (map f l1) (map f l2).
Proof. induction 1; cbn; by constructor. Qed.

Lemma sublist_keyed l1 l2 : sublist l1 l2 -> keyed l2 -> keyed l1.
Proof.
  intros Hs [Hk Hn]. split; [|exact (sublist_NoDup _ _ Hn (sublist_map fst _ _ Hs))].
  rewrite Forall_forall in *. intros x Hx. apply Hk. by eapply elem_of_sublist.
Qed.

Section Sessions.
Context `{Allocator}.
Hypothesis Hbound : heap_bounded.

(** A successful growth of the array does not wrap. *)
Lemma wallet_grows capacity :
  0 < capacity < 2 ^ 60 -> neoc_malloc_ok (wrap 64 (wrap 64 (capacity * 2) * 8)) = true ->
  wrap 64 (capacity * 2) = capacity * 2 /\ capacity * 2 < 2 ^ 60.
Proof.
  intros Hc Hm. assert (wrap 64 (capacity * 2) = capacity * 2) as E by (apply wrap_small; lia).
  rewrite E, wrap_small in Hm by lia. unfold neoc_malloc_ok in Hm. destruct (_ =? 0); [done|].
  apply Hbound in Hm. split; [done|lia].
Qed.

Lemma add_refines a w m :
  nep6_represents w m ->
  exists r w' m', neoc_nep6_wallet_add_account_existing a w = (r, w') /\ nep6_spec m (N6Add a) r m' /\ nep6_represents w' m'.
Proof.
  intros R. pose proof R as (kas & Ea & Hk & -> & Hd & Hr & Hc).
  unfold neoc_nep6_wallet_add_account_existing. pose proof (zlen_nonneg kas).
  destruct (na_address a) as [t|] eqn:Et; [|eauto 8 using nep6_spec].
  rewrite existsb_find, Ea, find_account_map by done.
  destruct ((list_to_map kas : account_map) !! t) as [b|] eqn:El; [eauto 8 using nep6_spec|].
  rewrite <- Ea. set (grown := if nw_capacity w <=? _ then _ else _).
  assert (grown = (Err NEOC_ERROR_MEMORY, nw_capacity w) \/
          exists c, grown = (Ok tt, c) /\ zlen kas < c < 2 ^ 60) as [->|(c & -> & Hz)].
  { subst grown. assert (zlen (nw_accounts w) = zlen kas) as -> by (rewrite Ea; unfold zlen; by rewrite length_map).
    destruct (_ <=? _) eqn:E; bdestruct; [|right; eexists; split; [done|lia]]. cmps.
    destruct (neoc_malloc_ok _) eqn:Em; [|by left]. right. apply wallet_grows in Em as [-> Hlt]; [|lia].
    eexists. split; [done|lia]. }
  { eauto 8 using nep6_spec. }
  set (kas1 := if na_is_default a then prod_map id clear_default <$> kas else kas).
  assert ((if na_is_default a then map clear_default (nw_accounts w) else nw_accounts w) = map snd kas1) as E1.
  { subst kas1. rewrite Ea. destruct (na_is_default a); [apply clear_entries|done]. }
  assert (keyed kas1) as Hk1 by (subst kas1; destruct (na_is_default a); [by apply clear_keyed|done]).
  assert (zlen kas1 = zlen kas) as Hl1 by (subst kas1; destruct (na_is_default a); [unfold zlen; by rewrite length_fmap|done]).
  assert ((list_to_map kas1 : account_map) = if na_is_default a then clear_default <$> (list_to_map kas : account_map) else list_to_map kas) as Em.
  { subst kas1. destruct (na_is_default a); [apply list_to_map_fmap|done]. }
  assert ((list_to_map kas1 : account_map) !! t = None) as El1
    by (rewrite Em; destruct (na_is_default a); [by rewrite lookup_fmap, El|done]).
  rewrite E1. assert (zlen (map snd kas1) = zlen kas) as -> by (unfold zlen in *; by rewrite length_map). cmps.
  eexists _, _, _. split; [reflexivity|]. split; [by eapply nep6_spec_add|].
  exists (kas1 ++ [(t, a)]). cbn [nw_accounts nw_capacity with_accounts]. split_and!; try lia.
  - by rewrite map_app.
  - by apply snoc_keyed.
  - rewrite list_to_map_snoc by (by apply not_elem_of_list_to_map). by rewrite Em.
  - rewrite <- E1. by apply snoc_default.
  - rewrite zlen_app, Hl1. change (zlen [(t, a)]) with 1. lia.
Qed.

Lemma remove_refines t w m :
  nep6_represents w m ->
  exists r w' m', neoc_nep6_wallet_remove_account (Some t) w = (r, w') /\ nep6_spec m (N6Remove t) r m' /\ nep6_represents w' m'.
Proof.
  intros R. pose proof R as (kas & Ea & Hk & -> & Hd & Hr & Hc).
  unfold neoc_nep6_wallet_remove_account. rewrite Ea. pose proof (remove_entries t kas Hk) as E.
  destruct ((list_to_map kas : account_map) !! t) as [b|] eqn:El; [|rewrite E; eauto 8 using nep6_spec].
  destruct E as (kas' & -> & Hs & Em). eexists _, _, _. split; [reflexivity|].
  split; [by eapply nep6_spec_remove|]. exists kas'. cbn [nw_accounts nw_capacity with_accounts].
  apply sublist_length in Hs as Hl. split_and!; try done; try lia.
  - by eapply sublist_keyed.
  - eapply sublist_default; [|exact Hd]. rewrite Ea. by apply sublist_map.
  - unfold zlen in *. lia.
Qed.

Lemma nep6_op_refines op w m :
  nep6_represents w m ->
  exists r w' m', exec_nep6_op op w = (r, w') /\ nep6_spec m op r m' /\ nep6_represents w' m'.
Proof.
  intros R. destruct op as [a|t|v|n r p]; cbn [exec_nep6_op].
  - by apply add_refines.
  - by apply remove_refines.
  - unfold neoc_nep6_wallet_set_version, strdup_opt, neoc_strdup.
    destruct v as [v|]; [destruct (neoc_malloc_ok _)|]; cbn [negb rbind]; eauto 8 using nep6_spec.
  - unfold neoc_nep6_wallet_set_scrypt. eauto 8 using nep6_spec.
Qed.

Lemma nep6_ops_refine ops : forall w m,
  nep6_represents w m ->
  exists rs w' m', exec_nep6_ops ops w = (rs, w') /\ nep6_specs m ops rs m' /\ nep6_represents w' m'.
Proof.
  induction ops as [|op ops IH]; intros w m R; [exists [], w, m; eauto using nep6_specs|].
  destruct (nep6_op_refines op w m R) as (r & w1 & m1 & E & Hs & R1).
  destruct (IH w1 m1 R1) as (rs & w2 & m2 & E2 & Hs2 & R2).
  exists (r :: rs), w2, m2. cbn [exec_nep6_ops]. rewrite E, E2. eauto using nep6_specs.
Qed.

Lemma create_represents name version w :
  neoc_nep6_wallet_create name version = Ok w -> nep6_represents w ∅.
Proof.
  unfold neoc_nep6_wallet_create. destruct (negb _); [done|]. cbv zeta. destruct (negb _); [done|].
  intros [= <-]. exists []. cbn. split_and!; try done; try lia; [by repeat constructor|unfold one_default; cbn; lia].
Qed.
End Sessions.

Lemma filter_one {A} (f : A -> bool) l x y :
  (length (List.filter f l) <= 1)%nat -> In x l -> In y l -> f x = true -> f y = true -> x = y.
Proof.
  intros Hl Hx Hy Fx Fy. assert (In x (List.filter f l)) as Hx1 by (by apply filter_In).
  assert (In y (List.filter f l)) as Hy1 by (by apply filter_In).
  destruct (List.filter f l) as [|z [|z' l']]; [done| |cbn in Hl; lia]. cbn in *. intuition congruence.
Qed.

Lemma find_the_one {A} (f : A -> bool) l x :
  (length (List.filter f l) <= 1)%nat -> In x l -> f x = true -> List.find f l = Some x.
Proof.
  intros Hl Hx Fx. destruct (List.find f l) as [y|] eqn:E.
  - apply find_some in E as [Hy Fy]. f_equal. by eapply filter_one.
  - eapply find_none in E; [|exact Hx]. congruence.
Qed.

Lemma represents_reads w m :
  nep6_represents w m ->
  (forall t, neoc_nep6_wallet_get_account_by_address w (Some t) = m !! t) /\
  neoc_nep6_wallet_get_account_count_value (Some w) = Z.of_nat (size m) /\
  forall t a, m !! t = Some a -> na_address a = Some t /\
    (na_is_default a = true -> neoc_nep6_wallet_get_default_account_out w = Ok a).
Proof.
  intros (kas & Ea & Hk & -> & Hd & _ & _). split_and!.
  - intros t. cbn. rewrite Ea. by apply find_account_map.
  - cbn. rewrite Ea, (map_size_list_to_map (M := gmap (list byte))) by apply Hk. unfold zlen. by rewrite length_map.
  - intros t a E. assert ((t, a) ∈ kas) as Hin by (by apply elem_of_list_to_map_2 in E).
    split; [by apply (proj1 (Forall_forall _ _) (proj1 Hk) (t, a) Hin)|]. intros Hda.
    unfold neoc_nep6_wallet_get_default_account_out, neoc_nep6_wallet_get_default_account_ptr.
    rewrite (find_the_one na_is_default (nw_accounts w) a Hd); [done| |done].
    rewrite Ea. apply (in_map snd kas (t, a)). by apply list_elem_of_In.
Qed.

(** C37. A newly created NEP-6 wallet is a finite map from addresses to accounts: for every sequence of
    additions, removals and settings on it, whatever the allocator does, the array is
    never overrun, the results are those of the map, and the lookups, the count and the default
    account are those of the map.  An address has one account, and no two accounts are marked as
    the default.  A wallet of four accounts or more that was loaded from text is overrun by the
    first addition ([nep6_loaded_add_overruns]). *)
Theorem nep6_wallet_refines_map `{Allocator} (name version : option (list byte)) (w : neoc_nep6_wallet_t)
    (ops : list nep6_op) :
  heap_bounded -> neoc_nep6_wallet_create name version = Ok w ->
  exists rs w' m, exec_nep6_ops ops w = (rs, w') /\ nep6_specs ∅ ops rs m /\ (Fault ∉ rs) /\
    (forall t, neoc_nep6_wallet_get_account_by_address w' (Some t) = m !! t) /\
    neoc_nep6_wallet_get_account_count_value (Some w') = Z.of_nat (size m) /\
    zlen (nw_accounts w') <= nw_capacity w' /\
    forall t a, m !! t = Some a -> na_address a = Some t /\
      (na_is_default a = true -> neoc_nep6_wallet_get_default_account_out w' = Ok a).
Proof.
  intros Hb Hc. destruct (nep6_ops_refine Hb ops w ∅ (create_represents _ _ _ Hc)) as (rs & w' & m & E & Hs & R).
  destruct (represents_reads w' m R) as (Hl & Hn & Hd). exists rs, w', m. split_and!; try done.
  - clear -Hs. induction Hs as [|m op r m1 ops rs m2 H1 _ IH]; [by apply not_elem_of_nil|].
    apply not_elem_of_cons. split; [by destruct H1|done].
  - destruct R as (kas & -> & _ & _ & _ & Hr & _). unfold zlen in *. by rewrite length_map.
Qed.

(** ** Keys *)

Section Keys.
Context `{Allocator} `{Interop} `{Crypto} `{Curve} `{!Ecdsa} `{Nep2Crypto} `{Double}.
Variable junk : byte.
Hypothesis Hw : crypto_works.
Hypothesis Hcurve : curve_works.
Hypothesis Hheap : heap_serves 128.
Hypothesis Hnep2 : nep2_works NEOC_NEP2_DEFAULT_PARAMS.

Lemma hex_text_length bs : zlen (hex_text bs) = 2 * zlen bs.
Proof. induction bs as [|b bs IH]; [done|]. cbn [hex_text map concat]. fold (hex_text bs). cbn [app]. rewrite !zlen_cons. lia. Qed.

Lemma strdup_serves s : zlen s < 128 -> neoc_strdup s NEOC_ERROR_OUT_OF_MEMORY = Ok s.
Proof. intros Hs. unfold neoc_strdup, neoc_malloc_ok. pose proof (zlen_nonneg s). cmps. by rewrite Hheap by lia. Qed.

Lemma signature_contract_ok script :
  zlen script < 128 ->
  neoc_nep6_contract_create (Some script) [signature_parameter] false
  = Ok (mk_nep6_contract (Some script) [signature_parameter] false).
Proof.
  intros Hs. unfold neoc_nep6_contract_create, nep6_contract_size, neoc_malloc_ok. cbn [Z.eqb].
  rewrite Hheap by lia. cbn [negb strdup_opt]. rewrite strdup_serves by done. cbn [rbind].
  change (0 <? zlen [signature_parameter]) with true. cbv iota.
  change (zlen [signature_parameter] * nep6_parameter_size) with 16. cbn [Z.eqb]. rewrite Hheap by lia.
  cbn [negb copy_parameters signature_parameter np_name np_type strdup_opt].
  by rewrite strdup_serves by (by vm_compute).
Qed.

(** What the account of a key is: the address of the pair, the encrypted key and the contract. *)
Lemma account_of_key_ok key point password label is_default :
  key_point key point -> match label with Some l => zlen l < 128 | None => True end ->
  exists address text,
    neoc_ec_key_pair_get_address junk (pair_of key point) = Ok address /\ 0 <= zlen address <= 35 /\
    nep6_account_of_key junk key (Some password) label is_default NEOC_NEP2_DEFAULT_PARAMS
    = Ok (mk_nep6_account (Some address) label is_default false (Some text)
            (Some (mk_nep6_contract (Some (hex_text (legacy_script (EC_POINT_point2oct true point)))) [signature_parameter] false)) []) /\
    forall out, 32 <= zlen out ->
      neoc_nep2_decrypt junk (Some text) (Some password) None (zlen out) out = (Ok tt, key ++ drop 32 out).
Proof.
  intros Hkp Hl. assert (heap_serves 120) as H120 by (eapply heap_serves_mono; [exact Hheap|lia]).
  destruct (pair_address_ok Hcurve junk key point Hw H120) as (_ & pair & address & _ & _ & _ & _ & Ea & Hp & Ha).
  apply address_of_length in Ha as Hal; [|done].
  destruct (nep2_encrypt_decrypt junk Hw Hcurve Hheap password (Some NEOC_NEP2_DEFAULT_PARAMS) Hnep2
    key point [] (replicate 64 junk) Hkp) as (s & rest & E & Hs & Hnul & _ & D); [by vm_compute|].
  rewrite app_nil_r in E. change (zlen (replicate 64 junk)) with 64 in E.
  exists address, s. split_and!; [done|lia|lia| |exact D].
  unfold nep6_account_of_key, neoc_ec_key_pair_from_private_key. change (negb (32 =? 32)) with false. cbv iota.
  rewrite (pair_create Hcurve key point Hkp H120). cbn [rbind]. rewrite Ea. cbn [rbind].
  unfold with_buffer. rewrite E. cbn [rbind]. rewrite cstring_app by done.
  unfold address_copy. rewrite take_ge by (unfold zlen in *; lia).
  unfold neoc_nep6_account_create, nep6_account_size, neoc_malloc_ok. cbn [Z.eqb]. rewrite Hheap by lia.
  cbn [negb]. rewrite strdup_serves by lia. cbn [rbind].
  assert (strdup_opt label = Ok label) as El
    by (destruct label; [cbn; by rewrite strdup_serves|done]).
  rewrite El. cbn [rbind strdup_opt]. rewrite strdup_serves by lia. cbn [rbind].
  rewrite (get_public_ok Hcurve) by lia. cbn [rbind]. rewrite signature_contract_ok; [done|].
  rewrite hex_text_length. unfold legacy_script. rewrite zlen_cons, zlen_app.
  rewrite take_ge by (pose proof (works_compressed_size Hcurve point) as Hz; unfold zlen in Hz; lia).
  rewrite (works_compressed_size Hcurve point). by vm_compute.
Qed.

(** Keys survive a NEP-6 wallet: a key of the curve that is added with a password to a
    wallet with the default parameters, room for it and no account of its address is found
    under the address of its pair, and decrypting that account with the password gives the key. *)
Theorem nep6_key_roundtrip (key password : list byte) (point : EC_POINT) (label : option (list byte))
    (is_default : bool) (w : neoc_nep6_wallet_t) (address out : list byte) :
  key_point key point -> match label with Some l => zlen l < 128 | None => True end ->
  mk_nep2_params (nw_n w) (nw_r w) (nw_p w) = NEOC_NEP2_DEFAULT_PARAMS ->
  zlen (nw_accounts w) < nw_capacity w ->
  neoc_ec_key_pair_get_address junk (pair_of key point) = Ok address ->
  neoc_nep6_wallet_get_account_by_address w (Some address) = None -> 32 <= zlen out ->
  exists w' account,
    neoc_nep6_wallet_add_account junk (Some key) (Some password) label is_default w = (Ok tt, w') /\
    zlen (nw_accounts w') = zlen (nw_accounts w) + 1 /\
    neoc_nep6_wallet_get_account_by_address w' (Some address) = Some account /\
    na_label account = label /\ na_is_default account = is_default /\ na_lock account = false /\
    neoc_nep6_account_decrypt_private_key junk account (Some password) (zlen out) out = (Ok tt, key ++ drop 32 out).
Proof.
  intros Hkp Hl Hp Hr Ea Hf Ho. destruct (account_of_key_ok key point password label is_default Hkp Hl)
    as (address' & text & Ea' & _ & E & D).
  assert (address' = address) as -> by congruence.
  set (a := mk_nep6_account _ _ _ _ _ _ _) in E.
  assert (exists accounts, length accounts = length (nw_accounts w) /\
    List.find (address_matches address) accounts = None /\
    neoc_nep6_wallet_add_account_existing a w = (Ok tt, with_accounts (accounts ++ [a]) (nw_capacity w) w))
    as (accounts & Hlen & Hfa & Eadd).
  { unfold neoc_nep6_wallet_add_account_existing, a. cbn [na_address]. cbn in Hf.
    rewrite existsb_find, Hf. cmps. cbn [na_is_default]. destruct is_default.
    - exists (map clear_default (nw_accounts w)). assert (zlen (map clear_default (nw_accounts w)) = zlen (nw_accounts w)) as ->
        by (unfold zlen; by rewrite length_map). cmps. split_and!; [by rewrite length_map| |done].
      clear -Hf. induction (nw_accounts w) as [|x l IH]; [done|]. cbn [map List.find] in *.
      change (address_matches address (clear_default x)) with (address_matches address x).
      destruct (address_matches address x); [done|]. by apply IH.
    - exists (nw_accounts w). cmps. done. }
  exists (with_accounts (accounts ++ [a]) (nw_capacity w) w), a. split_and!; try done.
  - unfold neoc_nep6_wallet_add_account. rewrite Hp, E. exact Eadd.
  - cbn [nw_accounts with_accounts]. rewrite zlen_app. unfold zlen. rewrite Hlen. done.
  - cbn [neoc_nep6_wallet_get_account_by_address nw_accounts with_accounts].
    clear -Hfa. induction accounts as [|x l IH].
    + cbn. unfold address_matches, a. cbn [na_address]. by rewrite bool_decide_eq_true_2.
    + cbn [app List.find] in *. destruct (address_matches address x); [done|]. by apply IH.
  - unfold neoc_nep6_account_decrypt_private_key. cmps. cbn [na_key a]. by apply D.
Qed.
End Keys.

(** ** Loaded wallets *)

(** A wallet that was read from JSON has an array without spare places and the capacity 0:
    when it has four accounts or more, adding an account asks for an array of four places and
    stores behind it. *)
Theorem nep6_loaded_add_overruns `{Allocator} `{Double} (json_str : option (list byte)) (w : neoc_nep6_wallet_t)
    (account : neoc_nep6_account_t) (address : list byte) :
  neoc_nep6_wallet_from_json json_str = Ok w -> 4 <= zlen (nw_accounts w) -> malloc_ok 32 = true ->
  na_address account = Some address -> neoc_nep6_wallet_get_account_by_address w (Some address) = None ->
  fst (neoc_nep6_wallet_add_account_existing account w) = Fault.
Proof.
  intros E Hn Hm Ha Hf. assert (nw_capacity w = 0) as Hc.
  { unfold neoc_nep6_wallet_from_json in E. destruct json_str; [|done]. destruct (cJSON_Parse _); [|done..].
    destruct (negb _); [done|]. repeat (match type of E with rbind ?r _ = _ => destruct r; [|done..] end; cbn [rbind] in E).
    by injection E as <-. }
  unfold neoc_nep6_wallet_add_account_existing. rewrite Ha, existsb_find. cbn in Hf. rewrite Hf, Hc. cmps.
  change (neoc_malloc_ok (wrap 64 (4 * 8))) with (malloc_ok 32). rewrite Hm. cbn [negb].
  assert (zlen (if na_is_default account then map clear_default (nw_accounts w) else nw_accounts w) = zlen (nw_accounts w)) as ->
    by (destruct (na_is_default account); [unfold zlen; by rewrite length_map|done]).
  cmps. done.
Qed.

(** ** The text of a wallet *)

Definition account_text (a : neoc_nep6_account_t) (last : bool) : list byte :=
  account_head_text a ++ parameters_text ++ account_tail_text a last.

Fixpoint accounts_text (accounts : list neoc_nep6_account_t) : list byte :=
  match accounts with
  | [] => []
  | a :: accounts => account_text a (match accounts with [] => true | _ => false end) ++ accounts_text accounts
  end.

Definition wallet_text (w : neoc_nep6_wallet_t) : list byte :=
  header_text w ++ accounts_text (nw_accounts w) ++ footer_text.

Definition no_nuls (s : list byte) : Prop := Forall (fun b => b <> Byte.x00) s.

(** An account without a label whose texts fit into its share of the block. *)
Definition printable (a : neoc_nep6_account_t) : Prop :=
  na_label a = None /\ no_nuls (default [] (na_address a)) /\ no_nuls (default [] (na_key a)) /\
  zlen (default [] (na_address a)) + zlen (default [] (na_key a)) <= 256.

Ltac known_lengths :=
  repeat match goal with |- context [zlen (str ?s)] =>
    let v := eval vm_compute in (zlen (str s)) in change (zlen (str s)) with v end;
  change (zlen newline) with 1; change (zlen quote) with 1.

Ltac known_texts := apply (bool_decide_unpack _); vm_compute; exact I.

Lemma bool_text_ok b : no_nuls (bool_text b) /\ zlen (bool_text b) <= 5.
Proof. split; [|by destruct b]. unfold no_nuls. destruct b; known_texts. Qed.

Lemma decimal_digits_ok fuel v : 0 <= v -> no_nuls (decimal_digits fuel v) /\ zlen (decimal_digits fuel v) <= Z.of_nat fuel.
Proof.
  revert v. induction fuel as [|fuel IH]; intros v Hv; [split; [constructor|done]|]. cbn [decimal_digits].
  assert (byte_of_Z (48 + v mod 10) <> Byte.x00) as Hd.
  { pose proof (Z.mod_pos_bound v 10 ltac:(lia)). intros E. apply (f_equal Z_of_byte) in E.
    rewrite Z_of_byte_of_Z, Z.mod_small in E by lia. change (Z_of_byte Byte.x00) with 0 in E. lia. }
  destruct (IH (v / 10)) as [Hn Hl]; [dlia|]. unfold no_nuls in *.
  split; [apply Forall_app; split; [destruct (v <? 10)|]; auto|].
  rewrite zlen_app. destruct (v <? 10); change (zlen [byte_of_Z (48 + v mod 10)]) with 1; zlen_nils; lia.
Qed.

Lemma print_decimal_ok v : 0 <= v -> no_nuls (print_decimal v) /\ zlen (print_decimal v) <= 20.
Proof. apply (decimal_digits_ok 20). Qed.

Lemma account_head_ok a : printable a ->
  no_nuls (account_head_text a) /\ zlen (account_head_text a) <= 430.
Proof.
  intros (El & Hna & Hnk & Hl). unfold account_head_text. rewrite El.
  destruct (bool_text_ok (na_is_default a)) as [H1 H2], (bool_text_ok (na_lock a)) as [H3 H4]. split.
  - unfold no_nuls in *. rewrite !Forall_app. split_and!; try assumption; known_texts.
  - rewrite !zlen_app. known_lengths. lia.
Qed.

Lemma parameters_text_ok : no_nuls parameters_text /\ zlen parameters_text <= 30.
Proof. split; [unfold no_nuls; known_texts|by vm_compute]. Qed.

Lemma account_tail_ok a last : no_nuls (account_tail_text a last) /\ zlen (account_tail_text a last) <= 50.
Proof.
  unfold account_tail_text, no_nuls.
  destruct (is_deployed_account a), last; (split; [known_texts|by vm_compute]).
Qed.

Lemma wallet_account_text_ok a last : printable a -> no_nuls (account_text a last) /\ zlen (account_text a last) <= 512.
Proof.
  intros Ha. destruct (account_head_ok a Ha) as [H1 L1], parameters_text_ok as [H2 L2], (account_tail_ok a last) as [H3 L3].
  unfold account_text, no_nuls in *. rewrite !zlen_app, !Forall_app. split; [done|lia].
Qed.

Lemma accounts_text_ok accounts : Forall printable accounts ->
  no_nuls (accounts_text accounts) /\ zlen (accounts_text accounts) <= 512 * zlen accounts.
Proof.
  induction 1 as [|a accounts Ha _ [IHn IHl]]; [split; [constructor|done]|]. cbn [accounts_text].
  destruct (wallet_account_text_ok a (match accounts with [] => true | _ => false end) Ha) as [H1 L1].
  unfold no_nuls in *. rewrite Forall_app, zlen_app, zlen_cons. split; [done|lia].
Qed.

Lemma header_text_ok w :
  0 <= nw_n w -> 0 <= nw_r w -> 0 <= nw_p w -> no_nuls (default [] (nw_name w)) -> no_nuls (default [] (nw_version w)) ->
  no_nuls (header_text w) /\
  zlen (header_text w) <= 200 + zlen (default [] (nw_name w)) + zlen (default [] (nw_version w)).
Proof.
  intros Hn Hr Hp Hname Hver. unfold header_text.
  destruct (print_decimal_ok _ Hn) as [N1 L1], (print_decimal_ok _ Hr) as [N2 L2], (print_decimal_ok _ Hp) as [N3 L3]. split.
  - unfold no_nuls in *. rewrite !Forall_app. split_and!; try assumption; known_texts.
  - rewrite !zlen_app. known_lengths. lia.
Qed.

(** A text of [done_] behind which there is room. *)
Definition room (total : Z) (done_ buf : list byte) : Prop := zlen buf = total /\ exists rest, buf = done_ ++ rest.

Lemma print_at_ok total done_ text buf :
  room total done_ buf -> zlen done_ + zlen text < total -> total < 2 ^ 31 ->
  exists rest, print_at total (zlen done_) text buf = (Ok (zlen (done_ ++ text)), (done_ ++ text) ++ Byte.x00 :: rest) /\
    room total (done_ ++ text) ((done_ ++ text) ++ Byte.x00 :: rest).
Proof.
  intros [Hb (rest & ->)] Ht Hm. rewrite zlen_app in Hb. pose proof (zlen_nonneg done_). pose proof (zlen_nonneg text).
  exists (drop (S (length text)) rest). assert (zlen (text ++ [Byte.x00]) <= zlen rest) as Hf
    by (rewrite zlen_app; change (zlen [Byte.x00]) with 1; lia).
  assert ((done_ ++ text ++ [Byte.x00]) ++ drop (length (text ++ [Byte.x00])) rest
    = (done_ ++ text) ++ Byte.x00 :: drop (S (length text)) rest) as E.
  { rewrite length_app, Nat.add_1_r, <- !app_assoc. done. }
  split.
  - unfold print_at, snprintf, ret, bind. rewrite wrap_small by lia. cmps.
    rewrite take_ge by (unfold zlen in *; lia). rewrite (store_next done_ _ rest) by done. rewrite E.
    rewrite zlen_app. destruct (_ <=? _) eqn:El; bdestruct; [lia|done].
  - split; [|by eexists]. rewrite <- E. rewrite !zlen_app. change (zlen [Byte.x00]) with 1.
    rewrite zlen_app in Hf. change (zlen [Byte.x00]) with 1 in Hf. unfold zlen in *.
    rewrite length_drop, length_app. cbn [length]. lia.
Qed.

Lemma room_strlen total done_ rest : no_nuls done_ -> room total done_ (done_ ++ Byte.x00 :: rest) ->
  array_strlen (done_ ++ Byte.x00 :: rest) = Ok (zlen done_).
Proof. intros Hn _. by apply array_strlen_app. Qed.

Lemma print_account_ok total done_ a last buf :
  room total done_ buf -> printable a -> no_nuls done_ -> zlen done_ + zlen (account_text a last) < total -> total < 2 ^ 31 ->
  exists rest, print_account total a last (zlen done_) buf
    = (Ok (zlen (done_ ++ account_text a last)), (done_ ++ account_text a last) ++ rest) /\
    room total (done_ ++ account_text a last) ((done_ ++ account_text a last) ++ rest).
Proof.
  intros R Hp Hn Ht Hm. unfold account_text in *. rewrite !zlen_app in Ht.
  pose proof (zlen_nonneg (account_head_text a)). pose proof (zlen_nonneg parameters_text).
  pose proof (zlen_nonneg (account_tail_text a last)).
  destruct (print_at_ok total done_ (account_head_text a) buf R) as (r1 & E1 & R1); [lia|done|].
  destruct (print_at_ok total _ parameters_text _ R1) as (r2 & E2 & R2); [rewrite zlen_app; lia|done|].
  destruct (print_at_ok total _ (account_tail_text a last) _ R2) as (r3 & E3 & R3); [rewrite !zlen_app; lia|done|].
  exists (Byte.x00 :: r3). rewrite !app_assoc. split; [|exact R3]. unfold print_account. rewrite (bind_ok _ _ _ _ _ E1).
  rewrite (proj1 Hp). unfold bind at 1, ret at 1. unfold bind at 1, get at 1.
  rewrite room_strlen with (total := total); [|apply Forall_app; split; [done|by apply account_head_ok]|done].
  rewrite bind_lift, (bind_ok _ _ _ _ _ E2). exact E3.
Qed.

Lemma print_accounts_ok total accounts : forall done_ buf,
  room total done_ buf -> Forall printable accounts -> no_nuls done_ ->
  zlen done_ + zlen (accounts_text accounts) < total -> total < 2 ^ 31 ->
  exists rest, print_accounts total accounts (zlen done_) buf
    = (Ok (zlen (done_ ++ accounts_text accounts)), (done_ ++ accounts_text accounts) ++ rest) /\
    room total (done_ ++ accounts_text accounts) ((done_ ++ accounts_text accounts) ++ rest).
Proof.
  induction accounts as [|a accounts IH]; intros done_ buf R Hp Hn Ht Hm; cbn [print_accounts accounts_text] in *.
  - rewrite app_nil_r. pose proof R as [_ (rest & ->)]. by exists rest.
  - set (last := match accounts with [] => true | _ => false end) in *. apply Forall_cons in Hp as [Hp Hps].
    rewrite zlen_app in Ht. pose proof (zlen_nonneg (accounts_text accounts)).
    destruct (print_account_ok total done_ a last buf R Hp Hn) as (r1 & E1 & R1); [lia|done|].
    destruct (IH _ _ R1 Hps) as (r2 & E2 & R2); [|rewrite zlen_app; lia|done|].
    { apply Forall_app. split; [done|by apply wallet_account_text_ok]. }
    exists r2. rewrite !app_assoc. split; [|exact R2]. by rewrite (bind_ok _ _ _ _ _ E1).
Qed.

(** C39. The block estimated for the text of a wallet is large enough: when the name and the version
    have 3800 characters together, no account has a label, and the address and the key of each
    account have 256 characters together, the text is written completely into the block, with the
    terminator, and its length is reported. *)
Theorem nep6_text_fits `{Allocator} (junk : byte) (w : neoc_nep6_wallet_t) :
  0 <= nw_n w -> 0 <= nw_r w -> 0 <= nw_p w -> no_nuls (default [] (nw_name w)) -> no_nuls (default [] (nw_version w)) ->
  zlen (default [] (nw_name w)) + zlen (default [] (nw_version w)) <= 3800 ->
  Forall printable (nw_accounts w) -> zlen (nw_accounts w) < 2 ^ 20 ->
  malloc_ok (4096 + zlen (nw_accounts w) * 512) = true ->
  exists block rest, neoc_nep6_wallet_to_json junk w = Ok (block, zlen (wallet_text w)) /\
    block = wallet_text w ++ Byte.x00 :: rest /\ zlen block = 4096 + zlen (nw_accounts w) * 512 /\ no_nuls (wallet_text w).
Proof.
  intros Hn Hr Hp Hname Hver Hl Ha Hc Hm. pose proof (zlen_nonneg (nw_accounts w)).
  destruct (header_text_ok w Hn Hr Hp Hname Hver) as [N1 L1], (accounts_text_ok _ Ha) as [N2 L2].
  assert (no_nuls footer_text /\ zlen footer_text <= 10) as [N3 L3] by (split; [unfold no_nuls; known_texts|by vm_compute]).
  unfold neoc_nep6_wallet_to_json. rewrite wrap_small by lia. cbv zeta.
  unfold neoc_malloc_ok. cmps. rewrite Hm. cbn [negb]. set (total := 4096 + zlen (nw_accounts w) * 512) in *.
  assert (room total [] (replicate (Z.to_nat total) junk)) as R0.
  { split; [rewrite zlen_replicate; lia|by eexists]. }
  destruct (print_at_ok total [] (header_text w) _ R0) as (r1 & E1 & R1); [zlen_nils; lia|lia|].
  cbn [app] in *. change (zlen (@nil byte)) with 0 in E1. rewrite (bind_ok _ _ _ _ _ E1).
  destruct (print_accounts_ok total (nw_accounts w) _ _ R1 Ha N1) as (r2 & E2 & R2); [lia|lia|].
  rewrite (bind_ok _ _ _ _ _ E2).
  destruct (print_at_ok total _ footer_text _ R2) as (r3 & E3 & R3); [rewrite zlen_app; lia|lia|].
  assert ((header_text w ++ accounts_text (nw_accounts w)) ++ footer_text = wallet_text w) as Et
    by (symmetry; apply app_assoc).
  rewrite Et in E3, R3. rewrite E3. eexists _, r3. split_and!; try reflexivity.
  - apply R3.
  - unfold wallet_text, no_nuls in *. by rewrite !Forall_app.
Qed.

(** ** Samples *)

Section Samples.
#[local] Existing Instance mib_heap.
#[local] Existing Instance toy_crypto.
#[local] Existing Instance sample_interop.
#[local] Existing Instance toy_curve.
#[local] Existing Instance toy_ecdsa.
#[local] Existing Instance toy_nep2_crypto.
#[local] Existing Instance toy_double.

Definition plain_account (address : list byte) (is_default : bool) (contract : option neoc_nep6_contract_t) : neoc_nep6_account_t :=
  mk_nep6_account (Some address) None is_default false (Some (str "6PYkey")) contract [].

Definition deployed_contract : neoc_nep6_contract_t := mk_nep6_contract None [] true.

Definition new_wallet : neoc_nep6_wallet_t :=
  mk_nep6_wallet (Some (str "w")) (Some (str "1.0")) 16384 8 8 [] 10.

Definition wallet_with (accounts : list neoc_nep6_account_t) : neoc_nep6_wallet_t := with_accounts accounts 10 new_wallet.

Lemma mib_bounded : heap_bounded.
Proof. intros m Hm. unfold malloc_ok, mib_heap in Hm. bdestruct. eval_pows. lia. Qed.

Lemma nep6_wallet_refines_map_witness :
  neoc_nep6_wallet_get_default_account_out
    (snd (exec_nep6_ops [N6Add (plain_account (str "a") true None); N6Add (plain_account (str "b") true None);
      N6Remove (str "a"); N6Add (plain_account (str "b") false None)] new_wallet))
  = Ok (plain_account (str "b") true None) /\
  exists rs w m, exec_nep6_ops [N6Add (plain_account (str "a") true None); N6Add (plain_account (str "b") true None);
      N6Remove (str "a"); N6Add (plain_account (str "b") false None)] new_wallet = (rs, w) /\
    nep6_specs ∅ [N6Add (plain_account (str "a") true None); N6Add (plain_account (str "b") true None);
      N6Remove (str "a"); N6Add (plain_account (str "b") false None)] rs m.
Proof.
  split; [by vm_compute|].
  destruct (nep6_wallet_refines_map (Some (str "w")) (Some (str "1.0")) new_wallet
    [N6Add (plain_account (str "a") true None); N6Add (plain_account (str "b") true None);
      N6Remove (str "a"); N6Add (plain_account (str "b") false None)] mib_bounded eq_refl)
    as (rs & w & m & E & Hs & _).
  by exists rs, w, m.
Defined.

Lemma nep6_key_roundtrip_witness :
  exists w account,
    neoc_nep6_wallet_add_account Byte.x00 (Some (toy_private 5)) (Some (str "pw")) (Some (str "main")) true new_wallet = (Ok tt, w) /\
    neoc_nep6_account_decrypt_private_key Byte.x00 account (Some (str "pw")) 32 (replicate 32 Byte.xff) = (Ok tt, toy_private 5).
Proof.
  destruct (account_of_key_ok Byte.x00 toy_crypto_works toy_curve_works (mib_heap_serves 128 ltac:(by vm_compute)) (toy_nep2_works _)
    (toy_private 5) _ (str "pw") None true (toy_private_point 5) I) as (address & _ & Ea & _).
  destruct (nep6_key_roundtrip Byte.x00 toy_crypto_works toy_curve_works (mib_heap_serves 128 ltac:(by vm_compute)) (toy_nep2_works _)
    (toy_private 5) (str "pw") _ (Some (str "main")) true new_wallet address (replicate 32 Byte.xff) (toy_private_point 5))
    as (w & account & E & _ & _ & _ & _ & _ & D);
    [vm_compute; reflexivity|reflexivity|vm_compute; reflexivity|exact Ea|reflexivity|vm_compute; discriminate|].
  exists w, account. split; [exact E|exact D].
Defined.

Definition five_accounts : list byte :=
  str "{" ++ quote ++ str "accounts" ++ quote ++ str ":[{},{},{},{},{}]}".

Lemma nep6_loaded_add_overruns_witness :
  exists w, neoc_nep6_wallet_from_json (Some five_accounts) = Ok w /\
    fst (neoc_nep6_wallet_add_account_existing (plain_account (str "a") false None) w) = Fault.
Proof.
  eexists. split; [vm_compute; reflexivity|].
  apply (nep6_loaded_add_overruns (Some five_accounts) _ _ (str "a")); vm_compute; reflexivity || discriminate.
Defined.

Lemma nep6_text_fits_witness :
  exists block, neoc_nep6_wallet_to_json Byte.xff (wallet_with [plain_account (str "a") true (Some deployed_contract)])
    = Ok (block, zlen (wallet_text (wallet_with [plain_account (str "a") true (Some deployed_contract)]))).
Proof.
  destruct (nep6_text_fits Byte.xff (wallet_with [plain_account (str "a") true (Some deployed_contract)]))
    as (block & rest & E & _); try (by vm_compute).
  - apply (bool_decide_unpack _). by vm_compute.
  - apply (bool_decide_unpack _). by vm_compute.
  - repeat constructor; unfold no_nuls; cbn; try (apply (bool_decide_unpack _); by vm_compute).
  - exists block. exact E.
Defined.

(** A wallet with a deployed account is read back from its text, without the contract; the text of a
    wallet with an account that is not deployed is refused, and so is that of one with a label. *)
Lemma text_reads_back :
  neoc_nep6_wallet_from_json (Some (wallet_text (wallet_with [plain_account (str "a") true (Some deployed_contract)])))
  = Ok (with_accounts [plain_account (str "a") true None] 0 new_wallet).
Proof. by vm_compute. Qed.

Lemma text_not_deployed_refused :
  neoc_nep6_wallet_from_json (Some (wallet_text (wallet_with [plain_account (str "a") true None]))) = Err NEOC_ERROR_INVALID_FORMAT.
Proof. by vm_compute. Qed.

Lemma text_labelled_refused :
  (let? '(block, n) := neoc_nep6_wallet_to_json Byte.xff
     (wallet_with [mk_nep6_account (Some (str "a")) (Some (str "main")) true false None (Some deployed_contract) []]) in
   neoc_nep6_wallet_from_json (Some (cstring block))) = Err NEOC_ERROR_INVALID_FORMAT.
Proof. by vm_compute. Qed.
End Samples.
