(* ===== verification/Sign.v ===== *)
(** * Signing messages (src/crypto/sign.c; the constant of src/neo_constants.c)

    Recoverable signatures: a message is hashed and signed, [s] is brought below a
    constant, and the recovery identifier is found by trying the four candidates.  The
    arithmetic on points is OpenSSL's, the class [Recovery]; arithmetic on big numbers is
    that of [Z]. *)

From S2P Require Import Prelude Crypto Hex Hashes Interop ScriptBuilder EcKey VerificationScript ScriptHelper Signature KeyPair.
#[local] Open Scope Z_scope.

Class Recovery `{Curve} := {
  EC_GROUP_get_order : Z;
  EC_GROUP_get_prime : Z;
  (** [EC_POINT_set_compressed_coordinates_GFp] of an x coordinate and a parity. *)
  EC_POINT_set_compressed : Z -> bool -> option EC_POINT;
  (** The point times the order is at infinity; [None] when [EC_POINT_mul] fails. *)
  EC_POINT_has_order : EC_POINT -> option bool;
  (** [BN_mod_inverse] *)
  BN_mod_inverse : Z -> Z -> option Z;
  (** [a * R + b * G]; [None] when an operation fails or the sum is at infinity. *)
  EC_POINT_combine : EC_POINT -> Z -> Z -> option EC_POINT
}.

Definition NEOC_RECOVERY_V_OFFSET : Z := 27.

Definition neoc_get_secp256r1_half_curve_order : list byte :=
  [Byte.x7f; Byte.xff; Byte.xff; Byte.xff; Byte.x80; Byte.x00; Byte.x00; Byte.x00;
   Byte.x80; Byte.x00; Byte.x00; Byte.x00; Byte.x00; Byte.x00; Byte.x00; Byte.x00;
   Byte.xbc; Byte.xe6; Byte.xfa; Byte.xad; Byte.xa7; Byte.x17; Byte.x9e; Byte.x84;
   Byte.xf3; Byte.xb9; Byte.xca; Byte.xc2; Byte.xfc; Byte.x63; Byte.x25; Byte.x51].

Section Operations.
Context `{Allocator} `{Interop} `{Crypto} `{Curve} `{!Ecdsa} `{!Recovery}.

(** The signature after the call. *)
Definition neoc_signature_make_canonical (signature : neoc_ecdsa_signature_t)
  : res neoc_ecdsa_signature_t :=
  if memcmp_loop (sig_s signature) neoc_get_secp256r1_half_curve_order <=? 0
  then Ok signature
  else
    match BN_bn2binpad (EC_GROUP_get_order - BN_bin2bn (sig_s signature)) 32 with
    | None => Err NEOC_ERROR_CRYPTO
    | Some s => Ok (mk_signature (sig_r signature) s)
    end.

Definition neoc_compute_message_hash (message : option (list byte)) (message_len : Z)
  : res (list byte) :=
  match message with
  | None =>
      if 0 <? message_len then Err NEOC_ERROR_INVALID_ARGUMENT
      else neoc_sha256 (Some []) message_len
  | Some _ => neoc_sha256 message message_len
  end.

Definition neoc_signature_data_from_ecdsa (rec_id : Z) (ecdsa_sig : neoc_ecdsa_signature_t)
  : res neoc_signature_data_t :=
  if (rec_id <? 0) || (3 <? rec_id) then Err NEOC_ERROR_INVALID_ARGUMENT
  else
    neoc_signature_data_create (byte_of_Z (rec_id + NEOC_RECOVERY_V_OFFSET))
      (Some (sig_r ecdsa_sig)) (Some (sig_s ecdsa_sig)).

Definition neoc_recover_from_signature (rec_id : Z) (signature : neoc_ecdsa_signature_t)
    (message_hash : list byte) : res neoc_ec_public_key_t :=
  if (rec_id <? 0) || (3 <? rec_id) then Err NEOC_ERROR_INVALID_ARGUMENT
  else
    let order := EC_GROUP_get_order in
    let r := BN_bin2bn (sig_r signature) in
    let s := BN_bin2bn (sig_s signature) in
    let x := order * (rec_id / 2) + r in
    if EC_GROUP_get_prime <=? x then Err NEOC_ERROR_NOT_FOUND
    else
      match EC_POINT_set_compressed x (negb (Z.land rec_id 1 =? 0)) with
      | None => Err NEOC_ERROR_NOT_FOUND
      | Some point_R =>
          match EC_POINT_has_order point_R with
          | None => Err NEOC_ERROR_CRYPTO
          | Some false => Err NEOC_ERROR_NOT_FOUND
          | Some true =>
              let? hash := memcpy_from message_hash 32 in
              let e := BN_bin2bn hash mod order in
              let e_inv := (0 - e) mod order in
              match BN_mod_inverse r order with
              | None => Err NEOC_ERROR_CRYPTO
              | Some r_inv =>
                  let sr_inv := (s * r_inv) mod order in
                  let e_invr_inv := (e_inv * r_inv) mod order in
                  match EC_POINT_combine point_R sr_inv e_invr_inv with
                  | None => Err NEOC_ERROR_CRYPTO
                  | Some public_point =>
                      let compressed := EC_POINT_point2oct true public_point in
                      if negb (zlen compressed =? 33) then Err NEOC_ERROR_CRYPTO
                      else neoc_ec_public_key_from_bytes (Some compressed) 33
                  end
              end
          end
      end.

(** The loop over the candidates; [NOT_FOUND] goes on to the next one. *)
Fixpoint recovery_loop (message_hash : list byte) (ecdsa_sig : neoc_ecdsa_signature_t)
    (expected_compressed : list byte) (candidates : list Z) : res Z :=
  match candidates with
  | [] => Err NEOC_ERROR_CRYPTO
  | rec_id :: candidates =>
      match neoc_recover_from_signature rec_id ecdsa_sig message_hash with
      | Fault => Fault
      | Err rec_err =>
          if decide (rec_err = NEOC_ERROR_NOT_FOUND)
          then recovery_loop message_hash ecdsa_sig expected_compressed candidates
          else Err rec_err
      | Ok candidate =>
          if memcmp_loop (take 33 (pk_compressed candidate)) (take 33 expected_compressed) =? 0
          then Ok rec_id
          else recovery_loop message_hash ecdsa_sig expected_compressed candidates
      end
  end.

Definition neoc_find_recovery_id (message_hash : list byte)
    (ecdsa_sig : neoc_ecdsa_signature_t) (key_pair : neoc_ec_key_pair_t) : res Z :=
  match kp_public key_pair, kp_private key_pair with
  | Some public_key, Some _ =>
      recovery_loop message_hash ecdsa_sig (pk_compressed public_key) [0; 1; 2; 3]
  | _, _ => Err NEOC_ERROR_INVALID_ARGUMENT
  end.

Definition neoc_sign_message (draw : Z) (message : option (list byte)) (message_len : Z)
    (key_pair : neoc_ec_key_pair_t) : res neoc_signature_data_t :=
  match kp_private key_pair, kp_public key_pair with
  | Some _, Some _ =>
      let? message_hash := neoc_compute_message_hash message message_len in
      let? ecdsa_sig := neoc_ec_key_pair_sign draw key_pair (Some message_hash) in
      let? ecdsa_sig := neoc_signature_make_canonical ecdsa_sig in
      let? rec_id := neoc_find_recovery_id message_hash ecdsa_sig key_pair in
      neoc_signature_data_from_ecdsa rec_id ecdsa_sig
  | _, _ => Err NEOC_ERROR_INVALID_ARGUMENT
  end.

(** A failed decoding leaves NULL and the length 0. *)
Definition neoc_sign_hex_message (junk : byte) (draw : Z) (hex_message : option (list byte))
    (key_pair : neoc_ec_key_pair_t) : res neoc_signature_data_t :=
  match hex_message with
  | None => Err NEOC_ERROR_INVALID_ARGUMENT
  | Some _ =>
      match neoc_hex_decode_alloc junk hex_message with
      | Fault => Fault
      | Err _ => neoc_sign_message draw None 0 key_pair
      | Ok decoded => neoc_sign_message draw (Some decoded) (zlen decoded) key_pair
      end
  end.

Definition neoc_signed_message_to_key (message : option (list byte)) (message_len : Z)
    (sig_data : option neoc_signature_data_t) : res neoc_ec_public_key_t :=
  match sig_data with
  | None => Err NEOC_ERROR_INVALID_ARGUMENT
  | Some _ =>
      let v := Z_of_byte (neoc_signature_data_get_v sig_data) in
      let? rec_id :=
        (if (NEOC_RECOVERY_V_OFFSET <=? v) && (v <? NEOC_RECOVERY_V_OFFSET + 8)
         then Ok (v - NEOC_RECOVERY_V_OFFSET)
         else if v <? 4 then Ok v
         else Err NEOC_ERROR_INVALID_ARGUMENT) in
      let '(r, r_len) := neoc_signature_data_get_r sig_data in
      let '(s, s_len) := neoc_signature_data_get_s sig_data in
      if negb (r_len =? 32) || negb (s_len =? 32) then Err NEOC_ERROR_INVALID_ARGUMENT
      else
        let? ecdsa_sig := neoc_ecdsa_signature_create r s in
        let? message_hash := neoc_compute_message_hash message message_len in
        neoc_recover_from_signature rec_id ecdsa_sig message_hash
  end.

Definition neoc_recover_signing_script_hash (message : option (list byte)) (message_len : Z)
    (sig_data : option neoc_signature_data_t) : res neoc_hash160_t :=
  let? public_key := neoc_signed_message_to_key message message_len sig_data in
  let? '(encoded, encoded_len) := neoc_ec_public_key_get_encoded public_key true in
  if negb (encoded_len =? 33) then Err NEOC_ERROR_INVALID_LENGTH
  else neoc_hash160_from_public_key (Some encoded).

Definition neoc_verify_signature (message : option (list byte)) (message_len : Z)
    (sig_data : option neoc_signature_data_t) (public_key : option neoc_ec_public_key_t)
  : res bool :=
  match sig_data, public_key with
  | Some _, Some public_key =>
      match neoc_compute_message_hash message message_len with
      | Fault => Fault
      | Err _ => Ok false
      | Ok message_hash =>
          match neoc_signature_data_get_r sig_data, neoc_signature_data_get_s sig_data with
          | (Some r, r_len), (Some s, s_len) =>
              if negb (r_len =? 32) || negb (s_len =? 32) then Ok false
              else
                Ok (ECDSA_do_verify message_hash (BN_bin2bn r, BN_bin2bn s) (pk_point public_key))
          | _, _ => Ok false
          end
      end
  | _, _ => Ok false
  end.

Definition neoc_public_key_from_private_key (private_key : neoc_ec_private_key_t)
  : res neoc_ec_public_key_t :=
  neoc_ec_public_key_from_private (Some (priv_bytes private_key)).

Definition neoc_verify_message (message : option (list byte)) (message_len : Z)
    (signature : option neoc_signature_data_t) (key_pair : neoc_ec_key_pair_t) : res bool :=
  match signature, kp_public key_pair with
  | Some _, Some public_key =>
      neoc_verify_signature message message_len signature (Some public_key)
  | _, _ => Err NEOC_ERROR_INVALID_ARGUMENT
  end.

End Operations.

(** ** What a signature carries *)

Section Proofs.
Context `{Allocator} `{Interop} `{Crypto} `{Curve} `{!Ecdsa} `{!Recovery}.
Hypothesis Hcurve : curve_works.

Lemma pair_sign_shape draw kp hash sg :
  neoc_ec_key_pair_sign draw kp hash = Ok sg -> sig_ok sg /\ malloc_ok 64 = true.
Proof.
  unfold neoc_ec_key_pair_sign. destruct hash as [hash|]; [|done].
  destruct (kp_private kp) as [p|]; [|done]. destruct (malloc_ok 64); [|done]. cbn [negb].
  destruct (memcpy_from hash 32) as [h| |]; [|done..]. cbn [rbind].
  destruct (ECDSA_do_sign _ _ _) as [[r s]|]; [|done].
  destruct (BN_bn2binpad r 32) eqn:Er; [|done]. destruct (BN_bn2binpad s 32) eqn:Es; [|done].
  intros [= <-]. apply binpad_inv in Er as [-> _]. apply binpad_inv in Es as [-> _].
  split; [split; apply length_component|done].
Qed.

Lemma make_canonical_shape sg sg' :
  sig_ok sg -> neoc_signature_make_canonical sg = Ok sg' ->
  sig_ok sg' /\ sig_r sg' = sig_r sg /\
  (sig_s sg' = sig_s sg \/
   BN_bin2bn (sig_s sg') = Z.abs (EC_GROUP_get_order - BN_bin2bn (sig_s sg))).
Proof.
  intros [Hr Hs] E. unfold neoc_signature_make_canonical in E.
  destruct (_ <=? 0); [injection E as <-; split_and!; by auto|].
  destruct (BN_bn2binpad _ 32) as [c|] eqn:Ep; [|done]. injection E as <-.
  apply binpad_inv in Ep as [Hc Hv].
  split_and!; [split; cbn [sig_r sig_s]; [done|rewrite Hc; apply length_component]|done|by right].
Qed.

Lemma recovery_loop_found hash sg expected candidates rec_id :
  recovery_loop hash sg expected candidates = Ok rec_id ->
  rec_id ∈ candidates /\
  exists k, neoc_recover_from_signature rec_id sg hash = Ok k /\
    memcmp_loop (take 33 (pk_compressed k)) (take 33 expected) = 0.
Proof.
  induction candidates as [|c candidates IH]; [done|]. cbn [recovery_loop].
  destruct (neoc_recover_from_signature c sg hash) as [k|e|] eqn:Er; [|case_decide|]; [| |done..].
  - destruct (_ =? 0) eqn:Em; bdestruct.
    + intros [= <-]. split; [apply list_elem_of_In; by left|]. eauto.
    + intros E. destruct (IH E) as [Hi Hk]. split; [by apply list_elem_of_further|done].
  - intros E. destruct (IH E) as [Hi Hk]. split; [by apply list_elem_of_further|done].
Qed.

Lemma recovered_key rec_id sg hash k :
  neoc_recover_from_signature rec_id sg hash = Ok k -> key_ok k.
Proof.
  unfold neoc_recover_from_signature. destruct (_ || _); [done|]. cbv zeta.
  destruct (_ <=? _); [done|]. destruct (EC_POINT_set_compressed _ _); [|done].
  destruct (EC_POINT_has_order _) as [[]|]; [|done..].
  destruct (memcpy_from hash 32); [|done..]. cbn [rbind].
  destruct (BN_mod_inverse _ _); [|done]. destruct (EC_POINT_combine _ _ _); [|done].
  destruct (negb _); [done|]. apply from_bytes_ok.
Qed.

Lemma same_33 a b :
  zlen a = 33 -> zlen b = 33 -> memcmp_loop (take 33 a) (take 33 b) = 0 -> a = b.
Proof.
  unfold zlen. intros Ha Hb. rewrite !take_ge by lia. by apply memcmp_zero; lia.
Qed.

Lemma data_of_ecdsa rec_id sg :
  0 <= rec_id <= 3 -> sig_ok sg -> forall sd,
  neoc_signature_data_from_ecdsa rec_id sg = Ok sd ->
  sd = mk_signature_data (byte_of_Z (rec_id + 27)) (sig_r sg) (sig_s sg).
Proof.
  intros Hid [Hr Hs] sd. unfold neoc_signature_data_from_ecdsa, neoc_signature_data_create.
  cmps. destruct (negb _); [done|].
  rewrite !memcpy_from_all by (unfold zlen, NEOC_SIGNATURE_COMPONENT_SIZE; lia).
  cbn [rbind]. by intros [= <-].
Qed.

(** C22.  Recoverable signatures identify their signer: whatever message is signed and
    whatever randomness is drawn, when [neoc_sign_message] succeeds, recovering the key
    from the message and the signature gives the signer's public key, and recovering the
    account gives the hash of the signer's signature script. *)
Theorem sign_message_recoverable (draw : Z) (message : option (list byte)) (len : Z)
    (key : list byte) (point : EC_POINT) (sd : neoc_signature_data_t) :
  heap_serves 33 ->
  neoc_sign_message draw message len (pair_of key point) = Ok sd ->
  let compressed := EC_POINT_point2oct true point in
  exists k,
    neoc_signed_message_to_key message len (Some sd) = Ok k /\ pk_compressed k = compressed /\
    neoc_recover_signing_script_hash message len (Some sd)
    = neoc_hash160_from_public_key (Some compressed).
Proof.
  intros Hh E compressed. cbn [neoc_sign_message pair_of kp_private kp_public] in E.
  fold (pair_of key point) in E.
  destruct (neoc_compute_message_hash message len) as [hash| |] eqn:Eh; [|done..]. cbn [rbind] in E.
  destruct (neoc_ec_key_pair_sign _ _ _) as [sg0| |] eqn:Es; [|done..]. cbn [rbind] in E.
  apply pair_sign_shape in Es as [Hok0 Hm].
  destruct (neoc_signature_make_canonical sg0) as [sg| |] eqn:Ec; [|done..]. cbn [rbind] in E.
  apply make_canonical_shape in Ec as (Hok & _ & _); [|done].
  destruct (neoc_find_recovery_id _ _ _) as [rec_id| |] eqn:Ef; [|done..]. cbn [rbind] in E.
  apply recovery_loop_found in Ef as (Hid & k & Ek & Hk).
  assert (0 <= rec_id <= 3) as Hrange by (rewrite !elem_of_cons, elem_of_nil in Hid; lia).
  apply data_of_ecdsa in E; [|done..]. subst sd.
  pose proof (recovered_key _ _ _ _ Ek) as Hkey.
  assert (pk_compressed k = compressed) as Eq.
  { apply same_33; [by apply (key_size Hcurve)|apply (works_compressed_size Hcurve)|done]. }
  assert (neoc_signed_message_to_key message len
            (Some (mk_signature_data (byte_of_Z (rec_id + 27)) (sig_r sg) (sig_s sg))) = Ok k) as Et.
  { unfold neoc_signed_message_to_key, NEOC_RECOVERY_V_OFFSET.
    cbn [neoc_signature_data_get_v neoc_signature_data_get_r neoc_signature_data_get_s sd_v sd_r sd_s].
    rewrite Z_of_byte_small by lia. cmps. cbn [rbind].
    change (negb (NEOC_SIGNATURE_COMPONENT_SIZE =? 32)) with false. cbn [orb].
    destruct Hok as [Hr Hs].
    pose proof (signature_create_ok (sig_r sg) (sig_s sg) [] [] Hr Hs Hm) as Esg.
    rewrite !app_nil_r in Esg. rewrite Esg. cbn [rbind]. rewrite Eh. cbn [rbind].
    replace (rec_id + 27 - 27) with rec_id by lia. by destruct sg. }
  exists k. split_and!; [done|done|]. unfold neoc_recover_signing_script_hash. rewrite Et. cbn [rbind].
  rewrite (get_encoded_compressed Hcurve) by (done || apply Hh; lia). cbn [rbind].
  change (negb (33 =? 33)) with false. cbv iota. by rewrite Eq.
Qed.

Lemma decode_alloc_invalid junk s :
  of_hex (neoc_hex_skip_prefix s) = None ->
  exists e, neoc_hex_decode_alloc junk (Some s) = Err e.
Proof.
  intros Hs. unfold neoc_hex_decode_alloc. cbv zeta.
  set (n := neoc_hex_decode_buffer_size (Some s)). destruct (n =? 0) eqn:En; [by eexists|].
  destruct (negb _); [by eexists|]. bdestruct.
  assert (n = zlen (neoc_hex_skip_prefix s) / 2) as Hn.
  { unfold n, neoc_hex_decode_buffer_size, neoc_hex_skip_prefix. destruct s as [|a [|b s]]; [done..|].
    destruct (has_0x _); [|done]. cbn [drop]. rewrite !zlen_cons. by replace (1 + (1 + zlen s) - 2) with (zlen s) by lia. }
  pose proof (zlen_nonneg (neoc_hex_skip_prefix s)).
  pose proof (hex_decode_spec s n (replicate (Z.to_nat n) junk)) as Hd. rewrite Hs in Hd.
  destruct Hd as (buf & -> & _); [rewrite zlen_replicate; dlia|lia|by eexists].
Qed.

(** A text that is not hexadecimal is signed as the empty message: every string
    the decoder refuses, of odd length or with a wrong character, gives the signature of
    the empty message instead of an error. *)
Theorem sign_hex_invalid_signs_empty (junk : byte) (draw : Z) (s : list byte)
    (kp : neoc_ec_key_pair_t) :
  of_hex (neoc_hex_skip_prefix s) = None ->
  neoc_sign_hex_message junk draw (Some s) kp = neoc_sign_message draw (Some []) 0 kp.
Proof.
  intros Hs. unfold neoc_sign_hex_message.
  destruct (decode_alloc_invalid junk s Hs) as [e ->]. done.
Qed.

(** What [make_canonical] leaves in [s], for the order of secp256r1: [s] or its negation,
    accepted by the test for canonical signatures and at most 2^128 above half of the
    order. *)
Lemma make_canonical_result sg :
  EC_GROUP_get_order = secp256r1_order -> sig_ok sg ->
  0 < BN_bin2bn (sig_s sg) < secp256r1_order ->
  exists sg', neoc_signature_make_canonical sg = Ok sg' /\
    neoc_ecdsa_signature_is_canonical (Some sg') = Ok true /\
    let s := BN_bin2bn (sig_s sg) in let s' := BN_bin2bn (sig_s sg') in
    (s' = s \/ s' = secp256r1_order - s) /\ 2 * s' <= secp256r1_order + 2 ^ 129.
Proof.
  intros Ho Hok Hs. cbv zeta. unfold neoc_signature_make_canonical.
  rewrite memcmp_numbers by apply Hok. rewrite Ho.
  set (half := BN_bin2bn neoc_get_secp256r1_half_curve_order).
  vm_compute in half. unfold secp256r1_order in *.
  destruct (_ <=? half) eqn:E; bdestruct; subst half.
  - exists sg. rewrite is_canonical_number by done. split_and!; [done| |by left|eval_pows; lia].
    f_equal. apply Z.leb_le. eval_pows. lia.
  - rewrite binpad_ok by (eval_pows; lia). eexists. split; [done|].
    rewrite is_canonical_number by (split; [apply Hok|apply length_component]). cbn [sig_s].
    rewrite bin2bn_component by (eval_pows; lia). eval_pows.
    split_and!; [f_equal; apply Z.leb_le; lia|by right|lia].
Qed.
End Proofs.

(** ** Samples *)

#[local] Existing Instance toy_curve.

(** The group of numbers modulo 2^256 under addition, with inverses left out. *)
Definition toy_recovery : Recovery := {|
  EC_GROUP_get_order := 2 ^ 256;
  EC_GROUP_get_prime := 2 ^ 256;
  EC_POINT_set_compressed x odd := Some (dexist (component x) (length_component x) : toy_point);
  EC_POINT_has_order p := Some true;
  BN_mod_inverse x n := Some 1;
  EC_POINT_combine p a b :=
    Some (dexist (component ((a + b) mod 2 ^ 256)) (length_component _) : toy_point)
|}.

Section Samples.
#[local] Existing Instance mib_heap.
#[local] Existing Instance sample_interop.
#[local] Existing Instance toy_crypto.
#[local] Existing Instance toy_ecdsa.
#[local] Existing Instance toy_recovery.

Definition sample_pair : neoc_ec_key_pair_t :=
  pair_of (toy_private 5) (dexist (le_bytes 32 5) (length_le_bytes 32 5) : toy_point).

Definition sample_signature : neoc_signature_data_t :=
  match neoc_sign_message 7 (Some (str "ab")) 2 sample_pair with
  | Ok sd => sd
  | _ => mk_signature_data Byte.x00 [] []
  end.

Lemma sign_message_recoverable_witness :
  exists k, neoc_signed_message_to_key (Some (str "ab")) 2 (Some sample_signature) = Ok k /\
    pk_compressed k = Byte.x02 :: le_bytes 32 5.
Proof.
  destruct (sign_message_recoverable toy_curve_works 7 (Some (str "ab")) 2 (toy_private 5)
    (dexist (le_bytes 32 5) (length_le_bytes 32 5) : toy_point) sample_signature)
    as (k & Ek & Ec & _).
  - apply mib_heap_serves. by vm_compute.
  - vm_compute. reflexivity.
  - exists k. exact (conj Ek Ec).
Defined.

Lemma sign_hex_invalid_signs_empty_witness :
  neoc_sign_hex_message Byte.x00 7 (Some (str "zz")) sample_pair
  = neoc_sign_message 7 (Some []) 0 sample_pair.
Proof. apply sign_hex_invalid_signs_empty. reflexivity. Defined.
End Samples.
