(* ===== verification/MultiSig.v ===== *)
(** * Multi-signature accounts (src/wallet/multi_sig.c)

    An account for m-of-n signatures: the sorted keys, the verification script and its
    hash, and the invocation script made of m signatures.  The account keeps the caller's
    key pointers; the keys are never changed through them, so they are values here. *)

From S2P Require Import Prelude BinaryWriter BinaryReader Crypto Base58 Hashes Interop Opcode NeoVM ScriptBuilder EcKey VerificationScript.
From stdpp Require Import sorting.
#[local] Open Scope Z_scope.

Record neoc_multi_sig_account_t `{Curve} := mk_multi_sig {
  ms_threshold : Z;
  ms_public_key_count : Z;
  ms_public_keys : list (option neoc_ec_public_key_t);
  ms_script_hash : neoc_hash160_t;
  ms_verification_script : list byte;
  ms_script_size : Z
}.

(** [sizeof(neoc_multi_sig_account_t)] *)
Definition multi_sig_struct_size : Z := 56.

(** The first [n] pointers of an array. *)
Definition read_array {A} (array : list A) (n : Z) : res (list A) :=
  match buf_slice array 0 n with Some l => Ok l | None => Fault end.

(** A caller's buffer with the variable that receives the size. *)
Record sized_buffer := mk_sized { sb_data : list byte; sb_actual_size : Z }.

Section Operations.
Context `{Allocator} `{Interop} `{Crypto} `{Curve}.

(** [neoc_ec_public_key_get_encoded] of a pointer that may be NULL. *)
Definition encoded_of (key : option neoc_ec_public_key_t) : res (list byte * Z) :=
  match key with
  | None => Err NEOC_ERROR_INVALID_ARGUMENT
  | Some key => neoc_ec_public_key_get_encoded key true
  end.

(** The comparison ignores errors: the pointer and the size are then NULL and 0, and [memcmp] of
    no bytes is taken as 0 although a null pointer is not a valid argument. *)
Definition compare_public_keys (a b : option neoc_ec_public_key_t) : Z :=
  let '(bytes_a, size_a) := match encoded_of a with Ok e => e | _ => ([], 0) end in
  let '(bytes_b, size_b) := match encoded_of b with Ok e => e | _ => ([], 0) end in
  let n := Z.to_nat (if size_a <? size_b then size_a else size_b) in
  memcmp_loop (take n bytes_a) (take n bytes_b).

Definition key_le (a b : option neoc_ec_public_key_t) : Prop := compare_public_keys a b <= 0.
#[global] Instance key_le_dec : RelDecision key_le.
Proof. intros a b. apply Z_le_dec. Defined.

(** [neoc_script_builder_get_size], the block for the script, and the copy into it. *)
Definition take_script : Wr (list byte) :=
  let! script_size := neoc_script_builder_get_size in
  if negb (neoc_malloc_ok script_size) then fail NEOC_ERROR_MEMORY
  else
    let! script_data := neoc_script_builder_to_array in
    if negb (zlen script_data =? script_size) then fail NEOC_ERROR_INTERNAL
    else ret script_data.

(** The threshold, the keys, their number and the system call. *)
Definition emit_multi_sig (threshold : Z) (keys : list (option neoc_ec_public_key_t))
    (key_count : Z) : Wr unit :=
  do! neoc_script_builder_push_integer threshold in
  do! push_items
        (fun key =>
           let! '(pubkey_bytes, pubkey_size) := lift (encoded_of key) in
           neoc_script_builder_push_data (Some pubkey_bytes) pubkey_size)
        keys key_count in
  do! neoc_script_builder_push_integer key_count in
  neoc_script_builder_emit_syscall NEOC_INTEROP_SYSTEM_CRYPTO_CHECKMULTISIG.

(** [threshold] and [key_count] are [uint8_t]. *)
Definition neoc_multi_sig_create (threshold : Z)
    (public_keys : option (list (option neoc_ec_public_key_t))) (key_count : Z)
  : res neoc_multi_sig_account_t :=
  match public_keys with
  | None => Err NEOC_ERROR_INVALID_ARGUMENT
  | Some public_keys =>
      if key_count =? 0 then Err NEOC_ERROR_INVALID_ARGUMENT
      else if (threshold =? 0) || (key_count <? threshold) then Err NEOC_ERROR_INVALID_ARGUMENT
      else if negb (neoc_malloc_ok multi_sig_struct_size) then Err NEOC_ERROR_MEMORY
      else if negb (neoc_malloc_ok (key_count * 8)) then Err NEOC_ERROR_MEMORY
      else
        let? keys := read_array public_keys key_count in
        let keys := merge_sort key_le keys in
        let? builder := neoc_script_builder_create in
        let? verification_script :=
          fst ((do! emit_multi_sig threshold keys key_count in take_script) builder) in
        let? script_hash :=
          neoc_hash160_from_script (Some verification_script) (zlen verification_script) in
        Ok (mk_multi_sig _ threshold key_count keys script_hash verification_script
              (zlen verification_script))
  end.

(** Set [*actual_size], then check the room and copy. *)
Definition deliver (script : list byte) (size room : Z) : M sized_buffer unit := fun b =>
  if room <? size then (Err NEOC_ERROR_BUFFER_TOO_SMALL, mk_sized (sb_data b) size)
  else
    match store 0 (take (Z.to_nat size) script) (sb_data b) with
    | (r, data) => (r, mk_sized data size)
    end.

Definition neoc_multi_sig_get_verification_script (account : option neoc_multi_sig_account_t)
    (script_size : Z) : M sized_buffer unit :=
  match account with
  | None => fail NEOC_ERROR_INVALID_ARGUMENT
  | Some account =>
      deliver (ms_verification_script account) (ms_script_size account) script_size
  end.

Definition neoc_multi_sig_get_script_hash (account : option neoc_multi_sig_account_t)
  : res neoc_hash160_t :=
  match account with
  | None => Err NEOC_ERROR_INVALID_ARGUMENT
  | Some account => Ok (ms_script_hash account)
  end.

(** [for (i = 0; i < sig_count && i < threshold; i++)]: the first [threshold] pointers,
    each to 64 bytes. *)
Definition neoc_multi_sig_create_witness (account : option neoc_multi_sig_account_t)
    (signatures : option (list (option (list byte)))) (sig_count invocation_size : Z)
  : M sized_buffer unit :=
  match account, signatures with
  | Some account, Some signatures =>
      if sig_count <? ms_threshold account then fail NEOC_ERROR_INVALID_ARGUMENT
      else
        let! builder := lift neoc_script_builder_create in
        let '(r, w) :=
          push_items
            (fun signature =>
               match signature with
               | None => fail NEOC_ERROR_INVALID_ARGUMENT
               | Some _ => neoc_script_builder_push_data signature 64
               end)
            signatures (Z.min sig_count (ms_threshold account)) builder in
        do! lift r in
        let! script_len := lift (fst (neoc_script_builder_get_size w)) in
        let! script_data :=
          (if invocation_size <? script_len then fun b =>
             (Err NEOC_ERROR_BUFFER_TOO_SMALL, mk_sized (sb_data b) script_len)
           else fun b =>
             (fst (neoc_script_builder_to_array w), mk_sized (sb_data b) script_len)) in
        if negb (zlen script_data =? script_len) then fail NEOC_ERROR_INTERNAL
        else deliver script_data script_len invocation_size
  | _, _ => fail NEOC_ERROR_INVALID_ARGUMENT
  end.

Fixpoint contains_loop (key_bytes : list byte) (key_size : Z)
    (keys : list (option neoc_ec_public_key_t)) (count : nat) : res bool :=
  match count with
  | O => Ok false
  | S count =>
      match keys with
      | [] => Fault
      | key :: keys =>
          match encoded_of key with
          | Fault => Fault
          | Err _ => contains_loop key_bytes key_size keys count
          | Ok (account_key_bytes, account_key_size) =>
              if (key_size =? account_key_size) &&
                 (memcmp_loop key_bytes account_key_bytes =? 0)
              then Ok true
              else contains_loop key_bytes key_size keys count
          end
      end
  end.

Definition neoc_multi_sig_contains_key (account : option neoc_multi_sig_account_t)
    (public_key : option neoc_ec_public_key_t) : res bool :=
  match account, public_key with
  | Some account, Some _ =>
      match encoded_of public_key with
      | Fault => Fault
      | Err _ => Ok false
      | Ok (key_bytes, key_size) =>
          contains_loop key_bytes key_size (ms_public_keys account)
            (Z.to_nat (ms_public_key_count account))
      end
  | _, _ => Ok false
  end.

End Operations.

(** ** Order of the keys *)

Lemma memcmp_opp a : forall b, length a = length b -> memcmp_loop b a = - memcmp_loop a b.
Proof.
  induction a as [|x a IH]; intros [|y b] Hl; try done. cbn [memcmp_loop].
  destruct (Z_of_byte x <? Z_of_byte y) eqn:E1, (Z_of_byte y <? Z_of_byte x) eqn:E2; bdestruct; try lia.
  apply IH. by injection Hl.
Qed.

Section Proofs.
Context `{Allocator} `{Interop} `{Crypto} `{Curve}.
Hypothesis Hcurve : curve_works.

Lemma compare_ok a b :
  key_ok a -> key_ok b -> malloc_ok 33 = true ->
  compare_public_keys (Some a) (Some b) = neoc_key_entry_compare (entry_of a) (entry_of b).
Proof.
  intros Ha Hb Hm. unfold compare_public_keys, encoded_of.
  rewrite !(get_encoded_compressed Hcurve) by done.
  unfold neoc_key_entry_compare, ke_length, entry_of. cbn [ke_data].
  rewrite !(key_size Hcurve) by done. cbn [Z.ltb Z.eqb]. by destruct (memcmp_loop _ _ =? 0) eqn:E; bdestruct.
Qed.
(** The two comparisons of a pair have opposite signs. *)
Lemma encoded_size a e n : encoded_of a = Ok (e, n) -> zlen e = n.
Proof.
  destruct a as [a|]; [|done]. cbn [encoded_of]. unfold neoc_ec_public_key_get_encoded.
  destruct (negb _); [done|]. destruct (buf_slice _ 0 _) eqn:E; [|done]. intros [= <- <-].
  by eapply buf_slice_length.
Qed.

Lemma compare_opp a b : compare_public_keys b a = - compare_public_keys a b.
Proof.
  unfold compare_public_keys.
  assert (forall k, exists e, match encoded_of k with Ok e => e | _ => ([], 0) end = (e, zlen e)) as Hs.
  { intros k. destruct (encoded_of k) as [[e n]| |] eqn:E; [|by exists []..].
    exists e. by rewrite (encoded_size _ _ _ E). }
  destruct (Hs a) as [x ->], (Hs b) as [y ->].
  replace (if zlen y <? zlen x then zlen y else zlen x) with
    (if zlen x <? zlen y then zlen x else zlen y)
    by (destruct (zlen x <? zlen y) eqn:E1, (zlen y <? zlen x) eqn:E2; bdestruct; lia).
  apply memcmp_opp. rewrite !length_take. unfold zlen.
  destruct (_ <? _) eqn:E; bdestruct; lia.
Qed.

#[local] Instance key_le_total : Total key_le.
Proof. intros a b. unfold key_le. rewrite (compare_opp a b). lia. Qed.

(** Sorting pointers to keys sorts the encodings. *)
Lemma sort_keys keys :
  Forall key_ok keys -> malloc_ok 33 = true ->
  exists keys', merge_sort key_le (map Some keys) = map Some keys' /\ keys' ≡ₚ keys /\
    map pk_compressed keys' = sorted_keys keys.
Proof.
  intros Hk Hm. pose proof (merge_sort_Permutation key_le (map Some keys)) as Hp.
  apply Permutation_map_inv in Hp as (keys' & Es & Hp).
  exists keys'. split_and!; [done|done|].
  pose proof (Sorted_merge_sort key_le (map Some keys)) as Hs. rewrite Es in Hs.
  assert (Forall key_ok keys') as Hk' by (by rewrite <- Hp).
  assert (map entry_of keys' = qsort (map entry_of keys)) as E.
  { apply (StronglySorted_unique entry_le).
    - apply Sorted_StronglySorted; [apply _|]. clear Es Hp. revert Hs Hk'.
      induction keys' as [|k [|k' l] IH]; intros Hs Hk'; [constructor|repeat constructor|].
      cbn [map] in Hs. inversion_clear Hs as [|? ? Ht Hr]. inversion_clear Hk' as [|? ? Hk1 Hk2].
      cbn [map]. constructor; [by apply IH|]. constructor. inversion_clear Hr as [|? ? Hle].
      inversion_clear Hk2 as [|? ? Hk3]. unfold key_le in Hle. by rewrite compare_ok in Hle.
    - apply StronglySorted_merge_sort; apply _.
    - rewrite qsort_Permutation. by rewrite Hp. }
  unfold sorted_keys. rewrite <- E, map_map. done.
Qed.

(** A new builder after a sequence of writes. *)
Lemma builder_run m bs :
  writes m bs -> zlen bs <= stream_max -> heap_serves (Z.max 1024 (2 * zlen bs)) ->
  exists b w, neoc_script_builder_create = Ok b /\ m b = (Ok tt, w) /\
    neoc_script_builder_get_size w = (Ok (zlen bs), w) /\
    neoc_script_builder_to_array w = (Ok bs, w).
Proof.
  intros Hm Hs Hh. pose proof (zlen_nonneg bs). unfold stream_max in Hs.
  unfold neoc_script_builder_create, neoc_malloc_ok, builder_struct_size, builder_capacity.
  rewrite (Hh 8) by lia. cbn [Z.eqb negb].
  destruct (writer_create_succeeds 256 true _ Hh) as [b Eb];
    [unfold writer_struct_size; lia|lia|].
  apply writer_create_ok in Eb as Hb; [|lia]. destruct Hb as (Hw & C0 & P0 & G0 & _).
  destruct (writes_run m bs b Hm Hw G0) as (w & E & X); [unfold stream_max; lia| |].
  { eapply heap_serves_mono; [done|lia]. }
  destruct X as [Hw' _ _ P1 C1]. exists b, w. split_and!; [done|done| |].
  - unfold neoc_script_builder_get_size, neoc_binary_writer_get_position. do 2 f_equal. lia.
  - unfold neoc_script_builder_to_array. rewrite to_array_contents; [|done|].
    + rewrite C1, C0. done.
    + apply Hh. lia.
Qed.

Lemma encoded_push_writes keys :
  Forall key_ok keys -> malloc_ok 33 = true ->
  writes (push_items
            (fun key =>
               let! '(pubkey_bytes, pubkey_size) := lift (encoded_of key) in
               neoc_script_builder_push_data (Some pubkey_bytes) pubkey_size)
            (map Some keys) (zlen keys))
         (keys_push (map pk_compressed keys)).
Proof.
  intros Hk Hm. unfold keys_push. rewrite map_map.
  rewrite <- (zlen_map Some keys).
  rewrite <- (map_map Some (fun o => match o with Some k => key_push (pk_compressed k) | None => [] end)).
  apply push_items_writes. intros x Hi. apply in_map_iff in Hi as (k & <- & Hi).
  rewrite Forall_forall in Hk. assert (key_ok k) as Hok by (apply Hk; by apply list_elem_of_In).
  cbn [encoded_of]. rewrite (get_encoded_compressed Hcurve) by done. apply writes_lift.
  rewrite <- push_data_key by (by apply key_size).
  pose proof (push_data_writes (pk_compressed k)) as Hw. by rewrite (key_size Hcurve) in Hw.
Qed.

(** The account of a valid threshold and up to 255 keys. *)
Lemma multi_sig_create_ok keys m :
  crypto_works -> Forall key_ok keys -> 1 <= m <= zlen keys -> zlen keys <= 255 ->
  heap_serves (2 ^ 15) ->
  exists keys' hash,
    keys' ≡ₚ keys /\ map pk_compressed keys' = sorted_keys keys /\
    valid_multi m (sorted_keys keys) /\
    neoc_hash160_from_script (Some (multi_sig_bytes m (sorted_keys keys)))
      (zlen (multi_sig_bytes m (sorted_keys keys))) = Ok hash /\ hash160_ok hash /\
    neoc_multi_sig_create m (Some (map Some keys)) (zlen keys) =
    Ok (mk_multi_sig _ m (zlen keys) (map Some keys') hash
          (multi_sig_bytes m (sorted_keys keys)) (zlen (multi_sig_bytes m (sorted_keys keys)))).
Proof.
  intros Hw Hk Hm Hn Hh. assert (malloc_ok 33 = true) as H33 by (apply Hh; lia).
  destruct (sort_keys keys Hk H33) as (keys' & Es & Hp & Ek).
  pose proof (from_keys_size Hcurve _ (sorted_keys_from keys Hk)) as Hs.
  assert (valid_multi m (sorted_keys keys)) as Hv by (split; [done|];
    rewrite sorted_keys_length; unfold NEOC_MAX_PUBLIC_KEYS_PER_MULTISIG_ACCOUNT; lia).
  pose proof (multi_size _ _ Hv) as Hsize. rewrite sorted_keys_length in Hsize.
  destruct (valid_multi_int64 _ _ Hv) as [I1 I2]. rewrite sorted_keys_length in I2.
  set (bs := multi_sig_bytes m (sorted_keys keys)) in *.
  destruct (hash160_digest Hw bs) as (d & Ed & Hd).
  assert (neoc_hash160_from_script (Some bs) (zlen bs) = Ok (mk_hash160 (reverse d))) as Eh
    by (unfold neoc_hash160_from_script; by rewrite Ed).
  exists keys', (mk_hash160 (reverse d)). split_and!; try done.
  { unfold hash160_ok, NEOC_HASH160_SIZE. cbn [hash160_data]. rewrite zlen_reverse. unfold zlen. lia. }
  unfold neoc_multi_sig_create, neoc_malloc_ok, multi_sig_struct_size. cmps.
  rewrite !Hh by (eval_pows; lia). cbn [negb]. unfold read_array.
  rewrite <- (zlen_map Some keys), buf_slice_all, (zlen_map Some keys). cbn [rbind]. rewrite Es.
  assert (zlen keys' = zlen keys) as Hl by (unfold zlen; by rewrite Hp).
  assert (Forall key_ok keys') as Hk' by (by rewrite Hp).
  destruct (builder_run (emit_multi_sig m (map Some keys') (zlen keys)) bs) as (b & w & Eb & Er & Ez & Ea).
  - unfold emit_multi_sig, bs, multi_sig_bytes. rewrite sorted_keys_length, <- Ek, <- Hl.
    repeat (apply writes_bind; [by auto using push_integer_writes, encoded_push_writes|]).
    all: rewrite ?Hl in *; auto using push_integer_writes, emit_syscall_writes, writes_bind.
  - unfold stream_max. eval_pows. lia.
  - apply (heap_serves_mono _ _ Hh). eval_pows. lia.
  - rewrite Eb. cbn [rbind]. rewrite (bind_ok _ _ _ _ _ Er).
    unfold take_script, neoc_malloc_ok. rewrite (bind_ok _ _ _ _ _ Ez). cmps. rewrite Hh by (eval_pows; lia).
    cbn [negb]. rewrite (bind_ok _ _ _ _ _ Ea), Z.eqb_refl. cbn [negb rbind ret fst]. by rewrite Eh.
Qed.

(** ** Claims *)

Lemma contains_loop_ok k keys :
  key_ok k -> Forall key_ok keys -> malloc_ok 33 = true ->
  contains_loop (pk_compressed k) 33 (map Some keys) (length keys)
  = Ok (bool_decide (pk_compressed k ∈ map pk_compressed keys)).
Proof.
  intros Hk Hks Hm. induction Hks as [|k' keys Hk' _ IH]; [done|].
  cbn [map contains_loop length encoded_of]. rewrite (get_encoded_compressed Hcurve) by done.
  cbn [Z.eqb andb]. assert (length (pk_compressed k) = length (pk_compressed k')) as Hl.
  { pose proof (key_size Hcurve k Hk). pose proof (key_size Hcurve k' Hk'). unfold zlen in *. lia. }
  destruct (memcmp_loop _ _ =? 0) eqn:E; bdestruct.
  - apply (memcmp_zero _ _ Hl) in E. rewrite bool_decide_eq_true_2; [done|]. rewrite E. by left.
  - rewrite IH. f_equal. apply bool_decide_ext. rewrite elem_of_cons.
    split; [by right|]. intros [F|F]; [|done]. by apply (memcmp_zero _ _ Hl) in F.
Qed.

(** C21.  The two implementations of multi-signature accounts agree: for every valid
    threshold and up to 255 keys in any order, [neoc_multi_sig_create] succeeds with the
    very script that [neoc_verification_script_create_multi_sig] builds, its hash is the
    hash of that script object, and a key is found in the account exactly when its
    encoding is that of one of the given keys. *)
Theorem multi_sig_implementations_agree (keys : list neoc_ec_public_key_t) (m : Z) :
  crypto_works -> Forall key_ok keys -> 1 <= m <= zlen keys -> zlen keys <= 255 ->
  heap_serves (2 ^ 17) ->
  exists account vs,
    neoc_multi_sig_create m (Some (map Some keys)) (zlen keys) = Ok account /\
    neoc_verification_script_create_multi_sig (Some (map Some keys)) (zlen keys) m = Ok vs /\
    neoc_verification_script_get_script vs
      = (as_pointer (ms_verification_script account), ms_script_size account) /\
    neoc_verification_script_get_script_hash vs = Ok (ms_script_hash account) /\
    ms_threshold account = m /\
    forall k, key_ok k ->
      neoc_multi_sig_contains_key (Some account) (Some k)
      = Ok (bool_decide (pk_compressed k ∈ map pk_compressed keys)).
Proof.
  intros Hw Hk Hm Hn Hh.
  destruct (multi_sig_create_ok keys m Hw Hk Hm Hn) as (keys' & hash & Hp & Ek & Hv & Eh & _ & E).
  { apply (heap_serves_mono _ _ Hh). eval_pows. lia. }
  destruct (create_multi_sig_ok Hcurve keys m Hk Hm) as [_ E'];
    [unfold NEOC_MAX_PUBLIC_KEYS_PER_MULTISIG_ACCOUNT; lia|done|].
  pose proof (multi_size _ _ Hv) as [Hs _].
  eexists _, _. split_and!; [exact E|exact E'|done| |done|].
  - unfold neoc_verification_script_get_script_hash, vs_of. cbn [vs_script vs_script_length].
    rewrite as_pointer_some by lia. exact Eh.
  - intros k Hok. cbn [neoc_multi_sig_contains_key encoded_of ms_public_keys ms_public_key_count].
    rewrite (get_encoded_compressed Hcurve) by (done || apply Hh; eval_pows; lia).
    replace (Z.to_nat (zlen keys)) with (length keys') by (unfold zlen; rewrite Hp; lia).
    rewrite contains_loop_ok; [|done|by rewrite Hp|apply Hh; eval_pows; lia].
    f_equal. apply bool_decide_ext. by rewrite Hp.
Qed.

Lemma signature_pushes_write sigs :
  Forall (fun s => zlen s = 64) sigs ->
  writes (push_items
            (fun signature =>
               match signature with
               | None => fail NEOC_ERROR_INVALID_ARGUMENT
               | Some _ => neoc_script_builder_push_data signature 64
               end)
            (map Some sigs) (zlen sigs))
         (concat (map push_data_bytes sigs)).
Proof.
  intros Hs. rewrite <- (zlen_map Some sigs).
  rewrite <- (map_map Some (fun o => push_data_bytes (default [] o))).
  apply push_items_writes. intros x Hi. apply in_map_iff in Hi as (sg & <- & Hi).
  rewrite Forall_forall in Hs. assert (zlen sg = 64) as E by (apply Hs; by apply list_elem_of_In).
  pose proof (push_data_writes sg) as Hw. by rewrite E in Hw.
Qed.

Lemma signature_pushes_size sigs :
  Forall (fun s => zlen s = 64) sigs -> zlen (concat (map push_data_bytes sigs)) = 66 * zlen sigs.
Proof.
  induction 1 as [|sg sigs Hs _ IH]; [done|]. cbn [map concat]. rewrite zlen_app, IH, zlen_cons.
  unfold push_data_bytes. rewrite Hs. cbn [Z.eqb Z.leb].
  change (64 <=? 0xFF) with true. cbv iota. rewrite !zlen_cons || rewrite !zlen_app. unfold zlen in *. cbn. lia.
Qed.

(** Only the first [n] items are looked at. *)
Lemma push_items_app {A} (push : A -> Wr unit) (a b : list A) w :
  push_items push (a ++ b) (zlen a) w = push_items push a (zlen a) w.
Proof.
  revert w. induction a as [|x a IH]; intros w; [by destruct b|].
  cbn [app push_items]. rewrite zlen_cons. pose proof (zlen_nonneg a). cmps.
  replace (1 + zlen a - 1) with (zlen a) by lia. unfold bind.
  destruct (push x w) as [[[]| |] w']; [|done..]. apply IH.
Qed.

(** Witnesses of multi-signature accounts: from m or more signatures the
    invocation script of the first m is made, and a too small buffer is told the size it
    needs.  Run before the account's verification script, it reaches
    [System.Crypto.CheckMultisig] with n, the sorted keys, m and exactly m signatures on
    the stack. *)
Theorem multi_sig_witness_runs (keys : list neoc_ec_public_key_t) (m : Z)
    (sigs extra : list (list byte)) (buf : sized_buffer) :
  crypto_works -> Forall key_ok keys -> 1 <= m <= zlen keys -> zlen keys <= 255 ->
  Forall (fun s => zlen s = 64) sigs -> zlen sigs = m -> heap_serves (2 ^ 17) ->
  exists account inv,
    neoc_multi_sig_create m (Some (map Some keys)) (zlen keys) = Ok account /\
    zlen inv = 66 * m /\
    neoc_multi_sig_create_witness (Some account) (Some (map Some (sigs ++ extra)))
      (zlen (sigs ++ extra)) (zlen (sb_data buf)) buf
    = (if zlen (sb_data buf) <? zlen inv
       then (Err NEOC_ERROR_BUFFER_TOO_SMALL, mk_sized (sb_data buf) (zlen inv))
       else (Ok tt, mk_sized (inv ++ drop (length inv) (sb_data buf)) (zlen inv))) /\
    runs (inv ++ ms_verification_script account, [])
      (syscall_bytes NEOC_INTEROP_SYSTEM_CRYPTO_CHECKMULTISIG,
       Integer (zlen keys) :: rev (map ByteString (sorted_keys keys)) ++
       Integer m :: rev (map ByteString sigs)).
Proof.
  intros Hw Hk Hm Hn Hs Hl Hh.
  destruct (multi_sig_create_ok keys m Hw Hk Hm Hn) as (keys' & hash & Hp & Ek & Hv & Eh & _ & E).
  { apply (heap_serves_mono _ _ Hh). eval_pows. lia. }
  set (inv := concat (map push_data_bytes sigs)).
  pose proof (signature_pushes_size sigs Hs) as Hi. fold inv in Hi. rewrite Hl in Hi.
  eexists _, inv. split_and!; [exact E|done| |].
  - cbn [neoc_multi_sig_create_witness ms_threshold]. rewrite zlen_app. pose proof (zlen_nonneg extra).
    cmps. rewrite Z.min_r by lia.
    destruct (builder_run _ _ (signature_pushes_write sigs Hs)) as (b & w & Eb & Er & Ez & Ea);
      [unfold stream_max; eval_pows; fold inv; lia|apply (heap_serves_mono _ _ Hh); eval_pows; fold inv; lia|].
    fold inv in Ez, Ea. rewrite Eb, bind_lift, map_app, <- Hl, <- (zlen_map Some sigs), push_items_app,
      (zlen_map Some sigs), Er, bind_lift, Ez. cbn [fst]. rewrite bind_lift. rewrite Ea. unfold bind at 1.
    destruct (zlen (sb_data buf) <? zlen inv) eqn:Eb'; [done|]. cbn [fst]. rewrite Z.eqb_refl. cbn [negb].
    unfold deliver. rewrite Eb'. cbn [sb_data]. bdestruct.
    assert (take (Z.to_nat (zlen inv)) inv = inv) as -> by (unfold zlen; by rewrite Nat2Z.id, firstn_all).
    by rewrite store_first by lia.
  - cbn [ms_verification_script]. destruct Hv as (Hk33 & Hv). destruct (valid_multi_int64 _ _ (conj Hk33 Hv)) as [I1 I2].
    etransitivity; [apply (pushes_all_concat push_data_bytes ByteString)|].
    { intros sg Hg. rewrite Forall_forall in Hs. apply data_pushes_long.
      assert (zlen sg = 64) as -> by (apply Hs; by apply list_elem_of_In). lia. }
    unfold multi_sig_bytes. rewrite app_nil_r.
    etransitivity; [by apply push_integer_pushes|]. etransitivity; [by apply keys_pushes|].
    etransitivity; [by apply push_integer_pushes|]. by rewrite sorted_keys_length.
Qed.
End Proofs.

Section Samples.
#[local] Existing Instance mib_heap.
#[local] Existing Instance sample_interop.
#[local] Existing Instance toy_crypto.
#[local] Existing Instance toy_curve.

Lemma multi_sig_implementations_agree_witness :
  exists account,
    neoc_multi_sig_create 2 (Some (map Some sample_keys)) (zlen sample_keys) = Ok account /\
    ms_threshold account = 2.
Proof.
  destruct (multi_sig_implementations_agree toy_curve_works sample_keys 2 toy_crypto_works
    sample_keys_ok) as (account & vs & E & _ & _ & _ & Et & _);
    [split; by vm_compute|by vm_compute|by apply mib_heap_serves; vm_compute|].
  exists account. exact (conj E Et).
Defined.

Lemma multi_sig_witness_runs_witness :
  exists account inv,
    neoc_multi_sig_create 1 (Some (map Some sample_keys)) (zlen sample_keys) = Ok account /\
    runs (inv ++ ms_verification_script account, [])
      (syscall_bytes NEOC_INTEROP_SYSTEM_CRYPTO_CHECKMULTISIG,
       Integer (zlen sample_keys) :: rev (map ByteString (sorted_keys sample_keys)) ++
       [Integer 1; ByteString (replicate 64 Byte.x07)]).
Proof.
  destruct (multi_sig_witness_runs toy_curve_works sample_keys 1 [replicate 64 Byte.x07] []
    (mk_sized (replicate 10 Byte.x00) 0) toy_crypto_works sample_keys_ok)
    as (account & inv & E & _ & _ & R);
    [split; by vm_compute|by vm_compute|by repeat constructor|done|by apply mib_heap_serves; vm_compute|].
  exists account, inv. exact (conj E R).
Defined.
End Samples.
