(* ===== verification/WitnessRule.v ===== *)
(** * Witness rules (src/protocol/core/witnessrule/)

    Conditions (witness_condition.c), actions (witness_action.c) and rules
    (witness_rule.c): construction by deep copies, sizes, the binary stream with
    its bound on nesting, and comparison.  The JSON functions are in WitnessJson.v.
    Pointers to sub-conditions are never NULL: every constructor copies them.
    Sizes do not wrap: every sub-condition that is counted is an object of its own
    in memory. *)

From S2P Require Import Prelude BinaryWriter BinaryReader Serializable Hashes EcKey.

#[local] Set Warnings "-register-all".

(** ** Data *)

Definition NEOC_WITNESS_CONDITION_MAX_SUBITEMS : Z := 16.
Definition NEOC_WITNESS_CONDITION_MAX_NESTING_DEPTH : Z := 2.

Inductive neoc_witness_condition_t `{Curve} : Type :=
| WC_BOOLEAN (value : bool)
| WC_NOT (expression : neoc_witness_condition_t)
| WC_AND (expressions : list neoc_witness_condition_t)
| WC_OR (expressions : list neoc_witness_condition_t)
| WC_SCRIPT_HASH (hash : neoc_hash160_t)
| WC_GROUP (public_key : neoc_ec_public_key_t)
| WC_CALLED_BY_ENTRY
| WC_CALLED_BY_CONTRACT (hash : neoc_hash160_t)
| WC_CALLED_BY_GROUP (public_key : neoc_ec_public_key_t).

Inductive neoc_witness_action_t : Set :=
| NEOC_WITNESS_ACTION_DENY
| NEOC_WITNESS_ACTION_ALLOW.

#[global] Instance action_eq_dec : EqDecision neoc_witness_action_t.
Proof. solve_decision. Defined.

Record neoc_witness_rule_t `{Curve} := mk_rule {
  wr_action : neoc_witness_action_t;
  wr_condition : option neoc_witness_condition_t
}.

(** [sizeof] of the two structs *)
Definition condition_struct_size : Z := 32.
Definition rule_struct_size : Z := 16.

(** ** Conditions *)

Section Operations.
Context `{Allocator} `{Curve}.

Definition neoc_witness_condition_type_to_byte (c : neoc_witness_condition_t) : Z :=
  match c with
  | WC_BOOLEAN _ => 0x00
  | WC_NOT _ => 0x01
  | WC_AND _ => 0x02
  | WC_OR _ => 0x03
  | WC_SCRIPT_HASH _ => 0x18
  | WC_GROUP _ => 0x19
  | WC_CALLED_BY_ENTRY => 0x20
  | WC_CALLED_BY_CONTRACT _ => 0x28
  | WC_CALLED_BY_GROUP _ => 0x29
  end.

(** [neoc_witness_condition_alloc] in front of filling in the fields. *)
Definition alloc_condition {A} (r : res A) : res A :=
  if negb (malloc_ok condition_struct_size) then Err NEOC_ERROR_MEMORY else r.

Definition neoc_witness_condition_clone_public_key (source : neoc_ec_public_key_t)
  : res neoc_ec_public_key_t :=
  let? '(encoded, encoded_len) := neoc_ec_public_key_get_encoded source true in
  neoc_ec_public_key_from_bytes (Some encoded) encoded_len.

(** The loops that treat each sub-condition in turn. *)
Definition each_res {A B} (f : A -> res B) : list A -> res (list B) :=
  fix go l :=
    match l with
    | [] => Ok []
    | x :: l => let? y := f x in let? l := go l in Ok (y :: l)
    end.

Fixpoint neoc_witness_condition_clone_internal (src : neoc_witness_condition_t)
  : res neoc_witness_condition_t :=
  let clone_list es :=
    if negb (malloc_ok (zlen es * 8)) then Err NEOC_ERROR_MEMORY
    else each_res neoc_witness_condition_clone_internal es in
  alloc_condition
    match src with
    | WC_BOOLEAN v => Ok (WC_BOOLEAN v)
    | WC_NOT e => let? e := neoc_witness_condition_clone_internal e in Ok (WC_NOT e)
    | WC_AND es => let? es := clone_list es in Ok (WC_AND es)
    | WC_OR es => let? es := clone_list es in Ok (WC_OR es)
    | WC_SCRIPT_HASH h => Ok (WC_SCRIPT_HASH h)
    | WC_GROUP k =>
        let? k := neoc_witness_condition_clone_public_key k in Ok (WC_GROUP k)
    | WC_CALLED_BY_ENTRY => Ok WC_CALLED_BY_ENTRY
    | WC_CALLED_BY_CONTRACT h => Ok (WC_CALLED_BY_CONTRACT h)
    | WC_CALLED_BY_GROUP k =>
        let? k := neoc_witness_condition_clone_public_key k in Ok (WC_CALLED_BY_GROUP k)
    end.

Definition neoc_witness_condition_clone (src : option neoc_witness_condition_t)
  : res neoc_witness_condition_t :=
  match src with
  | None => Err NEOC_ERROR_INVALID_ARGUMENT
  | Some src => neoc_witness_condition_clone_internal src
  end.

Definition neoc_witness_condition_create_boolean (value : bool)
  : res neoc_witness_condition_t := alloc_condition (Ok (WC_BOOLEAN value)).

Definition neoc_witness_condition_create_not (expression : option neoc_witness_condition_t)
  : res neoc_witness_condition_t :=
  match expression with
  | None => Err NEOC_ERROR_INVALID_ARGUMENT
  | Some expression =>
      alloc_condition
        (let? e := neoc_witness_condition_clone_internal expression in Ok (WC_NOT e))
  end.

(** [make] is the constructor that goes with the type argument. *)
Definition neoc_witness_condition_create_logical
    (make : list neoc_witness_condition_t -> neoc_witness_condition_t)
    (expressions : option (list neoc_witness_condition_t)) : res neoc_witness_condition_t :=
  match expressions with
  | None => Err NEOC_ERROR_INVALID_ARGUMENT
  | Some es =>
      if (zlen es =? 0) || (NEOC_WITNESS_CONDITION_MAX_SUBITEMS <? zlen es)
      then Err NEOC_ERROR_INVALID_ARGUMENT
      else
        alloc_condition
          (if negb (malloc_ok (zlen es * 8)) then Err NEOC_ERROR_MEMORY
           else let? es := each_res neoc_witness_condition_clone_internal es in Ok (make es))
  end.

Definition neoc_witness_condition_create_and
    (expressions : option (list neoc_witness_condition_t)) : res neoc_witness_condition_t :=
  neoc_witness_condition_create_logical WC_AND expressions.

Definition neoc_witness_condition_create_or
    (expressions : option (list neoc_witness_condition_t)) : res neoc_witness_condition_t :=
  neoc_witness_condition_create_logical WC_OR expressions.

Definition neoc_witness_condition_create_script_hash (hash : option neoc_hash160_t)
  : res neoc_witness_condition_t :=
  match hash with
  | None => Err NEOC_ERROR_INVALID_ARGUMENT
  | Some hash => alloc_condition (Ok (WC_SCRIPT_HASH hash))
  end.

Definition neoc_witness_condition_create_group (public_key : option neoc_ec_public_key_t)
  : res neoc_witness_condition_t :=
  match public_key with
  | None => Err NEOC_ERROR_INVALID_ARGUMENT
  | Some k =>
      alloc_condition
        (let? k := neoc_witness_condition_clone_public_key k in Ok (WC_GROUP k))
  end.

Definition neoc_witness_condition_create_called_by_entry : res neoc_witness_condition_t :=
  alloc_condition (Ok WC_CALLED_BY_ENTRY).

Definition neoc_witness_condition_create_called_by_contract (hash : option neoc_hash160_t)
  : res neoc_witness_condition_t :=
  match hash with
  | None => Err NEOC_ERROR_INVALID_ARGUMENT
  | Some hash => alloc_condition (Ok (WC_CALLED_BY_CONTRACT hash))
  end.

Definition neoc_witness_condition_create_called_by_group
    (group_key : option neoc_ec_public_key_t) : res neoc_witness_condition_t :=
  match group_key with
  | None => Err NEOC_ERROR_INVALID_ARGUMENT
  | Some k =>
      alloc_condition
        (let? k := neoc_witness_condition_clone_public_key k in Ok (WC_CALLED_BY_GROUP k))
  end.

Definition neoc_witness_condition_get_boolean (condition : option neoc_witness_condition_t)
  : res bool :=
  match condition with
  | None => Err NEOC_ERROR_INVALID_ARGUMENT
  | Some (WC_BOOLEAN v) => Ok v
  | Some _ => Err NEOC_ERROR_INVALID_TYPE
  end.

Definition neoc_var_int_size (value : Z) : Z :=
  if value <? 0xFD then 1
  else if value <=? 0xFFFF then 3
  else if value <=? 0xFFFFFFFF then 5
  else 9.

Fixpoint neoc_witness_condition_internal_size (c : neoc_witness_condition_t) : Z :=
  let sum es := foldr (fun e acc => neoc_witness_condition_internal_size e + acc) 0 es in
  1 + match c with
      | WC_BOOLEAN _ => 1
      | WC_NOT e => neoc_witness_condition_internal_size e
      | WC_AND es => neoc_var_int_size (zlen es) + sum es
      | WC_OR es => neoc_var_int_size (zlen es) + sum es
      | WC_SCRIPT_HASH _ | WC_CALLED_BY_CONTRACT _ => NEOC_HASH160_SIZE
      | WC_GROUP _ | WC_CALLED_BY_GROUP _ => 33
      | WC_CALLED_BY_ENTRY => 0
      end.

Definition neoc_witness_condition_get_size (condition : option neoc_witness_condition_t) : Z :=
  match condition with
  | None => 0
  | Some c => neoc_witness_condition_internal_size c
  end.

Definition write_group (k : neoc_ec_public_key_t) : Wr unit :=
  let! '(encoded, encoded_len) := lift (neoc_ec_public_key_get_encoded k true) in
  if negb (encoded_len =? 33) then fail NEOC_ERROR_INVALID_LENGTH
  else neoc_binary_writer_write_bytes (Some encoded) encoded_len.

Definition each_write {A} (f : A -> Wr unit) : list A -> Wr unit :=
  fix go l :=
    match l with
    | [] => ret tt
    | x :: l => do! f x in go l
    end.

Fixpoint neoc_witness_condition_serialize_internal (c : neoc_witness_condition_t) (depth : Z)
  : Wr unit :=
  if NEOC_WITNESS_CONDITION_MAX_NESTING_DEPTH <? depth
  then fail NEOC_ERROR_INVALID_FORMAT
  else
    do! neoc_binary_writer_write_byte (byte_of_Z (neoc_witness_condition_type_to_byte c)) in
    match c with
    | WC_BOOLEAN v => neoc_binary_writer_write_bool v
    | WC_NOT e => neoc_witness_condition_serialize_internal e (depth + 1)
    | WC_AND es | WC_OR es =>
        do! neoc_binary_writer_write_var_int (zlen es) in
        each_write (fun e => neoc_witness_condition_serialize_internal e (depth + 1)) es
    | WC_SCRIPT_HASH h | WC_CALLED_BY_CONTRACT h =>
        neoc_binary_writer_write_bytes (Some (hash160_data h)) NEOC_HASH160_SIZE
    | WC_GROUP k | WC_CALLED_BY_GROUP k => write_group k
    | WC_CALLED_BY_ENTRY => ret tt
    end.

Definition neoc_witness_condition_serialize (condition : option neoc_witness_condition_t)
  : Wr unit :=
  match condition with
  | None => fail NEOC_ERROR_INVALID_ARGUMENT
  | Some c => neoc_witness_condition_serialize_internal c 0
  end.

Definition alloc_in {A} (size : Z) (m : Rd A) : Rd A :=
  if negb (malloc_ok size) then fail NEOC_ERROR_MEMORY else m.

Definition read_group : Rd neoc_ec_public_key_t :=
  let! buffer := neoc_binary_reader_read_bytes 33 in
  lift (neoc_ec_public_key_from_bytes (Some buffer) 33).

(** The calls nest at most four deep: the one at depth 3 only reports the error.
    [levels] counts the calls left. *)
Fixpoint neoc_witness_condition_deserialize_internal (levels : nat) (depth : Z)
  : Rd neoc_witness_condition_t :=
  match levels with
  | O => fault
  | S levels =>
      if NEOC_WITNESS_CONDITION_MAX_NESTING_DEPTH <? depth
      then fail NEOC_ERROR_INVALID_FORMAT
      else
        let! type_byte := neoc_binary_reader_read_byte in
        let t := Z_of_byte type_byte in
        let sub := neoc_witness_condition_deserialize_internal levels (depth + 1) in
        let logical make :=
          let! count := neoc_binary_reader_read_var_int in
          if (count =? 0) || (NEOC_WITNESS_CONDITION_MAX_SUBITEMS <? count)
          then fail NEOC_ERROR_INVALID_FORMAT
          else
            alloc_in (count * 8)
              (let! es := read_n (Z.to_nat count) sub in ret (make es)) in
        if t =? 0x00 then
          alloc_in condition_struct_size
            (let! v := neoc_binary_reader_read_bool in ret (WC_BOOLEAN v))
        else if t =? 0x01 then
          alloc_in condition_struct_size (let! e := sub in ret (WC_NOT e))
        else if t =? 0x02 then alloc_in condition_struct_size (logical WC_AND)
        else if t =? 0x03 then alloc_in condition_struct_size (logical WC_OR)
        else if t =? 0x18 then
          alloc_in condition_struct_size
            (let! h := neoc_hash160_deserialize in ret (WC_SCRIPT_HASH h))
        else if t =? 0x19 then
          alloc_in condition_struct_size (let! k := read_group in ret (WC_GROUP k))
        else if t =? 0x20 then
          alloc_in condition_struct_size (ret WC_CALLED_BY_ENTRY)
        else if t =? 0x28 then
          alloc_in condition_struct_size
            (let! h := neoc_hash160_deserialize in ret (WC_CALLED_BY_CONTRACT h))
        else if t =? 0x29 then
          alloc_in condition_struct_size (let! k := read_group in ret (WC_CALLED_BY_GROUP k))
        else fail NEOC_ERROR_INVALID_FORMAT
  end.

Definition neoc_witness_condition_deserialize : Rd neoc_witness_condition_t :=
  neoc_witness_condition_deserialize_internal 4 0.

(** ** Actions *)

Definition neoc_witness_action_get_byte (action : neoc_witness_action_t) : byte :=
  match action with
  | NEOC_WITNESS_ACTION_ALLOW => Byte.x01
  | NEOC_WITNESS_ACTION_DENY => Byte.x00
  end.

Definition neoc_witness_action_from_byte (b : byte) : res neoc_witness_action_t :=
  if Z_of_byte b =? 0 then Ok NEOC_WITNESS_ACTION_DENY
  else if Z_of_byte b =? 1 then Ok NEOC_WITNESS_ACTION_ALLOW
  else Err NEOC_ERROR_INVALID_ARGUMENT.

(** ** Rules *)

Definition alloc_rule {A} (r : res A) : res A :=
  if negb (malloc_ok rule_struct_size) then Err NEOC_ERROR_MEMORY else r.

Definition neoc_witness_rule_create (action : neoc_witness_action_t)
    (condition : option neoc_witness_condition_t) : res neoc_witness_rule_t :=
  match condition with
  | None => Err NEOC_ERROR_INVALID_ARGUMENT
  | Some _ =>
      alloc_rule
        (let? c := neoc_witness_condition_clone condition in Ok (mk_rule _ action (Some c)))
  end.

Definition neoc_witness_rule_clone (src : option neoc_witness_rule_t)
  : res neoc_witness_rule_t :=
  match src with
  | None => Err NEOC_ERROR_INVALID_ARGUMENT
  | Some src =>
      alloc_rule
        match wr_condition src with
        | None => Ok (mk_rule _ (wr_action src) None)
        | Some _ =>
            let? c := neoc_witness_condition_clone (wr_condition src) in
            Ok (mk_rule _ (wr_action src) (Some c))
        end
  end.

Definition neoc_witness_rule_get_size (rule : option neoc_witness_rule_t) : Z :=
  match rule with
  | None => 0
  | Some rule => 1 + neoc_witness_condition_get_size (wr_condition rule)
  end.

(** The state is the caller's buffer and [*bytes_written]. *)
Definition neoc_witness_rule_serialize (rule : option neoc_witness_rule_t) (buffer_size : Z)
  : M (list byte * Z) unit := fun '(buffer, bytes_written) =>
  match rule with
  | None => (Err NEOC_ERROR_INVALID_ARGUMENT, (buffer, bytes_written))
  | Some r =>
      let required := neoc_witness_rule_get_size rule in
      if buffer_size <? required
      then (Err NEOC_ERROR_BUFFER_TOO_SMALL, (buffer, required))
      else
        match serialize_with required
                (do! neoc_binary_writer_write_byte (neoc_witness_action_get_byte (wr_action r)) in
                 neoc_witness_condition_serialize (wr_condition r)) with
        | Err e => (Err e, (buffer, bytes_written))
        | Fault => (Fault, (buffer, bytes_written))
        | Ok serialized =>
            match buf_copy buffer 0 serialized with
            | Some buffer => (Ok tt, (buffer, zlen serialized))
            | None => (Fault, (buffer, bytes_written))
            end
        end
  end.

(** The rule and [*bytes_read]. *)
Definition neoc_witness_rule_deserialize (buffer : option (list byte)) (buffer_size : Z)
  : res (neoc_witness_rule_t * Z) :=
  match buffer with
  | None => Err NEOC_ERROR_INVALID_ARGUMENT
  | Some _ =>
      let? reader := neoc_binary_reader_create buffer buffer_size in
      fst ((let! action_byte := neoc_binary_reader_read_byte in
            let! action := lift (neoc_witness_action_from_byte action_byte) in
            let! condition := neoc_witness_condition_deserialize in
            alloc_in rule_struct_size
              (let! bytes_read := neoc_binary_reader_get_position in
               ret (mk_rule _ action (Some condition), bytes_read))) reader)
  end.

(** [same] is the pointer comparison [rule1 == rule2]; [junk] fills fresh memory. *)
Definition neoc_witness_rule_equals (junk : byte) (same : bool)
    (rule1 rule2 : option neoc_witness_rule_t) : res bool :=
  if same then Ok true
  else
    match rule1, rule2 with
    | Some r1, Some r2 =>
        if negb (bool_decide (wr_action r1 = wr_action r2)) then Ok false
        else
          let size1 := neoc_witness_rule_get_size rule1 in
          let size2 := neoc_witness_rule_get_size rule2 in
          if negb (size1 =? size2) then Ok false
          else if negb (malloc_ok size1) || negb (malloc_ok size2) then Ok false
          else
            let fresh := replicate (Z.to_nat size1) junk in
            let '(x1, (buf1, written1)) := neoc_witness_rule_serialize rule1 size1 (fresh, 0) in
            let '(x2, (buf2, written2)) := neoc_witness_rule_serialize rule2 size2 (fresh, 0) in
            match x1, x2 with
            | Fault, _ | _, Fault => Fault
            | _, _ =>
                if negb (written1 =? written2) then Ok false
                else
                  match buf_slice buf1 0 written1, buf_slice buf2 0 written1 with
                  | Some a, Some b => Ok (bool_decide (a = b))
                  | _, _ => Fault
                  end
            end
    | _, _ => Ok false
    end.

Definition neoc_witness_rule_validate (rule : option neoc_witness_rule_t) : res unit :=
  match rule with
  | Some (mk_rule _ _ (Some _)) => Ok tt
  | _ => Err NEOC_ERROR_INVALID_ARGUMENT
  end.

End Operations.

(** ** Specification *)

Section Spec.
Context `{Curve}.

(** Induction with the sub-conditions of the lists. *)
Fixpoint condition_rule (P : neoc_witness_condition_t -> Prop)
    (Pbool : forall v, P (WC_BOOLEAN v))
    (Pnot : forall e, P e -> P (WC_NOT e))
    (Pand : forall es, Forall P es -> P (WC_AND es))
    (Por : forall es, Forall P es -> P (WC_OR es))
    (Phash : forall h, P (WC_SCRIPT_HASH h))
    (Pgroup : forall k, P (WC_GROUP k))
    (Pentry : P WC_CALLED_BY_ENTRY)
    (Pcontract : forall h, P (WC_CALLED_BY_CONTRACT h))
    (Pcgroup : forall k, P (WC_CALLED_BY_GROUP k))
    (c : neoc_witness_condition_t) : P c :=
  let self := condition_rule P Pbool Pnot Pand Por Phash Pgroup Pentry Pcontract Pcgroup in
  let all := fix all es : Forall P es :=
    match es with
    | [] => Forall_nil_2 P
    | e :: es => Forall_cons_2 P e es (self e) (all es)
    end in
  match c with
  | WC_BOOLEAN v => Pbool v
  | WC_NOT e => Pnot e (self e)
  | WC_AND es => Pand es (all es)
  | WC_OR es => Por es (all es)
  | WC_SCRIPT_HASH h => Phash h
  | WC_GROUP k => Pgroup k
  | WC_CALLED_BY_ENTRY => Pentry
  | WC_CALLED_BY_CONTRACT h => Pcontract h
  | WC_CALLED_BY_GROUP k => Pcgroup k
  end.

(** The wire format. *)
Fixpoint condition_bytes (c : neoc_witness_condition_t) : list byte :=
  byte_of_Z (neoc_witness_condition_type_to_byte c) ::
  match c with
  | WC_BOOLEAN v => [if v then Byte.x01 else Byte.x00]
  | WC_NOT e => condition_bytes e
  | WC_AND es | WC_OR es => var_int_bytes (zlen es) ++ concat (map condition_bytes es)
  | WC_SCRIPT_HASH h | WC_CALLED_BY_CONTRACT h => hash160_data h
  | WC_GROUP k | WC_CALLED_BY_GROUP k => pk_compressed k
  | WC_CALLED_BY_ENTRY => []
  end.

(** How many conditions a condition lies inside, at most. *)
Fixpoint nesting (c : neoc_witness_condition_t) : Z :=
  match c with
  | WC_NOT e => 1 + nesting e
  | WC_AND es | WC_OR es => foldr (fun e n => Z.max (1 + nesting e) n) 0 es
  | _ => 0
  end.

(** A key that came out of [neoc_ec_public_key_from_bytes] in compressed form. *)
Definition key_compressed (k : neoc_ec_public_key_t) : Prop :=
  key_ok k /\ pk_is_compressed k = true.

(** The invariant of conditions: hashes have their size, keys are the compressed
    ones the copies contain, lists have 1 to 16 members. *)
Inductive condition_ok : neoc_witness_condition_t -> Prop :=
| ok_boolean v : condition_ok (WC_BOOLEAN v)
| ok_not e : condition_ok e -> condition_ok (WC_NOT e)
| ok_and es : 1 <= zlen es <= 16 -> Forall condition_ok es -> condition_ok (WC_AND es)
| ok_or es : 1 <= zlen es <= 16 -> Forall condition_ok es -> condition_ok (WC_OR es)
| ok_script_hash h : hash160_ok h -> condition_ok (WC_SCRIPT_HASH h)
| ok_group k : key_compressed k -> condition_ok (WC_GROUP k)
| ok_entry : condition_ok WC_CALLED_BY_ENTRY
| ok_contract h : hash160_ok h -> condition_ok (WC_CALLED_BY_CONTRACT h)
| ok_cgroup k : key_compressed k -> condition_ok (WC_CALLED_BY_GROUP k).

Definition rule_ok (r : neoc_witness_rule_t) : Prop :=
  exists c, wr_condition r = Some c /\ condition_ok c.

Definition rule_bytes (r : neoc_witness_rule_t) : list byte :=
  neoc_witness_action_get_byte (wr_action r) ::
  match wr_condition r with Some c => condition_bytes c | None => [] end.

(** The longest condition of a given nesting. *)
Fixpoint max_bytes (n : nat) : Z :=
  match n with
  | O => 34
  | S n => 2 + 16 * max_bytes n
  end.

Lemma nesting_nonneg c : 0 <= nesting c.
Proof.
  induction c using condition_rule; cbn; try lia;
    match goal with Hf : Forall _ _ |- _ => clear - Hf; induction Hf; cbn; lia end.
Qed.

Lemma nesting_list es n :
  foldr (fun e n => Z.max (1 + nesting e) n) 0 es <= n ->
  Forall (fun e => 1 + nesting e <= n) es.
Proof. induction es; cbn; intros; constructor; [lia|]. apply IHes. lia. Qed.

Lemma nesting_list_deep es n :
  0 <= n -> n < foldr (fun e n => Z.max (1 + nesting e) n) 0 es ->
  Exists (fun e => n < 1 + nesting e) es.
Proof.
  induction es as [|e es IH]; cbn; intros Hn He; [lia|].
  destruct (Z_lt_le_dec n (1 + nesting e)); [by left|]. right. apply IH; lia.
Qed.

End Spec.

(** ** Proofs *)

Section Proofs.
Context `{Allocator} `{Curve}.
Hypothesis Hcurve : curve_works.

Lemma key_compressed_size k : key_compressed k -> zlen (pk_compressed k) = 33.
Proof. intros [Hk _]. by apply key_size. Qed.

(** Decoding the compressed form of a compressed key gives that very key. *)
Lemma from_bytes_compressed k :
  key_compressed k -> malloc_ok public_key_struct_size = true ->
  neoc_ec_public_key_from_bytes (Some (pk_compressed k)) 33 = Ok k.
Proof.
  intros [Hk Hi] Hm. unfold neoc_ec_public_key_from_bytes. rewrite Hm. cbn [negb].
  pose proof (buf_slice_all (pk_compressed k)) as E. rewrite key_size in E by done.
  rewrite E. destruct Hk as [Hk1 Hk2]. rewrite Hk1, (works_decode Hcurve). cbn.
  destruct k; cbn in *. by subst.
Qed.

Lemma from_bytes_33_compressed bs k :
  neoc_ec_public_key_from_bytes (Some bs) 33 = Ok k -> key_compressed k.
Proof.
  intros E. split; [by eapply from_bytes_ok|].
  unfold neoc_ec_public_key_from_bytes in E. repeat case_match; by simplify_eq/=.
Qed.

Lemma clone_public_key_ok k :
  key_compressed k -> heap_serves 128 -> neoc_witness_condition_clone_public_key k = Ok k.
Proof.
  intros Hk Hh. unfold neoc_witness_condition_clone_public_key.
  rewrite get_encoded_compressed; [|done|apply Hk|apply Hh; lia]. cbn [rbind].
  apply from_bytes_compressed; [done|apply Hh; unfold public_key_struct_size; lia].
Qed.

Lemma clone_public_key_compressed k k' :
  neoc_witness_condition_clone_public_key k = Ok k' -> key_compressed k'.
Proof.
  unfold neoc_witness_condition_clone_public_key, neoc_ec_public_key_get_encoded.
  intros E. destruct (negb _); [done|]. destruct (buf_slice _ _ _); [|done].
  cbn [rbind] in E. by eapply from_bytes_33_compressed.
Qed.

(** *** Sizes *)

Lemma zlen_concat_sum {A} (f : A -> list byte) (g : A -> Z) es :
  Forall (fun e => g e = zlen (f e)) es ->
  foldr (fun e acc => g e + acc) 0 es = zlen (concat (map f es)).
Proof. induction 1 as [|e es He _ IH]; cbn; [done|]. rewrite zlen_app, He, IH. done. Qed.

Lemma zlen_concat_bound {A} (f : A -> list byte) m es :
  Forall (fun e => zlen (f e) <= m) es -> zlen (concat (map f es)) <= m * zlen es.
Proof.
  induction 1 as [|e es He _ IH]; cbn; [unfold zlen; cbn; lia|].
  rewrite zlen_app, zlen_cons. lia.
Qed.

Lemma internal_size_exact c :
  condition_ok c -> neoc_witness_condition_internal_size c = zlen (condition_bytes c).
Proof.
  induction c using condition_rule; intros Hc; inversion Hc; subst; cbn [condition_bytes
    neoc_witness_condition_internal_size]; rewrite zlen_cons; f_equal; auto.
  1,2: rewrite zlen_app, var_int_bytes_size by apply zlen_nonneg; f_equal;
    apply zlen_concat_sum; rewrite !Forall_forall in *; auto.
  all: by rewrite key_compressed_size.
Qed.

Lemma max_bytes_34 n : 34 <= max_bytes n.
Proof. induction n; cbn; lia. Qed.

Lemma sub_bytes_bound n es :
  1 <= zlen es <= 16 -> Forall condition_ok es ->
  Forall (fun e => forall n, condition_ok e -> nesting e <= Z.of_nat n ->
            zlen (condition_bytes e) <= max_bytes n) es ->
  foldr (fun e n => Z.max (1 + nesting e) n) 0 es <= Z.of_nat n ->
  1 + zlen (var_int_bytes (zlen es) ++ concat (map condition_bytes es)) <= max_bytes n.
Proof.
  intros Hl Hok IH Hn. apply nesting_list in Hn.
  destruct n as [|n].
  { destruct Hn as [|e es He]; [rewrite zlen_nil in Hl; lia|].
    pose proof (nesting_nonneg e). lia. }
  rewrite zlen_app, var_int_bytes_size by lia. cmps. cbn [max_bytes].
  pose proof (zlen_concat_bound condition_bytes (max_bytes n) es). pose proof (max_bytes_34 n).
  assert (zlen (concat (map condition_bytes es)) <= max_bytes n * zlen es) by
    (apply H1; rewrite !Forall_forall in *; intros e He; apply IH; auto;
     specialize (Hn e He); cbn in Hn; lia).
  nia.
Qed.

Lemma condition_bytes_bound n c :
  condition_ok c -> nesting c <= Z.of_nat n -> zlen (condition_bytes c) <= max_bytes n.
Proof.
  revert n. induction c using condition_rule; intros n Hc Hn; pose proof (max_bytes_34 n);
    inversion Hc; subst; cbn [condition_bytes]; rewrite zlen_cons; cbn [nesting] in Hn.
  1,7: unfold zlen; cbn; lia.
  - destruct n as [|n]; [pose proof (nesting_nonneg c); lia|]. cbn [max_bytes].
    specialize (IHc n). pose proof (max_bytes_34 n).
    assert (zlen (condition_bytes c) <= max_bytes n) by (apply IHc; [done|lia]). lia.
  - by apply sub_bytes_bound.
  - by apply sub_bytes_bound.
  - unfold hash160_ok, NEOC_HASH160_SIZE in *. lia.
  - rewrite key_compressed_size by done. lia.
  - unfold hash160_ok, NEOC_HASH160_SIZE in *. lia.
  - rewrite key_compressed_size by done. lia.
Qed.

(** *** Copies *)

Lemma each_res_same {A} (f : A -> res A) l :
  Forall (fun x => f x = Ok x) l -> each_res f l = Ok l.
Proof. induction 1 as [|x l Hx _ IH]; [done|]. cbn. rewrite Hx. cbn. rewrite IH. done. Qed.

Lemma clone_internal_same c :
  condition_ok c -> heap_serves 128 -> neoc_witness_condition_clone_internal c = Ok c.
Proof.
  intros Hc Hh. revert Hc. induction c using condition_rule; intros Hc; inversion Hc; subst;
    cbn [neoc_witness_condition_clone_internal]; unfold alloc_condition, condition_struct_size;
    rewrite (Hh 32) by lia; cbn [negb]; rewrite ?clone_public_key_ok by done; try done.
  - rewrite IHc by done. done.
  - rewrite Hh by lia. cbn [negb]. rewrite each_res_same; [done|].
    rewrite !Forall_forall in *; auto.
  - rewrite Hh by lia. cbn [negb]. rewrite each_res_same; [done|].
    rewrite !Forall_forall in *; auto.
Qed.

(** *** Writing *)

Lemma each_write_writes {A} (f : A -> Wr unit) (enc : A -> list byte) l :
  Forall (fun x => writes (f x) (enc x)) l -> writes (each_write f l) (concat (map enc l)).
Proof. induction 1; cbn; [apply writes_ret|]. by apply writes_bind. Qed.

Lemma write_group_writes k :
  key_compressed k -> malloc_ok 33 = true -> writes (write_group k) (pk_compressed k).
Proof.
  intros Hk Hm. unfold write_group. rewrite get_encoded_compressed; [|done|apply Hk|done].
  rewrite <- (key_compressed_size k) by done. unfold bind, lift. rewrite Z.eqb_refl.
  apply write_bytes_writes.
Qed.

Lemma serialize_internal_unfold c depth :
  nesting c + depth <= 2 ->
  neoc_witness_condition_serialize_internal c depth =
  (do! neoc_binary_writer_write_byte (byte_of_Z (neoc_witness_condition_type_to_byte c)) in
  match c with
  | WC_BOOLEAN v => neoc_binary_writer_write_bool v
  | WC_NOT e => neoc_witness_condition_serialize_internal e (depth + 1)
  | WC_AND es | WC_OR es =>
      do! neoc_binary_writer_write_var_int (zlen es) in
      each_write (fun e => neoc_witness_condition_serialize_internal e (depth + 1)) es
  | WC_SCRIPT_HASH h | WC_CALLED_BY_CONTRACT h => neoc_hash160_serialize h
  | WC_GROUP k | WC_CALLED_BY_GROUP k => write_group k
  | WC_CALLED_BY_ENTRY => ret tt
  end).
Proof.
  intros Hd. pose proof (nesting_nonneg c).
  assert ((NEOC_WITNESS_CONDITION_MAX_NESTING_DEPTH <? depth) = false) as E
    by (unfold NEOC_WITNESS_CONDITION_MAX_NESTING_DEPTH; lia).
  destruct c; cbn [neoc_witness_condition_serialize_internal]; rewrite E; done.
Qed.

(** The sub-conditions of a list are written one level further down. *)
Lemma sub_conditions_write es depth :
  Forall condition_ok es ->
  Forall (fun e => forall d, condition_ok e -> nesting e + d <= 2 ->
    writes (neoc_witness_condition_serialize_internal e d) (condition_bytes e)) es ->
  foldr (fun e n => Z.max (1 + nesting e) n) 0 es + depth <= 2 ->
  writes (do! neoc_binary_writer_write_var_int (zlen es) in
          each_write (fun e => neoc_witness_condition_serialize_internal e (depth + 1)) es)
    (var_int_bytes (zlen es) ++ concat (map condition_bytes es)).
Proof.
  intros Hok IH Hd. apply writes_bind; [apply write_var_int_writes|]. apply each_write_writes.
  assert (Forall (fun e => 1 + nesting e <= 2 - depth) es) as Hn by (apply nesting_list; lia).
  rewrite !Forall_forall in *. intros e He. apply IH; auto. specialize (Hn e He). cbn in Hn. lia.
Qed.

Lemma serialize_internal_writes c depth :
  condition_ok c -> nesting c + depth <= 2 -> malloc_ok 33 = true ->
  writes (neoc_witness_condition_serialize_internal c depth) (condition_bytes c).
Proof.
  intros Hc Hd Hm. revert depth Hc Hd. induction c using condition_rule;
    intros depth Hc Hd; rewrite serialize_internal_unfold by done; inversion Hc; subst;
    cbn [condition_bytes nesting] in *; apply writes_cons;
    auto using write_group_writes, hash160_serialize_writes, writes_ret, write_bool_writes.
  - apply IHc; [done|lia].
  - by apply sub_conditions_write.
  - by apply sub_conditions_write.
Qed.

(** A call that cannot complete: it stops with an error, on any writer with room
    for [bs]. *)
Definition stops (m : Wr unit) (bs : list byte) : Prop :=
  forall w, writer_ok w -> w_position w + zlen bs <= stream_max ->
  exists e w', m w = (Err e, w').

Lemma stops_first m (k : unit -> Wr unit) b1 b2 : stops m b1 -> stops (bind m k) (b1 ++ b2).
Proof.
  intros Hm w Hw Hs. rewrite zlen_app in Hs. pose proof (zlen_nonneg b2).
  destruct (Hm w Hw) as (e & w' & E); [lia|]. exists e, w'. by apply bind_err.
Qed.

Lemma stops_second m (k : unit -> Wr unit) b1 b2 :
  writes m b1 -> stops (k tt) b2 -> stops (bind m k) (b1 ++ b2).
Proof.
  intros Hm Hk w Hw Hs. rewrite zlen_app in Hs. pose proof (zlen_nonneg b2).
  destruct (Hm w Hw) as (w' & [[E X]|(e & pre & E & _)]); [lia| |].
  - rewrite (bind_ok _ _ _ _ _ E). apply Hk; [apply X|]. rewrite (extends_position _ _ _ X). lia.
  - exists e, w'. by apply bind_err.
Qed.

Lemma each_write_stops {A} (f : A -> Wr unit) (enc : A -> list byte) l :
  Forall (fun x => writes (f x) (enc x) \/ stops (f x) (enc x)) l ->
  Exists (fun x => stops (f x) (enc x)) l ->
  stops (each_write f l) (concat (map enc l)).
Proof.
  induction 1 as [|x l Hx Hl IH]; intros He; [by apply Exists_nil in He|]. cbn.
  destruct Hx as [Hx|Hx]; [|by apply stops_first].
  apply Exists_cons in He as [He|He]; [by apply stops_first|].
  apply stops_second; [done|by apply IH].
Qed.

Lemma sub_conditions_stop es depth :
  Forall condition_ok es -> malloc_ok 33 = true -> 0 <= depth <= 2 ->
  Forall (fun e => forall d, condition_ok e -> 0 <= d -> 2 < nesting e + d ->
    stops (neoc_witness_condition_serialize_internal e d) (condition_bytes e)) es ->
  2 < foldr (fun e n => Z.max (1 + nesting e) n) 0 es + depth ->
  stops (do! neoc_binary_writer_write_var_int (zlen es) in
         each_write (fun e => neoc_witness_condition_serialize_internal e (depth + 1)) es)
    (var_int_bytes (zlen es) ++ concat (map condition_bytes es)).
Proof.
  intros Hok Hm Hd IH Hn. apply stops_second; [apply write_var_int_writes|].
  assert (Exists (fun e => 2 - depth < 1 + nesting e) es) as Hx
    by (apply nesting_list_deep; lia).
  apply each_write_stops.
  - rewrite !Forall_forall in *. intros e He.
    destruct (Z_lt_le_dec 2 (nesting e + (depth + 1))).
    + right. apply IH; auto. lia.
    + left. apply serialize_internal_writes; auto.
  - rewrite Exists_exists in *. destruct Hx as (e & He & Hx). exists e. split; [done|].
    rewrite !Forall_forall in *. apply IH; auto; lia.
Qed.

Lemma serialize_internal_stops c depth :
  condition_ok c -> 0 <= depth -> 2 < nesting c + depth -> malloc_ok 33 = true ->
  stops (neoc_witness_condition_serialize_internal c depth) (condition_bytes c).
Proof.
  intros Hc Hd Hn Hm. revert depth Hc Hd Hn. induction c using condition_rule;
    intros depth Hc Hd Hn; cbn [neoc_witness_condition_serialize_internal];
    (destruct (NEOC_WITNESS_CONDITION_MAX_NESTING_DEPTH <? depth) eqn:E; [by repeat eexists|]);
    unfold NEOC_WITNESS_CONDITION_MAX_NESTING_DEPTH in *; bdestruct; cbn [nesting] in Hn; try lia;
    cbn [condition_bytes]; inversion Hc; subst;
    (apply (stops_second _ _ [_]); [apply write_byte_writes|]).
  - apply IHc; [done|lia|lia].
  - by apply sub_conditions_stop.
  - by apply sub_conditions_stop.
Qed.

(** *** Reading *)

Lemma reads_alloc {A} n (m : Rd A) bs a :
  malloc_ok n = true -> reads m bs a -> reads (alloc_in n m) bs a.
Proof. intros Hm Hr. unfold alloc_in. rewrite Hm. done. Qed.

Lemma read_group_reads k :
  key_compressed k -> malloc_ok public_key_struct_size = true ->
  reads read_group (pk_compressed k) k.
Proof.
  intros Hk Hm. unfold read_group. rewrite <- (app_nil_r (pk_compressed k)).
  eapply reads_bind; [rewrite <- (key_compressed_size k) by done; apply read_bytes_reads|].
  rewrite from_bytes_compressed by done. apply reads_ret.
Qed.

Lemma sub_conditions_read make (m : Rd neoc_witness_condition_t) es :
  1 <= zlen es <= 16 -> heap_serves 128 ->
  Forall (fun e => reads m (condition_bytes e) e) es ->
  reads (let! count := neoc_binary_reader_read_var_int in
         if (count =? 0) || (NEOC_WITNESS_CONDITION_MAX_SUBITEMS <? count)
         then fail NEOC_ERROR_INVALID_FORMAT
         else alloc_in (count * 8) (let! es := read_n (Z.to_nat count) m in ret (make es)))
    (var_int_bytes (zlen es) ++ concat (map condition_bytes es)) (make es : neoc_witness_condition_t).
Proof.
  intros Hl Hh Hm. eapply reads_bind; [apply read_var_int_reads; lia|]. cbn beta.
  unfold NEOC_WITNESS_CONDITION_MAX_SUBITEMS. cmps. apply reads_alloc; [apply Hh; lia|].
  eapply reads_ret_bind; [|done]. unfold zlen. rewrite Nat2Z.id. by apply read_n_reads.
Qed.

Lemma sub_levels es levels depth :
  Forall condition_ok es ->
  Forall (fun e => forall levels depth, condition_ok e -> nesting e + depth <= 2 ->
    nesting e < Z.of_nat levels ->
    reads (neoc_witness_condition_deserialize_internal levels depth) (condition_bytes e) e) es ->
  foldr (fun e n => Z.max (1 + nesting e) n) 0 es + depth <= 2 ->
  foldr (fun e n => Z.max (1 + nesting e) n) 0 es < Z.of_nat (S levels) ->
  Forall (fun e => reads (neoc_witness_condition_deserialize_internal levels (depth + 1))
                     (condition_bytes e) e) es.
Proof.
  intros Hok IH Hd Hlv.
  pose proof (nesting_list es _ (Z.le_refl _)) as Hn.
  rewrite !Forall_forall in *. intros e He. specialize (Hn e He). cbn in Hn. apply IH; auto; lia.
Qed.

Lemma deserialize_internal_reads c levels depth :
  condition_ok c -> heap_serves 128 -> nesting c + depth <= 2 -> nesting c < Z.of_nat levels ->
  reads (neoc_witness_condition_deserialize_internal levels depth) (condition_bytes c) c.
Proof.
  intros Hc Hh. revert levels depth Hc.
  induction c as [v|e IH|es IH|es IH|h|k| |h|k] using condition_rule;
    intros levels depth Hc Hd Hlv;
    match goal with |- reads _ (condition_bytes ?c) _ => pose proof (nesting_nonneg c) end;
    (destruct levels as [|levels]; [lia|]);
    cbn [neoc_witness_condition_deserialize_internal condition_bytes];
    unfold NEOC_WITNESS_CONDITION_MAX_NESTING_DEPTH;
    replace (2 <? depth) with false by lia;
    (eapply (reads_bind _ _ [_]); [apply read_byte_reads|]); cbn beta zeta;
    match goal with |- context [Z_of_byte ?b] =>
      let v := eval vm_compute in (Z_of_byte b) in change (Z_of_byte b) with v end;
    cbn [Z.eqb Pos.eqb]; cbn [nesting] in *;
    (apply reads_alloc; [apply Hh; unfold condition_struct_size; lia|]); inversion Hc; subst.
  - eapply reads_ret_bind; [apply read_bool_reads|done].
  - eapply reads_ret_bind; [apply IH; [done|lia|lia]|done].
  - apply sub_conditions_read; [done|done|]. by apply sub_levels.
  - apply sub_conditions_read; [done|done|]. by apply sub_levels.
  - eapply reads_ret_bind; [by apply hash160_deserialize_reads|done].
  - eapply reads_ret_bind; [by apply read_group_reads; [|apply Hh; unfold public_key_struct_size; lia]|done].
  - apply reads_ret.
  - eapply reads_ret_bind; [by apply hash160_deserialize_reads|done].
  - eapply reads_ret_bind; [by apply read_group_reads; [|apply Hh; unfold public_key_struct_size; lia]|done].
Qed.

(** *** Untrusted data *)

Lemma alloc_in_safe {A} n (m : Rd A) P : reader_safe m P -> reader_safe (alloc_in n m) P.
Proof. intros Hm. unfold alloc_in. destruct (malloc_ok n); [done|apply safe_fail]. Qed.

Lemma read_group_safe : reader_safe read_group key_compressed.
Proof.
  eapply safe_bind; [apply read_bytes_safe; lia|]. cbv beta. intros bs Hb. apply lift_safe.
  destruct (neoc_ec_public_key_from_bytes (Some bs) 33) as [k|e|] eqn:E; [|done|].
  - by eapply from_bytes_33_compressed.
  - unfold neoc_ec_public_key_from_bytes in E.
    pose proof (buf_slice_all bs) as B. rewrite Hb in B. rewrite B in E.
    repeat case_match; discriminate.
Qed.

Lemma hash160_deserialize_safe : reader_safe neoc_hash160_deserialize hash160_ok.
Proof.
  eapply safe_bind; [apply read_bytes_safe; unfold NEOC_HASH160_SIZE; lia|].
  intros bs Hb. by apply safe_ret.
Qed.

Lemma nesting_list_le es n :
  0 <= n -> Forall (fun e => 1 + nesting e <= n) es ->
  foldr (fun e n => Z.max (1 + nesting e) n) 0 es <= n.
Proof. intros Hn. induction 1; cbn; lia. Qed.

Lemma sub_conditions_safe make (m : Rd neoc_witness_condition_t) depth :
  0 <= depth <= 2 ->
  (forall es, 1 <= zlen es <= 16 -> Forall condition_ok es -> condition_ok (make es)) ->
  (forall es, nesting (make es) = foldr (fun e n => Z.max (1 + nesting e) n) 0 es) ->
  reader_safe m (fun c => condition_ok c /\ nesting c + (depth + 1) <= 2) ->
  reader_safe
    (let! count := neoc_binary_reader_read_var_int in
     if (count =? 0) || (NEOC_WITNESS_CONDITION_MAX_SUBITEMS <? count)
     then fail NEOC_ERROR_INVALID_FORMAT
     else alloc_in (count * 8) (let! es := read_n (Z.to_nat count) m in ret (make es)))
    (fun c => condition_ok c /\ nesting c + depth <= 2).
Proof.
  intros Hd Hmk Hnest Hm. eapply safe_bind; [apply read_var_int_safe|]. cbn. intros n Hn.
  unfold NEOC_WITNESS_CONDITION_MAX_SUBITEMS.
  destruct (_ || _) eqn:E; [apply safe_fail|]. bdestruct.
  apply alloc_in_safe. eapply safe_bind; [by apply read_n_safe|].
  intros es [Hl HF]. apply safe_ret. apply Forall_and in HF as [Hok HF]. split.
  - apply Hmk; [lia|done].
  - rewrite Hnest. cut (foldr (fun e n => Z.max (1 + nesting e) n) 0 es <= 2 - depth); [lia|].
    apply nesting_list_le; [lia|]. eapply Forall_impl; [done|]. cbn. lia.
Qed.

Lemma deserialize_internal_safe levels depth :
  Z.of_nat levels + depth = 4 -> 0 <= depth <= 3 ->
  reader_safe (neoc_witness_condition_deserialize_internal levels depth)
    (fun c => condition_ok c /\ nesting c + depth <= 2).
Proof.
  revert depth. induction levels as [|levels IH]; intros depth Hs Hd; [lia|].
  cbn [neoc_witness_condition_deserialize_internal].
  unfold NEOC_WITNESS_CONDITION_MAX_NESTING_DEPTH.
  destruct (2 <? depth) eqn:E; bdestruct; [apply safe_fail|].
  eapply safe_bind; [apply read_byte_safe|]. intros b _. cbn zeta.
  assert (reader_safe (neoc_witness_condition_deserialize_internal levels (depth + 1))
            (fun c => condition_ok c /\ nesting c + (depth + 1) <= 2)) as Hsub
    by (apply IH; lia).
  repeat (match goal with |- reader_safe (if ?b then _ else _) _ => destruct b end;
    [apply alloc_in_safe|]); try apply safe_fail.
  - eapply safe_then_ret; [apply read_bool_safe|]. intros v _. split; [constructor|cbn; lia].
  - eapply safe_then_ret; [done|]. cbn. intros e [He Hn]. split; [by constructor|cbn; lia].
  - apply sub_conditions_safe; [lia|by constructor|done|done].
  - apply sub_conditions_safe; [lia|by constructor|done|done].
  - eapply safe_then_ret; [apply hash160_deserialize_safe|]. split; [by constructor|cbn; lia].
  - eapply safe_then_ret; [apply read_group_safe|]. split; [by constructor|cbn; lia].
  - apply safe_ret. split; [constructor|cbn; lia].
  - eapply safe_then_ret; [apply hash160_deserialize_safe|]. split; [by constructor|cbn; lia].
  - eapply safe_then_ret; [apply read_group_safe|]. split; [by constructor|cbn; lia].
Qed.

(** *** Construction *)

Lemma clone_public_key_copy k k' :
  key_compressed k -> neoc_witness_condition_clone_public_key k = Ok k' -> k' = k.
Proof.
  intros Hk. unfold neoc_witness_condition_clone_public_key.
  destruct (malloc_ok 33) eqn:E33.
  2: { unfold neoc_ec_public_key_get_encoded. rewrite E33. done. }
  rewrite get_encoded_compressed; [|done|apply Hk|done]. cbn [rbind].
  destruct (malloc_ok public_key_struct_size) eqn:E.
  - rewrite from_bytes_compressed by done. by intros [= ->].
  - unfold neoc_ec_public_key_from_bytes. rewrite E. done.
Qed.

Lemma each_res_copy {A} (f : A -> res A) l l' :
  Forall (fun x => forall y, f x = Ok y -> y = x) l -> each_res f l = Ok l' -> l' = l.
Proof.
  intros Hf. revert l'. induction Hf as [|x l Hx _ IH]; cbn; intros l' E; [by injection E|].
  destruct (f x) as [y| |] eqn:Ey; cbn in E; try discriminate.
  fold (each_res f) in E. destruct (each_res f l) as [k| |]; cbn in E; try discriminate.
  injection E as <-. f_equal; auto.
Qed.

(** Invert a run of a function that returned a value. *)
Ltac ok_inv E :=
  repeat first
    [ discriminate
    | match type of E with
      | (if ?b then _ else _) = Ok _ => destruct b eqn:?
      | rbind ?x _ = Ok _ => destruct x eqn:?; cbn [rbind] in E
      | Ok _ = Ok _ => injection E as <-
      end ].

Lemma clone_internal_copy c c' :
  condition_ok c -> neoc_witness_condition_clone_internal c = Ok c' -> c' = c.
Proof.
  revert c'. induction c as [v|e IH|es IH|es IH|h|k| |h|k] using condition_rule;
    intros c' Hc E; inversion Hc; subst; cbn [neoc_witness_condition_clone_internal] in E;
    unfold alloc_condition in E; ok_inv E; try done; f_equal; auto using clone_public_key_copy.
  all: destruct (negb (malloc_ok (zlen es * 8))); [done|];
    eapply each_res_copy; [|eassumption]; rewrite !Forall_forall in *; auto.
Qed.

(** What a program can hold: conditions made by the constructors and the copy from
    valid hashes and keys, or read from a stream. *)
Inductive built : neoc_witness_condition_t -> Prop :=
| built_boolean v c : neoc_witness_condition_create_boolean v = Ok c -> built c
| built_not e c : built e -> neoc_witness_condition_create_not (Some e) = Ok c -> built c
| built_and es c :
    Forall built es -> neoc_witness_condition_create_and (Some es) = Ok c -> built c
| built_or es c :
    Forall built es -> neoc_witness_condition_create_or (Some es) = Ok c -> built c
| built_script_hash h c :
    hash160_ok h -> neoc_witness_condition_create_script_hash (Some h) = Ok c -> built c
| built_group k c : neoc_witness_condition_create_group (Some k) = Ok c -> built c
| built_entry c : neoc_witness_condition_create_called_by_entry = Ok c -> built c
| built_contract h c :
    hash160_ok h -> neoc_witness_condition_create_called_by_contract (Some h) = Ok c -> built c
| built_cgroup k c : neoc_witness_condition_create_called_by_group (Some k) = Ok c -> built c
| built_clone e c : built e -> neoc_witness_condition_clone (Some e) = Ok c -> built c
| built_read r r' c :
    reader_ok r -> neoc_witness_condition_deserialize r = (Ok c, r') -> built c.

Lemma create_logical_ok make es c :
  (forall es, 1 <= zlen es <= 16 -> Forall condition_ok es -> condition_ok (make es)) ->
  Forall condition_ok es ->
  neoc_witness_condition_create_logical make (Some es) = Ok c -> condition_ok c.
Proof.
  intros Hmk Hes E. unfold neoc_witness_condition_create_logical, alloc_condition in E.
  unfold NEOC_WITNESS_CONDITION_MAX_SUBITEMS in E. ok_inv E. bdestruct.
  pose proof (zlen_nonneg es).
  match goal with He : each_res _ _ = Ok _ |- _ => apply each_res_copy in He as -> end.
  - apply Hmk; [lia|done].
  - rewrite !Forall_forall in *. auto using clone_internal_copy.
Qed.

Lemma create_logical_same make es :
  heap_serves 128 -> 1 <= zlen es <= 16 -> Forall condition_ok es ->
  neoc_witness_condition_create_logical make (Some es) = Ok (make es).
Proof.
  intros Hh Hl Hes. unfold neoc_witness_condition_create_logical, alloc_condition.
  unfold NEOC_WITNESS_CONDITION_MAX_SUBITEMS, condition_struct_size. cmps.
  rewrite (Hh 32), (Hh (zlen es * 8)) by lia. cbn [negb]. rewrite each_res_same; [done|].
  rewrite !Forall_forall in *. auto using clone_internal_same.
Qed.

Lemma deserialize_ok r r' c :
  reader_ok r -> neoc_witness_condition_deserialize r = (Ok c, r') ->
  condition_ok c /\ nesting c <= 2.
Proof.
  intros Hr E. pose proof (deserialize_internal_safe 4 0 ltac:(lia) ltac:(lia) r Hr) as Hs.
  unfold safe_at in Hs. unfold neoc_witness_condition_deserialize in E. rewrite E in Hs.
  destruct Hs as [[Hc Hn] _]. split; [done|lia].
Qed.

Lemma built_ok c : built c -> condition_ok c.
Proof.
  revert c. fix IH 2. intros c [v c' E|e c' He E|es c' Hes E|es c' Hes E|h c' Hh E|k c' E|c' E
    |h c' Hh E|k c' E|e c' He E|r r' c' Hr E].
  - cbn in E. unfold neoc_witness_condition_create_boolean, alloc_condition in E. ok_inv E.
    constructor.
  - apply IH in He. cbn in E. unfold alloc_condition in E. ok_inv E. constructor.
    match goal with Hx : _ = Ok ?x |- condition_ok ?x =>
      apply clone_internal_copy in Hx as ->; done end.
  - assert (Forall condition_ok es) by (clear - IH Hes; induction Hes; constructor; auto).
    by eapply create_logical_ok; [apply ok_and| |].
  - assert (Forall condition_ok es) by (clear - IH Hes; induction Hes; constructor; auto).
    by eapply create_logical_ok; [apply ok_or| |].
  - cbn in E. unfold alloc_condition in E. ok_inv E. by constructor.
  - cbn in E. unfold alloc_condition in E. ok_inv E. constructor.
    by eapply clone_public_key_compressed.
  - unfold neoc_witness_condition_create_called_by_entry, alloc_condition in E. ok_inv E.
    constructor.
  - cbn in E. unfold alloc_condition in E. ok_inv E. by constructor.
  - cbn in E. unfold alloc_condition in E. ok_inv E. constructor.
    by eapply clone_public_key_compressed.
  - apply IH in He. cbn [neoc_witness_condition_clone] in E.
    apply clone_internal_copy in E as ->; done.
  - by eapply deserialize_ok.
Qed.

(** The invariant is exact: with enough heap every such condition can be built. *)
Lemma ok_built c : heap_serves 128 -> condition_ok c -> built c.
Proof.
  intros Hh. induction c as [v|e IH|es IH|es IH|h|k| |h|k] using condition_rule;
    intros Hc; inversion Hc; subst;
    assert (malloc_ok condition_struct_size = true) as Hm
      by (apply Hh; unfold condition_struct_size; lia).
  - apply (built_boolean v). unfold neoc_witness_condition_create_boolean, alloc_condition.
    by rewrite Hm.
  - apply (built_not e); [auto|]. cbn. unfold alloc_condition.
    rewrite Hm, clone_internal_same by done. done.
  - apply (built_and es); [rewrite !Forall_forall in *; auto|]. by apply create_logical_same.
  - apply (built_or es); [rewrite !Forall_forall in *; auto|]. by apply create_logical_same.
  - apply (built_script_hash h); [done|]. cbn. unfold alloc_condition. by rewrite Hm.
  - apply (built_group k). cbn. unfold alloc_condition.
    rewrite Hm, clone_public_key_ok by done. done.
  - apply built_entry. unfold neoc_witness_condition_create_called_by_entry, alloc_condition.
    by rewrite Hm.
  - apply (built_contract h); [done|]. cbn. unfold alloc_condition. by rewrite Hm.
  - apply (built_cgroup k). cbn. unfold alloc_condition.
    rewrite Hm, clone_public_key_ok by done. done.
Qed.

(** *** Rules *)

(** A rule as [neoc_witness_rule_create] and [neoc_witness_rule_deserialize] make
    it, whose condition is not nested too deeply for the wire. *)
Definition rule_fits (r : neoc_witness_rule_t) : Prop :=
  exists c, wr_condition r = Some c /\ condition_ok c /\ nesting c <= 2.

Lemma rule_size r : rule_ok r -> neoc_witness_rule_get_size (Some r) = zlen (rule_bytes r).
Proof.
  intros (c & E & Hc). unfold neoc_witness_rule_get_size, rule_bytes. rewrite E.
  cbn [neoc_witness_condition_get_size]. rewrite internal_size_exact by done.
  by rewrite zlen_cons.
Qed.

Lemma rule_fits_ok r : rule_fits r -> rule_ok r.
Proof. intros (c & E & Hc & _). by exists c. Qed.

(** The longest rule: 16 lists of 16 keys, in a list. *)
Lemma rule_bytes_bound r : rule_fits r -> zlen (rule_bytes r) <= 8739.
Proof.
  intros (c & E & Hc & Hn). unfold rule_bytes. rewrite E, zlen_cons.
  pose proof (condition_bytes_bound 2 c Hc Hn) as Hb. cbn in Hb. lia.
Qed.

Definition write_rule (r : neoc_witness_rule_t) : Wr unit :=
  do! neoc_binary_writer_write_byte (neoc_witness_action_get_byte (wr_action r)) in
  neoc_witness_condition_serialize (wr_condition r).

Lemma rule_writes r :
  rule_fits r -> malloc_ok 33 = true -> writes (write_rule r) (rule_bytes r).
Proof.
  intros (c & E & Hc & Hn) Hm. unfold write_rule, rule_bytes. rewrite E.
  apply writes_cons. apply serialize_internal_writes; [done|lia|done].
Qed.

Lemma rule_serialize_ok r n buffer w0 :
  rule_fits r -> heap_serves 17478 -> zlen (rule_bytes r) <= n <= zlen buffer ->
  neoc_witness_rule_serialize (Some r) n (buffer, w0) =
  (Ok tt, (rule_bytes r ++ drop (length (rule_bytes r)) buffer, zlen (rule_bytes r))).
Proof.
  intros Hr Hh Hn. pose proof (rule_bytes_bound r Hr). pose proof (zlen_nonneg (rule_bytes r)).
  unfold neoc_witness_rule_serialize. rewrite rule_size by (by apply rule_fits_ok). cbn zeta.
  cmps. fold (write_rule r). rewrite (serialize_with_ok _ _ (rule_bytes r)).
  - unfold buf_copy. cmps. done.
  - apply rule_writes; [done|apply Hh; lia].
  - lia.
  - unfold stream_max. lia.
  - eapply heap_serves_mono; [done|lia].
Qed.

Lemma action_roundtrip a : neoc_witness_action_from_byte (neoc_witness_action_get_byte a) = Ok a.
Proof. by destruct a. Qed.

Lemma rule_deserialize_ok r rest :
  rule_fits r -> zlen (rule_bytes r ++ rest) < 2 ^ 63 ->
  heap_serves (Z.max 128 (zlen (rule_bytes r ++ rest))) ->
  neoc_witness_rule_deserialize (Some (rule_bytes r ++ rest)) (zlen (rule_bytes r ++ rest)) =
  Ok (r, zlen (rule_bytes r)).
Proof.
  intros (c & E & Hc & Hn) Hl Hh. pose proof (zlen_nonneg (rule_bytes r ++ rest)).
  unfold neoc_witness_rule_deserialize.
  destruct (reader_create_ok (rule_bytes r ++ rest)) as (rd & -> & Hr & Hd & Hp);
    [done|apply Hh; unfold reader_struct_size; lia|apply Hh; lia|]. cbn [rbind].
  assert (rule_bytes r = [neoc_witness_action_get_byte (wr_action r)] ++ condition_bytes c) as Eb
    by (unfold rule_bytes; by rewrite E).
  assert (at_bytes rd (rule_bytes r)) as Ha by (exists [], rest; by rewrite Hd, Hp).
  pose proof (at_bytes_room _ _ Hr Ha) as Hroom. rewrite Eb in Ha, Hroom.
  rewrite (bind_ok _ _ _ _ _ (read_byte_reads _ rd Hr (at_bytes_app_l _ _ _ Ha))).
  rewrite action_roundtrip. rewrite bind_lift.
  apply at_bytes_app_r in Ha.
  assert (reader_ok (moved rd (zlen [neoc_witness_action_get_byte (wr_action r)]))) as Hr'.
  { apply reader_ok_moved; [done|]. rewrite zlen_app in Hroom. note_zlen. cbn in *. lia. }
  assert (heap_serves 128) as H128 by (eapply heap_serves_mono; [done|lia]).
  unfold neoc_witness_condition_deserialize.
  rewrite (bind_ok _ _ _ _ _
    (deserialize_internal_reads c 4 0 Hc
       H128 ltac:(lia) ltac:(lia) _ Hr' Ha)).
  unfold alloc_in, rule_struct_size. rewrite Hh by lia. cbn [negb].
  unfold bind, neoc_binary_reader_get_position, ret, moved. cbn [fst r_position].
  rewrite Hp, Eb, zlen_app, Z.add_0_l. destruct r as [a c0]. cbn in *. by rewrite E.
Qed.

(** A rule whose condition is nested too deeply for the wire. *)
Definition too_deep (r : neoc_witness_rule_t) : Prop :=
  exists c, wr_condition r = Some c /\ condition_ok c /\ 2 < nesting c.

Lemma fits_or_deep r : rule_ok r -> rule_fits r \/ too_deep r.
Proof.
  intros (c & E & Hc).
  destruct (Z_lt_le_dec 2 (nesting c)); [right|left]; exists c; auto.
Qed.

Lemma rule_serialize_deep r n buffer w0 :
  too_deep r -> zlen (rule_bytes r) <= n -> zlen (rule_bytes r) <= stream_max ->
  heap_serves (Z.max 1024 (zlen (rule_bytes r))) ->
  exists e, neoc_witness_rule_serialize (Some r) n (buffer, w0) = (Err e, (buffer, w0)).
Proof.
  intros (c & E & Hc & Hd) Hn Hs Hh. pose proof (zlen_nonneg (rule_bytes r)).
  unfold neoc_witness_rule_serialize. rewrite rule_size by (by exists c). cbn zeta. cmps.
  fold (write_rule r). unfold serialize_with, stream_max in *.
  destruct (writer_create_succeeds (zlen (rule_bytes r)) true _ Hh) as [w Ew];
    [unfold writer_struct_size; lia|lia|]. rewrite Ew. cbn [rbind].
  apply writer_create_ok in Ew as (Hw & _ & P0 & _); [|lia].
  assert (stops (write_rule r) (rule_bytes r)) as Hst.
  { unfold write_rule, rule_bytes. rewrite E. apply (stops_second _ _ [_]).
    - apply write_byte_writes.
    - apply serialize_internal_stops; [done|lia|lia|apply Hh; lia]. }
  destruct (Hst w Hw) as (e & w' & Ee); [unfold stream_max; lia|].
  exists e. by rewrite (bind_err _ _ _ _ _ Ee).
Qed.

Lemma rule_bytes_inj r1 r2 :
  rule_fits r1 -> rule_fits r2 -> heap_serves 17478 -> rule_bytes r1 = rule_bytes r2 -> r1 = r2.
Proof.
  intros H1 H2 Hh E. pose proof (rule_bytes_bound r1 H1).
  pose proof (rule_deserialize_ok r1 [] H1) as D1.
  pose proof (rule_deserialize_ok r2 [] H2) as D2.
  rewrite <- E in D2. rewrite app_nil_r in *.
  assert (heap_serves (Z.max 128 (zlen (rule_bytes r1)))) as Hh'
    by (eapply heap_serves_mono; [done|lia]).
  rewrite D1 in D2 by (done || lia). specialize (D2 ltac:(lia) Hh'). congruence.
Qed.

(** The invariant of conditions: every condition a program can hold, built by
    any nesting of the constructors and copies or read from any stream, has hashes
    of 20 bytes, compressed keys of the curve and lists of 1 to 16 members; a copy
    of it is equal to it, and its reported size is the length of its encoding. *)
Theorem condition_invariant (c : neoc_witness_condition_t) :
  built c ->
  condition_ok c /\
  neoc_witness_condition_get_size (Some c) = zlen (condition_bytes c) /\
  (heap_serves 128 -> neoc_witness_condition_clone (Some c) = Ok c).
Proof.
  intros Hb. apply built_ok in Hb. split_and!; [done| |].
  - by apply internal_size_exact.
  - by apply clone_internal_same.
Qed.

(** C7.  Rule round trip: a rule is made from any such condition.  When the condition is nested
    at most two levels deep the rule serializes into every buffer that has room for the size
    [get_size] reports, at most 8739 bytes, without touching the rest of the buffer, and reading
    the buffer back gives the rule and the number of bytes written.  When it is nested deeper,
    which the functions that build conditions do not refuse, the serializer returns an error
    and leaves the buffer as it is. *)
Theorem witness_rule_roundtrip (action : neoc_witness_action_t)
    (c : neoc_witness_condition_t) (buffer : list byte) (w0 : Z) :
  built c -> zlen buffer <= stream_max ->
  heap_serves (Z.max 17478 (zlen buffer)) ->
  let r := mk_rule _ action (Some c) in
  let n := neoc_witness_rule_get_size (Some r) in
  n <= zlen buffer ->
  neoc_witness_rule_create action (Some c) = Ok r /\
  (nesting c <= 2 ->
   exists image,
     zlen image = n /\ n <= 8739 /\
     neoc_witness_rule_serialize (Some r) (zlen buffer) (buffer, w0)
     = (Ok tt, (image ++ drop (length image) buffer, n)) /\
     neoc_witness_rule_deserialize (Some (image ++ drop (length image) buffer)) (zlen buffer)
     = Ok (r, n)) /\
  (2 < nesting c ->
   exists e, neoc_witness_rule_serialize (Some r) (zlen buffer) (buffer, w0) = (Err e, (buffer, w0))).
Proof.
  intros Hb Hl Hh r n Hroom. apply built_ok in Hb. unfold stream_max in Hl.
  assert (n = zlen (rule_bytes r)) as En by (apply rule_size; by exists c). split_and!.
  - cbn [neoc_witness_rule_create neoc_witness_condition_clone].
    unfold alloc_rule, rule_struct_size. rewrite Hh by lia. cbn [negb].
    rewrite clone_internal_same; [done|done|eapply heap_serves_mono; [done|lia]].
  - intros Hn. assert (rule_fits r) as Hr by (by exists c). pose proof (rule_bytes_bound r Hr).
    exists (rule_bytes r). split_and!; [done|lia| |].
    + rewrite rule_serialize_ok; [by rewrite En|done|eapply heap_serves_mono; [done|lia]|lia].
    + assert (zlen (rule_bytes r ++ drop (length (rule_bytes r)) buffer) = zlen buffer) as El
        by (rewrite zlen_app, zlen_drop by (unfold zlen in *; lia); unfold zlen; lia).
      rewrite <- El, rule_deserialize_ok; rewrite ?El; [by rewrite En|done|lia|].
      eapply heap_serves_mono; [done|lia].
  - intros Hn. apply rule_serialize_deep; [by exists c|lia|unfold stream_max; lia|].
    eapply heap_serves_mono; [done|lia].
Qed.

(** Untrusted rules: on any bytes whatsoever the deserializer does not leave the
    buffer and its recursion ends within the fixed number of levels; a rule it
    accepts satisfies the invariant, is nested at most two levels deep (so it has at
    most 8739 bytes and serializes again), and it was read from within the buffer. *)
Theorem witness_rule_untrusted (data : list byte) :
  zlen data < 2 ^ 63 ->
  match neoc_witness_rule_deserialize (Some data) (zlen data) with
  | Ok (r, n) =>
      exists c, wr_condition r = Some c /\ condition_ok c /\ nesting c <= 2 /\
        neoc_witness_rule_get_size (Some r) <= 8739 /\ 0 <= n <= zlen data
  | Err _ => True
  | Fault => False
  end.
Proof.
  intros Hl. unfold neoc_witness_rule_deserialize, neoc_binary_reader_create.
  destruct (negb _); [done|]. destruct (negb _); [done|]. rewrite buf_slice_all. cbn [rbind].
  set (rd := mk_reader _ _ _ _).
  assert (reader_ok rd) as Hr.
  { pose proof (zlen_nonneg data). split; cbn; try done; lia || (left; done). }
  set (post := fun o : res (neoc_witness_rule_t * Z) * neoc_binary_reader_t =>
    match fst o with Ok (r, n) => rule_fits r /\ 0 <= n <= zlen data
                   | Err _ => True | Fault => False end).
  assert (post ((let! action_byte := neoc_binary_reader_read_byte in
     let! action := lift (neoc_witness_action_from_byte action_byte) in
     let! condition := neoc_witness_condition_deserialize in
     alloc_in rule_struct_size
       (let! bytes_read := neoc_binary_reader_get_position in
        ret (mk_rule _ action (Some condition), bytes_read))) rd)) as Hp.
  { eapply safe_step; [apply read_byte_safe|done|done|]. intros b r1 _ Hr1 D1.
    eapply (safe_step _ _ (fun _ => True)); [|done|done|].
    { apply lift_safe. unfold neoc_witness_action_from_byte. by repeat case_match. }
    intros a r2 _ Hr2 D2.
    eapply safe_step; [apply (deserialize_internal_safe 4 0); lia|done|done|].
    intros c r3 [Hc Hn] Hr3 D3. unfold alloc_in. destruct (negb _); [done|].
    subst post. cbn. split; [exists c; split_and!; [done|done|lia]|].
    pose proof (reader_ok_position _ Hr3). pose proof (reader_ok_size _ Hr3) as Es.
    rewrite D3, D2, D1 in Es. cbn in Es. lia. }
  unfold post in Hp. destruct (fst _) as [[r n]|e|] eqn:E; [|done|done].
  destruct Hp as [Hf Hn]. pose proof (rule_bytes_bound r Hf).
  rewrite rule_size by (by apply rule_fits_ok). destruct Hf as (c & ? & ? & ?).
  exists c. split_and!; done || lia.
Qed.

(** Serializing into a fresh buffer of the reported size: the whole encoding, or
    nothing at all. *)
Lemma rule_serialize_fresh junk r :
  rule_ok r -> zlen (rule_bytes r) <= stream_max ->
  heap_serves (Z.max 17478 (zlen (rule_bytes r))) ->
  let n := zlen (rule_bytes r) in
  let fresh := replicate (Z.to_nat n) junk in
  (rule_fits r /\ neoc_witness_rule_serialize (Some r) n (fresh, 0) = (Ok tt, (rule_bytes r, n)))
  \/
  (too_deep r /\ exists e,
     neoc_witness_rule_serialize (Some r) n (fresh, 0) = (Err e, (fresh, 0))).
Proof.
  intros Hr Hs Hh n fresh. pose proof (zlen_nonneg (rule_bytes r)).
  assert (zlen fresh = n) as Ef by (unfold fresh; rewrite zlen_replicate; lia).
  destruct (fits_or_deep r Hr) as [Hf|Hd]; [left|right]; split; try done.
  - rewrite rule_serialize_ok; [|done|eapply heap_serves_mono; [done|lia]|lia].
    rewrite drop_ge, app_nil_r by (unfold zlen in *; lia). done.
  - apply rule_serialize_deep; [done|lia|done|eapply heap_serves_mono; [done|lia]].
Qed.

Lemma not_fits_and_deep r : rule_fits r -> too_deep r -> False.
Proof. intros (c & Ec & _ & ?) (c' & Ec' & _ & ?). rewrite Ec in Ec'. injection Ec' as <-. lia. Qed.

Lemma rule_bytes_pos r : 0 < zlen (rule_bytes r).
Proof. unfold rule_bytes. zlia. Qed.

(** Comparison of rules: for any two rules the answer does not depend on fresh
    memory, and it is [true] exactly when the rules are equal, or when they have the
    same action and the same size and both are nested too deeply to be serialized:
    the comparison ignores the two errors and compares no bytes, so it declares any
    two such rules equal, however they differ. *)
Theorem witness_rule_equals_decides (junk : byte) (r1 r2 : neoc_witness_rule_t) :
  rule_ok r1 -> rule_ok r2 ->
  zlen (rule_bytes r1) <= stream_max -> zlen (rule_bytes r2) <= stream_max ->
  heap_serves (Z.max 17478 (zlen (rule_bytes r1))) ->
  exists b, neoc_witness_rule_equals junk false (Some r1) (Some r2) = Ok b /\
    (b = true <->
     r1 = r2 \/
     (wr_action r1 = wr_action r2 /\
      neoc_witness_rule_get_size (Some r1) = neoc_witness_rule_get_size (Some r2) /\
      too_deep r1 /\ too_deep r2)).
Proof.
  intros H1 H2 Hs1 Hs2 Hh. unfold neoc_witness_rule_equals.
  destruct (decide (wr_action r1 = wr_action r2)) as [Ea|Ea].
  2: { rewrite bool_decide_false by done. exists false. split; [done|]. split; [done|].
       intros [->|[? _]]; done. }
  rewrite bool_decide_true, !rule_size by done. cbn [negb]. cbn zeta.
  destruct (zlen (rule_bytes r1) =? zlen (rule_bytes r2)) eqn:El; bdestruct.
  2: { exists false. split; [done|]. split; [done|]. intros [->|(_ & ? & _)]; done. }
  pose proof (zlen_nonneg (rule_bytes r1)). pose proof (rule_serialize_fresh junk r2 H2 Hs2) as S2.
  rewrite <- El in *. rewrite Hh by lia. cbn [negb orb].
  destruct (rule_serialize_fresh junk r1 H1 Hs1 Hh) as [[F1 ->]|[D1 [e1 ->]]];
    destruct (S2 Hh) as [[F2 ->]|[D2 [e2 ->]]]; rewrite ?Z.eqb_refl; cbn [negb].
  - rewrite buf_slice_all. rewrite El, buf_slice_all. eexists. split; [done|].
    rewrite bool_decide_eq_true. split.
    + intros E. left. apply rule_bytes_inj; [done..| |done].
      eapply heap_serves_mono; [done|lia].
    + intros [->|(_ & _ & D1 & _)]; [done|]. by destruct (not_fits_and_deep r1).
  - pose proof (rule_bytes_pos r1). cmps. exists false. split; [done|]. split; [done|].
    intros [->|(_ & _ & D1 & _)]; by destruct (not_fits_and_deep _ F1).
  - pose proof (rule_bytes_pos r1). cmps. exists false. split; [done|]. split; [done|].
    intros [->|(_ & _ & _ & D2)]; by destruct (not_fits_and_deep _ F2).
  - exists true. split; [|split; [intros _; right; split_and!; [done|lia|done|done]|done]].
    unfold buf_slice. rewrite zlen_replicate, Z2Nat.id, Z.add_0_l by lia. cmps.
    by rewrite bool_decide_true.
Qed.
End Proofs.

(** ** Samples *)

Section Samples.
#[local] Existing Instance mib_heap.
#[local] Existing Instance toy_curve.

(** Called from the entry script, or by a contract of the group of [toy_key n]. *)
Definition sample_group (n : Z) : neoc_witness_condition_t :=
  WC_AND [WC_CALLED_BY_ENTRY; WC_GROUP (toy_key n)].

Definition sample_condition (n : Z) : neoc_witness_condition_t := WC_NOT (sample_group n).

Definition deep_rule (n : Z) : neoc_witness_rule_t :=
  mk_rule _ NEOC_WITNESS_ACTION_ALLOW (Some (WC_NOT (sample_condition n))).

Lemma sample_ok n : condition_ok (sample_condition n).
Proof. apply ok_not, ok_and; [by unfold zlen; cbn|]. repeat constructor. Qed.

Lemma sample_built : built (sample_condition 7).
Proof. apply ok_built; [exact toy_curve_works|apply mib_heap_serves; lia|apply sample_ok]. Qed.

Lemma condition_invariant_witness :
  built (sample_condition 7) /\
  neoc_witness_condition_get_size (Some (sample_condition 7)) = 38 /\
  neoc_witness_condition_clone (Some (sample_condition 7)) = Ok (sample_condition 7).
Proof.
  destruct (condition_invariant toy_curve_works (sample_condition 7) sample_built) as (_ & _ & Hc).
  split; [apply sample_built|]. split; [reflexivity|]. apply Hc, mib_heap_serves. lia.
Defined.

Lemma witness_rule_roundtrip_witness :
  exists image,
    neoc_witness_rule_deserialize (Some (image ++ [Byte.xff])) 40
    = Ok (mk_rule _ NEOC_WITNESS_ACTION_ALLOW (Some (sample_condition 7)), 39) /\
    neoc_witness_rule_serialize
      (Some (mk_rule _ NEOC_WITNESS_ACTION_ALLOW (Some (sample_condition 7)))) 40
      (replicate 40 Byte.xff, 0) = (Ok tt, (image ++ [Byte.xff], 39)).
Proof.
  destruct (witness_rule_roundtrip toy_curve_works NEOC_WITNESS_ACTION_ALLOW (sample_condition 7)
    (replicate 40 Byte.xff) 0 sample_built) as (_ & Hflat & _);
    [by vm_compute|apply mib_heap_serves; by vm_compute|by vm_compute|].
  destruct Hflat as (image & El & _ & Es & Ed); [by vm_compute|].
  exists image. change (zlen image = 39) in El.
  assert (length image = 39%nat) as E by (unfold zlen in El; lia).
  rewrite E in Es, Ed. exact (conj Ed Es).
Defined.

Lemma witness_rule_untrusted_witness :
  neoc_witness_rule_deserialize (Some (str "witness")) 7 <> Fault.
Proof.
  pose proof (witness_rule_untrusted toy_curve_works (str "witness") ltac:(by vm_compute)) as Hx.
  change (zlen (str "witness")) with 7 in Hx. intros E. rewrite E in Hx. exact Hx.
Defined.

Lemma deep_rule_ok n : rule_ok (deep_rule n).
Proof. eexists. split; [reflexivity|]. apply ok_not, sample_ok. Qed.

(** Two different rules that compare equal. *)
Lemma witness_rule_equals_decides_witness :
  deep_rule 1 <> deep_rule 2 /\
  neoc_witness_rule_equals Byte.x00 false (Some (deep_rule 1)) (Some (deep_rule 2)) = Ok true.
Proof.
  split; [intros E; apply (f_equal rule_bytes) in E; vm_compute in E; discriminate|].
  destruct (witness_rule_equals_decides toy_curve_works Byte.x00 (deep_rule 1) (deep_rule 2)
    (deep_rule_ok 1) (deep_rule_ok 2)) as (b & -> & Hb);
    [by vm_compute|by vm_compute|apply mib_heap_serves; by vm_compute|].
  f_equal. apply Hb. right. split; [reflexivity|]. split; [reflexivity|].
  split; (eexists; split; [reflexivity|]; split; [apply ok_not, sample_ok|by vm_compute]).
Defined.
End Samples.
