(* ===== verification/WitnessJson.v ===== *)
(** * Witness rules as JSON (src/protocol/core/witnessrule/)

    The JSON text of conditions (witness_condition.c), actions (witness_action.c) and rules
    (witness_rule.c), written and read through the JSON layer. *)

From S2P Require Import Prelude BinaryWriter BinaryReader Serializable Hex Hashes EcKey WitnessRule Cjson Json.
#[local] Open Scope Z_scope.

Section Operations.
Context `{Allocator} `{Curve} `{Double}.
Variable junk : byte.

Definition neoc_witness_condition_type_to_json_string (c : neoc_witness_condition_t) : list byte :=
  match c with
  | WC_BOOLEAN _ => str "Boolean"
  | WC_NOT _ => str "Not"
  | WC_AND _ => str "And"
  | WC_OR _ => str "Or"
  | WC_SCRIPT_HASH _ => str "ScriptHash"
  | WC_GROUP _ => str "Group"
  | WC_CALLED_BY_ENTRY => str "CalledByEntry"
  | WC_CALLED_BY_CONTRACT _ => str "CalledByContract"
  | WC_CALLED_BY_GROUP _ => str "CalledByGroup"
  end.

(** ** Reading *)

(** A local hash that is filled from a string. *)
Definition hash_of_string (s : list byte) : res neoc_hash160_t :=
  match neoc_hash160_from_string (Some s) (mk_hash160 (replicate 20 junk)) with
  | (Ok _, h) => Ok h
  | (Err e, _) => Err e
  | (Fault, _) => Fault
  end.

Definition key_of_string (s : list byte) : res neoc_ec_public_key_t :=
  match neoc_hex_decode_alloc junk (Some s) with
  | Fault => Fault
  | Err _ => Err NEOC_ERROR_INVALID_FORMAT
  | Ok key_bytes =>
      if negb (zlen key_bytes =? 33) && negb (zlen key_bytes =? 65) then Err NEOC_ERROR_INVALID_FORMAT
      else neoc_ec_public_key_from_bytes (Some key_bytes) (zlen key_bytes)
  end.

(** The loop over the members of a list. *)
Definition neoc_witness_condition_array_from_json (read : cJSON -> res neoc_witness_condition_t) (array : cJSON)
  : res (list neoc_witness_condition_t) :=
  let array_count := neoc_json_array_size array in
  if (array_count =? 0) || (NEOC_WITNESS_CONDITION_MAX_SUBITEMS <? array_count) then Err NEOC_ERROR_INVALID_FORMAT
  else if negb (neoc_malloc_ok (array_count * 8)) then Err NEOC_ERROR_MEMORY
  else match array with cJSON_Array items => each_res read items | _ => Err NEOC_ERROR_INVALID_FORMAT end.

(** The calls nest at most four deep: the one at depth 3 only reports the error.  [levels]
    counts the calls left. *)
Fixpoint neoc_witness_condition_from_json_object (levels : nat) (object : cJSON) (depth : Z) : res neoc_witness_condition_t :=
  match levels with
  | O => Fault
  | S levels =>
      if NEOC_WITNESS_CONDITION_MAX_NESTING_DEPTH <? depth then Err NEOC_ERROR_INVALID_FORMAT
      else
        match neoc_json_get_string object (str "type") with
        | None => Err NEOC_ERROR_INVALID_FORMAT
        | Some type_str =>
            let type_is s := bool_decide (type_str = s) in
            if type_is (str "Boolean") then
              let? value := neoc_json_get_bool object (str "expression") in
              neoc_witness_condition_create_boolean value
            else if type_is (str "Not") then
              match neoc_json_get_object object (str "expression") with
              | None => Err NEOC_ERROR_INVALID_FORMAT
              | Some expr_json =>
                  let? inner := neoc_witness_condition_from_json_object levels expr_json (depth + 1) in
                  neoc_witness_condition_create_not (Some inner)
              end
            else if type_is (str "And") || type_is (str "Or") then
              match neoc_json_get_array object (str "expressions") with
              | None => Err NEOC_ERROR_INVALID_FORMAT
              | Some array =>
                  let? items :=
                    neoc_witness_condition_array_from_json
                      (fun item => neoc_witness_condition_from_json_object levels item (depth + 1)) array in
                  if type_is (str "And") then neoc_witness_condition_create_and (Some items)
                  else neoc_witness_condition_create_or (Some items)
              end
            else if type_is (str "ScriptHash") || type_is (str "CalledByContract") then
              match neoc_json_get_string object (str "hash") with
              | None => Err NEOC_ERROR_INVALID_FORMAT
              | Some hash_str =>
                  let? hash := hash_of_string hash_str in
                  if type_is (str "ScriptHash") then neoc_witness_condition_create_script_hash (Some hash)
                  else neoc_witness_condition_create_called_by_contract (Some hash)
              end
            else if type_is (str "Group") || type_is (str "CalledByGroup") then
              match neoc_json_get_string object (str "group") with
              | None => Err NEOC_ERROR_INVALID_FORMAT
              | Some group_str =>
                  let? public_key := key_of_string group_str in
                  if type_is (str "Group") then neoc_witness_condition_create_group (Some public_key)
                  else neoc_witness_condition_create_called_by_group (Some public_key)
              end
            else if type_is (str "CalledByEntry") then neoc_witness_condition_create_called_by_entry
            else Err NEOC_ERROR_INVALID_FORMAT
        end
  end.

Definition neoc_witness_condition_from_json (json_str : option (list byte)) : res neoc_witness_condition_t :=
  match json_str with
  | None => Err NEOC_ERROR_INVALID_ARGUMENT
  | Some _ =>
      match neoc_json_parse json_str with
      | Err _ => Err NEOC_ERROR_INVALID_FORMAT
      | Fault => Fault
      | Ok root => neoc_witness_condition_from_json_object 4 root 0
      end
  end.

(** ** Writing *)

(** The hash in a local array, behind "0x". *)
Definition hash_text (h : neoc_hash160_t) : res (list byte) :=
  match neoc_hash160_to_hex h 41 false (replicate 41 junk) with
  | (Ok _, hash_hex) => Ok (str "0x" ++ cstring hash_hex)
  | (Err e, _) => Err e
  | (Fault, _) => Fault
  end.

Definition key_text (k : neoc_ec_public_key_t) : res (list byte) :=
  let? '(encoded, encoded_len) := neoc_ec_public_key_get_encoded k true in
  match neoc_hex_encode_alloc junk (Some encoded) encoded_len false false with
  | Ok hex => Ok hex
  | Err _ => Err NEOC_ERROR_MEMORY
  | Fault => Fault
  end.

(** The members of a list, each written and put at the end. *)
Definition each_child (write : neoc_witness_condition_t -> res cJSON) : list neoc_witness_condition_t -> M cJSON unit :=
  fix go es :=
    match es with
    | [] => ret tt
    | e :: es => do! (let! child := lift (write e) in neoc_json_array_add child) in go es
    end.

Fixpoint neoc_witness_condition_to_json_object (c : neoc_witness_condition_t) (depth : Z) : res cJSON :=
  if NEOC_WITNESS_CONDITION_MAX_NESTING_DEPTH <? depth then Err NEOC_ERROR_INVALID_FORMAT
  else
    let? root := neoc_json_create_object in
    let '(r, root) :=
      (do! neoc_json_add_string (str "type") (Some (neoc_witness_condition_type_to_json_string c)) in
       match c with
       | WC_BOOLEAN v => neoc_json_add_bool (str "expression") v
       | WC_NOT e =>
           let! child := lift (neoc_witness_condition_to_json_object e (depth + 1)) in
           neoc_json_add_object (str "expression") child
       | WC_AND es | WC_OR es =>
           let! array := lift neoc_json_create_array in
           let '(r, array) := each_child (fun e => neoc_witness_condition_to_json_object e (depth + 1)) es array in
           do! lift r in neoc_json_add_object (str "expressions") array
       | WC_SCRIPT_HASH h | WC_CALLED_BY_CONTRACT h =>
           let! prefixed := lift (hash_text h) in neoc_json_add_string (str "hash") (Some prefixed)
       | WC_GROUP k | WC_CALLED_BY_GROUP k =>
           let! hex := lift (key_text k) in neoc_json_add_string (str "group") (Some hex)
       | WC_CALLED_BY_ENTRY => ret tt
       end) root in
    let? _ := r in Ok root.

Definition neoc_witness_condition_to_json (condition : option neoc_witness_condition_t) : res (list byte) :=
  match condition with
  | None => Err NEOC_ERROR_INVALID_ARGUMENT
  | Some c => let? root := neoc_witness_condition_to_json_object c 0 in neoc_json_to_string root
  end.

(** ** Actions and rules *)

Definition neoc_witness_action_to_json_string (action : neoc_witness_action_t) : list byte :=
  match action with NEOC_WITNESS_ACTION_DENY => str "Deny" | NEOC_WITNESS_ACTION_ALLOW => str "Allow" end.

Definition neoc_witness_action_from_json_string (json_str : option (list byte)) : res neoc_witness_action_t :=
  match json_str with
  | None => Err NEOC_ERROR_INVALID_ARGUMENT
  | Some s =>
      if bool_decide (s = str "Deny") then Ok NEOC_WITNESS_ACTION_DENY
      else if bool_decide (s = str "Allow") then Ok NEOC_WITNESS_ACTION_ALLOW
      else Err NEOC_ERROR_INVALID_ARGUMENT
  end.

Definition neoc_witness_rule_from_json (json_str : option (list byte)) : res neoc_witness_rule_t :=
  match json_str with
  | None => Err NEOC_ERROR_INVALID_ARGUMENT
  | Some _ =>
      match neoc_json_parse json_str with
      | Err _ => Err NEOC_ERROR_INVALID_FORMAT
      | Fault => Fault
      | Ok root =>
          match neoc_json_get_string root (str "action") with
          | None => Err NEOC_ERROR_INVALID_FORMAT
          | Some action_str =>
              let? action := neoc_witness_action_from_json_string (Some action_str) in
              match neoc_json_get_object root (str "condition") with
              | None => Err NEOC_ERROR_INVALID_FORMAT
              | Some condition_json =>
                  match neoc_json_to_string condition_json with
                  | Fault => Fault
                  | Err _ => Err NEOC_ERROR_MEMORY
                  | Ok condition_str =>
                      let? condition := neoc_witness_condition_from_json (Some condition_str) in
                      alloc_rule (Ok (mk_rule _ action (Some condition)))
                  end
              end
          end
      end
  end.

(** The condition is printed and parsed on its way into the object. *)
Definition neoc_witness_rule_to_json (rule : neoc_witness_rule_t) : res (list byte) :=
  let? root := neoc_json_create_object in
  let '(r, root) :=
    (do! neoc_json_add_string (str "action") (Some (neoc_witness_action_to_json_string (wr_action rule))) in
     let! condition_str := lift (neoc_witness_condition_to_json (wr_condition rule)) in
     let! condition_json :=
       lift (match neoc_json_parse (Some condition_str) with Err _ => Err NEOC_ERROR_INVALID_FORMAT | r => r end) in
     neoc_json_add_object (str "condition") condition_json) root in
  let? _ := r in neoc_json_to_string root.
End Operations.

(** ** The trees *)

Section Trees.
Context `{Curve} `{Double}.

Fixpoint condition_tree (c : neoc_witness_condition_t) : cJSON :=
  cJSON_Object
    ((str "type", cJSON_String (neoc_witness_condition_type_to_json_string c)) ::
     match c with
     | WC_BOOLEAN v => [(str "expression", cJSON_Bool v)]
     | WC_NOT e => [(str "expression", condition_tree e)]
     | WC_AND es | WC_OR es => [(str "expressions", cJSON_Array (map condition_tree es))]
     | WC_SCRIPT_HASH h | WC_CALLED_BY_CONTRACT h =>
         [(str "hash", cJSON_String (prefix_0x true ++ hex_of false (hash160_data h)))]
     | WC_GROUP k | WC_CALLED_BY_GROUP k => [(str "group", cJSON_String (hex_of false (pk_compressed k)))]
     | WC_CALLED_BY_ENTRY => []
     end).

Definition rule_tree (action : neoc_witness_action_t) (c : neoc_witness_condition_t) : cJSON :=
  cJSON_Object [(str "action", cJSON_String (neoc_witness_action_to_json_string action)); (str "condition", condition_tree c)].

(** The longest text of a condition of a given nesting. *)
Fixpoint max_text (n : nat) : Z := match n with O => 512 | S n => 64 + 16 * (max_text n + 1) end.

Lemma max_text_512 n : 512 <= max_text n.
Proof. induction n; cbn [max_text]; lia. Qed.

Lemma quoted_bound s : zlen (quoted s) <= 6 * zlen s + 2.
Proof.
  unfold quoted. rewrite zlen_cons, zlen_app. change (zlen [Byte.x22]) with 1.
  assert (zlen (concat (map quoted_char s)) <= 6 * zlen s); [|lia].
  induction s as [|c s IH]; [done|]. cbn [map concat]. rewrite zlen_app, zlen_cons.
  assert (zlen (quoted_char c) <= 6) by (by destruct c). lia.
Qed.

Lemma comma_separated_bound m parts :
  Forall (fun p => zlen p <= m) parts -> zlen (comma_separated parts) <= (m + 1) * zlen parts.
Proof.
  induction 1 as [|p [|q parts] Hp Hr IH]; [unfold zlen; cbn; lia| |].
  - rewrite zlen_cons, zlen_nil. cbn [comma_separated]. lia.
  - change (comma_separated (p :: q :: parts)) with (p ++ Byte.x2c :: comma_separated (q :: parts)).
    rewrite zlen_app, zlen_cons, (zlen_cons p). lia.
Qed.

(** An object of a "type" and one more member. *)
Lemma two_members_text d k1 s k2 v :
  zlen (render false d (cJSON_Object [(k1, cJSON_String s); (k2, v)])) =
  zlen (quoted k1) + zlen (quoted s) + zlen (quoted k2) + zlen (render false (S d) v) + 5.
Proof.
  cbn [render map comma_separated fst snd white app]. rewrite ?app_nil_l.
  repeat (rewrite zlen_app || rewrite zlen_cons). change (zlen [Byte.x7d]) with 1. rewrite ?zlen_nil. lia.
Qed.

Lemma type_text c : zlen (neoc_witness_condition_type_to_json_string c) <= 16.
Proof. by destruct c. Qed.

Lemma type_quoted c : zlen (quoted (neoc_witness_condition_type_to_json_string c)) <= 18.
Proof. by destruct c. Qed.

Lemma sub_text_bound n d es :
  zlen es <= 16 -> Forall (fun e => zlen (render false (S d) (condition_tree e)) <= max_text n) es ->
  zlen (render false d (cJSON_Array (map condition_tree es))) <= 2 + 16 * (max_text n + 1).
Proof.
  intros Hl Hes. cbn [render]. rewrite zlen_cons, !zlen_app.
  assert (zlen (match map condition_tree es with [] => [] | _ => white false d end) = 0) as -> by (by destruct es).
  change (zlen [Byte.x5d]) with 1.
  pose proof (comma_separated_bound (max_text n) (map (fun c => white false (S d) ++ render false (S d) c) (map condition_tree es))) as Hc.
  assert (zlen (map (fun c => white false (S d) ++ render false (S d) c) (map condition_tree es)) = zlen es) as El
    by (unfold zlen; by rewrite !length_map).
  rewrite El in Hc. pose proof (max_text_512 n). pose proof (zlen_nonneg es).
  assert (zlen (comma_separated (map (fun c => white false (S d) ++ render false (S d) c) (map condition_tree es))) <= (max_text n + 1) * zlen es);
    [apply Hc; rewrite !Forall_map; exact Hes|]. nia.
Qed.

Lemma list_text_bound c es n d :
  1 <= zlen es <= 16 -> Forall condition_ok es ->
  Forall (fun e => forall n d, condition_ok e -> nesting e <= Z.of_nat n -> zlen (render false d (condition_tree e)) <= max_text n) es ->
  foldr (fun e n => Z.max (1 + nesting e) n) 0 es <= Z.of_nat n ->
  zlen (render false d (cJSON_Object [(str "type", cJSON_String (neoc_witness_condition_type_to_json_string c));
    (str "expressions", cJSON_Array (map condition_tree es))])) <= max_text n.
Proof.
  intros Hl Hok IH Hn. apply nesting_list in Hn. destruct n as [|n].
  { destruct Hn as [|e es He]; [rewrite zlen_nil in Hl; lia|]. pose proof (nesting_nonneg e). lia. }
  rewrite two_members_text. pose proof (type_quoted c). change (zlen (quoted (str "type"))) with 6.
  change (zlen (quoted (str "expressions"))) with 13. cbn [max_text].
  pose proof (sub_text_bound n (S d) es ltac:(lia)) as Hs.
  assert (Forall (fun e => zlen (render false (S (S d)) (condition_tree e)) <= max_text n) es) as He; [|specialize (Hs He); lia].
  apply Forall_forall. intros e He. apply (proj1 (Forall_forall _ _) IH e He); [by apply (proj1 (Forall_forall _ _) Hok)|].
  pose proof (proj1 (Forall_forall _ _) Hn e He). cbn in *. lia.
Qed.

Lemma string_text_bound c name s n d :
  zlen (quoted name) <= 8 -> zlen s <= 66 ->
  zlen (render false d (cJSON_Object [(str "type", cJSON_String (neoc_witness_condition_type_to_json_string c));
    (name, cJSON_String s)])) <= max_text n.
Proof.
  intros Hn Hs. rewrite two_members_text. cbn [render]. pose proof (type_quoted c). pose proof (quoted_bound s).
  change (zlen (quoted (str "type"))) with 6. pose proof (max_text_512 n). lia.
Qed.

Lemma hash_text_length h : hash160_ok h -> zlen (prefix_0x true ++ hex_of false (hash160_data h)) = 42.
Proof. unfold hash160_ok. intros E. rewrite zlen_app, length_hex_of, E. done. Qed.

Hypothesis Hcurve : curve_works.

Lemma key_text_length k : key_compressed k -> zlen (hex_of false (pk_compressed k)) = 66.
Proof. intros Hk. by rewrite length_hex_of, key_compressed_size. Qed.

Lemma condition_text_bound c : forall n d,
  condition_ok c -> nesting c <= Z.of_nat n -> zlen (render false d (condition_tree c)) <= max_text n.
Proof.
  induction c as [v|e IH|es IH|es IH|h|k| |h|k] using condition_rule; intros n d Hc Hn; inversion Hc; subst;
    cbn [condition_tree]; pose proof (max_text_512 n) as Hm.
  - rewrite two_members_text. enough (zlen (render false (S d) (cJSON_Bool v)) <= 5).
    + pose proof (type_quoted (WC_BOOLEAN v)). change (zlen (quoted (str "type"))) with 6. change (zlen (quoted (str "expression"))) with 12. lia.
    + by destruct v.
  - cbn [nesting] in Hn. destruct n as [|n]; [pose proof (nesting_nonneg e); lia|]. rewrite two_members_text.
    specialize (IH n (S d) ltac:(done) ltac:(lia)). cbn [max_text]. pose proof (max_text_512 n).
    change (zlen (quoted (neoc_witness_condition_type_to_json_string (WC_NOT e)))) with 5.
    change (zlen (quoted (str "type"))) with 6. change (zlen (quoted (str "expression"))) with 12. lia.
  - by apply (list_text_bound (WC_AND es)).
  - by apply (list_text_bound (WC_OR es)).
  - apply (string_text_bound (WC_SCRIPT_HASH h)); [done|]. rewrite hash_text_length by done. lia.
  - apply (string_text_bound (WC_GROUP k)); [done|]. rewrite key_text_length by done. lia.
  - etransitivity; [|exact Hm]. done.
  - apply (string_text_bound (WC_CALLED_BY_CONTRACT h)); [done|]. rewrite hash_text_length by done. lia.
  - apply (string_text_bound (WC_CALLED_BY_GROUP k)); [done|]. rewrite key_text_length by done. lia.
Qed.
End Trees.

(** ** Writing and reading the trees *)

Section Proofs.
Context `{Allocator} `{Curve} `{Double}.
Variable junk : byte.
Hypothesis Hcurve : curve_works.

Lemma str_plain_type c : json_text (neoc_witness_condition_type_to_json_string c).
Proof. destruct c; by repeat constructor. Qed.

Lemma hex_of_json up bs : json_text (hex_of up bs).
Proof.
  unfold hex_of. apply Forall_flat_map. apply Forall_forall. intros b _. destruct (nibbles b) as [Hh Hl].
  assert (forall c, neoc_hex_is_valid_char c = true -> c <> Byte.x22) as Hq by (by intros c Hc ->).
  destruct (nibble_digit up _ Hh) as (_ & V1 & N1 & _), (nibble_digit up _ Hl) as (_ & V2 & N2 & _).
  repeat constructor; auto.
Qed.

Lemma condition_tree_plain c : plain (condition_tree c).
Proof.
  induction c as [v|e IH|es IH|es IH|h|k| |h|k] using condition_rule; cbn [condition_tree]; apply plain_object;
    (constructor; [split; [by repeat constructor|apply str_plain_type]|]); try (constructor; [|constructor]); cbn [fst snd];
    try (split; [by repeat constructor|]); try done; try (apply plain_array; by rewrite Forall_map);
    cbn [plain]; repeat (apply Forall_cons; split; [done|]); try apply hex_of_json; constructor.
Qed.

Lemma list_height es n :
  Forall (fun e => forall n, nesting e <= Z.of_nat n -> (height (condition_tree e) <= 2 + 2 * n)%nat) es ->
  foldr (fun e n => Z.max (1 + nesting e) n) 0 es <= Z.of_nat n ->
  (height (cJSON_Array (map condition_tree es)) <= 1 + 2 * n)%nat.
Proof.
  intros IH Hn. apply nesting_list in Hn. destruct n as [|n].
  - destruct Hn as [|e es He]; [cbn; lia|]. pose proof (nesting_nonneg e). lia.
  - cbn [height]. enough (list_max (map height (map condition_tree es)) <= 2 + 2 * n)%nat by lia.
    apply list_max_le. rewrite !Forall_map. rewrite Forall_forall in IH, Hn |- *. intros e He. apply IH; [done|].
    specialize (Hn e He). cbn in Hn. lia.
Qed.

Lemma condition_tree_height c : forall n, nesting c <= Z.of_nat n -> (height (condition_tree c) <= 2 + 2 * n)%nat.
Proof.
  induction c as [v|e IH|es IH|es IH|h|k| |h|k] using condition_rule; intros n Hn;
    try (cbn; lia); cbn [nesting] in Hn.
  - destruct n as [|n]; [pose proof (nesting_nonneg e); lia|]. specialize (IH n ltac:(lia)).
    change (height (condition_tree (WC_NOT e))) with (S (Nat.max 0 (Nat.max (height (condition_tree e)) 0))). lia.
  - pose proof (list_height es n IH Hn).
    change (height (condition_tree (WC_AND es))) with (S (Nat.max 0 (Nat.max (height (cJSON_Array (map condition_tree es))) 0))). lia.
  - pose proof (list_height es n IH Hn).
    change (height (condition_tree (WC_OR es))) with (S (Nat.max 0 (Nat.max (height (cJSON_Array (map condition_tree es))) 0))). lia.
Qed.

(** *** Writing *)

Lemma hash_text_ok h : hash160_ok h -> hash_text junk h = Ok (prefix_0x true ++ hex_of false (hash160_data h)).
Proof.
  unfold hash160_ok. intros Hh. unfold hash_text, neoc_hash160_to_hex.
  change (neoc_hex_encode_buffer_size NEOC_HASH160_SIZE false) with 41. cmps. rewrite <- Hh.
  destruct (hex_encode_spec (hash160_data h) 41 false false (replicate 41 junk)) as (rest & -> & _);
    [done|rewrite zlen_prefix, Hh; unfold NEOC_HASH160_SIZE; lia|].
  cbn [prefix_0x app]. by rewrite cstring_app by apply hex_of_chars.
Qed.

Lemma key_text_ok k :
  key_compressed k -> heap_serves 128 -> key_text junk k = Ok (hex_of false (pk_compressed k)).
Proof.
  intros Hk Hh. unfold key_text. rewrite get_encoded_compressed; [|done|apply Hk|apply Hh; lia]. cbn [rbind].
  pose proof (key_compressed_size Hcurve k Hk) as El. rewrite <- El.
  rewrite hex_encode_alloc_text; [done| |lia|by rewrite El; eapply heap_serves_mono; [exact Hh|lia]].
  intros E. by rewrite E in El.
Qed.

Lemma each_child_ok write (tree : neoc_witness_condition_t -> cJSON) es :
  Forall (fun e => write e = Ok (tree e)) es ->
  forall child, each_child write es (cJSON_Array child) = (Ok tt, cJSON_Array (child ++ map tree es)).
Proof.
  induction 1 as [|e es He _ IH]; intros child; cbn; [by rewrite app_nil_r|]. unfold bind, lift. rewrite He. cbn.
  rewrite IH, <- app_assoc. done.
Qed.

Lemma to_json_object_step c depth :
  depth <= 2 -> heap_serves 128 ->
  neoc_witness_condition_to_json_object junk c depth =
  let '(r, root) :=
    (match c with
     | WC_BOOLEAN v => neoc_json_add_bool (str "expression") v
     | WC_NOT e =>
         let! child := lift (neoc_witness_condition_to_json_object junk e (depth + 1)) in
         neoc_json_add_object (str "expression") child
     | WC_AND es | WC_OR es =>
         let! array := lift neoc_json_create_array in
         let '(r, array) := each_child (fun e => neoc_witness_condition_to_json_object junk e (depth + 1)) es array in
         do! lift r in neoc_json_add_object (str "expressions") array
     | WC_SCRIPT_HASH h | WC_CALLED_BY_CONTRACT h =>
         let! prefixed := lift (hash_text junk h) in neoc_json_add_string (str "hash") (Some prefixed)
     | WC_GROUP k | WC_CALLED_BY_GROUP k =>
         let! hex := lift (key_text junk k) in neoc_json_add_string (str "group") (Some hex)
     | WC_CALLED_BY_ENTRY => ret tt
     end) (cJSON_Object [(str "type", cJSON_String (neoc_witness_condition_type_to_json_string c))]) in
  let? _ := r in Ok root.
Proof.
  intros Hn Hh. assert ((NEOC_WITNESS_CONDITION_MAX_NESTING_DEPTH <? depth) = false) as E.
  { unfold NEOC_WITNESS_CONDITION_MAX_NESTING_DEPTH. lia. }
  pose proof (type_text c) as Ht.
  pose proof (add_string_ok 128 (str "type") (neoc_witness_condition_type_to_json_string c) [] Hh ltac:(by unfold cJSON_size)
    ltac:(done) ltac:(lia)) as Ea.
  destruct c; cbn [neoc_witness_condition_to_json_object]; rewrite E; unfold neoc_json_create_object, cJSON_CreateObject, cJSON_size;
    rewrite Hh by lia; cbn [rbind]; rewrite (bind_ok _ _ _ _ _ Ea); done.
Qed.

Lemma sub_trees_written es depth :
  Forall condition_ok es ->
  Forall (fun e => forall d, condition_ok e -> nesting e + d <= 2 ->
    neoc_witness_condition_to_json_object junk e d = Ok (condition_tree e)) es ->
  foldr (fun e n => Z.max (1 + nesting e) n) 0 es + depth <= 2 ->
  each_child (fun e => neoc_witness_condition_to_json_object junk e (depth + 1)) es (cJSON_Array []) =
  (Ok tt, cJSON_Array (map condition_tree es)).
Proof.
  intros Hok IH Hn. apply (each_child_ok _ condition_tree). pose proof (nesting_list es (2 - depth) ltac:(lia)) as Hd.
  apply Forall_forall. intros e He. apply (proj1 (Forall_forall _ _) IH e He); [by apply (proj1 (Forall_forall _ _) Hok)|].
  pose proof (proj1 (Forall_forall _ _) Hd e He) as Hx. cbn in Hx. lia.
Qed.

Lemma list_written es depth t :
  Forall condition_ok es -> heap_serves 128 ->
  Forall (fun e => forall d, condition_ok e -> nesting e + d <= 2 -> heap_serves 128 ->
    neoc_witness_condition_to_json_object junk e d = Ok (condition_tree e)) es ->
  foldr (fun e n => Z.max (1 + nesting e) n) 0 es + depth <= 2 ->
  (let '(r, root) :=
     (let! array := lift neoc_json_create_array in
      let '(r, array) := each_child (fun e => neoc_witness_condition_to_json_object junk e (depth + 1)) es array in
      do! lift r in neoc_json_add_object (str "expressions") array) (cJSON_Object [t]) in
   let? _ := r in Ok root) = Ok (cJSON_Object [t; (str "expressions", cJSON_Array (map condition_tree es))]).
Proof.
  intros Hok Hh IH Hn. unfold bind, lift, neoc_json_create_array, cJSON_CreateArray, cJSON_size. rewrite Hh by lia.
  rewrite sub_trees_written; [|done| |done]. { by rewrite (add_object_ok 128). }
  eapply Forall_impl; [exact IH|]. cbn. intros e He d Hc Hd. by apply He.
Qed.

Lemma hash_written h t :
  hash160_ok h -> heap_serves 128 ->
  (let '(r, root) :=
     (let! prefixed := lift (hash_text junk h) in neoc_json_add_string (str "hash") (Some prefixed)) (cJSON_Object [t]) in
   let? _ := r in Ok root) = Ok (cJSON_Object [t; (str "hash", cJSON_String (prefix_0x true ++ hex_of false (hash160_data h)))]).
Proof.
  intros Hok Hh. unfold bind, lift. rewrite hash_text_ok by done.
  rewrite (add_string_ok 128); [done|done|by unfold cJSON_size|done|by rewrite hash_text_length].
Qed.

Lemma key_written k t :
  key_compressed k -> heap_serves 128 ->
  (let '(r, root) :=
     (let! hex := lift (key_text junk k) in neoc_json_add_string (str "group") (Some hex)) (cJSON_Object [t]) in
   let? _ := r in Ok root) = Ok (cJSON_Object [t; (str "group", cJSON_String (hex_of false (pk_compressed k)))]).
Proof.
  intros Hok Hh. unfold bind, lift. rewrite key_text_ok by done.
  rewrite (add_string_ok 128); [done|done|by unfold cJSON_size|done|by rewrite key_text_length].
Qed.

Lemma to_json_object_ok c : forall depth,
  condition_ok c -> nesting c + depth <= 2 -> heap_serves 128 ->
  neoc_witness_condition_to_json_object junk c depth = Ok (condition_tree c).
Proof.
  induction c as [v|e IH|es IH|es IH|h|k| |h|k] using condition_rule; intros depth Hc Hn Hh; inversion Hc; subst;
    rewrite to_json_object_step by (done || (match type of Hn with nesting ?c + _ <= _ => pose proof (nesting_nonneg c) end; lia)); cbn [nesting] in Hn.
  - by rewrite (add_bool_ok 128).
  - unfold bind, lift. rewrite IH by (done || lia). by rewrite (add_object_ok 128).
  - by apply list_written.
  - by apply list_written.
  - by apply hash_written.
  - by apply key_written.
  - done.
  - by apply hash_written.
  - by apply key_written.
Qed.

(** *** Reading *)

Lemma hash_of_string_ok h : hash160_ok h -> hash_of_string junk (prefix_0x true ++ hex_of false (hash160_data h)) = Ok h.
Proof.
  unfold hash160_ok. intros Hh. unfold hash_of_string, neoc_hash160_from_string.
  change (neoc_hex_skip_prefix (prefix_0x true ++ hex_of false (hash160_data h))) with (hex_of false (hash160_data h)).
  rewrite length_hex_of, Hh. change (2 * NEOC_HASH160_SIZE) with 40. cmps.
  unfold neoc_hash160_from_hex.
  destruct (exact_hex_spec 20 (hex_of false (hash160_data h)) (hash160_data (mk_hash160 (replicate 20 junk))))
    as (? & _ & E1 & _); [lia|done|].
  unfold NEOC_HASH160_SIZE. rewrite E1, exact_hex_of by (done || lia). by destruct h.
Qed.

Lemma key_of_string_ok k :
  key_compressed k -> heap_serves 128 -> key_of_string junk (hex_of false (pk_compressed k)) = Ok k.
Proof.
  intros Hk Hh. pose proof (key_compressed_size Hcurve k Hk) as El. unfold key_of_string.
  rewrite (hex_decode_alloc_text junk (pk_compressed k) false false); [|by intros E; rewrite E in El|lia|].
  - rewrite El. cbn [Z.eqb Pos.eqb negb andb]. apply from_bytes_compressed; [done|done|]. apply Hh. unfold public_key_struct_size. lia.
  - eapply heap_serves_mono; [exact Hh|]. lia.
Qed.

Lemma from_json_object_unfold c levels depth :
  nesting c + depth <= 2 ->
  neoc_witness_condition_from_json_object junk (S levels) (condition_tree c) depth =
  let logical es create :=
    let? items :=
      neoc_witness_condition_array_from_json
        (fun item => neoc_witness_condition_from_json_object junk levels item (depth + 1)) (cJSON_Array (map condition_tree es)) in
    create (Some items) in
  let hash h create :=
    let? hash := hash_of_string junk (prefix_0x true ++ hex_of false (hash160_data h)) in create (Some hash) in
  let group k create := let? public_key := key_of_string junk (hex_of false (pk_compressed k)) in create (Some public_key) in
  match c with
  | WC_BOOLEAN v => neoc_witness_condition_create_boolean v
  | WC_NOT e =>
      let? inner := neoc_witness_condition_from_json_object junk levels (condition_tree e) (depth + 1) in
      neoc_witness_condition_create_not (Some inner)
  | WC_AND es => logical es neoc_witness_condition_create_and
  | WC_OR es => logical es neoc_witness_condition_create_or
  | WC_SCRIPT_HASH h => hash h neoc_witness_condition_create_script_hash
  | WC_CALLED_BY_CONTRACT h => hash h neoc_witness_condition_create_called_by_contract
  | WC_GROUP k => group k neoc_witness_condition_create_group
  | WC_CALLED_BY_GROUP k => group k neoc_witness_condition_create_called_by_group
  | WC_CALLED_BY_ENTRY => neoc_witness_condition_create_called_by_entry
  end.
Proof.
  intros Hn. assert ((NEOC_WITNESS_CONDITION_MAX_NESTING_DEPTH <? depth) = false) as E.
  { pose proof (nesting_nonneg c). unfold NEOC_WITNESS_CONDITION_MAX_NESTING_DEPTH. lia. }
  cbn [neoc_witness_condition_from_json_object]. rewrite E.
  destruct c as [v|e|es|es|h|k| |h|k]; try reflexivity. destruct e; reflexivity.
Qed.

Lemma each_res_map {A B} (f : A -> res B) (g : B -> A) l : Forall (fun x => f (g x) = Ok x) l -> each_res f (map g l) = Ok l.
Proof. induction 1 as [|x l Hx _ IH]; [done|]. cbn. rewrite Hx. cbn. by rewrite IH. Qed.

Lemma list_read es levels depth :
  1 <= zlen es <= 16 -> Forall condition_ok es -> heap_serves 128 -> 0 <= depth ->
  Forall (fun e => forall levels depth, condition_ok e -> nesting e + depth <= 2 -> 0 <= depth -> nesting e < Z.of_nat levels ->
    heap_serves 128 -> neoc_witness_condition_from_json_object junk levels (condition_tree e) depth = Ok e) es ->
  foldr (fun e n => Z.max (1 + nesting e) n) 0 es + depth <= 2 ->
  foldr (fun e n => Z.max (1 + nesting e) n) 0 es < Z.of_nat (S levels) ->
  neoc_witness_condition_array_from_json
    (fun item => neoc_witness_condition_from_json_object junk levels item (depth + 1)) (cJSON_Array (map condition_tree es)) = Ok es.
Proof.
  intros Hl Hok Hh Hd IH Hn Hlev. unfold neoc_witness_condition_array_from_json, neoc_json_array_size. cbn [cJSON_IsArray cJSON_GetArraySize].
  assert (zlen (map condition_tree es) = zlen es) as -> by (unfold zlen; by rewrite length_map).
  unfold NEOC_WITNESS_CONDITION_MAX_SUBITEMS, neoc_malloc_ok. cmps. rewrite Hh by lia. cbn [negb].
  apply each_res_map. apply Forall_forall. intros e He.
  pose proof (proj1 (Forall_forall _ _) (nesting_list es (2 - depth) ltac:(lia)) e He) as H2.
  pose proof (proj1 (Forall_forall _ _) (nesting_list es (Z.of_nat levels) ltac:(lia)) e He) as H3. cbn in H2, H3.
  apply (proj1 (Forall_forall _ _) IH e He); [by apply (proj1 (Forall_forall _ _) Hok)|lia|lia|lia|done].
Qed.

Lemma create_logical_made make es :
  1 <= zlen es <= 16 -> Forall condition_ok es -> heap_serves 128 -> neoc_witness_condition_create_logical make (Some es) = Ok (make es).
Proof.
  intros Hl Hok Hh. unfold neoc_witness_condition_create_logical, NEOC_WITNESS_CONDITION_MAX_SUBITEMS, alloc_condition, condition_struct_size.
  cmps. rewrite !Hh by lia. cbn [negb]. rewrite each_res_same; [done|]. eapply Forall_impl; [exact Hok|]. intros e He. by apply clone_internal_same.
Qed.

Lemma from_json_object_ok c : forall levels depth,
  condition_ok c -> nesting c + depth <= 2 -> 0 <= depth -> nesting c < Z.of_nat levels -> heap_serves 128 ->
  neoc_witness_condition_from_json_object junk levels (condition_tree c) depth = Ok c.
Proof.
  assert (heap_serves 128 -> forall A (r : res A), alloc_condition r = r) as Ha.
  { intros Hh A r. unfold alloc_condition, condition_struct_size. by rewrite Hh by lia. }
  induction c as [v|e IH|es IH|es IH|h|k| |h|k] using condition_rule; intros [|levels] depth Hc Hn Hd Hl Hh; inversion Hc; subst;
    try (match type of Hl with nesting ?c < Z.of_nat 0 => pose proof (nesting_nonneg c); lia end);
    rewrite from_json_object_unfold by done; cbv beta zeta; cbn [nesting] in Hn, Hl; specialize (Ha Hh).
  - apply Ha.
  - rewrite IH by (done || lia). cbn [rbind neoc_witness_condition_create_not]. rewrite Ha, clone_internal_same by done. done.
  - rewrite list_read by done. cbn [rbind]. by apply create_logical_made.
  - rewrite list_read by done. cbn [rbind]. by apply create_logical_made.
  - rewrite hash_of_string_ok by done. apply Ha.
  - rewrite key_of_string_ok by done. cbn [rbind neoc_witness_condition_create_group]. rewrite Ha, clone_public_key_ok by done. done.
  - apply Ha.
  - rewrite hash_of_string_ok by done. apply Ha.
  - rewrite key_of_string_ok by done. cbn [rbind neoc_witness_condition_create_called_by_group]. rewrite Ha, clone_public_key_ok by done. done.
Qed.
End Proofs.

(** ** Conditions that lie too deep *)

Section Deep.
Context `{Allocator} `{Curve} `{Double}.
Variable junk : byte.
Hypothesis Hcurve : curve_works.

Lemma each_child_err write (tree : neoc_witness_condition_t -> cJSON) e0 es :
  Forall (fun e => write e = Ok (tree e) \/ write e = Err e0) es -> Exists (fun e => write e = Err e0) es ->
  forall child, exists child', each_child write es (cJSON_Array child) = (Err e0, cJSON_Array child').
Proof.
  induction 1 as [|e es He _ IH]; intros Hx child; [by inversion Hx|]. cbn. unfold bind, lift. destruct He as [He|He]; rewrite He; [|by exists child].
  cbn. apply Exists_cons in Hx as [Hx|Hx]; [by rewrite Hx in He|]. by apply IH.
Qed.

(** One call that is not too deep itself but whose parts are. *)
Lemma list_too_deep es depth t :
  Forall condition_ok es -> heap_serves 128 -> 0 <= depth <= 2 ->
  Forall (fun e => forall d, condition_ok e -> 0 <= d -> 2 < nesting e + d ->
    neoc_witness_condition_to_json_object junk e d = Err NEOC_ERROR_INVALID_FORMAT) es ->
  2 < foldr (fun e n => Z.max (1 + nesting e) n) 0 es + depth ->
  (let '(r, root) :=
     (let! array := lift neoc_json_create_array in
      let '(r, array) := each_child (fun e => neoc_witness_condition_to_json_object junk e (depth + 1)) es array in
      do! lift r in neoc_json_add_object (str "expressions") array) (cJSON_Object [t]) in
   let? _ := r in Ok root) = Err NEOC_ERROR_INVALID_FORMAT.
Proof.
  intros Hok Hh Hd IH Hn. unfold bind, lift, neoc_json_create_array, cJSON_CreateArray, cJSON_size. rewrite Hh by lia.
  destruct (each_child_err (fun e => neoc_witness_condition_to_json_object junk e (depth + 1)) condition_tree NEOC_ERROR_INVALID_FORMAT es)
    with (child := @nil cJSON) as [child ->]; [| |done].
  - apply Forall_forall. intros e He. pose proof (proj1 (Forall_forall _ _) Hok e He).
    destruct (Z_le_gt_dec (nesting e + (depth + 1)) 2); [left; by apply to_json_object_ok|right].
    apply (proj1 (Forall_forall _ _) IH e He); [done|lia|lia].
  - pose proof (nesting_list_deep es (2 - depth) ltac:(lia) ltac:(lia)) as Hx. apply Exists_exists in Hx as (e & He & Hx).
    apply Exists_exists. exists e. split; [done|].
    apply (proj1 (Forall_forall _ _) IH e He); [by apply (proj1 (Forall_forall _ _) Hok)|lia|cbn in Hx; lia].
Qed.

Lemma to_json_object_too_deep c : forall depth,
  condition_ok c -> 0 <= depth -> 2 < nesting c + depth -> heap_serves 128 ->
  neoc_witness_condition_to_json_object junk c depth = Err NEOC_ERROR_INVALID_FORMAT.
Proof.
  assert (forall c depth, 2 < depth -> neoc_witness_condition_to_json_object junk c depth = Err NEOC_ERROR_INVALID_FORMAT) as Hdeep.
  { intros c0 depth Hd. destruct c0; cbn [neoc_witness_condition_to_json_object]; unfold NEOC_WITNESS_CONDITION_MAX_NESTING_DEPTH; by cmps. }
  induction c as [v|e IH|es IH|es IH|h|k| |h|k] using condition_rule; intros depth Hc Hd Hn Hh;
    (destruct (Z_le_gt_dec depth 2); [|apply Hdeep; lia]); inversion Hc; subst; cbn [nesting] in Hn; try lia;
    rewrite to_json_object_step by (done || lia).
  - unfold bind, lift. by rewrite IH by (done || lia).
  - apply list_too_deep; try done. eapply Forall_impl; [exact IH|]. cbn. intros e He d Hx Hy Hz. by apply He.
  - apply list_too_deep; try done. eapply Forall_impl; [exact IH|]. cbn. intros e He d Hx Hy Hz. by apply He.
Qed.
End Deep.

(** ** Round trip *)

Section RoundTrip.
Context `{Allocator} `{Curve} `{Double}.
Variable junk : byte.

Lemma rule_text_bound action c :
  curve_works -> condition_ok c -> nesting c <= 2 ->
  zlen (render false 0 (condition_tree c)) <= 132500 /\ zlen (render false 0 (rule_tree action c)) <= 132500.
Proof.
  intros Hcurve Hc Hn. pose proof (condition_text_bound Hcurve c 2 0 Hc Hn) as H2. pose proof (condition_text_bound Hcurve c 2 1 Hc Hn) as H3.
  change (max_text 2) with 132432 in *. unfold rule_tree. rewrite two_members_text.
  change (zlen (quoted (str "action"))) with 8. change (zlen (quoted (str "condition"))) with 11.
  assert (zlen (quoted (neoc_witness_action_to_json_string action)) <= 7) by (by destruct action). lia.
Qed.

Lemma condition_json_ok c :
  curve_works -> double_works -> condition_ok c -> nesting c <= 2 -> heap_serves (2 ^ 19) ->
  exists text, neoc_json_to_string (condition_tree c) = Ok text /\ neoc_json_parse (Some text) = Ok (condition_tree c) /\
    neoc_witness_condition_to_json junk (Some c) = Ok text /\ neoc_witness_condition_from_json junk (Some text) = Ok c.
Proof.
  intros Hcurve Hd Hc Hn Hh. destruct (rule_text_bound NEOC_WITNESS_ACTION_DENY c Hcurve Hc Hn) as [Hb _].
  destruct (to_string_parse Hd (condition_tree c)) as (text & Et & Ep);
    [apply condition_tree_plain|pose proof (condition_tree_height c 2 Hn); lia|lia|eapply heap_serves_mono; [exact Hh|lia]|].
  assert (heap_serves 128) as H128 by (eapply heap_serves_mono; [exact Hh|lia]).
  exists text. split_and!; [done|done| |].
  - cbn [neoc_witness_condition_to_json]. rewrite to_json_object_ok by (done || lia). done.
  - cbn [neoc_witness_condition_from_json]. rewrite Ep. apply from_json_object_ok; done || lia.
Qed.

(** A rule written as JSON is read back as the same rule when its conditions nest at most two deep; a rule that nests
    deeper is refused when it is written. *)
Theorem witness_rule_json_roundtrip action c :
  curve_works -> double_works -> condition_ok c -> heap_serves (2 ^ 19) ->
  let rule := mk_rule _ action (Some c) in
  if nesting c <=? 2
  then exists text, neoc_witness_rule_to_json junk rule = Ok text /\ neoc_witness_rule_from_json junk (Some text) = Ok rule
  else neoc_witness_rule_to_json junk rule = Err NEOC_ERROR_INVALID_FORMAT.
Proof.
  intros Hcurve Hd Hc Hh rule. assert (heap_serves 128) as H128 by (eapply heap_serves_mono; [exact Hh|lia]).
  assert (forall name value, zlen name < 128 -> zlen value < 128 -> neoc_json_add_string name (Some value) (cJSON_Object []) =
    (Ok tt, cJSON_Object [(name, cJSON_String value)])) as Ha by (intros; by apply (add_string_ok 128 _ _ [])).
  unfold neoc_witness_rule_to_json, neoc_json_create_object, cJSON_CreateObject, cJSON_size. rewrite Hh by lia. cbn [rbind].
  rewrite (bind_ok _ _ _ _ _ (Ha (str "action") (neoc_witness_action_to_json_string action) ltac:(done) ltac:(by destruct action))). unfold bind, lift. cbn [wr_condition rule].
  destruct (Z.leb_spec (nesting c) 2) as [Hn|Hn].
  - destruct (condition_json_ok c Hcurve Hd Hc Hn Hh) as (text & Es & Ep & Et & Ef). rewrite Et, Ep.
    rewrite (add_object_ok 128) by done. cbn [rbind].
    change (cJSON_Object _) with (rule_tree action c). destruct (rule_text_bound action c Hcurve Hc Hn) as [_ Hb].
    destruct (to_string_parse Hd (rule_tree action c)) as (image & Eit & Eip).
    + apply plain_object. constructor; [split; [by repeat constructor|destruct action; by repeat constructor]|].
      constructor; [split; [by repeat constructor|apply condition_tree_plain]|constructor].
    + pose proof (condition_tree_height c 2 Hn). unfold rule_tree. cbn [height map snd list_max fold_right]. lia.
    + lia.
    + eapply heap_serves_mono; [exact Hh|lia].
    + exists image. split; [done|]. unfold neoc_witness_rule_from_json. rewrite Eip.
      change (neoc_json_get_string (rule_tree action c) (str "action")) with (Some (neoc_witness_action_to_json_string action)). cbv iota.
      assert (neoc_witness_action_from_json_string (Some (neoc_witness_action_to_json_string action)) = Ok action) as -> by (by destruct action).
      cbn [rbind]. assert (neoc_json_get_object (rule_tree action c) (str "condition") = Some (condition_tree c)) as -> by (by destruct c).
      rewrite Es, Ef. cbn [rbind]. unfold alloc_rule, rule_struct_size. by rewrite Hh by lia.
  - cbn [neoc_witness_condition_to_json]. rewrite to_json_object_too_deep by (done || lia). done.
Qed.
End RoundTrip.

Section Samples.
#[local] Existing Instance mib_heap.
#[local] Existing Instance toy_curve.
#[local] Existing Instance toy_double.

Lemma witness_rule_json_roundtrip_witness :
  exists text,
    neoc_witness_rule_to_json Byte.xcd (mk_rule _ NEOC_WITNESS_ACTION_ALLOW (Some (sample_condition 7))) = Ok text /\
    neoc_witness_rule_from_json Byte.xcd (Some text) = Ok (mk_rule _ NEOC_WITNESS_ACTION_ALLOW (Some (sample_condition 7))).
Proof.
  apply (witness_rule_json_roundtrip Byte.xcd NEOC_WITNESS_ACTION_ALLOW (sample_condition 7) toy_curve_works toy_double_works (sample_ok 7)).
  apply mib_heap_serves. lia.
Defined.
End Samples.
