(* ===== verification/Witness.v ===== *)
(** * Witnesses (src/transaction/witness.c)

    A witness is a pair of scripts, each a pointer with a length.  The theorems
    show the round trip through the binary stream, that reading untrusted bytes is
    safe, and what the script made from a signature is. *)

From S2P Require Import Prelude BinaryWriter BinaryReader Serializable Crypto Interop EcKey Opcode NeoVM ScriptBuilder VerificationScript.
#[local] Open Scope Z_scope.

Record neoc_witness_t := mk_witness {
  wit_invocation : option (list byte);
  wit_invocation_len : Z;
  wit_verification : option (list byte);
  wit_verification_len : Z
}.

(** [sizeof(neoc_witness_t)] *)
Definition witness_struct_size : Z := 32.

Section Operations.
Context `{Allocator}.

Definition witness_var_int_size (value : Z) : Z :=
  if value <? 0xFD then 1
  else if value <=? 0xFFFF then 3
  else if value <=? 0xFFFFFFFF then 5
  else 9.

(** The copy of a script: its bytes and its length, NULL and 0 for an empty one. *)
Definition copy_script (script : option (list byte)) (len : Z)
  : res (option (list byte) * Z) :=
  match script with
  | None => Ok (None, 0)
  | Some s =>
      if 0 <? len then
        if negb (neoc_malloc_ok len) then Err NEOC_ERROR_MEMORY
        else
          match buf_slice s 0 len with
          | Some copy => Ok (Some copy, len)
          | None => Fault
          end
      else Ok (None, 0)
  end.

Definition neoc_witness_create (invocation_script : option (list byte)) (invocation_len : Z)
    (verification_script : option (list byte)) (verification_len : Z) : res neoc_witness_t :=
  if negb (neoc_malloc_ok witness_struct_size) then Err NEOC_ERROR_MEMORY
  else
    let? '(inv, inv_len) := copy_script invocation_script invocation_len in
    let? '(ver, ver_len) := copy_script verification_script verification_len in
    Ok (mk_witness inv inv_len ver ver_len).

Definition neoc_witness_create_from_signature (signature : option (list byte))
    (signature_len : Z) (public_key : option (list byte)) (public_key_len : Z)
  : res neoc_witness_t :=
  match signature, public_key with
  | Some signature, Some public_key =>
      let invocation_len := wrap 64 (1 + signature_len) in
      if negb (neoc_malloc_ok invocation_len) then Err NEOC_ERROR_MEMORY
      else
        match buf_slice signature 0 signature_len with
        | None => Fault
        | Some sig =>
            let verification_len := wrap 64 (1 + public_key_len + 1) in
            if negb (neoc_malloc_ok verification_len) then Err NEOC_ERROR_MEMORY
            else
              match buf_slice public_key 0 public_key_len with
              | None => Fault
              | Some key =>
                  neoc_witness_create
                    (Some (Byte.x40 :: sig)) invocation_len
                    (Some (Byte.x21 :: key ++ [Byte.xac])) verification_len
              end
        end
  | _, _ => Err NEOC_ERROR_INVALID_ARGUMENT
  end.

Definition neoc_witness_get_size (witness : option neoc_witness_t) : Z :=
  match witness with
  | None => 0
  | Some w =>
      wrap 64 (witness_var_int_size (wit_invocation_len w) + wit_invocation_len w +
               (witness_var_int_size (wit_verification_len w) + wit_verification_len w))
  end.

Definition neoc_witness_serialize (witness : option neoc_witness_t) : res (list byte) :=
  match witness with
  | None => Err NEOC_ERROR_INVALID_ARGUMENT
  | Some w =>
      serialize_with 64
        (do! neoc_binary_writer_write_var_bytes (wit_invocation w) (wit_invocation_len w) in
         neoc_binary_writer_write_var_bytes (wit_verification w) (wit_verification_len w))
  end.

(** The length [read_var_bytes] reports for the bytes it allocates. *)
Definition pointer_len (p : option (list byte)) : Z :=
  match p with Some bs => zlen bs | None => 0 end.

Definition neoc_witness_deserialize (bytes : option (list byte)) (bytes_len : Z)
  : res neoc_witness_t :=
  match bytes with
  | None => Err NEOC_ERROR_INVALID_ARGUMENT
  | Some _ =>
      let? reader := neoc_binary_reader_create bytes bytes_len in
      fst ((let! invocation := neoc_binary_reader_read_var_bytes in
            let! verification := neoc_binary_reader_read_var_bytes in
            lift (neoc_witness_create invocation (pointer_len invocation)
                    verification (pointer_len verification))) reader)
  end.

Definition neoc_witness_clone (source : option neoc_witness_t) : res neoc_witness_t :=
  match source with
  | None => Err NEOC_ERROR_INVALID_ARGUMENT
  | Some w =>
      neoc_witness_create (wit_invocation w) (wit_invocation_len w)
        (wit_verification w) (wit_verification_len w)
  end.

End Operations.

(** ** Specification *)

(** The witness of two scripts. *)
Definition witness_of (inv ver : list byte) : neoc_witness_t :=
  mk_witness (as_pointer inv) (zlen inv) (as_pointer ver) (zlen ver).

Definition witness_bytes (inv ver : list byte) : list byte := var_bytes inv ++ var_bytes ver.

Section Proofs.
Context `{Allocator}.

Lemma copy_script_ok bs p n :
  p = Some bs \/ p = as_pointer bs -> n = zlen bs -> malloc_ok n = true ->
  copy_script p n = Ok (as_pointer bs, zlen bs).
Proof.
  intros Hp -> Hm. destruct bs as [|b bs]; [by destruct Hp as [->| ->]|].
  assert (p = Some (b :: bs)) as -> by (by destruct Hp). cbn [copy_script].
  unfold neoc_malloc_ok. rewrite buf_slice_all, Hm.
  assert (0 < zlen (b :: bs)) by zlia. cmps. done.
Qed.

Lemma witness_create_ok inv ver p q :
  p = Some inv \/ p = as_pointer inv -> q = Some ver \/ q = as_pointer ver ->
  heap_serves (Z.max 32 (Z.max (zlen inv) (zlen ver))) ->
  neoc_witness_create p (zlen inv) q (zlen ver) = Ok (witness_of inv ver).
Proof.
  intros Hp Hq Hh. pose proof (zlen_nonneg inv). pose proof (zlen_nonneg ver).
  unfold neoc_witness_create, neoc_malloc_ok, witness_struct_size. cbn [Z.eqb].
  rewrite Hh by lia. cbn [negb].
  rewrite (copy_script_ok inv), (copy_script_ok ver); try done; apply Hh; lia.
Qed.

Lemma pointer_len_as_pointer bs : pointer_len (as_pointer bs) = zlen bs.
Proof. by destruct bs. Qed.

Lemma witness_serialize_ok inv ver :
  zlen (witness_bytes inv ver) <= stream_max ->
  heap_serves (Z.max 1024 (2 * zlen (witness_bytes inv ver))) ->
  neoc_witness_serialize (Some (witness_of inv ver)) = Ok (witness_bytes inv ver).
Proof.
  intros Hs Hh. apply serialize_with_ok; [|lia|done|done].
  apply writes_bind; apply write_pointer_writes.
Qed.

Lemma witness_size_exact inv ver :
  zlen (witness_bytes inv ver) < 2 ^ 64 ->
  neoc_witness_get_size (Some (witness_of inv ver)) = zlen (witness_bytes inv ver).
Proof.
  unfold witness_bytes, var_bytes. rewrite !zlen_app.
  rewrite !var_int_bytes_size by apply zlen_nonneg. intros Hl. cbn [neoc_witness_get_size].
  pose proof (zlen_nonneg inv). pose proof (zlen_nonneg ver).
  cbn [witness_of wit_invocation_len wit_verification_len].
  unfold witness_var_int_size. rewrite wrap_small; [done|].
  repeat match goal with |- context [if ?b then _ else _] => destruct b end; lia.
Qed.

Lemma copy_script_pointer p :
  match copy_script p (pointer_len p) with
  | Ok x => x = (as_pointer (default [] p), zlen (default [] p))
  | Err _ => True
  | Fault => False
  end.
Proof.
  destruct p as [[|b bs]|]; [done| |done]. cbn [copy_script pointer_len default].
  rewrite buf_slice_all. assert (0 < zlen (b :: bs)) by zlia. cmps.
  by destruct (negb _).
Qed.

(** Copying what the reader allocated gives a witness of two scripts. *)
Lemma witness_create_pointers p q :
  match neoc_witness_create p (pointer_len p) q (pointer_len q) with
  | Ok w => exists inv ver, w = witness_of inv ver
  | Err _ => True
  | Fault => False
  end.
Proof.
  unfold neoc_witness_create. destruct (negb _); [done|].
  pose proof (copy_script_pointer p) as Hp. pose proof (copy_script_pointer q) as Hq.
  destruct (copy_script p _) as [x| |]; cbn [rbind]; try done. subst x.
  destruct (copy_script q _) as [x| |]; cbn [rbind]; try done. subst x.
  by exists (default [] p), (default [] q).
Qed.

(** Witness round trip: a witness made from any two scripts reports the size of
    its encoding, serializes to it, and reading those bytes back (with anything
    after them) gives the witness; a clone is equal to it. *)
Theorem witness_roundtrip (inv ver rest : list byte) :
  let bytes := witness_bytes inv ver in
  zlen bytes <= stream_max -> zlen (bytes ++ rest) < 2 ^ 63 ->
  heap_serves (Z.max 1024 (2 * zlen (bytes ++ rest))) ->
  exists w,
    neoc_witness_create (Some inv) (zlen inv) (Some ver) (zlen ver) = Ok w /\
    neoc_witness_serialize (Some w) = Ok bytes /\
    neoc_witness_get_size (Some w) = zlen bytes /\
    neoc_witness_deserialize (Some (bytes ++ rest)) (zlen (bytes ++ rest)) = Ok w /\
    neoc_witness_clone (Some w) = Ok w.
Proof.
  cbv zeta. intros Hs Hl Hh. exists (witness_of inv ver). rewrite zlen_app in Hh, Hl.
  assert (zlen inv <= zlen (witness_bytes inv ver) /\ zlen ver <= zlen (witness_bytes inv ver)) as [Hi Hv]
    by (unfold witness_bytes, var_bytes; rewrite !zlen_app; note_zlen; lia).
  pose proof (zlen_nonneg inv). pose proof (zlen_nonneg ver). pose proof (zlen_nonneg rest).
  assert (heap_serves (Z.max 32 (Z.max (zlen inv) (zlen ver)))) as Hh'
    by (eapply heap_serves_mono; [done|lia]).
  split_and!.
  - apply witness_create_ok; auto.
  - apply witness_serialize_ok; [done|eapply heap_serves_mono; [exact Hh|lia]].
  - apply witness_size_exact.  unfold stream_max in Hs. lia.
  - unfold neoc_witness_deserialize.
    destruct (reader_create_ok (witness_bytes inv ver ++ rest)) as (r & -> & Hr & Hd & Hp);
      [by rewrite zlen_app|apply Hh; unfold reader_struct_size; lia
      |apply Hh; rewrite zlen_app; lia|].
    cbn [rbind]. erewrite (reads_bind _ _ (var_bytes inv) (var_bytes ver)); [done|..].
    + apply read_var_bytes_reads; [lia|apply Hh; lia].
    + eapply reads_ret_bind; [apply read_var_bytes_reads; [lia|apply Hh; lia]|].
      rewrite !pointer_len_as_pointer, witness_create_ok; auto.
    + done.
    + exists [], rest. by rewrite Hd, Hp.
  - apply witness_create_ok; auto.
Qed.

(** Untrusted witnesses: on any bytes the deserializer stays inside the buffer
    and, when it accepts, returns a witness of two scripts. *)
Theorem witness_untrusted (data : list byte) :
  heap_bounded -> zlen data < 2 ^ 63 ->
  match neoc_witness_deserialize (Some data) (zlen data) with
  | Ok w => exists inv ver, w = witness_of inv ver
  | Err _ => True
  | Fault => False
  end.
Proof.
  intros Hb Hl. unfold neoc_witness_deserialize, neoc_binary_reader_create.
  destruct (negb _); [done|]. destruct (negb _); [done|]. rewrite buf_slice_all. cbn [rbind].
  set (rd := mk_reader _ _ _ _).
  assert (reader_ok rd) as Hr.
  { pose proof (zlen_nonneg data). split; cbn; try done; lia || (left; done). }
  set (post := fun o : res neoc_witness_t * neoc_binary_reader_t =>
    match fst o with Ok w => exists inv ver, w = witness_of inv ver
                   | Err _ => True | Fault => False end).
  eapply (safe_step _ _ _ post); [by apply read_var_bytes_safe|done|done|]. intros inv r1 _ Hr1 _.
  eapply (safe_step _ _ _ post); [by apply read_var_bytes_safe|done|done|]. intros ver r2 _ Hr2 _.
  apply witness_create_pointers.
Qed.

Lemma witness_from_signature_ok signature key :
  zlen key = 33 -> zlen signature < 2 ^ 63 ->
  heap_serves (Z.max 64 (1 + zlen signature)) ->
  neoc_witness_create_from_signature (Some signature) (zlen signature) (Some key) 33
  = Ok (witness_of (Byte.x40 :: signature) (Byte.x21 :: key ++ [Byte.xac])).
Proof.
  intros Hk Hs Hh. pose proof (zlen_nonneg signature).
  assert (zlen (Byte.x21 :: key ++ [Byte.xac]) = 35) as E35
    by (rewrite zlen_cons, zlen_app, Hk; done).
  unfold neoc_witness_create_from_signature, neoc_malloc_ok.
  rewrite (wrap_small 64 (1 + zlen signature)) by lia.
  rewrite buf_slice_all. pose proof (buf_slice_all key) as Ek. rewrite Hk in Ek. rewrite Ek.
  change (wrap 64 (1 + 33 + 1)) with 35. cmps. rewrite !Hh by lia. cbn [negb].
  rewrite <- E35, <- (zlen_cons Byte.x40). apply witness_create_ok; auto.
  eapply heap_serves_mono; [done|]. rewrite zlen_cons. lia.
Qed.

(** The witness of a signature: for any signature and any compressed key the
    verification script is PUSH 33 key 0xAC, the script of the first Neo protocol;
    it is not a signature script of the current one, single or multiple, so it is
    not the script the account's hash is the hash of. *)
Theorem witness_from_signature_is_legacy `{Interop} (signature key : list byte) :
  zlen key = 33 -> zlen signature < 2 ^ 63 ->
  heap_serves (Z.max 64 (1 + zlen signature)) ->
  exists w script,
    neoc_witness_create_from_signature (Some signature) (zlen signature) (Some key) 33 = Ok w /\
    wit_invocation w = Some (Byte.x40 :: signature) /\
    wit_verification w = Some script /\ script = Byte.x21 :: key ++ [Byte.xac] /\
    neoc_verification_script_is_single_sig (vs_of script) = Ok false /\
    neoc_verification_script_is_multi_sig (vs_of script) = Ok false /\
    script <> single_sig_bytes key.
Proof.
  intros Hk Hs Hh. pose proof (zlen_nonneg signature).
  exists (witness_of (Byte.x40 :: signature) (Byte.x21 :: key ++ [Byte.xac])), (Byte.x21 :: key ++ [Byte.xac]).
  assert (zlen (Byte.x21 :: key ++ [Byte.xac]) = 35) as E35
    by (rewrite zlen_cons, zlen_app, Hk; done).
  split_and!; try done.
  - by apply witness_from_signature_ok.
  - unfold neoc_verification_script_is_single_sig, vs_of. cbn [vs_script_length]. by rewrite E35.
  - unfold neoc_verification_script_is_multi_sig, vs_of. cbn [vs_script_length]. by rewrite E35.
Qed.
End Proofs.

(** ** Samples *)

Section Samples.
#[local] Existing Instance mib_heap.
#[local] Existing Instance sample_interop.

Lemma witness_roundtrip_witness :
  exists w,
    neoc_witness_serialize (Some w) = Ok (Byte.x03 :: str "sig" ++ Byte.x00 :: []) /\
    neoc_witness_deserialize (Some (Byte.x03 :: str "sig" ++ Byte.x00 :: str "tail")) 9 = Ok w.
Proof.
  destruct (witness_roundtrip (str "sig") [] (str "tail")) as (w & _ & Es & _ & Ed & _);
    [by vm_compute|by vm_compute|apply mib_heap_serves; by vm_compute|].
  exists w. exact (conj Es Ed).
Defined.

Lemma witness_untrusted_witness :
  neoc_witness_deserialize (Some (str "witness")) 7 <> Fault.
Proof.
  pose proof (witness_untrusted (str "witness") mib_heap_bounded ltac:(by vm_compute)) as Hx.
  change (zlen (str "witness")) with 7 in Hx. intros E. rewrite E in Hx. exact Hx.
Defined.

Lemma witness_from_signature_is_legacy_witness :
  exists w, neoc_witness_create_from_signature (Some (replicate 64 Byte.x07)) 64
              (Some (replicate 33 Byte.x02)) 33 = Ok w /\
    wit_verification w = Some (Byte.x21 :: replicate 33 Byte.x02 ++ [Byte.xac]).
Proof.
  destruct (witness_from_signature_is_legacy (replicate 64 Byte.x07) (replicate 33 Byte.x02))
    as (w & script & Ew & _ & Ev & -> & _);
    [by vm_compute|by vm_compute|apply mib_heap_serves; by vm_compute|].
  exists w. exact (conj Ew Ev).
Defined.
End Samples.
