(* ===== verification/Signer.v ===== *)
(** * Signers and scopes (src/transaction/signer.c, witness_scope.c)

    A signer names an account and where its signature counts.  Its arrays are blocks
    of the heap, since a failed [neoc_signer_add_allowed_group] can leave a pointer
    to a block that was freed: reading a freed block faults.  The JSON functions of
    witness_scope.c are not modelled; witness_scope_impl.c is a copy of that file. *)

From S2P Require Import Prelude BinaryWriter BinaryReader Serializable Hashes EcKey WitnessRule.
#[local] Open Scope Z_scope.

(** ** Scopes *)

Inductive neoc_witness_scope_t : Set :=
| NEOC_WITNESS_SCOPE_NONE
| NEOC_WITNESS_SCOPE_CALLED_BY_ENTRY
| NEOC_WITNESS_SCOPE_CUSTOM_CONTRACTS
| NEOC_WITNESS_SCOPE_CUSTOM_GROUPS
| NEOC_WITNESS_SCOPE_WITNESS_RULES
| NEOC_WITNESS_SCOPE_GLOBAL.

#[global] Instance scope_eq_dec : EqDecision neoc_witness_scope_t.
Proof. solve_decision. Defined.

Definition scope_value (scope : neoc_witness_scope_t) : Z :=
  match scope with
  | NEOC_WITNESS_SCOPE_NONE => 0x00
  | NEOC_WITNESS_SCOPE_CALLED_BY_ENTRY => 0x01
  | NEOC_WITNESS_SCOPE_CUSTOM_CONTRACTS => 0x10
  | NEOC_WITNESS_SCOPE_CUSTOM_GROUPS => 0x20
  | NEOC_WITNESS_SCOPE_WITNESS_RULES => 0x40
  | NEOC_WITNESS_SCOPE_GLOBAL => 0x80
  end.

Definition neoc_witness_scope_has (combined : Z) (scope : neoc_witness_scope_t) : bool :=
  negb (Z.land combined (scope_value scope) =? 0).

Definition neoc_witness_scope_combine (scopes : option (list neoc_witness_scope_t)) : Z :=
  match scopes with
  | None => 0
  | Some scopes => fold_left (fun combined s => Z.lor combined (scope_value s)) scopes 0
  end.

Definition all_scopes : list neoc_witness_scope_t :=
  [NEOC_WITNESS_SCOPE_CALLED_BY_ENTRY; NEOC_WITNESS_SCOPE_CUSTOM_CONTRACTS;
   NEOC_WITNESS_SCOPE_CUSTOM_GROUPS; NEOC_WITNESS_SCOPE_WITNESS_RULES;
   NEOC_WITNESS_SCOPE_GLOBAL].

(** The loop over [all_scopes]; [found] are the entries of the caller's array that
    are filled so far. *)
Fixpoint extract_loop (combined max_count : Z) (todo found : list neoc_witness_scope_t)
  : res unit * list neoc_witness_scope_t :=
  match todo with
  | [] => (Ok tt, found)
  | s :: todo =>
      if negb (Z.land combined (scope_value s) =? 0) then
        if max_count <=? zlen found then (Err NEOC_ERROR_BUFFER_TOO_SMALL, found)
        else extract_loop combined max_count todo (found ++ [s])
      else extract_loop combined max_count todo found
  end.

(** The entries written; their number is [*count]. *)
Definition neoc_witness_scope_extract (combined max_count : Z)
  : res unit * list neoc_witness_scope_t :=
  if max_count =? 0 then (Err NEOC_ERROR_INVALID_ARGUMENT, [])
  else if combined =? 0 then (Ok tt, [NEOC_WITNESS_SCOPE_NONE])
  else extract_loop combined max_count all_scopes [].

(** ** Signers *)

Definition NEOC_MAX_SIGNER_SUBITEMS : Z := 16.

(** [sg_contracts] and [sg_rules] are their arrays, of [allowed_contracts_count] and
    [rules_count] entries; an entry of the latter can be NULL. *)
Record neoc_signer_t `{Curve} := mk_signer {
  sg_account : neoc_hash160_t;
  sg_scopes : Z;
  sg_contracts : list neoc_hash160_t;
  sg_groups : block (list byte);
  sg_groups_sizes : block Z;
  sg_groups_count : Z;
  sg_rules : list (option neoc_witness_rule_t)
}.

(** [sizeof] of the structs *)
Definition signer_struct_size : Z := 80.
Definition hash160_struct_size : Z := 20.

Section Operations.
Context `{Allocator} `{Curve}.

Definition has_scope (s : neoc_signer_t) (scope : neoc_witness_scope_t) : bool :=
  negb (Z.land (sg_scopes s) (scope_value scope) =? 0).

Definition neoc_signer_create (account : option neoc_hash160_t) (scopes : Z)
  : res neoc_signer_t :=
  match account with
  | None => Err NEOC_ERROR_INVALID_ARGUMENT
  | Some account =>
      if negb (malloc_ok signer_struct_size) then Err NEOC_ERROR_MEMORY
      else Ok (mk_signer _ account scopes [] Null Null 0 [])
  end.

Definition neoc_signer_create_global (account : option neoc_hash160_t) : res neoc_signer_t :=
  neoc_signer_create account (scope_value NEOC_WITNESS_SCOPE_GLOBAL).

Definition neoc_signer_create_called_by_entry (account : option neoc_hash160_t)
  : res neoc_signer_t :=
  neoc_signer_create account (scope_value NEOC_WITNESS_SCOPE_CALLED_BY_ENTRY).

Definition set_scopes (s : neoc_signer_t) (scopes : Z) : neoc_signer_t :=
  mk_signer _ (sg_account s) scopes (sg_contracts s) (sg_groups s) (sg_groups_sizes s)
    (sg_groups_count s) (sg_rules s).

Definition set_groups (s : neoc_signer_t) (groups : block (list byte)) (sizes : block Z)
    (count : Z) : neoc_signer_t :=
  mk_signer _ (sg_account s) (sg_scopes s) (sg_contracts s) groups sizes count (sg_rules s).

Definition neoc_signer_add_allowed_contract (contract : option neoc_hash160_t)
  : M neoc_signer_t unit := fun s =>
  match contract with
  | None => (Err NEOC_ERROR_INVALID_ARGUMENT, s)
  | Some contract =>
      if has_scope s NEOC_WITNESS_SCOPE_GLOBAL then (Err NEOC_ERROR_INVALID_STATE, s)
      else if NEOC_MAX_SIGNER_SUBITEMS <=? zlen (sg_contracts s)
      then (Err NEOC_ERROR_INVALID_SIZE, s)
      else
        let s := set_scopes s
          (Z.lor (sg_scopes s) (scope_value NEOC_WITNESS_SCOPE_CUSTOM_CONTRACTS)) in
        let new_count := zlen (sg_contracts s) + 1 in
        if negb (malloc_ok (new_count * hash160_struct_size))
        then (Err NEOC_ERROR_MEMORY, s)
        else
          (Ok tt, mk_signer _ (sg_account s) (sg_scopes s) (sg_contracts s ++ [contract])
                    (sg_groups s) (sg_groups_sizes s) (sg_groups_count s) (sg_rules s))
  end.

(** The signer's pointer after the new block was given back: when [realloc] moved
    the array ([moved]) both the old and the new block are gone, and the signer
    still points to the old one; a NULL pointer stays NULL. *)
Definition given_back {A} (moved : bool) (b : block A) : block A :=
  match b with
  | Live l => if moved then Freed else Live l
  | b => b
  end.

(** The two arrays are reallocated to the same size; the allocator decides by the size, so that
    the model never takes the branch in which the first succeeds and the second fails. *)
Definition neoc_signer_add_allowed_group (groups_moved sizes_moved : bool)
    (group_pubkey : option (list byte)) (pubkey_size : Z) : M neoc_signer_t unit := fun s =>
  match group_pubkey with
  | None => (Err NEOC_ERROR_INVALID_ARGUMENT, s)
  | Some group_pubkey =>
      if pubkey_size =? 0 then (Err NEOC_ERROR_INVALID_ARGUMENT, s)
      else if has_scope s NEOC_WITNESS_SCOPE_GLOBAL then (Err NEOC_ERROR_INVALID_STATE, s)
      else if NEOC_MAX_SIGNER_SUBITEMS <=? sg_groups_count s
      then (Err NEOC_ERROR_INVALID_SIZE, s)
      else
        let s := set_scopes s
          (Z.lor (sg_scopes s) (scope_value NEOC_WITNESS_SCOPE_CUSTOM_GROUPS)) in
        let new_count := sg_groups_count s + 1 in
        match block_items (sg_groups s) with
        | None => (Fault, s)
        | Some groups =>
            if negb (malloc_ok (new_count * 8)) then (Err NEOC_ERROR_MEMORY, s)
            else
              match block_items (sg_groups_sizes s) with
              | None => (Fault, s)
              | Some sizes =>
                  let back := given_back groups_moved (sg_groups s) in
                  if negb (malloc_ok (new_count * 8))
                  then (Err NEOC_ERROR_MEMORY,
                        set_groups s back (sg_groups_sizes s) (sg_groups_count s))
                  else if negb (malloc_ok pubkey_size)
                  then (Err NEOC_ERROR_MEMORY,
                        set_groups s back (given_back sizes_moved (sg_groups_sizes s))
                          (sg_groups_count s))
                  else
                    match buf_slice group_pubkey 0 pubkey_size with
                    | None => (Fault, s)
                    | Some copy =>
                        (Ok tt, set_groups s (Live (groups ++ [copy]))
                                  (Live (sizes ++ [pubkey_size])) new_count)
                    end
              end
        end
  end.

Definition neoc_signer_has_global_scope (s : option neoc_signer_t) : bool :=
  match s with Some s => has_scope s NEOC_WITNESS_SCOPE_GLOBAL | None => false end.
Definition neoc_signer_has_called_by_entry_scope (s : option neoc_signer_t) : bool :=
  match s with Some s => has_scope s NEOC_WITNESS_SCOPE_CALLED_BY_ENTRY | None => false end.
Definition neoc_signer_has_custom_contracts_scope (s : option neoc_signer_t) : bool :=
  match s with Some s => has_scope s NEOC_WITNESS_SCOPE_CUSTOM_CONTRACTS | None => false end.
Definition neoc_signer_has_custom_groups_scope (s : option neoc_signer_t) : bool :=
  match s with Some s => has_scope s NEOC_WITNESS_SCOPE_CUSTOM_GROUPS | None => false end.

Definition neoc_signer_get_size (signer : option neoc_signer_t) : res Z :=
  match signer with
  | None => Ok 0
  | Some s =>
      let contracts :=
        if has_scope s NEOC_WITNESS_SCOPE_CUSTOM_CONTRACTS
        then 1 + zlen (sg_contracts s) * hash160_struct_size else 0 in
      let? groups :=
        (if has_scope s NEOC_WITNESS_SCOPE_CUSTOM_GROUPS then
           let? sizes := block_read (sg_groups_sizes s) (sg_groups_count s) in
           Ok (1 + foldr (fun n acc => 1 + n + acc) 0 sizes)
         else Ok 0) in
      let rules := if has_scope s NEOC_WITNESS_SCOPE_WITNESS_RULES then 1 else 0 in
      Ok (wrap 64 (hash160_struct_size + 1 + contracts + groups + rules))
  end.

Fixpoint copy_groups (groups : list (list byte)) (sizes : list Z) : res (list (list byte)) :=
  match groups, sizes with
  | g :: groups, n :: sizes =>
      if negb (malloc_ok n) then Err NEOC_ERROR_MEMORY
      else
        match buf_slice g 0 n with
        | None => Fault
        | Some copy => let? rest := copy_groups groups sizes in Ok (copy :: rest)
        end
  | _, _ => Ok []
  end.

Definition copy_rule (rule : option neoc_witness_rule_t) : res (option neoc_witness_rule_t) :=
  match rule with
  | None => Ok None
  | Some _ => let? r := neoc_witness_rule_clone rule in Ok (Some r)
  end.

Definition neoc_signer_copy (source : option neoc_signer_t) : res neoc_signer_t :=
  match source with
  | None => Err NEOC_ERROR_INVALID_ARGUMENT
  | Some s =>
      if negb (malloc_ok signer_struct_size) then Err NEOC_ERROR_MEMORY
      else if (0 <? zlen (sg_contracts s)) &&
              negb (malloc_ok (zlen (sg_contracts s) * hash160_struct_size))
      then Err NEOC_ERROR_MEMORY
      else
        let? '(groups, sizes, count) :=
          (match sg_groups s with
           | Null => Ok (Null, Null, 0)
           | _ =>
               if 0 <? sg_groups_count s then
                 if negb (malloc_ok (sg_groups_count s * 8)) then Err NEOC_ERROR_MEMORY
                 else
                   let? gs := block_read (sg_groups s) (sg_groups_count s) in
                   let? ns := block_read (sg_groups_sizes s) (sg_groups_count s) in
                   let? copies := copy_groups gs ns in
                   Ok (Live copies, Live ns, sg_groups_count s)
               else Ok (Null, Null, 0)
           end) in
        if (0 <? zlen (sg_rules s)) && negb (malloc_ok (zlen (sg_rules s) * 8))
        then Err NEOC_ERROR_MEMORY
        else
          let? rules := each_res copy_rule (sg_rules s) in
          Ok (mk_signer _ (sg_account s) (sg_scopes s) (sg_contracts s) groups sizes count rules)
  end.

Definition neoc_signer_get_account (signer : option neoc_signer_t) : res neoc_hash160_t :=
  match signer with
  | None => Err NEOC_ERROR_INVALID_ARGUMENT
  | Some s => Ok (sg_account s)
  end.

Definition serialize_rule (rule : option neoc_witness_rule_t) : Wr unit :=
  match rule with
  | None => fail NEOC_ERROR_INVALID_ARGUMENT
  | Some r =>
      do! neoc_binary_writer_write_byte (neoc_witness_action_get_byte (wr_action r)) in
      neoc_witness_condition_serialize (wr_condition r)
  end.

Definition neoc_signer_serialize (signer : option neoc_signer_t) : Wr unit :=
  match signer with
  | None => fail NEOC_ERROR_INVALID_ARGUMENT
  | Some s =>
      do! neoc_binary_writer_write_bytes (Some (hash160_data (sg_account s)))
            hash160_struct_size in
      do! neoc_binary_writer_write_byte (byte_of_Z (sg_scopes s)) in
      do! (if has_scope s NEOC_WITNESS_SCOPE_CUSTOM_CONTRACTS then
             do! neoc_binary_writer_write_var_int (zlen (sg_contracts s)) in
             for_each (fun c => neoc_binary_writer_write_bytes (Some (hash160_data c))
                                  hash160_struct_size) (sg_contracts s)
           else ret tt) in
      do! (if has_scope s NEOC_WITNESS_SCOPE_CUSTOM_GROUPS then
             do! neoc_binary_writer_write_var_int (sg_groups_count s) in
             let! groups := lift (block_read (sg_groups s) (sg_groups_count s)) in
             let! sizes := lift (block_read (sg_groups_sizes s) (sg_groups_count s)) in
             for_each (fun '(g, n) => neoc_binary_writer_write_var_bytes (Some g) n)
               (zip groups sizes)
           else ret tt) in
      if has_scope s NEOC_WITNESS_SCOPE_WITNESS_RULES then
        do! neoc_binary_writer_write_var_int (zlen (sg_rules s)) in
        for_each serialize_rule (sg_rules s)
      else ret tt
  end.

End Operations.

(** ** Specification *)

(** What a signer says, as plain data. *)
Record signer_view `{Curve} := mk_view {
  v_account : neoc_hash160_t;
  v_scopes : Z;
  v_contracts : list neoc_hash160_t;
  v_groups : list (list byte);
  v_rules : list neoc_witness_rule_t
}.

Definition as_block {A} (l : list A) : block A :=
  match l with [] => Null | _ => Live l end.

Section Spec.
Context `{Curve}.

(** The signer of a view. *)
Definition signer_of (v : signer_view) : neoc_signer_t :=
  mk_signer _ (v_account v) (v_scopes v) (v_contracts v) (as_block (v_groups v))
    (as_block (map zlen (v_groups v))) (zlen (v_groups v)) (map Some (v_rules v)).

Definition bit_set (scopes : Z) (scope : neoc_witness_scope_t) : bool :=
  negb (Z.land scopes (scope_value scope) =? 0).

(** The invariant: sizes and limits, every list is announced by its scope, and a
    global signer has no lists. *)
Record view_ok (v : signer_view) : Prop := {
  view_account : hash160_ok (v_account v);
  view_scopes : 0 <= v_scopes v < 256;
  view_contracts : Forall hash160_ok (v_contracts v) /\ zlen (v_contracts v) <= 16;
  view_groups : Forall (fun g => 0 < zlen g < 2 ^ 32) (v_groups v) /\ zlen (v_groups v) <= 16;
  view_rules : Forall rule_fits (v_rules v) /\ zlen (v_rules v) < 2 ^ 32;
  view_contracts_scope :
    v_contracts v <> [] -> bit_set (v_scopes v) NEOC_WITNESS_SCOPE_CUSTOM_CONTRACTS = true;
  view_groups_scope :
    v_groups v <> [] -> bit_set (v_scopes v) NEOC_WITNESS_SCOPE_CUSTOM_GROUPS = true;
  view_rules_scope :
    v_rules v <> [] -> bit_set (v_scopes v) NEOC_WITNESS_SCOPE_WITNESS_RULES = true;
  view_global :
    bit_set (v_scopes v) NEOC_WITNESS_SCOPE_GLOBAL = true -> v_contracts v = [] /\ v_groups v = []
}.

(** A counted list on the wire. *)
Definition list_bytes {A} (enc : A -> list byte) (l : list A) : list byte :=
  var_int_bytes (zlen l) ++ concat (map enc l).

Definition if_present (present : bool) (bs : list byte) : list byte :=
  if present then bs else [].

Definition view_bytes (v : signer_view) : list byte :=
  hash160_data (v_account v) ++ [byte_of_Z (v_scopes v)] ++
  if_present (bit_set (v_scopes v) NEOC_WITNESS_SCOPE_CUSTOM_CONTRACTS)
    (list_bytes hash160_data (v_contracts v)) ++
  if_present (bit_set (v_scopes v) NEOC_WITNESS_SCOPE_CUSTOM_GROUPS)
    (list_bytes var_bytes (v_groups v)) ++
  if_present (bit_set (v_scopes v) NEOC_WITNESS_SCOPE_WITNESS_RULES)
    (list_bytes rule_bytes (v_rules v)).

(** A reader of that format: there is none in the library.  It shows that the
    format determines the signer. *)
Definition read_list {A} `{Allocator} (m : Rd A) : Rd (list A) :=
  let! n := neoc_binary_reader_read_var_int in read_n (Z.to_nat n) m.

Definition read_optional {A} (present : bool) (m : Rd (list A)) : Rd (list A) :=
  if present then m else ret [].

Definition read_rule `{Allocator} : Rd neoc_witness_rule_t :=
  let! action_byte := neoc_binary_reader_read_byte in
  let! action := lift (neoc_witness_action_from_byte action_byte) in
  let! condition := neoc_witness_condition_deserialize in
  ret (mk_rule _ action (Some condition)).

Definition read_view `{Allocator} : Rd signer_view :=
  let! account := neoc_hash160_deserialize in
  let! b := neoc_binary_reader_read_byte in
  let scopes := Z_of_byte b in
  let! contracts := read_optional (bit_set scopes NEOC_WITNESS_SCOPE_CUSTOM_CONTRACTS)
                      (read_list neoc_hash160_deserialize) in
  let! groups := read_optional (bit_set scopes NEOC_WITNESS_SCOPE_CUSTOM_GROUPS)
                   (read_list neoc_binary_reader_read_var_string) in
  let! rules := read_optional (bit_set scopes NEOC_WITNESS_SCOPE_WITNESS_RULES)
                  (read_list read_rule) in
  ret (mk_view _ account scopes contracts groups rules).

End Spec.

Section Proofs.
Context `{Allocator} `{Curve}.
Hypothesis Hcurve : curve_works.

Lemma list_writes {A} (f : A -> Wr unit) (enc : A -> list byte) l :
  Forall (fun x => writes (f x) (enc x)) l ->
  writes (do! neoc_binary_writer_write_var_int (zlen l) in for_each f l) (list_bytes enc l).
Proof.
  intros Hl. apply writes_bind; [apply write_var_int_writes|]. apply writes_for_each.
  intros x Hx. rewrite Forall_forall in Hl. apply Hl. by apply list_elem_of_In.
Qed.

Lemma if_present_writes (b : bool) m bs :
  writes m bs -> writes (if b then m else ret tt) (if_present b bs).
Proof. intros Hm. destruct b; [done|apply writes_ret]. Qed.

Lemma block_read_as_block {A} (l : list A) : block_read (as_block l) (zlen l) = Ok l.
Proof.
  unfold block_read. destruct l as [|x l]; [done|]. assert (0 < zlen (x :: l)) by zlia. cmps.
  cbn [as_block]. by rewrite buf_slice_all.
Qed.

Lemma groups_writes gs :
  writes (do! neoc_binary_writer_write_var_int (zlen gs) in
          let! groups := lift (block_read (as_block gs) (zlen gs)) in
          let! sizes := lift (block_read (as_block (map zlen gs)) (zlen gs)) in
          for_each (fun '(g, n) => neoc_binary_writer_write_var_bytes (Some g) n)
            (zip groups sizes)) (list_bytes var_bytes gs).
Proof.
  apply writes_bind; [apply write_var_int_writes|]. rewrite block_read_as_block.
  rewrite <- (zlen_map zlen gs), block_read_as_block. unfold bind, lift.
  induction gs as [|g gs IH]; cbn; [apply writes_ret|].
  apply writes_bind; [apply write_var_bytes_writes|done].
Qed.

Lemma signer_serialize_writes v :
  view_ok v -> malloc_ok 33 = true ->
  writes (neoc_signer_serialize (Some (signer_of v))) (view_bytes v).
Proof.
  intros Hv Hm. unfold neoc_signer_serialize, view_bytes, hash160_struct_size.
  apply writes_bind; [apply hash160_serialize_writes, Hv|].
  apply (writes_bind _ [_]); [apply write_byte_writes|].
  apply writes_bind; [apply if_present_writes, list_writes|apply writes_bind];
    [|apply if_present_writes, groups_writes|apply if_present_writes].
  - destruct (view_contracts v Hv) as [Hc _]. eapply Forall_impl; [done|].
    intros h Hh. by apply hash160_serialize_writes.
  - cbn [signer_of sg_rules]. unfold list_bytes. rewrite zlen_map.
    apply writes_bind; [apply write_var_int_writes|].
    destruct (view_rules v Hv) as [Hr _]. induction Hr as [|r rs Hr _ IH];
      cbn [map for_each concat]; [apply writes_ret|].
    apply writes_bind; [by apply rule_writes|done].
Qed.

(** *** The format determines the signer *)

Lemma list_reads {A} (m : Rd A) (enc : A -> list byte) l :
  zlen l < 2 ^ 64 -> Forall (fun x => reads m (enc x) x) l ->
  reads (read_list m) (list_bytes enc l) l.
Proof.
  intros Hl Hm. eapply reads_bind; [apply read_var_int_reads; zlia|].
  unfold zlen. rewrite Nat2Z.id. by apply read_n_reads.
Qed.

Lemma if_present_reads {A} (b : bool) (m : Rd (list A)) bs l :
  reads m bs l -> (l <> [] -> b = true) -> reads (read_optional b m) (if_present b bs) l.
Proof.
  intros Hm Hb. destruct b; [done|]. destruct l as [|x l]; [apply reads_ret|].
  specialize (Hb ltac:(done)). discriminate.
Qed.

Lemma read_rule_reads r :
  rule_fits r -> heap_serves 128 -> reads read_rule (rule_bytes r) r.
Proof.
  intros (c & E & Hc & Hn) Hh. unfold rule_bytes. rewrite E.
  eapply (reads_bind _ _ [_]); [apply read_byte_reads|]. rewrite action_roundtrip.
  intros rd Hr Ha. rewrite bind_lift. revert rd Hr Ha.
  apply (reads_ret_bind _ _ (condition_bytes c) c).
  - apply deserialize_internal_reads; [done|done|done|lia|lia].
  - by destruct r as [a o]; cbn in *; subst.
Qed.

Lemma read_view_reads v :
  view_ok v -> (forall n, malloc_ok n = true) -> reads read_view (view_bytes v) v.
Proof.
  intros Hv Hall. pose proof (view_scopes v Hv).
  assert (heap_serves 128) as Hh by (intros n _; apply Hall).
  eapply reads_bind; [apply hash160_deserialize_reads, Hv|].
  eapply reads_bind; [apply read_byte_reads|]. cbn beta. rewrite Z_of_byte_small by lia. cbn zeta.
  destruct (view_contracts v Hv) as [Hc Hcl]. destruct (view_groups v Hv) as [Hg Hgl].
  destruct (view_rules v Hv) as [Hr Hrl].
  eapply reads_bind; [apply if_present_reads; [apply list_reads; [lia|]|apply Hv]|].
  { eapply Forall_impl; [exact Hc|]. intros. by apply hash160_deserialize_reads. }
  eapply reads_bind; [apply if_present_reads; [apply list_reads; [lia|]|apply Hv]|].
  { eapply Forall_impl; [exact Hg|]. cbn. intros g Hl. apply read_var_string_reads; auto; lia. }
  eapply reads_ret_bind; [apply if_present_reads; [apply list_reads; [lia|]|apply Hv]|].
  { eapply Forall_impl; [exact Hr|]. intros. by apply read_rule_reads. }
  by destruct v.
Qed.
End Proofs.

(** What a reader reads back is determined by the bytes, whatever follows. *)
Lemma reads_inj {A} (m : Rd A) (a1 a2 : A) b1 b2 rest1 rest2 :
  reads m b1 a1 -> reads m b2 a2 -> zlen (b1 ++ rest1) < 2 ^ 63 ->
  b1 ++ rest1 = b2 ++ rest2 -> a1 = a2.
Proof.
  intros H1 H2 Hl E. set (r := mk_reader (b1 ++ rest1) (zlen (b1 ++ rest1)) 0 SIZE_MAX).
  assert (reader_ok r) as Hr by
    (pose proof (zlen_nonneg (b1 ++ rest1)); split; cbn; try done; lia || (left; done)).
  assert (m r = (Ok a1, moved r (zlen b1))) as E1 by (apply H1; [done|]; by exists [], rest1).
  assert (m r = (Ok a2, moved r (zlen b2))) as E2
    by (apply H2; [done|]; exists [], rest2; cbn; by rewrite E).
  congruence.
Qed.

Lemma list_bytes_bound {A} (enc : A -> list byte) (l : list A) m n :
  Forall (fun x => zlen (enc x) <= m) l -> zlen l <= n -> 0 <= m -> n < 2 ^ 32 ->
  zlen (list_bytes enc l) <= 5 + m * n.
Proof.
  intros Hl Hn Hm Hb. unfold list_bytes. rewrite zlen_app.
  rewrite var_int_bytes_size by apply zlen_nonneg.
  pose proof (zlen_concat_bound enc m l Hl). pose proof (zlen_nonneg l).
  assert (m * zlen l <= m * n) by nia.
  repeat match goal with |- context [if ?b then _ else _] => destruct b eqn:?; bdestruct end; lia.
Qed.

Lemma if_present_bound b bs n : zlen bs <= n -> 0 <= n -> zlen (if_present b bs) <= n.
Proof. intros. by destruct b. Qed.

Lemma var_bytes_bound bs : zlen bs < 2 ^ 32 -> zlen (var_bytes bs) <= 5 + zlen bs.
Proof.
  intros Hl. unfold var_bytes. rewrite zlen_app, var_int_bytes_size by apply zlen_nonneg.
  repeat match goal with |- context [if ?b then _ else _] => destruct b eqn:?; bdestruct end; lia.
Qed.

Lemma view_bytes_bound `{Curve} (Hcurve : curve_works) v :
  view_ok v -> zlen (view_bytes v) < 2 ^ 63.
Proof.
  intros Hv. unfold view_bytes. rewrite !zlen_app.
  pose proof (view_account v Hv) as Ha. unfold hash160_ok, NEOC_HASH160_SIZE in Ha.
  destruct (view_contracts v Hv) as [Hc Hcl]. destruct (view_groups v Hv) as [Hg Hgl].
  destruct (view_rules v Hv) as [Hr Hrl].
  assert (zlen (list_bytes hash160_data (v_contracts v)) <= 5 + 20 * 16) as B1.
  { apply list_bytes_bound; [|lia..]. eapply Forall_impl; [exact Hc|].
    unfold hash160_ok, NEOC_HASH160_SIZE. cbn. lia. }
  assert (zlen (list_bytes var_bytes (v_groups v)) <= 5 + (5 + 2 ^ 32) * 16) as B2.
  { apply list_bytes_bound; [|lia..]. eapply Forall_impl; [exact Hg|]. cbv beta. intros g Hl.
    pose proof (var_bytes_bound g). lia. }
  assert (zlen (list_bytes rule_bytes (v_rules v)) <= 5 + 8739 * (2 ^ 32 - 1)) as B3.
  { apply list_bytes_bound; [|lia..]. eapply Forall_impl; [exact Hr|].
    intros r Hf. by apply rule_bytes_bound. }
  change (zlen [byte_of_Z (v_scopes v)]) with 1.
  pose proof (if_present_bound (bit_set (v_scopes v) NEOC_WITNESS_SCOPE_CUSTOM_CONTRACTS) _ _ B1 ltac:(lia)).
  pose proof (if_present_bound (bit_set (v_scopes v) NEOC_WITNESS_SCOPE_CUSTOM_GROUPS) _ _ B2 ltac:(lia)).
  pose proof (if_present_bound (bit_set (v_scopes v) NEOC_WITNESS_SCOPE_WITNESS_RULES) _ _ B3 ltac:(lia)).
  lia.
Qed.

(** The format determines the signer. *)
Lemma view_bytes_inj `{Curve} (Hcurve : curve_works) v1 v2 rest1 rest2 :
  view_ok v1 -> view_ok v2 -> zlen (view_bytes v1 ++ rest1) < 2 ^ 63 ->
  view_bytes v1 ++ rest1 = view_bytes v2 ++ rest2 -> v1 = v2.
Proof.
  intros H1 H2 Hl E.
  pose (Hall := (fun _ => true) : Allocator).
  eapply (reads_inj (read_view (H0 := Hall))); [..|exact Hl|exact E];
    by apply (read_view_reads (H := Hall)).
Qed.

(** *** Scopes *)

Lemma extract_loop_spec combined max_count todo found :
  zlen found + zlen todo <= max_count ->
  extract_loop combined max_count todo found =
  (Ok tt, found ++ List.filter (neoc_witness_scope_has combined) todo).
Proof.
  revert found. induction todo as [|s todo IH]; intros found Hl; cbn [extract_loop List.filter].
  { by rewrite app_nil_r. }
  rewrite zlen_cons in Hl. pose proof (zlen_nonneg todo).
  unfold neoc_witness_scope_has at 1. destruct (negb _); [|apply IH; lia].
  cmps. rewrite IH by (rewrite zlen_app, zlen_cons, zlen_nil; lia).
  by rewrite <- app_assoc.
Qed.

(** [f] holds of every byte. *)
Lemma for_all_bytes (f : Z -> bool) :
  forallb (fun n => f (Z.of_nat n)) (seq 0 256) = true -> forall c, 0 <= c < 256 -> f c = true.
Proof.
  intros Hf c Hc. rewrite forallb_forall in Hf. specialize (Hf (Z.to_nat c)).
  rewrite Z2Nat.id in Hf by lia. apply Hf, in_seq. lia.
Qed.

(** Scopes round trip: an array of five entries always suffices to extract the
    scopes of a byte; what is extracted are the scopes the byte has, and combining
    them gives the byte back without its undefined bits. *)
Theorem scope_roundtrip (combined max_count : Z) :
  0 <= combined < 256 -> 5 <= max_count ->
  exists scopes,
    neoc_witness_scope_extract combined max_count = (Ok tt, scopes) /\
    zlen scopes <= 5 /\
    neoc_witness_scope_combine (Some scopes) = Z.land combined 0xF1 /\
    (forall s, s <> NEOC_WITNESS_SCOPE_NONE ->
       s ∈ scopes <-> neoc_witness_scope_has combined s = true).
Proof.
  intros Hc Hm. unfold neoc_witness_scope_extract. cmp_false (max_count =? 0).
  destruct (combined =? 0) eqn:E; bdestruct.
  { subst. exists [NEOC_WITNESS_SCOPE_NONE]. split_and!; [done|by vm_compute|done|].
    intros s Hs. rewrite list_elem_of_singleton. by destruct s. }
  rewrite extract_loop_spec by done. eexists. split; [done|]. cbn [app]. split_and!.
  - pose proof (filter_length_le (neoc_witness_scope_has combined) all_scopes).
    unfold zlen. cbn [all_scopes length] in *. lia.
  - apply Z.eqb_eq. revert combined Hc E. intros c Hc _. revert c Hc. apply for_all_bytes. by vm_compute.
  - intros s Hs. rewrite list_elem_of_In, filter_In. split; [by intros [_ ?]|].
    intros Hh. split; [|done]. by destruct s; cbn; auto 6.
Qed.

Lemma scope_roundtrip_witness :
  neoc_witness_scope_extract 0x31 5 =
    (Ok tt, [NEOC_WITNESS_SCOPE_CALLED_BY_ENTRY; NEOC_WITNESS_SCOPE_CUSTOM_CONTRACTS;
             NEOC_WITNESS_SCOPE_CUSTOM_GROUPS]) /\
  exists scopes, neoc_witness_scope_extract 0x31 5 = (Ok tt, scopes) /\
    neoc_witness_scope_combine (Some scopes) = 0x31.
Proof.
  split; [reflexivity|].
  destruct (scope_roundtrip 0x31 5) as (l & El & _ & Ec & _); [lia|lia|].
  exists l. exact (conj El Ec).
Defined.

(** *** Histories of a signer *)

(** A call that extends a signer; the flags tell whether [realloc] moves the arrays. *)
Inductive signer_op : Type :=
| AddContract (contract : neoc_hash160_t)
| AddGroup (groups_moved sizes_moved : bool) (key : list byte).

Definition exec_signer_op `{Allocator} `{Curve} (op : signer_op) : M neoc_signer_t unit :=
  match op with
  | AddContract c => neoc_signer_add_allowed_contract (Some c)
  | AddGroup gm sm key => neoc_signer_add_allowed_group gm sm (Some key) (zlen key)
  end.

(** The signer after all calls, whether they succeed or not. *)
Definition signer_after `{Allocator} `{Curve} (ops : list signer_op) (s : neoc_signer_t)
  : neoc_signer_t := fold_left (fun s op => snd (exec_signer_op op s)) ops s.

Definition op_fits (n : Z) (op : signer_op) : Prop :=
  match op with
  | AddContract c => hash160_ok c
  | AddGroup _ _ key => 0 < zlen key <= n
  end.

Definition requested_contracts (ops : list signer_op) : list neoc_hash160_t :=
  omap (fun op => match op with AddContract c => Some c | _ => None end) ops.

Definition requested_groups (ops : list signer_op) : list (list byte) :=
  omap (fun op => match op with AddGroup _ _ key => Some key | _ => None end) ops.

(** What one call does to the view. *)
Definition view_step `{Curve} (v : signer_view) (op : signer_op) : signer_view :=
  if bit_set (v_scopes v) NEOC_WITNESS_SCOPE_GLOBAL then v
  else
    match op with
    | AddContract c =>
        if 16 <=? zlen (v_contracts v) then v
        else mk_view _ (v_account v) (Z.lor (v_scopes v) 0x10) (v_contracts v ++ [c])
               (v_groups v) (v_rules v)
    | AddGroup _ _ key =>
        if 16 <=? zlen (v_groups v) then v
        else mk_view _ (v_account v) (Z.lor (v_scopes v) 0x20) (v_contracts v)
               (v_groups v ++ [key]) (v_rules v)
    end.

Section Histories.
Context `{Allocator} `{Curve}.

Lemma as_block_snoc {A} (l : list A) x : Live (l ++ [x]) = as_block (l ++ [x]).
Proof. by destruct l. Qed.

Lemma block_items_as_block {A} (l : list A) : block_items (as_block l) = Some l.
Proof. by destruct l. Qed.

(** With enough heap a call does to the signer what [view_step] does to its view. *)
Lemma exec_signer_op_view v op n :
  op_fits n op -> heap_serves (Z.max 320 n) ->
  zlen (v_contracts v) <= 16 -> zlen (v_groups v) <= 16 ->
  snd (exec_signer_op op (signer_of v)) = signer_of (view_step v op).
Proof.
  intros Hop Hh Hc Hg. pose proof (zlen_nonneg (v_contracts v)). pose proof (zlen_nonneg (v_groups v)).
  unfold view_step, bit_set. destruct op as [c|gm sm key]; cbn [exec_signer_op].
  - unfold neoc_signer_add_allowed_contract, has_scope, NEOC_MAX_SIGNER_SUBITEMS.
    cbn [signer_of sg_scopes sg_contracts set_scopes].
    destruct (negb _); [done|]. destruct (16 <=? _) eqn:E; bdestruct; [done|].
    unfold hash160_struct_size. by rewrite Hh by lia.
  - unfold neoc_signer_add_allowed_group, has_scope, NEOC_MAX_SIGNER_SUBITEMS.
    cbn [op_fits] in Hop. cmp_false (zlen key =? 0).
    cbn [signer_of sg_scopes sg_groups sg_groups_sizes sg_groups_count set_scopes].
    destruct (negb _); [done|]. destruct (16 <=? _) eqn:E; bdestruct; [done|].
    rewrite !block_items_as_block, !Hh, buf_slice_all by lia. cbn [negb snd].
    unfold set_groups, signer_of. cbn. rewrite !as_block_snoc, map_app, zlen_app. done.
Qed.

Lemma bit_set_lor scopes m scope :
  bit_set scopes scope = true -> bit_set (Z.lor scopes m) scope = true.
Proof.
  unfold bit_set. rewrite !negb_true_iff, !Z.eqb_neq, Z.land_lor_distr_l. intros Hs E.
  apply Z.lor_eq_0_iff in E as [? _]. done.
Qed.

(** No call makes a signer global. *)
Lemma bit_set_global scopes m :
  0 <= scopes -> m = 0x10 \/ m = 0x20 ->
  bit_set (Z.lor scopes m) NEOC_WITNESS_SCOPE_GLOBAL = bit_set scopes NEOC_WITNESS_SCOPE_GLOBAL.
Proof.
  intros Hs Hm. unfold bit_set. rewrite Z.land_lor_distr_l.
  destruct Hm as [-> | ->]; cbn [scope_value]; by rewrite Z.lor_0_r.
Qed.

Lemma scopes_lor_range scopes m : 0 <= scopes < 256 -> 0 <= m < 256 -> 0 <= Z.lor scopes m < 256.
Proof.
  intros Hs Hm. split; [apply Z.lor_nonneg; lia|].
  destruct (Z.eq_dec (Z.lor scopes m) 0) as [->|Hn]; [lia|].
  apply (Z.log2_lt_pow2 _ 8); [pose proof (Z.lor_nonneg scopes m); lia|].
  rewrite Z.log2_lor by lia. apply Z.max_lub_lt.
  - destruct (Z.eq_dec scopes 0) as [->|]; [done|]. apply Z.log2_lt_pow2; lia.
  - destruct (Z.eq_dec m 0) as [->|]; [done|]. apply Z.log2_lt_pow2; lia.
Qed.

Lemma view_step_ok v op n :
  view_ok v -> op_fits n op -> n < 2 ^ 32 -> view_ok (view_step v op).
Proof.
  intros Hv Hop Hn. unfold view_step. destruct (bit_set _ _) eqn:Eg; [done|].
  pose proof Hv as [Ha Hs [Hc1 Hc2] [Hg1 Hg2] Hr Hc Hg Hru _].
  destruct op as [c|gm sm key]; cbn [op_fits] in Hop; destruct (16 <=? _) eqn:E; bdestruct;
    [exact Hv| |exact Hv|];
    (split; cbn; try done; [apply scopes_lor_range; lia|..]).
  all: try (split; [|rewrite (zlen_app _ [_]), (zlen_cons _ []); change (zlen []) with 0; lia];
            apply Forall_app; split; [done|]; constructor; [cbv beta; done || lia|constructor]).
  all: try (intros _; unfold bit_set; rewrite Z.land_lor_distr_l;
            rewrite negb_true_iff, Z.eqb_neq; intros Hx; apply Z.lor_eq_0_iff in Hx; by destruct Hx).
  all: try (intros; by apply bit_set_lor; auto).
  all: rewrite bit_set_global; [by rewrite Eg|lia|by auto].
Qed.

Lemma take_snoc_full {A} (n : nat) (l : list A) x rest :
  take n (if (n <=? length l)%nat then l ++ rest else (l ++ [x]) ++ rest) = take n (l ++ x :: rest).
Proof.
  destruct (Nat.leb_spec n (length l)).
  - rewrite !take_app_le by done. done.
  - by rewrite <- app_assoc.
Qed.

Lemma view_step_contracts v op rest :
  bit_set (v_scopes v) NEOC_WITNESS_SCOPE_GLOBAL = false ->
  take 16 (v_contracts (view_step v op) ++ rest) =
  take 16 (v_contracts v ++ requested_contracts [op] ++ rest).
Proof.
  intros Eg. unfold view_step. rewrite Eg.
  destruct op as [c|gm sm key]; cbn [requested_contracts omap list_omap app].
  - rewrite <- (take_snoc_full 16 _ c rest).
    destruct (16 <=? zlen _) eqn:E; bdestruct; unfold zlen in E.
    + by rewrite (proj2 (Nat.leb_le _ _)) by lia.
    + by rewrite (proj2 (Nat.leb_gt _ _)) by lia.
  - by destruct (16 <=? _).
Qed.

Lemma view_step_groups v op rest :
  bit_set (v_scopes v) NEOC_WITNESS_SCOPE_GLOBAL = false ->
  take 16 (v_groups (view_step v op) ++ rest) =
  take 16 (v_groups v ++ requested_groups [op] ++ rest).
Proof.
  intros Eg. unfold view_step. rewrite Eg.
  destruct op as [c|gm sm key]; cbn [requested_groups omap list_omap app].
  - by destruct (16 <=? _).
  - rewrite <- (take_snoc_full 16 _ key rest).
    destruct (16 <=? zlen _) eqn:E; bdestruct; unfold zlen in E.
    + by rewrite (proj2 (Nat.leb_le _ _)) by lia.
    + by rewrite (proj2 (Nat.leb_gt _ _)) by lia.
Qed.

Lemma view_step_keeps v op :
  view_ok v ->
  v_account (view_step v op) = v_account v /\ v_rules (view_step v op) = v_rules v /\
  bit_set (v_scopes (view_step v op)) NEOC_WITNESS_SCOPE_GLOBAL =
  bit_set (v_scopes v) NEOC_WITNESS_SCOPE_GLOBAL.
Proof.
  intros Hv. pose proof (view_scopes v Hv). unfold view_step.
  destruct (bit_set _ _) eqn:Eg; [done|].
  destruct op; destruct (16 <=? _); split_and!; cbn; try done;
    (rewrite bit_set_global; [done|lia|auto]).
Qed.

Lemma requested_contracts_cons op ops :
  requested_contracts (op :: ops) = requested_contracts [op] ++ requested_contracts ops.
Proof. by destruct op. Qed.

Lemma requested_groups_cons op ops :
  requested_groups (op :: ops) = requested_groups [op] ++ requested_groups ops.
Proof. by destruct op. Qed.

Lemma signer_after_view ops v n :
  view_ok v -> Forall (op_fits n) ops -> n < 2 ^ 32 -> heap_serves (Z.max 320 n) ->
  exists v', signer_after ops (signer_of v) = signer_of v' /\ view_ok v' /\
    v_account v' = v_account v /\ v_rules v' = v_rules v /\
    bit_set (v_scopes v') NEOC_WITNESS_SCOPE_GLOBAL =
    bit_set (v_scopes v) NEOC_WITNESS_SCOPE_GLOBAL /\
    (bit_set (v_scopes v) NEOC_WITNESS_SCOPE_GLOBAL = false ->
     v_contracts v' = take 16 (v_contracts v ++ requested_contracts ops) /\
     v_groups v' = take 16 (v_groups v ++ requested_groups ops)).
Proof.
  intros Hv Hops Hn Hh. revert v Hv. induction Hops as [|op ops Hop _ IH]; intros v Hv.
  - exists v. split_and!; try done. intros _. cbn. rewrite !app_nil_r.
    destruct (view_contracts v Hv) as [_ Hc]. destruct (view_groups v Hv) as [_ Hg].
    unfold zlen in *. rewrite !take_ge by lia. done.
  - unfold signer_after. cbn [fold_left]. fold (signer_after ops).
    destruct (view_contracts v Hv) as [_ Hc]. destruct (view_groups v Hv) as [_ Hg].
    erewrite exec_signer_op_view by done.
    destruct (IH (view_step v op)) as (v' & E & Hv' & Ea & Er & Eg' & Hl); [by eapply view_step_ok|].
    destruct (view_step_keeps v op Hv) as (Ka & Kr & Kg).
    exists v'. split_and!; [done|done|congruence..|]. intros Eg.
    rewrite Kg in Hl. destruct (Hl Eg) as [-> ->].
    by rewrite view_step_contracts, view_step_groups, <- requested_contracts_cons,
      <- requested_groups_cons.
Qed.
End Histories.

Section Claims.
Context `{Allocator} `{Curve}.
Hypothesis Hcurve : curve_works.

(** C8.  The history of a signer: after any sequence of calls that add contracts and
    groups, in any order, whether they succeed or are refused, a signer that was not
    created global allows exactly the first 16 contracts and the first 16 groups
    asked for, and a global one allows none; its account is the one it was created
    with, every list it has is announced in its scopes, and it serializes to the
    encoding of those data, from which they can be read back. *)
Theorem signer_history (account : neoc_hash160_t) (scopes n : Z) (ops : list signer_op) :
  hash160_ok account -> 0 <= scopes < 256 -> Forall (op_fits n) ops -> n < 2 ^ 32 ->
  heap_serves (Z.max 320 n) ->
  exists s v,
    neoc_signer_create (Some account) scopes = Ok s /\
    signer_after ops s = signer_of v /\ view_ok v /\
    v_account v = account /\
    (if bit_set scopes NEOC_WITNESS_SCOPE_GLOBAL
     then v_contracts v = [] /\ v_groups v = []
     else v_contracts v = take 16 (requested_contracts ops) /\
          v_groups v = take 16 (requested_groups ops)) /\
    writes (neoc_signer_serialize (Some (signer_of v))) (view_bytes v) /\
    (forall v', view_ok v' -> view_bytes v' = view_bytes v -> v' = v).
Proof.
  intros Ha Hs Hops Hn Hh. set (v0 := mk_view _ account scopes [] [] []).
  assert (view_ok v0) as H0v by (by split).
  destruct (signer_after_view ops v0 n H0v Hops Hn Hh) as (v & E & Hv & Ea & Er & Eg & Hl).
  exists (signer_of v0), v. split_and!; try done.
  - unfold neoc_signer_create, signer_struct_size. by rewrite Hh by lia.
  - destruct (bit_set scopes _) eqn:Es; [apply (view_global v Hv); by rewrite Eg|].
    by destruct (Hl Es) as [-> ->].
  - apply signer_serialize_writes; [done..|]. apply Hh. lia.
  - intros v' Hv' Eb. eapply (view_bytes_inj Hcurve v' v [] []); [done|done| |by rewrite !app_nil_r].
    rewrite app_nil_r. by apply view_bytes_bound.
Qed.

(** The sizes a loop adds up for the groups. *)
Lemma groups_size gs :
  Forall (fun g => zlen g < 0xFD) gs ->
  foldr (fun n acc => 1 + n + acc) 0 (map zlen gs) = zlen (concat (map var_bytes gs)).
Proof.
  induction 1 as [|g gs Hg _ IH]; cbn [map foldr concat]; [done|].
  unfold var_bytes at 1. rewrite !zlen_app, IH, var_int_bytes_size by apply zlen_nonneg.
  cmps. lia.
Qed.

Lemma list_bytes_size {A} (enc : A -> list byte) l :
  zlen l < 0xFD -> zlen (list_bytes enc l) = 1 + zlen (concat (map enc l)).
Proof.
  intros Hl. unfold list_bytes. rewrite zlen_app, var_int_bytes_size by apply zlen_nonneg.
  by cmps.
Qed.

Lemma contracts_size (l : list neoc_hash160_t) :
  Forall hash160_ok l -> zlen (concat (map hash160_data l)) = zlen l * 20.
Proof.
  induction 1 as [|h l Hh _ IH]; [done|]. cbn [map concat]. rewrite zlen_app, zlen_cons, IH.
  unfold hash160_ok, NEOC_HASH160_SIZE in Hh. lia.
Qed.

Lemma signer_size_exact v :
  view_ok v -> Forall (fun g => zlen g < 0xFD) (v_groups v) -> zlen (v_rules v) < 0xFD ->
  neoc_signer_get_size (Some (signer_of v)) =
  Ok (zlen (view_bytes v) - zlen (concat (map rule_bytes (v_rules v)))).
Proof.
  intros Hv Hg Hr. pose proof (view_bytes_bound Hcurve v Hv) as Hb.
  destruct (view_contracts v Hv) as [Hc Hcl]. destruct (view_groups v Hv) as [_ Hgl].
  pose proof (view_account v Hv) as Ha. unfold hash160_ok, NEOC_HASH160_SIZE in Ha.
  pose proof (zlen_nonneg (concat (map rule_bytes (v_rules v)))) as Hrn.
  assert (bit_set (v_scopes v) NEOC_WITNESS_SCOPE_WITNESS_RULES = false ->
          zlen (concat (map rule_bytes (v_rules v))) = 0) as Hrs.
  { intros E. pose proof (view_rules_scope v Hv) as Hx. rewrite E in Hx.
    destruct (v_rules v); [done|]. by specialize (Hx ltac:(done)). }
  unfold neoc_signer_get_size, has_scope.
  cbn [signer_of sg_scopes sg_contracts sg_groups_sizes sg_groups_count].
  change (negb (Z.land ?s (scope_value ?x) =? 0)) with (bit_set s x).
  rewrite <- (zlen_map zlen (v_groups v)), block_read_as_block. cbn [rbind]. rewrite groups_size by done.
  revert Hb. unfold view_bytes. rewrite !zlen_app. change (zlen [_]) with 1. rewrite Ha.
  unfold hash160_struct_size.
  destruct (bit_set _ NEOC_WITNESS_SCOPE_CUSTOM_CONTRACTS),
    (bit_set _ NEOC_WITNESS_SCOPE_CUSTOM_GROUPS),
    (bit_set _ NEOC_WITNESS_SCOPE_WITNESS_RULES); cbn [if_present rbind];
    rewrite ?list_bytes_size, ?contracts_size by (done || lia); change (@zlen byte []) with 0;
    intros Hb; f_equal; try specialize (Hrs eq_refl); rewrite wrap_small; note_zlen; lia.
Qed.

(** The reported size: for a signer with keys of fewer than 253 bytes
    [get_size] is the length of what [serialize] writes, less the bytes of the
    witness rules, which it does not count; so it is exact when there are none. *)
Theorem signer_size_omits_rules (v : signer_view) (capacity : Z) :
  view_ok v -> Forall (fun g => zlen g < 0xFD) (v_groups v) -> zlen (v_rules v) < 0xFD ->
  capacity <= 1024 -> zlen (view_bytes v) <= stream_max ->
  heap_serves (Z.max 1024 (2 * zlen (view_bytes v))) ->
  exists data n,
    serialize_with capacity (neoc_signer_serialize (Some (signer_of v))) = Ok data /\
    neoc_signer_get_size (Some (signer_of v)) = Ok n /\
    zlen data = n + zlen (concat (map rule_bytes (v_rules v))) /\
    (v_rules v = [] <-> n = zlen data).
Proof.
  intros Hv Hg Hr Hc Hs Hh. exists (view_bytes v). eexists. split_and!.
  - apply serialize_with_ok; [|lia|done|done]. apply signer_serialize_writes; [done..|apply Hh; lia].
  - by apply signer_size_exact.
  - lia.
  - split; [intros ->; cbn [map concat]; change (@zlen byte []) with 0; lia|].
    destruct (v_rules v) as [|r rs]; [done|]. cbn [map concat]. rewrite zlen_app.
    pose proof (rule_bytes_pos r). note_zlen. lia.
Qed.

(** A failed extension leaves a dangling pointer: when a signer that already has
    a group cannot get memory for the key of another one, and [realloc] has moved its
    arrays, the call reports the error, but the signer keeps a pointer to freed
    memory: asking for its size or extending it again is undefined. *)
Theorem signer_group_failure_dangles (v : signer_view) (key next : list byte) (gm gm' sm' : bool) :
  view_ok v -> v_groups v <> [] -> zlen (v_groups v) < 16 ->
  bit_set (v_scopes v) NEOC_WITNESS_SCOPE_GLOBAL = false ->
  key <> [] -> next <> [] -> heap_serves 128 -> malloc_ok (zlen key) = false ->
  exists s,
    neoc_signer_add_allowed_group gm true (Some key) (zlen key) (signer_of v)
    = (Err NEOC_ERROR_MEMORY, s) /\
    neoc_signer_get_size (Some s) = Fault /\
    fst (neoc_signer_add_allowed_group gm' sm' (Some next) (zlen next) s) = Fault.
Proof.
  intros Hv Hne Hl Hg Hk Hk' Hh Hm. pose proof (zlen_pos _ Hne). pose proof (zlen_pos _ Hk).
  pose proof (zlen_pos _ Hk'). pose proof (view_scopes v Hv).
  unfold neoc_signer_add_allowed_group at 1. cmp_false (zlen key =? 0).
  unfold has_scope, NEOC_MAX_SIGNER_SUBITEMS.
  cbn [signer_of sg_scopes sg_groups sg_groups_sizes sg_groups_count set_scopes].
  change (negb (Z.land ?s (scope_value ?x) =? 0)) with (bit_set s x). rewrite Hg. cmps.
  rewrite !block_items_as_block, Hh, Hm by lia. cbn [negb]. eexists. split; [done|].
  assert (as_block (map zlen (v_groups v)) = Live (map zlen (v_groups v))) as Es
    by (by destruct (v_groups v)).
  assert (bit_set (Z.lor (v_scopes v) 32) NEOC_WITNESS_SCOPE_CUSTOM_GROUPS = true) as Eb.
  { unfold bit_set. rewrite Z.land_lor_distr_l, negb_true_iff, Z.eqb_neq. intros Hx.
    apply Z.lor_eq_0_iff in Hx. by destruct Hx. }
  unfold set_groups. cbn [sg_account sg_scopes sg_contracts sg_rules]. rewrite Es. cbn [given_back].
  split.
  - unfold neoc_signer_get_size, has_scope. cbn [sg_scopes sg_contracts sg_groups_sizes sg_groups_count].
    change (negb (Z.land ?s (scope_value ?x) =? 0)) with (bit_set s x).
    cbn [set_scopes sg_scopes scope_value]. rewrite Eb. unfold block_read. by cmps.
  - unfold neoc_signer_add_allowed_group. cmp_false (zlen next =? 0).
    unfold has_scope, NEOC_MAX_SIGNER_SUBITEMS.
    cbn [sg_scopes sg_groups sg_groups_sizes sg_groups_count set_scopes].
    change (negb (Z.land ?s (scope_value ?x) =? 0)) with (bit_set s x).
    cbn [set_scopes sg_scopes scope_value].
    rewrite bit_set_global, Hg by (lia || auto). cmps.
    destruct (block_items _); [|done]. by rewrite Hh by lia.
Qed.
End Claims.

(** ** Copies *)

Section Copies.
Context `{Allocator} `{Curve}.
Hypothesis Hcurve : curve_works.

Lemma zlen_concat_elem {A} (enc : A -> list byte) l x :
  x ∈ l -> zlen (enc x) <= zlen (concat (map enc l)).
Proof.
  induction 1 as [x l|x y l _ IH]; cbn [map concat]; rewrite zlen_app; note_zlen; lia.
Qed.

Lemma zlen_concat_count {A} (enc : A -> list byte) l :
  Forall (fun x => 1 <= zlen (enc x)) l -> zlen l <= zlen (concat (map enc l)).
Proof.
  induction 1 as [|x l Hx _ IH]; [done|]. cbn [map concat]. rewrite zlen_app, zlen_cons. lia.
Qed.

Lemma list_bytes_fits {A} (enc : A -> list byte) l b n :
  (l <> [] -> b = true) -> zlen (if_present b (list_bytes enc l)) <= n -> 0 <= n ->
  zlen (concat (map enc l)) <= n.
Proof.
  intros Hb Hn H0n. destruct l as [|x l]; [done|]. rewrite Hb in Hn by done.
  cbn [if_present] in Hn. unfold list_bytes in Hn. rewrite zlen_app in Hn. note_zlen. lia.
Qed.

Lemma view_rules_fit v :
  view_ok v -> zlen (concat (map rule_bytes (v_rules v))) <= zlen (view_bytes v).
Proof.
  intros Hv. eapply list_bytes_fits; [apply Hv| |apply zlen_nonneg].
  unfold view_bytes. rewrite !zlen_app. note_zlen. lia.
Qed.

Lemma copy_groups_same gs n :
  Forall (fun g => zlen g <= n) gs -> heap_serves n -> copy_groups gs (map zlen gs) = Ok gs.
Proof.
  intros Hg Hh. induction Hg as [|g gs Hg _ IH]; cbn [map copy_groups]; [done|].
  rewrite Hh by (pose proof (zlen_nonneg g); lia). cbn [negb]. by rewrite buf_slice_all, IH.
Qed.

Lemma rule_clone_same r :
  rule_ok r -> heap_serves 128 -> neoc_witness_rule_clone (Some r) = Ok r.
Proof.
  intros (c & E & Hc) Hh. cbn [neoc_witness_rule_clone]. rewrite E.
  unfold alloc_rule, rule_struct_size. rewrite Hh by lia. cbn [negb neoc_witness_condition_clone].
  rewrite clone_internal_same by done. cbn [rbind]. destruct r; cbn in *. by subst.
Qed.

Lemma copy_rules_same rules :
  Forall rule_fits rules -> heap_serves 128 ->
  each_res copy_rule (map Some rules) = Ok (map Some rules).
Proof.
  intros Hr Hh. apply each_res_same, Forall_fmap. eapply Forall_impl; [exact Hr|].
  intros r Hf. cbn [compose copy_rule]. by rewrite rule_clone_same by (done || by apply rule_fits_ok).
Qed.

(** A copy of a signer says the same. *)
Lemma signer_copy_same v :
  view_ok v -> heap_serves (Z.max 1024 (8 * zlen (view_bytes v))) ->
  neoc_signer_copy (Some (signer_of v)) = Ok (signer_of v).
Proof.
  intros Hv Hh. pose proof (zlen_nonneg (view_bytes v)) as Hn.
  destruct (view_contracts v Hv) as [_ Hcl]. destruct (view_groups v Hv) as [_ Hgl].
  destruct (view_rules v Hv) as [Hr _].
  assert (zlen (concat (map var_bytes (v_groups v))) <= zlen (view_bytes v)) as Bg.
  { eapply list_bytes_fits; [apply Hv| |done]. unfold view_bytes. rewrite !zlen_app. note_zlen. lia. }
  pose proof (view_rules_fit v Hv) as Br.
  assert (zlen (v_rules v) <= zlen (concat (map rule_bytes (v_rules v)))) as Bc.
  { apply zlen_concat_count, Forall_forall. intros r _. pose proof (rule_bytes_pos r). lia. }
  pose proof (zlen_nonneg (v_contracts v)). pose proof (zlen_nonneg (v_groups v)).
  pose proof (zlen_nonneg (v_rules v)).
  unfold neoc_signer_copy, signer_struct_size, hash160_struct_size. rewrite (Hh 80) by lia.
  cbn [negb signer_of sg_contracts sg_groups sg_groups_sizes sg_groups_count sg_rules sg_account sg_scopes].
  rewrite (Hh (zlen (v_contracts v) * 20)) by lia. cbn [negb]. rewrite andb_false_r.
  rewrite zlen_map, (Hh (zlen (v_rules v) * 8)) by lia. cbn [negb]. rewrite andb_false_r.
  rewrite copy_rules_same; [|done|eapply heap_serves_mono; [exact Hh|lia]].
  destruct (v_groups v) as [|g gs] eqn:Eg; cbn [as_block map].
  { cbn [rbind]. unfold signer_of. by rewrite Eg. }
  assert (0 < zlen (g :: gs)) by zlia. cmps. rewrite (Hh (zlen (g :: gs) * 8)) by lia. cbn [negb].
  change (Live (g :: gs)) with (as_block (g :: gs)). rewrite block_read_as_block. cbn [rbind].
  change (Live (zlen g :: map zlen gs)) with (as_block (map zlen (g :: gs))).
  rewrite <- (zlen_map zlen (g :: gs)) at 1. rewrite block_read_as_block. cbn [rbind].
  rewrite (copy_groups_same _ (Z.max 1024 (8 * zlen (view_bytes v)))); [|clear Hh|done].
  - cbn [rbind]. unfold signer_of. by rewrite Eg.
  - apply Forall_forall. intros x Hx.
    pose proof (zlen_concat_elem var_bytes (g :: gs) x Hx) as Hl.
    unfold var_bytes in Hl at 1. rewrite zlen_app in Hl. note_zlen. lia.
Qed.
End Copies.

(** ** Samples *)

Section Samples.
#[local] Existing Instance toy_curve.

Definition sample_account : neoc_hash160_t := mk_hash160 (replicate 20 Byte.x0a).
Definition sample_contract : neoc_hash160_t := mk_hash160 (replicate 20 Byte.x0b).

(** Called by entry, one contract, one group, and one rule when [rules] is set. *)
Definition sample_view (rules : bool) : signer_view :=
  mk_view _ sample_account (if rules then 0x71 else 0x31) [sample_contract]
    [replicate 33 Byte.x02]
    (if rules then [mk_rule _ NEOC_WITNESS_ACTION_ALLOW (Some (sample_condition 7))] else []).

Lemma sample_view_ok rules : view_ok (sample_view rules).
Proof.
  split; cbn; try (by destruct rules); try (by (split; [repeat constructor|])).
  destruct rules; split; try done; repeat constructor.
  eexists. split; [reflexivity|]. split; [apply sample_ok|done].
Qed.

Lemma signer_history_witness :
  exists s v, @neoc_signer_create mib_heap _ (Some sample_account) 1 = Ok s /\
    @signer_after mib_heap _ [AddContract sample_contract; AddGroup true true (str "key")] s
    = signer_of v /\
    v_contracts v = [sample_contract] /\ v_groups v = [str "key"].
Proof.
  destruct (signer_history (H := mib_heap) toy_curve_works sample_account 1 3
    [AddContract sample_contract; AddGroup true true (str "key")])
    as (s & v & Es & Ev & _ & _ & [Ec Eg] & _);
    [done|lia|by repeat (apply Forall_cons_2; [by vm_compute|])|lia|apply mib_heap_serves; lia|].
  exists s, v. exact (conj Es (conj Ev (conj Ec Eg))).
Defined.

Lemma signer_size_omits_rules_witness :
  exists data n, @serialize_with mib_heap 64
      (@neoc_signer_serialize mib_heap _ (Some (signer_of (sample_view true))))
    = Ok data /\
    neoc_signer_get_size (Some (signer_of (sample_view true))) = Ok n /\ zlen data = n + 39.
Proof.
  destruct (signer_size_omits_rules (H := mib_heap) toy_curve_works (sample_view true) 64)
    as (data & n & Ed & En & El & _);
    [apply sample_view_ok|by apply Forall_cons_2|done|lia|by vm_compute
    |apply mib_heap_serves; by vm_compute|].
  exists data, n. split; [exact Ed|]. split; [exact En|]. rewrite El. reflexivity.
Defined.

(** A heap that serves small requests only. *)
Definition small_heap : Allocator := fun n => n <=? 128.

Lemma signer_group_failure_dangles_witness :
  exists s,
    @neoc_signer_add_allowed_group small_heap _ true true (Some (replicate 200 Byte.x02)) 200
      (signer_of (sample_view false)) = (Err NEOC_ERROR_MEMORY, s) /\
    neoc_signer_get_size (Some s) = Fault.
Proof.
  destruct (signer_group_failure_dangles (H := small_heap) (sample_view false)
    (replicate 200 Byte.x02) (str "key") true true true) as (s & Es & Ef & _);
    [apply sample_view_ok|done|done|done|done|done| |done|].
  { intros m Hm. unfold malloc_ok, small_heap. lia. }
  exists s. exact (conj Es Ef).
Defined.
End Samples.
