(* ===== verification/Transaction.v ===== *)
(** * Transactions (src/transaction/transaction.c)

    The transaction as a mutable object: its fields are changed by the setters and
    the [add_*] calls, the binary encoding is built from them, and the hash is
    computed from the encoding without the witnesses and kept in the object.  The
    entries of the arrays are never NULL: the calls that add them refuse NULL.  A
    signer stays the caller's object; the account, which the check for duplicates
    compares, is not changed by any call of signer.c.  Signing (which needs an
    account's private key), JSON and the deserializer and verifier, which are stubs,
    are not modelled. *)

From S2P Require Import Prelude BinaryWriter BinaryReader Serializable Crypto Hashes EcKey WitnessRule Witness Signer.
#[local] Open Scope Z_scope.

(** ** Data *)

(** The type is the value of the enumerator. *)
Record neoc_tx_attribute_t := mk_attribute {
  attr_type : Z;
  attr_data : option (list byte);
  attr_data_len : Z
}.

Record neoc_transaction_t `{Curve} := mk_tx {
  tx_version : Z;
  tx_nonce : Z;
  tx_system_fee : Z;
  tx_network_fee : Z;
  tx_valid_until_block : Z;
  tx_signers : list neoc_signer_t;
  tx_attributes : list neoc_tx_attribute_t;
  tx_script : option (list byte);
  tx_script_len : Z;
  tx_witnesses : list neoc_witness_t;
  tx_hash : neoc_hash256_t
}.

(** [sizeof] of the structs *)
Definition transaction_struct_size : Z := 128.
Definition attribute_struct_size : Z := 24.

Section Operations.
Context `{Allocator} `{Curve}.

Abbreviation Tx := (M neoc_transaction_t).

(** [now] is [time(NULL)]. *)
Definition neoc_transaction_create (now : Z) : res neoc_transaction_t :=
  if negb (neoc_malloc_ok transaction_struct_size) then Err NEOC_ERROR_MEMORY
  else Ok (mk_tx _ 0 (wrap 32 now) 0 0 0 [] [] None 0 [] neoc_hash256_init_zero).

Definition neoc_transaction_set_version (version : Z) : Tx unit := fun t =>
  (Ok tt, mk_tx _ version (tx_nonce t) (tx_system_fee t) (tx_network_fee t)
            (tx_valid_until_block t) (tx_signers t) (tx_attributes t) (tx_script t)
            (tx_script_len t) (tx_witnesses t) (tx_hash t)).

Definition neoc_transaction_set_nonce (nonce : Z) : Tx unit := fun t =>
  (Ok tt, mk_tx _ (tx_version t) nonce (tx_system_fee t) (tx_network_fee t)
            (tx_valid_until_block t) (tx_signers t) (tx_attributes t) (tx_script t)
            (tx_script_len t) (tx_witnesses t) (tx_hash t)).

Definition neoc_transaction_set_system_fee (fee : Z) : Tx unit := fun t =>
  (Ok tt, mk_tx _ (tx_version t) (tx_nonce t) fee (tx_network_fee t)
            (tx_valid_until_block t) (tx_signers t) (tx_attributes t) (tx_script t)
            (tx_script_len t) (tx_witnesses t) (tx_hash t)).

Definition neoc_transaction_set_network_fee (fee : Z) : Tx unit := fun t =>
  (Ok tt, mk_tx _ (tx_version t) (tx_nonce t) (tx_system_fee t) fee
            (tx_valid_until_block t) (tx_signers t) (tx_attributes t) (tx_script t)
            (tx_script_len t) (tx_witnesses t) (tx_hash t)).

Definition neoc_transaction_set_valid_until_block (block : Z) : Tx unit := fun t =>
  (Ok tt, mk_tx _ (tx_version t) (tx_nonce t) (tx_system_fee t) (tx_network_fee t)
            block (tx_signers t) (tx_attributes t) (tx_script t)
            (tx_script_len t) (tx_witnesses t) (tx_hash t)).

Definition set_script_fields (script : option (list byte)) (len : Z)
    (t : neoc_transaction_t) : neoc_transaction_t :=
  mk_tx _ (tx_version t) (tx_nonce t) (tx_system_fee t) (tx_network_fee t)
    (tx_valid_until_block t) (tx_signers t) (tx_attributes t) script len
    (tx_witnesses t) (tx_hash t).

(** The old script is freed before the new one is allocated. *)
Definition neoc_transaction_set_script (script : option (list byte)) (script_len : Z)
  : Tx unit := fun t =>
  match script with
  | None => (Err NEOC_ERROR_INVALID_ARGUMENT, t)
  | Some script =>
      if script_len =? 0 then (Err NEOC_ERROR_INVALID_ARGUMENT, t)
      else if negb (neoc_malloc_ok script_len)
      then (Err NEOC_ERROR_MEMORY, set_script_fields None (tx_script_len t) t)
      else
        match buf_slice script 0 script_len with
        | Some copy => (Ok tt, set_script_fields (Some copy) script_len t)
        | None => (Fault, t)
        end
  end.

(** The copy and its length. *)
Definition neoc_transaction_get_script (t : neoc_transaction_t)
  : res (option (list byte) * Z) :=
  match tx_script t with
  | None => Ok (None, 0)
  | Some script =>
      if tx_script_len t =? 0 then Ok (None, 0)
      else if negb (neoc_malloc_ok (tx_script_len t)) then Err NEOC_ERROR_MEMORY
      else
        match buf_slice script 0 (tx_script_len t) with
        | Some copy => Ok (Some copy, tx_script_len t)
        | None => Fault
        end
  end.

(** The loop that looks for a signer with the same account. *)
Definition signer_exists (signer : neoc_signer_t) (signers : list neoc_signer_t) : bool :=
  existsb (fun s => bool_decide (hash160_data (sg_account s) = hash160_data (sg_account signer)))
    signers.

Definition neoc_transaction_add_signer (signer : option neoc_signer_t) : Tx unit := fun t =>
  match signer with
  | None => (Err NEOC_ERROR_INVALID_ARGUMENT, t)
  | Some signer =>
      if signer_exists signer (tx_signers t) then (Err NEOC_ERROR_INVALID_STATE, t)
      else if negb (neoc_malloc_ok (wrap 64 ((zlen (tx_signers t) + 1) * 8)))
      then (Err NEOC_ERROR_MEMORY, t)
      else
        (Ok tt, mk_tx _ (tx_version t) (tx_nonce t) (tx_system_fee t) (tx_network_fee t)
                  (tx_valid_until_block t) (tx_signers t ++ [signer]) (tx_attributes t)
                  (tx_script t) (tx_script_len t) (tx_witnesses t) (tx_hash t))
  end.

Definition neoc_transaction_add_attribute (attribute : option neoc_tx_attribute_t)
  : Tx unit := fun t =>
  match attribute with
  | None => (Err NEOC_ERROR_INVALID_ARGUMENT, t)
  | Some attribute =>
      if negb (neoc_malloc_ok (wrap 64 ((zlen (tx_attributes t) + 1) * 8)))
      then (Err NEOC_ERROR_MEMORY, t)
      else
        (Ok tt, mk_tx _ (tx_version t) (tx_nonce t) (tx_system_fee t) (tx_network_fee t)
                  (tx_valid_until_block t) (tx_signers t) (tx_attributes t ++ [attribute])
                  (tx_script t) (tx_script_len t) (tx_witnesses t) (tx_hash t))
  end.

Definition neoc_transaction_add_witness (witness : option neoc_witness_t)
  : Tx unit := fun t =>
  match witness with
  | None => (Err NEOC_ERROR_INVALID_ARGUMENT, t)
  | Some witness =>
      if negb (neoc_malloc_ok (wrap 64 ((zlen (tx_witnesses t) + 1) * 8)))
      then (Err NEOC_ERROR_MEMORY, t)
      else
        (Ok tt, mk_tx _ (tx_version t) (tx_nonce t) (tx_system_fee t) (tx_network_fee t)
                  (tx_valid_until_block t) (tx_signers t) (tx_attributes t)
                  (tx_script t) (tx_script_len t) (tx_witnesses t ++ [witness]) (tx_hash t))
  end.

Definition neoc_tx_write_signers (t : neoc_transaction_t) : Wr unit :=
  do! neoc_binary_writer_write_var_int (zlen (tx_signers t)) in
  for_each (fun s => neoc_signer_serialize (Some s)) (tx_signers t).

Definition neoc_tx_attribute_write (a : neoc_tx_attribute_t) : Wr unit :=
  do! neoc_binary_writer_write_byte (byte_of_Z (attr_type a)) in
  neoc_binary_writer_write_var_bytes (attr_data a) (attr_data_len a).

Definition neoc_tx_write_attributes (t : neoc_transaction_t) : Wr unit :=
  do! neoc_binary_writer_write_var_int (zlen (tx_attributes t)) in
  for_each neoc_tx_attribute_write (tx_attributes t).

Definition write_witness (w : neoc_witness_t) : Wr unit :=
  let! bytes := lift (neoc_witness_serialize (Some w)) in
  neoc_binary_writer_write_bytes (Some bytes) (zlen bytes).

Definition neoc_tx_write_witnesses (t : neoc_transaction_t) : Wr unit :=
  do! neoc_binary_writer_write_var_int (zlen (tx_witnesses t)) in
  for_each write_witness (tx_witnesses t).

Definition neoc_tx_var_int_size (value : Z) : Z :=
  if value <? 0xFD then 1
  else if value <=? 0xFFFF then 3
  else if value <=? 0xFFFFFFFF then 5
  else 9.

Definition neoc_transaction_build_serialized (t : neoc_transaction_t)
    (include_witnesses : bool) : res (list byte) :=
  serialize_with 256
    (do! neoc_binary_writer_write_byte (byte_of_Z (tx_version t)) in
     do! neoc_binary_writer_write_uint32 (tx_nonce t) in
     do! neoc_binary_writer_write_uint64 (tx_system_fee t) in
     do! neoc_binary_writer_write_uint64 (tx_network_fee t) in
     do! neoc_binary_writer_write_uint32 (tx_valid_until_block t) in
     do! neoc_tx_write_signers t in
     do! neoc_tx_write_attributes t in
     do! neoc_binary_writer_write_var_bytes (tx_script t) (tx_script_len t) in
     if include_witnesses then neoc_tx_write_witnesses t else ret tt).

Definition set_hash (h : neoc_hash256_t) (t : neoc_transaction_t) : neoc_transaction_t :=
  mk_tx _ (tx_version t) (tx_nonce t) (tx_system_fee t) (tx_network_fee t)
    (tx_valid_until_block t) (tx_signers t) (tx_attributes t) (tx_script t)
    (tx_script_len t) (tx_witnesses t) h.

Definition neoc_transaction_calculate_hash `{Crypto} : Tx neoc_hash256_t := fun t =>
  match neoc_transaction_build_serialized t false with
  | Err e => (Err e, t)
  | Fault => (Fault, t)
  | Ok data =>
      match neoc_sha256 (Some data) (zlen data) with
      | Err e => (Err e, t)
      | Fault => (Fault, t)
      | Ok digest => (Ok (mk_hash256 digest), set_hash (mk_hash256 digest) t)
      end
  end.

(** The hash is computed when the stored one is zero, and taken from the object
    otherwise. *)
Definition neoc_transaction_get_hash `{Crypto} : Tx neoc_hash256_t := fun t =>
  if neoc_hash256_is_zero (Some (tx_hash t)) then neoc_transaction_calculate_hash t
  else (Ok (tx_hash t), t).

(** The state is the caller's buffer and [*serialized_size]. *)
Definition neoc_transaction_serialize (t : neoc_transaction_t) (buffer_size : Z)
  : M (list byte * Z) unit := fun '(buffer, serialized_size) =>
  match neoc_transaction_build_serialized t true with
  | Err e => (Err e, (buffer, serialized_size))
  | Fault => (Fault, (buffer, serialized_size))
  | Ok data =>
      if buffer_size <? zlen data
      then (Err NEOC_ERROR_BUFFER_TOO_SMALL, (buffer, serialized_size))
      else
        match buf_copy buffer 0 data with
        | Some buffer => (Ok tt, (buffer, zlen data))
        | None => (Fault, (buffer, serialized_size))
        end
  end.

Definition sum_res {A} (f : A -> res Z) : list A -> res Z :=
  fix go l :=
    match l with
    | [] => Ok 0
    | x :: l => let? n := f x in let? m := go l in Ok (n + m)
    end.

Definition neoc_transaction_get_size (transaction : option neoc_transaction_t) : res Z :=
  match transaction with
  | None => Ok 0
  | Some t =>
      let? signers := sum_res (fun s => neoc_signer_get_size (Some s)) (tx_signers t) in
      let attributes :=
        foldr (fun a acc => 1 + neoc_tx_var_int_size (attr_data_len a) + attr_data_len a + acc)
          0 (tx_attributes t) in
      let witnesses :=
        foldr (fun w acc => neoc_witness_get_size (Some w) + acc) 0 (tx_witnesses t) in
      Ok (wrap 64 (25 + neoc_tx_var_int_size (zlen (tx_signers t)) + signers +
                   neoc_tx_var_int_size (zlen (tx_attributes t)) + attributes +
                   neoc_tx_var_int_size (tx_script_len t) + tx_script_len t +
                   neoc_tx_var_int_size (zlen (tx_witnesses t)) + witnesses))
  end.

Definition neoc_tx_attribute_create (type : Z) (data : option (list byte)) (data_len : Z)
  : res neoc_tx_attribute_t :=
  if negb (neoc_malloc_ok attribute_struct_size) then Err NEOC_ERROR_MEMORY
  else
    let? '(copy, len) := copy_script data data_len in
    Ok (mk_attribute type copy len).

Definition neoc_tx_attribute_clone_internal (source : neoc_tx_attribute_t)
  : res neoc_tx_attribute_t :=
  neoc_tx_attribute_create (attr_type source) (attr_data source) (attr_data_len source).

(** The clone of an array: no array for an empty one. *)
Definition clone_array {A} (f : A -> res A) (l : list A) : res (list A) :=
  if 0 <? zlen l then
    if negb (neoc_malloc_ok (wrap 64 (zlen l * 8))) then Err NEOC_ERROR_MEMORY
    else each_res f l
  else Ok [].

Definition neoc_transaction_clone (now : Z) (source : option neoc_transaction_t)
  : res neoc_transaction_t :=
  match source with
  | None => Err NEOC_ERROR_INVALID_ARGUMENT
  | Some t =>
      let? _copy := neoc_transaction_create now in
      let? '(script, script_len) := copy_script (tx_script t) (tx_script_len t) in
      let? signers := clone_array (fun s => neoc_signer_copy (Some s)) (tx_signers t) in
      let? attributes := clone_array neoc_tx_attribute_clone_internal (tx_attributes t) in
      let? witnesses := clone_array (fun w => neoc_witness_clone (Some w)) (tx_witnesses t) in
      Ok (mk_tx _ (tx_version t) (tx_nonce t) (tx_system_fee t) (tx_network_fee t)
            (tx_valid_until_block t) signers attributes script script_len witnesses (tx_hash t))
  end.

End Operations.

(** ** Specification *)

(** What a transaction says, without its witnesses and stored hash. *)
Record tx_view `{Curve} := mk_tx_view {
  tv_version : Z;
  tv_nonce : Z;
  tv_system_fee : Z;
  tv_network_fee : Z;
  tv_valid_until_block : Z;
  tv_signers : list signer_view;
  tv_attributes : list (Z * list byte);
  tv_script : list byte
}.

Section Spec.
Context `{Curve}.

Definition attribute_of (a : Z * list byte) : neoc_tx_attribute_t :=
  mk_attribute (fst a) (as_pointer (snd a)) (zlen (snd a)).

(** The object with the content of a view, some witnesses and a stored hash. *)
Definition tx_of (v : tx_view) (witnesses : list (list byte * list byte))
    (hash : neoc_hash256_t) : neoc_transaction_t :=
  mk_tx _ (tv_version v) (tv_nonce v) (tv_system_fee v) (tv_network_fee v)
    (tv_valid_until_block v) (map signer_of (tv_signers v)) (map attribute_of (tv_attributes v))
    (as_pointer (tv_script v)) (zlen (tv_script v))
    (map (fun '(i, w) => witness_of i w) witnesses) hash.

(** Fields in the range of their types, and parts that fit in memory. *)
Record tx_ok (v : tx_view) : Prop := {
  tx_ok_version : 0 <= tv_version v < 2 ^ 8;
  tx_ok_nonce : 0 <= tv_nonce v < 2 ^ 32;
  tx_ok_system_fee : 0 <= tv_system_fee v < 2 ^ 64;
  tx_ok_network_fee : 0 <= tv_network_fee v < 2 ^ 64;
  tx_ok_valid_until : 0 <= tv_valid_until_block v < 2 ^ 32;
  tx_ok_signers : Forall view_ok (tv_signers v) /\ zlen (tv_signers v) < 2 ^ 32;
  tx_ok_attributes :
    Forall (fun a => 0 <= fst a < 256 /\ zlen (snd a) < 2 ^ 32) (tv_attributes v) /\
    zlen (tv_attributes v) < 2 ^ 32;
  tx_ok_script : zlen (tv_script v) < 2 ^ 32
}.

Definition attribute_bytes (a : Z * list byte) : list byte :=
  byte_of_Z (fst a) :: var_bytes (snd a).

Definition header_bytes (v : tx_view) : list byte :=
  [byte_of_Z (tv_version v)] ++ le_bytes 4 (tv_nonce v) ++ le_bytes 8 (tv_system_fee v) ++
  le_bytes 8 (tv_network_fee v) ++ le_bytes 4 (tv_valid_until_block v) ++
  list_bytes view_bytes (tv_signers v) ++ list_bytes attribute_bytes (tv_attributes v).

(** The bytes that are hashed and signed. *)
Definition unsigned_bytes (v : tx_view) : list byte := header_bytes v ++ var_bytes (tv_script v).

Definition witnesses_bytes (ws : list (list byte * list byte)) : list byte :=
  list_bytes (fun '(i, w) => witness_bytes i w) ws.

(** A reader of the unsigned format; the library has none. *)
Definition read_attribute `{Allocator} : Rd (Z * list byte) :=
  let! b := neoc_binary_reader_read_byte in
  let! data := neoc_binary_reader_read_var_string in
  ret (Z_of_byte b, data).

Definition read_tx `{Allocator} : Rd tx_view :=
  let! version := neoc_binary_reader_read_byte in
  let! nonce := neoc_binary_reader_read_uint32 in
  let! system_fee := neoc_binary_reader_read_uint64 in
  let! network_fee := neoc_binary_reader_read_uint64 in
  let! valid_until_block := neoc_binary_reader_read_uint32 in
  let! signers := read_list read_view in
  let! attributes := read_list read_attribute in
  let! script := neoc_binary_reader_read_var_string in
  ret (mk_tx_view _ (Z_of_byte version) nonce system_fee network_fee valid_until_block
         signers attributes script).

End Spec.

Section Proofs.
Context `{Allocator} `{Curve}.
Hypothesis Hcurve : curve_works.

Lemma map_list_writes {A B} (f : B -> Wr unit) (g : A -> B) (enc : A -> list byte) l :
  Forall (fun x => writes (f (g x)) (enc x)) l ->
  writes (do! neoc_binary_writer_write_var_int (zlen (map g l)) in for_each f (map g l))
    (list_bytes enc l).
Proof.
  intros Hl. unfold list_bytes. rewrite zlen_map.
  apply writes_bind; [apply write_var_int_writes|].
  induction Hl as [|x l Hx _ IH]; cbn [map for_each concat]; [apply writes_ret|].
  by apply writes_bind.
Qed.

Lemma attribute_writes a : writes (neoc_tx_attribute_write (attribute_of a)) (attribute_bytes a).
Proof. apply writes_cons, write_pointer_writes. Qed.

(** Everything up to the script, for any script fields. *)
Lemma header_writes v ws h (k : Wr unit) bs :
  tx_ok v -> malloc_ok 33 = true -> writes k bs ->
  writes
    (do! neoc_binary_writer_write_byte (byte_of_Z (tv_version v)) in
     do! neoc_binary_writer_write_uint32 (tv_nonce v) in
     do! neoc_binary_writer_write_uint64 (tv_system_fee v) in
     do! neoc_binary_writer_write_uint64 (tv_network_fee v) in
     do! neoc_binary_writer_write_uint32 (tv_valid_until_block v) in
     do! neoc_tx_write_signers (tx_of v ws h) in
     do! neoc_tx_write_attributes (tx_of v ws h) in k) (header_bytes v ++ bs).
Proof.
  intros Hv Hm Hk. unfold header_bytes. rewrite <- !app_assoc.
  apply (writes_bind _ [_]); [apply write_byte_writes|].
  apply writes_bind; [apply write_uint32_writes|].
  apply writes_bind; [apply write_uint64_writes|].
  apply writes_bind; [apply write_uint64_writes|].
  apply writes_bind; [apply write_uint32_writes|].
  apply writes_bind; [|apply writes_bind; [|done]].
  - apply map_list_writes. destruct (tx_ok_signers v Hv) as [Hs _].
    eapply Forall_impl; [exact Hs|]. intros s Hok. by apply signer_serialize_writes.
  - apply map_list_writes. apply Forall_forall. intros a _. apply attribute_writes.
Qed.

Lemma build_unsigned v ws h :
  tx_ok v -> zlen (unsigned_bytes v) <= stream_max ->
  heap_serves (Z.max 1024 (2 * zlen (unsigned_bytes v))) ->
  neoc_transaction_build_serialized (tx_of v ws h) false = Ok (unsigned_bytes v).
Proof.
  intros Hv Hs Hh. apply serialize_with_ok; [|lia|done|done]. unfold unsigned_bytes.
  apply (header_writes v ws h); [done|apply Hh; lia|].
  rewrite <- (app_nil_r (var_bytes _)). apply writes_bind; [apply write_pointer_writes|apply writes_ret].
Qed.

(** *** The encoding determines the transaction *)

Lemma read_attribute_reads a :
  0 <= fst a < 256 -> zlen (snd a) < 2 ^ 32 -> (forall n, malloc_ok n = true) ->
  reads read_attribute (attribute_bytes a) a.
Proof.
  intros Ha Hl Hall. destruct a as [t d]. cbn [fst snd] in *.
  eapply (reads_bind _ _ [_]); [apply read_byte_reads|].
  cbn [fst snd]. eapply reads_ret_bind; [apply read_var_string_reads; auto; lia|].
  by rewrite Z_of_byte_small by lia.
Qed.

Lemma read_tx_reads v :
  tx_ok v -> (forall n, malloc_ok n = true) -> reads read_tx (unsigned_bytes v) v.
Proof.
  intros Hv Hall. unfold unsigned_bytes, header_bytes. rewrite <- !app_assoc.
  pose proof Hv as [? ? ? ? ? [Hs Hsl] [Ha Hal] ?].
  eapply (reads_bind _ _ [_]); [apply read_byte_reads|].
  eapply reads_bind; [apply read_uint32_reads|].
  eapply reads_bind; [apply read_uint64_reads|].
  eapply reads_bind; [apply read_uint64_reads|].
  eapply reads_bind; [apply read_uint32_reads|].
  eapply reads_bind; [apply list_reads; [lia|]|].
  { eapply Forall_impl; [exact Hs|]. intros s Hok. by apply read_view_reads. }
  eapply reads_bind; [apply list_reads; [lia|]|].
  { eapply Forall_impl; [exact Ha|]. cbv beta. intros a [Hx Hy]. by apply read_attribute_reads. }
  eapply reads_ret_bind; [apply read_var_string_reads; auto; lia|].
  rewrite Z_of_byte_small, !wrap_small by lia. by destruct v.
Qed.

(** *** The whole encoding *)

Definition full_bytes (v : tx_view) (ws : list (list byte * list byte)) : list byte :=
  unsigned_bytes v ++ witnesses_bytes ws.

Lemma witness_writes i w :
  zlen (witness_bytes i w) <= stream_max ->
  heap_serves (Z.max 1024 (2 * zlen (witness_bytes i w))) ->
  writes (write_witness (witness_of i w)) (witness_bytes i w).
Proof.
  intros Hs Hh. unfold write_witness. rewrite witness_serialize_ok by done.
  apply write_bytes_writes.
Qed.

Lemma witnesses_write ws n :
  zlen (witnesses_bytes ws) <= n -> n <= stream_max -> heap_serves (Z.max 1024 (2 * n)) ->
  writes (do! neoc_binary_writer_write_var_int (zlen (map (fun '(i, w) => witness_of i w) ws)) in
          for_each write_witness (map (fun '(i, w) => witness_of i w) ws)) (witnesses_bytes ws).
Proof.
  intros Hn Hs Hh. apply map_list_writes, Forall_forall. intros [i w] Hw.
  pose proof (zlen_concat_elem (fun '(i, w) => witness_bytes i w) ws (i, w) Hw) as Hl. cbn beta iota in Hl.
  unfold witnesses_bytes, list_bytes in Hn. rewrite zlen_app in Hn.
  pose proof (zlen_nonneg (var_int_bytes (zlen ws))).
  apply witness_writes; [lia|eapply heap_serves_mono; [done|lia]].
Qed.

(** The encoding when the script pointer and length are [script] and [len]. *)
Lemma build_full v ws h script len bs :
  writes (neoc_binary_writer_write_var_bytes script len) bs ->
  let all := header_bytes v ++ bs ++ witnesses_bytes ws in
  tx_ok v -> zlen all <= stream_max -> heap_serves (Z.max 1024 (2 * zlen all)) ->
  neoc_transaction_build_serialized (set_script_fields script len (tx_of v ws h)) true = Ok all.
Proof.
  intros Hw all Hv Hs Hh. pose proof (zlen_nonneg all).
  apply serialize_with_ok; [|lia|done|done].
  apply (header_writes v ws h); [done|apply Hh; lia|]. apply writes_bind; [done|].
  apply (witnesses_write ws (zlen all)); [|done|done].
  subst all. rewrite !zlen_app. note_zlen. lia.
Qed.

Lemma tx_of_script v ws h :
  set_script_fields (as_pointer (tv_script v)) (zlen (tv_script v)) (tx_of v ws h) = tx_of v ws h.
Proof. done. Qed.

End Proofs.

Lemma unsigned_bytes_inj `{Curve} (Hcurve : curve_works) v1 v2 :
  tx_ok v1 -> tx_ok v2 -> zlen (unsigned_bytes v1) <= stream_max ->
  unsigned_bytes v1 = unsigned_bytes v2 -> v1 = v2.
Proof.
  intros Hv1 Hv2 Hl E. pose (Hall := (fun _ => true) : Allocator).
  eapply (reads_inj (read_tx (H0 := Hall)) v1 v2 _ _ [] []);
    [by apply (read_tx_reads (H := Hall))|by apply (read_tx_reads (H := Hall))| |by rewrite E].
  rewrite app_nil_r. unfold stream_max in Hl. lia.
Qed.

(** ** Hashes *)

Section Hashes.
Context `{Allocator} `{Curve} `{Crypto}.
Hypothesis Hcurve : curve_works.
Hypothesis Hcrypto : crypto_works.

Lemma calculate_hash_ok v ws h :
  tx_ok v -> zlen (unsigned_bytes v) <= stream_max ->
  heap_serves (Z.max 1024 (2 * zlen (unsigned_bytes v))) ->
  exists d, SHA256 (unsigned_bytes v) = Some d /\ length d = 32%nat /\
    neoc_transaction_calculate_hash (tx_of v ws h) = (Ok (mk_hash256 d), tx_of v ws (mk_hash256 d)).
Proof.
  intros Hv Hs Hh. destruct (works_sha256 Hcrypto (unsigned_bytes v)) as (d & Ed & Hd).
  exists d. split_and!; [done|done|]. unfold neoc_transaction_calculate_hash.
  rewrite build_unsigned by done. unfold neoc_sha256, openssl_digest.
  by rewrite (works_initialized Hcrypto), buf_slice_all, Ed.
Qed.

(** C3.  The hash commits to the transaction: it is the SHA-256 of the encoding of
    every field, signer, attribute and the script, it does not depend on the
    witnesses or on the hash stored before, and it is stored in the object; two
    transactions with the same hash are equal in all of these, or their encodings
    are a collision of SHA-256. *)
Theorem transaction_hash_commits (v1 v2 : tx_view) (ws1 ws2 : list (list byte * list byte))
    (h1 h2 : neoc_hash256_t) :
  tx_ok v1 -> tx_ok v2 ->
  zlen (unsigned_bytes v1) <= stream_max -> zlen (unsigned_bytes v2) <= stream_max ->
  heap_serves (Z.max 1024 (2 * zlen (unsigned_bytes v1))) ->
  heap_serves (Z.max 1024 (2 * zlen (unsigned_bytes v2))) ->
  exists d1 d2,
    neoc_transaction_calculate_hash (tx_of v1 ws1 h1) = (Ok d1, tx_of v1 ws1 d1) /\
    neoc_transaction_calculate_hash (tx_of v2 ws2 h2) = (Ok d2, tx_of v2 ws2 d2) /\
    SHA256 (unsigned_bytes v1) = Some (hash256_data d1) /\
    (d1 = d2 ->
     v1 = v2 \/
     (unsigned_bytes v1 <> unsigned_bytes v2 /\
      SHA256 (unsigned_bytes v1) = SHA256 (unsigned_bytes v2))).
Proof.
  intros Hv1 Hv2 Hs1 Hs2 Hh1 Hh2.
  destruct (calculate_hash_ok v1 ws1 h1 Hv1 Hs1 Hh1) as (d1 & E1 & _ & C1).
  destruct (calculate_hash_ok v2 ws2 h2 Hv2 Hs2 Hh2) as (d2 & E2 & _ & C2).
  exists (mk_hash256 d1), (mk_hash256 d2). split_and!; [done|done|done|]. intros [= <-].
  destruct (decide (unsigned_bytes v1 = unsigned_bytes v2)) as [E|Hne].
  - left. by apply unsigned_bytes_inj.
  - right. split; [done|congruence].
Qed.
End Hashes.

(** ** Histories of a transaction *)

(** The calls that change a transaction. *)
Inductive tx_op `{Curve} : Type :=
| SetVersion (version : Z)
| SetNonce (nonce : Z)
| SetSystemFee (fee : Z)
| SetNetworkFee (fee : Z)
| SetValidUntilBlock (block : Z)
| SetScript (script : option (list byte)) (len : Z)
| AddSigner (signer : option neoc_signer_t)
| AddAttribute (attribute : option neoc_tx_attribute_t)
| AddWitness (witness : option neoc_witness_t).

Section Histories.
Context `{Allocator} `{Curve}.

Definition exec_tx_op (op : tx_op) : M neoc_transaction_t unit :=
  match op with
  | SetVersion n => neoc_transaction_set_version n
  | SetNonce n => neoc_transaction_set_nonce n
  | SetSystemFee n => neoc_transaction_set_system_fee n
  | SetNetworkFee n => neoc_transaction_set_network_fee n
  | SetValidUntilBlock n => neoc_transaction_set_valid_until_block n
  | SetScript script len => neoc_transaction_set_script script len
  | AddSigner s => neoc_transaction_add_signer s
  | AddAttribute a => neoc_transaction_add_attribute a
  | AddWitness w => neoc_transaction_add_witness w
  end.

(** The transaction after all calls, whether they succeed or not. *)
Definition tx_after (ops : list tx_op) (t : neoc_transaction_t) : neoc_transaction_t :=
  fold_left (fun t op => snd (exec_tx_op op t)) ops t.

(** Split a call into its branches. *)
Ltac tx_cases op :=
  destruct op as [?|?|?|?|?|[?|] ?|[?|]|[?|]|[?|]]; cbn;
  unfold neoc_transaction_set_script, neoc_transaction_add_signer,
    neoc_transaction_add_attribute, neoc_transaction_add_witness;
  repeat case_match; try done.

Lemma exec_keeps_hash op t : tx_hash (snd (exec_tx_op op t)) = tx_hash t.
Proof. tx_cases op. Qed.

Lemma after_keeps_hash ops t : tx_hash (tx_after ops t) = tx_hash t.
Proof.
  revert t. induction ops as [|op ops IH]; intros t; [done|].
  unfold tx_after in *. cbn [fold_left]. by rewrite IH, exec_keeps_hash.
Qed.

(** The stored hash goes stale: once [get_hash] has returned a hash, it returns
    that hash after any sequence of calls that change the transaction, whatever
    they change; only [calculate_hash] computes it anew. *)
Theorem transaction_hash_sticks `{Crypto} (t t1 : neoc_transaction_t) (h : neoc_hash256_t)
    (ops : list tx_op) :
  neoc_transaction_get_hash t = (Ok h, t1) -> neoc_hash256_is_zero (Some h) = false ->
  neoc_transaction_get_hash (tx_after ops t1) = (Ok h, tx_after ops t1).
Proof.
  intros E Hz.
  assert (tx_hash t1 = h) as Eh.
  { unfold neoc_transaction_get_hash, neoc_transaction_calculate_hash in E.
    repeat case_match; by simplify_eq/=. }
  unfold neoc_transaction_get_hash. rewrite after_keeps_hash, Eh, Hz. done.
Qed.

(** *** Signers *)

Definition account_bytes (s : neoc_signer_t) : list byte := hash160_data (sg_account s).

Definition requested_signers (ops : list tx_op) : list neoc_signer_t :=
  omap (fun op => match op with AddSigner s => s | _ => None end) ops.

(** The signers after one call: a signer with a new account is added. *)
Lemma exec_signers op t n :
  heap_serves n -> 8 * (zlen (tx_signers t) + 1) <= n -> n < 2 ^ 63 ->
  tx_signers (snd (exec_tx_op op t)) =
  match requested_signers [op] with
  | s :: _ => if signer_exists s (tx_signers t) then tx_signers t else tx_signers t ++ [s]
  | [] => tx_signers t
  end.
Proof.
  intros Hh Hl Hn. pose proof (zlen_nonneg (tx_signers t)).
  destruct op as [?|?|?|?|?|[?|] ?|[s|]|[?|]|[?|]]; cbn; try done.
  all: unfold neoc_transaction_set_script, neoc_transaction_add_signer,
    neoc_transaction_add_attribute, neoc_transaction_add_witness.
  1,3,4: by repeat case_match.
  destruct (signer_exists _ _); [done|]. unfold neoc_malloc_ok. rewrite wrap_small by lia.
  cmps. by rewrite Hh by lia.
Qed.

Lemma signer_exists_spec s signers :
  signer_exists s signers = true <-> account_bytes s ∈ map account_bytes signers.
Proof.
  unfold signer_exists. rewrite existsb_exists, list_elem_of_In, in_map_iff. split.
  - intros (x & Hx & E). bdestruct. by exists x.
  - intros (x & E & Hx). exists x. split; [done|]. by apply bool_decide_eq_true.
Qed.

Lemma requested_signers_cons op ops :
  requested_signers (op :: ops) = requested_signers [op] ++ requested_signers ops.
Proof. unfold requested_signers. cbn. by case_match. Qed.

Lemma requested_one op : (exists s, requested_signers [op] = [s]) \/ requested_signers [op] = [].
Proof. unfold requested_signers. cbn. case_match; [left; eauto|by right]. Qed.

(** What the signers of a transaction are after a history. *)
Lemma after_signers ops t n :
  heap_serves n -> 8 * (zlen (tx_signers t) + zlen ops) <= n -> n < 2 ^ 63 ->
  NoDup (map account_bytes (tx_signers t)) ->
  NoDup (map account_bytes (tx_signers (tx_after ops t))) /\
  (exists added, tx_signers (tx_after ops t) = tx_signers t ++ added /\
     added `sublist_of` requested_signers ops) /\
  (forall a, a ∈ map account_bytes (tx_signers (tx_after ops t)) <->
     a ∈ map account_bytes (tx_signers t) \/ a ∈ map account_bytes (requested_signers ops)).
Proof.
  intros Hh. revert t. induction ops as [|op ops IH]; intros t Hl Hn Hd.
  { split_and!; [done|exists []; by rewrite app_nil_r|]. intros a. cbn [requested_signers omap list_omap map].
    rewrite elem_of_nil. tauto. }
  rewrite zlen_cons in Hl. pose proof (zlen_nonneg ops). pose proof (zlen_nonneg (tx_signers t)).
  unfold tx_after. cbn [fold_left]. fold (tx_after ops (snd (exec_tx_op op t))).
  rewrite requested_signers_cons.
  pose proof (exec_signers op t n Hh ltac:(lia) Hn) as E.
  destruct (requested_one op) as [[s Es]|Es]; rewrite Es in *.
  2: { destruct (IH (snd (exec_tx_op op t))) as (N & S & A); rewrite ?E; [lia|done|done|].
       rewrite E in S, A. done. }
  destruct (signer_exists s (tx_signers t)) eqn:Ex.
  - apply signer_exists_spec in Ex.
    destruct (IH (snd (exec_tx_op op t))) as (N & (added & S & Sub) & A); rewrite ?E; [lia|done|done|].
    rewrite E in S, A. split_and!; [done|exists added; split; [done|by apply sublist_cons]|].
    intros a. rewrite A. cbn [app map]. rewrite elem_of_cons.
    split; [tauto|]. intros [?|[->|?]]; auto.
  - assert (account_bytes s ∉ map account_bytes (tx_signers t)) as Hnew
      by (rewrite <- signer_exists_spec; by rewrite Ex).
    destruct (IH (snd (exec_tx_op op t))) as (N & (added & S & Sub) & A); rewrite ?E.
    + rewrite zlen_app, zlen_cons, zlen_nil. lia.
    + done.
    + rewrite map_app. apply NoDup_app. split_and!; [done| |apply NoDup_singleton].
      intros x Hx. cbn. rewrite list_elem_of_singleton. by intros ->.
    + rewrite E in S, A. split_and!; [done| |].
      * exists (s :: added). split; [by rewrite S, <- app_assoc|by apply sublist_skip].
      * intros a. rewrite A, map_app. cbn [app map].
        rewrite elem_of_app, !elem_of_cons, elem_of_nil. tauto.
Qed.

(** Signers are distinct: from a new transaction and through any sequence of
    calls, no two signers have the same account, the signers are among those asked
    for, in the order they were asked for, and every account asked for has one. *)
Theorem transaction_signers_distinct (now n : Z) (ops : list tx_op) :
  heap_serves n -> Z.max 128 (8 * zlen ops) <= n < 2 ^ 63 ->
  exists t0, neoc_transaction_create now = Ok t0 /\
    let signers := tx_signers (tx_after ops t0) in
    NoDup (map account_bytes signers) /\
    signers `sublist_of` requested_signers ops /\
    (forall a, a ∈ map account_bytes signers <-> a ∈ map account_bytes (requested_signers ops)).
Proof.
  intros Hh Hn. pose proof (zlen_nonneg ops).
  set (t0 := mk_tx _ 0 (wrap 32 now) 0 0 0 [] [] None 0 [] neoc_hash256_init_zero).
  exists t0. split.
  { unfold neoc_transaction_create, neoc_malloc_ok, transaction_struct_size. cmps.
    by rewrite Hh by lia. }
  destruct (after_signers ops t0 n Hh) as (N & (added & S & Sub) & A);
    [cbn [t0 tx_signers]; change (zlen []) with 0; lia|lia|apply NoDup_nil_2|].
  cbn zeta. split_and!; [exact N|rewrite S; exact Sub|]. intros a. rewrite A.
  cbn [t0 tx_signers map]. rewrite elem_of_nil. tauto.
Qed.
End Histories.

(** ** Scripts, sizes and clones *)

Section Claims.
Context `{Allocator} `{Curve}.
Hypothesis Hcurve : curve_works.

(** A script that could not be replaced: when memory for a new script is not
    available, [set_script] reports the error but has dropped the old script and
    kept its length; the transaction still serializes, to a stream that announces
    the old length and continues with the witnesses, without a script. *)
Theorem transaction_set_script_failure (v : tx_view) (ws : list (list byte * list byte))
    (h : neoc_hash256_t) (script : list byte) :
  tx_ok v -> script <> [] -> neoc_malloc_ok (zlen script) = false ->
  zlen (full_bytes v ws) <= stream_max ->
  heap_serves (Z.max 1024 (2 * zlen (full_bytes v ws))) ->
  exists t,
    neoc_transaction_set_script (Some script) (zlen script) (tx_of v ws h)
    = (Err NEOC_ERROR_MEMORY, t) /\
    neoc_transaction_get_script t = Ok (None, 0) /\
    neoc_transaction_build_serialized t true
    = Ok (header_bytes v ++ var_int_bytes (zlen (tv_script v)) ++ witnesses_bytes ws).
Proof.
  intros Hv Hne Hm Hs Hh. exists (set_script_fields None (zlen (tv_script v)) (tx_of v ws h)).
  pose proof (zlen_pos _ Hne). split_and!; [|done|].
  - unfold neoc_transaction_set_script. cmps. by rewrite Hm.
  - assert (zlen (header_bytes v ++ var_int_bytes (zlen (tv_script v)) ++ witnesses_bytes ws)
            <= zlen (full_bytes v ws)) as Hle.
    { unfold full_bytes, unsigned_bytes, var_bytes. rewrite !zlen_app. note_zlen. lia. }
    pose proof (zlen_nonneg (full_bytes v ws)).
    apply (build_full Hcurve); [|done|lia|eapply heap_serves_mono; [done|lia]].
    rewrite <- (app_nil_r (var_int_bytes _)).
    apply writes_bind; [apply write_var_int_writes|apply writes_ret].
Qed.

Lemma clone_array_same {A} (f : A -> res A) l n :
  Forall (fun x => f x = Ok x) l -> heap_serves n -> 8 * zlen l <= n < 2 ^ 64 ->
  clone_array f l = Ok l.
Proof.
  intros Hf Hh Hn. unfold clone_array. destruct (0 <? zlen l) eqn:E; bdestruct.
  - unfold neoc_malloc_ok. rewrite wrap_small by lia. cmps. rewrite Hh by lia. by apply each_res_same.
  - pose proof (zlen_nonneg l). by rewrite (zlen_zero l) by lia.
Qed.

Lemma attribute_clone_same a n :
  zlen (snd a) <= n -> 24 <= n -> heap_serves n ->
  neoc_tx_attribute_clone_internal (attribute_of a) = Ok (attribute_of a).
Proof.
  intros Ha Hn Hh. destruct a as [t d]. cbn [snd] in Ha. pose proof (zlen_nonneg d).
  unfold neoc_tx_attribute_clone_internal, neoc_tx_attribute_create, neoc_malloc_ok,
    attribute_struct_size, attribute_of. cbn [attr_type attr_data attr_data_len fst snd].
  cmps. rewrite Hh by lia. cbn [negb].
  rewrite (copy_script_ok d); [done|auto|done|apply Hh; lia].
Qed.

(** The parts of an encoded list are no longer than the list. *)
Lemma list_bytes_parts {A} (enc : A -> list byte) l n :
  zlen (list_bytes enc l) <= n -> (forall x, 1 <= zlen (enc x)) ->
  zlen l <= n /\ Forall (fun x => zlen (enc x) <= n) l.
Proof.
  unfold list_bytes. rewrite zlen_app. intros Hn H1. pose proof (zlen_nonneg (var_int_bytes (zlen l))).
  split.
  - pose proof (zlen_concat_count enc l). assert (zlen l <= zlen (concat (map enc l))); [|lia].
    apply zlen_concat_count, Forall_forall. auto.
  - apply Forall_forall. intros x Hx. pose proof (zlen_concat_elem enc l x Hx). lia.
Qed.

Lemma view_bytes_pos v : 1 <= zlen (view_bytes v).
Proof. unfold view_bytes. rewrite !zlen_app. change (zlen [_]) with 1. note_zlen. lia. Qed.

Lemma witness_bytes_pos (x : list byte * list byte) :
  1 <= zlen ((fun '(i, w) => witness_bytes i w) x).
Proof.
  destruct x as [i w]. unfold witness_bytes, var_bytes. rewrite !zlen_app.
  rewrite !var_int_bytes_size by apply zlen_nonneg. note_zlen.
  repeat match goal with |- context [if ?b then _ else _] => destruct b end; lia.
Qed.

Lemma attribute_bytes_pos a : 1 <= zlen (attribute_bytes a).
Proof. unfold attribute_bytes. rewrite zlen_cons. note_zlen. lia. Qed.

(** Clones: with enough memory the clone of a transaction is equal to it, in
    every field, signer, attribute, script, witness and stored hash. *)
Theorem transaction_clone_equal (now : Z) (v : tx_view) (ws : list (list byte * list byte))
    (h : neoc_hash256_t) :
  tx_ok v -> zlen (full_bytes v ws) < 2 ^ 60 ->
  heap_serves (Z.max 1024 (8 * zlen (full_bytes v ws))) ->
  neoc_transaction_clone now (Some (tx_of v ws h)) = Ok (tx_of v ws h).
Proof.
  intros Hv Hl Hh. set (n := zlen (full_bytes v ws)) in *.
  assert (0 <= n) by apply zlen_nonneg.
  assert (zlen (list_bytes view_bytes (tv_signers v)) <= n /\
          zlen (list_bytes attribute_bytes (tv_attributes v)) <= n /\
          zlen (tv_script v) <= n /\ zlen (witnesses_bytes ws) <= n) as (B1 & B2 & B3 & B4).
  { subst n. unfold full_bytes, unsigned_bytes, header_bytes, var_bytes. rewrite !zlen_app.
    note_zlen. lia. }
  apply list_bytes_parts in B1 as [C1 P1]; [|apply view_bytes_pos].
  apply list_bytes_parts in B2 as [C2 P2]; [|apply attribute_bytes_pos].
  apply list_bytes_parts in B4 as [C4 P4]; [|apply witness_bytes_pos].
  cbn [neoc_transaction_clone tx_of tx_script tx_script_len tx_signers tx_attributes tx_witnesses
       tx_version tx_nonce tx_system_fee tx_network_fee tx_valid_until_block tx_hash].
  unfold neoc_transaction_create, neoc_malloc_ok, transaction_struct_size. cmps.
  rewrite (Hh 128) by lia. cbn [negb rbind].
  rewrite (copy_script_ok (tv_script v)); [|by right|done|apply Hh; note_zlen; lia]. cbn [rbind].
  rewrite (clone_array_same _ _ (Z.max 1024 (8 * n))); [|clear P2 P4|done|rewrite zlen_map; lia].
  2: { apply Forall_fmap. destruct (tx_ok_signers v Hv) as [Hs _].
       rewrite !Forall_forall in *. intros s Hx. apply signer_copy_same; auto.
       eapply heap_serves_mono; [exact Hh|]. specialize (P1 s Hx). cbn in P1. lia. }
  cbn [rbind].
  rewrite (clone_array_same _ _ (Z.max 1024 (8 * n))); [|clear P1 P4|done|rewrite zlen_map; lia].
  2: { apply Forall_fmap. rewrite !Forall_forall in *. intros a Hx.
       apply (attribute_clone_same _ (Z.max 1024 (8 * n))); [|lia|done].
       specialize (P2 a Hx). cbv beta in P2. unfold attribute_bytes, var_bytes in P2.
       rewrite zlen_cons, zlen_app in P2. note_zlen. lia. }
  cbn [rbind].
  rewrite (clone_array_same _ _ (Z.max 1024 (8 * n))); [|clear P1 P2|done|rewrite zlen_map; lia].
  2: { apply Forall_fmap. rewrite !Forall_forall in *. intros [i w] Hx.
       specialize (P4 (i, w) Hx). cbv beta iota in P4. unfold witness_bytes, var_bytes in P4.
       rewrite !zlen_app in P4. apply witness_create_ok; [by right|by right|].
       eapply heap_serves_mono; [exact Hh|]. note_zlen. lia. }
  done.
Qed.

(** The rules of all signers, on the wire. *)
Definition rules_bytes (v : tx_view) : list byte :=
  concat (map (fun s => concat (map rule_bytes (v_rules s))) (tv_signers v)).

(** Signers whose reported size counts everything but their rules. *)
Definition short_parts (s : signer_view) : Prop :=
  Forall (fun g => zlen g < 0xFD) (v_groups s) /\ zlen (v_rules s) < 0xFD.

Lemma tx_var_int_size_exact v : 0 <= v -> neoc_tx_var_int_size v = zlen (var_int_bytes v).
Proof. intros. by rewrite var_int_bytes_size. Qed.

Lemma zlen_concat_le {A} (f g : A -> list byte) l :
  Forall (fun x => zlen (f x) <= zlen (g x)) l ->
  zlen (concat (map f l)) <= zlen (concat (map g l)).
Proof.
  induction 1 as [|x l Hx _ IH]; [done|]. cbn [map concat]. rewrite !zlen_app. lia.
Qed.

Lemma signers_size ss :
  Forall view_ok ss -> Forall short_parts ss ->
  sum_res (fun s => neoc_signer_get_size (Some s)) (map signer_of ss) =
  Ok (zlen (concat (map view_bytes ss)) -
      zlen (concat (map (fun s => concat (map rule_bytes (v_rules s))) ss))).
Proof.
  intros Hv Hs. induction Hv as [|s ss Hs1 _ IH]; [done|].
  apply Forall_cons in Hs as [[Hg Hr] Hs2]. cbn [map concat sum_res].
  rewrite signer_size_exact by done. cbn [rbind]. rewrite IH by done. cbn [rbind].
  rewrite !zlen_app. f_equal. lia.
Qed.

Lemma attributes_size l :
  foldr (fun a acc => 1 + neoc_tx_var_int_size (attr_data_len a) + attr_data_len a + acc) 0
    (map attribute_of l) = zlen (concat (map attribute_bytes l)).
Proof.
  induction l as [|a l IH]; [done|]. cbn [map concat foldr]. rewrite IH, zlen_app.
  unfold attribute_bytes, var_bytes. rewrite zlen_cons, zlen_app.
  rewrite var_int_bytes_size by apply zlen_nonneg. unfold neoc_tx_var_int_size, attribute_of.
  cbn [attr_data_len]. lia.
Qed.

Lemma witnesses_size ws :
  zlen (concat (map (fun '(i, w) => witness_bytes i w) ws)) < 2 ^ 64 ->
  foldr (fun w acc => neoc_witness_get_size (Some w) + acc) 0
    (map (fun '(i, w) => witness_of i w) ws)
  = zlen (concat (map (fun '(i, w) => witness_bytes i w) ws)).
Proof.
  induction ws as [|[i w] ws IH]; [done|]. cbn [map concat foldr]. rewrite zlen_app. intros Hl.
  pose proof (zlen_nonneg (witness_bytes i w)).
  pose proof (zlen_nonneg (concat (map (fun '(i, w) => witness_bytes i w) ws))).
  by rewrite witness_size_exact, IH by lia.
Qed.

Lemma rules_fit v : tx_ok v -> zlen (rules_bytes v) <= zlen (concat (map view_bytes (tv_signers v))).
Proof.
  intros Hv. apply zlen_concat_le. eapply Forall_impl; [apply (tx_ok_signers v Hv)|].
  intros. by apply view_rules_fit.
Qed.

Lemma rules_fit_full v ws : tx_ok v -> zlen (rules_bytes v) + 1 <= zlen (full_bytes v ws).
Proof.
  intros Hv. pose proof (rules_fit v Hv). unfold full_bytes, unsigned_bytes, header_bytes, list_bytes.
  rewrite !zlen_app. change (zlen [_]) with 1. note_zlen. lia.
Qed.

Lemma build_full_ok v ws h :
  tx_ok v -> zlen (full_bytes v ws) <= stream_max ->
  heap_serves (Z.max 1024 (2 * zlen (full_bytes v ws))) ->
  neoc_transaction_build_serialized (tx_of v ws h) true = Ok (full_bytes v ws).
Proof.
  intros Hv Hs Hh. unfold full_bytes, unsigned_bytes in *. rewrite <- app_assoc in *. rewrite <- tx_of_script.
  apply (build_full Hcurve); [apply write_pointer_writes|done|done|done].
Qed.

(** The reported size counts everything but the rules. *)
Lemma get_size_ok v ws h :
  tx_ok v -> Forall short_parts (tv_signers v) -> zlen (full_bytes v ws) <= stream_max ->
  neoc_transaction_get_size (Some (tx_of v ws h)) = Ok (zlen (full_bytes v ws) - zlen (rules_bytes v)).
Proof.
  intros Hv Hp Hs.
  destruct (tx_ok_signers v Hv) as [Hsg _]. pose proof (signers_size _ Hsg Hp) as Es.
  cbn [neoc_transaction_get_size tx_of tx_signers tx_attributes tx_script_len tx_witnesses].
  rewrite Es. cbn [rbind]. rewrite attributes_size.
  pose proof (rules_fit v Hv) as Hrb. pose proof (zlen_nonneg (rules_bytes v)). fold (rules_bytes v).
  revert Hs. unfold full_bytes, unsigned_bytes, header_bytes, witnesses_bytes, var_bytes, list_bytes, stream_max.
  rewrite !zlen_app, !zlen_map. rewrite !tx_var_int_size_exact by apply zlen_nonneg.
  change (zlen [_]) with 1. intros Hs.
  assert (forall k x, zlen (le_bytes k x) = Z.of_nat k) as El
    by (intros; unfold zlen; by rewrite length_le_bytes).
  rewrite !El in *.
  rewrite witnesses_size by (note_zlen; lia). f_equal.
  rewrite wrap_small; [lia|]. note_zlen. lia.
Qed.

(** The reported size of a transaction is the length of its encoding, less the
    bytes of the witness rules of its signers; so it is exact when there are none. *)
Theorem transaction_size (v : tx_view) (ws : list (list byte * list byte))
    (h : neoc_hash256_t) :
  tx_ok v -> Forall short_parts (tv_signers v) -> zlen (full_bytes v ws) <= stream_max ->
  heap_serves (Z.max 1024 (2 * zlen (full_bytes v ws))) ->
  exists data n,
    neoc_transaction_build_serialized (tx_of v ws h) true = Ok data /\
    neoc_transaction_get_size (Some (tx_of v ws h)) = Ok n /\
    zlen data = n + zlen (rules_bytes v).
Proof.
  intros Hv Hp Hs Hh. exists (full_bytes v ws), (zlen (full_bytes v ws) - zlen (rules_bytes v)).
  split_and!; [by apply build_full_ok|by apply get_size_ok|lia].
Qed.
End Claims.

(** ** Samples *)

Section Samples.
#[local] Existing Instance toy_curve.
#[local] Existing Instance toy_crypto.

Definition sample_tx (nonce : Z) : tx_view :=
  mk_tx_view _ 0 nonce 100 200 5760 [sample_view true] [(0x01, [])] (str "script").

Lemma sample_tx_ok : tx_ok (sample_tx 1) /\ tx_ok (sample_tx 2).
Proof.
  split; split; cbn; try lia; try done;
    (split; [repeat (apply Forall_cons_2; [apply sample_view_ok || done|]); apply Forall_nil_2|done]).
Qed.

Lemma transaction_hash_commits_witness :
  exists d1 d2,
    @neoc_transaction_calculate_hash mib_heap _ _ (tx_of (sample_tx 1) [] neoc_hash256_init_zero)
    = (Ok d1, tx_of (sample_tx 1) [] d1) /\
    @neoc_transaction_calculate_hash mib_heap _ _ (tx_of (sample_tx 2) [] neoc_hash256_init_zero)
    = (Ok d2, tx_of (sample_tx 2) [] d2).
Proof.
  destruct (transaction_hash_commits (H := mib_heap) toy_curve_works toy_crypto_works
    (sample_tx 1) (sample_tx 2) [] [] neoc_hash256_init_zero neoc_hash256_init_zero)
    as (d1 & d2 & E1 & E2 & _);
    [apply sample_tx_ok|apply sample_tx_ok|by vm_compute|by vm_compute
    |apply mib_heap_serves; by vm_compute|apply mib_heap_serves; by vm_compute|].
  exists d1, d2. exact (conj E1 E2).
Defined.

(** A transaction whose hash was asked for before its nonce was changed. *)
Definition stored_hash : neoc_hash256_t := mk_hash256 (replicate 32 Byte.x01).

Lemma transaction_hash_sticks_witness :
  let t := tx_of (sample_tx 1) [] stored_hash in
  @neoc_transaction_get_hash mib_heap _ _ (@tx_after mib_heap _ [SetNonce 2] t)
  = (Ok stored_hash, @tx_after mib_heap _ [SetNonce 2] t).
Proof.
  intros t. apply (transaction_hash_sticks t); reflexivity.
Defined.

Lemma transaction_signers_distinct_witness :
  exists t0, @neoc_transaction_create mib_heap _ 7 = Ok t0 /\
    NoDup (map account_bytes (tx_signers (@tx_after mib_heap _
      [AddSigner (Some (signer_of (sample_view true))); SetNonce 2;
       AddSigner (Some (signer_of (sample_view false)))] t0))).
Proof.
  destruct (transaction_signers_distinct (H := mib_heap) 7 1024
    [AddSigner (Some (signer_of (sample_view true))); SetNonce 2;
     AddSigner (Some (signer_of (sample_view false)))]) as (t0 & E0 & N & _);
    [apply mib_heap_serves; lia|by vm_compute|].
  exists t0. exact (conj E0 N).
Defined.

(** A heap that serves requests up to 2 KiB. *)
Definition page_heap : Allocator := fun n => n <=? 2048.

Lemma transaction_set_script_failure_witness :
  exists t,
    @neoc_transaction_set_script page_heap _ (Some (replicate 3000 Byte.x00)) 3000
      (tx_of (sample_tx 1) [] stored_hash) = (Err NEOC_ERROR_MEMORY, t) /\
    neoc_transaction_get_script (H := page_heap) t = Ok (None, 0).
Proof.
  destruct (transaction_set_script_failure (H := page_heap) toy_curve_works (sample_tx 1) []
    stored_hash (replicate 3000 Byte.x00)) as (t & E & G & _);
    [apply sample_tx_ok|discriminate|by vm_compute|by vm_compute| |].
  { intros m Hm. unfold malloc_ok, page_heap.
    apply Z.leb_le. etransitivity; [apply Hm|]. by vm_compute. }
  exists t. exact (conj E G).
Defined.

Lemma transaction_clone_equal_witness :
  @neoc_transaction_clone mib_heap _ 9 (Some (tx_of (sample_tx 1) [(str "inv", str "ver")] stored_hash))
  = Ok (tx_of (sample_tx 1) [(str "inv", str "ver")] stored_hash).
Proof.
  apply (transaction_clone_equal (H := mib_heap) toy_curve_works);
    [apply sample_tx_ok|by vm_compute|apply mib_heap_serves; by vm_compute].
Defined.

Lemma transaction_size_witness :
  exists data n,
    @neoc_transaction_build_serialized mib_heap _ (tx_of (sample_tx 1) [] stored_hash) true = Ok data /\
    neoc_transaction_get_size (Some (tx_of (sample_tx 1) [] stored_hash)) = Ok n /\
    zlen data = n + 39.
Proof.
  destruct (transaction_size (H := mib_heap) toy_curve_works (sample_tx 1) [] stored_hash)
    as (data & n & Ed & En & El);
    [apply sample_tx_ok| |by vm_compute|apply mib_heap_serves; by vm_compute|].
  { apply Forall_cons_2; [|apply Forall_nil_2]. split; [by apply Forall_cons_2|done]. }
  exists data, n. split; [exact Ed|]. split; [exact En|]. rewrite El. reflexivity.
Defined.
End Samples.
