(* ===== verification/Account.v ===== *)
(** * Accounts (src/wallet/account.c)

    An account is an address with, depending on how it was made, a key pair, an encrypted
    key, a cached verification script or the data of a multi-signature account.  The
    functions that change an account are state transformers on its record; text fields are
    C strings.  What a failed constructor leaves behind its result pointer is not
    modelled. *)

From S2P Require Import Prelude BinaryWriter Crypto Base58 Hashes Interop Opcode NeoVM ScriptBuilder EcKey VerificationScript ScriptHelper Signature KeyPair Wif Nep2 Witness MultiSig.
#[local] Open Scope Z_scope.

Record neoc_account_multisig_info_t := mk_multisig_info {
  mi_threshold : Z;
  mi_nr_participants : Z;
  mi_is_address_only : bool
}.

(** [extra] with its tag [extra_type]. *)
Inductive account_extra `{Curve} : Type :=
| EXTRA_NONE
| EXTRA_MULTISIG (multisig : neoc_multi_sig_account_t)
| EXTRA_MULTISIG_INFO (info : neoc_account_multisig_info_t).

(** The encrypted key is a block with a NUL byte behind its [acc_encrypted_key_len] bytes. *)
Record neoc_account_t `{Curve} := mk_account {
  acc_label : option (list byte);
  acc_address : option (list byte);
  acc_script_hash : neoc_hash160_t;
  acc_key_pair : option neoc_ec_key_pair_t;
  acc_is_locked : bool;
  acc_is_default : bool;
  acc_encrypted_key : option (list byte);
  acc_encrypted_key_len : Z;
  acc_verification_script : option (list byte);
  acc_verification_script_len : Z;
  acc_extra : account_extra
}.

Record neoc_scrypt_params_t := mk_scrypt_params { scrypt_n : Z; scrypt_r : Z; scrypt_p : Z }.

(** [sizeof] of the structs *)
Definition account_struct_size : Z := 104.
Definition multisig_info_struct_size : Z := 12.
Definition NEOC_ADDRESS_LENGTH : Z := 64.

Section Operations.
Context `{Allocator} `{Interop} `{Crypto} `{Curve} `{!Ecdsa} `{Nep2Crypto}.
Variable junk : byte.

Abbreviation Acc := (M neoc_account_t).

Definition is_multisig_internal (account : neoc_account_t) : bool :=
  match acc_extra account with
  | EXTRA_NONE => false
  | EXTRA_MULTISIG ms =>
      (0 <? ms_threshold ms) && (ms_threshold ms <=? ms_public_key_count ms) &&
      (1 <=? ms_public_key_count ms)
  | EXTRA_MULTISIG_INFO info =>
      (0 <? mi_threshold info) && (mi_threshold info <=? mi_nr_participants info) &&
      (1 <=? mi_nr_participants info)
  end.

Definition set_encrypted (key : option (list byte)) (len : Z) (a : neoc_account_t) : neoc_account_t :=
  mk_account _ (acc_label a) (acc_address a) (acc_script_hash a) (acc_key_pair a)
    (acc_is_locked a) (acc_is_default a) key len (acc_verification_script a)
    (acc_verification_script_len a) (acc_extra a).

Definition set_cached_script (script : option (list byte)) (len : Z) (a : neoc_account_t)
  : neoc_account_t :=
  mk_account _ (acc_label a) (acc_address a) (acc_script_hash a) (acc_key_pair a)
    (acc_is_locked a) (acc_is_default a) (acc_encrypted_key a) (acc_encrypted_key_len a)
    script len (acc_extra a).

Definition set_locked (locked : bool) (a : neoc_account_t) : neoc_account_t :=
  mk_account _ (acc_label a) (acc_address a) (acc_script_hash a) (acc_key_pair a)
    locked (acc_is_default a) (acc_encrypted_key a) (acc_encrypted_key_len a)
    (acc_verification_script a) (acc_verification_script_len a) (acc_extra a).

Definition set_key_pair (key_pair : option neoc_ec_key_pair_t) (a : neoc_account_t) : neoc_account_t :=
  mk_account _ (acc_label a) (acc_address a) (acc_script_hash a) key_pair
    (acc_is_locked a) (acc_is_default a) (acc_encrypted_key a) (acc_encrypted_key_len a)
    (acc_verification_script a) (acc_verification_script_len a) (acc_extra a).

Definition set_label (label : option (list byte)) (a : neoc_account_t) : neoc_account_t :=
  mk_account _ label (acc_address a) (acc_script_hash a) (acc_key_pair a)
    (acc_is_locked a) (acc_is_default a) (acc_encrypted_key a) (acc_encrypted_key_len a)
    (acc_verification_script a) (acc_verification_script_len a) (acc_extra a).

Definition set_is_default (is_default : bool) (a : neoc_account_t) : neoc_account_t :=
  mk_account _ (acc_label a) (acc_address a) (acc_script_hash a) (acc_key_pair a)
    (acc_is_locked a) is_default (acc_encrypted_key a) (acc_encrypted_key_len a)
    (acc_verification_script a) (acc_verification_script_len a) (acc_extra a).

Definition neoc_account_clear_encrypted_key : Acc unit := fun a =>
  match acc_encrypted_key a with
  | None => (Ok tt, a)
  | Some _ => (Ok tt, set_encrypted None 0 a)
  end.

(** The cached script is dropped too. *)
Definition neoc_account_store_encrypted_key (encrypted_key : option (list byte)) : Acc unit :=
  do! neoc_account_clear_encrypted_key in fun a =>
  let a := match acc_verification_script a with
           | Some _ => set_cached_script None 0 a
           | None => a
           end in
  match encrypted_key with
  | None => (Ok tt, a)
  | Some text =>
      if negb (neoc_malloc_ok (zlen text + 1)) then (Err NEOC_ERROR_OUT_OF_MEMORY, a)
      else (Ok tt, set_encrypted (Some (text ++ [Byte.x00])) (zlen text) a)
  end.

(** The address of a script hash, in a block of 64 bytes. *)
Definition address_block (hash : neoc_hash160_t) : res (list byte) :=
  if negb (neoc_malloc_ok NEOC_ADDRESS_LENGTH) then Err NEOC_ERROR_MEMORY
  else
    let? block :=
      with_buffer junk (Z.to_nat NEOC_ADDRESS_LENGTH)
        (neoc_hash160_to_address junk hash NEOC_ADDRESS_LENGTH) in
    Ok (cstring block).

(** The part that the constructors from a key pair share: script, hash, address, label. *)
Definition single_sig_account (label : option (list byte)) (key_pair : neoc_ec_key_pair_t)
  : res neoc_account_t :=
  let? public_key := neoc_ec_key_pair_get_public_key key_pair 65 in
  let? script :=
    neoc_script_create_single_sig_verification (Some public_key) (zlen public_key) in
  let? hash := neoc_hash160_from_script (Some script) (zlen script) in
  let? address := address_block hash in
  let? label := neoc_strdup (default address label) NEOC_ERROR_MEMORY in
  Ok (mk_account _ (Some label) (Some address) hash (Some key_pair) false false None 0
        (Some script) (zlen script) EXTRA_NONE).

(** [random] is what the random generator gives. *)
Definition neoc_account_create_with_label (random label : option (list byte))
  : res neoc_account_t :=
  if negb (neoc_malloc_ok account_struct_size) then Err NEOC_ERROR_MEMORY
  else
    let? key_pair := neoc_ec_key_pair_create_random random in
    single_sig_account label key_pair.

Definition neoc_account_create_random (random : option (list byte)) : res neoc_account_t :=
  neoc_account_create_with_label random None.

Definition neoc_account_create_from_key_pair_with_label (label : option (list byte))
    (key_pair : option neoc_ec_key_pair_t) : res neoc_account_t :=
  match key_pair with
  | None => Err NEOC_ERROR_INVALID_ARGUMENT
  | Some key_pair =>
      if negb (neoc_malloc_ok account_struct_size) then Err NEOC_ERROR_MEMORY
      else
        let? private_key := neoc_ec_key_pair_get_private_key key_pair 32 in
        let? key_pair := neoc_ec_key_pair_create_from_private_key (Some private_key) in
        single_sig_account label key_pair
  end.

Definition neoc_account_create_from_wif_with_label (label wif : option (list byte))
  : res neoc_account_t :=
  match wif with
  | None => Err NEOC_ERROR_INVALID_ARGUMENT
  | Some _ =>
      let? key_pair := neoc_ec_key_pair_import_from_wif junk wif in
      neoc_account_create_from_key_pair_with_label label (Some key_pair)
  end.

Definition neoc_account_create_from_nep2_with_label (label encrypted_key passphrase : option (list byte))
  : res neoc_account_t :=
  match encrypted_key, passphrase with
  | Some _, Some _ =>
      let? private_key :=
        with_buffer junk 32 (neoc_nep2_decrypt junk encrypted_key passphrase None 32) in
      let? key_pair := neoc_ec_key_pair_from_private_key (Some private_key) 32 in
      neoc_account_create_from_key_pair_with_label label (Some key_pair)
  | _, _ => Err NEOC_ERROR_INVALID_ARGUMENT
  end.

Definition neoc_account_get_public_key (account : neoc_account_t) : option neoc_ec_public_key_t :=
  acc_key_pair account ≫= kp_public.

Definition neoc_account_get_key_pair_copy (account : neoc_account_t)
  : res (option neoc_ec_key_pair_t) :=
  match acc_key_pair account with
  | None => Ok None
  | Some key_pair =>
      let? private_key := neoc_ec_key_pair_get_private_key key_pair 32 in
      let? copy := neoc_ec_key_pair_create_from_private_key (Some private_key) in
      Ok (Some copy)
  end.

Definition neoc_account_export_wif (account : neoc_account_t) : res (list byte) :=
  if acc_is_locked account then Err NEOC_ERROR_INVALID_STATE
  else
    match acc_key_pair account with
    | None => Err NEOC_ERROR_INVALID_STATE
    | Some key_pair => neoc_ec_key_pair_export_as_wif junk key_pair
    end.

(** [neoc_calloc(1, 64)] *)
Definition neoc_account_export_nep2 (account : neoc_account_t) (password : option (list byte))
  : res (list byte) :=
  match password with
  | None => Err NEOC_ERROR_INVALID_ARGUMENT
  | Some _ =>
      match acc_key_pair account with
      | None => Err NEOC_ERROR_INVALID_STATE
      | Some key_pair =>
          let? private_key := neoc_ec_key_pair_get_private_key key_pair 32 in
          if negb (neoc_malloc_ok 64) then Err NEOC_ERROR_MEMORY
          else
            let? encrypted :=
              with_buffer Byte.x00 64 (neoc_nep2_encrypt junk (Some private_key) password None 64) in
            Ok (cstring encrypted)
      end
  end.

Definition neoc_account_sign (draw : Z) (account : neoc_account_t) (data : option (list byte))
    (data_len : Z) : res (list byte) :=
  match data with
  | None => Err NEOC_ERROR_INVALID_ARGUMENT
  | Some _ =>
      match acc_key_pair account with
      | None => Err NEOC_ERROR_INVALID_STATE
      | Some key_pair =>
          if negb (data_len =? 32) then Err NEOC_ERROR_INVALID_ARGUMENT
          else
            let? ecdsa_sig := neoc_ec_key_pair_sign draw key_pair data in
            neoc_ecdsa_signature_to_bytes (Some ecdsa_sig)
      end
  end.

(** The cached script, else the multi-signature script, else one made from the key. *)
Definition neoc_account_get_verification_script (account : neoc_account_t) : res (list byte) :=
  let from_key :=
    match acc_key_pair account with
    | Some key_pair =>
        let? public_key := neoc_ec_key_pair_get_public_key key_pair 65 in
        neoc_script_create_single_sig_verification (Some public_key) (zlen public_key)
    | None => Err NEOC_ERROR_INVALID_STATE
    end in
  let copy (script : list byte) (len : Z) (on_failure : neoc_error_t) :=
    if negb (neoc_malloc_ok len) then Err on_failure else memcpy_from script len in
  let from_extra :=
    match acc_extra account with
    | EXTRA_MULTISIG ms =>
        copy (ms_verification_script ms) (ms_script_size ms) NEOC_ERROR_MEMORY
    | EXTRA_MULTISIG_INFO _ => Err NEOC_ERROR_INVALID_STATE
    | EXTRA_NONE => from_key
    end in
  match acc_verification_script account with
  | Some script =>
      if 0 <? acc_verification_script_len account
      then copy script (acc_verification_script_len account) NEOC_ERROR_OUT_OF_MEMORY
      else from_extra
  | None => from_extra
  end.

Definition neoc_account_sign_hash (draw : Z) (account : neoc_account_t) (hash : neoc_hash256_t)
  : res neoc_witness_t :=
  match acc_key_pair account with
  | None => Err NEOC_ERROR_INVALID_STATE
  | Some key_pair =>
      let? ecdsa_sig := neoc_ec_key_pair_sign draw key_pair (Some (hash256_data hash)) in
      let? signature_bytes := neoc_ecdsa_signature_to_bytes (Some ecdsa_sig) in
      let? invocation_script :=
        neoc_script_create_single_sig_invocation (Some signature_bytes) (zlen signature_bytes) in
      let? verification_script := neoc_account_get_verification_script account in
      neoc_witness_create (Some invocation_script) (zlen invocation_script)
        (Some verification_script) (zlen verification_script)
  end.

Definition neoc_account_is_default_value (account : option neoc_account_t) : bool :=
  match account with Some a => acc_is_default a | None => false end.

Definition neoc_account_set_default (is_default : bool) : Acc unit := fun a =>
  (Ok tt, set_is_default is_default a).

(** The old label is freed first; a failed copy leaves NULL. *)
Definition neoc_account_set_label (label : option (list byte)) : Acc unit := fun a =>
  match label with
  | None => (Ok tt, set_label None a)
  | Some label =>
      match neoc_strdup label NEOC_ERROR_MEMORY with
      | Ok l => (Ok tt, set_label (Some l) a)
      | Err e => (Err e, set_label None a)
      | Fault => (Fault, a)
      end
  end.

(** ** Multi-signature accounts *)

(** [(uint8_t)threshold] and [(uint8_t)key_count]; [(int)key_count]. *)
Definition neoc_account_create_multisig_from_public_keys
    (public_keys : option (list (option neoc_ec_public_key_t))) (key_count threshold : Z)
  : res neoc_account_t :=
  match public_keys with
  | None => Err NEOC_ERROR_INVALID_ARGUMENT
  | Some _ =>
      if key_count =? 0 then Err NEOC_ERROR_INVALID_ARGUMENT
      else if (threshold <=? 0) || (swrap 32 key_count <? threshold)
      then Err NEOC_ERROR_INVALID_ARGUMENT
      else if 1024 <? key_count then Err NEOC_ERROR_INVALID_ARGUMENT
      else
        let? multisig := neoc_multi_sig_create (wrap 8 threshold) public_keys (wrap 8 key_count) in
        if negb (neoc_malloc_ok account_struct_size) then Err NEOC_ERROR_MEMORY
        else
          let? address := address_block (ms_script_hash multisig) in
          let? label := neoc_strdup address NEOC_ERROR_MEMORY in
          Ok (mk_account _ (Some label) (Some address) (ms_script_hash multisig) None false false
                None 0 None 0 (EXTRA_MULTISIG multisig))
  end.

Definition neoc_account_create_multisig (threshold : Z)
    (public_keys : option (list (option neoc_ec_public_key_t))) (key_count : Z)
  : res neoc_account_t :=
  neoc_account_create_multisig_from_public_keys public_keys key_count threshold.

Definition neoc_account_create_multi_sig
    (public_keys : option (list (option neoc_ec_public_key_t))) (key_count threshold : Z)
  : res neoc_account_t :=
  neoc_account_create_multisig_from_public_keys public_keys key_count threshold.

Definition neoc_account_create_multisig_with_address (address : option (list byte))
    (threshold nr_participants : Z) : res neoc_account_t :=
  match address with
  | None => Err NEOC_ERROR_INVALID_ARGUMENT
  | Some text =>
      if (threshold <=? 0) || (nr_participants <=? 0) then Err NEOC_ERROR_INVALID_ARGUMENT
      else if nr_participants <? threshold then Err NEOC_ERROR_INVALID_ARGUMENT
      else if negb (neoc_malloc_ok account_struct_size) then Err NEOC_ERROR_MEMORY
      else
        let? address := neoc_strdup text NEOC_ERROR_MEMORY in
        let? hash := neoc_hash160_from_address junk (Some text) in
        if negb (neoc_malloc_ok multisig_info_struct_size) then Err NEOC_ERROR_MEMORY
        else
          let? label := neoc_strdup text NEOC_ERROR_MEMORY in
          Ok (mk_account _ (Some label) (Some address) hash None false false None 0 None 0
                (EXTRA_MULTISIG_INFO (mk_multisig_info threshold nr_participants true)))
  end.

(** A small number at [pos]: PUSH1 to PUSH16, or PUSHINT8 with its byte.  The number, 0 when
    there is none, and the next position. *)
Definition scan_number (script : list byte) (script_len pos : Z) : res (Z * Z) :=
  if script_len <=? pos then Ok (0, pos)
  else
    let? op := at_ script pos in
    if (0x11 <=? op) && (op <=? 0x20) then Ok (op - 0x10, pos + 1)
    else if op =? 0x00 then
      if pos + 1 <? script_len then
        let? v := at_ script (pos + 1) in Ok (v, pos + 2)
      else Ok (0, pos + 1)
    else Ok (0, pos).

(** [while (pos < script_len - 2)]; every turn moves on by at least 34 bytes. *)
Fixpoint scan_public_keys (fuel : nat) (script : list byte) (script_len pos pubkey_count : Z)
  : res (Z * Z) :=
  match fuel with
  | O => Fault
  | S fuel =>
      if pos <? script_len - 2 then
        let? op := at_ script pos in
        if op =? 0x21 then scan_public_keys fuel script script_len (pos + 34) (pubkey_count + 1)
        else if op =? 0x41 then
          scan_public_keys fuel script script_len (pos + 66) (pubkey_count + 1)
        else if (op =? 0x0C) && (pos + 1 <? script_len) then
          let? len := at_ script (pos + 1) in
          if (len =? 33) || (len =? 65) then
            scan_public_keys fuel script script_len (pos + 2 + len) (pubkey_count + 1)
          else Ok (pos, pubkey_count)
        else Ok (pos, pubkey_count)
      else Ok (pos, pubkey_count)
  end.

(** The analysis of a script: its threshold and number of keys when it is taken for a
    multi-signature script. *)
Definition scan_multisig (script : list byte) (script_len : Z) : res (option (Z * Z)) :=
  if script_len <? 4 then Ok None
  else
    let? '(threshold, pos) := scan_number script script_len 0 in
    let? '(pos, pubkey_count) :=
      scan_public_keys (S (length script)) script script_len pos 0 in
    let? '(participants, pos) := scan_number script script_len pos in
    let? is_multisig :=
      (if pos + 4 <? script_len then
         let? op := at_ script pos in
         if op =? 0x41 then
           let? script_hash := load32 script (pos + 1) in
           Ok (script_hash =? service_hash NEOC_INTEROP_SYSTEM_CRYPTO_CHECKMULTISIG)
         else Ok false
       else Ok false) in
    Ok (if is_multisig && (0 <? threshold) && (0 <? participants) &&
           (participants =? pubkey_count) && (threshold <=? participants)
        then Some (threshold, participants) else None).

Definition neoc_account_create_from_verification_script (script : option (list byte))
    (script_len : Z) : res neoc_account_t :=
  match script with
  | None => Err NEOC_ERROR_INVALID_ARGUMENT
  | Some script =>
      if script_len =? 0 then Err NEOC_ERROR_INVALID_ARGUMENT
      else if negb (neoc_malloc_ok account_struct_size) then Err NEOC_ERROR_MEMORY
      else
        let? hash := neoc_hash160_from_script (Some script) script_len in
        if negb (neoc_malloc_ok script_len) then Err NEOC_ERROR_OUT_OF_MEMORY
        else
          let? script_copy := memcpy_from script script_len in
          let? address := address_block hash in
          let? info := scan_multisig script script_len in
          let extra :=
            match info with
            | Some (threshold, participants) =>
                if neoc_malloc_ok multisig_info_struct_size
                then EXTRA_MULTISIG_INFO (mk_multisig_info threshold participants true)
                else EXTRA_NONE
            | None => EXTRA_NONE
            end in
          let? label := neoc_strdup address NEOC_ERROR_MEMORY in
          Ok (mk_account _ (Some label) (Some address) hash None false false None 0
                (Some script_copy) script_len extra)
  end.

Definition neoc_account_create_from_public_key (public_key : option neoc_ec_public_key_t)
  : res neoc_account_t :=
  match public_key with
  | None => Err NEOC_ERROR_INVALID_ARGUMENT
  | Some public_key =>
      if negb (neoc_malloc_ok account_struct_size) then Err NEOC_ERROR_MEMORY
      else
        let? '(pubkey_bytes, pubkey_size) := neoc_ec_public_key_get_encoded public_key true in
        let? script := neoc_script_create_single_sig_verification (Some pubkey_bytes) pubkey_size in
        let? hash := neoc_hash160_from_script (Some script) (zlen script) in
        let? address := address_block hash in
        let? label := neoc_strdup address NEOC_ERROR_MEMORY in
        Ok (mk_account _ (Some label) (Some address) hash None false false None 0
              (Some script) (zlen script) EXTRA_NONE)
  end.

Definition neoc_account_create_from_address (address : option (list byte)) : res neoc_account_t :=
  match address with
  | None => Err NEOC_ERROR_INVALID_ARGUMENT
  | Some text =>
      if negb (neoc_malloc_ok account_struct_size) then Err NEOC_ERROR_MEMORY
      else
        let? address := neoc_strdup text NEOC_ERROR_MEMORY in
        let? hash := neoc_hash160_from_address junk (Some text) in
        let? label := neoc_strdup text NEOC_ERROR_MEMORY in
        Ok (mk_account _ (Some label) (Some address) hash None false false None 0 None 0 EXTRA_NONE)
  end.

(** ** Getters *)

Definition neoc_account_get_address_copy (account : neoc_account_t) : res (list byte) :=
  match acc_address account with
  | None => Err NEOC_ERROR_INVALID_STATE
  | Some address => neoc_strdup address NEOC_ERROR_MEMORY
  end.

Definition neoc_account_get_script_hash_copy (account : neoc_account_t) : neoc_hash160_t :=
  acc_script_hash account.

Definition neoc_account_get_label_copy (account : neoc_account_t) : res (option (list byte)) :=
  match acc_label account with
  | None => Ok None
  | Some label => let? copy := neoc_strdup label NEOC_ERROR_MEMORY in Ok (Some copy)
  end.

Definition neoc_account_get_verification_script_object (account : neoc_account_t)
  : res neoc_verification_script_t :=
  let? script := neoc_account_get_verification_script account in
  neoc_verification_script_create (Some script) (zlen script).

(** NULL instead of an error *)
Definition neoc_account_get_verification_script_ptr (account : option neoc_account_t)
  : res (option neoc_verification_script_t) :=
  match account with
  | None => Ok None
  | Some account =>
      match neoc_account_get_verification_script_object account with
      | Ok vs => Ok (Some vs)
      | Err _ => Ok None
      | Fault => Fault
      end
  end.

Definition neoc_account_is_multi_sig (account : option neoc_account_t) : bool :=
  match account with Some a => is_multisig_internal a | None => false end.

Definition neoc_account_get_signing_threshold (account : neoc_account_t) : res Z :=
  if negb (is_multisig_internal account) then Err NEOC_ERROR_INVALID_STATE
  else
    match acc_extra account with
    | EXTRA_MULTISIG ms =>
        if (0 <? ms_threshold ms) && (ms_threshold ms <=? ms_public_key_count ms)
        then Ok (ms_threshold ms) else Err NEOC_ERROR_INVALID_STATE
    | EXTRA_MULTISIG_INFO info =>
        if 0 <? mi_threshold info then Ok (mi_threshold info) else Err NEOC_ERROR_INVALID_STATE
    | EXTRA_NONE => Err NEOC_ERROR_INVALID_STATE
    end.

Definition neoc_account_get_nr_participants (account : neoc_account_t) : res Z :=
  if negb (is_multisig_internal account) then Err NEOC_ERROR_INVALID_STATE
  else
    match acc_extra account with
    | EXTRA_MULTISIG ms =>
        if 0 <? ms_public_key_count ms then Ok (ms_public_key_count ms)
        else Err NEOC_ERROR_INVALID_STATE
    | EXTRA_MULTISIG_INFO info =>
        if 0 <? mi_nr_participants info then Ok (mi_nr_participants info)
        else Err NEOC_ERROR_INVALID_STATE
    | EXTRA_NONE => Err NEOC_ERROR_INVALID_STATE
    end.

Definition neoc_account_has_encrypted_private_key_value (account : option neoc_account_t) : bool :=
  match account with
  | Some a =>
      match acc_encrypted_key a with
      | Some _ => 0 <? acc_encrypted_key_len a
      | None => false
      end
  | None => false
  end.

(** The string in the block. *)
Definition neoc_account_get_encrypted_private_key_copy (account : neoc_account_t)
  : res (option (list byte)) :=
  match acc_encrypted_key account with
  | None => Ok None
  | Some block =>
      let? copy := neoc_strdup (cstring block) NEOC_ERROR_OUT_OF_MEMORY in Ok (Some copy)
  end.

(** The bytes of the block and their number. *)
Definition neoc_account_get_encrypted_private_key (account : neoc_account_t)
  : res (option (list byte) * Z) :=
  match acc_encrypted_key account with
  | None => Ok (None, 0)
  | Some block =>
      let len := acc_encrypted_key_len account in
      if negb (neoc_malloc_ok (len + 1)) then Err NEOC_ERROR_OUT_OF_MEMORY
      else let? copy := memcpy_from block len in Ok (Some (copy ++ [Byte.x00]), len)
  end.

(** ** Locking and encryption *)

Definition neoc_account_lock_internal : Acc unit := fun a => (Ok tt, set_locked true a).
Definition neoc_account_unlock_internal : Acc unit := fun a => (Ok tt, set_locked false a).

Definition neoc_account_is_locked_value (account : option neoc_account_t) : bool :=
  match account with Some a => acc_is_locked a | None => false end.

Definition neoc_account_set_encrypted_private_key (encrypted_key : option (list byte))
    (encrypted_key_len : Z) : Acc unit :=
  match encrypted_key with
  | None => neoc_account_clear_encrypted_key
  | Some key =>
      if encrypted_key_len =? 0 then neoc_account_clear_encrypted_key
      else if negb (neoc_malloc_ok (encrypted_key_len + 1)) then fail NEOC_ERROR_OUT_OF_MEMORY
      else
        let! buffer := lift (memcpy_from key encrypted_key_len) in
        do! neoc_account_clear_encrypted_key in fun a =>
        (Ok tt, set_encrypted (Some (buffer ++ [Byte.x00])) encrypted_key_len a)
  end.

Definition neoc_scrypt_to_nep2 (scrypt : option neoc_scrypt_params_t)
  : option neoc_nep2_params_t :=
  match scrypt with
  | None => None
  | Some s => Some (mk_nep2_params (scrypt_n s) (scrypt_r s) (scrypt_p s))
  end.

Definition neoc_account_encrypt_private_key_with_params (password : option (list byte))
    (params : option neoc_scrypt_params_t) : Acc unit :=
  match password with
  | None => fail NEOC_ERROR_INVALID_ARGUMENT
  | Some _ => fun a =>
      match acc_key_pair a with
      | None => (Err NEOC_ERROR_INVALID_STATE, a)
      | Some key_pair =>
          (let! private_key := lift (neoc_ec_key_pair_get_private_key key_pair 32) in
           let! encrypted_key :=
             lift (with_buffer junk 128
                     (neoc_nep2_encrypt junk (Some private_key) password
                        (neoc_scrypt_to_nep2 params) 128)) in
           do! neoc_account_store_encrypted_key (Some (cstring encrypted_key)) in fun a =>
           (Ok tt, set_locked true a)) a
      end
  end.

Definition neoc_account_decrypt_private_key_with_params (password : option (list byte))
    (params : option neoc_scrypt_params_t) : Acc unit :=
  match password with
  | None => fail NEOC_ERROR_INVALID_ARGUMENT
  | Some _ => fun a =>
      match acc_encrypted_key a with
      | None => (Err NEOC_ERROR_INVALID_STATE, a)
      | Some block =>
          (let! private_key :=
             lift (with_buffer junk 32
                     (neoc_nep2_decrypt junk (Some (cstring block)) password
                        (neoc_scrypt_to_nep2 params) 32)) in
           let! key_pair := lift (neoc_ec_key_pair_create_from_private_key (Some private_key)) in
           fun a => (Ok tt, set_locked false (set_key_pair (Some key_pair) a))) a
      end
  end.

Definition neoc_account_encrypt (password : option (list byte)) : Acc unit :=
  neoc_account_encrypt_private_key_with_params password None.

Definition neoc_account_decrypt (password : option (list byte)) : Acc unit :=
  neoc_account_decrypt_private_key_with_params password None.

End Operations.

(** ** What the constructors make *)

(** The account of a key pair. *)
Definition key_account `{Interop} `{Curve} (label address : list byte) (hash : neoc_hash160_t)
    (key : list byte) (point : EC_POINT) : neoc_account_t :=
  mk_account _ (Some label) (Some address) hash (Some (pair_of key point)) false false None 0
    (Some (single_sig_bytes (EC_POINT_point2oct true point))) 40 EXTRA_NONE.

(** [hash] is the script hash of the key's signature script and [address] its address. *)
Definition identity_of `{Interop} `{Crypto} `{Curve} (point : EC_POINT) (hash : neoc_hash160_t)
    (address : list byte) : Prop :=
  neoc_hash160_from_script (Some (single_sig_bytes (EC_POINT_point2oct true point))) 40 = Ok hash /\
  hash160_ok hash /\ address_of hash address.

Section Proofs.
Context `{Allocator} `{Interop} `{Crypto} `{Curve} `{!Ecdsa} `{Nep2Crypto}.
Variable junk : byte.
Hypothesis Hw : crypto_works.
Hypothesis Hcurve : curve_works.
Hypothesis Hheap : heap_serves 1024.

Lemma strdup_ok s e : zlen s < 1024 -> neoc_strdup s e = Ok s.
Proof.
  intros Hs. pose proof (zlen_nonneg s). unfold neoc_strdup, neoc_malloc_ok. cmps.
  by rewrite Hheap by lia.
Qed.

Lemma single_sig_verification_ok pk :
  zlen pk = 33 ->
  neoc_script_create_single_sig_verification (Some pk) 33 = Ok (single_sig_bytes pk).
Proof.
  intros Hk. unfold neoc_script_create_single_sig_verification. cbn [Z.eqb negb andb].
  apply script_with_ok.
  - unfold single_sig_bytes. rewrite <- push_data_key by done. apply writes_bind; [|apply emit_syscall_writes].
    pose proof (push_data_writes pk) as Hp. by rewrite Hk in Hp.
  - rewrite single_sig_length by done. unfold stream_max. eval_pows. lia.
  - rewrite single_sig_length by done. exact Hheap.
Qed.

Lemma address_block_ok h :
  hash160_ok h -> exists s, address_of h s /\ address_block junk h = Ok s.
Proof.
  intros Hh. destruct (to_address_ok junk Hw (heap_serves_mono _ 64 Hheap ltac:(lia)) h
    (replicate 64 junk) Hh) as (s & Hs & E); [by vm_compute|].
  change (zlen (replicate 64 junk)) with 64 in E. exists s. split; [done|].
  unfold address_block, with_buffer, NEOC_ADDRESS_LENGTH, neoc_malloc_ok.
  change (Z.to_nat 64) with 64%nat. rewrite Hheap by lia. cbn [Z.eqb negb]. rewrite E. cbn [rbind].
  by rewrite cstring_app by (by eapply address_of_no_nul).
Qed.

Lemma address_size h s : hash160_ok h -> address_of h s -> zlen s < 1024.
Proof. intros Hh Hs. pose proof (address_of_length h s Hh Hs). lia. Qed.

(** Every point has a script hash and an address. *)
Lemma identity_exists point : exists hash address, identity_of point hash address /\
  address_block junk hash = Ok address.
Proof.
  destruct (single_sig_hash (EC_POINT_point2oct true point) Hw (works_compressed_size Hcurve point))
    as (d & _ & Hd & E).
  assert (hash160_ok (mk_hash160 (reverse d))) as Hok.
  { unfold hash160_ok, NEOC_HASH160_SIZE. cbn [hash160_data]. rewrite zlen_reverse. unfold zlen. lia. }
  destruct (address_block_ok _ Hok) as (s & Hs & Ea). by exists (mk_hash160 (reverse d)), s.
Qed.

Lemma identity_unique point h1 a1 h2 a2 :
  identity_of point h1 a1 -> identity_of point h2 a2 -> address_block junk h1 = Ok a1 ->
  address_block junk h2 = Ok a2 -> h1 = h2 /\ a1 = a2.
Proof.
  intros (E1 & _) (E2 & _) A1 A2. assert (h1 = h2) as -> by congruence. split; congruence.
Qed.

Lemma single_sig_account_ok label key point hash address :
  key_point key point -> identity_of point hash address -> address_block junk hash = Ok address ->
  (forall l, label = Some l -> zlen l < 1024) ->
  single_sig_account junk label (pair_of key point)
  = Ok (key_account (default address label) address hash key point).
Proof.
  intros Hk (Eh & Hh & Ha) Ea Hl. unfold single_sig_account.
  rewrite (get_public_ok Hcurve) by lia. cbn [rbind].
  rewrite (works_compressed_size Hcurve), single_sig_verification_ok by apply (works_compressed_size Hcurve).
  cbn [rbind]. rewrite single_sig_length by apply (works_compressed_size Hcurve).
  rewrite Eh. cbn [rbind]. rewrite Ea. cbn [rbind].
  rewrite strdup_ok; [done|]. destruct label as [l|]; cbn; [by apply Hl|by eapply address_size].
Qed.

Lemma from_key_pair_ok label key point hash address :
  key_point key point -> identity_of point hash address -> address_block junk hash = Ok address ->
  (forall l, label = Some l -> zlen l < 1024) ->
  neoc_account_create_from_key_pair_with_label junk label (Some (pair_of key point))
  = Ok (key_account (default address label) address hash key point).
Proof.
  intros Hk Hi Ea Hl. unfold neoc_account_create_from_key_pair_with_label, neoc_malloc_ok, account_struct_size.
  rewrite Hheap by lia. cbn [Z.eqb negb]. rewrite get_private_ok by (apply Hk || lia). cbn [rbind].
  rewrite (pair_create Hcurve key point Hk) by (eapply heap_serves_mono; [exact Hheap|lia]). cbn [rbind].
  by apply single_sig_account_ok.
Qed.

(** Decryption into a fresh 32-byte array. *)
Lemma nep2_private_key password params key point buf rest0 :
  nep2_works (default NEOC_NEP2_DEFAULT_PARAMS params) -> key_point key point -> 59 <= zlen buf ->
  exists s rest,
    neoc_nep2_encrypt junk (Some (key ++ rest0)) (Some password) params (zlen buf) buf
    = (Ok tt, s ++ Byte.x00 :: rest) /\ zlen s = 58 /\ Forall (fun c => c <> Byte.x00) s /\
    with_buffer junk 32 (neoc_nep2_decrypt junk (Some s) (Some password) params 32) = Ok key.
Proof.
  intros Hn Hk Hb. destruct (nep2_encrypt_decrypt junk Hw Hcurve
    (heap_serves_mono _ 128 Hheap ltac:(lia)) password params Hn key point rest0 buf Hk Hb)
    as (s & rest & E & Hl & Hs & _ & D).
  exists s, rest. split_and!; try done. unfold with_buffer.
  pose proof (D (replicate 32 junk) ltac:(by vm_compute)) as Ed.
  change (zlen (replicate 32 junk)) with 32 in Ed. rewrite Ed.
  rewrite drop_ge, app_nil_r; [done|]. rewrite length_replicate. lia.
Qed.

(** One turn of the scan: a pushed key, or the end. *)
Lemma scan_public_keys_push fuel script len pos c :
  pos < len - 2 -> at_ script pos = Ok 0x0C -> at_ script (pos + 1) = Ok 33 ->
  scan_public_keys (S fuel) script len pos c = scan_public_keys fuel script len (pos + 35) (c + 1).
Proof.
  intros Hp A0 A1. cbn [scan_public_keys]. cmps. rewrite A0. cbn [rbind].
  change (0x0C =? 0x21) with false. change (0x0C =? 0x41) with false. change (0x0C =? 0x0C) with true.
  cbn [andb]. cmps. rewrite A1. cbn [rbind]. change ((33 =? 33) || (33 =? 65)) with true. cbv iota.
  by replace (pos + 2 + 33) with (pos + 35) by lia.
Qed.

Lemma scan_public_keys_stop fuel script len pos c op :
  at_ script pos = Ok op -> op <> 0x0C -> op <> 0x21 -> op <> 0x41 ->
  scan_public_keys (S fuel) script len pos c = Ok (pos, c).
Proof.
  intros A H12 H21 H41. cbn [scan_public_keys]. destruct (pos <? len - 2); [|done].
  rewrite A. cbn [rbind]. cmps. by destruct (op =? 0x0C) eqn:E; bdestruct.
Qed.

(** A signature script is not taken for a multi-signature script: the system call is
    counted as a second, uncompressed key. *)
Lemma scan_single_sig pk :
  zlen pk = 33 -> scan_multisig (single_sig_bytes pk) 40 = Ok None.
Proof.
  intros Hk. unfold scan_multisig. change (40 <? 4) with false. cbv iota.
  set (sys := syscall_bytes NEOC_INTEROP_SYSTEM_CRYPTO_CHECKSIG).
  assert (single_sig_bytes pk = byte_of_Z 0x0C :: byte_of_Z 33 :: pk ++ sys) as E.
  { unfold single_sig_bytes, key_push, sys. done. }
  assert (at_ (single_sig_bytes pk) 0 = Ok 0x0C) as A0 by (by rewrite E).
  assert (at_ (single_sig_bytes pk) 1 = Ok 33) as A1 by (by rewrite E).
  assert (at_ (single_sig_bytes pk) 35 = Ok 0x41) as A2.
  { rewrite E. pose proof (at_app (byte_of_Z 0x0C :: byte_of_Z 33 :: pk) (byte_of_Z NEOC_OP_SYSCALL)
      (le_bytes 4 (service_hash NEOC_INTEROP_SYSTEM_CRYPTO_CHECKSIG))) as A2.
    rewrite !zlen_cons, Hk in A2. exact A2. }
  assert (length (single_sig_bytes pk) = 40%nat) as Hl.
  { pose proof (single_sig_length pk Hk). unfold zlen in *. lia. }
  unfold scan_number at 1. change (40 <=? 0) with false. cbv iota. rewrite A0. cbn [rbind].
  change ((17 <=? 12) && (12 <=? 32)) with false. change (12 =? 0) with false. cbv iota beta.
  rewrite Hl. generalize 38%nat as n. intros n. cbn [rbind]. rewrite scan_public_keys_push by (done || lia).
  cbn [scan_public_keys]. change (0 + 35 <? 40 - 2) with true. cbv iota. change (0 + 35) with 35. rewrite A2.
  cbn [rbind]. change (0x41 =? 33) with false. change (0x41 =? 65) with true. cbv iota.
  change (35 + 66 <? 40 - 2) with false. reflexivity.
Qed.

(** ** Claims *)

(** An account without its private key. *)
Definition watch_only (a : neoc_account_t) : neoc_account_t := set_key_pair None a.

(** An account of which only the label, the address and the hash are known. *)
Definition without_script (a : neoc_account_t) : neoc_account_t :=
  mk_account _ (acc_label a) (acc_address a) (acc_script_hash a) (acc_key_pair a) (acc_is_locked a)
    (acc_is_default a) (acc_encrypted_key a) (acc_encrypted_key_len a) None 0 (acc_extra a).

Lemma export_nep2_ok label key point hash address password :
  nep2_works NEOC_NEP2_DEFAULT_PARAMS -> key_point key point ->
  exists s,
    neoc_account_export_nep2 junk (key_account label address hash key point) (Some password) = Ok s /\
    with_buffer junk 32 (neoc_nep2_decrypt junk (Some s) (Some password) None 32) = Ok key.
Proof.
  intros Hn Hk.
  destruct (nep2_private_key password None key point (replicate 64 Byte.x00) [] Hn Hk ltac:(by vm_compute))
    as (s & rest & E & Hl & Hs & D).
  rewrite app_nil_r in E. change (zlen (replicate 64 Byte.x00)) with 64 in E.
  exists s. split; [|done]. cbn [neoc_account_export_nep2 key_account acc_key_pair].
  rewrite get_private_ok by (apply Hk || lia). cbn [rbind]. unfold neoc_malloc_ok.
  rewrite Hheap by lia. cbn [Z.eqb negb]. unfold with_buffer. rewrite E. cbn [rbind].
  by rewrite cstring_app.
Qed.

(** C19.  The same account from every source: for a key of the curve, the account made
    from its random bytes, from its key pair, from its WIF text and from its encrypted text
    is one and the same; its script hash is the hash of the key's signature script and its
    address the address of that hash.  The public key alone and the script alone give the
    same account without the private key.  The address alone gives an account with the same
    label, address and script hash, but without the verification script as well. *)
Theorem account_sources_agree (key : list byte) (point : EC_POINT) (password : list byte) :
  key_point key point -> nep2_works NEOC_NEP2_DEFAULT_PARAMS ->
  exists hash address,
    let pair := pair_of key point in
    let script := single_sig_bytes (EC_POINT_point2oct true point) in
    let account := key_account address address hash key point in
    identity_of point hash address /\
    neoc_account_create_random junk (Some key) = Ok account /\
    neoc_account_create_from_key_pair_with_label junk None (Some pair) = Ok account /\
    (let? wif := neoc_account_export_wif junk account in
     neoc_account_create_from_wif_with_label junk None (Some wif)) = Ok account /\
    (let? nep2 := neoc_account_export_nep2 junk account (Some password) in
     neoc_account_create_from_nep2_with_label junk None (Some nep2) (Some password)) = Ok account /\
    neoc_account_create_from_public_key junk (kp_public pair) = Ok (watch_only account) /\
    neoc_account_create_from_verification_script junk (Some script) (zlen script)
      = Ok (watch_only account) /\
    neoc_account_create_from_address junk (Some address) = Ok (without_script (watch_only account)).
Proof.
  intros Hk Hn. destruct (identity_exists point) as (hash & address & Hi & Ea).
  pose proof Hi as (Eh & Hh & Ha). pose proof (works_compressed_size Hcurve point) as Hpk.
  assert (heap_serves 120) as H120 by (eapply heap_serves_mono; [exact Hheap|lia]).
  assert (neoc_account_create_from_key_pair_with_label junk None (Some (pair_of key point))
          = Ok (key_account address address hash key point)) as Ek
    by (by rewrite (from_key_pair_ok None key point hash address)).
  exists hash, address. cbv zeta. split_and!; [done| |done| | | | |].
  - unfold neoc_account_create_random, neoc_account_create_with_label, neoc_malloc_ok, account_struct_size.
    rewrite Hheap by lia. cbn [Z.eqb negb neoc_ec_key_pair_create_random].
    rewrite (pair_create Hcurve key point Hk H120). cbn [rbind].
    by rewrite (single_sig_account_ok None key point hash address).
  - cbn [neoc_account_export_wif key_account acc_is_locked acc_key_pair].
    pose proof (pair_wif_roundtrip junk Hw (heap_serves_mono _ 128 Hheap ltac:(lia)) key point Hcurve Hk) as Ew.
    destruct (neoc_ec_key_pair_export_as_wif junk (pair_of key point)) as [wif| |]; [|done..].
    cbn [rbind] in *. unfold neoc_account_create_from_wif_with_label. rewrite Ew. exact Ek.
  - destruct (export_nep2_ok address key point hash address password Hn Hk) as (s & -> & D).
    cbn [rbind neoc_account_create_from_nep2_with_label]. rewrite D. cbn [rbind].
    unfold neoc_ec_key_pair_from_private_key. change (negb (32 =? 32)) with false. cbv iota.
    rewrite (pair_create Hcurve key point Hk H120). exact Ek.
  - cbn [neoc_account_create_from_public_key pair_of kp_public]. unfold neoc_malloc_ok, account_struct_size.
    rewrite Hheap by lia. cbn [Z.eqb negb].
    rewrite (get_encoded_compressed Hcurve) by (done || apply Hheap; lia). cbn [rbind pk_compressed].
    rewrite single_sig_verification_ok by done. cbn [rbind]. rewrite single_sig_length, Eh by done.
    cbn [rbind]. rewrite Ea. cbn [rbind]. by rewrite strdup_ok by (by eapply address_size).
  - rewrite single_sig_length by done. unfold neoc_account_create_from_verification_script,
      neoc_malloc_ok, account_struct_size. rewrite !Hheap by lia. cbn [Z.eqb negb]. rewrite Eh. cbn [rbind].
    rewrite memcpy_from_all by (by apply single_sig_length). cbn [rbind]. rewrite Ea. cbn [rbind].
    rewrite scan_single_sig by done. cbn [rbind]. by rewrite strdup_ok by (by eapply address_size).
  - unfold neoc_account_create_from_address, neoc_malloc_ok, account_struct_size.
    rewrite Hheap by lia. cbn [Z.eqb negb]. rewrite !strdup_ok by (by eapply address_size). cbn [rbind].
    rewrite from_address_of with (h := hash); [done|done| |done|done]. eapply heap_serves_mono; [exact Hheap|lia].
Qed.

(** The signature of an account and its 64 bytes. *)
Lemma account_sign_ok draw label address hash key point data :
  ecdsa_works -> key_point key point -> length data = 32%nat ->
  exists r s, ECDSA_do_verify data (r, s) point = true /\
    neoc_ec_key_pair_sign draw (pair_of key point) (Some data)
      = Ok (mk_signature (component r) (component s)) /\
    neoc_ecdsa_signature_to_bytes (Some (mk_signature (component r) (component s)))
      = Ok (component r ++ component s) /\
    neoc_account_sign draw (key_account label address hash key point) (Some data) 32
      = Ok (component r ++ component s).
Proof.
  intros He Hk Hd. destruct (pair_sign_ok draw key point data He Hk Hd (Hheap 64 ltac:(lia)))
    as (r & s & E & _ & _ & V). exists r, s.
  assert (neoc_ecdsa_signature_to_bytes (Some (mk_signature (component r) (component s)))
          = Ok (component r ++ component s)) as Eb.
  { apply to_bytes_ok; [split; apply length_component|by apply Hheap]. }
  split_and!; [done|done|done|].
  cbn [neoc_account_sign key_account acc_key_pair]. change (negb (32 =? 32)) with false. cbv iota.
  rewrite E. cbn [rbind]. exact Eb.
Qed.

Lemma single_sig_invocation_ok sg :
  zlen sg = 64 -> neoc_script_create_single_sig_invocation (Some sg) 64 = Ok (push_data_bytes sg).
Proof.
  intros Hs. unfold neoc_script_create_single_sig_invocation. change (negb _ && _) with false. cbv iota.
  pose proof (push_data_size sg) as [_ Hz]. apply script_with_ok.
  - pose proof (push_data_writes sg) as Hp. by rewrite Hs in Hp.
  - unfold stream_max. eval_pows. lia.
  - apply (heap_serves_mono _ _ Hheap). lia.
Qed.

Lemma cached_script_ok label address hash key point :
  neoc_account_get_verification_script (key_account label address hash key point)
  = Ok (single_sig_bytes (EC_POINT_point2oct true point)).
Proof.
  unfold neoc_account_get_verification_script, key_account, neoc_malloc_ok.
  cbn [acc_verification_script acc_verification_script_len]. change (0 <? 40) with true. cbv iota.
  rewrite Hheap by lia. cbn [Z.eqb negb]. apply memcpy_from_all, single_sig_length, (works_compressed_size Hcurve).
Qed.

(** C20.  Witnesses of accounts: signing a hash gives the witness of a signature that
    verifies under the account's key; its verification script is the account's, with the
    account's script hash, and run after the invocation script it reaches
    [System.Crypto.CheckSig] with the key and the signature on the stack. *)
Theorem account_witness_verifies (draw : Z) (label address key : list byte) (point : EC_POINT)
    (account_hash : neoc_hash160_t) (h : neoc_hash256_t) :
  ecdsa_works -> key_point key point -> identity_of point account_hash address ->
  length (hash256_data h) = 32%nat ->
  let account := key_account label address account_hash key point in
  let pk := EC_POINT_point2oct true point in
  exists r s,
    let sg := component r ++ component s in
    neoc_account_sign_hash draw account h
      = Ok (witness_of (push_data_bytes sg) (single_sig_bytes pk)) /\
    neoc_account_sign draw account (Some (hash256_data h)) 32 = Ok sg /\
    ECDSA_do_verify (hash256_data h) (r, s) point = true /\
    neoc_hash160_from_script (Some (single_sig_bytes pk)) 40 = Ok (acc_script_hash account) /\
    runs (push_data_bytes sg ++ single_sig_bytes pk, [])
      (syscall_bytes NEOC_INTEROP_SYSTEM_CRYPTO_CHECKSIG, [ByteString pk; ByteString sg]).
Proof.
  intros He Hk Hi Hh account pk. pose proof (works_compressed_size Hcurve point) as Hpk.
  destruct (account_sign_ok draw label address account_hash key point (hash256_data h) He Hk Hh)
    as (r & s & V & Es & Eb & Ea).
  exists r, s. set (sg := component r ++ component s) in *.
  assert (zlen sg = 64) as Hs by (unfold sg; rewrite zlen_app, !zlen_component; done).
  cbv zeta. split_and!; [|done|done|apply Hi|].
  - unfold neoc_account_sign_hash, account. cbn [key_account acc_key_pair]. rewrite Es. cbn [rbind].
    rewrite Eb. cbn [rbind]. rewrite Hs, single_sig_invocation_ok by done. cbn [rbind].
    fold (key_account label address account_hash key point). rewrite cached_script_ok. cbn [rbind]. fold pk.
    pose proof (push_data_size sg) as [_ Hz]. pose proof (single_sig_length pk Hpk).
    apply witness_create_ok; [by left|by left|]. apply (heap_serves_mono _ _ Hheap). lia.
  - etransitivity; [apply data_pushes_long; lia|]. unfold single_sig_bytes.
    rewrite <- push_data_key by done. apply data_pushes_long. fold pk in Hpk. lia.
Qed.

(** An account with an encrypted key and without cached script. *)
Definition encrypted_account (label address : list byte) (hash : neoc_hash160_t) (key : list byte)
    (point : EC_POINT) (text : list byte) : neoc_account_t :=
  set_encrypted (Some (text ++ [Byte.x00])) (zlen text)
    (set_cached_script None 0 (key_account label address hash key point)).

Lemma account_encrypt_ok password params label address hash key point :
  nep2_works (default NEOC_NEP2_DEFAULT_PARAMS (neoc_scrypt_to_nep2 params)) -> key_point key point ->
  exists text, zlen text = 58 /\ Forall (fun c => c <> Byte.x00) text /\
    neoc_account_encrypt_private_key_with_params junk (Some password) params
      (key_account label address hash key point)
    = (Ok tt, set_locked true (encrypted_account label address hash key point text)) /\
    with_buffer junk 32
      (neoc_nep2_decrypt junk (Some text) (Some password) (neoc_scrypt_to_nep2 params) 32) = Ok key.
Proof.
  intros Hn Hk. destruct (nep2_private_key password (neoc_scrypt_to_nep2 params) key point
    (replicate 128 junk) [] Hn Hk ltac:(by vm_compute)) as (s & rest & E & Hl & Hs & D).
  rewrite app_nil_r in E. change (zlen (replicate 128 junk)) with 128 in E.
  exists s. split_and!; [done|done| |done].
  cbn [neoc_account_encrypt_private_key_with_params key_account acc_key_pair].
  rewrite get_private_ok by (apply Hk || lia). rewrite bind_lift.
  unfold with_buffer at 1. rewrite E, bind_lift, cstring_app by done.
  unfold neoc_account_store_encrypted_key, bind, neoc_account_clear_encrypted_key, key_account, neoc_malloc_ok.
  cbn [acc_encrypted_key acc_verification_script]. rewrite Hl. change (58 + 1 =? 0) with false. cbv iota.
  rewrite Hheap by lia. cbn [negb]. unfold encrypted_account. by rewrite Hl.
Qed.

Lemma regenerated_script_ok label address hash key point text locked :
  neoc_account_get_verification_script
    (set_locked locked (encrypted_account label address hash key point text))
  = Ok (single_sig_bytes (EC_POINT_point2oct true point)).
Proof.
  unfold neoc_account_get_verification_script, encrypted_account, key_account.
  cbn [acc_verification_script acc_extra acc_key_pair set_locked set_encrypted set_cached_script].
  rewrite (get_public_ok Hcurve) by lia. cbn [rbind]. rewrite (works_compressed_size Hcurve).
  apply single_sig_verification_ok, (works_compressed_size Hcurve).
Qed.

(** Encrypting an account locks it but leaves the private key in place: the locked
    account refuses to export the key as WIF, yet it signs exactly as before.  Decrypting
    with the same password and parameters gives the account back, with the encrypted key
    and without the cached script, which is made again from the key when it is asked for. *)
Theorem account_encrypt_roundtrip (draw : Z) (password : list byte)
    (params : option neoc_scrypt_params_t) (label address key : list byte) (point : EC_POINT)
    (hash : neoc_hash160_t) (h : neoc_hash256_t) :
  nep2_works (default NEOC_NEP2_DEFAULT_PARAMS (neoc_scrypt_to_nep2 params)) -> key_point key point ->
  let account := key_account label address hash key point in
  exists locked unlocked text,
    neoc_account_encrypt_private_key_with_params junk (Some password) params account
      = (Ok tt, locked) /\
    neoc_account_is_locked_value (Some locked) = true /\
    neoc_account_export_wif junk locked = Err NEOC_ERROR_INVALID_STATE /\
    acc_key_pair locked = acc_key_pair account /\
    neoc_account_sign_hash draw locked h = neoc_account_sign_hash draw account h /\
    neoc_account_decrypt_private_key_with_params junk (Some password) params locked
      = (Ok tt, unlocked) /\
    unlocked = encrypted_account label address hash key point text /\
    neoc_account_get_verification_script unlocked = neoc_account_get_verification_script account.
Proof.
  intros Hn Hk account.
  destruct (account_encrypt_ok password params label address hash key point Hn Hk)
    as (text & Hl & Hs & E & D).
  exists (set_locked true (encrypted_account label address hash key point text)),
    (set_locked false (encrypted_account label address hash key point text)), text.
  split_and!; try done.
  - unfold neoc_account_sign_hash. rewrite regenerated_script_ok. unfold account. by rewrite cached_script_ok.
  - unfold neoc_account_decrypt_private_key_with_params, encrypted_account.
    cbn [acc_encrypted_key set_locked set_encrypted]. rewrite cstring_app by done. rewrite D, bind_lift.
    rewrite (pair_create Hcurve key point Hk) by (eapply heap_serves_mono; [exact Hheap|lia]).
    rewrite bind_lift. done.
  - unfold account. rewrite cached_script_ok. apply (regenerated_script_ok _ _ _ _ _ _ false).
Qed.

(** Decryption does not check that the key belongs to the account: with the
    encrypted text of another key set into it, an account takes that key over.  It keeps
    its address, script hash and cached script, so its witnesses have the script of one
    key and signatures of the other. *)
Theorem account_decrypt_takes_any_key (password label address key1 key2 : list byte)
    (point1 point2 : EC_POINT) (hash : neoc_hash160_t) (other : neoc_account_t) :
  nep2_works NEOC_NEP2_DEFAULT_PARAMS -> key_point key1 point1 -> key_point key2 point2 ->
  other = key_account label address hash key2 point2 ->
  let account := key_account label address hash key1 point1 in
  exists text set taken,
    neoc_account_export_nep2 junk other (Some password) = Ok text /\
    neoc_account_set_encrypted_private_key (Some text) (zlen text) account = (Ok tt, set) /\
    neoc_account_decrypt junk (Some password) set = (Ok tt, taken) /\
    acc_key_pair taken = Some (pair_of key2 point2) /\
    acc_script_hash taken = acc_script_hash account /\
    acc_address taken = acc_address account /\
    neoc_account_get_verification_script taken
      = Ok (single_sig_bytes (EC_POINT_point2oct true point1)).
Proof.
  intros Hn Hk1 Hk2 -> account.
  destruct (nep2_private_key password None key2 point2 (replicate 64 Byte.x00) [] Hn Hk2 ltac:(by vm_compute))
    as (s & rest & E & Hl & Hs & D).
  rewrite app_nil_r in E. change (zlen (replicate 64 Byte.x00)) with 64 in E.
  exists s. do 2 eexists. split_and!.
  - cbn [neoc_account_export_nep2 key_account acc_key_pair].
    rewrite get_private_ok by (apply Hk2 || lia). cbn [rbind]. unfold neoc_malloc_ok.
    rewrite Hheap by lia. cbn [Z.eqb negb]. unfold with_buffer. rewrite E. cbn [rbind].
    by rewrite cstring_app.
  - unfold neoc_account_set_encrypted_private_key, neoc_malloc_ok. cmps. rewrite Hheap by lia. cbn [negb].
    rewrite memcpy_from_all by done. rewrite bind_lift. reflexivity.
  - unfold neoc_account_decrypt, neoc_account_decrypt_private_key_with_params.
    cbn [acc_encrypted_key set_encrypted]. rewrite cstring_app by done. cbn [neoc_scrypt_to_nep2].
    rewrite D, bind_lift.
    rewrite (pair_create Hcurve key2 point2 Hk2) by (eapply heap_serves_mono; [exact Hheap|lia]).
    rewrite bind_lift. reflexivity.
  - done.
  - done.
  - done.
  - apply (cached_script_ok label address hash key1 point1).
Qed.

(** ** The scan of a multi-signature script *)

Lemma push_integer_shape v :
  1 <= v <= 1024 ->
  push_integer_bytes v =
    if v <=? 16 then [byte_of_Z (0x10 + v)]
    else if v <=? 127 then [byte_of_Z 0; byte_of_Z v]
    else byte_of_Z 1 :: le_bytes 2 v.
Proof.
  intros Hv. unfold push_integer_bytes. cmps. cbn [andb]. destruct (v <=? 16); [done|].
  destruct (v <=? 127); [done|]. by cmps.
Qed.

Lemma scan_number_small pre v rest :
  1 <= v <= 127 ->
  scan_number (pre ++ push_integer_bytes v ++ rest) (zlen (pre ++ push_integer_bytes v ++ rest)) (zlen pre)
  = Ok (v, zlen pre + zlen (push_integer_bytes v)).
Proof.
  intros Hv. unfold scan_number. pose proof (zlen_nonneg rest). pose proof (push_integer_nonempty v).
  rewrite !zlen_app. cmps. rewrite push_integer_shape by lia. cmps.
  destruct (v <=? 16) eqn:E16; bdestruct; cbn [app]; rewrite at_app; cbn [rbind].
  - rewrite Z_of_byte_small by lia. cmps. cbn [andb]. change (zlen [_]) with 1.
    do 2 f_equal. lia.
  - change (Z_of_byte (byte_of_Z 0)) with 0. change (_ && _) with false. change (0 =? 0) with true.
    cbv iota. change (zlen [_; _]) with 2. cmps. rewrite at_next. cbn [rbind].
    by rewrite Z_of_byte_small by lia.
Qed.

Lemma scan_number_large pre v rest :
  128 <= v <= 1024 ->
  at_ (pre ++ push_integer_bytes v ++ rest) (zlen pre) = Ok 1 /\
  scan_number (pre ++ push_integer_bytes v ++ rest) (zlen (pre ++ push_integer_bytes v ++ rest)) (zlen pre)
  = Ok (0, zlen pre).
Proof.
  intros Hv. unfold scan_number. pose proof (zlen_nonneg rest). pose proof (push_integer_nonempty v).
  rewrite !zlen_app. cmps. rewrite push_integer_shape by lia. cmps. cbn [app].
  rewrite at_app. by change (Z_of_byte (byte_of_Z 1)) with 1.
Qed.

Lemma scan_public_keys_pushed fuel pre ks v rest c :
  Forall (fun k => zlen k = 33) ks -> 1 <= v <= 1024 -> (length ks < fuel)%nat ->
  scan_public_keys fuel (pre ++ keys_push ks ++ push_integer_bytes v ++ rest)
    (zlen (pre ++ keys_push ks ++ push_integer_bytes v ++ rest)) (zlen pre) c
  = Ok (zlen pre + zlen (keys_push ks), c + zlen ks).
Proof.
  intros Hk Hv. revert fuel pre c. induction Hk as [|k ks Hk _ IH]; intros [|fuel] pre c Hf;
    cbn [length] in Hf; try lia.
  - change (keys_push []) with (@nil byte). cbn [app]. change (zlen []) with 0.
    assert (exists op, at_ (pre ++ push_integer_bytes v ++ rest) (zlen pre) = Ok op /\
      (op = 0 \/ op = 1 \/ 17 <= op <= 32)) as (op & A & Ho).
    { rewrite push_integer_shape by lia. destruct (v <=? 16) eqn:E16; bdestruct; cbn [app];
        [|destruct (v <=? 127) eqn:E127; cbn [app]]; rewrite at_app; eexists; (split; [done|]).
      - rewrite Z_of_byte_small by lia. lia.
      - by left.
      - by right; left. }
    rewrite (scan_public_keys_stop _ _ _ _ _ op) by (done || lia). do 2 f_equal; lia.
  - change (keys_push (k :: ks)) with (key_push k ++ keys_push ks). rewrite <- app_assoc.
    assert (zlen (key_push k) = 35) as Hp by (unfold key_push; rewrite !zlen_cons; lia).
    pose proof (push_integer_nonempty v). pose proof (zlen_nonneg rest). pose proof (zlen_nonneg (keys_push ks)).
    rewrite scan_public_keys_push.
    + specialize (IH fuel (pre ++ key_push k) (c + 1) ltac:(lia)). rewrite <- app_assoc in IH.
      rewrite (zlen_app pre (key_push k)), Hp in IH. rewrite IH, (zlen_app (key_push k)), Hp, zlen_cons.
      do 2 f_equal; lia.
    + rewrite !zlen_app. lia.
    + unfold key_push. cbn [app]. by rewrite at_app.
    + unfold key_push. cbn [app]. by rewrite at_next.
Qed.

Lemma scan_multi m ks :
  valid_multi m ks ->
  scan_multisig (multi_sig_bytes m ks) (zlen (multi_sig_bytes m ks))
  = Ok (if zlen ks <=? 127 then Some (m, zlen ks) else None).
Proof.
  intros Hv. pose proof (multi_size m ks Hv) as [Hs1 Hs2]. destruct Hv as (Hk & Hm & Hn).
  unfold NEOC_MAX_PUBLIC_KEYS_PER_MULTISIG_ACCOUNT in Hn.
  set (sys := syscall_bytes NEOC_INTEROP_SYSTEM_CRYPTO_CHECKMULTISIG).
  set (pm := push_integer_bytes m). set (pn := push_integer_bytes (zlen ks)).
  set (script := multi_sig_bytes m ks) in *.
  assert (script = [] ++ pm ++ (keys_push ks ++ pn ++ sys)) as E0 by done.
  assert (script = pm ++ keys_push ks ++ pn ++ sys) as E1 by done.
  assert (script = (pm ++ keys_push ks) ++ pn ++ sys) as E2 by (by rewrite <- app_assoc).
  assert (script = ((pm ++ keys_push ks) ++ pn) ++ sys) as E3 by (by rewrite E2, <- !app_assoc).
  assert (zlen sys = 5) as H5 by apply syscall_bytes_length.
  assert (zlen script = zlen ((pm ++ keys_push ks) ++ pn) + 5) as Hl by (rewrite E3, zlen_app at 1; lia).
  unfold scan_multisig. assert ((zlen script <? 4) = false) as -> by (apply Z.ltb_ge; lia).
  destruct (decide (128 <= m)) as [Hbig|Hsmall].
  { pose proof (scan_number_large [] m (keys_push ks ++ pn ++ sys) ltac:(lia)) as [A N]. fold pm in A, N.
    rewrite <- E0 in A, N. change (zlen []) with 0 in A, N. rewrite N. cbn [rbind].
    rewrite (scan_public_keys_stop _ _ _ _ _ 1) by (done || lia). cbn [rbind]. rewrite N. cbn [rbind].
    destruct (0 + 4 <? zlen script); [rewrite A|]; cbn; by cmps. }
  pose proof (scan_number_small [] m (keys_push ks ++ pn ++ sys) ltac:(lia)) as T. fold pm in T.
  rewrite <- E0 in T. change (zlen []) with 0 in T. rewrite T, Z.add_0_l. cbn [rbind].
  pose proof (scan_public_keys_pushed (S (length script)) pm ks (zlen ks) sys 0 Hk ltac:(lia)) as K.
  fold pn in K. rewrite <- E1 in K. rewrite K by (unfold zlen in *; lia). cbn [rbind].
  rewrite Z.add_0_l, <- zlen_app.
  destruct (zlen ks <=? 127) eqn:E127; bdestruct.
  - pose proof (scan_number_small (pm ++ keys_push ks) (zlen ks) sys ltac:(lia)) as N. fold pn in N.
    rewrite <- E2 in N. rewrite N. cbn [rbind]. rewrite <- zlen_app.
    assert ((zlen ((pm ++ keys_push ks) ++ pn) + 4 <? zlen script) = true) as -> by (apply Z.ltb_lt; lia).
    pose proof (load32_syscall ((pm ++ keys_push ks) ++ pn) NEOC_INTEROP_SYSTEM_CRYPTO_CHECKMULTISIG) as L.
    fold sys in L. rewrite <- E3 in L.
    assert (at_ script (zlen ((pm ++ keys_push ks) ++ pn)) = Ok 0x41) as ->
      by (rewrite E3; unfold sys, syscall_bytes; apply at_app).
    cbn [rbind]. change (0x41 =? 0x41) with true. cbv iota. rewrite L. cbn [rbind]. rewrite Z.eqb_refl.
    cmps. done.
  - pose proof (scan_number_large (pm ++ keys_push ks) (zlen ks) sys ltac:(lia)) as [A N]. fold pn in A, N.
    rewrite <- E2 in A, N. rewrite N. cbn [rbind].
    destruct (_ <? zlen script); [rewrite A|]; cbn; cmps; by rewrite ?andb_false_r.
Qed.

Lemma from_script_ok script info :
  0 < zlen script -> heap_serves (Z.max 1024 (zlen script)) ->
  scan_multisig script (zlen script) = Ok info ->
  exists hash address,
    neoc_hash160_from_script (Some script) (zlen script) = Ok hash /\ address_of hash address /\
    neoc_account_create_from_verification_script junk (Some script) (zlen script)
    = Ok (mk_account _ (Some address) (Some address) hash None false false None 0
            (Some script) (zlen script)
            (match info with
             | Some (m, n) => EXTRA_MULTISIG_INFO (mk_multisig_info m n true)
             | None => EXTRA_NONE
             end)).
Proof.
  intros Hl Hh Hi. destruct (hash160_digest Hw script) as (d & Ed & Hd).
  assert (neoc_hash160_from_script (Some script) (zlen script) = Ok (mk_hash160 (reverse d))) as Eh
    by (unfold neoc_hash160_from_script; by rewrite Ed).
  assert (hash160_ok (mk_hash160 (reverse d))) as Hok.
  { unfold hash160_ok, NEOC_HASH160_SIZE. cbn [hash160_data]. rewrite zlen_reverse. unfold zlen. lia. }
  destruct (address_block_ok _ Hok) as (s & Hs & Ea). exists (mk_hash160 (reverse d)), s.
  split_and!; [done|done|]. unfold neoc_account_create_from_verification_script, neoc_malloc_ok,
    account_struct_size, multisig_info_struct_size. cmps. rewrite !Hh by lia. cbn [negb].
  rewrite Eh. cbn [rbind]. rewrite memcpy_from_all by done. cbn [rbind]. rewrite Ea. cbn [rbind].
  rewrite Hi. cbn [rbind]. rewrite strdup_ok by (by eapply address_size). by destruct info as [[]|].
Qed.

(** Accounts from multi-signature scripts: the account keeps the script and its hash,
    and is recognised as an m-of-n account with its numbers exactly when there are at most
    127 keys; beyond that the library writes the numbers with two bytes, which the account's
    own scan does not read, although the script is recognised everywhere else. *)
Theorem account_from_multisig_script (m : Z) (ks : list (list byte)) :
  valid_multi m ks -> heap_serves (2 ^ 17) ->
  let script := multi_sig_bytes m ks in
  exists account,
    neoc_account_create_from_verification_script junk (Some script) (zlen script) = Ok account /\
    neoc_hash160_from_script (Some script) (zlen script) = Ok (acc_script_hash account) /\
    neoc_account_get_verification_script account = Ok script /\
    neoc_verification_script_is_multi_sig (vs_of script) = Ok true /\
    neoc_account_is_multi_sig (Some account) = (zlen ks <=? 127) /\
    (zlen ks <= 127 ->
     neoc_account_get_signing_threshold account = Ok m /\
     neoc_account_get_nr_participants account = Ok (zlen ks)).
Proof.
  intros Hv Hh script. pose proof (multi_size m ks Hv) as [Hs1 Hs2].
  pose proof Hv as (_ & Hm & Hn). unfold NEOC_MAX_PUBLIC_KEYS_PER_MULTISIG_ACCOUNT in Hn.
  destruct (from_script_ok script _ ltac:(fold script in Hs1; lia)
    ltac:(apply (heap_serves_mono _ _ Hh); eval_pows; fold script in Hs2; lia) (scan_multi m ks Hv))
    as (hash & address & Eh & Ha & E).
  eexists. split_and!; [exact E|exact Eh| |by apply multi_recognised| |].
  - unfold neoc_account_get_verification_script, neoc_malloc_ok.
    cbn [acc_verification_script acc_verification_script_len]. fold script in Hs1, Hs2. cmps.
    rewrite Hh by (eval_pows; lia). cbn [negb]. by apply memcpy_from_all.
  - destruct (zlen ks <=? 127) eqn:E127; bdestruct; [|done].
    cbn. cmps. done.
  - intros H127. cmps. unfold neoc_account_get_signing_threshold, neoc_account_get_nr_participants.
    cbn [is_multisig_internal acc_extra mi_threshold mi_nr_participants]. cmps. done.
Qed.

(** ** Untrusted scripts *)

Lemma at_inside script i : 0 <= i < zlen script -> exists v, at_ script i = Ok v /\ 0 <= v < 256.
Proof.
  intros Hi. unfold at_, buf_get. cmps.
  destruct (lookup_lt_is_Some_2 script (Z.to_nat i)) as [b ->]; [unfold zlen in Hi; lia|].
  eexists. split; [done|]. apply Z_of_byte_range.
Qed.

Lemma scan_number_total script pos :
  0 <= pos -> exists v p, scan_number script (zlen script) pos = Ok (v, p) /\ pos <= p.
Proof.
  intros Hp. unfold scan_number. destruct (zlen script <=? pos) eqn:E; bdestruct; [by exists 0, pos|].
  destruct (at_inside script pos) as (op & -> & _); [lia|]. cbn [rbind].
  destruct (_ && _); [eexists _, _; split; [done|lia]|].
  destruct (op =? 0); [|eexists _, _; split; [done|lia]].
  destruct (pos + 1 <? zlen script) eqn:E1; bdestruct; [|eexists _, _; split; [done|lia]].
  destruct (at_inside script (pos + 1)) as (v & -> & _); [lia|]. eexists _, _. split; [done|lia].
Qed.

(** The fuel is enough: every turn moves on. *)
Lemma scan_public_keys_total fuel script pos c :
  0 <= pos -> (0 < fuel)%nat -> zlen script - pos < Z.of_nat fuel ->
  exists p n, scan_public_keys fuel script (zlen script) pos c = Ok (p, n) /\ pos <= p.
Proof.
  revert pos c. induction fuel as [|fuel IH]; intros pos c Hp Hpos Hf; [lia|].
  cbn [scan_public_keys]. destruct (pos <? zlen script - 2) eqn:E; bdestruct;
    [|by exists pos, c; split; [done|lia]].
  assert (forall d, 34 <= d -> exists p n,
    scan_public_keys fuel script (zlen script) (pos + d) (c + 1) = Ok (p, n) /\ pos <= p) as Next.
  { intros d Hd. destruct (IH (pos + d) (c + 1)) as (p & n & F & Hle); [lia..|]. exists p, n. split; [done|lia]. }
  destruct (at_inside script pos) as (op & -> & _); [lia|]. cbn [rbind].
  destruct (op =? 0x21); [by apply Next|]. destruct (op =? 0x41); [by apply Next|].
  destruct (_ && _) eqn:Eo; [|by exists pos, c; split; [done|lia]]. bdestruct.
  destruct (at_inside script (pos + 1)) as (len & -> & _); [lia|]. cbn [rbind].
  destruct ((len =? 33) || (len =? 65)) eqn:El; [|by exists pos, c; split; [done|lia]].
  rewrite <- Z.add_assoc. apply Next. bdestruct; lia.
Qed.

Lemma load32_inside script i :
  0 <= i -> i + 4 <= zlen script -> exists v, load32 script i = Ok v.
Proof.
  intros Hi Hl. unfold load32. destruct (buf_slice script i 4) as [d|] eqn:E; [by eexists|].
  unfold buf_slice in E. exfalso. revert E. by cmps.
Qed.

(** C23.  Any bytes can be made an account: the scan of a script ends after at most as many
    turns as it has bytes and never reads outside it, so for every script, well formed or
    not, the constructor succeeds with an account that keeps the script and is watch-only;
    if it is taken for an m-of-n account, then 1 <= m <= n. *)
Theorem account_from_any_script (script : list byte) :
  0 < zlen script -> heap_serves (Z.max 1024 (zlen script)) ->
  exists account,
    neoc_account_create_from_verification_script junk (Some script) (zlen script) = Ok account /\
    neoc_account_get_verification_script account = Ok script /\
    acc_key_pair account = None /\
    (forall m n, neoc_account_get_signing_threshold account = Ok m ->
     neoc_account_get_nr_participants account = Ok n -> 1 <= m <= n).
Proof.
  intros Hl Hh.
  assert (exists info, scan_multisig script (zlen script) = Ok info) as [info Hi].
  { unfold scan_multisig. destruct (zlen script <? 4); [by exists None|].
    destruct (scan_number_total script 0) as (m & p1 & -> & H1'); [done|]. cbn [rbind].
    destruct (scan_public_keys_total (S (length script)) script p1 0) as (p2 & c & -> & H2'); [lia..|unfold zlen; lia|].
    cbn [rbind]. destruct (scan_number_total script p2) as (n & p3 & -> & H3'); [lia|]. cbn [rbind].
    destruct (p3 + 4 <? zlen script) eqn:E; bdestruct; [|by eexists].
    destruct (at_inside script p3) as (op & -> & _); [lia|]. cbn [rbind].
    destruct (op =? 65); [|by eexists].
    destruct (load32_inside script (p3 + 1)) as (v & ->); [lia..|]. by eexists. }
  destruct (from_script_ok script info Hl Hh Hi) as (hash & address & _ & _ & E).
  eexists. split_and!; [exact E| |done|].
  - unfold neoc_account_get_verification_script, neoc_malloc_ok.
    cbn [acc_verification_script acc_verification_script_len]. cmps.
    rewrite Hh by lia. cbn [negb]. by apply memcpy_from_all.
  - intros m n. unfold neoc_account_get_signing_threshold, neoc_account_get_nr_participants.
    destruct info as [[m' n']|]; [|done]. cbn [is_multisig_internal acc_extra mi_threshold mi_nr_participants].
    destruct (_ && _ && _) eqn:E1; [|done]. cbn [negb]. bdestruct. cmps. intros [= <-] [= <-]. lia.
Qed.

(** Multi-signature accounts forget keys: the number of keys may be up to 1024, but
    it is cut to one byte, so with 256 keys or more the account is made of the first
    [n mod 256] keys only, with the threshold [m mod 256]. *)
Theorem multisig_account_truncates (keys : list (option neoc_ec_public_key_t)) (m : Z) :
  256 <= zlen keys <= 1024 -> 1 <= m <= zlen keys -> 1 <= m mod 256 <= zlen keys mod 256 ->
  neoc_account_create_multi_sig junk (Some keys) (zlen keys) m
  = neoc_account_create_multi_sig junk (Some (take (Z.to_nat (zlen keys mod 256)) keys))
      (zlen keys mod 256) (m mod 256).
Proof.
  intros Hn Hm Hr. pose proof (Z.mod_pos_bound (zlen keys) 256 ltac:(lia)).
  pose proof (Z.mod_le (zlen keys) 256 ltac:(lia) ltac:(lia)).
  unfold neoc_account_create_multi_sig, neoc_account_create_multisig_from_public_keys.
  rewrite !swrap_small by (eval_pows; lia). cmps. unfold wrap. change (2 ^ 8) with 256.
  rewrite !Z.mod_mod by lia.
  assert (neoc_multi_sig_create (m mod 256) (Some keys) (zlen keys mod 256)
          = neoc_multi_sig_create (m mod 256) (Some (take (Z.to_nat (zlen keys mod 256)) keys))
              (zlen keys mod 256)) as ->; [|done].
  unfold neoc_multi_sig_create, read_array.
  assert (buf_slice (take (Z.to_nat (zlen keys mod 256)) keys) 0 (zlen keys mod 256)
          = buf_slice keys 0 (zlen keys mod 256)) as ->; [|done].
  set (k := zlen keys mod 256) in *. unfold buf_slice.
  assert (zlen (take (Z.to_nat k) keys) = k) as -> by (unfold zlen in *; rewrite length_take; lia).
  cmps. change (Z.to_nat 0) with 0%nat. by rewrite !drop_0, take_idemp.
Qed.
End Proofs.

Section Samples.
#[local] Existing Instance mib_heap.
#[local] Existing Instance sample_interop.
#[local] Existing Instance toy_crypto.
#[local] Existing Instance toy_curve.
#[local] Existing Instance toy_ecdsa.
#[local] Existing Instance toy_nep2_crypto.

Lemma kib_serves : heap_serves 1024.
Proof. apply mib_heap_serves. by vm_compute. Qed.

Definition sample_point (n : Z) : toy_point := dexist (le_bytes 32 n) (length_le_bytes 32 n).

Lemma account_sources_agree_witness :
  exists hash address,
    neoc_account_create_random Byte.x00 (Some (toy_private 5))
    = Ok (key_account address address hash (toy_private 5) (sample_point 5)).
Proof.
  destruct (account_sources_agree Byte.x00 toy_crypto_works toy_curve_works kib_serves (toy_private 5)
    _ [Byte.x70] (toy_private_point 5) (toy_nep2_works _)) as (hash & address & _ & E & _).
  exists hash, address. exact E.
Defined.

Lemma account_witness_verifies_witness :
  exists hash address r s,
    neoc_account_sign 3 (key_account [] address hash (toy_private 5) (sample_point 5))
      (Some (replicate 32 Byte.x01)) 32 = Ok (component r ++ component s).
Proof.
  destruct (identity_exists Byte.x00 toy_crypto_works toy_curve_works kib_serves (sample_point 5))
    as (hash & address & Hi & _).
  destruct (account_witness_verifies toy_curve_works kib_serves 3 [] address
    (toy_private 5) (sample_point 5) hash (mk_hash256 (replicate 32 Byte.x01)) toy_ecdsa_works
    (toy_private_point 5) Hi eq_refl) as (r & s & _ & E & _).
  exists hash, address, r, s. exact E.
Defined.

Lemma account_encrypt_roundtrip_witness :
  exists locked,
    neoc_account_encrypt_private_key_with_params Byte.x00 (Some [Byte.x70]) None
      (key_account [] [] (mk_hash160 []) (toy_private 5) (sample_point 5)) = (Ok tt, locked) /\
    neoc_account_export_wif Byte.x00 locked = Err NEOC_ERROR_INVALID_STATE.
Proof.
  destruct (account_encrypt_roundtrip Byte.x00 toy_crypto_works toy_curve_works kib_serves 3 [Byte.x70]
    None [] [] (toy_private 5) (sample_point 5) (mk_hash160 []) (mk_hash256 []) (toy_nep2_works _)
    (toy_private_point 5)) as (locked & _ & _ & E & _ & W & _).
  exists locked. exact (conj E W).
Defined.

Lemma account_decrypt_takes_any_key_witness :
  exists set taken,
    neoc_account_decrypt Byte.x00 (Some [Byte.x70]) set = (Ok tt, taken) /\
    acc_key_pair taken = Some (pair_of (toy_private 6) (sample_point 6)) /\
    acc_key_pair set = Some (pair_of (toy_private 5) (sample_point 5)).
Proof.
  destruct (account_decrypt_takes_any_key Byte.x00 toy_crypto_works toy_curve_works kib_serves [Byte.x70]
    [] [] (toy_private 5) (toy_private 6) (sample_point 5) (sample_point 6) (mk_hash160 []) _
    (toy_nep2_works _) (toy_private_point 5) (toy_private_point 6) eq_refl)
    as (text & set & taken & _ & Es & Ed & Ek & _).
  exists set, taken. split; [exact Ed|split; [exact Ek|]].
  unfold neoc_account_set_encrypted_private_key in Es.
  destruct (zlen text =? 0); [by injection Es as <-|].
  destruct (negb _); [discriminate|]. unfold memcpy_from in Es. rewrite buf_slice_all, bind_lift in Es.
  by injection Es as <-.
Defined.

Lemma sample_valid_multi : valid_multi 1 [replicate 33 Byte.x02; replicate 33 Byte.x03].
Proof. repeat constructor; by vm_compute. Qed.

Lemma account_from_multisig_script_witness :
  exists account,
    neoc_account_is_multi_sig (Some account) = true /\
    neoc_account_get_signing_threshold account = Ok 1.
Proof.
  destruct (account_from_multisig_script Byte.x00 toy_crypto_works kib_serves 1
    [replicate 33 Byte.x02; replicate 33 Byte.x03] sample_valid_multi) as (a & _ & _ & _ & _ & M & T);
    [by apply mib_heap_serves; vm_compute|].
  exists a. split; [exact M|apply T; by vm_compute].
Defined.

Lemma account_from_any_script_witness :
  exists account,
    neoc_account_create_from_verification_script Byte.x00 (Some [Byte.x0c; Byte.x41; Byte.x00; Byte.x41; Byte.x0c]) 5
    = Ok account.
Proof.
  destruct (account_from_any_script Byte.x00 toy_crypto_works kib_serves
    [Byte.x0c; Byte.x41; Byte.x00; Byte.x41; Byte.x0c]) as (a & E & _);
    [by vm_compute|exact kib_serves|].
  exists a. exact E.
Defined.

(** 258 keys and a threshold of 257 make a 1-of-2 account. *)
Lemma multisig_account_truncates_witness :
  let keys := map Some (map toy_key (map Z.of_nat (seq 0 258))) in
  neoc_account_create_multi_sig Byte.x00 (Some keys) 258 257
  = neoc_account_create_multi_sig Byte.x00 (Some (take 2 keys)) 2 1.
Proof.
  set (keys := map Some (map toy_key (map Z.of_nat (seq 0 258)))).
  assert (zlen keys = 258) as Hl
    by (unfold keys, zlen; rewrite !length_map, length_seq; reflexivity).
  pose proof (multisig_account_truncates Byte.x00 keys 257) as T.
  rewrite Hl in T. apply T; split; by vm_compute.
Defined.
End Samples.
