(* ===== verification/Bip39Account.v ===== *)
(** * Accounts from mnemonic phrases (src/wallet/bip39_account.c)

    An account whose private key is the SHA-256 of the seed of a phrase and a password.  The
    object keeps the account, the phrase and the password.  PBKDF2 and the random bytes of
    OpenSSL are arguments. *)

From S2P Require Import Prelude BinaryWriter BinaryReader Crypto Base58 Hashes Interop Opcode NeoVM ScriptBuilder EcKey VerificationScript ScriptHelper Signature KeyPair Wif Nep2 Account Bip39.
#[local] Open Scope Z_scope.

Record neoc_bip39_account_t `{Curve} := mk_bip39_account {
  ba_base_account : neoc_account_t;
  ba_mnemonic : list byte;
  ba_mnemonic_length : Z;
  ba_word_count : Z;
  ba_password : option (list byte);
  ba_is_password_protected : bool
}.

Definition bip39_account_struct_size : Z := 48.

Definition strength_from_word_count (word_count : Z) : Z :=
  if word_count =? 12 then 128
  else if word_count =? 15 then 160
  else if word_count =? 18 then 192
  else if word_count =? 21 then 224
  else if word_count =? 24 then 256
  else 0.

(** One more than there are spaces. *)
Definition count_words (mnemonic : list byte) : Z :=
  match mnemonic with
  | [] => 0
  | _ => 1 + zlen (List.filter (fun c => Z_of_byte c =? 32) mnemonic)
  end.

Section Operations.
Context `{Allocator} `{Interop} `{Crypto} `{Curve} `{!Ecdsa} `{Nep2Crypto}.
Variable junk : byte.
Variable PKCS5_PBKDF2_HMAC : list byte -> Z -> list byte -> Z -> Z -> Z -> option (list byte).
Variable random_bytes : Z -> option (list byte).

(** [password && password[0] != '\0'] *)
Definition has_password (password : option (list byte)) : bool :=
  match password with Some (_ :: _) => true | _ => false end.

Definition build_base_account_from_seed (password mnemonic : option (list byte)) (word_count : Z)
    (password_protected : bool) : res neoc_bip39_account_t :=
  match mnemonic with
  | None => Err NEOC_ERROR_INVALID_ARGUMENT
  | Some phrase =>
      let? valid := neoc_bip39_validate_mnemonic (Some phrase) NEOC_BIP39_LANG_ENGLISH in
      if negb valid then Err NEOC_ERROR_INVALID_ARGUMENT
      else
        let word_count := if word_count =? 0 then count_words phrase else word_count in
        let? seed := neoc_bip39_mnemonic_to_seed_len PKCS5_PBKDF2_HMAC (Some phrase)
                       (Some (default [] password)) 64 in
        let? private_key := neoc_sha256 (Some seed) 64 in
        let? key_pair := neoc_ec_key_pair_create_from_private_key (Some private_key) in
        let? base_account := neoc_account_create_from_key_pair_with_label junk None (Some key_pair) in
        if negb (neoc_malloc_ok bip39_account_struct_size) then Err NEOC_ERROR_MEMORY
        else
          let? mnemonic := neoc_strdup phrase NEOC_ERROR_MEMORY in
          let? password :=
            match password with
            | Some (c :: p) => let? copy := neoc_strdup (c :: p) NEOC_ERROR_MEMORY in Ok (Some copy)
            | _ => Ok None
            end in
          Ok (mk_bip39_account _ base_account mnemonic (zlen phrase) word_count password password_protected)
  end.

Definition neoc_bip39_account_create (password : option (list byte)) (word_count : Z)
  : res neoc_bip39_account_t :=
  let strength := strength_from_word_count word_count in
  if strength =? 0 then Err NEOC_ERROR_INVALID_ARGUMENT
  else
    let? mnemonic := neoc_bip39_generate_mnemonic random_bytes strength NEOC_BIP39_LANG_ENGLISH in
    build_base_account_from_seed password (Some mnemonic) word_count (has_password password).

Definition neoc_bip39_account_create_random (word_count : Z) : res neoc_bip39_account_t :=
  neoc_bip39_account_create None word_count.

Definition neoc_bip39_account_from_mnemonic (password mnemonic : option (list byte))
  : res neoc_bip39_account_t :=
  build_base_account_from_seed password mnemonic 0 (has_password password).

Definition neoc_bip39_account_from_mnemonic_no_password (mnemonic : option (list byte))
  : res neoc_bip39_account_t := neoc_bip39_account_from_mnemonic (Some []) mnemonic.

Definition neoc_bip39_account_get_mnemonic (a : option neoc_bip39_account_t) : option (list byte) :=
  match a with Some a => Some (ba_mnemonic a) | None => None end.

Definition neoc_bip39_account_get_base_account (a : option neoc_bip39_account_t) : option neoc_account_t :=
  match a with Some a => Some (ba_base_account a) | None => None end.

Definition neoc_bip39_account_get_word_count (a : option neoc_bip39_account_t) : Z :=
  match a with Some a => ba_word_count a | None => 0 end.

Definition neoc_bip39_account_is_password_protected (a : option neoc_bip39_account_t) : bool :=
  match a with Some a => ba_is_password_protected a | None => false end.

Definition neoc_bip39_account_validate_mnemonic (mnemonic : option (list byte)) : res bool :=
  neoc_bip39_validate_mnemonic mnemonic NEOC_BIP39_LANG_ENGLISH.

Definition neoc_bip39_account_generate_mnemonic (word_count : Z) : res (list byte) :=
  let strength := strength_from_word_count word_count in
  if strength =? 0 then Err NEOC_ERROR_INVALID_ARGUMENT
  else neoc_bip39_generate_mnemonic random_bytes strength NEOC_BIP39_LANG_ENGLISH.

Definition neoc_bip39_account_mnemonic_to_seed (mnemonic password : option (list byte)) : res (list byte) :=
  match mnemonic with
  | None => Err NEOC_ERROR_INVALID_ARGUMENT
  | Some _ =>
      if negb (neoc_malloc_ok 64) then Err NEOC_ERROR_MEMORY
      else neoc_bip39_mnemonic_to_seed_len PKCS5_PBKDF2_HMAC mnemonic (Some (default [] password)) 64
  end.

(** The base account of such an object always has a key pair. *)
Definition neoc_bip39_account_get_private_key (a : neoc_bip39_account_t) (key_length : Z) : res (list byte) :=
  if key_length <? 32 then Err NEOC_ERROR_BUFFER_TOO_SMALL
  else
    match acc_key_pair (ba_base_account a) with
    | Some key_pair => neoc_ec_key_pair_get_private_key key_pair 32
    | None => Err NEOC_ERROR_INVALID_ARGUMENT
    end.

Definition neoc_bip39_account_get_public_key (a : neoc_bip39_account_t) (compressed : bool)
  : res (list byte * Z) :=
  match neoc_account_get_public_key (ba_base_account a) with
  | None => Err NEOC_ERROR_INVALID_STATE
  | Some pub => neoc_ec_public_key_get_encoded pub compressed
  end.

Definition neoc_bip39_account_get_address (a : neoc_bip39_account_t) : res (list byte) :=
  neoc_account_get_address_copy (ba_base_account a).

Definition neoc_bip39_account_export_wif (a : neoc_bip39_account_t) : res (list byte) :=
  neoc_account_export_wif junk (ba_base_account a).

Definition neoc_bip39_account_export_nep2 (a : neoc_bip39_account_t) (password : option (list byte))
  : res (list byte) :=
  match password with
  | None => Err NEOC_ERROR_INVALID_ARGUMENT
  | Some _ => neoc_account_export_nep2 junk (ba_base_account a) password
  end.

Definition neoc_bip39_account_copy (a : neoc_bip39_account_t) : res neoc_bip39_account_t :=
  build_base_account_from_seed (Some (default [] (ba_password a))) (Some (ba_mnemonic a))
    (ba_word_count a) (ba_is_password_protected a).

(** The phrase is never NULL in an object that was made. *)
Definition neoc_bip39_account_equals (a b : option neoc_bip39_account_t) : res bool :=
  match a, b with
  | Some a, Some b =>
      if negb (ba_word_count a =? ba_word_count b) then Ok false
      else if negb (strcmp (ba_mnemonic a) (ba_mnemonic b) =? 0) then Ok false
      else
        match neoc_bip39_account_get_address a, neoc_bip39_account_get_address b with
        | Fault, _ | _, Fault => Fault
        | Ok addr1, Ok addr2 => Ok (strcmp addr1 addr2 =? 0)
        | _, _ => Ok false
        end
  | _, _ => Ok false
  end.
End Operations.

(** ** Proofs *)

Lemma count_app a b : zlen (List.filter (fun c => Z_of_byte c =? 32) (a ++ b))
  = zlen (List.filter (fun c => Z_of_byte c =? 32) a) + zlen (List.filter (fun c => Z_of_byte c =? 32) b).
Proof. by rewrite List.filter_app, zlen_app. Qed.

Lemma count_spaceless w : Forall (fun b => Z_of_byte b <> 32) w -> List.filter (fun c => Z_of_byte c =? 32) w = [].
Proof. induction 1 as [|b w Hb _ IH]; [done|]. cbn [List.filter]. by cmps. Qed.

(** Words joined by single spaces are counted correctly. *)
Lemma count_join words : words <> [] -> Forall spaceless words -> count_words (join_words words) = zlen words.
Proof.
  assert (forall words, words <> [] -> Forall spaceless words ->
    1 + zlen (List.filter (fun c => Z_of_byte c =? 32) (join_words words)) = zlen words) as Hc.
  { clear. induction words as [|w words IH]; [done|]. intros _ [[Hw Hs] Hws]%Forall_cons_1. destruct words as [|w2 words].
    - cbn [join_words]. by rewrite count_spaceless.
    - change (join_words (w :: w2 :: words)) with (w ++ Byte.x20 :: join_words (w2 :: words)).
      rewrite count_app, count_spaceless by done. cbn [List.filter]. change (Z_of_byte Byte.x20 =? 32) with true. cbv iota.
      rewrite zlen_cons, (zlen_cons w), <- (IH ltac:(done) Hws). change (zlen (@nil byte)) with 0. lia. }
  intros Hne Hs. rewrite <- (Hc words Hne Hs). unfold count_words. destruct (join_words words) eqn:E; [|done].
  exfalso. destruct words as [|w [|w2 words]]; [done| |]; apply Forall_cons_1 in Hs as [[Hw _] _]; cbn [join_words] in E;
    [done|by destruct w].
Qed.

(** The salt of the seed. *)
Definition seed_salt (password : option (list byte)) : list byte := str "mnemonic" ++ default [] password.

Section Proofs.
Context `{Allocator} `{Interop} `{Crypto} `{Curve} `{!Ecdsa} `{Nep2Crypto}.
Variable junk : byte.
Variable PKCS5_PBKDF2_HMAC : list byte -> Z -> list byte -> Z -> Z -> Z -> option (list byte).
Variable random_bytes : Z -> option (list byte).
Hypothesis Hw : crypto_works.
Hypothesis Hcurve : curve_works.
Hypothesis Hheap : heap_serves 1024.

(** [seed] is the seed of the phrase and the password. *)
Definition seed_of (phrase : list byte) (password : option (list byte)) (seed : list byte) : Prop :=
  PKCS5_PBKDF2_HMAC phrase (zlen phrase) (seed_salt password) (zlen (seed_salt password)) 2048 64 = Some seed /\
  zlen seed = 64.

Lemma to_seed_ok phrase password seed :
  zlen phrase < 512 -> zlen (default [] password) < 512 -> seed_of phrase password seed ->
  neoc_bip39_mnemonic_to_seed_len PKCS5_PBKDF2_HMAC (Some phrase) (Some (default [] password)) 64 = Ok seed.
Proof.
  intros Hp Hq [Hs _]. unfold neoc_bip39_mnemonic_to_seed_len, neoc_bip39_pbkdf2. cbn [Z.ltb Z.compare Z.eqb].
  pose proof (zlen_nonneg phrase). pose proof (zlen_nonneg (default [] password)). cbv zeta. change (default [] (Some (default [] password))) with (default [] password).
  rewrite wrap_small by (eval_pows; lia). unfold neoc_malloc_ok. cmps. rewrite Hheap by lia. cbn [negb].
  rewrite !swrap_small by (eval_pows; lia). unfold seed_salt in Hs. rewrite zlen_app in Hs.
  change (zlen (str "mnemonic")) with 8 in Hs. by rewrite Hs.
Qed.

(** The object that is built for a valid phrase. *)
Lemma build_ok password phrase wc prot seed key point hash address :
  neoc_bip39_validate_mnemonic (Some phrase) NEOC_BIP39_LANG_ENGLISH = Ok true ->
  zlen phrase < 512 -> zlen (default [] password) < 512 -> seed_of phrase password seed ->
  SHA256 seed = Some key -> key_point key point -> identity_of point hash address ->
  address_block junk hash = Ok address ->
  build_base_account_from_seed junk PKCS5_PBKDF2_HMAC password (Some phrase) wc prot
  = Ok (mk_bip39_account _ (key_account address address hash key point) phrase (zlen phrase)
          (if wc =? 0 then count_words phrase else wc)
          (if has_password password then password else None) prot).
Proof.
  intros Hv Hp Hq Hs Hkey Hk Hi Ha. pose proof (zlen_nonneg phrase). pose proof (zlen_nonneg (default [] password)).
  assert (heap_serves 120) as H120 by (eapply heap_serves_mono; [exact Hheap|lia]).
  unfold build_base_account_from_seed. rewrite Hv. cbn [rbind negb]. cbv zeta.
  rewrite (to_seed_ok _ _ seed) by done. cbn [rbind]. destruct Hs as [_ Hs64]. rewrite <- Hs64.
  rewrite (digest_ok (works_initialized Hw) _ _ Hkey). cbn [rbind]. rewrite (pair_create Hcurve key point Hk H120). cbn [rbind].
  rewrite (from_key_pair_ok junk Hcurve Hheap None key point hash address) by done. cbn [rbind default].
  unfold neoc_malloc_ok at 1. unfold bip39_account_struct_size. cbn [Z.eqb]. rewrite Hheap by lia. cbn [negb].
  rewrite (strdup_ok Hheap) by lia. cbn [rbind]. destruct password as [[|c p]|]; cbn [rbind has_password]; [done| |done].
  rewrite (strdup_ok Hheap) by (cbn in *; lia). done.
Qed.
End Proofs.

(** Recovery of an account from its phrase: the account created for random entropy, with or
    without a password, has the key that the SHA-256 of the seed of phrase and password gives;
    the phrase it shows, with the same password, gives the same account again, a copy is the
    same account, and accounts that are the same compare equal. *)
Theorem bip39_account_recovers `{Allocator} `{Interop} `{Crypto} `{Curve} `{!Ecdsa} `{Nep2Crypto} (junk : byte)
    (pbkdf2 : list byte -> Z -> list byte -> Z -> Z -> Z -> option (list byte))
    (random_bytes : Z -> option (list byte)) (password : option (list byte)) (k : Z)
    (entropy seed key : list byte) (point : EC_POINT) :
  crypto_works -> curve_works -> heap_serves 1024 -> 4 <= k <= 8 ->
  random_bytes (4 * k) = Some entropy -> zlen entropy = 4 * k -> zlen (default [] password) < 512 ->
  (forall phrase, neoc_bip39_mnemonic_from_entropy (Some entropy) (zlen entropy) 0 = Ok phrase ->
     seed_of pbkdf2 phrase password seed) ->
  SHA256 seed = Some key -> key_point key point ->
  exists hash address phrase,
    let account := mk_bip39_account _ (key_account address address hash key point) phrase (zlen phrase) (3 * k)
                     (if has_password password then password else None) (has_password password) in
    identity_of point hash address /\
    neoc_bip39_account_create junk pbkdf2 random_bytes password (3 * k) = Ok account /\
    neoc_bip39_account_from_mnemonic junk pbkdf2 password
      (neoc_bip39_account_get_mnemonic (Some account)) = Ok account /\
    neoc_bip39_account_copy junk pbkdf2 account = Ok account /\
    neoc_bip39_account_equals (Some account) (Some account) = Ok true /\
    neoc_bip39_account_get_private_key account 32 = Ok key.
Proof.
  intros Hw Hc Hh Hk Hr Hn Hq Hseed Hkey Hkp.
  assert (heap_serves 256) as H256 by (eapply heap_serves_mono; [exact Hh|lia]).
  destruct (mnemonic_written 0 k entropy ltac:(done) Hw H256 Hk Hn) as (phrase & gs & h & Ef & Et & Ej & Hgs & Hlen & _ & _ & _ & Hv).
  destruct (identity_exists junk Hw Hc Hh point) as (hash & address & Hi & Ha). specialize (Hseed phrase Ef).
  assert (Forall spaceless (map group_word gs)) as Hsp by (rewrite <- Et; by apply strtok_spaceless).
  assert (map group_word gs <> []) as Hne.
  { intros E%map_eq_nil. rewrite E in Hlen. change (zlen (@nil (list bool))) with 0 in Hlen. lia. }
  assert (count_words phrase = 3 * k) as Hcw.
  { rewrite Ej, count_join by done. unfold zlen in *. by rewrite length_map. }
  assert (zlen phrase < 512) as Hp.
  { rewrite Ej, zlen_join by done. pose proof (zlen_words_bound gs Hgs). unfold zlen in *. rewrite length_map. lia. }
  exists hash, address, phrase. cbv zeta.
  assert (forall pw wc prot, default [] pw = default [] password -> (wc = 0 \/ wc = 3 * k) ->
    build_base_account_from_seed junk pbkdf2 pw (Some phrase) wc prot
    = Ok (mk_bip39_account _ (key_account address address hash key point) phrase (zlen phrase) (3 * k)
          (if has_password pw then pw else None) prot)) as Hb.
  { intros pw wc prot Epw Hwc. rewrite (build_ok junk pbkdf2 Hw Hc Hh pw phrase wc prot seed key point hash address);
      [|done|done|by rewrite Epw|by unfold seed_of, seed_salt in *; rewrite Epw|done|done|done|done].
    destruct Hwc as [->| ->]; [by rewrite Z.eqb_refl, Hcw|]. by cmps. }
  split_and!; [done| | | | |].
  - unfold neoc_bip39_account_create.
    assert (strength_from_word_count (3 * k) = 4 * k * 8) as ->.
    { assert (k = 4 \/ k = 5 \/ k = 6 \/ k = 7 \/ k = 8) as [->|[->|[->|[->| ->]]]] by lia; done. }
    cmps. unfold neoc_bip39_generate_mnemonic. rewrite Z.div_mul by done. cmps. cbn [orb].
    rewrite (Z.mul_comm 4 k), Z.mod_mul, (Z.mul_comm k 4) by done. cbn [Z.eqb negb]. unfold neoc_malloc_ok at 1. cmps.
    rewrite Hh by lia. cbn [negb]. rewrite Hr, <- Hn. unfold NEOC_BIP39_LANG_ENGLISH. rewrite Ef. cbn [rbind].
    apply Hb; [done|by right].
  - apply Hb; [done|by left].
  - unfold neoc_bip39_account_copy. cbn [ba_password ba_mnemonic ba_word_count ba_is_password_protected].
    rewrite Hb; [|by destruct password as [[]|]|by right]. by destruct password as [[]|].
  - unfold neoc_bip39_account_equals, neoc_bip39_account_get_address, neoc_account_get_address_copy.
    cbn [ba_word_count ba_mnemonic ba_base_account key_account acc_address]. rewrite Z.eqb_refl, strcmp_refl. cbn [negb Z.eqb].
    destruct Hi as (_ & Hh160 & Haddr). rewrite (strdup_ok Hh) by (by eapply address_size). by rewrite strcmp_refl.
  - unfold neoc_bip39_account_get_private_key. cbn [ba_base_account key_account acc_key_pair Z.ltb Z.compare].
    apply get_private_ok; [apply Hkp|lia].
Qed.

(** Validation ignores spaces in front, between and behind the words, but the seed is derived
    from the text and the words are counted by the spaces: a phrase with one more space is as
    valid, is counted as one word longer and stands for another account. *)
Theorem bip39_spaces_matter `{Allocator} `{Crypto} (language : Z) (phrase : list byte) :
  malloc_ok (zlen phrase + 1) = true -> malloc_ok (zlen phrase + 2) = true -> phrase <> [] ->
  neoc_bip39_mnemonic_to_entropy (Some (Byte.x20 :: phrase)) language
  = neoc_bip39_mnemonic_to_entropy (Some phrase) language /\
  count_words (Byte.x20 :: phrase) = count_words phrase + 1.
Proof.
  intros H1 H2 Hne. split.
  - unfold neoc_bip39_mnemonic_to_entropy, neoc_strdup, neoc_malloc_ok. rewrite zlen_cons. pose proof (zlen_nonneg phrase).
    cmps. replace (1 + zlen phrase + 1) with (zlen phrase + 2) by lia. rewrite H1, H2. done.
  - unfold count_words. destruct phrase as [|c phrase]; [done|]. cbn [List.filter].
    change (Z_of_byte Byte.x20 =? 32) with true. cbv iota. rewrite zlen_cons. lia.
Qed.

(** ** Samples *)

Section Samples.
#[local] Existing Instance mib_heap.
#[local] Existing Instance sample_interop.
#[local] Existing Instance toy_crypto.
#[local] Existing Instance toy_curve.
#[local] Existing Instance toy_ecdsa.
#[local] Existing Instance toy_nep2_crypto.

Definition sample_random (n : Z) : option (list byte) := Some (replicate (Z.to_nat n) Byte.x2a).
Definition sample_pbkdf2 (_ : list byte) (_ : Z) (_ : list byte) (_ _ n : Z) : option (list byte) :=
  Some (replicate (Z.to_nat n) Byte.x07).

Lemma bip39_account_recovers_witness :
  exists account,
    neoc_bip39_account_create Byte.x00 sample_pbkdf2 sample_random (Some (str "neo")) 12 = Ok account /\
    neoc_bip39_account_from_mnemonic Byte.x00 sample_pbkdf2 (Some (str "neo"))
      (neoc_bip39_account_get_mnemonic (Some account)) = Ok account.
Proof.
  assert (forall phrase, neoc_bip39_mnemonic_from_entropy (Some (replicate 16 Byte.x2a)) (zlen (replicate 16 Byte.x2a)) 0
    = Ok phrase -> seed_of sample_pbkdf2 phrase (Some (str "neo")) (replicate 64 Byte.x07)) as Hseed
    by (intros phrase _; split; by vm_compute).
  destruct (bip39_account_recovers Byte.x00 sample_pbkdf2 sample_random (Some (str "neo")) 4
    (replicate 16 Byte.x2a) (replicate 64 Byte.x07) (toy_private (toy_mix (replicate 64 Byte.x07) ^ 2)) _
    toy_crypto_works toy_curve_works kib_serves ltac:(done) ltac:(done) ltac:(by vm_compute) ltac:(by vm_compute) Hseed
    ltac:(by vm_compute) (toy_private_point _)) as (hash & address & phrase & _ & E1 & E2 & _).
  eexists. exact (conj E1 E2).
Defined.
End Samples.
