(* ===== verification/Wallet.v ===== *)
(** * Wallets (src/wallet/wallet.c)

    A wallet owns its accounts and shares them with its callers: the accounts live in a
    store of objects, the wallet has their addresses in the store in an array and one of
    them as its default, and removing an account frees it.  Reading or writing a freed
    account is a [Fault].  Files and the NEP-6 format are not modelled here. *)

From S2P Require Import Prelude BinaryWriter Crypto Base58 Hashes Interop Opcode NeoVM ScriptBuilder EcKey VerificationScript ScriptHelper Signature KeyPair Wif Nep2 Witness MultiSig Account.
From stdpp Require Import gmap.
#[local] Open Scope Z_scope.

(** An account object's place in the store. *)
Abbreviation loc := positive.

(** [accounts] has the [account_count] pointers in use. *)
Record neoc_wallet_t := mk_wallet {
  wal_name : option (list byte);
  wal_version : option (list byte);
  wal_accounts : list loc;
  wal_capacity : Z;
  wal_default : option loc
}.

Definition INITIAL_ACCOUNT_CAPACITY : Z := 10.

(** [sizeof(neoc_wallet_t)] *)
Definition wallet_struct_size : Z := 56.

(** The live accounts and the wallet. *)
Record wallet_state `{Curve} := mk_state {
  st_heap : gmap loc neoc_account_t;
  st_wallet : neoc_wallet_t
}.

Section Operations.
Context `{Allocator} `{Interop} `{Crypto} `{Curve} `{!Ecdsa} `{Nep2Crypto}.
Variable junk : byte.

Abbreviation Wal := (M wallet_state).

(** "NeoC Wallet" and "1.0" *)
Definition default_wallet_name : list byte :=
  [Byte.x4e; Byte.x65; Byte.x6f; Byte.x43; Byte.x20; Byte.x57; Byte.x61; Byte.x6c; Byte.x6c; Byte.x65; Byte.x74].
Definition wallet_version : list byte := [Byte.x31; Byte.x2e; Byte.x30].

(** A failed copy of the default name is not noticed. *)
Definition neoc_wallet_create (name : option (list byte)) : res neoc_wallet_t :=
  if negb (malloc_ok wallet_struct_size) then Err NEOC_ERROR_MEMORY
  else
    let? name :=
      match name with
      | Some name =>
          if malloc_ok (zlen name + 1) then Ok (Some name) else Err NEOC_ERROR_MEMORY
      | None =>
          Ok (if malloc_ok (zlen default_wallet_name + 1) then Some default_wallet_name else None)
      end in
    if negb (malloc_ok (zlen wallet_version + 1)) then Err NEOC_ERROR_MEMORY
    else if negb (malloc_ok (INITIAL_ACCOUNT_CAPACITY * 8)) then Err NEOC_ERROR_MEMORY
    else Ok (mk_wallet name (Some wallet_version) [] INITIAL_ACCOUNT_CAPACITY None).

(** Read and write an account object. *)
Definition get_account (l : loc) : Wal neoc_account_t := fun s =>
  match st_heap s !! l with
  | Some a => (Ok a, s)
  | None => (Fault, s)
  end.

Definition put_account (l : loc) (a : neoc_account_t) : Wal unit := fun s =>
  match st_heap s !! l with
  | Some _ => (Ok tt, mk_state _ (<[l := a]> (st_heap s)) (st_wallet s))
  | None => (Fault, s)
  end.

Definition get_wallet : Wal neoc_wallet_t := fun s => (Ok (st_wallet s), s).
Definition put_wallet (w : neoc_wallet_t) : Wal unit := fun s =>
  (Ok tt, mk_state _ (st_heap s) w).

Definition set_accounts (accounts : list loc) (w : neoc_wallet_t) : neoc_wallet_t :=
  mk_wallet (wal_name w) (wal_version w) accounts (wal_capacity w) (wal_default w).
Definition set_capacity (capacity : Z) (w : neoc_wallet_t) : neoc_wallet_t :=
  mk_wallet (wal_name w) (wal_version w) (wal_accounts w) capacity (wal_default w).
Definition set_default (default : option loc) (w : neoc_wallet_t) : neoc_wallet_t :=
  mk_wallet (wal_name w) (wal_version w) (wal_accounts w) (wal_capacity w) default.

(** [strcmp] with the address of an account; a NULL address is read. *)
Definition address_is (address : list byte) (l : loc) : Wal bool :=
  let! a := get_account l in
  match acc_address a with
  | Some text => ret (bool_decide (text = address))
  | None => fault
  end.

(** The index of the first account with an address, if there is one. *)
Fixpoint find_address (address : list byte) (accounts : list loc) (i : nat) : Wal (option nat) :=
  match accounts with
  | [] => ret None
  | l :: accounts =>
      let! found := address_is address l in
      if found then ret (Some i) else find_address address accounts (S i)
  end.

(** [realloc] to twice the capacity when the array is full. *)
Definition neoc_wallet_add_account (l : loc) : Wal unit :=
  let! account := get_account l in
  let! w := get_wallet in
  let! address :=
    match wal_accounts w, acc_address account with
    | [], _ => ret []
    | _, Some text => ret text
    | _, None => fault
    end in
  let! found := find_address address (wal_accounts w) 0 in
  match found with
  | Some _ => fail NEOC_ERROR_INVALID_STATE
  | None =>
      let! w :=
        (if wal_capacity w <=? zlen (wal_accounts w) then
           let new_capacity := wrap 64 (wal_capacity w * 2) in
           if negb (malloc_ok (wrap 64 (new_capacity * 8))) then fail NEOC_ERROR_MEMORY
           else ret (set_capacity new_capacity w)
         else ret w) in
      let w := set_accounts (wal_accounts w ++ [l]) w in
      if zlen (wal_accounts w) =? 1 then
        do! put_wallet (set_default (Some l) w) in
        put_account l (set_is_default true account)
      else put_wallet w
  end.

(** [neoc_account_free] of an account object. *)
Definition free_account (l : loc) : Wal unit := fun s =>
  match st_heap s !! l with
  | Some _ => (Ok tt, mk_state _ (delete l (st_heap s)) (st_wallet s))
  | None => (Fault, s)
  end.

(** If the account to remove is the default, the first of the others takes its place. *)
Definition replace_default (index : nat) (account : loc) (w : neoc_wallet_t) : Wal neoc_wallet_t :=
  if bool_decide (wal_default w = Some account) then
    if 1 <? zlen (wal_accounts w) then
      match wal_accounts w !! (if bool_decide (0 < index)%nat then 0%nat else 1%nat) with
      | None => fault
      | Some other =>
          let! a := get_account other in
          do! put_account other (set_is_default true a) in
          ret (set_default (Some other) w)
      end
    else ret (set_default None w)
  else ret w.

Definition neoc_wallet_remove_account (address : option (list byte)) : Wal unit :=
  match address with
  | None => fail NEOC_ERROR_INVALID_ARGUMENT
  | Some address =>
      let! w := get_wallet in
      let! found := find_address address (wal_accounts w) 0 in
      match found with
      | None => fail NEOC_ERROR_INVALID_ARGUMENT
      | Some index =>
          match wal_accounts w !! index with
          | None => fault
          | Some account =>
              let! w := replace_default index account w in
              do! put_wallet (set_accounts (base.delete index (wal_accounts w)) w) in
              free_account account
          end
      end
  end.

(** A lookup returns the pointer to the account, NULL when there is none. *)
Definition neoc_wallet_get_account_by_address (address : option (list byte)) : Wal (option loc) :=
  match address with
  | None => ret None
  | Some address =>
      let! w := get_wallet in
      let! found := find_address address (wal_accounts w) 0 in
      ret (found ≫= fun i => wal_accounts w !! i)
  end.

Definition neoc_wallet_get_account_by_index (index : Z) : Wal (option loc) :=
  let! w := get_wallet in
  if zlen (wal_accounts w) <=? index then ret None
  else match wal_accounts w !! Z.to_nat index with
       | Some l => ret (Some l)
       | None => fault
       end.

Fixpoint find_hash (script_hash : neoc_hash160_t) (accounts : list loc) : Wal (option loc) :=
  match accounts with
  | [] => ret None
  | l :: accounts =>
      let! a := get_account l in
      if memcmp_loop (hash160_data (acc_script_hash a)) (hash160_data script_hash) =? 0
      then ret (Some l) else find_hash script_hash accounts
  end.

Definition neoc_wallet_get_account_by_script_hash (script_hash : option neoc_hash160_t)
  : Wal (option loc) :=
  match script_hash with
  | None => ret None
  | Some h => let! w := get_wallet in find_hash h (wal_accounts w)
  end.

Definition neoc_wallet_get_accounts : Wal (list loc * Z) :=
  let! w := get_wallet in ret (wal_accounts w, zlen (wal_accounts w)).

Definition neoc_wallet_get_default_account_ptr : Wal (option loc) :=
  let! w := get_wallet in ret (wal_default w).

Definition neoc_wallet_get_default_account_out : Wal loc :=
  let! result := neoc_wallet_get_default_account_ptr in
  match result with
  | None => fail NEOC_ERROR_NOT_FOUND
  | Some l => ret l
  end.

Definition neoc_wallet_set_default_account_str (address : option (list byte)) : Wal unit :=
  match address with
  | None => fail NEOC_ERROR_INVALID_ARGUMENT
  | Some _ =>
      let! account := neoc_wallet_get_account_by_address address in
      match account with
      | None => fail NEOC_ERROR_INVALID_ARGUMENT
      | Some l =>
          let! w := get_wallet in
          do! match wal_default w with
              | Some old =>
                  let! a := get_account old in put_account old (set_is_default false a)
              | None => ret tt
              end in
          do! put_wallet (set_default (Some l) w) in
          let! a := get_account l in
          put_account l (set_is_default true a)
      end
  end.

(** [char address[NEOC_ADDRESS_LENGTH]] *)
Definition local_address (script_hash : neoc_hash160_t) : res (list byte) :=
  let? block :=
    with_buffer junk (Z.to_nat NEOC_ADDRESS_LENGTH)
      (neoc_hash160_to_address junk script_hash NEOC_ADDRESS_LENGTH) in
  Ok (cstring block).

Definition neoc_wallet_set_default_account_hash (script_hash : option neoc_hash160_t) : Wal unit :=
  match script_hash with
  | None => fail NEOC_ERROR_INVALID_ARGUMENT
  | Some h =>
      let! address := lift (local_address h) in
      neoc_wallet_set_default_account_str (Some address)
  end.

Definition neoc_wallet_set_default_account_account (l : loc) : Wal unit :=
  let! account := get_account l in
  match acc_address account with
  | Some address => neoc_wallet_set_default_account_str (Some address)
  | None =>
      let! address := lift (local_address (acc_script_hash account)) in
      neoc_wallet_set_default_account_str (Some address)
  end.

(** A new account object at a free place. *)
Definition new_account (l : loc) (a : neoc_account_t) : Wal unit := fun s =>
  match st_heap s !! l with
  | Some _ => (Fault, s)
  | None => (Ok tt, mk_state _ (<[l := a]> (st_heap s)) (st_wallet s))
  end.

(** Create an account at [l] and add it; a failure frees it and gives NULL. *)
Definition adopt (l : loc) (created : res neoc_account_t) : Wal (option loc) :=
  match created with
  | Fault => fault
  | Err _ => ret None
  | Ok a =>
      do! new_account l a in fun s =>
      match neoc_wallet_add_account l s with
      | (Ok _, s) => (Ok (Some l), s)
      | (Err _, s) => (do! free_account l in ret None) s
      | (Fault, s) => (Fault, s)
      end
  end.

Definition neoc_wallet_create_account (l : loc) (random label : option (list byte))
  : Wal (option loc) :=
  adopt l (neoc_account_create_with_label junk random label).

Definition neoc_wallet_import_from_wif (l : loc) (wif label : option (list byte))
  : Wal (option loc) :=
  match wif with
  | None => ret None
  | Some _ => adopt l (neoc_account_create_from_wif_with_label junk label wif)
  end.

Definition neoc_wallet_import_from_nep2 (l : loc) (nep2 passphrase label : option (list byte))
  : Wal (option loc) :=
  match nep2, passphrase with
  | Some _, Some _ => adopt l (neoc_account_create_from_nep2_with_label junk label nep2 passphrase)
  | _, _ => ret None
  end.

Definition neoc_wallet_contains (address : option (list byte)) : Wal bool :=
  let! account := neoc_wallet_get_account_by_address address in
  ret (bool_decide (is_Some account)).

Definition neoc_wallet_get_account_count_value : Wal Z :=
  let! w := get_wallet in ret (zlen (wal_accounts w)).

(** Run an operation of the account on every account of the wallet. *)
Fixpoint for_accounts (op : M neoc_account_t unit) (accounts : list loc) : Wal unit :=
  match accounts with
  | [] => ret tt
  | l :: accounts =>
      let! a := get_account l in
      let '(r, a') := op a in
      do! put_account l a' in
      do! lift r in
      for_accounts op accounts
  end.

(** The passphrases are not used. *)
Definition neoc_wallet_lock_all (passphrase : option (list byte)) : Wal unit :=
  let! w := get_wallet in for_accounts neoc_account_lock_internal (wal_accounts w).

Definition neoc_wallet_unlock_all (passphrase : option (list byte)) : Wal unit :=
  let! w := get_wallet in for_accounts neoc_account_unlock_internal (wal_accounts w).

Fixpoint free_accounts (accounts : list loc) : Wal unit :=
  match accounts with
  | [] => ret tt
  | l :: accounts => do! free_account l in free_accounts accounts
  end.

(** The accounts go with the wallet. *)
Definition neoc_wallet_free : Wal unit :=
  let! w := get_wallet in free_accounts (wal_accounts w).

End Operations.

(** ** The wallet as a list of addresses *)

(** What a caller can see: the addresses in order and the default one. *)
Record wallet_view := mk_view { v_addresses : list (list byte); v_default : option (list byte) }.

(** The calls a client makes. [OpAdd l a] creates the account [a] at [l] and adds it. *)
Inductive wallet_op `{Curve} : Type :=
| OpAdd (l : loc) (a : neoc_account_t)
| OpRemove (address : list byte)
| OpSetDefault (address : list byte)
| OpLockAll (passphrase : option (list byte))
| OpUnlockAll (passphrase : option (list byte)).

(** The specification of a call: its result and the view after it.  Adding can also fail
    for want of memory and then changes nothing. *)
Inductive spec_step `{Curve} : wallet_view -> wallet_op -> res unit -> wallet_view -> Prop :=
| spec_add v l a t :
    acc_address a = Some t -> t ∉ v_addresses v ->
    spec_step v (OpAdd l a) (Ok tt)
      (mk_view (v_addresses v ++ [t])
         (match v_addresses v with [] => Some t | _ => v_default v end))
| spec_add_twice v l a t :
    acc_address a = Some t -> t ∈ v_addresses v ->
    spec_step v (OpAdd l a) (Err NEOC_ERROR_INVALID_STATE) v
| spec_add_memory v l a :
    spec_step v (OpAdd l a) (Err NEOC_ERROR_MEMORY) v
| spec_remove v t :
    t ∈ v_addresses v ->
    spec_step v (OpRemove t) (Ok tt)
      (let rest := filter (fun u => u <> t) (v_addresses v) in
       mk_view rest (if bool_decide (v_default v = Some t) then head rest else v_default v))
| spec_remove_absent v t :
    t ∉ v_addresses v -> spec_step v (OpRemove t) (Err NEOC_ERROR_INVALID_ARGUMENT) v
| spec_set_default v t :
    t ∈ v_addresses v -> spec_step v (OpSetDefault t) (Ok tt) (mk_view (v_addresses v) (Some t))
| spec_set_default_absent v t :
    t ∉ v_addresses v -> spec_step v (OpSetDefault t) (Err NEOC_ERROR_INVALID_ARGUMENT) v
| spec_lock v p : spec_step v (OpLockAll p) (Ok tt) v
| spec_unlock v p : spec_step v (OpUnlockAll p) (Ok tt) v.

Definition exec_wallet_op `{Allocator} `{Curve} (op : wallet_op) : M wallet_state unit :=
  match op with
  | OpAdd l a => do! new_account l a in neoc_wallet_add_account l
  | OpRemove t => neoc_wallet_remove_account (Some t)
  | OpSetDefault t => neoc_wallet_set_default_account_str (Some t)
  | OpLockAll p => neoc_wallet_lock_all p
  | OpUnlockAll p => neoc_wallet_unlock_all p
  end.

(** What a client may do: the place of a new account is free, and the account has an
    address and is not marked as a default. *)
Definition allowed `{Curve} (op : wallet_op) (s : wallet_state) : Prop :=
  match op with
  | OpAdd l a =>
      st_heap s !! l = None /\ is_Some (acc_address a) /\ acc_is_default a = false
  | _ => True
  end.

Section Proofs.
Context `{Allocator} `{Curve}.

Definition address_at (s : wallet_state) (l : loc) : option (list byte) :=
  st_heap s !! l ≫= acc_address.

(** The state [s] after at most [n] additions represents the view [v]. *)
Record represents (n : Z) (s : wallet_state) (v : wallet_view) : Prop := {
  rep_addresses : map (address_at s) (wal_accounts (st_wallet s)) = map Some (v_addresses v);
  rep_distinct : NoDup (v_addresses v);
  rep_room : 10 <= wal_capacity (st_wallet s) <= 10 + 2 * n;
  rep_count : zlen (v_addresses v) <= wal_capacity (st_wallet s) /\ zlen (v_addresses v) <= n;
  rep_default : wal_default (st_wallet s) ≫= address_at s = v_default v;
  rep_default_in : match wal_default (st_wallet s) with
                   | Some l => l ∈ wal_accounts (st_wallet s)
                   | None => v_addresses v = []
                   end;
  rep_flags l a : l ∈ wal_accounts (st_wallet s) -> st_heap s !! l = Some a ->
    acc_is_default a = bool_decide (wal_default (st_wallet s) = Some l)
}.

Lemma address_live s l t :
  address_at s l = Some t -> exists a, st_heap s !! l = Some a /\ acc_address a = Some t.
Proof. unfold address_at. destruct (st_heap s !! l) as [a|]; [|done]. intros E. by exists a. Qed.

Lemma address_is_ok s l t u :
  address_at s l = Some u -> address_is t l s = (Ok (bool_decide (u = t)), s).
Proof.
  intros (a & Ea & Et)%address_live. unfold address_is, get_account, bind. by rewrite Ea, Et.
Qed.

(** The search finds the position of the address in the view. *)
Lemma find_address_ok s t ls : forall us i,
  map (address_at s) ls = map Some us ->
  find_address t ls i s = (Ok ((fun k => (i + fst k)%nat) <$> list_find (fun u => u = t) us), s).
Proof.
  induction ls as [|l ls IH]; intros [|u us] i E; try done. cbn [map] in E.
  injection E as El Els. cbn [find_address]. rewrite (bind_ok _ _ _ _ _ (address_is_ok s l t u El)).
  cbn [list_find]. destruct (decide (u = t)) as [->|Hne].
  - rewrite bool_decide_eq_true_2 by done. cbn. by rewrite Nat.add_0_r.
  - rewrite bool_decide_eq_false_2 by done. rewrite (IH us (S i) Els).
    destruct (list_find _ us) as [[k u']|]; [|done]. cbn. by rewrite Nat.add_succ_r.
Qed.

Lemma rep_length n s v : represents n s v -> length (wal_accounts (st_wallet s)) = length (v_addresses v).
Proof. intros [E _ _ _ _ _ _]. by rewrite <- (length_map (address_at s)), E, length_map. Qed.

Lemma rep_lookup n s v k :
  represents n s v -> address_at s <$> wal_accounts (st_wallet s) !! k = Some <$> v_addresses v !! k.
Proof. intros [E _ _ _ _ _ _]. rewrite <- !list_lookup_fmap. exact (f_equal (lookup k) E). Qed.

Lemma find_present n s v t :
  represents n s v -> t ∈ v_addresses v ->
  exists k l, find_address t (wal_accounts (st_wallet s)) 0 s = (Ok (Some k), s) /\
    wal_accounts (st_wallet s) !! k = Some l /\ v_addresses v !! k = Some t /\ address_at s l = Some t.
Proof.
  intros R Ht. rewrite (find_address_ok s t _ _ 0 (rep_addresses _ _ _ R)).
  destruct (list_find_elem_of (fun u => u = t) (v_addresses v) t Ht eq_refl) as [[k u] E].
  rewrite E. apply list_find_Some in E as (Ek & -> & _).
  pose proof (rep_lookup n s v k R) as L. rewrite Ek in L.
  destruct (wal_accounts (st_wallet s) !! k) as [l|] eqn:El; [|done]. exists k, l. cbn in *.
  split_and!; [done|done|done|]. by injection L.
Qed.

Lemma find_absent n s v t :
  represents n s v -> t ∉ v_addresses v ->
  find_address t (wal_accounts (st_wallet s)) 0 s = (Ok None, s).
Proof.
  intros R Ht. rewrite (find_address_ok s t _ _ 0 (rep_addresses _ _ _ R)).
  destruct (list_find _ _) as [[k u]|] eqn:E; [|done]. apply list_find_Some in E as (Ek & -> & _).
  destruct Ht. by eapply list_elem_of_lookup_2.
Qed.

(** Two places in the wallet with the same address are the same. *)
Lemma rep_inj n s v k1 k2 l :
  represents n s v -> wal_accounts (st_wallet s) !! k1 = Some l ->
  wal_accounts (st_wallet s) !! k2 = Some l -> k1 = k2.
Proof.
  intros R E1 E2. pose proof (rep_lookup n s v k1 R) as L1. pose proof (rep_lookup n s v k2 R) as L2.
  rewrite E1 in L1. rewrite E2 in L2. cbn in *. rewrite L1 in L2.
  destruct (v_addresses v !! k1) as [t1|] eqn:T1; [|done].
  destruct (v_addresses v !! k2) as [t2|] eqn:T2; [|done]. injection L2 as ->.
  eapply NoDup_lookup; [exact (rep_distinct _ _ _ R)|done|done].
Qed.

Lemma rep_live n s v l :
  represents n s v -> l ∈ wal_accounts (st_wallet s) ->
  exists a t, st_heap s !! l = Some a /\ acc_address a = Some t /\ t ∈ v_addresses v.
Proof.
  intros R Hl. apply list_elem_of_lookup in Hl as [k Ek].
  pose proof (rep_lookup n s v k R) as L. rewrite Ek in L.
  destruct (v_addresses v !! k) as [t|] eqn:T; [|done]. injection L as L.
  apply address_live in L as (a & Ea & Et). exists a, t. split_and!; [done|done|].
  by eapply list_elem_of_lookup_2.
Qed.

(** Changing an account without changing its address. *)
Lemma address_at_insert s l a a' w l' :
  st_heap s !! l = Some a -> acc_address a' = acc_address a ->
  address_at (mk_state _ (<[l := a']> (st_heap s)) w) l' = address_at s l'.
Proof.
  intros Ea Et. unfold address_at. cbn [st_heap]. destruct (decide (l = l')) as [<-|Hne].
  - by rewrite lookup_insert_eq, Ea.
  - by rewrite lookup_insert_ne.
Qed.

Lemma rep_mono n m s v : represents n s v -> n <= m -> represents m s v.
Proof. intros [] Hle. constructor; try done; lia. Qed.

(** Only the addresses and the flags of the accounts matter. *)
Lemma rep_heap n s v heap :
  represents n s v ->
  (forall l, l ∈ wal_accounts (st_wallet s) -> exists a a', st_heap s !! l = Some a /\
     heap !! l = Some a' /\ acc_address a' = acc_address a /\ acc_is_default a' = acc_is_default a) ->
  represents n (mk_state _ heap (st_wallet s)) v.
Proof.
  intros R Hh. assert (forall l, l ∈ wal_accounts (st_wallet s) ->
    address_at (mk_state _ heap (st_wallet s)) l = address_at s l) as Ha.
  { intros l (a & a' & E & E' & Et & _)%Hh. unfold address_at. cbn [st_heap]. by rewrite E, E'. }
  destruct R as [Ra Rd Rr Rc Rf Ri Rg]. constructor; cbn [st_wallet]; try done.
  - rewrite <- Ra. apply map_ext_in. intros l Hl. by apply Ha, list_elem_of_In.
  - rewrite <- Rf. destruct (wal_default (st_wallet s)) as [l|]; [|done]. by apply Ha.
  - cbn [st_heap]. intros l a' Hl E'. destruct (Hh l Hl) as (a & b & E & E2 & _ & Ef).
    assert (a' = b) as -> by congruence. rewrite Ef. by apply Rg.
Qed.

Lemma for_each_lock b op ls : (forall a, op a = (Ok tt, set_locked b a)) -> forall s,
  (forall l, l ∈ ls -> is_Some (st_heap s !! l)) ->
  exists heap, for_accounts op ls s = (Ok tt, mk_state _ heap (st_wallet s)) /\
    forall l, heap !! l = (if decide (l ∈ ls) then set_locked b <$> st_heap s !! l else st_heap s !! l).
Proof.
  intros Hop. induction ls as [|l0 ls IH]; intros s Hlive.
  - exists (st_heap s). split; [by destruct s|]. intros l. destruct (decide _) as [F|]; [|done]. inversion F.
  - destruct (Hlive l0) as [a Ea]; [left|]. cbn [for_accounts]. unfold bind, get_account. rewrite Ea, Hop.
    unfold put_account. rewrite Ea. cbn [lift].
    destruct (IH (mk_state _ (<[l0 := set_locked b a]> (st_heap s)) (st_wallet s))) as (heap & E & Hh).
    { intros l Hl. cbn [st_heap]. destruct (decide (l0 = l)) as [<-|Hne]; [by rewrite lookup_insert_eq|].
      rewrite lookup_insert_ne by done. apply Hlive. by right. }
    exists heap. split; [exact E|]. intros l. rewrite Hh. cbn [st_heap].
    destruct (decide (l0 = l)) as [<-|Hne].
    + rewrite lookup_insert_eq, Ea, (decide_True (P := l0 ∈ l0 :: ls)) by left.
      by destruct (decide (l0 ∈ ls)).
    + rewrite lookup_insert_ne by done. destruct (decide (l ∈ ls)) as [Hi|Hi].
      * by rewrite decide_True by (by right).
      * rewrite decide_False; [done|]. intros [->|]%elem_of_cons; done.
Qed.

Lemma lock_step n s v b op :
  (forall a, op a = (Ok tt, set_locked b a)) -> represents n s v ->
  exists s', (let! w := get_wallet in for_accounts op (wal_accounts w)) s = (Ok tt, s') /\ represents n s' v /\
    st_wallet s' = st_wallet s /\
    forall l a, l ∈ wal_accounts (st_wallet s) -> st_heap s !! l = Some a ->
      st_heap s' !! l = Some (set_locked b a).
Proof.
  intros Hop R. unfold bind, get_wallet.
  destruct (for_each_lock b op (wal_accounts (st_wallet s)) Hop s) as (heap & -> & Hh).
  { intros l Hl. destruct (rep_live _ _ _ _ R Hl) as (a & _ & E & _). by exists a. }
  eexists. split; [done|]. split_and!; [|done|].
  - apply rep_heap; [done|]. intros l Hl. destruct (rep_live _ _ _ _ R Hl) as (a & _ & E & _).
    exists a, (set_locked b a). rewrite Hh, decide_True, E by done. done.
  - intros l a Hl E. cbn [st_heap]. by rewrite Hh, decide_True, E.
Qed.

(** The account object exists before it is added. *)
Lemma rep_new n s v l a :
  represents n s v -> st_heap s !! l = None ->
  represents n (mk_state _ (<[l := a]> (st_heap s)) (st_wallet s)) v /\
  l ∉ wal_accounts (st_wallet s).
Proof.
  intros R Hl. assert (l ∉ wal_accounts (st_wallet s)) as Hn.
  { intros Hi. destruct (rep_live _ _ _ _ R Hi) as (? & ? & E & _). congruence. }
  split; [|done]. apply rep_heap; [done|]. intros l' Hl'.
  destruct (rep_live _ _ _ _ R Hl') as (b & _ & E & _). exists b, b.
  rewrite lookup_insert_ne by (intros ->; done). done.
Qed.

(** The wallet with one more account at its end. *)
Lemma rep_push n s v l a t capacity :
  represents n s v -> l ∉ wal_accounts (st_wallet s) -> st_heap s !! l = Some a ->
  acc_address a = Some t -> acc_is_default a = false -> t ∉ v_addresses v ->
  zlen (v_addresses v) < capacity -> 10 <= capacity <= 10 + 2 * (n + 1) ->
  (v_addresses v <> [] ->
   represents (n + 1)
     (mk_state _ (st_heap s)
        (set_accounts (wal_accounts (st_wallet s) ++ [l]) (set_capacity capacity (st_wallet s))))
     (mk_view (v_addresses v ++ [t]) (v_default v))) /\
  (v_addresses v = [] ->
   represents (n + 1)
     (mk_state _ (<[l := set_is_default true a]> (st_heap s))
        (set_default (Some l) (set_accounts [l] (set_capacity capacity (st_wallet s)))))
     (mk_view [t] (Some t))).
Proof.
  intros [Ra Rd Rr Rc Rf Ri Rg] Hl Ea Et Ef Ht Hcap Hc. split; intros Hv.
  - constructor; cbn [st_wallet st_heap wal_accounts wal_capacity wal_default set_accounts set_capacity
      v_addresses v_default]; try done.
    + rewrite !map_app, <- Ra. f_equal. cbn [map]. unfold address_at. cbn [st_heap]. by rewrite Ea, <- Et.
    + apply NoDup_app. split_and!; [done| |apply NoDup_singleton].
      intros x Hx ->%list_elem_of_singleton. done.
    + rewrite zlen_app. change (zlen [t]) with 1. lia.
    + destruct (wal_default (st_wallet s)); [|done]. apply elem_of_app. by left.
    + intros l' b [Hi| ->%list_elem_of_singleton]%elem_of_app E; [by apply Rg|].
      assert (b = a) as -> by congruence. rewrite Ef. symmetry. apply bool_decide_eq_false_2.
      intros F. rewrite F in Ri. done.
  - rewrite Hv in *. constructor; cbn [st_wallet st_heap wal_accounts wal_capacity wal_default set_default
      set_accounts set_capacity v_addresses v_default]; try done.
    + cbn [map]. rewrite (address_at_insert s l a) by done. unfold address_at. by rewrite Ea, <- Et.
    + apply NoDup_singleton.
    + change (zlen [t]) with 1. change (zlen []) with 0 in *. lia.
    + cbn. rewrite (address_at_insert s l a) by done. unfold address_at. by rewrite Ea, <- Et.
    + by apply list_elem_of_singleton.
    + intros l' b ->%list_elem_of_singleton. rewrite lookup_insert_eq. intros [= <-].
      by rewrite bool_decide_eq_true_2.
Qed.

(** The state after an account has been added at the end. *)
Definition pushed (s : wallet_state) (l : loc) (a : neoc_account_t) (capacity : Z) : wallet_state :=
  match wal_accounts (st_wallet s) with
  | [] => mk_state _ (<[l := set_is_default true a]> (st_heap s))
            (set_default (Some l) (set_accounts [l] (set_capacity capacity (st_wallet s))))
  | accounts => mk_state _ (<[l := a]> (st_heap s)) (set_accounts (accounts ++ [l]) (set_capacity capacity (st_wallet s)))
  end.

(** What an addition does, whether the account is marked or not. *)
Lemma add_run n s v l a t :
  represents n s v -> 0 <= n < 2 ^ 58 -> st_heap s !! l = None -> acc_address a = Some t ->
  exists r s', exec_wallet_op (OpAdd l a) s = (r, s') /\
    if decide (t ∈ v_addresses v) then r = Err NEOC_ERROR_INVALID_STATE /\ s' = mk_state _ (<[l := a]> (st_heap s)) (st_wallet s)
    else (r = Err NEOC_ERROR_MEMORY /\ s' = mk_state _ (<[l := a]> (st_heap s)) (st_wallet s) /\
            malloc_ok (wal_capacity (st_wallet s) * 2 * 8) = false /\ wal_capacity (st_wallet s) <= zlen (v_addresses v)) \/
         exists c, r = Ok tt /\ s' = pushed s l a c /\ zlen (v_addresses v) < c /\ 10 <= c <= 10 + 2 * (n + 1).
Proof.
  intros R Hn Hl Et. cbn [exec_wallet_op]. unfold bind at 1, new_account. rewrite Hl.
  destruct (rep_new n s v l a R Hl) as [R1 Hni]. set (s1 := mk_state _ (<[l := a]> (st_heap s)) _) in *.
  change (st_wallet s) with (st_wallet s1) in Hni.
  assert (st_heap s1 !! l = Some a) as Ea by (cbn; by rewrite lookup_insert_eq).
  pose proof (rep_length n s1 v R1) as Hlen. destruct (rep_room _ _ _ R1) as [Hr1 Hr2].
  destruct (rep_count _ _ _ R1) as [Hc1 Hc2].
  unfold neoc_wallet_add_account, bind at 1, get_account. rewrite Ea. unfold bind at 1, get_wallet.
  assert (exists address, (match wal_accounts (st_wallet s1), acc_address a with
      | [], _ => ret [] | _, Some text => ret text | _, None => fault end) s1 = (Ok address, s1) /\
      find_address address (wal_accounts (st_wallet s1)) 0 s1 =
      find_address t (wal_accounts (st_wallet s1)) 0 s1) as (address & Ead & Efi).
  { rewrite Et. destruct (wal_accounts (st_wallet s1)) as [|x xs]; [by exists []|by exists t]. }
  rewrite (bind_ok _ _ _ _ _ Ead). unfold bind at 1. rewrite Efi.
  destruct (decide (t ∈ v_addresses v)) as [Hin|Hout].
  { destruct (find_present n s1 v t R1 Hin) as (k & l' & -> & _). by eexists _, s1. }
  rewrite (find_absent n s1 v t R1 Hout).
  assert (zlen (wal_accounts (st_wallet s1)) = zlen (v_addresses v)) as Hz by (unfold zlen; lia).
  rewrite Hz.
  assert (exists o, (if wal_capacity (st_wallet s1) <=? zlen (v_addresses v)
      then if negb (malloc_ok (wrap 64 (wrap 64 (wal_capacity (st_wallet s1) * 2) * 8)))
           then fail NEOC_ERROR_MEMORY
           else ret (set_capacity (wrap 64 (wal_capacity (st_wallet s1) * 2)) (st_wallet s1))
      else ret (st_wallet s1)) s1 = (o, s1) /\
    (o = Err NEOC_ERROR_MEMORY /\ malloc_ok (wal_capacity (st_wallet s1) * 2 * 8) = false /\
       wal_capacity (st_wallet s1) <= zlen (v_addresses v) \/
     exists c, o = Ok (set_capacity c (st_wallet s1)) /\
       zlen (v_addresses v) < c /\ 10 <= c <= 10 + 2 * (n + 1))) as (o & Eo & Ho).
  { destruct (_ <=? zlen (v_addresses v)) eqn:Ec; bdestruct.
    - rewrite (wrap_small 64 (wal_capacity (st_wallet s1) * 2)), wrap_small by (eval_pows; lia). destruct (malloc_ok _) eqn:Em; cbn [negb].
      + eexists. split; [done|]. right. eexists. split; [done|]. lia.
      + eexists. split; [done|]. by left.
    - eexists. split; [done|]. right. exists (wal_capacity (st_wallet s1)). split; [by destruct (st_wallet s1)|lia]. }
  unfold bind at 1. rewrite Eo. destruct Ho as [(-> & Hm & Hf)|(c & -> & Hc & Hcb)].
  { eexists _, s1. split; [done|]. by left. }
  cbv zeta. cbn [wal_accounts set_capacity set_accounts]. rewrite zlen_app, Hz. change (zlen [l]) with 1.
  assert (forall x, <[l := x]> (st_heap s1) = <[l := x]> (st_heap s)) as Hins by (intros x; apply insert_insert_eq).
  destruct (zlen (v_addresses v) + 1 =? 1) eqn:E1; bdestruct.
  - assert (v_addresses v = []) as Hv by (apply zlen_zero; lia).
    assert (wal_accounts (st_wallet s1) = []) as Hw0 by (apply length_zero_iff_nil; rewrite Hlen, Hv; done).
    unfold bind, put_wallet, put_account. cbn [st_heap st_wallet]. rewrite Ea.
    eexists (Ok tt), _. split; [reflexivity|]. right. exists c. split_and!; try done; try lia.
    unfold pushed. change (st_wallet s) with (st_wallet s1). rewrite Hw0. by rewrite Hins.
  - eexists (Ok tt), _. split; [reflexivity|]. right. exists c. split_and!; try done; try lia.
    unfold pushed. change (st_wallet s) with (st_wallet s1).
    destruct (wal_accounts (st_wallet s1)); [unfold zlen in *; cbn in Hz; lia|done].
Qed.

(** The state after the addition of an account that is not marked. *)
Lemma rep_pushed n s v l a t c :
  represents n s v -> st_heap s !! l = None -> acc_address a = Some t -> acc_is_default a = false -> t ∉ v_addresses v ->
  zlen (v_addresses v) < c -> 10 <= c <= 10 + 2 * (n + 1) ->
  represents (n + 1) (pushed s l a c)
    (mk_view (v_addresses v ++ [t]) (match v_addresses v with [] => Some t | _ => v_default v end)).
Proof.
  intros R Hl Et Ef Hout Hc Hcb. destruct (rep_new n s v l a R Hl) as [R1 Hni].
  destruct (rep_push n (mk_state _ (<[l := a]> (st_heap s)) (st_wallet s)) v l a t c R1 Hni) as [P1 P2];
    [by cbn; rewrite lookup_insert_eq|done..|].
  pose proof (rep_length n s v R) as Hlen. unfold pushed.
  destruct (wal_accounts (st_wallet s)) eqn:Ew, (v_addresses v) eqn:Ev; try done.
  - cbn in P2. rewrite insert_insert_eq in P2. by apply P2.
  - cbn [st_wallet st_heap] in P1. rewrite Ew in P1. by apply P1.
Qed.

Lemma add_step n s v l a :
  represents n s v -> 0 <= n < 2 ^ 58 -> allowed (OpAdd l a) s ->
  exists r s' v', exec_wallet_op (OpAdd l a) s = (r, s') /\ spec_step v (OpAdd l a) r v' /\
    represents (n + 1) s' v'.
Proof.
  intros R Hn (Hl & [t Et] & Ef). destruct (add_run n s v l a t R Hn Hl Et) as (r & s' & E & Hr).
  destruct (rep_new n s v l a R Hl) as [R1 _].
  destruct (decide (t ∈ v_addresses v)) as [Hin|Hout].
  - destruct Hr as [-> ->]. eexists _, _, v. split; [exact E|]. split; [by eapply spec_add_twice|]. eapply rep_mono; [done|lia].
  - destruct Hr as [(-> & -> & _)|(c & -> & -> & Hc & Hcb)].
    + eexists _, _, v. split; [exact E|]. split; [apply spec_add_memory|]. eapply rep_mono; [done|lia].
    + eexists _, _, _. split; [exact E|]. split; [by apply spec_add|]. by apply rep_pushed.
Qed.

Lemma set_default_step n s v t :
  represents n s v ->
  exists r s' v', exec_wallet_op (OpSetDefault t) s = (r, s') /\ spec_step v (OpSetDefault t) r v' /\
    represents n s' v'.
Proof.
  intros R. cbn [exec_wallet_op]. unfold neoc_wallet_set_default_account_str, neoc_wallet_get_account_by_address.
  unfold bind at 1 2, get_wallet at 1. destruct (decide (t ∈ v_addresses v)) as [Hin|Hout].
  2: { unfold bind at 1. rewrite (find_absent n s v t R Hout). cbn.
       eexists _, s, v. split; [done|]. split; [by apply spec_set_default_absent|done]. }
  destruct (find_present n s v t R Hin) as (k & l & Ef & El & Ek & Et).
  unfold bind at 1. rewrite Ef. cbn [ret mbind option_bind]. rewrite El.
  assert (l ∈ wal_accounts (st_wallet s)) as Hl by (by eapply list_elem_of_lookup_2).
  destruct (rep_live _ _ _ _ R Hl) as (a & _ & Ea & _).
  pose proof (rep_default_in _ _ _ R) as Hd.
  destruct (wal_default (st_wallet s)) as [old|] eqn:Eold;
    [|rewrite Hd in Hin; by apply not_elem_of_nil in Hin].
  destruct (rep_live _ _ _ _ R Hd) as (aold & _ & Eao & _).
  unfold bind, get_wallet. rewrite Eold. unfold get_account at 1. rewrite Eao. unfold put_account at 1. rewrite Eao.
  unfold put_wallet. cbn [st_heap st_wallet].
  set (s1 := mk_state _ (<[old := set_is_default false aold]> (st_heap s))
               (set_default (Some l) (st_wallet s))).
  assert (exists b, st_heap s1 !! l = Some b /\ acc_address b = acc_address a) as (b & Eb & Hba).
  { cbn. destruct (decide (old = l)) as [->|Hne].
    - rewrite lookup_insert_eq. eexists. split; [done|]. cbn. congruence.
    - rewrite lookup_insert_ne by done. by exists a. }
  unfold get_account, put_account. fold s1. rewrite Eb. cbv beta iota. rewrite Eb.
  eexists (Ok tt), _, _. split; [reflexivity|]. split; [by apply spec_set_default|].
  assert (forall l', address_at (mk_state _ (<[l := set_is_default true b]> (st_heap s1)) (st_wallet s1)) l'
    = address_at s l') as Ha.
  { intros l'. rewrite (address_at_insert s1 l b) by done. unfold s1. by rewrite (address_at_insert s old aold). }
  destruct R as [Ra Rd Rr Rc Rf Ri Rg]. constructor;
    cbn [st_wallet wal_accounts wal_capacity wal_default set_default v_addresses v_default s1]; try done.
  - rewrite <- Ra. apply map_ext. exact Ha.
  - cbn. by rewrite Ha.
  - cbn [st_heap]. intros l' a' Hl' E'. destruct (decide (l = l')) as [<-|Hne].
    + rewrite lookup_insert_eq in E'. injection E' as <-. by rewrite bool_decide_eq_true_2.
    + rewrite lookup_insert_ne in E' by done. rewrite bool_decide_eq_false_2 by congruence.
      cbn [s1 st_heap] in E'. destruct (decide (old = l')) as [<-|Hne'].
      * rewrite lookup_insert_eq in E'. by injection E' as <-.
      * rewrite lookup_insert_ne in E' by done. rewrite (Rg l' a' Hl' E'), Eold.
        apply bool_decide_eq_false_2. congruence.
Qed.

Lemma filter_others (t : list byte) (us : list (list byte)) : t ∉ us -> filter (fun u => u <> t) us = us.
Proof.
  induction us as [|u us IH]; [done|]. intros [Hu Hus]%not_elem_of_cons.
  rewrite filter_cons_True by congruence. by rewrite IH.
Qed.

(** The wallet around one of its accounts. *)
Lemma rep_split n s v k l t :
  represents n s v -> wal_accounts (st_wallet s) !! k = Some l -> v_addresses v !! k = Some t ->
  exists la lb ta tb, wal_accounts (st_wallet s) = la ++ l :: lb /\ v_addresses v = ta ++ t :: tb /\
    length la = k /\ map (address_at s) la = map Some ta /\ map (address_at s) lb = map Some tb /\
    (l ∉ la ++ lb) /\ filter (fun u => u <> t) (v_addresses v) = ta ++ tb.
Proof.
  intros R El Et. exists (take k (wal_accounts (st_wallet s))), (drop (S k) (wal_accounts (st_wallet s))),
    (take k (v_addresses v)), (drop (S k) (v_addresses v)).
  pose proof (take_drop_middle _ _ _ El) as Ea. pose proof (take_drop_middle _ _ _ Et) as Ev.
  apply lookup_lt_Some in El as Hk.
  assert (length (take k (wal_accounts (st_wallet s))) = k) as Hlen by (rewrite length_take; lia).
  split_and!; [done|done|done| | | |].
  - by rewrite <- !firstn_map, (rep_addresses _ _ _ R).
  - by rewrite <- !skipn_map, (rep_addresses _ _ _ R).
  - intros Hi. assert (exists j, j <> k /\ wal_accounts (st_wallet s) !! j = Some l) as (j & Hj & Ej).
    { apply elem_of_app in Hi as [[j Ej]%list_elem_of_lookup|[j Ej]%list_elem_of_lookup].
      - exists j. apply lookup_lt_Some in Ej as Hlt. rewrite Hlen in Hlt. split; [lia|].
        rewrite <- Ea. by rewrite lookup_app_l by lia.
      - rewrite lookup_drop in Ej. exists (S k + j)%nat. split; [lia|done]. }
    by destruct (Hj (rep_inj n s v j k l R Ej El)).
  - rewrite <- Ev at 1. pose proof (rep_distinct _ _ _ R) as Hn. rewrite <- Ev in Hn.
    apply NoDup_app in Hn as (_ & Hn1 & Hn2). apply NoDup_cons in Hn2 as [Hn2 _].
    rewrite filter_app, filter_cons_False by (intros F; by apply F).
    f_equal; apply filter_others; [|done]. intros Hi. by apply (Hn1 t Hi), elem_of_cons; left.
Qed.

(** The view without the account, over any heap that keeps the others. *)
Lemma rep_remove n s v l t la lb ta tb heap d :
  represents n s v -> wal_accounts (st_wallet s) = la ++ l :: lb -> v_addresses v = ta ++ t :: tb ->
  map (address_at s) la = map Some ta -> map (address_at s) lb = map Some tb ->
  (forall l', l' ∈ la ++ lb -> exists a a', st_heap s !! l' = Some a /\ heap !! l' = Some a' /\
     acc_address a' = acc_address a /\ acc_is_default a' = bool_decide (d = Some l')) ->
  match d with Some l' => l' ∈ la ++ lb | None => ta ++ tb = [] end ->
  represents n (mk_state _ heap (set_default d (set_accounts (la ++ lb) (st_wallet s))))
    (mk_view (ta ++ tb) (d ≫= address_at s)).
Proof.
  intros R Eacc Ev Ea Eb Hh Hd. set (s' := mk_state _ heap _).
  assert (forall l', l' ∈ la ++ lb -> address_at s' l' = address_at s l') as Ha.
  { intros l' (a & a' & E & E' & Et & _)%Hh. unfold address_at. cbn. by rewrite E, E'. }
  destruct R as [Ra Rd Rr Rc Rf Ri Rg]. rewrite Ev in *. rewrite zlen_app, zlen_cons in Rc.
  constructor; cbn [st_wallet s' wal_accounts wal_capacity wal_default set_default set_accounts v_addresses v_default].
  - rewrite !map_app, <- Ea, <- Eb. f_equal; apply map_ext_in; intros l' Hl'%list_elem_of_In;
      apply Ha, elem_of_app; [by left|by right].
  - eapply sublist_NoDup; [exact Rd|]. apply sublist_app; [done|]. by constructor.
  - done.
  - rewrite zlen_app. lia.
  - destruct d as [l'|]; [|done]. cbn. by apply Ha.
  - done.
  - intros l' a Hl' E. destruct (Hh l' Hl') as (b & b' & _ & E' & _ & Ef). cbn in E. congruence.
Qed.

Lemma rep_same n s v l1 l2 t :
  represents n s v -> l1 ∈ wal_accounts (st_wallet s) -> l2 ∈ wal_accounts (st_wallet s) ->
  address_at s l1 = Some t -> address_at s l2 = Some t -> l1 = l2.
Proof.
  intros R [k1 E1]%list_elem_of_lookup [k2 E2]%list_elem_of_lookup A1 A2.
  pose proof (rep_lookup n s v k1 R) as L1. pose proof (rep_lookup n s v k2 R) as L2.
  rewrite E1 in L1. rewrite E2 in L2. cbn in *. rewrite A1 in L1. rewrite A2 in L2.
  destruct (v_addresses v !! k1) as [t1|] eqn:T1; [|done].
  destruct (v_addresses v !! k2) as [t2|] eqn:T2; [|done]. injection L1 as <-. injection L2 as <-.
  assert (k1 = k2) as -> by (by eapply NoDup_lookup; [exact (rep_distinct _ _ _ R)|..]). congruence.
Qed.

Lemma delete_at {A} (la : list A) l lb : base.delete (length la) (la ++ l :: lb) = la ++ lb.
Proof. apply delete_middle. Qed.

Lemma others_in s l la lb :
  wal_accounts (st_wallet s) = la ++ l :: lb -> l ∉ la ++ lb ->
  forall l', l' ∈ la ++ lb -> l' <> l /\ l' ∈ wal_accounts (st_wallet s).
Proof.
  intros Eacc Hnl l' Hl'. split; [by intros ->|]. rewrite Eacc. apply elem_of_app in Hl' as [?|?];
    apply elem_of_app; [by left|right; by apply elem_of_cons; right].
Qed.

(** The heap and the default after the default has been replaced. *)
Lemma replace_default_ok n s v k l t la lb ta tb :
  represents n s v -> wal_accounts (st_wallet s) !! k = Some l -> address_at s l = Some t ->
  wal_accounts (st_wallet s) = la ++ l :: lb -> v_addresses v = ta ++ t :: tb -> length la = k ->
  map (address_at s) la = map Some ta -> map (address_at s) lb = map Some tb -> l ∉ la ++ lb ->
  exists heap d,
    replace_default k l (st_wallet s) s
    = (Ok (set_default d (st_wallet s)), mk_state _ heap (st_wallet s)) /\
    is_Some (heap !! l) /\
    (forall l', l' ∈ la ++ lb -> exists b b', st_heap s !! l' = Some b /\ heap !! l' = Some b' /\
       acc_address b' = acc_address b /\ acc_is_default b' = bool_decide (d = Some l')) /\
    match d with Some l' => l' ∈ la ++ lb | None => ta ++ tb = [] end /\
    d ≫= address_at s = (if bool_decide (v_default v = Some t) then head (ta ++ tb) else v_default v).
Proof.
  intros R El Et Eacc Ev Hk Ea Eb Hnl. unfold replace_default.
  assert (l ∈ wal_accounts (st_wallet s)) as Hl by (by eapply list_elem_of_lookup_2).
  destruct (rep_live _ _ _ _ R Hl) as (a & _ & Eal & _).
  pose proof (others_in s l la lb Eacc Hnl) as Hothers.
  pose proof (rep_default _ _ _ R) as Rdef. pose proof (rep_default_in _ _ _ R) as Rin.
  assert (forall l', l' ∈ la ++ lb -> exists b, st_heap s !! l' = Some b /\
    acc_is_default b = bool_decide (wal_default (st_wallet s) = Some l')) as Hlive.
  { intros l' Hl'. destruct (Hothers l' Hl') as [_ Hin']. destruct (rep_live _ _ _ _ R Hin') as (b & _ & Eb' & _).
    exists b. split; [done|]. by apply (rep_flags _ _ _ R). }
  destruct (bool_decide (wal_default (st_wallet s) = Some l)) eqn:Edl; bdestruct.
  - rewrite Edl in Rdef. cbn in Rdef. rewrite Et in Rdef. rewrite <- Rdef, (bool_decide_eq_true_2 (Some t = Some t)) by done.
    destruct (la ++ lb) as [|other rest] eqn:Erest.
    + apply app_eq_nil in Erest as [-> ->]. assert (ta = [] /\ tb = []) as [-> ->]
        by (destruct ta, tb; done). exists (st_heap s), None. rewrite Eacc. cbn.
      split_and!; [by destruct s|by exists a| |done|done]. intros l' Hl'. by apply not_elem_of_nil in Hl'.
    + destruct (Hlive other) as (b & Eb' & Ef'); [by apply elem_of_cons; left|].
      destruct (Hothers other) as [Hne Hin']; [by apply elem_of_cons; left|].
      exists (<[other := set_is_default true b]> (st_heap s)), (Some other).
      assert ((1 <? zlen (wal_accounts (st_wallet s))) = true) as ->.
      { apply Z.ltb_lt. rewrite Eacc, zlen_app, zlen_cons.
        assert (zlen la + zlen lb = 1 + zlen rest) by (rewrite <- zlen_app, Erest, zlen_cons; done).
        pose proof (zlen_nonneg rest). lia. }
      assert (wal_accounts (st_wallet s) !! (if bool_decide (0 < k)%nat then 0%nat else 1%nat) = Some other) as ->.
      { rewrite Eacc. destruct la as [|x la]; cbn in Hk; subst k; cbn [app] in *; [by rewrite Erest|].
        rewrite bool_decide_eq_true_2 by lia. by injection Erest as -> _. }
      unfold bind, get_account, put_account. rewrite Eb'. cbv beta iota. rewrite Eb'.
      split_and!; [done| | | |].
      * rewrite lookup_insert_ne by done. by exists a.
      * intros l' Hl'. destruct (Hlive l' Hl') as (b1 & Eb1 & Ef1).
        destruct (decide (other = l')) as [<-|Hne'].
        -- exists b, (set_is_default true b). rewrite lookup_insert_eq, bool_decide_eq_true_2 by done. done.
        -- exists b1, b1. rewrite lookup_insert_ne by done. split_and!; [done|done|done|].
           rewrite Ef1, Edl. destruct (Hothers l') as [Hn' _]; [done|].
           rewrite !bool_decide_eq_false_2 by congruence. done.
      * by apply elem_of_cons; left.
      * cbn. assert (map (address_at s) (other :: rest) = map Some (ta ++ tb)) as Em
          by (rewrite <- Erest, !map_app; congruence).
        destruct (ta ++ tb) as [|u us]; [done|]. cbn [map] in Em. by injection Em.
  - exists (st_heap s), (wal_default (st_wallet s)). split_and!.
    + by destruct s as [h [? ? ? ? ?]].
    + by exists a.
    + intros l' Hl'. destruct (Hlive l' Hl') as (b & Eb' & Ef'). by exists b, b.
    + destruct (wal_default (st_wallet s)) as [l0|] eqn:E0; [|rewrite Ev in Rin; by destruct ta].
      rewrite Eacc in Rin. apply elem_of_app in Rin as [?|[->|?]%elem_of_cons]; [|done|];
        apply elem_of_app; [by left|by right].
    + rewrite Rdef. rewrite bool_decide_eq_false_2; [done|]. rewrite <- Rdef. intros F.
      destruct (wal_default (st_wallet s)) as [l0|] eqn:E0; [|done]. cbn in F.
      apply Edl. f_equal. by apply (rep_same n s v l0 l t R).
Qed.

Lemma remove_step n s v t :
  represents n s v ->
  exists r s' v', exec_wallet_op (OpRemove t) s = (r, s') /\ spec_step v (OpRemove t) r v' /\
    represents n s' v'.
Proof.
  intros R. cbn [exec_wallet_op neoc_wallet_remove_account]. unfold bind at 1, get_wallet.
  destruct (decide (t ∈ v_addresses v)) as [Hin|Hout].
  2: { unfold bind at 1. rewrite (find_absent n s v t R Hout).
       eexists _, s, v. split; [done|]. split; [by apply spec_remove_absent|done]. }
  destruct (find_present n s v t R Hin) as (k & l & Ef & El & Ek & Et).
  unfold bind at 1. rewrite Ef, El.
  destruct (rep_split n s v k l t R El Ek) as (la & lb & ta & tb & Eacc & Ev & Hk & Ea & Eb & Hnl & Efl).
  pose proof (spec_remove v t Hin) as Sp. rewrite Efl in Sp. cbv zeta in Sp.
  destruct (replace_default_ok n s v k l t la lb ta tb) as (heap & d & E & [al Hal] & Hh & Hd & Edef);
    [done..|].
  unfold bind at 1. rewrite E. unfold bind, put_wallet, free_account. cbn [st_heap st_wallet].
  rewrite Hal. cbn [set_default set_accounts wal_accounts].
  eexists (Ok tt), _, _. split; [reflexivity|]. split; [exact Sp|]. rewrite <- Edef.
  rewrite Eacc, <- Hk, delete_at.
  apply (rep_remove n s v l t la lb ta tb (base.delete l heap) d R Eacc Ev Ea Eb); [|done].
  intros l' Hl'. destruct (Hh l' Hl') as (b & b' & Eb1 & Eb2 & Hr). exists b, b'.
  rewrite lookup_delete_ne by (apply not_eq_sym, (others_in s l la lb Eacc Hnl l' Hl')).
  exact (conj Eb1 (conj Eb2 Hr)).
Qed.

Lemma op_step n s v op :
  represents n s v -> 0 <= n < 2 ^ 58 -> allowed op s ->
  exists r s' v', exec_wallet_op op s = (r, s') /\ spec_step v op r v' /\ represents (n + 1) s' v'.
Proof.
  intros R Hn Ha. destruct op as [l a|t|t|p|p].
  - by apply add_step.
  - destruct (remove_step n s v t R) as (r & s' & v' & E & Sp & R'). exists r, s', v'.
    split_and!; [done|done|]. eapply rep_mono; [done|lia].
  - destruct (set_default_step n s v t R) as (r & s' & v' & E & Sp & R'). exists r, s', v'.
    split_and!; [done|done|]. eapply rep_mono; [done|lia].
  - destruct (lock_step n s v true neoc_account_lock_internal (fun a => eq_refl) R) as (s' & E & R' & _).
    exists (Ok tt), s', v. split_and!; [done|constructor|]. eapply rep_mono; [done|lia].
  - destruct (lock_step n s v false neoc_account_unlock_internal (fun a => eq_refl) R) as (s' & E & R' & _).
    exists (Ok tt), s', v. split_and!; [done|constructor|]. eapply rep_mono; [done|lia].
Qed.

(** A session: the results of the calls and the state after them. *)
Fixpoint exec_wallet_ops (ops : list wallet_op) (s : wallet_state) : list (res unit) * wallet_state :=
  match ops with
  | [] => ([], s)
  | op :: ops =>
      let '(r, s) := exec_wallet_op op s in
      let '(rs, s) := exec_wallet_ops ops s in (r :: rs, s)
  end.

Fixpoint all_allowed (ops : list wallet_op) (s : wallet_state) : Prop :=
  match ops with
  | [] => True
  | op :: ops => allowed op s /\ all_allowed ops (snd (exec_wallet_op op s))
  end.

Inductive spec_steps : wallet_view -> list wallet_op -> list (res unit) -> wallet_view -> Prop :=
| spec_done v : spec_steps v [] [] v
| spec_more v op r v1 ops rs v2 :
    spec_step v op r v1 -> spec_steps v1 ops rs v2 -> spec_steps v (op :: ops) (r :: rs) v2.

Lemma ops_refine ops : forall n s v,
  represents n s v -> 0 <= n -> n + zlen ops < 2 ^ 58 -> all_allowed ops s ->
  exists rs s' v', exec_wallet_ops ops s = (rs, s') /\ spec_steps v ops rs v' /\
    represents (n + zlen ops) s' v'.
Proof.
  induction ops as [|op ops IH]; intros n s v R Hn Hb Ha.
  - exists [], s, v. split_and!; [done|constructor|]. change (zlen []) with 0. by rewrite Z.add_0_r.
  - rewrite zlen_cons in *. pose proof (zlen_nonneg ops). destruct Ha as [Ha1 Ha2].
    destruct (op_step n s v op R ltac:(lia) Ha1) as (r & s1 & v1 & E & Sp & R1). rewrite E in Ha2. cbn in Ha2.
    destruct (IH (n + 1) s1 v1 R1) as (rs & s' & v' & E' & Sps & R'); [lia|lia|done|].
    exists (r :: rs), s', v'. cbn [exec_wallet_ops]. rewrite E, E'.
    split_and!; [done|by econstructor|]. by replace (n + (1 + zlen ops)) with (n + 1 + zlen ops) by lia.
Qed.

Lemma rep_created name w heap :
  neoc_wallet_create name = Ok w -> represents 0 (mk_state _ heap w) (mk_view [] None).
Proof.
  intros E. unfold neoc_wallet_create in E. destruct (negb _); [done|].
  destruct (match name with Some _ => _ | None => _ end) as [nm| |]; [|done..]. cbn [rbind] in E.
  destruct (negb _); [done|]. destruct (negb _); [done|]. injection E as <-.
  constructor; cbn; try done; [constructor|]. intros l a Hl. by apply not_elem_of_nil in Hl.
Qed.

Lemma contains_ok n s v t :
  represents n s v -> neoc_wallet_contains (Some t) s = (Ok (bool_decide (t ∈ v_addresses v)), s).
Proof.
  intros R. unfold neoc_wallet_contains, neoc_wallet_get_account_by_address, bind, get_wallet.
  destruct (decide (t ∈ v_addresses v)) as [Hin|Hout].
  - destruct (find_present n s v t R Hin) as (k & l & -> & El & _). cbn. rewrite El.
    by rewrite !bool_decide_eq_true_2.
  - rewrite (find_absent n s v t R Hout). cbn. by rewrite (bool_decide_eq_false_2 (t ∈ v_addresses v)).
Qed.

(** ** Claims *)

(** C14.  Refinement: every session of a wallet, a sequence of additions, removals,
    changes of the default and lockings, returns the results that the list of addresses
    with a default returns, never touches a freed account, and afterwards the count, the
    membership test and the default account are those of the list. *)
Theorem wallet_refines (name : option (list byte)) (w : neoc_wallet_t)
    (heap : gmap loc neoc_account_t) (ops : list wallet_op) :
  neoc_wallet_create name = Ok w -> all_allowed ops (mk_state _ heap w) -> zlen ops < 2 ^ 58 ->
  exists rs s v,
    exec_wallet_ops ops (mk_state _ heap w) = (rs, s) /\ spec_steps (mk_view [] None) ops rs v /\
    neoc_wallet_get_account_count_value s = (Ok (zlen (v_addresses v)), s) /\
    (forall t, neoc_wallet_contains (Some t) s = (Ok (bool_decide (t ∈ v_addresses v)), s)) /\
    match v_default v with
    | Some t => exists l a, neoc_wallet_get_default_account_out s = (Ok l, s) /\
                  st_heap s !! l = Some a /\ acc_address a = Some t
    | None => neoc_wallet_get_default_account_out s = (Err NEOC_ERROR_NOT_FOUND, s)
    end.
Proof.
  intros Ew Ha Hb. destruct (ops_refine ops 0 _ _ (rep_created name w heap Ew)) as (rs & s & v & E & Sp & R);
    [lia|lia|done|]. exists rs, s, v. split_and!; [done|done| | |].
  - unfold neoc_wallet_get_account_count_value, bind, get_wallet, ret, zlen.
    by rewrite (rep_length _ _ _ R).
  - intros t. by eapply contains_ok.
  - pose proof (rep_default _ _ _ R) as Rd. pose proof (rep_default_in _ _ _ R) as Ri.
    unfold neoc_wallet_get_default_account_out, neoc_wallet_get_default_account_ptr, bind, get_wallet, ret.
    destruct (wal_default (st_wallet s)) as [l|]; cbn in Rd.
    + destruct (rep_live _ _ _ _ R Ri) as (a & t & Ea & Et & _). unfold address_at in Rd.
      rewrite Ea in Rd. cbn in Rd. rewrite <- Rd, Et. by exists l, a.
    + by rewrite <- Rd.
Qed.

(** Invariant: after every session the accounts of a wallet are alive and have
    pairwise different addresses, the array has room for them, and exactly the default
    account carries the default mark; there is one as soon as there is an account. *)
Theorem wallet_default_invariant (name : option (list byte)) (w : neoc_wallet_t)
    (heap : gmap loc neoc_account_t) (ops : list wallet_op) :
  neoc_wallet_create name = Ok w -> all_allowed ops (mk_state _ heap w) -> zlen ops < 2 ^ 58 ->
  let s := snd (exec_wallet_ops ops (mk_state _ heap w)) in
  let accounts := wal_accounts (st_wallet s) in
  (forall l, l ∈ accounts -> is_Some (st_heap s !! l)) /\
  NoDup (map (address_at s) accounts) /\
  zlen accounts <= wal_capacity (st_wallet s) /\
  (forall l a, l ∈ accounts -> st_heap s !! l = Some a ->
     acc_is_default a = bool_decide (wal_default (st_wallet s) = Some l)) /\
  (accounts = [] <-> wal_default (st_wallet s) = None).
Proof.
  intros Ew Ha Hb. destruct (ops_refine ops 0 _ _ (rep_created name w heap Ew)) as (rs & s & v & E & _ & R);
    [lia|lia|done|]. rewrite E. cbn [snd]. cbv zeta. split_and!.
  - intros l Hl. destruct (rep_live _ _ _ _ R Hl) as (a & _ & Ea & _). by exists a.
  - rewrite (rep_addresses _ _ _ R). apply (NoDup_fmap_2 Some), (rep_distinct _ _ _ R).
  - pose proof (rep_count _ _ _ R) as [Hc _]. unfold zlen in *. by rewrite (rep_length _ _ _ R).
  - apply (rep_flags _ _ _ R).
  - pose proof (rep_default_in _ _ _ R) as Ri. pose proof (rep_length _ _ _ R) as Hl.
    destruct (wal_default (st_wallet s)) as [l|].
    + split; [|done]. intros F. rewrite F in Ri. by apply not_elem_of_nil in Ri.
    + split; [done|]. intros _. apply length_zero_iff_nil. by rewrite Hl, Ri.
Qed.

(** The passphrases of a wallet are not used: after any session, locking with one
    passphrase and unlocking with another always succeeds and leaves every account unlocked,
    with the key pair it had. *)
Theorem wallet_unlock_any_passphrase (name : option (list byte)) (w : neoc_wallet_t)
    (heap : gmap loc neoc_account_t) (ops : list wallet_op) (p q : option (list byte)) :
  neoc_wallet_create name = Ok w -> all_allowed ops (mk_state _ heap w) -> zlen ops < 2 ^ 58 ->
  let s := snd (exec_wallet_ops ops (mk_state _ heap w)) in
  exists locked unlocked,
    neoc_wallet_lock_all p s = (Ok tt, locked) /\ neoc_wallet_unlock_all q locked = (Ok tt, unlocked) /\
    forall l a, l ∈ wal_accounts (st_wallet s) -> st_heap s !! l = Some a ->
      (exists b, st_heap locked !! l = Some b /\ acc_is_locked b = true) /\
      (exists c, st_heap unlocked !! l = Some c /\ acc_is_locked c = false /\
         acc_key_pair c = acc_key_pair a).
Proof.
  intros Ew Ha Hb. destruct (ops_refine ops 0 _ _ (rep_created name w heap Ew)) as (rs & s & v & E & _ & R);
    [lia|lia|done|]. rewrite E. cbn [snd]. cbv zeta.
  destruct (lock_step _ s v true neoc_account_lock_internal (fun a => eq_refl) R) as (s1 & E1 & R1 & W1 & L1).
  destruct (lock_step _ s1 v false neoc_account_unlock_internal (fun a => eq_refl) R1) as (s2 & E2 & R2 & W2 & L2).
  exists s1, s2. split_and!; [exact E1|exact E2|]. intros l a Hl Ea. rewrite W1 in L2.
  pose proof (L1 l a Hl Ea) as Eb. pose proof (L2 l _ Hl Eb) as Ec. split; eexists; (split; [done|done]).
Qed.
End Proofs.

Section Samples.
#[local] Existing Instance mib_heap.
#[local] Existing Instance toy_curve.

Definition wallet_account (address : list byte) (is_default : bool) : neoc_account_t :=
  mk_account _ None (Some address) (mk_hash160 []) None false is_default None 0 None 0 EXTRA_NONE.

Definition sample_wallet : neoc_wallet_t :=
  mk_wallet (Some default_wallet_name) (Some wallet_version) [] 10 None.

Definition sample_session : list wallet_op :=
  [OpAdd 1 (wallet_account [Byte.x41] false); OpAdd 2 (wallet_account [Byte.x42] false);
   OpAdd 3 (wallet_account [Byte.x41] false); OpSetDefault [Byte.x42]; OpRemove [Byte.x42];
   OpLockAll None].

Lemma sample_wallet_created : neoc_wallet_create None = Ok sample_wallet.
Proof. vm_compute. reflexivity. Qed.

Lemma sample_session_allowed : all_allowed sample_session (mk_state _ ∅ sample_wallet).
Proof. repeat (split; [try (split_and!; [vm_compute; reflexivity|by eexists|reflexivity])|]); done. Qed.

Lemma wallet_refines_witness :
  exists rs s v,
    exec_wallet_ops sample_session (mk_state _ ∅ sample_wallet) = (rs, s) /\
    spec_steps (mk_view [] None) sample_session rs v /\
    rs = [Ok tt; Ok tt; Err NEOC_ERROR_INVALID_STATE; Ok tt; Ok tt; Ok tt].
Proof.
  destruct (wallet_refines None sample_wallet ∅ sample_session sample_wallet_created sample_session_allowed
    ltac:(by vm_compute)) as (rs & s & v & E & Sp & _).
  exists rs, s, v. split; [exact E|split; [exact Sp|]].
  pose proof (f_equal fst E) as Er. cbn [fst] in Er. rewrite <- Er. vm_compute. reflexivity.
Defined.

Lemma wallet_default_invariant_witness :
  NoDup (map (address_at (snd (exec_wallet_ops sample_session (mk_state _ ∅ sample_wallet))))
    (wal_accounts (st_wallet (snd (exec_wallet_ops sample_session (mk_state _ ∅ sample_wallet)))))).
Proof.
  apply (wallet_default_invariant None sample_wallet ∅ sample_session sample_wallet_created sample_session_allowed
    ltac:(by vm_compute)).
Defined.

Lemma wallet_unlock_any_passphrase_witness :
  exists locked unlocked,
    neoc_wallet_lock_all (Some [Byte.x61])
      (snd (exec_wallet_ops sample_session (mk_state _ ∅ sample_wallet))) = (Ok tt, locked) /\
    neoc_wallet_unlock_all (Some [Byte.x62]) locked = (Ok tt, unlocked).
Proof.
  destruct (wallet_unlock_any_passphrase None sample_wallet ∅ sample_session (Some [Byte.x61]) (Some [Byte.x62])
    sample_wallet_created sample_session_allowed ltac:(by vm_compute)) as (a & b & E1 & E2 & _).
  exists a, b. exact (conj E1 E2).
Defined.

(** An account that is already marked as a default keeps its mark when it is added to a
    wallet that has a default. *)
Lemma wallet_keeps_two_marks :
  let s := snd (exec_wallet_ops
    [OpAdd 1 (wallet_account [Byte.x41] false); OpAdd 2 (wallet_account [Byte.x42] true)]
    (mk_state _ ∅ sample_wallet)) in
  wal_default (st_wallet s) = Some 1%positive /\
  acc_is_default <$> st_heap s !! 1%positive = Some true /\
  acc_is_default <$> st_heap s !! 2%positive = Some true.
Proof. vm_compute. done. Qed.
End Samples.
