(* ===== verification/AccountNep6.v ===== *)
(** * Accounts and wallets as NEP-6 objects (src/wallet/account.c, src/wallet/wallet.c)

    Exporting an account and a wallet to the NEP-6 objects of Nep6.v and Nep6Wallet.v, importing
    them, and saving and loading a wallet file, a file being its contents. *)

From S2P Require Import Prelude BinaryWriter Crypto Base58 Base64 Hashes Interop Opcode NeoVM ScriptBuilder EcKey VerificationScript ScriptHelper Signature KeyPair Wif Nep2 Witness MultiSig Account Wallet Cjson Json ParameterType Nep6 Nep6Wallet.
From stdpp Require Import gmap.
#[local] Open Scope Z_scope.

Section Operations.
Context `{Allocator} `{Interop} `{Crypto} `{Curve} `{!Ecdsa} `{Nep2Crypto} `{Double}.
Variable junk : byte.

Abbreviation Wal := (M wallet_state).

(** A label that is empty is left out. *)
Definition exported_label (label : option (list byte)) : option (list byte) :=
  match label with Some [] => None | _ => label end.

(** The script in Base64, as the contract with one parameter; without a script there is no contract. *)
Definition attach_contract (script : res (list byte)) (n6 : neoc_nep6_account_t) : res neoc_nep6_account_t :=
  match script with
  | Fault => Fault
  | Err _ => Ok n6
  | Ok script =>
      if negb (0 <? zlen script) then Ok n6
      else
        match neoc_base64_encode_alloc junk (Some script) (zlen script) with
        | Fault => Fault
        | Err _ => Err NEOC_ERROR_OUT_OF_MEMORY
        | Ok script_base64 =>
            let? contract := neoc_nep6_contract_create (Some script_base64) [signature_parameter] false in
            Ok (snd (neoc_nep6_account_set_contract (Some contract) n6))
        end
  end.

Definition neoc_account_to_nep6 (account : neoc_account_t) : res neoc_nep6_account_t :=
  match acc_address account with
  | None => Err NEOC_ERROR_INVALID_STATE
  | Some address =>
      let? n6 :=
        neoc_nep6_account_create (Some address) (exported_label (acc_label account)) (acc_is_default account)
          (acc_is_locked account) (option_map cstring (acc_encrypted_key account)) None in
      attach_contract (neoc_account_get_verification_script account) n6
  end.

(** The script of a contract, when it has one that can be decoded. *)
Definition adopt_script (contract : option neoc_nep6_contract_t) (account : neoc_account_t) : res neoc_account_t :=
  match neoc_nep6_contract_get_script contract with
  | None => Ok account
  | Some script_base64 =>
      match neoc_base64_decode_alloc junk (Some script_base64) with
      | Ok decoded => Ok (set_cached_script (Some decoded) (zlen decoded) account)
      | Err _ => Ok account
      | Fault => Fault
      end
  end.

Definition neoc_account_from_nep6 (n6 : neoc_nep6_account_t) : res neoc_account_t :=
  match na_address n6 with
  | None => Err NEOC_ERROR_INVALID_FORMAT
  | Some address =>
      let? account := neoc_account_create_from_address junk (Some address) in
      let account := match na_label n6 with Some l => snd (neoc_account_set_label (Some l) account) | None => account end in
      let account := snd (neoc_account_set_default (na_is_default n6) account) in
      let '(stored, account) := neoc_account_store_encrypted_key (na_key n6) account in
      let? _ := stored in
      adopt_script (na_contract n6) (set_locked (na_lock n6 || bool_decide (is_Some (na_key n6))) account)
  end.

Definition neoc_account_create_from_nep6 (n6 : neoc_nep6_account_t) : res neoc_account_t := neoc_account_from_nep6 n6.

(** ** Wallets *)

(** One account of a wallet into the NEP-6 wallet. *)
Definition export_account (l : loc) (n6 : neoc_nep6_wallet_t) : Wal neoc_nep6_wallet_t :=
  let! account := get_account l in
  let! n6_account := lift (neoc_account_to_nep6 account) in
  let '(added, n6) := neoc_nep6_wallet_add_account_existing n6_account n6 in
  do! lift added in ret n6.

Fixpoint export_accounts (accounts : list loc) (n6 : neoc_nep6_wallet_t) : Wal neoc_nep6_wallet_t :=
  match accounts with
  | [] => ret n6
  | l :: accounts => let! n6 := export_account l n6 in export_accounts accounts n6
  end.

Definition neoc_wallet_to_nep6 : Wal neoc_nep6_wallet_t :=
  let! w := get_wallet in
  let! n6 := lift (neoc_nep6_wallet_create (Some (default default_wallet_name (wal_name w))) (Some (default wallet_version (wal_version w)))) in
  let n6 := match wal_version w with Some v => snd (neoc_nep6_wallet_set_version (Some v) n6) | None => n6 end in
  export_accounts (wal_accounts w) n6.

(** Run [m]; when it fails, run [cleanup] and fail the same way. *)
Definition or_else {A} (m : Wal A) (cleanup : Wal unit) : Wal A := fun s =>
  match m s with
  | (Err e, s) => (do! cleanup in fail e) s
  | r => r
  end.

(** One account into the wallet, at the place [l]; a failure frees it. *)
Definition import_account (l : loc) (n6_account : neoc_nep6_account_t) : Wal unit :=
  let! account := lift (neoc_account_from_nep6 n6_account) in
  do! new_account l account in
  do! or_else (neoc_wallet_add_account l) (free_account l) in
  let! account := get_account l in
  if acc_is_default account then do! attempt (neoc_wallet_set_default_account_account junk l) in ret tt else ret tt.

Fixpoint import_accounts (accounts : list (loc * neoc_nep6_account_t)) : Wal unit :=
  match accounts with
  | [] => ret tt
  | (l, a) :: accounts => do! import_account l a in import_accounts accounts
  end.

(** The places of the new accounts are the caller's choice; [heap] holds the other live accounts.
    The version of the NEP-6 wallet replaces that of the new wallet. *)
Definition neoc_wallet_from_nep6 (n6 : neoc_nep6_wallet_t) (locs : list loc) (heap : gmap loc neoc_account_t)
  : res unit * gmap loc neoc_account_t * option neoc_wallet_t :=
  match neoc_wallet_create (nw_name n6) with
  | Err e => (Err e, heap, None)
  | Fault => (Fault, heap, None)
  | Ok w =>
      let w :=
        match neoc_nep6_wallet_get_version_copy n6 with
        | Ok (Some version) => mk_wallet (wal_name w) (Some version) (wal_accounts w) (wal_capacity w) (wal_default w)
        | _ => w
        end in
      match or_else (import_accounts (combine locs (nw_accounts n6))) neoc_wallet_free (mk_state _ heap w) with
      | (Ok _, s) => (Ok tt, st_heap s, Some (st_wallet s))
      | (Err e, s) => (Err e, st_heap s, None)
      | (Fault, s) => (Fault, st_heap s, None)
      end
  end.

(** [file] is what the file holds, [None] when it cannot be opened; [delivered] is how much [fread] delivers. *)
Definition neoc_wallet_load (file : option (list byte)) (delivered : Z -> Z) (locs : list loc) (heap : gmap loc neoc_account_t)
  : res unit * gmap loc neoc_account_t * option neoc_wallet_t :=
  match file with
  | None => (Err NEOC_ERROR_IO, heap, None)
  | Some content =>
      if zlen content <=? 0 then (Err NEOC_ERROR_INVALID_FORMAT, heap, None)
      else if negb (neoc_malloc_ok (zlen content + 1)) then (Err NEOC_ERROR_OUT_OF_MEMORY, heap, None)
      else
        let buffer := take (Z.to_nat (delivered (zlen content))) content ++ [Byte.x00] in
        match neoc_nep6_wallet_from_json (Some (cstring buffer)) with
        | Ok n6 => neoc_wallet_from_nep6 n6 locs heap
        | Err e => (Err e, heap, None)
        | Fault => (Fault, heap, None)
        end
  end.

(** The file gets the text up to its NUL; [opens] tells whether it can be created and [written] how much
    of it is written. *)
Definition neoc_wallet_save (opens : bool) (written : Z -> Z) : Wal (list byte) :=
  let! n6 := neoc_wallet_to_nep6 in
  let! '(json_str, _) := lift (neoc_nep6_wallet_to_json junk n6) in
  if negb opens then fail NEOC_ERROR_IO
  else
    let! json_len := lift (array_strlen json_str) in
    if written json_len =? json_len then ret (cstring json_str) else fail NEOC_ERROR_IO.
End Operations.

(** ** Accounts through the NEP-6 object *)

Section Accounts.
Context `{Allocator} `{Interop} `{Crypto} `{Curve} `{!Ecdsa} `{Nep2Crypto} `{Double}.
Variable junk : byte.
Hypothesis Hw : crypto_works.
Hypothesis Hheap : heap_serves 8192.

(** An account whose address is that of its script hash and whose texts and script have a reasonable size. *)
Definition portable (t : list byte) (a : neoc_account_t) : Prop :=
  acc_address a = Some t /\ hash160_ok (acc_script_hash a) /\ address_of (acc_script_hash a) t /\
  match acc_label a with Some l => zlen l < 4096 | None => True end /\
  match acc_encrypted_key a with Some k => zlen (cstring k) < 4096 | None => True end /\
  match neoc_account_get_verification_script a with Ok s => zlen s <= 3000 | Err _ => True | Fault => False end.

Definition nep6_contract_of (script : res (list byte)) : option neoc_nep6_contract_t :=
  match script with
  | Ok (b :: s) => Some (mk_nep6_contract (Some (text64 (b :: s))) [signature_parameter] false)
  | _ => None
  end.

Definition nep6_of (t : list byte) (a : neoc_account_t) : neoc_nep6_account_t :=
  mk_nep6_account (Some t) (exported_label (acc_label a)) (acc_is_default a) (acc_is_locked a)
    (option_map cstring (acc_encrypted_key a)) (nep6_contract_of (neoc_account_get_verification_script a)) [].

(** What an account is after the round: it has lost its key pair and the data of a multi-signature account,
    it is locked when it has an encrypted key, and its script is cached. *)
Definition reimported (t : list byte) (a : neoc_account_t) : neoc_account_t :=
  let script := match neoc_account_get_verification_script a with Ok (b :: s) => Some (b :: s) | _ => None end in
  let key := option_map cstring (acc_encrypted_key a) in
  mk_account _ (Some (default t (exported_label (acc_label a)))) (Some t) (acc_script_hash a) None
    (acc_is_locked a || bool_decide (is_Some (acc_encrypted_key a))) (acc_is_default a)
    (option_map (fun k => k ++ [Byte.x00]) key) (default 0 (zlen <$> key)) script (default 0 (zlen <$> script)) EXTRA_NONE.

Lemma dup_ok s e : zlen s < 8000 -> neoc_strdup s e = Ok s.
Proof. intros Hs. pose proof (zlen_nonneg s). unfold neoc_strdup, neoc_malloc_ok. cmps. by rewrite Hheap by lia. Qed.

Lemma dup_opt_ok s : match s with Some s => zlen s < 8000 | None => True end -> strdup_opt s = Ok s.
Proof. intros Hs. destruct s as [s|]; [|done]. cbn. by rewrite dup_ok. Qed.

Lemma exported_label_size label n :
  match label with Some l => zlen l < n | None => True end -> match exported_label label with Some l => zlen l < n | None => True end.
Proof. by destruct label as [[|]|]. Qed.

Lemma contract_ok64 s : zlen s < 8000 ->
  neoc_nep6_contract_create (Some s) [signature_parameter] false = Ok (mk_nep6_contract (Some s) [signature_parameter] false).
Proof.
  intros Hs. unfold neoc_nep6_contract_create, nep6_contract_size, neoc_malloc_ok. cbn [Z.eqb].
  rewrite Hheap by lia. cbn [negb strdup_opt]. rewrite dup_ok by done. cbn [rbind].
  change (0 <? zlen [signature_parameter]) with true. cbv iota.
  change (zlen [signature_parameter] * nep6_parameter_size) with 16. cbn [Z.eqb]. rewrite Hheap by lia.
  cbn [negb copy_parameters signature_parameter np_name np_type strdup_opt]. by rewrite dup_ok by (by vm_compute).
Qed.

Lemma portable_address_size t h : hash160_ok h -> address_of h t -> zlen t < 8000.
Proof. intros Hh Ha. pose proof (address_of_length h t Hh Ha). lia. Qed.

Lemma to_nep6_ok t a : portable t a -> neoc_account_to_nep6 junk a = Ok (nep6_of t a).
Proof.
  intros (Ea & Hh & Ha & Hl & Hk & Hs). unfold neoc_account_to_nep6, nep6_of. rewrite Ea.
  pose proof (portable_address_size t _ Hh Ha) as Ht. apply exported_label_size in Hl.
  unfold neoc_nep6_account_create, nep6_account_size, neoc_malloc_ok. cbn [Z.eqb]. rewrite Hheap by lia. cbn [negb].
  rewrite dup_ok by done. cbn [rbind]. rewrite (dup_opt_ok (exported_label _)) by (destruct (exported_label _); [lia|done]). cbn [rbind].
  rewrite dup_opt_ok by (destruct (acc_encrypted_key a); cbn; [lia|done]). cbn [rbind]. unfold attach_contract, nep6_contract_of.
  destruct (neoc_account_get_verification_script a) as [s|e|]; [|done..].
  destruct s as [|b s]; [done|]. pose proof (length_text64 (b :: s)) as Hx. pose proof (zlen_nonneg s).
  rewrite zlen_cons in *. cmps. rewrite <- (zlen_cons b s).
  rewrite base64_alloc_text; [|done|rewrite zlen_cons; lia|eapply heap_serves_mono; [exact Hheap|rewrite zlen_cons; lia]].
  rewrite contract_ok64 by (rewrite Hx; dlia). done.
Qed.

Lemma from_nep6_ok t a : portable t a -> neoc_account_from_nep6 junk (nep6_of t a) = Ok (reimported t a).
Proof.
  intros (Ea & Hh & Ha & Hl & Hk & Hs). pose proof (portable_address_size t _ Hh Ha) as Ht. apply exported_label_size in Hl.
  unfold neoc_account_from_nep6. cbn [na_address nep6_of na_label na_is_default na_key na_lock na_contract].
  unfold neoc_account_create_from_address, account_struct_size, neoc_malloc_ok. cbn [Z.eqb]. rewrite Hheap by lia. cbn [negb].
  rewrite !dup_ok by done. cbn [rbind].
  rewrite (from_address_of junk Hw (heap_serves_mono _ 64 Hheap ltac:(lia)) (acc_script_hash a) t Hh Ha). cbn [rbind].
  set (a0 := mk_account _ _ _ _ _ _ _ _ _ _ _ _).
  assert ((match exported_label (acc_label a) with Some l => snd (neoc_account_set_label (Some l) a0) | None => a0 end)
    = set_label (Some (default t (exported_label (acc_label a)))) a0) as ->.
  { destruct (exported_label (acc_label a)) as [l|]; [|done]. unfold neoc_account_set_label. by rewrite dup_ok by lia. }
  cbn [neoc_account_set_default snd].
  assert (forall c, nep6_contract_of (neoc_account_get_verification_script a) = c ->
    forall a1, adopt_script junk c a1 = Ok (match neoc_account_get_verification_script a with
      | Ok (b :: s) => set_cached_script (Some (b :: s)) (zlen (b :: s)) a1 | _ => a1 end)) as Had.
  { intros c <- a1. unfold nep6_contract_of. destruct (neoc_account_get_verification_script a) as [[|b s]|e|]; try done.
    cbn [adopt_script neoc_nep6_contract_get_script nc_script].
    rewrite decode_alloc_text; [done|done|lia|eapply heap_serves_mono; [exact Hheap|lia]]. }
  unfold reimported. destruct (acc_encrypted_key a) as [k|]; cbn [option_map].
  - unfold neoc_account_store_encrypted_key, neoc_account_clear_encrypted_key, bind, neoc_malloc_ok. cbn.
    pose proof (zlen_nonneg (cstring k)). cmps. rewrite Hheap by lia. cbn [negb rbind].
    rewrite (Had _ eq_refl). destruct (neoc_account_get_verification_script a) as [[|b s]|e|]; reflexivity.
  - unfold neoc_account_store_encrypted_key, neoc_account_clear_encrypted_key, bind. cbn [rbind].
    cbn. rewrite (Had _ eq_refl). destruct (neoc_account_get_verification_script a) as [[|b s]|e|]; reflexivity.
Qed.

(** An account survives its NEP-6 object: address, script hash, label, mark, encrypted key and verification
    script come back; the key pair and the data of a multi-signature account do not, an account with an encrypted key
    comes back locked, and one without a label is labelled with its address. *)
Theorem account_nep6_roundtrip (t : list byte) (a : neoc_account_t) :
  portable t a ->
  (let? n6 := neoc_account_to_nep6 junk a in neoc_account_from_nep6 junk n6) = Ok (reimported t a).
Proof. intros Hp. rewrite (to_nep6_ok t a Hp). cbn [rbind]. by apply from_nep6_ok. Qed.
End Accounts.

(** ** Wallets through the NEP-6 wallet *)

(** An account without its mark. *)
Definition unmark `{Curve} (a : neoc_account_t) : neoc_account_t := set_is_default false a.

Section Wallets.
Context `{Allocator} `{Interop} `{Crypto} `{Curve} `{!Ecdsa} `{Nep2Crypto} `{Double}.
Variable junk : byte.
Hypothesis Hw : crypto_works.
Variable room : Z.
Hypothesis Hheap : heap_serves room.
Hypothesis Hroom : 8192 <= room.

Abbreviation entry := (list byte * neoc_account_t)%type.

Definition nep6_entry (e : entry) : neoc_nep6_account_t := nep6_of (fst e) (snd e).

Lemma heap_8192 : heap_serves 8192.
Proof. by eapply heap_serves_mono. Qed.

(** *** Export *)

Lemma clear_unmarked a : na_is_default a = false -> clear_default a = a.
Proof. destruct a. cbn. by intros ->. Qed.

Lemma clear_unmarked_all accounts : List.filter na_is_default accounts = [] -> map clear_default accounts = accounts.
Proof.
  induction accounts as [|a accounts IH]; [done|]. cbn [List.filter map]. destruct (na_is_default a) eqn:E; [done|].
  intros Hf. by rewrite clear_unmarked, IH.
Qed.

Lemma add_nep6_ok n6 x t :
  na_address x = Some t -> List.find (address_matches t) (nw_accounts n6) = None -> one_default (nw_accounts n6 ++ [x]) ->
  zlen (nw_accounts n6) <= nw_capacity n6 -> 0 < nw_capacity n6 -> nw_capacity n6 < 2 ^ 58 -> 16 * zlen (nw_accounts n6) <= room ->
  exists c, neoc_nep6_wallet_add_account_existing x n6 = (Ok tt, with_accounts (nw_accounts n6 ++ [x]) c n6) /\
    zlen (nw_accounts n6) + 1 <= c /\ (c = nw_capacity n6 \/ c = 2 * zlen (nw_accounts n6)).
Proof.
  intros Ex Hf Hd Hl Hc Hb Hm. unfold neoc_nep6_wallet_add_account_existing. rewrite Ex, existsb_find, Hf.
  assert ((if na_is_default x then map clear_default (nw_accounts n6) else nw_accounts n6) = nw_accounts n6) as ->.
  { unfold one_default in Hd. rewrite List.filter_app, length_app in Hd. cbn [List.filter] in Hd.
    destruct (na_is_default x); [|done]. apply clear_unmarked_all, length_zero_iff_nil. cbn in Hd. lia. }
  destruct (nw_capacity n6 <=? zlen (nw_accounts n6)) eqn:E; bdestruct.
  - cmps. rewrite (wrap_small 64 (nw_capacity n6 * 2)), wrap_small by (eval_pows; lia). unfold neoc_malloc_ok. cmps.
    rewrite Hheap by lia. cbn [negb]. cmps. eexists. split; [reflexivity|]. lia.
  - cmps. eexists. split; [reflexivity|]. lia.
Qed.

Lemma find_fresh_address t done_ : t ∉ omap na_address done_ -> List.find (address_matches t) done_ = None.
Proof.
  intros Ht. apply eq_None_not_Some. intros [x E]. apply find_some in E as [Hin Hx]. destruct Ht.
  unfold address_matches in Hx. destruct (na_address x) as [u|] eqn:Eu; [|done]. apply bool_decide_eq_true in Hx as ->.
  apply list_elem_of_omap. exists x. split; [by apply list_elem_of_In|done].
Qed.

Lemma export_accounts_ok s ps : forall n6,
  Forall (fun p => st_heap s !! fst p = Some (snd (snd p)) /\ portable (fst (snd p)) (snd (snd p))) ps ->
  NoDup (omap na_address (nw_accounts n6) ++ map (fun p : loc * entry => fst (snd p)) ps) ->
  one_default (nw_accounts n6 ++ map (fun p : loc * entry => nep6_entry (snd p)) ps) ->
  zlen (nw_accounts n6) <= nw_capacity n6 -> 0 < nw_capacity n6 < 2 ^ 57 ->
  16 * (zlen (nw_accounts n6) + zlen ps) <= room -> zlen (nw_accounts n6) + zlen ps < 2 ^ 56 ->
  exists c, export_accounts junk (map fst ps) n6 s
    = (Ok (with_accounts (nw_accounts n6 ++ map (fun p => nep6_entry (snd p)) ps) c n6), s).
Proof.
  induction ps as [|[l [t a]] ps IH]; intros n6 Hps Hnd Hd Hl Hc Hm Hb; cbn [map export_accounts].
  - exists (nw_capacity n6). rewrite app_nil_r. by destruct n6.
  - apply Forall_cons in Hps as [[Ha Hp] Hps]. cbn [fst snd] in Ha, Hp. cbn [map fst snd] in Hnd, Hd. rewrite zlen_cons in *.
    pose proof (zlen_nonneg ps). apply NoDup_app in Hnd as (Hn1 & Hn12 & Hn2). apply NoDup_cons in Hn2 as [Ht Hn2].
    assert (t ∉ omap na_address (nw_accounts n6)) as Hfresh by (intros Hin; apply (Hn12 t Hin); by left).
    unfold nep6_entry in Hd. cbn [fst snd] in Hd.
    destruct (add_nep6_ok n6 (nep6_of t a) t eq_refl (find_fresh_address t _ Hfresh)) as (c & E & Hc1 & Hc2); try lia.
    { eapply sublist_default; [|exact Hd]. apply sublist_app; [done|]. constructor. apply sublist_nil_l. }
    assert (export_account junk l n6 s = (Ok (with_accounts (nw_accounts n6 ++ [nep6_of t a]) c n6), s)) as Ee.
    { unfold export_account, bind, get_account, lift, ret. rewrite Ha, (to_nep6_ok junk heap_8192 t a Hp), E. reflexivity. }
    rewrite (bind_ok _ _ _ _ _ Ee).
    destruct (IH (with_accounts (nw_accounts n6 ++ [nep6_of t a]) c n6)) as (c' & ->); cbn [nw_accounts nw_capacity with_accounts].
    + done.
    + rewrite omap_app. cbn. rewrite <- app_assoc. apply NoDup_app. split_and!; [done| |].
      * intros x Hx. apply not_elem_of_cons. split; [intros ->; done|]. intros Hin. apply (Hn12 x Hx). by right.
      * by apply NoDup_cons.
    + by rewrite <- app_assoc.
    + rewrite zlen_app. change (zlen [nep6_of t a]) with 1. lia.
    + lia.
    + rewrite zlen_app. change (zlen [nep6_of t a]) with 1. lia.
    + rewrite zlen_app. change (zlen [nep6_of t a]) with 1. lia.
    + exists c'. by rewrite <- app_assoc.
Qed.

(** *** Import *)

(** What the calls that only move the mark leave alone. *)
Definition keeps (s s' : wallet_state) : Prop :=
  unmark <$> st_heap s' = unmark <$> st_heap s /\ wal_accounts (st_wallet s') = wal_accounts (st_wallet s) /\
  wal_name (st_wallet s') = wal_name (st_wallet s) /\ wal_version (st_wallet s') = wal_version (st_wallet s).

Lemma keeps_refl s : keeps s s.
Proof. done. Qed.

Lemma keeps_trans s1 s2 s3 : keeps s1 s2 -> keeps s2 s3 -> keeps s1 s3.
Proof. intros (A1 & A2 & A3 & A4) (B1 & B2 & B3 & B4). split_and!; congruence. Qed.

Definition keeping {A} (m : M wallet_state A) : Prop := forall s, keeps s (snd (m s)).

Lemma keeping_bind {A B} (m : M wallet_state A) (k : A -> M wallet_state B) :
  keeping m -> (forall x, keeping (k x)) -> keeping (bind m k).
Proof.
  intros Hm Hk s. unfold bind. specialize (Hm s). destruct (m s) as [[x|e|] s']; cbn in *; [|done..].
  eapply keeps_trans; [exact Hm|apply Hk].
Qed.

Lemma keeping_result {A} (r : res A) : keeping (lift r).
Proof. intros s. by destruct r. Qed.

Lemma keeping_get_account l : keeping (get_account l).
Proof. intros s. unfold get_account. by destruct (st_heap s !! l). Qed.

Lemma keeping_find t accounts : forall i, keeping (find_address t accounts i).
Proof.
  induction accounts as [|l accounts IH]; intros i; [exact (keeping_result (Ok None))|]. cbn [find_address].
  apply keeping_bind; [|intros [|]; [exact (keeping_result (Ok (Some i)))|apply IH]].
  unfold address_is. apply keeping_bind; [apply keeping_get_account|]. intros a.
  destruct (acc_address a) as [u|]; [exact (keeping_result (Ok (bool_decide (u = t))))|exact (keeping_result Fault)].
Qed.

Lemma keeping_mark l b : keeping (let! a := get_account l in put_account l (set_is_default b a)).
Proof.
  intros s. unfold bind, get_account, put_account. destruct (st_heap s !! l) as [a|] eqn:E; [|done].
  rewrite E. split_and!; try done. cbn [snd st_heap]. rewrite fmap_insert. unfold unmark at 1. cbn.
  apply insert_id. rewrite lookup_fmap, E. done.
Qed.

Lemma keeping_set_default d :
  keeping (let! w := get_wallet in put_wallet (set_default d w)).
Proof. intros s. done. Qed.

Lemma set_default_keeps t : keeping (neoc_wallet_set_default_account_str (Some t)).
Proof.
  unfold neoc_wallet_set_default_account_str. apply keeping_bind.
  - unfold neoc_wallet_get_account_by_address. apply keeping_bind; [intros s; done|]. intros w.
    apply keeping_bind; [apply keeping_find|]. intros found. exact (keeping_result (Ok _)).
  - intros [l|]; [|exact (keeping_result (Err _))]. intros s. unfold bind at 1, get_wallet at 1.
    set (m := match wal_default (st_wallet s) with Some old => _ | None => _ end).
    assert (keeping m) as Hm by (unfold m; destruct (wal_default (st_wallet s)); [apply keeping_mark|exact (keeping_result (Ok tt))]).
    unfold bind at 1. pose proof (Hm s) as Hk. destruct (m s) as [[x|e|] s1] eqn:Em; cbn [snd] in *; [|done..].
    assert (st_wallet s1 = st_wallet s) as Hw1.
    { unfold m in Em. destruct (wal_default (st_wallet s)) as [old|]; [|by injection Em as _ <-].
      unfold bind, get_account, put_account in Em. destruct (st_heap s !! old) eqn:Eo; [|done]. rewrite Eo in Em. by injection Em as _ <-. }
    unfold bind at 1, put_wallet at 1. eapply keeps_trans; [exact Hk|].
    eapply keeps_trans; [|apply keeping_mark]. split_and!; try done; cbn; by rewrite Hw1.
Qed.

(** Setting the default does not see whether the account was marked. *)
Lemma set_default_flag s l a t b us old aold :
  st_heap s !! l = Some a -> map (address_at s) (wal_accounts (st_wallet s)) = map Some us ->
  (exists k, fst <$> list_find (fun u => u = t) us = Some k /\ wal_accounts (st_wallet s) !! k = Some l) ->
  wal_default (st_wallet s) = Some old -> old <> l -> st_heap s !! old = Some aold ->
  neoc_wallet_set_default_account_str (Some t) (mk_state _ (<[l := set_is_default b a]> (st_heap s)) (st_wallet s)) =
  neoc_wallet_set_default_account_str (Some t) s.
Proof.
  intros Ea Eu (k & Ek & El) Eold Hne Eao.
  set (s' := mk_state _ (<[l := set_is_default b a]> (st_heap s)) (st_wallet s)).
  assert (forall l', address_at s' l' = address_at s l') as Hadr by (intros l'; by apply (address_at_insert s l a)).
  assert (forall s0, st_wallet s0 = st_wallet s -> (forall l', address_at s0 l' = address_at s l') ->
    neoc_wallet_get_account_by_address (Some t) s0 = (Ok (Some l), s0)) as Hfind.
  { intros s0 Ew H0'. unfold neoc_wallet_get_account_by_address, bind, get_wallet. rewrite Ew.
    rewrite (find_address_ok s0 t _ us 0) by (rewrite <- Eu; apply map_ext, H0').
    destruct (list_find _ us) as [[k' u']|]; [|done]. cbn in Ek. injection Ek as ->. cbn. by rewrite El. }
  assert (forall s0 a0, st_wallet s0 = st_wallet s -> (forall l', address_at s0 l' = address_at s l') ->
    st_heap s0 !! old = Some aold -> st_heap s0 !! l = Some a0 ->
    neoc_wallet_set_default_account_str (Some t) s0 = (Ok tt,
      mk_state _ (<[l := set_is_default true a0]> (<[old := set_is_default false aold]> (st_heap s0))) (set_default (Some l) (st_wallet s)))) as Hrun.
  { intros s0 a0 Ew Hs0 Eo0 El0. unfold neoc_wallet_set_default_account_str. rewrite (bind_ok _ _ _ _ _ (Hfind s0 Ew Hs0)).
    unfold bind, get_wallet. rewrite Ew, Eold. unfold get_account, put_account, put_wallet. rewrite Eo0. cbv beta iota. rewrite Eo0.
    cbn [st_heap st_wallet]. rewrite lookup_insert_ne, El0 by done. cbn [st_heap]. rewrite lookup_insert_ne, El0 by done. done. }
  rewrite (Hrun s a), (Hrun s' (set_is_default b a)); try done.
  - f_equal. f_equal. cbn [st_heap s']. change (set_is_default true (set_is_default b a)) with (set_is_default true a).
    rewrite (insert_insert_ne _ old l) by done. by rewrite insert_insert_eq.
  - cbn [st_heap s']. by rewrite lookup_insert_ne.
  - cbn [st_heap s']. by rewrite lookup_insert_eq.
Qed.

Lemma reimported_address t a : acc_address (reimported t a) = Some t.
Proof. done. Qed.

(** The view after one more account: a marked account, and the first one, is the default. *)
Definition view_with (v : wallet_view) (t : list byte) (marked : bool) : wallet_view :=
  mk_view (v_addresses v ++ [t]) (match v_addresses v with [] => Some t | _ => if marked then Some t else v_default v end).

Lemma pushed_keeps s l a c :
  unmark <$> st_heap (pushed s l a c) = unmark <$> <[l := a]> (st_heap s) /\
  wal_accounts (st_wallet (pushed s l a c)) = wal_accounts (st_wallet s) ++ [l] /\
  wal_name (st_wallet (pushed s l a c)) = wal_name (st_wallet s) /\
  wal_version (st_wallet (pushed s l a c)) = wal_version (st_wallet s).
Proof. unfold pushed. destruct (wal_accounts (st_wallet s)); split_and!; try done; cbn [st_heap]; by rewrite !fmap_insert. Qed.

Lemma set_default_present n s v t :
  represents n s v -> t ∈ v_addresses v ->
  exists s', neoc_wallet_set_default_account_str (Some t) s = (Ok tt, s') /\ represents n s' (mk_view (v_addresses v) (Some t)).
Proof.
  intros R Hin. destruct (set_default_step n s v t R) as (r & s' & v' & E & Sp & R'). cbn [exec_wallet_op] in E.
  inversion Sp; subst; [|done]. by exists s'.
Qed.

Lemma import_account_ok n s v l t a :
  represents n s v -> 0 <= n < 2 ^ 58 -> st_heap s !! l = None -> t ∉ v_addresses v -> portable t a -> 16 * zlen (v_addresses v) <= room ->
  exists s', import_account junk l (nep6_of t a) s = (Ok tt, s') /\ represents (n + 1) s' (view_with v t (acc_is_default a)) /\
    unmark <$> st_heap s' = unmark <$> <[l := reimported t a]> (st_heap s) /\
    wal_accounts (st_wallet s') = wal_accounts (st_wallet s) ++ [l] /\
    wal_name (st_wallet s') = wal_name (st_wallet s) /\ wal_version (st_wallet s') = wal_version (st_wallet s).
Proof.
  intros R Hn Hl Ht Hp Hm. set (b := reimported t a).
  destruct (add_run n s v l b t R Hn Hl (reimported_address t a)) as (r & s1 & E & Hr).
  rewrite decide_False in Hr by done.
  destruct Hr as [(-> & _ & Hno & Hcap)|(c & -> & -> & Hc & Hcb)].
  { destruct (rep_room _ _ _ R). rewrite Hheap in Hno by lia. done. }
  pose proof (rep_pushed n s v l (unmark b) t c R Hl (reimported_address t a) eq_refl Ht Hc Hcb) as Ru.
  destruct (pushed_keeps s l b c) as (K1 & K2 & K3 & K4).
  assert (exists a1, st_heap (pushed s l b c) !! l = Some a1 /\ acc_address a1 = Some t /\
    acc_is_default a1 = match v_addresses v with [] => true | _ => acc_is_default a end) as (a1 & Ea1 & Et1 & Ed1).
  { pose proof (rep_length n s v R) as Hlen. unfold pushed.
    destruct (wal_accounts (st_wallet s)), (v_addresses v); try done; cbn [st_heap]; rewrite lookup_insert_eq; by eexists. }
  assert (import_account junk l (nep6_of t a) s =
    (if match v_addresses v with [] => true | _ => acc_is_default a end
     then (do! attempt (neoc_wallet_set_default_account_str (Some t)) in ret tt) (pushed s l b c) else (Ok tt, pushed s l b c))) as Ei.
  { unfold import_account. rewrite (from_nep6_ok junk Hw heap_8192 t a Hp), bind_lift. cbn [exec_wallet_op] in E.
    unfold bind at 1 in E. unfold bind at 1. unfold new_account in *. rewrite Hl in *.
    unfold bind at 1, or_else. fold b. rewrite E. unfold bind at 1, get_account at 1. rewrite Ea1, Ed1.
    destruct (match v_addresses v with [] => true | _ => acc_is_default a end); [|done].
    unfold neoc_wallet_set_default_account_account, bind, attempt, get_account. by rewrite Ea1, Et1. }
  assert (neoc_wallet_set_default_account_str (Some t) (pushed s l b c) = neoc_wallet_set_default_account_str (Some t) (pushed s l (unmark b) c) ->
    exists s', (do! attempt (neoc_wallet_set_default_account_str (Some t)) in ret tt) (pushed s l b c) = (Ok tt, s') /\
      represents (n + 1) s' (mk_view (v_addresses v ++ [t]) (Some t)) /\ keeps (pushed s l b c) s') as Hset.
  { intros Eq. destruct (set_default_present _ _ _ t Ru) as (s' & Es & Rs); [apply elem_of_app; right; by left|].
    exists s'. rewrite <- Eq in Es. split_and!; [unfold bind, attempt; by rewrite Es|done|].
    pose proof (set_default_keeps t (pushed s l b c)) as Hk. by rewrite Es in Hk. }
  rewrite Ei. unfold view_with. pose proof (rep_length n s v R) as Hlen.
  assert (forall s', keeps (pushed s l b c) s' -> unmark <$> st_heap s' = unmark <$> <[l := b]> (st_heap s) /\
    wal_accounts (st_wallet s') = wal_accounts (st_wallet s) ++ [l] /\ wal_name (st_wallet s') = wal_name (st_wallet s) /\
    wal_version (st_wallet s') = wal_version (st_wallet s)) as Hall.
  { intros s' (A1 & A2 & A3 & A4). split_and!; congruence. }
  destruct (v_addresses v) as [|u us] eqn:Ev.
  - destruct Hset as (s' & Es & Rs & Ks).
    { f_equal. unfold pushed. destruct (wal_accounts (st_wallet s)); [done|]. done. }
    exists s'. split; [done|]. split; [done|]. by apply Hall.
  - destruct (acc_is_default a) eqn:Eda.
    + destruct Hset as (s' & Es & Rs & Ks); [|exists s'; split; [done|]; split; [done|by apply Hall]].
      destruct (wal_accounts (st_wallet s)) as [|l0 ls] eqn:Eacc; [done|].
      pose proof (rep_default_in _ _ _ R) as Hdi. destruct (wal_default (st_wallet s)) as [old|] eqn:Eold; [|rewrite Ev in Hdi; done].
      destruct (rep_live _ _ _ _ R Hdi) as (aold & _ & Eao & _). assert (old <> l) as Hne by congruence.
      assert (pushed s l b c = mk_state _ (<[l := set_is_default true (unmark b)]> (st_heap (pushed s l (unmark b) c)))
        (st_wallet (pushed s l (unmark b) c))) as ->.
      { unfold pushed. rewrite Eacc. cbn [st_heap st_wallet]. rewrite insert_insert_eq. f_equal. f_equal.
        unfold b, reimported, unmark. by rewrite Eda. }
      eapply (set_default_flag _ l (unmark b) t true ((u :: us) ++ [t]) old aold).
      * unfold pushed. rewrite Eacc. cbn [st_heap]. by rewrite lookup_insert_eq.
      * exact (rep_addresses _ _ _ Ru).
      * exists (length (u :: us)). split.
        -- rewrite list_find_app_r; [|apply list_find_None, Forall_forall; intros x Hx ->; done]. cbn [list_find].
           destruct (decide (t = t)); [|done]. cbn. f_equal; lia.
        -- unfold pushed. rewrite Eacc. cbn [st_wallet wal_accounts set_accounts]. rewrite <- Hlen. by rewrite list_lookup_middle.
      * unfold pushed. rewrite Eacc. exact Eold.
      * done.
      * unfold pushed. rewrite Eacc. cbn [st_heap]. by rewrite lookup_insert_ne.
    + exists (pushed s l b c). split; [done|]. split; [|by apply Hall, keeps_refl].
      assert (unmark b = b) as <- by (unfold b, reimported, unmark, set_is_default; cbn; by rewrite Eda). exact Ru.
Qed.

(** The view and the accounts after several accounts. *)
Definition views_with (v : wallet_view) (ps : list (loc * entry)) : wallet_view :=
  fold_left (fun v p => view_with v (fst (snd p)) (acc_is_default (snd (snd p)))) ps v.
Definition heap_with (heap : gmap loc neoc_account_t) (ps : list (loc * entry)) : gmap loc neoc_account_t :=
  fold_left (fun h p => <[fst p := reimported (fst (snd p)) (snd (snd p))]> h) ps heap.

Lemma heap_with_cons h p ps : heap_with h (p :: ps) = heap_with (<[fst p := reimported (fst (snd p)) (snd (snd p))]> h) ps.
Proof. done. Qed.

Lemma heap_with_unmark ps : forall h1 h2,
  unmark <$> h1 = unmark <$> h2 -> unmark <$> heap_with h1 ps = unmark <$> heap_with h2 ps.
Proof. induction ps as [|p ps IH]; intros h1 h2 E; [done|]. cbn. apply IH. by rewrite !fmap_insert, E. Qed.

Lemma heap_with_other ps : forall h l, l ∉ map fst ps -> heap_with h ps !! l = h !! l.
Proof.
  induction ps as [|p ps IH]; intros h l Hl; [done|]. cbn [map] in *. apply not_elem_of_cons in Hl as [Hp Hl].
  rewrite heap_with_cons, IH by done. by rewrite lookup_insert_ne.
Qed.

Lemma heap_with_at ps : forall h i l t a, NoDup (map fst ps) -> ps !! i = Some (l, (t, a)) -> heap_with h ps !! l = Some (reimported t a).
Proof.
  induction ps as [|p ps IH]; intros h i l t a Hn E; [done|]. apply NoDup_cons in Hn as [Hp Hn]. destruct i as [|i].
  - injection E as ->. rewrite heap_with_cons, heap_with_other by done. by rewrite lookup_insert_eq.
  - cbn in E. rewrite heap_with_cons. by apply (IH _ i).
Qed.

Lemma unmark_lookup (h1 h2 : gmap loc neoc_account_t) l :
  unmark <$> h1 = unmark <$> h2 -> unmark <$> h1 !! l = unmark <$> h2 !! l.
Proof. intros E. rewrite <- !lookup_fmap. by rewrite E. Qed.

Lemma import_accounts_ok ps : forall n s v,
  represents n s v -> 0 <= n -> n + zlen ps < 2 ^ 58 -> Forall (fun p => st_heap s !! fst p = None) ps -> NoDup (map fst ps) ->
  NoDup (v_addresses v ++ map (fun p => fst (snd p)) ps) -> Forall (fun p => portable (fst (snd p)) (snd (snd p))) ps ->
  16 * (zlen (v_addresses v) + zlen ps) <= room ->
  exists s', import_accounts junk (map (fun p => (fst p, nep6_entry (snd p))) ps) s = (Ok tt, s') /\
    represents (n + zlen ps) s' (views_with v ps) /\ unmark <$> st_heap s' = unmark <$> heap_with (st_heap s) ps /\
    wal_accounts (st_wallet s') = wal_accounts (st_wallet s) ++ map fst ps /\
    wal_name (st_wallet s') = wal_name (st_wallet s) /\ wal_version (st_wallet s') = wal_version (st_wallet s).
Proof.
  induction ps as [|[l [t a]] ps IH]; intros n s v R Hn Hb Hh Hnl Hnd Hp Hm.
  - exists s. cbn. rewrite app_nil_r. split_and!; try done. by eapply rep_mono; [done|change (zlen (@nil (loc * entry))) with 0; lia].
  - rewrite zlen_cons in *. pose proof (zlen_nonneg ps). apply Forall_cons in Hh as [Hl Hh]. apply Forall_cons in Hp as [Hpa Hp].
    cbn [map fst snd] in *. apply NoDup_cons in Hnl as [Hl1 Hnl]. pose proof Hnd as (Hn1 & Hn12 & Hn2)%NoDup_app.
    assert (t ∉ v_addresses v) as Ht by (intros Hin; apply (Hn12 t Hin); by left).
    destruct (import_account_ok n s v l t a R) as (s1 & E & R1 & U1 & W1 & N1 & V1); try done; try lia.
    destruct (IH (n + 1) s1 _ R1) as (s2 & E2 & R2 & U2 & W2 & N2 & V2); try lia; try done.
    + rewrite Forall_forall in *. intros [l' e] Hin. specialize (Hh _ Hin). cbn in *.
      pose proof (unmark_lookup _ _ l' U1) as Hu. rewrite lookup_insert_ne, Hh in Hu.
      * by destruct (st_heap s1 !! l').
      * intros ->. apply Hl1. apply list_elem_of_In, in_map_iff. exists (l', e). split; [done|by apply list_elem_of_In].
    + cbn [view_with v_addresses]. by rewrite <- app_assoc.
    + cbn [view_with v_addresses]. rewrite zlen_app. change (zlen [t]) with 1. lia.
    + exists s2. cbn [import_accounts]. unfold nep6_entry at 1. cbn [fst snd]. rewrite (bind_ok _ _ _ _ _ E). split_and!; try done.
      * by replace (n + (1 + zlen ps)) with (n + 1 + zlen ps) by lia.
      * rewrite U2, heap_with_cons. by apply heap_with_unmark.
      * rewrite W2, W1. by rewrite <- app_assoc.
      * congruence.
      * congruence.
Qed.

Lemma views_addresses ps : forall v, v_addresses (views_with v ps) = v_addresses v ++ map (fun p => fst (snd p)) ps.
Proof.
  induction ps as [|p ps IH]; intros v; [cbn; by rewrite app_nil_r|].
  change (views_with v (p :: ps)) with (views_with (view_with v (fst (snd p)) (acc_is_default (snd (snd p)))) ps).
  rewrite IH. cbn. by rewrite <- app_assoc.
Qed.

(** One account is marked: it ends as the default. *)
Lemma views_default ps t :
  (forall p, p ∈ ps -> acc_is_default (snd (snd p)) = true -> fst (snd p) = t) ->
  (exists p, p ∈ ps /\ acc_is_default (snd (snd p)) = true) -> v_default (views_with (mk_view [] None) ps) = Some t.
Proof.
  induction ps as [|p ps IH] using rev_ind; intros Hall (q & Hq & Hm); [by apply not_elem_of_nil in Hq|].
  unfold views_with. rewrite fold_left_app. cbn [fold_left]. fold (views_with (mk_view [] None) ps).
  unfold view_with. cbn [v_default]. rewrite views_addresses. cbn [app].
  assert (forall r, r ∈ ps -> r ∈ ps ++ [p]) as Hin by (intros r Hr; apply elem_of_app; by left).
  destruct (acc_is_default (snd (snd p))) eqn:Ep.
  - assert (fst (snd p) = t) as -> by (apply Hall; [apply elem_of_app; right; by left|done]).
    by destruct (v_addresses _ ++ _).
  - apply elem_of_app in Hq as [Hq|Hq%list_elem_of_singleton]; [|congruence].
    destruct ps as [|p0 ps]; [by apply not_elem_of_nil in Hq|]. cbn [map app v_addresses].
    apply IH; [|by exists q]. intros r Hr. apply Hall. by apply Hin.
Qed.

(** The accounts of a wallet: where they are, their addresses and their contents. *)
Definition wallet_entries (s : wallet_state) (es : list (loc * entry)) : Prop :=
  wal_accounts (st_wallet s) = map fst es /\
  Forall (fun p => st_heap s !! fst p = Some (snd (snd p)) /\ portable (fst (snd p)) (snd (snd p))) es.

Lemma entries_addresses n s v es :
  represents n s v -> wallet_entries s es -> v_addresses v = map (fun p => fst (snd p)) es.
Proof.
  intros R [Hes Hh]. pose proof (rep_addresses _ _ _ R) as Ra. rewrite Hes, map_map in Ra.
  apply (inj (map Some)). rewrite <- Ra, map_map. apply map_ext_in. intros p Hp.
  rewrite Forall_forall in Hh. apply list_elem_of_In, Hh in Hp as [Ep (Ea & _)]. unfold address_at. rewrite Ep. exact Ea.
Qed.

Lemma entries_distinct n s v es : represents n s v -> wallet_entries s es -> NoDup (map fst es).
Proof.
  intros R [<- _]. apply NoDup_alt. intros i j l Hi Hj. by eapply rep_inj.
Qed.

Lemma one_marked (d : option loc) (es : list (loc * entry)) :
  NoDup (map fst es) -> Forall (fun p => acc_is_default (snd (snd p)) = true -> d = Some (fst p)) es ->
  one_default (map (fun p => nep6_entry (snd p)) es).
Proof.
  unfold one_default. induction es as [|p es IH]; intros Hn Hf; [cbn; lia|]. apply NoDup_cons in Hn as [Hp Hn].
  apply Forall_cons in Hf as [Hpf Hf]. cbn [map List.filter]. change (na_is_default (nep6_entry (snd p))) with (acc_is_default (snd (snd p))).
  destruct (acc_is_default (snd (snd p))) eqn:E; [|by apply IH]. specialize (Hpf eq_refl). cbn [length].
  enough (List.filter na_is_default (map (fun p => nep6_entry (snd p)) es) = []) as -> by (cbn; lia).
  clear IH Hn E. induction es as [|q es IH]; [done|]. apply Forall_cons in Hf as [Hq Hf]. cbn [map List.filter] in *.
  apply not_elem_of_cons in Hp as [Hpq Hp].
  change (na_is_default (nep6_entry (snd q))) with (acc_is_default (snd (snd q))).
  destruct (acc_is_default (snd (snd q))); [specialize (Hq eq_refl); congruence|]. by apply IH.
Qed.

(** The same accounts at other places. *)
Definition relocated (locs : list loc) (es : list (loc * entry)) : list (loc * entry) := combine locs (map snd es).

Lemma relocated_locs locs es : length locs = length es -> map fst (relocated locs es) = locs.
Proof. intros Hl. unfold relocated. revert es Hl. induction locs as [|l locs IH]; intros [|e es] Hl; try done. cbn in *. f_equal. apply IH. lia. Qed.

Lemma relocated_map {B} (f : entry -> B) locs es : length locs = length es ->
  map (fun p => f (snd p)) (relocated locs es) = map (fun p => f (snd p)) es.
Proof. intros Hl. unfold relocated. revert es Hl. induction locs as [|l locs IH]; intros [|e es] Hl; try done. cbn in *. f_equal. apply IH. lia. Qed.

Lemma relocated_nep6 locs es :
  combine locs (map (fun p => nep6_entry (snd p)) es) = map (fun p => (fst p, nep6_entry (snd p))) (relocated locs es).
Proof. unfold relocated. revert es. induction locs as [|l locs IH]; intros [|e es]; try done. cbn. f_equal. apply IH. Qed.

Lemma relocated_elem locs es p : p ∈ relocated locs es -> exists q, q ∈ es /\ snd q = snd p.
Proof.
  unfold relocated. intros Hp. apply list_elem_of_In in Hp. destruct p as [l e]. apply in_combine_r, in_map_iff in Hp as (q & Eq & Hq).
  exists q. split; [by apply list_elem_of_In|done].
Qed.

Lemma elem_moved locs es q : length locs = length es -> q ∈ es -> exists p, p ∈ relocated locs es /\ snd p = snd q.
Proof.
  intros Hl Hq. assert (snd q ∈ map (fun p => snd p) (relocated locs es)) as Hin.
  { rewrite (relocated_map (fun e => e)) by done. apply list_elem_of_In, in_map_iff. exists q. split; [done|by apply list_elem_of_In]. }
  apply list_elem_of_In, in_map_iff in Hin as (p & Ep & Hp). exists p. split; [by apply list_elem_of_In|done].
Qed.

Lemma relocated_at locs es : forall i l l' e, locs !! i = Some l -> es !! i = Some (l', e) -> relocated locs es !! i = Some (l, e).
Proof.
  unfold relocated. revert es. induction locs as [|x locs IH]; intros [|p es] [|i] l l' e Hl He; try done.
  - by simplify_eq/=.
  - by apply (IH es i l l' e).
Qed.

Lemma export_wallet_ok n s v es :
  represents n s v -> wallet_entries s es -> zlen es < 2 ^ 56 -> 16 * zlen es <= room ->
  zlen (default default_wallet_name (wal_name (st_wallet s))) < 4096 -> zlen (default wallet_version (wal_version (st_wallet s))) < 4096 ->
  exists c, neoc_wallet_to_nep6 junk s =
    (Ok (mk_nep6_wallet (Some (default default_wallet_name (wal_name (st_wallet s)))) (Some (default wallet_version (wal_version (st_wallet s))))
           16384 8 8 (map (fun p => nep6_entry (snd p)) es) c), s).
Proof.
  intros R Hes Hb Hm Hname Hver. pose proof (entries_addresses n s v es R Hes) as Hv. pose proof (entries_distinct n s v es R Hes) as Hnl.
  pose proof Hes as [Hacc Hh]. unfold neoc_wallet_to_nep6, bind at 1, get_wallet.
  set (nm := default default_wallet_name (wal_name (st_wallet s))) in *. set (vr := default wallet_version (wal_version (st_wallet s))) in *.
  pose proof (zlen_nonneg nm). pose proof (zlen_nonneg vr).
  assert (neoc_nep6_wallet_create (Some nm) (Some vr) = Ok (mk_nep6_wallet (Some nm) (Some vr) 16384 8 8 [] 10)) as ->.
  { unfold neoc_nep6_wallet_create, strdup_or_null, nep6_wallet_size, neoc_malloc_ok. cbn [Z.eqb default from_option id]. cmps.
    rewrite !Hheap by lia. done. }
  rewrite bind_lift. set (n6 := match wal_version (st_wallet s) with Some _ => _ | None => _ end).
  assert (n6 = mk_nep6_wallet (Some nm) (Some vr) 16384 8 8 [] 10) as ->.
  { unfold n6, vr. destruct (wal_version (st_wallet s)) as [x|]; [|done]. unfold neoc_nep6_wallet_set_version. cbn in Hver.
    by rewrite (dup_opt_ok heap_8192 (Some x)) by lia. }
  rewrite Hacc. destruct (export_accounts_ok s es (mk_nep6_wallet (Some nm) (Some vr) 16384 8 8 [] 10)) as (c & E);
    cbn [nw_accounts nw_capacity] in *; try done; try (zlen_nils; lia).
  - cbn. rewrite <- Hv. apply (rep_distinct _ _ _ R).
  - cbn [app]. apply (one_marked (wal_default (st_wallet s))); [done|]. rewrite Forall_forall in *. intros p Hp Hf.
    destruct (Hh p Hp) as [Ep _]. rewrite (rep_flags _ _ _ R (fst p) (snd (snd p))) in Hf; [by apply bool_decide_eq_true in Hf| |done].
    rewrite Hacc. apply list_elem_of_In, in_map_iff. exists p. split; [done|by apply list_elem_of_In].
  - exists c. rewrite E. done.
Qed.

Lemma import_wallet_ok nm vr c locs es heap :
  zlen nm < 4096 -> zlen vr < 4096 -> length locs = length es -> NoDup locs -> Forall (fun l => heap !! l = None) locs ->
  NoDup (map (fun p : loc * entry => fst (snd p)) es) -> Forall (fun p => portable (fst (snd p)) (snd (snd p))) es ->
  zlen es < 2 ^ 56 -> 16 * zlen es <= room ->
  exists heap' w, neoc_wallet_from_nep6 junk (mk_nep6_wallet (Some nm) (Some vr) 16384 8 8 (map (fun p => nep6_entry (snd p)) es) c) locs heap
    = (Ok tt, heap', Some w) /\
    represents (zlen es) (mk_state _ heap' w) (views_with (mk_view [] None) (relocated locs es)) /\
    unmark <$> heap' = unmark <$> heap_with heap (relocated locs es) /\
    wal_accounts w = locs /\ wal_name w = Some nm /\ wal_version w = Some vr.
Proof.
  intros Hname Hver Hl Hnl Hfr Hnd Hp Hb Hm. unfold neoc_wallet_from_nep6. cbn [nw_name nw_version nw_accounts].
  pose proof (zlen_nonneg nm). pose proof (zlen_nonneg vr).
  assert (neoc_wallet_create (Some nm) = Ok (mk_wallet (Some nm) (Some wallet_version) [] INITIAL_ACCOUNT_CAPACITY None)) as Ec.
  { unfold neoc_wallet_create, wallet_struct_size, INITIAL_ACCOUNT_CAPACITY. change (zlen wallet_version) with 3.
    rewrite !Hheap by lia. done. }
  rewrite Ec. unfold neoc_nep6_wallet_get_version_copy. cbn [nw_version]. rewrite (dup_opt_ok heap_8192 (Some vr)) by lia.
  rewrite relocated_nep6. set (w0 := mk_wallet _ _ _ _ _).
  assert (represents 0 (mk_state _ heap w0) (mk_view [] None)) as R0.
  { destruct (rep_created (Some nm) _ heap Ec) as [A1 A2 A3 A4 A5 A6 A7]. constructor; done. }
  assert (zlen (relocated locs es) = zlen es) as Hz.
  { unfold relocated, zlen. rewrite length_combine, length_map. lia. }
  destruct (import_accounts_ok (relocated locs es) 0 (mk_state _ heap w0) (mk_view [] None) R0) as (s' & E & R' & U & W & N & V);
    cbn [v_addresses] in *; try lia; try (zlen_nils; lia).
  - apply Forall_forall. intros [l e] Hin. apply (proj1 (Forall_forall _ _) Hfr). rewrite <- (relocated_locs locs es Hl).
    apply list_elem_of_In, in_map_iff. exists (l, e). split; [done|by apply list_elem_of_In].
  - by rewrite relocated_locs.
  - cbn [app]. by rewrite (relocated_map fst) by done.
  - apply Forall_forall. intros p (q & Hq & Eq)%relocated_elem. rewrite <- Eq. by apply (proj1 (Forall_forall _ _) Hp).
  - unfold or_else. rewrite E. exists (st_heap s'), (st_wallet s'). rewrite Hz in R'. split_and!; try done.
    + by destruct s'.
    + rewrite W. cbn. by apply relocated_locs.
Qed.

(** C35. A wallet survives the NEP-6 wallet: exporting the accounts of a wallet and importing them at any free places
    gives a wallet with the same name, version, addresses in the same order and default account.  The accounts are
    those of [reimported], not the ones that were exported: none has a key pair, an account with an encrypted key is
    locked, an account without a label is labelled with its address, and a multi-signature account keeps its script but
    not its threshold and participants. *)
Theorem wallet_nep6_roundtrip (n : Z) (s : wallet_state) (v : wallet_view) (es : list (loc * entry))
    (locs : list loc) (heap : gmap loc neoc_account_t) :
  represents n s v -> wallet_entries s es -> zlen es < 2 ^ 56 -> 16 * zlen es <= room ->
  zlen (default default_wallet_name (wal_name (st_wallet s))) < 4096 -> zlen (default wallet_version (wal_version (st_wallet s))) < 4096 ->
  length locs = length es -> NoDup locs -> Forall (fun l => heap !! l = None) locs ->
  exists n6 heap' w,
    neoc_wallet_to_nep6 junk s = (Ok n6, s) /\ neoc_wallet_from_nep6 junk n6 locs heap = (Ok tt, heap', Some w) /\
    represents (zlen es) (mk_state _ heap' w) v /\ wal_accounts w = locs /\
    wal_name w = Some (default default_wallet_name (wal_name (st_wallet s))) /\
    wal_version w = Some (default wallet_version (wal_version (st_wallet s))) /\
    forall i l l' t a, locs !! i = Some l -> es !! i = Some (l', (t, a)) ->
      exists b, heap' !! l = Some b /\ unmark b = unmark (reimported t a).
Proof.
  intros R Hes Hb Hm Hname Hver Hl Hnl Hfr. pose proof (entries_addresses n s v es R Hes) as Hv.
  destruct (export_wallet_ok n s v es R Hes Hb Hm Hname Hver) as (c & Ex).
  pose proof Hes as [Hacc Hh]. pose proof (rep_distinct _ _ _ R) as Hnd. rewrite Hv in Hnd.
  destruct (import_wallet_ok (default default_wallet_name (wal_name (st_wallet s))) (default wallet_version (wal_version (st_wallet s)))
    c locs es heap) as (heap' & w & Ei & R' & U & W & N & V); try done.
  { eapply Forall_impl; [exact Hh|]. by intros p [_ Hp]. }
  eexists _, heap', w. split; [exact Ex|]. split; [exact Ei|]. split_and!; try done.
  - enough (views_with (mk_view [] None) (relocated locs es) = v) as <- by done.
    assert (v_addresses (views_with (mk_view [] None) (relocated locs es)) = v_addresses v) as Ea
      by (rewrite views_addresses, Hv; apply (relocated_map fst); done).
    enough (v_default (views_with (mk_view [] None) (relocated locs es)) = v_default v) as Ed
      by (destruct (views_with _ _), v; cbn in *; congruence).
    pose proof (rep_default_in _ _ _ R) as Hdi. pose proof (rep_default _ _ _ R) as Hd.
    destruct (wal_default (st_wallet s)) as [d|] eqn:Edef.
    + rewrite Hacc in Hdi. apply list_elem_of_In, in_map_iff in Hdi as (q & Eq & Hq%list_elem_of_In).
      rewrite Forall_forall in Hh. destruct (Hh q Hq) as [Eqh (Eqa & _)].
      cbn in Hd. unfold address_at in Hd. rewrite <- Eq, Eqh in Hd. cbn in Hd. rewrite Eqa in Hd. rewrite <- Hd.
      assert (forall r, r ∈ es -> acc_is_default (snd (snd r)) = bool_decide (fst r = d)) as Hflag.
      { intros r Hr. destruct (Hh r Hr) as [Er _]. rewrite (rep_flags _ _ _ R (fst r) (snd (snd r))); [|..|done].
        - rewrite Edef. apply bool_decide_ext. split; congruence.
        - rewrite Hacc. apply list_elem_of_In, in_map_iff. exists r. split; [done|by apply list_elem_of_In]. }
      apply views_default.
      * intros p (r & Hr & Er)%relocated_elem Hp. rewrite <- Er in *. rewrite (Hflag r Hr) in Hp. apply bool_decide_eq_true in Hp.
        destruct (Hh r Hr) as [Erh (Era & _)]. rewrite Hp, <- Eq, Eqh in Erh. injection Erh as Erh. congruence.
      * destruct (elem_moved locs es q Hl Hq) as (p & Hp & Ep). exists p. split; [done|]. rewrite Ep, (Hflag q Hq).
        by apply bool_decide_eq_true.
    + rewrite Hv in Hdi. destruct es; [|done]. destruct locs; [|done]. cbn. by rewrite <- Hd.
  - intros i l l' t a Hi He. assert (relocated locs es !! i = Some (l, (t, a))) as Em.
    { by apply (relocated_at locs es i l l' (t, a)). }
    pose proof (unmark_lookup _ _ l U) as Hu. rewrite (heap_with_at (relocated locs es) heap i l t a) in Hu by (rewrite ?relocated_locs; done).
    destruct (heap' !! l) as [b|]; [|done]. exists b. split; [done|]. apply (inj Some). exact Hu.
Qed.

End Wallets.

(** ** Samples *)

Section Samples.
#[local] Existing Instance mib_heap.
#[local] Existing Instance sample_interop.
#[local] Existing Instance toy_crypto.
#[local] Existing Instance toy_curve.
#[local] Existing Instance toy_ecdsa.
#[local] Existing Instance toy_nep2_crypto.
#[local] Existing Instance toy_double.

Lemma mib_8192 : heap_serves 8192.
Proof. apply mib_heap_serves. by vm_compute. Qed.

Lemma key_account_portable label address hash key point :
  identity_of point hash address -> zlen label < 4096 -> portable address (key_account label address hash key point).
Proof.
  intros (_ & Hh & Ha) Hl. split_and!; try done.
  assert (zlen (single_sig_bytes (EC_POINT_point2oct true point)) = 40) as Hz
    by apply single_sig_length, (works_compressed_size toy_curve_works).
  assert (neoc_account_get_verification_script (key_account label address hash key point)
    = Ok (single_sig_bytes (EC_POINT_point2oct true point))) as ->; [|lia].
  unfold neoc_account_get_verification_script, key_account. cbn [acc_verification_script acc_verification_script_len].
  change (neoc_malloc_ok 40) with true. cbn [negb Z.ltb]. by apply memcpy_from_all.
Qed.

Definition sample_key_account (address : list byte) (hash : neoc_hash160_t) : neoc_account_t :=
  key_account (str "main") address hash (toy_private 5) (sample_point 5).

Lemma account_nep6_roundtrip_witness :
  exists address hash,
    (let? n6 := neoc_account_to_nep6 Byte.x00 (key_account (str "main") address hash (toy_private 5) (sample_point 5)) in
     neoc_account_from_nep6 Byte.x00 n6)
    = Ok (reimported address (key_account (str "main") address hash (toy_private 5) (sample_point 5))).
Proof.
  destruct (identity_exists Byte.x00 toy_crypto_works toy_curve_works (heap_serves_mono _ 1024 mib_8192 ltac:(lia)) (sample_point 5))
    as (hash & address & Hi & _).
  exists address, hash. apply (account_nep6_roundtrip Byte.x00 toy_crypto_works mib_8192).
  apply key_account_portable; [exact Hi|vm_compute; reflexivity].
Defined.

Lemma wallet_nep6_roundtrip_witness :
  exists s n6 heap w, neoc_wallet_to_nep6 Byte.x00 s = (Ok n6, s) /\
    neoc_wallet_from_nep6 Byte.x00 n6 [7%positive] ∅ = (Ok tt, heap, Some w) /\ wal_accounts w = [7%positive].
Proof.
  destruct (identity_exists Byte.x00 toy_crypto_works toy_curve_works (heap_serves_mono _ 1024 mib_8192 ltac:(lia)) (sample_point 5))
    as (hash & address & Hi & _).
  pose (a := sample_key_account address hash).
  destruct (add_run 0 (mk_state _ ∅ sample_wallet) (mk_view [] None) 1%positive a address
    (rep_created None _ ∅ sample_wallet_created) ltac:(lia) (lookup_empty _) eq_refl) as (r & s & E & [(_ & _ & F & _)|(c & -> & -> & Hc & Hcb)]);
    [done|].
  pose proof (rep_pushed 0 (mk_state _ ∅ sample_wallet) (mk_view [] None) 1%positive a address c
    (rep_created None _ ∅ sample_wallet_created) (lookup_empty _) eq_refl eq_refl (not_elem_of_nil _) Hc Hcb) as R.
  destruct (wallet_nep6_roundtrip Byte.x00 toy_crypto_works 8192 mib_8192 (Z.le_refl _) _ _ _
    [(1%positive, (address, set_is_default true a))] [7%positive] ∅ R) as (n6 & heap & w & Ex & Ei & _ & Ew & _).
  - split; [reflexivity|]. apply Forall_singleton. split; [cbn; apply lookup_insert_eq|].
    apply (key_account_portable (str "main") address hash (toy_private 5) (sample_point 5)) in Hi; [exact Hi|vm_compute; reflexivity].
  - vm_compute. reflexivity.
  - vm_compute. discriminate.
  - vm_compute. reflexivity.
  - vm_compute. reflexivity.
  - reflexivity.
  - apply NoDup_singleton.
  - apply Forall_singleton, lookup_empty.
  - eexists _, n6, heap, w. split; [exact Ex|]. split; [exact Ei|exact Ew].
Defined.

(** A wallet with an account is saved as a file that cannot be loaded. *)
Definition watched : neoc_account_t :=
  mk_account _ (Some (str "x")) (Some (str "x")) (mk_hash160 (replicate 20 Byte.x00)) None false true None 0 None 0 EXTRA_NONE.

Definition saved_state : wallet_state := mk_state _ {[1%positive := watched]} (mk_wallet (Some (str "w")) (Some (str "1.0")) [1%positive] 10 (Some 1%positive)).

Lemma saved_wallet_not_loadable :
  match fst (neoc_wallet_save Byte.xff true (fun n => n) saved_state) with
  | Ok file => neoc_wallet_load Byte.xff (Some file) (fun n => n) [2%positive] ∅
  | _ => (Ok tt, ∅, None)
  end = (Err NEOC_ERROR_INVALID_FORMAT, ∅, None).
Proof. vm_compute. reflexivity. Qed.
End Samples.
