(* ===== verification/TransactionBuilder.v ===== *)
(** * Transaction builder (src/transaction/transaction_builder.c; signing in transaction.c)

    The builder collects the parts of a transaction, hands its signers over to the
    transaction it builds and keeps a pointer to it.  Transactions and the data blocks of
    attributes live in stores, so that dangling and shared pointers can be told: using a
    freed transaction, or freeing a block twice, is a [Fault].  The attributes are an array
    of 16 slots of which the first [attribute_count] are in use; slots behind keep what
    they had.  Witnesses are never added to the builder.  Random numbers, the clock, the
    node's answers and cJSON's parser are arguments. *)

From S2P Require Import Prelude BinaryWriter Crypto Base58 Hashes Interop Opcode NeoVM ScriptBuilder EcKey VerificationScript ScriptHelper Signature KeyPair Nep2 Witness WitnessRule Signer Transaction MultiSig Account.
From stdpp Require Import gmap fin_maps.
#[local] Open Scope Z_scope.

Definition TX_BUILDER_MAX_SCRIPT_SIZE : Z := 65536.
Definition TX_BUILDER_MAX_SIGNERS : Z := 16.
Definition TX_BUILDER_MAX_ATTRIBUTES : Z := 16.
Definition TX_DEFAULT_VALID_UNTIL_BLOCK : Z := 1000000.
Definition TX_DEFAULT_NETWORK_FEE : Z := 100000.
Definition NEOC_TX_ATTR_HIGH_PRIORITY : Z := 0x01.

(** A slot of the array of attributes; the data is a pointer into the store of blocks. *)
Record attribute_slot := mk_slot {
  slot_type : Z;
  slot_data : option positive;
  slot_data_len : Z
}.

(** A slot of the array of signers is NULL after its signer has been handed over. *)
Record neoc_tx_builder_t `{Curve} := mk_builder {
  tb_version : Z;
  tb_nonce : Z;
  tb_valid_until_block : Z;
  tb_signers : list (option neoc_signer_t);
  tb_system_fee : Z;
  tb_network_fee : Z;
  tb_attributes : list attribute_slot;
  tb_attribute_count : Z;
  tb_script : option (list byte);
  tb_script_size : Z;
  tb_is_signed : bool;
  tb_built_transaction : option positive
}.

(** The builder, the attribute data blocks and the transactions. *)
Record tb_state `{Curve} := mk_tb_state {
  ts_builder : neoc_tx_builder_t;
  ts_blocks : gmap positive (list byte);
  ts_transactions : gmap positive neoc_transaction_t
}.

(** A parsed JSON value.  Of a number the code uses its truncation to 64 bits and whether
    the number differs from that by at most 1e-9; objects are not supported. *)
Inductive json : Type :=
| JBool (v : bool)
| JNull
| JNumber (as_int : Z) (integral : bool)
| JString (v : list byte)
| JArray (items : list json)
| JObject.

(** [sizeof(neoc_tx_builder_t)] *)
Definition tx_builder_struct_size : Z := 728.

Section Operations.
Context `{Allocator} `{Interop} `{Crypto} `{Curve} `{!Ecdsa}.
Variable junk : byte.

Abbreviation Tb := (M tb_state).

(** ** transaction.c: signing *)

Definition neoc_transaction_sign (draw : Z) (account : neoc_account_t) : M neoc_transaction_t unit :=
  let! hash := neoc_transaction_calculate_hash in
  let! signature := lift (neoc_account_sign draw account (Some (hash256_data hash)) 32) in
  match acc_key_pair account with
  | None => fail NEOC_ERROR_INVALID_STATE
  | Some key_pair =>
      let! public_key := lift (neoc_ec_key_pair_get_public_key key_pair 65) in
      let! witness :=
        lift (neoc_witness_create_from_signature (Some signature) (zlen signature)
                (Some public_key) (zlen public_key)) in
      neoc_transaction_add_witness (Some witness)
  end.

(** Each account signs with a draw of its own. *)
Fixpoint sign_loop (accounts : list (Z * neoc_account_t)) : M neoc_transaction_t unit :=
  match accounts with
  | [] => ret tt
  | (draw, account) :: accounts => do! neoc_transaction_sign draw account in sign_loop accounts
  end.

Definition neoc_transaction_sign_multi (accounts : list (Z * neoc_account_t))
  : M neoc_transaction_t unit :=
  match accounts with
  | [] => fail NEOC_ERROR_INVALID_ARGUMENT
  | _ => sign_loop accounts
  end.

(** ** Fields *)

Definition get_builder : Tb neoc_tx_builder_t := fun s => (Ok (ts_builder s), s).
Definition put_builder (b : neoc_tx_builder_t) : Tb unit := fun s =>
  (Ok tt, mk_tb_state _ b (ts_blocks s) (ts_transactions s)).

(** [nonce] is what the random generator gives. *)
Definition neoc_tx_builder_create (nonce : Z) : res neoc_tx_builder_t :=
  if negb (neoc_malloc_ok tx_builder_struct_size) then Err NEOC_ERROR_MEMORY
  else Ok (mk_builder _ 0 nonce TX_DEFAULT_VALID_UNTIL_BLOCK [] 0 TX_DEFAULT_NETWORK_FEE
             (replicate 16 (mk_slot 0 None 0)) 0 None 0 false None).

Definition neoc_tx_builder_set_version (version : Z) : Tb unit :=
  let! b := get_builder in
  put_builder (mk_builder _ version (tb_nonce b) (tb_valid_until_block b) (tb_signers b)
    (tb_system_fee b) (tb_network_fee b) (tb_attributes b) (tb_attribute_count b) (tb_script b)
    (tb_script_size b) (tb_is_signed b) (tb_built_transaction b)).

Definition neoc_tx_builder_set_nonce (nonce : Z) : Tb unit :=
  let! b := get_builder in
  put_builder (mk_builder _ (tb_version b) nonce (tb_valid_until_block b) (tb_signers b)
    (tb_system_fee b) (tb_network_fee b) (tb_attributes b) (tb_attribute_count b) (tb_script b)
    (tb_script_size b) (tb_is_signed b) (tb_built_transaction b)).

Definition set_valid_until (block_height : Z) (b : neoc_tx_builder_t) : neoc_tx_builder_t :=
  mk_builder _ (tb_version b) (tb_nonce b) block_height (tb_signers b)
    (tb_system_fee b) (tb_network_fee b) (tb_attributes b) (tb_attribute_count b) (tb_script b)
    (tb_script_size b) (tb_is_signed b) (tb_built_transaction b).

Definition neoc_tx_builder_set_valid_until_block (block_height : Z) : Tb unit :=
  if block_height =? 0 then fail NEOC_ERROR_INVALID_ARGUMENT
  else let! b := get_builder in put_builder (set_valid_until block_height b).

(** [height] is the node's answer. *)
Definition neoc_tx_builder_set_valid_until_block_from_rpc (height : res Z) (increment : Z) : Tb unit :=
  let! height := lift height in
  let inc := if increment =? 0 then 1000 else increment in
  let target := height + inc in
  if 2 ^ 32 - 1 <? target then fail NEOC_ERROR_INVALID_SIZE
  else let! b := get_builder in put_builder (set_valid_until (wrap 32 target) b).

Definition set_script (script : option (list byte)) (size : Z) (b : neoc_tx_builder_t)
  : neoc_tx_builder_t :=
  mk_builder _ (tb_version b) (tb_nonce b) (tb_valid_until_block b) (tb_signers b)
    (tb_system_fee b) (tb_network_fee b) (tb_attributes b) (tb_attribute_count b) script
    size (tb_is_signed b) (tb_built_transaction b).

(** The old script is freed first; a failure keeps its size. *)
Definition neoc_tx_builder_set_script (script : option (list byte)) (script_size : Z) : Tb unit :=
  match script with
  | None => fail NEOC_ERROR_INVALID_ARGUMENT
  | Some script =>
      if TX_BUILDER_MAX_SCRIPT_SIZE <? script_size then fail NEOC_ERROR_INVALID_SIZE
      else
        let! b := get_builder in
        if negb (neoc_malloc_ok script_size) then
          do! put_builder (set_script None (tb_script_size b) b) in fail NEOC_ERROR_MEMORY
        else
          let! copy := lift (memcpy_from script script_size) in
          put_builder (set_script (Some copy) script_size b)
  end.

Definition set_fees (system_fee network_fee : Z) (b : neoc_tx_builder_t) : neoc_tx_builder_t :=
  mk_builder _ (tb_version b) (tb_nonce b) (tb_valid_until_block b) (tb_signers b)
    system_fee network_fee (tb_attributes b) (tb_attribute_count b) (tb_script b)
    (tb_script_size b) (tb_is_signed b) (tb_built_transaction b).

Definition neoc_tx_builder_add_network_fee (fee : Z) : Tb unit :=
  let! b := get_builder in
  put_builder (set_fees (tb_system_fee b) (wrap 64 (tb_network_fee b + fee)) b).

Definition neoc_tx_builder_add_system_fee (fee : Z) : Tb unit :=
  let! b := get_builder in
  put_builder (set_fees (wrap 64 (tb_system_fee b + fee)) (tb_network_fee b) b).

(** ** Signers *)

Definition set_signers (signers : list (option neoc_signer_t)) (b : neoc_tx_builder_t)
  : neoc_tx_builder_t :=
  mk_builder _ (tb_version b) (tb_nonce b) (tb_valid_until_block b) signers
    (tb_system_fee b) (tb_network_fee b) (tb_attributes b) (tb_attribute_count b) (tb_script b)
    (tb_script_size b) (tb_is_signed b) (tb_built_transaction b).

Definition same_account (signer : neoc_signer_t) (slot : option neoc_signer_t) : bool :=
  match neoc_signer_get_account slot with
  | Ok existing =>
      memcmp_loop (hash160_data existing) (hash160_data (sg_account signer)) =? 0
  | _ => false
  end.

Definition neoc_tx_builder_add_signer (signer : option neoc_signer_t) : Tb unit :=
  match signer with
  | None => fail NEOC_ERROR_INVALID_ARGUMENT
  | Some sg =>
      let! b := get_builder in
      if TX_BUILDER_MAX_SIGNERS <=? zlen (tb_signers b) then fail NEOC_ERROR_INVALID_SIZE
      else if existsb (same_account sg) (tb_signers b) then fail NEOC_ERROR_INVALID_STATE
      else
        let! copy := lift (neoc_signer_copy signer) in
        put_builder (set_signers (tb_signers b ++ [Some copy]) b)
  end.

Definition neoc_tx_builder_add_signer_from_account (account : option neoc_account_t) (scope : Z)
  : Tb unit :=
  match account with
  | None => fail NEOC_ERROR_INVALID_ARGUMENT
  | Some account =>
      let! signer := lift (neoc_signer_create (Some (acc_script_hash account)) scope) in
      neoc_tx_builder_add_signer (Some signer)
  end.

(** The index of the signer of an account; a NULL slot leaves the hash variable unset, and
    it is compared all the same. *)
Fixpoint find_signer (script_hash : neoc_hash160_t) (signers : list (option neoc_signer_t)) (i : nat)
  : res (option nat) :=
  match signers with
  | [] => Ok None
  | slot :: signers =>
      match neoc_signer_get_account slot with
      | Ok signer_hash =>
          if neoc_hash160_equal (Some signer_hash) (Some script_hash)
          then Ok (Some i) else find_signer script_hash signers (S i)
      | _ => Fault
      end
  end.

Definition neoc_tx_builder_set_first_signer (account : option neoc_account_t) : Tb unit :=
  match account with
  | None => fail NEOC_ERROR_INVALID_ARGUMENT
  | Some account =>
      let! b := get_builder in
      let! found := lift (find_signer (acc_script_hash account) (tb_signers b) 0) in
      match found with
      | None => fail NEOC_ERROR_NOT_FOUND
      | Some i =>
          match tb_signers b !! i with
          | None => fault
          | Some temp => put_builder (set_signers (temp :: base.delete i (tb_signers b)) b)
          end
      end
  end.

(** ** Attributes *)

Definition set_attributes (attributes : list attribute_slot) (count : Z) (b : neoc_tx_builder_t)
  : neoc_tx_builder_t :=
  mk_builder _ (tb_version b) (tb_nonce b) (tb_valid_until_block b) (tb_signers b)
    (tb_system_fee b) (tb_network_fee b) attributes count (tb_script b)
    (tb_script_size b) (tb_is_signed b) (tb_built_transaction b).

(** A new block with the given bytes. *)
Definition new_block (data : list byte) : Tb positive := fun s =>
  let l := fresh (dom (ts_blocks s)) in
  (Ok l, mk_tb_state _ (ts_builder s) (<[l := data]> (ts_blocks s)) (ts_transactions s)).

(** [neoc_free] of a block. *)
Definition free_block (l : positive) : Tb unit := fun s =>
  match ts_blocks s !! l with
  | Some _ => (Ok tt, mk_tb_state _ (ts_builder s) (delete l (ts_blocks s)) (ts_transactions s))
  | None => (Fault, s)
  end.

(** The next slot gets the type, and data only if there is any: without data the pointer and
    the length in the slot stay what they were. *)
Definition neoc_tx_builder_add_attribute (attribute : option neoc_tx_attribute_t) : Tb unit :=
  match attribute with
  | None => fail NEOC_ERROR_INVALID_ARGUMENT
  | Some attribute =>
      let! b := get_builder in
      if TX_BUILDER_MAX_ATTRIBUTES <=? tb_attribute_count b then fail NEOC_ERROR_INVALID_SIZE
      else
        let i := Z.to_nat (tb_attribute_count b) in
        match tb_attributes b !! i with
        | None => fault
        | Some slot =>
            let typed := mk_slot (attr_type attribute) (slot_data slot) (slot_data_len slot) in
            match attr_data attribute with
            | Some data =>
                if 0 <? attr_data_len attribute then
                  if negb (neoc_malloc_ok (attr_data_len attribute)) then
                    do! put_builder
                          (set_attributes
                             (<[i := mk_slot (attr_type attribute) None (slot_data_len slot)]>
                                (tb_attributes b)) (tb_attribute_count b) b) in
                    fail NEOC_ERROR_MEMORY
                  else
                    let! copy := lift (memcpy_from data (attr_data_len attribute)) in
                    let! l := new_block copy in
                    put_builder
                      (set_attributes
                         (<[i := mk_slot (attr_type attribute) (Some l) (attr_data_len attribute)]>
                            (tb_attributes b)) (tb_attribute_count b + 1) b)
                else
                  put_builder (set_attributes (<[i := typed]> (tb_attributes b))
                                 (tb_attribute_count b + 1) b)
            | None =>
                put_builder (set_attributes (<[i := typed]> (tb_attributes b))
                               (tb_attribute_count b + 1) b)
            end
        end
  end.

(** [attributes[j] = attributes[j + 1]] for [j] from [i] to [count - 2]: the last slot in use
    keeps its contents. *)
Definition shift_down (i count : nat) (slots : list attribute_slot) : list attribute_slot :=
  take i slots ++ take (count - 1 - i) (drop (S i) slots) ++ drop (count - 1) slots.

Fixpoint find_high_priority (slots : list attribute_slot) (i : nat) : option nat :=
  match slots with
  | [] => None
  | slot :: slots =>
      if slot_type slot =? NEOC_TX_ATTR_HIGH_PRIORITY then Some i
      else find_high_priority slots (S i)
  end.

Definition neoc_tx_builder_set_high_priority (high_priority : bool) : Tb unit :=
  let! b := get_builder in
  let count := Z.to_nat (tb_attribute_count b) in
  do! match find_high_priority (take count (tb_attributes b)) 0 with
      | None => ret tt
      | Some i =>
          match tb_attributes b !! i with
          | None => fault
          | Some slot =>
              do! match slot_data slot with Some l => free_block l | None => ret tt end in
              put_builder (set_attributes (shift_down i count (tb_attributes b))
                             (tb_attribute_count b - 1) b)
          end
      end in
  if high_priority
  then neoc_tx_builder_add_attribute (Some (mk_attribute NEOC_TX_ATTR_HIGH_PRIORITY None 0))
  else ret tt.

(** ** Building *)

(** Operations on the transaction at [l]. *)
Definition on_transaction {A} (l : positive) (m : M neoc_transaction_t A) : Tb A := fun s =>
  match ts_transactions s !! l with
  | None => (Fault, s)
  | Some t =>
      let '(r, t) := m t in
      (r, mk_tb_state _ (ts_builder s) (ts_blocks s) (<[l := t]> (ts_transactions s)))
  end.

Definition new_transaction (now : Z) : Tb positive := fun s =>
  match neoc_transaction_create now with
  | Err e => (Err e, s)
  | Fault => (Fault, s)
  | Ok t =>
      let l := fresh (dom (ts_transactions s)) in
      (Ok l, mk_tb_state _ (ts_builder s) (ts_blocks s) (<[l := t]> (ts_transactions s)))
  end.

(** The signers and attributes of the transaction go with it. *)
Definition neoc_transaction_free (l : positive) : Tb unit := fun s =>
  match ts_transactions s !! l with
  | None => (Fault, s)
  | Some _ =>
      (Ok tt, mk_tb_state _ (ts_builder s) (ts_blocks s) (delete l (ts_transactions s)))
  end.

(** A setter whose result the code does not look at. *)
Definition ignore {S A} (m : M S A) : M S unit := fun s =>
  match m s with
  | (Fault, s) => (Fault, s)
  | (_, s) => (Ok tt, s)
  end.

(** The signers move over one by one; a failure frees the transaction with those that have
    moved, whose slots are NULL then. *)
Fixpoint move_signers (l : positive) (todo : list (option neoc_signer_t)) (moved : nat) : Tb unit :=
  match todo with
  | [] => ret tt
  | slot :: todo => fun s =>
      match on_transaction l (neoc_transaction_add_signer slot) s with
      | (Ok _, s) =>
          (let! b := get_builder in
           do! put_builder (set_signers (<[moved := None]> (tb_signers b)) b) in
           move_signers l todo (S moved)) s
      | (Err e, s) => (do! neoc_transaction_free l in fail e) s
      | (Fault, s) => (Fault, s)
      end
  end.

Definition set_built (l : option positive) (b : neoc_tx_builder_t) : neoc_tx_builder_t :=
  mk_builder _ (tb_version b) (tb_nonce b) (tb_valid_until_block b) (tb_signers b)
    (tb_system_fee b) (tb_network_fee b) (tb_attributes b) (tb_attribute_count b) (tb_script b)
    (tb_script_size b) (tb_is_signed b) l.

(** The fields, the script and the signers go into a new transaction; the attributes do not. *)
Definition neoc_tx_builder_build_unsigned (now : Z) : Tb positive :=
  let! b := get_builder in
  match tb_script b with
  | None => fail NEOC_ERROR_INVALID_STATE
  | Some script =>
      if tb_script_size b =? 0 then fail NEOC_ERROR_INVALID_STATE
      else if tb_valid_until_block b =? 0 then fail NEOC_ERROR_INVALID_STATE
      else if zlen (tb_signers b) =? 0 then fail NEOC_ERROR_INVALID_STATE
      else
        let! l := new_transaction now in
        do! on_transaction l
              (do! neoc_transaction_set_version (tb_version b) in
               do! neoc_transaction_set_nonce (tb_nonce b) in
               do! neoc_transaction_set_valid_until_block (tb_valid_until_block b) in
               do! neoc_transaction_set_system_fee (tb_system_fee b) in
               do! neoc_transaction_set_network_fee (tb_network_fee b) in
               ignore (neoc_transaction_set_script (Some script) (tb_script_size b))) in
        do! move_signers l (tb_signers b) 0 in
        let! b := get_builder in
        do! put_builder (set_built (Some l) (set_signers [] b)) in
        ret l
  end.

(** The size and the bytes of the transaction at [l]. *)
Definition read_transaction {A} (l : positive) (f : neoc_transaction_t -> res A) : Tb A := fun s =>
  match ts_transactions s !! l with
  | None => (Fault, s)
  | Some t => (f t, s)
  end.

(** The network fee and the system fee. *)
Definition neoc_tx_builder_calculate_fees (now : Z) : Tb (Z * Z) :=
  let! b := get_builder in
  let signer_count := zlen (tb_signers b) in
  fun s =>
  match neoc_tx_builder_build_unsigned now s with
  | (Fault, s) => (Fault, s)
  | (Err _, s) =>
      (Ok (if 0 <? tb_network_fee b then tb_network_fee b else 100000,
           if 0 <? tb_system_fee b then tb_system_fee b else 0), s)
  | (Ok temp_tx, s) =>
      (let! serialized_size :=
         read_transaction temp_tx (fun t => neoc_transaction_get_size (Some t)) in
       if negb (neoc_malloc_ok serialized_size) then
         do! neoc_transaction_free temp_tx in fail NEOC_ERROR_MEMORY
       else
         let! network_fee :=
           read_transaction temp_tx (fun t =>
             match neoc_transaction_serialize t serialized_size
                     (replicate (Z.to_nat serialized_size) junk, 0) with
             | (Fault, _) => Fault
             | (Ok _, (_, written)) =>
                 let size := if written <? serialized_size then written else serialized_size in
                 let fee := wrap 64 (wrap 64 (size * 1000) + wrap 64 (signer_count * 1000000)) in
                 Ok (if fee <? 100000 then 100000 else fee)
             | (Err _, _) =>
                 Ok (if 0 <? tb_network_fee b then tb_network_fee b else 100000)
             end) in
         let system_fee :=
           if 0 <? tb_system_fee b then tb_system_fee b
           else wrap 64 (100000 + wrap 64 (tb_script_size b * 10000)) in
         do! neoc_transaction_free temp_tx in
         ret (network_fee, system_fee)) s
  end.

Definition set_signed (b : neoc_tx_builder_t) : neoc_tx_builder_t :=
  mk_builder _ (tb_version b) (tb_nonce b) (tb_valid_until_block b) (tb_signers b)
    (tb_system_fee b) (tb_network_fee b) (tb_attributes b) (tb_attribute_count b) (tb_script b)
    (tb_script_size b) true (tb_built_transaction b).

Definition neoc_tx_builder_sign (accounts : list (Z * neoc_account_t)) : Tb unit :=
  match accounts with
  | [] => fail NEOC_ERROR_INVALID_ARGUMENT
  | _ =>
      let! b := get_builder in
      match tb_built_transaction b with
      | None => fail NEOC_ERROR_INVALID_STATE
      | Some l =>
          do! on_transaction l (sign_loop accounts) in
          let! b := get_builder in put_builder (set_signed b)
      end
  end.

Definition neoc_tx_builder_build_and_sign (now : Z) (accounts : list (Z * neoc_account_t))
  : Tb positive :=
  let! l := neoc_tx_builder_build_unsigned now in fun s =>
  match neoc_tx_builder_sign accounts s with
  | (Ok _, s) => (Ok l, s)
  | (Err e, s) => (do! neoc_transaction_free l in fail e) s
  | (Fault, s) => (Fault, s)
  end.

Definition neoc_tx_builder_get_hash (now : Z) : Tb neoc_hash256_t :=
  let! b := get_builder in
  do! match tb_built_transaction b with
      | Some _ => ret tt
      | None => let! _ := neoc_tx_builder_build_unsigned now in ret tt
      end in
  let! b := get_builder in
  match tb_built_transaction b with
  | None => fail NEOC_ERROR_INVALID_ARGUMENT
  | Some l => on_transaction l neoc_transaction_calculate_hash
  end.

Definition neoc_tx_builder_serialize (buffer : list byte) (buffer_size : Z) : Tb (list byte * Z) :=
  let! b := get_builder in
  match tb_built_transaction b with
  | None => fail NEOC_ERROR_INVALID_STATE
  | Some l =>
      read_transaction l (fun t =>
        match neoc_transaction_serialize t buffer_size (buffer, 0) with
        | (Ok _, out) => Ok out
        | (Err e, _) => Err e
        | (Fault, _) => Fault
        end)
  end.

Fixpoint free_slots (slots : list attribute_slot) : Tb unit :=
  match slots with
  | [] => ret tt
  | slot :: slots =>
      do! match slot_data slot with Some l => free_block l | None => ret tt end in
      free_slots slots
  end.

(** The built transaction belongs to the caller. *)
Definition neoc_tx_builder_free : Tb unit :=
  let! b := get_builder in
  free_slots (take (Z.to_nat (tb_attribute_count b)) (tb_attributes b)).

(** ** The same calls under their second names *)

Definition neoc_transaction_builder_create := neoc_tx_builder_create.
Definition neoc_transaction_builder_set_version := neoc_tx_builder_set_version.
Definition neoc_transaction_builder_set_nonce := neoc_tx_builder_set_nonce.
Definition neoc_transaction_builder_set_valid_until_block := neoc_tx_builder_set_valid_until_block.
Definition neoc_transaction_builder_set_valid_until_block_from_rpc := neoc_tx_builder_set_valid_until_block_from_rpc.
Definition neoc_transaction_builder_set_script := neoc_tx_builder_set_script.
Definition neoc_transaction_builder_add_signer := neoc_tx_builder_add_signer.
Definition neoc_transaction_builder_add_signer_from_account := neoc_tx_builder_add_signer_from_account.
Definition neoc_transaction_builder_set_first_signer := neoc_tx_builder_set_first_signer.
Definition neoc_transaction_builder_add_network_fee := neoc_tx_builder_add_network_fee.
Definition neoc_transaction_builder_add_system_fee := neoc_tx_builder_add_system_fee.
Definition neoc_transaction_builder_sign := neoc_tx_builder_sign.
Definition neoc_transaction_builder_build_and_sign := neoc_tx_builder_build_and_sign.
Definition neoc_transaction_builder_serialize := neoc_tx_builder_serialize.
Definition neoc_transaction_builder_free := neoc_tx_builder_free.
Definition neoc_transaction_builder_build := neoc_tx_builder_build_unsigned.

(** ** Ready-made builders *)

(** The items of an array are pushed from the last to the first. *)
Fixpoint push_json_value (item : json) : Wr unit :=
  match item with
  | JBool v => neoc_script_builder_push_bool v
  | JNull => neoc_script_builder_emit NEOC_OP_PUSHNULL
  | JNumber as_int integral =>
      if integral then neoc_script_builder_push_integer as_int
      else fail NEOC_ERROR_INVALID_FORMAT
  | JString v => neoc_script_builder_push_string (Some v)
  | JArray items =>
      let push_all := fix go items : Wr unit :=
        match items with
        | [] => ret tt
        | x :: items => do! go items in push_json_value x
        end in
      do! push_all items in
      if 0 <? zlen items then
        do! neoc_script_builder_push_integer (zlen items) in
        neoc_script_builder_emit NEOC_OP_PACK
      else neoc_script_builder_emit NEOC_OP_NEWARRAY0
  | JObject => fail NEOC_ERROR_INVALID_FORMAT
  end.

(** A builder in a fresh state. *)
Definition fresh_state (b : neoc_tx_builder_t) : tb_state := mk_tb_state _ b ∅ ∅.

(** Run the steps that fill a new builder; a failure frees it. *)
Definition run_filled (nonce : Z) (script : res (list byte)) (signers : Tb unit) : res tb_state :=
  let? b := neoc_tx_builder_create nonce in
  let? script := script in
  match (do! neoc_tx_builder_set_script (Some script) (zlen script) in signers) (fresh_state b) with
  | (Ok _, s) => Ok s
  | (Err e, _) => Err e
  | (Fault, _) => Fault
  end.

Definition neoc_tx_builder_create_nep17_transfer (nonce : Z) (token_hash : neoc_hash160_t)
    (from_account : neoc_account_t) (to_address : list byte) (amount : Z)
    (data : option (list byte)) (data_size : Z) : res tb_state :=
  let from_hash := acc_script_hash from_account in
  run_filled nonce
    (let? to_hash := neoc_hash160_from_address junk (Some to_address) in
     script_with
       (do! (match data with
             | Some _ =>
                 if 0 <? data_size then neoc_script_builder_push_data data data_size
                 else neoc_script_builder_emit NEOC_OP_PUSHNULL
             | None => neoc_script_builder_emit NEOC_OP_PUSHNULL
             end) in
        do! neoc_script_builder_push_integer (swrap 64 amount) in
        do! neoc_script_builder_push_data (Some (hash160_data to_hash)) 20 in
        do! neoc_script_builder_push_data (Some (hash160_data from_hash)) 20 in
        do! neoc_script_builder_push_integer 4 in
        do! neoc_script_builder_emit NEOC_OP_PACK in
        do! neoc_script_builder_push_string (Some (str "transfer")) in
        do! neoc_script_builder_push_data (Some (hash160_data token_hash)) 20 in
        neoc_script_builder_emit_syscall NEOC_INTEROP_SYSTEM_CONTRACT_CALL))
    (neoc_tx_builder_add_signer_from_account (Some from_account)
       (scope_value NEOC_WITNESS_SCOPE_CALLED_BY_ENTRY)).

Fixpoint add_signers (signers : list (option neoc_signer_t)) : Tb unit :=
  match signers with
  | [] => ret tt
  | signer :: signers => do! neoc_tx_builder_add_signer signer in add_signers signers
  end.

(** [parse] is [cJSON_Parse]. *)
Definition neoc_tx_builder_create_contract_call (parse : list byte -> option json) (nonce : Z)
    (contract_hash : neoc_hash160_t) (method : list byte) (params : option (list byte))
    (signers : list (option neoc_signer_t)) : res tb_state :=
  run_filled nonce
    (script_with
       (do! (match params with
             | Some text =>
                 if 0 <? zlen text then
                   match parse text with
                   | Some (JArray items) => push_json_value (JArray items)
                   | _ => fail NEOC_ERROR_INVALID_FORMAT
                   end
                 else neoc_script_builder_emit NEOC_OP_NEWARRAY0
             | None => neoc_script_builder_emit NEOC_OP_NEWARRAY0
             end) in
        do! neoc_script_builder_push_string (Some method) in
        do! neoc_script_builder_push_data (Some (hash160_data contract_hash)) 20 in
        neoc_script_builder_emit_syscall NEOC_INTEROP_SYSTEM_CONTRACT_CALL))
    (add_signers signers).

End Operations.

(** ** Building a transaction *)

Section Proofs.
Context `{Allocator} `{Interop} `{Crypto} `{Curve} `{!Ecdsa}.
Variable junk : byte.

(** The transaction of a builder with the given signers. *)
Definition built_tx (b : neoc_tx_builder_t) (script : list byte) (signers : list neoc_signer_t)
  : neoc_transaction_t :=
  mk_tx _ (tb_version b) (tb_nonce b) (tb_system_fee b) (tb_network_fee b) (tb_valid_until_block b)
    signers [] (Some script) (zlen script) [] neoc_hash256_init_zero.

Definition ready (b : neoc_tx_builder_t) (script : list byte) (signers : list neoc_signer_t) : Prop :=
  tb_script b = Some script /\ tb_script_size b = zlen script /\ 0 < zlen script /\
  tb_valid_until_block b <> 0 /\ tb_signers b = map Some signers /\ signers <> [] /\
  NoDup (map account_bytes signers).

Lemma set_signers_same b : set_signers (tb_signers b) b = b.
Proof. by destruct b. Qed.

Lemma add_signer_ok t sg :
  account_bytes sg ∉ map account_bytes (tx_signers t) ->
  neoc_malloc_ok (wrap 64 ((zlen (tx_signers t) + 1) * 8)) = true ->
  neoc_transaction_add_signer (Some sg) t
  = (Ok tt, mk_tx _ (tx_version t) (tx_nonce t) (tx_system_fee t) (tx_network_fee t)
              (tx_valid_until_block t) (tx_signers t ++ [sg]) (tx_attributes t) (tx_script t)
              (tx_script_len t) (tx_witnesses t) (tx_hash t)).
Proof.
  intros Hn Hm. unfold neoc_transaction_add_signer. rewrite Hm. cbn [negb].
  destruct (signer_exists sg (tx_signers t)) eqn:E; [|done].
  destruct Hn. by apply signer_exists_spec.
Qed.

(** The signers are handed over one by one. *)
Lemma move_signers_ok l script blocks todo : forall b moved handed txs,
  heap_serves (8 * (zlen handed + zlen todo + 1)) -> zlen handed + zlen todo < 2 ^ 32 ->
  NoDup (map account_bytes (handed ++ todo)) -> tb_signers b = moved ++ map Some todo ->
  txs !! l = Some (built_tx b script handed) ->
  exists signers, move_signers l (map Some todo) (length moved) (mk_tb_state _ b blocks txs)
    = (Ok tt, mk_tb_state _ (set_signers signers b) blocks
                (<[l := built_tx b script (handed ++ todo)]> txs)).
Proof.
  induction todo as [|x todo IH]; intros b moved handed txs Hh Hn Hd Hb Hl.
  - exists (tb_signers b). rewrite set_signers_same, app_nil_r, insert_id by done. done.
  - rewrite zlen_cons in *. pose proof (zlen_nonneg handed). pose proof (zlen_nonneg todo).
    rewrite map_app in Hd. apply NoDup_app in Hd as (Hd1 & Hd2 & Hd3).
    assert (neoc_malloc_ok (wrap 64 ((zlen handed + 1) * 8)) = true) as Hm.
    { unfold neoc_malloc_ok. rewrite wrap_small by (eval_pows; lia). cmps. apply Hh. lia. }
    cbn [map move_signers]. unfold on_transaction. cbn [ts_transactions]. rewrite Hl.
    rewrite add_signer_ok; [|cbn [built_tx tx_signers]|exact Hm].
    2: { intros Hi. apply (Hd2 _ Hi). cbn [map]. by apply elem_of_cons; left. }
    unfold bind, get_builder, put_builder. cbn [ts_builder ts_blocks ts_transactions built_tx
      tx_version tx_nonce tx_system_fee tx_network_fee tx_valid_until_block tx_signers tx_attributes tx_script
      tx_script_len tx_witnesses tx_hash].
    set (b1 := set_signers (<[length moved := None]> (tb_signers b)) b).
    set (txs1 := <[l := _]> txs).
    destruct (IH b1 (moved ++ [None]) (handed ++ [x]) txs1) as (signers & E).
    + rewrite zlen_app. change (zlen [x]) with 1. eapply heap_serves_mono; [exact Hh|lia].
    + rewrite zlen_app. change (zlen [x]) with 1. lia.
    + rewrite <- app_assoc. cbn [app]. rewrite map_app. apply NoDup_app. done.
    + unfold b1. cbn [set_signers tb_signers]. rewrite Hb, <- app_assoc.
      rewrite insert_app_r_alt, Nat.sub_diag by lia. done.
    + unfold txs1. rewrite lookup_insert_eq. done.
    + exists signers. rewrite length_app, Nat.add_1_r in E. rewrite E. unfold txs1.
      rewrite insert_insert_eq, <- app_assoc. done.
Qed.

(** Everything but the attributes goes into the transaction. *)
Lemma build_unsigned_ok now s script signers :
  ready (ts_builder s) script signers -> zlen signers <= 16 -> heap_serves (Z.max 256 (zlen script)) ->
  let l := fresh (dom (ts_transactions s)) in
  neoc_tx_builder_build_unsigned now s
  = (Ok l, mk_tb_state _ (set_built (Some l) (set_signers [] (ts_builder s))) (ts_blocks s)
             (<[l := built_tx (ts_builder s) script signers]> (ts_transactions s))).
Proof.
  intros (Es & Ez & Hz & Hv & Eg & Hne & Hd) Hn Hh l. destruct s as [b blocks txs].
  cbn [ts_builder ts_blocks ts_transactions] in *.
  assert (1 <= zlen signers) as Hs1 by (destruct signers; [done|rewrite zlen_cons; pose proof (zlen_nonneg signers); lia]).
  unfold neoc_tx_builder_build_unsigned. unfold bind at 1, get_builder. cbn [ts_builder]. rewrite Es, Ez, Eg.
  rewrite zlen_map. cmps. unfold bind at 1, new_transaction, neoc_transaction_create, neoc_malloc_ok.
  unfold transaction_struct_size. rewrite Hh by lia. cbn [Z.eqb negb]. cbn [ts_builder ts_blocks ts_transactions].
  fold l. unfold bind at 1, on_transaction at 1. cbn [ts_transactions ts_builder ts_blocks].
  rewrite lookup_insert_eq.
  assert (forall now, (do! neoc_transaction_set_version (tb_version b) in
               do! neoc_transaction_set_nonce (tb_nonce b) in
               do! neoc_transaction_set_valid_until_block (tb_valid_until_block b) in
               do! neoc_transaction_set_system_fee (tb_system_fee b) in
               do! neoc_transaction_set_network_fee (tb_network_fee b) in
               ignore (neoc_transaction_set_script (Some script) (zlen script)))
               (mk_tx _ 0 now 0 0 0 [] [] None 0 [] neoc_hash256_init_zero)
               = (Ok tt, built_tx b script [])) as ->.
  { intros n. unfold bind, ignore. cbn. unfold neoc_transaction_set_script, neoc_malloc_ok. cmps.
    rewrite Hh by lia. cbn [negb]. by rewrite buf_slice_all. }
  cbv beta iota. rewrite insert_insert_eq.
  destruct (move_signers_ok l script blocks signers b [] [] (<[l := built_tx b script []]> txs)) as (sg & E).
  - change (zlen []) with 0. eapply heap_serves_mono; [exact Hh|lia].
  - change (zlen []) with 0. lia.
  - done.
  - done.
  - by rewrite lookup_insert_eq.
  - cbn [length app] in E. unfold bind. rewrite E. cbn [ts_builder]. unfold put_builder, ret. cbn.
    by rewrite insert_insert_eq.
Qed.

(** ** Sessions *)

(** The calls that fill a builder. *)
Inductive builder_op : Type :=
| TbVersion (version : Z)
| TbNonce (nonce : Z)
| TbValidUntil (block_height : Z)
| TbValidUntilRpc (height : res Z) (increment : Z)
| TbScript (script : option (list byte)) (size : Z)
| TbSigner (signer : option neoc_signer_t)
| TbSignerAccount (account : option neoc_account_t) (scope : Z)
| TbFirstSigner (account : option neoc_account_t)
| TbAttribute (attribute : option neoc_tx_attribute_t)
| TbHighPriority (high_priority : bool)
| TbNetworkFee (fee : Z)
| TbSystemFee (fee : Z).

Definition exec_builder_op (op : builder_op) : M tb_state unit :=
  match op with
  | TbVersion v => neoc_tx_builder_set_version v
  | TbNonce n => neoc_tx_builder_set_nonce n
  | TbValidUntil h => neoc_tx_builder_set_valid_until_block h
  | TbValidUntilRpc h i => neoc_tx_builder_set_valid_until_block_from_rpc h i
  | TbScript sc n => neoc_tx_builder_set_script sc n
  | TbSigner sg => neoc_tx_builder_add_signer sg
  | TbSignerAccount a sc => neoc_tx_builder_add_signer_from_account a sc
  | TbFirstSigner a => neoc_tx_builder_set_first_signer a
  | TbAttribute a => neoc_tx_builder_add_attribute a
  | TbHighPriority h => neoc_tx_builder_set_high_priority h
  | TbNetworkFee f => neoc_tx_builder_add_network_fee f
  | TbSystemFee f => neoc_tx_builder_add_system_fee f
  end.

(** The state after a session; a client goes on after an error.  There is none when a call is
    undefined. *)
Fixpoint builder_after (ops : list builder_op) (s : tb_state) : option tb_state :=
  match ops with
  | [] => Some s
  | op :: ops =>
      match exec_builder_op op s with (Fault, _) => None | (_, s) => builder_after ops s end
  end.
















(** *** Sessions that are defined *)















(** ** Claims *)


(** ** Fees *)

(** A builder that holds the content of a view. *)
Record holds_view (v : tx_view) (b : neoc_tx_builder_t) : Prop := {
  hv_version : tb_version b = tv_version v;
  hv_nonce : tb_nonce b = tv_nonce v;
  hv_system_fee : tb_system_fee b = tv_system_fee v;
  hv_network_fee : tb_network_fee b = tv_network_fee v;
  hv_valid_until : tb_valid_until_block b = tv_valid_until_block v;
  hv_ready : ready b (tv_script v) (map signer_of (tv_signers v))
}.

Lemma holds_built v b :
  holds_view v b -> tv_attributes v = [] ->
  built_tx b (tv_script v) (map signer_of (tv_signers v)) = tx_of v [] neoc_hash256_init_zero.
Proof.
  intros [E1 E2 E3 E4 E5 (_ & _ & Hz & _)] Ha. unfold built_tx, tx_of. rewrite Ha, E1, E2, E3, E4, E5.
  destruct (tv_script v) as [|x script]; [done|]. done.
Qed.

(** The network fee of a transaction of [size] bytes with [n] signers. *)
Definition size_fee (size n : Z) : Z := Z.max 100000 (1000 * size + 1000000 * n).

(** The network fee that is reported: the serialised size is known only without rules. *)
Definition reported_network_fee (v : tx_view) : Z :=
  if zlen (rules_bytes v) =? 0
  then size_fee (zlen (full_bytes v [])) (zlen (tv_signers v))
  else if 0 <? tv_network_fee v then tv_network_fee v else 100000.

Definition reported_system_fee (v : tx_view) : Z :=
  if 0 <? tv_system_fee v then tv_system_fee v else 100000 + 10000 * zlen (tv_script v).

(** The result of serialising into a buffer of the reported size. *)
Lemma fee_of_serialized v h k : curve_works ->
  tx_ok v -> zlen (full_bytes v []) <= 2 ^ 48 ->
  heap_serves (Z.max 1024 (2 * zlen (full_bytes v []))) ->
  zlen (tv_signers v) <= 16 ->
  let n := zlen (full_bytes v []) - zlen (rules_bytes v) in
  0 <= n ->
  match neoc_transaction_serialize (tx_of v [] h) n (replicate (Z.to_nat n) junk, 0) with
  | (Fault, _) => Fault
  | (Ok _, (_, written)) =>
      let size := if written <? n then written else n in
      let fee := wrap 64 (wrap 64 (size * 1000) + wrap 64 (zlen (tv_signers v) * 1000000)) in
      Ok (if fee <? 100000 then 100000 else fee)
  | (Err _, _) => Ok k
  end = Ok (if zlen (rules_bytes v) =? 0
            then size_fee (zlen (full_bytes v [])) (zlen (tv_signers v)) else k).
Proof.
  intros Hc Hv Hs Hh Hn n H0'.
  assert (zlen (full_bytes v []) <= stream_max) by (unfold stream_max; lia). unfold neoc_transaction_serialize. rewrite build_full_ok by done.
  pose proof (zlen_nonneg (rules_bytes v)). pose proof (zlen_nonneg (tv_signers v)).
  destruct (zlen (rules_bytes v) =? 0) eqn:E; bdestruct.
  - replace n with (zlen (full_bytes v [])) in * by lia. rewrite Z.ltb_irrefl.
    destruct (buf_copy _ _ _) as [buffer|] eqn:Eb.
    + rewrite Z.ltb_irrefl. f_equal. unfold size_fee.
      rewrite (wrap_small 64 (_ * 1000)), (wrap_small 64 (_ * 1000000)), wrap_small by (eval_pows; lia).
      destruct (_ <? 100000) eqn:El; bdestruct; lia.
    + exfalso. revert Eb. unfold buf_copy. rewrite zlen_replicate, Z2Nat.id by lia. cmps. done.
  - cmps. done.
Qed.

(** C25.  Asking for the fees asks no node and takes the builder apart.  The network fee is
    1000 per byte of the unsigned transaction and 1000000 per signer, at least 100000, but when
    a signer has witness rules, which the size does not count, it is the fee set before or
    100000; the system fee is the one set, or 100000 and 10000 per byte of the script: neither
    is the fee that the comments announce, from the RPC client, a base fee and the gas that is
    consumed.  The view [v] is the content of the transaction, which has no attributes whatever
    the builder holds.  The builder has handed its signers to a transaction that has been
    freed: building reports that there are none, and signing uses the freed transaction. *)
Theorem calculate_fees_consumes (now later : Z) (v : tx_view) (s : tb_state)
    (accounts : list (Z * neoc_account_t)) :
  curve_works -> tx_ok v -> Forall short_parts (tv_signers v) -> tv_attributes v = [] ->
  holds_view v (ts_builder s) -> zlen (tv_signers v) <= 16 ->
  zlen (full_bytes v []) <= 2 ^ 48 ->
  heap_serves (Z.max 1024 (2 * zlen (full_bytes v []))) -> accounts <> [] ->
  exists s',
    neoc_tx_builder_calculate_fees junk now s
      = (Ok (reported_network_fee v, reported_system_fee v), s') /\
    tb_signers (ts_builder s') = [] /\
    neoc_tx_builder_build_unsigned later s' = (Err NEOC_ERROR_INVALID_STATE, s') /\
    neoc_tx_builder_sign accounts s' = (Fault, s').
Proof.
  intros Hc Hv Hp Ha Hb Hn Hs Hh Hacc.
  assert (zlen (tv_script v) <= zlen (full_bytes v [])) as Hsc.
  { unfold full_bytes, unsigned_bytes, var_bytes. rewrite !zlen_app.
    pose proof (zlen_nonneg (header_bytes v)). pose proof (zlen_nonneg (witnesses_bytes [])).
    pose proof (zlen_nonneg (var_int_bytes (zlen (tv_script v)))). lia. }
  pose proof (hv_ready _ _ Hb) as (Es & Ez & Hz & Hu & Eg & _).
  assert (zlen (full_bytes v []) <= stream_max) as Hmax by (unfold stream_max; lia).
  pose proof (get_size_ok Hc v [] neoc_hash256_init_zero Hv Hp Hmax) as Hsize.
  pose proof (rules_fit_full v [] Hv) as Hrb. pose proof (zlen_nonneg (rules_bytes v)).
  unfold neoc_tx_builder_calculate_fees, bind at 1, get_builder. cbv beta iota.
  pose proof (build_unsigned_ok now s (tv_script v) _ (hv_ready _ _ Hb)) as E. cbv zeta in E.
  rewrite E; [|by rewrite zlen_map|eapply heap_serves_mono; [done|lia]].
  set (l := fresh (dom (ts_transactions s))). rewrite (holds_built v) by done.
  unfold bind, read_transaction, neoc_transaction_free. cbn [ts_transactions ts_builder ts_blocks].
  rewrite lookup_insert_eq. rewrite Hsize.
  assert (neoc_malloc_ok (zlen (full_bytes v []) - zlen (rules_bytes v)) = true) as ->
    by (unfold neoc_malloc_ok; cmps; apply Hh; lia). cbn [negb ts_transactions].
  rewrite lookup_insert_eq.
  pose proof (fee_of_serialized v neoc_hash256_init_zero
    (if 0 <? tb_network_fee (ts_builder s) then tb_network_fee (ts_builder s) else 100000)
    Hc Hv Hs Hh Hn ltac:(lia)) as Ef. cbv zeta in Ef.
  rewrite Eg, !zlen_map. rewrite Ef. cbn [ts_transactions ts_builder ts_blocks].
  rewrite lookup_insert_eq. eexists. split; [|split; [|split]].
  - unfold ret, reported_network_fee, reported_system_fee. rewrite (hv_system_fee _ _ Hb), (hv_network_fee _ _ Hb), Ez.
    rewrite (wrap_small 64 (_ * 10000)), wrap_small by (eval_pows; lia).
    rewrite (Z.mul_comm (zlen (tv_script v))). reflexivity.
  - done.
  - unfold neoc_tx_builder_build_unsigned, bind, get_builder. cbn. rewrite Es, Ez. cmps. done.
  - destruct accounts as [|x accounts]; [done|]. unfold neoc_tx_builder_sign, bind, get_builder, on_transaction.
    cbn [set_built ts_builder ts_transactions tb_built_transaction]. by rewrite delete_insert_eq, lookup_delete_eq.
Qed.

(** ** Signing *)

(** An account with the private key of a point. *)
Definition holds_key (a : Z * neoc_account_t) (point : EC_POINT) : Prop :=
  exists label address hash key,
    snd a = key_account label address hash key point /\ key_point key point.

(** The scripts of a signature, in the form of the first Neo protocol. *)
Definition legacy_witness (sg : list byte) (point : EC_POINT) : list byte * list byte :=
  (Byte.x40 :: sg, Byte.x21 :: EC_POINT_point2oct true point ++ [Byte.xac]).

Definition signature_of (digest sg : list byte) (point : EC_POINT) : Prop :=
  exists r s, sg = component r ++ component s /\ ECDSA_do_verify digest (r, s) point = true.

Lemma transaction_sign_ok a point v ws h :
  curve_works -> crypto_works -> ecdsa_works -> tx_ok v -> holds_key a point ->
  zlen (unsigned_bytes v) <= stream_max -> zlen ws < 2 ^ 32 ->
  heap_serves (Z.max (8 * (zlen ws + 1)) (Z.max 1024 (2 * zlen (unsigned_bytes v)))) ->
  exists d sg, SHA256 (unsigned_bytes v) = Some d /\ signature_of d sg point /\
    neoc_transaction_sign (fst a) (snd a) (tx_of v ws h)
    = (Ok tt, tx_of v (ws ++ [legacy_witness sg point]) (mk_hash256 d)).
Proof.
  intros Hc Hw He Hv (label & address & hash & key & -> & Hk) Hs Hn Hh. pose proof (zlen_nonneg ws).
  destruct (calculate_hash_ok Hc Hw v ws h Hv Hs) as (d & Ed & Hd & E).
  { eapply heap_serves_mono; [exact Hh|lia]. }
  assert (heap_serves 1024) as Hheap by (eapply heap_serves_mono; [exact Hh|lia]).
  destruct (account_sign_ok Hheap (fst a) label address hash key point d He Hk Hd) as (r & s & V & _ & _ & Ea).
  exists d, (component r ++ component s). split_and!; [done|by exists r, s|].
  pose proof (works_compressed_size Hc point) as Hpk.
  unfold neoc_transaction_sign, bind. rewrite E. cbn [hash256_data]. rewrite Ea. cbn [lift key_account acc_key_pair].
  rewrite (get_public_ok Hc) by lia. cbn [lift].
  assert (zlen (component r ++ component s) = 64) as H64 by (rewrite zlen_app, !zlen_component; done).
  rewrite Hpk, witness_from_signature_ok; [|done|lia|apply (heap_serves_mono _ _ Hheap); lia].
  cbn [lift]. unfold neoc_transaction_add_witness, tx_of. cbn [tx_witnesses]. rewrite zlen_map.
  assert (neoc_malloc_ok (wrap 64 ((zlen ws + 1) * 8)) = true) as ->.
  { unfold neoc_malloc_ok. rewrite wrap_small by (eval_pows; lia). cmps. apply Hh. lia. }
  cbn [negb]. by rewrite map_app.
Qed.

Lemma sign_loop_ok v accounts points : 
  curve_works -> crypto_works -> ecdsa_works -> tx_ok v -> Forall2 holds_key accounts points ->
  zlen (unsigned_bytes v) <= stream_max -> forall ws h, zlen ws + zlen accounts < 2 ^ 32 ->
  heap_serves (Z.max (8 * (zlen ws + zlen accounts)) (Z.max 1024 (2 * zlen (unsigned_bytes v)))) ->
  exists d sgs h', SHA256 (unsigned_bytes v) = Some d /\ Forall2 (signature_of d) sgs points /\
    sign_loop accounts (tx_of v ws h) = (Ok tt, tx_of v (ws ++ zip_with legacy_witness sgs points) h').
Proof.
  intros Hc Hw He Hv Ha Hs. induction Ha as [|a point accounts points Hk Ha IH]; intros ws h Hn Hh.
  - destruct (works_sha256 Hw (unsigned_bytes v)) as (d & Ed & _). exists d, [], h.
    split_and!; [done|constructor|]. cbn. by rewrite app_nil_r.
  - rewrite zlen_cons in *. pose proof (zlen_nonneg accounts).
    destruct (transaction_sign_ok a point v ws h Hc Hw He Hv Hk Hs ltac:(lia)) as (d & sg & Ed & Hsg & E).
    { eapply heap_serves_mono; [exact Hh|lia]. }
    destruct (IH (ws ++ [legacy_witness sg point]) (mk_hash256 d)) as (d' & sgs & h' & Ed' & Hsgs & E').
    { rewrite zlen_app. change (zlen [_]) with 1. lia. }
    { rewrite zlen_app. change (zlen [_]) with 1. eapply heap_serves_mono; [exact Hh|lia]. }
    rewrite Ed in Ed'. injection Ed' as <-. exists d, (sg :: sgs), h'.
    split_and!; [done|by constructor|]. destruct a as [draw account]. cbn [sign_loop fst snd] in *.
    unfold bind. rewrite E. rewrite E', <- app_assoc. done.
Qed.

(** C24.  Signing a transaction with several accounts appends a witness for each, in the
    order of the accounts, whose signature verifies for the account's key and the SHA-256 of
    the unsigned encoding, without the number of the network; the verification script is PUSH 33 key
    0xAC of the first Neo protocol and so never the script that the account's hash is of. *)
Theorem transaction_sign_multi_signs (v : tx_view) (ws : list (list byte * list byte))
    (h : neoc_hash256_t) (accounts : list (Z * neoc_account_t)) (points : list EC_POINT) :
  curve_works -> crypto_works -> ecdsa_works -> tx_ok v -> Forall2 holds_key accounts points ->
  accounts <> [] -> zlen (unsigned_bytes v) <= stream_max -> zlen ws + zlen accounts < 2 ^ 32 ->
  heap_serves (Z.max (8 * (zlen ws + zlen accounts)) (Z.max 1024 (2 * zlen (unsigned_bytes v)))) ->
  exists d sgs h',
    SHA256 (unsigned_bytes v) = Some d /\ Forall2 (signature_of d) sgs points /\
    neoc_transaction_sign_multi accounts (tx_of v ws h)
      = (Ok tt, tx_of v (ws ++ zip_with legacy_witness sgs points) h') /\
    Forall2 (fun sg point => snd (legacy_witness sg point)
                             <> single_sig_bytes (EC_POINT_point2oct true point)) sgs points.
Proof.
  intros Hc Hw He Hv Ha Hne Hs Hn Hh.
  destruct (sign_loop_ok v accounts points Hc Hw He Hv Ha Hs ws h Hn Hh) as (d & sgs & h' & Ed & Hsg & E).
  exists d, sgs, h'. split_and!; [done|done| |].
  - by destruct accounts.
  - eapply Forall2_impl; [exact Hsg|]. intros sg point _ Heq. by discriminate Heq.
Qed.

(** ** Attributes *)

(** Marking a transaction as of high priority again, after an attribute with data was
    added, gives the mark the data of that attribute, so that freeing the builder frees the
    data twice.  All the calls before succeed. *)
Theorem high_priority_shares_data (nonce type : Z) (data : list byte) (b : neoc_tx_builder_t) :
  neoc_tx_builder_create nonce = Ok b -> data <> [] -> heap_serves (zlen data) ->
  exists s l,
    (do! neoc_tx_builder_set_high_priority true in
     do! neoc_tx_builder_add_attribute (Some (mk_attribute type (Some data) (zlen data))) in
     neoc_tx_builder_set_high_priority true) (fresh_state b) = (Ok tt, s) /\
    take 2 (tb_attributes (ts_builder s))
      = [mk_slot type (Some l) (zlen data); mk_slot NEOC_TX_ATTR_HIGH_PRIORITY (Some l) (zlen data)] /\
    tb_attribute_count (ts_builder s) = 2 /\ fst (neoc_tx_builder_free s) = Fault.
Proof.
  intros Eb Hd Hh. unfold neoc_tx_builder_create in Eb. destruct (negb _); [done|]. injection Eb as <-.
  assert (0 < zlen data) as Hz by (destruct data; [done|rewrite zlen_cons; pose proof (zlen_nonneg data); lia]).
  set (l := fresh (dom (∅ : gmap positive (list byte)))).
  set (b0 := mk_builder _ 0 nonce TX_DEFAULT_VALID_UNTIL_BLOCK [] 0 TX_DEFAULT_NETWORK_FEE
             (replicate 16 (mk_slot 0 None 0)) 0 None 0 false None).
  set (state slots count blocks := mk_tb_state _ (set_attributes slots count b0) blocks ∅).
  set (empty := mk_slot 0 None 0). set (mark := mk_slot NEOC_TX_ATTR_HIGH_PRIORITY None 0).
  set (held := mk_slot type (Some l) (zlen data)).
  exists (state (held :: mk_slot NEOC_TX_ATTR_HIGH_PRIORITY (Some l) (zlen data) :: replicate 14 empty)
            2 {[ l := data ]}), l.
  assert (neoc_tx_builder_set_high_priority true (fresh_state b0)
          = (Ok tt, state (mark :: replicate 15 empty) 1 ∅)) as E1 by reflexivity.
  assert (neoc_tx_builder_add_attribute (Some (mk_attribute type (Some data) (zlen data)))
            (state (mark :: replicate 15 empty) 1 ∅)
          = (Ok tt, state (mark :: held :: replicate 14 empty) 2 {[ l := data ]})) as E2.
  { unfold neoc_tx_builder_add_attribute, bind, get_builder. cbn [attr_data attr_data_len attr_type].
    assert (neoc_malloc_ok (zlen data) = true) as -> by (unfold neoc_malloc_ok; cmps; apply Hh; lia).
    cmps. rewrite memcpy_from_all by done. reflexivity. }
  split_and!; [|done|done|].
  - change (fresh_state _) with (fresh_state b0). unfold bind. rewrite E1, E2. reflexivity.
  - assert (forall s, ts_blocks s = {[ l := data ]} ->
      free_block l s = (Ok tt, mk_tb_state _ (ts_builder s) ∅ (ts_transactions s))) as F1.
    { intros s Es. unfold free_block. by rewrite Es, lookup_singleton_eq, delete_singleton_eq. }
    unfold neoc_tx_builder_free, bind at 1, get_builder.
    change (take _ _) with [held; mk_slot NEOC_TX_ATTR_HIGH_PRIORITY (Some l) (zlen data)].
    cbn [free_slots held slot_data]. unfold bind. rewrite F1 by done.
    unfold free_block. cbn [ts_blocks]. by rewrite lookup_empty.
Qed.

(** ** Scripts of ready-made builders *)

(** Values a script can hold: whole numbers of 64 bits, and no objects. *)
Fixpoint json_ok (j : json) : bool :=
  match j with
  | JBool _ | JNull => true
  | JNumber as_int integral => int64 as_int && integral
  | JString v => zlen v <? 2 ^ 32
  | JArray items => (zlen items <? 2 ^ 63) && forallb json_ok items
  | JObject => false
  end.

(** What a value pushes. *)
Fixpoint json_item (j : json) : item :=
  match j with
  | JBool v => Integer (if v then 1 else 0)
  | JNull | JObject => NeoVM.Null
  | JNumber as_int _ => Integer as_int
  | JString v => data_item v
  | JArray items => VArray (map json_item items)
  end.

Fixpoint json_bytes (j : json) : list byte :=
  match j with
  | JBool v => push_integer_bytes (if v then 1 else 0)
  | JNull | JObject => null_bytes
  | JNumber as_int _ => push_integer_bytes as_int
  | JString v => push_data_bytes v
  | JArray items =>
      packed (zlen items) NEOC_OP_PACK NEOC_OP_NEWARRAY0 (concat (rev (map json_bytes items)))
  end.

Lemma json_rect_nested (P : json -> Prop) :
  (forall v, P (JBool v)) -> P JNull -> (forall n b, P (JNumber n b)) -> (forall v, P (JString v)) ->
  (forall items, Forall P items -> P (JArray items)) -> P JObject -> forall j, P j.
Proof.
  intros P1 P2 P3 P4 P5 P6. fix IH 1. intros [v| |n b|v|items|]; [apply P1|apply P2|apply P3|apply P4| |apply P6].
  apply P5. induction items; constructor; auto.
Qed.

Lemma push_bool_writes v :
  writes (neoc_script_builder_push_bool v) (push_integer_bytes (if v then 1 else 0)).
Proof. destruct v; apply emit_writes. Qed.

Lemma json_writes j : json_ok j = true -> writes (push_json_value j) (json_bytes j).
Proof.
  induction j as [v| |n b|v|items IH|] using json_rect_nested; cbn [json_ok]; intros Hj.
  - apply push_bool_writes.
  - apply emit_writes.
  - cbn [push_json_value]. bdestruct. subst. by apply push_integer_writes.
  - apply push_string_writes.
  - bdestruct. cbn [push_json_value json_bytes].
    match goal with Hx : forallb json_ok items = true |- _ => rename Hx into Hall end.
    set (push_all := fix go (items : list json) : Wr unit :=
        match items with [] => ret tt | x :: items => do! go items in push_json_value x end).
    rewrite <- map_rev.
    assert (writes (push_all items) (concat (map json_bytes (rev items)))) as Hp.
    { clear -IH Hall. induction IH as [|x items Hx _ IHi]; [apply writes_ret|].
      cbn [forallb] in Hall. bdestruct. cbn [rev]. rewrite map_app, concat_app. cbn [map concat].
      rewrite app_nil_r. apply writes_bind; auto. }
    unfold packed. destruct items as [|x items].
    + apply (writes_bind _ []); [done|]. apply emit_writes.
    + rewrite zlen_cons in *. pose proof (zlen_nonneg items). cmps.
      apply writes_bind; [done|]. apply writes_bind; [|apply emit_writes].
      apply push_integer_writes. unfold int64. eval_pows. lia.
  - done.
Qed.

Lemma json_pushes j : json_ok j = true -> pushes (json_bytes j) (json_item j).
Proof.
  induction j as [v| |n b|v|items IH|] using json_rect_nested; cbn [json_ok]; intros Hj.
  - destruct v; by apply push_integer_pushes.
  - apply null_pushes.
  - bdestruct. by apply push_integer_pushes.
  - bdestruct. by apply push_data_pushes.
  - bdestruct. cbn [json_bytes json_item].
    match goal with Hx : forallb json_ok items = true |- _ => rename Hx into Hall end.
    assert (zlen items = zlen (map json_item (rev items))) as El
      by (rewrite zlen_map; unfold zlen; by rewrite length_rev).
    rewrite El, <- map_rev. rewrite <- (rev_involutive (map json_item items)), <- map_rev.
    apply packed_array_pushes; [lia|]. apply pushes_all_concat. intros x Hx%in_rev.
    rewrite Forall_forall in IH. apply IH; [by apply list_elem_of_In|].
    rewrite forallb_forall in Hall. by apply Hall.
  - done.
Qed.

Definition call_script (hash method args : list byte) : list byte :=
  args ++ push_data_bytes method ++ push_data_bytes hash ++
  syscall_bytes NEOC_INTEROP_SYSTEM_CONTRACT_CALL.

Lemma call_script_writes m hash method args :
  writes m args -> zlen hash = 20 ->
  writes (do! m in
          do! neoc_script_builder_push_string (Some method) in
          do! neoc_script_builder_push_data (Some hash) 20 in
          neoc_script_builder_emit_syscall NEOC_INTEROP_SYSTEM_CONTRACT_CALL)
    (call_script hash method args).
Proof.
  intros Hm Hh. apply writes_bind; [done|]. apply writes_bind; [apply push_string_writes|].
  apply writes_bind; [by apply push_data_writes_len|apply emit_syscall_writes].
Qed.

(** The call finds the hash, the method and the arguments on the stack. *)
Lemma call_script_runs hash method args v :
  pushes args v -> zlen hash = 20 -> zlen method < 2 ^ 32 ->
  runs (call_script hash method args, [])
    (syscall_bytes NEOC_INTEROP_SYSTEM_CONTRACT_CALL, [ByteString hash; data_item method; v]).
Proof.
  intros Ha Hh Hm. unfold call_script. etransitivity; [apply Ha|].
  etransitivity; [by apply push_data_pushes|]. apply data_pushes_long. rewrite Hh. by vm_compute.
Qed.

Lemma call_script_size hash method args :
  zlen hash = 20 -> zlen args <= zlen (call_script hash method args) <= zlen args + zlen method + 35.
Proof.
  intros Hh. unfold call_script. rewrite !zlen_app. pose proof (push_data_size hash).
  pose proof (push_data_size method). change (zlen (syscall_bytes _)) with 5. pose proof (zlen_nonneg method). lia.
Qed.

(** The state of a builder that has got a script and signers and nothing else. *)
Definition filled_builder (nonce : Z) (script : list byte) (signers : list neoc_signer_t) : neoc_tx_builder_t :=
  mk_builder _ 0 nonce TX_DEFAULT_VALID_UNTIL_BLOCK (map Some signers) 0 TX_DEFAULT_NETWORK_FEE
    (replicate 16 (mk_slot 0 None 0)) 0 (Some script) (zlen script) false None.

Lemma add_signer_view v nonce script signers : curve_works ->
  view_ok v -> heap_serves (Z.max 1024 (8 * zlen (view_bytes v))) -> zlen signers < 16 ->
  Forall (fun sg => hash160_ok (sg_account sg)) signers ->
  account_bytes (signer_of v) ∉ map account_bytes signers ->
  neoc_tx_builder_add_signer (Some (signer_of v)) (fresh_state (filled_builder nonce script signers))
  = (Ok tt, fresh_state (filled_builder nonce script (signers ++ [signer_of v]))).
Proof.
  intros Hc Hv Hh Hn Hok Hd. unfold neoc_tx_builder_add_signer, bind, get_builder.
  cbn [fresh_state ts_builder filled_builder tb_signers]. rewrite zlen_map. unfold TX_BUILDER_MAX_SIGNERS. cmps.
  destruct (existsb _ _) eqn:Ex.
  - destruct Hd. apply existsb_exists in Ex as (slot & Hin & Es). apply in_map_iff in Hin as (sg & <- & Hin).
    cbn [same_account neoc_signer_get_account] in Es. bdestruct.
    apply list_elem_of_In, in_map_iff. exists sg. split; [|done].
    apply memcmp_zero in Es; [done|]. rewrite Forall_forall in Hok. pose proof (Hok sg) as Hsg.
    rewrite list_elem_of_In in Hsg. pose proof (view_account v Hv). unfold hash160_ok in *.
    specialize (Hsg Hin). cbn [signer_of sg_account]. unfold zlen in *; lia.
  - rewrite (signer_copy_same Hc) by done. cbn [lift]. unfold put_builder, set_signers, fresh_state, filled_builder.
    cbn. by rewrite map_app.
Qed.

Lemma add_signers_views vs nonce script n : curve_works -> forall signers,
  Forall (fun v => view_ok v /\ zlen (view_bytes v) <= n) vs -> heap_serves (Z.max 1024 (8 * n)) ->
  zlen signers + zlen vs <= 16 -> NoDup (map account_bytes (signers ++ map signer_of vs)) ->
  Forall (fun sg => hash160_ok (sg_account sg)) signers ->
  add_signers (map (fun v => Some (signer_of v)) vs) (fresh_state (filled_builder nonce script signers))
  = (Ok tt, fresh_state (filled_builder nonce script (signers ++ map signer_of vs))).
Proof.
  intros Hc. induction vs as [|v vs IH]; intros signers Hv Hh Hn Hd Hok.
  - cbn. by rewrite app_nil_r.
  - apply Forall_cons_1 in Hv as [[Hv Hz] Hvs]. rewrite zlen_cons in Hn. pose proof (zlen_nonneg vs).
    cbn [map add_signers]. unfold bind. rewrite add_signer_view; [|done|done| |lia|done|].
    + rewrite IH; [by rewrite <- app_assoc|done|done| |by rewrite <- app_assoc|].
      * rewrite zlen_app. change (zlen [_]) with 1. lia.
      * apply Forall_app. split; [done|]. apply Forall_singleton, Hv.
    + apply (heap_serves_mono _ _ Hh). lia.
    + rewrite map_app in Hd. apply NoDup_app in Hd as (_ & Hd & _). intros Hi. apply (Hd _ Hi).
      cbn [map]. by apply elem_of_cons; left.
Qed.

Lemma filled_ok nonce m script k s :
  writes m script -> 0 < zlen script <= TX_BUILDER_MAX_SCRIPT_SIZE ->
  heap_serves (Z.max 1024 (2 * zlen script)) ->
  k (fresh_state (filled_builder nonce script [])) = (Ok tt, s) ->
  run_filled nonce (script_with m) k = Ok s.
Proof.
  intros Hm Hz Hh Hk. unfold TX_BUILDER_MAX_SCRIPT_SIZE in Hz.
  unfold run_filled, neoc_tx_builder_create, neoc_malloc_ok, tx_builder_struct_size.
  rewrite Hh by lia. cbn [Z.eqb negb rbind]. rewrite (script_with_ok m script Hm); [|unfold stream_max; lia|done].
  cbn [rbind]. unfold bind, neoc_tx_builder_set_script, TX_BUILDER_MAX_SCRIPT_SIZE. cmps.
  unfold bind, get_builder. unfold neoc_malloc_ok. cmps. rewrite Hh by lia. cbn [negb].
  rewrite memcpy_from_all by done. cbn [lift]. unfold put_builder. cbn [fresh_state ts_builder ts_blocks ts_transactions].
  change (mk_tb_state _ _ _ _) with (fresh_state (filled_builder nonce script [])). by rewrite Hk.
Qed.

(** A builder made for a contract call has the signers it was given and a script that
    evaluates the JSON parameters, in their order and to any depth, to an array and comes to
    System.Contract.Call with the contract, the method and that array on the stack, and
    nothing else: the call flags that the service takes as its third argument are missing. *)
Theorem contract_call_builder (parse : list byte -> option json) (nonce n : Z) (text method : list byte)
    (items : list json) (contract : neoc_hash160_t) (views : list signer_view) :
  curve_works -> parse text = Some (JArray items) -> text <> [] -> json_ok (JArray items) = true ->
  hash160_ok contract ->
  zlen (json_bytes (JArray items)) + zlen method + 35 <= TX_BUILDER_MAX_SCRIPT_SIZE ->
  Forall (fun v => view_ok v /\ zlen (view_bytes v) <= n) views -> zlen views <= 16 ->
  NoDup (map account_bytes (map signer_of views)) ->
  heap_serves (Z.max (2 * TX_BUILDER_MAX_SCRIPT_SIZE) (8 * n)) ->
  exists script,
    neoc_tx_builder_create_contract_call parse nonce contract method (Some text)
      (map (fun v => Some (signer_of v)) views)
    = Ok (fresh_state (filled_builder nonce script (map signer_of views))) /\
    runs (script, [])
      (syscall_bytes NEOC_INTEROP_SYSTEM_CONTRACT_CALL,
       [ByteString (hash160_data contract); data_item method; VArray (map json_item items)]).
Proof.
  unfold TX_BUILDER_MAX_SCRIPT_SIZE. intros Hc Ep Ht Hj Hk Hz Hv Hn Hd Hh.
  pose proof (zlen_nonneg (json_bytes (JArray items))).
  exists (call_script (hash160_data contract) method (json_bytes (JArray items))).
  pose proof (call_script_size (hash160_data contract) method (json_bytes (JArray items)) Hk) as Hsz.
  pose proof (push_data_size method) as Hms. pose proof (zlen_nonneg method).
  split; [|apply call_script_runs; [by apply json_pushes|done|eval_pows; lia]].
  unfold neoc_tx_builder_create_contract_call. rewrite Ep.
  assert ((0 <? zlen text) = true) as -> by (destruct text; [done|rewrite zlen_cons; pose proof (zlen_nonneg text); lia]).
  apply (filled_ok _ _ (call_script (hash160_data contract) method (json_bytes (JArray items)))).
  - apply call_script_writes; [by apply json_writes|done].
  - unfold TX_BUILDER_MAX_SCRIPT_SIZE. split; [|lia]. unfold call_script. rewrite !zlen_app.
    pose proof (push_data_size (hash160_data contract)). pose proof (zlen_nonneg (hash160_data contract)).
    change (zlen (syscall_bytes _)) with 5. lia.
  - eapply heap_serves_mono; [exact Hh|lia].
  - rewrite (add_signers_views views nonce _ n Hc []); [done|done| |done|done|constructor].
    eapply heap_serves_mono; [exact Hh|lia].
Qed.

(** The arguments of a transfer: data, amount, recipient and sender, packed. *)
Definition transfer_parts (data : list byte) (amount : Z) (to_hash from : neoc_hash160_t) : list byte :=
  (if 0 <? zlen data then push_data_bytes data else null_bytes) ++ push_integer_bytes amount ++
  push_data_bytes (hash160_data to_hash) ++ push_data_bytes (hash160_data from).

Definition transfer_args (data : list byte) (amount : Z) (to_hash from : neoc_hash160_t) : list byte :=
  packed 4 NEOC_OP_PACK NEOC_OP_NEWARRAY0 (transfer_parts data amount to_hash from).

Lemma transfer_args_pushes data amount to_hash from :
  int64 amount = true -> hash160_ok to_hash -> hash160_ok from -> zlen data <= 1024 ->
  pushes (transfer_args data amount to_hash from)
    (VArray [ByteString (hash160_data from); ByteString (hash160_data to_hash); Integer amount;
             if 0 <? zlen data then ByteString data else NeoVM.Null]).
Proof.
  intros Hi Hto Hfr Hd. unfold transfer_args, transfer_parts.
  assert (forall h, hash160_ok h -> pushes (push_data_bytes (hash160_data h)) (ByteString (hash160_data h))) as Hpush.
  { intros h Hok. apply data_pushes_long. unfold hash160_ok, NEOC_HASH160_SIZE in Hok. rewrite Hok. by vm_compute. }
  apply (packed_array_pushes _ [_; _; _; _]); [done|].
  apply (pushes_all_app _ [_] _ [_; _; _]); [apply pushes_all_one|apply (pushes_all_app _ [_] _ [_; _])].
  - destruct (0 <? zlen data) eqn:E; bdestruct; [apply data_pushes_long; lia|apply null_pushes].
  - by apply pushes_all_one, push_integer_pushes.
  - apply (pushes_all_app _ [_] _ [_]); by apply pushes_all_one, Hpush.
Qed.

Lemma transfer_args_size data amount to_hash from :
  hash160_ok to_hash -> hash160_ok from -> zlen data <= 1024 ->
  zlen (transfer_args data amount to_hash from) <= 1200.
Proof.
  intros Hto Hfr Hd. unfold transfer_args. pose proof (packed_size 4 NEOC_OP_PACK NEOC_OP_NEWARRAY0
    (transfer_parts data amount to_hash from)) as Hp.
  unfold transfer_parts in *. rewrite !zlen_app in Hp. pose proof (push_integer_size amount).
  pose proof (push_data_size (hash160_data to_hash)). pose proof (push_data_size (hash160_data from)).
  pose proof (push_data_size data). unfold hash160_ok, NEOC_HASH160_SIZE in *.
  destruct (0 <? zlen data); [lia|]. change (zlen null_bytes) with 1 in Hp. lia.
Qed.

(** A builder made for a token transfer is signed by the sender for calls from the entry
    script, and its script comes to System.Contract.Call with the token, "transfer" and the
    array of sender, recipient, amount and data on the stack, without call flags; amounts of
    2 ^ 63 and more become negative. *)
Theorem nep17_transfer_builder (nonce amount : Z) (token to_hash : neoc_hash160_t) (to_address : list byte)
    (account : neoc_account_t) (data : list byte) :
  curve_works -> neoc_hash160_from_address junk (Some to_address) = Ok to_hash -> hash160_ok to_hash ->
  hash160_ok token -> hash160_ok (acc_script_hash account) -> zlen data <= 1024 -> heap_serves 4096 ->
  exists script,
    neoc_tx_builder_create_nep17_transfer junk nonce token account to_address amount
      (Some data) (zlen data)
    = Ok (fresh_state (filled_builder nonce script
            [signer_of (mk_view _ (acc_script_hash account) 1 [] [] [])])) /\
    runs (script, [])
      (syscall_bytes NEOC_INTEROP_SYSTEM_CONTRACT_CALL,
       [ByteString (hash160_data token); ByteString (str "transfer");
        VArray [ByteString (hash160_data (acc_script_hash account)); ByteString (hash160_data to_hash);
                Integer (swrap 64 amount);
                if 0 <? zlen data then ByteString data else NeoVM.Null]]).
Proof.
  intros Hc Ea Hto Htk Hfr Hdl Hh. pose proof (zlen_nonneg data).
  set (from := acc_script_hash account) in *.
  assert (int64 (swrap 64 amount) = true) as Hi
    by (unfold int64; pose proof (swrap_range 64 amount ltac:(lia)); eval_pows; lia).
  pose proof (transfer_args_size data (swrap 64 amount) to_hash from Hto Hfr Hdl) as Hargs.
  set (args := transfer_args data (swrap 64 amount) to_hash from) in *.
  pose proof (call_script_size (hash160_data token) (str "transfer") args Htk) as Hsz.
  change (zlen (str "transfer")) with 8 in Hsz.
  exists (call_script (hash160_data token) (str "transfer") args).
  split; [|apply call_script_runs; [by apply transfer_args_pushes|done|by vm_compute]].
  unfold neoc_tx_builder_create_nep17_transfer. rewrite Ea. cbn [rbind]. fold from.
  apply (filled_ok _ _ (call_script (hash160_data token) (str "transfer") args)).
  - assert (call_script (hash160_data token) (str "transfer") args
            = (if 0 <? zlen data then push_data_bytes data else null_bytes) ++
              push_integer_bytes (swrap 64 amount) ++ push_data_bytes (hash160_data to_hash) ++
              push_data_bytes (hash160_data from) ++ push_integer_bytes 4 ++ [byte_of_Z NEOC_OP_PACK] ++
              push_data_bytes (str "transfer") ++ push_data_bytes (hash160_data token) ++
              syscall_bytes NEOC_INTEROP_SYSTEM_CONTRACT_CALL) as ->
      by (unfold call_script, args, transfer_args, transfer_parts, packed; cbn [Z.eqb]; rewrite <- !app_assoc; done).
    apply writes_bind.
    { destruct (0 <? zlen data); [apply push_data_writes|apply emit_writes]. }
    do 7 (apply writes_bind;
      [by (apply push_integer_writes || apply push_data_writes_len || apply emit_writes
           || apply push_string_writes)|]).
    apply emit_syscall_writes.
  - unfold TX_BUILDER_MAX_SCRIPT_SIZE. split; [|lia]. unfold call_script. rewrite !zlen_app.
    change (zlen (syscall_bytes _)) with 5. note_zlen. lia.
  - eapply heap_serves_mono; [exact Hh|lia].
  - unfold neoc_tx_builder_add_signer_from_account, bind, neoc_signer_create, signer_struct_size.
    rewrite Hh by lia. cbn [negb lift].
    apply (add_signer_view (mk_view _ from 1 [] [] []) nonce _ []);
      [done|by split| |done|constructor|by apply not_elem_of_nil].
    eapply heap_serves_mono; [exact Hh|]. unfold view_bytes. cbn [v_account v_scopes v_contracts v_groups v_rules].
    rewrite !zlen_app. unfold hash160_ok, NEOC_HASH160_SIZE in *. rewrite Hfr. vm_compute. discriminate.
Qed.

End Proofs.

(** ** Samples *)

Section Samples.
#[local] Existing Instance mib_heap.
#[local] Existing Instance sample_interop.
#[local] Existing Instance toy_crypto.
#[local] Existing Instance toy_curve.
#[local] Existing Instance toy_ecdsa.

Definition plain_view (account : neoc_hash160_t) : signer_view := mk_view _ account 1 [] [] [].

Lemma plain_view_ok account : hash160_ok account -> view_ok (plain_view account).
Proof. intros. by split. Qed.

Definition empty_builder : neoc_tx_builder_t :=
  mk_builder _ 0 7 TX_DEFAULT_VALID_UNTIL_BLOCK [] 0 TX_DEFAULT_NETWORK_FEE
    (replicate 16 (mk_slot 0 None 0)) 0 None 0 false None.



(** An attribute of the type of the mark, with data, is cleared; the next mark finds the stale
    pointer in its slot, and clearing it frees the block again. *)
Definition double_free_session : list builder_op :=
  [TbAttribute (Some (mk_attribute NEOC_TX_ATTR_HIGH_PRIORITY (Some (str "data")) 4));
   TbHighPriority false; TbHighPriority true; TbHighPriority false].

Example priority_double_free :
  builder_after (take 3 double_free_session) (fresh_state empty_builder) <> None /\
  builder_after double_free_session (fresh_state empty_builder) = None.
Proof. split; [vm_compute; discriminate|vm_compute; reflexivity]. Qed.

Definition sample_fee_view : tx_view :=
  mk_tx_view _ 0 7 0 TX_DEFAULT_NETWORK_FEE TX_DEFAULT_VALID_UNTIL_BLOCK [plain_view sample160] [] (str "script").

Lemma sample_fee_view_ok : tx_ok sample_fee_view.
Proof.
  split; cbn; try (by split); try done. split; [|done]. constructor; [by apply plain_view_ok|constructor].
Qed.

(** An account that signs with the draw 3. *)
Definition sample_signing : Z * neoc_account_t :=
  (3, key_account [] [] sample160 (toy_private 5) (sample_point 5)).

Lemma calculate_fees_consumes_witness :
  exists s',
    neoc_tx_builder_calculate_fees Byte.x00 9
      (fresh_state (filled_builder 7 (str "script") [signer_of (plain_view sample160)]))
    = (Ok (1056000, 160000), s') /\
    neoc_tx_builder_sign [sample_signing] s' = (Fault, s').
Proof.
  destruct (calculate_fees_consumes Byte.x00 9 10 sample_fee_view
    (fresh_state (filled_builder 7 (str "script") [signer_of (plain_view sample160)]))
    [sample_signing])
    as (s' & Ef & _ & _ & Es).
  - apply toy_curve_works.
  - apply sample_fee_view_ok.
  - by repeat constructor.
  - done.
  - split; try done. split_and!; try done. by repeat constructor; apply not_elem_of_nil.
  - by vm_compute.
  - by vm_compute.
  - apply mib_heap_serves. by vm_compute.
  - discriminate.
  - exists s'. split; [exact Ef|exact Es].
Defined.

Lemma transaction_sign_multi_signs_witness :
  exists sg h',
    neoc_transaction_sign_multi [sample_signing] (tx_of sample_fee_view [] neoc_hash256_init_zero)
    = (Ok tt, tx_of sample_fee_view [legacy_witness sg (sample_point 5)] h').
Proof.
  destruct (transaction_sign_multi_signs sample_fee_view [] neoc_hash256_init_zero [sample_signing]
    [sample_point 5]) as (d & sgs & h' & _ & Hsg & E & _).
  - apply toy_curve_works.
  - apply toy_crypto_works.
  - apply toy_ecdsa_works.
  - apply sample_fee_view_ok.
  - apply Forall2_cons_2; [|apply Forall2_nil_2].
    exists [], [], sample160, (toy_private 5). split; [reflexivity|apply toy_private_point].
  - discriminate.
  - by vm_compute.
  - by vm_compute.
  - apply mib_heap_serves. by vm_compute.
  - apply Forall2_cons_inv_r in Hsg as (sg & sgs' & _ & Hn & ->). apply Forall2_nil_inv_r in Hn as ->.
    exists sg, h'. exact E.
Defined.

Lemma high_priority_shares_data_witness :
  exists s, fst (neoc_tx_builder_free s) = Fault /\ tb_attribute_count (ts_builder s) = 2.
Proof.
  destruct (high_priority_shares_data 7 0x20 (str "data") empty_builder) as (s & l & _ & _ & Ec & Ef).
  - vm_compute. reflexivity.
  - discriminate.
  - apply mib_heap_serves. by vm_compute.
  - exists s. exact (conj Ef Ec).
Defined.

(** A parser that knows one text. *)
Definition sample_parse (text : list byte) : option json :=
  if bool_decide (text = str "[[1],null]") then Some (JArray [JArray [JNumber 1 true]; JNull]) else None.

Lemma contract_call_builder_witness :
  exists script s,
    neoc_tx_builder_create_contract_call sample_parse 7 sample160 (str "run") (Some (str "[[1],null]"))
      [Some (signer_of (plain_view sample160))] = Ok s /\
    runs (script, [])
      (syscall_bytes NEOC_INTEROP_SYSTEM_CONTRACT_CALL,
       [ByteString (hash160_data sample160); ByteString (str "run");
        VArray [VArray [Integer 1]; NeoVM.Null]]).
Proof.
  destruct (contract_call_builder sample_parse 7 100 (str "[[1],null]") (str "run")
    [JArray [JNumber 1 true]; JNull] sample160 [plain_view sample160]) as (script & E & R).
  - apply toy_curve_works.
  - reflexivity.
  - discriminate.
  - reflexivity.
  - reflexivity.
  - by vm_compute.
  - apply Forall_cons_2; [|apply Forall_nil_2]. split; [by apply plain_view_ok|by vm_compute].
  - by vm_compute.
  - apply NoDup_singleton.
  - apply mib_heap_serves. by vm_compute.
  - eexists script, _. split; [exact E|exact R].
Defined.

Lemma nep17_transfer_builder_witness :
  exists script s,
    neoc_tx_builder_create_nep17_transfer Byte.xcd 7 sample160 (snd sample_signing) sample_address (2 ^ 63)
      (Some []) 0 = Ok s /\
    runs (script, [])
      (syscall_bytes NEOC_INTEROP_SYSTEM_CONTRACT_CALL,
       [ByteString (hash160_data sample160); ByteString (str "transfer");
        VArray [ByteString (hash160_data sample160); ByteString (hash160_data sample160);
                Integer (- 2 ^ 63); NeoVM.Null]]).
Proof.
  destruct (nep17_transfer_builder Byte.xcd 7 (2 ^ 63) sample160 sample160 sample_address
    (snd sample_signing) []) as (script & E & R).
  - apply toy_curve_works.
  - vm_compute. reflexivity.
  - reflexivity.
  - reflexivity.
  - reflexivity.
  - by vm_compute.
  - apply mib_heap_serves. by vm_compute.
  - eexists script, _. split; [exact E|exact R].
Defined.
End Samples.
