(* ===== verification/SpecialSigner.v ===== *)
(** * Signers of accounts and contracts, and the context of their signatures (src/transaction/)

    account_signer.c and contract_signer.c make signers that keep the account or the parameters of the contract they
    stand for; contract_parameters_context.c collects signatures for the signers of a transaction; their parameters
    are those of src/types/contract_parameter.c.  What a failed constructor leaves behind its result pointer is not
    modelled. *)

From S2P Require Import Prelude BinaryWriter Serializable Crypto Base58 Hashes Interop EcKey Opcode NeoVM ScriptBuilder VerificationScript KeyPair Nep2 WitnessRule Witness Signer Transaction Account.
#[local] Open Scope Z_scope.

(** ** Parameters (types/contract_parameter.c) *)

Record neoc_contract_parameter_t := mk_parameter {
  pm_type : Z; pm_name : option (list byte); pm_value : option (list byte); pm_value_size : Z
}.

Definition NEOC_CONTRACT_PARAM_TYPE_BOOLEAN : Z := 0x10.
Definition NEOC_CONTRACT_PARAM_TYPE_INTEGER : Z := 0x11.
Definition NEOC_CONTRACT_PARAM_TYPE_BYTE_ARRAY : Z := 0x12.
Definition NEOC_CONTRACT_PARAM_TYPE_STRING : Z := 0x13.
Definition NEOC_CONTRACT_PARAM_TYPE_SIGNATURE : Z := 0x17.

(** [sizeof] of the structs *)
Definition parameter_struct_size : Z := 32.
Definition account_signer_struct_size : Z := 96.
Definition contract_signer_struct_size : Z := 96.
Definition context_struct_size : Z := 48.

Section Parameters.
Context `{Allocator}.

Definition neoc_contract_parameter_create (type : Z) (name value : option (list byte)) (value_size : Z) : res neoc_contract_parameter_t :=
  if negb (neoc_malloc_ok parameter_struct_size) then Err NEOC_ERROR_MEMORY
  else
    let? name :=
      match name with
      | None => Ok None
      | Some name => let? copy := neoc_strdup name NEOC_ERROR_MEMORY in Ok (Some copy)
      end in
    match value with
    | None => Ok (mk_parameter type name None 0)
    | Some value =>
        if 0 <? value_size then
          if negb (neoc_malloc_ok value_size) then Err NEOC_ERROR_MEMORY
          else let? copy := memcpy_from value value_size in Ok (mk_parameter type name (Some copy) value_size)
        else Ok (mk_parameter type name None 0)
    end.

Definition neoc_contract_parameter_create_bool (value : bool) : res neoc_contract_parameter_t :=
  neoc_contract_parameter_create NEOC_CONTRACT_PARAM_TYPE_BOOLEAN None (Some [byte_of_Z (if value then 1 else 0)]) 1.

(** The bytes of the integer in memory. *)
Definition neoc_contract_parameter_create_int (value : Z) : res neoc_contract_parameter_t :=
  neoc_contract_parameter_create NEOC_CONTRACT_PARAM_TYPE_INTEGER None (Some (le_bytes 8 value)) 8.

Definition neoc_contract_parameter_create_string (value : option (list byte)) : res neoc_contract_parameter_t :=
  match value with
  | None => Err NEOC_ERROR_INVALID_ARGUMENT
  | Some s => neoc_contract_parameter_create NEOC_CONTRACT_PARAM_TYPE_STRING None (Some s) (zlen s)
  end.

Definition neoc_contract_parameter_create_bytes (value : option (list byte)) (len : Z) : res neoc_contract_parameter_t :=
  match value with
  | None => if 0 <? len then Err NEOC_ERROR_INVALID_ARGUMENT else neoc_contract_parameter_create NEOC_CONTRACT_PARAM_TYPE_BYTE_ARRAY None None len
  | Some _ => neoc_contract_parameter_create NEOC_CONTRACT_PARAM_TYPE_BYTE_ARRAY None value len
  end.
End Parameters.

(** ** Signers *)

(** [as_account] is the account the signer points to. *)
Record neoc_account_signer_t `{Curve} := mk_account_signer {
  as_base : neoc_signer_t; as_account : neoc_account_t; as_owns_account : bool
}.

Record neoc_contract_signer_t `{Curve} := mk_contract_signer {
  cs_base : neoc_signer_t; cs_verify_params : list neoc_contract_parameter_t
}.

Section Signers.
Context `{Allocator} `{Crypto} `{Curve} (junk : byte).

Definition create_account_signer (account : neoc_account_t) (scope : neoc_witness_scope_t) : res neoc_account_signer_t :=
  if negb (neoc_malloc_ok account_signer_struct_size) then Err NEOC_ERROR_MEMORY
  else
    let script_hash := neoc_account_get_script_hash_copy account in
    Ok (mk_account_signer _ (mk_signer _ script_hash (scope_value scope) [] Prelude.Null Prelude.Null 0 []) account false).

Definition owned (r : res neoc_account_signer_t) : res neoc_account_signer_t :=
  let? s := r in Ok (mk_account_signer _ (as_base s) (as_account s) true).

(** An account of zeros but for its hash and address. *)
Definition bare_account (hash : neoc_hash160_t) (address : option (list byte)) : neoc_account_t :=
  mk_account _ None address hash None false false None 0 None 0 EXTRA_NONE.

Definition neoc_account_signer_none (account : neoc_account_t) := create_account_signer account NEOC_WITNESS_SCOPE_NONE.

(** [neoc_calloc(64, 1)] for the address. *)
Definition neoc_account_signer_none_hash (account_hash : neoc_hash160_t) : res neoc_account_signer_t :=
  if negb (neoc_malloc_ok account_struct_size) then Err NEOC_ERROR_MEMORY
  else if negb (neoc_malloc_ok NEOC_ADDRESS_LENGTH) then Err NEOC_ERROR_MEMORY
  else
    let? address := with_buffer Byte.x00 (Z.to_nat NEOC_ADDRESS_LENGTH) (neoc_hash160_to_address junk account_hash NEOC_ADDRESS_LENGTH) in
    owned (create_account_signer (bare_account account_hash (Some (cstring address))) NEOC_WITNESS_SCOPE_NONE).

Definition neoc_account_signer_called_by_entry (account : neoc_account_t) := create_account_signer account NEOC_WITNESS_SCOPE_CALLED_BY_ENTRY.

Definition neoc_account_signer_called_by_entry_hash (account_hash : neoc_hash160_t) : res neoc_account_signer_t :=
  if negb (neoc_malloc_ok account_struct_size) then Err NEOC_ERROR_MEMORY
  else owned (create_account_signer (bare_account account_hash None) NEOC_WITNESS_SCOPE_CALLED_BY_ENTRY).

Definition neoc_account_signer_global (account : neoc_account_t) := create_account_signer account NEOC_WITNESS_SCOPE_GLOBAL.

Definition neoc_account_signer_global_hash (account_hash : neoc_hash160_t) : res neoc_account_signer_t :=
  if negb (neoc_malloc_ok account_struct_size) then Err NEOC_ERROR_MEMORY
  else owned (create_account_signer (bare_account account_hash None) NEOC_WITNESS_SCOPE_GLOBAL).

Definition neoc_account_signer_get_account (signer : neoc_account_signer_t) : neoc_account_t := as_account signer.

Definition neoc_contract_signer_create (contract_hash : neoc_hash160_t) : res neoc_contract_signer_t :=
  if negb (neoc_malloc_ok contract_signer_struct_size) then Err NEOC_ERROR_MEMORY
  else Ok (mk_contract_signer _ (mk_signer _ contract_hash (scope_value NEOC_WITNESS_SCOPE_CALLED_BY_ENTRY) [] Prelude.Null Prelude.Null 0 []) []).

(** The array of pointers grows by one. *)
Definition neoc_contract_signer_add_parameter (param : neoc_contract_parameter_t) : M neoc_contract_signer_t unit := fun s =>
  if negb (neoc_malloc_ok ((zlen (cs_verify_params s) + 1) * 8)) then (Err NEOC_ERROR_MEMORY, s)
  else (Ok tt, mk_contract_signer _ (cs_base s) (cs_verify_params s ++ [param])).

Definition neoc_contract_signer_get_contract_hash (s : neoc_contract_signer_t) : neoc_hash160_t := sg_account (cs_base s).
Definition neoc_contract_signer_get_parameters (s : neoc_contract_signer_t) : list neoc_contract_parameter_t := cs_verify_params s.

(** ** The context (contract_parameters_context.c) *)

(** One entry of each list for each signer; the count of an entry is the length of its parameters. *)
Record neoc_contract_parameters_context_t := mk_context {
  cx_transaction : neoc_transaction_t;
  cx_script_hashes : list neoc_hash160_t;
  cx_parameters : list (list neoc_contract_parameter_t);
  cx_completed : list bool
}.

(** [neoc_calloc] of nothing is NULL.  When the array of parameters or that of the counts is missing, freeing the rest
    reads through NULL. *)
Definition neoc_contract_parameters_context_create (tx : neoc_transaction_t) : res neoc_contract_parameters_context_t :=
  if negb (neoc_malloc_ok context_struct_size) then Err NEOC_ERROR_MEMORY
  else
    let signers := tx_signers tx in
    let signer_count := zlen signers in
    let script_hashes := neoc_malloc_ok (signer_count * hash160_struct_size) in
    let parameters := neoc_malloc_ok (signer_count * 8) in
    let parameter_counts := neoc_malloc_ok (signer_count * 8) in
    let completed := neoc_malloc_ok signer_count in
    if negb script_hashes || negb parameters || negb parameter_counts || negb completed then
      if (0 <? signer_count) && (negb parameters || negb parameter_counts) then Fault else Err NEOC_ERROR_MEMORY
    else
      Ok (mk_context tx (map sg_account signers) (replicate (length signers) []) (replicate (length signers) false)).

(** The place of the first entry with the hash. *)
Fixpoint find_script_hash (hashes : list neoc_hash160_t) (script_hash : neoc_hash160_t) : option nat :=
  match hashes with
  | [] => None
  | h :: hashes => if bool_decide (h = script_hash) then Some O else option_map S (find_script_hash hashes script_hash)
  end.

(** The signature is a C string. *)
Definition neoc_contract_parameters_context_add_signature (script_hash : neoc_hash160_t) (signature : list byte)
  : M neoc_contract_parameters_context_t unit := fun ctx =>
  match find_script_hash (cx_script_hashes ctx) script_hash with
  | None => (Err NEOC_ERROR_NOT_FOUND, ctx)
  | Some index =>
      match neoc_contract_parameter_create NEOC_CONTRACT_PARAM_TYPE_SIGNATURE (Some (str "signature")) (Some signature) (zlen signature) with
      | Fault => (Fault, ctx)
      | Err e => (Err e, ctx)
      | Ok sig_param =>
          match cx_parameters ctx !! index with
          | None => (Fault, ctx)
          | Some params =>
              if negb (neoc_malloc_ok ((zlen params + 1) * 8)) then (Err NEOC_ERROR_MEMORY, ctx)
              else (Ok tt, mk_context (cx_transaction ctx) (cx_script_hashes ctx) (<[index := params ++ [sig_param]]> (cx_parameters ctx)) (cx_completed ctx))
          end
      end
  end.

Definition neoc_contract_parameters_context_is_complete (ctx : neoc_contract_parameters_context_t) : bool := forallb id (cx_completed ctx).

(** One witness for each entry; the loop over its parameters has no body. *)
Fixpoint context_witnesses (entries : list (list neoc_contract_parameter_t)) : res (list neoc_witness_t) :=
  match entries with
  | [] => Ok []
  | params :: entries =>
      let? invocation_script := script_with (for_each (fun _ => ret tt) params) in
      let? witness := neoc_witness_create (Some invocation_script) (zlen invocation_script) None 0 in
      let? witnesses := context_witnesses entries in
      Ok (witness :: witnesses)
  end.

Definition neoc_contract_parameters_context_get_witnesses (ctx : neoc_contract_parameters_context_t) : res (list neoc_witness_t) :=
  if negb (neoc_malloc_ok (zlen (cx_script_hashes ctx) * 8)) then Err NEOC_ERROR_MEMORY
  else context_witnesses (cx_parameters ctx).
End Signers.

(** ** Account and contract signers *)

Section SignerTheorems.
Context `{Allocator} `{Crypto} `{Curve} (junk : byte).

(** The six constructors make signers of the given scope for the hash of the account; with a hash alone the signer owns
    a bare account, to which the scope [None] also gives the address that is read back as the hash. *)
Theorem account_signers_made (account : neoc_account_t) h :
  crypto_works -> hash160_ok h -> heap_serves 128 ->
  let base hash scope := mk_signer _ hash (scope_value scope) [] Prelude.Null Prelude.Null 0 [] in
  let shared scope := Ok (mk_account_signer _ (base (acc_script_hash account) scope) account false) in
  let bare scope := Ok (mk_account_signer _ (base h scope) (bare_account h None) true) in
  neoc_account_signer_none account = shared NEOC_WITNESS_SCOPE_NONE /\
  neoc_account_signer_called_by_entry account = shared NEOC_WITNESS_SCOPE_CALLED_BY_ENTRY /\
  neoc_account_signer_global account = shared NEOC_WITNESS_SCOPE_GLOBAL /\
  neoc_account_signer_called_by_entry_hash h = bare NEOC_WITNESS_SCOPE_CALLED_BY_ENTRY /\
  neoc_account_signer_global_hash h = bare NEOC_WITNESS_SCOPE_GLOBAL /\
  exists address, neoc_account_signer_none_hash junk h =
      Ok (mk_account_signer _ (base h NEOC_WITNESS_SCOPE_NONE) (bare_account h (Some address)) true) /\
    neoc_hash160_from_address junk (Some address) = Ok h.
Proof.
  intros Hw Hh Hheap base shared bare.
  assert (forall n, 0 < n <= 128 -> neoc_malloc_ok n = true) as Hm by (intros n Hn; unfold neoc_malloc_ok; cmps; apply Hheap; lia).
  unfold neoc_account_signer_none, neoc_account_signer_called_by_entry, neoc_account_signer_global, neoc_account_signer_called_by_entry_hash,
    neoc_account_signer_global_hash, neoc_account_signer_none_hash, create_account_signer, account_signer_struct_size, account_struct_size, NEOC_ADDRESS_LENGTH.
  rewrite !Hm by lia. cbn [negb]. do 5 (split; [done|]).
  destruct (to_address_ok junk Hw ltac:(eapply heap_serves_mono; [done|lia]) h (replicate 64 Byte.x00) Hh ltac:(vm_compute; discriminate)) as (s & Hs & E).
  exists s. split; [|apply from_address_of; [done|eapply heap_serves_mono; [done|lia]|done|done]].
  unfold with_buffer. change (Z.to_nat 64) with 64%nat. change (zlen (replicate 64 Byte.x00)) with 64 in E. rewrite E. cbn [rbind].
  by rewrite cstring_app by (by eapply address_of_no_nul).
Qed.

(** A contract signer keeps hash, scope and the parameters in the order they were added. *)
Theorem contract_signer_keeps h params :
  heap_serves (zlen params * 8 + 96) ->
  exists s s', neoc_contract_signer_create h = Ok s /\ for_each neoc_contract_signer_add_parameter params s = (Ok tt, s') /\
    neoc_contract_signer_get_parameters s' = params /\ neoc_contract_signer_get_contract_hash s' = h /\
    sg_scopes (cs_base s') = scope_value NEOC_WITNESS_SCOPE_CALLED_BY_ENTRY.
Proof.
  intros Hh. pose proof (zlen_nonneg params). unfold neoc_contract_signer_create, neoc_malloc_ok, contract_signer_struct_size. cbn [Z.eqb]. rewrite Hh by lia. cbn [negb].
  eexists. set (base := mk_signer _ h _ _ _ _ _ _).
  assert (forall todo known, zlen known + zlen todo = zlen params ->
    for_each neoc_contract_signer_add_parameter todo (mk_contract_signer _ base known) = (Ok tt, mk_contract_signer _ base (known ++ todo))) as Hall.
  { induction todo as [|p todo IH]; intros known Hl; cbn [for_each]; [by rewrite app_nil_r|]. rewrite zlen_cons in Hl.
    pose proof (zlen_nonneg known). pose proof (zlen_nonneg todo).
    unfold neoc_contract_signer_add_parameter at 1, bind, neoc_malloc_ok. cbn [cs_verify_params cs_base]. cmps. rewrite Hh by lia. cbn [negb].
    rewrite IH by (rewrite zlen_app; change (zlen [p]) with 1; lia). by rewrite <- app_assoc. }
  eexists. split; [done|]. split; [apply (Hall params []); done|]. done.
Qed.
End SignerTheorems.

(** ** The context collects signatures and never uses them *)

Definition sig_param (signature : list byte) : neoc_contract_parameter_t :=
  mk_parameter NEOC_CONTRACT_PARAM_TYPE_SIGNATURE (Some (str "signature")) (if zlen signature =? 0 then None else Some signature) (zlen signature).

(** The signatures that were added for a hash, in their order. *)
Definition signatures_for (ops : list (neoc_hash160_t * list byte)) (h : neoc_hash160_t) : list neoc_contract_parameter_t :=
  map (fun op => sig_param (snd op)) (filter (fun op => fst op = h) ops).

Lemma signatures_for_snoc ops op h :
  signatures_for (ops ++ [op]) h = if bool_decide (fst op = h) then signatures_for ops h ++ [sig_param (snd op)] else signatures_for ops h.
Proof.
  unfold signatures_for. rewrite filter_app, map_app. destruct (bool_decide_reflect (fst op = h)) as [E|E].
  - by rewrite filter_cons_True.
  - rewrite filter_cons_False by done. by rewrite app_nil_r.
Qed.

Lemma find_script_hash_spec hs h :
  match find_script_hash hs h with Some i => hs !! i = Some h | None => h ∉ hs end.
Proof.
  induction hs as [|g hs IH]; cbn [find_script_hash]; [set_solver|].
  destruct (bool_decide_reflect (g = h)) as [->|Hne]; [done|]. destruct (find_script_hash hs h); cbn [option_map]; [done|]. apply not_elem_of_cons. done.
Qed.

(** Adding a signature at its place. *)
Lemma insert_signature hs i h ops op :
  NoDup hs -> hs !! i = Some h -> fst op = h ->
  <[i := signatures_for ops h ++ [sig_param (snd op)]]> (map (signatures_for ops) hs) = map (signatures_for (ops ++ [op])) hs.
Proof.
  intros Hnd Hi Ho. apply list_eq. intros j. destruct (decide (i = j)) as [<-|Hij].
  - rewrite list_lookup_insert_eq by (rewrite length_map; by eapply lookup_lt_Some).
    change (map (signatures_for (ops ++ [op])) hs) with (signatures_for (ops ++ [op]) <$> hs). rewrite list_lookup_fmap, Hi. cbn.
    by rewrite signatures_for_snoc, bool_decide_eq_true_2.
  - rewrite list_lookup_insert_ne by done. change (map ?f hs) with (f <$> hs). rewrite !list_lookup_fmap.
    destruct (hs !! j) as [g|] eqn:Ej; [|done]. cbn. rewrite signatures_for_snoc, bool_decide_eq_false_2; [done|].
    intros E. apply Hij. eapply NoDup_lookup; [done|done|congruence].
Qed.

(** Nothing is written for the parameters. *)
Lemma for_each_nothing `{Allocator} {A} (l : list A) : writes (for_each (fun _ => ret tt) l) [].
Proof.
  induction l as [|x l IH]; [apply writes_ret|]. cbn [for_each]. change (bind (ret tt) (fun _ => ?m)) with m. exact IH.
Qed.

Section ContextTheorems.
Context `{Allocator} `{Curve}.

Definition add_signature (op : neoc_hash160_t * list byte) : M neoc_contract_parameters_context_t unit :=
  neoc_contract_parameters_context_add_signature (fst op) (snd op).

(** Calls one after the other, each with its result. *)
Fixpoint add_signatures (ops : list (neoc_hash160_t * list byte)) (ctx : neoc_contract_parameters_context_t)
  : list (res unit) * neoc_contract_parameters_context_t :=
  match ops with
  | [] => ([], ctx)
  | op :: ops => let '(r, ctx) := add_signature op ctx in let '(rs, ctx) := add_signatures ops ctx in (r :: rs, ctx)
  end.

Definition context_with (tx : neoc_transaction_t) (ops : list (neoc_hash160_t * list byte)) : neoc_contract_parameters_context_t :=
  let hs := map sg_account (tx_signers tx) in
  mk_context tx hs (map (signatures_for ops) hs) (replicate (length (tx_signers tx)) false).

Lemma add_signature_step tx ops op n :
  NoDup (map sg_account (tx_signers tx)) -> heap_serves n -> 32 <= n -> zlen (snd op) <= n -> 8 * (zlen ops + 1) <= n ->
  add_signature op (context_with tx ops) =
    (if bool_decide (fst op ∈ map sg_account (tx_signers tx)) then Ok tt else Err NEOC_ERROR_NOT_FOUND, context_with tx (ops ++ [op])).
Proof.
  intros Hnd Hh Hn Hs Ho. unfold add_signature, neoc_contract_parameters_context_add_signature, context_with. cbn [cx_script_hashes cx_parameters cx_transaction cx_completed].
  set (hs := map sg_account (tx_signers tx)) in *. pose proof (find_script_hash_spec hs (fst op)) as Hf.
  destruct (find_script_hash hs (fst op)) as [i|].
  - rewrite bool_decide_eq_true_2 by (by eapply list_elem_of_lookup_2). pose proof (zlen_nonneg (snd op)).
    assert (neoc_contract_parameter_create NEOC_CONTRACT_PARAM_TYPE_SIGNATURE (Some (str "signature")) (Some (snd op)) (zlen (snd op)) = Ok (sig_param (snd op))) as ->.
    { unfold neoc_contract_parameter_create, neoc_strdup, neoc_malloc_ok, parameter_struct_size. cbn [Z.eqb]. rewrite Hh by lia.
      change (zlen (str "signature") + 1) with 10. cbn [Z.eqb negb]. rewrite Hh by lia. cbn [negb rbind]. unfold sig_param.
      destruct (Z.ltb_spec 0 (zlen (snd op))); cmps; [|by replace (zlen (snd op)) with 0 by lia].
      rewrite Hh by lia. cbn [negb]. by rewrite memcpy_from_all. }
    change (map (signatures_for ops) hs) with (signatures_for ops <$> hs) at 1. rewrite list_lookup_fmap, Hf. cbn [fmap option_fmap option_map].
    assert (zlen (signatures_for ops (fst op)) <= zlen ops) as Hl.
    { unfold signatures_for, zlen. rewrite length_map. pose proof (length_filter (fun op' => fst op' = fst op) ops). lia. }
    pose proof (zlen_nonneg (signatures_for ops (fst op))). unfold neoc_malloc_ok. cmps. rewrite Hh by lia. cbn [negb].
    by rewrite (insert_signature hs i (fst op)).
  - rewrite bool_decide_eq_false_2 by done. f_equal. f_equal. apply map_ext_in. intros g Hg. rewrite signatures_for_snoc, bool_decide_eq_false_2; [done|].
    intros E. apply Hf. rewrite E. by apply list_elem_of_In.
Qed.

(** The context of a transaction keeps every signature for its signers, yet it is never complete, and the witnesses it
    gives are empty whatever was added. *)
Theorem context_never_completes tx ops n :
  tx_signers tx <> [] -> NoDup (map sg_account (tx_signers tx)) ->
  heap_serves n -> 1024 <= n -> 20 * zlen (tx_signers tx) <= n -> 8 * zlen ops <= n -> Forall (fun op => zlen (snd op) <= n) ops ->
  exists ctx ctx',
    neoc_contract_parameters_context_create tx = Ok ctx /\
    add_signatures ops ctx =
      (map (fun op => if bool_decide (fst op ∈ map sg_account (tx_signers tx)) then Ok tt else Err NEOC_ERROR_NOT_FOUND) ops, ctx') /\
    cx_parameters ctx' = map (signatures_for ops) (map sg_account (tx_signers tx)) /\
    neoc_contract_parameters_context_is_complete ctx' = false /\
    neoc_contract_parameters_context_get_witnesses ctx' = Ok (replicate (length (tx_signers tx)) (mk_witness None 0 None 0)).
Proof.
  intros Hne Hnd Hh Hn Hs Ho Hf. pose proof (zlen_pos _ Hne). exists (context_with tx []), (context_with tx ops).
  set (hs := map sg_account (tx_signers tx)) in *. assert (zlen hs = zlen (tx_signers tx)) as Hl by (unfold hs; apply zlen_map). split_and!.
  - unfold neoc_contract_parameters_context_create, neoc_malloc_ok, context_struct_size, hash160_struct_size. cbn [Z.eqb]. cmps. rewrite !Hh by lia. cbn [negb orb].
    unfold context_with. fold hs. f_equal. f_equal. unfold hs. clear. by induction (tx_signers tx) as [|s l IH]; [|cbn; rewrite <- IH].
  - assert (forall todo known, 8 * (zlen known + zlen todo) <= n -> Forall (fun op => zlen (snd op) <= n) todo ->
      add_signatures todo (context_with tx known) = (map (fun op => if bool_decide (fst op ∈ hs) then Ok tt else Err NEOC_ERROR_NOT_FOUND) todo, context_with tx (known ++ todo))) as Hall.
    { induction todo as [|op todo IH]; intros known Hk Hft; cbn [add_signatures map]; [by rewrite app_nil_r|]. inversion Hft; subst. rewrite zlen_cons in Hk. pose proof (zlen_nonneg todo).
      rewrite (add_signature_step tx known op n) by (done || lia). fold hs.
      rewrite IH by (done || (rewrite zlen_app; change (zlen [op]) with 1; lia)). by rewrite <- app_assoc. }
    apply (Hall ops []); [change (zlen []) with 0; lia|done].
  - done.
  - unfold neoc_contract_parameters_context_is_complete, context_with. cbn [cx_completed]. by destruct (tx_signers tx).
  - unfold neoc_contract_parameters_context_get_witnesses, context_with. cbn [cx_script_hashes cx_parameters]. fold hs. unfold neoc_malloc_ok. rewrite Hl. cmps. rewrite Hh by lia. cbn [negb].
    replace (length (tx_signers tx)) with (length hs) by (unfold hs; apply length_map). clear Hl Hnd. induction hs as [|h hs IH]; [done|]. cbn [map context_witnesses length replicate].
    rewrite (script_with_ok _ []); [|apply for_each_nothing|vm_compute; discriminate|eapply heap_serves_mono; [done|change (zlen []) with 0; lia]].
    cbn [rbind]. unfold neoc_witness_create, neoc_malloc_ok, witness_struct_size. cbn [Z.eqb]. rewrite Hh by lia. cbn -[context_witnesses]. by rewrite IH.
Qed.
End ContextTheorems.

(** Without memory for the counts, giving the rest back reads through NULL. *)
Lemma context_create_faults `{Allocator} `{Curve} tx :
  neoc_malloc_ok context_struct_size = true -> 0 < zlen (tx_signers tx) -> neoc_malloc_ok (zlen (tx_signers tx) * 8) = false ->
  neoc_contract_parameters_context_create tx = Fault.
Proof. intros H1 H2 H3. unfold neoc_contract_parameters_context_create. rewrite H1, H3. cmps. cbn [negb orb andb]. by rewrite orb_true_r. Qed.

(** ** Witnesses *)

Section Samples.
#[local] Existing Instance mib_heap.
#[local] Existing Instance toy_crypto.
#[local] Existing Instance toy_curve.

Lemma account_signers_made_witness :
  exists address, neoc_account_signer_none_hash Byte.xcd sample160 =
      Ok (mk_account_signer _ (mk_signer _ sample160 0 [] Prelude.Null Prelude.Null 0 []) (bare_account sample160 (Some address)) true) /\
    neoc_hash160_from_address Byte.xcd (Some address) = Ok sample160.
Proof.
  apply (account_signers_made Byte.xcd (bare_account sample160 None) sample160 toy_crypto_works); [reflexivity|apply mib_heap_serves; lia].
Defined.

Lemma contract_signer_keeps_witness :
  exists s s', neoc_contract_signer_create sample160 = Ok s /\ for_each neoc_contract_signer_add_parameter [sig_param []; sig_param [Byte.x01]] s = (Ok tt, s') /\
    neoc_contract_signer_get_parameters s' = [sig_param []; sig_param [Byte.x01]] /\ neoc_contract_signer_get_contract_hash s' = sample160 /\
    sg_scopes (cs_base s') = 1.
Proof. apply (contract_signer_keeps sample160 [sig_param []; sig_param [Byte.x01]]). apply mib_heap_serves. vm_compute. discriminate. Defined.

(** A transaction with one signer. *)
Definition one_signer_tx : neoc_transaction_t :=
  mk_tx _ 0 1 0 0 5000 [mk_signer _ sample160 1 [] Prelude.Null Prelude.Null 0 []] [] None 0 [] (mk_hash256 (replicate 32 Byte.x00)).

Lemma context_never_completes_witness :
  exists ctx ctx',
    neoc_contract_parameters_context_create one_signer_tx = Ok ctx /\
    add_signatures [(sample160, str "a1"); (mk_hash160 [], str "b2")] ctx = ([Ok tt; Err NEOC_ERROR_NOT_FOUND], ctx') /\
    cx_parameters ctx' = [[sig_param (str "a1")]] /\
    neoc_contract_parameters_context_is_complete ctx' = false /\
    neoc_contract_parameters_context_get_witnesses ctx' = Ok [mk_witness None 0 None 0].
Proof.
  apply (context_never_completes one_signer_tx [(sample160, str "a1"); (mk_hash160 [], str "b2")] 1024); try (vm_compute; discriminate).
  - apply NoDup_singleton.
  - apply mib_heap_serves. lia.
  - repeat constructor; vm_compute; discriminate.
Defined.
End Samples.
