(* ===== verification/StackItem.v ===== *)
(** * Stack items (src/protocol/stack_item.c)

    The values a node gives back: items that count the references to them.  Items are in a store, so that sharing, freeing
    and reading after freeing are visible: an access to an item that was freed is a [Fault].  A pointer is the place of
    an item in the store; NULL results are [None].  The integer, byte and pointer blocks an item owns are parts of the
    item, and are freed with it. *)

From S2P Require Import Prelude.
From stdpp Require Import gmap.
#[local] Open Scope Z_scope.

(** ** Items and the store *)

Abbreviation item_pointer := positive.

(** The tag and the member of the union that belongs to it. *)
Inductive item_value :=
| STACK_ITEM_TYPE_ANY
| STACK_ITEM_TYPE_BOOLEAN (boolean_value : bool)
| STACK_ITEM_TYPE_INTEGER (bytes : list byte) (length : Z) (is_negative : bool)
| STACK_ITEM_TYPE_BYTE_STRING (data : list byte)
| STACK_ITEM_TYPE_BUFFER (data : list byte)
| STACK_ITEM_TYPE_ARRAY (items : list item_pointer) (capacity : Z)
| STACK_ITEM_TYPE_STRUCT (items : list item_pointer) (capacity : Z)
| STACK_ITEM_TYPE_MAP (entries : list (item_pointer * item_pointer)) (capacity : Z)
| STACK_ITEM_TYPE_POINTER (ptr position : Z)
| STACK_ITEM_TYPE_INTEROP_INTERFACE (interface : Z).

Record stack_item := mk_item { ref_count : Z; value : item_value }.

(** [next_item] is above every place in use. *)
Record item_store := mk_store { items : gmap item_pointer stack_item; next_item : item_pointer }.

Definition DEFAULT_ARRAY_CAPACITY : Z := 16.
Definition DEFAULT_MAP_CAPACITY : Z := 16.

(** [sizeof] of the structs *)
Definition item_struct_size : Z := 40.
Definition map_entry_struct_size : Z := 16.

Abbreviation St := (M item_store).

Definition item_at (p : item_pointer) : St stack_item := fun s =>
  match items s !! p with Some it => (Ok it, s) | None => (Fault, s) end.

Definition set_item (p : item_pointer) (it : stack_item) : St unit := fun s =>
  (Ok tt, mk_store (<[p := it]> (items s)) (next_item s)).

(** [free] of an item that is not there is an error of the program. *)
Definition free_item (p : item_pointer) : St unit := fun s =>
  match items s !! p with
  | Some _ => (Ok tt, mk_store (delete p (items s)) (next_item s))
  | None => (Fault, s)
  end.

(** The items an item points to, in the order they are released. *)
Definition children (v : item_value) : list item_pointer :=
  match v with
  | STACK_ITEM_TYPE_ARRAY l _ | STACK_ITEM_TYPE_STRUCT l _ => l
  | STACK_ITEM_TYPE_MAP entries _ => concat (map (fun e => [fst e; snd e]) entries)
  | _ => []
  end.

(** ** Reference counts *)

Definition stack_item_ref (p : item_pointer) : St unit :=
  let! it := item_at p in set_item p (mk_item (wrap 64 (ref_count it + 1)) (value it)).

(** The recursion of [stack_item_unref]; [fuel] bounds its depth. *)
Fixpoint unref (fuel : nat) (p : item_pointer) : St unit :=
  match fuel with
  | O => fault
  | S fuel =>
      let! it := item_at p in
      let count := wrap 64 (ref_count it - 1) in
      do! set_item p (mk_item count (value it)) in
      if 0 <? count then ret tt
      else do! for_each (unref fuel) (children (value it)) in free_item p
  end.

(** A chain of items that are freed has each item once. *)
Definition stack_item_unref (p : item_pointer) : St unit := fun s => unref (S (size (items s))) p s.

Definition stack_item_free : item_pointer -> St unit := stack_item_unref.

(** ** Integers *)

(** [-value] of the least value overflows. *)
Definition absolute (v : Z) : res Z := if v <? 0 then if v =? - 2 ^ 63 then Fault else Ok (- v) else Ok v.

(** [while (size > 1 && bytes[size - 1] == 0) size--] *)
Fixpoint trim_zeros (bytes : list byte) (size : nat) : Z :=
  match size with
  | O => 0
  | S n =>
      if (0 <? Z.of_nat n) && bool_decide (bytes !! n = Some Byte.x00) then trim_zeros bytes n else Z.of_nat size
  end.

(** [(int64_t)byte << (8 * i)]: a byte from 128 on reaches the sign at the last place. *)
Definition shift_byte (b : byte) (i : Z) : res Z :=
  if (7 <=? i) && (128 <=? Z_of_byte b) then Fault else Ok (Z.shiftl (Z_of_byte b) (8 * i)).

Fixpoint or_item_bytes (bytes : list byte) (i acc : Z) : res Z :=
  match bytes with
  | [] => Ok acc
  | b :: bytes => let? x := shift_byte b i in or_item_bytes bytes (i + 1) (Z.lor acc x)
  end.

Definition stack_item_to_integer (p : item_pointer) : St Z :=
  let! it := item_at p in
  match value it with
  | STACK_ITEM_TYPE_INTEGER bytes length is_negative =>
      if 8 <? length then fail NEOC_ERROR_OVERFLOW
      else
        match buf_slice bytes 0 length with
        | None => fault
        | Some bytes => let! r := lift (or_item_bytes bytes 0 0) in ret (if is_negative then - r else r)
        end
  | _ => fail NEOC_ERROR_INVALID_TYPE
  end.

Definition stack_item_to_boolean (p : item_pointer) : St bool :=
  let! it := item_at p in
  match value it with
  | STACK_ITEM_TYPE_ANY => ret false
  | STACK_ITEM_TYPE_BOOLEAN b => ret b
  | STACK_ITEM_TYPE_INTEGER bytes length _ =>
      match buf_slice bytes 0 length with
      | None => fault
      | Some bytes => ret (existsb (fun b => negb (Z_of_byte b =? 0)) bytes)
      end
  | STACK_ITEM_TYPE_BYTE_STRING data | STACK_ITEM_TYPE_BUFFER data => ret (0 <? zlen data)
  | _ => ret true
  end.

(** The caller's buffer and [*length]; the answer has the sign. *)
Definition stack_item_to_big_integer (p : item_pointer) (length : Z) (buffer : list byte) : St (res bool * Z * list byte) :=
  let! it := item_at p in
  match value it with
  | STACK_ITEM_TYPE_INTEGER bytes n is_negative =>
      if length <? n then ret (Err NEOC_ERROR_BUFFER_TOO_SMALL, n, buffer)
      else
        let! d := lift (memcpy_from bytes n) in
        let '(r, buffer) := store 0 d buffer in
        match r with Ok _ => ret (Ok is_negative, n, buffer) | _ => fault end
  | _ => ret (Err NEOC_ERROR_INVALID_TYPE, length, buffer)
  end.

Definition stack_item_to_byte_array (p : item_pointer) (length : Z) (buffer : list byte) : St (res unit * Z * list byte) :=
  let! it := item_at p in
  match value it with
  | STACK_ITEM_TYPE_BYTE_STRING data | STACK_ITEM_TYPE_BUFFER data =>
      if length <? zlen data then ret (Err NEOC_ERROR_BUFFER_TOO_SMALL, zlen data, buffer)
      else
        let '(r, buffer) := store 0 data buffer in
        match r with Ok _ => ret (Ok tt, zlen data, buffer) | _ => fault end
  | _ => ret (Err NEOC_ERROR_INVALID_TYPE, length, buffer)
  end.

Definition stack_item_is_null (p : option item_pointer) : St bool :=
  match p with
  | None => ret true
  | Some p => let! it := item_at p in ret (match value it with STACK_ITEM_TYPE_ANY => true | _ => false end)
  end.

(** ** Arrays *)

Definition stack_item_array_count (p : item_pointer) : St Z :=
  let! it := item_at p in
  ret (match value it with STACK_ITEM_TYPE_ARRAY l _ | STACK_ITEM_TYPE_STRUCT l _ => zlen l | _ => 0 end).

Definition stack_item_array_get (p : item_pointer) (index : Z) : St (option item_pointer) :=
  let! it := item_at p in
  ret (match value it with STACK_ITEM_TYPE_ARRAY l _ | STACK_ITEM_TYPE_STRUCT l _ => l !! Z.to_nat index | _ => None end).

Definition stack_item_map_count (p : item_pointer) : St Z :=
  let! it := item_at p in ret (match value it with STACK_ITEM_TYPE_MAP l _ => zlen l | _ => 0 end).

(** ** Equality *)

(** The loops over the entries, for a comparison of items. *)
Section Loops.
Variable eq : item_pointer -> item_pointer -> St bool.

Fixpoint equal_items (a b : list item_pointer) : St bool :=
  match a, b with
  | x :: a, y :: b => let! r := eq x y in if r then equal_items a b else ret false
  | _, _ => ret true
  end.

Fixpoint find_entry (entries : list (item_pointer * item_pointer)) (key : item_pointer) : St (option (nat * item_pointer)) :=
  match entries with
  | [] => ret None
  | (k, v) :: entries =>
      let! r := eq k key in
      if r then ret (Some (O, v))
      else let! found := find_entry entries key in ret (option_map (fun e => (S (fst e), snd e)) found)
  end.

Fixpoint equal_entries (a b : list (item_pointer * item_pointer)) : St bool :=
  match a with
  | [] => ret true
  | (k, v) :: a =>
      let! found := find_entry b k in
      match found with
      | None => ret false
      | Some (_, v') => let! r := eq v v' in if r then equal_entries a b else ret false
      end
  end.
End Loops.

(** [memcmp] of blocks of the same length. *)
Definition equal_blocks (a b : list byte) (n : Z) : res bool :=
  match buf_slice a 0 n, buf_slice b 0 n with
  | Some x, Some y => Ok (bool_decide (x = y))
  | _, _ => Fault
  end.

(** [fuel] bounds the depth; items that contain themselves can be compared for ever. *)
Fixpoint equals (fuel : nat) (p q : item_pointer) : St bool :=
  match fuel with
  | O => fault
  | S fuel =>
      if bool_decide (p = q) then ret true
      else
        let! a := item_at p in
        let! b := item_at q in
        match value a, value b with
        | STACK_ITEM_TYPE_ANY, STACK_ITEM_TYPE_ANY => ret true
        | STACK_ITEM_TYPE_BOOLEAN x, STACK_ITEM_TYPE_BOOLEAN y => ret (Bool.eqb x y)
        | STACK_ITEM_TYPE_INTEGER x n s, STACK_ITEM_TYPE_INTEGER y m t =>
            if negb (n =? m) then ret false else if negb (Bool.eqb s t) then ret false else lift (equal_blocks x y n)
        | STACK_ITEM_TYPE_BYTE_STRING x, STACK_ITEM_TYPE_BYTE_STRING y
        | STACK_ITEM_TYPE_BUFFER x, STACK_ITEM_TYPE_BUFFER y =>
            if negb (zlen x =? zlen y) then ret false else lift (equal_blocks x y (zlen x))
        | STACK_ITEM_TYPE_ARRAY x _, STACK_ITEM_TYPE_ARRAY y _
        | STACK_ITEM_TYPE_STRUCT x _, STACK_ITEM_TYPE_STRUCT y _ =>
            if negb (zlen x =? zlen y) then ret false else equal_items (equals fuel) x y
        | STACK_ITEM_TYPE_MAP x _, STACK_ITEM_TYPE_MAP y _ =>
            if negb (zlen x =? zlen y) then ret false else equal_entries (equals fuel) x y
        | STACK_ITEM_TYPE_POINTER x n, STACK_ITEM_TYPE_POINTER y m => ret ((x =? y) && (n =? m))
        | STACK_ITEM_TYPE_INTEROP_INTERFACE x, STACK_ITEM_TYPE_INTEROP_INTERFACE y => ret (x =? y)
        | _, _ => ret false
        end
  end.

(** Two items of a store without cycles are compared in this depth. *)
Definition stack_item_equals (p q : item_pointer) : St bool := fun s => equals (S (size (items s))) p q s.

Definition stack_item_map_get (p key : item_pointer) : St (option item_pointer) :=
  let! it := item_at p in
  match value it with
  | STACK_ITEM_TYPE_MAP entries _ => let! found := find_entry stack_item_equals entries key in ret (option_map snd found)
  | _ => ret None
  end.

(** ** Construction *)

Section Construction.
Context `{Allocator}.

(** An item that was given its data; without memory for either there is none. *)
Definition stack_item_alloc (data_size : option Z) (v : item_value) : St (option item_pointer) := fun s =>
  if negb (malloc_ok item_struct_size) then (Ok None, s)
  else if match data_size with Some n => negb (malloc_ok n) | None => false end then (Ok None, s)
  else (Ok (Some (next_item s)), mk_store (<[next_item s := mk_item 1 v]> (items s)) (Pos.succ (next_item s))).

Definition stack_item_create_any : St (option item_pointer) := stack_item_alloc None STACK_ITEM_TYPE_ANY.

Definition stack_item_create_boolean (b : bool) : St (option item_pointer) := stack_item_alloc None (STACK_ITEM_TYPE_BOOLEAN b).

Definition stack_item_create_integer (v : Z) : St (option item_pointer) :=
  if negb (malloc_ok item_struct_size) then ret None
  else if negb (malloc_ok 8) then ret None
  else
    let! abs_value := lift (absolute v) in
    let bytes := le_bytes 8 abs_value in
    stack_item_alloc (Some 8) (STACK_ITEM_TYPE_INTEGER bytes (trim_zeros bytes 8) (v <? 0)).

Definition stack_item_create_big_integer (bytes : option (list byte)) (length : Z) (is_negative : bool) : St (option item_pointer) :=
  match bytes with
  | None => ret None
  | Some bytes =>
      if length =? 0 then ret None
      else
        match memcpy_from bytes length with
        | Ok d => stack_item_alloc (Some length) (STACK_ITEM_TYPE_INTEGER d length is_negative)
        | _ => fault
        end
  end.

(** The bytes of a string or buffer: zeros for NULL. *)
Definition string_bytes (data : option (list byte)) (length : Z) : res (list byte) :=
  if 0 <? length then
    match data with Some d => memcpy_from d length | None => Ok (replicate (Z.to_nat length) Byte.x00) end
  else Ok [].

Definition stack_item_create_byte_string (data : option (list byte)) (length : Z) : St (option item_pointer) :=
  let! d := lift (string_bytes data length) in
  stack_item_alloc (if 0 <? length then Some length else None) (STACK_ITEM_TYPE_BYTE_STRING d).

Definition stack_item_create_buffer (data : option (list byte)) (length : Z) : St (option item_pointer) :=
  let! d := lift (string_bytes data length) in
  stack_item_alloc (if 0 <? length then Some length else None) (STACK_ITEM_TYPE_BUFFER d).

Definition initial (capacity default : Z) : Z := if capacity =? 0 then default else capacity.

Definition stack_item_create_array (initial_capacity : Z) : St (option item_pointer) :=
  let capacity := initial initial_capacity DEFAULT_ARRAY_CAPACITY in
  stack_item_alloc (Some (capacity * 8)) (STACK_ITEM_TYPE_ARRAY [] capacity).

Definition stack_item_create_struct (initial_capacity : Z) : St (option item_pointer) :=
  let capacity := initial initial_capacity DEFAULT_ARRAY_CAPACITY in
  stack_item_alloc (Some (capacity * 8)) (STACK_ITEM_TYPE_STRUCT [] capacity).

Definition stack_item_create_map (initial_capacity : Z) : St (option item_pointer) :=
  let capacity := initial initial_capacity DEFAULT_MAP_CAPACITY in
  stack_item_alloc (Some (capacity * map_entry_struct_size)) (STACK_ITEM_TYPE_MAP [] capacity).

Definition stack_item_create_pointer (ptr position : Z) : St (option item_pointer) := stack_item_alloc None (STACK_ITEM_TYPE_POINTER ptr position).

Definition stack_item_create_interop_interface (interface : Z) : St (option item_pointer) :=
  stack_item_alloc None (STACK_ITEM_TYPE_INTEROP_INTERFACE interface).

(** Room for one more of [count] entries of [entry_size] bytes; a size that wraps makes a block that is too small. *)
Definition make_capacity (count capacity entry_size : Z) : res Z :=
  if count <? capacity then Ok capacity
  else
    let new_capacity := wrap 64 (capacity * 2) in
    if negb (malloc_ok (wrap 64 (new_capacity * entry_size))) then Err NEOC_ERROR_OUT_OF_MEMORY
    else if wrap 64 (new_capacity * entry_size) <? (count + 1) * entry_size then Fault
    else Ok new_capacity.

Definition stack_item_array_add (array item : item_pointer) : St unit :=
  let! it := item_at array in
  let add (l : list item_pointer) (capacity : Z) (make : list item_pointer -> Z -> item_value) : St unit :=
    let! capacity := lift (make_capacity (zlen l) capacity 8) in
    do! stack_item_ref item in
    let! it := item_at array in
    set_item array (mk_item (ref_count it) (make (l ++ [item]) capacity)) in
  match value it with
  | STACK_ITEM_TYPE_ARRAY l capacity => add l capacity STACK_ITEM_TYPE_ARRAY
  | STACK_ITEM_TYPE_STRUCT l capacity => add l capacity STACK_ITEM_TYPE_STRUCT
  | _ => fail NEOC_ERROR_INVALID_TYPE
  end.

(** The old value is released in front of keeping the new one. *)
Definition stack_item_map_set (m key v : item_pointer) : St unit :=
  let! it := item_at m in
  match value it with
  | STACK_ITEM_TYPE_MAP entries capacity =>
      let! found := find_entry stack_item_equals entries key in
      match found with
      | Some (i, old) =>
          do! stack_item_unref old in
          do! stack_item_ref v in
          let! it := item_at m in
          match entries !! i with
          | None => fault
          | Some (k, _) => set_item m (mk_item (ref_count it) (STACK_ITEM_TYPE_MAP (<[i := (k, v)]> entries) capacity))
          end
      | None =>
          let! capacity := lift (make_capacity (zlen entries) capacity map_entry_struct_size) in
          do! stack_item_ref key in
          do! stack_item_ref v in
          let! it := item_at m in
          set_item m (mk_item (ref_count it) (STACK_ITEM_TYPE_MAP (entries ++ [(key, v)]) capacity))
      end
  | _ => fail NEOC_ERROR_INVALID_TYPE
  end.
End Construction.

Definition stack_item_type_name (type : Z) : list byte :=
  if type =? 0x00 then str "Any" else if type =? 0x10 then str "Pointer" else if type =? 0x20 then str "Boolean"
  else if type =? 0x21 then str "Integer" else if type =? 0x28 then str "ByteString" else if type =? 0x30 then str "Buffer"
  else if type =? 0x40 then str "Array" else if type =? 0x41 then str "Struct" else if type =? 0x48 then str "Map"
  else if type =? 0x60 then str "InteropInterface" else str "Unknown".

Definition stack_item_get_type (p : option item_pointer) : St Z :=
  match p with
  | None => ret 0x00
  | Some p =>
      let! it := item_at p in
      ret (match value it with
           | STACK_ITEM_TYPE_ANY => 0x00
           | STACK_ITEM_TYPE_POINTER _ _ => 0x10
           | STACK_ITEM_TYPE_BOOLEAN _ => 0x20
           | STACK_ITEM_TYPE_INTEGER _ _ _ => 0x21
           | STACK_ITEM_TYPE_BYTE_STRING _ => 0x28
           | STACK_ITEM_TYPE_BUFFER _ => 0x30
           | STACK_ITEM_TYPE_ARRAY _ _ => 0x40
           | STACK_ITEM_TYPE_STRUCT _ _ => 0x41
           | STACK_ITEM_TYPE_MAP _ _ => 0x48
           | STACK_ITEM_TYPE_INTEROP_INTERFACE _ => 0x60
           end)
  end.

(** ** Counting references *)

Definition occ (p : item_pointer) (l : list item_pointer) : Z := zlen (filter (fun q => q = p) l).

Lemma occ_app p l k : occ p (l ++ k) = occ p l + occ p k.
Proof. unfold occ. by rewrite filter_app, zlen_app. Qed.

Lemma occ_cons p q l : occ p (q :: l) = (if decide (q = p) then 1 else 0) + occ p l.
Proof. unfold occ. rewrite filter_cons. destruct (decide (q = p)); [rewrite zlen_cons|]; lia. Qed.

Lemma occ_range p l : 0 <= occ p l <= zlen l.
Proof. unfold occ, zlen. pose proof (length_filter (fun q => q = p) l). lia. Qed.

Lemma occ_elem p l : p ∈ l <-> 0 < occ p l.
Proof.
  induction l as [|q l IH]; [split; [by intros ?%elem_of_nil|done]|]. rewrite elem_of_cons, occ_cons. pose proof (occ_range p l).
  destruct (decide (q = p)); [split; [lia|by left]|]. rewrite IH. split; [intros [?|?]; [congruence|lia]|right; lia].
Qed.

#[global] Instance occ_proper p : Proper ((≡ₚ) ==> eq) (occ p).
Proof. intros l k E. unfold occ, zlen. by rewrite E. Qed.

#[global] Instance zlen_proper : Proper ((≡ₚ@{item_pointer}) ==> eq) zlen.
Proof. intros l k E. unfold zlen. by rewrite E. Qed.

(** The items an item counts for; those of a [hidden] item are given. *)
Definition kids (hidden : option (item_pointer * list item_pointer)) (p : item_pointer) (it : stack_item) : list item_pointer :=
  match hidden with
  | Some (q, l) => if decide (q = p) then l else children (value it)
  | None => children (value it)
  end.

(** All references between items. *)
Definition edges (hidden : option (item_pointer * list item_pointer)) (m : gmap item_pointer stack_item) : list item_pointer :=
  concat (map (fun x => kids hidden (fst x) (snd x)) (map_to_list m)).

Lemma edges_insert h p it m : m !! p = None -> edges h (<[p := it]> m) ≡ₚ kids h p it ++ edges h m.
Proof. intros E. unfold edges. rewrite (map_to_list_insert m p it E). done. Qed.

Lemma edges_lookup h p it m : m !! p = Some it -> edges h m ≡ₚ kids h p it ++ edges h (delete p m).
Proof. intros E. rewrite <- (edges_insert h p it (delete p m)) by apply lookup_delete_eq. by rewrite insert_delete_id. Qed.

Lemma edges_update h p it m : edges h (<[p := it]> m) ≡ₚ kids h p it ++ edges h (delete p m).
Proof. rewrite <- (insert_delete_eq m p it). apply edges_insert, lookup_delete_eq. Qed.

(** Items that are not hidden have the edges of their values. *)
Lemma edges_hide p l m : m !! p = None -> edges (Some (p, l)) m = edges None m.
Proof.
  intros E. unfold edges. f_equal. apply map_ext_in. intros [q it] Hin%list_elem_of_In%elem_of_map_to_list. cbn. destruct (decide (p = q)); [congruence|done].
Qed.

(** [refs] are the references from outside.  Every item counts the references to it, there is at least one, and only
    items are referred to. *)
Record counted (h : option (item_pointer * list item_pointer)) (refs : list item_pointer) (m : gmap item_pointer stack_item) : Prop := {
  counted_live p it : m !! p = Some it -> ref_count it = occ p (refs ++ edges h m) /\ 0 < ref_count it;
  counted_dead p : m !! p = None -> occ p (refs ++ edges h m) = 0;
  counted_bound : zlen (refs ++ edges h m) < 2 ^ 64
}.

Lemma counted_perm h refs refs' m : refs ≡ₚ refs' -> counted h refs m -> counted h refs' m.
Proof. intros E [H1 H2 H3]. split; [intros p it|intros p|]; rewrite <- E; eauto. Qed.

Lemma counted_in h refs m p : counted h refs m -> p ∈ refs ++ edges h m -> exists it, m !! p = Some it.
Proof.
  intros Hc Hp%occ_elem. destruct (m !! p) as [it|] eqn:E; [by exists it|]. rewrite (counted_dead _ _ _ Hc p E) in Hp. lia.
Qed.

(** The items change their counts only. *)
Definition same_values (m m' : gmap item_pointer stack_item) : Prop :=
  forall p it', m' !! p = Some it' -> exists it, m !! p = Some it /\ value it = value it'.

Lemma same_values_trans a b c : same_values a b -> same_values b c -> same_values a c.
Proof. intros H1 H2 p it (it2 & E2 & Ev)%H2. destruct (H1 p it2 E2) as (it1 & E1 & Ev1). exists it1. split; [done|congruence]. Qed.

Lemma kids_value h p it it' : value it = value it' -> kids h p it = kids h p it'.
Proof. intros E. unfold kids. by rewrite E. Qed.

(** One reference more, one less. *)
Lemma counted_set_count h refs refs' m p it n :
  m !! p = Some it -> counted h refs m -> n = occ p (refs' ++ edges h m) -> 0 < n -> zlen (refs' ++ edges h m) < 2 ^ 64 ->
  (forall q, q <> p -> occ q refs' = occ q refs) ->
  counted h refs' (<[p := mk_item n (value it)]> m).
Proof.
  intros Hp [H1 H2 H3] Hn Hpos Hb Ho.
  assert (edges h (<[p := mk_item n (value it)]> m) ≡ₚ edges h m) as E.
  { rewrite edges_update, (edges_lookup h p it m Hp). by rewrite (kids_value h p (mk_item n (value it)) it). }
  split.
  - intros q iq. rewrite E. destruct (decide (p = q)) as [<-|Hne].
    + rewrite lookup_insert_eq. intros [= <-]. done.
    + rewrite lookup_insert_ne by done. intros Hq. rewrite occ_app, Ho, <- occ_app by done. by apply H1.
  - intros q. destruct (decide (p = q)) as [<-|Hne]; [by rewrite lookup_insert_eq|]. rewrite lookup_insert_ne by done. intros Hq.
    rewrite E, occ_app, Ho, <- occ_app by done. by apply H2.
  - by rewrite E.
Qed.

Lemma counted_ref h refs m p it :
  counted h refs m -> m !! p = Some it -> zlen (refs ++ edges h m) + 1 < 2 ^ 64 ->
  counted h (p :: refs) (<[p := mk_item (wrap 64 (ref_count it + 1)) (value it)]> m).
Proof.
  intros Hc Hp Hb. destruct (counted_live _ _ _ Hc p it Hp) as [Er Hr]. pose proof (occ_range p (refs ++ edges h m)).
  apply (counted_set_count h refs); [done|done| |rewrite wrap_small; lia| |].
  - rewrite wrap_small by lia. cbn [app]. rewrite occ_cons, decide_True by done. lia.
  - cbn [app]. rewrite zlen_cons. lia.
  - intros q Hq. rewrite occ_cons, decide_False by done. done.
Qed.

(** References of [refs] are given to an item. *)
Lemma counted_give h refs qs m p it v :
  counted h (qs ++ refs) m -> m !! p = Some it -> children v ≡ₚ qs ++ kids h p it -> (forall q l, h = Some (q, l) -> q = p) ->
  counted None refs (<[p := mk_item (ref_count it) v]> m).
Proof.
  intros [H1 H2 H3] Hp Hv Hh.
  assert (refs ++ edges None (<[p := mk_item (ref_count it) v]> m) ≡ₚ (qs ++ refs) ++ edges h m) as E.
  { rewrite edges_update, (edges_lookup h p it m Hp). cbn [kids value]. rewrite Hv.
    assert (edges None (delete p m) = edges h (delete p m)) as ->.
    { destruct h as [[q l]|]; [|done]. rewrite (Hh q l eq_refl). symmetry. apply edges_hide, lookup_delete_eq. }
    rewrite !app_assoc. by rewrite (Permutation_app_comm refs qs). }
  split; [intros q iq|intros q|]; rewrite E; [| |done].
  - destruct (decide (p = q)) as [<-|Hne]; [rewrite lookup_insert_eq; intros [= <-]; exact (H1 p it Hp)|rewrite lookup_insert_ne by done; apply H1].
  - destruct (decide (p = q)) as [<-|Hne]; [by rewrite lookup_insert_eq|rewrite lookup_insert_ne by done; apply H2].
Qed.

(** ** Releasing *)

(** What releasing one reference does to a store of which [g] is a part that is not touched. *)
Definition releases (m : gmap item_pointer stack_item) (m' : gmap item_pointer stack_item) : Prop :=
  same_values m m' /\ (size m' <= size m)%nat.

Lemma releases_refl m : releases m m.
Proof. split; [intros p it E; by exists it|lia]. Qed.

Lemma releases_trans a b c : releases a b -> releases b c -> releases a c.
Proof. intros [H1 H2] [H3 H4]. split; [by eapply same_values_trans|lia]. Qed.

Lemma same_values_none m m' p : same_values m m' -> m !! p = None -> m' !! p = None.
Proof. intros Hs E. destruct (m' !! p) as [it|] eqn:E'; [|done]. destruct (Hs p it E') as (? & ? & _). congruence. Qed.

Lemma same_values_disjoint m m' g : same_values m m' -> m ##ₘ g -> m' ##ₘ g.
Proof.
  intros Hs Hd. apply map_disjoint_spec. intros p x y Hx Hy. destruct (Hs p x Hx) as (z & Hz & _). by eapply (proj1 (map_disjoint_spec m g) Hd).
Qed.

(** The list version of a releasing operation. *)
Lemma for_each_releases (f : item_pointer -> St unit) h refs n ps :
  (forall p R m g nx, counted h (p :: R) m -> (forall q l, h = Some (q, l) -> q ∈ R) -> m ##ₘ g -> (size m <= n)%nat ->
     exists m', f p (mk_store (m ∪ g) nx) = (Ok tt, mk_store (m' ∪ g) nx) /\ counted h R m' /\ releases m m') ->
  (forall q l, h = Some (q, l) -> q ∈ refs) ->
  forall m g nx, counted h (ps ++ refs) m -> m ##ₘ g -> (size m <= n)%nat ->
     exists m', for_each f ps (mk_store (m ∪ g) nx) = (Ok tt, mk_store (m' ∪ g) nx) /\ counted h refs m' /\ releases m m'.
Proof.
  intros Hf Hh. induction ps as [|p ps IH]; intros m g nx Hc Hd Hn; [exists m; split; [done|]; split; [done|apply releases_refl]|].
  cbn [for_each]. destruct (Hf p (ps ++ refs) m g nx) as (m1 & E1 & Hc1 & Hr1); [done| |done|done|].
  { intros q l E. apply elem_of_app. right. by eapply Hh. }
  destruct (IH m1 g nx) as (m2 & E2 & Hc2 & Hr2); [done|eapply same_values_disjoint; [apply Hr1|done]|destruct Hr1; lia|].
  exists m2. rewrite (bind_ok _ _ _ _ _ E1), E2. split; [done|]. split; [done|by eapply releases_trans].
Qed.

(** An item nobody refers to any more hands its references over. *)
Lemma counted_delete h p R m it :
  counted h (p :: R) m -> m !! p = Some it -> ref_count it = 1 -> (forall q l, h = Some (q, l) -> q ∈ R) ->
  counted h (children (value it) ++ R) (delete p m).
Proof.
  intros [H1 H2 H3] Hp Hone Hh. destruct (H1 p it Hp) as [Er _]. cbn [app] in Er. rewrite occ_cons, decide_True, Hone in Er by done.
  pose proof (occ_range p R). pose proof (occ_range p (edges h m)). rewrite occ_app in Er.
  assert (kids h p it = children (value it)) as Ek.
  { unfold kids. destruct h as [[q l]|]; [|done]. destruct (decide (q = p)) as [->|]; [|done]. pose proof (proj1 (occ_elem p R) (Hh p l eq_refl)). lia. }
  assert ((children (value it) ++ R) ++ edges h (delete p m) ≡ₚ R ++ edges h m) as E.
  { rewrite (edges_lookup h p it m Hp), Ek, !app_assoc. by rewrite (Permutation_app_comm R). }
  split; [intros q iq|intros q|]; rewrite E.
  - destruct (decide (p = q)) as [<-|Hne]; [by rewrite lookup_delete_eq|]. rewrite lookup_delete_ne by done. intros Hq.
    specialize (H1 q iq Hq). cbn [app] in H1. rewrite occ_cons, decide_False in H1 by done. by rewrite Z.add_0_l in H1.
  - destruct (decide (p = q)) as [<-|Hne]; [rewrite occ_app; lia|]. rewrite lookup_delete_ne by done. intros Hq.
    specialize (H2 q Hq). cbn [app] in H2. rewrite occ_cons, decide_False in H2 by done. by rewrite Z.add_0_l in H2.
  - cbn [app] in H3. rewrite zlen_cons in H3. lia.
Qed.

(** Releasing a reference that is counted never fails, whatever the items look like: the recursion ends, frees what is
    not referred to any more, once, and everything else counts right. *)
Lemma unref_releases h fuel : forall p R m g nx,
  counted h (p :: R) m -> (forall q l, h = Some (q, l) -> q ∈ R) -> m ##ₘ g -> (size m <= fuel)%nat ->
  exists m', unref fuel p (mk_store (m ∪ g) nx) = (Ok tt, mk_store (m' ∪ g) nx) /\ counted h R m' /\ releases m m'.
Proof.
  induction fuel as [|fuel IH]; intros p R m g nx Hc Hh Hd Hn;
    destruct (counted_in _ _ _ p Hc) as [it Hp]; try (cbn [app]; left).
  { rewrite (map_size_empty_inv m ltac:(lia)), lookup_empty in Hp. done. }
  destruct (counted_live _ _ _ Hc p it Hp) as [Er Hpos]. pose proof (occ_range p ((p :: R) ++ edges h m)). pose proof (counted_bound _ _ _ Hc).
  cbn [unref]. unfold item_at, set_item, bind at 1. cbn [items next_item]. rewrite (lookup_union_Some_l m g p it Hp).
  rewrite wrap_small by lia. unfold bind at 1. cbn [items next_item].
  destruct (Z.ltb_spec 0 (ref_count it - 1)) as [Hmore|Hlast].
  - exists (<[p := mk_item (ref_count it - 1) (value it)]> m). rewrite insert_union_l. split; [done|]. split.
    + apply (counted_set_count h (p :: R)); [done|done| |lia| |].
      * rewrite Er. cbn [app]. rewrite occ_cons, decide_True by done. lia.
      * cbn [app] in *. rewrite zlen_cons in *. lia.
      * intros q Hq. rewrite occ_cons, decide_False by done. done.
    + split; [|rewrite map_size_insert_Some by eauto; lia]. intros q iq. destruct (decide (p = q)) as [<-|Hne].
      * rewrite lookup_insert_eq. intros [= <-]. by exists it.
      * rewrite lookup_insert_ne by done. by exists iq.
  - assert (ref_count it = 1) as Hone by lia. pose proof (counted_delete h p R m it Hc Hp Hone Hh) as Hc'.
    assert (g !! p = None) as Hg by (by eapply map_disjoint_Some_l).
    assert (<[p := mk_item (ref_count it - 1) (value it)]> (m ∪ g) = delete p m ∪ <[p := mk_item (ref_count it - 1) (value it)]> g) as Es.
    { rewrite <- insert_union_r by apply lookup_delete_eq. apply map_eq. intros q. destruct (decide (p = q)) as [<-|Hne]; [by rewrite !lookup_insert_eq|].
      rewrite !lookup_insert_ne, !lookup_union, lookup_delete_ne by done. done. }
    rewrite Es. destruct (for_each_releases (unref fuel) h R fuel (children (value it)) ltac:(intros; by apply IH) Hh (delete p m) (<[p := mk_item (ref_count it - 1) (value it)]> g) nx)
      as (m' & E' & Hcm & Hr); [done| |rewrite map_size_delete_Some by eauto; lia|].
    { apply map_disjoint_insert_r. split; [apply lookup_delete_eq|]. by apply map_disjoint_delete_l. }
    assert (m' !! p = None) as Hm' by (eapply same_values_none; [apply Hr|apply lookup_delete_eq]).
    rewrite (bind_ok _ _ _ _ _ E'). unfold free_item. cbn [items next_item]. rewrite lookup_union_r, lookup_insert_eq by done.
    exists m'. rewrite delete_union, delete_insert_id, delete_id by done. split; [done|]. split; [done|]. destruct Hr as [Hv Hs]. split.
    + intros q iq (iq' & E & Ev)%Hv. exists iq'. split; [|done]. by apply lookup_delete_Some in E as [_ E].
    + rewrite map_size_delete_Some in Hs by eauto. lia.
Qed.

(** ** Stores without cycles *)

Definition child (m : gmap item_pointer stack_item) (p q : item_pointer) : Prop := exists it, m !! p = Some it /\ q ∈ children (value it).

Definition acyclic (m : gmap item_pointer stack_item) : Prop := forall p, ~ tc (child m) p p.

Lemma same_values_child m m' p q : same_values m m' -> child m' p q -> child m p q.
Proof. intros Hs (it & Hp & Hq). destruct (Hs p it Hp) as (it' & Hp' & Ev). exists it'. split; [done|by rewrite Ev]. Qed.

Lemma tc_mono {A} (R S : A -> A -> Prop) x y : (forall a b, R a b -> S a b) -> tc R x y -> tc S x y.
Proof. intros Hi. induction 1; [apply tc_once; auto|eapply tc_l; eauto]. Qed.

(** New edges from one item make a cycle only if there was a way back to it. *)
Lemma acyclic_add m m' a (L : list item_pointer) :
  (forall x y, child m' x y -> child m x y \/ x = a /\ y ∈ L) -> acyclic m -> (forall i, i ∈ L -> ~ rtc (child m) i a) -> acyclic m'.
Proof.
  intros Hc Ha Hl p Hp.
  assert (forall x y, tc (child m') x y -> tc (child m) x y \/ rtc (child m) x a /\ exists i, i ∈ L /\ rtc (child m) i y) as Hsplit.
  { intros x y. induction 1 as [x y Hxy|x y z Hxy Hyz IH].
    - destruct (Hc x y Hxy) as [?|[-> Hy]]; [left; by apply tc_once|right]. split; [done|]. by exists y.
    - destruct (Hc x y Hxy) as [Hxy'|[-> Hy]].
      + destruct IH as [IH|(H1 & H2)]; [left; by eapply tc_l|right]. split; [by eapply rtc_l|done].
      + right. split; [done|]. destruct IH as [IH|(_ & H2)]; [|done]. exists y. split; [done|by apply tc_rtc]. }
  destruct (Hsplit p p Hp) as [?|(H1 & i & Hi & H2)]; [by eapply Ha|]. apply (Hl i Hi). by etrans.
Qed.

Lemma acyclic_same m m' : same_values m m' -> acyclic m -> acyclic m'.
Proof. intros Hs Ha p Hp. apply (Ha p). eapply tc_mono; [|done]. intros x y. by apply same_values_child. Qed.

(** Distinct items are no more than the store has. *)
Lemma nodup_bound (V : list item_pointer) (m : gmap item_pointer stack_item) : NoDup V -> (forall x, x ∈ V -> is_Some (m !! x)) -> (length V <= size m)%nat.
Proof.
  intros Hn Hv. rewrite <- (size_list_to_set (C := gset item_pointer) V Hn), <- (size_dom (D := gset item_pointer)).
  apply subseteq_size. intros x Hx%elem_of_list_to_set. apply elem_of_dom. auto.
Qed.

(** What an item needs: the length of an integer lies in its block, containers fit their arrays. *)
Definition wf_value (v : item_value) : Prop :=
  match v with
  | STACK_ITEM_TYPE_INTEGER bytes n _ => 0 <= n <= zlen bytes
  | STACK_ITEM_TYPE_ARRAY l capacity | STACK_ITEM_TYPE_STRUCT l capacity => zlen l <= capacity /\ 1 <= capacity <= 2 ^ 58
  | STACK_ITEM_TYPE_MAP l capacity => zlen l <= capacity /\ 1 <= capacity <= 2 ^ 58
  | _ => True
  end.

Section Comparing.
Variable s : item_store.

Definition total (eq : item_pointer -> item_pointer -> St bool) (x y : item_pointer) : Prop := exists b, eq x y s = (Ok b, s).

Lemma equal_items_total eq : forall a b, (forall x y, x ∈ a -> y ∈ b -> total eq x y) -> exists r, equal_items eq a b s = (Ok r, s).
Proof.
  induction a as [|x a IH]; intros [|y b] He; [by exists true..|]. cbn [equal_items].
  destruct (He x y) as [r E]; [left..|]. rewrite (bind_ok _ _ _ _ _ E). destruct r; [|by exists false].
  apply IH. intros x' y' Hx Hy. apply He; by right.
Qed.

Lemma find_entry_total eq key : forall b, (forall e, e ∈ b -> total eq (fst e) key) ->
  exists r, find_entry eq b key s = (Ok r, s) /\ match r with Some (i, v) => exists k, b !! i = Some (k, v) | None => True end.
Proof.
  induction b as [|[k v] b IH]; intros He; [by exists None|]. cbn [find_entry].
  destruct (He (k, v)) as [r E]; [left|]. cbn [fst] in E. rewrite (bind_ok _ _ _ _ _ E). destruct r; [exists (Some (O, v)); split; [done|by exists k]|].
  destruct IH as (r & Er & Hr); [intros e He'; apply He; by right|]. rewrite (bind_ok _ _ _ _ _ Er).
  exists (option_map (fun e => (S (fst e), snd e)) r). split; [done|]. by destruct r as [[i w]|].
Qed.

Lemma equal_entries_total eq b : forall a,
  (forall e f, e ∈ a -> f ∈ b -> total eq (fst f) (fst e) /\ total eq (snd e) (snd f)) -> exists r, equal_entries eq a b s = (Ok r, s).
Proof.
  induction a as [|[k v] a IH]; intros He; [by exists true|]. cbn [equal_entries].
  destruct (find_entry_total eq k b) as (r & Er & Hr); [intros f Hf; apply (He (k, v) f); [left|done]|]. rewrite (bind_ok _ _ _ _ _ Er).
  destruct r as [[i v']|]; [|by exists false]. destruct Hr as [k' Hk]. destruct (He (k, v) (k', v')) as [_ [r E]]; [left|by eapply list_elem_of_lookup_2|].
  cbn [snd] in E. rewrite (bind_ok _ _ _ _ _ E). destruct r; [|by exists false]. apply IH. intros e f Hf. apply He. by right.
Qed.

Hypothesis Hacyclic : acyclic (items s).
Hypothesis Hwf : forall p it, items s !! p = Some it -> wf_value (value it).
Hypothesis Hclosed : forall p q, child (items s) p q -> is_Some (items s !! q).

(** [V] and [W] are the items above the two that are compared. *)
Definition above (V : list item_pointer) (p : item_pointer) : Prop :=
  NoDup V /\ (forall x, x ∈ V -> is_Some (items s !! x) /\ tc (child (items s)) x p).

Lemma above_child V p q : above V p -> is_Some (items s !! p) -> child (items s) p q -> above (p :: V) q.
Proof.
  intros [Hn Hv] Hp Hq. split.
  - apply NoDup_cons. split; [|done]. intros Hin. destruct (Hv p Hin) as [_ Hc]. by apply (Hacyclic p).
  - intros x [->|Hx]%elem_of_cons; [split; [done|by apply tc_once]|]. destruct (Hv x Hx) as [Hl Ht]. split; [done|]. by eapply tc_r.
Qed.

Lemma block_ok (x : list byte) n : 0 <= n <= zlen x -> exists d, buf_slice x 0 n = Some d.
Proof. intros Hn. destruct (buf_slice_some x 0 n) as (d & E & _); [lia..|]. by exists d. Qed.

Lemma equals_total fuel : forall p q V W, above V p -> above W q -> length V = length W -> is_Some (items s !! p) -> is_Some (items s !! q) ->
  (size (items s) < length V + fuel)%nat -> total (equals fuel) p q.
Proof.
  induction fuel as [|fuel IH]; intros p q V W HV HW Hlen [ip Hp] [iq Hq] Hf.
  { pose proof (nodup_bound V (items s) (proj1 HV) ltac:(intros x Hx; by apply HV)). lia. }
  unfold total. cbn [equals]. destruct (bool_decide (p = q)); [by exists true|].
  unfold item_at at 1, bind at 1. rewrite Hp. unfold item_at at 1, bind at 1. rewrite Hq.
  assert (forall x y, x ∈ children (value ip) -> y ∈ children (value iq) -> total (equals fuel) x y /\ total (equals fuel) y x) as Hrec.
  { intros x y Hx Hy. assert (child (items s) p x) as Cx by (by exists ip). assert (child (items s) q y) as Cy by (by exists iq).
    pose proof (above_child V p x HV ltac:(by exists ip) Cx). pose proof (above_child W q y HW ltac:(by exists iq) Cy).
    split; eapply IH; try done; cbn [length]; try lia; by eapply Hclosed. }
  pose proof (Hwf p ip Hp) as Wp. pose proof (Hwf q iq Hq) as Wq.
  assert (forall e (l : list (item_pointer * item_pointer)), e ∈ l -> fst e ∈ concat (map (fun e => [fst e; snd e]) l) /\ snd e ∈ concat (map (fun e : item_pointer * item_pointer => [fst e; snd e]) l)) as Hentry.
  { intros e l He. apply list_elem_of_In in He. split; apply list_elem_of_In, in_concat; exists [fst e; snd e]; (split; [exact (in_map (fun e => [fst e; snd e]) l e He)|cbn; auto]). }
  destruct (value ip), (value iq); try (by eexists); cbn [children] in Hrec; cbn [wf_value] in Wp, Wq.
  - destruct (Z.eqb_spec length length0) as [<-|]; [|by exists false]. cbn [negb]. destruct (negb _); [by exists false|].
    unfold equal_blocks. destruct (block_ok bytes length Wp) as [d ->], (block_ok bytes0 length Wq) as [d' ->]. by eexists.
  - destruct (Z.eqb_spec (zlen data) (zlen data0)) as [E|]; [|by exists false]. cbn [negb]. unfold equal_blocks. rewrite buf_slice_all, E, buf_slice_all. by eexists.
  - destruct (Z.eqb_spec (zlen data) (zlen data0)) as [E|]; [|by exists false]. cbn [negb]. unfold equal_blocks. rewrite buf_slice_all, E, buf_slice_all. by eexists.
  - destruct (negb _); [by exists false|]. apply equal_items_total. intros x y Hx Hy. exact (proj1 (Hrec x y Hx Hy)).
  - destruct (negb _); [by exists false|]. apply equal_items_total. intros x y Hx Hy. exact (proj1 (Hrec x y Hx Hy)).
  - destruct (negb _); [by exists false|]. apply equal_entries_total. intros e f He Hf'.
    destruct (Hentry e entries He) as [Ek Ev], (Hentry f entries0 Hf') as [Fk Fv]. split; [exact (proj2 (Hrec _ _ Ek Fk))|exact (proj1 (Hrec _ _ Ev Fv))].
Qed.

Lemma stack_item_equals_total p q : is_Some (items s !! p) -> is_Some (items s !! q) -> total stack_item_equals p q.
Proof.
  intros Hp Hq. apply (equals_total _ p q [] []); [split; [constructor|by intros x ?%elem_of_nil]..|done|done|done|cbn; lia].
Qed.
End Comparing.

(** ** Sessions *)

(** [refs] are the references the client holds: one for each creation and each [stack_item_ref], less those released. *)
Record store_ok (refs : list item_pointer) (s : item_store) : Prop := {
  ok_counted : counted None refs (items s);
  ok_fresh p : (next_item s <= p)%positive -> items s !! p = None;
  ok_wf p it : items s !! p = Some it -> wf_value (value it);
  ok_acyclic : acyclic (items s)
}.

Definition references (refs : list item_pointer) (s : item_store) : Z := zlen (refs ++ edges None (items s)).

Lemma ok_child refs s p q : store_ok refs s -> child (items s) p q -> is_Some (items s !! q).
Proof.
  intros Hok (it & Hp & Hq). destruct (counted_in _ _ _ q (ok_counted _ _ Hok)) as [iq Eq]; [|by eexists].
  apply elem_of_app. right. rewrite (edges_lookup None p it _ Hp). apply elem_of_app. by left.
Qed.

Lemma ok_live refs s p : store_ok refs s -> p ∈ refs -> is_Some (items s !! p).
Proof. intros Hok Hp. destruct (counted_in _ _ _ p (ok_counted _ _ Hok)) as [it E]; [apply elem_of_app; by left|by eexists]. Qed.

(** Changes of counts keep the rest. *)
Lemma ok_same refs refs' s m' :
  store_ok refs s -> same_values (items s) m' -> counted None refs' m' -> store_ok refs' (mk_store m' (next_item s)).
Proof.
  intros [Hc Hf Hw Ha] Hs Hc'. split; cbn [items next_item].
  - done.
  - intros p Hp. eapply same_values_none; [done|auto].
  - intros p it Hp. destruct (Hs p it Hp) as (it' & Hp' & <-). eauto.
  - by eapply acyclic_same.
Qed.

Lemma same_values_count m p it n : m !! p = Some it -> same_values m (<[p := mk_item n (value it)]> m).
Proof.
  intros Hp q iq. destruct (decide (p = q)) as [<-|Hne]; [rewrite lookup_insert_eq; intros [= <-]; by exists it|].
  rewrite lookup_insert_ne by done. by exists iq.
Qed.

Lemma edges_count h m p it n : m !! p = Some it -> edges h (<[p := mk_item n (value it)]> m) ≡ₚ edges h m.
Proof. intros Hp. rewrite edges_update, (edges_lookup h p it m Hp). by rewrite (kids_value h p (mk_item n (value it)) it). Qed.

(** One reference more. *)
Lemma ref_ok h refs m nx p it :
  counted h refs m -> m !! p = Some it -> zlen (refs ++ edges h m) + 1 < 2 ^ 64 ->
  exists m', stack_item_ref p (mk_store m nx) = (Ok tt, mk_store m' nx) /\ counted h (p :: refs) m' /\ same_values m m' /\ edges h m' ≡ₚ edges h m /\
    forall q, is_Some (m !! q) -> is_Some (m' !! q).
Proof.
  intros Hc Hp Hb. eexists. unfold stack_item_ref, item_at, bind at 1. cbn [items]. rewrite Hp. split; [reflexivity|].
  split; [by apply counted_ref|]. split; [by apply same_values_count|]. split; [by apply edges_count|].
  intros q Hq. destruct (decide (p = q)) as [<-|Hne]; [rewrite lookup_insert_eq; by eexists|by rewrite lookup_insert_ne].
Qed.

(** One reference less. *)
Lemma unref_ok h refs m nx p :
  counted h (p :: refs) m -> (forall q l, h = Some (q, l) -> q ∈ refs) ->
  exists m', stack_item_unref p (mk_store m nx) = (Ok tt, mk_store m' nx) /\ counted h refs m' /\ same_values m m'.
Proof.
  intros Hc Hh. destruct (unref_releases h (S (size m)) p refs m ∅ nx Hc Hh (map_disjoint_empty_r m) ltac:(lia)) as (m' & E & Hc' & Hr & _).
  exists m'. rewrite !(right_id_L ∅ _) in E. split; [exact E|done].
Qed.

(** References between items only disappear when references are released. *)
Lemma edges_same h m m' : same_values m m' -> zlen (edges h m') <= zlen (edges h m).
Proof.
  revert m. induction m' as [|p it m' Hp IH] using map_ind; intros m Hs; [rewrite (zlen_zero (edges h ∅)); [apply zlen_nonneg|done]|].
  destruct (Hs p it (lookup_insert_eq _ _ _)) as (it' & Hp' & Ev). rewrite edges_insert, (edges_lookup h p it' m Hp') by done.
  rewrite !zlen_app, (kids_value h p it it') by done. assert (same_values (delete p m) m') as Hs'.
  { intros q iq Hq. assert (p <> q) by congruence. destruct (Hs q iq) as (iq' & Hq' & Ev'); [by rewrite lookup_insert_ne|].
    exists iq'. by rewrite lookup_delete_ne. }
  specialize (IH _ Hs'). lia.
Qed.

Inductive stack_op :=
| OpAny
| OpBoolean (b : bool)
| OpInteger (v : Z)
| OpBigInteger (bytes : list byte) (is_negative : bool)
| OpByteString (data : list byte)
| OpBuffer (data : list byte)
| OpArray (capacity : Z)
| OpStruct (capacity : Z)
| OpMap (capacity : Z)
| OpPointer (ptr position : Z)
| OpInteropInterface (interface : Z)
| OpRef (p : item_pointer)
| OpUnref (p : item_pointer)
| OpArrayAdd (array item : item_pointer)
| OpMapSet (m key v : item_pointer).

Section Sessions.
Context `{Allocator}.

Definition exec_stack_op (op : stack_op) : St (option item_pointer) :=
  match op with
  | OpAny => stack_item_create_any
  | OpBoolean b => stack_item_create_boolean b
  | OpInteger v => stack_item_create_integer v
  | OpBigInteger bytes is_negative => stack_item_create_big_integer (Some bytes) (zlen bytes) is_negative
  | OpByteString data => stack_item_create_byte_string (Some data) (zlen data)
  | OpBuffer data => stack_item_create_buffer (Some data) (zlen data)
  | OpArray capacity => stack_item_create_array capacity
  | OpStruct capacity => stack_item_create_struct capacity
  | OpMap capacity => stack_item_create_map capacity
  | OpPointer ptr position => stack_item_create_pointer ptr position
  | OpInteropInterface interface => stack_item_create_interop_interface interface
  | OpRef p => do! stack_item_ref p in ret None
  | OpUnref p => do! stack_item_unref p in ret None
  | OpArrayAdd array item => do! stack_item_array_add array item in ret None
  | OpMapSet m key v => do! stack_item_map_set m key v in ret None
  end.

(** What a client may do: release what it holds, use items that are there, make no cycle, set members of maps to items it
    holds itself, and make integers other than INT64_MIN, which cannot be negated. *)
Definition allowed (refs : list item_pointer) (s : item_store) (op : stack_op) : Prop :=
  match op with
  | OpInteger v => - 2 ^ 63 < v < 2 ^ 63
  | OpArray capacity | OpStruct capacity | OpMap capacity => 0 <= capacity <= 2 ^ 58
  | OpRef p => is_Some (items s !! p)
  | OpUnref p => p ∈ refs
  | OpArrayAdd array item => is_Some (items s !! array) /\ is_Some (items s !! item) /\ ~ rtc (child (items s)) item array
  | OpMapSet m key v => m ∈ refs /\ key ∈ refs /\ v ∈ refs /\ ~ rtc (child (items s)) key m /\ ~ rtc (child (items s)) v m
  | _ => True
  end.

Fixpoint drop_ref (p : item_pointer) (refs : list item_pointer) : list item_pointer :=
  match refs with
  | [] => []
  | q :: refs => if bool_decide (q = p) then refs else q :: drop_ref p refs
  end.

Definition refs_after (refs : list item_pointer) (op : stack_op) (r : res (option item_pointer)) : list item_pointer :=
  match op with
  | OpRef p => p :: refs
  | OpUnref p => drop_ref p refs
  | _ => match r with Ok (Some p) => p :: refs | _ => refs end
  end.

Lemma drop_ref_perm p refs : p ∈ refs -> refs ≡ₚ p :: drop_ref p refs.
Proof.
  induction refs as [|q refs IH]; [by intros ?%elem_of_nil|]. cbn [drop_ref]. intros Hp. destruct (bool_decide_reflect (q = p)) as [->|Hne]; [done|].
  apply elem_of_cons in Hp as [?|Hp]; [congruence|]. rewrite (IH Hp) at 1. apply Permutation_swap.
Qed.

(** A step that does not fault keeps the store in order, and adds at most two references. *)
Definition step_safe (refs : list item_pointer) (s : item_store) (op : stack_op) : Prop :=
  exists r s', exec_stack_op op s = (r, s') /\ r <> Fault /\ store_ok (refs_after refs op r) s' /\
    references (refs_after refs op r) s' <= references refs s + 2.

Lemma alloc_safe refs s size v :
  store_ok refs s -> references refs s + 2 < 2 ^ 64 -> wf_value v -> children v = [] ->
  exists r s', stack_item_alloc size v s = (Ok r, s') /\ store_ok (match r with Some p => p :: refs | None => refs end) s' /\
    references (match r with Some p => p :: refs | None => refs end) s' <= references refs s + 2.
Proof.
  intros Hok Hb Hv Hk. unfold stack_item_alloc. destruct (negb _); [exists None, s; split_and!; [done|done|lia]|].
  destruct (match size with Some n => _ | None => _ end); [exists None, s; split_and!; [done|done|lia]|].
  eexists (Some _), _. split; [done|]. set (p := next_item s). pose proof (ok_fresh _ _ Hok p ltac:(unfold p; lia)) as Hp.
  destruct Hok as [[H1 H2 H3] Hf Hw Ha]. unfold references in *.
  assert (edges None (<[p := mk_item 1 v]> (items s)) ≡ₚ edges None (items s)) as E by (rewrite edges_insert by done; cbn [kids value]; by rewrite Hk).
  split; [|cbn [items]; rewrite E; cbn [app]; rewrite zlen_cons; lia].
  split; cbn [items next_item].
  - split; [intros q iq|intros q|]; rewrite E; cbn [app]; [rewrite occ_cons|rewrite occ_cons|rewrite zlen_cons; lia].
    + destruct (decide (p = q)) as [<-|Hne].
      * rewrite lookup_insert_eq. intros [= <-]. rewrite (H2 p Hp). done.
      * rewrite lookup_insert_ne by done. rewrite Z.add_0_l. apply H1.
    + destruct (decide (p = q)) as [<-|Hne]; [by rewrite lookup_insert_eq|]. rewrite lookup_insert_ne by done. rewrite Z.add_0_l. apply H2.
  - intros q Hq. rewrite lookup_insert_ne by (unfold p in *; lia). apply Hf. lia.
  - intros q iq. destruct (decide (p = q)) as [<-|Hne]; [rewrite lookup_insert_eq; by intros [= <-]|]. rewrite lookup_insert_ne by done. apply Hw.
  - eapply (acyclic_add (items s) _ p []); [|done|by intros i ?%elem_of_nil]. intros x y (it & Hx & Hy). left. destruct (decide (p = x)) as [<-|Hne].
    + rewrite lookup_insert_eq in Hx. injection Hx as <-. cbn [value] in Hy. rewrite Hk in Hy. by apply elem_of_nil in Hy.
    + rewrite lookup_insert_ne in Hx by done. by exists it.
Qed.

Lemma trim_zeros_range bytes n : (0 < n)%nat -> 1 <= trim_zeros bytes n <= Z.of_nat n.
Proof.
  induction n as [|n IH]; [lia|]. intros _. cbn [trim_zeros]. destruct ((0 <? Z.of_nat n) && _) eqn:E; [|lia]. bdestruct. specialize (IH ltac:(lia)). lia.
Qed.

Lemma string_bytes_all data : string_bytes (Some data) (zlen data) = Ok data.
Proof.
  unfold string_bytes. destruct (Z.ltb_spec 0 (zlen data)); [by apply memcpy_from_all|]. rewrite (zlen_zero data); [done|]. pose proof (zlen_nonneg data). lia.
Qed.

Lemma initial_ok capacity : 0 <= capacity <= 2 ^ 58 -> 0 <= initial capacity 16 /\ 1 <= initial capacity 16 <= 2 ^ 58.
Proof. intros Hc. unfold initial. destruct (Z.eqb_spec capacity 0); lia. Qed.

Lemma make_capacity_ok count capacity entry_size :
  0 <= count < 2 ^ 50 -> count <= capacity -> 1 <= capacity <= 2 ^ 58 -> 0 < entry_size <= 16 ->
  match make_capacity count capacity entry_size with
  | Ok c => count + 1 <= c /\ 1 <= c <= 2 ^ 58
  | Err _ => True
  | Fault => False
  end.
Proof.
  intros Hn Hc Hcap He. unfold make_capacity. destruct (Z.ltb_spec count capacity); [lia|].
  assert (capacity = count) as -> by lia. assert (0 <= count * 2 * entry_size <= count * 2 * 16) by nia. rewrite (wrap_small 64 (count * 2)), wrap_small by lia. destruct (negb _); [done|].
  destruct (Z.ltb_spec (count * 2 * entry_size) ((count + 1) * entry_size)); [nia|]. lia.
Qed.

Lemma item_at_ok p it s : items s !! p = Some it -> item_at p s = (Ok it, s).
Proof. intros E. unfold item_at. by rewrite E. Qed.

Lemma same_values_back m m' p it : same_values m m' -> is_Some (m' !! p) -> m !! p = Some it -> exists n, m' !! p = Some (mk_item n (value it)).
Proof.
  intros Hs [[n v] E] Hp. destruct (Hs p _ E) as (it' & E' & Ev). exists n. cbn in Ev. rewrite E. congruence.
Qed.

(** An item of a container that is given to it. *)
Lemma give_ok refs s m1 p n old v (qs L : list item_pointer) :
  store_ok refs s -> items s !! p = Some old -> same_values (items s) m1 -> m1 !! p = Some (mk_item n (value old)) ->
  counted None (qs ++ refs) m1 -> children v ≡ₚ qs ++ children (value old) -> wf_value v ->
  (forall q, q ∈ qs -> q ∈ L) -> (forall i, i ∈ L -> ~ rtc (child (items s)) i p) ->
  store_ok refs (mk_store (<[p := mk_item n v]> m1) (next_item s)).
Proof.
  intros Hok Hp Hs Hp1 Hc Hv Hw HL Hr. destruct (ok_same refs (qs ++ refs) s m1 Hok Hs Hc) as [_ Hf Hwf Ha]. cbn [items next_item] in *.
  split; cbn [items next_item].
  - apply (counted_give None refs qs m1 p (mk_item n (value old)) v); [done|done|done|done].
  - intros q Hq. rewrite lookup_insert_ne by (intros ->; by rewrite Hf in Hp1). by apply Hf.
  - intros q iq. destruct (decide (p = q)) as [<-|Hne]; [rewrite lookup_insert_eq; by intros [= <-]|]. rewrite lookup_insert_ne by done. apply Hwf.
  - eapply (acyclic_add (items s) _ p L); [|apply Hok|done]. intros x y (it & Hx & Hy). destruct (decide (p = x)) as [<-|Hne].
    + rewrite lookup_insert_eq in Hx. injection Hx as <-. cbn [value] in Hy. rewrite Hv in Hy. apply elem_of_app in Hy as [Hy|Hy]; [right; auto|left].
      by exists old.
    + rewrite lookup_insert_ne in Hx by done. left. eapply same_values_child; [done|]. by exists it.
Qed.

Lemma array_add_safe refs s array item :
  store_ok refs s -> references refs s + 2 < 2 ^ 50 -> allowed refs s (OpArrayAdd array item) -> step_safe refs s (OpArrayAdd array item).
Proof.
  intros Hok Hb ([ia Ha] & [ii Hi] & Hr). unfold step_safe. cbn [exec_stack_op refs_after]. unfold stack_item_array_add.
  rewrite bind_assoc, (bind_ok _ _ _ _ _ (item_at_ok _ _ _ Ha)).
  assert (zlen (children (value ia)) <= references refs s) as Hlen.
  { unfold references. rewrite (edges_lookup None array ia _ Ha). cbn [kids]. rewrite !zlen_app. pose proof (zlen_nonneg refs). pose proof (zlen_nonneg (edges None (delete array (items s)))). lia. }
  assert (forall l capacity make, children (value ia) = l -> (forall l c, children (make l c) = l) -> (forall l c, zlen l <= c /\ 1 <= c <= 2 ^ 58 -> wf_value (make l c)) ->
    zlen l <= capacity /\ 1 <= capacity <= 2 ^ 58 ->
    exists r s', (do! (let! capacity := lift (make_capacity (zlen l) capacity 8) in
        do! stack_item_ref item in let! it := item_at array in set_item array (mk_item (ref_count it) (make (l ++ [item]) capacity))) in ret (@None item_pointer)) s = (r, s') /\
      r <> Fault /\ store_ok (match r with Ok (Some p) => p :: refs | _ => refs end) s' /\
      references (match r with Ok (Some p) => p :: refs | _ => refs end) s' <= references refs s + 2) as Hadd.
  { intros l capacity make El Hmk Hmw Hcap. rewrite El in Hlen. pose proof (zlen_nonneg l).
    pose proof (make_capacity_ok (zlen l) capacity 8 ltac:(lia) ltac:(lia) ltac:(lia) ltac:(lia)) as Hm.
    unfold bind at 1 2, lift at 1. destruct (make_capacity (zlen l) capacity 8) as [c|e|]; [|eexists (Err e), s; split_and!; [done|done|done|lia]|done].
    destruct (ref_ok None refs (items s) (next_item s) item ii (ok_counted _ _ Hok) Hi) as (m1 & E1 & Hc1 & Hs1 & He1 & Hl1); [unfold references in Hb; lia|].
    destruct s as [m nx]. cbn [items next_item] in *. unfold bind at 1. rewrite E1.
    destruct (same_values_back m m1 array ia Hs1) as [n En]; [apply Hl1; by exists ia|done|].
    unfold item_at, bind at 1. cbn [items]. rewrite En. cbn [ref_count].
    eexists _, _. split; [reflexivity|]. split; [done|]. cbn [items next_item]. split.
    - apply (give_ok refs (mk_store m nx) m1 array n ia (make (l ++ [item]) c) [item] [item]); try done.
      + rewrite Hmk, El. cbn [app]. by rewrite Permutation_app_comm.
      + apply Hmw. rewrite zlen_app. change (zlen [item]) with 1. lia.
      + intros q ->%list_elem_of_singleton. done.
    - unfold references. cbn [items]. rewrite edges_update. cbn [kids value]. rewrite Hmk, !zlen_app. change (zlen [item]) with 1.
      assert (zlen (edges None m1) = zlen l + zlen (edges None (delete array m1))) as Hz.
      { rewrite (edges_lookup None array _ m1 En). cbn [kids value]. by rewrite El, zlen_app. }
      rewrite He1 in Hz. lia. }
  pose proof (ok_wf _ _ Hok array ia Ha) as Hw. destruct (value ia); try (eexists (Err NEOC_ERROR_INVALID_TYPE), s; split_and!; [done|done|done|lia]).
  - by apply (Hadd items0 capacity STACK_ITEM_TYPE_ARRAY).
  - by apply (Hadd items0 capacity STACK_ITEM_TYPE_STRUCT).
Qed.

Lemma edges_give h qs m p it n v :
  m !! p = Some it -> children v ≡ₚ qs ++ kids h p it -> (forall q l, h = Some (q, l) -> q = p) ->
  edges None (<[p := mk_item n v]> m) ≡ₚ qs ++ edges h m.
Proof.
  intros Hp Hv Hh. rewrite edges_update, (edges_lookup h p it m Hp). cbn [kids value]. rewrite Hv, <- app_assoc.
  assert (edges None (delete p m) = edges h (delete p m)) as ->; [|done].
  destruct h as [[q l]|]; [|done]. rewrite (Hh q l eq_refl). symmetry. apply edges_hide, lookup_delete_eq.
Qed.

(** References of an item are set apart. *)
Lemma counted_hide refs qs l m p it :
  counted None refs m -> m !! p = Some it -> children (value it) ≡ₚ qs ++ l ->
  counted (Some (p, l)) (qs ++ refs) m /\ zlen (edges None m) = zlen qs + zlen (edges (Some (p, l)) m).
Proof.
  intros [H1 H2 H3] Hp Hl.
  assert (edges None m ≡ₚ qs ++ edges (Some (p, l)) m) as E.
  { rewrite (edges_lookup None p it m Hp), (edges_lookup (Some (p, l)) p it m Hp). cbn [kids]. rewrite decide_True by done.
    rewrite edges_hide by apply lookup_delete_eq. by rewrite Hl, <- app_assoc. }
  split; [|by rewrite E, zlen_app].
  assert ((qs ++ refs) ++ edges (Some (p, l)) m ≡ₚ refs ++ edges None m) as E' by (rewrite E, !app_assoc; by rewrite (Permutation_app_comm qs refs)).
  split; [intros q iq|intros q|]; rewrite E'; auto.
Qed.

Lemma children_entries (pre post : list (item_pointer * item_pointer)) k v c :
  children (STACK_ITEM_TYPE_MAP (pre ++ (k, v) :: post) c) ≡ₚ
  v :: (children (STACK_ITEM_TYPE_MAP pre c) ++ k :: children (STACK_ITEM_TYPE_MAP post c)).
Proof.
  cbn [children]. rewrite map_app, concat_app. cbn [map concat fst snd app].
  change (?a ++ k :: v :: ?b) with (a ++ [k] ++ v :: b). rewrite app_assoc, <- Permutation_middle, <- app_assoc. done.
Qed.

(** The old value is released, the new one kept: nothing fails although the map still points to the old value
    meanwhile. *)
Lemma map_replace_safe refs s mp it entries capacity i k old v :
  store_ok refs s -> references refs s + 2 < 2 ^ 50 -> mp ∈ refs -> v ∈ refs -> ~ rtc (child (items s)) v mp ->
  items s !! mp = Some it -> value it = STACK_ITEM_TYPE_MAP entries capacity -> entries !! i = Some (k, old) ->
  exists s', (do! stack_item_unref old in do! stack_item_ref v in let! it := item_at mp in
      match entries !! i with
      | None => fault
      | Some (k, _) => set_item mp (mk_item (ref_count it) (STACK_ITEM_TYPE_MAP (<[i := (k, v)]> entries) capacity))
      end) s = (Ok tt, s') /\ store_ok refs s' /\ references refs s' <= references refs s + 2.
Proof.
  intros Hok Hb Hm Hv Hr Hmp Ev Hi. destruct s as [m nx]. cbn [items next_item] in *.
  destruct (list_elem_of_split_length _ _ _ Hi) as (pre & post & -> & Hlen).
  set (l := children (STACK_ITEM_TYPE_MAP pre capacity) ++ k :: children (STACK_ITEM_TYPE_MAP post capacity)).
  set (newv := STACK_ITEM_TYPE_MAP (pre ++ (k, v) :: post) capacity).
  assert (children newv ≡ₚ [v] ++ l) as Hnew by apply children_entries.
  assert (children (value it) ≡ₚ [old] ++ l) as Hold by (rewrite Ev; apply children_entries).
  destruct (counted_hide refs [old] l m mp it (ok_counted _ _ Hok) Hmp Hold) as [Hc0 Hz0].
  assert (forall q l', Some (mp, l) = Some (q, l') -> q = mp) as Hh by (by intros q l' [= -> _]).
  destruct (unref_ok (Some (mp, l)) refs m nx old Hc0) as (m1 & E1 & Hc1 & Hs1); [by intros q l' [= <- _]|].
  destruct (counted_in _ _ _ v Hc1) as [iv Hiv]; [apply elem_of_app; by left|].
  pose proof (edges_same (Some (mp, l)) m m1 Hs1) as Hz1. unfold references in *. cbn [items] in Hb. rewrite zlen_app in Hb. change (zlen [old]) with 1 in Hz0.
  destruct (ref_ok (Some (mp, l)) refs m1 nx v iv Hc1 Hiv) as (m2 & E2 & Hc2 & Hs2 & He2 & _); [rewrite zlen_app; lia|].
  pose proof (same_values_trans _ _ _ Hs1 Hs2) as Hs.
  destruct (same_values_back m m2 mp it Hs) as [n En]; [|done|].
  { destruct (counted_in _ _ _ mp Hc2) as [im Him]; [apply elem_of_app; left; by right|by exists im]. }
  rewrite (bind_ok _ _ _ _ _ E1), (bind_ok _ _ _ _ _ E2). erewrite bind_ok by (by apply item_at_ok). rewrite Hi. cbn [ref_count].
  assert (<[i := (k, v)]> (pre ++ (k, old) :: post) = pre ++ (k, v) :: post) as -> by (rewrite Hlen, insert_app_r_alt by lia; by rewrite Nat.sub_diag).
  fold newv. eexists. split; [reflexivity|]. cbn [items next_item].
  assert (counted None refs (<[mp := mk_item n newv]> m2)) as Hc3.
  { apply (counted_give (Some (mp, l)) refs [v] m2 mp (mk_item n (value it)) newv); [done|done| |done]. cbn [kids]. by rewrite decide_True. }
  destruct (ok_same refs refs (mk_store m nx) m Hok ltac:(intros p x E; by exists x) (ok_counted _ _ Hok)) as [_ Hf Hw Ha]. cbn [items next_item] in *.
  split.
  - split; cbn [items next_item].
    + done.
    + intros q Hq. rewrite lookup_insert_ne by (intros <-; by rewrite Hf in Hmp). eapply same_values_none; [done|by apply Hf].
    + intros q iq. destruct (decide (mp = q)) as [<-|Hne].
      * rewrite lookup_insert_eq. intros [= <-]. pose proof (Hw mp it Hmp) as Hwm. rewrite Ev in Hwm. cbn [value newv wf_value] in *. rewrite !zlen_app, !zlen_cons in *. done.
      * rewrite lookup_insert_ne by done. intros Hq. destruct (Hs q iq Hq) as (iq' & Hq' & <-). eauto.
    + eapply (acyclic_add m _ mp [v]); [|done|by intros x ->%list_elem_of_singleton]. intros x y (ix & Hx & Hy). destruct (decide (mp = x)) as [<-|Hne].
      * rewrite lookup_insert_eq in Hx. injection Hx as <-. cbn [value] in Hy. rewrite Hnew in Hy. apply elem_of_app in Hy as [Hy|Hy]; [by right|left].
        exists it. split; [done|]. rewrite Hold. apply elem_of_app. by right.
      * rewrite lookup_insert_ne in Hx by done. left. eapply same_values_child; [done|]. by exists ix.
  - rewrite !zlen_app, (edges_give (Some (mp, l)) [v] m2 mp (mk_item n (value it)) n newv), zlen_app, He2; [change (zlen [v]) with 1; lia|done| |done].
    cbn [kids]. by rewrite decide_True.
Qed.

Lemma map_set_safe refs s m key v :
  store_ok refs s -> references refs s + 2 < 2 ^ 50 -> allowed refs s (OpMapSet m key v) -> step_safe refs s (OpMapSet m key v).
Proof.
  intros Hok Hb (Hm & Hk & Hv & Hrk & Hrv). unfold step_safe. cbn [exec_stack_op refs_after]. unfold stack_item_map_set.
  destruct (ok_live _ _ m Hok Hm) as [im Him]. rewrite bind_assoc, (bind_ok _ _ _ _ _ (item_at_ok _ _ _ Him)).
  pose proof (ok_wf _ _ Hok m im Him) as Hw. destruct (value im) as [| | | | | | |entries capacity| |] eqn:Ev;
    try (eexists (Err NEOC_ERROR_INVALID_TYPE), s; split_and!; [done|done|done|lia]). cbn [wf_value] in Hw.
  destruct (find_entry_total s stack_item_equals key entries) as (r & Er & Hr).
  { intros e He. apply (stack_item_equals_total s (ok_acyclic _ _ Hok) (ok_wf _ _ Hok) (fun p q => ok_child refs s p q Hok)); [|by eapply ok_live].
    apply (ok_child refs s m); [done|]. exists im. split; [done|]. rewrite Ev. apply list_elem_of_In, in_concat. exists [fst e; snd e].
    split; [apply (in_map (fun e => [fst e; snd e])), list_elem_of_In, He|by left]. }
  rewrite bind_assoc, (bind_ok _ _ _ _ _ Er). destruct r as [[i old]|].
  - destruct Hr as [k Hi]. destruct (map_replace_safe refs s m im entries capacity i k old v) as (s' & E & Hok' & Hb'); try done.
    rewrite (bind_ok _ _ _ _ _ E). by eexists (Ok None), s'.
  - assert (zlen (children (value im)) <= references refs s) as Hlen.
    { unfold references. rewrite (edges_lookup None m im _ Him). cbn [kids]. rewrite !zlen_app. pose proof (zlen_nonneg refs). pose proof (zlen_nonneg (edges None (delete m (items s)))). lia. }
    assert (zlen (children (STACK_ITEM_TYPE_MAP entries capacity)) = 2 * zlen entries) as H2.
    { cbn [children]. clear. induction entries as [|e l IH]; [done|]. cbn [map concat]. rewrite zlen_app, IH, (zlen_cons e l). change (zlen [fst e; snd e]) with 2. lia. }
    rewrite Ev, H2 in Hlen. pose proof (zlen_nonneg entries).
    pose proof (make_capacity_ok (zlen entries) capacity map_entry_struct_size ltac:(lia) ltac:(lia) ltac:(lia) ltac:(unfold map_entry_struct_size; lia)) as Hmc.
    rewrite bind_assoc. unfold lift at 1, bind at 1. destruct (make_capacity (zlen entries) capacity map_entry_struct_size) as [c|e|]; [|eexists (Err e), s; split_and!; [done|done|done|lia]|done].
    destruct (ok_live _ _ key Hok Hk) as [ik Hik]. unfold references in Hb.
    destruct (ref_ok None refs (items s) (next_item s) key ik (ok_counted _ _ Hok) Hik) as (m1 & E1 & Hc1 & Hs1 & He1 & Hl1); [lia|].
    destruct (Hl1 v (ok_live _ _ v Hok Hv)) as [iv Hiv].
    destruct (ref_ok None (key :: refs) m1 (next_item s) v iv Hc1 Hiv) as (m2 & E2 & Hc2 & Hs2 & He2 & Hl2); [cbn [app]; rewrite zlen_cons, zlen_app, He1; rewrite zlen_app in Hb; lia|].
    pose proof (same_values_trans _ _ _ Hs1 Hs2) as Hs. destruct (same_values_back _ m2 m im Hs) as [n En]; [by apply Hl2, Hl1; exists im|done|].
    destruct s as [ms nx]. cbn [items next_item] in *.
    rewrite bind_assoc, (bind_ok _ _ _ _ _ E1), bind_assoc, (bind_ok _ _ _ _ _ E2), bind_assoc. erewrite bind_ok by (by apply item_at_ok). cbn [ref_count].
    set (newv := STACK_ITEM_TYPE_MAP (entries ++ [(key, v)]) c).
    assert (children newv ≡ₚ [v; key] ++ children (value im)) as Hnew.
    { unfold newv. rewrite children_entries, Ev. cbn [children map concat app]. by rewrite Permutation_app_comm. }
    eexists (Ok None), _. split; [reflexivity|]. split; [done|]. cbn [items next_item]. split.
    + apply (give_ok refs (mk_store ms nx) m2 m n im newv [v; key] [v; key]); try done.
      * cbn [newv wf_value]. rewrite zlen_app. change (zlen [(key, v)]) with 1. lia.
      * cbn [items]. intros i [->|[->|?%elem_of_nil]%elem_of_cons]%elem_of_cons; done.
    + unfold references. cbn [items]. rewrite !zlen_app, (edges_give None [v; key] m2 m (mk_item n (value im)) n newv), zlen_app, He2, He1 by done.
      change (zlen [v; key]) with 2. lia.
Qed.

(** Every call that is allowed goes through without a fault, whatever the memory, and keeps the counts. *)
Lemma stack_op_safe refs s op :
  store_ok refs s -> references refs s + 2 < 2 ^ 50 -> allowed refs s op -> step_safe refs s op.
Proof.
  intros Hok Hb Ha.
  assert (forall size v, wf_value v -> children v = [] -> (forall r, refs_after refs op (Ok r) = match r with Some p => p :: refs | None => refs end) ->
    exec_stack_op op s = stack_item_alloc size v s -> step_safe refs s op) as Hnew.
  { intros size v Hw Hk Hafter E. destruct (alloc_safe refs s size v Hok ltac:(lia) Hw Hk) as (r & s' & Er & Hok' & Hb'). exists (Ok r), s'. rewrite E, Hafter. done. }
  assert (Hnothing : (forall r, refs_after refs op (Ok r) = match r with Some p => p :: refs | None => refs end) -> exec_stack_op op s = (Ok None, s) -> step_safe refs s op).
  { intros Hafter E. exists (Ok None), s. rewrite E, Hafter. split_and!; [done|done|done|lia]. }
  destruct op as [|b|v|bytes neg|data|data|capacity|capacity|capacity|ptr position|interface|p|p|array item|m key v]; cbn [allowed] in Ha.
  - by apply (Hnew None STACK_ITEM_TYPE_ANY).
  - by apply (Hnew None (STACK_ITEM_TYPE_BOOLEAN b)).
  - cbn [exec_stack_op]. unfold stack_item_create_integer in *. destruct (malloc_ok item_struct_size) eqn:E1; [|apply Hnothing; [done|cbn [exec_stack_op]; unfold stack_item_create_integer; by rewrite E1]].
    destruct (malloc_ok 8) eqn:E2; [|apply Hnothing; [done|cbn [exec_stack_op]; unfold stack_item_create_integer; by rewrite E1, E2]].
    assert (exists a, absolute v = Ok a) as [a Ea] by (unfold absolute; destruct (Z.ltb_spec v 0); [|by eexists]; cmps; by eexists).
    apply (Hnew (Some 8) (STACK_ITEM_TYPE_INTEGER (le_bytes 8 a) (trim_zeros (le_bytes 8 a) 8) (v <? 0))); [|done|done|].
    + cbn [wf_value]. pose proof (trim_zeros_range (le_bytes 8 a) 8). unfold zlen. rewrite length_le_bytes. lia.
    + cbn [exec_stack_op]. unfold stack_item_create_integer. rewrite E1, E2, Ea. done.
  - destruct (Z.eqb_spec (zlen bytes) 0) as [E|E].
    + apply Hnothing; [done|]. cbn [exec_stack_op]. unfold stack_item_create_big_integer. by rewrite E.
    + apply (Hnew (Some (zlen bytes)) (STACK_ITEM_TYPE_INTEGER bytes (zlen bytes) neg)); [pose proof (zlen_nonneg bytes); cbn; lia|done|done|].
      cbn [exec_stack_op]. unfold stack_item_create_big_integer. rewrite memcpy_from_all by done. by cmps.
  - apply (Hnew (if 0 <? zlen data then Some (zlen data) else None) (STACK_ITEM_TYPE_BYTE_STRING data)); [done|done|done|].
    cbn [exec_stack_op]. unfold stack_item_create_byte_string. by rewrite string_bytes_all.
  - apply (Hnew (if 0 <? zlen data then Some (zlen data) else None) (STACK_ITEM_TYPE_BUFFER data)); [done|done|done|].
    cbn [exec_stack_op]. unfold stack_item_create_buffer. by rewrite string_bytes_all.
  - eapply (Hnew _ (STACK_ITEM_TYPE_ARRAY [] (initial capacity DEFAULT_ARRAY_CAPACITY))); [|done|done|reflexivity]. by apply initial_ok.
  - eapply (Hnew _ (STACK_ITEM_TYPE_STRUCT [] (initial capacity DEFAULT_ARRAY_CAPACITY))); [|done|done|reflexivity]. by apply initial_ok.
  - eapply (Hnew _ (STACK_ITEM_TYPE_MAP [] (initial capacity DEFAULT_MAP_CAPACITY))); [|done|done|reflexivity]. by apply initial_ok.
  - by apply (Hnew None (STACK_ITEM_TYPE_POINTER ptr position)).
  - by apply (Hnew None (STACK_ITEM_TYPE_INTEROP_INTERFACE interface)).
  - destruct Ha as [it Hp]. destruct s as [ms nx]. unfold references in *. cbn [items] in *.
    destruct (ref_ok None refs ms nx p it (ok_counted _ _ Hok) Hp) as (m1 & E1 & Hc1 & Hs1 & He1 & _); [lia|].
    exists (Ok None), (mk_store m1 nx). cbn [exec_stack_op refs_after]. rewrite (bind_ok _ _ _ _ _ E1). split_and!; [done|done|by eapply (ok_same refs (p :: refs) (mk_store ms nx))|].
    unfold references. cbn [items app]. rewrite zlen_cons, !zlen_app, He1. lia.
  - destruct s as [ms nx]. pose proof (drop_ref_perm p refs Ha) as Hperm. unfold references in *. cbn [items] in *.
    destruct (unref_ok None (drop_ref p refs) ms nx p) as (m1 & E1 & Hc1 & Hs1); [by eapply counted_perm; [|apply Hok]|done|].
    exists (Ok None), (mk_store m1 nx). cbn [exec_stack_op refs_after]. rewrite (bind_ok _ _ _ _ _ E1). split_and!; [done|done|by eapply (ok_same refs _ (mk_store ms nx))|].
    unfold references. cbn [items]. pose proof (edges_same None ms m1 Hs1). rewrite Hperm at 2. cbn [app]. rewrite zlen_cons, !zlen_app. lia.
  - by apply array_add_safe.
  - by apply map_set_safe.
Qed.

(** The histories of a client, one allowed call after the other. *)
Inductive session : list item_pointer -> item_store -> list stack_op -> list item_pointer -> item_store -> Prop :=
| session_nil refs s : session refs s [] refs s
| session_cons refs s op r s1 ops refs' s' :
    allowed refs s op -> exec_stack_op op s = (r, s1) -> session (refs_after refs op r) s1 ops refs' s' -> session refs s (op :: ops) refs' s'.

Definition empty_store : item_store := mk_store ∅ 1.

Lemma empty_store_ok : store_ok [] empty_store.
Proof.
  split; cbn [empty_store items].
  - split; [by intros p it; rewrite lookup_empty|done|done].
  - intros p _. apply lookup_empty.
  - intros p it. by rewrite lookup_empty.
  - intros p Hp. assert (forall x y, tc (child ∅) x y -> False) as Hno; [|by eapply Hno]. intros x y. induction 1 as [x y (it & E & _)|x y z (it & E & _) _ _]; by rewrite lookup_empty in E.
Qed.

Lemma session_ok refs s ops refs' s' :
  session refs s ops refs' s' -> store_ok refs s -> references refs s + 2 * zlen ops < 2 ^ 50 ->
  store_ok refs' s' /\ references refs' s' <= references refs s + 2 * zlen ops.
Proof.
  induction 1 as [refs s|refs s op r s1 ops refs' s' Ha E _ IH]; intros Hok Hb; [split; [done|change (zlen []) with 0; lia]|].
  rewrite zlen_cons in *. pose proof (zlen_nonneg ops). destruct (stack_op_safe refs s op Hok ltac:(lia) Ha) as (r' & s1' & E' & _ & Hok' & Hb').
  rewrite E in E'. injection E' as <- <-. destruct IH as [H1 H2]; [done|lia|]. split; [done|lia].
Qed.

(** Without references from outside and without cycles there are no items: a chain upwards would never end. *)
Lemma no_references_no_items m : counted None [] m -> acyclic m -> m = ∅.
Proof.
  intros Hc Ha. destruct (decide (m = ∅)) as [|Hne]; [done|exfalso]. apply map_choose in Hne as (p0 & i0 & Hp0).
  assert (forall n, exists V p, length V = n /\ NoDup V /\ is_Some (m !! p) /\ (forall x, x ∈ V -> is_Some (m !! x) /\ tc (child m) p x)) as Hchain.
  { induction n as [|n (V & p & Hl & Hn & [ip Hp] & HV)]; [exists [], p0; split_and!; [done|constructor|by exists i0|by intros x ?%elem_of_nil]|].
    destruct (counted_live _ _ _ Hc p ip Hp) as [Er Hpos]. rewrite Er in Hpos. apply occ_elem in Hpos. cbn [app] in Hpos.
    unfold edges in Hpos. apply list_elem_of_In, in_concat in Hpos as (l & Hl1 & Hpl). apply in_map_iff in Hl1 as ([q iq] & <- & Hq).
    apply list_elem_of_In, elem_of_map_to_list in Hq. cbn [fst snd kids] in Hpl. assert (child m q p) as Hqp by (exists iq; split; [done|by apply list_elem_of_In]).
    exists (p :: V), q. split_and!; [cbn; lia| |by exists iq|].
    - apply NoDup_cons. split; [|done]. intros Hin. destruct (HV p Hin) as [_ Ht]. by apply (Ha p).
    - intros x [->|Hx]%elem_of_cons; [split; [by exists ip|by apply tc_once]|]. destruct (HV x Hx) as [Hlx Htx]. split; [done|by eapply tc_l]. }
  destruct (Hchain (S (size m))) as (V & p & Hl & Hn & _ & HV). pose proof (nodup_bound V m Hn ltac:(intros x Hx; by apply HV)). lia.
Qed.

(** C36.  In every history of a client that releases only what it holds, uses items that are there, makes no cycle, makes
    no integer item of INT64_MIN and passes to [stack_item_map_set] only items to which it holds a reference of its own
    ([allowed]), every allowed call goes through without a fault, every item counts its references, and when the client
    has released everything no item is left; for any memory.  Without the last condition setting a key of a map to the
    value that only the map holds uses it after it was freed ([map_set_same_value_faults]). *)
Theorem stack_items_counted ops refs s :
  session [] empty_store ops refs s -> zlen ops <= 2 ^ 48 ->
  (forall p it, items s !! p = Some it -> ref_count it = occ p (refs ++ edges None (items s)) /\ 0 < ref_count it) /\
  (forall p, p ∈ refs ++ edges None (items s) -> is_Some (items s !! p)) /\
  (forall op, allowed refs s op -> exists r s', exec_stack_op op s = (r, s') /\ r <> Fault) /\
  (refs = [] -> items s = ∅).
Proof.
  intros Hs Hn. destruct (session_ok [] empty_store ops refs s Hs empty_store_ok) as [Hok Hb]; [change (references [] empty_store) with 0; lia|].
  change (references [] empty_store) with 0 in Hb. split_and!.
  - apply Hok.
  - intros p Hp. destruct (counted_in _ _ _ p (ok_counted _ _ Hok) Hp) as [it E]. by exists it.
  - intros op Ha. destruct (stack_op_safe refs s op Hok ltac:(lia) Ha) as (r & s' & E & Hr & _). by exists r, s'.
  - intros ->. apply no_references_no_items; apply Hok.
Qed.
End Sessions.

(** ** Integers *)

Lemma trim_zeros_value bytes n : (n <= length bytes)%nat -> le_val (take (Z.to_nat (trim_zeros bytes n)) bytes) = le_val (take n bytes).
Proof.
  induction n as [|n IH]; intros Hn; [done|]. cbn [trim_zeros]. destruct ((0 <? Z.of_nat n) && _) eqn:E; [|by rewrite Nat2Z.id].
  apply andb_true_iff in E as [_ E%bool_decide_eq_true]. rewrite IH by lia. rewrite (take_S_r _ _ _ E), le_val_app. cbn. lia.
Qed.

Lemma or_item_bytes_value bytes : forall i acc, 0 <= i -> i + zlen bytes <= 8 -> 0 <= acc < 256 ^ i -> acc + 256 ^ i * le_val bytes < 2 ^ 63 ->
  or_item_bytes bytes i acc = Ok (acc + 256 ^ i * le_val bytes).
Proof.
  induction bytes as [|b bytes IH]; intros i acc Hi Hl Ha Hv; cbn [or_item_bytes le_val]; [f_equal; lia|]. rewrite zlen_cons in Hl. pose proof (zlen_nonneg bytes).
  cbn [le_val] in Hv. pose proof (Z_of_byte_range b). pose proof (le_val_range bytes) as Hr. assert (0 < 256 ^ i) by (apply Z.pow_pos_nonneg; lia).
  assert (256 ^ (i + 1) = 256 * 256 ^ i) as Hpow by (rewrite Z.pow_add_r by lia; lia).
  assert (256 ^ i = 2 ^ (8 * i)) as H256 by (rewrite Z.pow_mul_r by lia; done).
  unfold shift_byte. destruct ((7 <=? i) && (128 <=? Z_of_byte b)) eqn:E.
  { bdestruct. assert (i = 7) as -> by lia. change (256 ^ 7) with (2 ^ 56) in *. nia. }
  cbn [rbind]. assert (Z.lor acc (Z.shiftl (Z_of_byte b) (8 * i)) = acc + 256 ^ i * Z_of_byte b) as ->.
  { rewrite lor_shiftl_add by lia. rewrite H256. lia. }
  rewrite IH; [f_equal; nia|lia|lia|nia|nia].
Qed.

Lemma le_val_nonzero l : le_val l <> 0 <-> existsb (fun b => negb (Z_of_byte b =? 0)) l = true.
Proof.
  induction l as [|b l IH]; [done|]. cbn [le_val existsb]. rewrite orb_true_iff, <- IH, negb_true_iff, Z.eqb_neq.
  pose proof (Z_of_byte_range b). pose proof (le_val_range l). lia.
Qed.

Section Integers.
Context `{Allocator}.

(** Every [int64_t] but the least is read back from its item; negation and the last shift are undefined for the least. *)
Theorem stack_integer_roundtrip v s p s' :
  - 2 ^ 63 < v < 2 ^ 63 -> stack_item_create_integer v s = (Ok (Some p), s') ->
  stack_item_to_integer p s' = (Ok v, s') /\ stack_item_to_boolean p s' = (Ok (negb (v =? 0)), s').
Proof.
  intros Hv. unfold stack_item_create_integer. destruct (negb _); [done|]. destruct (negb _); [done|].
  assert (absolute v = Ok (Z.abs v)) as -> by (unfold absolute; destruct (Z.ltb_spec v 0); [cmps|]; f_equal; lia).
  rewrite bind_lift. set (bytes := le_bytes 8 (Z.abs v)). set (n := trim_zeros bytes 8). unfold stack_item_alloc. destruct (negb _); [done|]. destruct (negb _); [done|].
  intros [= <- <-]. assert (1 <= n <= 8) as Hn by (apply (trim_zeros_range bytes 8); lia).
  assert (zlen bytes = 8) as Hb by (unfold bytes, zlen; by rewrite length_le_bytes).
  assert (le_val (take (Z.to_nat n) bytes) = Z.abs v) as Hval.
  { unfold n. rewrite trim_zeros_value by (unfold bytes; rewrite length_le_bytes; lia). rewrite take_ge by (unfold bytes; by rewrite length_le_bytes).
    unfold bytes. apply le_val_le_bytes_small. change (256 ^ Z.of_nat 8) with (2 ^ 64). lia. }
  assert (buf_slice bytes 0 n = Some (take (Z.to_nat n) bytes)) as Hslice by (unfold buf_slice; cmps; by rewrite drop_0).
  unfold stack_item_to_integer, stack_item_to_boolean. erewrite !bind_ok by (apply item_at_ok; cbn [items]; apply lookup_insert_eq). cbn [value]. rewrite Hslice. split.
  - cmps. rewrite or_item_bytes_value; [|lia| |lia|]. 
    + rewrite bind_lift, Z.add_0_l, Z.mul_1_l, Hval. unfold ret. do 2 f_equal. destruct (Z.ltb_spec v 0); lia.
    + unfold zlen. rewrite length_take. unfold zlen in Hb. lia.
    + rewrite Hval. lia.
  - unfold ret. do 2 f_equal. apply eq_true_iff_eq. rewrite negb_true_iff, Z.eqb_neq, <- (le_val_nonzero (take (Z.to_nat n) bytes)), Hval. lia.
Qed.
End Integers.

(** ** Equality *)

(** The value of an item without maps. *)
Inductive tree :=
| T_any
| T_boolean (b : bool)
| T_integer (bytes : list byte) (is_negative : bool)
| T_byte_string (data : list byte)
| T_buffer (data : list byte)
| T_array (l : list tree)
| T_struct (l : list tree)
| T_pointer (ptr position : Z)
| T_interop_interface (interface : Z).

(** To a depth of [fuel]; none for maps, cycles and items that are not there. *)
Fixpoint tree_of (fuel : nat) (m : gmap item_pointer stack_item) (p : item_pointer) : option tree :=
  match fuel with
  | O => None
  | S fuel =>
      it ← m !! p;
      match value it with
      | STACK_ITEM_TYPE_ANY => Some T_any
      | STACK_ITEM_TYPE_BOOLEAN b => Some (T_boolean b)
      | STACK_ITEM_TYPE_INTEGER bytes n s => d ← buf_slice bytes 0 n; Some (T_integer d s)
      | STACK_ITEM_TYPE_BYTE_STRING d => Some (T_byte_string d)
      | STACK_ITEM_TYPE_BUFFER d => Some (T_buffer d)
      | STACK_ITEM_TYPE_ARRAY l _ => T_array <$> mapM (tree_of fuel m) l
      | STACK_ITEM_TYPE_STRUCT l _ => T_struct <$> mapM (tree_of fuel m) l
      | STACK_ITEM_TYPE_MAP _ _ => None
      | STACK_ITEM_TYPE_POINTER x n => Some (T_pointer x n)
      | STACK_ITEM_TYPE_INTEROP_INTERFACE x => Some (T_interop_interface x)
      end
  end.

Section Equality.
Variable s : item_store.

Definition decides (eq : item_pointer -> item_pointer -> St bool) (x y : item_pointer) (P : Prop) : Prop :=
  exists b, eq x y s = (Ok b, s) /\ (b = true <-> P).

Lemma equal_items_decides eq (f : item_pointer -> option tree) :
  (forall x y t u, f x = Some t -> f y = Some u -> decides eq x y (t = u)) ->
  forall a b ts us, mapM f a = Some ts -> mapM f b = Some us -> length a = length b ->
  exists r, equal_items eq a b s = (Ok r, s) /\ (r = true <-> ts = us).
Proof.
  intros He. induction a as [|x a IH]; intros [|y b] ts us; try done.
  { intros [= <-] [= <-] _. by exists true. }
  intros Ha Hb Hl. apply mapM_Some in Ha, Hb. inversion Ha as [|? t ? ts' Hx Ha']; subst. inversion Hb as [|? u ? us' Hy Hb']; subst.
  cbn [equal_items]. destruct (He x y t u Hx Hy) as (r & E & Hr). rewrite (bind_ok _ _ _ _ _ E). destruct r.
  - destruct (IH b ts' us') as (r & E' & Hr'); [by apply mapM_Some|by apply mapM_Some|cbn in Hl; lia|]. exists r. split; [done|]. rewrite Hr'. split; [intros ->; f_equal; by apply Hr|by intros [= _ ->]].
  - exists false. split; [done|]. split; [done|]. intros [= -> _]. by apply Hr.
Qed.

Lemma equal_blocks_decides x y n d e :
  buf_slice x 0 n = Some d -> buf_slice y 0 n = Some e -> equal_blocks x y n = Ok (bool_decide (d = e)).
Proof. intros E1 E2. unfold equal_blocks. by rewrite E1, E2. Qed.

Lemma equals_decides fuel : forall p q t u, tree_of fuel (items s) p = Some t -> tree_of fuel (items s) q = Some u -> decides (equals fuel) p q (t = u).
Proof.
  induction fuel as [|fuel IH]; intros p q t u; [done|]. intros Hp Hq. unfold decides. cbn [equals].
  destruct (bool_decide_reflect (p = q)) as [->|Hne]; [exists true; split; [done|]; split; [congruence|done]|].
  cbn [tree_of] in Hp, Hq. destruct (items s !! p) as [ip|] eqn:Ep; [|done]. destruct (items s !! q) as [iq|] eqn:Eq; [|done]. cbn in Hp, Hq.
  rewrite (bind_ok _ _ _ _ _ (item_at_ok _ _ _ Ep)), (bind_ok _ _ _ _ _ (item_at_ok _ _ _ Eq)).
  destruct (value ip) as [|b1|x1 n1 s1|d1|d1|l1 c1|l1 c1|l1 c1|p1 n1|i1], (value iq) as [|b2|x2 n2 s2|d2|d2|l2 c2|l2 c2|l2 c2|p2 n2|i2]; try done;
    repeat match goal with
    | H : (_ ← buf_slice ?x 0 ?n; _) = Some _ |- _ => let E := fresh "Es" in destruct (buf_slice x 0 n) eqn:E; [cbn in H|done]
    | H : _ <$> mapM ?f ?l = Some _ |- _ => let E := fresh "Em" in destruct (mapM f l) eqn:E; [cbn in H|done]
    | H : Some _ = Some _ |- _ => injection H as <-
    end; try (exists false; split; [done|]; split; [done|]; discriminate).
  - by exists true.
  - exists (Bool.eqb b1 b2). split; [done|]. rewrite eqb_true_iff. split; [by intros ->|by intros [= ->]].
  - destruct (Z.eqb_spec n1 n2) as [<-|Hn]; cbn [negb].
    + destruct (Bool.eqb s1 s2) eqn:Es3; cbn [negb].
      * rewrite (equal_blocks_decides _ _ _ _ _ Es0 Es). eexists. split; [done|]. apply eqb_prop in Es3 as ->. rewrite bool_decide_eq_true. split; [by intros ->|by intros [= ->]].
      * exists false. split; [done|]. split; [done|]. intros [= _ ->]. by rewrite eqb_reflx in Es3.
    + exists false. split; [done|]. split; [done|]. intros [= -> _]. apply buf_slice_length in Es, Es0. congruence.
  - destruct (Z.eqb_spec (zlen d1) (zlen d2)) as [E|E]; cbn [negb]; [|exists false; split; [done|]; split; [done|]; by intros [= ->]].
    rewrite (equal_blocks_decides d1 d2 (zlen d1) d1 d2); [|apply buf_slice_all|rewrite E; apply buf_slice_all]. eexists. split; [done|]. rewrite bool_decide_eq_true. split; [by intros ->|by intros [= ->]].
  - destruct (Z.eqb_spec (zlen d1) (zlen d2)) as [E|E]; cbn [negb]; [|exists false; split; [done|]; split; [done|]; by intros [= ->]].
    rewrite (equal_blocks_decides d1 d2 (zlen d1) d1 d2); [|apply buf_slice_all|rewrite E; apply buf_slice_all]. eexists. split; [done|]. rewrite bool_decide_eq_true. split; [by intros ->|by intros [= ->]].
  - destruct (Z.eqb_spec (zlen l1) (zlen l2)) as [E|E]; cbn [negb].
    + destruct (equal_items_decides (equals fuel) (tree_of fuel (items s)) IH l1 l2 _ _ Em0 Em) as (r & Er & Hr); [unfold zlen in E; lia|]. exists r. split; [done|]. rewrite Hr. split; [by intros ->|by intros [= ->]].
    + exists false. split; [done|]. split; [done|]. intros [= ->]. apply length_mapM in Em, Em0. unfold zlen in E. lia.
  - destruct (Z.eqb_spec (zlen l1) (zlen l2)) as [E|E]; cbn [negb].
    + destruct (equal_items_decides (equals fuel) (tree_of fuel (items s)) IH l1 l2 _ _ Em0 Em) as (r & Er & Hr); [unfold zlen in E; lia|]. exists r. split; [done|]. rewrite Hr. split; [by intros ->|by intros [= ->]].
    + exists false. split; [done|]. split; [done|]. intros [= ->]. apply length_mapM in Em, Em0. unfold zlen in E. lia.
  - exists ((p1 =? p2) && (n1 =? n2)). split; [done|]. rewrite andb_true_iff, !Z.eqb_eq. split; [by intros [-> ->]|by intros [= -> ->]].
  - exists (i1 =? i2). split; [done|]. rewrite Z.eqb_eq. split; [by intros ->|by intros [= ->]].
Qed.

(** Comparison decides whether two items without maps and cycles have the same value. *)
Theorem stack_equals_decides p q t u :
  tree_of (S (size (items s))) (items s) p = Some t -> tree_of (S (size (items s))) (items s) q = Some u ->
  exists b, stack_item_equals p q s = (Ok b, s) /\ (b = true <-> t = u).
Proof. apply equals_decides. Qed.
End Equality.

(** ** Witnesses *)

Section Samples.
#[local] Existing Instance mib_heap.

(** An array of an integer that also is the value of a map under its own key; the client keeps the map. *)
Definition sample_history : list stack_op :=
  [OpArray 0; OpInteger 7; OpMap 1; OpArrayAdd 1 2; OpMapSet 3 2 1; OpMapSet 3 2 2; OpUnref 1; OpUnref 2].

(** The store behind a list of calls. *)
Definition run_history (ops : list stack_op) : item_store := fold_left (fun s op => snd (exec_stack_op op s)) ops empty_store.

Lemma rtc_leaf m p q : (forall it, m !! p = Some it -> children (value it) = []) -> p <> q -> ~ rtc (child m) p q.
Proof. intros Hl Hne Hr. inversion Hr as [|x y z (it & Hp & Hy) _]; subst; [done|]. rewrite (Hl it Hp) in Hy. by apply elem_of_nil in Hy. Qed.

Lemma rtc_parent m p c q : (forall it, m !! p = Some it -> children (value it) = [c]) -> (forall it, m !! c = Some it -> children (value it) = []) ->
  p <> q -> c <> q -> ~ rtc (child m) p q.
Proof.
  intros Hp Hc Hne Hne' Hr. inversion Hr as [|x y z (it & Ep & Hy) Hyz]; subst; [done|]. rewrite (Hp it Ep) in Hy. apply list_elem_of_singleton in Hy as ->.
  by apply (rtc_leaf m c q Hc).
Qed.

Ltac step_history := eapply session_cons; [|vm_compute; reflexivity|]; cbn [refs_after drop_ref allowed].

Lemma sample_session : session [] empty_store sample_history [3%positive] (run_history sample_history).
Proof.
  unfold sample_history.
  step_history; [split; vm_compute; discriminate|]. step_history; [vm_compute; split; reflexivity|]. step_history; [split; vm_compute; discriminate|].
  step_history. { split; [vm_compute; by eexists|]. split; [vm_compute; by eexists|]. apply rtc_leaf; [|done]. intros it E. vm_compute in E. by injection E as <-. }
  step_history. { split_and!; [set_solver|set_solver|set_solver|apply rtc_leaf; [|done]; intros it E; vm_compute in E; by injection E as <-|].
    apply (rtc_parent _ _ 2); [..|done|done]; intros it E; vm_compute in E; by injection E as <-. }
  step_history. { split_and!; [set_solver|set_solver|set_solver|..]; (apply rtc_leaf; [|done]; intros it E; vm_compute in E; by injection E as <-). }
  step_history; [set_solver|]. step_history; [set_solver|]. vm_compute. apply session_nil.
Qed.

Lemma stack_items_counted_witness :
  (forall p it, items (run_history sample_history) !! p = Some it ->
     ref_count it = occ p ([3%positive] ++ edges None (items (run_history sample_history))) /\ 0 < ref_count it) /\
  exists r s', exec_stack_op (OpUnref 3) (run_history sample_history) = (r, s') /\ r <> Fault.
Proof.
  destruct (stack_items_counted sample_history [3%positive] (run_history sample_history) sample_session ltac:(vm_compute; discriminate)) as (H1 & _ & H2 & _).
  split; [exact H1|]. apply H2. apply list_elem_of_singleton. reflexivity.
Defined.

Lemma stack_integer_roundtrip_witness :
  stack_item_to_integer 1 (run_history [OpInteger (-300)]) = (Ok (-300), run_history [OpInteger (-300)]) /\
  stack_item_to_boolean 1 (run_history [OpInteger (-300)]) = (Ok true, run_history [OpInteger (-300)]).
Proof. apply (stack_integer_roundtrip (-300) empty_store 1); [split; vm_compute; reflexivity|vm_compute; reflexivity]. Defined.

Lemma stack_equals_decides_witness :
  let s := run_history [OpInteger 7; OpInteger 8] in
  exists b, stack_item_equals 1 2 s = (Ok b, s) /\ (b = true <-> T_integer [Byte.x07] false = T_integer [Byte.x08] false).
Proof. apply (stack_equals_decides (run_history [OpInteger 7; OpInteger 8]) 1 2); vm_compute; reflexivity. Defined.

(** A client that sets the value a map has, which it does not hold itself, makes the map keep an item that was freed. *)
Example map_set_same_value_faults :
  fst (stack_item_map_set 1 2 3 (run_history [OpMap 0; OpInteger 1; OpInteger 2; OpMapSet 1 2 3; OpUnref 3])) = Fault.
Proof. reflexivity. Qed.

(** The least integer has no item. *)
Example least_integer_faults : fst (stack_item_create_integer (- 2 ^ 63) empty_store) = Fault.
Proof. reflexivity. Qed.

(** An array that contains itself is never freed, and comparing two such arrays does not end. *)
Example self_array_leaks : size (items (run_history [OpArray 0; OpArrayAdd 1 1; OpUnref 1])) = 1%nat.
Proof. reflexivity. Qed.

Example self_arrays_compare_for_ever : fst (stack_item_equals 1 2 (run_history [OpArray 0; OpArray 0; OpArrayAdd 1 1; OpArrayAdd 2 2])) = Fault.
Proof. reflexivity. Qed.
End Samples.
