(* ===== verification/Manifest.v ===== *)
(** * Contract manifests (src/contract/contract_manifest.c)

    The manifest of a contract as an object that is filled in, its features, and its JSON text, which is written with
    [snprintf] into a block of fixed size and read through cJSON.  The array of the parameters of a method is
    indeterminate when none were given.  The features of cJSON are those of [Cjson]. *)

From S2P Require Import Prelude Crypto Cjson Json Nep6Wallet.
#[local] Open Scope Z_scope.

(** ** The manifest *)

(** A pointer field that may not have been set. *)
Inductive field (A : Type) := Indeterminate | Set_to (a : A).
Arguments Indeterminate {A}.
Arguments Set_to {A} a.

(** The copy of the parameters shares the names of the caller; they are the names themselves here. *)
Record neoc_contract_method_parameter_t := mk_method_parameter { mp_name : list byte; mp_type : Z }.

Record neoc_contract_method_t := mk_method {
  md_name : list byte; md_parameters : field (list neoc_contract_method_parameter_t); md_parameter_count : Z;
  md_offset : Z; md_return_type : Z; md_safe : bool
}.

(** The parameters of an event are type numbers. *)
Record neoc_contract_event_t := mk_event { ev_name : list byte; ev_parameters : field (list Z); ev_parameter_count : Z }.

(** [None] is a wildcard; the member [is_wildcard] of the struct is never set nor read. *)
Record neoc_contract_permission_t := mk_permission { pe_contract : option (list byte); pe_methods : option (list (list byte)) }.

Record neoc_contract_manifest_t := mk_manifest {
  mf_name : option (list byte);
  mf_supported_standards : list (list byte);
  mf_methods : list neoc_contract_method_t;
  mf_events : list neoc_contract_event_t;
  mf_permissions : list neoc_contract_permission_t;
  mf_extra : option (list byte)
}.

(** [sizeof] of the structs *)
Definition manifest_struct_size : Z := 160.
Definition method_struct_size : Z := 32.
Definition event_struct_size : Z := 24.
Definition permission_struct_size : Z := 32.
Definition method_parameter_struct_size : Z := 16.
Definition param_type_size : Z := 4.

Definition CONTRACT_FEATURE_NONE : Z := 0.
Definition CONTRACT_FEATURE_HAS_STORAGE : Z := 1.
Definition CONTRACT_FEATURE_PAYABLE : Z := 2.

Abbreviation Mf := (M neoc_contract_manifest_t).

Definition set_methods (l : list neoc_contract_method_t) (m : neoc_contract_manifest_t) : neoc_contract_manifest_t :=
  mk_manifest (mf_name m) (mf_supported_standards m) l (mf_events m) (mf_permissions m) (mf_extra m).
Definition set_events (l : list neoc_contract_event_t) (m : neoc_contract_manifest_t) : neoc_contract_manifest_t :=
  mk_manifest (mf_name m) (mf_supported_standards m) (mf_methods m) l (mf_permissions m) (mf_extra m).
Definition set_permissions (l : list neoc_contract_permission_t) (m : neoc_contract_manifest_t) : neoc_contract_manifest_t :=
  mk_manifest (mf_name m) (mf_supported_standards m) (mf_methods m) (mf_events m) l (mf_extra m).
Definition set_standards (l : list (list byte)) (m : neoc_contract_manifest_t) : neoc_contract_manifest_t :=
  mk_manifest (mf_name m) l (mf_methods m) (mf_events m) (mf_permissions m) (mf_extra m).
Definition set_extra (e : option (list byte)) (m : neoc_contract_manifest_t) : neoc_contract_manifest_t :=
  mk_manifest (mf_name m) (mf_supported_standards m) (mf_methods m) (mf_events m) (mf_permissions m) e.
Definition set_name (n : option (list byte)) (m : neoc_contract_manifest_t) : neoc_contract_manifest_t :=
  mk_manifest n (mf_supported_standards m) (mf_methods m) (mf_events m) (mf_permissions m) (mf_extra m).

(** ** Getters *)

Definition neoc_contract_manifest_get_name (m : neoc_contract_manifest_t) : option (list byte) := mf_name m.
Definition neoc_contract_manifest_get_standards (m : neoc_contract_manifest_t) : list (list byte) := mf_supported_standards m.
Definition neoc_contract_manifest_get_method_count (m : neoc_contract_manifest_t) : Z := zlen (mf_methods m).

Definition neoc_contract_manifest_get_method (m : neoc_contract_manifest_t) (index : Z) : res neoc_contract_method_t :=
  match mf_methods m !! Z.to_nat index with Some method => Ok method | None => Err NEOC_ERROR_OUT_OF_BOUNDS end.

Definition neoc_contract_manifest_get_method_by_name (m : neoc_contract_manifest_t) (name : list byte) : res neoc_contract_method_t :=
  match List.find (fun method => bool_decide (md_name method = name)) (mf_methods m) with
  | Some method => Ok method
  | None => Err NEOC_ERROR_NOT_FOUND
  end.

Definition neoc_contract_method_get_name (method : neoc_contract_method_t) : list byte := md_name method.
(** The offset as an unsigned number. *)
Definition neoc_contract_method_get_offset (method : neoc_contract_method_t) : Z := wrap 32 (md_offset method).
Definition neoc_contract_method_is_safe (method : neoc_contract_method_t) : bool := md_safe method.

(** Freeing a pointer that was not set is undefined. *)
Definition free_field {A} (f : field A) : Mf unit := match f with Indeterminate => fault | Set_to _ => ret tt end.

Definition neoc_contract_manifest_dispose : Mf unit :=
  let! m := get in
  do! for_each (fun method => free_field (md_parameters method)) (mf_methods m) in
  do! for_each (fun event => free_field (ev_parameters event)) (mf_events m) in
  put (mk_manifest None [] [] [] [] None).

(** The block of the manifest goes with it. *)
Definition neoc_contract_manifest_free : Mf unit := neoc_contract_manifest_dispose.

(** ** Features *)

Definition feature_text (features : Z) : list byte :=
  str "{" ++
  (if negb (Z.land features CONTRACT_FEATURE_HAS_STORAGE =? 0) then quote ++ str "storage" ++ quote ++ str ":true" else []) ++
  (if negb (Z.land features CONTRACT_FEATURE_PAYABLE =? 0) then
     (if negb (Z.land features CONTRACT_FEATURE_HAS_STORAGE =? 0) then str "," else []) ++ quote ++ str "payable" ++ quote ++ str ":true"
   else []) ++
  str "}".

Section Operations.
Context `{Allocator} `{Double} (junk : byte).

Definition copy_text (s : list byte) : option (list byte) := if neoc_malloc_ok (zlen s + 1) then Some s else None.

Definition neoc_contract_manifest_create : res neoc_contract_manifest_t :=
  if negb (neoc_malloc_ok manifest_struct_size) then Err NEOC_ERROR_MEMORY
  else let? name := neoc_strdup (str "Contract") NEOC_ERROR_MEMORY in Ok (mk_manifest (Some name) [] [] [] [] None).

(** An entry of the caller's array that was not set cannot be copied. *)
Fixpoint copy_strings (l : list (field (list byte))) : res (list (list byte)) :=
  match l with
  | [] => Ok []
  | Indeterminate :: _ => Fault
  | Set_to s :: l => let? s := neoc_strdup s NEOC_ERROR_MEMORY in let? l := copy_strings l in Ok (s :: l)
  end.

(** [neoc_calloc] of no entries is NULL; the old standards are gone in any case. *)
Definition neoc_contract_manifest_set_standards (standards : list (field (list byte))) : Mf unit := fun m =>
  let m := set_standards [] m in
  if negb (neoc_malloc_ok (zlen standards * 8)) then (Err NEOC_ERROR_MEMORY, m)
  else
    match copy_strings standards with
    | Ok l => (Ok tt, set_standards l m)
    | Err e => (Err e, m)
    | Fault => (Fault, m)
    end.

Definition neoc_contract_manifest_add_method (name : option (list byte)) (parameters : option (list neoc_contract_method_parameter_t))
    (parameter_count offset return_type : Z) (safe : bool) : Mf unit := fun m =>
  match name with
  | None => (Err NEOC_ERROR_INVALID_ARGUMENT, m)
  | Some name =>
      if negb (neoc_malloc_ok ((zlen (mf_methods m) + 1) * method_struct_size)) then (Err NEOC_ERROR_MEMORY, m)
      else
        match copy_text name with
        | None => (Err NEOC_ERROR_MEMORY, m)
        | Some name =>
            let add (ps : field (list neoc_contract_method_parameter_t)) :=
              (Ok tt, set_methods (mf_methods m ++ [mk_method name ps parameter_count offset return_type safe]) m) in
            match parameters with
            | Some ps =>
                if 0 <? parameter_count then
                  if negb (neoc_malloc_ok (wrap 64 (parameter_count * method_parameter_struct_size))) then (Err NEOC_ERROR_MEMORY, m)
                  else match buf_slice ps 0 parameter_count with Some ps => add (Set_to ps) | None => (Fault, m) end
                else add Indeterminate
            | None => add Indeterminate
            end
        end
  end.

(** Room for ten more entries when the number of entries is a multiple of ten. *)
Definition room_for_ten (count size : Z) : bool := if count mod 10 =? 0 then neoc_malloc_ok ((count + 10) * size) else true.

Definition neoc_contract_manifest_add_event (name : option (list byte)) (parameters : option (list Z)) (param_count : Z) : Mf unit := fun m =>
  match name with
  | None => (Err NEOC_ERROR_INVALID_ARGUMENT, m)
  | Some name =>
      if negb (room_for_ten (zlen (mf_events m)) event_struct_size) then (Err NEOC_ERROR_MEMORY, m)
      else
        match copy_text name with
        | None => (Err NEOC_ERROR_MEMORY, m)
        | Some name =>
            let add (ps : field (list Z)) := (Ok tt, set_events (mf_events m ++ [mk_event name ps param_count]) m) in
            match parameters with
            | Some ps =>
                if 0 <? param_count then
                  if negb (neoc_malloc_ok (wrap 64 (param_count * param_type_size))) then (Err NEOC_ERROR_MEMORY, m)
                  else match buf_slice ps 0 param_count with Some ps => add (Set_to ps) | None => (Fault, m) end
                else add Indeterminate
            | None => add Indeterminate
            end
        end
  end.

Definition neoc_contract_manifest_add_permission (contract : option (list byte)) (methods : option (list (list byte))) (method_count : Z) : Mf unit := fun m =>
  if negb (room_for_ten (zlen (mf_permissions m)) permission_struct_size) then (Err NEOC_ERROR_MEMORY, m)
  else
    match (match contract with None => Ok None | Some c => let? c := neoc_strdup c NEOC_ERROR_MEMORY in Ok (Some c) end) with
    | Fault => (Fault, m)
    | Err e => (Err e, m)
    | Ok contract =>
        let add (ms : option (list (list byte))) := (Ok tt, set_permissions (mf_permissions m ++ [mk_permission contract ms]) m) in
        match methods with
        | Some ms =>
            if 0 <? method_count then
              if negb (neoc_malloc_ok (wrap 64 (method_count * 8))) then (Err NEOC_ERROR_MEMORY, m)
              else
                match buf_slice ms 0 method_count with
                | None => (Fault, m)
                | Some ms =>
                    match copy_strings (map Set_to ms) with
                    | Ok ms => add (Some ms)
                    | Err e => (Err e, m)
                    | Fault => (Fault, m)
                    end
                end
            else add None
        | None => add None
        end
    end.

(** The merged text loses its last three characters: the block has 10 bytes for the 13 that are added. *)
Definition neoc_contract_manifest_set_features (features : Z) : Mf unit := fun m =>
  if features =? CONTRACT_FEATURE_NONE then (Ok tt, m)
  else
    let feature_json := feature_text features in
    match mf_extra m with
    | None => (Ok tt, set_extra (copy_text feature_json) m)
    | Some extra =>
        let extra_len := zlen extra + zlen feature_json + 10 in
        if negb (neoc_malloc_ok extra_len) then (Ok tt, m)
        else (Ok tt, set_extra (Some (take (Z.to_nat (extra_len - 1)) (extra ++ str "," ++ quote ++ str "features" ++ quote ++ str ":" ++ feature_json))) m)
    end.

Definition neoc_contract_manifest_set_extra (extra : option (list byte)) : Mf unit := fun m =>
  (Ok tt, set_extra (match extra with Some e => copy_text e | None => None end) m).

(** A member of the object [features] that is a boolean. *)
Definition has_feature (name : list byte) (m : neoc_contract_manifest_t) : res bool :=
  match mf_extra m with
  | None => Ok false
  | Some extra =>
      match cJSON_Parse (Some extra) with
      | Fault => Fault
      | Err _ => Ok false
      | Ok root =>
          match cJSON_GetObjectItem root (str "features") with
          | None => Ok false
          | Some features =>
              match cJSON_GetObjectItem features name with
              | Some (cJSON_Bool b) => Ok b
              | _ => Ok false
              end
          end
      end
  end.

Definition neoc_contract_manifest_has_storage_feature : neoc_contract_manifest_t -> res bool := has_feature (str "storage").
Definition neoc_contract_manifest_has_payable_feature : neoc_contract_manifest_t -> res bool := has_feature (str "payable").

(** ** The text *)

Definition line (s : list byte) : list byte := s ++ newline.

(** A member in quotes with what follows the colon. *)
Definition member (indent : String.string) (key : String.string) (rest : list byte) : list byte :=
  str indent ++ quote ++ str key ++ quote ++ str ": " ++ rest.

Definition manifest_head (name : list byte) (storage payable : bool) : list byte :=
  line (str "{") ++
  line (member "  " "name" (quote ++ name ++ quote ++ str ",")) ++
  line (member "  " "groups" (str "[],")) ++
  line (member "  " "features" (str "{")) ++
  line (member "    " "storage" (bool_text storage ++ str ",")) ++
  line (member "    " "payable" (bool_text payable)) ++
  line (str "  },") ++
  member "  " "supportedstandards" (str "[").

Definition standard_text (first : bool) (s : list byte) : list byte := (if first then [] else str ", ") ++ quote ++ s ++ quote.

Definition abi_head : list byte := line (str "],") ++ line (member "  " "abi" (str "{")) ++ line (member "    " "methods" (str "[")).

(** [%u] of the offset; parameters and return type are not written. *)
Definition method_text (method : neoc_contract_method_t) (last : bool) : list byte :=
  line (str "      {") ++
  line (member "        " "name" (quote ++ md_name method ++ quote ++ str ",")) ++
  line (member "        " "parameters" (str "[],")) ++
  line (member "        " "returntype" (quote ++ str "Void" ++ quote ++ str ",")) ++
  line (member "        " "offset" (print_decimal (wrap 32 (md_offset method)) ++ str ",")) ++
  line (member "        " "safe" (bool_text (md_safe method))) ++
  line (str "      }" ++ (if last then [] else str ",")).

Definition events_head : list byte := line (str "    ],") ++ line (member "    " "events" (str "[")).

Definition event_text (event : neoc_contract_event_t) (last : bool) : list byte :=
  line (str "      {") ++
  line (member "        " "name" (quote ++ ev_name event ++ quote ++ str ",")) ++
  line (member "        " "parameters" (str "[]")) ++
  line (str "      }" ++ (if last then [] else str ",")).

Definition manifest_foot (extra : option (list byte)) : list byte :=
  line (str "    ]") ++ line (str "  },") ++ line (member "  " "permissions" (str "[],")) ++ line (member "  " "trusts" (str "[],")) ++
  line (member "  " "extra" (match extra with Some e => e | None => str "null" end)) ++ line (str "}").

Definition MANIFEST_BUFFER : Z := 8192.

(** The pieces of the text one behind the other. *)
Fixpoint print_pieces (pieces : list (list byte)) (offset : Z) : M (list byte) Z :=
  match pieces with
  | [] => ret offset
  | piece :: pieces => let! offset := print_at MANIFEST_BUFFER offset piece in print_pieces pieces offset
  end.

(** A piece for each entry; [text] is told whether the entry is the last one. *)
Fixpoint entry_pieces {A} (text : A -> bool -> list byte) (l : list A) : list (list byte) :=
  match l with
  | [] => []
  | x :: l => text x (match l with [] => true | _ => false end) :: entry_pieces text l
  end.

Definition standard_pieces (l : list (list byte)) : list (list byte) :=
  match l with [] => [] | s :: l => standard_text true s :: map (standard_text false) l end.

Definition manifest_pieces (name : list byte) (storage payable : bool) (m : neoc_contract_manifest_t) : list (list byte) :=
  manifest_head name storage payable :: standard_pieces (mf_supported_standards m) ++ [abi_head] ++ entry_pieces method_text (mf_methods m) ++
  [events_head] ++ entry_pieces event_text (mf_events m) ++ [manifest_foot (mf_extra m)].

(** The block and the reported length.  A name that is NULL has no text. *)
Definition neoc_contract_manifest_to_json (m : neoc_contract_manifest_t) : res (list byte * Z) :=
  if negb (neoc_malloc_ok MANIFEST_BUFFER) then Err NEOC_ERROR_MEMORY
  else
    match mf_name m with
    | None => Fault
    | Some name =>
        let? storage := neoc_contract_manifest_has_storage_feature m in
        let? payable := neoc_contract_manifest_has_payable_feature m in
        match print_pieces (manifest_pieces name storage payable m) 0 (replicate (Z.to_nat MANIFEST_BUFFER) junk) with
        | (Ok offset, buffer) => Ok (buffer, offset)
        | (Err e, _) => Err e
        | (Fault, _) => Fault
        end
    end.

(** ** Reading *)

Definition string_field (item : cJSON) : field (list byte) := match item with cJSON_String s => Set_to s | _ => Indeterminate end.

(** What the calls return is ignored. *)
Definition ignore_error (m : Mf unit) : Mf unit := fun s => match m s with (Fault, s) => (Fault, s) | (_, s) => (Ok tt, s) end.

Definition read_standards (root : cJSON) : Mf unit :=
  match cJSON_GetObjectItem root (str "supportedstandards") with
  | Some (cJSON_Array l) =>
      if 0 <? zlen l then
        if neoc_malloc_ok (zlen l * 8) then ignore_error (neoc_contract_manifest_set_standards (map string_field l)) else ret tt
      else ret tt
  | _ => ret tt
  end.

Definition read_method (item : cJSON) : Mf unit :=
  match cJSON_GetObjectItem item (str "name") with
  | Some (cJSON_String name) =>
      let! offset := lift (match cJSON_GetObjectItem item (str "offset") with Some o => valueint o | None => Ok 0 end) in
      let safe := match cJSON_GetObjectItem item (str "safe") with Some (cJSON_Bool b) => b | _ => false end in
      ignore_error (neoc_contract_manifest_add_method (Some name) None 0 offset 0 safe)
  | _ => ret tt
  end.

Definition read_methods (root : cJSON) : Mf unit :=
  match cJSON_GetObjectItem root (str "abi") with
  | Some abi =>
      match cJSON_GetObjectItem abi (str "methods") with
      | Some (cJSON_Array l) => for_each read_method l
      | _ => ret tt
      end
  | None => ret tt
  end.

Definition neoc_contract_manifest_from_json (json : option (list byte)) : res neoc_contract_manifest_t :=
  match json with
  | None => Err NEOC_ERROR_INVALID_ARGUMENT
  | Some _ =>
      match cJSON_Parse json with
      | Fault => Fault
      | Err _ => Err NEOC_ERROR_INVALID_FORMAT
      | Ok root =>
          let? m := neoc_contract_manifest_create in
          let m := match cJSON_GetObjectItem root (str "name") with Some (cJSON_String name) => set_name (copy_text name) m | _ => m end in
          match (do! read_standards root in read_methods root) m with
          | (Ok _, m) => Ok m
          | (Err e, _) => Err e
          | (Fault, _) => Fault
          end
      end
  end.

(** NULL for every error. *)
Definition neoc_contract_manifest_clone (m : neoc_contract_manifest_t) : res (option neoc_contract_manifest_t) :=
  match neoc_contract_manifest_to_json m with
  | Fault => Fault
  | Err _ => Ok None
  | Ok (buffer, _) =>
      match neoc_contract_manifest_from_json (Some (cstring buffer)) with
      | Fault => Fault
      | Err _ => Ok None
      | Ok clone => Ok (Some clone)
      end
  end.
End Operations.

(** ** The text *)

Section Text.
Context `{Allocator} `{Double} (junk : byte).

(** Pieces behind a terminated text, which stays terminated. *)
Lemma print_pieces_ok pieces : forall done_ rest,
  room MANIFEST_BUFFER done_ (done_ ++ Byte.x00 :: rest) -> zlen done_ + zlen (concat pieces) < MANIFEST_BUFFER ->
  exists rest', print_pieces pieces (zlen done_) (done_ ++ Byte.x00 :: rest)
      = (Ok (zlen (done_ ++ concat pieces)), (done_ ++ concat pieces) ++ Byte.x00 :: rest') /\
    room MANIFEST_BUFFER (done_ ++ concat pieces) ((done_ ++ concat pieces) ++ Byte.x00 :: rest').
Proof.
  induction pieces as [|p pieces IH]; intros done_ rest R Ht; cbn [print_pieces concat] in *.
  - rewrite app_nil_r. by exists rest.
  - rewrite zlen_app in Ht. pose proof (zlen_nonneg (concat pieces)).
    destruct (print_at_ok MANIFEST_BUFFER done_ p _ R) as (r & E & R'); [lia|done|].
    rewrite (bind_ok _ _ _ _ _ E), app_assoc. apply IH; [done|]. rewrite zlen_app. lia.
Qed.

(** A text in a block: what [print_at] does with it is seen in its outcome and the length of the block. *)
Lemma print_at_cases total offset text buf :
  0 <= total < 2 ^ 31 -> 0 <= offset < 2 ^ 31 -> zlen buf = total ->
  (exists buf', print_at total offset text buf = (Ok (offset + zlen text), buf') /\ zlen buf' = total /\
     offset <= total /\ offset + zlen text < 2 ^ 31) \/
  fst (print_at total offset text buf) = Fault.
Proof.
  intros Ht Ho Hb. unfold print_at, snprintf, bind, ret, store, fault. pose proof (zlen_nonneg text).
  destruct (Z.eqb_spec (wrap 64 (total - offset)) 0) as [E|E].
  { assert (offset = total) as ->.
    { destruct (Z.le_gt_cases offset total); [rewrite wrap_small in E by lia; lia|].
      unfold wrap in E. rewrite <- (Z.mod_add _ 1) in E by done. rewrite Z.mod_small in E by lia. lia. }
    destruct (_ <=? _) eqn:El; bdestruct; [by right|]. left. exists buf. split_and!; [done|lia..]. }
  set (bs := take _ _ ++ _). destruct (Z_le_gt_dec (offset + zlen bs) (zlen buf)) as [Hf|Hf].
  - destruct (buf_copy_spec buf offset bs ltac:(lia) Hf) as (buf' & -> & Hl & _).
    destruct (_ <=? _) eqn:El; bdestruct; [by right|]. left. exists buf'. pose proof (zlen_nonneg bs). split_and!; [done|lia..].
  - unfold buf_copy. cmps. by right.
Qed.

(** A piece that starts behind the block cannot be written. *)
Lemma print_pieces_faults pieces last : forall offset buf,
  0 <= offset < 2 ^ 31 -> zlen buf = MANIFEST_BUFFER -> MANIFEST_BUFFER < offset + zlen (concat pieces) ->
  fst (print_pieces (pieces ++ [last]) offset buf) = Fault.
Proof.
  assert (0 <= MANIFEST_BUFFER < 2 ^ 31) as Ht by done.
  induction pieces as [|p pieces IH]; intros offset buf Ho Hb Hl; cbn [app print_pieces concat] in *; unfold bind at 1.
  - change (zlen (@nil byte)) with 0 in Hl.
    destruct (print_at_cases _ offset last buf Ht Ho Hb) as [(buf' & -> & _ & Hle & _)|E]; [lia|].
    destruct (print_at _ _ _ _) as [[]]; cbn [fst] in *; congruence.
  - rewrite zlen_app in Hl. pose proof (zlen_nonneg p).
    destruct (print_at_cases _ offset p buf Ht Ho Hb) as [(buf' & -> & Hb' & _ & Hm)|E].
    + apply IH; [lia|done|lia].
    + destruct (print_at _ _ _ _) as [[]]; cbn [fst] in *; congruence.
Qed.

(** The text of a manifest without and with its last part. *)
Definition manifest_body (name : list byte) (storage payable : bool) (m : neoc_contract_manifest_t) : list (list byte) :=
  manifest_head name storage payable :: standard_pieces (mf_supported_standards m) ++ [abi_head] ++ entry_pieces method_text (mf_methods m) ++
  [events_head] ++ entry_pieces event_text (mf_events m).

Definition manifest_text (name : list byte) (storage payable : bool) (m : neoc_contract_manifest_t) : list byte :=
  concat (manifest_pieces name storage payable m).

Lemma manifest_pieces_split name storage payable m :
  manifest_pieces name storage payable m = manifest_body name storage payable m ++ [manifest_foot (mf_extra m)].
Proof. unfold manifest_pieces, manifest_body. cbn [app]. f_equal. rewrite <- !app_assoc. cbn [app]. by rewrite <- !app_assoc. Qed.

Lemma fresh_room : room MANIFEST_BUFFER [] (replicate (Z.to_nat MANIFEST_BUFFER) junk).
Proof. split; [by rewrite zlen_replicate|by eexists]. Qed.

(** The JSON text of a manifest is written into a block of 8192 bytes whatever its length.  A text that leaves room
    for the terminator is there completely, with its length; when the part before the closing one is longer than the
    block, the text is written behind it. *)
Theorem manifest_text_fits (m : neoc_contract_manifest_t) (name : list byte) (storage payable : bool) :
  malloc_ok MANIFEST_BUFFER = true -> mf_name m = Some name ->
  neoc_contract_manifest_has_storage_feature m = Ok storage -> neoc_contract_manifest_has_payable_feature m = Ok payable ->
  (zlen (manifest_text name storage payable m) < MANIFEST_BUFFER ->
   exists rest, neoc_contract_manifest_to_json junk m
     = Ok (manifest_text name storage payable m ++ Byte.x00 :: rest, zlen (manifest_text name storage payable m)) /\
     zlen (manifest_text name storage payable m ++ Byte.x00 :: rest) = MANIFEST_BUFFER) /\
  (MANIFEST_BUFFER < zlen (concat (manifest_body name storage payable m)) -> neoc_contract_manifest_to_json junk m = Fault).
Proof.
  intros Hm Hn Hs Hp. unfold neoc_contract_manifest_to_json, neoc_malloc_ok. rewrite Hm, Hn, Hs, Hp. cbn [negb]. split.
  - intros Hl. unfold manifest_text in *. unfold manifest_pieces in *. set (pieces := standard_pieces _ ++ _) in *.
    cbn [concat print_pieces] in *. rewrite zlen_app in Hl. pose proof (zlen_nonneg (concat pieces)).
    destruct (print_at_ok _ [] (manifest_head name storage payable) _ fresh_room) as (r1 & E1 & R1); [zlen_nils; lia|done|].
    cbn [app] in *. change (zlen (@nil byte)) with 0 in E1.
    destruct (print_pieces_ok pieces _ _ R1 Hl) as (r2 & E2 & R2 & _).
    cbn [rbind]. rewrite (bind_ok _ _ _ _ _ E1), E2. by exists r2.
  - intros Hl. cbn [rbind]. rewrite manifest_pieces_split.
    pose proof (print_pieces_faults (manifest_body name storage payable m) (manifest_foot (mf_extra m)) 0
      (replicate (Z.to_nat MANIFEST_BUFFER) junk)) as F.
    destruct (print_pieces _ _ _) as [[]]; cbn [fst] in F; try discriminate F; try done; by rewrite F.
Qed.
End Text.

(** ** Methods *)

(** A method to add: its name, parameters, the offset, the return type and whether it is safe. *)
Record method_entry := mk_entry {
  en_name : list byte; en_parameters : list neoc_contract_method_parameter_t; en_offset : Z; en_return_type : Z; en_safe : bool
}.

Section Methods.
Context `{Allocator} `{Double}.

Definition add_entry (e : method_entry) : Mf unit :=
  neoc_contract_manifest_add_method (Some (en_name e)) (Some (en_parameters e)) (zlen (en_parameters e)) (en_offset e) (en_return_type e) (en_safe e).

(** The method kept for an entry: the pointer to the parameters is set when there are any. *)
Definition entry_method (e : method_entry) : neoc_contract_method_t :=
  mk_method (en_name e) (match en_parameters e with [] => Indeterminate | ps => Set_to ps end) (zlen (en_parameters e))
    (en_offset e) (en_return_type e) (en_safe e).

Lemma add_entry_appends e m m' :
  add_entry e m = (Ok tt, m') -> m' = set_methods (mf_methods m ++ [entry_method e]) m.
Proof.
  unfold add_entry, neoc_contract_manifest_add_method, copy_text, entry_method.
  destruct (neoc_malloc_ok _); [|done]. destruct (neoc_malloc_ok _); [|done]. cbn [negb].
  destruct (en_parameters e) as [|p ps] eqn:E; [intros [= <-]; done|].
  assert ((0 <? zlen (p :: ps)) = true) as -> by (apply Z.ltb_lt; unfold zlen; cbn [length]; lia).
  destruct (neoc_malloc_ok _); [|done]. cbn [negb]. rewrite buf_slice_all. intros [= <-]. done.
Qed.

Lemma add_entries_append es : forall m m',
  for_each add_entry es m = (Ok tt, m') -> m' = set_methods (mf_methods m ++ map entry_method es) m.
Proof.
  induction es as [|e es IH]; intros m m'; cbn [for_each map].
  - intros [= <-]. rewrite app_nil_r. by destruct m.
  - unfold bind. destruct (add_entry e m) as [[[]|c|] m1] eqn:E; try done. intros ->%IH.
    apply add_entry_appends in E as ->. cbn. by rewrite <- app_assoc.
Qed.

Lemma find_added name es :
  List.find (fun method => bool_decide (md_name method = name)) (map entry_method es)
  = entry_method <$> List.find (fun e => bool_decide (en_name e = name)) es.
Proof. induction es as [|e es IH]; cbn; [done|]. by destruct (bool_decide _). Qed.

(** Freeing the methods succeeds when each of them has parameters. *)
Lemma free_methods es s :
  for_each (fun method => free_field (md_parameters method)) (map entry_method es) s
  = (if forallb (fun e => negb (bool_decide (en_parameters e = []))) es then Ok tt else Fault, s).
Proof.
  induction es as [|e es IH]; cbn [map for_each forallb]; [done|]. unfold bind, free_field.
  cbn [entry_method md_parameters]. destruct (en_parameters e); cbn; [done|]. apply IH.
Qed.

(** A manifest keeps the methods that were added to it in their order: they are counted, found by their index and by
    their name, where the first of a name is found, and their offsets are read as unsigned numbers.  Disposing of the
    manifest goes well only when every one of them has parameters: the pointer to the parameters of a method without any
    is never set and is freed. *)
Theorem manifest_methods_kept (m0 m : neoc_contract_manifest_t) (es : list method_entry) (name : list byte) (i : nat) :
  neoc_contract_manifest_create = Ok m0 -> for_each add_entry es m0 = (Ok tt, m) ->
  neoc_contract_manifest_get_method_count m = zlen es /\
  neoc_contract_manifest_get_method m (Z.of_nat i)
    = (match es !! i with Some e => Ok (entry_method e) | None => Err NEOC_ERROR_OUT_OF_BOUNDS end) /\
  neoc_contract_manifest_get_method_by_name m name
    = (match List.find (fun e => bool_decide (en_name e = name)) es with
       | Some e => Ok (entry_method e)
       | None => Err NEOC_ERROR_NOT_FOUND
       end) /\
  fst (neoc_contract_manifest_dispose m)
    = (if forallb (fun e => negb (bool_decide (en_parameters e = []))) es then Ok tt else Fault).
Proof.
  unfold neoc_contract_manifest_create. destruct (neoc_malloc_ok _); [|done]. cbn [negb].
  destruct (neoc_strdup _ _) as [n| |]; [|done..]. intros [= <-] ->%add_entries_append. unfold set_methods. cbn [mf_methods app mf_name mf_supported_standards mf_events mf_permissions mf_extra].
  unfold neoc_contract_manifest_get_method_count, neoc_contract_manifest_get_method, neoc_contract_manifest_get_method_by_name.
  cbn [mf_methods]. split_and!.
  - unfold zlen. by rewrite length_map.
  - rewrite Nat2Z.id. change (map entry_method es) with (entry_method <$> es). rewrite list_lookup_fmap. by destruct (es !! i).
  - rewrite find_added. by destruct (List.find _ es).
  - unfold neoc_contract_manifest_dispose, bind at 1, get. cbn [mf_methods mf_events]. unfold bind at 1. rewrite free_methods.
    by destruct (forallb _ _).
Qed.
End Methods.

(** ** Samples *)

Section Samples.
#[local] Existing Instance mib_heap.
#[local] Existing Instance toy_double.

Definition fresh_manifest : neoc_contract_manifest_t := mk_manifest (Some (str "Contract")) [] [] [] [] None.

Definition transfer : method_entry := mk_entry (str "transfer") [mk_method_parameter (str "from") 20] 7 16 false.
Definition symbol : method_entry := mk_entry (str "symbol") [] 12 19 true.

Lemma manifest_methods_kept_witness :
  exists m, for_each add_entry [transfer; symbol] fresh_manifest = (Ok tt, m) /\
    neoc_contract_manifest_get_method m 1 = Ok (entry_method symbol) /\ fst (neoc_contract_manifest_dispose m) = Fault.
Proof.
  eexists. split; [by vm_compute|].
  destruct (manifest_methods_kept fresh_manifest
    (set_methods [entry_method transfer; entry_method symbol] fresh_manifest) [transfer; symbol] (str "symbol") 1) as (_ & Hi & _ & Hd);
    [by vm_compute|by vm_compute|].
  split; [exact Hi|exact Hd].
Defined.

Definition long_name : neoc_contract_manifest_t := set_name (Some (replicate (Z.to_nat MANIFEST_BUFFER) Byte.x61)) fresh_manifest.

Lemma manifest_text_fits_witness :
  (exists block, neoc_contract_manifest_to_json Byte.xff fresh_manifest = Ok (block, zlen (manifest_text (str "Contract") false false fresh_manifest))) /\
  neoc_contract_manifest_to_json Byte.xff long_name = Fault.
Proof.
  split.
  - destruct (manifest_text_fits Byte.xff fresh_manifest (str "Contract") false false) as [F _]; try (by vm_compute).
    destruct F as (rest & E & _); [by vm_compute|]. eexists. exact E.
  - apply (manifest_text_fits Byte.xff long_name (replicate (Z.to_nat MANIFEST_BUFFER) Byte.x61) false false);
      [reflexivity..|]. apply Z.ltb_lt. vm_compute. reflexivity.
Defined.

(** The features that are set are never seen: the text has no member [features], and behind another text it is no JSON. *)
Lemma features_unseen features m extra :
  neoc_contract_manifest_set_extra extra fresh_manifest = (Ok tt, m) -> extra = None \/ extra = Some (str "{}") ->
  neoc_contract_manifest_has_storage_feature (snd (neoc_contract_manifest_set_features features m)) = Ok false /\
  neoc_contract_manifest_has_payable_feature (snd (neoc_contract_manifest_set_features features m)) = Ok false.
Proof.
  intros [= <-] He. unfold neoc_contract_manifest_set_features, feature_text.
  destruct (features =? _), (Z.land features CONTRACT_FEATURE_HAS_STORAGE =? 0), (Z.land features CONTRACT_FEATURE_PAYABLE =? 0),
    He as [-> | ->]; by vm_compute.
Qed.

(** A clone has the name, the standards and the names, offsets and safety of the methods; parameters, return types,
    events, permissions and the extra text are lost. *)
Definition full_manifest : neoc_contract_manifest_t :=
  mk_manifest (Some (str "Token")) [str "NEP-17"; str "NEP-11"] [entry_method transfer; entry_method symbol]
    [mk_event (str "Transfer") (Set_to [20; 20; 17]) 3] [mk_permission None None] (Some (str "{}")).

Example clone_keeps :
  neoc_contract_manifest_clone Byte.xff full_manifest
  = Ok (Some (mk_manifest (Some (str "Token")) [str "NEP-17"; str "NEP-11"]
      [mk_method (str "transfer") Indeterminate 0 7 0 false;
       mk_method (str "symbol") Indeterminate 0 12 0 true] [] [] None)).
Proof. vm_compute. reflexivity. Qed.

(** A negative offset is written as an unsigned number that no [int] holds when it is read. *)
Example clone_negative_offset :
  neoc_contract_manifest_clone Byte.xff (set_methods [mk_method (str "f") Indeterminate 0 (-1) 0 false] fresh_manifest) = Fault.
Proof. vm_compute. reflexivity. Qed.

(** A standard that is no string is copied from a pointer that was never set. *)
Example standard_not_a_string :
  neoc_contract_manifest_from_json (Some (str "{" ++ quote ++ str "supportedstandards" ++ quote ++ str ":[1]}")) = Fault.
Proof. vm_compute. reflexivity. Qed.
End Samples.
