(* ===== verification/NativeContracts.v ===== *)
(** * Tokens and native contracts (src/contract/)

    The wrappers that build the script of one contract call: the NEO token (neoc_token.c), GAS
    (gas_token.c), NEP-17 and NEP-11 tokens (token.c, fungible_token.c, non_fungible_token.c), the policy
    and role contracts (policy_contract.c, role_management.c), contract management
    (contract_management.c, without deployment) and the name service (neoc_name_service.c).

    A client that runs a script on a node is a function from scripts to results, a parameter.
    Balances that are asked of a node ([..._balance_of] with a client) are not modelled.  Pointers to
    the wrappers and to hashes are not NULL here. *)

From S2P Require Import Prelude BinaryWriter Hashes Interop Opcode NeoVM ScriptBuilder ScriptHelper EcKey Signature Bip32 EcPoint SmartContract Transaction Account TransactionBuilder.
#[local] Open Scope Z_scope.

(** ** Tokens *)

Inductive neoc_token_type_t : Set := NEOC_TOKEN_TYPE_FUNGIBLE | NEOC_TOKEN_TYPE_NON_FUNGIBLE.

Record neoc_token_t := mk_token {
  tk_contract_hash : neoc_hash160_t;
  tk_symbol : option (list byte);
  tk_name : option (list byte);
  tk_type : neoc_token_type_t
}.

Record neoc_fungible_token_t := mk_fungible {
  ft_base : neoc_token_t;
  ft_decimals : Z;
  ft_total_supply : Z
}.

Record neoc_gas_token_t := mk_gas_token { gas_fungible : option neoc_fungible_token_t }.

Record neoc_gas_token_transfer_request_t := mk_transfer_request {
  tr_to : neoc_hash160_t;
  tr_amount : Z;
  tr_data : option (list byte);
  tr_data_len : Z
}.

Definition token_struct_size : Z := 32.
Definition fungible_token_struct_size : Z := 48.
Definition gas_token_struct_size : Z := 8.
Definition neo_token_struct_size : Z := 72.

Definition NEOC_NEO_TOKEN_HASH : neoc_hash160_t := mk_hash160 (octet_list
  [0xf5; 0x63; 0xea; 0x40; 0xbc; 0x28; 0x3d; 0x4d; 0x0e; 0x05; 0xc4; 0x8e; 0xa3; 0x05; 0xb3; 0xf2; 0xa0; 0x73; 0x40; 0xef]).
Definition NEOC_GAS_TOKEN_HASH : neoc_hash160_t := mk_hash160 (octet_list
  [0xd2; 0xa4; 0xcf; 0xf3; 0x19; 0x13; 0x01; 0x61; 0x55; 0xe3; 0x8e; 0x47; 0x4a; 0x2c; 0x06; 0xd0; 0x8b; 0xe2; 0x76; 0xcf]).
Definition POLICY_CONTRACT_HASH : neoc_hash160_t := mk_hash160 (octet_list
  [0xcc; 0x5e; 0x40; 0x09; 0xd8; 0x22; 0xc3; 0x05; 0x50; 0xe9; 0xf2; 0x02; 0x3e; 0x45; 0xcf; 0xb8; 0x8d; 0xa5; 0x8c; 0x7c]).
Definition ROLE_MANAGEMENT_CONTRACT_HASH : neoc_hash160_t := mk_hash160 (octet_list
  [0x59; 0x7c; 0x32; 0x9e; 0x08; 0x71; 0x50; 0x48; 0xe1; 0x6f; 0xa8; 0x7b; 0x36; 0x33; 0xf5; 0x31; 0x27; 0x74; 0xd8; 0x49]).
Definition CONTRACT_MANAGEMENT_HASH : neoc_hash160_t := mk_hash160 (octet_list
  [0xff; 0xff; 0xff; 0xff; 0xff; 0xff; 0xff; 0xff; 0xff; 0xff; 0xff; 0xff; 0xff; 0xff; 0xff; 0xff; 0xff; 0xff; 0xff; 0x00]).
Definition NNS_CONTRACT_HASH : neoc_hash160_t := mk_hash160 (octet_list
  [0x50; 0xac; 0x1c; 0x37; 0x69; 0x0c; 0xc2; 0xca; 0xc0; 0x24; 0x13; 0x1e; 0xdb; 0x2e; 0x8f; 0x83; 0xb7; 0xe3; 0x5f; 0x4e]).

Definition NEO_TOKEN_TOTAL_SUPPLY : Z := 100000000.
Definition NEOC_GAS_TOKEN_INITIAL_SUPPLY : Z := 5200000000000000.

Section Operations.
Context `{Allocator} `{Interop}.

(** A script that is emitted and thrown away. *)
Definition emit_only (m : Wr unit) : res unit :=
  let? builder := neoc_script_builder_create in fst (m builder).

Definition neoc_token_create (contract_hash : option neoc_hash160_t) (type : neoc_token_type_t) : res neoc_token_t :=
  match contract_hash with
  | None => Err NEOC_ERROR_INVALID_ARGUMENT
  | Some contract_hash =>
      if negb (neoc_malloc_ok token_struct_size) || negb (neoc_malloc_ok NEOC_HASH160_SIZE) then Err NEOC_ERROR_MEMORY
      else let? hash := neoc_hash160_copy contract_hash in Ok (mk_token hash None None type)
  end.

(** *** fungible_token.c *)

Definition neoc_fungible_token_create (contract_hash : option neoc_hash160_t) : res neoc_fungible_token_t :=
  match contract_hash with
  | None => Err NEOC_ERROR_INVALID_ARGUMENT
  | Some _ =>
      if negb (neoc_malloc_ok fungible_token_struct_size) then Err NEOC_ERROR_MEMORY
      else let? base := neoc_token_create contract_hash NEOC_TOKEN_TYPE_FUNGIBLE in Ok (mk_fungible base 8 0)
  end.

(** The balance is 0 whatever the node would say. *)
Definition neoc_fungible_token_balance_of (token : neoc_fungible_token_t) (account : neoc_hash160_t) : res Z :=
  let? _ :=
    emit_only (do! neoc_script_builder_push_hash160 account in
               neoc_script_builder_emit_app_call (tk_contract_hash (ft_base token)) (str "balanceOf") 1) in
  Ok 0.

(** The data, or null. *)
Definition push_data_or_null (data : option (list byte)) (data_len : Z) : Wr unit :=
  match data with
  | Some _ => if 0 <? data_len then neoc_script_builder_push_data data data_len else neoc_script_builder_push_null
  | None => neoc_script_builder_push_null
  end.

Definition neoc_fungible_token_transfer (token : neoc_fungible_token_t) (from to : neoc_hash160_t) (amount : Z)
    (data : option (list byte)) (data_len : Z) : res unit :=
  if amount <=? 0 then Err NEOC_ERROR_INVALID_ARGUMENT
  else
    emit_only
      (do! push_data_or_null data data_len in
       do! neoc_script_builder_push_integer amount in
       do! neoc_script_builder_push_hash160 to in
       do! neoc_script_builder_push_hash160 from in
       neoc_script_builder_emit_app_call (tk_contract_hash (ft_base token)) (str "transfer") 4).

Definition neoc_fungible_token_get_decimals (token : option neoc_fungible_token_t) : Z :=
  match token with Some token => ft_decimals token | None => 0 end.
Definition neoc_fungible_token_get_total_supply (token : option neoc_fungible_token_t) : Z :=
  match token with Some token => ft_total_supply token | None => 0 end.

(** *** gas_token.c *)

Definition neoc_gas_token_validate (token : option neoc_gas_token_t) : res neoc_fungible_token_t :=
  match token with
  | Some (mk_gas_token (Some fungible)) => Ok fungible
  | _ => Err NEOC_ERROR_INVALID_ARGUMENT
  end.

Definition neoc_gas_token_create : res neoc_gas_token_t :=
  if negb (neoc_malloc_ok gas_token_struct_size) then Err NEOC_ERROR_MEMORY
  else
    let? hash_copy := neoc_hash160_copy NEOC_GAS_TOKEN_HASH in
    let? fungible := neoc_fungible_token_create (Some hash_copy) in
    let? name := neoc_strdup (str "GasToken") NEOC_ERROR_MEMORY in
    let? symbol := neoc_strdup (str "GAS") NEOC_ERROR_MEMORY in
    let base := ft_base fungible in
    Ok (mk_gas_token (Some (mk_fungible (mk_token (tk_contract_hash base) (Some symbol) (Some name) (tk_type base))
                              8 NEOC_GAS_TOKEN_INITIAL_SUPPLY))).

Definition neoc_gas_token_build_transfer_script (token : option neoc_gas_token_t) (from to : neoc_hash160_t) (amount : Z)
    (data : option (list byte)) (data_len : Z) : res (list byte) :=
  if amount =? 0 then Err NEOC_ERROR_INVALID_ARGUMENT
  else
    let? _ := neoc_gas_token_validate token in
    neoc_script_create_nep17_transfer NEOC_GAS_TOKEN_HASH from to amount data data_len.

Definition neoc_gas_token_transfer (token : option neoc_gas_token_t) (from to : neoc_hash160_t) (amount : Z)
    (data : option (list byte)) (data_len : Z) : res unit :=
  let? _ := neoc_gas_token_validate token in
  if amount =? 0 then Err NEOC_ERROR_INVALID_ARGUMENT
  else let? _ := neoc_gas_token_build_transfer_script token from to amount data data_len in Ok tt.

Definition neoc_gas_token_refuel (account : neoc_hash160_t) (amount : Z) : res unit :=
  if amount <=? 0 then Err NEOC_ERROR_INVALID_ARGUMENT
  else
    let? _ := neoc_script_create_contract_call NEOC_GAS_TOKEN_HASH (str "refuel")
                (Some [PARAM_HASH160 account; PARAM_INTEGER amount]) 2 in
    Ok tt.

(** One turn of the loop: the next script behind the ones there are. *)
Fixpoint append_transfers (from : neoc_hash160_t) (transfers : list neoc_gas_token_transfer_request_t) (combined : list byte)
  : res (list byte) :=
  match transfers with
  | [] => Ok combined
  | request :: transfers =>
      if tr_amount request =? 0 then Err NEOC_ERROR_INVALID_ARGUMENT
      else
        let? single_script :=
          neoc_script_create_nep17_transfer NEOC_GAS_TOKEN_HASH from (tr_to request) (tr_amount request)
            (tr_data request) (tr_data_len request) in
        if negb (neoc_malloc_ok (zlen combined + zlen single_script)) then Err NEOC_ERROR_MEMORY
        else append_transfers from transfers (combined ++ single_script)
  end.

Definition neoc_gas_token_build_multi_transfer_script (token : option neoc_gas_token_t) (from : neoc_hash160_t)
    (transfers : option (list neoc_gas_token_transfer_request_t)) : res (list byte) :=
  match transfers with
  | None | Some [] => Err NEOC_ERROR_INVALID_ARGUMENT
  | Some transfers =>
      let? _ := neoc_gas_token_validate token in append_transfers from transfers []
  end.

Definition neoc_gas_token_get_name (token : option neoc_gas_token_t) : res (list byte) :=
  let? fungible := neoc_gas_token_validate token in
  neoc_strdup (default (str "GasToken") (tk_name (ft_base fungible))) NEOC_ERROR_MEMORY.

Definition neoc_gas_token_get_symbol (token : option neoc_gas_token_t) : res (list byte) :=
  let? fungible := neoc_gas_token_validate token in
  neoc_strdup (default (str "GAS") (tk_symbol (ft_base fungible))) NEOC_ERROR_MEMORY.

Definition neoc_gas_token_get_decimals (token : option neoc_gas_token_t) : res Z :=
  let? fungible := neoc_gas_token_validate token in Ok (ft_decimals fungible).

Definition neoc_gas_token_get_script_hash (token : option neoc_gas_token_t) : res neoc_hash160_t :=
  let? _ := neoc_gas_token_validate token in neoc_hash160_copy NEOC_GAS_TOKEN_HASH.

Definition neoc_gas_token_get_total_supply (token : option neoc_gas_token_t) : res Z :=
  let? fungible := neoc_gas_token_validate token in
  Ok (if 0 <? ft_total_supply fungible then ft_total_supply fungible else NEOC_GAS_TOKEN_INITIAL_SUPPLY).

Definition neoc_gas_token_is_native_contract (token : option neoc_gas_token_t) : res bool :=
  let? _ := neoc_gas_token_validate token in Ok true.

Definition neoc_gas_token_get_contract_version (token : option neoc_gas_token_t) : res Z :=
  let? _ := neoc_gas_token_validate token in Ok 0.

Fixpoint strdup_all (names : list (list byte)) : res (list (list byte)) :=
  match names with
  | [] => Ok []
  | name :: names =>
      let? copy := neoc_strdup name NEOC_ERROR_MEMORY in let? copies := strdup_all names in Ok (copy :: copies)
  end.

Definition neoc_gas_token_get_supported_methods (token : option neoc_gas_token_t) : res (list (list byte)) :=
  let? _ := neoc_gas_token_validate token in
  if negb (neoc_malloc_ok (6 * 8)) then Err NEOC_ERROR_MEMORY
  else strdup_all [str "symbol"; str "decimals"; str "totalSupply"; str "balanceOf"; str "transfer"; str "refuel"].

(** *** neoc_token.c *)

(** The three pointers at the start of the struct are numbers here. *)
Record neoc_neo_token_t := mk_neo_token {
  nt_contract_hash : Z;
  nt_base_symbol : Z;
  nt_base_name : Z;
  nt_base_decimals : Z;
  nt_base_total_supply : Z;
  nt_symbol : list byte;
  nt_decimals : Z;
  nt_total_supply : Z
}.

(** The 20 bytes of the hash are copied over the first pointers of a zeroed struct. *)
Definition neoc_neo_token_create : res neoc_neo_token_t :=
  if negb (neoc_malloc_ok neo_token_struct_size) then Err NEOC_ERROR_OUT_OF_MEMORY
  else
    let hash := hash160_data NEOC_NEO_TOKEN_HASH in
    Ok (mk_neo_token (le_val (take 8 hash)) (le_val (take 8 (drop 8 hash))) (le_val (drop 16 hash))
          0 NEO_TOKEN_TOTAL_SUPPLY (str "NEO") 0 NEO_TOKEN_TOTAL_SUPPLY).

Definition neoc_neo_token_get_name : res (list byte) := neoc_strdup (str "NeoToken") NEOC_ERROR_OUT_OF_MEMORY.
Definition neoc_neo_token_get_symbol_const : list byte := str "NEO".
Definition neoc_neo_token_get_symbol_copy : res (list byte) := neoc_strdup (str "NEO") NEOC_ERROR_OUT_OF_MEMORY.
Definition neoc_neo_token_get_decimals : Z := 0.
Definition neoc_neo_token_get_total_supply : Z := NEO_TOKEN_TOTAL_SUPPLY.
Definition neoc_neo_token_total_supply : Z := NEO_TOKEN_TOTAL_SUPPLY.
Definition neoc_neo_token_get_script_hash : neoc_hash160_t := NEOC_NEO_TOKEN_HASH.
Definition neoc_neo_token_get_gas_per_block : Z := 500000000.

Context `{PointArith}.

(** A script that becomes that of the transaction. *)
Definition attach_script (m : Wr unit) : M tb_state unit :=
  let! script := lift (script_with m) in neoc_tx_builder_set_script (Some script) (zlen script).

Definition neoc_neo_token_transfer (from to : neoc_hash160_t) (amount : Z) (data : option (list byte)) (data_len : Z) : M tb_state unit :=
  attach_script
    (do! push_data_or_null data data_len in
     do! neoc_script_builder_push_integer (swrap 64 amount) in
     do! neoc_script_builder_push_hash160 to in
     do! neoc_script_builder_push_hash160 from in
     neoc_script_builder_emit_app_call NEOC_NEO_TOKEN_HASH (str "transfer") 4).

Definition push_point (point : neoc_ec_point_t) : Wr unit :=
  let! '(encoded_key, encoded_len) := lift (neoc_ec_point_get_encoded point true) in
  neoc_script_builder_push_data (Some encoded_key) encoded_len.

Definition neoc_neo_token_register_candidate (public_key : neoc_ec_point_t) : M tb_state unit :=
  attach_script (do! push_point public_key in neoc_script_builder_emit_app_call NEOC_NEO_TOKEN_HASH (str "registerCandidate") 1).

Definition neoc_neo_token_unregister_candidate (public_key : neoc_ec_point_t) : M tb_state unit :=
  attach_script (do! push_point public_key in neoc_script_builder_emit_app_call NEOC_NEO_TOKEN_HASH (str "unregisterCandidate") 1).

Definition neoc_neo_token_vote (account : neoc_hash160_t) (candidate : option neoc_ec_point_t) : M tb_state unit :=
  attach_script
    (do! (match candidate with Some candidate => push_point candidate | None => neoc_script_builder_push_null end) in
     do! neoc_script_builder_push_hash160 account in
     neoc_script_builder_emit_app_call NEOC_NEO_TOKEN_HASH (str "vote") 2).

(** The amount is 0 whatever the node would say. *)
Definition neoc_neo_token_unclaimed_gas (account : neoc_hash160_t) (end_block : Z) : res Z :=
  let? _ :=
    emit_only (do! neoc_script_builder_push_integer end_block in
               do! neoc_script_builder_push_hash160 account in
               neoc_script_builder_emit_app_call NEOC_NEO_TOKEN_HASH (str "unclaimedGas") 2) in
  Ok 0.

(** ** policy_contract.c *)

Record neoc_policy_contract_t := mk_policy {
  po_contract : neoc_smart_contract_t;
  po_fee_per_byte : Z;
  po_exec_fee_factor : Z;
  po_storage_price : Z
}.

Definition policy_contract_struct_size : Z := 24.

Definition neoc_policy_contract_create : res neoc_policy_contract_t :=
  if negb (neoc_malloc_ok policy_contract_struct_size) then Err NEOC_ERROR_MEMORY
  else
    let? contract := neoc_smart_contract_create (Some POLICY_CONTRACT_HASH) (Some (str "Policy")) in
    Ok (mk_policy contract 1000 30 100000).

Definition policy_call (method : list byte) : res unit :=
  emit_only (neoc_script_builder_emit_app_call POLICY_CONTRACT_HASH method 0).

Definition neoc_policy_get_fee_per_byte (policy : neoc_policy_contract_t) : res Z :=
  let? _ := policy_call (str "getFeePerByte") in Ok (po_fee_per_byte policy).
Definition neoc_policy_get_exec_fee_factor (policy : neoc_policy_contract_t) : res Z :=
  let? _ := policy_call (str "getExecFeeFactor") in Ok (po_exec_fee_factor policy).
Definition neoc_policy_get_storage_price (policy : neoc_policy_contract_t) : res Z :=
  let? _ := policy_call (str "getStoragePrice") in Ok (po_storage_price policy).

Definition neoc_policy_is_blocked (account : neoc_hash160_t) : res bool :=
  let? _ :=
    emit_only (do! neoc_script_builder_push_data (Some (hash160_data account)) NEOC_HASH160_SIZE in
               neoc_script_builder_emit_app_call POLICY_CONTRACT_HASH (str "isBlocked") 1) in
  Ok false.

(** The fee is cast to [int64_t] on its way into the script. *)
Definition neoc_policy_set_fee_per_byte (fee : Z) : M neoc_policy_contract_t unit :=
  do! lift (emit_only (do! neoc_script_builder_emit_push_int (swrap 64 fee) in
                       neoc_script_builder_emit_app_call POLICY_CONTRACT_HASH (str "setFeePerByte") 1)) in
  fun policy => (Ok tt, mk_policy (po_contract policy) fee (po_exec_fee_factor policy) (po_storage_price policy)).

(** ** role_management.c *)

Definition neoc_role_management_create : res neoc_smart_contract_t :=
  if negb (neoc_malloc_ok 8) then Err NEOC_ERROR_MEMORY
  else neoc_smart_contract_create (Some ROLE_MANAGEMENT_CONTRACT_HASH) (Some (str "RoleManagement")).

(** No nodes, whatever the node would say. *)
Definition neoc_role_management_get_designated_by_role (role index : Z) : res (list neoc_ec_point_t) :=
  let? _ :=
    emit_only (do! neoc_script_builder_push_integer index in
               do! neoc_script_builder_push_integer role in
               neoc_script_builder_emit_app_call ROLE_MANAGEMENT_CONTRACT_HASH (str "getDesignatedByRole") 2) in
  Ok [].

(** What [neoc_role_management_designate_as_role] emits. *)
Definition designate_script (role : Z) (nodes : list neoc_ec_point_t) (count : Z) : Wr unit :=
  do! neoc_script_builder_push_integer (swrap 64 count) in
  do! push_items push_point nodes count in
  do! neoc_script_builder_push_integer role in
  neoc_script_builder_emit_app_call ROLE_MANAGEMENT_CONTRACT_HASH (str "designateAsRole") 2.

Definition neoc_role_management_designate_as_role (role : Z) (nodes : option (list neoc_ec_point_t)) (count : Z) : res unit :=
  match nodes with
  | None => Err NEOC_ERROR_INVALID_ARGUMENT
  | Some nodes => emit_only (designate_script role nodes count)
  end.

(** ** contract_management.c *)

Definition neoc_contract_management_destroy : res unit :=
  emit_only (neoc_script_builder_emit_app_call CONTRACT_MANAGEMENT_HASH (str "destroy") 0).

Definition contract_state_struct_size : Z := 336.

(** A state with the hash that was asked for and nothing else. *)
Definition neoc_contract_management_get_contract (hash : neoc_hash160_t) : res neoc_hash160_t :=
  let? _ :=
    emit_only (do! neoc_script_builder_push_hash160 hash in
               neoc_script_builder_emit_app_call CONTRACT_MANAGEMENT_HASH (str "getContract") 1) in
  if negb (neoc_malloc_ok contract_state_struct_size) then Err NEOC_ERROR_MEMORY else Ok hash.

Definition neoc_contract_management_has_contract (hash : neoc_hash160_t) : res bool :=
  match neoc_contract_management_get_contract hash with
  | Ok _ => Ok true
  | Err _ => Ok false
  | Fault => Fault
  end.
End Operations.

(** ** non_fungible_token.c *)

(** A node's answer to a script: [None] when it is not of the type that was asked for. *)
Definition invoke_script (A : Type) : Type := list byte -> res (option A).

(** [clients] is the client's function for the type of the result; [None] when there is no client or no
    function. *)
Record neoc_nft_t := mk_nft { nft_base : neoc_token_t; nft_divisible : bool }.

Definition nft_struct_size : Z := 48.

Section Nft.
Context `{Allocator} `{Interop}.

Definition neoc_nft_create (contract_hash : option neoc_hash160_t) (divisible : bool) : res neoc_nft_t :=
  match contract_hash with
  | None => Err NEOC_ERROR_INVALID_ARGUMENT
  | Some hash =>
      if negb (neoc_malloc_ok nft_struct_size) then Err NEOC_ERROR_MEMORY
      else Ok (mk_nft (mk_token hash None None NEOC_TOKEN_TYPE_NON_FUNGIBLE) divisible)
  end.

Definition nft_call (nft : neoc_nft_t) (method : list byte) (param_count : Z) : Wr unit :=
  neoc_script_builder_emit_app_call (tk_contract_hash (nft_base nft)) method param_count.

(** What a client answers, or the default. *)
Definition ask_or {A} (client : option (invoke_script A)) (script : list byte) (fallback : A) : res A :=
  match client with
  | None => Ok fallback
  | Some invoke =>
      match invoke script with
      | Ok (Some v) => Ok v
      | Ok None | Err _ => Ok fallback
      | Fault => Fault
      end
  end.

(** A copy of a string by [strdup]; NULL when there is no memory. *)
Definition strdup (s : list byte) : option (list byte) := if malloc_ok (zlen s + 1) then Some s else None.

(** The result is the symbol and the state the token with the symbol it keeps. *)
Definition neoc_nft_symbol (client : option (invoke_script (list byte))) : M neoc_nft_t (option (list byte)) := fun nft =>
  let base := nft_base nft in
  match tk_symbol base with
  | Some symbol => (Ok (strdup symbol), nft)
  | None =>
      match (let? script := script_with (nft_call nft (str "symbol") 0) in ask_or client script (str "NFT")) with
      | Ok symbol =>
          (Ok (strdup symbol),
           mk_nft (mk_token (tk_contract_hash base) (strdup symbol) (tk_name base) (tk_type base)) (nft_divisible nft))
      | Err e => (Err e, nft)
      | Fault => (Fault, nft)
      end
  end.

Definition neoc_nft_decimals : Z := 0.

Definition neoc_nft_total_supply (client : option (invoke_script Z)) (nft : neoc_nft_t) : res Z :=
  let? script := script_with (nft_call nft (str "totalSupply") 0) in ask_or client script 0.

Definition neoc_nft_balance_of (client : option (invoke_script Z)) (nft : neoc_nft_t) (account : neoc_hash160_t) : res Z :=
  let? script :=
    script_with (do! neoc_script_builder_push_data (Some (hash160_data account)) NEOC_HASH160_SIZE in
                 nft_call nft (str "balanceOf") 1) in
  ask_or client script 0.

(** The functions below build a script without the arguments it packs; the node is not asked. *)
Definition neoc_nft_tokens_of (nft : neoc_nft_t) : res unit :=
  let? _ := script_with (nft_call nft (str "tokensOf") 1) in Ok tt.

Definition neoc_nft_owner_of (nft : neoc_nft_t) : res unit :=
  let? _ := script_with (nft_call nft (str "ownerOf") 1) in Ok tt.

Definition neoc_nft_transfer (nft : neoc_nft_t) : res unit :=
  let? _ := script_with (nft_call nft (str "transfer") 3) in Ok tt.

Definition neoc_nft_properties (nft : neoc_nft_t) : res unit :=
  let? _ := script_with (nft_call nft (str "properties") 1) in Ok tt.

(** ** neoc_name_service.c *)

Definition neoc_nns_create : res neoc_smart_contract_t :=
  if negb (neoc_malloc_ok 16) then Err NEOC_ERROR_MEMORY
  else neoc_smart_contract_create (Some NNS_CONTRACT_HASH) (Some (str "NNS")).

Definition nns_call (method : list byte) (param_count : Z) : Wr unit :=
  neoc_script_builder_emit_app_call NNS_CONTRACT_HASH method param_count.

Definition push_text (s : list byte) : Wr unit := neoc_script_builder_push_data (Some s) (zlen s).

(** The error and what the result pointer holds afterwards; [default] when the client has no answer. *)
Definition ask_node {A} (client : option (invoke_script A)) (script : list byte) (fallback : A) : res (res unit * A) :=
  match client with
  | None => Ok (Err NEOC_ERROR_NETWORK, fallback)
  | Some invoke =>
      match invoke script with
      | Ok (Some v) => Ok (Ok tt, v)
      | Ok None => Ok (Ok tt, fallback)
      | Err e => Ok (Err e, fallback)
      | Fault => Fault
      end
  end.

Definition resolve_script (name : list byte) (type : Z) : Wr unit :=
  do! neoc_script_builder_emit_push_int type in do! push_text name in nns_call (str "resolve") 2.

(** The text is a copy by [strdup]. *)
Definition neoc_nns_resolve (client : option (invoke_script (list byte))) (name : list byte) (type : Z)
  : res (res unit * option (list byte)) :=
  let? script := script_with (resolve_script name type) in
  match client with
  | None => Ok (Err NEOC_ERROR_NETWORK, None)
  | Some invoke =>
      match invoke script with
      | Ok (Some v) => Ok (Ok tt, strdup v)
      | Ok None => Ok (Ok tt, None)
      | Err e => Ok (Err e, None)
      | Fault => Fault
      end
  end.

Definition neoc_nns_is_available (client : option (invoke_script bool)) (name : list byte) : res (res unit * bool) :=
  let? script := script_with (do! push_text name in nns_call (str "isAvailable") 1) in ask_node client script false.

(** What registering a name and setting a record emit; the scripts are freed. *)
Definition register_script (name : list byte) (owner : neoc_hash160_t) : Wr unit :=
  do! neoc_script_builder_push_data (Some (hash160_data owner)) NEOC_HASH160_SIZE in do! push_text name in nns_call (str "register") 2.

Definition neoc_nns_register (name : list byte) (owner : neoc_hash160_t) : res unit :=
  let? _ := script_with (register_script name owner) in Ok tt.

Definition set_record_script (name : list byte) (type : Z) (data : list byte) : Wr unit :=
  do! push_text data in do! neoc_script_builder_emit_push_int type in do! push_text name in nns_call (str "setRecord") 3.

Definition neoc_nns_set_record (name : list byte) (type : Z) (data : list byte) : res unit :=
  let? _ := script_with (set_record_script name type data) in Ok tt.

(** The standard price of a name, in GAS fractions. *)
Definition standard_price (length : Z) : Z :=
  if length <=? 1 then 0
  else if length =? 2 then 1000 * 100000000
  else if length =? 3 then 500 * 100000000
  else if length =? 4 then 200 * 100000000
  else if length =? 5 then 60 * 100000000
  else 10 * 100000000.

Definition neoc_nns_get_price (client : option (invoke_script Z)) (length : Z) : res (res unit * Z) :=
  let? script := script_with (do! neoc_script_builder_emit_push_int length in nns_call (str "getPrice") 1) in
  ask_node client script (standard_price length).
End Nft.

(** ** Scripts piece by piece *)

Section Pieces.
Context `{Allocator} `{Interop}.

(** [m] emits at most [len] bytes that push [vs]. *)
Definition emits (m : Wr unit) (vs : list item) (len : Z) : Prop :=
  exists bs, writes m bs /\ pushes_all bs vs /\ zlen bs <= len.

(** [prog] pushes [vs] in at most [len] bytes, packs the top [n] items and calls. *)
Definition calls (prog : Wr unit) (hash method : list byte) (n : Z) (vs : list item) (len : Z) : Prop :=
  exists pre, writes prog (pre ++ pack_bytes n ++ call_tail hash method NEOC_CALL_FLAGS_ALL) /\ pushes_all pre vs /\ zlen pre <= len.

Lemma calls_push m prog hash method n va la vs len :
  emits m va la -> calls prog hash method n vs len -> calls (do! m in prog) hash method n (va ++ vs) (la + len).
Proof.
  intros (ba & Wa & Pa & La) (pre & W & P & L). exists (ba ++ pre). rewrite <- app_assoc. split_and!.
  - by apply writes_bind.
  - by apply pushes_all_app.
  - rewrite zlen_app. lia.
Qed.

Lemma calls_app_call h method n :
  0 <= n < 2 ^ 63 -> hash160_ok h -> calls (neoc_script_builder_emit_app_call h method n) (reverse (hash160_data h)) method n [] 0.
Proof. intros Hn Hh. exists []. split_and!; [by apply app_call_emits|apply pushes_all_nil|done]. Qed.

Lemma calls_script prog hash method n vs len :
  calls prog hash method n vs len -> 0 <= n <= zlen vs -> n < 2 ^ 63 -> zlen method < 2 ^ 32 -> zlen hash = 20 ->
  len + zlen method <= 2 ^ 40 -> heap_serves (2 * (len + zlen method) + 1024) ->
  exists script, script_with prog = Ok script /\ zlen script <= len + zlen method + 80 /\
    runs (script, []) (syscall_bytes NEOC_INTEROP_SYSTEM_CONTRACT_CALL, called hash method NEOC_CALL_FLAGS_ALL n (rev vs)).
Proof.
  intros (pre & W & P & L) Hn Hl Hm Hh Hs Hheap.
  destruct (calling_script prog pre vs hash method NEOC_CALL_FLAGS_ALL n) as (script & Es & Hz & Hr); try done; [lia| |].
  - eapply heap_serves_mono; [exact Hheap|lia].
  - exists script. split_and!; [done|lia|done].
Qed.

(** Without enough items the machine stops at the instruction that packs. *)
Lemma calls_stuck prog hash method n vs len :
  calls prog hash method n vs len -> zlen vs < n < 2 ^ 63 -> zlen method < 2 ^ 32 -> zlen hash = 20 ->
  len + zlen method <= 2 ^ 40 -> heap_serves (2 * (len + zlen method) + 1024) ->
  exists script rest, script_with prog = Ok script /\
    runs (script, []) (byte_of_Z NEOC_OP_PACK :: rest, Integer n :: rev vs) /\
    step (byte_of_Z NEOC_OP_PACK :: rest, Integer n :: rev vs) = None.
Proof.
  intros (pre & W & P & L) Hn Hm Hh Hs Hheap. exists (pre ++ pack_bytes n ++ call_tail hash method NEOC_CALL_FLAGS_ALL).
  exists (call_tail hash method NEOC_CALL_FLAGS_ALL). pose proof (pack_size n). pose proof (tail_size hash method NEOC_CALL_FLAGS_ALL Hh).
  pose proof (zlen_nonneg pre). pose proof (zlen_nonneg method). split.
  - apply script_with_ok; [done|rewrite !zlen_app; unfold stream_max; lia|]. eapply heap_serves_mono; [exact Hheap|]. rewrite !zlen_app. lia.
  - destruct (pack_stuck n (call_tail hash method NEOC_CALL_FLAGS_ALL) (rev vs)) as (c & Hr & Hst & ->); [unfold zlen in *; rewrite length_rev; lia|].
    split; [|done]. etransitivity; [apply P|]. by rewrite app_nil_r.
Qed.

Lemma emits_null : emits neoc_script_builder_push_null [Null] 1.
Proof. exists null_bytes. split_and!; [apply emit_writes|apply pushes_all_one, null_pushes|done]. Qed.

Lemma emits_integer v : int64 v = true -> emits (neoc_script_builder_push_integer v) [Integer v] 9.
Proof.
  intros Hv. exists (push_integer_bytes v). split_and!; [by apply push_integer_writes|by apply pushes_all_one, push_integer_pushes|apply push_integer_size].
Qed.

Lemma emits_data d n : zlen d = n -> zlen d < 2 ^ 32 -> emits (neoc_script_builder_push_data (Some d) n) [data_item d] (5 + zlen d).
Proof.
  intros Hn Hd. exists (push_data_bytes d). split_and!; [by apply push_data_writes_len|by apply pushes_all_one, push_data_pushes|].
  pose proof (push_data_size d). lia.
Qed.

(** Data that is not empty is pushed as bytes. *)
Lemma emits_bytes d n : zlen d = n -> 0 < zlen d < 2 ^ 32 -> emits (neoc_script_builder_push_data (Some d) n) [ByteString d] (5 + zlen d).
Proof. intros Hn Hd. rewrite <- data_item_long by lia. apply emits_data; [done|lia]. Qed.

Lemma emits_hash160 h : hash160_ok h -> emits (neoc_script_builder_push_hash160 h) [ByteString (reverse (hash160_data h))] 25.
Proof.
  intros Hh. exists (push_data_bytes (reverse (hash160_data h))). unfold hash160_ok, NEOC_HASH160_SIZE in Hh. split_and!.
  - by apply push_hash160_writes.
  - apply pushes_all_one, data_pushes_long. rewrite zlen_reverse, Hh. lia.
  - pose proof (push_data_size (reverse (hash160_data h))). rewrite zlen_reverse, Hh in *. lia.
Qed.

(** What the optional data of a transfer stands for. *)
Definition data_or_null (data : option (list byte)) : item :=
  match data with Some d => if 0 <? zlen d then ByteString d else Null | None => Null end.

Lemma emits_data_or_null data len :
  len = zlen (default [] data) -> len < 2 ^ 32 -> emits (push_data_or_null data len) [data_or_null data] (5 + len).
Proof.
  intros Hl Hlen. pose proof (zlen_nonneg (default [] data)). unfold push_data_or_null, data_or_null.
  destruct data as [d|].
  - change (default [] (Some d)) with d in *. rewrite <- Hl. destruct (Z.ltb_spec 0 len).
    + rewrite Hl. apply emits_bytes; [done|lia].
    + destruct emits_null as (bs & W & P & L). exists bs. split_and!; [done|done|lia].
  - destruct emits_null as (bs & W & P & L). exists bs. split_and!; [done|done|lia].
Qed.
End Pieces.

(** ** NEO *)

Section Neo.
Context `{Allocator} `{Interop} `{PointArith}.

Lemma neo_hash_ok : hash160_ok NEOC_NEO_TOKEN_HASH.
Proof. done. Qed.

(** The builder with a script. *)
Definition with_script (script : list byte) (s : tb_state) : tb_state :=
  mk_tb_state _ (set_script (Some script) (zlen script) (ts_builder s)) (ts_blocks s) (ts_transactions s).

Lemma attach_script_ok m script s :
  script_with m = Ok script -> 0 < zlen script <= 65536 -> heap_serves 65536 ->
  attach_script m s = (Ok tt, with_script script s).
Proof.
  intros Es Hl Hh. unfold attach_script, bind, lift. rewrite Es. unfold neoc_tx_builder_set_script, TX_BUILDER_MAX_SCRIPT_SIZE. cmps.
  unfold bind, get_builder, neoc_malloc_ok. cmps. rewrite Hh by lia. cbn [negb].
  unfold lift, memcpy_from. rewrite buf_slice_all. done.
Qed.

(** A call of the NEO contract whose arguments are all that was pushed. *)
Lemma neo_call_attached prog method n vs len s :
  calls prog (reverse (hash160_data NEOC_NEO_TOKEN_HASH)) method n vs len -> n = zlen vs -> n < 2 ^ 31 ->
  0 < zlen method <= 64 -> 0 <= len <= 65000 -> heap_serves (2 ^ 18) ->
  exists script, attach_script prog s = (Ok tt, with_script script s) /\
    runs (script, [])
      (syscall_bytes NEOC_INTEROP_SYSTEM_CONTRACT_CALL,
       [ByteString (reverse (hash160_data NEOC_NEO_TOKEN_HASH)); ByteString method; Integer NEOC_CALL_FLAGS_ALL; VArray (rev vs)]).
Proof.
  intros Hc Hn Hl Hm Hlen Hh. pose proof (zlen_nonneg vs).
  destruct (calls_script prog (reverse (hash160_data NEOC_NEO_TOKEN_HASH)) method n vs len Hc) as (script & Es & Hz & Hr);
    [lia|eval_pows; lia|eval_pows; lia|done|lia|eapply heap_serves_mono; [exact Hh|lia]|].
  assert (0 < zlen script).
  { destruct script as [|b script]; [|rewrite zlen_cons; pose proof (zlen_nonneg script); lia]. exfalso.
    apply rtc_inv in Hr as [Hx|(c & Hx & _)]; discriminate Hx. }
  exists script. split; [apply attach_script_ok; [done|lia|eapply heap_serves_mono; [exact Hh|lia]]|].
  unfold called in Hr. rewrite data_item_long in Hr by lia. subst n. unfold zlen in Hr. rewrite Nat2Z.id in Hr.
  rewrite <- length_rev, firstn_all, drop_all in Hr. exact Hr.
Qed.

(** The script of a transfer of NEO becomes that of the transaction and calls [transfer] with the sender, the
    receiver, the amount and the data or null; an amount of 2^63 or more is passed as a negative number. *)
Theorem neo_transfer_calls from to amount data s :
  hash160_ok from -> hash160_ok to -> 0 <= amount < 2 ^ 64 -> zlen (default [] data) <= 64000 -> heap_serves (2 ^ 18) ->
  exists script,
    neoc_neo_token_transfer from to amount data (zlen (default [] data)) s = (Ok tt, with_script script s) /\
    runs (script, [])
      (syscall_bytes NEOC_INTEROP_SYSTEM_CONTRACT_CALL,
       [ByteString (reverse (hash160_data NEOC_NEO_TOKEN_HASH)); ByteString (str "transfer"); Integer NEOC_CALL_FLAGS_ALL;
        VArray [ByteString (reverse (hash160_data from)); ByteString (reverse (hash160_data to));
                Integer (if amount <? 2 ^ 63 then amount else amount - 2 ^ 64); data_or_null data]]).
Proof.
  intros Hf Ht Ha Hd Hh. pose proof (zlen_nonneg (default [] data)).
  assert (swrap 64 amount = if amount <? 2 ^ 63 then amount else amount - 2 ^ 64) as <-.
  { destruct (Z.ltb_spec amount (2 ^ 63)); [apply swrap_small; eval_pows; lia|]. unfold swrap, wrap. rewrite Z.mod_small by lia. change (2 ^ (64 - 1)) with (2 ^ 63). by cmps. }
  apply (neo_call_attached _ (str "transfer") 4 ([data_or_null data] ++ [Integer (swrap 64 amount)] ++
    [ByteString (reverse (hash160_data to))] ++ [ByteString (reverse (hash160_data from))] ++ [])
    ((5 + zlen (default [] data)) + (9 + (25 + (25 + 0))))); try done; [|lia].
  apply calls_push; [apply emits_data_or_null; [done|eval_pows; lia]|].
  apply calls_push; [apply emits_integer; pose proof (swrap_range 64 amount ltac:(lia)); unfold int64; cmps; lia|]. apply calls_push; [by apply emits_hash160|].
  apply calls_push; [by apply emits_hash160|]. apply calls_app_call; [eval_pows; lia|apply neo_hash_ok].
Qed.

Lemma emits_point e p :
  sec1_works -> heap_serves 128 -> stands_for e (ec_affine p) -> emits (push_point e) [ByteString (EC_POINT_point2oct true p)] 38.
Proof.
  intros Hs Hh He. pose proof (octets_size Hs true p) as Hl. cbn in Hl. unfold push_point. rewrite (get_encoded_ok Hs e p true He Hh).
  destruct (emits_bytes (EC_POINT_point2oct true p) 33) as (bs & W & P & L); [done|lia|].
  exists bs. split_and!; [by apply writes_lift|done|lia].
Qed.

(** A candidate as an argument: the compressed key, or null to take the vote back. *)
Definition candidate_item (candidate : option EC_POINT) : item :=
  match candidate with Some p => ByteString (EC_POINT_point2oct true p) | None => Null end.

(** Registering, unregistering and voting call the method with the candidate's compressed key, behind the voting account. *)
Theorem neo_candidate_calls e p account candidate s :
  sec1_works -> heap_serves (2 ^ 18) -> stands_for e (ec_affine p) -> hash160_ok account ->
  match candidate with Some (e', p') => stands_for e' (ec_affine p') | None => True end ->
  let attached m method args :=
    exists script, m s = (Ok tt, with_script script s) /\
      runs (script, [])
        (syscall_bytes NEOC_INTEROP_SYSTEM_CONTRACT_CALL,
         [ByteString (reverse (hash160_data NEOC_NEO_TOKEN_HASH)); ByteString method; Integer NEOC_CALL_FLAGS_ALL; VArray args]) in
  attached (neoc_neo_token_register_candidate e) (str "registerCandidate") [ByteString (EC_POINT_point2oct true p)] /\
  attached (neoc_neo_token_unregister_candidate e) (str "unregisterCandidate") [ByteString (EC_POINT_point2oct true p)] /\
  attached (neoc_neo_token_vote account (fst <$> candidate)) (str "vote")
    [ByteString (reverse (hash160_data account)); candidate_item (snd <$> candidate)].
Proof.
  intros Hs Hh He Ha Hc attached. assert (heap_serves 128) as Hh' by (eapply heap_serves_mono; [exact Hh|lia]).
  assert (forall n method, 0 <= n < 2 ^ 31 -> calls (neoc_script_builder_emit_app_call NEOC_NEO_TOKEN_HASH method n)
    (reverse (hash160_data NEOC_NEO_TOKEN_HASH)) method n [] 0) as Hcall by (intros; apply calls_app_call; [eval_pows; lia|done]).
  split_and!.
  - apply (neo_call_attached _ (str "registerCandidate") 1 ([ByteString (EC_POINT_point2oct true p)] ++ []) (38 + 0)); try done.
    apply calls_push; [by apply emits_point|by apply Hcall].
  - apply (neo_call_attached _ (str "unregisterCandidate") 1 ([ByteString (EC_POINT_point2oct true p)] ++ []) (38 + 0)); try done.
    apply calls_push; [by apply emits_point|by apply Hcall].
  - apply (neo_call_attached _ (str "vote") 2 ([candidate_item (snd <$> candidate)] ++ [ByteString (reverse (hash160_data account))] ++ []) (38 + (25 + 0)));
      try done.
    apply calls_push; [|apply calls_push; [by apply emits_hash160|by apply Hcall]].
    destruct candidate as [[e' p']|]; cbn in *; [by apply emits_point|].
    destruct emits_null as (bs & W & P & L). exists bs. split_and!; [done|done|lia].
Qed.
End Neo.

(** ** GAS *)

Section Gas.
Context `{Allocator} `{Interop}.

Definition transfer_request_ok (r : neoc_gas_token_transfer_request_t) : Prop :=
  hash160_ok (tr_to r) /\ tr_data_len r = zlen (default [] (tr_data r)) /\ tr_data_len r <= 2 ^ 20.

(** The script of one transfer, which the stack machine runs as [nep17_transfer_reaches_syscall] says. *)
Definition request_script (from : neoc_hash160_t) (r : neoc_gas_token_transfer_request_t) : list byte :=
  transfer_bytes (hash160_data NEOC_GAS_TOKEN_HASH) (hash160_data from) (hash160_data (tr_to r)) (default [] (tr_data r)) (swrap 64 (tr_amount r)).

Definition no_empty_transfer (transfers : list neoc_gas_token_transfer_request_t) : bool :=
  forallb (fun r => negb (tr_amount r =? 0)) transfers.

Lemma request_script_made from r :
  hash160_ok from -> transfer_request_ok r -> heap_serves (2 ^ 22) ->
  neoc_script_create_nep17_transfer NEOC_GAS_TOKEN_HASH from (tr_to r) (tr_amount r) (tr_data r) (tr_data_len r) = Ok (request_script from r) /\
  0 < zlen (request_script from r).
Proof.
  intros Hf (Ht & Hl & Hs) Hh. split.
  - rewrite Hl. apply nep17_transfer_bytes; [done|done|done|eval_pows; lia|eapply heap_serves_mono; [exact Hh|lia]].
  - unfold request_script, transfer_bytes. rewrite !zlen_app. change (zlen [byte_of_Z NEOC_OP_ASSERT]) with 1. change (zlen [byte_of_Z NEOC_OP_PACK]) with 1.
    repeat match goal with |- context [zlen ?l] => let x := fresh in pose proof (zlen_nonneg l) as x; revert x; generalize (zlen l) end.
    intros. lia.
Qed.

Lemma append_transfers_spec from transfers : hash160_ok from -> Forall transfer_request_ok transfers -> forall combined,
  heap_serves (zlen combined + zlen (concat (map (request_script from) transfers)) + 2 ^ 22) ->
  append_transfers from transfers combined =
  if no_empty_transfer transfers then Ok (combined ++ concat (map (request_script from) transfers)) else Err NEOC_ERROR_INVALID_ARGUMENT.
Proof.
  intros Hf Hr. induction Hr as [|r transfers Hr _ IH]; intros combined Hh; cbn [append_transfers no_empty_transfer forallb map concat] in *.
  { by rewrite app_nil_r. }
  destruct (tr_amount r =? 0); [done|]. cbn [negb andb].
  pose proof (zlen_nonneg combined). pose proof (zlen_nonneg (concat (map (request_script from) transfers))). rewrite zlen_app in Hh.
  destruct (request_script_made from r Hf Hr) as [-> Hp]; [eapply heap_serves_mono; [exact Hh|pose proof (zlen_nonneg (request_script from r)); lia]|].
  cbn [rbind]. unfold neoc_malloc_ok. cmps. rewrite Hh by lia. cbn [negb].
  rewrite IH by (rewrite zlen_app; eapply heap_serves_mono; [exact Hh|lia]). rewrite <- app_assoc. done.
Qed.

(** The script of several transfers is the scripts of the transfers one after the other; a transfer of nothing anywhere in the
    list refuses the whole list. *)
Theorem gas_multi_transfer_appends token from transfers :
  is_ok (neoc_gas_token_validate token) = true -> transfers <> [] -> hash160_ok from -> Forall transfer_request_ok transfers ->
  heap_serves (zlen (concat (map (request_script from) transfers)) + 2 ^ 22) ->
  neoc_gas_token_build_multi_transfer_script token from (Some transfers) =
  if no_empty_transfer transfers then Ok (concat (map (request_script from) transfers)) else Err NEOC_ERROR_INVALID_ARGUMENT.
Proof.
  intros Ht Hne Hf Hr Hh. unfold neoc_gas_token_build_multi_transfer_script. destruct transfers as [|r rs]; [done|].
  destruct (neoc_gas_token_validate token) as [f| |] eqn:Ev; [|done|done]. cbn [rbind].
  by apply (append_transfers_spec from (r :: rs) Hf Hr []).
Qed.
End Gas.

(** ** The other contracts *)

Section Others.
Context `{Allocator} `{Interop} `{PointArith}.

Lemma emit_only_ok prog hash method n vs len :
  calls prog hash method n vs len -> zlen hash = 20 -> 0 <= len + zlen method <= 2 ^ 30 -> heap_serves (2 * (len + zlen method) + 1024) ->
  emit_only prog = Ok tt.
Proof.
  intros (pre & W & P & L) Hh Hl Hheap. pose proof (pack_size n). pose proof (tail_size hash method NEOC_CALL_FLAGS_ALL Hh).
  pose proof (zlen_nonneg pre). unfold emit_only, neoc_script_builder_create, neoc_malloc_ok, builder_struct_size.
  cbn [Z.eqb]. rewrite (Hheap 8) by lia. cbn [negb].
  destruct (writer_create_succeeds builder_capacity true _ Hheap) as [w Ew]; [unfold writer_struct_size; lia|unfold builder_capacity; lia|].
  rewrite Ew. cbn [rbind]. apply writer_create_ok in Ew as (Hw & _ & P0 & G0 & _); [|unfold builder_capacity; lia].
  destruct (writes_run _ _ w W Hw G0) as (w' & E & _); [rewrite P0, !zlen_app; unfold stream_max; lia| |by rewrite E].
  rewrite P0, !zlen_app. eapply heap_serves_mono; [exact Hheap|lia].
Qed.

(** The fee that is set is the fee that is read; the other values stay. *)
Theorem policy_set_get policy fee :
  0 <= fee < 2 ^ 64 -> heap_serves 2048 ->
  exists policy', neoc_policy_set_fee_per_byte fee policy = (Ok tt, policy') /\
    neoc_policy_get_fee_per_byte policy' = Ok fee /\
    neoc_policy_get_exec_fee_factor policy' = Ok (po_exec_fee_factor policy) /\
    neoc_policy_get_storage_price policy' = Ok (po_storage_price policy).
Proof.
  intros Hf Hh. assert (forall method, zlen method <= 64 -> policy_call method = Ok tt) as Hcall.
  { intros method Hm. pose proof (zlen_nonneg method). apply (emit_only_ok _ (reverse (hash160_data POLICY_CONTRACT_HASH)) method 0 [] 0);
      [apply calls_app_call; done|done|eval_pows; lia|eapply heap_serves_mono; [exact Hh|lia]]. }
  eexists. split.
  - unfold neoc_policy_set_fee_per_byte, bind, lift.
    rewrite (emit_only_ok _ (reverse (hash160_data POLICY_CONTRACT_HASH)) (str "setFeePerByte") 1 ([Integer (swrap 64 fee)] ++ []) (9 + 0)); [done| |done|done|].
    + apply calls_push; [|by apply calls_app_call]. apply emits_integer. pose proof (swrap_range 64 fee ltac:(lia)). unfold int64. cmps. lia.
    + eapply heap_serves_mono; [exact Hh|]. change (zlen (str "setFeePerByte")) with 13. lia.
  - unfold neoc_policy_get_fee_per_byte, neoc_policy_get_exec_fee_factor, neoc_policy_get_storage_price. by rewrite !Hcall by done.
Qed.

(** Asked about any contract, the wrapper answers that it is there. *)
Theorem has_contract_always hash :
  hash160_ok hash -> heap_serves 2048 -> neoc_contract_management_has_contract hash = Ok true.
Proof.
  intros Ho Hh. unfold neoc_contract_management_has_contract, neoc_contract_management_get_contract.
  rewrite (emit_only_ok _ (reverse (hash160_data CONTRACT_MANAGEMENT_HASH)) (str "getContract") 1 ([ByteString (reverse (hash160_data hash))] ++ []) (25 + 0));
    [| |done|done|].
  - cbn [rbind]. unfold neoc_malloc_ok, contract_state_struct_size. cbn [Z.eqb]. by rewrite Hh by lia.
  - apply calls_push; [by apply emits_hash160|by apply calls_app_call].
  - eapply heap_serves_mono; [exact Hh|]. change (zlen (str "getContract")) with 11. lia.
Qed.
End Others.

(** ** Scripts that do not pass what they were given *)

Section Misfits.
Context `{Allocator} `{Interop} `{PointArith}.

Lemma emits_points nodes ps :
  sec1_works -> heap_serves 128 -> Forall2 (fun e p => stands_for e (ec_affine p)) nodes ps ->
  emits (push_items push_point nodes (zlen nodes)) (map (fun p => ByteString (EC_POINT_point2oct true p)) ps) (38 * zlen nodes).
Proof.
  intros Hs Hh Hf. induction Hf as [|e p nodes ps He _ (bs & W & P & L)]; [exists []; split_and!; [apply writes_ret|apply pushes_all_nil|done]|].
  destruct (emits_point e p Hs Hh He) as (b1 & W1 & P1 & L1). exists (b1 ++ bs). pose proof (zlen_nonneg nodes). rewrite zlen_cons. split_and!.
  - cbn [push_items]. cmps. replace (1 + zlen nodes - 1) with (zlen nodes) by lia. by apply writes_bind.
  - by apply (pushes_all_app b1 [_]).
  - rewrite zlen_app. lia.
Qed.

(** The nodes are not packed into an array and their number is pushed in front of them: the contract is called
    with the role and the last node (or the number 0), and the rest is left on the stack. *)
Theorem designate_calls role nodes ps :
  sec1_works -> 0 <= role < 256 -> Forall2 (fun e p => stands_for e (ec_affine p)) nodes ps -> zlen nodes <= 2 ^ 20 ->
  heap_serves (2 ^ 28) ->
  exists script,
    script_with (designate_script role nodes (zlen nodes)) = Ok script /\
    runs (script, [])
      (syscall_bytes NEOC_INTEROP_SYSTEM_CONTRACT_CALL,
       called (reverse (hash160_data ROLE_MANAGEMENT_CONTRACT_HASH)) (str "designateAsRole") NEOC_CALL_FLAGS_ALL 2
         (Integer role :: rev (map (fun p => ByteString (EC_POINT_point2oct true p)) ps) ++ [Integer (zlen nodes)])).
Proof.
  intros Hs Hr Hf Hl Hh. pose proof (zlen_nonneg nodes). assert (heap_serves 128) as Hh' by (eapply heap_serves_mono; [exact Hh|lia]).
  set (keys := map (fun p => ByteString (EC_POINT_point2oct true p)) ps).
  destruct (calls_script (designate_script role nodes (zlen nodes)) (reverse (hash160_data ROLE_MANAGEMENT_CONTRACT_HASH)) (str "designateAsRole") 2
    ([Integer (zlen nodes)] ++ keys ++ [Integer role] ++ []) (9 + (38 * zlen nodes + (9 + 0)))) as (script & Es & _ & Hrun); try done.
  - unfold designate_script. rewrite swrap_small by (eval_pows; lia).
    apply calls_push; [apply emits_integer; unfold int64; cmps; lia|]. apply calls_push; [by apply emits_points|].
    apply calls_push; [apply emits_integer; unfold int64; cmps; lia|by apply calls_app_call].
  - rewrite !zlen_app. change (zlen [Integer (zlen nodes)]) with 1. change (zlen [Integer role]) with 1. pose proof (zlen_nonneg keys).
    pose proof (zlen_nonneg (@nil item)). lia.
  - change (zlen (str "designateAsRole")) with 15. eval_pows. lia.
  - change (zlen (str "designateAsRole")) with 15. eapply heap_serves_mono; [exact Hh|]. lia.
  - exists script. split; [done|]. rewrite !app_nil_r, !rev_app_distr, <- app_assoc in Hrun. exact Hrun.
Qed.

(** The scripts that transfer a non-fungible token, or ask for its owner, its properties or the tokens of an account
    pack arguments that nobody pushed: the machine stops there. *)
Theorem nft_scripts_stuck nft method n :
  hash160_ok (tk_contract_hash (nft_base nft)) -> 0 < n < 2 ^ 31 -> zlen method <= 64 -> heap_serves 2048 ->
  exists script rest, script_with (nft_call nft method n) = Ok script /\
    runs (script, []) (byte_of_Z NEOC_OP_PACK :: rest, [Integer n]) /\
    step (byte_of_Z NEOC_OP_PACK :: rest, [Integer n]) = None.
Proof.
  intros Hk Hn Hm Hh. pose proof (zlen_nonneg method).
  apply (calls_stuck (nft_call nft method n) (reverse (hash160_data (tk_contract_hash (nft_base nft)))) method n [] 0).
  - apply calls_app_call; [eval_pows; lia|done].
  - rewrite zlen_nil. eval_pows. lia.
  - eval_pows. lia.
  - by rewrite zlen_reverse.
  - eval_pows. lia.
  - eapply heap_serves_mono; [exact Hh|lia].
Qed.

(** Names, record types, owners and data reach the name service in the order of its methods' parameters; the owner's
    hash goes in the order of the struct, where the other wrappers reverse it. *)
Theorem nns_calls name owner type data :
  hash160_ok owner -> 0 <= type < 256 -> 0 < zlen name <= 1024 -> 0 < zlen data <= 1024 -> heap_serves 8192 ->
  let calls_with prog method args :=
    exists script, script_with prog = Ok script /\
      runs (script, [])
        (syscall_bytes NEOC_INTEROP_SYSTEM_CONTRACT_CALL,
         [ByteString (reverse (hash160_data NNS_CONTRACT_HASH)); ByteString method; Integer NEOC_CALL_FLAGS_ALL; VArray args]) in
  calls_with (resolve_script name type) (str "resolve") [ByteString name; Integer type] /\
  calls_with (register_script name owner) (str "register") [ByteString name; ByteString (hash160_data owner)] /\
  calls_with (set_record_script name type data) (str "setRecord") [ByteString name; Integer type; ByteString data].
Proof.
  intros Ho Ht Hn Hd Hh calls_with. unfold hash160_ok, NEOC_HASH160_SIZE in Ho.
  assert (int64 type = true) as Hi by (unfold int64; cmps; lia).
  assert (forall s, 0 < zlen s <= 1024 -> emits (push_text s) [ByteString s] (5 + zlen s)) as Htext by (intros s Hs; apply emits_bytes; [done|eval_pows; lia]).
  assert (forall n method, 0 <= n <= 3 -> calls (nns_call method n) (reverse (hash160_data NNS_CONTRACT_HASH)) method n [] 0) as Hcall
    by (intros; apply calls_app_call; [eval_pows; lia|done]).
  assert (forall prog method n vs len, calls prog (reverse (hash160_data NNS_CONTRACT_HASH)) method n vs len ->
    n = zlen vs -> n <= 3 -> 0 < zlen method <= 64 -> len <= 3000 -> 0 <= len -> calls_with prog method (rev vs)) as Hrun.
  { intros prog method n vs len Hc -> Hl Hm Hlen Hlen0. pose proof (zlen_nonneg vs).
    destruct (calls_script prog _ method (zlen vs) vs len Hc) as (script & Es & _ & Hr); [lia|eval_pows; lia|eval_pows; lia|done|eval_pows; lia|
      eapply heap_serves_mono; [exact Hh|lia]|].
    exists script. split; [done|]. unfold called in Hr. rewrite data_item_long in Hr by lia. unfold zlen in Hr. rewrite Nat2Z.id in Hr.
    rewrite <- length_rev, firstn_all, drop_all in Hr. exact Hr. }
  split_and!.
  - eapply (Hrun _ _ 2 ([Integer type] ++ [ByteString name] ++ []) (9 + ((5 + zlen name) + 0))); try done; [|lia|lia].
    apply calls_push; [by apply emits_integer|]. apply calls_push; [by apply Htext|by apply Hcall].
  - eapply (Hrun _ _ 2 ([ByteString (hash160_data owner)] ++ [ByteString name] ++ []) ((5 + zlen (hash160_data owner)) + ((5 + zlen name) + 0)));
      try done; [|lia|lia].
    apply calls_push; [apply emits_bytes; [done|lia]|]. apply calls_push; [by apply Htext|by apply Hcall].
  - eapply (Hrun _ _ 3 ([ByteString data] ++ [Integer type] ++ [ByteString name] ++ []) ((5 + zlen data) + (9 + ((5 + zlen name) + 0))));
      try done; [|lia|lia].
    apply calls_push; [by apply Htext|]. apply calls_push; [by apply emits_integer|]. apply calls_push; [by apply Htext|by apply Hcall].
Qed.
End Misfits.

(** Longer names are never dearer, from two characters on. *)
Lemma standard_price_falls a b : 2 <= a <= b -> standard_price b <= standard_price a.
Proof.
  intros Hab. unfold standard_price.
  repeat match goal with |- context [if ?c then _ else _] => destruct c eqn:?; bdestruct end; lia.
Qed.

(** The hashes of one native contract in two files, in either byte order. *)
Example native_hashes_disagree :
  NEO_HASH <> NEOC_NEO_TOKEN_HASH /\ hash160_data NEO_HASH <> reverse (hash160_data NEOC_NEO_TOKEN_HASH) /\
  GAS_HASH <> NEOC_GAS_TOKEN_HASH /\ hash160_data GAS_HASH <> reverse (hash160_data NEOC_GAS_TOKEN_HASH) /\
  POLICY_HASH <> POLICY_CONTRACT_HASH /\ hash160_data POLICY_HASH <> reverse (hash160_data POLICY_CONTRACT_HASH) /\
  MANAGEMENT_HASH <> CONTRACT_MANAGEMENT_HASH /\ hash160_data MANAGEMENT_HASH <> reverse (hash160_data CONTRACT_MANAGEMENT_HASH).
Proof. repeat split; by vm_compute. Qed.

(** The pointers of a new NEO token are bytes of the hash. *)
Example neo_token_pointers `{Allocator} : heap_serves 128 ->
  exists token, neoc_neo_token_create = Ok token /\ nt_contract_hash token = 0x4d3d28bc40ea63f5 /\ nt_base_symbol token = 0xf2b305a38ec4050e /\
    nt_base_name token = 0xef4073a0.
Proof.
  intros Hh. unfold neoc_neo_token_create, neoc_malloc_ok, neo_token_struct_size. cbn [Z.eqb]. rewrite Hh by lia.
  eexists. split; [reflexivity|]. by vm_compute.
Qed.

(** A heap that serves everything. *)
Definition big_heap : Allocator := fun _ => true.

Section Samples.
#[local] Existing Instance mib_heap.
#[local] Existing Instance sample_interop.
#[local] Existing Instance sec1_curve_toy.
#[local] Existing Instance sec1_toy.

Definition blank_builder : neoc_tx_builder_t := mk_builder _ 0 0 0 [] 0 0 [] 0 None 0 false None.
Definition blank_state : tb_state := fresh_state blank_builder.

Lemma neo_transfer_calls_witness :
  exists script,
    neoc_neo_token_transfer sample160 sample160 (2 ^ 64 - 5) None 0 blank_state = (Ok tt, with_script script blank_state) /\
    runs (script, [])
      (syscall_bytes NEOC_INTEROP_SYSTEM_CONTRACT_CALL,
       [ByteString (reverse (hash160_data NEOC_NEO_TOKEN_HASH)); ByteString (str "transfer"); Integer NEOC_CALL_FLAGS_ALL;
        VArray [ByteString (reverse (hash160_data sample160)); ByteString (reverse (hash160_data sample160)); Integer (-5); Null]]).
Proof.
  apply (neo_transfer_calls sample160 sample160 (2 ^ 64 - 5) None blank_state).
  - vm_compute. reflexivity.
  - vm_compute. reflexivity.
  - lia.
  - vm_compute. discriminate.
  - apply mib_heap_serves. lia.
Defined.

Lemma nft_scripts_stuck_witness :
  exists script rest,
    script_with (nft_call (mk_nft (mk_token sample160 None None NEOC_TOKEN_TYPE_NON_FUNGIBLE) false) (str "transfer") 3) = Ok script /\
    runs (script, []) (byte_of_Z NEOC_OP_PACK :: rest, [Integer 3]) /\ step (byte_of_Z NEOC_OP_PACK :: rest, [Integer 3]) = None.
Proof.
  apply (nft_scripts_stuck (mk_nft (mk_token sample160 None None NEOC_TOKEN_TYPE_NON_FUNGIBLE) false) (str "transfer") 3).
  - vm_compute. reflexivity.
  - lia.
  - vm_compute. discriminate.
  - apply mib_heap_serves. lia.
Defined.

#[local] Existing Instance big_heap.

Lemma gas_multi_transfer_appends_witness :
  neoc_gas_token_build_multi_transfer_script
    (Some (mk_gas_token (Some (mk_fungible (mk_token NEOC_GAS_TOKEN_HASH None None NEOC_TOKEN_TYPE_FUNGIBLE) 8 0)))) sample160
    (Some [mk_transfer_request sample160 7 None 0; mk_transfer_request sample160 8 None 0]) =
  Ok (request_script sample160 (mk_transfer_request sample160 7 None 0) ++ request_script sample160 (mk_transfer_request sample160 8 None 0) ++ []).
Proof.
  apply (gas_multi_transfer_appends
    (Some (mk_gas_token (Some (mk_fungible (mk_token NEOC_GAS_TOKEN_HASH None None NEOC_TOKEN_TYPE_FUNGIBLE) 8 0)))) sample160
    [mk_transfer_request sample160 7 None 0; mk_transfer_request sample160 8 None 0]).
  - reflexivity.
  - discriminate.
  - vm_compute. reflexivity.
  - repeat constructor; vm_compute; discriminate.
  - intros m Hm. exact (eq_refl : @malloc_ok big_heap m = true).
Defined.
End Samples.
